(* ===== verification/_CoqProject ===== *)
-Q . S2P
Prelude.v
GoStrings.v
GoNet.v
Crypto.v
Aead.v
Rules.v
RuleTable.v
Mihomo.v
Netguard.v
Access.v
Sni.v
Quic.v
QuicProtect.v
QuicServer.v
Orchestrator.v
Db.v
Applier.v
ApplierSpec.v
ApplierStatus.v
Dns.v
DotConn.v
Upstream.v
Resolver.v
GoCodec.v
Exit.v
ExitSpec.v
RuleImport.v
Rulesets.v
Chinalist.v
PanelAuth.v
Host.v
Mtg.v
Supervisor.v
GoIP.v
Frontdoor.v
DnsTransports.v
Updater.v
Settings.v
Tgbot.v
LiveSettings.v
PanelSettings.v
WaShim.v
ApplyRing.v
ApplyApi.v
ImportOk.v
Backup.v
RulesApi.v
Installer.v
Routes.v
Preview.v
ImportApi.v
RulesetsApi.v
Collector.v
UpdateApi.v
Logs.v
Ios.v
CtlSocket.v
BotHandlers.v
Boot.v
BootNet.v
ConfigFile.v
GoQuote.v
Render.v
Legacy.v
Clone.v
InstallerCli.v
UnitFile.v
TlsConfigs.v
