(* ===== verification/Prelude.v ===== *)
(** * 5GPN-Go: a verification library

    5GPN is a DNS and proxy gateway: a daemon (cmd/5gpn) that answers DNS on
    several transports, classifies every name by the operator's rules,
    forwards what it must resolve to upstreams over DNS over TLS, spoofs what
    it must carry to its own SNI and QUIC forwarders, renders the
    configuration of the units it drives (mihomo among them), and is managed
    through an HTTP panel, a control socket, a Telegram bot and an installer.
    This library models the Go code under src/ as functions, state-passing
    programs and step relations, and proves what makes it correct.

    ** The parts and how they interact

    A rule list is validated and hashed (Rules), compiled by the resolver
    (RuleTable) and rendered for mihomo (Mihomo).  The variation service
    (Applier) is the only way rules and the active exit change: it assembles
    the effective rules, records a version and a snapshot in the database
    (Db), has the orchestrator write files, reload units and probe health
    (Orchestrator), and commits or rolls back; the panel's router (Routes)
    and handlers (ApplyApi, Backup, RulesApi, ImportApi, RulesetsApi), the
    control socket (CtlSocket) and the bot (Tgbot, BotHandlers) call it.  A
    configuration file is loaded (ConfigFile), copied cell by cell (Clone)
    and rendered for the other units (Render); a boot makes the state all of
    them start from (Boot) and decides what listens where (BootNet).  The
    front door (Frontdoor, Supervisor) owns the listeners; a
    message read by a transport (DnsTransports) goes through the access gate
    (Access) and the resolver (Resolver), which consults the published table
    and, when it forwards, the upstream race (Upstream) over multiplexed
    connections (DotConn).  TLS and QUIC clients that were sent here are
    carried by Sni, Quic / QuicServer and WaShim, whose destinations pass the
    address guard (Netguard).  Settings are rows (Settings) that act on the
    running daemon (LiveSettings, PanelSettings); Mtg, Updater, UpdateApi and
    the installer (Installer, Legacy, InstallerCli) change the host; the
    dashboard, the log stream and the profiles of the clients (Collector,
    Logs, Ios, Preview) read it.

    ** Files and sources

    Shared: Prelude (this file: the state and error monads, [wp], lists,
    options, tactics), GoStrings, GoNet, GoIP, GoCodec (the parts of Go's
    standard library the program computes with), GoQuote (strconv.Quote and
    its reader), Crypto and Aead (SHA-256, HMAC, AES-128, GCM), Host (files,
    modes, commands, and their failures).
      - Rules: internal/rules model.go, parse.go, hash.go, fallthrough.go,
        dryrun.go;  RuleImport: importlegacy.go, importgfwlist.go;
        Chinalist: chinalist.go;  Rulesets: internal/rulesets.
      - RuleTable: internal/resolver ruletable.go, classify.go;  Dns: the
        interface to miekg/dns;  DotConn: dotconn.go;  Upstream: upstream.go;
        Resolver: resolver.go, spoof.go, metrics.go.
      - ConfigFile: internal/config schema.go, loader.go;  Mihomo, Render:
        internal/config/render;  Clone: internal/core/assemble.go.
      - Boot: cmd/5gpn/main.go up to the first table;  BootNet: the rest.
      - Netguard: internal/netguard;  Access: internal/access.
      - Sni: internal/proxy/sniforward;  Quic, QuicProtect:
        internal/proxy/quicforward/parse.go;  QuicServer: its server.go;
        WaShim: internal/proxy/washim.go.
      - Orchestrator: internal/orchestrator;  Db: internal/db/queries.go and
        internal/exit/store.go;  Exit, ExitSpec: internal/exit/exit.go;
        Applier, ApplierSpec, ApplierStatus, ImportOk: internal/core.
      - Frontdoor, Supervisor, DnsTransports, TlsConfigs: internal/frontdoor.
      - PanelAuth: internal/api auth.go, middleware.go, panel.go;  ApplyRing
        and ApplyApi: applies.go and the handlers of rules.go, exits.go,
        snapshots.go that change state, with cmd/5gpn/ctl_socket_linux.go;
        Backup: the archive of snapshots.go;  RulesApi: the read side of
        these;  Preview: apply_preview.go;  ImportApi, RulesetsApi:
        rules_import.go, rulesets.go;  Routes: server.go, tls.go;
        Collector: internal/metrics with api metrics.go, dns_metrics.go;
        UpdateApi: update.go, system.go;  Logs: logs.go;  Ios: internal/ios
        with api ios.go and cmd/5gpn/ios_listener.go;  CtlSocket:
        cmd/5gpn/ctl_socket_linux.go and cmd/5gpn-ctl;  LiveSettings:
        frontdoor_proxy.go, internal_only.go and cmd/5gpn/spoof_runtime.go;
        PanelSettings: wizard.go, settings.go, preflight.go;  Settings:
        internal/settings.
      - Mtg: internal/mtgctl and api/mtproxy_settings.go;  Tgbot,
        BotHandlers: internal/tgbot;  Updater: internal/updater;  Installer:
        internal/installer env.go, actions.go, recorder.go;  Legacy:
        migrate.go, osdetect.go;  UnitFile: templates.go;  InstallerCli:
        cmd/5gpn-installer.

    A definition has the name of the Go function; a struct is a record with
    Go's field names.  A handler is the whole function: its guards in their
    order, every statement that changes state, every error branch.

    ** What the theorems show

      - Rules mean one thing: the compiled table is the sequential reading
        of the sorted list, a mihomo that keeps to its documentation routes
        names by the rendered lines as the resolver does, up to the exception
        the theorem states, the panel's dry run predicts the table, and an
        AutoProxy list means what its grammar says.
      - Parsers are exact and total: ClientHello and QUIC Initial (with a
        round trip through RFC 9001 protection, and the exact condition of
        their panics), rule lists, exit URIs, archives.
      - Applying is all or nothing: the orchestrator's life cycle under all
        failure patterns, resolver and database in step after every sequence
        of calls and from every boot on, answers and polls that tell the truth,
        references of exits in flight kept, backups that restore, and an
        assembled configuration that shares no cell with its base but those
        of the types the copier does not name.
      - The network side is safe in all interleavings: session caps, replies
        matched to queries, waiters released, the first authoritative reply
        wins, only sanitized questions forwarded, no dial to a private
        address, no public bind without the opt-in, transports that agree; a
        boot serves plain HTTP only when told to or off the configured TLS
        ports, and moves the panel off the forwarder's port.
      - What is written is read back: log events, profiles, migrated
        configurations and dnsdist's servers, whatever characters their
        values hold (a profile's: text of XML); the systemd unit, when no
        value breaks a line.
      - Control is guarded: sessions, lockout, bootstrap and every route of
        the panel, the control socket, one bot that serves its whitelist
        only, settings written whole or not at all and live as at boot,
        compensated rotations, contracts of the updater and the installer.

    ** Fuel and bounds

    A loop that is not structural takes as fuel the length of what it walks
    (plus one where the end is tested first), which each turn shortens: the
    parsers of Sni and Quic, whose theorems exclude the value that running
    out would give; [strip_runes], [runes_loop] and [fields_loop], whose
    lemmas need no more than that length; [ipv6_loop], with one turn per
    group.  [pick_loop] of DotConn tries the 65536 identifiers there are,
    [decimal_digits] as many digits as a 64-bit integer has;
    [cloneAnyValue] takes the depth of the value, and a cyclic one, which
    overflows Go's stack, has none.  [int] and
    [int64] are [Z] with the wrap-around written out where the code can
    overflow (Rules' [itoa], QUIC's variable-length integers, AES and SHA
    words); bytes are bytes.  Times are nanoseconds in [Z].  Outside ASCII,
    [strings.ToLower], [ToUpper] and [EqualFold] are the fields of the class
    [Unicode]; witnesses use a table that has no case outside ASCII.

    ** Failures, parameters and history

    What can fail consults a list of outcomes in the state (Orchestrator,
    Db, Applier, Chinalist, Rulesets, Host, Frontdoor, Settings, Installer);
    an exhausted list means success, so a theorem over all states is one over
    all failure patterns.  Concurrency is a step relation or a list of
    critical sections (QuicServer, DotConn, Frontdoor, WaShim, PanelAuth,
    Tgbot, Applier).  Code that is not in the repository is an argument, with
    what is relied on as a named hypothesis or a class of laws with an
    instance: miekg/dns, mihomo's routing, url.Parse, the JSON and YAML codecs, mime, JWT,
    bcrypt, the token bucket, HTTP answers, DNS lookups, systemctl and mtg,
    tar and gzip; so are the orders of [range] over a map and
    of [sort.Slice], generated names and UUIDs, the interfaces and the egress
    address of the host, the umask and GOOS.  History variables record what
    theorems speak of and the code does not keep: messages on the wire
    (DotConn), questions forwarded (Resolver), commands run (Host), public
    binds (Frontdoor), bots (Tgbot), operations done (Installer).

    ** Not modelled

    Sockets, accept loops and shutdown of third-party servers, opening and
    migrating SQLite, signals, flag parsing, logging and what is printed;
    template actions other than fields, the embedded web assets, the JSON
    helper of the API and the stubs for other systems: I/O and glue around
    the modelled functions.  The packet relay of the QUIC forwarder after its
    setup is a pair of byte streams.
*)
From Stdlib Require Import ZArith Lia.
From Stdlib Require Strings.Byte Strings.String.
From stdpp Require Export base gmap list strings sorting.

(** ** Bytes and Go strings

    A Go string and a Go [[]byte] are both a list of bytes; [str] turns a
    literal into one. *)
Abbreviation byte := Byte.byte.
Abbreviation bytes := (list Byte.byte).

#[export] Instance byte_eq_dec : EqDecision byte := Byte.byte_eq_dec.

#[export] Program Instance byte_countable : Countable byte :=
  inj_countable Byte.to_N Byte.of_N _.
Next Obligation. apply Byte.of_to_N. Qed.

Definition str (s : String.string) : bytes := String.list_byte_of_string s.

Declare Scope go_scope.
Delimit Scope go_scope with go.

(** Equality tests of Go ([==] on strings, bytes, integers) as booleans. *)
Notation "x == y" := (bool_decide (x = y)) (at level 70) : go_scope.
Notation "x != y" := (negb (bool_decide (x = y))) (at level 70) : go_scope.
#[global] Open Scope go_scope.

(** The unsigned value of a byte, and the byte of an integer ([byte(n)],
    which keeps the low eight bits). *)
Definition bz (b : byte) : Z := Z.of_N (Byte.to_N b).

Definition zb (z : Z) : byte :=
  match Byte.of_N (Z.to_N (z mod 256)) with Some b => b | None => Byte.x00 end.

Lemma bz_range b : (0 <= bz b < 256)%Z.
Proof. unfold bz. pose proof (Byte.to_N_bounded b). lia. Qed.

Lemma bz_zb z : bz (zb z) = (z mod 256)%Z.
Proof.
  unfold bz, zb. pose proof (Z.mod_pos_bound z 256 ltac:(lia)).
  destruct (Byte.of_N _) as [b|] eqn:E.
  - apply Byte.to_of_N in E. rewrite E. lia.
  - apply Byte.of_N_None_iff in E. lia.
Qed.

Lemma bz_inj b c : bz b = bz c -> b = c.
Proof.
  unfold bz. intros H%N2Z.inj.
  pose proof (Byte.of_to_N b) as Hb. pose proof (Byte.of_to_N c) as Hc.
  rewrite H in Hb. congruence.
Qed.

Lemma zb_bz b : zb (bz b) = b.
Proof. apply bz_inj. rewrite bz_zb. apply Z.mod_small, bz_range. Qed.

(** ** Outcomes of Go functions

    A call panics, returns its zero values with an error, or returns. *)
Inductive go (E A : Type) : Type :=
| Panic
| Fail (e : E)
| Ret (a : A).
Arguments Panic {E A}.
Arguments Fail {E A} e.
Arguments Ret {E A} a.

#[export] Instance go_ret E : MRet (go E) := fun A a => Ret a.
#[export] Instance go_bind E : MBind (go E) := fun A B f m =>
  match m with Panic => Panic | Fail e => Fail e | Ret a => f a end.

(** A Go function that returns a value and an error, and cannot panic. *)
Inductive res (E A : Type) : Type :=
| Err (e : E)
| Ok (a : A).
Arguments Err {E A} e.
Arguments Ok {E A} a.

#[export] Instance res_ret E : MRet (res E) := fun A a => Ok a.
#[export] Instance res_bind E : MBind (res E) := fun A B f m =>
  match m with Err e => Err e | Ok a => f a end.

Definition res_ok {E A} (r : res E A) : bool :=
  match r with Ok _ => true | Err _ => false end.

Definition go_of_res {E A} (r : res E A) : go E A :=
  match r with Ok a => Ret a | Err e => Fail e end.

(** ** Slices

    [len], indexing and slicing with Go's run-time checks; a [[]byte] here
    has its capacity equal to its length, so an upper bound past the length
    panics. *)
Definition len {A} (l : list A) : Z := Z.of_nat (length l).

Definition index {E} (b : bytes) (i : Z) : go E byte :=
  if ((0 <=? i) && (i <? len b))%Z
  then match b !! Z.to_nat i with Some x => Ret x | None => Panic end
  else Panic.

Definition slice {E} (b : bytes) (lo hi : Z) : go E bytes :=
  if ((0 <=? lo) && (lo <=? hi) && (hi <=? len b))%Z
  then Ret (take (Z.to_nat (hi - lo)) (drop (Z.to_nat lo) b))
  else Panic.

(** [b[lo:]] *)
Definition slice_from {E} (b : bytes) (lo : Z) : go E bytes := slice b lo (len b).

(** Big-endian readers of [encoding/binary]: the value of a byte list. *)
Definition be (b : bytes) : Z := foldl (fun acc x => acc * 256 + bz x)%Z 0%Z b.

(** [binary.BigEndian.Uint16(b[lo:lo+2])] and friends. *)
Definition uint_be {E} (n : Z) (b : bytes) (lo : Z) : go E Z :=
  s ← slice b lo (lo + n); mret (be s).

(** The [n]-byte big-endian encoding ([binary.BigEndian.PutUint]). *)
Fixpoint be_bytes (n : nat) (z : Z) : bytes :=
  match n with
  | O => []
  | S n => be_bytes n (z / 256) ++ [zb z]
  end.

(** ** Stable sorting

    [sort.SliceStable] with a key: the unique stable sorted permutation,
    computed by insertion.  [sort.Strings] is the same sort with the
    lexicographic order of byte strings. *)
Section sorting.
Context {A : Type} (leb : A -> A -> bool).

Fixpoint sort_insert (x : A) (l : list A) : list A :=
  match l with
  | [] => [x]
  | y :: l' => if leb x y then x :: l else y :: sort_insert x l'
  end.

Fixpoint stable_sort (l : list A) : list A :=
  match l with
  | [] => []
  | x :: l' => sort_insert x (stable_sort l')
  end.

Definition sorted : list A -> Prop := StronglySorted (fun x y => leb x y = true).

Lemma sort_insert_perm x l : Permutation (x :: l) (sort_insert x l).
Proof.
  induction l as [|y l IH]; simpl; [done|].
  destruct (leb x y); [done|]. rewrite <- IH. apply Permutation_swap.
Qed.

Lemma stable_sort_perm l : Permutation l (stable_sort l).
Proof.
  induction l as [|x l IH]; simpl; [done|].
  rewrite <- sort_insert_perm. by constructor.
Qed.

Lemma stable_sort_elem x l : x ∈ stable_sort l <-> x ∈ l.
Proof. by rewrite <- stable_sort_perm. Qed.

Lemma stable_sort_length l : length (stable_sort l) = length l.
Proof. by rewrite <- stable_sort_perm. Qed.

Context (leb_trans : forall x y z, leb x y = true -> leb y z = true -> leb x z = true)
  (leb_total : forall x y, leb x y = false -> leb y x = true).

Lemma sort_insert_sorted x l : sorted l -> sorted (sort_insert x l).
Proof.
  unfold sorted. induction l as [|y l IH]; simpl; intros Hs.
  - repeat constructor.
  - apply StronglySorted_inv in Hs as [Hs Hy].
    destruct (leb x y) eqn:E.
    + constructor; [by constructor|]. constructor; [done|].
      eapply Forall_impl; [exact Hy|]. eauto.
    + constructor; [auto|]. rewrite <- sort_insert_perm.
      constructor; auto.
Qed.

Lemma stable_sort_sorted l : sorted (stable_sort l).
Proof.
  induction l as [|x l IH]; simpl; [constructor|]. by apply sort_insert_sorted.
Qed.

Lemma sort_insert_snoc x l m :
  leb x m = true -> sort_insert x (l ++ [m]) = sort_insert x l ++ [m].
Proof.
  intros Hx. induction l as [|y l IH]; simpl; [by rewrite Hx|].
  destruct (leb x y); [done|]. by rewrite IH.
Qed.

Lemma sort_insert_max m l : Forall (fun y => leb m y = false) l -> sort_insert m l = l ++ [m].
Proof. induction 1 as [|y l Hy _ IH]; simpl; [done|]. by rewrite Hy, IH. Qed.

(** An element no less than the ones before it and greater than the ones
    after it sorts last. *)
Lemma stable_sort_last l1 m l2 :
  Forall (fun x => leb x m = true) l1 -> Forall (fun x => leb m x = false) l2 ->
  stable_sort (l1 ++ m :: l2) = stable_sort (l1 ++ l2) ++ [m].
Proof.
  intros H1 H2. induction H1 as [|x l1 Hx _ IH]; simpl.
  - apply sort_insert_max. by rewrite <- (stable_sort_perm l2).
  - rewrite IH. by apply sort_insert_snoc.
Qed.

Lemma sorted_last l m : sorted (l ++ [m]) -> Forall (fun x => leb x m = true) l.
Proof.
  unfold sorted. induction l as [|x l IH]; simpl; intros Hs; [constructor|].
  apply StronglySorted_inv in Hs as [Hs Hx]. constructor; [|auto].
  rewrite Forall_app, Forall_singleton in Hx. tauto.
Qed.

(** Sorting a filtered list filters the sorted list. *)
Lemma filter_sort_insert (P : A -> Prop) `{forall x, Decision (P x)} x l :
  sorted l ->
  filter P (sort_insert x l) =
  if decide (P x) then sort_insert x (filter P l) else filter P l.
Proof.
  unfold sorted. induction l as [|y l IH]; simpl; intros Hs; [by rewrite filter_cons|].
  apply StronglySorted_inv in Hs as [Hs Hy]. destruct (leb x y) eqn:E.
  - rewrite (filter_cons P x). case_decide as Hx; [|done].
    rewrite (filter_cons P y). case_decide; simpl; [by rewrite E|].
    destruct (filter P l) as [|z k] eqn:F; [done|]. simpl.
    assert (z ∈ l) as Hz by (eapply list_elem_of_filter; rewrite F; by left).
    rewrite Forall_forall in Hy. by rewrite (leb_trans x y z) by auto.
  - rewrite !(filter_cons P y), IH by done. repeat case_decide; try done.
    simpl. by rewrite E.
Qed.

Lemma filter_stable_sort (P : A -> Prop) `{forall x, Decision (P x)} l :
  filter P (stable_sort l) = stable_sort (filter P l).
Proof.
  induction l as [|x l IH]; simpl; [done|].
  rewrite filter_sort_insert, IH, filter_cons by apply stable_sort_sorted. by case_decide.
Qed.

(** Stability: the elements equivalent to a given one keep their order. *)
Lemma stable_sort_filter_key (P : A -> Prop) `{forall x, Decision (P x)} l :
  (forall x y, P x -> P y -> leb x y = true) ->
  filter P (stable_sort l) = filter P l.
Proof.
  intros HP.
  assert (Hins : forall x l, filter P (sort_insert x l) = filter P (x :: l)).
  { intros x l0. induction l0 as [|y l0 IH]; simpl; [done|].
    destruct (leb x y) eqn:E; [done|].
    rewrite filter_cons, IH, !filter_cons.
    repeat case_decide; try done. exfalso.
    rewrite HP in E; done. }
  induction l as [|x l IH]; simpl; [done|].
  by rewrite Hins, !filter_cons, IH.
Qed.
End sorting.

(** The first element of the sorted list with a property is the least one
    of the original list, the earliest among equals. *)
Fixpoint best {A} (leb : A -> A -> bool) (P : A -> bool) (l : list A) : option A :=
  match l with
  | [] => None
  | x :: l =>
      match best leb P l with
      | None => if P x then Some x else None
      | Some y => if P x && leb x y then Some x else Some y
      end
  end.

(** The element a search loop returns. *)
Definition found {A} (P : A -> bool) (l : list A) : option A :=
  snd <$> list_find (fun x => P x = true) l.

Section best.
Context {A : Type} (leb : A -> A -> bool) (P : A -> bool).
Context (leb_trans : forall x y z, leb x y = true -> leb y z = true -> leb x z = true)
  (leb_total : forall x y, leb x y = false -> leb y x = true).

Lemma found_cons x l : found P (x :: l) = if P x then Some x else found P l.
Proof.
  unfold found. simpl. destruct (decide (P x = true)) as [->|Hx]; [done|].
  apply not_true_is_false in Hx. rewrite Hx. by destruct (list_find _ l) as [[??]|].
Qed.

Lemma found_insert x l :
  sorted leb l ->
  found P (sort_insert leb x l) =
  match found P l with
  | None => if P x then Some x else None
  | Some y => if P x && leb x y then Some x else Some y
  end.
Proof.
  induction l as [|z l IH]; intros Hs; simpl.
  - rewrite found_cons. unfold found. simpl. by destruct (P x).
  - apply StronglySorted_inv in Hs as [Hs Hz].
    destruct (leb x z) eqn:E; rewrite !found_cons.
    + destruct (P x) eqn:Px, (P z) eqn:Pz; rewrite ?E; simpl; try done.
      * destruct (found P l) as [y|] eqn:F; [|done].
        assert (leb z y = true) as Hzy.
        { unfold found in F. destruct (list_find _ l) as [[i y']|] eqn:L; simplify_eq/=.
          apply list_find_Some in L as (Hl & _). rewrite Forall_lookup in Hz. eauto. }
        by rewrite (leb_trans _ _ _ E Hzy).
      * by destruct (found P l).
    + destruct (P z) eqn:Pz; [by rewrite E, andb_false_r|]. by rewrite IH.
Qed.

Lemma found_stable_sort l : found P (stable_sort leb l) = best leb P l.
Proof.
  induction l as [|x l IH]; [done|]. simpl.
  rewrite found_insert by auto using stable_sort_sorted. by rewrite IH.
Qed.

Lemma best_None l : best leb P l = None <-> Forall (fun x => P x = false) l.
Proof.
  induction l as [|x l IH]; simpl; [done|]. rewrite Forall_cons, <- IH. clear IH.
  destruct (best leb P l) as [y|], (P x); simpl; try destruct (leb x y); intuition congruence.
Qed.

(** [x] is at [i], matches, and no matching element beats it. *)
Definition least_at (l : list A) (i : nat) (x : A) : Prop :=
  l !! i = Some x /\ P x = true /\
  forall j y, l !! j = Some y -> P y = true -> leb x y = true /\ (leb y x = true -> (i <= j)%nat).

Lemma leb_refl x : leb x x = true.
Proof. destruct (leb x x) eqn:E; [done|]. by apply leb_total in E as E'; congruence. Qed.

Lemma best_least l x : best leb P l = Some x -> exists i, least_at l i x.
Proof.
  revert x. induction l as [|z l IH]; intros x; simpl; [done|].
  destruct (best leb P l) as [y|] eqn:B.
  - destruct (IH y eq_refl) as (i & Hi & Py & Hmin).
    destruct (P z && leb z y) eqn:C; intros [= <-].
    + apply andb_true_iff in C as [Pz Lz]. exists 0%nat. split; [done|split; [done|]].
      intros [|j] w Hj Pw; simplify_eq/=; split; try lia; [apply leb_refl|].
      destruct (Hmin j w Hj Pw). eauto.
    + exists (S i). split; [done|split; [done|]]. intros [|j] w Hj Pw; simplify_eq/=.
      * rewrite Pw in C. simpl in C. split; [auto|congruence].
      * destruct (Hmin j w Hj Pw) as [? Hle]. split; [done|]. intros L. specialize (Hle L). lia.
  - apply best_None in B. rewrite Forall_lookup in B.
    destruct (P z) eqn:Pz; intros [= <-]. exists 0%nat. split; [done|split; [done|]].
    intros [|j] w Hj Pw; simplify_eq/=; split; try lia; [apply leb_refl|].
    by rewrite (B j w Hj) in Pw.
Qed.

Lemma least_at_unique l i x j y : least_at l i x -> least_at l j y -> x = y.
Proof.
  intros (Hi & Px & Hx) (Hj & Py & Hy).
  destruct (Hx j y Hj Py) as [L1 L2], (Hy i x Hi Px) as [L3 L4].
  specialize (L2 L3). specialize (L4 L1). assert (i = j) as -> by lia. congruence.
Qed.

Lemma best_Some l x : best leb P l = Some x <-> exists i, least_at l i x.
Proof.
  split; [apply best_least|]. intros (i & Hx).
  destruct (best leb P l) as [y|] eqn:B.
  - apply best_least in B as (j & Hy). f_equal. by eapply least_at_unique.
  - apply best_None in B. rewrite Forall_lookup in B.
    destruct Hx as (Hi & Px & _). by rewrite (B _ _ Hi) in Px.
Qed.

Lemma found_None l : found P l = None <-> Forall (fun x => P x = false) l.
Proof.
  unfold found. rewrite fmap_None, list_find_None.
  apply Forall_iff. intros x. by rewrite not_true_iff_false.
Qed.
End best.

(** ** First match of a list

    Of two searches of one list, the one that stops first finds what the
    search for either property finds: the lemma behind every "earliest
    rule wins" argument. *)
Definition earlier {A} (a b : option (nat * A)) : option (nat * A) :=
  match a, b with
  | Some (i, x), Some (j, y) => if (j <? i)%nat then Some (j, y) else Some (i, x)
  | Some p, None => Some p
  | None, o => o
  end.

Lemma list_find_or {A} (P Q : A -> Prop) `{forall x, Decision (P x)}
    `{forall x, Decision (Q x)} (l : list A) :
  list_find (fun x => P x \/ Q x) l = earlier (list_find P l) (list_find Q l).
Proof.
  induction l as [|x l IH]; simpl; [done|].
  destruct (decide (P x)) as [HP|HP], (decide (Q x)) as [HQ|HQ];
    destruct (decide (P x \/ Q x)); try tauto; try done; simpl.
  - by destruct (list_find Q l) as [[??]|].
  - by destruct (list_find P l) as [[??]|].
  - rewrite IH. destruct (list_find P l) as [[i y]|], (list_find Q l) as [[j z]|]; simpl; try done.
    change (S j <? S i)%nat with (j <? i)%nat. by destruct (j <? i)%nat.
Qed.

Lemma list_find_false {A} (P : A -> Prop) `{forall x, Decision (P x)} (l : list A) :
  Forall (fun x => ~ P x) l -> list_find P l = None.
Proof. intros HF. by apply list_find_None. Qed.

Lemma list_find_snoc {A} (P : A -> Prop) `{forall x, Decision (P x)} (l : list A) x :
  list_find P (l ++ [x]) =
  match list_find P l with
  | Some p => Some p
  | None => if decide (P x) then Some (length l, x) else None
  end.
Proof.
  induction l as [|y l IH]; simpl.
  - by destruct (decide (P x)).
  - destruct (decide (P y)); [done|]. rewrite IH.
    destruct (list_find P l) as [[??]|]; simpl; [done|]. by destruct (decide (P x)).
Qed.

Lemma list_find_lt {A} (P : A -> Prop) `{forall x, Decision (P x)} (l : list A) i x :
  list_find P l = Some (i, x) -> (i < length l)%nat.
Proof. intros (Hl & _)%list_find_Some. by eapply lookup_lt_Some. Qed.

(** ** Lengths, slices and big-endian integers *)
Create HintDb golang.
Create Rewrite HintDb golen.

Lemma len_nonneg {A} (l : list A) : (0 <= len l)%Z.
Proof. unfold len. lia. Qed.
Lemma len_app {A} (l k : list A) : len (l ++ k) = (len l + len k)%Z.
Proof. unfold len. rewrite length_app. lia. Qed.
Lemma len_cons {A} (x : A) l : len (x :: l) = (1 + len l)%Z.
Proof. unfold len. simpl. lia. Qed.
Lemma len_nil {A} : len (@nil A) = 0%Z.
Proof. done. Qed.
#[export] Hint Rewrite @len_app @len_cons @len_nil : golen.

(** Decide the run-time checks and conditions of Go code by [lia]. *)
Ltac go_len := autorewrite with golen in *; unfold len in *; lia.

Lemma slice_ok {E} b lo hi :
  (0 <= lo <= hi)%Z -> (hi <= len b)%Z ->
  @slice E b lo hi = Ret (take (Z.to_nat (hi - lo)) (drop (Z.to_nat lo) b)).
Proof.
  intros ??. unfold slice.
  replace (_ && _ && _) with true; [done|]. symmetry. rewrite !andb_true_iff. lia.
Qed.

Lemma slice_inv {E} b lo hi s :
  @slice E b lo hi = Ret s -> (0 <= lo <= hi)%Z /\ (hi <= len b)%Z /\ len s = (hi - lo)%Z.
Proof.
  unfold slice. destruct (_ && _ && _) eqn:C; [|done].
  rewrite !andb_true_iff in C. intros [= <-].
  repeat split; try lia. unfold len in *. rewrite length_take, length_drop. lia.
Qed.

Lemma slice_panic {E} b lo hi :
  (len b < hi)%Z -> @slice E b lo hi = Panic.
Proof.
  intros ?. unfold slice. replace (_ && _ && _) with false; [done|].
  symmetry. rewrite !andb_false_iff. lia.
Qed.

Lemma slice_app {E} a b c lo hi :
  lo = len a -> hi = (len a + len b)%Z -> @slice E (a ++ b ++ c) lo hi = Ret b.
Proof.
  intros -> ->. rewrite slice_ok by (pose proof (len_nonneg c); go_len).
  f_equal. unfold len. replace (Z.to_nat (_ - _)) with (length b) by lia.
  rewrite Nat2Z.id, drop_app_length. apply take_app_length.
Qed.

Lemma index_ok {E} b i :
  (0 <= i < len b)%Z -> exists x, @index E b i = Ret x /\ b !! Z.to_nat i = Some x.
Proof.
  intros ?. unfold index. replace (_ && _) with true by (symmetry; rewrite andb_true_iff; lia).
  destruct (lookup_lt_is_Some_2 b (Z.to_nat i)) as [x Hx]; [unfold len in *; lia|].
  exists x. by rewrite Hx.
Qed.

Lemma index_app {E} a x c i : i = len a -> @index E (a ++ x :: c) i = Ret x.
Proof.
  intros ->. destruct (@index_ok E (a ++ x :: c) (len a)) as (y & -> & Hy).
  { pose proof (len_nonneg c). go_len. }
  unfold len in Hy. rewrite Nat2Z.id, list_lookup_middle in Hy by done. congruence.
Qed.

Lemma be_foldl b acc :
  foldl (fun acc x => acc * 256 + bz x)%Z acc b = (acc * 256 ^ len b + be b)%Z.
Proof.
  unfold be. revert acc. induction b as [|x b IH]; intros acc; simpl.
  - rewrite len_nil. lia.
  - rewrite IH, (IH (0 * 256 + bz x)%Z), len_cons, Z.pow_add_r by (pose proof (len_nonneg b); lia). lia.
Qed.

Lemma be_app a b : be (a ++ b) = (be a * 256 ^ len b + be b)%Z.
Proof. unfold be at 1. by rewrite foldl_app, be_foldl. Qed.

Lemma be_range b : (0 <= be b < 256 ^ len b)%Z.
Proof.
  induction b as [|x b IH] using rev_ind; [done|].
  rewrite be_app, len_app, Z.pow_add_r by apply len_nonneg.
  replace (len [x]) with 1%Z by done. change (be [x]) with (0 * 256 + bz x)%Z.
  pose proof (bz_range x). nia.
Qed.

Lemma be_bytes_len n z : len (be_bytes n z) = Z.of_nat n.
Proof. revert z. induction n; intros z; simpl; [done|]. rewrite len_app, IHn, len_cons, len_nil. lia. Qed.

Lemma be_be_bytes n z : be (be_bytes n z) = (z mod 256 ^ Z.of_nat n)%Z.
Proof.
  revert z. induction n as [|n IH]; intros z; simpl be_bytes.
  - by rewrite Z.mod_1_r.
  - rewrite be_app, IH, len_cons, len_nil. change (be [zb z]) with (0 * 256 + bz (zb z))%Z.
    rewrite bz_zb, Nat2Z.inj_succ, Z.pow_succ_r by lia.
    rewrite (Z.rem_mul_r z 256) by lia. lia.
Qed.

Lemma uint_be_ok {E} n b lo :
  (0 <= n)%Z -> (0 <= lo)%Z -> (lo + n <= len b)%Z ->
  exists v, @uint_be E n b lo = Ret v /\ (0 <= v < 256 ^ n)%Z.
Proof.
  intros ???. unfold uint_be. rewrite slice_ok by lia. simpl.
  eexists; split; [done|].
  pose proof (be_range (take (Z.to_nat (lo + n - lo)) (drop (Z.to_nat lo) b))) as HR.
  replace (len _) with n in HR; [done|].
  unfold len in *. rewrite length_take, length_drop. lia.
Qed.

Lemma uint_be_app {E} n a b c lo :
  lo = len a -> n = len b -> @uint_be E n (a ++ b ++ c) lo = Ret (be b).
Proof. intros -> ->. unfold uint_be. by rewrite slice_app. Qed.

(** ** A small program logic: a call returns, with a property of the result

    [returns m P] excludes both the panic and the error. *)
Definition returns {E A} (m : go E A) (P : A -> Prop) : Prop :=
  match m with Ret a => P a | _ => False end.

Lemma returns_bind {E A B} (m : go E A) (f : A -> go E B) P Q :
  returns m P -> (forall a, P a -> returns (f a) Q) -> returns (m ≫= f) Q.
Proof. destruct m; simpl; try done. auto. Qed.

Lemma returns_mono {E A} (m : go E A) (P Q : A -> Prop) :
  returns m P -> (forall a, P a -> Q a) -> returns m Q.
Proof. destruct m; simpl; auto. Qed.

Lemma returns_inv {E A} (m : go E A) P : returns m P -> exists a, m = Ret a /\ P a.
Proof. destruct m; simpl; try done. eauto. Qed.

Lemma index_returns {E} b i : (0 <= i < len b)%Z -> returns (@index E b i) (fun _ => True).
Proof. intros Hi. destruct (@index_ok E b i Hi) as (x & -> & _). done. Qed.

Lemma slice_returns {E} b lo hi :
  (0 <= lo <= hi)%Z -> (hi <= len b)%Z -> returns (@slice E b lo hi) (fun s => len s = (hi - lo)%Z).
Proof.
  intros H1 H2. rewrite slice_ok by done. simpl. unfold len in *. rewrite length_take, length_drop. lia.
Qed.

Lemma uint_be_returns {E} n b lo :
  (0 <= n)%Z -> (0 <= lo)%Z -> (lo + n <= len b)%Z ->
  returns (@uint_be E n b lo) (fun v => 0 <= v < 256 ^ n)%Z.
Proof. intros H1 H2 H3. destruct (@uint_be_ok E n b lo H1 H2 H3) as (v & -> & Hv). done. Qed.

(** One step of a checked program: the range conditions go to [lia]. *)
Ltac go_step :=
  eapply returns_bind;
  [first [apply index_returns | apply slice_returns | apply uint_be_returns]; lia
  |let H := fresh in intros ? H; cbv beta in H].

(** ** Stateful code: a state monad, its errors, and weakest preconditions

    [let!] sequences two steps; [let?] stops at the first error, as
    [if err != nil { return ..., err }] does. *)
Definition ST (W A : Type) : Type := W -> A * W.

Definition ret {W A} (a : A) : ST W A := fun w => (a, w).
Definition bind {W A B} (m : ST W A) (f : A -> ST W B) : ST W B :=
  fun w => let '(a, w) := m w in f a w.
Definition bindE {W E A B} (m : ST W (res E A)) (f : A -> ST W (res E B)) : ST W (res E B) :=
  bind m (fun r => match r with Ok a => f a | Err e => ret (Err e) end).
Definition modify {W} (f : W -> W) : ST W unit := fun w => (tt, f w).
Definition gets {W A} (f : W -> A) : ST W A := fun w => (f w, w).

Declare Scope st_scope.
Delimit Scope st_scope with st.
Notation "'let!' x := m 'in' k" := (bind m (fun x => k))
  (at level 10, x pattern, m at level 100, k at level 200) : st_scope.
Notation "'let?' x := m 'in' k" := (bindE m (fun x => k))
  (at level 10, x pattern, m at level 100, k at level 200) : st_scope.
#[global] Open Scope st_scope.

Definition wp {W A} (m : ST W A) (Q : A -> W -> Prop) (w : W) : Prop :=
  let '(a, w') := m w in Q a w'.

(** A run whose answer is known. *)
Lemma fst_pair {A B} (p : A * B) a : p.1 = a -> p = (a, p.2).
Proof. by destruct p; intros <-. Qed.

Lemma wp_bind {W A B} (m : ST W A) (f : A -> ST W B) Q w :
  wp m (fun a w => wp (f a) Q w) w -> wp (bind m f) Q w.
Proof. unfold wp, bind. by destruct (m w). Qed.

Lemma wp_mono {W A} (m : ST W A) (Q Q' : A -> W -> Prop) w :
  wp m Q w -> (forall a w', Q a w' -> Q' a w') -> wp m Q' w.
Proof. unfold wp. destruct (m w). eauto. Qed.

Lemma wp_any {W A} (m : ST W A) (Q : A -> W -> Prop) w : (forall a w', Q a w') -> wp m Q w.
Proof. intros HQ. unfold wp. by destruct (m w). Qed.

Lemma wp_ret {W A} (a : A) (Q : A -> W -> Prop) w : Q a w -> wp (ret a) Q w.
Proof. done. Qed.

Lemma wp_bindE {W E A B} (m : ST W (res E A)) (f : A -> ST W (res E B)) (Q : res E B -> W -> Prop) w :
  wp m (fun r w => match r with Ok a => wp (f a) Q w | Err e => Q (Err e) w end) w -> wp (bindE m f) Q w.
Proof. unfold bindE. intros Hm. apply wp_bind. eapply wp_mono; [exact Hm|]. by intros [e|a] w'. Qed.

Lemma wp_gets {W A} (f : W -> A) (Q : A -> W -> Prop) w : Q (f w) w -> wp (gets f) Q w.
Proof. done. Qed.

Lemma wp_modify {W} (f : W -> W) (Q : unit -> W -> Prop) w : Q tt (f w) -> wp (modify f) Q w.
Proof. done. Qed.

Lemma wp_elim {W A} (m : ST W A) Q w a w' : wp m Q w -> m w = (a, w') -> Q a w'.
Proof. unfold wp. intros H E. by rewrite E in H. Qed.

(** Runs the first step by its lemma [L]. *)
Ltac wp_run L := apply wp_bind; eapply wp_mono; [apply L|]; cbv beta.

(** [keeps I m]: from a state where [I] holds, [m] leads to one where it
    holds. *)
Definition keeps {W A} (I : W -> Prop) (m : ST W A) : Prop := forall w, I w -> I (snd (m w)).

Section keeps.
Context {W : Type} (I : W -> Prop).

Lemma keeps_ret {A} (a : A) : keeps I (ret a).
Proof. by intros w H. Qed.

Lemma keeps_bind {A B} (m : ST W A) (f : A -> ST W B) :
  keeps I m -> (forall a, keeps I (f a)) -> keeps I (bind m f).
Proof.
  intros Hm Hf w H. unfold bind. specialize (Hm w H). destruct (m w) as [a w1]. by apply Hf.
Qed.

Lemma keeps_bindE {E A B} (m : ST W (res E A)) (f : A -> ST W (res E B)) :
  keeps I m -> (forall a, keeps I (f a)) -> keeps I (bindE m f).
Proof. intros Hm Hf. apply keeps_bind; [done|]. intros [e|a]; [apply keeps_ret|apply Hf]. Qed.

Lemma keeps_modify f : (forall w, I w -> I (f w)) -> keeps I (modify f).
Proof. intros Hf w. apply Hf. Qed.

Lemma keeps_gets {A} (f : W -> A) : keeps I (gets f).
Proof. by intros w H. Qed.

Lemma keeps_wp {A} (m : ST W A) w : keeps I m -> I w -> wp m (fun _ => I) w.
Proof. intros Hm H. specialize (Hm w H). unfold wp. by destruct (m w). Qed.

Lemma keeps_of_wp {A} (m : ST W A) : (forall w, I w -> wp m (fun _ => I) w) -> keeps I m.
Proof. intros Hm w H. specialize (Hm w H). unfold wp in Hm. by destruct (m w). Qed.
End keeps.

Create HintDb st.
#[export] Hint Resolve keeps_ret keeps_gets : st.
