(* ===== verification/GoStrings.v ===== *)
(** * The functions of Go's [strings] package the program uses

    Strings are byte lists.  [TrimSpace], [Split], [HasPrefix] and the rest
    are exact on every byte string.  [ToLower], [ToUpper] and [EqualFold]
    are exact on ASCII strings, where Go takes a byte-wise fast path; on
    other strings Go consults the Unicode tables, which are the fields of
    the class [Unicode], an argument of everything that reaches them. *)
From S2P Require Import Prelude.
From Stdlib Require Import ZArith Lia.

(** ** The Unicode tables *)
Class Unicode := {
  unicode_lower : bytes -> bytes;       (* strings.Map(unicode.ToLower, s) *)
  unicode_upper : bytes -> bytes;       (* strings.Map(unicode.ToUpper, s) *)
  unicode_fold : bytes -> bytes -> bool (* the rune loop of strings.EqualFold *)
}.

(** A concrete table for evaluation: no case outside ASCII. *)
Definition ascii_tables : Unicode :=
  {| unicode_lower := id; unicode_upper := id; unicode_fold := fun s t => s == t |}.

Definition is_ascii (s : bytes) : bool := forallb (fun b => bz b <? 128)%Z s.

Definition lower_byte (b : byte) : byte :=
  if ((65 <=? bz b) && (bz b <=? 90))%Z then zb (bz b + 32) else b.

Definition upper_byte (b : byte) : byte :=
  if ((97 <=? bz b) && (bz b <=? 122))%Z then zb (bz b - 32) else b.

Section unicode.
Context `{Unicode}.

Definition ToLower (s : bytes) : bytes :=
  if is_ascii s then map lower_byte s else unicode_lower s.

Definition ToUpper (s : bytes) : bytes :=
  if is_ascii s then map upper_byte s else unicode_upper s.

Definition EqualFold (s t : bytes) : bool :=
  if is_ascii s && is_ascii t then map lower_byte s == map lower_byte t
  else unicode_fold s t.
End unicode.

(** ** Prefixes, suffixes and substrings *)
Definition HasPrefix (s p : bytes) : bool := bool_decide (p `prefix_of` s).
Definition HasSuffix (s p : bytes) : bool := bool_decide (p `suffix_of` s).

Definition TrimPrefix (s p : bytes) : bytes :=
  if HasPrefix s p then drop (length p) s else s.
Definition TrimSuffix (s p : bytes) : bytes :=
  if HasSuffix s p then take (length s - length p) s else s.

(** [strings.Index], [None] for -1. *)
Fixpoint Index (s sub : bytes) : option nat :=
  if HasPrefix s sub then Some 0%nat
  else match s with [] => None | _ :: s' => S <$> Index s' sub end.

Definition Contains (s sub : bytes) : bool :=
  match Index s sub with Some _ => true | None => false end.

(** [strings.IndexAny] for an ASCII set. *)
Definition IndexAny (s cs : bytes) : option nat :=
  fst <$> list_find (fun b => b ∈ cs) s.

Definition ContainsAny (s cs : bytes) : bool :=
  match IndexAny s cs with Some _ => true | None => false end.

(** [strings.TrimLeft], [TrimRight] and [Trim] for an ASCII cutset. *)
Fixpoint TrimLeft (s cs : bytes) : bytes :=
  match s with
  | [] => []
  | b :: s' => if bool_decide (b ∈ cs) then TrimLeft s' cs else s
  end.
Definition TrimRight (s cs : bytes) : bytes := reverse (TrimLeft (reverse s) cs).
Definition Trim (s cs : bytes) : bytes := TrimRight (TrimLeft s cs) cs.

(** [strings.Split] and [strings.Join] with a one-byte separator. *)
Fixpoint Split (s : bytes) (c : byte) : list bytes :=
  match s with
  | [] => [[]]
  | b :: s' =>
      if b == c then [] :: Split s' c
      else match Split s' c with
           | [] => [[b]]
           | w :: ws => (b :: w) :: ws
           end
  end.

Fixpoint Join (ws : list bytes) (c : byte) : bytes :=
  match ws with
  | [] => []
  | [w] => w
  | w :: ws => w ++ c :: Join ws c
  end.

(** ** [strings.TrimSpace]

    The UTF-8 encodings of the runes of [unicode.IsSpace]: the six ASCII
    ones, U+0085, U+00A0, U+1680, U+2000 to U+200A, U+2028, U+2029, U+202F,
    U+205F and U+3000. *)
Definition space_runes : list bytes :=
  map (map zb)
  ([[9]; [10]; [11]; [12]; [13]; [32]; [194; 133]; [194; 160]; [225; 154; 128];
    [226; 128; 128]; [226; 128; 129]; [226; 128; 130]; [226; 128; 131];
    [226; 128; 132]; [226; 128; 133]; [226; 128; 134]; [226; 128; 135];
    [226; 128; 136]; [226; 128; 137]; [226; 128; 138]; [226; 128; 168];
    [226; 128; 169]; [226; 128; 175]; [226; 129; 159]; [227; 128; 128]])%Z.

(** Strip runes of [rs] from the front; a string of [n] bytes has at most
    [n] of them, so [length s] is enough fuel. *)
Fixpoint strip_runes (rs : list bytes) (fuel : nat) (s : bytes) : bytes :=
  match fuel with
  | O => s
  | S fuel =>
      match list_find (fun r => r `prefix_of` s) rs with
      | Some (_, r) => strip_runes rs fuel (drop (length r) s)
      | None => s
      end
  end.

Definition trim_space_left (s : bytes) : bytes := strip_runes space_runes (length s) s.
Definition trim_space_right (s : bytes) : bytes :=
  reverse (strip_runes (map reverse space_runes) (length s) (reverse s)).
Definition TrimSpace (s : bytes) : bytes := trim_space_right (trim_space_left s).

(** [unicode.IsSpace] of a string made of one rune. *)
Definition is_space_byte (b : byte) : bool := bool_decide ([b] ∈ space_runes).

(** ** Decimal numerals: [strconv.Itoa] *)
Fixpoint decimal_digits (fuel : nat) (n : Z) (acc : bytes) : bytes :=
  match fuel with
  | O => acc
  | S fuel =>
      if (n <=? 0)%Z then acc
      else decimal_digits fuel (n / 10) (zb (48 + n mod 10) :: acc)
  end.

Definition strconv_Itoa (n : Z) : bytes :=
  if (n =? 0)%Z then str "0"
  else if (n <? 0)%Z then str "-" ++ decimal_digits 20 (- n) []
  else decimal_digits 20 n [].

(** ** Lemmas *)
Lemma map_lower_ascii s : is_ascii s = true -> is_ascii (map lower_byte s) = true.
Proof.
  unfold is_ascii. rewrite !forallb_forall. intros Hs b (x & <- & Hx)%in_map_iff.
  specialize (Hs x Hx). unfold lower_byte. rewrite Z.ltb_lt in *.
  destruct (_ && _) eqn:C; [|done]. rewrite bz_zb, Z.mod_small; lia.
Qed.

Lemma lower_byte_idem b : lower_byte (lower_byte b) = lower_byte b.
Proof. by destruct b; vm_compute. Qed.

Lemma ToLower_ascii `{Unicode} s : is_ascii s = true -> ToLower s = map lower_byte s.
Proof. unfold ToLower. by intros ->. Qed.

Lemma ToLower_idem_ascii `{Unicode} s :
  is_ascii s = true -> ToLower (ToLower s) = ToLower s.
Proof.
  intros Hs. rewrite (ToLower_ascii s), ToLower_ascii by auto using map_lower_ascii.
  rewrite map_map. apply map_ext, lower_byte_idem.
Qed.

Lemma HasPrefix_spec s p : HasPrefix s p = true <-> exists k, s = p ++ k.
Proof. unfold HasPrefix. by rewrite bool_decide_eq_true. Qed.

Lemma HasSuffix_spec s p : HasSuffix s p = true <-> exists k, s = k ++ p.
Proof. unfold HasSuffix. by rewrite bool_decide_eq_true. Qed.

Lemma TrimPrefix_app p s : TrimPrefix (p ++ s) p = s.
Proof.
  unfold TrimPrefix. rewrite (proj2 (HasPrefix_spec (p ++ s) p)) by (by exists s). by rewrite drop_app_length.
Qed.

Lemma TrimSuffix_app s p : TrimSuffix (s ++ p) p = s.
Proof.
  unfold TrimSuffix. replace (HasSuffix _ _) with true.
  - rewrite length_app, Nat.add_sub. apply take_app_length.
  - symmetry. apply HasSuffix_spec. eauto.
Qed.

Lemma TrimSuffix_cases s p :
  (exists k, s = k ++ p /\ TrimSuffix s p = k) \/ (HasSuffix s p = false /\ TrimSuffix s p = s).
Proof.
  destruct (HasSuffix s p) eqn:E.
  - left. apply HasSuffix_spec in E as [k ->]. exists k. split; [done|apply TrimSuffix_app].
  - right. unfold TrimSuffix. by rewrite E.
Qed.

Lemma Contains_spec s sub : Contains s sub = true <-> exists a c, s = a ++ sub ++ c.
Proof.
  unfold Contains. induction s as [|x s IH]; simpl.
  - destruct (HasPrefix [] sub) eqn:E.
    + apply HasPrefix_spec in E as [k ->]. split; [|done]. intros _. by exists [], k.
    + split; [done|]. intros ([|] & c & Hs); [|done].
      assert (HasPrefix [] sub = true) by (apply HasPrefix_spec; eauto). congruence.
  - destruct (HasPrefix (x :: s) sub) eqn:E.
    + apply HasPrefix_spec in E as [k ->]. split; [|done]. intros _. by exists [], k.
    + transitivity (exists a c, s = a ++ sub ++ c).
      * rewrite <- IH. by destruct (Index s sub).
      * split; intros (a & c & Hs); [exists (x :: a), c; by rewrite Hs|].
        destruct a as [|y a]; simplify_eq/=; eauto.
        assert (HasPrefix (x :: s) sub = true) by (apply HasPrefix_spec; eauto). congruence.
Qed.

Lemma IndexAny_None s cs : IndexAny s cs = None <-> forall b, b ∈ cs -> b ∉ s.
Proof.
  unfold IndexAny. destruct (list_find _ s) as [[i x]|] eqn:E; simpl.
  - apply list_find_Some in E as (Hl & Hx & _). split; [done|].
    intros Hb. destruct (Hb x Hx). by eapply list_elem_of_lookup_2.
  - apply list_find_None in E. rewrite Forall_forall in E. naive_solver.
Qed.

(** *** Split and Join *)
Lemma Split_nonempty s c : Split s c <> [].
Proof. destruct s; simpl; [done|]. case_bool_decide; [done|]. by destruct (Split s c). Qed.

Lemma Join_cons w ws c : ws <> [] -> Join (w :: ws) c = w ++ c :: Join ws c.
Proof. by destruct ws. Qed.

Lemma Join_Split s c : Join (Split s c) c = s.
Proof.
  induction s as [|b s IH]; [done|]. cbn [Split]. case_bool_decide as E.
  - rewrite Join_cons by apply Split_nonempty. rewrite IH. by subst.
  - pose proof (Split_nonempty s c). destruct (Split s c) as [|w [|v vs]]; [done|..]; simpl in *; congruence.
Qed.

Lemma Split_free s c : Forall (fun w => c ∉ w) (Split s c).
Proof.
  induction s as [|b s IH]; simpl; [by repeat constructor; set_solver|].
  case_bool_decide; [constructor; [set_solver|done]|].
  destruct (Split s c); [constructor; [set_solver|done]|].
  apply Forall_cons_1 in IH as [Hw Hws]. constructor; [set_solver|done].
Qed.

Lemma Split_free_single w c : c ∉ w -> Split w c = [w].
Proof.
  induction w as [|b w IH]; simpl; intros Hw; [done|].
  rewrite bool_decide_eq_false_2 by set_solver. by rewrite IH by set_solver.
Qed.

Lemma Split_app a b c : Split (a ++ c :: b) c = Split a c ++ Split b c.
Proof.
  induction a as [|x a IH]; simpl; [by rewrite bool_decide_eq_true_2|].
  rewrite IH. case_bool_decide; [done|].
  pose proof (Split_nonempty a c). by destruct (Split a c).
Qed.

Lemma Split_Join ws c : ws <> [] -> Forall (fun w => c ∉ w) ws -> Split (Join ws c) c = ws.
Proof.
  induction ws as [|w ws IH]; [done|]. intros _ [Hw Hws]%Forall_cons_1.
  destruct ws as [|v vs]; [by apply Split_free_single|].
  rewrite Join_cons, Split_app, Split_free_single, IH by done. done.
Qed.

Lemma Join_app ws vs c : ws <> [] -> vs <> [] -> Join (ws ++ vs) c = Join ws c ++ c :: Join vs c.
Proof.
  induction ws as [|w ws IH]; [done|]. intros _ Hv. destruct ws as [|w' ws].
  - simpl. by destruct vs.
  - change ((w :: w' :: ws) ++ vs) with (w :: ((w' :: ws) ++ vs)).
    rewrite !Join_cons, IH by done. by rewrite <- app_assoc.
Qed.

(** The pieces of a text from the pieces of its two parts. *)
Fixpoint glue (l m : list bytes) : list bytes :=
  match l with
  | [] => m
  | [x] => match m with y :: ys => (x ++ y) :: ys | [] => [x] end
  | x :: l => x :: glue l m
  end.

Lemma Split_glue a b c : Split (a ++ b) c = glue (Split a c) (Split b c).
Proof.
  induction a as [|x a IH]; cbn [app Split].
  - cbn [glue]. destruct (Split b c) eqn:E; [by apply Split_nonempty in E|]. done.
  - rewrite IH. pose proof (Split_nonempty a c). case_bool_decide.
    + by destruct (Split a c).
    + destruct (Split a c) as [|w [|w' ws]]; [done| |done]. cbn [glue]. destruct (Split b c) eqn:E; [by apply Split_nonempty in E|]. done.
Qed.

Lemma Split_inj s t c : Split s c = Split t c -> s = t.
Proof. intros E. by rewrite <- (Join_Split s c), E, Join_Split. Qed.

(** A label-wise suffix is a byte suffix cut at a separator. *)
Lemma Split_suffix s t c :
  Split t c `suffix_of` Split s c <-> s = t \/ HasSuffix s (c :: t) = true.
Proof.
  rewrite HasSuffix_spec. split.
  - intros [ws Hws]. destruct (decide (ws = [])) as [->|Hne].
    + left. by eapply Split_inj.
    + right. exists (Join ws c). rewrite <- (Join_Split s c), Hws.
      rewrite Join_app by auto using Split_nonempty. by rewrite Join_Split.
  - intros [->|[k ->]]; [done|]. rewrite Split_app. by exists (Split k c).
Qed.

(** *** Decimal numerals *)
Definition dec_value (s : bytes) : Z := foldl (fun acc c => acc * 10 + (bz c - 48))%Z 0%Z s.

Definition digit_byte (b : byte) : Prop := (48 <= bz b <= 57)%Z.

Lemma dec_value_foldl s acc :
  foldl (fun acc c => acc * 10 + (bz c - 48))%Z acc s = (acc * 10 ^ len s + dec_value s)%Z.
Proof.
  unfold dec_value. revert acc. induction s as [|c s IH]; intros acc; simpl; [rewrite len_nil; lia|].
  rewrite IH, (IH (0 * 10 + _)%Z), len_cons, Z.pow_add_r by (pose proof (len_nonneg s); lia). lia.
Qed.

Lemma dec_value_cons c s : dec_value (c :: s) = ((bz c - 48) * 10 ^ len s + dec_value s)%Z.
Proof. unfold dec_value at 1. simpl. by rewrite dec_value_foldl. Qed.

Lemma bz_digit k : (0 <= k < 10)%Z -> bz (zb (48 + k)) = (48 + k)%Z.
Proof. intros ?. rewrite bz_zb. apply Z.mod_small. lia. Qed.

Lemma decimal_digits_value fuel n acc :
  (0 <= n < 10 ^ Z.of_nat fuel)%Z ->
  dec_value (decimal_digits fuel n acc) = (n * 10 ^ len acc + dec_value acc)%Z.
Proof.
  revert n acc. induction fuel as [|fuel IH]; intros n acc Hn; cbn [decimal_digits].
  - assert (n = 0)%Z as -> by lia. lia.
  - destruct (Z.leb_spec n 0); [assert (n = 0)%Z as -> by lia; lia|].
    rewrite Nat2Z.inj_succ, Z.pow_succ_r in Hn by lia.
    pose proof (Z.mod_pos_bound n 10 ltac:(lia)). pose proof (Z.div_mod n 10 ltac:(lia)).
    rewrite IH, dec_value_cons, bz_digit, len_cons, Z.pow_add_r by (pose proof (len_nonneg acc); lia).
    nia.
Qed.

Lemma decimal_digits_digits fuel n acc :
  (0 <= n)%Z -> Forall digit_byte acc -> Forall digit_byte (decimal_digits fuel n acc).
Proof.
  revert n acc. induction fuel as [|fuel IH]; intros n acc Hn Hacc; cbn [decimal_digits]; [done|].
  destruct (n <=? 0)%Z; [done|]. pose proof (Z.mod_pos_bound n 10 ltac:(lia)).
  apply IH; [apply Z.div_pos; lia|]. constructor; [|done].
  unfold digit_byte. rewrite bz_digit; lia.
Qed.

(** *** TrimSpace *)
Definition no_front (rs : list bytes) (s : bytes) : Prop := forall r, r ∈ rs -> ~ r `prefix_of` s.

Lemma strip_runes_id rs fuel s : no_front rs s -> strip_runes rs fuel s = s.
Proof.
  intros Hn. destruct fuel; simpl; [done|].
  rewrite list_find_false; [done|]. by apply Forall_forall.
Qed.

Lemma strip_runes_front rs fuel s :
  [] ∉ rs -> (length s <= fuel)%nat ->
  no_front rs (strip_runes rs fuel s) /\ exists k, s = k ++ strip_runes rs fuel s.
Proof.
  intros Hnil. revert s. induction fuel as [|fuel IH]; intros s Hl; simpl.
  - destruct s; [|simpl in Hl; lia]. split; [|by exists []].
    intros r Hr [k Hk]. symmetry in Hk. apply app_nil in Hk as [-> ->]. done.
  - destruct (list_find _ rs) as [[i r]|] eqn:F.
    + apply list_find_Some in F as (Hr & [k Hk] & _). subst s. rewrite drop_app_length.
      apply list_elem_of_lookup_2 in Hr. rewrite length_app in Hl.
      assert (length r <> 0)%nat by (intros E; apply length_zero_iff_nil in E; by subst).
      destruct (IH k) as [H1 [k' H2]]; [lia|]. split; [done|].
      exists (r ++ k'). rewrite <- app_assoc. by f_equal.
    + apply list_find_None in F. rewrite Forall_forall in F. split; [done|]. by exists [].
Qed.

Lemma no_front_prefix rs s t : no_front rs (s ++ t) -> no_front rs s.
Proof. intros Hn r Hr Hp. apply (Hn r Hr). etrans; [exact Hp|]. by exists t. Qed.

Lemma space_runes_nonempty : [] ∉ space_runes.
Proof. by apply (bool_decide_unpack _). Qed.

Lemma space_runes_rev_nonempty : [] ∉ map reverse space_runes.
Proof. by apply (bool_decide_unpack _). Qed.

(** The result of [TrimSpace] neither starts nor ends with a space. *)
Lemma TrimSpace_trimmed s :
  no_front space_runes (TrimSpace s) /\ no_front (map reverse space_runes) (reverse (TrimSpace s)).
Proof.
  unfold TrimSpace, trim_space_right, trim_space_left.
  destruct (strip_runes_front space_runes (length s) s space_runes_nonempty) as [H1 _]; [done|].
  set (t := strip_runes _ _ s) in *.
  destruct (strip_runes_front (map reverse space_runes) (length t) (reverse t)
    space_runes_rev_nonempty) as [H2 [k Hk]]; [by rewrite length_reverse|].
  rewrite reverse_involutive. split; [|done].
  apply (f_equal reverse) in Hk. rewrite reverse_involutive, reverse_app in Hk.
  rewrite Hk in H1. by eapply no_front_prefix.
Qed.

Lemma TrimSpace_id s :
  no_front space_runes s -> no_front (map reverse space_runes) (reverse s) -> TrimSpace s = s.
Proof.
  intros H1 H2. unfold TrimSpace, trim_space_left, trim_space_right.
  rewrite (strip_runes_id space_runes) by done. rewrite strip_runes_id by done.
  apply reverse_involutive.
Qed.

Lemma TrimSpace_idem s : TrimSpace (TrimSpace s) = TrimSpace s.
Proof. destruct (TrimSpace_trimmed s). by apply TrimSpace_id. Qed.

(** Trimming only removes bytes. *)
Lemma strip_runes_elem rs fuel s b : b ∈ strip_runes rs fuel s -> b ∈ s.
Proof.
  revert s. induction fuel as [|fuel IH]; intros s; simpl; [done|].
  destruct (list_find _ rs) as [[i r]|]; [|done]. intros Hb%IH. revert Hb. apply subseteq_drop.
Qed.

Lemma TrimSpace_elem s b : b ∈ TrimSpace s -> b ∈ s.
Proof.
  unfold TrimSpace, trim_space_right, trim_space_left. rewrite elem_of_reverse.
  intros Hb%strip_runes_elem. rewrite elem_of_reverse in Hb. by apply strip_runes_elem in Hb.
Qed.

(** *** Visible ASCII: no spaces, no control characters *)
Definition visible_byte (c : byte) : bool := ((33 <=? bz c) && (bz c <=? 126))%Z.
Definition visible (s : bytes) : Prop := Forall (fun c => visible_byte c = true) s.

Lemma space_runes_hidden : forallb (forallb (fun c => negb (visible_byte c))) space_runes = true.
Proof. by vm_compute. Qed.

Lemma visible_no_front rs s :
  [] ∉ rs -> (forall r, r ∈ rs -> forallb (fun c => negb (visible_byte c)) r = true) -> visible s -> no_front rs s.
Proof.
  intros Hnil Hrs Hs r Hr [k ->]. destruct r as [|c r]; [done|]. apply Hrs in Hr.
  cbn in Hr. apply andb_true_iff in Hr as [Hc _]. apply Forall_cons in Hs as [Hs _]. by rewrite Hs in Hc.
Qed.

Lemma hidden_rune r : r ∈ space_runes -> forallb (fun c => negb (visible_byte c)) r = true.
Proof. intros Hr. pose proof space_runes_hidden as HA. rewrite forallb_forall in HA. by apply HA, list_elem_of_In. Qed.

Lemma TrimSpace_visible s : visible s -> TrimSpace s = s.
Proof.
  intros Hs. apply TrimSpace_id.
  - apply visible_no_front; [apply space_runes_nonempty|apply hidden_rune|done].
  - apply visible_no_front; [apply space_runes_rev_nonempty| |by apply Forall_reverse].
    intros r (x & -> & Hx)%list_elem_of_fmap. apply hidden_rune in Hx. rewrite forallb_forall in *.
    intros c Hc. apply Hx. apply list_elem_of_In. apply list_elem_of_In in Hc. by rewrite elem_of_reverse in Hc.
Qed.

Lemma visible_ascii s : visible s -> is_ascii s = true.
Proof.
  unfold visible, is_ascii. rewrite Forall_forall, forallb_forall. intros Hs c Hc%list_elem_of_In.
  apply Hs in Hc. unfold visible_byte in Hc. lia.
Qed.

(** *** The numeral of a positive integer *)
Lemma strconv_Itoa_pos n : (0 < n < 10 ^ 20)%Z ->
  strconv_Itoa n <> [] /\ Forall digit_byte (strconv_Itoa n) /\ dec_value (strconv_Itoa n) = n.
Proof.
  intros Hn. unfold strconv_Itoa. destruct (Z.eqb_spec n 0); [lia|]. destruct (Z.ltb_spec n 0); [lia|].
  assert (dec_value (decimal_digits 20 n []) = n) as HV.
  { rewrite decimal_digits_value by (cbn; lia). rewrite len_nil. cbn. lia. }
  split; [|split; [apply decimal_digits_digits; [lia|done]|done]].
  intros E. rewrite E in HV. cbn in HV. lia.
Qed.

Lemma Itoa_visible n : (0 < n < 10 ^ 20)%Z -> visible (strconv_Itoa n).
Proof.
  intros Hn. destruct (strconv_Itoa_pos n Hn) as (_ & HF & _). eapply Forall_impl; [exact HF|].
  cbn. intros c Hc. unfold digit_byte in Hc. unfold visible_byte. lia.
Qed.
