(* ===== verification/GoNet.v ===== *)
(** * Addresses and prefixes of Go's [net] and [net/netip]

    The textual parsers ([netip.ParseAddr], [net.ParseIP], [net.ParseCIDR],
    [netip.ParsePrefix]) and the address predicates the program calls,
    translated from the standard library.  An address is the integer of its
    bits; a [net.IP] is its byte slice, four or sixteen bytes long when it
    is valid. *)
From S2P Require Import Prelude GoStrings.
From Stdlib Require Import ZArith Lia.

Local Open Scope Z_scope.

(** ** [netip.Addr] *)
Inductive Addr : Type :=
| AddrNone                      (* the zero Addr, not valid *)
| Addr4 (a : Z)                 (* 32 bits *)
| Addr6 (a : Z) (zone : bytes). (* 128 bits; zone [] is none *)

#[export] Instance Addr_eq_dec : EqDecision Addr.
Proof. solve_decision. Defined.

Definition BitLen (a : Addr) : Z :=
  match a with AddrNone => 0 | Addr4 _ => 32 | Addr6 _ _ => 128 end.

Definition IsValid (a : Addr) : bool := match a with AddrNone => false | _ => true end.

(** The bytes of an IPv4-mapped IPv6 address start with this prefix. *)
Definition v4InV6Prefix : bytes := replicate 10 Byte.x00 ++ [Byte.xff; Byte.xff].

(** [netip.AddrFromSlice]. *)
Definition AddrFromSlice (b : bytes) : option Addr :=
  if len b =? 4 then Some (Addr4 (be b))
  else if len b =? 16 then Some (Addr6 (be b) [])
  else None.

(** [Addr.Unmap]: drops the IPv4-mapped form (and its zone). *)
Definition Unmap (a : Addr) : Addr :=
  match a with
  | Addr6 v _ => if Z.shiftr v 32 =? 0xffff then Addr4 (Z.land v 0xffffffff) else a
  | _ => a
  end.

(** ** Parsing addresses *)
Definition is_digit (b : byte) : bool := (48 <=? bz b) && (bz b <=? 57).

Definition hex_value (b : byte) : option Z :=
  if is_digit b then Some (bz b - 48)
  else if (97 <=? bz b) && (bz b <=? 102) then Some (bz b - 87)
  else if (65 <=? bz b) && (bz b <=? 70) then Some (bz b - 55)
  else None.

(** [parseIPv4Fields]: [first] says that no byte was read or that the last
    one was a dot, [digits] counts the digits of the current field. *)
Fixpoint parse_fields (s : bytes) (fields : list Z) (val digits : Z) : option (list Z) :=
  match s with
  | [] => if (len fields =? 3) && (0 <? digits) then Some (fields ++ [val]) else None
  | c :: s' =>
      if is_digit c then
        if (digits =? 1) && (val =? 0) then None
        else let val := val * 10 + (bz c - 48) in
             if 255 <? val then None else parse_fields s' fields val (digits + 1)
      else if bool_decide (c = Byte.x2e) then
        if (digits =? 0) || (len fields =? 3) then None
        else parse_fields s' (fields ++ [val]) 0 0
      else None
  end.

Definition parseIPv4Fields (s : bytes) : option bytes :=
  fs ← parse_fields s [] 0 0; Some (map zb fs).

Definition parseIPv4 (s : bytes) : option Addr :=
  b ← parseIPv4Fields s; Some (Addr4 (be b)).

(** One hexadecimal group: its value, the number of digits and the rest;
    at most four digits. *)
Fixpoint hex_group (s : bytes) (off acc : Z) : option (Z * Z * bytes) :=
  match s with
  | c :: s' =>
      match hex_value c with
      | Some d => if 3 <? off then None else hex_group s' (off + 1) (acc * 16 + d)
      | None => Some (acc, off, s)
      end
  | [] => Some (acc, off, [])
  end.

(** The loop of [parseIPv6]: [ip] is the bytes written so far, [ellipsis]
    the position of [::].  A round writes two bytes or stops, and it goes on
    only while fewer than sixteen are written, so eight rounds are enough. *)
Fixpoint ipv6_loop (fuel : nat) (s ip : bytes) (ellipsis : option nat)
    : option (bytes * bytes * option nat) :=
  match fuel with
  | O => Some (s, ip, ellipsis)
  | S fuel =>
      '(acc, off, rest) ← hex_group s 0 0;
      if off =? 0 then None
      else if bool_decide (head rest = Some Byte.x2e) then
        if bool_decide (ellipsis = None) && negb (len ip =? 12) then None
        else if 16 <? len ip + 4 then None
        else v4 ← parseIPv4Fields s; Some ([], ip ++ v4, ellipsis)
      else
        let ip := ip ++ be_bytes 2 acc in
        match rest with
        | [] => Some ([], ip, ellipsis)
        | c :: s' =>
            if bool_decide (c <> Byte.x3a) then None
            else match s' with
                 | [] => None
                 | d :: s'' =>
                     if bool_decide (d = Byte.x3a) then
                       match ellipsis, s'' with
                       | Some _, _ => None
                       | None, [] => Some ([], ip, Some (length ip))
                       | None, _ => ipv6_loop fuel s'' ip (Some (length ip))
                       end
                     else ipv6_loop fuel s' ip ellipsis
                 end
        end
  end.

Definition ipv6_finish (s ip : bytes) (ellipsis : option nat) : option bytes :=
  if bool_decide (s <> []) then None
  else if len ip <? 16 then
    match ellipsis with
    | None => None
    | Some e => Some (take e ip ++ replicate (16 - length ip) Byte.x00 ++ drop e ip)
    end
  else if bool_decide (ellipsis = None) then Some ip else None.

Definition parseIPv6 (s0 : bytes) : option Addr :=
  let cut := list_find (fun b => b = Byte.x25) s0 in
  let s := match cut with Some (i, _) => take i s0 | None => s0 end in
  let zone := match cut with Some (i, _) => drop (S i) s0 | None => [] end in
  if bool_decide (cut <> None) && bool_decide (zone = []) then None
  else if HasPrefix s (str "::") then
    if bool_decide (drop 2 s = []) then Some (Addr6 0 zone)
    else '(rest, ip, e) ← ipv6_loop 8 (drop 2 s) [] (Some 0%nat);
         b ← ipv6_finish rest ip e; Some (Addr6 (be b) zone)
  else '(rest, ip, e) ← ipv6_loop 8 s [] None;
       b ← ipv6_finish rest ip e; Some (Addr6 (be b) zone).

(** [netip.ParseAddr]: the first of [.], [:] and [%] decides the parser. *)
Definition ParseAddr (s : bytes) : option Addr :=
  match list_find (fun b => b ∈ str ".:%") s with
  | Some (_, c) =>
      if bool_decide (c = Byte.x2e) then parseIPv4 s
      else if bool_decide (c = Byte.x3a) then parseIPv6 s
      else None
  | None => None
  end.

(** ** [net.IP] and [net.IPNet] *)
Definition As16 (a : Addr) : bytes :=
  match a with
  | AddrNone => replicate 16 Byte.x00
  | Addr4 v => v4InV6Prefix ++ be_bytes 4 v
  | Addr6 v _ => be_bytes 16 v
  end.

Definition Zone (a : Addr) : bytes := match a with Addr6 _ z => z | _ => [] end.

(** [net.ParseIP]: the sixteen-byte form, [None] for a nil [IP]. *)
Definition ParseIP (s : bytes) : option bytes :=
  a ← ParseAddr s; if bool_decide (Zone a = []) then Some (As16 a) else None.

(** [IP.To4] and [IP.To16]. *)
Definition To4 (ip : bytes) : option bytes :=
  if len ip =? 4 then Some ip
  else if (len ip =? 16) && bool_decide (take 12 ip = v4InV6Prefix) then Some (drop 12 ip)
  else None.

Definition To16 (ip : bytes) : option bytes :=
  if len ip =? 4 then Some (v4InV6Prefix ++ ip)
  else if len ip =? 16 then Some ip else None.

Record IPNet := { net_ip : bytes; net_mask : bytes }.

#[export] Instance IPNet_eq_dec : EqDecision IPNet.
Proof. solve_decision. Defined.

Definition and_bytes (a b : bytes) : bytes :=
  zip_with (fun x y => zb (Z.land (bz x) (bz y))) a b.

(** [net.CIDRMask] of [n] ones out of [8 * size] bits. *)
Definition CIDRMask (n : Z) (size : nat) : bytes :=
  be_bytes size (2 ^ (8 * Z.of_nat size) - 2 ^ (8 * Z.of_nat size - n)).

(** [dtoi]: the decimal prefix of a string, capped at [0xFFFFFF]. *)
Fixpoint dtoi_loop (s : bytes) (n i : Z) : Z * Z * bool :=
  match s with
  | c :: s' =>
      if is_digit c then
        let n := n * 10 + (bz c - 48) in
        if 0xFFFFFF <=? n then (0xFFFFFF, i, false) else dtoi_loop s' n (i + 1)
      else (n, i, negb (i =? 0))
  | [] => (n, i, negb (i =? 0))
  end.

(** [net.ParseCIDR], its second result. *)
Definition ParseCIDR (s : bytes) : option IPNet :=
  '(i, _) ← list_find (fun b => b = Byte.x2f) s;
  let addr := take i s in
  let mask := drop (S i) s in
  a ← ParseAddr addr;
  if bool_decide (Zone a <> []) then None
  else
    let '(n, j, ok) := dtoi_loop mask 0 0 in
    if negb ok || negb (j =? len mask) || (BitLen a <? n) then None
    else match a with
         | Addr4 v => Some {| net_ip := and_bytes (be_bytes 4 v) (CIDRMask n 4);
                              net_mask := CIDRMask n 4 |}
         | Addr6 v _ =>
             Some {| net_ip := and_bytes (be_bytes 16 v) (CIDRMask n 16);
                     net_mask := CIDRMask n 16 |}
         | AddrNone => None
         end.

(** [networkNumberAndMask] and [IPNet.Contains]. *)
Definition network_number_and_mask (n : IPNet) : option (bytes * bytes) :=
  let ip := default (net_ip n) (To4 (net_ip n)) in
  if negb ((len ip =? 4) || (len ip =? 16)) then None
  else if len (net_mask n) =? 4 then
    if len ip =? 4 then Some (ip, net_mask n) else None
  else if len (net_mask n) =? 16 then
    Some (ip, if len ip =? 4 then drop 12 (net_mask n) else net_mask n)
  else None.

Definition IPNet_Contains (n : IPNet) (ip : bytes) : bool :=
  match network_number_and_mask n with
  | None => len (default ip (To4 ip)) =? 0
  | Some (nn, m) =>
      let ip := default ip (To4 ip) in
      (len ip =? len nn) && bool_decide (and_bytes nn m = and_bytes ip m)
  end.

(** ** [netip.Prefix] *)
Record Prefix := { pfx_addr : Addr; pfx_bits : Z }.

#[export] Instance Prefix_eq_dec : EqDecision Prefix.
Proof. solve_decision. Defined.

(** [strconv.Atoi] on the bits of a prefix, which [ParsePrefix] restricts to
    digits (a first byte out of [1-9] is refused unless it is the only one). *)
Definition atoi_digits (s : bytes) : option Z :=
  if bool_decide (s = []) then None
  else foldl (fun acc c => n ← acc; if is_digit c then Some (n * 10 + (bz c - 48)) else None)
         (Some 0) s.

(** [netip.ParsePrefix]. *)
Definition ParsePrefix (s : bytes) : option Prefix :=
  '(i, _) ← list_find (fun b => b = Byte.x2f) (reverse s);
  let cut := (length s - S i)%nat in
  let bits_str := drop (S cut) s in
  a ← ParseAddr (take cut s);
  if bool_decide (Zone a <> []) then None
  else if (1 <? len bits_str) &&
          negb (match head bits_str with
                | Some c => (49 <=? bz c) && (bz c <=? 57) | None => true end) then None
  else
    bits ← atoi_digits bits_str;
    if BitLen a <? bits then None else Some {| pfx_addr := a; pfx_bits := bits |}.

(** [Prefix.Contains]. *)
Definition Prefix_Contains (p : Prefix) (ip : Addr) : bool :=
  match pfx_addr p, ip with
  | Addr4 a, Addr4 b => Z.shiftr (Z.lxor a b) (32 - pfx_bits p) =? 0
  | Addr6 a _, Addr6 b [] => Z.shiftr (Z.lxor a b) (128 - pfx_bits p) =? 0
  | _, _ => false
  end.

(** ** Address classes *)
(** As of Go 1.22.4 every predicate looks through the IPv4-mapped form. *)
Definition IsLoopback (a : Addr) : bool :=
  match Unmap a with
  | Addr4 v => Z.shiftr v 24 =? 127
  | Addr6 v _ => v =? 1
  | AddrNone => false
  end.

Definition IsMulticast (a : Addr) : bool :=
  match Unmap a with
  | Addr4 v => Z.shiftr v 28 =? 0xe
  | Addr6 v _ => Z.shiftr v 120 =? 0xff
  | AddrNone => false
  end.

Definition IsLinkLocalUnicast (a : Addr) : bool :=
  match Unmap a with
  | Addr4 v => Z.shiftr v 16 =? 0xa9fe
  | Addr6 v _ => Z.shiftr v 118 =? 0x3fa
  | AddrNone => false
  end.

Definition IsPrivate (a : Addr) : bool :=
  match Unmap a with
  | Addr4 v => (Z.shiftr v 24 =? 10) || (Z.shiftr v 20 =? 0xac1) || (Z.shiftr v 16 =? 0xc0a8)
  | Addr6 v _ => Z.shiftr v 121 =? 0x7e
  | AddrNone => false
  end.

Definition IsUnspecified (a : Addr) : bool :=
  bool_decide (a = Addr4 0) || bool_decide (a = Addr6 0 []).

Definition IsGlobalUnicast (a : Addr) : bool :=
  match Unmap a with
  | AddrNone => false
  | Addr4 v =>
      negb ((v =? 0) || (v =? 0xffffffff)) &&
      negb (IsLoopback a) && negb (IsMulticast a) && negb (IsLinkLocalUnicast a)
  | Addr6 v z =>
      negb (bool_decide (Addr6 v z = Addr6 0 [])) &&
      negb (IsLoopback a) && negb (IsMulticast a) && negb (IsLinkLocalUnicast a)
  end.

(** ** Checks on literals *)
Example ParseAddr_v4 : ParseAddr (str "192.168.1.9") = Some (Addr4 0xc0a80109).
Proof. vm_compute. reflexivity. Qed.
Example ParseAddr_v4_bad :
  map ParseAddr [str "1.2.3"; str "01.2.3.4"; str "1.2.3.256"; str "1..2.3"; str "1.2.3."]
  = [None; None; None; None; None].
Proof. vm_compute. reflexivity. Qed.
Example ParseAddr_v6 :
  map ParseAddr [str "::1"; str "fd00::"; str "::ffff:1.2.3.4"; str "1:2:3:4:5:6:7:8"; str "fe80::1%eth0"]
  = [Some (Addr6 1 []); Some (Addr6 (0xfd00 * 2 ^ 112) []); Some (Addr6 0xffff01020304 []);
     Some (Addr6 0x00010002000300040005000600070008 []);
     Some (Addr6 (0xfe80 * 2 ^ 112 + 1) (str "eth0"))].
Proof. vm_compute. reflexivity. Qed.
Example ParseAddr_v6_bad :
  map ParseAddr [str "1:2:3:4:5:6:7"; str "1:2:3:4:5:6:7:8:9"; str "::1::"; str "12345::"; str "1:"]
  = [None; None; None; None; None].
Proof. vm_compute. reflexivity. Qed.
Example ParseCIDR_contains :
  (fun n => IPNet_Contains n <$> ParseIP (str "172.22.4.5")) <$> ParseCIDR (str "172.16.0.0/12")
  = Some (Some true).
Proof. vm_compute. reflexivity. Qed.
Example ParsePrefix_contains :
  (fun p => Prefix_Contains p <$> ParseAddr (str "172.32.0.1")) <$> ParsePrefix (str "172.16.0.0/12")
  = Some (Some false).
Proof. vm_compute. reflexivity. Qed.

(** ** [net.SplitHostPort] and [net.JoinHostPort] *)
Local Close Scope Z_scope.

Definition colon : byte := Byte.x3a.
Definition lbrack : byte := Byte.x5b.
Definition rbrack : byte := Byte.x5d.

(** [IndexByteString] and [LastIndexByteString], [None] for -1. *)
Definition IndexByte (s : bytes) (c : byte) : option nat := fst <$> list_find (fun b => b = c) s.
Definition LastIndexByte (s : bytes) (c : byte) : option nat :=
  (fun i => length s - S i) <$> IndexByte (reverse s) c.

Definition SplitHostPort (hostport : bytes) : option (bytes * bytes) :=
  i ← LastIndexByte hostport colon;
  '(host, j, k) ←
    (if bool_decide (head hostport = Some lbrack) then
       e ← IndexByte hostport rbrack;
       if (S e =? i)%nat then Some (drop 1 (take e hostport), 1, S e) else None
     else
       let host := take i hostport in
       if bool_decide (colon ∈ host) then None else Some (host, 0, 0));
  if bool_decide (lbrack ∈ drop j hostport) then None
  else if bool_decide (rbrack ∈ drop k hostport) then None
  else Some (host, drop (S i) hostport).

Definition JoinHostPort (host port : bytes) : bytes :=
  if bool_decide (colon ∈ host) then lbrack :: host ++ rbrack :: colon :: port
  else host ++ colon :: port.

Lemma IndexByte_app a c b : c ∉ a -> IndexByte (a ++ c :: b) c = Some (length a).
Proof.
  intros Ha. unfold IndexByte.
  rewrite (list_find_app_r (fun b => b = c) a (c :: b)).
  - simpl. rewrite decide_True by done. simpl. by rewrite ?Nat.add_0_r.
  - apply list_find_None, Forall_forall. intros x Hx ->. done.
Qed.

Lemma LastIndexByte_app a c b : c ∉ b -> LastIndexByte (a ++ c :: b) c = Some (length a).
Proof.
  intros Hb. unfold LastIndexByte. rewrite reverse_app, reverse_cons, <- app_assoc. simpl.
  rewrite IndexByte_app by (by rewrite elem_of_reverse). simpl. f_equal.
  rewrite length_app, length_reverse. simpl. lia.
Qed.

(** The two functions are inverse on hosts without brackets. *)
Lemma Split_JoinHostPort host port :
  lbrack ∉ host -> rbrack ∉ host -> colon ∉ port -> lbrack ∉ port -> rbrack ∉ port ->
  SplitHostPort (JoinHostPort host port) = Some (host, port).
Proof.
  intros H1 H2 H3 H4 H5. unfold JoinHostPort. case_bool_decide as Hc; unfold SplitHostPort.
  - replace (lbrack :: host ++ rbrack :: colon :: port)
      with ((lbrack :: host ++ [rbrack]) ++ colon :: port) by (simpl; by rewrite <- app_assoc).
    rewrite LastIndexByte_app by done. cbn [mbind option_bind].
    rewrite bool_decide_eq_true_2 by done.
    replace ((lbrack :: host ++ [rbrack]) ++ colon :: port)
      with ((lbrack :: host) ++ rbrack :: colon :: port) by (simpl; by rewrite <- app_assoc).
    rewrite IndexByte_app by (rewrite not_elem_of_cons; done). cbn [mbind option_bind].
    rewrite take_app_length.
    replace (length (lbrack :: host ++ [rbrack])) with (S (length (lbrack :: host)))
      by (simpl; rewrite length_app; simpl; lia).
    rewrite Nat.eqb_refl. simpl.
    rewrite bool_decide_eq_false_2, bool_decide_eq_false_2.
    + replace (S (S (length host))) with (length (host ++ [rbrack; colon])) by (rewrite length_app; simpl; lia).
      do 2 f_equal. change (host ++ rbrack :: colon :: port) with (host ++ [rbrack; colon] ++ port).
      by rewrite app_assoc, drop_app_length.
    + replace (S (length host)) with (length (host ++ [rbrack])) by (rewrite length_app; simpl; lia).
      change (host ++ rbrack :: colon :: port) with (host ++ [rbrack] ++ colon :: port).
      rewrite app_assoc, drop_app_length, not_elem_of_cons. done.
    + rewrite drop_0. rewrite elem_of_app, !elem_of_cons. intros [?|[?|[?|?]]]; done.
  - rewrite LastIndexByte_app by done. cbn [mbind option_bind].
    rewrite bool_decide_eq_false_2.
    2: { destruct host; simpl; [done|]. rewrite not_elem_of_cons in H1. intros [= ->]. tauto. }
    rewrite take_app_length, bool_decide_eq_false_2 by done. cbn [mbind option_bind]. rewrite drop_0.
    rewrite bool_decide_eq_false_2 by (rewrite elem_of_app, elem_of_cons; intros [?|[?|?]]; done).
    rewrite bool_decide_eq_false_2 by (rewrite elem_of_app, elem_of_cons; intros [?|[?|?]]; done).
    do 2 f_equal. replace (S (length host)) with (length (host ++ [colon])) by (rewrite length_app; simpl; lia).
    change (host ++ colon :: port) with (host ++ [colon] ++ port).
    by rewrite app_assoc, drop_app_length.
Qed.
