(* ===== verification/Crypto.v ===== *)
(** * SHA-256 and hexadecimal

    [crypto/sha256] (FIPS 180-4) and [encoding/hex], executable, so that the
    hashes and keys the program derives can be computed and compared with
    published vectors.  Words are integers below [2^32]. *)
From S2P Require Import Prelude.
From Stdlib Require Import ZArith Lia.

Local Open Scope Z_scope.

Definition w32 (z : Z) : Z := Z.land z 0xffffffff.
Definition rotr (n x : Z) : Z := w32 (Z.lor (Z.shiftr x n) (Z.shiftl x (32 - n))).

(** The constants are fractional bits of roots of the first primes: square
    roots of eight of them for the initial state, cube roots of sixty-four
    for the rounds. *)
Definition is_prime (n : nat) : bool :=
  (2 <=? n)%nat && forallb (fun d => negb (n mod d =? 0)%nat) (seq 2 (n - 2)).

Definition primes (n : nat) : list Z := map Z.of_nat (take n (List.filter is_prime (seq 0 312))).

(** The greatest [r] below [2^bits] with [r ^ 3 <= z]. *)
Fixpoint cube_root (bits : nat) (r z : Z) : Z :=
  match bits with
  | O => r
  | S bits =>
      let r' := r + 2 ^ Z.of_nat bits in
      cube_root bits (if r' ^ 3 <=? z then r' else r) z
  end.

Definition sha_k : list Z :=
  Eval vm_compute in map (fun p => w32 (cube_root 36 0 (p * 2 ^ 96))) (primes 64).

Definition sha_h0 : list Z :=
  Eval vm_compute in map (fun p => w32 (Z.sqrt (p * 2 ^ 64))) (primes 8).

(** The message schedule, latest word first: [n] more words. *)
Fixpoint sha_expand (n : nat) (w : list Z) : list Z :=
  match n with
  | O => w
  | S n =>
      let at' i := nth i w 0 in
      let s0 := Z.lxor (Z.lxor (rotr 7 (at' 14%nat)) (rotr 18 (at' 14%nat))) (Z.shiftr (at' 14%nat) 3) in
      let s1 := Z.lxor (Z.lxor (rotr 17 (at' 1%nat)) (rotr 19 (at' 1%nat))) (Z.shiftr (at' 1%nat) 10) in
      sha_expand n (w32 (at' 15%nat + s0 + at' 6%nat + s1) :: w)
  end.

Definition sha_round (st : list Z) (kw : Z * Z) : list Z :=
  match st with
  | [a; b; c; d; e; f; g; h] =>
      let s1 := Z.lxor (Z.lxor (rotr 6 e) (rotr 11 e)) (rotr 25 e) in
      let ch := Z.lxor (Z.land e f) (Z.land (Z.lxor e 0xffffffff) g) in
      let t1 := h + s1 + ch + kw.1 + kw.2 in
      let s0 := Z.lxor (Z.lxor (rotr 2 a) (rotr 13 a)) (rotr 22 a) in
      let maj := Z.lxor (Z.lxor (Z.land a b) (Z.land a c)) (Z.land b c) in
      [w32 (t1 + s0 + maj); a; b; c; w32 (d + t1); e; f; g]
  | _ => st
  end.

(** Cut a byte list in [n] blocks of [k] bytes. *)
Fixpoint blocks (n k : nat) (b : bytes) : list bytes :=
  match n with
  | O => []
  | S n => take k b :: blocks n k (drop k b)
  end.

Definition sha_block (st : list Z) (block : bytes) : list Z :=
  let w := reverse (sha_expand 48 (reverse (map be (blocks 16 4 block)))) in
  zip_with (fun x y => w32 (x + y)) st (foldl sha_round st (zip sha_k w)).

Definition sha_pad (m : bytes) : bytes :=
  let l := len m in
  m ++ Byte.x80 :: replicate (Z.to_nat ((55 - l) mod 64)) Byte.x00 ++ be_bytes 8 (8 * l).

Definition sha256 (m : bytes) : bytes :=
  let p := sha_pad m in
  concat (map (be_bytes 4) (foldl sha_block sha_h0 (blocks (length p / 64) 64 p))).

(** [hex.EncodeToString] and [hex.DecodeString] (lower-case digits). *)
Definition hex_digit (z : Z) : byte := zb (if z <? 10 then 48 + z else 87 + z).

Definition hex_encode (b : bytes) : bytes :=
  concat (map (fun x => [hex_digit (bz x / 16); hex_digit (bz x mod 16)]) b).

Definition unhex (b : byte) : option Z :=
  if (48 <=? bz b) && (bz b <=? 57) then Some (bz b - 48)
  else if (97 <=? bz b) && (bz b <=? 102) then Some (bz b - 87)
  else if (65 <=? bz b) && (bz b <=? 70) then Some (bz b - 55)
  else None.

Fixpoint hex_decode (s : bytes) : option bytes :=
  match s with
  | [] => Some []
  | [_] => None
  | a :: b :: s =>
      x ← unhex a; y ← unhex b; r ← hex_decode s; Some (zb (16 * x + y) :: r)
  end.

(** ** Lemmas and vectors *)
Lemma hex_roundtrip b : hex_decode (hex_encode b) = Some b.
Proof.
  induction b as [|x b IH]; [done|].
  change (hex_encode (x :: b)) with
    (hex_digit (bz x / 16) :: hex_digit (bz x mod 16) :: hex_encode b).
  cbn [hex_decode]. rewrite IH. by destruct x; vm_compute.
Qed.

Lemma sha_round_length st kw : length st = 8%nat -> length (sha_round st kw) = 8%nat.
Proof. by intros Hs; do 9 (destruct st as [|? st]; try done). Qed.

Lemma sha_block_length st block : length st = 8%nat -> length (sha_block st block) = 8%nat.
Proof.
  intros Hs. unfold sha_block. rewrite length_zip_with.
  assert (forall l s, length s = 8%nat -> length (foldl sha_round s l) = 8%nat) as HF.
  { induction l as [|x l IH]; intros s Hl; simpl; auto using sha_round_length. }
  rewrite HF by done. lia.
Qed.

Lemma sha256_length m : length (sha256 m) = 32%nat.
Proof.
  unfold sha256. set (bl := blocks _ _ _).
  assert (forall l s, length s = 8%nat -> length (foldl sha_block s l) = 8%nat) as HF.
  { induction l as [|x l IH]; intros s Hl; simpl; auto using sha_block_length. }
  specialize (HF bl sha_h0 eq_refl). set (st := foldl _ _ _) in *. clearbody st.
  by do 9 (destruct st as [|? st]; try done).
Qed.

Example sha256_abc :
  hex_encode (sha256 (str "abc"))
  = str "ba7816bf8f01cfea414140de5dae2223b00361a396177a9cb410ff61f20015ad".
Proof. vm_compute. reflexivity. Qed.

Example sha256_two_blocks :
  hex_encode (sha256 (str "abcdbcdecdefdefgefghfghighijhijkijkljklmklmnlmnomnopnopq"))
  = str "248d6a61d20638b8e5c026930c3e6039a33ce45964ff2167f6ecedd419db06c1".
Proof. vm_compute. reflexivity. Qed.
