(* ===== verification/Aead.v ===== *)
(** * HMAC-SHA256, AES-128 and AES-GCM

    The primitives of [crypto/hmac], [crypto/aes] and [crypto/cipher] that
    the QUIC parser calls, executable and checked against published vectors.
    [gcm_seal] is the sender's side; the program only opens. *)
From S2P Require Import Prelude Crypto.
From Stdlib Require Import ZArith Lia.

Local Open Scope Z_scope.

(** ** [hmac.New(sha256.New, key)] *)
Definition xor_bytes (a b : bytes) : bytes := zip_with (fun x y => zb (Z.lxor (bz x) (bz y))) a b.

Definition hmac_sha256 (key msg : bytes) : bytes :=
  let k := if 64 <? len key then sha256 key else key in
  let k := k ++ replicate (64 - length k) Byte.x00 in
  let pad z := map (fun x => zb (Z.lxor (bz x) z)) k in
  sha256 (pad 0x5c ++ sha256 (pad 0x36 ++ msg)).

(** ** AES-128 (FIPS 197) *)

(** Multiplication by x, and of two elements, in the field of 256 elements. *)
Definition xtime (a : Z) : Z := let d := 2 * a in if d <? 256 then d else Z.lxor d 0x11b.

Fixpoint gf_mul (n : nat) (a b : Z) : Z :=
  match n with
  | O => 0
  | S n => Z.lxor (if Z.odd b then a else 0) (gf_mul n (xtime a) (b / 2))
  end.

Definition gf_inv (a : Z) : Z :=
  default 0 (snd <$> list_find (fun b => gf_mul 8 a b = 1) (map Z.of_nat (seq 0 256))).

Definition rotl8 (n x : Z) : Z := Z.land (Z.lor (Z.shiftl x n) (Z.shiftr x (8 - n))) 255.

Definition sub_byte (a : Z) : Z :=
  let b := gf_inv a in
  Z.lxor 0x63 (Z.lxor b (Z.lxor (rotl8 1 b) (Z.lxor (rotl8 2 b) (Z.lxor (rotl8 3 b) (rotl8 4 b))))).

Definition sbox_table : list Z := Eval vm_compute in map (fun i => sub_byte (Z.of_nat i)) (seq 0 256).
Definition sbox (a : Z) : Z := nth (Z.to_nat a) sbox_table 0.

(** The key schedule, one word of four bytes at a time, latest first. *)
Fixpoint key_words (n : nat) (rcon : Z) (i : Z) (w : list (list Z)) : list (list Z) :=
  match n with
  | O => w
  | S n =>
      let prev := nth 0 w [] in
      let back := nth 3 w [] in
      let t := if i mod 4 =? 0
               then match map sbox prev with
                    | [a; b; c; d] => [Z.lxor b rcon; c; d; a]
                    | t => t
                    end
               else prev in
      key_words n (if i mod 4 =? 0 then xtime rcon else rcon) (i + 1) (zip_with Z.lxor back t :: w)
  end.

Definition round_keys (key : bytes) : list (list Z) :=
  let w := map (map bz) (blocks 4 4 key) in
  let words := reverse (key_words 40 1 4 (reverse w)) in
  map (fun i => concat (take 4 (drop (4 * i) words))) (seq 0 11).

Definition shift_rows (s : list Z) : list Z :=
  map (fun i => nth i s 0) [0; 5; 10; 15; 4; 9; 14; 3; 8; 13; 2; 7; 12; 1; 6; 11]%nat.

Definition mix_column (c : list Z) : list Z :=
  match c with
  | [a; b; c; d] =>
      let m x y z w := Z.lxor (Z.lxor (xtime x) (Z.lxor (xtime y) y)) (Z.lxor z w) in
      [m a b c d; m b c d a; m c d a b; m d a b c]
  | c => c
  end.

Definition mix_columns (s : list Z) : list Z :=
  concat (map (fun i => mix_column (take 4 (drop (4 * i) s))) (seq 0 4)).

Fixpoint aes_rounds (s : list Z) (ks : list (list Z)) : list Z :=
  match ks with
  | [] => s
  | [k] => zip_with Z.lxor (shift_rows (map sbox s)) k
  | k :: ks => aes_rounds (zip_with Z.lxor (mix_columns (shift_rows (map sbox s))) k) ks
  end.

(** [cipher.Block.Encrypt] on one block of sixteen bytes. *)
Definition aes_encrypt (key block : bytes) : bytes :=
  match round_keys key with
  | k0 :: ks => map zb (aes_rounds (zip_with Z.lxor (map bz block) k0) ks)
  | [] => []
  end.

(** ** GCM (SP 800-38D) over a block cipher *)
Fixpoint gf128_mul (n : nat) (x y acc : Z) : Z :=
  match n with
  | O => acc
  | S n =>
      let acc := if Z.testbit x (Z.of_nat n) then Z.lxor acc y else acc in
      let y := if Z.odd y then Z.lxor (Z.shiftr y 1) (Z.shiftl 0xe1 120) else Z.shiftr y 1 in
      gf128_mul n x y acc
  end.

Definition pad16 (b : bytes) : bytes := b ++ replicate (Z.to_nat ((- len b) mod 16)) Byte.x00.

Definition ghash (h : Z) (b : bytes) : Z :=
  foldl (fun acc blk => gf128_mul 128 (Z.lxor acc (be blk)) h 0) 0 (blocks (length b / 16) 16 b).

Section gcm.
Context (E : bytes -> bytes).

(** The key stream from counter [i], enough blocks for [n] bytes. *)
Fixpoint ctr_stream (fuel : nat) (nonce : bytes) (i : Z) : bytes :=
  match fuel with
  | O => []
  | S fuel => E (nonce ++ be_bytes 4 i) ++ ctr_stream fuel nonce (i + 1)
  end.

(** Encryption and decryption: the stream may be longer than the text. *)
Definition ctr_xor (nonce b : bytes) : bytes :=
  xor_bytes b (ctr_stream (length b / 16 + 1) nonce 2).

Definition gcm_tag (nonce aad ct : bytes) : bytes :=
  let h := be (E (replicate 16 Byte.x00)) in
  let s := ghash h (pad16 aad ++ pad16 ct ++ be_bytes 8 (8 * len aad) ++ be_bytes 8 (8 * len ct)) in
  xor_bytes (be_bytes 16 s) (E (nonce ++ be_bytes 4 1)).

Definition gcm_seal (nonce pt aad : bytes) : bytes :=
  let ct := ctr_xor nonce pt in ct ++ gcm_tag nonce aad ct.

(** [aead.Open(nil, nonce, ciphertext, aad)]. *)
Definition gcm_open (nonce ciphertext aad : bytes) : option bytes :=
  if len ciphertext <? 16 then None
  else
    let n := (length ciphertext - 16)%nat in
    let ct := take n ciphertext in
    if drop n ciphertext == gcm_tag nonce aad ct then Some (ctr_xor nonce ct) else None.
End gcm.

(** ** Lemmas *)
Lemma lxor_byte x y : zb (Z.lxor (bz (zb (Z.lxor (bz x) y))) y) = x.
Proof.
  apply bz_inj. rewrite !bz_zb. pose proof (bz_range x).
  change 256 with (2 ^ 8). rewrite <- !Z.land_ones by lia.
  apply Z.bits_inj'. intros n Hn. rewrite Z.land_spec, !Z.lxor_spec, Z.land_spec, Z.lxor_spec.
  destruct (Z.testbit (Z.ones 8) n) eqn:E; rewrite ?andb_true_r, ?andb_false_r.
  - by destruct (Z.testbit (bz x) n), (Z.testbit y n).
  - rewrite Z.testbit_ones in E by lia. symmetry. destruct (decide (bz x = 0)) as [->|]; [apply Z.bits_0|].
    apply Z.bits_above_log2; [lia|]. apply Z.log2_lt_pow2; [lia|].
    assert (8 <= n) by lia. pose proof (Z.pow_le_mono_r 2 8 n). lia.
Qed.

Lemma xor_bytes_length a b : (length a <= length b)%nat -> length (xor_bytes a b) = length a.
Proof. intros ?. unfold xor_bytes. rewrite length_zip_with. lia. Qed.

(** Adding the same stream twice gives the text back. *)
Lemma xor_bytes_twice a b : (length a <= length b)%nat -> xor_bytes (xor_bytes a b) b = a.
Proof.
  unfold xor_bytes. revert b. induction a as [|x a IH]; intros [|y b]; simpl; try done; try lia.
  intros Hl. rewrite lxor_byte, IH by lia. done.
Qed.

Section gcm_lemmas.
Context (E : bytes -> bytes) (Elen : forall b, length (E b) = 16%nat).

Lemma ctr_stream_length fuel nonce i : length (ctr_stream E fuel nonce i) = (16 * fuel)%nat.
Proof. revert i. induction fuel as [|f IH]; intros i; [done|]. cbn [ctr_stream]. rewrite length_app, Elen, IH. lia. Qed.

Lemma stream_enough (b : bytes) nonce : (length b <= length (ctr_stream E (length b / 16 + 1) nonce 2))%nat.
Proof.
  rewrite ctr_stream_length. pose proof (Nat.div_mod_eq (length b) 16).
  pose proof (Nat.mod_upper_bound (length b) 16). lia.
Qed.

Lemma ctr_xor_length nonce b : length (ctr_xor E nonce b) = length b.
Proof. apply xor_bytes_length, stream_enough. Qed.

Lemma ctr_xor_twice nonce b : ctr_xor E nonce (ctr_xor E nonce b) = b.
Proof.
  unfold ctr_xor at 1. rewrite ctr_xor_length. apply xor_bytes_twice, stream_enough.
Qed.

Lemma gcm_tag_length nonce aad ct : length (gcm_tag E nonce aad ct) = 16%nat.
Proof.
  unfold gcm_tag. assert (forall z, length (be_bytes 16 z) = 16%nat) as Hb.
  { intros z. pose proof (be_bytes_len 16 z) as HL. unfold len in HL. lia. }
  rewrite xor_bytes_length; rewrite Hb, ?Elen; lia.
Qed.

Lemma gcm_seal_length nonce pt aad : length (gcm_seal E nonce pt aad) = (length pt + 16)%nat.
Proof. unfold gcm_seal. by rewrite length_app, ctr_xor_length, gcm_tag_length. Qed.

(** What is sealed opens, under the same nonce and associated data. *)
Lemma gcm_open_seal nonce pt aad : gcm_open E nonce (gcm_seal E nonce pt aad) aad = Some pt.
Proof.
  unfold gcm_open. rewrite gcm_seal_length, Nat.add_sub.
  replace (len _ <? 16) with false by (symmetry; apply Z.ltb_ge; unfold len; rewrite gcm_seal_length; lia).
  unfold gcm_seal. rewrite <- (ctr_xor_length nonce pt), take_app_length, drop_app_length.
  rewrite bool_decide_eq_true_2 by done. by rewrite ctr_xor_twice.
Qed.
End gcm_lemmas.

(** *** An AES block is sixteen bytes, whatever is encrypted *)
Lemma key_words_shape n rcon i w :
  Forall (fun x => length x = 4%nat) w -> (4 <= length w)%nat ->
  Forall (fun x => length x = 4%nat) (key_words n rcon i w) /\ length (key_words n rcon i w) = (n + length w)%nat.
Proof.
  revert rcon i w. induction n as [|n IH]; intros rcon i w HF Hl; [done|]. cbn [key_words].
  assert (forall k, (k < 4)%nat -> length (nth k w []) = 4%nat) as Hn.
  { intros k Hk. rewrite Forall_forall in HF. apply HF. apply list_elem_of_In, nth_In. lia. }
  edestruct IH as [H1 H2]; [constructor; [|exact HF]|simpl; lia|split; [exact H1|rewrite H2; simpl; lia]].
  rewrite length_zip_with, Hn by lia.
  destruct (_ =? _); [|rewrite Hn by lia; lia].
  specialize (Hn 0%nat ltac:(lia)). destruct (nth 0 w []) as [|a [|b [|c [|d [|]]]]]; done.
Qed.

Lemma concat_length4 (l : list (list Z)) :
  Forall (fun x => length x = 4%nat) l -> length (concat l) = (4 * length l)%nat.
Proof. induction 1 as [|x l Hx _ IH]; [done|]. simpl. rewrite length_app, Hx, IH. lia. Qed.

Lemma round_keys_shape key :
  length key = 16%nat -> Forall (fun k => length k = 16%nat) (round_keys key) /\ length (round_keys key) = 11%nat.
Proof.
  intros Hk. unfold round_keys. cbn zeta. split; [|done].
  destruct (key_words_shape 40 1 4 (reverse (map (map bz) (blocks 4 4 key)))) as [HF HL].
  - do 17 (destruct key as [|? key]; [try done|]); [|done]. simpl. by repeat constructor.
  - by rewrite length_reverse.
  - set (ws := key_words _ _ _ _) in *. rewrite length_reverse in HL.
    apply Forall_map, Forall_forall. intros i Hi%elem_of_seq.
    rewrite concat_length4.
    + rewrite length_take, length_drop, length_reverse, HL.
      change (length (map (map bz) (blocks 4 4 key))) with 4%nat. lia.
    + apply Forall_take, Forall_drop, Forall_reverse. done.
Qed.

Lemma aes_rounds_length s ks :
  ks <> [] -> Forall (fun k => length k = 16%nat) ks -> length (aes_rounds s ks) = 16%nat.
Proof.
  intros Hne HF. revert s. induction HF as [|k ks Hk HF IH]; intros s; [done|].
  destruct ks as [|k' ks]; cbn [aes_rounds].
  - by rewrite length_zip_with, Hk.
  - by apply IH.
Qed.

Lemma aes_encrypt_length key block : length key = 16%nat -> length (aes_encrypt key block) = 16%nat.
Proof.
  intros Hk. unfold aes_encrypt. destruct (round_keys_shape key Hk) as [HF HL].
  destruct (round_keys key) as [|k0 [|k1 ks]]; try done.
  apply Forall_cons_1 in HF as [_ HF]. rewrite length_map. by apply aes_rounds_length.
Qed.

(** ** Vectors *)
Definition hex (s : String.string) : bytes := default [] (hex_decode (str s)).

Example hmac_rfc4231_2 :
  hmac_sha256 (str "Jefe") (str "what do ya want for nothing?")
  = hex "5bdcc146bf60754e6a042426089575c75a003f089d2739839dec58b964ec3843".
Proof. vm_compute. reflexivity. Qed.

Example aes_fips197 :
  aes_encrypt (hex "000102030405060708090a0b0c0d0e0f") (hex "00112233445566778899aabbccddeeff")
  = hex "69c4e0d86a7b0430d8cdb78070b4c55a".
Proof. vm_compute. reflexivity. Qed.

Example gcm_zero_key :
  gcm_seal (aes_encrypt (replicate 16 Byte.x00)) (replicate 12 Byte.x00) (replicate 16 Byte.x00) []
  = hex "0388dace60b6a392f328c2b971b2fe78ab6e47d42cec13bdf53a67b21257bddf".
Proof. vm_compute. reflexivity. Qed.
