(* ===== verification/Rules.v ===== *)
(** * Rules: the model, validation, identity and static dry run

    [internal/rules]: model.go, parse.go, hash.go, fallthrough.go and
    dryrun.go.  A [Kind] is the string Go uses, so unknown kinds are values
    too; a Go [map[string]bool] used as a set is a [gset].  The third-party
    calls of the package, [dns.IsDomainName] and the YAML codec, are
    arguments. *)
From S2P Require Import Prelude GoStrings GoNet Crypto.
From Stdlib Require Import ZArith Lia.

(** ** model.go *)
Abbreviation Kind := bytes.
Definition KindDomain : Kind := str "DOMAIN".
Definition KindDomainSuffix : Kind := str "DOMAIN-SUFFIX".
Definition KindDomainKeyword : Kind := str "DOMAIN-KEYWORD".
Definition KindGeoSite : Kind := str "GEOSITE".
Definition KindGeoIP : Kind := str "GEOIP".
Definition KindIPCIDR : Kind := str "IP-CIDR".
Definition KindRuleSet : Kind := str "RULE-SET".
Definition KindMatch : Kind := str "MATCH".

Definition allKinds : gset Kind :=
  list_to_set [KindDomain; KindDomainSuffix; KindDomainKeyword; KindGeoSite;
               KindGeoIP; KindIPCIDR; KindRuleSet; KindMatch].

Record Rule := {
  ID : bytes; kind : Kind; Pattern : bytes; Action : bytes;
  Priority : Z; Enabled : bool; Notes : bytes; GroupID : bytes
}.

#[export] Instance Rule_eq_dec : EqDecision Rule.
Proof. solve_decision. Defined.

(** The errors of the package, one per message. *)
Inductive RuleError :=
| ErrIDRequired
| ErrUnknownKind (id : bytes) (k : Kind)
| ErrPatternRequired (id : bytes) (k : Kind)
| ErrActionRequired (id : bytes)
| ErrMatchActionRequired (id : bytes)
| ErrActionDelimiter (id : bytes)
| ErrPatternDelimiter (id : bytes)
| ErrInvalidDomain (id pattern : bytes)
| ErrInvalidCIDR (id pattern : bytes)
| ErrMatchPattern (id : bytes)
| ErrDuplicateID (id : bytes)
| ErrManyMatch
| ErrMatchNotLast
| ErrYAML.

Definition comma : byte := Byte.x2c.
Definition csv_delims : bytes := [comma; Byte.x0d; Byte.x0a].

Definition blank (s : bytes) : bool := TrimSpace s == [].

(** [Rule.ToMihomoLine]. *)
Definition ToMihomoLine (r : Rule) : res RuleError bytes :=
  if kind r == KindMatch then
    if blank (Action r) then Err (ErrMatchActionRequired (ID r))
    else Ok (str "MATCH," ++ Action r)
  else if blank (Pattern r) then Err (ErrPatternRequired (ID r) (kind r))
  else if blank (Action r) then Err (ErrActionRequired (ID r))
  else Ok (kind r ++ comma :: Pattern r ++ comma :: Action r).

Section rules.
Context `{Unicode} (IsDomainName : bytes -> bool).

(** [Rule.Validate]: the checks in their order; [Ok tt] for a nil error. *)
Definition Rule_Validate (r : Rule) : res RuleError unit :=
  if blank (ID r) then Err ErrIDRequired
  else if bool_decide (kind r ∉ allKinds) then Err (ErrUnknownKind (ID r) (kind r))
  else if (kind r != KindMatch) && blank (Pattern r)
  then Err (ErrPatternRequired (ID r) (kind r))
  else if blank (Action r) then Err (ErrActionRequired (ID r))
  else if ContainsAny (Action r) csv_delims then Err (ErrActionDelimiter (ID r))
  else if ContainsAny (Pattern r) csv_delims then Err (ErrPatternDelimiter (ID r))
  else if (kind r == KindDomain) || (kind r == KindDomainSuffix) then
    if IsDomainName (TrimSpace (Pattern r)) then Ok tt
    else Err (ErrInvalidDomain (ID r) (Pattern r))
  else if kind r == KindIPCIDR then
    match ParseCIDR (TrimSpace (Pattern r)) with
    | Some _ => Ok tt
    | None => Err (ErrInvalidCIDR (ID r) (Pattern r))
    end
  else if kind r == KindMatch then
    if blank (Pattern r) then Ok tt else Err (ErrMatchPattern (ID r))
  else Ok tt.

(** The first loop of [RuleSet.Validate]: seen ids, number of MATCH rules
    and index of the last one. *)
Fixpoint validate_loop (rs : list Rule) (i : nat) (seen : gset bytes)
    (matchCount : nat) (matchIndex : option nat) : res RuleError (nat * option nat) :=
  match rs with
  | [] => Ok (matchCount, matchIndex)
  | r :: rs =>
      match Rule_Validate r with
      | Err e => Err e
      | Ok _ =>
          if bool_decide (ID r ∈ seen) then Err (ErrDuplicateID (ID r))
          else
            let seen := {[ID r]} ∪ seen in
            if kind r == KindMatch
            then validate_loop rs (S i) seen (S matchCount) (Some i)
            else validate_loop rs (S i) seen matchCount matchIndex
      end
  end.

(** The second loop: the MATCH rule sorts last. *)
Fixpoint match_last_loop (rs : list Rule) (i matchIndex : nat) (mp : Z) : bool :=
  match rs with
  | [] => true
  | r :: rs =>
      if (i =? matchIndex)%nat then match_last_loop rs (S i) matchIndex mp
      else if (mp <? Priority r)%Z || ((Priority r =? mp)%Z && (matchIndex <? i)%nat)
      then false
      else match_last_loop rs (S i) matchIndex mp
  end.

(** [RuleSet.Validate]. *)
Definition RuleSet_Validate (rs : list Rule) : res RuleError unit :=
  match validate_loop rs 0 ∅ 0 None with
  | Err e => Err e
  | Ok (n, idx) =>
      if (1 <? n)%nat then Err ErrManyMatch
      else match idx with
           | None => Ok tt
           | Some i =>
               match rs !! i with
               | None => Ok tt
               | Some m => if match_last_loop rs 0 i (Priority m) then Ok tt
                           else Err ErrMatchNotLast
               end
           end
  end.

(** parse.go: [ParseYAML] over the codec [yaml.Unmarshal]. *)
Definition ParseYAML (Unmarshal : bytes -> option (list Rule)) (raw : bytes)
    : res RuleError (list Rule) :=
  match Unmarshal raw with
  | None => Err ErrYAML
  | Some set => match RuleSet_Validate set with Err e => Err e | Ok _ => Ok set end
  end.
End rules.

(** ** hash.go *)

(** [itoa] on an [int]: sixty-four bits, so negating the least integer wraps
    to itself.  The buffer has twenty bytes, enough for nineteen digits and
    a sign. *)
Definition int64_min : Z := (-9223372036854775808)%Z.
Definition int64_max : Z := 9223372036854775807%Z.
Definition neg64 (i : Z) : Z := if (i =? int64_min)%Z then i else (- i)%Z.

Definition itoa (i : Z) : bytes :=
  if (i =? 0)%Z then str "0"
  else
    let neg := (i <? 0)%Z in
    let i := if neg then neg64 i else i in
    let digits := decimal_digits 20 i [] in
    if neg then Byte.x2d :: digits else digits.

Definition unit_sep : byte := Byte.x1f.
Definition record_sep : byte := Byte.x1e.

Definition hash_row (r : Rule) : bytes :=
  Join [ID r; kind r; Pattern r; Action r; itoa (Priority r)] unit_sep.

(** Lexicographic order of byte strings, Go's [<=] on strings. *)
Fixpoint bytes_leb (s t : bytes) : bool :=
  match s, t with
  | [], _ => true
  | _ :: _, [] => false
  | a :: s, b :: t =>
      if (bz a =? bz b)%Z then bytes_leb s t else (bz a <? bz b)%Z
  end.

Definition enabled_rules (rs : list Rule) : list Rule := filter (fun r => Enabled r = true) rs.

Definition hash_input (rs : list Rule) : bytes :=
  Join (stable_sort bytes_leb (map hash_row (enabled_rules rs))) record_sep.

(** [HashRules]. *)
Definition HashRules (rs : list Rule) : bytes := hex_encode (sha256 (hash_input rs)).

(** ** fallthrough.go *)
Definition ResolveFallthrough (rs : list Rule) (activeExit defaultAction : bytes) : bytes * bool :=
  match list_find (fun r => kind r = KindMatch /\ Enabled r = true) rs with
  | Some (_, r) => (Action r, true)
  | None =>
      if activeExit != [] then (activeExit, false)
      else if defaultAction != [] then (defaultAction, false)
      else (str "PROXY", false)
  end.

(** ** dryrun.go *)
Record TestFixture := { f_domain : bytes; f_ip : bytes; f_expected : bytes; f_notes : bytes }.

Record DryRunResult := {
  d_domain : bytes; d_rule : bytes; d_kind : Kind; d_actual : bytes;
  d_expected : bytes; d_pass : bool; d_reason : bytes
}.

(** Priority order; equal priorities keep list order. *)
Definition prio_leb (r s : Rule) : bool := (Priority r <=? Priority s)%Z.
Definition sort_enabled (rs : list Rule) : list Rule := stable_sort prio_leb (enabled_rules rs).

Section dryrun.
Context `{Unicode}.

Definition equalFold (a b : bytes) : bool := EqualFold (TrimSpace a) (TrimSpace b).

Definition dot : byte := Byte.x2e.

Definition domainHasSuffix (domain suffix : bytes) : bool :=
  let d := ToLower (TrimSpace domain) in
  let s := ToLower (TrimSpace suffix) in
  if d == s then true else HasSuffix d (dot :: s).

Definition ruleMatchesFixture (r : Rule) (f : TestFixture) : bool :=
  if kind r == KindDomain then equalFold (f_domain f) (Pattern r)
  else if kind r == KindDomainSuffix then domainHasSuffix (f_domain f) (Pattern r)
  else if kind r == KindDomainKeyword
  then Contains (ToLower (f_domain f)) (ToLower (Pattern r))
  else if kind r == KindIPCIDR then
    if f_ip f == [] then false
    else match ParseCIDR (Pattern r) with
         | None => false
         | Some cidr =>
             match ParseIP (f_ip f) with
             | Some ip => IPNet_Contains cidr ip
             | None => false
             end
         end
  else if (kind r == KindGeoSite) || (kind r == KindGeoIP) || (kind r == KindRuleSet)
  then Contains (f_notes f) (str "hint:" ++ Pattern r)
  else kind r == KindMatch.

Definition findMatch (rs : list Rule) (f : TestFixture) : option Rule :=
  snd <$> list_find (fun r => ruleMatchesFixture r f = true) rs.

Definition differs : bytes := str "actual exit differs from expected".

Definition dry_result (f : TestFixture) (rule : bytes) (k : Kind) (exit : bytes) : DryRunResult :=
  let pass := (f_expected f == []) || (f_expected f == exit) in
  {| d_domain := f_domain f; d_rule := rule; d_kind := k; d_actual := exit;
     d_expected := f_expected f; d_pass := pass; d_reason := if pass then [] else differs |}.

Definition dry_run_one (sorted_rs : list Rule) (fallthroughTarget : bytes) (f : TestFixture)
    : DryRunResult :=
  match findMatch sorted_rs f with
  | None =>
      if fallthroughTarget != [] then dry_result f (str "fallthrough") KindMatch fallthroughTarget
      else {| d_domain := f_domain f; d_rule := []; d_kind := []; d_actual := [];
              d_expected := f_expected f; d_pass := false; d_reason := str "no rule matched" |}
  | Some m => dry_result f (ID m) (kind m) (Action m)
  end.

(** [DryRun]. *)
Definition DryRun (rs : list Rule) (fixtures : list TestFixture) (fallthroughTarget : bytes)
    : list DryRunResult :=
  map (dry_run_one (sort_enabled rs) fallthroughTarget) fixtures.
End dryrun.

(** ** Lemmas *)

(** *** Errors and checks *)
Lemma ContainsAny_false s cs : ContainsAny s cs = false <-> forall b, b ∈ cs -> b ∉ s.
Proof. unfold ContainsAny. rewrite <- IndexAny_None. by destruct (IndexAny s cs). Qed.

Abbreviation is_match := (fun r => kind r = KindMatch).

(** *** Priority order *)
Lemma prio_leb_trans x y z : prio_leb x y = true -> prio_leb y z = true -> prio_leb x z = true.
Proof. unfold prio_leb. lia. Qed.
Lemma prio_leb_total x y : prio_leb x y = false -> prio_leb y x = true.
Proof. unfold prio_leb. lia. Qed.
#[export] Hint Resolve prio_leb_trans prio_leb_total : golang.

Section rules_lemmas.
Context `{Unicode} (IsDomainName : bytes -> bool).

(** What every accepted rule satisfies. *)
Lemma Rule_Validate_fields r :
  Rule_Validate IsDomainName r = Ok tt ->
  blank (ID r) = false /\ kind r ∈ allKinds /\
  (kind r <> KindMatch -> blank (Pattern r) = false) /\
  (kind r = KindMatch -> blank (Pattern r) = true) /\
  blank (Action r) = false /\
  (forall b, b ∈ csv_delims -> b ∉ Action r) /\ (forall b, b ∈ csv_delims -> b ∉ Pattern r).
Proof.
  unfold Rule_Validate.
  destruct (blank (ID r)); [done|]. case_bool_decide as Hk; [done|].
  destruct ((kind r != KindMatch) && blank (Pattern r)) eqn:Hp; [done|].
  destruct (blank (Action r)); [done|].
  destruct (ContainsAny (Action r) _) eqn:Ha; [done|].
  destruct (ContainsAny (Pattern r) _) eqn:Hpd; [done|].
  rewrite ContainsAny_false in Ha, Hpd. intros HV. repeat (split; [done|]); split; [|split].
  - intros Hm. by rewrite bool_decide_eq_false_2 in Hp.
  - intros Hm. rewrite Hm in HV. cbn in HV. by destruct (blank (Pattern r)).
  - done.
Qed.

Lemma kind_no_delims k b : k ∈ allKinds -> b ∈ csv_delims -> b ∉ k.
Proof.
  intros Hk Hb.
  assert (Forall (fun k => Forall (fun b => b ∉ k) csv_delims) (elements allKinds)) as HF
    by (apply (bool_decide_unpack _); vm_compute; exact I).
  rewrite Forall_forall in HF. specialize (HF k ltac:(by apply elem_of_elements)).
  rewrite Forall_forall in HF. auto.
Qed.

(** The fields of a printed line, when none holds a comma. *)
Lemma mihomo_line_split r line :
  ToMihomoLine r = Ok line -> comma ∉ kind r -> comma ∉ Pattern r -> comma ∉ Action r ->
  line = (if kind r == KindMatch then kind r ++ comma :: Action r
          else kind r ++ comma :: Pattern r ++ comma :: Action r) /\
  Split line comma =
    (if kind r == KindMatch then [kind r; Action r] else [kind r; Pattern r; Action r]).
Proof.
  unfold ToMihomoLine. intros Hl HK HP HA. case_bool_decide as Hm.
  - destruct (blank (Action r)); [done|].
    assert (line = kind r ++ comma :: Action r) as -> by (injection Hl as <-; by rewrite Hm).
    split; [done|]. by rewrite Split_app, !Split_free_single.
  - destruct (blank (Pattern r)), (blank (Action r)); try done. injection Hl as <-.
    split; [done|]. by rewrite !Split_app, !Split_free_single.
Qed.

(** *** The loops of [RuleSet.Validate] *)
Fixpoint last_match (rs : list Rule) (i : nat) (idx : option nat) : option nat :=
  match rs with
  | [] => idx
  | r :: rs => last_match rs (S i) (if decide (is_match r) then Some i else idx)
  end.

Lemma last_match_spec rs i idx :
  (Forall (fun r => ~ is_match r) rs /\ last_match rs i idx = idx) \/
  (exists j m, rs !! j = Some m /\ is_match m /\ last_match rs i idx = Some (i + j)%nat).
Proof.
  revert i idx. induction rs as [|r rs IH]; intros i idx; cbn [last_match]; [by left|].
  destruct (IH (S i) (if decide (is_match r) then Some i else idx)) as [[HF ->]|(j & m & Hj & Hm & ->)].
  - destruct (decide (is_match r)); [right; exists 0%nat, r|left]; rewrite ?Nat.add_0_r; auto.
  - right. exists (S j), m. by rewrite Nat.add_succ_r.
Qed.

Lemma validate_loop_ok rs i seen n idx c :
  validate_loop IsDomainName rs i seen n idx = Ok c <->
  Forall (fun r => Rule_Validate IsDomainName r = Ok tt) rs /\
  NoDup (ID <$> rs) /\ (forall r, r ∈ rs -> ID r ∉ seen) /\
  c = ((n + length (filter is_match rs))%nat, last_match rs i idx).
Proof.
  revert i seen n idx. induction rs as [|r rs IH]; intros i seen n idx; cbn [validate_loop last_match].
  { rewrite Nat.add_0_r. split; [intros [= <-]|intros (_ & _ & _ & ->)]; [|done].
    repeat split; [done|constructor|set_solver]. }
  rewrite Forall_cons, fmap_cons, NoDup_cons, filter_cons.
  destruct (Rule_Validate IsDomainName r) as [e|[]] eqn:HV; [by split; [|intros ([] & _)]|].
  case_bool_decide as Hseen.
  { split; [done|]. intros (_ & _ & Hs & _). by destruct (Hs r); [constructor|]. }
  assert (Hs : (forall x, x ∈ rs -> ID x ∉ {[ID r]} ∪ seen) <->
      (ID r ∉ ID <$> rs) /\ (forall x, x ∈ r :: rs -> ID x ∉ seen)).
  { setoid_rewrite not_elem_of_union. setoid_rewrite elem_of_cons.
    rewrite list_elem_of_fmap. set_solver. }
  destruct (decide (kind r = KindMatch)) as [Hm|Hm];
    [rewrite bool_decide_eq_true_2 by done|rewrite bool_decide_eq_false_2 by done];
    rewrite IH, Hs; simpl length; rewrite <- ?Nat.add_succ_comm; tauto.
Qed.

Lemma match_last_loop_spec rs i idx mp :
  match_last_loop rs i idx mp = true <->
  forall j r, rs !! j = Some r -> (i + j)%nat <> idx ->
    (Priority r <= mp)%Z /\ (Priority r = mp -> (i + j < idx)%nat).
Proof.
  revert i. induction rs as [|r rs IH]; intros i; simpl; [done|].
  assert (Hstep : match_last_loop rs (S i) idx mp = true <->
    forall j s, (r :: rs) !! S j = Some s -> (i + S j)%nat <> idx ->
      (Priority s <= mp)%Z /\ (Priority s = mp -> (i + S j < idx)%nat)).
  { rewrite IH. setoid_rewrite Nat.add_succ_r. done. }
  destruct (Nat.eqb_spec i idx) as [->|Hne].
  - rewrite Hstep. split; intros Hj; [intros [|j]|intros j]; intros s E; auto. intros []. lia.
  - destruct ((mp <? Priority r)%Z || _) eqn:C.
    + split; [done|]. intros Hj. destruct (Hj 0%nat r eq_refl) as [L1 L2]; [lia|].
      apply orb_true_iff in C as [C|[C1 C2]%andb_true_iff]; [lia|].
      apply Z.eqb_eq in C1. apply Nat.ltb_lt in C2. specialize (L2 C1). lia.
    + rewrite Hstep. apply orb_false_iff in C as [C1 C2].
      split; intros Hj; [intros [|j]|intros j]; intros s E; auto. simplify_eq/=.
      apply Z.ltb_ge in C1. apply andb_false_iff in C2. rewrite Z.eqb_neq, Nat.ltb_ge in C2. lia.
Qed.

(** The second loop says that the MATCH rule ends the sorted list. *)
Lemma match_last_sorted rs i m :
  rs !! i = Some m -> NoDup (ID <$> rs) ->
  match_last_loop rs 0 i (Priority m) = true <-> last (stable_sort prio_leb rs) = Some m.
Proof.
  intros Hi Hnd. rewrite match_last_loop_spec. simpl.
  destruct (list_elem_of_split_length rs i m Hi) as (l1 & l2 & -> & ->). split.
  - intros Hl. rewrite stable_sort_last, last_snoc; [done|..];
      apply Forall_lookup; intros j x Hx; unfold prio_leb.
    + pose proof (lookup_lt_Some _ _ _ Hx). destruct (Hl j x); [by rewrite lookup_app_l|lia..].
    + destruct (Hl (length l1 + S j)%nat x) as [L1 L2].
      * rewrite lookup_app_r by lia. by replace (_ + S j - _)%nat with (S j) by lia.
      * lia.
      * destruct (Z.leb_spec (Priority m) (Priority x)); [|done].
        specialize (L2 ltac:(lia)). lia.
  - intros [l Hl]%last_Some j r Hj Hne.
    assert (Hle : Forall (fun x => prio_leb x m = true) l).
    { apply sorted_last. rewrite <- Hl. apply stable_sort_sorted; eauto with golang. }
    assert (Priority r <= Priority m)%Z as Hrm.
    { assert (r ∈ l ++ [m]) as [Hr| ->%list_elem_of_singleton]%elem_of_app.
      - rewrite <- Hl, stable_sort_elem. by eapply list_elem_of_lookup_2.
      - rewrite Forall_forall in Hle. specialize (Hle r Hr). unfold prio_leb in Hle. lia.
      - lia. }
    split; [done|]. intros Heq. destruct (decide (j < length l1)%nat) as [|Hge]; [done|exfalso].
    rewrite lookup_app_r in Hj by lia. destruct (j - length l1)%nat as [|k] eqn:Ek; [lia|].
    simpl in Hj.
    pose proof (stable_sort_filter_key prio_leb (fun x => Priority x = Priority m)
      (l1 ++ m :: l2) ltac:(unfold prio_leb; lia)) as HF.
    rewrite Hl, !filter_app in HF. simpl in HF.
    assert (r ∈ filter (fun x => Priority x = Priority m) l2) as Hr2.
    { apply list_elem_of_filter. split; [done|]. by eapply list_elem_of_lookup_2. }
    apply (f_equal last) in HF. rewrite !filter_cons, !decide_True in HF by done.
    rewrite filter_nil, last_snoc, last_app_cons, last_cons in HF.
    destruct (last (filter _ l2)) as [z|] eqn:Ez; [|by apply last_None in Ez; rewrite Ez in Hr2; inversion Hr2].
    simplify_eq. apply last_Some_elem_of, list_elem_of_filter in Ez as [_ Ez].
    rewrite fmap_app, NoDup_app in Hnd. destruct Hnd as (_ & _ & Hnd).
    apply NoDup_cons in Hnd as [Hnd _]. apply Hnd, list_elem_of_fmap. eauto.
Qed.
End rules_lemmas.

(** *** Identity *)
Definition atoi (s : bytes) : Z :=
  match s with
  | c :: s' => if bool_decide (c = Byte.x2d) then (- dec_value s')%Z else dec_value s
  | [] => 0%Z
  end.

Definition is_int64 (i : Z) : Prop := (int64_min <= i <= int64_max)%Z.

(** The digits [itoa] prints for a non-zero magnitude. *)
Lemma itoa_digits n : (0 < n <= int64_max)%Z ->
  dec_value (decimal_digits 20 n []) = n /\ Forall digit_byte (decimal_digits 20 n []) /\
  decimal_digits 20 n [] <> [].
Proof.
  unfold int64_max. intros Hn.
  assert (dec_value (decimal_digits 20 n []) = n) as Hv.
  { rewrite decimal_digits_value by lia. change (10 ^ len [])%Z with 1%Z.
    change (dec_value []) with 0%Z. lia. }
  split; [done|]. split; [apply decimal_digits_digits; [lia|constructor]|].
  intros E. rewrite E in Hv. change (dec_value []) with 0%Z in Hv. lia.
Qed.

Lemma itoa_chars i b : is_int64 i -> b ∈ itoa i -> digit_byte b \/ b = Byte.x2d.
Proof.
  unfold itoa, is_int64, neg64. intros Hi. destruct (Z.eqb_spec i 0).
  { intros ->%list_elem_of_singleton. left. by vm_compute. }
  destruct (Z.ltb_spec i 0), (Z.eqb_spec i int64_min) as [->|];
    try (unfold int64_min in *; lia);
    try (intros [->|Hb]%elem_of_cons; [by right|]); try intros Hb.
  - vm_compute in Hb. inversion Hb.
  - left. destruct (itoa_digits (- i)) as (_ & HF & _); [unfold int64_min, int64_max in *; lia|].
    rewrite Forall_forall in HF. auto.
  - left. destruct (itoa_digits i) as (_ & HF & _); [lia|]. rewrite Forall_forall in HF. auto.
Qed.

Lemma atoi_digits_only s : Forall digit_byte s -> atoi s = dec_value s.
Proof.
  destruct s as [|c s]; [done|]. intros [Hc _]%Forall_cons_1. simpl.
  case_bool_decide as E; [|done]. subst. unfold digit_byte in Hc. by vm_compute in Hc; destruct Hc.
Qed.

Lemma atoi_itoa i : is_int64 i -> i <> int64_min -> atoi (itoa i) = i.
Proof.
  unfold is_int64, itoa, neg64. intros Hi Hm. destruct (Z.eqb_spec i 0) as [->|]; [done|].
  rewrite (proj2 (Z.eqb_neq _ _) Hm). destruct (Z.ltb_spec i 0).
  - change (atoi (Byte.x2d :: decimal_digits 20 (- i) [])) with (- dec_value (decimal_digits 20 (- i) []))%Z.
    destruct (itoa_digits (- i)) as (-> & _); [unfold int64_min, int64_max in *; lia|]. lia.
  - destruct (itoa_digits i) as (Hv & HF & _); [lia|]. by rewrite atoi_digits_only.
Qed.

Lemma itoa_min : itoa int64_min = str "-".
Proof. by vm_compute. Qed.

Lemma itoa_inj i j : is_int64 i -> is_int64 j -> itoa i = itoa j -> i = j.
Proof.
  intros Hi Hj E. apply (f_equal atoi) in E as E'.
  destruct (decide (i = int64_min)) as [->|], (decide (j = int64_min)) as [->|]; try done.
  - rewrite itoa_min, atoi_itoa in E' by done. change (0%Z = j) in E'. subst. done.
  - rewrite itoa_min, atoi_itoa in E' by done. change (i = 0%Z) in E'. subst. done.
  - by rewrite !atoi_itoa in E' by done.
Qed.

(** The fields the hash covers, and rules whose fields hold no separator. *)
Definition hash_key (r : Rule) : bytes * Kind * bytes * bytes * Z :=
  (ID r, kind r, Pattern r, Action r, Priority r).

Definition clean (s : bytes) : Prop := (unit_sep ∉ s) /\ (record_sep ∉ s).

Definition clean_rule (r : Rule) : Prop :=
  clean (ID r) /\ clean (kind r) /\ clean (Pattern r) /\ clean (Action r) /\ is_int64 (Priority r).

Lemma clean_itoa i : is_int64 i -> clean (itoa i).
Proof.
  intros Hi. split; intros [Hd|E]%itoa_chars; try done; by vm_compute in Hd; destruct Hd.
Qed.

Lemma hash_row_split r :
  clean_rule r -> Split (hash_row r) unit_sep = [ID r; kind r; Pattern r; Action r; itoa (Priority r)].
Proof.
  intros ((? & _) & (? & _) & (? & _) & (? & _) & Hp). apply Split_Join; [done|].
  repeat constructor; try done. by apply clean_itoa.
Qed.

Lemma hash_row_clean r : clean_rule r -> record_sep ∉ hash_row r.
Proof.
  intros ((_ & ?) & (_ & ?) & (_ & ?) & (_ & ?) & Hp). apply clean_itoa in Hp as [_ ?].
  unfold hash_row. simpl. repeat (rewrite ?elem_of_app, ?elem_of_cons). intuition discriminate.
Qed.

Lemma hash_row_nonempty r : hash_row r <> [].
Proof. unfold hash_row. simpl. by destruct (ID r). Qed.

Lemma hash_row_inj r s :
  clean_rule r -> clean_rule s -> hash_row r = hash_row s -> hash_key r = hash_key s.
Proof.
  intros Hr Hs E. apply (f_equal (fun l => Split l unit_sep)) in E.
  rewrite !hash_row_split in E by done. injection E as E1 E2 E3 E4 E5.
  destruct Hr as (_ & _ & _ & _ & Hr), Hs as (_ & _ & _ & _ & Hs).
  apply itoa_inj in E5; [|done..]. unfold hash_key. congruence.
Qed.

Lemma bytes_leb_total x y : bytes_leb x y = false -> bytes_leb y x = true.
Proof.
  revert y. induction x as [|a x IH]; intros [|b y]; simpl; try done.
  rewrite (Z.eqb_sym (bz b)). destruct (Z.eqb_spec (bz a) (bz b)); [auto|]. lia.
Qed.

Lemma bytes_leb_trans x y z : bytes_leb x y = true -> bytes_leb y z = true -> bytes_leb x z = true.
Proof.
  revert y z. induction x as [|a x IH]; intros [|b y] [|c z]; simpl; try done.
  destruct (Z.eqb_spec (bz a) (bz b)) as [->|]; [destruct (bz b =? bz c)%Z; eauto|].
  destruct (Z.eqb_spec (bz b) (bz c)) as [->|]; destruct (Z.eqb_spec (bz a) (bz c)); try done; lia.
Qed.

#[export] Instance bytes_leb_antisymm : AntiSymm (=) (fun x y => bytes_leb x y = true).
Proof.
  intros x. induction x as [|a x IH]; intros [|b y]; simpl; try done.
  rewrite (Z.eqb_sym (bz b)). destruct (Z.eqb_spec (bz a) (bz b)) as [E|]; [|lia].
  apply bz_inj in E as ->. intros. f_equal. auto.
Qed.
#[export] Hint Resolve bytes_leb_trans bytes_leb_total : golang.

(** Sorting byte strings forgets the order they come in. *)
#[export] Instance sort_strings_proper :
  Proper (Permutation ==> eq) (stable_sort bytes_leb).
Proof.
  intros l k E. eapply StronglySorted_unique; [apply bytes_leb_antisymm|..];
    try (apply stable_sort_sorted; eauto with golang).
  by rewrite <- !(stable_sort_perm bytes_leb).
Qed.

#[export] Instance hash_input_proper : Proper (Permutation ==> eq) hash_input.
Proof. intros rs ss E. unfold hash_input, enabled_rules. by rewrite E. Qed.

#[export] Instance HashRules_proper : Proper (Permutation ==> eq) HashRules.
Proof. intros rs ss E. unfold HashRules. by rewrite E. Qed.

Lemma hash_input_rows rs :
  Forall clean_rule rs -> enabled_rules rs <> [] ->
  Split (hash_input rs) record_sep = stable_sort bytes_leb (map hash_row (enabled_rules rs)).
Proof.
  intros Hc Hne. apply Split_Join.
  - intros E. apply (f_equal length) in E. rewrite stable_sort_length, length_map in E.
    by destruct (enabled_rules rs).
  - rewrite <- (stable_sort_perm bytes_leb). apply Forall_forall. intros w (r & -> & Hr)%list_elem_of_fmap.
    apply hash_row_clean. apply list_elem_of_filter in Hr as [_ Hr]. rewrite Forall_forall in Hc. auto.
Qed.

Lemma clean_enabled rs : Forall clean_rule rs -> Forall clean_rule (enabled_rules rs).
Proof. rewrite !Forall_forall. intros Hc r [_ Hr]%list_elem_of_filter. auto. Qed.

Lemma hash_input_nil rs : hash_input rs = [] <-> enabled_rules rs = [].
Proof.
  unfold hash_input. split; [|by intros ->]. intros E.
  destruct (enabled_rules rs) as [|r l]; [done|exfalso].
  pose proof (stable_sort_perm bytes_leb (map hash_row (r :: l))) as HP.
  destruct (stable_sort bytes_leb _) as [|w ws]; [by apply Permutation_length in HP|].
  assert (w ∈ map hash_row (r :: l)) as (s & -> & _)%list_elem_of_fmap by (rewrite HP; by left).
  destruct ws; simpl in E; [by apply hash_row_nonempty in E|by apply app_nil in E as [? ?]].
Qed.

Lemma hash_rows_keys l k :
  Forall clean_rule l -> Forall clean_rule k ->
  Permutation (map hash_row l) (map hash_row k) -> Permutation (map hash_key l) (map hash_key k).
Proof.
  intros Hl Hk HP. apply Permutation_map_inv in HP as (k' & E & HP). rewrite HP.
  rewrite HP in Hk. clear HP k. revert k' E Hk.
  induction Hl as [|r l Hr _ IH]; intros [|s k'] [=] Hk; [done|].
  apply Forall_cons_1 in Hk as [Hs Hk]. simpl. by rewrite (hash_row_inj r s), (IH k').
Qed.

(** *** First match in priority order *)
Section dryrun_lemmas.
Context `{Unicode}.

Lemma best_enabled (P : Rule -> bool) rs :
  best prio_leb P (enabled_rules rs) = best prio_leb (fun r => Enabled r && P r) rs.
Proof.
  unfold enabled_rules. induction rs as [|r rs IH]; [done|].
  rewrite filter_cons. simpl. rewrite <- IH. destruct (Enabled r); simpl; [done|].
  by destruct (best prio_leb P _).
Qed.

Lemma found_sort_enabled P rs :
  found P (sort_enabled rs) = best prio_leb (fun r => Enabled r && P r) rs.
Proof.
  unfold sort_enabled. rewrite found_stable_sort by eauto with golang. apply best_enabled.
Qed.

(** Rule [r], at index [i], decides fixture [f]: it is enabled and matches,
    and no enabled matching rule has a smaller priority, nor the same
    priority and an earlier place. *)
Definition decides (rs : list Rule) (f : TestFixture) (i : nat) (r : Rule) : Prop :=
  rs !! i = Some r /\ Enabled r = true /\ ruleMatchesFixture r f = true /\
  forall j s, rs !! j = Some s -> Enabled s = true -> ruleMatchesFixture s f = true ->
    (Priority r <= Priority s)%Z /\ (Priority s = Priority r -> (i <= j)%nat).

Lemma findMatch_decides rs f r :
  findMatch (sort_enabled rs) f = Some r <-> exists i, decides rs f i r.
Proof.
  change (findMatch (sort_enabled rs) f) with (found (fun r => ruleMatchesFixture r f) (sort_enabled rs)).
  rewrite found_sort_enabled, best_Some by eauto with golang.
  apply exist_proper. intros i. unfold least_at, decides, prio_leb. setoid_rewrite andb_true_iff.
  split.
  - intros (Hi & (He & Hm) & Hmin). repeat (split; [done|]). intros j s Hj Hs Ms.
    destruct (Hmin j s) as [L1 L2]; [done..|]. split; [lia|]. intros E. apply L2. lia.
  - intros (Hi & He & Hm & Hmin). repeat (split; [done|]). intros j s Hj (Hs & Ms).
    destruct (Hmin j s) as [L1 L2]; [done..|]. split; [lia|]. intros L. apply L2. lia.
Qed.

Lemma findMatch_none rs f :
  findMatch (sort_enabled rs) f = None <->
  forall r, r ∈ rs -> Enabled r = true -> ruleMatchesFixture r f = false.
Proof.
  change (findMatch (sort_enabled rs) f) with (found (fun r => ruleMatchesFixture r f) (sort_enabled rs)).
  rewrite found_sort_enabled, best_None, Forall_forall.
  apply forall_proper. intros r. destruct (Enabled r); simpl; naive_solver.
Qed.
End dryrun_lemmas.

(** ** Properties *)
Section properties.
Context `{Unicode} (IsDomainName : bytes -> bool).

(** RuleSet.Validate accepts exactly the rule lists whose rules are all
    well formed, whose ids are pairwise distinct, and that have no MATCH rule
    or a single one which ends the list once it is stably sorted by
    priority. *)
Theorem RuleSet_Validate_spec rs :
  RuleSet_Validate IsDomainName rs = Ok tt <->
  Forall (fun r => Rule_Validate IsDomainName r = Ok tt) rs /\ NoDup (ID <$> rs) /\
  (filter (fun r => kind r = KindMatch) rs = [] \/
   exists m, filter (fun r => kind r = KindMatch) rs = [m] /\
     last (stable_sort prio_leb rs) = Some m).
Proof.
  unfold RuleSet_Validate.
  destruct (validate_loop _ rs 0 ∅ 0 None) as [e|[n idx]] eqn:E.
  { split; [done|]. intros (HF & Hnd & _).
    assert (validate_loop IsDomainName rs 0 ∅ 0 None =
      Ok (length (filter is_match rs), last_match rs 0 None)) as E'.
    { by apply validate_loop_ok. }
    congruence. }
  apply validate_loop_ok in E as (HF & Hnd & _ & [= -> ->]).
  transitivity (filter (fun r => kind r = KindMatch) rs = [] \/
   exists m, filter (fun r => kind r = KindMatch) rs = [m] /\
     last (stable_sort prio_leb rs) = Some m); [|tauto].
  destruct (last_match_spec rs 0 None) as [[HN ->]|(j & m & Hj & Hm & ->)].
  { assert (filter (fun r => kind r = KindMatch) rs = []) as ->; [|simpl; tauto].
    apply elem_of_nil_inv. intros x [Hm Hx]%list_elem_of_filter.
    rewrite Forall_forall in HN. by apply (HN x). }
  simpl. rewrite Hj.
  destruct (list_elem_of_split_length rs j m Hj) as (l1 & l2 & -> & ->).
  assert (m ∈ filter (fun r => kind r = KindMatch) (l1 ++ m :: l2)) as Hin.
  { apply list_elem_of_filter. split; [done|set_solver]. }
  destruct (filter _ (l1 ++ m :: l2)) as [|x [|y l]] eqn:F; simpl;
    [by apply not_elem_of_nil in Hin| |].
  - apply list_elem_of_singleton in Hin as <-. pose proof (match_last_sorted _ _ _ Hj Hnd) as HM.
    destruct (match_last_loop _ _ _ _); split; try done.
    + intros _. right. exists m. split; [done|]. by apply HM.
    + intros [|(m' & [= ->] & Hl)]; [done|]. by apply HM in Hl.
  - split; [done|]. by intros [|(m' & ? & _)].
Qed.

(** a rule that Validate accepts prints as a single mihomo line whose
    comma-separated fields are exactly its kind, its pattern and its action
    (kind and action for MATCH): no field can smuggle in a delimiter or a
    line break. *)
Theorem validated_line_fields r :
  Rule_Validate IsDomainName r = Ok tt ->
  exists line, ToMihomoLine r = Ok line /\
    Split line comma =
      (if kind r == KindMatch then [kind r; Action r] else [kind r; Pattern r; Action r]) /\
    (Byte.x0a ∉ line) /\ (Byte.x0d ∉ line).
Proof.
  intros (_ & Hk & Hp & _ & Ha & HA & HP)%Rule_Validate_fields.
  assert (exists line, ToMihomoLine r = Ok line) as [line Hl].
  { unfold ToMihomoLine. rewrite Ha. case_bool_decide; [eauto|]. rewrite Hp by done. eauto. }
  pose proof (fun b => kind_no_delims _ b Hk) as HK.
  assert (comma ∈ csv_delims /\ Byte.x0a ∈ csv_delims /\ Byte.x0d ∈ csv_delims) as (Dc & Dn & Dr)
    by (by repeat split; apply (bool_decide_unpack _)).
  destruct (mihomo_line_split r line) as [E HS]; auto.
  exists line. split; [done|]. split; [done|].
  assert (forall b, b ∈ csv_delims -> b <> comma -> b ∉ line) as HF by (intros b Hb Hc; rewrite E;
    case_bool_decide; repeat (rewrite elem_of_app || rewrite elem_of_cons);
    specialize (HK b Hb); specialize (HA b Hb); specialize (HP b Hb); tauto).
  split; by apply HF.
Qed.

(** two rule lists with separator-free fields have the same hash input
    if and only if their enabled rules are the same up to order, compared on
    the hashed fields (so notes, groups, disabled rules and list order never
    matter, and nothing else is lost before SHA-256). *)
Theorem hash_input_identity rs ss :
  Forall clean_rule rs -> Forall clean_rule ss ->
  hash_input rs = hash_input ss <->
  Permutation (map hash_key (enabled_rules rs)) (map hash_key (enabled_rules ss)).
Proof.
  intros Hr Hs. split.
  - intros E. destruct (decide (enabled_rules rs = [])) as [Er|Er].
    + apply hash_input_nil in Er as Er'. rewrite E in Er'. apply hash_input_nil in Er'.
      by rewrite Er, Er'.
    + assert (enabled_rules ss <> []) as Es by (rewrite <- hash_input_nil, <- E; by rewrite hash_input_nil).
      apply (f_equal (fun l => Split l record_sep)) in E. rewrite !hash_input_rows in E by done.
      apply hash_rows_keys; try by apply clean_enabled.
      etrans; [apply (stable_sort_perm bytes_leb)|]. rewrite E. symmetry. apply stable_sort_perm.
  - intros HP. unfold hash_input. f_equal.
    assert (forall l, map hash_row l =
      map (fun k => Join [k.1.1.1.1; k.1.1.1.2; k.1.1.2; k.1.2; itoa k.2] unit_sep) (map hash_key l)) as Hmap.
    { intros l. by rewrite map_map. }
    by rewrite !Hmap, HP.
Qed.

(** itoa prints every int64 except the least one as a decimal numeral
    that reads back to it; for the least one, whose negation overflows, it
    prints a lone minus sign, which reads back as zero. *)
Theorem itoa_roundtrip i :
  is_int64 i ->
  (i <> int64_min -> atoi (itoa i) = i) /\ (i = int64_min -> itoa i = str "-").
Proof. intros Hi. split; [by apply atoi_itoa|intros ->; apply itoa_min]. Qed.

(** DryRun answers each fixture from the rule that decides it (least
    priority, then earliest, among the enabled matching rules), with the
    verdict computed from that rule's action, and from the fallthrough
    target exactly when no enabled rule matches. *)
Theorem DryRun_first_match rs fixtures target k f d :
  fixtures !! k = Some f -> DryRun rs fixtures target !! k = Some d ->
  (exists i r, decides rs f i r /\ d = dry_result f (ID r) (kind r) (Action r)) \/
  ((forall r, r ∈ rs -> Enabled r = true -> ruleMatchesFixture r f = false) /\
   (target <> [] -> d = dry_result f (str "fallthrough") KindMatch target) /\
   (target = [] -> d_pass d = false /\ d_actual d = [])).
Proof.
  intros Hf Hd. unfold DryRun in Hd. rewrite list_lookup_fmap, Hf in Hd. injection Hd as <-.
  unfold dry_run_one. destruct (findMatch (sort_enabled rs) f) as [r|] eqn:E.
  - left. apply findMatch_decides in E as [i Hi]. eauto.
  - right. split; [by apply findMatch_none|]. split; [intros Ht|intros ->; done].
    by rewrite bool_decide_eq_false_2.
Qed.
End properties.

(** ** Witnesses *)
Module Example1.
Definition r1 : Rule := {| ID := str "a"; kind := KindDomainSuffix; Pattern := str "example.com";
  Action := str "direct"; Priority := 10; Enabled := true; Notes := []; GroupID := [] |}.
Definition r2 : Rule := {| ID := str "b"; kind := KindDomain; Pattern := str "www.example.com";
  Action := str "block"; Priority := 5; Enabled := true; Notes := []; GroupID := [] |}.
Definition rm : Rule := {| ID := str "m"; kind := KindMatch; Pattern := [];
  Action := str "Proxy"; Priority := 99; Enabled := true; Notes := []; GroupID := [] |}.
Definition fx : TestFixture :=
  {| f_domain := str "www.example.com"; f_ip := []; f_expected := str "block"; f_notes := [] |}.
End Example1.
Import Example1.

Lemma validated_line_fields_witness :
  exists line, ToMihomoLine r1 = Ok line /\ line = str "DOMAIN-SUFFIX,example.com,direct" /\
    Split line comma = [kind r1; Pattern r1; Action r1].
Proof.
  destruct (@validated_line_fields (fun _ => true) r1 ltac:(vm_compute; reflexivity))
    as (line & E & HS & _).
  exists line. split; [exact E|]. split; [|exact HS].
  vm_compute in E. injection E as <-. vm_compute. reflexivity.
Defined.

Lemma hash_input_identity_witness :
  hash_input [r1; rm; r2] = hash_input [r2; r1; rm].
Proof.
  assert (forall l, Forall (fun r => r ∈ [r1; r2; rm]) l -> Forall clean_rule l) as HC.
  { intros l HF. eapply Forall_impl; [exact HF|]. intros r Hr.
    repeat (apply elem_of_cons in Hr as [->|Hr]); [..|by apply not_elem_of_nil in Hr];
      unfold clean_rule, clean, is_int64; repeat split; try (by apply (bool_decide_unpack _)); by vm_compute. }
  apply (hash_input_identity [r1; rm; r2] [r2; r1; rm]);
    [apply HC; by apply (bool_decide_unpack _)..|].
  vm_compute. apply (Permutation_app_comm [_; _] [_]).
Defined.

Lemma itoa_roundtrip_witness : atoi (itoa (-42)) = (-42)%Z /\ itoa int64_min = str "-".
Proof.
  split.
  - apply (itoa_roundtrip (-42)); vm_compute; [split|]; discriminate.
  - apply (itoa_roundtrip int64_min); [vm_compute; split; discriminate|reflexivity].
Defined.

Lemma DryRun_first_match_witness :
  exists d, @DryRun ascii_tables [r1; r2; rm] [fx] (str "PROXY") !! 0%nat = Some d /\
    d_rule d = str "b" /\ d_pass d = true /\
    ((exists i r, @decides ascii_tables [r1; r2; rm] fx i r /\ d = dry_result fx (ID r) (kind r) (Action r)) \/
     False).
Proof.
  eexists. split; [vm_compute; reflexivity|]. split; [reflexivity|]. split; [reflexivity|].
  destruct (@DryRun_first_match ascii_tables [r1; r2; rm] [fx] (str "PROXY") 0%nat fx _
    eq_refl ltac:(vm_compute; reflexivity)) as [Hd|(Hno & _)]; [left; exact Hd|exfalso].
  assert (r2 ∈ [r1; r2; rm]) as Hin by (apply (bool_decide_unpack _); vm_compute; exact I).
  specialize (Hno r2 Hin eq_refl). vm_compute in Hno. discriminate.
Defined.
