(* ===== verification/RuleTable.v ===== *)
(** * The resolver's compiled rule table and name classification

    [internal/resolver]: ruletable.go and classify.go.  A table holds a map
    of exact names, a trie of reversed labels for domain suffixes and a list
    of keywords, each entry with its rank in the sorted rule list.  The
    specification [spec_classify] is the sequential reading of that list;
    the refinement theorem says that the three indexes together compute
    it. *)
From S2P Require Import Prelude GoStrings GoNet Crypto Rules.
From Stdlib Require Import ZArith Lia.

(** ** ruletable.go: data *)
Record rankedAction := { ra_action : bytes; ra_rank : nat }.
Record keywordRule := { kw_keyword : bytes; kw_action : bytes; kw_rank : nat }.
Record cidrEntry := { ce_net : IPNet; ce_action : bytes }.

Inductive suffixNode := SuffixNode {
  children : gmap bytes suffixNode;
  sn_action : bytes;
  sn_rank : nat;
  hasAction : bool
}.

Definition newSuffixNode : suffixNode := SuffixNode ∅ [] 0 false.

Record RuleTable := {
  Generation : Z;
  Hash : bytes;
  exact : gmap bytes rankedAction;
  suffix_trie : suffixNode;
  keywords : list keywordRule;
  defaultAction : bytes;
  CIDRs : list cidrEntry
}.

Section table.
Context `{Unicode}.

Definition normalizeName (s : bytes) : bytes := TrimSuffix (ToLower (TrimSpace s)) [dot].

Definition splitLabels (name : bytes) : list bytes :=
  if name == [] then [] else Split name dot.

(** [suffixNode.insert]; the loop runs from the last label to the first. *)
Fixpoint insert_rev (rlabels : list bytes) (action : bytes) (rank : nat) (cur : suffixNode)
    : suffixNode :=
  match rlabels with
  | [] =>
      if hasAction cur then cur
      else SuffixNode (children cur) action rank true
  | lbl :: rlabels =>
      let child := default newSuffixNode (children cur !! lbl) in
      SuffixNode (<[lbl := insert_rev rlabels action rank child]> (children cur))
        (sn_action cur) (sn_rank cur) (hasAction cur)
  end.

Definition suffix_insert (n : suffixNode) (labels : list bytes) (action : bytes) (rank : nat) : suffixNode :=
  insert_rev (reverse labels) action rank n.

(** A candidate replaces the best so far when there is none or its rank is
    smaller. *)
Definition consider (best cand : option rankedAction) : option rankedAction :=
  match cand, best with
  | None, _ => best
  | Some c, None => Some c
  | Some c, Some b => if (ra_rank c <? ra_rank b)%nat then Some c else Some b
  end.

(** [suffixNode.lookup]. *)
Fixpoint lookup_loop (rlabels : list bytes) (cur : suffixNode) (best : option rankedAction)
    : option rankedAction :=
  match rlabels with
  | [] => best
  | lbl :: rlabels =>
      match children cur !! lbl with
      | None => best
      | Some child =>
          lookup_loop rlabels child
            (if hasAction child
             then consider best (Some {| ra_action := sn_action child; ra_rank := sn_rank child |})
             else best)
      end
  end.

Definition suffix_lookup (n : suffixNode) (name : bytes) : option rankedAction :=
  lookup_loop (reverse (splitLabels name)) n None.

(** [compileRule]. *)
Definition compileRule (t : RuleTable) (r : Rule) (rank : nat) : RuleTable :=
  if kind r == KindDomain then
    let name := normalizeName (Pattern r) in
    match exact t !! name with
    | Some _ => t
    | None =>
        {| Generation := Generation t; Hash := Hash t;
           exact := <[name := {| ra_action := Action r; ra_rank := rank |}]> (exact t);
           suffix_trie := suffix_trie t; keywords := keywords t;
           defaultAction := defaultAction t; CIDRs := CIDRs t |}
    end
  else if kind r == KindDomainSuffix then
    {| Generation := Generation t; Hash := Hash t; exact := exact t;
       suffix_trie := suffix_insert (suffix_trie t) (splitLabels (normalizeName (Pattern r))) (Action r) rank;
       keywords := keywords t; defaultAction := defaultAction t; CIDRs := CIDRs t |}
  else if kind r == KindDomainKeyword then
    {| Generation := Generation t; Hash := Hash t; exact := exact t; suffix_trie := suffix_trie t;
       keywords := keywords t ++
         [{| kw_keyword := ToLower (Pattern r); kw_action := Action r; kw_rank := rank |}];
       defaultAction := defaultAction t; CIDRs := CIDRs t |}
  else if kind r == KindMatch then
    {| Generation := Generation t; Hash := Hash t; exact := exact t; suffix_trie := suffix_trie t;
       keywords := keywords t;
       defaultAction := if defaultAction t == [] then Action r else defaultAction t;
       CIDRs := CIDRs t |}
  else if (kind r == KindIPCIDR) || (kind r == KindGeoIP) then
    match ParseCIDR (Pattern r) with
    | Some cidr =>
        {| Generation := Generation t; Hash := Hash t; exact := exact t; suffix_trie := suffix_trie t;
           keywords := keywords t; defaultAction := defaultAction t;
           CIDRs := CIDRs t ++ [{| ce_net := cidr; ce_action := Action r |}] |}
    | None => t
    end
  else t.

Fixpoint compile_loop (t : RuleTable) (rank : nat) (rs : list Rule) : RuleTable :=
  match rs with
  | [] => t
  | r :: rs => compile_loop (compileRule t r rank) (S rank) rs
  end.

Definition emptyTable : RuleTable :=
  {| Generation := 0; Hash := replicate 32 Byte.x00; exact := ∅; suffix_trie := newSuffixNode;
     keywords := []; defaultAction := []; CIDRs := [] |}.

(** [BuildTable]; its error result is always nil. *)
Definition BuildTable (rs : list Rule) : RuleTable :=
  let t := compile_loop emptyTable 0 (sort_enabled rs) in
  let hash := match hex_decode (HashRules rs) with
              | Some raw => take 32 raw ++ drop (length raw) (Hash t)
              | None => Hash t
              end in
  {| Generation := Generation t; Hash := hash; exact := exact t; suffix_trie := suffix_trie t;
     keywords := keywords t; defaultAction := defaultAction t; CIDRs := CIDRs t |}.

(** ** classify.go *)
Inductive DnsAction := ActionBlock | ActionDirect | ActionProxy.

#[export] Instance DnsAction_eq_dec : EqDecision DnsAction.
Proof. solve_decision. Defined.

(** [toAction]. *)
Definition toAction (s : bytes) : DnsAction :=
  let a := ToLower (TrimSpace s) in
  if (a == str "block") || (a == str "reject") then ActionBlock
  else if a == str "direct" then ActionDirect
  else ActionProxy.

(** The first keyword that the name contains. *)
Definition keyword_candidate (kws : list keywordRule) (name : bytes) : option rankedAction :=
  (fun kw => {| ra_action := kw_action kw; ra_rank := kw_rank kw |}) <$>
  found (fun kw => Contains name (kw_keyword kw)) kws.

(** [classify]; [None] is the nil table. *)
Definition classify (tbl : option RuleTable) (qname : bytes) : DnsAction :=
  match tbl with
  | None => ActionProxy
  | Some tbl =>
      let name := normalizeName qname in
      let best := consider None (exact tbl !! name) in
      let best := consider best (suffix_lookup (suffix_trie tbl) name) in
      let best := consider best (keyword_candidate (keywords tbl) name) in
      match best with
      | Some b => toAction (ra_action b)
      | None => if defaultAction tbl != [] then toAction (defaultAction tbl) else ActionProxy
      end
  end.

(** ** Specification: the rule list read in order *)

(** Rule [r] covers the normalized name: the same name, a name under the
    suffix, or a name containing the keyword. *)
Definition covers (name : bytes) (r : Rule) : bool :=
  if kind r == KindDomain then normalizeName (Pattern r) == name
  else if kind r == KindDomainSuffix then
    let s := normalizeName (Pattern r) in
    (s != []) && ((name == s) || HasSuffix name (dot :: s))
  else if kind r == KindDomainKeyword then Contains name (ToLower (Pattern r))
  else false.

Definition is_default (r : Rule) : bool := (kind r == KindMatch) && (Action r != []).

Definition spec_classify (rs : list Rule) (qname : bytes) : DnsAction :=
  match found (covers (normalizeName qname)) rs with
  | Some r => toAction (Action r)
  | None =>
      match found is_default rs with
      | Some m => toAction (Action m)
      | None => ActionProxy
      end
  end.
End table.

(** ** Lemmas: the trie *)

(** The terminal stored at exactly the given path. *)
Fixpoint trie_get (rlabels : list bytes) (n : suffixNode) : option rankedAction :=
  match rlabels with
  | [] => if hasAction n then Some {| ra_action := sn_action n; ra_rank := sn_rank n |} else None
  | l :: ls => children n !! l ≫= trie_get ls
  end.

Lemma trie_get_new rl : trie_get rl newSuffixNode = None.
Proof. destruct rl; simpl; [done|]. by rewrite lookup_empty. Qed.

(** Insertion fills one path, unless it is taken. *)
Lemma trie_get_insert rl rl' a k n :
  trie_get rl (insert_rev rl' a k n) =
  if decide (rl = rl')
  then match trie_get rl n with
       | Some x => Some x | None => Some {| ra_action := a; ra_rank := k |} end
  else trie_get rl n.
Proof.
  revert rl n. induction rl' as [|l' ls' IH]; intros [|l ls] n; simpl.
  - by destruct (hasAction n) eqn:E; simpl; rewrite ?E.
  - by destruct (hasAction n).
  - done.
  - destruct (decide (l = l')) as [->|Hl].
    + rewrite lookup_insert_eq. simpl. rewrite IH.
      assert (trie_get ls (default newSuffixNode (children n !! l')) = children n !! l' ≫= trie_get ls) as ->
        by (destruct (children n !! l'); simpl; auto using trie_get_new).
      destruct (decide (ls = ls')) as [->|], (decide (l' :: _ = l' :: ls')); congruence.
    + rewrite lookup_insert_ne by done. rewrite decide_False by congruence. done.
Qed.

(** The non-empty heads of a list. *)
Fixpoint heads {A} (l : list A) : list (list A) :=
  match l with [] => [] | x :: l => [x] :: map (cons x) (heads l) end.

Lemma elem_of_heads {A} (p l : list A) : p ∈ heads l <-> p <> [] /\ p `prefix_of` l.
Proof.
  revert p. induction l as [|x l IH]; intros p; simpl.
  - split; [by intros ?%not_elem_of_nil|]. intros [Hp [k Hk]]. by destruct p.
  - rewrite elem_of_cons, list_elem_of_fmap. setoid_rewrite IH. split.
    + intros [->|(q & -> & _ & Hq)]; split; try done; [by exists l|by apply prefix_cons].
    + intros [Hp [k Hk]]. destruct p as [|y p]; simplify_eq/=.
      destruct p as [|z p]; [by left|right]. exists (z :: p). split; [done|].
      split; [done|]. by exists k.
Qed.

Lemma consider_None_r b : consider b None = b.
Proof. by destruct b. Qed.

Lemma foldl_consider_None {A} (b : option rankedAction) (l : list A) :
  foldl consider b (map (fun _ => None) l) = b.
Proof. by induction l. Qed.

(** The walk down the trie considers the terminal of each head of the name. *)
Lemma lookup_loop_heads rl cur b :
  lookup_loop rl cur b = foldl consider b (map (fun p => trie_get p cur) (heads rl)).
Proof.
  revert cur b. induction rl as [|l ls IH]; intros cur b; simpl; [done|].
  rewrite map_map. simpl. destruct (children cur !! l) as [child|]; simpl.
  - rewrite IH. f_equal. destruct (hasAction child); [done|]. by rewrite ?consider_None_r.
  - by rewrite ?consider_None_r, foldl_consider_None.
Qed.

(** ** Lemmas: the table after a list of rules *)
Definition ranked (p : nat * Rule) : rankedAction := {| ra_action := Action p.2; ra_rank := p.1 |}.

Lemma consider_earlier a b : consider (ranked <$> a) (ranked <$> b) = ranked <$> earlier a b.
Proof. destruct a as [[i x]|], b as [[j y]|]; simpl; try done. by destruct (j <? i)%nat. Qed.

Lemma foldl_consider_find {A} (P : A -> Rule -> Prop) `{forall a r, Decision (P a r)}
    (Q : Rule -> Prop) `{forall r, Decision (Q r)} (ps : list A) (l : list Rule) :
  foldl consider (ranked <$> list_find Q l) (map (fun p => ranked <$> list_find (P p) l) ps) =
  ranked <$> list_find (fun r => Q r \/ Exists (fun p => P p r) ps) l.
Proof.
  revert Q H0. induction ps as [|p ps IH]; intros Q HQ; cbn [map foldl].
  - f_equal. apply list_find_ext. intros r. rewrite Exists_nil. tauto.
  - rewrite consider_earlier, <- list_find_or, IH. f_equal.
    apply list_find_ext. intros r. rewrite Exists_cons. tauto.
Qed.

Section table_lemmas.
Context `{Unicode}.

Definition rule_path (r : Rule) : list bytes := reverse (splitLabels (normalizeName (Pattern r))).

Lemma compile_loop_snoc t k rs r :
  compile_loop t k (rs ++ [r]) = compileRule (compile_loop t k rs) r (k + length rs).
Proof.
  revert t k. induction rs as [|s rs IH]; intros t k; simpl; [by rewrite Nat.add_0_r|].
  rewrite IH. f_equal. lia.
Qed.

Abbreviation table := (compile_loop emptyTable 0).

(** Each index answers a search of the rules compiled so far. *)
Record table_ok (rs : list Rule) (t : RuleTable) : Prop := {
  ok_exact name : exact t !! name =
    ranked <$> list_find (fun r => kind r = KindDomain /\ normalizeName (Pattern r) = name) rs;
  ok_trie rl : trie_get rl (suffix_trie t) =
    ranked <$> list_find (fun r => kind r = KindDomainSuffix /\ rule_path r = rl) rs;
  ok_keywords name : keyword_candidate (keywords t) name =
    ranked <$> list_find (fun r => kind r = KindDomainKeyword /\
      Contains name (ToLower (Pattern r)) = true) rs;
  ok_default : defaultAction t =
    default [] (Action <$> found is_default rs)
}.

Lemma found_snoc {A} (P : A -> bool) l x :
  found P (l ++ [x]) = match found P l with Some y => Some y | None => if P x then Some x else None end.
Proof.
  unfold found. rewrite list_find_snoc. destruct (list_find _ l) as [[i y]|]; simpl; [done|].
  by destruct (decide (P x = true)) as [->| ->%not_true_is_false].
Qed.

(** A rule of another kind does not change a search. *)
Lemma find_snoc_other (P : Rule -> Prop) `{forall r, Decision (P r)} rs r :
  ~ P r -> list_find P (rs ++ [r]) = list_find P rs.
Proof. intros HP. rewrite list_find_snoc, decide_False by done. by destruct (list_find P rs). Qed.

Lemma find_snoc_this (P : Rule -> Prop) `{forall r, Decision (P r)} rs r :
  P r -> ranked <$> list_find P (rs ++ [r]) =
  match ranked <$> list_find P rs with
  | Some x => Some x
  | None => Some {| ra_action := Action r; ra_rank := length rs |}
  end.
Proof. intros HP. rewrite list_find_snoc, decide_True by done. by destruct (list_find P rs). Qed.

Ltac kind_clash :=
  match goal with
  | Hk : kind ?r = _, H : _ |- False =>
      match type of H with kind r = _ /\ _ => destruct H as [H _] end;
      rewrite Hk in H; vm_compute in H; discriminate H
  end.

Lemma is_default_other r : kind r <> KindMatch -> is_default r = false.
Proof. intros Hk. unfold is_default. by rewrite bool_decide_eq_false_2. Qed.

Ltac other_kinds :=
  repeat (rewrite find_snoc_other by (intros ?; kind_clash));
  rewrite ?found_snoc, ?is_default_other
    by (let E := fresh in intros E; congruence || (match goal with Hk : kind _ = _ |- _ => rewrite Hk in E end; by vm_compute in E)).

Lemma exact_insert rs t r name :
  table_ok rs t -> kind r = KindDomain ->
  exact (compileRule t r (length rs)) !! name =
  ranked <$> list_find (fun r => kind r = KindDomain /\ normalizeName (Pattern r) = name) (rs ++ [r]).
Proof.
  intros Hok Hk. unfold compileRule. rewrite bool_decide_eq_true_2 by done.
  pose proof (ok_exact _ _ Hok) as HE.
  destruct (decide (normalizeName (Pattern r) = name)) as [<-|Hn].
  - rewrite find_snoc_this by done. rewrite <- HE.
    destruct (exact t !! normalizeName (Pattern r)) eqn:E; [by rewrite E|]. apply lookup_insert_eq.
  - rewrite find_snoc_other by tauto. rewrite <- HE.
    destruct (exact t !! normalizeName (Pattern r)); [done|]. by apply lookup_insert_ne.
Qed.

Lemma trie_insert rs t r rl :
  table_ok rs t -> kind r = KindDomainSuffix ->
  trie_get rl (suffix_insert (suffix_trie t) (splitLabels (normalizeName (Pattern r))) (Action r) (length rs)) =
  ranked <$> list_find (fun r => kind r = KindDomainSuffix /\ rule_path r = rl) (rs ++ [r]).
Proof.
  intros Hok Hk. unfold suffix_insert. rewrite trie_get_insert, (ok_trie _ _ Hok).
  change (reverse (splitLabels (normalizeName (Pattern r)))) with (rule_path r).
  case_decide as E; [subst; by rewrite find_snoc_this|]. rewrite find_snoc_other; [done|]. intros [_ ?]; congruence.
Qed.

Lemma keywords_snoc rs t r name :
  table_ok rs t -> kind r = KindDomainKeyword ->
  keyword_candidate (keywords t ++
    [{| kw_keyword := ToLower (Pattern r); kw_action := Action r; kw_rank := length rs |}]) name =
  ranked <$> list_find (fun r => kind r = KindDomainKeyword /\
    Contains name (ToLower (Pattern r)) = true) (rs ++ [r]).
Proof.
  intros Hok Hk. unfold keyword_candidate. rewrite found_snoc. simpl.
  pose proof (ok_keywords _ _ Hok name) as HK. unfold keyword_candidate in HK.
  destruct (Contains name (ToLower (Pattern r))) eqn:C.
  - rewrite find_snoc_this, <- HK by done. by destruct (found _ (keywords t)).
  - rewrite find_snoc_other by (intros [_ ?]; congruence). rewrite <- HK. by destruct (found _ (keywords t)).
Qed.

Definition indexed_kinds : list Kind := [KindDomain; KindDomainSuffix; KindDomainKeyword; KindMatch].

(** A rule of none of the indexed kinds leaves every search as it was. *)
Lemma table_ok_skip rs t t' r :
  table_ok rs t -> kind r ∉ indexed_kinds ->
  exact t' = exact t -> suffix_trie t' = suffix_trie t -> keywords t' = keywords t ->
  defaultAction t' = defaultAction t -> table_ok (rs ++ [r]) t'.
Proof.
  intros [He Ht Hk Hd] Hn E1 E2 E3 E4.
  unfold indexed_kinds in Hn. rewrite !not_elem_of_cons in Hn. destruct Hn as (? & ? & ? & ? & _).
  constructor; intros; rewrite ?E1, ?E2, ?E3, ?E4, ?find_snoc_other by tauto; auto.
  rewrite found_snoc, is_default_other by done. rewrite Hd. by destruct (found is_default rs).
Qed.

Lemma found_true {A} (P : A -> bool) l x : found P l = Some x -> P x = true.
Proof.
  unfold found. destruct (list_find _ l) as [[i y]|] eqn:L; simpl; [|done].
  intros [= <-]. by apply list_find_Some in L as (_ & L & _).
Qed.

Lemma default_snoc rs r :
  kind r = KindMatch ->
  default [] (Action <$> found is_default (rs ++ [r])) =
  let d := default [] (Action <$> found is_default rs) in if d == [] then Action r else d.
Proof.
  intros Hk. rewrite found_snoc.
  assert (is_default r = (Action r != [])) as -> by (unfold is_default; by rewrite bool_decide_eq_true_2).
  destruct (found is_default rs) as [m|] eqn:F; simpl.
  - apply found_true in F. unfold is_default in F. apply andb_true_iff in F as [_ F].
    by destruct (Action m == []).
  - by case_bool_decide as E; simpl; rewrite ?E.
Qed.

Lemma table_ok_snoc rs t r : table_ok rs t -> table_ok (rs ++ [r]) (compileRule t r (length rs)).
Proof.
  intros Hok. pose proof Hok as [He Ht Hkw Hd].
  assert (Hdef : kind r <> KindMatch ->
    default [] (Action <$> found is_default (rs ++ [r])) = defaultAction t).
  { intros Hk. rewrite found_snoc, is_default_other, Hd by done. by destruct (found is_default rs). }
  destruct (decide (kind r = KindDomain)) as [Hk|H1].
  { constructor; intros; [by apply exact_insert|..];
      unfold compileRule; rewrite bool_decide_eq_true_2 by done;
      destruct (exact t !! _); simpl; rewrite ?find_snoc_other by (intros ?; kind_clash);
      try done; symmetry; apply Hdef; rewrite Hk; by vm_compute. }
  destruct (decide (kind r = KindDomainSuffix)) as [Hk|H2].
  { unfold compileRule. rewrite bool_decide_eq_false_2, bool_decide_eq_true_2 by done.
    constructor; intros; simpl; [|by apply trie_insert|..];
      rewrite ?find_snoc_other by (intros ?; kind_clash);
      try done; symmetry; apply Hdef; rewrite Hk; by vm_compute. }
  destruct (decide (kind r = KindDomainKeyword)) as [Hk|H3].
  { unfold compileRule. rewrite !(bool_decide_eq_false_2 _) , bool_decide_eq_true_2 by done.
    constructor; intros; simpl; [..|by apply keywords_snoc|];
      rewrite ?find_snoc_other by (intros ?; kind_clash);
      try done; symmetry; apply Hdef; rewrite Hk; by vm_compute. }
  destruct (decide (kind r = KindMatch)) as [Hk|H4].
  { unfold compileRule. rewrite !(bool_decide_eq_false_2 _), bool_decide_eq_true_2 by done.
    constructor; intros; simpl; rewrite ?find_snoc_other by (intros ?; kind_clash); try done.
    by rewrite default_snoc, Hd. }
  apply table_ok_skip with t; try done.
  1: { unfold indexed_kinds. rewrite !not_elem_of_cons. auto using not_elem_of_nil. }
  all: unfold compileRule; rewrite !(bool_decide_eq_false_2 _) by done;
    repeat case_match; done.
Qed.

Lemma table_ok_compiled rs : table_ok rs (compile_loop emptyTable 0 rs).
Proof.
  induction rs as [|r rs IH] using rev_ind.
  - constructor; intros; simpl; rewrite ?lookup_empty, ?trie_get_new; done.
  - rewrite compile_loop_snoc. by apply table_ok_snoc.
Qed.

(** *** The suffix candidate *)
Lemma splitLabels_nil s : splitLabels s = [] <-> s = [].
Proof.
  unfold splitLabels. case_bool_decide; [done|]. split; [by intros ?%Split_nonempty|done].
Qed.

(** The labels of a suffix head the reversed labels of the name exactly
    when the suffix ends the name at a dot. *)
Lemma heads_suffix s name :
  reverse (splitLabels s) ∈ heads (reverse (splitLabels name)) <->
  s <> [] /\ (name = s \/ HasSuffix name (dot :: s) = true).
Proof.
  assert (HL : s <> [] -> splitLabels s `suffix_of` splitLabels name <->
    name = s \/ HasSuffix name (dot :: s) = true).
  { intros Hs. unfold splitLabels. rewrite (bool_decide_eq_false_2 _ Hs).
    case_bool_decide as Hn; [subst|apply Split_suffix]. split.
    - intros HS%suffix_nil_inv. by apply Split_nonempty in HS.
    - intros [<-|[k Hk]%HasSuffix_spec]; [done|]. by destruct k. }
  rewrite elem_of_heads, <- suffix_prefix_reverse.
  assert (reverse (splitLabels s) = [] <-> s = []) as HN.
  { by rewrite <- (splitLabels_nil s), <- !length_zero_iff_nil, length_reverse. }
  split; intros [Hs HX]; rewrite HN in *; (split; [done|]); revert HX; by apply HL.
Qed.

Lemma suffix_lookup_find rs name :
  suffix_lookup (suffix_trie (compile_loop emptyTable 0 rs)) name =
  ranked <$> list_find (fun r => kind r = KindDomainSuffix /\
    normalizeName (Pattern r) <> [] /\
    (name = normalizeName (Pattern r) \/ HasSuffix name (dot :: normalizeName (Pattern r)) = true)) rs.
Proof.
  unfold suffix_lookup. rewrite lookup_loop_heads.
  rewrite (map_ext _ _ (fun p => ok_trie _ _ (table_ok_compiled rs) p)).
  pose proof (foldl_consider_find (fun p r => kind r = KindDomainSuffix /\ rule_path r = p)
    (fun _ => False) (heads (reverse (splitLabels name))) rs) as HF.
  rewrite (list_find_false (fun _ => False)) in HF by (by apply Forall_true; auto).
  simpl in HF. rewrite HF. f_equal. apply list_find_ext. intros r.
  rewrite <- heads_suffix, Exists_exists. unfold rule_path. naive_solver.
Qed.

Lemma covers_kinds name r :
  covers name r = true <->
  (kind r = KindDomain /\ normalizeName (Pattern r) = name) \/
  (kind r = KindDomainSuffix /\ normalizeName (Pattern r) <> [] /\
   (name = normalizeName (Pattern r) \/ HasSuffix name (dot :: normalizeName (Pattern r)) = true)) \/
  (kind r = KindDomainKeyword /\ Contains name (ToLower (Pattern r)) = true).
Proof.
  unfold covers. case_bool_decide as H1.
  { rewrite bool_decide_eq_true. split; [by left|]. intros [[_ ?]|[(E & _)|(E & _)]]; [done|..];
      rewrite H1 in E; by vm_compute in E. }
  case_bool_decide as H2.
  { rewrite andb_true_iff, orb_true_iff, negb_true_iff, bool_decide_eq_true, bool_decide_eq_false.
    split; [tauto|]. intros [(E & _)|[(_ & ?)|(E & _)]]; [done|tauto|]. rewrite H2 in E; by vm_compute in E. }
  case_bool_decide as H3; [|split; [done|tauto]]. tauto.
Qed.

(** The three indexes of a compiled list, searched together, find the first
    rule that covers the name. *)
Lemma candidates_found rs name :
  let t := compile_loop emptyTable 0 rs in
  consider (consider (consider None (exact t !! name)) (suffix_lookup (suffix_trie t) name))
    (keyword_candidate (keywords t) name) =
  ranked <$> list_find (fun r => covers name r = true) rs.
Proof.
  intros t. pose proof (table_ok_compiled rs) as Hok. subst t.
  rewrite (ok_exact _ _ Hok), (ok_keywords _ _ Hok), suffix_lookup_find.
  assert (forall o, consider None o = o) as -> by (by intros []).
  rewrite !consider_earlier.
  rewrite <- !list_find_or. f_equal. apply list_find_ext. intros r.
  rewrite covers_kinds. tauto.
Qed.
End table_lemmas.

Lemma classify_spec `{Unicode} rs qname :
  classify (Some (BuildTable rs)) qname = spec_classify (sort_enabled rs) qname.
Proof.
  unfold classify, spec_classify, BuildTable. cbn [exact suffix_trie keywords defaultAction].
  rewrite candidates_found. unfold found at 1.
  destruct (list_find _ (sort_enabled rs)) as [[i r]|]; [done|]. simpl.
  rewrite (ok_default _ _ (table_ok_compiled _)).
  destruct (found is_default _) as [m|] eqn:F; simpl; [|done].
  apply found_true in F. unfold is_default in F. apply andb_true_iff in F as [_ F]. by rewrite F.
Qed.

(** The declarative form: [r] at index [i] is the enabled rule covering the
    name with the least priority, the earliest among equals. *)
Definition rules_name `{Unicode} (rs : list Rule) (name : bytes) (i : nat) (r : Rule) : Prop :=
  rs !! i = Some r /\ Enabled r = true /\ covers name r = true /\
  forall j s, rs !! j = Some s -> Enabled s = true -> covers name s = true ->
    (Priority r <= Priority s)%Z /\ (Priority s = Priority r -> (i <= j)%nat).

Lemma found_enabled_first (P : Rule -> bool) rs r :
  found P (sort_enabled rs) = Some r <->
  exists i, rs !! i = Some r /\ Enabled r = true /\ P r = true /\
    forall j s, rs !! j = Some s -> Enabled s = true -> P s = true ->
      (Priority r <= Priority s)%Z /\ (Priority s = Priority r -> (i <= j)%nat).
Proof.
  rewrite found_sort_enabled, best_Some by eauto with golang.
  apply exist_proper. intros i. unfold least_at, prio_leb. setoid_rewrite andb_true_iff.
  split.
  - intros (Hi & (He & Hm) & Hmin). repeat (split; [done|]). intros j s Hj Hs Ms.
    destruct (Hmin j s) as [L1 L2]; [done..|]. split; [lia|]. intros E. apply L2. lia.
  - intros (Hi & He & Hm & Hmin). repeat (split; [done|]). intros j s Hj (Hs & Ms).
    destruct (Hmin j s) as [L1 L2]; [done..|]. split; [lia|]. intros L. apply L2. lia.
Qed.

Lemma found_enabled_none (P : Rule -> bool) rs :
  found P (sort_enabled rs) = None <-> forall r, r ∈ rs -> Enabled r = true -> P r = false.
Proof.
  rewrite found_sort_enabled, best_None, Forall_forall.
  apply forall_proper. intros r. destruct (Enabled r); simpl; naive_solver.
Qed.

(** ** Properties *)

(** C1: the compiled table refines the rule list: classifying a name against
    BuildTable's exact map, suffix trie and keyword list gives the action of
    the enabled rule that covers the name with the least priority, the
    earliest in the list among equals, whatever the kinds of the competing
    rules. *)
Theorem classify_refines_rule_list `{Unicode} rs qname i r :
  rules_name rs (normalizeName qname) i r ->
  classify (Some (BuildTable rs)) qname = toAction (Action r).
Proof.
  intros Hr. rewrite classify_spec. unfold spec_classify.
  rewrite (proj2 (found_enabled_first (covers (normalizeName qname)) rs r)); [done|]. by exists i.
Qed.

(** a name no enabled rule covers gets the action of the first MATCH
    rule (enabled, non-empty action, least priority, earliest) and, when
    there is none, proxy; so does every name before a table is published. *)
Theorem classify_default `{Unicode} rs qname :
  (forall r, r ∈ rs -> Enabled r = true -> covers (normalizeName qname) r = false) ->
  classify (Some (BuildTable rs)) qname =
    (match found is_default (sort_enabled rs) with Some m => toAction (Action m) | None => ActionProxy end) /\
  classify None qname = ActionProxy.
Proof.
  intros Hn. split; [|done]. rewrite classify_spec. unfold spec_classify.
  by rewrite (proj2 (found_enabled_none _ rs) Hn).
Qed.

(** ** Witnesses *)
Definition demo_rules : list Rule := [Example1.r1; Example1.r2; Example1.rm].

Lemma classify_refines_rule_list_witness :
  @classify ascii_tables (Some (@BuildTable ascii_tables demo_rules)) (str "WWW.Example.com.") = ActionBlock.
Proof.
  rewrite (@classify_refines_rule_list ascii_tables demo_rules (str "WWW.Example.com.") 1 Example1.r2);
    [vm_compute; reflexivity|].
  split; [reflexivity|]. split; [reflexivity|]. split; [vm_compute; reflexivity|].
  intros [|[|[|j]]] s Hs He Hc; try discriminate Hs; injection Hs as <-.
  - split; [by vm_compute|discriminate].
  - split; [by vm_compute|lia].
  - vm_compute in Hc. discriminate Hc.
Defined.

Lemma classify_default_witness :
  @classify ascii_tables (Some (@BuildTable ascii_tables [Example1.r2; Example1.rm])) (str "other.net") = ActionProxy.
Proof.
  rewrite (proj1 (@classify_default ascii_tables [Example1.r2; Example1.rm] (str "other.net") ltac:(
    intros r Hr; repeat (apply elem_of_cons in Hr as [->|Hr]);
      [intros _; vm_compute; reflexivity..|by apply not_elem_of_nil in Hr]))).
  vm_compute. reflexivity.
Defined.
