(* ===== verification/Mihomo.v ===== *)
(** * The mihomo renderer

    [internal/config/render/mihomo.go]: proxies, the PROXY group and the
    ordered rule lines.  A YAML value inside an exit's config map is opaque
    ([Value]); the document is the record handed to the YAML encoder, which
    is third-party code.  So is mihomo, which reads the lines: it is the class
    [Mihomo], and [MihomoLaws] is what its documentation says of a rule list
    (the first matching line decides, MATCH matches all) and of the three kinds
    that match by name.  Of GEOSITE, GEOIP, IP-CIDR and RULE-SET nothing is
    assumed. *)
From S2P Require Import Prelude GoStrings GoNet Crypto Rules RuleTable.
From Stdlib Require Import ZArith Lia.

(** ** Rendering *)
Inductive RenderError :=
| ErrRule (e : RuleError)                  (* ToMihomoLine *)
| ErrAction (id action : bytes)            (* neither built-in nor an exit *)
| ErrNilConfig.

Section render.
Context `{Unicode} {Value : Type}.

Record ExitConfig := { ex_ID : bytes; ex_Protocol : bytes; ex_Config : gmap bytes Value }.

Record MihomoProxy := { p_name : bytes; p_type : bytes; p_options : gmap bytes Value }.

Record MihomoDoc := {
  mixed_port : Z; proxies : list MihomoProxy; proxy_group : list bytes; rule_lines : list bytes
}.

Definition defaultMihomoMixedPort : Z := 7890.

(** [buildProxyGroupNames]. *)
Definition buildProxyGroupNames (names : list bytes) (active : bytes) : list bytes :=
  active :: filter (fun n => n <> active) names.

(** [mihomoAction]. *)
Definition mihomoAction (action : bytes) (exitNames : list bytes) : option bytes :=
  let action := TrimSpace action in
  let low := ToLower action in
  if (low == str "block") || (low == str "reject") then Some (str "REJECT")
  else if low == str "direct" then Some (str "DIRECT")
  else if low == str "proxy" then Some (str "PROXY")
  else if bool_decide (action ∈ exitNames) then Some action
  else None.

Definition with_action (r : Rule) (a : bytes) : Rule :=
  {| ID := ID r; kind := kind r; Pattern := Pattern r; Action := a; Priority := Priority r;
     Enabled := Enabled r; Notes := Notes r; GroupID := GroupID r |}.

(** One line: canonical action, then [ToMihomoLine]. *)
Definition rule_line (exitNames : list bytes) (r : Rule) : res RenderError bytes :=
  match mihomoAction (Action r) exitNames with
  | None => Err (ErrAction (ID r) (Action r))
  | Some a => match ToMihomoLine (with_action r a) with Ok l => Ok l | Err e => Err (ErrRule e) end
  end.

Fixpoint rule_lines_of (exitNames : list bytes) (rs : list Rule) : res RenderError (list bytes) :=
  match rs with
  | [] => Ok []
  | r :: rs =>
      match rule_line exitNames r with
      | Err e => Err e
      | Ok l => match rule_lines_of exitNames rs with Err e => Err e | Ok ls => Ok (l :: ls) end
      end
  end.

(** The partition loop: the enabled non-MATCH rules, and the last enabled
    MATCH rule. *)
Definition non_match (rs : list Rule) : list Rule :=
  filter (fun r => kind r <> KindMatch) (enabled_rules rs).
Definition match_rule (rs : list Rule) : option Rule :=
  last (filter (fun r => kind r = KindMatch) (enabled_rules rs)).

(** [buildRuleLines]. *)
Definition buildRuleLines (rs : list Rule) (active : bytes) (exitNames : list bytes)
    : res RenderError (list bytes) :=
  if bool_decide (rs = []) then Ok [str "MATCH," ++ active]
  else
    match rule_lines_of exitNames (stable_sort prio_leb (non_match rs)) with
    | Err e => Err e
    | Ok out =>
        match match_rule rs with
        | Some m =>
            match rule_line exitNames m with Err e => Err e | Ok l => Ok (out ++ [l]) end
        | None => Ok (out ++ [str "MATCH," ++ active])
        end
    end.

(** [MihomoRenderer.Render], up to the YAML encoder; [None] is a nil config. *)
Definition Render (cfg : option (list ExitConfig * list Rule * Z)) : res RenderError MihomoDoc :=
  match cfg with
  | None => Err ErrNilConfig
  | Some (exits, rs, port) =>
      let ps := map (fun ex =>
        {| p_name := ex_ID ex; p_type := ex_Protocol ex;
           p_options := delete (str "type") (delete (str "name") (ex_Config ex)) |}) exits in
      let ps := if bool_decide (ps = []) then [{| p_name := str "direct"; p_type := str "direct"; p_options := ∅ |}] else ps in
      let names := map p_name ps in
      let active := default [] (head names) in
      match buildRuleLines rs active names with
      | Err e => Err e
      | Ok ls =>
          Ok {| mixed_port := if (port =? 0)%Z then defaultMihomoMixedPort else port;
                proxies := ps;
                proxy_group := buildProxyGroupNames names active;
                rule_lines := ls |}
      end
  end.
End render.

(** ** mihomo

    [route] is what a rule list does with a host, the action of a line or none;
    [matches] whether a line of a kind with a payload matches a host.  A host
    is in lower case, without white space around it or a dot at its end. *)
Class Mihomo := { route : list bytes -> bytes -> option bytes; matches : bytes -> bytes -> bytes -> bool }.

Class MihomoLaws `{Unicode} `{Mihomo} := {
  route_match a ls host : comma ∉ a -> route ((str "MATCH," ++ a) :: ls) host = Some a;
  route_rule k p a ls host : k <> KindMatch -> comma ∉ k -> comma ∉ p -> comma ∉ a ->
    route ((k ++ comma :: p ++ comma :: a) :: ls) host = if matches k p host then Some a else route ls host;
  matches_domain p host : is_ascii p = true -> normalizeName p = ToLower p -> p <> [] -> matches KindDomain p host = (host == ToLower p);
  matches_suffix p host : is_ascii p = true -> normalizeName p = ToLower p -> p <> [] ->
    matches KindDomainSuffix p host = (host == ToLower p) || HasSuffix host (dot :: ToLower p);
  matches_keyword p host : is_ascii p = true -> TrimSpace p = p -> p <> [] -> matches KindDomainKeyword p host = Contains host (ToLower p)
}.

Definition name_kinds : list bytes := [KindDomain; KindDomainSuffix; KindDomainKeyword].

(** A pattern as mihomo's documentation writes them: ASCII, no white space
    around it and, for a name, no dot at its end. *)
Definition plain_pattern `{Unicode} (r : Rule) : Prop :=
  is_ascii (Pattern r) = true /\ if kind r == KindDomainKeyword then TrimSpace (Pattern r) = Pattern r 
  else normalizeName (Pattern r) = ToLower (Pattern r) /\ ToLower (Pattern r) <> [].

(** ** Lemmas *)
Section lemmas.
Context `{Unicode} (IsDomainName : bytes -> bool).

Abbreviation valid := (fun r => Rule_Validate IsDomainName r = Ok tt).

(** The canonical action means to the DNS classifier what the configured
    one does, and stays a clean field. *)
Lemma mihomoAction_sound a names c :
  mihomoAction a names = Some c ->
  toAction c = toAction a /\ (blank a = false -> blank c = false) /\ (comma ∉ a -> comma ∉ c).
Proof.
  assert (Hbuilt : forall d, d ∈ [str "REJECT"; str "DIRECT"; str "PROXY"] ->
    (blank a = false -> blank d = false) /\ (comma ∉ a -> comma ∉ d)).
  { intros d Hd. repeat (apply elem_of_cons in Hd as [->|Hd]); [..|by apply not_elem_of_nil in Hd];
      (split; [by vm_compute|intros _; by apply (bool_decide_unpack _)]). }
  unfold mihomoAction.
  assert (Ht : toAction a = toAction (TrimSpace a)) by (unfold toAction; by rewrite TrimSpace_idem).
  destruct (_ || _) eqn:E1; [|destruct (_ == str "direct") eqn:E2; [|destruct (_ == str "proxy") eqn:E3;
    [|destruct (bool_decide (TrimSpace a ∈ names))]]]; try done; intros [= <-].
  - split; [unfold toAction; rewrite E1; by vm_compute|]. apply Hbuilt. set_solver.
  - split; [unfold toAction; rewrite E1, E2; by vm_compute|]. apply Hbuilt. set_solver.
  - split; [unfold toAction; rewrite E1, E2; by vm_compute|]. apply Hbuilt. set_solver.
  - split; [done|]. unfold blank. rewrite TrimSpace_idem. eauto using TrimSpace_elem.
Qed.

Lemma rule_line_fields names r l :
  valid r -> rule_line names r = Ok l ->
  exists a, mihomoAction (Action r) names = Some a /\
    Split l comma = (if kind r == KindMatch then [kind r; a] else [kind r; Pattern r; a]).
Proof.
  intros (_ & Hk & Hp & _ & Ha & HA & HP)%Rule_Validate_fields. unfold rule_line.
  destruct (mihomoAction (Action r) names) as [a|] eqn:E; [|done].
  pose proof (mihomoAction_sound _ _ _ E) as (_ & Hb & Hc).
  destruct (ToMihomoLine (with_action r a)) as [e|l'] eqn:El; [done|]. intros [= <-].
  exists a. split; [done|].
  assert (comma ∈ csv_delims) as Dc by (by apply (bool_decide_unpack _)).
  eapply (mihomo_line_split (with_action r a)); simpl; auto using kind_no_delims.
Qed.

(** A line does to a host what its rule does to the name. *)
Lemma rule_line_routes `{!Mihomo} `{!MihomoLaws} names r l rest host :
  valid r -> kind r <> KindMatch -> matches (kind r) (Pattern r) host = covers host r -> rule_line names r = Ok l ->
  exists a, toAction a = toAction (Action r) /\ route (l :: rest) host = if covers host r then Some a else route rest host.
Proof.
  intros Hv Hm Hc Hl. destruct (rule_line_fields _ _ _ Hv Hl) as (a & Ha & HS).
  rewrite bool_decide_eq_false_2 in HS by done. exists a. pose proof (mihomoAction_sound _ _ _ Ha) as (HT & _ & Hca). split; [exact HT|].
  pose proof (Split_free l comma) as HF. rewrite HS, !Forall_cons in HF. destruct HF as (HF1 & HF2 & HF3 & _).
  rewrite <- (Join_Split l comma), HS. cbn [Join]. rewrite route_rule by done. by rewrite Hc.
Qed.

Lemma match_line_routes `{!Mihomo} `{!MihomoLaws} names m l rest host :
  valid m -> kind m = KindMatch -> rule_line names m = Ok l ->
  exists a, toAction a = toAction (Action m) /\ route (l :: rest) host = Some a.
Proof.
  intros Hv Hm Hl. destruct (rule_line_fields _ _ _ Hv Hl) as (a & Ha & HS).
  rewrite bool_decide_eq_true_2 in HS by done. exists a. pose proof (mihomoAction_sound _ _ _ Ha) as (HT & _). split; [exact HT|].
  pose proof (Split_free l comma) as HF. rewrite HS, !Forall_cons in HF. destruct HF as (_ & HF2 & _).
  rewrite <- (Join_Split l comma), HS, Hm. cbn [Join]. by apply (route_match a).
Qed.

Lemma rule_lines_routes `{!Mihomo} `{!MihomoLaws} names rs ls rest host :
  Forall valid rs -> Forall (fun r => kind r <> KindMatch) rs ->
  Forall (fun r => matches (kind r) (Pattern r) host = covers host r) rs -> rule_lines_of names rs = Ok ls ->
  match found (covers host) rs with
  | Some r => exists a, toAction a = toAction (Action r) /\ route (ls ++ rest) host = Some a
  | None => route (ls ++ rest) host = route rest host
  end.
Proof.
  intros HF. revert ls. induction HF as [|r rs Hr _ IH]; intros ls Hm Hc; cbn [rule_lines_of].
  { by intros [= <-]. }
  apply Forall_cons in Hm as [Hm Hms]. apply Forall_cons in Hc as [Hc Hcs].
  destruct (rule_line names r) as [e|l] eqn:El; [done|].
  destruct (rule_lines_of names rs) as [e|ls'] eqn:Els; [done|]. intros [= <-].
  destruct (rule_line_routes names r l (ls' ++ rest) host Hr Hm Hc El) as (a & HA & HR).
  rewrite found_cons. cbn [app]. rewrite HR. destruct (covers host r); [by exists a|]. by apply IH.
Qed.

(** On the kinds that match by name the two sides match alike. *)
Lemma line_covers_rule `{!Mihomo} `{!MihomoLaws} r host :
  valid r -> kind r ∈ name_kinds -> plain_pattern r -> matches (kind r) (Pattern r) host = covers host r.
Proof.
  intros Hv Hk HP. apply Rule_Validate_fields in Hv as (_ & _ & Hb & _).
  assert (blank (Pattern r) = false) as Hbl.
  { apply Hb. intros E. rewrite E in Hk. revert Hk. apply (bool_decide_eq_true_1 (_ ∉ _)). by vm_compute. }
  assert (Pattern r <> []) as Hne by (intros E; rewrite E in Hbl; by vm_compute in Hbl).
  destruct HP as [Hasc HP]. unfold covers in *. unfold name_kinds in Hk. rewrite !elem_of_cons in Hk.
  destruct Hk as [Hk|[Hk|[Hk|Hk]]]; [| | |by apply elem_of_nil in Hk]; rewrite Hk in HP |- *.
  - rewrite (bool_decide_true (KindDomain = _)) by done. rewrite (bool_decide_false (KindDomain = _)) in HP by done. destruct HP as [HP _].
    rewrite HP, matches_domain by done. apply bool_decide_ext. split; congruence.
  - rewrite (bool_decide_false (KindDomainSuffix = KindDomain)), (bool_decide_true (KindDomainSuffix = _)) by done.
    rewrite (bool_decide_false (KindDomainSuffix = _)) in HP by done. destruct HP as [HP HL].
    rewrite HP, matches_suffix by done. cbv zeta. by rewrite (bool_decide_false (ToLower (Pattern r) = [])).
  - rewrite (bool_decide_false (KindDomainKeyword = KindDomain)), (bool_decide_false (KindDomainKeyword = KindDomainSuffix)),
      (bool_decide_true (KindDomainKeyword = KindDomainKeyword)) by done.
    rewrite (bool_decide_true (KindDomainKeyword = KindDomainKeyword)) in HP by done. by apply matches_keyword.
Qed.

Lemma found_filter {A} (P : A -> Prop) `{forall x, Decision (P x)} (Q : A -> bool) l :
  (forall x, Q x = true -> P x) -> found Q (filter P l) = found Q l.
Proof.
  intros HQ. induction l as [|x l IH]; [done|]. rewrite filter_cons, found_cons.
  case_decide as Hx; rewrite ?found_cons, IH; [done|].
  destruct (Q x) eqn:E; [|done]. by destruct Hx; auto.
Qed.

Lemma covers_not_match name r : covers name r = true -> kind r <> KindMatch.
Proof. intros Hc E. unfold covers in Hc. rewrite E in Hc. by vm_compute in Hc. Qed.

Lemma covers_name_kinds name r : covers name r = true -> kind r ∈ name_kinds.
Proof.
  unfold name_kinds. rewrite covers_kinds, !elem_of_cons. intros [[? _]|[[? _]|[? _]]]; tauto.
Qed.

Lemma found_non_match name rs :
  found (covers name) (stable_sort prio_leb (non_match rs)) = found (covers name) (sort_enabled rs).
Proof.
  unfold non_match, sort_enabled. rewrite <- filter_stable_sort by eauto with golang.
  apply found_filter. apply covers_not_match.
Qed.

(** With one MATCH rule at most, the first default is the last MATCH. *)
Lemma match_rule_default rs :
  Forall valid rs -> (length (filter (fun r => kind r = KindMatch) rs) <= 1)%nat ->
  found is_default (sort_enabled rs) = match_rule rs.
Proof.
  intros HV HL. unfold match_rule, sort_enabled.
  rewrite <- (found_filter (fun r => kind r = KindMatch))
    by (intros r [E%bool_decide_eq_true _]%andb_true_iff; done).
  rewrite filter_stable_sort by eauto with golang.
  assert (length (filter (fun r => kind r = KindMatch) (enabled_rules rs)) <= 1)%nat as HL'.
  { etrans; [|exact HL]. unfold enabled_rules. clear. induction rs as [|r rs IH]; [done|].
    rewrite !filter_cons. repeat (case_decide; rewrite ?filter_cons); simpl; try done; lia. }
  assert (Forall (fun r => is_default r = true) (filter (fun r => kind r = KindMatch) (enabled_rules rs))) as HD.
  { apply Forall_forall. intros m [Hk [_ Hm]%list_elem_of_filter]%list_elem_of_filter.
    rewrite Forall_forall in HV. apply HV, Rule_Validate_fields in Hm as (_&_&_&_&Hb&_).
    unfold is_default. rewrite Hk, bool_decide_eq_true_2 by done. simpl.
    apply negb_true_iff, bool_decide_eq_false_2. intros E. rewrite E in Hb. by vm_compute in Hb. }
  destruct (filter _ (enabled_rules rs)) as [|m [|]]; simpl in *; [done| |lia].
  apply Forall_cons_1 in HD as [HD _]. by rewrite found_cons, HD.
Qed.

(** What the emitted list ends with. *)
Lemma buildRuleLines_cases rs active names ls :
  buildRuleLines rs active names = Ok ls ->
  exists out, rule_lines_of names (stable_sort prio_leb (non_match rs)) = Ok out /\
    match match_rule rs with
    | Some m => exists l, rule_line names m = Ok l /\ ls = out ++ [l]
    | None => ls = out ++ [str "MATCH," ++ active]
    end.
Proof.
  unfold buildRuleLines. case_bool_decide as Hn; [subst; intros [= <-]; by exists []|].
  destruct (rule_lines_of _ _) as [e|out]; [done|]. intros HB. exists out. split; [done|].
  destruct (match_rule rs) as [m|]; [|by injection HB].
  destruct (rule_line names m) as [e|l]; [done|]. injection HB as <-. eauto.
Qed.

Lemma match_rule_in rs m : match_rule rs = Some m -> m ∈ rs /\ kind m = KindMatch /\ Enabled m = true.
Proof.
  intros [l E]%last_Some. assert (m ∈ filter (fun r => kind r = KindMatch) (enabled_rules rs)) as Hm
    by (rewrite E; set_solver).
  apply list_elem_of_filter in Hm as [? [? ?]%list_elem_of_filter]. done.
Qed.

Lemma found_app_None {A} (P : A -> bool) l k :
  found P (l ++ k) = match found P l with Some x => Some x | None => found P k end.
Proof.
  induction l as [|x l IH]; [done|]. simpl. rewrite !found_cons, IH. by destruct (P x).
Qed.

Lemma sorted_non_match_valid rs :
  Forall valid rs -> Forall valid (stable_sort prio_leb (non_match rs)).
Proof.
  rewrite <- (stable_sort_perm prio_leb), !Forall_forall.
  intros HV r [_ [_ Hr]%list_elem_of_filter]%list_elem_of_filter. auto.
Qed.

Lemma sorted_non_match_kinds rs :
  Forall (fun r => kind r <> KindMatch) (stable_sort prio_leb (non_match rs)).
Proof.
  rewrite <- (stable_sort_perm prio_leb). apply Forall_forall.
  by intros r [? _]%list_elem_of_filter.
Qed.

(** The whole list, on a host that the rules of the other kinds leave alone. *)
Lemma lines_route_cases `{!Mihomo} `{!MihomoLaws} rs active names ls host :
  Forall valid rs -> comma ∉ active -> buildRuleLines rs active names = Ok ls ->
  Forall (fun r => kind r <> KindMatch -> Enabled r = true -> matches (kind r) (Pattern r) host = covers host r) rs ->
  exists a, route ls host = Some a /\
  match found (covers host) (sort_enabled rs) with
  | Some r => toAction a = toAction (Action r)
  | None => match match_rule rs with Some m => toAction a = toAction (Action m) | None => a = active end
  end.
Proof.
  intros HV Ha (out & Hout & Hm)%buildRuleLines_cases HC.
  assert (Forall (fun r => matches (kind r) (Pattern r) host = covers host r) (stable_sort prio_leb (non_match rs))) as HC'.
  { rewrite <- (stable_sort_perm prio_leb), !Forall_forall in *.
    intros r [Hk [He Hr]%list_elem_of_filter]%list_elem_of_filter. by apply HC. }
  assert (exists l, ls = out ++ [l] /\ exists a, route [l] host = Some a /\
    match match_rule rs with Some m => toAction a = toAction (Action m) | None => a = active end) as (l & -> & a & Hr & HA).
  { destruct (match_rule rs) as [m|] eqn:EM.
    - destruct Hm as (l & Hl & ->). apply match_rule_in in EM as (Hin & Hk & _). rewrite Forall_forall in HV.
      destruct (match_line_routes names m l [] host (HV _ Hin) Hk Hl) as (a & HT & HR). eauto 6.
    - exists (str "MATCH," ++ active). split; [done|]. exists active. by rewrite route_match. }
  pose proof (rule_lines_routes names _ out [l] host (sorted_non_match_valid _ HV) (sorted_non_match_kinds _) HC' Hout) as HR.
  rewrite found_non_match in HR. destruct (found _ (sort_enabled rs)) as [r|].
  - destruct HR as (a' & HT & HR). eauto.
  - rewrite HR. eauto.
Qed.

(** The fields of the list: one line a rule, none of them a MATCH line. *)
Lemma rule_lines_heads names rs ls :
  Forall valid rs -> Forall (fun r => kind r <> KindMatch) rs -> rule_lines_of names rs = Ok ls ->
  length ls = length rs /\ Forall (fun l => head (Split l comma) <> Some KindMatch) ls.
Proof.
  intros HF. revert ls. induction HF as [|r rs Hr _ IH]; intros ls Hk; cbn [rule_lines_of].
  { intros [= <-]. done. }
  apply Forall_cons_1 in Hk as [Hm Hk]. destruct (rule_line names r) as [e|l] eqn:El; [done|].
  destruct (rule_lines_of names rs) as [e|ls'] eqn:Els; [done|]. intros [= <-].
  destruct (IH ls' Hk eq_refl) as [HL HH]. split; [simpl; by rewrite HL|]. constructor; [|done].
  destruct (rule_line_fields _ _ _ Hr El) as (a & _ & ->). rewrite bool_decide_eq_false_2 by done.
  simpl. congruence.
Qed.

Lemma RuleSet_Validate_valid rs :
  RuleSet_Validate IsDomainName rs = Ok tt ->
  Forall valid rs /\ (length (filter (fun r => kind r = KindMatch) rs) <= 1)%nat.
Proof.
  unfold RuleSet_Validate. destruct (validate_loop _ rs 0 ∅ 0 None) as [e|[n idx]] eqn:E; [done|].
  apply validate_loop_ok in E as (HF & _ & _ & [= -> ->]). simpl.
  destruct (1 <? _)%nat eqn:EL; [done|]. intros _. split; [done|]. apply Nat.ltb_ge in EL. done.
Qed.

End lemmas.

Lemma proxy_names_perm names active : NoDup names -> active ∈ names ->
  Permutation (buildProxyGroupNames names active) names.
Proof.
  intros Hn [l1 [l2 ->]]%list_elem_of_split. unfold buildProxyGroupNames.
  apply NoDup_app in Hn as (_ & Hd & [Hl2 _]%NoDup_cons).
  rewrite filter_app, filter_cons, decide_False by tauto.
  assert (forall l : list bytes, active ∉ l -> filter (fun n => n <> active) l = l) as Hf.
  { intros l Hl. induction l as [|x l IH]; [done|].
    rewrite filter_cons, decide_True, IH; set_solver. }
  rewrite !Hf by (done || (intros Hx; apply (Hd active Hx); by left)). by rewrite Permutation_middle.
Qed.

(** ** Properties *)
Section properties.
Context `{Unicode} (IsDomainName : bytes -> bool).

(** C2: the two renderings of a rule set agree.  For a set that Validate
    accepts, with ASCII patterns without white space and final dots, and a
    name that no enabled GEOSITE, GEOIP, IP-CIDR or RULE-SET rule of the list
    matches in mihomo, the rendered list sends the name by the action that the
    DNS rule table gives it, for any mihomo that keeps to its documentation,
    whenever some enabled rule covers the name or is a MATCH rule.  When none
    does, mihomo takes the active exit while the DNS side answers proxy. *)
Theorem mihomo_agrees_with_dns `{!Mihomo} `{!MihomoLaws} rs active names ls qname :
  RuleSet_Validate IsDomainName rs = Ok tt -> comma ∉ active ->
  buildRuleLines rs active names = Ok ls ->
  (forall r, r ∈ rs -> kind r ∈ name_kinds -> plain_pattern r) ->
  (forall r, r ∈ rs -> Enabled r = true -> kind r ∉ KindMatch :: name_kinds -> matches (kind r) (Pattern r) (normalizeName qname) = false) ->
  exists a, route ls (normalizeName qname) = Some a /\
  (toAction a = classify (Some (BuildTable rs)) qname \/
   ((forall r, r ∈ rs -> Enabled r = true -> covers (normalizeName qname) r = false /\ kind r <> KindMatch) /\
    a = active /\ classify (Some (BuildTable rs)) qname = ActionProxy)).
Proof.
  intros HR Ha HB HP HO. pose proof HR as [HV HL]%RuleSet_Validate_valid.
  destruct (lines_route_cases IsDomainName rs active names ls (normalizeName qname) HV Ha HB) as (a & Hr & HA).
  { apply Forall_forall. intros r Hin Hk He. rewrite Forall_forall in HV. destruct (decide (kind r ∈ name_kinds)) as [Hn|Hn].
    - apply (line_covers_rule IsDomainName); auto.
    - rewrite HO by (rewrite ?elem_of_cons; tauto). symmetry. apply not_true_is_false. intros Hc. apply Hn. by eapply covers_name_kinds. }
  exists a. split; [done|]. rewrite classify_spec. unfold spec_classify. rewrite (match_rule_default IsDomainName) by done.
  destruct (found (covers _) _) as [r|] eqn:EC; [by left|].
  destruct (match_rule rs) as [m|] eqn:EM; [by left|right]. split; [|done].
  intros r Hin He. rewrite found_enabled_none in EC. split; [by apply EC|]. intros Hk.
  unfold match_rule in EM. apply last_None in EM.
  assert (r ∈ filter (fun r => kind r = KindMatch) (enabled_rules rs)) as Hf
    by (apply list_elem_of_filter; split; [done|]; by apply list_elem_of_filter).
  rewrite EM in Hf. by apply not_elem_of_nil in Hf.
Qed.

(** the rule list has one line per enabled rule and ends with a MATCH
    line, the set's own or the active exit's, and no other line is one. *)
Theorem match_line_last rs active names ls :
  Forall (fun r => Rule_Validate IsDomainName r = Ok tt) rs ->
  comma ∉ active -> buildRuleLines rs active names = Ok ls ->
  exists out a, ls = out ++ [str "MATCH," ++ a] /\ length out = length (non_match rs) /\
    (match_rule rs = None -> a = active) /\
    Forall (fun l => head (Split l comma) <> Some KindMatch) out.
Proof.
  intros HV Ha (out & Hout & Hm)%buildRuleLines_cases.
  apply (rule_lines_heads IsDomainName) in Hout as [HL HF];
    [|by apply sorted_non_match_valid|by apply sorted_non_match_kinds].
  rewrite stable_sort_length in HL.
  destruct (match_rule rs) as [m|] eqn:EM; [|by exists out, active].
  destruct Hm as (l & Hl & ->). apply match_rule_in in EM as (Hin & Hk & _).
  unfold rule_line, ToMihomoLine in Hl. destruct (mihomoAction _ _) as [a|]; [|done].
  rewrite bool_decide_eq_true_2 in Hl by done. simpl in Hl.
  destruct (blank a); [done|]. injection Hl as <-. by exists out, a.
Qed.
End properties.

(** the PROXY group starts with the active exit and, when exit names are
    distinct, is a permutation of them: moving the active exit to the front
    neither loses nor repeats an exit. *)
Theorem proxy_group_order `{Unicode} {Value} exits rs port doc :
  Render (Value := Value) (Some (exits, rs, port)) = Ok doc -> NoDup (map ex_ID exits) ->
  head (proxy_group doc) = head (map p_name (proxies doc)) /\
  Permutation (proxy_group doc) (map p_name (proxies doc)) /\
  proxies doc <> [] /\ mixed_port doc <> 0%Z.
Proof.
  unfold Render. set (ps := if bool_decide _ then _ else _). intros HR Hnd.
  destruct (buildRuleLines _ _ _) as [e|ls]; [done|]. injection HR as <-. cbn [proxy_group proxies mixed_port].
  assert (ps <> [] /\ NoDup (map p_name ps)) as [Hne Hn].
  { subst ps. case_bool_decide as E; (split; [by try destruct exits|]); [apply NoDup_singleton|].
    rewrite map_map. exact Hnd. }
  destruct ps as [|p ps']; [done|]. split; [done|]. split; [|split; [done|]].
  - apply (proxy_names_perm (map p_name (p :: ps'))); [exact Hn|]. by left.
  - destruct (port =? 0)%Z eqn:E; [done|lia].
Qed.

(** ** Witnesses *)
Module Demo.
#[export] Instance tables : Unicode := ascii_tables.

(** A mihomo to run on: GEOSITE and the like match nothing. *)
Definition demo_matches (k p host : bytes) : bool :=
  if k == KindDomain then host == ToLower p
  else if k == KindDomainSuffix then (host == ToLower p) || HasSuffix host (dot :: ToLower p)
  else if k == KindDomainKeyword then Contains host (ToLower p) else false.
Fixpoint demo_route (ls : list bytes) (host : bytes) : option bytes :=
  match ls with
  | [] => None
  | l :: ls =>
      match Split l comma with
      | [k; a] => if k == KindMatch then Some a else demo_route ls host
      | [k; p; a] => if demo_matches k p host then Some a else demo_route ls host
      | _ => demo_route ls host
      end
  end.
#[export] Instance mihomo : Mihomo := {| route := demo_route; matches := demo_matches |}.

#[export] Instance mihomo_laws : MihomoLaws.
Proof.
  split; try done.
  - intros a ls host Ha. cbn [route mihomo demo_route]. change (str "MATCH," ++ a) with (KindMatch ++ comma :: a).
    rewrite Split_app, (Split_free_single a) by done. by vm_compute.
  - intros k p a ls host _ Hk Hp Ha. cbn [route matches mihomo demo_route]. by rewrite !Split_app, !Split_free_single.
Qed.

Lemma mihomo_agrees_with_dns_witness :
  exists ls, buildRuleLines demo_rules (str "hk") [str "hk"] = Ok ls /\
    exists a, route ls (str "www.example.com") = Some a /\ toAction a = ActionBlock.
Proof.
  eexists. split; [vm_compute; reflexivity|].
  destruct (mihomo_agrees_with_dns (fun _ => true) demo_rules (str "hk") [str "hk"] _
    (str "www.example.com") ltac:(vm_compute; reflexivity) ltac:(by apply (bool_decide_unpack _))
    ltac:(vm_compute; reflexivity)) as (a & Hr & [E|(Hn & _)]).
  - intros r Hr Hk. repeat (apply elem_of_cons in Hr as [->|Hr];
      [first [split; [reflexivity|split; [reflexivity|discriminate]] | split; reflexivity | exfalso; revert Hk; apply (bool_decide_eq_true_1 (_ ∉ _)); vm_compute; reflexivity]|]);
      by apply elem_of_nil in Hr.
  - intros r Hr _ Hn. repeat (apply elem_of_cons in Hr as [->|Hr];
      [exfalso; apply Hn; apply (bool_decide_eq_true_1 (_ ∈ _)); vm_compute; reflexivity|]); by apply elem_of_nil in Hr.
  - exists a. split; [exact Hr|]. rewrite E. vm_compute. reflexivity.
  - destruct (Hn Example1.r2) as [Hc _]; [by apply (bool_decide_unpack _); vm_compute|reflexivity|].
    vm_compute in Hc. discriminate Hc.
Defined.

End Demo.

Lemma match_line_last_witness :
  exists ls, @buildRuleLines ascii_tables demo_rules (str "hk") [str "hk"] = Ok ls /\
    exists out a, ls = out ++ [str "MATCH," ++ a] /\ length out = 2%nat.
Proof.
  eexists. split; [vm_compute; reflexivity|].
  destruct (@match_line_last ascii_tables (fun _ => true) demo_rules (str "hk") [str "hk"] _
    ltac:(repeat constructor) ltac:(by apply (bool_decide_unpack _)) ltac:(vm_compute; reflexivity))
    as (out & a & E & HL & _).
  exists out, a. split; [exact E|exact HL].
Defined.

Definition demo_exits : list (ExitConfig (Value := unit)) :=
  [{| ex_ID := str "hk"; ex_Protocol := str "ss"; ex_Config := ∅ |};
   {| ex_ID := str "jp"; ex_Protocol := str "vmess"; ex_Config := {[str "name" := tt; str "port" := tt]} |}].

Lemma proxy_group_order_witness :
  exists doc, @Render ascii_tables unit (Some (demo_exits, demo_rules, 0%Z)) = Ok doc /\
    head (proxy_group doc) = Some (str "hk") /\ mixed_port doc <> 0%Z.
Proof.
  eexists. split; [vm_compute; reflexivity|].
  destruct (@proxy_group_order ascii_tables unit demo_exits demo_rules 0%Z _
    ltac:(vm_compute; reflexivity) ltac:(by apply (bool_decide_unpack _))) as (E & _ & _ & HP).
  split; [rewrite E; reflexivity|exact HP].
Defined.
