(* ===== verification/Netguard.v ===== *)
(** * The outbound destination policy

    [internal/netguard/netguard.go]: which addresses an untrusted
    destination may resolve to, the single resolution, and the dial loop.
    The DNS resolver, the dialer and [url.Parse] are arguments; a dial is
    recorded in the trace that [DialPublicContext] returns, as the address
    and port of the text [net.JoinHostPort(ip.String(), port)]. *)
From S2P Require Import Prelude GoStrings GoNet.
From Stdlib Require Import ZArith Lia.

Definition maxRedirects : Z := 10.

Definition carrierGradeNAT : Prefix := {| pfx_addr := Addr4 0x64400000; pfx_bits := 10 |}.

(** [IsPublicIP]. *)
Definition IsPublicIP (ip : bytes) : bool :=
  match AddrFromSlice ip with
  | None => false
  | Some addr =>
      let addr := Unmap addr in
      if negb (IsValid addr) || negb (IsGlobalUnicast addr) || IsPrivate addr ||
         IsLoopback addr || IsLinkLocalUnicast addr || IsUnspecified addr
      then false
      else negb (Prefix_Contains carrierGradeNAT addr)
  end.

Inductive GuardError :=
| ErrEmptyHost
| ErrNotPublic (host : bytes)
| ErrLookup
| ErrNoAddresses
| ErrAnswerNotPublic (ip : bytes)
| ErrBadDestination (address : bytes)
| ErrDial
| ErrURL | ErrScheme | ErrHostname | ErrCredentials
| ErrRedirects.

Record URL := { Scheme : bytes; Hostname : bytes; User : option bytes }.

(** [ValidateHTTPURL]. *)
Definition ValidateHTTPURL (url_Parse : bytes -> option URL) (raw : bytes) : res GuardError URL :=
  match url_Parse (TrimSpace raw) with
  | None => Err ErrURL
  | Some u =>
      if (Scheme u != str "http") && (Scheme u != str "https") then Err ErrScheme
      else if Hostname u == [] then Err ErrHostname
      else if User u != None then Err ErrCredentials
      else Ok u
  end.

(** The [CheckRedirect] hook of [NewHTTPClient]; [via] is the number of
    requests made already. *)
Definition CheckRedirect (url_Parse : bytes -> option URL) (url : bytes) (via : Z) : res GuardError unit :=
  if (maxRedirects <=? via)%Z then Err ErrRedirects
  else match ValidateHTTPURL url_Parse url with Ok _ => Ok tt | Err e => Err e end.

Section guard.
(** [resolver.LookupIPAddr]. *)
Context (LookupIPAddr : bytes -> option (list bytes)).

(** The loop over the answers: all of them are public, or it fails. *)
Fixpoint check_answers (addrs out : list bytes) : res GuardError (list bytes) :=
  match addrs with
  | [] => Ok out
  | ip :: addrs =>
      if IsPublicIP ip then check_answers addrs (out ++ [ip]) else Err (ErrAnswerNotPublic ip)
  end.

(** [ResolvePublic]. *)
Definition ResolvePublic (host : bytes) : res GuardError (list bytes) :=
  let host := TrimSpace (TrimSuffix host (str ".")) in
  if host == [] then Err ErrEmptyHost
  else match ParseIP host with
       | Some literal => if IsPublicIP literal then Ok [literal] else Err (ErrNotPublic host)
       | None =>
           match LookupIPAddr host with
           | None => Err ErrLookup
           | Some [] => Err ErrNoAddresses
           | Some addrs => check_answers addrs []
           end
       end.

(** A dial of the underlying dialer: address and port. *)
Definition Dial : Type := bytes * bytes.

Context {Conn : Type} (DialContext : bytes -> bytes -> option Conn).

Fixpoint dial_loop (ips : list bytes) (port : bytes) (trace : list Dial) : res GuardError Conn * list Dial :=
  match ips with
  | [] => (Err ErrDial, trace)
  | ip :: ips =>
      let trace := trace ++ [(ip, port)] in
      match DialContext ip port with
      | Some conn => (Ok conn, trace)
      | None => dial_loop ips port trace
      end
  end.

(** [DialPublicContext], with the dials it made. *)
Definition DialPublicContext (address : bytes) : res GuardError Conn * list Dial :=
  match SplitHostPort address with
  | None => (Err (ErrBadDestination address), [])
  | Some (host, port) =>
      match ResolvePublic host with
      | Err e => (Err e, [])
      | Ok ips => dial_loop ips port []
      end
  end.
End guard.

(** ** Lemmas *)
Local Open Scope Z_scope.

Lemma shiftr_block v n k : 0 <= n -> (Z.shiftr v n =? k) = ((k * 2 ^ n <=? v) && (v <? (k + 1) * 2 ^ n)).
Proof.
  intros Hn. rewrite Z.shiftr_div_pow2 by done. pose proof (Z.pow_pos_nonneg 2 n ltac:(lia) Hn).
  pose proof (Z.div_mod v (2 ^ n) ltac:(lia)). pose proof (Z.mod_pos_bound v (2 ^ n) ltac:(lia)).
  apply eq_bool_prop_intro. rewrite !Is_true_true, Z.eqb_eq, andb_true_iff, Z.leb_le, Z.ltb_lt. nia.
Qed.

Lemma lxor_block a b n :
  (Z.shiftr (Z.lxor a b) n =? 0) = (Z.shiftr b n =? Z.shiftr a n).
Proof.
  rewrite Z.shiftr_lxor. apply eq_bool_prop_intro. rewrite !Is_true_true, !Z.eqb_eq, Z.lxor_eq_0_iff.
  split; congruence.
Qed.

(** [v] lies in the block of [2 ^ size] addresses from [base]. *)
Definition in_block (v : Z) (b : Z * Z) : bool := (b.1 <=? v) && (v <? b.1 + 2 ^ b.2).

(** 0.0.0.0, 10/8, 100.64/10, 127/8, 169.254/16, 172.16/12, 192.168/16,
    224/4 and 255.255.255.255. *)
Definition refused4 : list (Z * Z) :=
  [(0, 0); (0x0a000000, 24); (0x64400000, 22); (0x7f000000, 24); (0xa9fe0000, 16);
   (0xac100000, 20); (0xc0a80000, 16); (0xe0000000, 28); (0xffffffff, 0)].

(** ::, ::1, fc00::/7, fe80::/10 and ff00::/8. *)
Definition refused6 : list (Z * Z) :=
  [(0, 0); (1, 0); (0xfc * 2 ^ 120, 121); (0x3fa * 2 ^ 118, 118); (0xff * 2 ^ 120, 120)].

Lemma if_false_negb (c d e : bool) : c || d = e -> (if c then false else negb d) = negb e.
Proof. by intros <-; destruct c, d. Qed.

Lemma public_addr4 v :
  (if negb (IsValid (Addr4 v)) || negb (IsGlobalUnicast (Addr4 v)) || IsPrivate (Addr4 v) ||
      IsLoopback (Addr4 v) || IsLinkLocalUnicast (Addr4 v) || IsUnspecified (Addr4 v)
   then false else negb (Prefix_Contains carrierGradeNAT (Addr4 v))) =
  negb (existsb (in_block v) refused4).
Proof.
  unfold IsGlobalUnicast, IsPrivate, IsLoopback, IsLinkLocalUnicast, IsMulticast, IsUnspecified, IsValid.
  cbn [Unmap negb]. unfold Prefix_Contains, carrierGradeNAT, pfx_addr, pfx_bits.
  rewrite lxor_block. change (Z.shiftr 0x64400000 (32 - 10)) with 401. change (32 - 10) with 22.
  replace (bool_decide (Addr4 v = Addr4 0)) with (v =? 0)
    by (apply eq_bool_prop_intro; rewrite Is_true_true, bool_decide_spec, Z.eqb_eq; split; congruence).
  rewrite (bool_decide_eq_false_2 (Addr4 v = Addr6 0 [])) by done.
  rewrite !shiftr_block by lia. unfold refused4, existsb, in_block, fst, snd.
  change (2 ^ 0) with 1. change (2 ^ 22) with 4194304. change (2 ^ 24) with 16777216.
  change (2 ^ 16) with 65536. change (2 ^ 20) with 1048576. change (2 ^ 28) with 268435456.
  apply if_false_negb. apply eq_bool_prop_intro. rewrite !Is_true_true.
  repeat (rewrite ?negb_true_iff, ?andb_true_iff, ?orb_true_iff, ?andb_false_iff, ?orb_false_iff,
    ?negb_false_iff, ?Z.leb_le, ?Z.ltb_lt, ?Z.eqb_eq). lia.
Qed.

Lemma public_addr6 v :
  (Z.shiftr v 32 =? 0xffff) = false ->
  (if negb (IsValid (Addr6 v [])) || negb (IsGlobalUnicast (Addr6 v [])) || IsPrivate (Addr6 v []) ||
      IsLoopback (Addr6 v []) || IsLinkLocalUnicast (Addr6 v []) || IsUnspecified (Addr6 v [])
   then false else negb (Prefix_Contains carrierGradeNAT (Addr6 v []))) =
  negb (existsb (in_block v) refused6).
Proof.
  intros Hm.
  unfold IsGlobalUnicast, IsPrivate, IsLoopback, IsLinkLocalUnicast, IsMulticast, IsUnspecified, IsValid.
  unfold Unmap. rewrite Hm. cbn [negb]. unfold Prefix_Contains, carrierGradeNAT, pfx_addr, pfx_bits.
  replace (bool_decide (Addr6 v [] = Addr6 0 [])) with (v =? 0)
    by (apply eq_bool_prop_intro; rewrite Is_true_true, bool_decide_spec, Z.eqb_eq; split; congruence).
  rewrite (bool_decide_eq_false_2 (Addr6 v [] = Addr4 0)) by done.
  rewrite !shiftr_block by lia. unfold refused6, existsb, in_block, fst, snd.
  apply if_false_negb. apply eq_bool_prop_intro. rewrite !Is_true_true.
  repeat (rewrite ?negb_true_iff, ?andb_true_iff, ?orb_true_iff, ?andb_false_iff, ?orb_false_iff,
    ?negb_false_iff, ?Z.leb_le, ?Z.ltb_lt, ?Z.eqb_eq). lia.
Qed.

Lemma AddrFromSlice_4 ip : len ip = 4 -> AddrFromSlice ip = Some (Addr4 (be ip)).
Proof. intros E. unfold AddrFromSlice. by rewrite E. Qed.

Lemma AddrFromSlice_16 ip : len ip = 16 -> AddrFromSlice ip = Some (Addr6 (be ip) []).
Proof. intros E. unfold AddrFromSlice. by rewrite E. Qed.

Lemma Unmap_mapped ip :
  len ip = 4 -> Unmap (Addr6 (be (v4InV6Prefix ++ ip)) []) = Addr4 (be ip).
Proof.
  intros E. pose proof (be_range ip) as HR. rewrite E in HR. change (256 ^ 4) with (2 ^ 32) in HR.
  unfold Unmap. rewrite be_app, E. change (256 ^ 4) with (2 ^ 32). change (be v4InV6Prefix) with 0xffff.
  rewrite Z.shiftr_div_pow2, Z.div_add_l, (Z.div_small (be ip)) by lia. simpl.
  f_equal. change 0xffffffff with (Z.ones 32). rewrite Z.land_ones by lia.
  rewrite Z.add_comm, Z.mod_add by lia. by apply Z.mod_small.
Qed.

Lemma IsPublicIP_4 ip : len ip = 4 -> IsPublicIP ip = negb (existsb (in_block (be ip)) refused4).
Proof. intros E. unfold IsPublicIP. rewrite AddrFromSlice_4 by done. apply public_addr4. Qed.

Lemma IsPublicIP_mapped ip :
  len ip = 4 -> IsPublicIP (v4InV6Prefix ++ ip) = negb (existsb (in_block (be ip)) refused4).
Proof.
  intros E. unfold IsPublicIP. rewrite AddrFromSlice_16 by (rewrite len_app, E; done).
  cbn zeta. rewrite Unmap_mapped by done. apply public_addr4.
Qed.

Lemma IsPublicIP_6 ip :
  len ip = 16 -> Z.shiftr (be ip) 32 <> 0xffff ->
  IsPublicIP ip = negb (existsb (in_block (be ip)) refused6).
Proof.
  intros E Hm. unfold IsPublicIP. rewrite AddrFromSlice_16 by done. cbn zeta.
  assert (Unmap (Addr6 (be ip) []) = Addr6 (be ip) []) as ->.
  { unfold Unmap. destruct (_ =? _) eqn:X; [lia|done]. }
  apply public_addr6. lia.
Qed.

Section guard_lemmas.
Context (LookupIPAddr : bytes -> option (list bytes)).

Lemma check_answers_ok addrs out ips :
  check_answers addrs out = Ok ips <-> ips = out ++ addrs /\ Forall (fun ip => IsPublicIP ip = true) addrs.
Proof.
  revert out. induction addrs as [|ip addrs IH]; intros out; simpl.
  - rewrite app_nil_r. split; [intros [= <-]; done|by intros [-> _]].
  - destruct (IsPublicIP ip) eqn:E.
    + rewrite IH, <- app_assoc, Forall_cons. tauto.
    + split; [done|]. rewrite Forall_cons. intros (_ & ? & _). congruence.
Qed.

Lemma ResolvePublic_public host ips :
  ResolvePublic LookupIPAddr host = Ok ips ->
  ips <> [] /\ Forall (fun ip => IsPublicIP ip = true) ips /\
  (ParseIP (TrimSpace (TrimSuffix host (str "."))) = None ->
   LookupIPAddr (TrimSpace (TrimSuffix host (str "."))) = Some ips).
Proof.
  unfold ResolvePublic. case_bool_decide; [done|]. destruct (ParseIP _) as [lit|].
  - destruct (IsPublicIP lit) eqn:E; [|done]. intros [= <-]. split; [done|]. split; [|done].
    by apply Forall_singleton.
  - destruct (LookupIPAddr _) as [[|a l]|]; try done.
    intros [-> HF]%check_answers_ok. done.
Qed.

Context {Conn : Type} (DialContext : bytes -> bytes -> option Conn).

Lemma dial_loop_trace ips port trace r t :
  dial_loop DialContext ips port trace = (r, t) ->
  exists tried, t = trace ++ map (fun ip => (ip, port)) tried /\ tried `prefix_of` ips /\
    match r with
    | Ok c => exists ip, last tried = Some ip /\ DialContext ip port = Some c
    | Err _ => tried = ips /\ Forall (fun ip => DialContext ip port = None) ips
    end.
Proof.
  revert trace. induction ips as [|ip ips IH]; intros trace; simpl.
  - intros [= <- <-]. exists []. rewrite app_nil_r. done.
  - destruct (DialContext ip port) as [c|] eqn:E.
    + intros [= <- <-]. exists [ip]. split; [done|]. split; [by exists ips|]. by exists ip.
    + intros (tried & -> & Hp & Hr)%IH. exists (ip :: tried). rewrite <- app_assoc. split; [done|].
      split; [by apply prefix_cons|]. destruct r as [e|c].
      * destruct Hr as [-> HF]. split; [done|]. by constructor.
      * destruct Hr as (x & Hl & Hx). exists x. split; [|done]. by destruct tried.
Qed.
End guard_lemmas.
Local Close Scope Z_scope.

(** ** Properties *)

(** IsPublicIP decides exactly the documented policy.  A four-byte
    address, and the same address in its IPv4-mapped sixteen-byte form, is
    public unless it lies in one of nine refused blocks (unspecified,
    private, carrier-grade NAT, loopback, link-local, multicast, broadcast);
    any other sixteen-byte address unless it lies in one of five; a slice
    of any other length never is. *)
Theorem IsPublicIP_policy ip :
  (len ip = 4%Z ->
    IsPublicIP ip = negb (existsb (in_block (be ip)) refused4) /\
    IsPublicIP (v4InV6Prefix ++ ip) = negb (existsb (in_block (be ip)) refused4)) /\
  (len ip = 16%Z -> Z.shiftr (be ip) 32 <> 0xffff%Z ->
    IsPublicIP ip = negb (existsb (in_block (be ip)) refused6)) /\
  (len ip <> 4%Z -> len ip <> 16%Z -> IsPublicIP ip = false).
Proof.
  split; [|split].
  - intros E. by rewrite IsPublicIP_4, IsPublicIP_mapped.
  - intros E Hm. by apply IsPublicIP_6.
  - intros H4 H16. unfold IsPublicIP, AddrFromSlice.
    by rewrite (proj2 (Z.eqb_neq _ _) H4), (proj2 (Z.eqb_neq _ _) H16).
Qed.

(** DialPublicContext only ever dials public addresses, whatever the
    resolver answers: the dials are a prefix of the addresses of one
    resolution, all of them checked before the first dial; a connection it
    returns is the last dial's, and it fails after a dial only when every
    address was tried. *)
Theorem DialPublicContext_public Lookup {Conn} (DialContext : bytes -> bytes -> option Conn) address r trace :
  DialPublicContext Lookup DialContext address = (r, trace) ->
  Forall (fun d => IsPublicIP d.1 = true) trace /\
  (trace <> [] -> exists host port ips, SplitHostPort address = Some (host, port) /\
    ResolvePublic Lookup host = Ok ips /\ trace `prefix_of` map (fun ip => (ip, port)) ips /\
    match r with
    | Ok c => exists ip, last trace = Some (ip, port) /\ DialContext ip port = Some c
    | Err _ => length trace = length ips
    end).
Proof.
  unfold DialPublicContext. destruct (SplitHostPort address) as [[host port]|]; [|by intros [= <- <-]].
  destruct (ResolvePublic Lookup host) as [e|ips] eqn:ER; [by intros [= <- <-]|].
  intros (tried & -> & [k Hk] & Hr)%dial_loop_trace. simpl. split.
  - apply ResolvePublic_public in ER as (_ & HF & _). rewrite Hk, Forall_app in HF.
    apply Forall_map. destruct HF as [HF _]. eapply Forall_impl; [exact HF|]. done.
  - intros _. exists host, port, ips. split; [done|]. split; [done|].
    split; [rewrite Hk, map_app; by exists (map (fun ip => (ip, port)) k)|].
    destruct r as [e|c].
    + destruct Hr as [-> _]. by rewrite length_map.
    + destruct Hr as (ip & Hl & Hc). exists ip. split; [|done].
      apply last_Some in Hl as [l ->]. rewrite map_app. apply last_snoc.
Qed.

(** ** Witnesses *)
Definition demo_lookup (host : bytes) : option (list bytes) :=
  if host == str "example.com" then Some [map zb [93; 184; 216; 34]%Z; map zb [1; 1; 1; 1]%Z]
  else if host == str "rebind.test" then Some [map zb [93; 184; 216; 34]%Z; map zb [127; 0; 0; 1]%Z]
  else None.

Definition demo_dial (ip port : bytes) : option nat := if ip == map zb [1; 1; 1; 1]%Z then Some 7 else None.

Lemma DialPublicContext_public_witness :
  exists r trace,
    DialPublicContext demo_lookup demo_dial (str "example.com:443") = (r, trace) /\
    r = Ok 7 /\ length trace = 2 /\ Forall (fun d => IsPublicIP d.1 = true) trace.
Proof.
  do 2 eexists. split; [vm_compute; reflexivity|]. split; [reflexivity|]. split; [reflexivity|].
  refine (proj1 (DialPublicContext_public demo_lookup demo_dial (str "example.com:443") (Ok 7) _ _)).
  vm_compute. reflexivity.
Defined.

(** A rebinding answer is refused before anything is dialed. *)
Example rebind_refused :
  (DialPublicContext demo_lookup demo_dial (str "rebind.test:443")).2 = [].
Proof. vm_compute. reflexivity. Qed.

Lemma IsPublicIP_policy_witness : IsPublicIP (map zb [100; 64; 0; 1]%Z) = false.
Proof.
  rewrite (proj1 (proj1 (IsPublicIP_policy (map zb [100; 64; 0; 1]%Z)) eq_refl)).
  vm_compute. reflexivity.
Defined.
