(* ===== verification/Access.v ===== *)
(** * The internal-only access gate

    [internal/access/gate.go].  A gate holds an atomic snapshot of the
    policy; [None] is a nil pointer.  The two settings that [Refresh] reads
    are its arguments, [None] for a failed read. *)
From S2P Require Import Prelude GoStrings GoNet Netguard.
From Stdlib Require Import ZArith Lia.

Definition DefaultInternalCIDRs : bytes :=
  str "172.16.0.0/12,10.0.0.0/8,192.168.0.0/16,127.0.0.0/8,::1/128,fd00::/8".

Record state := { enabled : bool; cidrs : list Prefix }.

(** The snapshot pointer, and whether a settings store is attached. *)
Record Gate := { has_settings : bool; snapshot : option state }.

Inductive GateError := ErrSettings | ErrInvalidCIDR (s : bytes).

Definition csv_sep : byte := Byte.x2c.

(** [parseCIDRs]: entries that do not parse are dropped. *)
Definition parseCIDRs (raw : bytes) : list Prefix :=
  omap (fun s => let s := TrimSpace s in if s == [] then None else ParsePrefix s) (Split raw csv_sep).

(** [ValidateCIDRs]: the first entry that does not parse. *)
Fixpoint validate_entries (l : list bytes) : res GateError unit :=
  match l with
  | [] => Ok tt
  | s :: l =>
      let s := TrimSpace s in
      if s == [] then validate_entries l
      else match ParsePrefix s with None => Err (ErrInvalidCIDR s) | Some _ => validate_entries l end
  end.
Definition ValidateCIDRs (raw : bytes) : res GateError unit := validate_entries (Split raw csv_sep).

Definition publish (g : Gate) (s : state) : Gate := {| has_settings := has_settings g; snapshot := Some s |}.

(** [Gate.Refresh]: the new gate, unless a setting cannot be read. *)
Definition Refresh (g : Gate) (on : option bool) (raw : option bytes) : res GateError Gate :=
  if has_settings g then
    match on with
    | None => Err ErrSettings
    | Some on =>
        match raw with
        | None => Err ErrSettings
        | Some raw =>
            let raw := if TrimSpace raw == [] then DefaultInternalCIDRs else raw in
            Ok (publish g {| enabled := on; cidrs := parseCIDRs raw |})
        end
    end
  else Ok (publish g {| enabled := false; cidrs := [] |}).

(** [NewGate]. *)
Definition NewGate (has_store : bool) (on : option bool) (raw : option bytes) : res GateError Gate :=
  Refresh {| has_settings := has_store; snapshot := None |} on raw.

(** [Gate.Configure]. *)
Definition Configure (g : Gate) (on : bool) (raw : bytes) : res GateError Gate :=
  let raw := if TrimSpace raw == [] then DefaultInternalCIDRs else raw in
  match ValidateCIDRs raw with
  | Err e => Err e
  | Ok _ => Ok (publish g {| enabled := on; cidrs := parseCIDRs raw |})
  end.

(** [Gate.Enabled] of a gate pointer. *)
Definition Enabled (g : option Gate) : bool :=
  match g with
  | None => false
  | Some g => match snapshot g with None => false | Some s => enabled s end
  end.

(** [net.Addr]: the concrete types the code distinguishes, each possibly a
    nil pointer, and any other implementation by its [String()]. *)
Inductive NetAddr :=
| NilAddr
| TCPAddr (ip : option (option bytes))
| UDPAddr (ip : option (option bytes))
| IPAddr (ip : option (option bytes))
| OtherAddr (s : bytes).

(** [netAddrToNetip]; [None] is a nil [net.IP]. *)
Definition netAddrToNetip (ip : option bytes) : Addr :=
  match ip with
  | None => AddrNone
  | Some ip =>
      match To4 ip with
      | Some v4 => Unmap (default AddrNone (AddrFromSlice v4))
      | None => Unmap (default AddrNone (AddrFromSlice ip))
      end
  end.

(** [extractIP]. *)
Definition extractIP (remote : NetAddr) : Addr :=
  match remote with
  | NilAddr => AddrNone
  | TCPAddr p | UDPAddr p | IPAddr p =>
      match p with None => AddrNone | Some ip => netAddrToNetip ip end
  | OtherAddr s =>
      let host := match SplitHostPort s with Some (host, _) => host | None => s end in
      default AddrNone (ParseAddr host)
  end.

(** The common tail of [Allow] and [AllowIP]: known address, loopback, then
    the loop over the prefixes. *)
Definition policy_admits (s : state) (ip : Addr) : bool :=
  if negb (IsValid ip) then false
  else if IsLoopback ip then true
  else existsb (fun p => Prefix_Contains p ip) (cidrs s).

(** [Gate.AllowIP] and [Gate.Allow]. *)
Definition AllowIP (g : option Gate) (ip : Addr) : bool :=
  match g with
  | None => true
  | Some g =>
      match snapshot g with
      | None => true
      | Some s =>
          if negb (enabled s) then true else policy_admits s ip
      end
  end.

Definition Allow (g : option Gate) (remote : NetAddr) : bool :=
  match g with
  | None => true
  | Some g =>
      match snapshot g with
      | None => true
      | Some s => if negb (enabled s) then true else policy_admits s (extractIP remote)
      end
  end.

(** ** Lemmas *)
Lemma validate_entries_ok l :
  validate_entries l = Ok tt <->
  Forall (fun s => TrimSpace s = [] \/ exists p, ParsePrefix (TrimSpace s) = Some p) l.
Proof.
  induction l as [|s l IH]; simpl; [done|]. rewrite Forall_cons, <- IH. case_bool_decide as E.
  - tauto.
  - destruct (ParsePrefix (TrimSpace s)) as [p|]; split; try tauto; eauto; try done.
    intros [[?|[p ?]] _]; done.
Qed.

(** A validated list loses no entry when it is parsed. *)
Lemma parse_validated raw :
  ValidateCIDRs raw = Ok tt ->
  Forall2 (fun s p => ParsePrefix (TrimSpace s) = Some p)
    (filter (fun s => TrimSpace s <> []) (Split raw csv_sep)) (parseCIDRs raw).
Proof.
  unfold ValidateCIDRs, parseCIDRs. rewrite validate_entries_ok.
  induction 1 as [|s l Hs _ IH]; simpl; [constructor|]. rewrite filter_cons.
  case_bool_decide as E; [by rewrite decide_False by tauto|].
  rewrite decide_True by done. destruct Hs as [?|[p Hp]]; [done|]. rewrite Hp. by constructor.
Qed.

Lemma extractIP_tcp4 ip :
  len ip = 4%Z ->
  extractIP (TCPAddr (Some (Some ip))) = Addr4 (be ip) /\
  extractIP (TCPAddr (Some (Some (v4InV6Prefix ++ ip)))) = Addr4 (be ip).
Proof.
  intros E. unfold extractIP, netAddrToNetip, To4. rewrite len_app, E.
  change (len v4InV6Prefix) with 12%Z. simpl.
  rewrite drop_0 || idtac. split; by rewrite AddrFromSlice_4.
Qed.

Lemma Prefix_Contains_4 a n v :
  (0 <= n <= 32)%Z ->
  Prefix_Contains {| pfx_addr := Addr4 a; pfx_bits := n |} (Addr4 v) =
  in_block v (Z.shiftr a (32 - n) * 2 ^ (32 - n), 32 - n)%Z.
Proof.
  intros Hn. unfold Prefix_Contains, in_block. cbn [pfx_addr pfx_bits fst snd].
  rewrite lxor_block, shiftr_block by lia. f_equal. f_equal. lia.
Qed.

(** 172.16/12, 10/8, 192.168/16 and 127/8. *)
Definition internal4 : list (Z * Z) :=
  [(0xac100000, 20); (0x0a000000, 24); (0xc0a80000, 16); (0x7f000000, 24)]%Z.

Lemma default_cidrs :
  parseCIDRs DefaultInternalCIDRs =
  [{| pfx_addr := Addr4 0xac100000; pfx_bits := 12 |}; {| pfx_addr := Addr4 0x0a000000; pfx_bits := 8 |};
   {| pfx_addr := Addr4 0xc0a80000; pfx_bits := 16 |}; {| pfx_addr := Addr4 0x7f000000; pfx_bits := 8 |};
   {| pfx_addr := Addr6 1 []; pfx_bits := 128 |}; {| pfx_addr := Addr6 (0xfd * 2 ^ 120) []; pfx_bits := 8 |}].
Proof. vm_compute. reflexivity. Qed.

Lemma default_allows4 v :
  (if IsLoopback (Addr4 v) then true
   else existsb (fun p => Prefix_Contains p (Addr4 v)) (parseCIDRs DefaultInternalCIDRs)) =
  existsb (in_block v) internal4.
Proof.
  rewrite default_cidrs. unfold existsb, internal4. rewrite !Prefix_Contains_4 by lia.
  change (Prefix_Contains {| pfx_addr := Addr6 1 []; pfx_bits := 128 |} (Addr4 v)) with false.
  change (Prefix_Contains {| pfx_addr := Addr6 (0xfd * 2 ^ 120) []; pfx_bits := 8 |} (Addr4 v)) with false.
  unfold IsLoopback. cbn [Unmap]. rewrite shiftr_block by lia.
  change (32 - 12)%Z with 20%Z. change (32 - 8)%Z with 24%Z. change (32 - 16)%Z with 16%Z.
  change (Z.shiftr 2886729728 20 * 2 ^ 20)%Z with 2886729728%Z.
  change (Z.shiftr 167772160 24 * 2 ^ 24)%Z with 167772160%Z.
  change (Z.shiftr 3232235520 16 * 2 ^ 16)%Z with 3232235520%Z.
  change (Z.shiftr 2130706432 24 * 2 ^ 24)%Z with 2130706432%Z.
  unfold in_block at 4 8. cbn [fst snd].
  change ((127 + 1) * 2 ^ 24)%Z with (2130706432 + 2 ^ 24)%Z. change (127 * 2 ^ 24)%Z with 2130706432%Z.
  destruct ((2130706432 <=? v)%Z && _); simpl; by rewrite ?orb_true_r.
Qed.

Lemma Configure_default g g' :
  Configure g true [] = Ok g' ->
  snapshot g' = Some {| enabled := true; cidrs := parseCIDRs DefaultInternalCIDRs |}.
Proof.
  unfold Configure. change (TrimSpace [] == []) with true. cbn iota zeta.
  assert (ValidateCIDRs DefaultInternalCIDRs = Ok tt) as -> by (vm_compute; reflexivity).
  by intros [= <-].
Qed.

(** ** Properties *)

(** what the gate admits.  A nil gate, a gate without a snapshot and a
    disabled gate admit everyone; an enabled one admits exactly the peers
    whose address is known and is loopback or lies in a configured prefix,
    so loopback never locks itself out. *)
Theorem Allow_spec g remote :
  Allow g remote = true <->
  (forall g' s, g = Some g' -> snapshot g' = Some s -> enabled s = true ->
    IsValid (extractIP remote) = true /\
    (IsLoopback (extractIP remote) = true \/
     exists p, p ∈ cidrs s /\ Prefix_Contains p (extractIP remote) = true)).
Proof.
  destruct g as [g|]; [|by split]. unfold Allow, policy_admits.
  destruct (snapshot g) as [s|] eqn:ES; [|split; [intros _ g' s [= <-] E; congruence|done]].
  destruct (enabled s) eqn:EE; simpl.
  - transitivity (IsValid (extractIP remote) = true /\
      (IsLoopback (extractIP remote) = true \/
       exists p, p ∈ cidrs s /\ Prefix_Contains p (extractIP remote) = true)).
    + destruct (IsValid _); simpl; [|by split; [|intros [? _]]].
      destruct (IsLoopback _); [tauto|].
      rewrite existsb_exists. setoid_rewrite <- list_elem_of_In. naive_solver.
    + split; [|eauto]. intros HP g' s' [= <-] ES'. rewrite ES in ES'. by injection ES' as <-.
  - split; [|done]. intros _ g' s' [= <-] ES'. rewrite ES in ES'. injection ES' as <-. congruence.
Qed.

(** Configure is all or nothing.  It fails and publishes nothing when
    some entry is not a prefix; when it succeeds, the policy is enabled as
    asked and holds the prefix of every non-blank entry, in order (the
    silent dropping of parseCIDRs is never exercised). *)
Theorem Configure_complete g on raw :
  (forall e, Configure g on raw = Err e -> exists s, s ∈ Split raw csv_sep /\ TrimSpace s <> [] /\ ParsePrefix (TrimSpace s) = None) /\
  (forall g', Configure g on raw = Ok g' ->
    exists s, snapshot g' = Some s /\ enabled s = on /\
      Forall2 (fun e p => ParsePrefix (TrimSpace e) = Some p)
        (filter (fun e => TrimSpace e <> [])
          (Split (if TrimSpace raw == [] then DefaultInternalCIDRs else raw) csv_sep)) (cidrs s)).
Proof.
  unfold Configure. set (r := if _ == _ then _ else raw). split.
  - intros e. destruct (ValidateCIDRs r) as [e'|] eqn:EV; [intros _|done].
    subst r. case_bool_decide as Eb; [by vm_compute in EV|]. unfold ValidateCIDRs in EV.
    revert EV. induction (Split raw csv_sep) as [|s l IH]; simpl; [done|].
    case_bool_decide; [intros HV; destruct (IH HV) as (x & ? & ?); exists x; split; [by right|done]|].
    destruct (ParsePrefix (TrimSpace s)) eqn:EP.
    + intros HV. destruct (IH HV) as (x & ? & ?). exists x. split; [by right|done].
    + intros _. exists s. split; [by left|done].
  - intros g'. destruct (ValidateCIDRs r) as [|[]] eqn:EV; [done|]. intros [= <-].
    eexists. split; [reflexivity|]. split; [done|]. by apply parse_validated.
Qed.

(** with the default list the enabled gate admits, of the IPv4 peers of
    a TCP listener, exactly 172.16/12, 10/8, 192.168/16 and 127/8, also when
    a dual-stack socket reports the peer in its IPv4-mapped form. *)
Theorem default_gate_ipv4 g g' ip :
  Configure g true [] = Ok g' -> len ip = 4%Z ->
  Allow (Some g') (TCPAddr (Some (Some ip))) = existsb (in_block (be ip)) internal4 /\
  Allow (Some g') (TCPAddr (Some (Some (v4InV6Prefix ++ ip)))) = existsb (in_block (be ip)) internal4.
Proof.
  intros HS%Configure_default Hl.
  destruct (extractIP_tcp4 ip Hl) as [E1 E2].
  unfold Allow, policy_admits. rewrite HS, E1, E2. cbn [enabled negb cidrs IsValid].
  split; apply default_allows4.
Qed.

(** ** Witnesses *)
Definition closed_gate : Gate := {| has_settings := true; snapshot := None |}.

Lemma default_gate_ipv4_witness :
  exists g', Configure closed_gate true [] = Ok g' /\
    Allow (Some g') (TCPAddr (Some (Some (map zb [172; 22; 4; 5]%Z)))) = true /\
    Allow (Some g') (TCPAddr (Some (Some (v4InV6Prefix ++ map zb [8; 8; 8; 8]%Z)))) = false.
Proof.
  eexists. split; [vm_compute; reflexivity|]. split.
  - refine (eq_trans (proj1 (default_gate_ipv4 closed_gate _ (map zb [172; 22; 4; 5]%Z) _ eq_refl)) _);
      vm_compute; reflexivity.
  - refine (eq_trans (proj2 (default_gate_ipv4 closed_gate _ (map zb [8; 8; 8; 8]%Z) _ eq_refl)) _);
      vm_compute; reflexivity.
Defined.

Lemma Configure_complete_witness :
  exists g' s, Configure closed_gate true (str "10.0.0.0/8, fd00::/8") = Ok g' /\
    snapshot g' = Some s /\ enabled s = true.
Proof.
  eexists. destruct (proj2 (Configure_complete closed_gate true (str "10.0.0.0/8, fd00::/8")) _
    ltac:(vm_compute; reflexivity)) as (s & Hs & He & _).
  exists s. split; [vm_compute; reflexivity|]. split; [exact Hs|exact He].
Defined.

Lemma Allow_spec_witness : Allow None NilAddr = true.
Proof. apply Allow_spec. intros g' s Hg. discriminate Hg. Defined.
