(* ===== verification/Sni.v ===== *)
(** * The TCP SNI forwarder

    [internal/proxy/sniforward]: peek.go (the ClientHello parser) and
    server.go (upstream selection, the connection handler and the accept
    loop).  Every slice expression goes through the checked [slice] and
    [index] of the prelude, so that an out-of-range access would be a
    [Panic].  A loop's fuel is the length of what it walks plus one; running
    out of it would show as a [Panic] too, which the first theorem
    excludes. *)
From S2P Require Import Prelude GoStrings GoNet Netguard Access.
From Stdlib Require Import ZArith Lia.

Local Open Scope Z_scope.

(** ** peek.go *)
Definition tlsRecordTypeHandshake : Z := 0x16.
Definition tlsHandshakeClientHello : Z := 0x01.
Definition tlsExtServerName : Z := 0x0000.
Definition tlsHeaderLen : Z := 5.
Definition maxTLSRecordSize : Z := 16640.

Inductive SniError :=
| ErrNoSNI | ErrNotTLS | ErrRecordLength | ErrEOF
| ErrNotClientHello | ErrTruncated | ErrPrefixShort
| ErrMissing (field : bytes) | ErrOverflow (field : bytes) | ErrListShort.

(** One length-prefixed field: [if len(p) < n], the length, [if n+l >
    len(p)], and the two slices [p[n:n+l]] and [p[n+l:]]. *)
Definition read_vec (k : nat) (p : bytes) (short over : SniError) : go SniError (bytes * bytes) :=
  let n := Z.of_nat k in
  if len p <? n then Fail short
  else
    l ← uint_be n p 0;
    if len p <? n + l then Fail over
    else
      x ← slice p n (n + l);
      rest ← slice_from p (n + l);
      mret (x, rest).

(** [parseServerNameList]: the loop over its entries, then the function. *)
Fixpoint name_loop (fuel : nat) (p : bytes) : go SniError bytes :=
  match fuel with
  | O => Panic
  | S fuel =>
      if len p <? 3 then Fail ErrNoSNI
      else
        nameType ← index p 0;
        nameLen ← uint_be 2 p 1;
        if len p <? 3 + nameLen then Fail (ErrOverflow (str "server_name entry"))
        else if bz nameType =? 0 then slice p 3 (3 + nameLen)
        else p ← slice_from p (3 + nameLen); name_loop fuel p
  end.

Definition parseServerNameList (b : bytes) : go SniError bytes :=
  '(p, _) ← read_vec 2 b ErrListShort (ErrOverflow (str "server_name_list"));
  name_loop (S (length p)) p.

(** The loop over the extensions. *)
Fixpoint ext_loop (fuel : nat) (exts : bytes) : go SniError bytes :=
  match fuel with
  | O => Panic
  | S fuel =>
      if len exts <? 4 then Fail ErrNoSNI
      else
        extType ← uint_be 2 exts 0;
        thisLen ← uint_be 2 exts 2;
        if len exts <? 4 + thisLen then Fail (ErrOverflow (str "extension"))
        else if extType =? tlsExtServerName
             then b ← slice exts 4 (4 + thisLen); parseServerNameList b
             else exts ← slice_from exts (4 + thisLen); ext_loop fuel exts
  end.

(** [extractSNIFromHandshake]. *)
Definition extractSNIFromHandshake (b : bytes) : go SniError bytes :=
  if len b <? 4 then Fail ErrNotClientHello
  else
    b0 ← index b 0;
    if negb (bz b0 =? tlsHandshakeClientHello) then Fail ErrNotClientHello
    else
      hsLen ← uint_be 3 b 1;
      if len b <? hsLen + 4 then Fail ErrTruncated
      else
        p ← slice b 4 (4 + hsLen);
        if len p <? 34 then Fail ErrPrefixShort
        else
          p ← slice_from p 34;
          '(_, p) ← read_vec 1 p (ErrMissing (str "session_id")) (ErrOverflow (str "session_id"));
          '(_, p) ← read_vec 2 p (ErrMissing (str "cipher_suites")) (ErrOverflow (str "cipher_suites"));
          '(_, p) ← read_vec 1 p (ErrMissing (str "compression")) (ErrOverflow (str "compression"));
          '(exts, _) ← read_vec 2 p ErrNoSNI (ErrOverflow (str "extensions"));
          ext_loop (S (length exts)) exts.

(** [peekSNI] on the bytes the connection delivers before its end:
    [io.ReadFull] takes what it asks for or fails.  The result has the SNI
    or the error, the replay buffer, and what is left unread. *)
Definition peekSNI (stream : bytes) : go SniError bytes * bytes * bytes :=
  if len stream <? tlsHeaderLen then (Fail ErrEOF, [], [])
  else
    let head := take 5 stream in
    let rest := drop 5 stream in
    match @index SniError head 0, @uint_be SniError 2 head 3 with
    | Ret h0, Ret recLen =>
        if negb (bz h0 =? tlsRecordTypeHandshake) then (Fail ErrNotTLS, head, rest)
        else if (recLen <=? 0) || (maxTLSRecordSize <? recLen) then (Fail ErrRecordLength, head, rest)
        else if len rest <? recLen then (Fail ErrEOF, head, [])
        else
          let body := take (Z.to_nat recLen) rest in
          (extractSNIFromHandshake body, head ++ body, drop (Z.to_nat recLen) rest)
    | _, _ => (Panic, head, rest)
    end.

(** ** Grammar of a ClientHello with a server name

    Length-prefixed vectors and the sequences the parser skips, as the RFCs
    lay them out; [hello_sni b name] says that [b] starts with a ClientHello
    whose first server-name extension names [name] first. *)
Definition vec (n : nat) (x : bytes) : bytes := be_bytes n (len x) ++ x.
Definition fits (n : nat) (x : bytes) : Prop := len x < 256 ^ Z.of_nat n.

(** An entry of a server name list and an extension. *)
Definition name_entry (t : byte) (x : bytes) : bytes := t :: vec 2 x.
Definition extension (t : Z) (x : bytes) : bytes := be_bytes 2 t ++ vec 2 x.

Inductive names_sni (name : bytes) : bytes -> Prop :=
| names_here rest : fits 2 name -> names_sni name (name_entry Byte.x00 name ++ rest)
| names_skip t x p : t <> Byte.x00 -> fits 2 x -> names_sni name p -> names_sni name (name_entry t x ++ p).

Definition list_sni (name b : bytes) : Prop :=
  exists p tl, b = vec 2 p ++ tl /\ fits 2 p /\ names_sni name p.

Inductive exts_sni (name : bytes) : bytes -> Prop :=
| exts_here b rest : list_sni name b -> fits 2 b -> exts_sni name (extension 0 b ++ rest)
| exts_skip t x e : 0 < t < 65536 -> fits 2 x -> exts_sni name e -> exts_sni name (extension t x ++ e).

Inductive hello_sni (name : bytes) : bytes -> Prop :=
| hello_intro fixed sid cs comp exts tl trailer body :
    len fixed = 34 -> fits 1 sid -> fits 2 cs -> fits 1 comp -> fits 2 exts ->
    exts_sni name exts ->
    body = fixed ++ vec 1 sid ++ vec 2 cs ++ vec 1 comp ++ vec 2 exts ++ tl -> fits 3 body ->
    hello_sni name (Byte.x01 :: vec 3 body ++ trailer).

(** ** Lemmas: readers *)
Lemma vec_len n x : len (vec n x) = Z.of_nat n + len x.
Proof. unfold vec. by rewrite len_app, be_bytes_len. Qed.
#[export] Hint Rewrite vec_len be_bytes_len : golen.

Lemma be_bytes_be n b : length b = n -> be_bytes n (be b) = b.
Proof.
  revert b. induction n as [|n IH]; intros b Hb.
  - by destruct b.
  - destruct b as [|x b _] using rev_ind; [done|]. rewrite length_app in Hb. simpl in Hb.
    cbn [be_bytes]. rewrite be_app, len_cons, len_nil. change (be [x]) with (0 * 256 + bz x).
    change (256 ^ (1 + 0)) with 256. pose proof (bz_range x).
    replace ((be b * 256 + (0 * 256 + bz x)) / 256) with (be b)
      by (rewrite Z.div_add_l by lia; rewrite Z.div_small by lia; lia).
    rewrite IH by lia. f_equal. f_equal. rewrite <- (zb_bz x) at 2.
    apply bz_inj. rewrite !bz_zb. rewrite Z.add_comm, Z.mod_add by lia. f_equal. 
Qed.

(** A two-part decomposition of a byte list at an offset. *)
Lemma slice_split {E} b lo hi :
  0 <= lo <= hi -> hi <= len b ->
  exists x y z, b = x ++ y ++ z /\ len x = lo /\ len y = hi - lo /\
    @slice E b lo hi = Ret y.
Proof.
  intros H1 H2. exists (take (Z.to_nat lo) b), (take (Z.to_nat (hi - lo)) (drop (Z.to_nat lo) b)),
    (drop (Z.to_nat (hi - lo)) (drop (Z.to_nat lo) b)).
  rewrite !take_drop. split; [done|]. unfold len in *.
  rewrite !length_take, length_drop. split; [lia|]. split; [lia|]. by apply slice_ok.
Qed.

Lemma slice_from_app {E} a b lo : lo = len a -> @slice_from E (a ++ b) lo = Ret b.
Proof.
  intros ->. unfold slice_from. rewrite <- (app_nil_r b) at 1. apply slice_app; [done|]. by rewrite len_app.
Qed.

(** [read_vec] reads exactly an encoded vector; it never panics. *)
Lemma read_vec_vec n x rest short over :
  fits n x -> read_vec n (vec n x ++ rest) short over = Ret (x, rest).
Proof.
  unfold fits, read_vec. intros Hf. cbn zeta. unfold vec. rewrite <- app_assoc.
  replace (len _ <? _) with false by (symmetry; rewrite Z.ltb_ge, !len_app, be_bytes_len; pose proof (len_nonneg x); pose proof (len_nonneg rest); lia).
  pose proof (@uint_be_app SniError (Z.of_nat n) [] (be_bytes n (len x)) (x ++ rest) 0 eq_refl) as HU.
  simpl in HU. rewrite HU by (by rewrite be_bytes_len). simpl.
  rewrite be_be_bytes, Z.mod_small by (pose proof (len_nonneg x); lia).
  replace (len _ <? _) with false by (symmetry; rewrite Z.ltb_ge, !len_app, be_bytes_len; pose proof (len_nonneg rest); lia).
  rewrite slice_app by (rewrite be_bytes_len; lia). simpl.
  rewrite app_assoc, slice_from_app by (rewrite len_app, be_bytes_len; lia). done.
Qed.

Lemma read_vec_cases n p short over :
  (0 < n)%nat ->
  (exists x rest, p = vec n x ++ rest /\ fits n x /\ read_vec n p short over = Ret (x, rest)) \/
  (exists e, read_vec n p short over = Fail e).
Proof.
  intros Hn. unfold read_vec. cbn zeta. destruct (len p <? Z.of_nat n) eqn:E1; [right; by eexists|].
  destruct (@slice_split SniError p 0 (0 + Z.of_nat n)) as (x0 & h & t & -> & H0 & Hh & HS); [lia..|].
  destruct x0; [|rewrite len_cons in H0; pose proof (len_nonneg x0); lia].
  simpl in *. unfold uint_be. change (0 + Z.of_nat n) with (Z.of_nat n) in *. rewrite HS. simpl.
  destruct (len (h ++ t) <? _ + be h) eqn:E2; [right; by eexists|left].
  pose proof (be_range h) as HR. rewrite len_app in E2.
  destruct (@slice_split SniError t 0 (be h)) as (x0 & x & rest & -> & Hx0 & Hx & _); [lia..|].
  destruct x0; [|rewrite len_cons in Hx0; pose proof (len_nonneg x0); lia]. simpl in *.
  exists x, rest.
  assert (h = be_bytes n (len x)) as Eh.
  { rewrite Hx, Z.sub_0_r. symmetry. apply be_bytes_be. unfold len in Hh. lia. }
  split; [unfold vec; rewrite Eh at 1; by rewrite <- app_assoc|].
  replace (len h) with (Z.of_nat n) in HR by lia. split; [unfold fits; lia|].
  rewrite slice_app by lia. simpl.
  rewrite app_assoc, slice_from_app by (rewrite len_app; lia). done.
Qed.

(** A header of [h] bytes followed by a vector with a [z]-byte length: the
    readers on its encoding, and the decomposition of any long enough
    input. *)
Lemma field_app {E} k z hd x rest h :
  z = Z.of_nat k -> len hd = h -> fits k x ->
  let p := hd ++ vec k x ++ rest in
  @uint_be E z p h = Ret (len x) /\ @slice E p (h + z) (h + z + len x) = Ret x /\
  @slice_from E p (h + z + len x) = Ret rest /\ h + z + len x <= len p.
Proof.
  intros -> <- Hf p. subst p. unfold vec. unfold fits in Hf. split_and!.
  - rewrite <- app_assoc, uint_be_app by (rewrite ?be_bytes_len; lia).
    rewrite be_be_bytes, Z.mod_small by (pose proof (len_nonneg x); lia). done.
  - rewrite <- !app_assoc, app_assoc. apply slice_app; rewrite len_app, be_bytes_len; lia.
  - rewrite (app_assoc hd), slice_from_app by (rewrite !len_app, be_bytes_len; lia). done.
  - rewrite !len_app, be_bytes_len. pose proof (len_nonneg rest). lia.
Qed.

Lemma field_cases {E} k z h p :
  z = Z.of_nat k -> 0 <= h -> h + z <= len p ->
  (exists hd x rest, p = hd ++ vec k x ++ rest /\ len hd = h /\ fits k x) \/
  (exists l, @uint_be E z p h = Ret l /\ len p < h + z + l).
Proof.
  intros -> Hh Hp. destruct (@slice_split E p h (h + Z.of_nat k)) as (hd & n & t & -> & Hhd & Hn & HS); [lia..|].
  pose proof (be_range n) as HR.
  destruct (Z.le_gt_cases (be n) (len t)) as [Hle|Hgt].
  - left. destruct (@slice_split E t 0 (be n)) as (x0 & x & rest & -> & Hx0 & Hx & _); [lia..|].
    destruct x0; [|rewrite len_cons in Hx0; pose proof (len_nonneg x0); lia].
    exists hd, x, rest. split.
    + unfold vec. rewrite <- app_assoc. do 2 f_equal.
      replace (len x) with (be n) by lia. symmetry. apply be_bytes_be. unfold len in Hn. lia.
    + split; [done|]. unfold fits. replace (len n) with (Z.of_nat k) in HR by lia. lia.
  - right. exists (be n). split; [unfold uint_be; by rewrite HS|]. rewrite !len_app. lia.
Qed.

(** ** Lemmas: the loops *)
Lemma name_loop_entry fuel t x rest :
  fits 2 x ->
  name_loop (S fuel) (name_entry t x ++ rest) =
  if bz t =? 0 then Ret x else name_loop fuel rest.
Proof.
  intros Hf. cbn [name_loop].
  destruct (@field_app SniError 2 2 [t] x rest 1 eq_refl eq_refl Hf) as (HU & HX & HR & HL).
  change (name_entry t x ++ rest) with ([t] ++ vec 2 x ++ rest).
  set (p := [t] ++ vec 2 x ++ rest) in *. pose proof (len_nonneg x).
  rewrite (proj2 (Z.ltb_ge (len p) 3)) by lia.
  assert (@index SniError p 0 = Ret t) as -> by (by apply (index_app [])).
  simpl. rewrite HU. simpl. rewrite (proj2 (Z.ltb_ge (len p) (3 + len x))) by lia.
  change (1 + 2) with 3 in *. rewrite HX, HR. simpl. by destruct (bz t =? 0).
Qed.

Lemma name_loop_cases fuel p :
  (exists t x rest, p = name_entry t x ++ rest /\ fits 2 x) \/
  (exists e, name_loop (S fuel) p = Fail e).
Proof.
  cbn [name_loop]. destruct (len p <? 3) eqn:E; [right; by eexists|].
  destruct (@field_cases SniError 2 2 1 p) as [(hd & x & rest & -> & Hh & Hf)|(l & HU & Hl)]; [done|lia..| |].
  - left. destruct hd as [|t [|? l]]; rewrite ?len_cons, ?len_nil in Hh;
      [lia| |pose proof (len_nonneg l); lia]. by exists t, x, rest.
  - right. destruct (@index_ok SniError p 0) as (t & -> & _); [lia|]. simpl. rewrite HU. simpl.
    rewrite (proj2 (Z.ltb_lt _ _)) by lia. by eexists.
Qed.

Lemma bz_zero t : (bz t =? 0) = true <-> t = Byte.x00.
Proof. rewrite Z.eqb_eq. split; [|by intros ->]. intros E. by apply bz_inj. Qed.

Lemma entry_length t x rest : (length rest < length (name_entry t x ++ rest))%nat.
Proof. rewrite length_app. simpl. lia. Qed.

Lemma name_loop_sound fuel p :
  (length p < fuel)%nat ->
  match name_loop fuel p with Ret name => names_sni name p | Fail _ => True | Panic => False end.
Proof.
  revert p. induction fuel as [|fuel IH]; intros p Hp; [lia|].
  destruct (name_loop_cases fuel p) as [(t & x & rest & -> & Hf)|[e ->]]; [|done].
  rewrite name_loop_entry by done. destruct (bz t =? 0) eqn:E.
  - apply bz_zero in E as ->. by constructor.
  - pose proof (entry_length t x rest). specialize (IH rest ltac:(lia)).
    destruct (name_loop fuel rest); try done. constructor; try done. intros ->. by vm_compute in E.
Qed.

Lemma name_loop_complete name p fuel :
  names_sni name p -> (length p < fuel)%nat -> name_loop fuel p = Ret name.
Proof.
  intros Hn. revert fuel. induction Hn as [rest Hf|t x p Ht Hf _ IH]; intros [|fuel] Hl; try lia.
  - by rewrite name_loop_entry.
  - rewrite name_loop_entry by done. pose proof (entry_length t x p).
    destruct (bz t =? 0) eqn:E; [by apply bz_zero in E|]. apply IH. lia.
Qed.

Lemma parseServerNameList_complete name b : list_sni name b -> parseServerNameList b = Ret name.
Proof.
  intros (p & tl & -> & Hf & Hn). unfold parseServerNameList. rewrite read_vec_vec by done.
  cbn [mbind go_bind]. apply name_loop_complete; [done|lia].
Qed.

Lemma parseServerNameList_spec b :
  match parseServerNameList b with Ret name => list_sni name b | Fail _ => True | Panic => False end.
Proof.
  unfold parseServerNameList.
  destruct (read_vec_cases 2 b ErrListShort (ErrOverflow (str "server_name_list")))
    as [(p & tl & Eb & Hf & ->)|[e ->]]; [lia| |done].
  cbn [mbind go_bind]. pose proof (name_loop_sound (S (length p)) p ltac:(lia)) as HS.
  destruct (name_loop _ p); try done. by exists p, tl.
Qed.

Lemma ext_loop_entry fuel t x rest :
  0 <= t < 65536 -> fits 2 x ->
  ext_loop (S fuel) (extension t x ++ rest) =
  if t =? 0 then parseServerNameList x else ext_loop fuel rest.
Proof.
  intros Ht Hf. cbn [ext_loop].
  destruct (@field_app SniError 2 2 (be_bytes 2 t) x rest 2 eq_refl ltac:(by rewrite be_bytes_len) Hf) as (HU & HX & HR & HL).
  unfold extension. rewrite <- app_assoc. set (p := be_bytes 2 t ++ vec 2 x ++ rest) in *.
  pose proof (len_nonneg x). rewrite (proj2 (Z.ltb_ge (len p) 4)) by lia.
  assert (@uint_be SniError 2 p 0 = Ret t) as ->.
  { rewrite (uint_be_app 2 [] (be_bytes 2 t) (vec 2 x ++ rest) 0), be_be_bytes by done.
    f_equal. apply Z.mod_small. change (256 ^ Z.of_nat 2) with 65536. lia. }
  cbn [mbind go_bind]. rewrite HU. cbn [mbind go_bind].
  change (2 + 2) with 4 in *. rewrite (proj2 (Z.ltb_ge (len p) (4 + len x))) by lia.
  rewrite HX, HR. unfold tlsExtServerName. by destruct (t =? 0).
Qed.

Lemma ext_loop_cases fuel p :
  (exists t x rest, p = extension t x ++ rest /\ 0 <= t < 65536 /\ fits 2 x) \/
  (exists e, ext_loop (S fuel) p = Fail e).
Proof.
  cbn [ext_loop]. destruct (len p <? 4) eqn:E; [right; by eexists|].
  destruct (@field_cases SniError 2 2 2 p) as [(hd & x & rest & -> & Hh & Hf)|(l & HU & Hl)]; [done|lia..| |].
  - left. exists (be hd), x, rest. split.
    + unfold extension. rewrite <- app_assoc. f_equal. symmetry. apply be_bytes_be. unfold len in Hh. lia.
    + pose proof (be_range hd) as HR. rewrite Hh in HR. split; [exact HR|done].
  - right. destruct (@uint_be_ok SniError 2 p 0) as (t & -> & _); [lia..|]. cbn [mbind go_bind]. rewrite HU.
    cbn [mbind go_bind]. rewrite (proj2 (Z.ltb_lt _ _)) by lia. by eexists.
Qed.

Lemma extension_length t x rest : (length rest < length (extension t x ++ rest))%nat.
Proof. rewrite length_app. unfold extension, vec. rewrite !length_app. simpl. lia. Qed.

Lemma ext_loop_sound fuel p :
  (length p < fuel)%nat ->
  match ext_loop fuel p with Ret name => exts_sni name p | Fail _ => True | Panic => False end.
Proof.
  revert p. induction fuel as [|fuel IH]; intros p Hp; [lia|].
  destruct (ext_loop_cases fuel p) as [(t & x & rest & -> & Ht & Hf)|[e ->]]; [|done].
  rewrite ext_loop_entry by done. destruct (Z.eqb_spec t 0) as [->|Hne].
  - pose proof (parseServerNameList_spec x) as HS. destruct (parseServerNameList x); try done. by constructor.
  - pose proof (extension_length t x rest). specialize (IH rest ltac:(lia)).
    destruct (ext_loop fuel rest); try done. constructor; try done. lia.
Qed.

Lemma ext_loop_complete name p fuel :
  exts_sni name p -> (length p < fuel)%nat -> ext_loop fuel p = Ret name.
Proof.
  intros Hn. revert fuel. induction Hn as [b rest Hb Hf|t x p Ht Hf _ IH]; intros [|fuel] Hl; try lia.
  - rewrite ext_loop_entry by (done || lia). simpl. by apply parseServerNameList_complete.
  - rewrite ext_loop_entry by (done || lia). rewrite (proj2 (Z.eqb_neq _ _)) by lia.
    pose proof (extension_length t x p). apply IH. lia.
Qed.

(** ** Lemmas: the handshake *)
Lemma extract_complete name b : hello_sni name b -> extractSNIFromHandshake b = Ret name.
Proof.
  intros [fixed sid cs comp exts tl trailer body H34 Hsid Hcs Hcomp Hexts Hsni Hb Hf].
  unfold extractSNIFromHandshake.
  destruct (@field_app SniError 3 3 [Byte.x01] body trailer 1 eq_refl eq_refl Hf) as (HU & HX & _ & HL).
  change (Byte.x01 :: vec 3 body ++ trailer) with ([Byte.x01] ++ vec 3 body ++ trailer).
  set (p := [Byte.x01] ++ vec 3 body ++ trailer) in *. pose proof (len_nonneg body).
  rewrite (proj2 (Z.ltb_ge (len p) 4)) by lia.
  assert (@index SniError p 0 = Ret Byte.x01) as -> by (by apply (index_app [])).
  cbn [mbind go_bind]. change (bz Byte.x01 =? tlsHandshakeClientHello) with true. cbn [negb].
  rewrite HU. cbn [mbind go_bind]. rewrite (proj2 (Z.ltb_ge (len p) (len body + 4))) by lia.
  change (1 + 3) with 4 in *. rewrite HX. cbn [mbind go_bind].
  assert (34 <= len body) by (rewrite Hb, len_app; pose proof (len_nonneg (vec 1 sid ++ vec 2 cs ++ vec 1 comp ++ vec 2 exts ++ tl)); lia).
  rewrite (proj2 (Z.ltb_ge (len body) 34)) by lia.
  rewrite Hb, slice_from_app by done. cbn [mbind go_bind].
  rewrite !read_vec_vec by done. cbn [mbind go_bind].
  rewrite !read_vec_vec by done. cbn [mbind go_bind].
  rewrite !read_vec_vec by done. cbn [mbind go_bind].
  rewrite !read_vec_vec by done. cbn [mbind go_bind].
  apply ext_loop_complete; [done|lia].
Qed.

Lemma extract_sound b :
  match extractSNIFromHandshake b with Ret name => hello_sni name b | Fail _ => True | Panic => False end.
Proof.
  unfold extractSNIFromHandshake. destruct (len b <? 4) eqn:E4; [done|].
  destruct (@field_cases SniError 3 3 1 b) as [(hd & body & trailer & -> & Hh & Hf)|(l & HU & Hl)]; [done|lia..| |].
  2: { destruct (@index_ok SniError b 0) as (b0 & -> & _); [lia|]. cbn [mbind go_bind].
       destruct (negb _); [done|]. rewrite HU. cbn [mbind go_bind].
       by rewrite (proj2 (Z.ltb_lt (len b) (l + 4))) by lia. }
  destruct hd as [|t [|? l]]; rewrite ?len_cons, ?len_nil in Hh; [lia| |pose proof (len_nonneg l); lia].
  destruct (@field_app SniError 3 3 [t] body trailer 1 eq_refl eq_refl Hf) as (HU & HX & _ & HL).
  set (p := [t] ++ vec 3 body ++ trailer) in *. pose proof (len_nonneg body).
  assert (@index SniError p 0 = Ret t) as -> by (by apply (index_app [])). cbn [mbind go_bind].
  destruct (negb (bz t =? _)) eqn:Et; [done|].
  assert (t = Byte.x01) as -> by (apply bz_inj; unfold tlsHandshakeClientHello in Et; change (bz Byte.x01) with 1; lia).
  rewrite HU. cbn [mbind go_bind]. rewrite (proj2 (Z.ltb_ge (len p) (len body + 4))) by lia.
  change (1 + 3) with 4 in *. rewrite HX. cbn [mbind go_bind]. clear HU HX HL E4 Et Hh.
  destruct (len body <? 34) eqn:E34; [done|].
  destruct (@slice_split SniError body 0 34) as (x0 & fixed & q & -> & Hx0 & H34 & _); [lia..|].
  destruct x0; [|rewrite len_cons in Hx0; pose proof (len_nonneg x0); lia]. simpl app in *.
  rewrite slice_from_app by lia. cbn [mbind go_bind].
  destruct (read_vec_cases 1 q (ErrMissing (str "session_id")) (ErrOverflow (str "session_id")))
    as [(sid & q1 & -> & Hsid & ->)|[e ->]]; [lia| |done]. cbn [mbind go_bind].
  destruct (read_vec_cases 2 q1 (ErrMissing (str "cipher_suites")) (ErrOverflow (str "cipher_suites")))
    as [(cs & q2 & -> & Hcs & ->)|[e ->]]; [lia| |done]. cbn [mbind go_bind].
  destruct (read_vec_cases 1 q2 (ErrMissing (str "compression")) (ErrOverflow (str "compression")))
    as [(comp & q3 & -> & Hcomp & ->)|[e ->]]; [lia| |done]. cbn [mbind go_bind].
  destruct (read_vec_cases 2 q3 ErrNoSNI (ErrOverflow (str "extensions")))
    as [(exts & tl & -> & Hexts & ->)|[e ->]]; [lia| |done]. cbn [mbind go_bind].
  pose proof (ext_loop_sound (S (length exts)) exts ltac:(lia)) as HS.
  destruct (ext_loop _ exts) as [|e|name]; try done.
  eapply (hello_intro name fixed sid cs comp exts tl trailer); done.
Qed.
Local Close Scope Z_scope.

(** ** server.go: the connection handler *)
Record Config := {
  Listen : bytes; PanelDomain : bytes; PanelBackend : bytes;
  DialTimeout : Z; HandshakePeekTimeout : Z; MaxConcurrent : Z; cfgGate : option Gate
}.

Definition second : Z := 1000000000.

(** The defaults that [New] fills in. *)
Definition New (cfg : Config) : Config :=
  {| Listen := if Listen cfg == [] then str ":443" else Listen cfg;
     PanelDomain := PanelDomain cfg; PanelBackend := PanelBackend cfg;
     DialTimeout := if (DialTimeout cfg <=? 0)%Z then (5 * second)%Z else DialTimeout cfg;
     HandshakePeekTimeout :=
       if (HandshakePeekTimeout cfg <=? 0)%Z then (3 * second)%Z else HandshakePeekTimeout cfg;
     MaxConcurrent := if (MaxConcurrent cfg <=? 0)%Z then 2048%Z else MaxConcurrent cfg;
     cfgGate := cfgGate cfg |}.

(** What a handler does to the outside, in order. *)
Inductive Event :=
| EvPeek                          (* reads the first record *)
| EvLocalDial (address : bytes)   (* direct dial of the panel backend *)
| EvPublicDial (ip port : bytes)  (* dial through netguard *)
| EvWrite (data : bytes)          (* replay to the upstream *)
| EvPipe (data : bytes)           (* the rest of the client's bytes, copied upstream *)
| EvCloseUpstream
| EvRecovered
| EvCloseClient.

Section handler.
Context `{Unicode} (cfg : Config).
Context {Conn : Type} (LookupIPAddr : bytes -> option (list bytes)).
Context (DialContext : bytes -> bytes -> option Conn) (DialLocal : bytes -> option Conn).
Context (WriteOk : Conn -> bytes -> bool).

(** [sni == domain || HasSuffix(sni, "."+domain)] on a configured domain. *)
Definition in_panel (sni : bytes) : bool :=
  let panelDomain := ToLower (TrimSpace (PanelDomain cfg)) in
  (panelDomain != []) && ((sni == panelDomain) || HasSuffix sni (str "." ++ panelDomain)).

Definition canonical_sni (sni : bytes) : bytes := ToLower (TrimRight sni (str ".")).

(** [selectUpstream]. *)
Definition selectUpstream (sni : bytes) : bytes * bool :=
  if sni == [] then ([], false)
  else
    let sni := canonical_sni sni in
    if bool_decide (colon ∈ sni) then ([], false)
    else match ParseIP sni with
         | Some _ => ([], false)
         | None =>
             if in_panel sni then (PanelBackend cfg, true)
             else (JoinHostPort sni (str "443"), false)
         end.

(** [dialUpstream], with the dials it makes. *)
Definition dialUpstream (upstream : bytes) (isLocal : bool) : option Conn * list Event :=
  if isLocal then (DialLocal upstream, [EvLocalDial upstream])
  else
    let '(r, trace) := DialPublicContext LookupIPAddr DialContext upstream in
    (match r with Ok c => Some c | Err _ => None end,
     map (fun d : Dial => EvPublicDial d.1 d.2) trace).

(** [handleConn]: the deferred calls run on every path, a panic included. *)
Definition handleConn (remote : NetAddr) (stream : bytes) : list Event :=
  if (cfgGate cfg != None) && negb (Allow (cfgGate cfg) remote) then [EvCloseClient]
  else
    match peekSNI stream with
    | (Panic, _, _) => [EvPeek; EvRecovered; EvCloseClient]
    | (Fail _, _, _) => [EvPeek; EvCloseClient]
    | (Ret sni, raw, rest) =>
        let '(upstream, isLocal) := selectUpstream sni in
        if upstream == [] then [EvPeek; EvCloseClient]
        else
          let '(conn, dials) := dialUpstream upstream isLocal in
          match conn with
          | None => EvPeek :: dials ++ [EvCloseClient]
          | Some c =>
              if WriteOk c raw
              then EvPeek :: dials ++ [EvWrite raw; EvPipe rest; EvCloseUpstream; EvCloseClient]
              else EvPeek :: dials ++ [EvWrite raw; EvCloseUpstream; EvCloseClient]
          end
    end.
End handler.

(** The bytes a handler sends upstream. *)
Definition sent_upstream (es : list Event) : bytes :=
  concat (map (fun e => match e with EvWrite d | EvPipe d => d | _ => [] end) es).

(** ** server.go: accept loop and shutdown

    The concurrent part as a state machine over the shared counters: [sem]
    is the number of tokens in the semaphore channel, [wg] the wait group,
    [handlers] and [loops] the goroutines alive. *)
Record Srv := {
  listening : bool; closed : bool; sem : Z; wg : Z; handlers : Z; loops : Z; refused : Z
}.

Definition srv_init : Srv :=
  {| listening := false; closed := false; sem := 0; wg := 0; handlers := 0; loops := 0; refused := 0 |}.

Inductive SrvEvent :=
| DoStart            (* Start after a successful bind *)
| DoAccept           (* the loop accepts a connection and tries the semaphore *)
| DoAcceptError      (* Accept fails: the loop ends when the server is closed *)
| DoHandlerReturn    (* a handler goroutine ends and runs its deferred calls *)
| DoShutdown         (* Shutdown: closed.Store(true) *)
| DoCloseListener.   (* Shutdown: the listener's Close *)

Definition srv_step (cap : Z) (s : Srv) (e : SrvEvent) : option Srv :=
  match e with
  | DoStart =>
      Some {| listening := true; closed := closed s; sem := sem s; wg := wg s + 1;
              handlers := handlers s; loops := loops s + 1; refused := refused s |}
  | DoAccept =>
      if negb (0 <? loops s)%Z || negb (listening s) then None
      else if (sem s <? cap)%Z
      then Some {| listening := listening s; closed := closed s; sem := sem s + 1; wg := wg s + 1;
                   handlers := handlers s + 1; loops := loops s; refused := refused s |}
      else Some {| listening := listening s; closed := closed s; sem := sem s; wg := wg s;
                   handlers := handlers s; loops := loops s; refused := refused s + 1 |}
  | DoAcceptError =>
      if negb (0 <? loops s)%Z then None
      else if closed s || negb (listening s)
      then Some {| listening := listening s; closed := closed s; sem := sem s; wg := wg s - 1;
                   handlers := handlers s; loops := loops s - 1; refused := refused s |}
      else Some s
  | DoHandlerReturn =>
      if negb (0 <? handlers s)%Z then None
      else Some {| listening := listening s; closed := closed s; sem := sem s - 1; wg := wg s - 1;
                   handlers := handlers s - 1; loops := loops s; refused := refused s |}
  | DoShutdown =>
      Some {| listening := listening s; closed := true; sem := sem s; wg := wg s;
              handlers := handlers s; loops := loops s; refused := refused s |}
  | DoCloseListener =>
      if negb (closed s) then None
      else Some {| listening := false; closed := closed s; sem := sem s; wg := wg s;
                   handlers := handlers s; loops := loops s; refused := refused s |}
  end.

Inductive srv_reach (cap : Z) : Srv -> Prop :=
| reach_init : srv_reach cap srv_init
| reach_step s e s' : srv_reach cap s -> srv_step cap s e = Some s' -> srv_reach cap s'.

(** ** What a client stream asks for

    [names stream sni]: the stream starts with one TLS handshake record, of at
    most the size the code takes, whose ClientHello names [sni]. *)
Definition hello_record (sni raw : bytes) : Prop :=
  exists v1 v2 body, raw = Byte.x16 :: v1 :: v2 :: vec 2 body /\
    ((0 < len body)%Z /\ (len body <= maxTLSRecordSize)%Z) /\ hello_sni sni body.
Definition names (stream sni : bytes) : Prop :=
  exists raw rest, stream = raw ++ rest /\ hello_record sni raw.

(** A name the forwarder takes: not empty, without a port, not an address. *)
Definition dialable `{Unicode} (sni : bytes) : Prop :=
  sni <> [] /\ (colon ∉ canonical_sni sni) /\ ParseIP (canonical_sni sni) = None.

Definition is_dial (e : Event) : bool := match e with EvLocalDial _ | EvPublicDial _ _ => true | _ => false end.
Definition dials_of (es : list Event) : list Event := filter (fun e => is_dial e = true) es.

(** ** Lemmas: handler *)
Local Open Scope Z_scope.
Lemma peekSNI_stream stream sni raw rest :
  peekSNI stream = (Ret sni, raw, rest) -> stream = raw ++ rest /\ hello_record sni raw.
Proof.
  unfold peekSNI, tlsHeaderLen. destruct (Z.ltb_spec (len stream) 5) as [|HL]; [done|].
  destruct stream as [|b0 [|b1 [|b2 [|b3 [|b4 rest0]]]]]; try (unfold len in HL; cbn in HL; lia).
  change (take 5 (b0 :: b1 :: b2 :: b3 :: b4 :: rest0)) with [b0; b1; b2; b3; b4].
  change (drop 5 (b0 :: b1 :: b2 :: b3 :: b4 :: rest0)) with rest0.
  change (@index SniError [b0; b1; b2; b3; b4] 0) with (@Ret SniError byte b0).
  change (@uint_be SniError 2 [b0; b1; b2; b3; b4] 3) with (@Ret SniError Z (be [b3; b4])). cbv beta iota.
  destruct (Z.eqb_spec (bz b0) tlsRecordTypeHandshake) as [E0|]; cbn [negb]; [|done].
  destruct (_ || _) eqn:ER; [done|]. apply orb_false_iff in ER as [E1%Z.leb_gt E2%Z.ltb_ge].
  destruct (Z.ltb_spec (len rest0) (be [b3; b4])) as [|E3]; [done|].
  intros [= HE <- <-]. set (n := be [b3; b4]) in *. split; [cbn [app]; by rewrite take_drop|].
  assert (len (take (Z.to_nat n) rest0) = n) as Hn by (unfold len in *; rewrite length_take; lia).
  exists b1, b2, (take (Z.to_nat n) rest0). split; [|split; [by rewrite Hn|]].
  - unfold vec. rewrite Hn. subst n. rewrite (be_bytes_be 2 [b3; b4] eq_refl). cbn [app].
    assert (b0 = Byte.x16) as -> by (apply bz_inj; exact E0). done.
  - pose proof (extract_sound (take (Z.to_nat n) rest0)) as HS. by rewrite HE in HS.
Qed.

Lemma peekSNI_complete sni raw rest : hello_record sni raw -> peekSNI (raw ++ rest) = (Ret sni, raw, rest).
Proof.
  intros (v1 & v2 & body & -> & HB & HH). unfold vec.
  assert (len (be_bytes 2 (len body)) = 2) as HL2 by apply be_bytes_len.
  destruct (be_bytes 2 (len body)) as [|b3 [|b4 [|? l]]] eqn:EB; rewrite ?len_cons, ?len_nil in HL2; try lia;
    [|pose proof (len_nonneg l); lia].
  unfold peekSNI, tlsHeaderLen. rewrite (proj2 (Z.ltb_ge _ _)) by (cbn [app]; rewrite !len_cons; pose proof (len_nonneg (body ++ rest)); lia).
  cbn [app]. change (take 5 (Byte.x16 :: v1 :: v2 :: b3 :: b4 :: body ++ rest)) with [Byte.x16; v1; v2; b3; b4].
  change (drop 5 (Byte.x16 :: v1 :: v2 :: b3 :: b4 :: body ++ rest)) with (body ++ rest).
  change (@index SniError [Byte.x16; v1; v2; b3; b4] 0) with (@Ret SniError byte Byte.x16).
  change (@uint_be SniError 2 [Byte.x16; v1; v2; b3; b4] 3) with (@Ret SniError Z (be [b3; b4])). cbv beta iota.
  assert (be [b3; b4] = len body) as ->.
  { rewrite <- EB, be_be_bytes. apply Z.mod_small. unfold maxTLSRecordSize in HB. change (256 ^ Z.of_nat 2) with 65536. lia. }
  change (bz Byte.x16 =? tlsRecordTypeHandshake) with true. cbn [negb].
  rewrite (proj2 (Z.leb_gt _ _)), (proj2 (Z.ltb_ge _ _)) by lia. cbn [orb].
  rewrite (proj2 (Z.ltb_ge _ _)) by (rewrite len_app; pose proof (len_nonneg rest); lia).
  unfold len. rewrite Nat2Z.id, take_app_length, drop_app_length. rewrite (extract_complete sni body HH). done.
Qed.

Lemma names_unique stream sni sni' : names stream sni -> names stream sni' -> sni = sni'.
Proof.
  intros (raw & rest & -> & H1) (raw' & rest' & E & H2). pose proof (peekSNI_complete _ _ rest H1) as P1.
  rewrite E, (peekSNI_complete _ _ rest' H2) in P1. by injection P1.
Qed.
Local Close Scope Z_scope.

Lemma peekSNI_no_panic stream : (peekSNI stream).1.1 <> Panic.
Proof.
  unfold peekSNI, tlsHeaderLen. destruct (Z.ltb_spec (len stream) 5); [done|].
  assert (len (take 5 stream) = 5)%Z as H5 by (unfold len in *; rewrite length_take; lia).
  destruct (@index_ok SniError (take 5 stream) 0) as (h & -> & _); [lia|].
  destruct (@uint_be_ok SniError 2 (take 5 stream) 3) as (n & -> & _); [lia..|].
  destruct (negb _); [done|]. destruct (_ || _); [done|]. destruct (_ <? n)%Z; [done|].
  cbn [fst]. pose proof (extract_sound (take (Z.to_nat n) (drop 5 stream))) as HS.
  destruct (extractSNIFromHandshake _); done.
Qed.

Section handler_lemmas.
Context `{Unicode} (cfg : Config).
Context {Conn : Type} (LookupIPAddr : bytes -> option (list bytes)).
Context (DialContext : bytes -> bytes -> option Conn) (DialLocal : bytes -> option Conn).
Context (WriteOk : Conn -> bytes -> bool).

Lemma split_port host port h p :
  colon ∉ port -> SplitHostPort (JoinHostPort host port) = Some (h, p) -> p = port.
Proof.
  intros Hp. assert (exists pre, JoinHostPort host port = pre ++ colon :: port) as [pre ->].
  { unfold JoinHostPort. case_bool_decide; [|by eexists].
    exists (lbrack :: host ++ [rbrack]). simpl. by rewrite <- app_assoc. }
  unfold SplitHostPort. rewrite LastIndexByte_app by done. cbn [mbind option_bind].
  destruct (if bool_decide _ then _ else _) as [[[h' j] k]|]; [|done]. cbn [mbind option_bind].
  repeat (case_bool_decide; [done|]). intros [= _ <-].
  replace (S (length pre)) with (length (pre ++ [colon])) by (rewrite length_app; simpl; lia).
  change (pre ++ colon :: port) with (pre ++ [colon] ++ port). by rewrite app_assoc, drop_app_length.
Qed.

(** Every dial of an event list obeys the policy for the selected SNI. *)
Definition dial_ok (sni : bytes) (e : Event) : Prop :=
  match e with
  | EvLocalDial a => a = PanelBackend cfg /\ in_panel cfg (canonical_sni sni) = true
  | EvPublicDial ip port => IsPublicIP ip = true /\ port = str "443" /\ in_panel cfg (canonical_sni sni) = false
  | _ => True
  end.

Lemma dialUpstream_ok sni upstream isLocal conn dials :
  selectUpstream cfg sni = (upstream, isLocal) -> upstream <> [] ->
  dialUpstream LookupIPAddr DialContext DialLocal upstream isLocal = (conn, dials) ->
  Forall (dial_ok sni) dials /\ sent_upstream dials = [].
Proof.
  unfold selectUpstream, dialUpstream. case_bool_decide; [by intros [= <- _]|].
  destruct (bool_decide (colon ∈ _)); [by intros [= <- _]|].
  destruct (ParseIP _); [by intros [= <- _]|].
  destruct (in_panel cfg (canonical_sni sni)) eqn:EP; intros [= <- <-] _.
  - intros [= _ <-]. split; [|done]. by apply Forall_singleton.
  - destruct (DialPublicContext _ _ _) as [r trace] eqn:ED. intros [= _ <-].
    assert (trace = [] \/ exists host port ips, SplitHostPort (JoinHostPort (canonical_sni sni) (str "443")) = Some (host, port) /\
      trace `prefix_of` map (fun ip => (ip, port)) ips /\ Forall (fun ip => IsPublicIP ip = true) ips) as [->|HT].
    { unfold DialPublicContext in ED. destruct (SplitHostPort _) as [[host port]|]; [|left; by injection ED].
      destruct (ResolvePublic _ host) as [e|ips] eqn:ER; [left; by injection ED|right].
      apply dial_loop_trace in ED as (tried & -> & [k Hk] & _). exists host, port, ips.
      split; [done|]. split; [rewrite Hk, map_app; by exists (map (fun ip => (ip, port)) k)|].
      by apply ResolvePublic_public in ER as (_ & ? & _). }
    + done.
    + destruct HT as (host & port & ips & HS & [k Hk] & HF).
      apply split_port in HS as ->; [|by apply (bool_decide_unpack _)].
      assert (Forall (fun d : Dial => IsPublicIP d.1 = true /\ d.2 = str "443") trace) as HT.
      { assert (Forall (fun d : Dial => IsPublicIP d.1 = true /\ d.2 = str "443") (map (fun ip => (ip, str "443")) ips)) as HA
          by (apply Forall_map; eapply Forall_impl; [exact HF|done]).
        rewrite Hk, Forall_app in HA. tauto. }
      split.
      * apply Forall_map. eapply Forall_impl; [exact HT|]. intros [ip p] [? ?]. simpl. done.
      * clear. induction trace as [|d trace IH]; [done|]. exact IH.
Qed.

Lemma dialUpstream_events up loc conn dials :
  dialUpstream LookupIPAddr DialContext DialLocal up loc = (conn, dials) ->
  (forall d, EvPipe d ∉ dials) /\ EvRecovered ∉ dials.
Proof.
  unfold dialUpstream. destruct loc; [intros [= _ <-]; split; set_solver|].
  destruct (DialPublicContext _ _ _) as [r trace]. intros [= _ <-].
  split; [intros d|]; rewrite list_elem_of_fmap; by intros ([? ?] & ? & _).
Qed.
End handler_lemmas.

Lemma sent_app es fs : sent_upstream (es ++ fs) = sent_upstream es ++ sent_upstream fs.
Proof. unfold sent_upstream. by rewrite map_app, concat_app. Qed.

(** *** The handler, path by path *)

(** A dial is the one the policy has for the name in the stream. *)
Definition dial_asked `{Unicode} (cfg : Config) (stream : bytes) (e : Event) : Prop :=
  is_dial e = true -> exists sni, names stream sni /\ dial_ok cfg sni e.

(** The name in the stream accounts for all dials, the upstream gets the
    client's bytes in order, and the client socket is closed last. *)
Definition conn_ok `{Unicode} (cfg : Config) (stream : bytes) (es : list Event) : Prop :=
  Forall (dial_asked cfg stream) es /\ sent_upstream es `prefix_of` stream /\
  ((exists d, EvPipe d ∈ es) -> sent_upstream es = stream) /\
  last es = Some EvCloseClient /\ EvRecovered ∉ es.

Lemma conn_ok_plain `{Unicode} cfg stream es :
  es ∈ [[EvCloseClient]; [EvPeek; EvCloseClient]] -> conn_ok cfg stream es.
Proof.
  intros Hl. repeat (apply elem_of_cons in Hl as [->|Hl]); [..|by apply not_elem_of_nil in Hl];
    (split_and!; [by repeat constructor|by eexists| |done|set_solver]; intros [d Hd]; set_solver).
Qed.

Lemma conn_ok_dialed `{Unicode} cfg sni dials tl raw rest :
  names (raw ++ rest) sni -> Forall (dial_ok cfg sni) dials -> sent_upstream dials = [] ->
  EvRecovered ∉ dials -> (forall d, EvPipe d ∉ dials) ->
  tl ∈ [[EvCloseClient]; [EvWrite raw; EvPipe rest; EvCloseUpstream; EvCloseClient];
        [EvWrite raw; EvCloseUpstream; EvCloseClient]] ->
  conn_ok cfg (raw ++ rest) (EvPeek :: dials ++ tl).
Proof.
  intros Hsni HF HN HR HP Hl. unfold conn_ok.
  assert (Forall (dial_asked cfg (raw ++ rest)) dials) as HF' by (eapply Forall_impl; [exact HF|]; intros e He _; by exists sni).
  change (EvPeek :: dials ++ tl) with ([EvPeek] ++ dials ++ tl). rewrite !sent_app, HN.
  repeat (apply elem_of_cons in Hl as [->|Hl]); [..|by apply not_elem_of_nil in Hl];
    unfold sent_upstream; simpl; rewrite ?app_nil_r;
    (split_and!; [constructor; [done|]; apply Forall_app; split; [done|by repeat constructor]|
      by eexists + by (exists rest) + (exists []; by rewrite app_nil_r)| |
      by rewrite last_cons, last_app|
      rewrite not_elem_of_cons, not_elem_of_app; split; [done|]; split; [done|set_solver]]);
    try done; intros [d Hd]; apply elem_of_cons in Hd as [?|[?|Hd]%elem_of_app]; try done;
    [by destruct (HP d)|set_solver|by destruct (HP d)|set_solver].
Qed.

Lemma handleConn_ok `{Unicode} cfg {Conn} Lookup (Dial : bytes -> bytes -> option Conn)
    DialLocal WriteOk remote stream :
  conn_ok cfg stream (handleConn cfg Lookup Dial DialLocal WriteOk remote stream).
Proof.
  unfold handleConn. destruct (_ && _); [apply conn_ok_plain; set_solver|].
  destruct (peekSNI stream) as [[[|e|sni] raw] rest] eqn:EP.
  - by pose proof (peekSNI_no_panic stream) as HN; rewrite EP in HN.
  - apply conn_ok_plain. set_solver.
  - apply peekSNI_stream in EP as [-> HH]. assert (names (raw ++ rest) sni) as Hsni by by exists raw, rest. destruct (selectUpstream cfg sni) as [up loc] eqn:EU.
    case_bool_decide as Hup; [apply conn_ok_plain; set_solver|].
    destruct (dialUpstream _ _ _ up loc) as [conn dials] eqn:ED.
    pose proof (dialUpstream_ok cfg Lookup Dial DialLocal sni up loc conn dials EU Hup ED) as [HF HN].
    pose proof (dialUpstream_events _ _ _ _ _ _ _ ED) as [HP HR].
    destruct conn as [c|]; [destruct (WriteOk c raw)|]; eapply conn_ok_dialed; try done; set_solver.
Qed.

Lemma dials_of_app es fs : dials_of (es ++ fs) = dials_of es ++ dials_of fs.
Proof. apply filter_app. Qed.

Lemma dials_of_public (ds : list Dial) :
  dials_of (map (fun d => EvPublicDial d.1 d.2) ds) = map (fun d => EvPublicDial d.1 d.2) ds.
Proof. induction ds as [|d ds IH]; [done|]. unfold dials_of in *. cbn [map]. by rewrite filter_cons_True, IH. Qed.

Lemma dials_of_handler (ds : list Dial) tl :
  dials_of tl = [] -> dials_of (EvPeek :: map (fun d => EvPublicDial d.1 d.2) ds ++ tl) = map (fun d => EvPublicDial d.1 d.2) ds.
Proof.
  intros Ht. change (EvPeek :: ?l) with ([EvPeek] ++ l). rewrite !dials_of_app, dials_of_public, Ht. by rewrite app_nil_r.
Qed.

Lemma JoinHostPort_nonempty h p : JoinHostPort h p <> [].
Proof. unfold JoinHostPort. destruct (bool_decide _); [done|]. by destruct h. Qed.

(** The dials for a name that can be dialled. *)
Lemma handleConn_dials `{Unicode} cfg {Conn} Lookup (Dial : bytes -> bytes -> option Conn) DialLocal WriteOk remote stream sni :
  (cfgGate cfg != None) && negb (Allow (cfgGate cfg) remote) = false -> names stream sni -> dialable sni ->
  dials_of (handleConn cfg Lookup Dial DialLocal WriteOk remote stream) =
    if in_panel cfg (canonical_sni sni) then (if PanelBackend cfg == [] then [] else [EvLocalDial (PanelBackend cfg)])
    else map (fun d => EvPublicDial d.1 d.2) (DialPublicContext Lookup Dial (JoinHostPort (canonical_sni sni) (str "443"))).2.
Proof.
  intros Hg (raw & rest & -> & HH) (Hne & Hc & HP). unfold handleConn. rewrite Hg, (peekSNI_complete _ _ rest HH).
  unfold selectUpstream. rewrite (bool_decide_eq_false_2 (sni = [])), (bool_decide_eq_false_2 (colon ∈ _)), HP by done.
  destruct (in_panel cfg (canonical_sni sni)).
  - destruct (bool_decide (PanelBackend cfg = [])); [done|]. cbn [dialUpstream].
    destruct (DialLocal (PanelBackend cfg)) as [c|]; [|done]. by destruct (WriteOk c raw).
  - rewrite bool_decide_eq_false_2 by (by apply JoinHostPort_nonempty).
    unfold dialUpstream. destruct (DialPublicContext _ _ _) as [r trace]. cbn [snd].
    by destruct r as [e|c]; [|destruct (WriteOk c raw)]; apply dials_of_handler.
Qed.

(** Running a schedule of events reaches a state. *)
Definition srv_run (cap : Z) (es : list SrvEvent) : option Srv :=
  foldl (fun o e => s ← o; srv_step cap s e) (Some srv_init) es.

Lemma srv_run_reach cap es s : srv_run cap es = Some s -> srv_reach cap s.
Proof.
  unfold srv_run. revert s. induction es as [|e es IH] using rev_ind; intros s.
  - intros [= <-]. constructor.
  - rewrite foldl_app. simpl. destruct (foldl _ _ es) as [s'|] eqn:E; [|done]. simpl.
    intros HS. econstructor; [by apply IH|done].
Qed.

(** The goroutines alive are what the counters say. *)
Lemma srv_reach_inv cap s :
  (0 <= cap)%Z -> srv_reach cap s ->
  sem s = handlers s /\ (0 <= handlers s <= cap)%Z /\ (0 <= loops s)%Z /\ wg s = (handlers s + loops s)%Z.
Proof.
  intros Hc. induction 1 as [|s e s' _ IH HS]; [simpl; lia|].
  destruct e; simpl in HS; repeat case_match; simplify_eq/=; try lia.
Qed.

(** ** Properties *)

(** C5: the ClientHello parser is exact: it returns a name for precisely the
    handshake messages whose first server-name extension carries that name
    as its first host_name entry (any session id, ciphers, compression
    methods and other extensions around it), fails on every other input, and
    never indexes out of range. *)
Theorem extractSNI_exact b name :
  (extractSNIFromHandshake b = Ret name <-> hello_sni name b) /\
  extractSNIFromHandshake b <> Panic.
Proof.
  split; [split|].
  - intros E. pose proof (extract_sound b) as HS. by rewrite E in HS.
  - apply extract_complete.
  - intros E. pose proof (extract_sound b) as HS. by rewrite E in HS.
Qed.

(** C6: what one connection can make the forwarder do, for every client
    stream, resolver answer and dial outcome.  A peer the gate refuses gets
    its socket closed and nothing else.  Every dial is the one the policy has
    for the name the stream's ClientHello carries: the panel backend when that
    name is in the panel domain, else a public address on port 443.  And for a
    name that can be dialled it is made: the panel backend, once, for a panel
    name; for any other, the dials of netguard for that name on port 443.  The
    upstream receives a prefix of the client's own bytes, all of them once the
    pipe has drained, and the client socket is closed last; no panic is ever
    recovered. *)
Theorem handleConn_policy `{Unicode} cfg {Conn} Lookup (Dial : bytes -> bytes -> option Conn)
    DialLocal WriteOk remote stream :
  let es := handleConn cfg Lookup Dial DialLocal WriteOk remote stream in
  (cfgGate cfg <> None -> Allow (cfgGate cfg) remote = false -> es = [EvCloseClient]) /\
  (forall e, e ∈ es -> is_dial e = true -> exists sni, names stream sni /\ dial_ok cfg sni e) /\
  (cfgGate cfg = None \/ Allow (cfgGate cfg) remote = true -> forall sni, names stream sni -> dialable sni ->
    dials_of es =
      if in_panel cfg (canonical_sni sni) then (if PanelBackend cfg == [] then [] else [EvLocalDial (PanelBackend cfg)])
      else map (fun d => EvPublicDial d.1 d.2) (DialPublicContext Lookup Dial (JoinHostPort (canonical_sni sni) (str "443"))).2) /\
  sent_upstream es `prefix_of` stream /\
  ((exists d, EvPipe d ∈ es) -> sent_upstream es = stream) /\
  last es = Some EvCloseClient /\ EvRecovered ∉ es.
Proof.
  intros es. pose proof (handleConn_ok cfg Lookup Dial DialLocal WriteOk remote stream) as [HF HC]. fold es in HF, HC.
  split; [|split; [|split; [|exact HC]]].
  - intros Hg Ha. subst es. unfold handleConn. by rewrite bool_decide_eq_false_2, Ha.
  - intros e He. rewrite Forall_forall in HF. by apply HF.
  - intros Hg sni Hn Hd. apply handleConn_dials; [|done..]. destruct Hg as [->| ->]; [done|by rewrite andb_false_r].
Qed.

(** in every reachable state of the accept loop, with any interleaving
    of starts, accepts, handler returns and shutdowns, the semaphore counts
    the handlers alive, which never exceed the configured cap, and the wait
    group counts every goroutine, so that Shutdown's wait ends exactly when
    no handler and no loop is left. *)
Theorem accept_cap cap s :
  (0 <= cap)%Z -> srv_reach cap s ->
  sem s = handlers s /\ (0 <= handlers s <= cap)%Z /\
  (wg s = 0 <-> handlers s = 0 /\ loops s = 0)%Z.
Proof. intros Hc HR. pose proof (srv_reach_inv cap s Hc HR). lia. Qed.

(** ** Witnesses *)

(** A TLS 1.2-style hello naming a.example, with one extension before the
    server name. *)
Definition demo_hello : bytes :=
  Byte.x01 :: vec 3 (replicate 34 Byte.x07 ++ vec 1 (str "sid") ++ vec 2 [Byte.x13; Byte.x01] ++
    vec 1 [Byte.x00] ++
    vec 2 (extension 43 [Byte.x03] ++ extension 0 (vec 2 (name_entry Byte.x00 (str "a.example"))))).

Definition demo_record : bytes := map zb [0x16; 3; 1]%Z ++ vec 2 demo_hello.

Example demo_hello_sni : extractSNIFromHandshake demo_hello = Ret (str "a.example").
Proof. vm_compute. reflexivity. Qed.

Example demo_peek :
  peekSNI (demo_record ++ str "rest") = (Ret (str "a.example"), demo_record, str "rest").
Proof. vm_compute. reflexivity. Qed.

Definition demo_config : Config := New
  {| Listen := []; PanelDomain := str "panel.example"; PanelBackend := str "127.0.0.1:8444";
     DialTimeout := 0; HandshakePeekTimeout := 0; MaxConcurrent := 0; cfgGate := None |}.

Example demo_names : names (demo_record ++ str "rest") (str "a.example").
Proof. destruct (peekSNI_stream _ _ _ _ demo_peek) as [E H]. by eexists _, _. Qed.

(** The same stream under two configurations: the name is the panel's, or
    somebody else's. *)
Definition demo_events (panel : bytes) : list Event :=
  @handleConn ascii_tables {| Listen := []; PanelDomain := panel; PanelBackend := str "127.0.0.1:8444"; DialTimeout := 0;
      HandshakePeekTimeout := 0; MaxConcurrent := 0; cfgGate := None |} nat
    (fun _ => Some [map zb [93; 184; 216; 34]%Z; map zb [1; 1; 1; 1]%Z]) (fun ip _ => if ip == map zb [1; 1; 1; 1]%Z then Some 7 else None)
    (fun _ => Some 8) (fun _ _ => true) NilAddr (demo_record ++ str "rest").
Example demo_panel : dials_of (demo_events (str "a.example")) = [EvLocalDial (str "127.0.0.1:8444")].
Proof. by vm_compute. Qed.
Example demo_public : dials_of (demo_events (str "b.example")) =
  [EvPublicDial (map zb [93; 184; 216; 34]%Z) (str "443"); EvPublicDial (map zb [1; 1; 1; 1]%Z) (str "443")].
Proof. by vm_compute. Qed.

(** A name that is only dots is not refused like the empty one: it becomes
    the address of an empty host. *)
Example dot_sni_not_refused :
  @selectUpstream ascii_tables demo_config (str ".") = (str ":443", false).
Proof. vm_compute. reflexivity. Qed.

Lemma accept_cap_witness :
  exists s, srv_reach 1 s /\ refused s = 1%Z /\ sem s = handlers s /\ (0 <= handlers s <= 1)%Z.
Proof.
  set (s := {| listening := true; closed := false; sem := 1; wg := 2; handlers := 1; loops := 1; refused := 1 |}).
  assert (srv_reach 1 s) as HR by (apply (srv_run_reach 1 [DoStart; DoAccept; DoAccept]); reflexivity).
  exists s. split; [exact HR|]. split; [reflexivity|].
  destruct (accept_cap 1 s ltac:(lia) HR) as (H1 & H2 & _). split; [exact H1|exact H2].
Defined.
