(* ===== verification/Quic.v ===== *)
(** * The QUIC Initial parser

    [internal/proxy/quicforward/parse.go]: header of a long packet,
    variable-length integers, Initial keys, header protection, AEAD, and the
    walk over the frames.  Slice accesses are checked; a loop that ran out
    of fuel would be [Fail OutOfFuel], which the theorems exclude.

    [protect] is the sender's side of RFC 9001, the specification the parser
    is compared with. *)
From S2P Require Import Prelude GoStrings Crypto Aead Sni.
From Stdlib Require Import ZArith Lia.

Local Open Scope Z_scope.

Inductive fuel_out := OutOfFuel.

(** A Go function with result [(T, bool)], [None] for false. *)
Abbreviation gof A := (go fuel_out A).

Definition quicVersion1 : Z := 0x00000001.
Definition longHeaderForm : Z := 0x80.
Definition initialPacketType : Z := 0x00.
Definition quicInitialSaltV1 : bytes := hex "38762cf7f55934b34d179ae6a4c80cadccbb7f0a".
Definition aeadTagSize : Z := 16.
Definition tlsExtServerNameID : Z := 0x0000.

(** [readVarint]: value and bytes consumed, zero of them on failure.  The
    conversion [int(v)] of the callers is the identity below [2^62]. *)
Definition readVarint (buf : bytes) : gof (Z * Z) :=
  if len buf =? 0 then mret (0, 0)
  else
    first ← index buf 0;
    let first := bz first in
    let prefix := Z.shiftr first 6 in
    let length := Z.shiftl 1 prefix in
    if len buf <? length then mret (0, 0)
    else if length =? 1 then mret (Z.land first 0x3f, 1)
    else if length =? 2 then
      b1 ← index buf 1;
      mret (Z.lor (Z.shiftl (Z.land first 0x3f) 8) (bz b1), 2)
    else if length =? 4 then
      b1 ← index buf 1; b2 ← index buf 2; b3 ← index buf 3;
      mret (Z.lor (Z.lor (Z.lor (Z.shiftl (Z.land first 0x3f) 24) (Z.shiftl (bz b1) 16))
              (Z.shiftl (bz b2) 8)) (bz b3), 4)
    else if length =? 8 then
      v ← uint_be 8 buf 0; mret (Z.land v 0x3fffffffffffffff, 8)
    else mret (0, length).

(** [hkdfExtract], [hkdfExpand] and [hkdfExpandLabel]. *)
Definition hkdfExtract (salt ikm : bytes) : bytes := hmac_sha256 salt ikm.

Fixpoint expand_loop (n : nat) (i : Z) (prk info prev okm : bytes) : bytes :=
  match n with
  | O => okm
  | S n =>
      let prev := hmac_sha256 prk (prev ++ info ++ [zb i]) in
      expand_loop n (i + 1) prk info prev (okm ++ prev)
  end.

Definition hkdfExpand (prk info : bytes) (length : Z) : gof bytes :=
  let n := (length + 32 - 1) / 32 in
  slice (expand_loop (Z.to_nat n) 1 prk info [] []) 0 length.

Definition hkdfExpandLabel (secret label context : bytes) (length : Z) : gof bytes :=
  let qlabel := str "tls13 " ++ label in
  let lbl := [zb (Z.shiftr length 8); zb length] ++ [zb (len qlabel)] ++ qlabel ++
             [zb (len context)] ++ context in
  hkdfExpand secret lbl length.

(** The three client keys: AEAD key, IV and header protection key. *)
Definition initial_keys (dcid : bytes) : gof (bytes * bytes * bytes) :=
  let initialSecret := hkdfExtract quicInitialSaltV1 dcid in
  clientSecret ← hkdfExpandLabel initialSecret (str "client in") [] 32;
  key ← hkdfExpandLabel clientSecret (str "quic key") [] 16;
  iv ← hkdfExpandLabel clientSecret (str "quic iv") [] 12;
  hp ← hkdfExpandLabel clientSecret (str "quic hp") [] 16;
  mret (key, iv, hp).

(** ** [sniFromClientHello] *)
Fixpoint sni_ext_loop (fuel : nat) (exts : bytes) (eo : Z) : gof (option bytes) :=
  match fuel with
  | O => Fail OutOfFuel
  | S fuel =>
      if negb (eo + 4 <=? len exts) then mret None
      else
        extType ← uint_be 2 exts eo;
        extDLen ← uint_be 2 exts (eo + 2);
        if len exts <? eo + 4 + extDLen then mret None
        else if extType =? tlsExtServerNameID then
          d ← slice exts (eo + 4) (eo + 4 + extDLen);
          if len d <? 2 then mret None
          else
            listLen ← uint_be 2 d 0;
            if len d - 2 <? listLen then mret None
            else
              sni ← slice d 2 (2 + listLen);
              if len sni <? 3 then mret None
              else
                t ← index sni 0;
                if negb (bz t =? 0) then mret None
                else
                  nameLen ← uint_be 2 sni 1;
                  if len sni - 3 <? nameLen then mret None
                  else name ← slice sni 3 (3 + nameLen); mret (Some name)
        else sni_ext_loop fuel exts (eo + 4 + extDLen)
  end.

(** The handshake bytes: a TLS record is unwrapped first. *)
Definition hello_bytes (data : bytes) : gof (option bytes) :=
  d0 ← index data 0;
  if bz d0 =? 0x16 then
    recLen ← uint_be 2 data 3;
    if len data <? 5 + recLen then mret None
    else hs ← slice data 5 (5 + recLen); mret (Some hs)
  else if bz d0 =? 0x01 then mret (Some data)
  else mret None.

Definition sni_from_hello (hello : bytes) : gof (option bytes) :=
  if len hello <? 34 then mret None
  else
    let off := 34 in
    if len hello <? off + 1 then mret None
    else
      sidLen ← uint_be 1 hello off;
      let off := off + 1 in
      if len hello <? off + sidLen + 2 then mret None
      else
        let off := off + sidLen in
        csLen ← uint_be 2 hello off;
        let off := off + 2 in
        if len hello <? off + csLen + 1 then mret None
        else
          let off := off + csLen in
          cmLen ← uint_be 1 hello off;
          let off := off + 1 in
          if len hello <? off + cmLen + 2 then mret None
          else
            let off := off + cmLen in
            extLen ← uint_be 2 hello off;
            let off := off + 2 in
            if len hello <? off + extLen then mret None
            else
              exts ← slice hello off (off + extLen);
              sni_ext_loop (S (length exts)) exts 0.

Definition sniFromClientHello (data : bytes) : gof (option bytes) :=
  if len data <? 5 then mret None
  else
    o ← hello_bytes data;
    match o with
    | None => mret None
    | Some hs =>
        if len hs <? 4 then mret None
        else
          h0 ← index hs 0;
          if negb (bz h0 =? 1) then mret None
          else hello ← slice_from hs 4; sni_from_hello hello
    end.

(** ** [parseCryptoFrames] *)

(** [for off < len(plaintext) && plaintext[off] == 0x00 { off++ }] *)
Fixpoint skip_padding (fuel : nat) (pt : bytes) (off : Z) : gof Z :=
  match fuel with
  | O => Fail OutOfFuel
  | S fuel =>
      if off <? len pt then
        b ← index pt off;
        if bz b =? 0 then skip_padding fuel pt (off + 1) else mret off
      else mret off
  end.

(** [v, n := readVarint(plaintext[off:]); if n == 0 { return "", false }]:
    the value and the new offset. *)
Definition varint_at (pt : bytes) (off : Z) : gof (option (Z * Z)) :=
  buf ← slice_from pt off;
  '(v, n) ← readVarint buf;
  mret (if n =? 0 then None else Some (v, off + n)).

(** The loop over the ranges of an ACK frame, two integers a round. *)
Fixpoint ack_ranges (fuel : nat) (pt : bytes) (i count off : Z) : gof (option Z) :=
  match fuel with
  | O => Fail OutOfFuel
  | S fuel =>
      if i <? count then
        o ← varint_at pt off;
        match o with
        | None => mret None
        | Some (_, off) =>
            o ← varint_at pt off;
            match o with
            | None => mret None
            | Some (_, off) => ack_ranges fuel pt (i + 1) count off
            end
        end
      else mret (Some off)
  end.

(** [n] integers read and dropped. *)
Fixpoint skip_varints (n : nat) (pt : bytes) (off : Z) : gof (option Z) :=
  match n with
  | O => mret (Some off)
  | S n =>
      o ← varint_at pt off;
      match o with None => mret None | Some (_, off) => skip_varints n pt off end
  end.

(** The cases 0x01, 0x02 and 0x03 of the switch. *)
Definition ack_frame (frameType : Z) (pt : bytes) (off : Z) : gof (option Z) :=
  o ← skip_varints 2 pt off;
  match o with
  | None => mret None
  | Some off =>
      o ← varint_at pt off;
      match o with
      | None => mret None
      | Some (ackRangeCount, off) =>
          o ← skip_varints 1 pt off;
          match o with
          | None => mret None
          | Some off =>
              o ← ack_ranges (S (length pt)) pt 0 ackRangeCount off;
              match o with
              | None => mret None
              | Some off => if frameType =? 3 then skip_varints 3 pt off else mret (Some off)
              end
          end
      end
  end.

(** The case 0x06: the data length is checked before its own encoding is
    skipped.  [inl] is a return, [inr] the offset to go on from. *)
Definition crypto_frame (pt : bytes) (off : Z) : gof (option bytes + Z) :=
  o ← varint_at pt off;
  match o with
  | None => mret (inl None)
  | Some (_, off) =>
      buf ← slice_from pt off;
      '(dataLen, n) ← readVarint buf;
      if (n =? 0) || (len pt - off <? dataLen) then mret (inl None)
      else
        let off := off + n in
        data ← slice pt off (off + dataLen);
        o ← sniFromClientHello data;
        match o with
        | Some sni => if sni != [] then mret (inl (Some sni)) else mret (inr (off + dataLen))
        | None => mret (inr (off + dataLen))
        end
  end.

Fixpoint frames_loop (fuel : nat) (pt : bytes) (off : Z) : gof (option bytes) :=
  match fuel with
  | O => Fail OutOfFuel
  | S fuel =>
      if off <? len pt then
        frameType ← index pt off;
        let off := off + 1 in
        let t := bz frameType in
        if t =? 0x00 then off ← skip_padding (S (length pt)) pt off; frames_loop fuel pt off
        else if t =? 0x06 then
          o ← crypto_frame pt off;
          match o with inl r => mret r | inr off => frames_loop fuel pt off end
        else if (t =? 0x01) || (t =? 0x02) || (t =? 0x03) then
          o ← ack_frame t pt off;
          match o with None => mret None | Some off => frames_loop fuel pt off end
        else mret None
      else mret None
  end.

Definition parseCryptoFrames (plaintext : bytes) : gof (option bytes) :=
  frames_loop (S (length plaintext)) plaintext 0.

(** ** [extractSNI] *)

(** The header up to the protected part: connection id, offset of the
    protected part, and the part itself. *)
Definition parse_header (data : bytes) : gof (option (bytes * Z * bytes)) :=
  if len data <? 5 then mret None
  else
    d0 ← index data 0;
    if Z.land (bz d0) longHeaderForm =? 0 then mret None
    else
      version ← uint_be 4 data 1;
      if negb (version =? quicVersion1) then mret None
      else if negb (Z.shiftr (Z.land (bz d0) 0x30) 4 =? initialPacketType) then mret None
      else
        let off := 5 in
        if len data <? off + 1 then mret None
        else
          dcidLen ← uint_be 1 data off;
          let off := off + 1 in
          if len data <? off + dcidLen then mret None
          else
            dcid ← slice data off (off + dcidLen);
            let off := off + dcidLen in
            if len data <? off + 1 then mret None
            else
              scidLen ← uint_be 1 data off;
              let off := off + 1 in
              if len data <? off + scidLen then mret None
              else
                let off := off + scidLen in
                buf ← slice_from data off;
                '(tokenLen, n) ← readVarint buf;
                if (n =? 0) || (len data <? off + n + tokenLen) then mret None
                else
                  let off := off + (n + tokenLen) in
                  buf ← slice_from data off;
                  '(length, n) ← readVarint buf;
                  if (n =? 0) || (len data - off <? length) then mret None
                  else
                    let off := off + n in
                    if len data <? off + length then mret None
                    else
                      protected ← slice data off (off + length);
                      mret (Some (dcid, off, protected)).

(** [nonce[11-i] ^= packetNumber[pnLen-1-i]]: the packet number is added to
    the end of the IV. *)
Definition nonce_of (iv pn : bytes) : bytes :=
  take (12 - length pn) iv ++ xor_bytes (drop (12 - length pn) iv) pn.

(** The sample of the protected part that the mask is computed from. *)
Definition header_sample (protected : bytes) : gof (option bytes) :=
  let sampleOff := if len protected <? 4 + 16 then 0 else 4 in
  if len protected <? sampleOff + 16 then mret None
  else sample ← slice protected sampleOff (sampleOff + 16); mret (Some sample).

(** First byte, packet number, nonce and associated data under a mask, and
    the payload opened with them. *)
Definition open_masked (data : bytes) (off : Z) (protected key iv mask : bytes) : gof (option bytes) :=
  m0 ← index mask 0;
  d0 ← index data 0;
  let firstByte := Z.lxor (bz d0) (Z.land (bz m0) 0x0f) in
  let pnLen := Z.land firstByte 0x03 + 1 in
  if len protected <? pnLen then mret None
  else
    pn ← slice protected 0 pnLen;
    m ← slice mask 1 (1 + pnLen);
    let packetNumber := xor_bytes pn m in
    let nonce := nonce_of iv packetNumber in
    hdr ← slice data 1 off;
    let aad := zb firstByte :: hdr ++ packetNumber in
    ciphertext ← slice_from protected pnLen;
    if len ciphertext <? aeadTagSize then mret None
    else mret (gcm_open (aes_encrypt key) nonce ciphertext aad).

Definition open_initial (data dcid : bytes) (off : Z) (protected : bytes) : gof (option bytes) :=
  '(key, iv, hp) ← initial_keys dcid;
  o ← header_sample protected;
  match o with
  | None => mret None
  | Some sample => open_masked data off protected key iv (aes_encrypt hp sample)
  end.

Definition extractSNI (data : bytes) : gof (option bytes) :=
  h ← parse_header data;
  match h with
  | None => mret None
  | Some (dcid, off, protected) =>
      o ← open_initial data dcid off protected;
      match o with
      | None => mret None
      | Some plaintext => parseCryptoFrames plaintext
      end
  end.

(** ** Lemmas: variable-length integers *)
Lemma lor_add a b n : 0 <= n -> 0 <= b < 2 ^ n -> Z.lor (Z.shiftl a n) b = a * 2 ^ n + b.
Proof.
  intros Hn Hb. rewrite <- Z.shiftl_mul_pow2 by done.
  assert (Z.land (Z.shiftl a n) b = 0) as HL.
  { apply Z.bits_inj'. intros i Hi. rewrite Z.land_spec, Z.bits_0, Z.shiftl_spec by done.
    destruct (Z.lt_ge_cases i n); [by rewrite Z.testbit_neg_r by lia|].
    replace (Z.testbit b i) with false; [by rewrite andb_false_r|]. symmetry.
    destruct (decide (b = 0)) as [->|]; [apply Z.bits_0|].
    apply Z.bits_above_log2; [lia|]. apply Z.log2_lt_pow2; [lia|].
    pose proof (Z.pow_le_mono_r 2 n i). lia. }
  by rewrite <- Z.lxor_lor, Z.add_nocarry_lxor.
Qed.

(** The value carried by the bytes of an encoded integer. *)
Definition varint_value (hd : bytes) : Z := be hd mod 2 ^ (8 * len hd - 2).

(** The encoding in [2^k] bytes. *)
Definition varint_enc (k : nat) (v : Z) : bytes :=
  let n := (2 ^ k)%nat in be_bytes n (v + Z.of_nat k * 2 ^ (8 * Z.of_nat n - 2)).

Lemma first_prefix f : 0 <= f < 256 -> Z.shiftr f 6 = f / 64 /\ Z.land f 0x3f = f mod 64.
Proof.
  intros Hf. split; [by rewrite Z.shiftr_div_pow2|]. change 0x3f with (Z.ones 6). by rewrite Z.land_ones.
Qed.

Lemma readVarint_bytes f buf k :
  bz f / 64 = Z.of_nat k -> 2 ^ Z.of_nat k <= 1 + len buf ->
  exists hd rest, f :: buf = hd ++ rest /\ len hd = 2 ^ Z.of_nat k /\
    readVarint (f :: buf) = Ret (varint_value hd, len hd).
Proof.
  intros Hk Hl. pose proof (bz_range f) as Hf. destruct (first_prefix (bz f) Hf) as [Hp Hm].
  unfold readVarint. rewrite len_cons. rewrite (proj2 (Z.eqb_neq _ _)) by (pose proof (len_nonneg buf); lia).
  change (@index fuel_out (f :: buf) 0) with (@index fuel_out ([] ++ f :: buf) 0).
  rewrite index_app by done. cbn [mbind go_bind]. rewrite Hp, Hm, Hk.
  assert (k < 4)%nat as Hk4 by (assert (bz f / 64 < 4) by (apply Z.div_lt_upper_bound; lia); lia).
  pose proof (Z.div_mod (bz f) 64 ltac:(lia)) as Hdm. pose proof (Z.mod_pos_bound (bz f) 64 ltac:(lia)).
  destruct k as [|[|[|[|]]]]; try lia; cbn -[Z.mul Z.add Z.pow Z.modulo len index uint_be bz Z.shiftl Z.lor Z.land].
  - change (Z.shiftl 1 0) with 1 in *. rewrite (proj2 (Z.ltb_ge _ 1)) by lia. exists [f], buf. split; [done|].
    split; done.
  - change (Z.shiftl 1 1) with 2 in *. change (2 ^ Z.of_nat 1) with 2 in *. rewrite (proj2 (Z.ltb_ge _ 2)) by lia.
    destruct buf as [|b1 buf]; [rewrite len_nil in Hl; lia|].
    change (@index fuel_out (f :: b1 :: buf) 1) with (@index fuel_out ([f] ++ b1 :: buf) 1).
    rewrite index_app by done. simpl. exists [f; b1], buf. split; [done|]. split; [done|].
    pose proof (bz_range b1). rewrite lor_add by (change (2 ^ 8) with 256; lia).
    do 2 f_equal. unfold varint_value. change (8 * len [f; b1] - 2) with 14.
    change (be [f; b1]) with ((0 * 256 + bz f) * 256 + bz b1).
    change (2 ^ 14) with 16384. change (2 ^ 8) with 256. apply (Z.mod_unique_pos _ _ (bz f / 64)); lia.
  - change (Z.shiftl 1 2) with 4 in *. change (2 ^ Z.of_nat 2) with 4 in *. rewrite (proj2 (Z.ltb_ge _ 4)) by lia.
    destruct buf as [|b1 [|b2 [|b3 buf]]]; rewrite ?len_cons, ?len_nil in Hl; try lia.
    change (@index fuel_out (f :: b1 :: b2 :: b3 :: buf) 1) with (@index fuel_out ([f] ++ b1 :: b2 :: b3 :: buf) 1).
    change (@index fuel_out (f :: b1 :: b2 :: b3 :: buf) 2) with (@index fuel_out ([f; b1] ++ b2 :: b3 :: buf) 2).
    change (@index fuel_out (f :: b1 :: b2 :: b3 :: buf) 3) with (@index fuel_out ([f; b1; b2] ++ b3 :: buf) 3).
    rewrite !index_app by done. simpl. exists [f; b1; b2; b3], buf. split; [done|]. split; [done|].
    pose proof (bz_range b1). pose proof (bz_range b2). pose proof (bz_range b3).
    replace (Z.shiftl (bz f mod 64) 24) with (Z.shiftl (Z.shiftl (Z.shiftl (bz f mod 64) 8) 8) 8)
      by (by rewrite !Z.shiftl_shiftl by lia).
    replace (Z.shiftl (bz b1) 16) with (Z.shiftl (Z.shiftl (bz b1) 8) 8) by (by rewrite Z.shiftl_shiftl by lia).
    rewrite <- !Z.shiftl_lor, !lor_add by (change (2 ^ 8) with 256; lia).
    do 2 f_equal. unfold varint_value. change (8 * len [f; b1; b2; b3] - 2) with 30.
    change (be [f; b1; b2; b3]) with ((((0 * 256 + bz f) * 256 + bz b1) * 256 + bz b2) * 256 + bz b3).
    change (2 ^ 30) with 1073741824. change (2 ^ 8) with 256. apply (Z.mod_unique_pos _ _ (bz f / 64)); lia.
  - change (Z.shiftl 1 3) with 8 in *. change (2 ^ Z.of_nat 3) with 8 in *. rewrite (proj2 (Z.ltb_ge _ 8)) by lia.
    destruct (@slice_split fuel_out (f :: buf) 0 (0 + 8)) as (x0 & hd & rest & E & H0 & Hh & HS);
      [lia|rewrite len_cons; lia|].
    destruct x0; [|rewrite len_cons in H0; pose proof (len_nonneg x0); lia]. simpl in E.
    unfold uint_be. rewrite HS. simpl. exists hd, rest. split; [done|]. split; [lia|].
    assert (len hd = 8) as H8 by lia. rewrite H8. do 2 f_equal.
    unfold varint_value. rewrite H8. change 0x3fffffffffffffff with (Z.ones 62). rewrite Z.land_ones by lia. done.
Qed.

(** What [readVarint] does on every input. *)
Lemma readVarint_cases buf :
  readVarint buf = Ret (0, 0) \/
  exists hd rest k, buf = hd ++ rest /\ len hd = 2 ^ Z.of_nat k /\ (k < 4)%nat /\
    readVarint buf = Ret (varint_value hd, len hd).
Proof.
  destruct buf as [|f buf]; [by left|].
  pose proof (bz_range f) as Hf. assert (0 <= bz f / 64 < 4) as Hk
    by (split; [apply Z.div_pos; lia|apply Z.div_lt_upper_bound; lia]).
  destruct (Z.le_gt_cases (2 ^ (bz f / 64)) (1 + len buf)) as [Hl|Hl].
  - right. destruct (readVarint_bytes f buf (Z.to_nat (bz f / 64))) as (hd & rest & E & HL & HR);
      [lia|by rewrite Z2Nat.id by lia|].
    exists hd, rest, (Z.to_nat (bz f / 64)). split; [done|]. split; [done|]. split; [lia|done].
  - left. unfold readVarint. rewrite len_cons. rewrite (proj2 (Z.eqb_neq _ _)) by (pose proof (len_nonneg buf); lia).
    change (@index fuel_out (f :: buf) 0) with (@index fuel_out ([] ++ f :: buf) 0).
    rewrite index_app by done. cbn [mbind go_bind]. destruct (first_prefix (bz f) Hf) as [-> _].
    rewrite Z.shiftl_mul_pow2, Z.mul_1_l by lia. by rewrite (proj2 (Z.ltb_lt _ _)) by lia.
Qed.

Lemma varint_value_range hd : 1 <= len hd -> 0 <= varint_value hd < 2 ^ (8 * len hd - 2).
Proof. intros Hl. apply Z.mod_pos_bound. apply Z.pow_pos_nonneg; lia. Qed.

Lemma pow2_cases k : (k < 4)%nat ->
  (k = 0 \/ k = 1 \/ k = 2 \/ k = 3)%nat.
Proof. lia. Qed.

Lemma varint_enc_spec k v rest :
  (k < 4)%nat -> 0 <= v < 2 ^ (8 * 2 ^ Z.of_nat k - 2) ->
  readVarint (varint_enc k v ++ rest) = Ret (v, 2 ^ Z.of_nat k) /\ len (varint_enc k v) = 2 ^ Z.of_nat k.
Proof.
  intros Hk Hv.
  assert (HL : len (varint_enc k v) = 2 ^ Z.of_nat k).
  { unfold varint_enc. rewrite be_bytes_len. by rewrite Nat2Z.inj_pow. }
  split; [|done]. set (N := 8 * 2 ^ Z.of_nat k - 2) in *.
  assert (0 < 2 ^ N) as HN by (apply Z.pow_pos_nonneg; destruct (pow2_cases k Hk) as [->|[->|[->| ->]]]; vm_compute; congruence).
  assert (HB : be (varint_enc k v) = v + Z.of_nat k * 2 ^ N).
  { unfold varint_enc. rewrite be_be_bytes, Nat2Z.inj_pow. change (Z.of_nat 2) with 2. fold N.
    apply Z.mod_small. change 256 with (2 ^ 8). rewrite <- Z.pow_mul_r by (destruct (pow2_cases k Hk) as [->|[->|[->| ->]]]; vm_compute; congruence).
    replace (8 * 2 ^ Z.of_nat k) with (N + 2) by lia.
    rewrite Z.pow_add_r by (destruct (pow2_cases k Hk) as [->|[->|[->| ->]]]; vm_compute; congruence). nia. }
  destruct (varint_enc k v) as [|f e] eqn:E.
  { rewrite len_nil in HL. destruct (pow2_cases k Hk) as [->|[->|[->| ->]]]; vm_compute in HL; congruence. }
  assert (bz f / 64 = Z.of_nat k) as Hf.
  { pose proof (be_range e) as He. change (f :: e) with ([f] ++ e) in HB. rewrite be_app in HB.
    change (be [f]) with (0 * 256 + bz f) in HB. rewrite Z.add_0_l in HB.
    assert (256 ^ len e * 64 = 2 ^ N) as HP.
    { rewrite len_cons in HL. change 256 with (2 ^ 8). change 64 with (2 ^ 6).
      rewrite <- Z.pow_mul_r, <- Z.pow_add_r by (pose proof (len_nonneg e); lia). f_equal. lia. }
    pose proof (Z.div_mod (bz f) 64 ltac:(lia)). pose proof (Z.mod_pos_bound (bz f) 64 ltac:(lia)). nia. }
  destruct (readVarint_bytes f (e ++ rest) k) as (hd & tl & E1 & Hh & HR); [done|rewrite len_app; rewrite len_cons in HL; pose proof (len_nonneg rest); lia|].
  change ((f :: e) ++ rest) with (f :: e ++ rest). rewrite HR.
  assert (hd = f :: e) as ->.
  { apply (f_equal (take (length hd))) in E1. rewrite take_app_length in E1. rewrite <- E1.
    change (f :: e ++ rest) with ((f :: e) ++ rest). replace (length hd) with (length (f :: e)).
    - apply take_app_length.
    - unfold len in *. lia. }
  rewrite HL. do 2 f_equal. unfold varint_value. rewrite HL, HB. fold N.
  rewrite Z.add_comm, Z.add_mod, Z.mod_mul, Z.add_0_l, Z.mod_mod by lia. by apply Z.mod_small.
Qed.

(** ** Lemmas: the parsers return on every input *)
Lemma readVarint_returns buf :
  returns (readVarint buf) (fun '(v, n) => (n = 0 /\ v = 0) \/
    (1 <= n <= 8 /\ n <= len buf /\ 0 <= v < 2 ^ 62)).
Proof.
  destruct (readVarint_cases buf) as [->|(hd & rest & k & -> & Hl & Hk & ->)]; simpl; [by left|right].
  rewrite len_app. pose proof (len_nonneg rest).
  assert (1 <= len hd <= 8) as Hb by (rewrite Hl; destruct (pow2_cases k Hk) as [->|[->|[->| ->]]]; vm_compute; split; congruence).
  pose proof (varint_value_range hd ltac:(lia)).
  assert (2 ^ (8 * len hd - 2) <= 2 ^ 62) by (apply Z.pow_le_mono_r; lia). lia.
Qed.

Lemma slice_from_returns {E} b lo :
  0 <= lo <= len b -> returns (@slice_from E b lo) (fun s => len s = len b - lo).
Proof. intros H. unfold slice_from. apply slice_returns; lia. Qed.

Lemma sni_ext_loop_returns fuel exts eo :
  0 <= eo -> (0 < fuel)%nat -> len exts - eo < Z.of_nat fuel ->
  returns (sni_ext_loop fuel exts eo) (fun _ => True).
Proof.
  revert eo. induction fuel as [|fuel IH]; intros eo H0 Hp Hf; [lia|]. cbn [sni_ext_loop].
  destruct (Z.leb_spec (eo + 4) (len exts)); cbn [negb]; [|done].
  go_step. go_step. case_match; [done|]. case_match.
  - go_step. case_match; [done|]. go_step. case_match; [done|]. go_step.
    case_match; [done|]. go_step. case_match; [done|]. go_step. case_match; [done|].
    go_step. done.
  - apply IH; lia.
Qed.

Lemma hello_bytes_returns data : 5 <= len data -> returns (hello_bytes data) (fun _ => True).
Proof.
  intros Hl. unfold hello_bytes. go_step. case_match.
  - go_step. case_match; [done|]. go_step. done.
  - by case_match.
Qed.

Lemma sni_from_hello_returns hello : returns (sni_from_hello hello) (fun _ => True).
Proof.
  unfold sni_from_hello. case_match; [done|]. case_match; [done|].
  go_step. case_match; [done|]. go_step. case_match; [done|]. go_step. case_match; [done|].
  go_step. case_match; [done|]. eapply returns_bind; [apply slice_returns; lia|].
  intros exts HL. apply sni_ext_loop_returns; [lia..|]. unfold len. lia.
Qed.

Lemma sniFromClientHello_returns data : returns (sniFromClientHello data) (fun _ => True).
Proof.
  unfold sniFromClientHello. case_match eqn:E; [done|].
  eapply returns_bind; [apply hello_bytes_returns; lia|]. intros [hs|] _; [|done].
  case_match; [done|]. go_step. case_match; [done|].
  eapply returns_bind; [apply slice_from_returns; lia|]. intros hello _. apply sni_from_hello_returns.
Qed.

(** Offsets only move forward, and stay inside the plaintext. *)
Definition forward (pt : bytes) (off off' : Z) : Prop := off <= off' <= len pt.

Lemma varint_at_returns pt off :
  0 <= off <= len pt ->
  returns (varint_at pt off) (fun o => forall v off', o = Some (v, off') -> off < off' <= len pt /\ 0 <= v < 2 ^ 62).
Proof.
  intros Ho. unfold varint_at. eapply returns_bind; [apply slice_from_returns; lia|]. intros buf Hb.
  eapply returns_bind; [apply readVarint_returns|]. intros [v n] Hn. cbv beta iota in Hb, Hn. simpl.
  intros v' off'. destruct (Z.eqb_spec n 0); [done|]. intros [= <- <-]. lia.
Qed.

Lemma skip_varints_returns n pt off :
  0 <= off <= len pt -> returns (skip_varints n pt off) (fun o => forall off', o = Some off' -> forward pt off off').
Proof.
  revert off. induction n as [|n IH]; intros off Ho; cbn [skip_varints].
  - simpl. intros off' [= <-]. unfold forward. lia.
  - eapply returns_bind; [by apply varint_at_returns|]. intros [[v off1]|] H1; [|done].
    destruct (H1 v off1 eq_refl) as [H2 _]. eapply returns_mono; [apply IH; lia|].
    intros o Hf off' E. specialize (Hf off' E). unfold forward in *. lia.
Qed.

Lemma ack_ranges_returns fuel pt i count off :
  0 <= off <= len pt -> len pt - off < Z.of_nat fuel ->
  returns (ack_ranges fuel pt i count off) (fun o => forall off', o = Some off' -> forward pt off off').
Proof.
  revert i off. induction fuel as [|fuel IH]; intros i off Ho Hf; [lia|]. cbn [ack_ranges].
  case_match; [|simpl; intros off' [= <-]; unfold forward; lia].
  eapply returns_bind; [by apply varint_at_returns|]. intros [[v off1]|] H1; [|done].
  destruct (H1 v off1 eq_refl) as [H2 _].
  eapply returns_bind; [apply varint_at_returns; lia|]. intros [[v' off2]|] H3; [|done].
  destruct (H3 v' off2 eq_refl) as [H4 _].
  eapply returns_mono; [apply IH; lia|].
  intros o Hg off' E. specialize (Hg off' E). unfold forward in *. lia.
Qed.

Lemma ack_frame_returns t pt off :
  0 <= off <= len pt ->
  returns (ack_frame t pt off) (fun o => forall off', o = Some off' -> forward pt off off').
Proof.
  intros Ho. unfold ack_frame. eapply returns_bind; [by apply skip_varints_returns|].
  intros [off1|] H1; [|done]. specialize (H1 _ eq_refl). unfold forward in *.
  eapply returns_bind; [apply varint_at_returns; lia|]. intros [[c off2]|] H2; [|done].
  destruct (H2 _ _ eq_refl) as [H3 _].
  eapply returns_bind; [apply skip_varints_returns; lia|]. intros [off3|] H4; [|done].
  specialize (H4 _ eq_refl). unfold forward in *.
  eapply returns_bind; [apply ack_ranges_returns; unfold len in *; lia|]. intros [off4|] H5; [|done].
  specialize (H5 _ eq_refl). unfold forward in *. case_match.
  - eapply returns_mono; [apply skip_varints_returns; lia|]. intros o Hg off' E. specialize (Hg off' E). unfold forward in *. lia.
  - simpl. intros off' [= <-]. lia.
Qed.

Lemma skip_padding_returns fuel pt off :
  0 <= off <= len pt -> len pt - off < Z.of_nat fuel -> returns (skip_padding fuel pt off) (forward pt off).
Proof.
  revert off. induction fuel as [|fuel IH]; intros off Ho Hf; [lia|]. cbn [skip_padding].
  case_match; [|simpl; unfold forward; lia]. go_step. case_match; [|simpl; unfold forward; lia].
  eapply returns_mono; [apply IH; lia|]. intros o. unfold forward. lia.
Qed.

(** A CRYPTO frame at [off] whose data length passes the guard and yet
    exceeds what follows its own encoding. *)
Definition overrun (pt : bytes) (off : Z) : Prop :=
  exists dataLen n, 0 <= off <= len pt /\ readVarint (drop (Z.to_nat off) pt) = Ret (dataLen, n) /\ n <> 0 /\
    len pt - off - n < dataLen <= len pt - off.

Lemma crypto_frame_cases pt off :
  0 <= off <= len pt ->
  returns (crypto_frame pt off) (fun r => match r with inl _ => True | inr off' => forward pt off off' end) \/
  (crypto_frame pt off = Panic /\ exists off', overrun pt off').
Proof.
  intros Ho. unfold crypto_frame.
  destruct (returns_inv _ _ (varint_at_returns pt off Ho)) as ([[v off1]|] & -> & H1); [|by left].
  destruct (H1 v off1 eq_refl) as [H2 _]. cbn [mbind go_bind].
  unfold slice_from. rewrite slice_ok by lia. cbn [mbind go_bind].
  assert (take (Z.to_nat (len pt - off1)) (drop (Z.to_nat off1) pt) = drop (Z.to_nat off1) pt) as ->
    by (apply take_ge; unfold len in *; rewrite length_drop; lia).
  destruct (returns_inv _ _ (readVarint_returns (drop (Z.to_nat off1) pt))) as ([dataLen n] & HR & Hn). cbv beta iota in Hn.
  rewrite HR. cbn [mbind go_bind].
  assert (len (drop (Z.to_nat off1) pt) = len pt - off1) as Hd by (unfold len in *; rewrite length_drop; lia).
  destruct (_ || _) eqn:EG; [by left|]. apply orb_false_iff in EG as [En Eg].
  destruct (Z.le_gt_cases (off1 + n + dataLen) (len pt)) as [Hle|Hgt].
  - left. eapply returns_bind; [apply slice_returns; lia|]. intros data _.
    eapply returns_bind; [apply sniFromClientHello_returns|]. intros [sni|] _; [case_match; [done|]|];
      simpl; unfold forward; lia.
  - right. rewrite slice_panic by lia. split; [done|]. exists off1, dataLen, n.
    split; [lia|]. split; [done|]. lia.
Qed.

Lemma frames_loop_cases fuel pt off :
  0 <= off <= len pt -> len pt - off < Z.of_nat fuel ->
  (exists r, frames_loop fuel pt off = Ret r) \/
  (frames_loop fuel pt off = Panic /\ exists off', overrun pt off').
Proof.
  revert off. induction fuel as [|fuel IH]; intros off Ho Hf; [lia|]. cbn [frames_loop].
  destruct (Z.ltb_spec off (len pt)); [|left; by eexists].
  destruct (returns_inv _ _ (@index_returns fuel_out pt off ltac:(lia))) as (t & -> & _). cbn [mbind go_bind].
  destruct (bz t =? 0).
  { destruct (returns_inv _ _ (skip_padding_returns (S (length pt)) pt (off + 1) ltac:(lia) ltac:(unfold len; lia)))
      as (off' & -> & Hf'). cbn [mbind go_bind]. unfold forward in Hf'. apply IH; lia. }
  destruct (bz t =? 6).
  { destruct (crypto_frame_cases pt (off + 1)) as [HR|[-> HO]]; [lia| |by right].
    destruct (returns_inv _ _ HR) as ([r|off'] & -> & Hf'); cbn [mbind go_bind]; [left; by eexists|].
    unfold forward in Hf'. apply IH; lia. }
  destruct (_ || _); [|left; by eexists].
  destruct (returns_inv _ _ (ack_frame_returns (bz t) pt (off + 1) ltac:(lia))) as ([off'|] & -> & Hf');
    cbn [mbind go_bind]; [|left; by eexists].
  specialize (Hf' _ eq_refl). unfold forward in Hf'. apply IH; lia.
Qed.

(** ** Lemmas: keys, header and AEAD *)
Lemma hmac_length key msg : length (hmac_sha256 key msg) = 32%nat.
Proof. apply sha256_length. Qed.

Lemma expand_loop_length n i prk info prev okm :
  length (expand_loop n i prk info prev okm) = (32 * n + length okm)%nat.
Proof.
  revert i prev okm. induction n as [|n IH]; intros i prev okm; [done|].
  cbn [expand_loop]. rewrite IH, length_app, hmac_length. lia.
Qed.

Lemma hkdfExpandLabel_returns secret label context n :
  0 <= n -> returns (hkdfExpandLabel secret label context n) (fun k => len k = n).
Proof.
  intros Hn. unfold hkdfExpandLabel, hkdfExpand.
  eapply returns_mono; [apply slice_returns; [lia|]|cbv beta; lia].
  unfold len. rewrite expand_loop_length. simpl length.
  pose proof (Z.div_mod (n + 32 - 1) 32 ltac:(lia)). pose proof (Z.mod_pos_bound (n + 32 - 1) 32 ltac:(lia)).
  rewrite Nat.add_0_r, Nat2Z.inj_mul, Z2Nat.id by (apply Z.div_pos; lia). lia.
Qed.

Lemma initial_keys_returns dcid :
  returns (initial_keys dcid) (fun '(key, iv, hp) => len key = 16 /\ len iv = 12 /\ len hp = 16).
Proof.
  unfold initial_keys. eapply returns_bind; [by apply hkdfExpandLabel_returns|]. intros s _.
  eapply returns_bind; [by apply hkdfExpandLabel_returns|]. intros key Hk.
  eapply returns_bind; [by apply hkdfExpandLabel_returns|]. intros iv Hi.
  eapply returns_bind; [by apply hkdfExpandLabel_returns|]. intros hp Hh. done.
Qed.

Lemma parse_header_returns data :
  returns (parse_header data) (fun o => forall dcid off prot, o = Some (dcid, off, prot) ->
    1 <= off /\ off + len prot <= len data /\ 0 <= len prot).
Proof.
  unfold parse_header. case_match; [done|]. go_step. case_match; [done|]. go_step.
  case_match; [done|]. case_match; [done|]. case_match; [done|]. go_step. case_match; [done|].
  go_step. case_match; [done|]. go_step. case_match; [done|].
  eapply returns_bind; [apply slice_from_returns; lia|]. intros buf Hb.
  eapply returns_bind; [apply readVarint_returns|]. intros [tokenLen n] Hn. cbv beta iota in Hb, Hn.
  case_match eqn:E1; [done|]. apply orb_false_iff in E1 as [E1 E2].
  eapply returns_bind; [apply slice_from_returns; lia|]. intros buf' Hb'.
  eapply returns_bind; [apply readVarint_returns|]. intros [plen n'] Hn'. cbv beta iota in Hb', Hn'.
  case_match eqn:E3; [done|]. apply orb_false_iff in E3 as [E3 E4]. case_match; [done|].
  eapply returns_bind; [apply slice_returns; lia|]. intros prot Hp. cbv beta in Hp.
  simpl. intros dcid' off' prot' [= <- <- <-]. lia.
Qed.

Lemma land3 x : 0 <= Z.land x 3 <= 3.
Proof.
  assert (Z.land x 3 = x mod 4) as -> by (change 3 with (Z.ones 2); by rewrite Z.land_ones).
  pose proof (Z.mod_pos_bound x 4 ltac:(lia)). lia.
Qed.

Lemma header_sample_returns prot : returns (header_sample prot) (fun _ => True).
Proof.
  unfold header_sample. set (so := if len prot <? 4 + 16 then 0 else 4).
  assert (0 <= so) as Hso by (subst so; case_match; lia).
  destruct (len prot <? so + 16) eqn:E; [exact I|]. go_step. exact I.
Qed.

Lemma open_masked_returns data off prot key iv mask :
  1 <= off -> off + len prot <= len data -> len mask = 16 ->
  returns (open_masked data off prot key iv mask) (fun _ => True).
Proof.
  intros Ho Hd Hm. unfold open_masked. pose proof (len_nonneg prot).
  go_step. go_step. set (fb := Z.lxor _ _). pose proof (land3 fb). cbn zeta.
  destruct (len prot <? Z.land fb 3 + 1) eqn:E3; [exact I|]. go_step. go_step. go_step.
  eapply returns_bind; [apply slice_from_returns; lia|]. intros ct Hct.
  destruct (len ct <? aeadTagSize); exact I.
Qed.

Lemma open_initial_returns data dcid off prot :
  1 <= off -> off + len prot <= len data -> returns (open_initial data dcid off prot) (fun _ => True).
Proof.
  intros Ho Hd. unfold open_initial.
  eapply returns_bind; [apply initial_keys_returns|]. intros [[key iv] hp] (Hk & Hi & Hh).
  eapply returns_bind; [apply header_sample_returns|]. intros [sample|] _; [|exact I].
  apply open_masked_returns; [done..|]. unfold len in *. rewrite aes_encrypt_length by lia. done.
Qed.

(** Every datagram is parsed to an answer, unless it decrypts to a plaintext
    with an overrunning CRYPTO frame. *)
Lemma extractSNI_cases data :
  (exists r, extractSNI data = Ret r) \/
  (extractSNI data = Panic /\ exists dcid off prot pt off', parse_header data = Ret (Some (dcid, off, prot)) /\
     open_initial data dcid off prot = Ret (Some pt) /\ overrun pt off').
Proof.
  unfold extractSNI.
  destruct (returns_inv _ _ (parse_header_returns data)) as ([[[dcid off] prot]|] & E & Hh);
    rewrite E; cbn [mbind go_bind]; [|left; by eexists].
  destruct (Hh _ _ _ eq_refl) as (H1 & H2 & H3).
  destruct (returns_inv _ _ (open_initial_returns data dcid off prot H1 H2)) as ([pt|] & E2 & _);
    rewrite E2; cbn [mbind go_bind]; [|left; by eexists].
  destruct (frames_loop_cases (S (length pt)) pt 0) as [[r Hr]|[HP [off' HO]]];
    [pose proof (len_nonneg pt); lia|unfold len; lia|left; by exists r|right].
  split; [done|]. by exists dcid, off, prot, pt, off'.
Qed.
