(* ===== verification/QuicProtect.v ===== *)
(** * QUIC Initial packets end to end

    The sender's side of RFC 9001 ([protect]) and the theorems about
    [extractSNI]: round trip, agreement with the TCP parser, and exactly when
    it panics. *)
From S2P Require Import Prelude GoStrings Crypto Aead Sni Quic.
From Stdlib Require Import ZArith Lia.

Local Open Scope Z_scope.

(** ** The sender's side: RFC 9001 packet protection *)
Record Initial := {
  i_dcid : bytes; i_scid : bytes; i_token : bytes; i_pn : bytes;
  i_tk : nat; i_lk : nat (* sizes of the two length encodings, as powers of two *)
}.

Definition initial_header (i : Initial) (n : Z) : bytes :=
  be_bytes 4 quicVersion1 ++ vec 1 (i_dcid i) ++ vec 1 (i_scid i) ++
  varint_enc (i_tk i) (len (i_token i)) ++ i_token i ++ varint_enc (i_lk i) n.

(** Long header, fixed bit, type Initial, and the packet number length. *)
Definition first_byte (i : Initial) : Z := 0xc0 + (len (i_pn i) - 1).

Definition payload_len (i : Initial) (pt : bytes) : Z := len (i_pn i) + len pt + 16.

Definition protect (i : Initial) (pt : bytes) : bytes :=
  match initial_keys (i_dcid i) with
  | Ret (key, iv, hp) =>
      let hdr := initial_header i (payload_len i pt) in
      let aad := zb (first_byte i) :: hdr ++ i_pn i in
      let ct := gcm_seal (aes_encrypt key) (nonce_of iv (i_pn i)) pt aad in
      match aes_encrypt hp (take 16 (drop 4 (i_pn i ++ ct))) with
      | m0 :: m =>
          zb (Z.lxor (first_byte i) (Z.land (bz m0) 0x0f)) ::
          hdr ++ xor_bytes (i_pn i) (take (length (i_pn i)) m) ++ ct
      | [] => []
      end
  | _ => []
  end.

(** A packet the format can carry. *)
Record initial_ok (i : Initial) (pt : bytes) : Prop := {
  ok_dcid : fits 1 (i_dcid i);
  ok_scid : fits 1 (i_scid i);
  ok_tk : (i_tk i < 4)%nat;
  ok_token : len (i_token i) < 2 ^ (8 * 2 ^ Z.of_nat (i_tk i) - 2);
  ok_lk : (i_lk i < 4)%nat;
  ok_len : payload_len i pt < 2 ^ (8 * 2 ^ Z.of_nat (i_lk i) - 2);
  ok_pn : 1 <= len (i_pn i) <= 4;
  ok_sample : 4 <= len (i_pn i) + len pt
}.

(** Readers at a position given by a decomposition. *)
Lemma uint_be_at {E} D a b c n lo :
  D = a ++ b ++ c -> lo = len a -> n = len b -> @uint_be E n D lo = Ret (be b).
Proof. intros -> -> ->. by apply uint_be_app. Qed.

Lemma slice_at {E} D a b c lo hi :
  D = a ++ b ++ c -> lo = len a -> hi = lo + len b -> @slice E D lo hi = Ret b.
Proof. intros -> -> ->. by apply slice_app. Qed.

Lemma slice_from_at {E} D a b lo : D = a ++ b -> lo = len a -> @slice_from E D lo = Ret b.
Proof. intros -> ->. by apply slice_from_app. Qed.

Ltac app_eq := rewrite <- ?app_assoc; reflexivity.

Lemma vec1_be x : fits 1 x -> be (be_bytes 1 (len x)) = len x.
Proof. intros Hf. rewrite be_be_bytes. apply Z.mod_small. unfold fits in Hf. pose proof (len_nonneg x). lia. Qed.

Lemma parse_header_initial i pt f0 prot :
  initial_ok i pt -> len prot = payload_len i pt ->
  Z.land (bz f0) longHeaderForm <> 0 -> Z.shiftr (Z.land (bz f0) 0x30) 4 = 0 ->
  parse_header (f0 :: initial_header i (payload_len i pt) ++ prot) =
  Ret (Some (i_dcid i, 1 + len (initial_header i (payload_len i pt)), prot)).
Proof.
  intros [Hd Hs Htk Ht Hlk Hl Hpn _] Hp HL HT.
  pose proof (len_nonneg pt) as Hpt. pose proof (len_nonneg (i_token i)) as Htok.
  pose proof (len_nonneg (i_dcid i)). pose proof (len_nonneg (i_scid i)).
  unfold payload_len in *. set (n := len (i_pn i) + len pt + 16) in *.
  destruct (varint_enc_spec (i_tk i) (len (i_token i)) (i_token i ++ varint_enc (i_lk i) n ++ prot) Htk ltac:(lia)) as [HV1 HL1].
  destruct (varint_enc_spec (i_lk i) n prot Hlk ltac:(lia)) as [HV2 HL2].
  assert (0 < 2 ^ Z.of_nat (i_tk i)) by (apply Z.pow_pos_nonneg; lia).
  assert (0 < 2 ^ Z.of_nat (i_lk i)) by (apply Z.pow_pos_nonneg; lia).
  set (D := f0 :: initial_header i n ++ prot).
  set (t1 := varint_enc (i_tk i) (len (i_token i))) in *. set (t2 := varint_enc (i_lk i) n) in *.
  assert (ED : D = [f0] ++ be_bytes 4 quicVersion1 ++ be_bytes 1 (len (i_dcid i)) ++ i_dcid i ++
    be_bytes 1 (len (i_scid i)) ++ i_scid i ++ t1 ++ i_token i ++ t2 ++ prot)
    by (subst D t1 t2; unfold initial_header, vec; rewrite <- !app_assoc; reflexivity).
  assert (Hlen : len D = 7 + len (i_dcid i) + len (i_scid i) + len t1 + len (i_token i) + len t2 + len prot)
    by (rewrite ED, !len_app, !be_bytes_len, len_cons, len_nil; lia).
  assert (Hhl : len (initial_header i n) = 6 + len (i_dcid i) + len (i_scid i) + len t1 + len (i_token i) + len t2)
    by (unfold initial_header, vec; rewrite !len_app, !be_bytes_len; subst t1 t2; lia).
  unfold parse_header. rewrite (proj2 (Z.ltb_ge (len D) 5)) by lia.
  assert (@index fuel_out D 0 = Ret f0) as -> by (by apply (index_app [])). cbn [mbind go_bind].
  rewrite (proj2 (Z.eqb_neq _ _)) by done.
  rewrite (uint_be_at D [f0] (be_bytes 4 quicVersion1) _ 4 1 ED) by done. cbn [mbind go_bind].
  change (be (be_bytes 4 quicVersion1) =? quicVersion1) with true. cbn [negb].
  rewrite HT. change (0 =? initialPacketType) with true. cbn [negb].
  rewrite (proj2 (Z.ltb_ge (len D) (5 + 1))) by lia.
  rewrite (uint_be_at D ([f0] ++ be_bytes 4 quicVersion1) (be_bytes 1 (len (i_dcid i))) _ 1 5)
    by (rewrite ?ED; done || app_eq). cbn [mbind go_bind].
  rewrite vec1_be by done. rewrite (proj2 (Z.ltb_ge (len D) (5 + 1 + _))) by lia.
  rewrite (slice_at D ([f0] ++ be_bytes 4 quicVersion1 ++ be_bytes 1 (len (i_dcid i))) (i_dcid i)
    (be_bytes 1 (len (i_scid i)) ++ i_scid i ++ t1 ++ i_token i ++ t2 ++ prot) (5 + 1))
    by (rewrite ?ED; done || app_eq). cbn [mbind go_bind].
  rewrite (proj2 (Z.ltb_ge (len D) (5 + 1 + len (i_dcid i) + 1))) by lia.
  rewrite (uint_be_at D ([f0] ++ be_bytes 4 quicVersion1 ++ be_bytes 1 (len (i_dcid i)) ++ i_dcid i)
    (be_bytes 1 (len (i_scid i))) (i_scid i ++ t1 ++ i_token i ++ t2 ++ prot) 1)
    by (rewrite ?ED; rewrite ?len_app, ?be_bytes_len, ?len_cons, ?len_nil; lia || app_eq). cbn [mbind go_bind].
  rewrite vec1_be by done. rewrite (proj2 (Z.ltb_ge (len D) (_ + len (i_scid i)))) by lia.
  rewrite (slice_from_at D ([f0] ++ be_bytes 4 quicVersion1 ++ be_bytes 1 (len (i_dcid i)) ++ i_dcid i ++
    be_bytes 1 (len (i_scid i)) ++ i_scid i) (t1 ++ i_token i ++ t2 ++ prot))
    by (rewrite ?ED; rewrite ?len_app, ?be_bytes_len, ?len_cons, ?len_nil; lia || app_eq). cbn [mbind go_bind].
  rewrite HV1. cbn [mbind go_bind].
  replace (_ || _) with false by (symmetry; apply orb_false_iff; split; lia).
  rewrite (slice_from_at D ([f0] ++ be_bytes 4 quicVersion1 ++ be_bytes 1 (len (i_dcid i)) ++ i_dcid i ++
    be_bytes 1 (len (i_scid i)) ++ i_scid i ++ t1 ++ i_token i) (t2 ++ prot))
    by (rewrite ?ED; rewrite ?len_app, ?be_bytes_len, ?len_cons, ?len_nil; lia || app_eq). cbn [mbind go_bind].
  rewrite HV2. cbn [mbind go_bind].
  replace (_ || _) with false by (symmetry; apply orb_false_iff; split; lia).
  rewrite (proj2 (Z.ltb_ge (len D) (_ + n))) by lia.
  rewrite (slice_at D ([f0] ++ be_bytes 4 quicVersion1 ++ be_bytes 1 (len (i_dcid i)) ++ i_dcid i ++
    be_bytes 1 (len (i_scid i)) ++ i_scid i ++ t1 ++ i_token i ++ t2) prot [])
    by (rewrite ?ED, ?app_nil_r; rewrite ?len_app, ?be_bytes_len, ?len_cons, ?len_nil; lia || app_eq).
  simpl. do 4 f_equal. lia.
Qed.

(** Masking keeps the form and type bits, and is undone by masking again. *)
Lemma first_masked fb m :
  0xc0 <= fb <= 0xc3 ->
  let f0 := zb (Z.lxor fb (Z.land (bz m) 0x0f)) in
  Z.land (bz f0) longHeaderForm <> 0 /\ Z.shiftr (Z.land (bz f0) 0x30) 4 = 0 /\
  Z.lxor (bz f0) (Z.land (bz m) 0x0f) = fb.
Proof.
  intros Hf f0. subst f0.
  assert (fb = 0xc0 \/ fb = 0xc1 \/ fb = 0xc2 \/ fb = 0xc3) as Hc by lia.
  destruct Hc as [->|[->|[->| ->]]]; destruct m; vm_compute; repeat split; congruence.
Qed.

Lemma drop_same_length {A} (a b c : list A) n :
  length a = length b -> (length a <= n)%nat -> drop n (a ++ c) = drop n (b ++ c).
Proof. intros E Hn. rewrite !drop_app_ge by lia. by rewrite E. Qed.

Lemma header_sample_long prot :
  20 <= len prot -> header_sample prot = Ret (Some (take 16 (drop 4 prot))).
Proof.
  intros Hl. unfold header_sample. rewrite (proj2 (Z.ltb_ge (len prot) (4 + 16))) by lia.
  cbn iota zeta. rewrite (proj2 (Z.ltb_ge (len prot) (4 + 16))) by lia. by rewrite slice_ok by lia.
Qed.

(** Opening under the mask that protected the header. *)
Lemma open_masked_protected fb hdr pn ct key iv m0 m :
  fb = 0xc0 + (len pn - 1) -> 1 <= len pn <= 4 -> length m = 15%nat -> 16 <= len ct ->
  let x := xor_bytes pn (take (length pn) m) in
  open_masked (zb (Z.lxor fb (Z.land (bz m0) 0x0f)) :: hdr ++ x ++ ct) (1 + len hdr) (x ++ ct) key iv (m0 :: m) =
  Ret (gcm_open (aes_encrypt key) (nonce_of iv pn) ct (zb fb :: hdr ++ pn)).
Proof.
  intros Hfb Hpn Hm Hct x.
  assert (Hlx : len x = len pn) by (unfold len; subst x; rewrite xor_bytes_length; [done|rewrite length_take; unfold len in Hpn; lia]).
  assert (Hxx : xor_bytes x (take (length pn) m) = pn)
    by (apply xor_bytes_twice; rewrite length_take; unfold len in Hpn; lia).
  clearbody x. destruct (first_masked fb m0) as (_ & _ & HF); [lia|]. cbv zeta in HF.
  set (f0 := zb (Z.lxor fb (Z.land (bz m0) 0x0f))) in *. clearbody f0.
  assert (forall y (l : bytes), @index fuel_out (y :: l) 0 = Ret y) as HI by (intros y l; by apply (index_app [])).
  unfold open_masked. rewrite !HI. cbn [mbind go_bind]. rewrite HF.
  assert (Z.land fb 3 + 1 = len pn) as ->.
  { assert (len pn = 1 \/ len pn = 2 \/ len pn = 3 \/ len pn = 4) as Hc by lia.
    rewrite Hfb. by destruct Hc as [->|[->|[->| ->]]]. }
  rewrite (proj2 (Z.ltb_ge (len (x ++ ct)) (len pn))) by (rewrite len_app; lia).
  rewrite (slice_at (x ++ ct) [] x ct) by (reflexivity || lia). cbn [mbind go_bind].
  assert (@slice fuel_out (m0 :: m) 1 (1 + len pn) = Ret (take (length pn) m)) as ->.
  { apply (slice_at _ [m0] _ (drop (length pn) m)); [by rewrite take_drop|reflexivity|].
    unfold len in *. rewrite length_take. lia. }
  cbn [mbind go_bind]. rewrite Hxx.
  rewrite (slice_at (f0 :: hdr ++ x ++ ct) [f0] hdr (x ++ ct)) by (reflexivity || lia). cbn [mbind go_bind].
  rewrite (slice_from_at (x ++ ct) x ct) by (reflexivity || lia). cbn [mbind go_bind].
  by rewrite (proj2 (Z.ltb_ge (len ct) aeadTagSize)) by (unfold aeadTagSize; lia).
Qed.

Lemma extractSNI_protected i pt : initial_ok i pt -> extractSNI (protect i pt) = parseCryptoFrames pt.
Proof.
  intros Hok. unfold protect.
  destruct (returns_inv _ _ (initial_keys_returns (i_dcid i))) as ([[key iv] hp] & HK & Hk & Hi & Hh).
  rewrite HK. cbv zeta.
  set (hdr := initial_header i (payload_len i pt)). set (aad := zb (first_byte i) :: hdr ++ i_pn i).
  set (ct := gcm_seal _ _ _ _).
  assert (forall b, length (aes_encrypt key b) = 16%nat) as HE
    by (intros b; apply aes_encrypt_length; unfold len in Hk; lia).
  assert (HG : gcm_open (aes_encrypt key) (nonce_of iv (i_pn i)) ct aad = Some pt) by (by apply gcm_open_seal).
  assert (Hct : len ct = len pt + 16) by (unfold len; subst ct; rewrite gcm_seal_length by done; lia).
  pose proof (aes_encrypt_length hp (take 16 (drop 4 (i_pn i ++ ct))) ltac:(unfold len in Hh; lia)) as HM.
  destruct (aes_encrypt hp _) as [|m0 m] eqn:EM; [done|]. injection HM as HM. clearbody ct.
  pose proof (ok_pn _ _ Hok) as Hpn. pose proof (ok_sample _ _ Hok). pose proof (len_nonneg pt).
  set (x := xor_bytes (i_pn i) (take (length (i_pn i)) m)).
  assert (Hlx : length x = length (i_pn i))
    by (apply xor_bytes_length; rewrite length_take; unfold len in Hpn; lia).
  assert (HL : len (x ++ ct) = payload_len i pt) by (rewrite len_app, Hct; unfold payload_len, len; rewrite Hlx; lia).
  destruct (first_masked (first_byte i) m0) as (H1 & H2 & _); [unfold first_byte; lia|].
  unfold extractSNI. subst hdr.
  rewrite (parse_header_initial i pt _ _ Hok HL H1 H2). cbn [mbind go_bind].
  unfold open_initial. rewrite HK. cbn [mbind go_bind].
  rewrite header_sample_long by (rewrite HL; unfold payload_len; lia). cbn [mbind go_bind].
  assert (drop 4 (x ++ ct) = drop 4 (i_pn i ++ ct)) as ->
    by (apply drop_same_length; [done|]; rewrite Hlx; unfold len in Hpn; lia).
  rewrite EM.
  pose proof (open_masked_protected (first_byte i) (initial_header i (payload_len i pt)) (i_pn i) ct key iv m0 m
    eq_refl Hpn HM ltac:(lia)) as HO. cbv zeta in HO. fold x in HO.
  rewrite HO. fold aad. rewrite HG. reflexivity.
Qed.

(** ** Lemmas: a ClientHello inside a CRYPTO frame *)

(** The hellos whose server name list starts with the host name, which every
    deployed client sends. *)
Inductive exts_first (name : bytes) : bytes -> Prop :=
| first_here more tl rest b : b = vec 2 (name_entry Byte.x00 name ++ more) ++ tl ->
    fits 2 name -> fits 2 (name_entry Byte.x00 name ++ more) -> fits 2 b ->
    exts_first name (extension 0 b ++ rest)
| first_skip t x e : 0 < t < 65536 -> fits 2 x -> exts_first name e -> exts_first name (extension t x ++ e).

Inductive hello_first (name : bytes) : bytes -> Prop :=
| hello_first_intro fixed sid cs comp exts tl body :
    len fixed = 34 -> fits 1 sid -> fits 2 cs -> fits 1 comp -> fits 2 exts ->
    exts_first name exts ->
    body = fixed ++ vec 1 sid ++ vec 2 cs ++ vec 1 comp ++ vec 2 exts ++ tl -> fits 3 body ->
    hello_first name (Byte.x01 :: vec 3 body).

Lemma exts_first_sni name e : exts_first name e -> exts_sni name e.
Proof.
  induction 1 as [more tl rest b -> H1 H2 H3|]; constructor; try done.
  exists (name_entry Byte.x00 name ++ more), tl. split; [done|]. split; [done|]. by constructor.
Qed.

Lemma hello_first_sni name b : hello_first name b -> hello_sni name b.
Proof.
  intros [fixed sid cs comp exts tl body ? ? ? ? ? He Hb ?].
  rewrite <- (app_nil_r (vec 3 body)).
  apply (hello_intro name fixed sid cs comp exts tl [] body); try done. by apply exts_first_sni.
Qed.

Lemma be2 t : 0 <= t < 65536 -> be (be_bytes 2 t) = t.
Proof. intros Ht. rewrite be_be_bytes. by apply Z.mod_small. Qed.

Lemma be_vec k x : fits k x -> be (be_bytes k (len x)) = len x.
Proof. intros Hf. rewrite be_be_bytes. apply Z.mod_small. unfold fits in Hf. pose proof (len_nonneg x). lia. Qed.

(** One extension of the loop, at the offset where it starts. *)
Lemma sni_ext_step fuel pre t x e eo :
  eo = len pre -> 0 < t < 65536 -> fits 2 x ->
  sni_ext_loop (S fuel) (pre ++ extension t x ++ e) eo =
  sni_ext_loop fuel (pre ++ extension t x ++ e) (eo + 4 + len x).
Proof.
  intros -> Ht Hf. pose proof (len_nonneg pre). pose proof (len_nonneg x). pose proof (len_nonneg e).
  assert (ED : pre ++ extension t x ++ e = pre ++ be_bytes 2 t ++ be_bytes 2 (len x) ++ x ++ e)
    by (unfold extension, vec; by rewrite <- !app_assoc).
  set (D := pre ++ extension t x ++ e) in *.
  assert (HL : len D = len pre + 4 + len x + len e) by (rewrite ED, !len_app, !be_bytes_len; lia).
  cbn [sni_ext_loop]. rewrite (proj2 (Z.leb_le (len pre + 4) (len D))) by lia. cbn [negb].
  rewrite (uint_be_at D pre (be_bytes 2 t) _ 2 (len pre) ED) by reflexivity. cbn [mbind go_bind].
  rewrite (uint_be_at D (pre ++ be_bytes 2 t) (be_bytes 2 (len x)) (x ++ e) 2)
    by (rewrite ?ED, ?len_app, ?be_bytes_len; reflexivity || lia || app_eq). cbn [mbind go_bind].
  rewrite (be2 t), be_vec by (done || lia). rewrite (proj2 (Z.ltb_ge (len D) (_ + len x))) by lia.
  by rewrite (proj2 (Z.eqb_neq t tlsExtServerNameID)) by (unfold tlsExtServerNameID; lia).
Qed.

Lemma sni_ext_here fuel pre name more tl rest b eo :
  eo = len pre -> b = vec 2 (name_entry Byte.x00 name ++ more) ++ tl ->
  fits 2 name -> fits 2 (name_entry Byte.x00 name ++ more) -> fits 2 b ->
  sni_ext_loop (S fuel) (pre ++ extension 0 b ++ rest) eo = Ret (Some name).
Proof.
  intros -> Eb Hn Hl Hb. pose proof (len_nonneg pre). pose proof (len_nonneg name). pose proof (len_nonneg more).
  pose proof (len_nonneg b). pose proof (len_nonneg rest). pose proof (len_nonneg tl).
  assert (ED : pre ++ extension 0 b ++ rest = pre ++ be_bytes 2 0 ++ be_bytes 2 (len b) ++ b ++ rest)
    by (unfold extension, vec; by rewrite <- !app_assoc).
  set (D := pre ++ extension 0 b ++ rest) in *.
  assert (HL : len D = len pre + 4 + len b + len rest) by (rewrite ED, !len_app, !be_bytes_len; lia).
  cbn [sni_ext_loop]. rewrite (proj2 (Z.leb_le (len pre + 4) (len D))) by lia. cbn [negb].
  rewrite (uint_be_at D pre (be_bytes 2 0) _ 2 (len pre) ED) by reflexivity. cbn [mbind go_bind].
  rewrite (uint_be_at D (pre ++ be_bytes 2 0) (be_bytes 2 (len b)) (b ++ rest) 2)
    by (rewrite ?ED, ?len_app, ?be_bytes_len; reflexivity || lia || app_eq). cbn [mbind go_bind].
  rewrite (be2 0), be_vec by (done || lia). rewrite (proj2 (Z.ltb_ge (len D) (_ + len b))) by lia.
  change (0 =? tlsExtServerNameID) with true. cbn iota.
  rewrite (slice_at D (pre ++ be_bytes 2 0 ++ be_bytes 2 (len b)) b rest)
    by (rewrite ?ED, ?len_app, ?be_bytes_len; reflexivity || lia || app_eq). cbn [mbind go_bind].
  set (names := name_entry Byte.x00 name ++ more) in *.
  assert (Hlb : len b = 2 + len names + len tl) by (rewrite Eb, len_app, vec_len; lia).
  assert (Hln : len names = 3 + len name + len more)
    by (subst names; unfold name_entry; rewrite len_app, len_cons, vec_len; lia).
  rewrite (proj2 (Z.ltb_ge (len b) 2)) by lia.
  assert (Eb' : b = be_bytes 2 (len names) ++ names ++ tl) by (rewrite Eb; unfold vec; app_eq).
  rewrite (uint_be_at b [] (be_bytes 2 (len names)) (names ++ tl)) by (done || reflexivity).
  cbn [mbind go_bind]. rewrite be_vec by done. rewrite (proj2 (Z.ltb_ge (len b - 2) (len names))) by lia.
  rewrite (slice_at b (be_bytes 2 (len names)) names tl) by (done || reflexivity). cbn [mbind go_bind].
  rewrite (proj2 (Z.ltb_ge (len names) 3)) by lia.
  assert (@index fuel_out names 0 = Ret Byte.x00) as -> by (by apply (index_app [])). cbn [mbind go_bind].
  change (negb (bz Byte.x00 =? 0)) with false. cbn iota.
  assert (En : names = [Byte.x00] ++ be_bytes 2 (len name) ++ name ++ more)
    by (subst names; unfold name_entry, vec; simpl; app_eq).
  rewrite (uint_be_at names [Byte.x00] (be_bytes 2 (len name)) (name ++ more)) by (done || reflexivity).
  cbn [mbind go_bind]. rewrite be_vec by done. rewrite (proj2 (Z.ltb_ge (len names - 3) (len name))) by lia.
  rewrite (slice_at names ([Byte.x00] ++ be_bytes 2 (len name)) name more) by (done || (rewrite En; app_eq) || reflexivity).
  done.
Qed.

Lemma sni_ext_complete name e : exts_first name e -> forall fuel pre,
  (length e < fuel)%nat -> sni_ext_loop fuel (pre ++ e) (len pre) = Ret (Some name).
Proof.
  induction 1 as [more tl rest b Eb Hn Hl Hb|t x e Ht Hf _ IH]; intros [|fuel] pre Hfu; try lia.
  - by apply (sni_ext_here fuel pre name more tl rest b).
  - rewrite sni_ext_step by done. pose proof (extension_length t x e).
    rewrite (app_assoc pre). replace (len pre + 4 + len x) with (len (pre ++ extension t x)).
    + apply IH. lia.
    + unfold extension. rewrite !len_app, be_bytes_len, vec_len. lia.
Qed.

Lemma sniFromClientHello_complete name b : hello_first name b -> sniFromClientHello b = Ret (Some name).
Proof.
  intros [fixed sid cs comp exts tl body H34 Hsid Hcs Hcomp Hexts He Eb Hf].
  pose proof (len_nonneg sid). pose proof (len_nonneg cs). pose proof (len_nonneg comp).
  pose proof (len_nonneg exts). pose proof (len_nonneg tl).
  assert (EB : body = fixed ++ be_bytes 1 (len sid) ++ sid ++ be_bytes 2 (len cs) ++ cs ++
    be_bytes 1 (len comp) ++ comp ++ be_bytes 2 (len exts) ++ exts ++ tl)
    by (rewrite Eb; unfold vec; by rewrite <- !app_assoc).
  assert (HLB : len body = 40 + len sid + len cs + len comp + len exts + len tl)
    by (rewrite EB, !len_app, !be_bytes_len; lia).
  unfold sniFromClientHello. set (D := Byte.x01 :: vec 3 body).
  assert (HLD : len D = 4 + len body) by (subst D; rewrite len_cons, vec_len; lia).
  rewrite (proj2 (Z.ltb_ge (len D) 5)) by lia. unfold hello_bytes.
  assert (@index fuel_out D 0 = Ret Byte.x01) as HI by (by apply (index_app [])). rewrite HI. cbn [mbind go_bind].
  change (bz Byte.x01 =? 22) with false. change (bz Byte.x01 =? 1) with true. cbn [mbind go_bind mret go_ret].
  rewrite (proj2 (Z.ltb_ge (len D) 4)) by lia. rewrite HI. cbn [mbind go_bind].
  change (negb (bz Byte.x01 =? 1)) with false. cbn iota.
  rewrite (slice_from_at D (Byte.x01 :: be_bytes 3 (len body)) body) by (reflexivity || (rewrite len_cons, be_bytes_len; reflexivity)).
  cbn [mbind go_bind]. unfold sni_from_hello.
  rewrite (proj2 (Z.ltb_ge (len body) 34)), (proj2 (Z.ltb_ge (len body) (34 + 1))) by lia.
  rewrite (uint_be_at body fixed (be_bytes 1 (len sid)) _ 1 34 EB) by (by symmetry || reflexivity). cbn [mbind go_bind].
  rewrite be_vec by done. rewrite (proj2 (Z.ltb_ge (len body) (34 + 1 + len sid + 2))) by lia.
  rewrite (uint_be_at body (fixed ++ be_bytes 1 (len sid) ++ sid) (be_bytes 2 (len cs))
    (cs ++ be_bytes 1 (len comp) ++ comp ++ be_bytes 2 (len exts) ++ exts ++ tl))
    by (rewrite ?EB, ?len_app, ?be_bytes_len; reflexivity || lia || app_eq). cbn [mbind go_bind].
  rewrite be_vec by done. rewrite (proj2 (Z.ltb_ge (len body) (_ + len cs + 1))) by lia.
  rewrite (uint_be_at body (fixed ++ be_bytes 1 (len sid) ++ sid ++ be_bytes 2 (len cs) ++ cs) (be_bytes 1 (len comp))
    (comp ++ be_bytes 2 (len exts) ++ exts ++ tl))
    by (rewrite ?EB, ?len_app, ?be_bytes_len; reflexivity || lia || app_eq). cbn [mbind go_bind].
  rewrite be_vec by done. rewrite (proj2 (Z.ltb_ge (len body) (_ + len comp + 2))) by lia.
  rewrite (uint_be_at body (fixed ++ be_bytes 1 (len sid) ++ sid ++ be_bytes 2 (len cs) ++ cs ++
    be_bytes 1 (len comp) ++ comp) (be_bytes 2 (len exts)) (exts ++ tl))
    by (rewrite ?EB, ?len_app, ?be_bytes_len; reflexivity || lia || app_eq). cbn [mbind go_bind].
  rewrite be_vec by done. rewrite (proj2 (Z.ltb_ge (len body) (_ + len exts))) by lia.
  rewrite (slice_at body (fixed ++ be_bytes 1 (len sid) ++ sid ++ be_bytes 2 (len cs) ++ cs ++
    be_bytes 1 (len comp) ++ comp ++ be_bytes 2 (len exts)) exts tl)
    by (rewrite ?EB, ?len_app, ?be_bytes_len; reflexivity || lia || app_eq). cbn [mbind go_bind].
  exact (sni_ext_complete name exts He (S (length exts)) [] ltac:(lia)).
Qed.

(** ** Lemmas: frames *)
Lemma crypto_frame_hello pre k1 k2 o name hello rest :
  (k1 < 4)%nat -> 0 <= o < 2 ^ (8 * 2 ^ Z.of_nat k1 - 2) ->
  (k2 < 4)%nat -> len hello < 2 ^ (8 * 2 ^ Z.of_nat k2 - 2) ->
  hello_first name hello -> name <> [] ->
  crypto_frame (pre ++ varint_enc k1 o ++ varint_enc k2 (len hello) ++ hello ++ rest) (len pre) =
  Ret (inl (Some name)).
Proof.
  intros Hk1 Ho Hk2 Hl Hh Hn. pose proof (len_nonneg hello). pose proof (len_nonneg rest). pose proof (len_nonneg pre).
  destruct (varint_enc_spec k1 o (varint_enc k2 (len hello) ++ hello ++ rest) Hk1 Ho) as [HV1 HL1].
  destruct (varint_enc_spec k2 (len hello) (hello ++ rest) Hk2 ltac:(lia)) as [HV2 HL2].
  assert (0 < 2 ^ Z.of_nat k1) by (apply Z.pow_pos_nonneg; lia).
  assert (0 < 2 ^ Z.of_nat k2) by (apply Z.pow_pos_nonneg; lia).
  set (t1 := varint_enc k1 o) in *. set (t2 := varint_enc k2 (len hello)) in *. clearbody t1 t2.
  set (D := pre ++ t1 ++ t2 ++ hello ++ rest).
  assert (HLD : len D = len pre + len t1 + len t2 + len hello + len rest) by (subst D; rewrite !len_app; lia).
  unfold crypto_frame, varint_at.
  rewrite (slice_from_at D pre (t1 ++ t2 ++ hello ++ rest)) by reflexivity. cbn [mbind go_bind].
  rewrite HV1. cbn [mbind go_bind mret go_ret]. rewrite (proj2 (Z.eqb_neq (2 ^ Z.of_nat k1) 0)) by lia.
  rewrite (slice_from_at D (pre ++ t1) (t2 ++ hello ++ rest)) by (subst D; rewrite ?len_app; lia || app_eq).
  cbn [mbind go_bind]. rewrite HV2. cbn [mbind go_bind].
  replace (_ || _) with false by (symmetry; apply orb_false_iff; split; lia).
  rewrite (slice_at D (pre ++ t1 ++ t2) hello rest) by (subst D; rewrite ?len_app; lia || app_eq).
  cbn [mbind go_bind]. rewrite (sniFromClientHello_complete name hello Hh). cbn [mbind go_bind].
  by rewrite bool_decide_eq_false_2.
Qed.

Lemma skip_padding_zeros fuel pre n x rest :
  x <> Byte.x00 -> (n < fuel)%nat ->
  skip_padding fuel (pre ++ replicate n Byte.x00 ++ x :: rest) (len pre) = Ret (len pre + Z.of_nat n).
Proof.
  intros Hx. revert pre fuel. induction n as [|n IH]; intros pre [|fuel] Hf; try lia; cbn [skip_padding].
  - simpl. rewrite (proj2 (Z.ltb_lt _ _)) by (rewrite len_app, len_cons; pose proof (len_nonneg rest); lia).
    rewrite index_app by done. cbn [mbind go_bind].
    destruct (bz x =? 0) eqn:E; [by apply bz_zero in E|]. simpl. f_equal. lia.
  - cbn [replicate app]. rewrite (proj2 (Z.ltb_lt _ _)) by (rewrite len_app, len_cons; pose proof (len_nonneg (replicate n Byte.x00 ++ x :: rest)); lia).
    rewrite index_app by done. cbn [mbind go_bind]. change (bz Byte.x00 =? 0) with true. cbn iota.
    replace (pre ++ Byte.x00 :: replicate n Byte.x00 ++ x :: rest)
      with ((pre ++ [Byte.x00]) ++ replicate n Byte.x00 ++ x :: rest) by app_eq.
    replace (len pre + 1) with (len (pre ++ [Byte.x00])) by (rewrite len_app, len_cons, len_nil; lia).
    rewrite IH by lia. rewrite len_app, len_cons, len_nil. f_equal. lia.
Qed.

(** Padding, then a CRYPTO frame with a ClientHello. *)
Definition hello_frames (n k1 k2 : nat) (o : Z) (hello rest : bytes) : bytes :=
  replicate n Byte.x00 ++ Byte.x06 :: varint_enc k1 o ++ varint_enc k2 (len hello) ++ hello ++ rest.

Lemma parse_hello_frames n k1 k2 o name hello rest :
  (k1 < 4)%nat -> 0 <= o < 2 ^ (8 * 2 ^ Z.of_nat k1 - 2) ->
  (k2 < 4)%nat -> len hello < 2 ^ (8 * 2 ^ Z.of_nat k2 - 2) ->
  hello_first name hello -> name <> [] ->
  parseCryptoFrames (hello_frames n k1 k2 o hello rest) = Ret (Some name).
Proof.
  intros Hk1 Ho Hk2 Hl Hh Hn. set (tl := varint_enc k1 o ++ varint_enc k2 (len hello) ++ hello ++ rest).
  assert (Hcrypto : forall fuel pre, frames_loop (S fuel) (pre ++ Byte.x06 :: tl) (len pre) = Ret (Some name)).
  { intros fuel pre. cbn [frames_loop].
    rewrite (proj2 (Z.ltb_lt _ _)) by (rewrite len_app, len_cons; pose proof (len_nonneg tl); lia).
    rewrite index_app by done. cbn [mbind go_bind].
    change (bz Byte.x06 =? 0) with false. change (bz Byte.x06 =? 6) with true. cbn iota.
    replace (pre ++ Byte.x06 :: tl) with ((pre ++ [Byte.x06]) ++ tl) by app_eq.
    replace (len pre + 1) with (len (pre ++ [Byte.x06])) by (rewrite len_app, len_cons, len_nil; lia).
    subst tl. by rewrite (crypto_frame_hello _ k1 k2 o name). }
  unfold parseCryptoFrames, hello_frames. fold tl. destruct n as [|n].
  - apply (Hcrypto _ []).
  - set (D := replicate (S n) Byte.x00 ++ Byte.x06 :: tl).
    assert (Hlen : (S n < length D)%nat) by (subst D; rewrite length_app, length_replicate; simpl; lia).
    destruct (length D) as [|f] eqn:EL; [lia|]. cbn [frames_loop].
    rewrite (proj2 (Z.ltb_lt 0 (len D))) by (unfold len; lia).
    assert (@index fuel_out D 0 = Ret Byte.x00) as -> by (by apply (index_app [])). cbn [mbind go_bind].
    change (bz Byte.x00 =? 0) with true. cbn iota.
    assert (skip_padding (S (length D)) D (0 + 1) = Ret (Z.of_nat (S n))) as ->.
    { pose proof (skip_padding_zeros (S (length D)) [Byte.x00] n Byte.x06 tl ltac:(done) ltac:(lia)) as HS.
      change ([Byte.x00] ++ replicate n Byte.x00 ++ Byte.x06 :: tl) with D in HS.
      change (len [Byte.x00]) with (0 + 1) in HS. rewrite HS. f_equal. lia. }
    cbn [mbind go_bind]. pose proof (Hcrypto f (replicate (S n) Byte.x00)) as HC.
    fold D in HC. replace (len (replicate (S n) Byte.x00)) with (Z.of_nat (S n)) in HC
      by (unfold len; by rewrite length_replicate). exact HC.
Qed.

(** ** Properties *)

(** readVarint decodes every encoding of a QUIC variable-length integer,
    in any of the four sizes, to its value and size; on any input it returns
    without a panic, a value below 2^62 and a size that fits the input. *)
Theorem readVarint_exact :
  (forall k v rest, (k < 4)%nat -> 0 <= v < 2 ^ (8 * 2 ^ Z.of_nat k - 2) ->
    readVarint (varint_enc k v ++ rest) = Ret (v, 2 ^ Z.of_nat k)) /\
  (forall buf, exists v n, readVarint buf = Ret (v, n) /\ 0 <= v < 2 ^ 62 /\ 0 <= n <= len buf).
Proof.
  split.
  - intros k v rest Hk Hv. by apply varint_enc_spec.
  - intros buf. destruct (returns_inv _ _ (readVarint_returns buf)) as ([v n] & -> & Hn). exists v, n.
    split; [done|]. pose proof (len_nonneg buf). cbv beta iota in Hn. destruct Hn as [[-> ->]|Hn]; split; lia.
Qed.

(** C3: round trip of the QUIC Initial path.  A client that sends its
    ClientHello (server name first in its list) in a CRYPTO frame, after any
    padding, protected with the RFC 9001 Initial keys of its connection id
    (any id, token, packet number and encoding of the lengths), is
    identified: extractSNI removes the header protection, opens the payload
    and returns exactly the name it sent. *)
Theorem extractSNI_roundtrip i n k1 k2 o name hello rest :
  initial_ok i (hello_frames n k1 k2 o hello rest) ->
  (k1 < 4)%nat -> 0 <= o < 2 ^ (8 * 2 ^ Z.of_nat k1 - 2) ->
  (k2 < 4)%nat -> len hello < 2 ^ (8 * 2 ^ Z.of_nat k2 - 2) ->
  hello_first name hello -> name <> [] ->
  extractSNI (protect i (hello_frames n k1 k2 o hello rest)) = Ret (Some name).
Proof. intros Hok. intros. rewrite extractSNI_protected by done. by apply parse_hello_frames. Qed.

(** the QUIC and the TCP parser agree on the ClientHello messages whose
    server name list starts with the host name: both return it. *)
Theorem parsers_agree name b :
  hello_first name b ->
  sniFromClientHello b = Ret (Some name) /\ extractSNIFromHandshake b = Ret name.
Proof.
  intros Hb. split; [by apply sniFromClientHello_complete|]. by apply extract_complete, hello_first_sni.
Qed.

(** C13: extractSNI answers every datagram, and its loops end, with one
    exception: it panics only when the decrypted plaintext has a CRYPTO
    frame whose data length is larger than what follows the length field but
    not larger than what follows the offset field, the one case the guard of
    parseCryptoFrames lets through. *)
Theorem extractSNI_panics_only_on_overrun data :
  (exists r, extractSNI data = Ret r) \/
  (extractSNI data = Panic /\ exists dcid off prot pt off', parse_header data = Ret (Some (dcid, off, prot)) /\
     open_initial data dcid off prot = Ret (Some pt) /\ overrun pt off').
Proof. apply extractSNI_cases. Qed.

(** that case is reachable from the network: any well-formed Initial
    packet whose plaintext is the three bytes 06 00 01 (a CRYPTO frame that
    announces one byte and ends) makes extractSNI panic, whatever the
    connection ids, token and packet number. *)
Theorem extractSNI_remote_panic i :
  initial_ok i [Byte.x06; Byte.x00; Byte.x01] ->
  extractSNI (protect i [Byte.x06; Byte.x00; Byte.x01]) = Panic.
Proof. intros Hok. rewrite extractSNI_protected by done. vm_compute. reflexivity. Qed.

(** ** Witnesses *)
Definition demo_initial : Initial :=
  {| i_dcid := hex "8394c8f03e515708"; i_scid := []; i_token := []; i_pn := [Byte.x02];
     i_tk := 0; i_lk := 1 |}.

(** The Initial keys of RFC 9001, appendix A.1. *)
Example rfc9001_keys :
  initial_keys (hex "8394c8f03e515708") =
  Ret (hex "1f369613dd76d5467730efcbe3b1a22d", hex "fa044b2f42a3fd3b46fb255c",
       hex "9f50449e04a0e810283a1e9933adedd2").
Proof. vm_compute. reflexivity. Qed.

Definition demo_frames : bytes := hello_frames 3 0 1 0 demo_hello [].

Lemma demo_hello_first : hello_first (str "a.example") demo_hello.
Proof.
  unfold demo_hello.
  eapply (hello_first_intro _ (replicate 34 Byte.x07) (str "sid") [Byte.x13; Byte.x01] [Byte.x00]
    (extension 43 [Byte.x03] ++ extension 0 (vec 2 (name_entry Byte.x00 (str "a.example")))) []);
    try (vm_compute; reflexivity).
  apply first_skip; [lia|vm_compute; reflexivity|].
  rewrite <- (app_nil_r (extension 0 _)).
  apply (first_here _ [] [] []); vm_compute; reflexivity.
Qed.

Lemma parsers_agree_witness : sniFromClientHello demo_hello = Ret (Some (str "a.example")).
Proof. exact (proj1 (parsers_agree (str "a.example") demo_hello demo_hello_first)). Defined.

Lemma demo_initial_ok pt : 3 <= len pt -> len pt < 10000 -> initial_ok demo_initial pt.
Proof.
  intros H1 H2. constructor; try (vm_compute; reflexivity); try (vm_compute; lia); unfold payload_len;
    change (len (i_pn demo_initial)) with 1; try lia.
  change (2 ^ (8 * 2 ^ Z.of_nat (i_lk demo_initial) - 2)) with 16384. lia.
Qed.

Lemma extractSNI_roundtrip_witness :
  extractSNI (protect demo_initial demo_frames) = Ret (Some (str "a.example")).
Proof.
  apply (extractSNI_roundtrip demo_initial 3 0 1 0 (str "a.example") demo_hello []);
    [apply demo_initial_ok; vm_compute; congruence|lia|vm_compute; split; congruence|lia|vm_compute; reflexivity
    |exact demo_hello_first|discriminate].
Defined.

Lemma extractSNI_remote_panic_witness :
  extractSNI (protect demo_initial [Byte.x06; Byte.x00; Byte.x01]) = Panic.
Proof.
  apply (extractSNI_remote_panic demo_initial). apply demo_initial_ok; vm_compute; congruence.
Defined.

(** The same two packets run through the executable definitions. *)
Example demo_packet_runs :
  extractSNI (protect demo_initial demo_frames) = Ret (Some (str "a.example")) /\
  extractSNI (protect demo_initial [Byte.x06; Byte.x00; Byte.x01]) = Panic.
Proof. vm_compute. split; reflexivity. Qed.
