(* ===== verification/QuicServer.v ===== *)
(** * The QUIC forwarder's sessions

    [internal/proxy/quicforward/server.go].  The server's shared state is
    what the mutex [resourceMu] and the [sync.Map] protect; every critical
    section and every atomic map operation is one step, so that a sequence of
    steps is an interleaving of the goroutines (read loop, setup workers,
    relays, GC, shutdown).  A drop is two steps, the compare-and-delete and
    the release of the account, as in [dropSession]: the sessions in between
    are listed in [releasing].  Sessions are told apart by a generation
    number, which stands for the pointer that [CompareAndDelete] compares. *)
From S2P Require Import Prelude GoStrings GoNet Crypto Netguard Access Sni Quic QuicProtect.
From Stdlib Require Import ZArith Lia.

(** ** Configuration and state *)
Definition defaultMaxSessions : Z := 2048.
Definition defaultMaxSessionsPerIP : Z := 64.
Definition defaultMaxConcurrentSetups : Z := 128.

Record QConfig := {
  qListen : bytes; qPanelDomain : bytes; qPanelBackend : bytes; IdleTimeout : Z;
  MaxSessions : Z; MaxSessionsPerIP : Z; MaxConcurrentSetups : Z; qGate : option Gate
}.

(** The defaults that [New] fills in. *)
Definition NewQ (cfg : QConfig) : QConfig :=
  {| qListen := if qListen cfg == [] then str ":443" else qListen cfg;
     qPanelDomain := qPanelDomain cfg; qPanelBackend := qPanelBackend cfg;
     IdleTimeout := if (IdleTimeout cfg <=? 0)%Z then (300 * second)%Z else IdleTimeout cfg;
     MaxSessions := if (MaxSessions cfg <=? 0)%Z then defaultMaxSessions else MaxSessions cfg;
     MaxSessionsPerIP :=
       if (MaxSessionsPerIP cfg <=? 0)%Z then defaultMaxSessionsPerIP else MaxSessionsPerIP cfg;
     MaxConcurrentSetups :=
       if (MaxConcurrentSetups cfg <=? 0)%Z then defaultMaxConcurrentSetups else MaxConcurrentSetups cfg;
     qGate := qGate cfg |}.

Record session := { generation : nat; resourceIP : bytes; lastActivity : Z }.

Record QState := {
  q_closed : bool;
  pending : gmap bytes bytes;      (* client address -> source IP *)
  sessions : gmap bytes session;   (* client address -> session *)
  reserved : Z;
  perIP : gmap bytes Z;
  releasing : list bytes;          (* deleted sessions not yet released *)
  next_gen : nat
}.

Definition q_init : QState :=
  {| q_closed := false; pending := ∅; sessions := ∅; reserved := 0; perIP := ∅;
     releasing := []; next_gen := 0 |}.

Definition with_account (s : QState) (p : gmap bytes bytes) (ss : gmap bytes session)
    (r : Z) (m : gmap bytes Z) (rel : list bytes) : QState :=
  {| q_closed := q_closed s; pending := p; sessions := ss; reserved := r; perIP := m;
     releasing := rel; next_gen := next_gen s |}.

(** A Go map read: the zero value for a missing key. *)
Definition count_of (m : gmap bytes Z) (ip : bytes) : Z := default 0%Z (m !! ip).
Definition pending_of (s : QState) (key : bytes) : bytes := default [] (pending s !! key).

(** ** Critical sections *)
Section ops.
Context (cfg : QConfig).

(** [tryReserveSession]. *)
Definition tryReserveSession (s : QState) (key ip : bytes) : bool * QState :=
  if q_closed s || (key == []) || (ip == []) then (false, s)
  else if bool_decide (is_Some (pending s !! key)) then (false, s)
  else if bool_decide (is_Some (sessions s !! key)) then (false, s)
  else if (MaxConcurrentSetups cfg <=? Z.of_nat (size (pending s)))%Z || (MaxSessions cfg <=? reserved s)%Z
  then (false, s)
  else if (MaxSessionsPerIP cfg <=? count_of (perIP s) ip)%Z then (false, s)
  else (true, with_account s (<[key := ip]> (pending s)) (sessions s) (reserved s + 1)
                (<[ip := (count_of (perIP s) ip + 1)%Z]> (perIP s)) (releasing s)).

(** [releaseCountLocked]: the two counters it leaves. *)
Definition releaseCountLocked (r : Z) (m : gmap bytes Z) (ip : bytes) : Z * gmap bytes Z :=
  (if (0 <? r)%Z then (r - 1)%Z else r,
   if (1 <? count_of m ip)%Z then <[ip := (count_of m ip - 1)%Z]> m else delete ip m).

(** [promoteSession]; a new session gets the next generation. *)
Definition promoteSession (s : QState) (key ip : bytes) (now : Z) : bool * QState :=
  if pending_of s key != ip then (false, s)
  else if q_closed s then
    let '(r, m) := releaseCountLocked (reserved s) (perIP s) ip in
    (false, with_account s (delete key (pending s)) (sessions s) r m (releasing s))
  else
    (true,
     {| q_closed := q_closed s; pending := delete key (pending s);
        sessions := <[key := {| generation := next_gen s; resourceIP := ip; lastActivity := now |}]> (sessions s);
        reserved := reserved s; perIP := perIP s; releasing := releasing s; next_gen := S (next_gen s) |}).

(** [releasePending]. *)
Definition releasePending (s : QState) (key ip : bytes) : QState :=
  if pending_of s key != ip then s
  else
    let '(r, m) := releaseCountLocked (reserved s) (perIP s) ip in
    with_account s (delete key (pending s)) (sessions s) r m (releasing s).

(** [dropSession], first step: [CompareAndDelete]. *)
Definition compareAndDelete (s : QState) (key : bytes) (gen : nat) : bool * QState :=
  match sessions s !! key with
  | Some sess =>
      if (generation sess =? gen)%nat
      then (true, with_account s (pending s) (delete key (sessions s)) (reserved s) (perIP s)
                    (resourceIP sess :: releasing s))
      else (false, s)
  | None => (false, s)
  end.

(** [dropSession], second step: [releaseEstablished]; [None] when no deleted
    session of that address waits for it. *)
Definition releaseEstablished (s : QState) (ip : bytes) : option QState :=
  match list_find (fun x => x = ip) (releasing s) with
  | None => None
  | Some (i, _) =>
      let '(r, m) := releaseCountLocked (reserved s) (perIP s) ip in
      Some (with_account s (pending s) (sessions s) r m (delete i (releasing s)))
  end.

(** The hot path of [readLoop] and the relay touch the session. *)
Definition touch (s : QState) (key : bytes) (now : Z) : QState :=
  with_account s (pending s)
    (alter (fun x => {| generation := generation x; resourceIP := resourceIP x; lastActivity := now |}) key (sessions s))
    (reserved s) (perIP s) (releasing s).

Definition close_server (s : QState) : QState :=
  {| q_closed := true; pending := pending s; sessions := sessions s; reserved := reserved s;
     perIP := perIP s; releasing := releasing s; next_gen := next_gen s |}.

(** [dropSession] run to its end: both steps, for the session the caller
    observed. *)
Definition dropSession (s : QState) (key : bytes) (expected : session) : bool * QState :=
  match compareAndDelete s key (generation expected) with
  | (false, s) => (false, s)
  | (true, s) => (true, default s (releaseEstablished s (resourceIP expected)))
  end.

Definition drop_all (s : QState) (refs : list (bytes * session)) : QState :=
  foldl (fun s '(key, sess) => (dropSession s key sess).2) s refs.

(** [reapIdle]: the snapshot of stale sessions, then their drops. *)
Definition stale_refs (s : QState) (now : Z) : list (bytes * session) :=
  filter (fun p => (IdleTimeout cfg < now - lastActivity p.2)%Z) (map_to_list (sessions s)).

Definition reapIdle (s : QState) (now : Z) : QState := drop_all s (stale_refs s now).

(** [Shutdown]: the flag, then the snapshot of all sessions and their drops. *)
Definition Shutdown (s : QState) : QState :=
  let s := close_server s in drop_all s (map_to_list (sessions s)).

(** One datagram in [readLoop]: forwarded on the session of its client
    (which it touches), or the attempt to reserve a setup for it. *)
Inductive DatagramAction := Forwarded (gen : nat) | Spawned | Ignored.

Definition on_datagram (s : QState) (key ip : bytes) (now : Z) : DatagramAction * QState :=
  match sessions s !! key with
  | Some sess => (Forwarded (generation sess), touch s key now)
  | None =>
      match tryReserveSession s key ip with
      | (true, s) => (Spawned, s)
      | (false, s) => (Ignored, s)
      end
  end.

(** ** Interleavings *)
Inductive QEvent :=
| QReserve (key ip : bytes)          (* read loop, first datagram of a flow *)
| QPromote (key ip : bytes) (now : Z) (* a setup worker succeeds *)
| QReleasePending (key ip : bytes)   (* a setup worker gives up *)
| QDelete (key : bytes) (gen : nat)  (* relay, GC or shutdown, first half of a drop *)
| QRelease (ip : bytes)              (* second half *)
| QTouch (key : bytes) (now : Z)
| QClose.

(** A worker promotes or gives up the reservation it holds, so its key is
    pending. *)
Definition q_step (s : QState) (e : QEvent) : option QState :=
  match e with
  | QReserve key ip => Some (tryReserveSession s key ip).2
  | QPromote key ip now =>
      if pending s !! key == Some ip then Some (promoteSession s key ip now).2 else None
  | QReleasePending key ip => if ip == [] then None else Some (releasePending s key ip)
  | QDelete key gen => Some (compareAndDelete s key gen).2
  | QRelease ip => releaseEstablished s ip
  | QTouch key now => Some (touch s key now)
  | QClose => Some (close_server s)
  end.

Inductive q_reach : QState -> Prop :=
| q_reach_init : q_reach q_init
| q_reach_step s e s' : q_reach s -> q_step s e = Some s' -> q_reach s'.

Definition q_run (es : list QEvent) : option QState :=
  foldl (fun o e => s ← o; q_step s e) (Some q_init) es.
End ops.

(** ** Setting a session up *)
Record UDPAddrT := { u_ip : bytes; u_port : Z }.

Inductive UpstreamError :=
| ErrEmptySNI | ErrPortSNI | ErrIPSNI | ErrNoBackend | ErrBackend | ErrGuard (e : GuardError) | ErrNoIPv4.

Section setup.
Context `{Unicode} (cfg : QConfig).
Context (LookupIPAddr : bytes -> option (list bytes)).
Context (ResolveUDPAddr : bytes -> option UDPAddrT).

Definition q_in_panel (sni : bytes) : bool :=
  let panelDomain := ToLower (TrimSpace (qPanelDomain cfg)) in
  (panelDomain != []) && ((sni == panelDomain) || HasSuffix sni (str "." ++ panelDomain)).

(** The loop for the first IPv4 answer. *)
Definition first_ipv4 (ips : list bytes) : option bytes :=
  head (omap To4 ips).

(** [resolveUpstream]. *)
Definition resolveUpstream (sni : bytes) : res UpstreamError (UDPAddrT * bool) :=
  let sni := canonical_sni sni in
  if sni == [] then Err ErrEmptySNI
  else if bool_decide (colon ∈ sni) then Err ErrPortSNI
  else match ParseIP sni with
       | Some _ => Err ErrIPSNI
       | None =>
           if q_in_panel sni then
             if qPanelBackend cfg == [] then Err ErrNoBackend
             else match ResolveUDPAddr (qPanelBackend cfg) with
                  | Some addr => Ok (addr, true)
                  | None => Err ErrBackend
                  end
           else
             match ResolvePublic LookupIPAddr sni with
             | Err e => Err (ErrGuard e)
             | Ok ips =>
                 match first_ipv4 ips with
                 | Some v4 => Ok ({| u_ip := v4; u_port := 443 |}, false)
                 | None => Err ErrNoIPv4
                 end
             end
       end.

(** What a setup worker ends with.  The worker has no [recover]: a panic of
    the parser takes the process down. *)
Inductive SetupResult :=
| SetupCrash
| SetupGiveUp                                          (* releasePending *)
| SetupPromote (upstream : UDPAddrT) (isLocal : bool). (* dialed, first datagram written *)

(** [setupSession] up to the promotion; [closed_before] and [closed_after]
    are the two reads of the flag, [dial] the dial and first write. *)
Definition setupSession (closed_before closed_after : bool) (dial : UDPAddrT -> bytes -> bool)
    (first : bytes) (clientAddr : NetAddr) : SetupResult :=
  if closed_before then SetupGiveUp
  else if (qGate cfg != None) && (negb match clientAddr with NilAddr => true | _ => false end) && negb (Allow (qGate cfg) clientAddr)
  then SetupGiveUp
  else
    match extractSNI first with
    | Panic => SetupCrash
    | Fail _ => SetupGiveUp
    | Ret None => SetupGiveUp
    | Ret (Some sni) =>
        if sni == [] then SetupGiveUp
        else match resolveUpstream sni with
             | Err _ => SetupGiveUp
             | Ok (upstream, isLocal) =>
                 if closed_after || negb (dial upstream first) then SetupGiveUp
                 else SetupPromote upstream isLocal
             end
    end.
End setup.

(** ** Lemmas: accounts *)

(** All source addresses that hold a slot: setups, sessions and sessions
    being released. *)
Definition holders (s : QState) : list bytes :=
  (map_to_list (pending s)).*2 ++ (resourceIP <$> (map_to_list (sessions s)).*2) ++ releasing s.

Definition occ (ip : bytes) (l : list bytes) : Z := Z.of_nat (length (filter (fun x => x = ip) l)).

#[export] Instance occ_proper ip : Proper (Permutation ==> eq) (occ ip).
Proof. intros l k E. unfold occ. by rewrite E. Qed.

Lemma occ_cons ip x l : occ ip (x :: l) = ((if decide (x = ip) then 1 else 0) + occ ip l)%Z.
Proof. unfold occ. rewrite filter_cons. case_decide; simpl; lia. Qed.

Lemma occ_nonneg ip l : (0 <= occ ip l)%Z.
Proof. unfold occ. lia. Qed.

Lemma occ_in ip l : ip ∈ l -> (1 <= occ ip l)%Z.
Proof.
  intros Hin. unfold occ. destruct (filter _ l) as [|y k] eqn:E; [|simpl; lia].
  assert (ip ∈ filter (fun x => x = ip) l) as H by (by apply list_elem_of_filter). rewrite E in H. set_solver.
Qed.

(** The invariant: the two counters count the holders, nothing is both
    pending and established, and the caps hold. *)
Record accounts_ok (cfg : QConfig) (s : QState) : Prop := {
  acc_reserved : reserved s = Z.of_nat (length (holders s));
  acc_perIP ip : perIP s !! ip = (if decide (occ ip (holders s) = 0%Z) then None else Some (occ ip (holders s)));
  acc_disjoint key : is_Some (pending s !! key) -> sessions s !! key = None;
  acc_nonempty key ip : pending s !! key = Some ip -> ip <> [];
  acc_setups : (Z.of_nat (size (pending s)) <= MaxConcurrentSetups cfg)%Z;
  acc_total : (reserved s <= MaxSessions cfg)%Z;
  acc_each ip : (occ ip (holders s) <= MaxSessionsPerIP cfg)%Z;
  acc_gen key x : sessions s !! key = Some x -> (generation x < next_gen s)%nat
}.

Lemma count_holders cfg s ip : accounts_ok cfg s -> count_of (perIP s) ip = occ ip (holders s).
Proof.
  intros Hok. unfold count_of. rewrite (acc_perIP _ _ Hok). case_decide as E; simpl; [by rewrite E|done].
Qed.

Lemma vals_insert {A} (m : gmap bytes A) k v :
  m !! k = None -> Permutation (map_to_list (<[k := v]> m)).*2 (v :: (map_to_list m).*2).
Proof. intros Hk. by rewrite map_to_list_insert. Qed.

Lemma vals_delete {A} (m : gmap bytes A) k v :
  m !! k = Some v -> Permutation (map_to_list m).*2 (v :: (map_to_list (delete k m)).*2).
Proof. intros Hk. by rewrite <- (map_to_list_delete m k v). Qed.

(** Releasing one holder keeps both counters exact. *)
Lemma release_counts r m ip l l' :
  Permutation l (ip :: l') -> r = Z.of_nat (length l) ->
  (forall x, m !! x = (if decide (occ x l = 0%Z) then None else Some (occ x l))) ->
  let '(r', m') := releaseCountLocked r m ip in
  r' = Z.of_nat (length l') /\
  (forall x, m' !! x = (if decide (occ x l' = 0%Z) then None else Some (occ x l'))).
Proof.
  intros HP -> Hm. unfold releaseCountLocked.
  assert (Hc : count_of m ip = (1 + occ ip l')%Z).
  { assert (occ ip l = (1 + occ ip l')%Z) as E by (by rewrite HP, occ_cons, decide_True by done).
    unfold count_of. rewrite Hm, E. pose proof (occ_nonneg ip l'). by rewrite decide_False by lia. }
  split.
  - assert (length l = S (length l')) as -> by (by rewrite HP).
    rewrite (proj2 (Z.ltb_lt 0 _)) by lia. lia.
  - intros x. rewrite Hc. pose proof (occ_nonneg ip l').
    assert (Hx : forall y, y <> ip -> occ y l = occ y l') by (intros y Hy; rewrite HP, occ_cons, decide_False by done; lia).
    destruct (decide (x = ip)) as [->|Hne].
    + destruct (Z.ltb_spec 1 (1 + occ ip l')).
      * rewrite lookup_insert_eq, decide_False by lia. f_equal. lia.
      * by rewrite lookup_delete_eq, decide_True by lia.
    + assert (HH : m !! x = (if decide (occ x l' = 0%Z) then None else Some (occ x l')))
        by (by rewrite Hm, Hx by done).
      destruct (1 <? 1 + occ ip l')%Z; [rewrite lookup_insert_ne by done|rewrite lookup_delete_ne by done]; exact HH.
Qed.

Lemma holders_delete_pending s key ip r m :
  pending s !! key = Some ip ->
  Permutation (holders s) (ip :: holders (with_account s (delete key (pending s)) (sessions s) r m (releasing s))).
Proof. intros Hp. unfold holders. simpl. by rewrite (vals_delete _ _ _ Hp). Qed.

Lemma holders_promote s key ip now :
  pending s !! key = Some ip -> sessions s !! key = None ->
  Permutation (holders s)
    (holders {| q_closed := q_closed s; pending := delete key (pending s);
        sessions := <[key := {| generation := next_gen s; resourceIP := ip; lastActivity := now |}]> (sessions s);
        reserved := reserved s; perIP := perIP s; releasing := releasing s; next_gen := S (next_gen s) |}).
Proof.
  intros Hp Hs. unfold holders. simpl. rewrite (vals_delete _ _ _ Hp), (vals_insert _ _ _ Hs). simpl.
  apply Permutation_middle.
Qed.

Lemma holders_delete_session s key x :
  sessions s !! key = Some x ->
  Permutation (holders s)
    (holders (with_account s (pending s) (delete key (sessions s)) (reserved s) (perIP s) (resourceIP x :: releasing s))).
Proof.
  intros Hs. unfold holders. simpl. rewrite (vals_delete _ _ _ Hs). simpl.
  apply Permutation_app_head, Permutation_middle.
Qed.

Lemma holders_touch s key now : Permutation (holders s) (holders (touch s key now)).
Proof.
  unfold holders, touch. simpl. destruct (sessions s !! key) as [x|] eqn:E.
  - rewrite (vals_delete _ _ _ E).
    assert (HA : alter (fun x => {| generation := generation x; resourceIP := resourceIP x; lastActivity := now |}) key (sessions s)
      = <[key := {| generation := generation x; resourceIP := resourceIP x; lastActivity := now |}]> (delete key (sessions s))).
    { apply map_eq. intros k. destruct (decide (k = key)) as [->|Hk].
      - by rewrite lookup_alter_eq, lookup_insert_eq, E.
      - by rewrite lookup_alter_ne, lookup_insert_ne, lookup_delete_ne. }
    rewrite HA, vals_insert by apply lookup_delete_eq. done.
  - by rewrite alter_id by (by intros x; rewrite E).
Qed.

(** The invariant only sees the holders up to order. *)
Lemma accounts_perm cfg s s' :
  accounts_ok cfg s -> Permutation (holders s) (holders s') ->
  reserved s' = reserved s -> perIP s' = perIP s ->
  (forall key, is_Some (pending s' !! key) -> sessions s' !! key = None) ->
  (forall key ip, pending s' !! key = Some ip -> ip <> []) ->
  (size (pending s') <= size (pending s))%nat ->
  (forall key x, sessions s' !! key = Some x -> (generation x < next_gen s')%nat) ->
  accounts_ok cfg s'.
Proof.
  intros [Hr Hp Hd Hn Hs Ht He Hg] HP E1 E2 Hd' Hn' Hs' Hg'.
  assert (HO : forall ip, occ ip (holders s') = occ ip (holders s)) by (intros ip; by rewrite HP).
  constructor; try done.
  - by rewrite E1, Hr, HP.
  - intros ip. by rewrite HO, E2.
  - lia.
  - by rewrite E1.
  - intros ip. by rewrite HO.
Qed.

(** Releasing one holder keeps the invariant. *)
Lemma accounts_release cfg s s' ip r m :
  accounts_ok cfg s -> Permutation (holders s) (ip :: holders s') ->
  releaseCountLocked (reserved s) (perIP s) ip = (r, m) -> reserved s' = r -> perIP s' = m ->
  (forall key, is_Some (pending s' !! key) -> sessions s' !! key = None) ->
  (forall key ip, pending s' !! key = Some ip -> ip <> []) ->
  (size (pending s') <= size (pending s))%nat ->
  (forall key x, sessions s' !! key = Some x -> (generation x < next_gen s')%nat) ->
  accounts_ok cfg s'.
Proof.
  intros [Hr Hp Hd Hn Hs Ht He Hg] HP HR E1 E2 Hd' Hn' Hs' Hg'.
  pose proof (release_counts _ _ ip _ _ HP Hr Hp) as HC. rewrite HR in HC. destruct HC as [HC1 HC2].
  assert (HL : length (holders s) = S (length (holders s'))) by (by rewrite HP).
  constructor; try done.
  - by rewrite E1.
  - by rewrite E2.
  - lia.
  - rewrite E1, HC1. lia.
  - intros x. specialize (He x). rewrite HP, occ_cons in He. case_decide; lia.
Qed.

Lemma accounts_reserve cfg s key ip :
  accounts_ok cfg s -> accounts_ok cfg (tryReserveSession cfg s key ip).2.
Proof.
  intros Hok. unfold tryReserveSession.
  destruct (q_closed s || _ || _) eqn:E0; [done|].
  destruct (bool_decide (is_Some (pending s !! key))) eqn:E1; [done|].
  destruct (bool_decide (is_Some (sessions s !! key))) eqn:E2; [done|].
  destruct ((MaxConcurrentSetups cfg <=? _)%Z || _) eqn:E3; [done|].
  destruct (MaxSessionsPerIP cfg <=? _)%Z eqn:E4; [done|].
  rewrite (count_holders cfg) in * by done. simpl.
  apply bool_decide_eq_false, eq_None_not_Some in E1. apply bool_decide_eq_false, eq_None_not_Some in E2.
  apply orb_false_iff in E0 as [_ E0]. apply bool_decide_eq_false in E0.
  set (s' := with_account _ _ _ _ _ _).
  assert (HP : Permutation (holders s') (ip :: holders s)) by (unfold holders; simpl; by rewrite vals_insert).
  assert (HO : forall x, occ x (holders s') = ((if decide (ip = x) then 1 else 0) + occ x (holders s))%Z)
    by (intros x; by rewrite HP, occ_cons).
  destruct Hok as [Hr Hp Hd Hn Hs Ht He Hg]. constructor.
  - rewrite HP. simpl. rewrite Hr. lia.
  - intros x. rewrite HO. simpl. pose proof (occ_nonneg ip (holders s)). destruct (decide (ip = x)) as [->|Hx].
    + rewrite lookup_insert_eq, decide_False by lia. f_equal. lia.
    + rewrite lookup_insert_ne by done. by rewrite Hp.
  - simpl. intros k. rewrite lookup_insert_is_Some. intros [->|[_ ?]]; auto.
  - simpl. intros k x. rewrite lookup_insert_Some. intros [[_ <-]|[_ ?]]; eauto.
  - simpl. rewrite map_size_insert_None by done. lia.
  - simpl. lia.
  - intros x. rewrite HO. specialize (He x). case_decide; subst; lia.
  - done.
Qed.

Lemma accounts_release_pending cfg s key ip :
  accounts_ok cfg s -> pending s !! key = Some ip ->
  let '(r, m) := releaseCountLocked (reserved s) (perIP s) ip in
  accounts_ok cfg (with_account s (delete key (pending s)) (sessions s) r m (releasing s)).
Proof.
  intros Hok Hp. destruct (releaseCountLocked _ _ _) as [r m] eqn:ER.
  eapply (accounts_release cfg s _ ip r m); try done; try (by apply holders_delete_pending).
  - simpl. intros k [x [_ Hx]%lookup_delete_Some]. eapply (acc_disjoint _ _ Hok). eauto.
  - simpl. intros k x [_ Hx]%lookup_delete_Some. by eapply (acc_nonempty _ _ Hok).
  - simpl. rewrite map_size_delete, Hp. simpl. lia.
  - simpl. apply (acc_gen _ _ Hok).
Qed.

Lemma accounts_promote cfg s key ip now :
  accounts_ok cfg s -> pending s !! key = Some ip -> accounts_ok cfg (promoteSession s key ip now).2.
Proof.
  intros Hok Hp. unfold promoteSession, pending_of. rewrite Hp. simpl. rewrite bool_decide_eq_true_2 by done. simpl.
  pose proof (acc_disjoint _ _ Hok key ltac:(by rewrite Hp)) as Hs.
  destruct (q_closed s).
  - pose proof (accounts_release_pending cfg s key ip Hok Hp) as HR. exact HR.
  - simpl. eapply (accounts_perm cfg s); try done; try (by apply holders_promote).
    + simpl. intros k [x [Hk Hx]%lookup_delete_Some]. rewrite lookup_insert_ne by done.
      eapply (acc_disjoint _ _ Hok). eauto.
    + simpl. intros k x [_ Hx]%lookup_delete_Some. by eapply (acc_nonempty _ _ Hok).
    + simpl. rewrite map_size_delete, Hp. simpl. lia.
    + simpl. intros k x. rewrite lookup_insert_Some. intros [[_ <-]|[_ Hx]]; simpl; [lia|].
      apply (acc_gen _ _ Hok) in Hx. lia.
Qed.

Lemma accounts_delete cfg s key gen : accounts_ok cfg s -> accounts_ok cfg (compareAndDelete s key gen).2.
Proof.
  intros Hok. unfold compareAndDelete. destruct (sessions s !! key) as [x|] eqn:E; [|done].
  destruct (generation x =? gen)%nat; [|done]. simpl.
  eapply (accounts_perm cfg s); try done; try (by apply holders_delete_session).
  - simpl. intros k Hk. apply (acc_disjoint _ _ Hok) in Hk. apply lookup_delete_None. by right.
  - apply (acc_nonempty _ _ Hok).
  - simpl. intros k y [_ Hy]%lookup_delete_Some. by eapply (acc_gen _ _ Hok).
Qed.

Lemma accounts_established cfg s ip s' :
  accounts_ok cfg s -> releaseEstablished s ip = Some s' -> accounts_ok cfg s'.
Proof.
  intros Hok. unfold releaseEstablished. destruct (list_find _ _) as [[i x]|] eqn:E; [|done].
  apply list_find_Some in E as (Hi & -> & _).
  destruct (releaseCountLocked _ _ _) as [r m] eqn:ER. intros [= <-].
  eapply (accounts_release cfg s _ ip r m); try done; try apply Hok.
  unfold holders. simpl. rewrite !app_assoc.
  etrans; [apply Permutation_app_head, (delete_Permutation (releasing s) i ip); done|].
  symmetry. apply Permutation_middle.
Qed.

Lemma accounts_step cfg s e s' : accounts_ok cfg s -> q_step cfg s e = Some s' -> accounts_ok cfg s'.
Proof.
  intros Hok. destruct e as [key ip|key ip now|key ip|key gen|ip|key now|]; simpl.
  - intros [= <-]. by apply accounts_reserve.
  - case_bool_decide; [|done]. intros [= <-]. by apply accounts_promote.
  - case_bool_decide as Hne; [done|]. intros [= <-]. unfold releasePending, pending_of.
    case_bool_decide as Hp; [|done]. simpl. destruct (pending s !! key) as [x|] eqn:E; simpl in Hp; [|done]. subst x.
    pose proof (accounts_release_pending cfg s key ip Hok E) as HR. exact HR.
  - intros [= <-]. by apply accounts_delete.
  - by apply accounts_established.
  - intros [= <-]. eapply (accounts_perm cfg s); try done; try apply holders_touch; try apply Hok.
    + simpl. intros k Hk. apply (acc_disjoint _ _ Hok) in Hk.
      by rewrite lookup_alter_None.
    + simpl. intros k x. rewrite lookup_alter_Some. intros [(_ & y & Hy & ->)|[_ Hx]]; simpl; by eapply (acc_gen _ _ Hok).
  - intros [= <-]. eapply (accounts_perm cfg s); try done; try apply Hok.
Qed.

Lemma accounts_init cfg :
  (0 <= MaxSessions cfg)%Z -> (0 <= MaxSessionsPerIP cfg)%Z -> (0 <= MaxConcurrentSetups cfg)%Z ->
  accounts_ok cfg q_init.
Proof.
  intros H1 H2 H3. by constructor.
Qed.

Lemma accounts_reach cfg s :
  (0 <= MaxSessions cfg)%Z -> (0 <= MaxSessionsPerIP cfg)%Z -> (0 <= MaxConcurrentSetups cfg)%Z ->
  q_reach cfg s -> accounts_ok cfg s.
Proof. intros H1 H2 H3. induction 1; [by apply accounts_init|by eapply accounts_step]. Qed.

Lemma NewQ_positive cfg :
  (0 <= MaxSessions (NewQ cfg))%Z /\ (0 <= MaxSessionsPerIP (NewQ cfg))%Z /\ (0 <= MaxConcurrentSetups (NewQ cfg))%Z.
Proof. unfold NewQ. simpl. repeat (case_match; simpl); unfold defaultMaxSessions, defaultMaxSessionsPerIP, defaultMaxConcurrentSetups; lia. Qed.

Lemma q_run_reach cfg es s : q_run cfg es = Some s -> q_reach cfg s.
Proof.
  unfold q_run. revert s. induction es as [|e es IH] using rev_ind; intros s.
  - intros [= <-]. constructor.
  - rewrite foldl_app. simpl. destruct (foldl _ _ es) as [s'|] eqn:E; [|done]. simpl.
    intros HS. econstructor; [by apply IH|done].
Qed.

(** ** Lemmas: drops run to their end *)
Lemma dropSession_present cfg s key x :
  accounts_ok cfg s -> sessions s !! key = Some x ->
  let s' := (dropSession s key x).2 in
  accounts_ok cfg s' /\ sessions s' = delete key (sessions s) /\ pending s' = pending s /\
  releasing s' = releasing s.
Proof.
  intros Hok Hx. unfold dropSession, compareAndDelete. rewrite Hx, Nat.eqb_refl.
  set (s1 := with_account _ _ _ _ _ _).
  assert (accounts_ok cfg s1) as Hok1.
  { pose proof (accounts_delete cfg s key (generation x) Hok) as HD.
    unfold compareAndDelete in HD. by rewrite Hx, Nat.eqb_refl in HD. }
  destruct (releaseEstablished s1 (resourceIP x)) as [s2|] eqn:ER.
  - simpl. split; [by eapply accounts_established|].
    unfold releaseEstablished in ER. simpl in ER. rewrite decide_True in ER by done. by injection ER as <-.
  - unfold releaseEstablished in ER. simpl in ER. by rewrite decide_True in ER.
Qed.

(** Dropping a list of current sessions removes exactly those. *)
Lemma drop_all_present cfg s refs :
  accounts_ok cfg s -> NoDup refs.*1 -> (forall k x, (k, x) ∈ refs -> sessions s !! k = Some x) ->
  let s' := drop_all s refs in
  accounts_ok cfg s' /\ pending s' = pending s /\ releasing s' = releasing s /\
  (forall k, sessions s' !! k = if decide (k ∈ refs.*1) then None else sessions s !! k).
Proof.
  revert s. induction refs as [|[key x] refs IH]; intros s Hok Hnd Hin; cbn [drop_all foldl].
  - by split_and!.
  - rewrite fmap_cons in Hnd. apply NoDup_cons in Hnd as [Hk Hnd]. simpl in Hk.
    destruct (dropSession_present cfg s key x Hok) as (Hok' & Hs & Hp & Hr); [apply Hin; by left|].
    destruct (IH (dropSession s key x).2 Hok' Hnd) as (H1 & H2 & H3 & H4).
    { intros k y Hky. rewrite Hs. rewrite lookup_delete_ne; [apply Hin; by right|].
      intros ->. apply Hk. apply list_elem_of_fmap. by exists (k, y). }
    split; [exact H1|]. split; [etrans; [exact H2|exact Hp]|]. split; [etrans; [exact H3|exact Hr]|].
    intros k. etrans; [apply H4|]. rewrite Hs, fmap_cons. simpl.
    destruct (decide (k = key)) as [->|Hne].
    + rewrite lookup_delete_eq, (decide_True (P := key ∈ key :: refs.*1)) by (by left). by case_decide.
    + rewrite lookup_delete_ne by done.
      destruct (decide (k ∈ refs.*1)), (decide (k ∈ key :: refs.*1)); set_solver.
Qed.

Lemma refs_sublist (m : gmap bytes session) refs :
  refs `sublist_of` map_to_list m -> NoDup refs.*1 /\ (forall k x, (k, x) ∈ refs -> m !! k = Some x).
Proof.
  intros HS. split.
  - eapply sublist_NoDup; [apply (NoDup_fst_map_to_list m)|]. by apply fmap_sublist.
  - intros k x Hin. apply elem_of_map_to_list. by eapply elem_of_sublist.
Qed.

(** ** Lemmas: upstreams *)
Lemma To4_public ip v4 : To4 ip = Some v4 -> IsPublicIP ip = true -> len v4 = 4%Z /\ IsPublicIP v4 = true.
Proof.
  unfold To4. destruct (Z.eqb_spec (len ip) 4) as [E|_]; [by intros [= <-]|].
  destruct (len ip =? 16)%Z eqn:E; [|done]. simpl. case_bool_decide as Hp; [|done]. intros [= <-] HI.
  assert (len (drop 12 ip) = 4)%Z as HL by (unfold len in *; rewrite length_drop; lia).
  split; [done|]. rewrite <- (take_drop 12 ip), Hp, IsPublicIP_mapped in HI by done.
  by rewrite IsPublicIP_4.
Qed.

Lemma resolveUpstream_public `{Unicode} cfg Lookup Resolve sni up loc :
  resolveUpstream cfg Lookup Resolve sni = Ok (up, loc) ->
  loc = q_in_panel cfg (canonical_sni sni) /\
  (loc = true -> Resolve (qPanelBackend cfg) = Some up) /\
  (loc = false -> len (u_ip up) = 4%Z /\ IsPublicIP (u_ip up) = true /\ u_port up = 443%Z).
Proof.
  unfold resolveUpstream. case_bool_decide; [done|]. case_bool_decide; [done|].
  destruct (ParseIP _); [done|]. destruct (q_in_panel _ _).
  - case_bool_decide; [done|]. destruct (Resolve _) as [a|]; [|done]. by intros [= -> <-].
  - destruct (ResolvePublic _ _) as [e|ips] eqn:ER; [done|].
    destruct (first_ipv4 ips) as [v4|] eqn:EF; [|done]. intros [= <- <-]. split; [done|]. split; [done|]. intros _. simpl.
    apply ResolvePublic_public in ER as (_ & HF & _).
    assert (v4 ∈ omap To4 ips) as (ip & Hip & H4)%list_elem_of_omap.
    { unfold first_ipv4 in EF. destruct (omap To4 ips); [done|]. injection EF as <-. by left. }
    rewrite Forall_forall in HF. destruct (To4_public ip v4 H4 (HF ip Hip)). done.
Qed.

(** ** Properties *)

(** C4: the QUIC session accounts are exact in every interleaving.  With the
    limits New installs, in every state reachable by reservations,
    promotions, give-ups, two-step drops, touches and shutdown, the pending
    setups, the total of slots and the slots of each source address stay
    within their caps; the counters equal the numbers of holders, so nothing
    is leaked or released twice; and no client is both pending and
    established. *)
Theorem session_caps cfg0 s :
  let cfg := NewQ cfg0 in
  q_reach cfg s ->
  (Z.of_nat (size (pending s)) <= MaxConcurrentSetups cfg)%Z /\
  (Z.of_nat (size (pending s) + size (sessions s)) <= reserved s)%Z /\
  (reserved s <= MaxSessions cfg)%Z /\
  reserved s = Z.of_nat (length (holders s)) /\
  (forall ip, count_of (perIP s) ip = occ ip (holders s) /\ (occ ip (holders s) <= MaxSessionsPerIP cfg)%Z) /\
  (forall key, is_Some (pending s !! key) -> sessions s !! key = None).
Proof.
  intros cfg HR. destruct (NewQ_positive cfg0) as (H1 & H2 & H3).
  pose proof (accounts_reach cfg s H1 H2 H3 HR) as Hok.
  split_and!; try apply Hok.
  - rewrite (acc_reserved _ _ Hok). unfold holders.
    rewrite !length_app, !length_fmap, !length_map_to_list. lia.
  - intros ip. split; [by eapply count_holders|apply Hok].
Qed.

(** once every setup has ended and every session has been dropped and
    released, the counters are back to zero and the per-address table is
    empty, whatever happened before. *)
Theorem session_accounts_drain cfg0 s :
  q_reach (NewQ cfg0) s -> pending s = ∅ -> sessions s = ∅ -> releasing s = [] ->
  reserved s = 0%Z /\ perIP s = ∅.
Proof.
  intros HR Hp Hs Hl. destruct (NewQ_positive cfg0) as (H1 & H2 & H3).
  pose proof (accounts_reach _ s H1 H2 H3 HR) as Hok.
  assert (holders s = []) as Hh by (unfold holders; by rewrite Hp, Hs, Hl).
  split; [by rewrite (acc_reserved _ _ Hok), Hh|].
  apply map_empty. intros ip. rewrite (acc_perIP _ _ Hok), Hh. done.
Qed.

(** after shutdown has closed the server, no step of any goroutine adds
    a session, a pending setup or a slot: promotions fail and release what
    they held. *)
Theorem closed_only_shrinks cfg s e s' :
  q_closed s = true -> q_step cfg s e = Some s' ->
  q_closed s' = true /\ (reserved s' <= reserved s)%Z /\
  (forall key, is_Some (pending s' !! key) -> is_Some (pending s !! key)) /\
  (forall key, is_Some (sessions s' !! key) -> is_Some (sessions s !! key)).
Proof.
  intros Hc. destruct e; simpl; intros HS.
  - unfold tryReserveSession in HS. rewrite Hc in HS. injection HS as <-. done.
  - case_bool_decide; [|done]. unfold promoteSession, pending_of in HS. rewrite Hc in HS.
    case_bool_decide; injection HS as <-; simpl; [|done].
    split_and!; try done; [case_match; lia|]. intros k. rewrite lookup_delete_is_Some. tauto.
  - case_bool_decide; [done|]. injection HS as <-. unfold releasePending. case_bool_decide; [|done]. simpl.
    split_and!; try done; [case_match; lia|]. intros k. rewrite lookup_delete_is_Some. tauto.
  - injection HS as <-. unfold compareAndDelete. repeat case_match; try done. simpl.
    split_and!; try done. intros k. rewrite lookup_delete_is_Some. tauto.
  - unfold releaseEstablished, releaseCountLocked in HS. destruct (list_find _ _) as [[i y]|]; [|done].
    injection HS as <-. simpl. split_and!; try done. destruct (0 <? reserved s)%Z; lia.
  - injection HS as <-. simpl. split_and!; try done. intros k. by rewrite lookup_alter_is_Some.
  - injection HS as <-. done.
Qed.

(** a stale cleanup cannot hurt a newer session.  A session promoted
    now gets a generation no session has had, and a drop that carries any
    other generation (the one its relay, the GC or shutdown observed earlier)
    leaves the state as it is. *)
Theorem stale_drop_harmless cfg0 s key ip now s' gen :
  q_reach (NewQ cfg0) s -> promoteSession s key ip now = (true, s') ->
  exists x, sessions s' !! key = Some x /\ resourceIP x = ip /\ generation x = next_gen s /\
    (forall k y, sessions s !! k = Some y -> generation y <> generation x) /\
    (gen <> generation x -> compareAndDelete s' key gen = (false, s')).
Proof.
  intros HR HP. destruct (NewQ_positive cfg0) as (H1 & H2 & H3).
  pose proof (accounts_reach _ s H1 H2 H3 HR) as Hok.
  unfold promoteSession in HP. destruct (negb _); [done|]. destruct (q_closed s); [by destruct (releaseCountLocked _ _ _)|].
  injection HP as <-. eexists. simpl. rewrite lookup_insert_eq. split_and!; try done.
  - intros k y Hy. apply (acc_gen _ _ Hok) in Hy. simpl. lia.
  - intros Hg. simpl in Hg. unfold compareAndDelete. simpl. rewrite lookup_insert_eq. simpl.
    by rewrite (proj2 (Nat.eqb_neq _ _)) by (symmetry; exact Hg).
Qed.

(** reapIdle retires exactly the idle sessions: those whose last
    activity is older than the timeout go, every other session stays as it
    is, and the accounts stay exact. *)
Theorem reapIdle_exact cfg0 s now :
  q_reach (NewQ cfg0) s ->
  let s' := reapIdle (NewQ cfg0) s now in
  accounts_ok (NewQ cfg0) s' /\ pending s' = pending s /\
  (forall key, sessions s' !! key =
    match sessions s !! key with
    | Some x => if (IdleTimeout (NewQ cfg0) <? now - lastActivity x)%Z then None else Some x
    | None => None
    end).
Proof.
  intros HR s'. destruct (NewQ_positive cfg0) as (H1 & H2 & H3).
  pose proof (accounts_reach _ s H1 H2 H3 HR) as Hok.
  destruct (refs_sublist (sessions s) (stale_refs (NewQ cfg0) s now)) as [Hnd Hin]; [apply sublist_filter|].
  destruct (drop_all_present _ s _ Hok Hnd Hin) as (Ha & Hp & _ & Hs).
  split; [exact Ha|]. split; [exact Hp|]. intros key. etrans; [apply Hs|].
  assert (Hm : key ∈ (stale_refs (NewQ cfg0) s now).*1 <->
    exists x, sessions s !! key = Some x /\ (IdleTimeout (NewQ cfg0) < now - lastActivity x)%Z).
  { rewrite list_elem_of_fmap. unfold stale_refs. split.
    - intros ([k x] & -> & [? Hx%elem_of_map_to_list]%list_elem_of_filter). eauto.
    - intros (x & Hx & Hi). exists (key, x). split; [done|]. apply list_elem_of_filter.
      split; [done|]. by apply elem_of_map_to_list. }
  case_decide as Hd; rewrite Hm in Hd.
  - destruct Hd as (x & -> & Hi). by rewrite (proj2 (Z.ltb_lt _ _)).
  - destruct (sessions s !! key) as [x|]; [|done].
    destruct (Z.ltb_spec (IdleTimeout (NewQ cfg0)) (now - lastActivity x)); [|done].
    destruct Hd. eauto.
Qed.

(** Shutdown leaves no session: it closes the server, drops every
    session it has and releases their slots, so that only the pending setups
    (and the drops other goroutines have in progress) still hold any. *)
Theorem Shutdown_drains cfg0 s :
  q_reach (NewQ cfg0) s ->
  let s' := Shutdown s in
  sessions s' = ∅ /\ pending s' = pending s /\
  reserved s' = Z.of_nat (size (pending s) + length (releasing s)).
Proof.
  intros HR s'. destruct (NewQ_positive cfg0) as (H1 & H2 & H3).
  assert (accounts_ok (NewQ cfg0) (close_server s)) as Hok.
  { eapply (accounts_step (NewQ cfg0) s QClose); [by apply accounts_reach|done]. }
  destruct (refs_sublist (sessions s) (map_to_list (sessions s))) as [Hnd Hin]; [done|].
  destruct (drop_all_present _ (close_server s) (map_to_list (sessions s)) Hok Hnd Hin) as (Ha & Hp & Hr & Hs).
  assert (sessions s' = ∅) as He.
  { apply map_empty. intros k. etrans; [apply Hs|]. case_decide as Hd; [done|].
    simpl. destruct (sessions s !! k) as [x|] eqn:E; [|done]. destruct Hd.
    apply list_elem_of_fmap. exists (k, x). split; [done|]. by apply elem_of_map_to_list. }
  split; [exact He|]. split; [exact Hp|].
  etrans; [apply (acc_reserved _ _ Ha)|]. unfold holders.
  fold s'. change (drop_all (close_server s) (map_to_list (sessions s))) with s' in *.
  rewrite He, Hp, Hr, !length_app, !length_fmap, !length_map_to_list, map_size_empty. simpl. lia.
Qed.

(** where a QUIC flow can be forwarded, for every first datagram and
    resolver answer: a promoted session goes to the configured panel backend
    exactly when the SNI is in the panel domain, and otherwise to a public
    IPv4 address on port 443; a client the gate refuses is never promoted. *)
Theorem setup_destination `{Unicode} cfg Lookup Resolve c1 c2 dial first client up loc :
  setupSession cfg Lookup Resolve c1 c2 dial first client = SetupPromote up loc ->
  (client <> NilAddr -> qGate cfg <> None -> Allow (qGate cfg) client = true) /\
  exists sni, extractSNI first = Ret (Some sni) /\ loc = q_in_panel cfg (canonical_sni sni) /\
    (loc = true -> Resolve (qPanelBackend cfg) = Some up) /\
    (loc = false -> len (u_ip up) = 4%Z /\ IsPublicIP (u_ip up) = true /\ u_port up = 443%Z).
Proof.
  unfold setupSession. destruct c1; [done|].
  destruct ((qGate cfg != None) && _ && _) eqn:EG; [done|].
  destruct (extractSNI first) as [|e|[sni|]]; try done. destruct (sni == []); [done|].
  destruct (resolveUpstream cfg Lookup Resolve sni) as [e|[up' loc']] eqn:EU; [done|].
  destruct (_ || _); [done|]. intros [= <- <-]. split.
  - intros Hc Hg. rewrite bool_decide_eq_false_2 in EG by done.
    destruct client, (Allow _ _); done.
  - exists sni. split; [done|]. exact (resolveUpstream_public _ _ _ _ _ _ EU).
Qed.

(** ** Witnesses *)
Definition demo_q : QConfig :=
  {| qListen := []; qPanelDomain := str "panel.example"; qPanelBackend := str "127.0.0.1:8445";
     IdleTimeout := 0; MaxSessions := 2; MaxSessionsPerIP := 1; MaxConcurrentSetups := 0; qGate := None |}.

(** Two clients of one address, one of another; the second is refused. *)
Definition demo_trace : list QEvent :=
  [QReserve (str "a:1") (str "a"); QReserve (str "a:2") (str "a"); QPromote (str "a:1") (str "a") 5;
   QReserve (str "b:1") (str "b"); QDelete (str "a:1") 7; QDelete (str "a:1") 0].

Definition demo_final : QState :=
  {| q_closed := false; pending := {[str "b:1" := str "b"]}; sessions := ∅; reserved := 2;
     perIP := {[str "b" := 1%Z; str "a" := 1%Z]}; releasing := [str "a"]; next_gen := 1 |}.

Lemma demo_reach : q_reach (NewQ demo_q) demo_final.
Proof. apply (q_run_reach _ demo_trace). vm_compute. reflexivity. Qed.

Lemma session_caps_witness :
  q_reach (NewQ demo_q) demo_final /\ (reserved demo_final <= MaxSessions (NewQ demo_q))%Z.
Proof.
  split; [exact demo_reach|].
  destruct (session_caps demo_q demo_final demo_reach) as (_ & _ & H & _). exact H.
Defined.

Lemma session_accounts_drain_witness :
  exists s, q_reach (NewQ demo_q) s /\ next_gen s = 1%nat /\ reserved s = 0%Z.
Proof.
  assert (exists s, q_run (NewQ demo_q) (demo_trace ++ [QReleasePending (str "b:1") (str "b"); QRelease (str "a")]) = Some s
    /\ pending s = ∅ /\ sessions s = ∅ /\ releasing s = [] /\ next_gen s = 1%nat)
    as (s & HR & Hp & Hs & Hl & Hn) by (eexists; split; [vm_compute; reflexivity|]; by repeat split).
  apply q_run_reach in HR. exists s. split; [exact HR|]. split; [exact Hn|].
  exact (proj1 (session_accounts_drain demo_q s HR Hp Hs Hl)).
Defined.

Lemma closed_only_shrinks_witness :
  let s := close_server demo_final in
  q_step (NewQ demo_q) s (QReserve (str "c:1") (str "c")) = Some s /\ (reserved s <= reserved s)%Z.
Proof.
  intros s. assert (q_step (NewQ demo_q) s (QReserve (str "c:1") (str "c")) = Some s) as E by reflexivity.
  split; [exact E|].
  exact (proj1 (proj2 (closed_only_shrinks (NewQ demo_q) s (QReserve (str "c:1") (str "c")) s eq_refl E))).
Defined.

Lemma demo_promotes : exists s', promoteSession demo_final (str "b:1") (str "b") 9 = (true, s').
Proof.
  assert ((promoteSession demo_final (str "b:1") (str "b") 9).1 = true) as E by (vm_compute; reflexivity).
  destruct (promoteSession _ _ _ _) as [b s']. simpl in E. subst b. by exists s'.
Qed.

Lemma stale_drop_harmless_witness :
  exists s', promoteSession demo_final (str "b:1") (str "b") 9 = (true, s') /\
    compareAndDelete s' (str "b:1") 0 = (false, s').
Proof.
  destruct demo_promotes as [s' E]. exists s'. split; [exact E|].
  destruct (stale_drop_harmless demo_q demo_final (str "b:1") (str "b") 9 s' 0 demo_reach E)
    as (x & _ & _ & Hg & _ & H).
  apply H. rewrite Hg. discriminate.
Defined.

Lemma reapIdle_exact_witness :
  q_reach (NewQ demo_q) demo_final /\ pending (reapIdle (NewQ demo_q) demo_final 100) = pending demo_final.
Proof.
  split; [exact demo_reach|]. exact (proj1 (proj2 (reapIdle_exact demo_q demo_final 100 demo_reach))).
Defined.

Lemma Shutdown_drains_witness : reserved (Shutdown demo_final) = 2%Z.
Proof.
  refine (eq_trans (proj2 (proj2 (Shutdown_drains demo_q demo_final demo_reach))) _). vm_compute. reflexivity.
Defined.

Definition demo_answers (host : bytes) : option (list bytes) :=
  if host == str "a.example" then Some [map zb [93; 184; 216; 34]%Z] else None.

Definition demo_client : NetAddr := UDPAddr (Some (Some (map zb [10; 1; 2; 3]%Z))).

Definition demo_upstream : UDPAddrT := {| u_ip := map zb [93; 184; 216; 34]%Z; u_port := 443 |}.

Definition demo_packet : bytes := Eval vm_compute in protect demo_initial demo_frames.

Definition no_backend (s : bytes) : option UDPAddrT := None.
Definition dial_up (up : UDPAddrT) (first : bytes) : bool := true.

Lemma demo_setup_promotes :
  @setupSession ascii_tables (NewQ demo_q) demo_answers no_backend false false dial_up demo_packet demo_client
  = SetupPromote demo_upstream false.
Proof. vm_compute. reflexivity. Qed.

Lemma setup_destination_witness :
  @setupSession ascii_tables (NewQ demo_q) demo_answers no_backend false false dial_up demo_packet demo_client
    = SetupPromote demo_upstream false /\
  (len (u_ip demo_upstream) = 4%Z /\ IsPublicIP (u_ip demo_upstream) = true /\ u_port demo_upstream = 443%Z).
Proof.
  split; [exact demo_setup_promotes|].
  destruct (@setup_destination ascii_tables (NewQ demo_q) demo_answers no_backend false false dial_up
    demo_packet demo_client demo_upstream false demo_setup_promotes) as (_ & sni & _ & _ & _ & H).
  exact (H eq_refl).
Defined.

(** A setup worker that gets the three-byte CRYPTO frame crashes. *)
Example setup_crash :
  @setupSession ascii_tables (NewQ demo_q) demo_answers no_backend false false dial_up
    (protect demo_initial [Byte.x06; Byte.x00; Byte.x01]) demo_client = SetupCrash.
Proof. vm_compute. reflexivity. Qed.
