(* ===== verification/Orchestrator.v ===== *)
(** * The apply pipeline of the data plane

    [internal/orchestrator/systemd.go] and noop.go: render three files,
    reload three units, probe health, commit the control plane or restore.

    The world has the files on disk, the configuration each unit has loaded,
    the driver's lock and last good configuration, and the control-plane
    state [CP] that the commit callback changes.  Every operation that can
    fail consults [faults], the list of outcomes still to come ([false] is a
    failure, an exhausted list only successes): a theorem over all worlds is
    a theorem over all failure patterns.  An error is the list of its
    joined causes, empty for nil. *)
From S2P Require Import Prelude.
From Stdlib Require Import ZArith Lia.

(** ** World *)
Record File := { f_body : bytes; f_mode : Z }.

#[export] Instance File_eq_dec : EqDecision File.
Proof. solve_decision. Defined.

Inductive Unit3 := UDnsdist | UMihomo | USniproxy.

#[export] Instance Unit3_eq_dec : EqDecision Unit3.
Proof. solve_decision. Defined.

Record Three (A : Type) := MkThree { dnsdist : A; mihomo : A; sniproxy : A }.
Arguments MkThree {A} _ _ _.
Arguments dnsdist {A} _.
Arguments mihomo {A} _.
Arguments sniproxy {A} _.

Definition get3 {A} (t : Three A) (u : Unit3) : A :=
  match u with UDnsdist => dnsdist t | UMihomo => mihomo t | USniproxy => sniproxy t end.

Definition set3 {A} (t : Three A) (u : Unit3) (x : A) : Three A :=
  match u with
  | UDnsdist => MkThree x (mihomo t) (sniproxy t)
  | UMihomo => MkThree (dnsdist t) x (sniproxy t)
  | USniproxy => MkThree (dnsdist t) (mihomo t) x
  end.

Inductive OErr :=
| ENilConfig | EApplyInFlight | ESnapshot (u : Unit3) | ERender (u : Unit3) | EWrite (u : Unit3)
| ERemove (u : Unit3) | ESystemctl (u : Unit3) | EHealth | ECommit | ENoBase.
Abbreviation error := (list OErr).

(** [err != nil]. *)
Definition err (e : error) : bool := match e with [] => false | _ => true end.

Inductive Health := HealthNone | HealthOK | HealthFailed | HealthObserving.

#[export] Instance Health_eq_dec : EqDecision Health.
Proof. solve_decision. Defined.

Record ApplyResult := { RolledBack : bool; health : Health; Reason : error }.

Definition mode644 : Z := 420.

Record World (Cfg CP : Type) := MkWorld {
  disk : Three (option File);
  loaded : Three (option File);
  applyMu : bool;
  config : option Cfg;
  cp : CP;
  faults : list bool
}.
Arguments MkWorld {Cfg CP} _ _ _ _ _ _.
Arguments disk {Cfg CP} _.
Arguments loaded {Cfg CP} _.
Arguments applyMu {Cfg CP} _.
Arguments config {Cfg CP} _.
Arguments cp {Cfg CP} _.
Arguments faults {Cfg CP} _.

Record ApplyRequest (Cfg CP : Type) := {
  SnapshotID : Z; RuleVersionID : Z; rq_config : option Cfg; PrevSnapshot : Z;
  Commit : option (CP -> bool * CP)
}.
Arguments SnapshotID {Cfg CP} _.
Arguments RuleVersionID {Cfg CP} _.
Arguments rq_config {Cfg CP} _.
Arguments PrevSnapshot {Cfg CP} _.
Arguments Commit {Cfg CP} _.

Section orchestrator.
Context {Cfg CP : Type} (Render : Unit3 -> Cfg -> option bytes).
Local Abbreviation World := (World Cfg CP).
Local Abbreviation ST := (ST World).
Local Abbreviation ApplyRequest := (ApplyRequest Cfg CP).

Definition upd_disk (d : Three (option File)) (w : World) : World :=
  {| disk := d; loaded := loaded w; applyMu := applyMu w; config := config w; cp := cp w; faults := faults w |}.
Definition upd_loaded (l : Three (option File)) (w : World) : World :=
  {| disk := disk w; loaded := l; applyMu := applyMu w; config := config w; cp := cp w; faults := faults w |}.
Definition upd_lock (b : bool) (w : World) : World :=
  {| disk := disk w; loaded := loaded w; applyMu := b; config := config w; cp := cp w; faults := faults w |}.
Definition upd_config (c : option Cfg) (w : World) : World :=
  {| disk := disk w; loaded := loaded w; applyMu := applyMu w; config := c; cp := cp w; faults := faults w |}.
Definition upd_cp (c : CP) (w : World) : World :=
  {| disk := disk w; loaded := loaded w; applyMu := applyMu w; config := config w; cp := c; faults := faults w |}.
Definition upd_faults (l : list bool) (w : World) : World :=
  {| disk := disk w; loaded := loaded w; applyMu := applyMu w; config := config w; cp := cp w; faults := l |}.

(** The outcome of the next fallible call. *)
Definition ok : ST bool := fun w =>
  match faults w with [] => (true, w) | b :: l => (b, upd_faults l w) end.

(** [n] fallible calls in a row, stopping at the first failure. *)
Fixpoint steps (n : nat) : ST bool :=
  match n with
  | O => ret true
  | S n => let! b := ok in if b then steps n else ret false
  end.

(** ** Files *)

(** [writeBytesAtomic]: MkdirAll, CreateTemp, Chmod, Write, Sync, Close and
    Rename, of which only the last changes the file. *)
Definition writeBytesAtomic (u : Unit3) (body : bytes) (mode : Z) : ST error :=
  let! b := steps 7 in
  if b then let! _ := modify (fun w => upd_disk (set3 (disk w) u (Some {| f_body := body; f_mode := mode |})) w) in ret []
  else ret [EWrite u].

(** [writeRendered]: into a buffer first, then to disk. *)
Definition renderFile (u : Unit3) (cfg : Cfg) : ST error :=
  match Render u cfg with
  | None => ret [ERender u]
  | Some b => writeBytesAtomic u b mode644
  end.

(** [Systemd.render]. *)
Definition render (cfg : Cfg) : ST error :=
  let! e := renderFile UDnsdist cfg in
  if negb (err e) then
    let! e := renderFile UMihomo cfg in
    if negb (err e) then renderFile USniproxy cfg else ret e
  else ret e.

(** [snapshotPath]: a missing file is no error. *)
Definition snapshotPath (u : Unit3) : ST (error * option File) :=
  let! b := ok in
  if b then fun w =>
    match get3 (disk w) u with
    | None => (([], None), w)
    | Some f => (let! b := ok in ret (if b then ([], Some f) else ([ESnapshot u], None))) w
    end
  else ret ([ESnapshot u], None).

Definition snapshotBundle : Type := Three (option File).

(** [snapshotCurrent]. *)
Definition snapshotCurrent : ST (error * snapshotBundle) :=
  let! (e, d) := snapshotPath UDnsdist in
  if err e then ret (e, MkThree None None None)
  else
    let! (e, m) := snapshotPath UMihomo in
    if err e then ret (e, MkThree None None None)
    else
      let! (e, s) := snapshotPath USniproxy in
      if err e then ret (e, MkThree None None None)
      else ret ([], MkThree d m s).

(** One file of [restore]. *)
Definition restore_one (u : Unit3) (file : option File) : ST error :=
  match file with
  | None =>
      let! b := ok in
      fun w =>
        if b then ([], upd_disk (set3 (disk w) u None) w) else ([ERemove u], w)
  | Some f => writeBytesAtomic u (f_body f) (if (f_mode f =? 0)%Z then mode644 else f_mode f)
  end.

(** [Systemd.restore]: goes on after an error and joins them. *)
Definition restore (prev : snapshotBundle) : ST error :=
  let! e1 := restore_one UDnsdist (dnsdist prev) in
  let! e2 := restore_one UMihomo (mihomo prev) in
  let! e3 := restore_one USniproxy (sniproxy prev) in
  ret (e1 ++ e2 ++ e3).

(** ** Units *)

(** [runSystemctl]: a unit that reloads reads its file; one that fails may
    have read it or not. *)
Definition runSystemctl (u : Unit3) : ST error :=
  let! b := ok in
  if b then let! _ := modify (fun w => upd_loaded (set3 (loaded w) u (get3 (disk w) u)) w) in ret []
  else
    let! took := ok in
    let! _ := modify (fun w => if took then upd_loaded (set3 (loaded w) u (get3 (disk w) u)) w else w) in
    ret [ESystemctl u].

(** [reloadUnits]. *)
Definition reloadUnits : ST error :=
  let! e := runSystemctl UDnsdist in
  if negb (err e) then
    let! e := runSystemctl UMihomo in
    if negb (err e) then runSystemctl USniproxy else ret e
  else ret e.

(** [restoreAndReload]: both are tried. *)
Definition restoreAndReload (prev : snapshotBundle) : ST error :=
  let! e1 := restore prev in
  let! e2 := reloadUnits in
  ret (e1 ++ e2).

(** ** Apply *)
Definition failedApplyResult (primary rollbackErr : error) : ApplyResult * error :=
  if negb (err rollbackErr)
  then ({| RolledBack := true; health := HealthFailed; Reason := primary |}, primary)
  else ({| RolledBack := false; health := HealthFailed; Reason := primary ++ rollbackErr |},
        primary ++ rollbackErr).

(** The commit callback on the control plane. *)
Definition run_commit (f : CP -> bool * CP) : ST bool := fun w =>
  let '(b, c) := f (cp w) in (b, upd_cp c w).

(** [commitOrRestore]. *)
Definition commitOrRestore (req : ApplyRequest) (prev : snapshotBundle) : ST (bool * error) :=
  match Commit req with
  | None => ret (false, [])
  | Some f =>
      let! b := run_commit f in
      if b then ret (false, [])
      else
        let! e := restoreAndReload prev in
        ret (if negb (err e) then (true, [ECommit]) else (false, ECommit :: e))
  end.

Definition unlock : ST unit := modify (upd_lock false).
Definition setConfig (c : option Cfg) : ST unit := modify (upd_config c).

(** [Systemd.Apply] once it has the lock.  The third result is the health
    observation it starts in the background, with the lock still held. *)
Definition apply_locked (has_health : bool) (req : ApplyRequest) (cfg : Cfg)
    : ST (ApplyResult * error * option snapshotBundle) :=
  let! (e, prev) := snapshotCurrent in
  if err e then
    let! _ := unlock in
    ret ({| RolledBack := false; health := HealthNone; Reason := e |}, e, None)
  else
    let! e := render cfg in
    if err e then
      let! re := restore prev in
      let! _ := unlock in
      ret (failedApplyResult e re, None)
    else
      let! e := reloadUnits in
      if err e then
        let! re := restoreAndReload prev in
        let! _ := unlock in
        ret (failedApplyResult e re, None)
      else if has_health then
        ret ({| RolledBack := false; health := HealthObserving; Reason := [] |}, [], Some prev)
      else
        let! (rb, e) := commitOrRestore req prev in
        if err e then
          let! _ := unlock in
          ret ({| RolledBack := rb; health := HealthFailed; Reason := e |}, e, None)
        else
          let! _ := setConfig (rq_config req) in
          let! _ := unlock in
          ret ({| RolledBack := false; health := HealthOK; Reason := [] |}, [], None).

(** [Systemd.Apply]: a configuration is required, and the lock is tried. *)
Definition Apply (has_health : bool) (req : ApplyRequest)
    : ST (ApplyResult * error * option snapshotBundle) := fun w =>
  match rq_config req with
  | None => ({| RolledBack := false; health := HealthNone; Reason := [ENilConfig] |}, [ENilConfig], None, w)
  | Some cfg =>
      if applyMu w
      then ({| RolledBack := false; health := HealthNone; Reason := [EApplyInFlight] |}, [EApplyInFlight], None, w)
      else apply_locked has_health req cfg (upd_lock true w)
  end.

(** [observeHealth], with the observer that runs before the lock is
    released; [None] when the observation was aborted before the probe. *)
Definition observeHealth (req : ApplyRequest) (prev : snapshotBundle)
    (observer : ApplyResult -> ST unit) : ST (option ApplyResult) :=
  let! waited := ok in
  if negb waited then let! _ := unlock in ret None
  else
    let! healthy := ok in
    let! res :=
      (if negb healthy then
         let! re := restoreAndReload prev in
         ret (fst (failedApplyResult [EHealth] re))
       else
         let! (rb, e) := commitOrRestore req prev in
         if err e then ret {| RolledBack := rb; health := HealthFailed; Reason := e |}
         else let! _ := setConfig (rq_config req) in ret {| RolledBack := false; health := HealthOK; Reason := [] |}) in
    let! _ := observer res in
    let! _ := unlock in
    ret (Some res).

(** An observer that only touches the control plane. *)
Definition cp_observer (f : ApplyResult -> CP -> CP) (r : ApplyResult) : ST unit :=
  modify (fun w => upd_cp (f r (cp w)) w).

(** A whole apply: the call and, when it goes on in the background, the
    observation that ends it. *)
Definition lifecycle (has_health : bool) (req : ApplyRequest) (f : ApplyResult -> CP -> CP)
    : ST (option ApplyResult) :=
  let! (r, e, bg) := Apply has_health req in
  match bg with
  | None => ret (Some r)
  | Some prev => observeHealth req prev (cp_observer f)
  end.

(** [compensateRollbackFailure]. *)
Definition compensateRollbackFailure (prev : snapshotBundle) (primary : error) : ST error :=
  let! e := restoreAndReload prev in ret (primary ++ e).

(** [Rollback] to the last good configuration, under the lock. *)
Definition rollback_to (cfg : Cfg) : ST error :=
  let! (e, prev) := snapshotCurrent in
  if err e then ret e
  else
    let! e := render cfg in
    if err e then compensateRollbackFailure prev e
    else
      let! e := reloadUnits in
      if err e then compensateRollbackFailure prev e else ret [].

Definition rollback_locked : ST error := fun w =>
  match config w with None => ([ENoBase], w) | Some cfg => rollback_to cfg w end.

Definition Rollback : ST error := fun w =>
  if applyMu w then ([EApplyInFlight], w)
  else (let! e := rollback_locked in let! _ := unlock in ret e) (upd_lock true w).

(** [NoOp.Apply] and [NoOp.Rollback]: no data plane, only the commit. *)
Definition NoOp_Apply (req : ApplyRequest) : ST (ApplyResult * error) :=
  match Commit req with
  | None => ret ({| RolledBack := false; health := HealthOK; Reason := [] |}, [])
  | Some f =>
      let! b := run_commit f in
      ret (if b then ({| RolledBack := false; health := HealthOK; Reason := [] |}, [])
           else ({| RolledBack := true; health := HealthFailed; Reason := [ECommit] |}, [ECommit]))
  end.

Definition NoOp_Rollback : ST error := ret [].

(** ** Specifications of the operations *)

(** What an operation may change, from the least to the most: nothing the
    program sees, the disk, the disk and the units. *)
Definition same_units (w w' : World) : Prop :=
  applyMu w' = applyMu w /\ config w' = config w /\ cp w' = cp w.
Definition same_disk (w w' : World) : Prop := same_units w w' /\ disk w' = disk w.
Definition same_loaded (w w' : World) : Prop := same_units w w' /\ loaded w' = loaded w.
Definition same (w w' : World) : Prop := same_disk w w' /\ loaded w' = loaded w.

Ltac frame := unfold same, same_disk, same_loaded, same_units in *; first [solve [destruct_and?; repeat split; congruence] | naive_solver congruence].
Lemma wp_ok w : wp ok (fun _ w' => same w w') w.
Proof. unfold wp, ok. destruct w as [????? [|b l]]; cbn; frame. Qed.

Lemma wp_steps n w : wp (steps n) (fun _ w' => same w w') w.
Proof.
  revert w. induction n as [|n IH]; intros w; [unfold wp; cbn; frame|].
  cbn [steps]. wp_run wp_ok. intros b w1 H1. destruct b; [|unfold wp; cbn; frame].
  eapply wp_mono; [apply IH|]. cbv beta. intros b w2 H2. frame.
Qed.

Lemma wp_write u body mode w :
  wp (writeBytesAtomic u body mode)
    (fun e w' => same_loaded w w' /\
       disk w' = if err e then disk w else set3 (disk w) u (Some {| f_body := body; f_mode := mode |})) w.
Proof.
  unfold writeBytesAtomic. wp_run wp_steps. intros b w1 H1.
  destruct b; unfold wp; cbn; [|frame]. destruct H1 as [[? ->] ?]. frame.
Qed.

(** What a successful render leaves, and what a successful restore does: the
    old files, an unreadable mode 0 replaced by 0644. *)
Definition rendered_file (u : Unit3) (cfg : Cfg) : option File :=
  (fun b => {| f_body := b; f_mode := mode644 |}) <$> Render u cfg.
Definition rendered (cfg : Cfg) : Three (option File) :=
  MkThree (rendered_file UDnsdist cfg) (rendered_file UMihomo cfg) (rendered_file USniproxy cfg).

Definition restored_file (f : File) : File :=
  {| f_body := f_body f; f_mode := if (f_mode f =? 0)%Z then mode644 else f_mode f |}.
Definition restored (d : Three (option File)) : Three (option File) :=
  MkThree (restored_file <$> dnsdist d) (restored_file <$> mihomo d) (restored_file <$> sniproxy d).

Definition modes_set (d : Three (option File)) : Prop :=
  forall u f, get3 d u = Some f -> f_mode f <> 0%Z.

Lemma restored_id d : modes_set d -> restored d = d.
Proof.
  assert (H : forall o, (forall f, o = Some f -> f_mode f <> 0%Z) -> restored_file <$> o = o).
  { intros [f|] Hf; [|done]. cbn. destruct f as [b m]. unfold restored_file. cbn.
    specialize (Hf _ eq_refl). cbn in Hf. by destruct (Z.eqb_spec m 0). }
  intros Hm. destruct d as [x y z]. unfold restored. cbn.
  by rewrite (H x (Hm UDnsdist)), (H y (Hm UMihomo)), (H z (Hm USniproxy)).
Qed.

Lemma wp_renderFile u cfg w :
  wp (renderFile u cfg)
    (fun e w' => same_loaded w w' /\
       (err e = false -> disk w' = set3 (disk w) u (rendered_file u cfg) /\ is_Some (Render u cfg)) /\
       (err e = true -> length e = 1%nat)) w.
Proof.
  unfold renderFile, rendered_file. destruct (Render u cfg) as [b|]; [|unfold wp; cbn; frame].
  unfold wp. pose proof (wp_write u b mode644 w) as H. unfold wp, writeBytesAtomic in *.
  unfold bind in *. destruct (steps 7 w) as [[|] w1]; cbn in *; (split; [|split]); try done; try frame.
  intros _. split; [|by eexists]. by destruct H.
Qed.

Lemma wp_render cfg w :
  wp (render cfg)
    (fun e w' => same_loaded w w' /\ (err e = false -> disk w' = rendered cfg) /\
       (err e = true -> length e = 1%nat)) w.
Proof.
  unfold render. wp_run wp_renderFile. intros e1 w1 (H1 & D1 & L1). destruct (err e1) eqn:E1; cbn [negb].
  { unfold wp; cbn. rewrite E1. split; [done|]. split; [done|auto]. }
  wp_run wp_renderFile. intros e2 w2 (H2 & D2 & L2). destruct (err e2) eqn:E2; cbn [negb].
  { unfold wp; cbn. rewrite E2. split; [frame|]. split; [done|auto]. }
  eapply wp_mono; [apply wp_renderFile|]. intros e3 w3 (H3 & D3 & L3). cbv beta.
  split; [frame|]. split; [|exact L3]. intros E3.
  rewrite (proj1 (D3 E3)), (proj1 (D2 eq_refl)), (proj1 (D1 eq_refl)). done.
Qed.

Lemma wp_snapshotPath u w :
  wp (snapshotPath u)
    (fun r w' => same w w' /\ (err (fst r) = false -> snd r = get3 (disk w) u) /\
       (err (fst r) = true -> length (fst r) = 1%nat)) w.
Proof.
  unfold snapshotPath. wp_run wp_ok. intros b w1 H1. destruct b; [|unfold wp; cbn; frame].
  unfold wp. assert (disk w1 = disk w) as -> by frame.
  destruct (get3 (disk w) u) as [f|]; [|cbn; frame].
  pose proof (wp_ok w1) as H2. unfold wp, bind in *. destruct (ok w1) as [[|] w2]; cbn; frame.
Qed.

Lemma wp_snapshotCurrent w :
  wp snapshotCurrent
    (fun r w' => same w w' /\ (err (fst r) = false -> snd r = disk w) /\
       (err (fst r) = true -> length (fst r) = 1%nat)) w.
Proof.
  unfold snapshotCurrent. wp_run wp_snapshotPath. intros [e1 d] w1 (H1 & D1 & L1). cbn [fst snd] in *.
  destruct (err e1) eqn:E1. { unfold wp; cbn. rewrite E1. frame. }
  wp_run wp_snapshotPath. intros [e2 m] w2 (H2 & D2 & L2). cbn [fst snd] in *.
  destruct (err e2) eqn:E2. { unfold wp; cbn. rewrite E2. frame. }
  wp_run wp_snapshotPath. intros [e3 s] w3 (H3 & D3 & L3). cbn [fst snd] in *.
  destruct (err e3) eqn:E3. { unfold wp; cbn. rewrite E3. frame. }
  unfold wp; cbn. split; [frame|]. split; [|done]. intros _.
  assert (disk w1 = disk w) as R1 by frame. assert (disk w2 = disk w) as R2 by frame.
  rewrite (D1 eq_refl), (D2 eq_refl), (D3 eq_refl), R1, R2. by destruct (disk w).
Qed.

Lemma wp_restore_one u f w :
  wp (restore_one u f)
    (fun e w' => same_loaded w w' /\ (err e = false -> disk w' = set3 (disk w) u (restored_file <$> f))) w.
Proof.
  unfold restore_one. destruct f as [f|].
  - eapply wp_mono; [apply wp_write|]. intros e w' [H ->]. split; [done|]. by destruct (err e).
  - wp_run wp_ok. intros b w1 H1. unfold wp. destruct b; cbn; [|frame].
    destruct H1 as [[? ->] ?]. frame.
Qed.

Lemma err_app e1 e2 : err (e1 ++ e2) = err e1 || err e2.
Proof. by destruct e1. Qed.

Lemma wp_restore prev w :
  wp (restore prev)
    (fun e w' => same_loaded w w' /\ (err e = false -> disk w' = restored prev)) w.
Proof.
  unfold restore. wp_run wp_restore_one. intros e1 w1 (H1 & D1).
  wp_run wp_restore_one. intros e2 w2 (H2 & D2).
  wp_run wp_restore_one. intros e3 w3 (H3 & D3).
  unfold wp; cbn. split; [frame|]. rewrite !err_app. intros E.
  destruct (err e1), (err e2), (err e3); try done.
  rewrite D3, D2, D1 by done. done.
Qed.

Lemma wp_runSystemctl u w :
  wp (runSystemctl u)
    (fun e w' => same_disk w w' /\
       (err e = false -> loaded w' = set3 (loaded w) u (get3 (disk w) u)) /\
       (err e = true -> length e = 1%nat)) w.
Proof.
  unfold runSystemctl. wp_run wp_ok. intros b w1 H1. destruct b.
  - unfold wp; cbn. unfold same, same_disk, same_units in *. destruct_and?. repeat split; cbn; congruence.
  - wp_run wp_ok. intros t w2 H2. unfold wp; cbn. destruct t; frame.
Qed.

Lemma wp_reloadUnits w :
  wp reloadUnits
    (fun e w' => same_disk w w' /\ (err e = false -> loaded w' = disk w) /\
       (err e = true -> length e = 1%nat)) w.
Proof.
  unfold reloadUnits. wp_run wp_runSystemctl. intros e1 w1 (H1 & D1 & L1). destruct (err e1) eqn:E1; cbn [negb].
  { unfold wp; cbn. rewrite E1. frame. }
  wp_run wp_runSystemctl. intros e2 w2 (H2 & D2 & L2). destruct (err e2) eqn:E2; cbn [negb].
  { unfold wp; cbn. rewrite E2. frame. }
  eapply wp_mono; [apply wp_runSystemctl|]. intros e3 w3 (H3 & D3 & L3). cbv beta.
  split; [frame|]. split; [|exact L3]. intros E3.
  assert (disk w1 = disk w) as R1 by frame. assert (disk w2 = disk w) as R2 by frame.
  rewrite D3, D2, D1, R2, R1 by done. by destruct (disk w).
Qed.

Lemma wp_restoreAndReload prev w :
  wp (restoreAndReload prev)
    (fun e w' => same_units w w' /\ (err e = false -> disk w' = restored prev /\ loaded w' = restored prev)) w.
Proof.
  unfold restoreAndReload. wp_run wp_restore. intros e1 w1 (H1 & D1).
  wp_run wp_reloadUnits. intros e2 w2 (H2 & D2 & _). unfold wp; cbn. split; [frame|].
  rewrite err_app. intros E. destruct (err e1), (err e2); try done.
  specialize (D1 eq_refl). specialize (D2 eq_refl). destruct H2 as [_ ->]. split; congruence.
Qed.

(** ** Outcomes *)

(** The commit callback took the control plane from [c] to [c'], or refused. *)
Definition commits (req : ApplyRequest) (c c' : CP) : Prop :=
  match Commit req with None => c' = c | Some f => f c = (true, c') end.
Definition refuses (req : ApplyRequest) (c c' : CP) : Prop :=
  exists f, Commit req = Some f /\ f c = (false, c').

(** The new configuration is live: rendered on disk and read by all units. *)
Definition live (req : ApplyRequest) (w : World) : Prop :=
  exists cfg, rq_config req = Some cfg /\ disk w = rendered cfg /\ loaded w = rendered cfg.

(** The configuration from before is on disk, and in the units unless they
    never saw another one. *)
Definition undone (w w' : World) : Prop :=
  disk w' = restored (disk w) /\ (loaded w' = loaded w \/ loaded w' = restored (disk w)).

(** What an ended apply with result [r] did to the world. *)
Definition outcome (req : ApplyRequest) (r : ApplyResult) (w w' : World) : Prop :=
  match health r with
  | HealthOK => RolledBack r = false /\ live req w' /\ config w' = rq_config req /\ commits req (cp w) (cp w')
  | HealthFailed =>
      config w' = config w /\ (cp w' = cp w \/ refuses req (cp w) (cp w')) /\
      (RolledBack r = true -> undone w w')
  | HealthNone => RolledBack r = false /\ disk w' = disk w /\ loaded w' = loaded w /\ config w' = config w /\ cp w' = cp w
  | HealthObserving => False
  end.

Lemma wp_commitOrRestore req prev w :
  wp (commitOrRestore req prev)
    (fun r w' => applyMu w' = applyMu w /\ config w' = config w /\
       if err (snd r) then refuses req (cp w) (cp w') /\
         (fst r = true -> disk w' = restored prev /\ loaded w' = restored prev)
       else commits req (cp w) (cp w') /\ disk w' = disk w /\ loaded w' = loaded w) w.
Proof.
  unfold commitOrRestore, commits, refuses. destruct (Commit req) as [f|]; [|unfold wp; cbn; frame].
  apply wp_bind. unfold wp at 1, run_commit. destruct (f (cp w)) as [[|] c] eqn:Ef; [unfold wp; cbn; frame|].
  wp_run wp_restoreAndReload. intros e w1 (H1 & D1).
  unfold wp; cbn. unfold same_units in H1. cbn in H1. destruct H1 as (-> & -> & ->).
  destruct (err e) eqn:E; cbn; repeat split; try done; try naive_solver.
Qed.

Lemma failedApplyResult_fst primary re :
  health (fst (failedApplyResult primary re)) = HealthFailed /\
  RolledBack (fst (failedApplyResult primary re)) = negb (err re).
Proof. unfold failedApplyResult. by destruct (err re). Qed.

Lemma wp_apply_locked h req cfg w0 w :
  rq_config req = Some cfg -> w0 = upd_lock true w ->
  wp (apply_locked h req cfg)
    (fun '(r, _, bg) w' =>
       match bg with
       | None => applyMu w' = false /\ outcome req r w w'
       | Some prev => applyMu w' = true /\ prev = disk w /\ live req w' /\ config w' = config w /\ cp w' = cp w
       end) w0.
Proof.
  intros Hc Hw0. unfold apply_locked.
  assert (Hd : disk w0 = disk w /\ loaded w0 = loaded w /\ config w0 = config w /\ cp w0 = cp w /\ applyMu w0 = true) by by subst.
  clear Hw0.
  wp_run wp_snapshotCurrent. intros [e prev] w1 (H1 & D1 & _). cbn [fst snd] in *.
  destruct (err e) eqn:E. { unfold wp, outcome; cbn. frame. }
  specialize (D1 eq_refl). subst prev. clear E e.
  wp_run wp_render. intros e w2 (H2 & D2 & _). destruct (err e) eqn:E.
  { wp_run wp_restore. intros re w3 (H3 & D3). unfold wp, outcome; cbn.
    destruct (failedApplyResult_fst e re) as [Hh Hr]. destruct (failedApplyResult e re) as [r e'].
    cbn in *. rewrite Hh, Hr. unfold undone. destruct (err re); frame. }
  specialize (D2 eq_refl). clear E e.
  wp_run wp_reloadUnits. intros e w3 (H3 & D3 & _). destruct (err e) eqn:E.
  { wp_run wp_restoreAndReload. intros re w4 (H4 & D4). unfold wp, outcome; cbn.
    destruct (failedApplyResult_fst e re) as [Hh Hr]. destruct (failedApplyResult e re) as [r e'].
    cbn in *. rewrite Hh, Hr. unfold undone. destruct (err re); frame. }
  specialize (D3 eq_refl). clear E e.
  assert (Hlive : disk w3 = rendered cfg /\ loaded w3 = rendered cfg).
  { destruct H3 as [_ ->]. by rewrite D3. }
  destruct h.
  { unfold wp, live; cbn. frame. }
  wp_run wp_commitOrRestore. intros [rb e] w4 H4. cbn [fst snd] in *.
  destruct (err e) eqn:E; unfold wp, outcome, live, undone; cbn; frame.
Qed.

Lemma wp_Apply h req w :
  applyMu w = false ->
  wp (Apply h req)
    (fun '(r, _, bg) w' =>
       match bg with
       | None => applyMu w' = false /\ outcome req r w w'
       | Some prev => applyMu w' = true /\ prev = disk w /\ live req w' /\ config w' = config w /\ cp w' = cp w
       end) w.
Proof.
  intros Hl. unfold wp, Apply. destruct (rq_config req) as [cfg|] eqn:Hc; [|done].
  rewrite Hl. by apply wp_apply_locked.
Qed.

Lemma wp_observeHealth req prev f w1 w :
  prev = disk w -> live req w1 -> config w1 = config w -> cp w1 = cp w ->
  wp (observeHealth req prev (cp_observer f))
    (fun o w' => applyMu w' = false /\
       match o with
       | Some r => exists c, outcome req r w (upd_cp c w') /\ cp w' = f r c
       | None => live req w' /\ config w' = config w /\ cp w' = cp w
       end) w1.
Proof.
  intros -> Hlive Hc Hcp. unfold observeHealth. wp_run wp_ok. intros b w2 H2. destruct b; cbn [negb].
  2: { unfold wp, live in *; cbn. frame. }
  wp_run wp_ok. intros healthy w3 H3. assert (Hlive3 : live req w3) by (unfold live in *; frame).
  assert (H13 : config w3 = config w /\ cp w3 = cp w) by frame. clear H2 H3 w2 Hlive Hc Hcp.
  apply wp_bind.
  apply (wp_mono _ (fun r w' => outcome req r w w')).
  2: { intros r w' Ho. unfold wp; cbn. split; [done|]. exists (cp w'). split; [|done]. exact Ho. }
  destruct healthy; cbn [negb].
  - wp_run wp_commitOrRestore. intros [rb e] w4 H4. cbn [fst snd] in *.
    destruct (err e) eqn:E; unfold wp, outcome, live, undone in *; cbn; [frame|].
    destruct H4 as (_ & _ & Hcm & -> & ->). destruct H13 as [_ <-]. frame.
  - wp_run wp_restoreAndReload. intros re w4 (H4 & D4). unfold wp, outcome; cbn.
    destruct (failedApplyResult_fst [EHealth] re) as [Hh Hr]. cbn in Hh, Hr. rewrite Hh, Hr. unfold undone. destruct (err re); frame.
Qed.

(** C7: A whole apply, whatever fails on the way and with whatever health
    policy, releases the lock and ends in the state its result names.
    Confirmed: the new configuration is on disk, in all three units and the
    last good one, and the commit went through.  Failed and rolled back: the
    files are the ones from before and the units have read nothing else.
    Failed at all: the last good configuration is untouched and the commit
    never succeeded.  Only an aborted observation leaves the new files in
    place without a verdict. *)
Theorem lifecycle_spec h req f w o w' :
  applyMu w = false -> lifecycle h req f w = (o, w') ->
  applyMu w' = false /\
  match o with
  | Some r => exists c, outcome req r w (upd_cp c w') /\ (cp w' = c \/ cp w' = f r c)
  | None => live req w' /\ config w' = config w /\ cp w' = cp w
  end.
Proof.
  intros Hl E. enough (H : wp (lifecycle h req f) (fun o w' => applyMu w' = false /\
    match o with
    | Some r => exists c, outcome req r w (upd_cp c w') /\ (cp w' = c \/ cp w' = f r c)
    | None => live req w' /\ config w' = config w /\ cp w' = cp w
    end) w) by (unfold wp in H; by rewrite E in H).
  apply wp_bind. eapply wp_mono; [by apply wp_Apply|]. intros [[r e] [prev|]] w1; cbv beta iota.
  - intros (_ & Hp & Hlive & Hc & Hcp). eapply wp_mono; [by apply (wp_observeHealth _ _ _ _ w)|].
    intros [r'|] w2; [|done]. intros [? (c & ? & ?)]. naive_solver.
  - intros [Hl' Ho]. unfold wp; cbn. split; [done|]. exists (cp w1). split; [|by left].
    by destruct w1.
Qed.

(** Calls that may come in while an apply is observed. *)
Inductive Op := OpApply (h : bool) (req : ApplyRequest) | OpRollback.

Definition run_op (op : Op) : ST error := fun w =>
  match op with
  | OpApply h req => let '(_, e, _, w') := Apply h req w in (e, w')
  | OpRollback => Rollback w
  end.

(** From the moment an apply goes into its background observation until
    the observation ends, every other apply and rollback is turned away and
    changes nothing, however many come in. *)
Theorem observing_excludes h req w r e prev w1 ops :
  Apply h req w = (r, e, Some prev, w1) ->
  foldl (fun w op => snd (run_op op w)) w1 ops = w1 /\
  Forall (fun op => fst (run_op op w1) = [EApplyInFlight] \/ fst (run_op op w1) = [ENilConfig]) ops.
Proof.
  intros E. assert (Hl : applyMu w1 = true).
  { destruct (applyMu w) eqn:Hw.
    - unfold Apply in E. rewrite Hw in E. by destruct (rq_config req).
    - pose proof (wp_Apply h req w Hw) as H. unfold wp in H. rewrite E in H. by destruct H. }
  assert (Hop : forall op, snd (run_op op w1) = w1 /\
    (fst (run_op op w1) = [EApplyInFlight] \/ fst (run_op op w1) = [ENilConfig])).
  { intros [h' req'|]; cbn; unfold Apply, Rollback; rewrite Hl; [|by auto].
    destruct (rq_config req'); cbn; auto. }
  split; [|apply Forall_forall; intros op _; apply Hop].
  induction ops as [|op ops IH]; [done|]. cbn. by rewrite (proj1 (Hop op)).
Qed.

(** Without faults every operation has one result. *)
Section no_faults.
Context (w : World) (Hf : faults w = []).

Lemma run_ok : ok w = (true, w).
Proof. unfold ok. by rewrite Hf. Qed.

Lemma run_steps n : steps n w = (true, w).
Proof. induction n as [|n IH]; [done|]. cbn [steps]. unfold bind. by rewrite run_ok. Qed.

Lemma run_renderFile u cfg :
  is_Some (Render u cfg) -> renderFile u cfg w = ([], upd_disk (set3 (disk w) u (rendered_file u cfg)) w).
Proof.
  intros [b E]. unfold renderFile, rendered_file, writeBytesAtomic, bind. rewrite E, run_steps. done.
Qed.

Lemma run_snapshotPath u : snapshotPath u w = (([], get3 (disk w) u), w).
Proof.
  unfold snapshotPath, bind. rewrite run_ok. destruct (get3 (disk w) u); [|done]. by rewrite run_ok.
Qed.

Lemma run_snapshotCurrent : snapshotCurrent w = (([], disk w), w).
Proof.
  unfold snapshotCurrent, bind. do 3 (rewrite run_snapshotPath; cbn [err]). by destruct (disk w).
Qed.

Lemma run_runSystemctl u : runSystemctl u w = ([], upd_loaded (set3 (loaded w) u (get3 (disk w) u)) w).
Proof. unfold runSystemctl, bind. by rewrite run_ok. Qed.
End no_faults.

Lemma run_render w cfg :
  faults w = [] -> (forall u, is_Some (Render u cfg)) -> render cfg w = ([], upd_disk (rendered cfg) w).
Proof.
  intros Hf Hr. unfold render, bind. do 3 (rewrite run_renderFile by done; cbn [err negb]). done.
Qed.

Lemma run_reloadUnits w : faults w = [] -> reloadUnits w = ([], upd_loaded (disk w) w).
Proof.
  intros Hf. unfold reloadUnits, bind. do 3 (rewrite run_runSystemctl by done; cbn [err negb]).
  cbn. by destruct (disk w).
Qed.

Lemma run_commitOrRestore req prev w :
  (forall g, Commit req = Some g -> fst (g (cp w)) = true) ->
  exists c, commitOrRestore req prev w = ((false, []), upd_cp c w).
Proof.
  unfold commitOrRestore. destruct (Commit req) as [g|]; intros Hg.
  - specialize (Hg g eq_refl). unfold bind, run_commit. destruct (g (cp w)) as [[|] c]; [|done]. by exists c.
  - exists (cp w). by destruct w.
Qed.

(** An apply reaches the confirmed state whenever nothing it calls
    fails: every renderer has an output, the commit is accepted, and files,
    units and probe work. *)
Theorem lifecycle_succeeds h req f w cfg :
  applyMu w = false -> faults w = [] -> rq_config req = Some cfg ->
  (forall u, is_Some (Render u cfg)) ->
  (forall g, Commit req = Some g -> fst (g (cp w)) = true) ->
  exists r w', lifecycle h req f w = (Some r, w') /\ health r = HealthOK /\ Reason r = [] /\
    live req w' /\ config w' = Some cfg /\ applyMu w' = false.
Proof.
  intros Hl Hf Hc Hr Hg. unfold lifecycle, bind, Apply. rewrite Hc, Hl. unfold apply_locked, bind.
  rewrite run_snapshotCurrent by done. cbn [err]. rewrite run_render by done. cbn [err].
  rewrite run_reloadUnits by done. cbn [err].
  set (w3 := upd_loaded _ _).
  assert (Hw : faults w3 = [] /\ disk w3 = rendered cfg /\ loaded w3 = rendered cfg /\ cp w3 = cp w) by done.
  clearbody w3. destruct Hw as (Hf3 & Hd & Hld & Hcp).
  destruct (run_commitOrRestore req (disk (upd_lock true w)) w3) as [c Ec]; [by rewrite Hcp|].
  destruct h; cbn [fst snd ret]; unfold ret; cbv beta iota.
  - unfold observeHealth, bind. rewrite run_ok by done. cbn [negb]. rewrite run_ok by done. cbn [negb].
    rewrite Ec. cbn [err]. do 2 eexists. split; [reflexivity|].
    split; [done|]. split; [done|]. split; [by exists cfg|]. by rewrite Hc.
  - rewrite Ec. cbn [err]. do 2 eexists. split; [reflexivity|].
    split; [done|]. split; [done|]. split; [by exists cfg|]. by rewrite Hc.
Qed.

(** What a rollback may do, told by its error. *)
Definition rolled_to (w : World) (e : error) (w' : World) : Prop :=
  config w' = config w /\ cp w' = cp w /\
  (e = [] -> exists cfg, config w = Some cfg /\ disk w' = rendered cfg /\ loaded w' = rendered cfg) /\
  (length e = 1%nat -> undone w w' \/ disk w' = disk w /\ loaded w' = loaded w).

Lemma wp_compensate w0 e w :
  length e = 1%nat -> config w = config w0 -> cp w = cp w0 ->
  wp (compensateRollbackFailure (disk w0) e) (rolled_to w0) w.
Proof.
  intros He Hc Hcp. unfold compensateRollbackFailure. wp_run wp_restoreAndReload. intros re w1 (H1 & D1).
  unfold wp, rolled_to, undone; cbn. destruct e as [|x [|]]; try done. cbn.
  unfold same_units in H1. destruct_and?. split; [congruence|]. split; [congruence|].
  split; [done|]. destruct re; [|done]. intros _. left. destruct D1 as [-> ->]; auto.
Qed.

Lemma wp_rollback_to w cfg : config w = Some cfg -> wp (rollback_to cfg) (rolled_to w) w.
Proof.
  intros Hc. unfold rollback_to. wp_run wp_snapshotCurrent. intros [e prev] w1 (H1 & D1 & L1). cbn [fst snd] in *.
  destruct (err e) eqn:E. { unfold wp, rolled_to; cbn. destruct e; [done|]. frame. }
  specialize (D1 eq_refl). subst prev. clear L1 E e.
  wp_run wp_render. intros e w2 (H2 & D2 & L2).
  assert (config w2 = config w /\ cp w2 = cp w) as [Hc2 Hcp2] by frame.
  destruct (err e) eqn:E; [by apply wp_compensate; auto|]. specialize (D2 eq_refl). clear L2 E e.
  wp_run wp_reloadUnits. intros e w3 (H3 & D3 & L3).
  destruct (err e) eqn:E; [apply wp_compensate; auto; frame|].
  unfold wp, rolled_to; cbn. specialize (D3 eq_refl). destruct H3 as [Hu Hdk]. unfold same_units in Hu.
  destruct_and?. split; [congruence|]. split; [congruence|]. split; [|done]. intros _.
  exists cfg. split; [done|]. split; congruence.
Qed.

(** A rollback that reports no error has the last good configuration on
    disk and in all units; one that reports a single cause, so that its own
    compensation worked, leaves the files from before.  The lock is free
    again, and neither the last good configuration nor the control plane
    has changed. *)
Theorem Rollback_spec w e w' :
  applyMu w = false -> Rollback w = (e, w') ->
  applyMu w' = false /\ config w' = config w /\ cp w' = cp w /\
  (e = [] -> exists cfg, config w = Some cfg /\ disk w' = rendered cfg /\ loaded w' = rendered cfg) /\
  (length e = 1%nat -> undone w w' \/ disk w' = disk w /\ loaded w' = loaded w).
Proof.
  intros Hl E. unfold Rollback, bind in E. rewrite Hl in E.
  destruct (rollback_locked (upd_lock true w)) as [e1 w1] eqn:E1.
  injection E as <- <-. cbn. unfold rollback_locked in E1. cbn in E1.
  destruct (config w) as [cfg|] eqn:Hc.
  - pose proof (wp_rollback_to (upd_lock true w) cfg Hc) as H. unfold wp in H. rewrite E1 in H.
    split; [done|]. unfold rolled_to in H. cbn in H. rewrite Hc in H. exact H.
  - injection E1 as <- <-. cbn. split; [done|]. split; [done|]. split; [done|]. split; [done|]. by right.
Qed.
End orchestrator.

(** ** Witnesses *)
Module Demo.
Definition Render (u : Unit3) (c : bool) : option bytes :=
  Some (map zb (match u with UDnsdist => [1] | UMihomo => [2] | USniproxy => [3] end ++ [if c then 1 else 0])%Z).

Definition old (n : Z) : option File := Some {| f_body := [zb n]; f_mode := 384 |}.

(** Three old files, each loaded; the last unit has none yet. *)
Definition w0 (l : list bool) : World bool nat :=
  MkWorld (MkThree (old 7) (old 8) None) (MkThree (old 7) (old 8) None) false (Some false) 0 l.

Definition req : ApplyRequest bool nat :=
  {| SnapshotID := 4; RuleVersionID := 9; rq_config := Some true; PrevSnapshot := 3;
     Commit := Some (fun n => (true, S n)) |}.

Definition obs (r : ApplyResult) (n : nat) : nat := n + 10.

(** The reload of the second unit fails: 3 + 2 snapshot calls, 21 writes,
    one reload that works. *)
Definition second_reload_fails : list bool := replicate 27 true ++ [false; true].

Example rolled_back :
  let '(o, w') := lifecycle Render true req obs (w0 second_reload_fails) in
  o = Some {| RolledBack := true; health := HealthFailed; Reason := [ESystemctl UMihomo] |} /\
  disk w' = disk (w0 []) /\ loaded w' = loaded (w0 []) /\ cp w' = 0%nat.
Proof. vm_compute. auto. Qed.

Lemma lifecycle_spec_witness :
  exists o w', lifecycle Render true req obs (w0 second_reload_fails) = (o, w') /\ applyMu w' = false.
Proof.
  destruct (lifecycle Render true req obs (w0 second_reload_fails)) as [o w'] eqn:E.
  exists o, w'. split; [reflexivity|].
  apply (proj1 (lifecycle_spec Render true req obs (w0 second_reload_fails) o w' eq_refl E)).
Defined.

(** The world while the new configuration is observed. *)
Definition new (n : Z) : option File := Some {| f_body := [zb n; zb 1]; f_mode := mode644 |}.
Definition w_observing : World bool nat :=
  MkWorld (MkThree (new 1) (new 2) (new 3)) (MkThree (new 1) (new 2) (new 3)) true (Some false) 0 [].

Lemma apply_observes :
  Apply Render true req (w0 []) =
  ({| RolledBack := false; health := HealthObserving; Reason := [] |}, [], Some (disk (w0 [])), w_observing).
Proof. vm_compute. reflexivity. Qed.

Lemma observing_excludes_witness :
  foldl (fun w op => snd (run_op Render op w)) w_observing [OpRollback; OpApply false req] = w_observing.
Proof.
  apply (proj1 (observing_excludes Render true req (w0 []) _ _ _ _ [OpRollback; OpApply false req] apply_observes)).
Defined.

Lemma lifecycle_succeeds_witness :
  exists r w', lifecycle Render true req obs (w0 []) = (Some r, w') /\ health r = HealthOK.
Proof.
  assert (Hg : forall g, Commit req = Some g -> fst (g (cp (w0 []))) = true)
    by (intros g Hg; injection Hg as <-; reflexivity).
  assert (Hr : forall u, is_Some (Render u true)) by (intros u; destruct u; eexists; reflexivity).
  destruct (lifecycle_succeeds Render true req obs (w0 []) true eq_refl eq_refl eq_refl Hr Hg)
    as (r & w' & H1 & H2 & _).
  exists r, w'. split; [exact H1|exact H2].
Defined.

Lemma Rollback_spec_witness :
  exists e w', Rollback Render (w0 second_reload_fails) = (e, w') /\ applyMu w' = false.
Proof.
  destruct (Rollback Render (w0 second_reload_fails)) as [e w'] eqn:E.
  exists e, w'. split; [reflexivity|].
  apply (proj1 (Rollback_spec Render (w0 second_reload_fails) e w' eq_refl E)).
Defined.

Example rollback_compensated :
  let '(e, w') := Rollback Render (w0 second_reload_fails) in
  e = [ESystemctl UMihomo] /\ disk w' = disk (w0 []) /\ loaded w' = loaded (w0 []).
Proof. vm_compute. auto. Qed.
End Demo.
