(* ===== verification/Db.v ===== *)
(** * The control-plane database

    [internal/db/queries.go], the tables of internal/db/migrations and the
    exit registry [internal/exit/store.go].  A table is its rows in order of
    insertion with the last AUTOINCREMENT id; a statement is a function on
    the tables with the constraints of the schema (UNIQUE, REFERENCES, the
    partial index on active rows), and can fail instead by the next outcome
    of [db_faults].  [tx] is Begin ... Commit with the deferred Rollback:
    after an error the tables are the ones from before.  CURRENT_TIMESTAMP
    and time.Now() are [now], set from outside. *)
From S2P Require Import Prelude.
From Stdlib Require Import ZArith Lia.

(** ** Tables *)
Record Table (R : Type) := MkTable { rows : list R; seq : Z }.
Arguments MkTable {R} _ _.
Arguments rows {R} _.
Arguments seq {R} _.

Definition tbl_insert {R} (f : Z -> R) (t : Table R) : Table R :=
  MkTable (rows t ++ [f (seq t + 1)%Z]) (seq t + 1)%Z.
Definition tbl_map {R} (f : R -> R) (t : Table R) : Table R := MkTable (f <$> rows t) (seq t).
Definition tbl_filter {R} (p : R -> bool) (t : Table R) : Table R :=
  MkTable (filter (fun r => p r = true) (rows t)) (seq t).

(** ** Rows *)
Record Snapshot := { sn_ID : Z; sn_ConfigHash : bytes; sn_TarballPath : bytes; sn_Note : bytes; sn_Created : Z }.

Record RuleVersion := { rv_ID : Z; rv_SnapshotID : Z; rv_RulesYAML : bytes; rv_Active : bool }.

Inductive State := Submitted | Confirmed | StRolledBack | Failed.

#[export] Instance State_eq_dec : EqDecision State.
Proof. solve_decision. Defined.

Record ApplyStatus := { st_ID : Z; st_SnapshotID : Z; st_State : State; st_Reason : bytes; st_Updated : Z }.

Record Exit := { x_RowID : Z; x_ExitID : bytes; x_Protocol : bytes; x_URI : bytes; x_Active : bool; x_Created : Z }.

Record PanelUser := { u_ID : Z; u_Username : bytes; u_BcryptHash : bytes; u_LastLogin : option Z }.

Record PanelSession := {
  ps_ID : bytes; ps_UserID : Z; ps_JWTID : bytes; ps_ExpiresAt : Z; ps_RevokedAt : option Z
}.

Record AuditEntry := { a_Actor : bytes; a_Action : bytes; a_Target : bytes; a_Result : bytes }.

Record Db := MkDb {
  snapshots : Table Snapshot;
  rule_versions : Table RuleVersion;
  apply_status : Table ApplyStatus;
  exits : Table Exit;
  panel_users : Table PanelUser;
  panel_sessions : list PanelSession;
  audit_log : list AuditEntry;
  now : Z;
  db_faults : list bool
}.

Inductive DbErr := ErrExec | ErrConstraint | ErrNoRows | ErrAffected | ErrExitActive | ErrNoActive
| ErrExitNotFound | ErrInvalidExitID | ErrParseURI.

#[export] Instance DbErr_eq_dec : EqDecision DbErr.
Proof. solve_decision. Defined.

Abbreviation DB A := (ST Db (res DbErr A)).

Definition set_snapshots t d := MkDb t (rule_versions d) (apply_status d) (exits d) (panel_users d) (panel_sessions d) (audit_log d) (now d) (db_faults d).
Definition set_rule_versions t d := MkDb (snapshots d) t (apply_status d) (exits d) (panel_users d) (panel_sessions d) (audit_log d) (now d) (db_faults d).
Definition set_apply_status t d := MkDb (snapshots d) (rule_versions d) t (exits d) (panel_users d) (panel_sessions d) (audit_log d) (now d) (db_faults d).
Definition set_exits t d := MkDb (snapshots d) (rule_versions d) (apply_status d) t (panel_users d) (panel_sessions d) (audit_log d) (now d) (db_faults d).
Definition set_panel_users t d := MkDb (snapshots d) (rule_versions d) (apply_status d) (exits d) t (panel_sessions d) (audit_log d) (now d) (db_faults d).
Definition set_panel_sessions t d := MkDb (snapshots d) (rule_versions d) (apply_status d) (exits d) (panel_users d) t (audit_log d) (now d) (db_faults d).
Definition set_audit_log t d := MkDb (snapshots d) (rule_versions d) (apply_status d) (exits d) (panel_users d) (panel_sessions d) t (now d) (db_faults d).
Definition set_db_faults l d := MkDb (snapshots d) (rule_versions d) (apply_status d) (exits d) (panel_users d) (panel_sessions d) (audit_log d) (now d) l.

(** ** Statements and transactions *)

(** A driver call that changes nothing (Begin, a read, RowsAffected). *)
Definition fallible : DB unit := fun d =>
  match db_faults d with
  | [] => (Ok tt, d)
  | b :: l => ((if b then Ok tt else Err ErrExec), set_db_faults l d)
  end.

(** A statement: it fails, or runs within the constraints. *)
Definition exec {A} (f : Db -> option (A * Db)) : DB A :=
  let? _ := fallible in
  fun d => match f d with None => (Err ErrConstraint, d) | Some (a, d') => (Ok a, d') end.

Definition update (f : Db -> Db) : DB unit := exec (fun d => Some (tt, f d)).
Definition query {A} (f : Db -> res DbErr A) : DB A := let? _ := fallible in gets f.

Definition tx {A} (m : DB A) : DB A := fun d =>
  match (let? _ := fallible in let? a := m in let? _ := fallible in ret (Ok a)) d with
  | (Ok a, d') => (Ok a, d')
  | (Err e, d') => (Err e, set_db_faults (db_faults d') d)
  end.

(** A query for one row. *)
Definition one {A} (o : option A) : res DbErr A := match o with Some a => Ok a | None => Err ErrNoRows end.

(** ** Snapshots *)
Definition hash_taken (h : bytes) (d : Db) : option Snapshot :=
  found (fun s => sn_ConfigHash s == h) (rows (snapshots d)).

(** [InsertSnapshot]: an existing hash is reused. *)
Definition InsertSnapshot (hash tarball note : bytes) : DB Z :=
  let? (inserted, last) := exec (fun d =>
    match hash_taken hash d with
    | Some _ => Some ((0, 0)%Z, d)
    | None =>
        let t := tbl_insert (fun id => {| sn_ID := id; sn_ConfigHash := hash; sn_TarballPath := tarball;
                                          sn_Note := note; sn_Created := now d |}) (snapshots d) in
        Some ((1, seq t)%Z, set_snapshots t d)
    end) in
  let? _ := fallible in
  if (inserted =? 1)%Z then let? _ := fallible in ret (Ok last)
  else query (fun d => match hash_taken hash d with Some s => Ok (sn_ID s) | None => Err ErrNoRows end).

(** [GetSnapshotByID]. *)
Definition GetSnapshotByID (id : Z) : DB Snapshot :=
  query (fun d => one (found (fun s => sn_ID s == id) (rows (snapshots d)))).

(** ** Rule versions *)
Definition rv_set_active (b : bool) (r : RuleVersion) : RuleVersion :=
  {| rv_ID := rv_ID r; rv_SnapshotID := rv_SnapshotID r; rv_RulesYAML := rv_RulesYAML r; rv_Active := b |}.

(** UPDATE rule_versions SET active = 0 WHERE active = 1. *)
Definition demote_rules : DB unit :=
  update (fun d => set_rule_versions (tbl_map (fun r => if rv_Active r then rv_set_active false r else r) (rule_versions d)) d).

Definition snapshot_exists (id : Z) (d : Db) : bool :=
  existsb (fun s => sn_ID s == id) (rows (snapshots d)).

(** [InsertRuleVersion]. *)
Definition InsertRuleVersion (snapshotID : Z) (rulesYAML : bytes) (setActive : bool) : DB Z :=
  tx (let? _ := (if setActive then demote_rules else ret (Ok tt)) in
      let? id := exec (fun d =>
        if snapshot_exists snapshotID d && negb (setActive && existsb rv_Active (rows (rule_versions d))) then
          let t := tbl_insert (fun id => {| rv_ID := id; rv_SnapshotID := snapshotID; rv_RulesYAML := rulesYAML;
                                            rv_Active := setActive |}) (rule_versions d) in
          Some (seq t, set_rule_versions t d)
        else None) in
      let? _ := fallible in
      ret (Ok id)).

(** [SetActiveRuleVersion]. *)
Definition SetActiveRuleVersion (id : Z) : DB unit :=
  tx (let? _ := demote_rules in
      let? n := exec (fun d =>
        Some (len (filter (fun r => rv_ID r = id) (rows (rule_versions d))),
              set_rule_versions (tbl_map (fun r => if rv_ID r == id then rv_set_active true r else r) (rule_versions d)) d)) in
      let? _ := fallible in
      if (n =? 1)%Z then ret (Ok tt) else ret (Err ErrNoRows)).

(** [ClearActiveRuleVersion]. *)
Definition ClearActiveRuleVersion : DB unit := demote_rules.

(** [GetRuleVersionByID]. *)
Definition GetRuleVersionByID (id : Z) : DB RuleVersion :=
  query (fun d => one (found (fun r => rv_ID r == id) (rows (rule_versions d)))).

(** [GetRuleVersionBySnapshot]: the greatest id, that is the last row. *)
Definition GetRuleVersionBySnapshot (snapshotID : Z) : DB RuleVersion :=
  query (fun d => one (last (filter (fun r => rv_SnapshotID r = snapshotID) (rows (rule_versions d))))).

(** [GetActiveRuleVersion]. *)
Definition GetActiveRuleVersion : DB RuleVersion :=
  query (fun d => one (found rv_Active (rows (rule_versions d)))).

(** [AppendAudit]. *)
Definition AppendAudit (e : AuditEntry) : DB unit :=
  update (fun d => set_audit_log (audit_log d ++ [e]) d).

(** ** Apply status *)

(** [InsertApplyStatus]. *)
Definition InsertApplyStatus (snapshotID : Z) (reason : bytes) : DB Z :=
  let? id := exec (fun d =>
    if snapshot_exists snapshotID d then
      let t := tbl_insert (fun id => {| st_ID := id; st_SnapshotID := snapshotID; st_State := Submitted;
                                        st_Reason := reason; st_Updated := now d |}) (apply_status d) in
      Some (seq t, set_apply_status t d)
    else None) in
  let? _ := fallible in
  ret (Ok id).

(** [UpdateApplyStatus]. *)
Definition UpdateApplyStatus (id : Z) (state : State) (reason : bytes) : DB unit :=
  let? n := exec (fun d =>
    Some (len (filter (fun r => st_ID r = id) (rows (apply_status d))),
          set_apply_status (tbl_map (fun r =>
            if st_ID r == id
            then {| st_ID := st_ID r; st_SnapshotID := st_SnapshotID r; st_State := state;
                    st_Reason := reason; st_Updated := now d |}
            else r) (apply_status d)) d)) in
  let? _ := fallible in
  if (n =? 1)%Z then ret (Ok tt) else ret (Err ErrAffected).

(** ORDER BY updated_at DESC, id DESC. *)
Definition later (a b : ApplyStatus) : bool :=
  (st_Updated b <? st_Updated a)%Z || ((st_Updated a =? st_Updated b)%Z && (st_ID b <=? st_ID a)%Z).

(** [LatestApplyStatus]. *)
Definition LatestApplyStatus : DB (option ApplyStatus) :=
  query (fun d => Ok (head (stable_sort later (rows (apply_status d))))).

(** [ApplyStatusBySnapshot]. *)
Definition ApplyStatusBySnapshot (snapshotID : Z) : DB (option ApplyStatus) :=
  query (fun d => Ok (last (filter (fun r => st_SnapshotID r = snapshotID) (rows (apply_status d))))).

(** ** Exits: [SQLStore] of internal/exit/store.go *)
Definition directProtocol : bytes := str "direct".
Definition directURI : bytes := str "direct://".

(** [exitIDRE], ^[a-zA-Z0-9_-]+$. *)
Definition exit_id_byte (b : byte) : bool :=
  let z := bz b in
  ((97 <=? z) && (z <=? 122) || (65 <=? z) && (z <=? 90) || (48 <=? z) && (z <=? 57) ||
   (z =? 95) || (z =? 45))%Z.
Definition exitIDRE (id : bytes) : bool := negb (id == []) && forallb exit_id_byte id.

Definition x_set_active (b : bool) (r : Exit) : Exit :=
  {| x_RowID := x_RowID r; x_ExitID := x_ExitID r; x_Protocol := x_Protocol r; x_URI := x_URI r;
     x_Active := b; x_Created := x_Created r |}.

(** ORDER BY active DESC, created_at ASC, id ASC. *)
Definition exit_leb (a b : Exit) : bool :=
  match x_Active a, x_Active b with
  | true, false => true
  | false, true => false
  | _, _ => (x_Created a <? x_Created b)%Z || ((x_Created a =? x_Created b)%Z && (x_RowID a <=? x_RowID b)%Z)
  end.

(** [List]. *)
Definition ListExits : DB (list Exit) := query (fun d => Ok (stable_sort exit_leb (rows (exits d)))).

Definition find_exit (id : bytes) (d : Db) : option Exit :=
  found (fun r => x_ExitID r == id) (rows (exits d)).

Section exit_parse.
(** [Parse]: fails, or gives the proxy's type when it has one. *)
Context (Parse : bytes -> option (option bytes)).

(** [Add]. *)
Definition AddExit (exitID uri : bytes) : DB Exit :=
  if negb (exitIDRE exitID) then ret (Err ErrInvalidExitID)
  else
    match (if (exitID == directProtocol) || (uri == directURI) then Some directProtocol
           else match Parse uri with
                | None => None
                | Some (Some t) => Some (if t == [] then str "unknown" else t)
                | Some None => Some (str "unknown")
                end) with
    | None => ret (Err ErrParseURI)
    | Some protocol =>
        exec (fun d =>
          match find_exit exitID d with
          | Some _ => None
          | None =>
              let row id := {| x_RowID := id; x_ExitID := exitID; x_Protocol := protocol; x_URI := uri;
                               x_Active := false; x_Created := now d |} in
              Some (row (seq (exits d) + 1)%Z, set_exits (tbl_insert row (exits d)) d)
          end)
    end.
End exit_parse.

(** [Delete]. *)
Definition DeleteExit (exitID : bytes) : DB unit :=
  let? r := query (fun d => match find_exit exitID d with Some r => Ok r | None => Err ErrExitNotFound end) in
  if x_Active r then ret (Err ErrExitActive)
  else
    let? n := exec (fun d =>
      Some (len (filter (fun r => x_ExitID r = exitID) (rows (exits d))),
            set_exits (tbl_filter (fun r => x_ExitID r != exitID) (exits d)) d)) in
    if (n =? 0)%Z then ret (Err ErrExitNotFound) else ret (Ok tt).

(** [Switch]. *)
Definition SwitchExitRow (exitID : bytes) : DB unit :=
  tx (let? n := query (fun d => Ok (len (filter (fun r => x_ExitID r = exitID) (rows (exits d))))) in
      if (n =? 0)%Z then ret (Err ErrExitNotFound)
      else
        let? _ := update (fun d => set_exits (tbl_map (fun r => if x_Active r then x_set_active false r else r) (exits d)) d) in
        update (fun d => set_exits (tbl_map (fun r => if x_ExitID r == exitID then x_set_active true r else r) (exits d)) d)).

(** [Active]. *)
Definition ActiveExit : DB Exit :=
  query (fun d => match found x_Active (rows (exits d)) with Some r => Ok r | None => Err ErrNoActive end).

(** ** Users and sessions *)
Definition find_user (name : bytes) (d : Db) : option PanelUser :=
  found (fun u => u_Username u == name) (rows (panel_users d)).

Definition new_user (name hash : bytes) (id : Z) : PanelUser :=
  {| u_ID := id; u_Username := name; u_BcryptHash := hash; u_LastLogin := None |}.

(** [InsertPanelUser]. *)
Definition InsertPanelUser (username bcryptHash : bytes) : DB Z :=
  let? id := exec (fun d =>
    match find_user username d with
    | Some _ => None
    | None => let t := tbl_insert (new_user username bcryptHash) (panel_users d) in Some (seq t, set_panel_users t d)
    end) in
  let? _ := fallible in
  ret (Ok id).

(** [InsertFirstPanelUser]: one statement, WHERE NOT EXISTS. *)
Definition InsertFirstPanelUser (username bcryptHash : bytes) : DB (Z * bool) :=
  let? (n, id) := exec (fun d =>
    if bool_decide (rows (panel_users d) = []) then
      let t := tbl_insert (new_user username bcryptHash) (panel_users d) in
      Some ((1, seq t)%Z, set_panel_users t d)
    else Some ((0, 0)%Z, d)) in
  let? _ := fallible in
  if (n =? 0)%Z then ret (Ok (0%Z, false))
  else let? _ := fallible in ret (Ok (id, true)).

(** [GetPanelUserByUsername]. *)
Definition GetPanelUserByUsername (username : bytes) : DB PanelUser := query (fun d => one (find_user username d)).

(** [CountPanelUsers]. *)
Definition CountPanelUsers : DB Z := query (fun d => Ok (len (rows (panel_users d)))).

Definition upd_user (id : Z) (f : PanelUser -> PanelUser) (d : Db) : Db :=
  set_panel_users (tbl_map (fun u => if u_ID u == id then f u else u) (panel_users d)) d.

(** [TouchLastLogin] and [UpdatePanelUserPassword]. *)
Definition TouchLastLogin (userID : Z) : DB unit :=
  update (fun d => upd_user userID (fun u =>
    {| u_ID := u_ID u; u_Username := u_Username u; u_BcryptHash := u_BcryptHash u; u_LastLogin := Some (now d) |}) d).

Definition UpdatePanelUserPassword (userID : Z) (bcryptHash : bytes) : DB unit :=
  update (fun d => upd_user userID (fun u =>
    {| u_ID := u_ID u; u_Username := u_Username u; u_BcryptHash := bcryptHash; u_LastLogin := u_LastLogin u |}) d).

(** [InsertPanelSession]. *)
Definition InsertPanelSession (id : bytes) (userID : Z) (jwtID : bytes) (expiresAt : Z) : DB unit :=
  exec (fun d =>
    if existsb (fun u => u_ID u == userID) (rows (panel_users d)) &&
       negb (existsb (fun s => (ps_ID s == id) || (ps_JWTID s == jwtID)) (panel_sessions d))
    then Some (tt, set_panel_sessions (panel_sessions d ++
           [{| ps_ID := id; ps_UserID := userID; ps_JWTID := jwtID; ps_ExpiresAt := expiresAt; ps_RevokedAt := None |}]) d)
    else None).

(** [IsSessionActive]. *)
Definition IsSessionActive (sessionID : bytes) : DB bool :=
  query (fun d => Ok (
    match found (fun s => ps_ID s == sessionID) (panel_sessions d) with
    | None => false
    | Some s => if bool_decide (is_Some (ps_RevokedAt s)) then false else negb (ps_ExpiresAt s <? now d)%Z
    end)).

Definition revoke (t : Z) (s : PanelSession) : PanelSession :=
  {| ps_ID := ps_ID s; ps_UserID := ps_UserID s; ps_JWTID := ps_JWTID s; ps_ExpiresAt := ps_ExpiresAt s;
     ps_RevokedAt := Some t |}.

(** [RevokeSession] and [RevokeSessionsExcept]. *)
Definition RevokeSession (sessionID : bytes) : DB unit :=
  update (fun d => set_panel_sessions ((fun s => if ps_ID s == sessionID then revoke (now d) s else s) <$> panel_sessions d) d).

Definition RevokeSessionsExcept (userID : Z) (keepJWTID : bytes) : DB unit :=
  update (fun d => set_panel_sessions
    ((fun s => if (ps_UserID s == userID) && (ps_RevokedAt s == None) && (ps_JWTID s != keepJWTID)
               then revoke (now d) s else s) <$> panel_sessions d) d).

(** ** Operations keep a predicate *)

(** Predicates on the tables alone: they hold with any faults to come. *)
Definition stable (I : Db -> Prop) : Prop := forall l d, I d -> I (set_db_faults l d).

Section keeps.
Context (I : Db -> Prop) (HI : stable I).

Lemma keeps_fallible : keeps I fallible.
Proof. intros d H. unfold fallible. destruct (db_faults d) as [|b l]; [done|]. by apply HI. Qed.

Lemma keeps_exec {A} (f : Db -> option (A * Db)) :
  (forall d a d', f d = Some (a, d') -> I d -> I d') -> keeps I (exec f).
Proof.
  intros Hf. apply keeps_bindE; [apply keeps_fallible|]. intros _ d H.
  destruct (f d) as [[a d']|] eqn:E; [|done]. by eapply Hf.
Qed.

Lemma keeps_update f : (forall d, I d -> I (f d)) -> keeps I (update f).
Proof. intros Hf. apply keeps_exec. intros d a d' [= <- <-]. apply Hf. Qed.

Lemma keeps_query {A} (f : Db -> res DbErr A) : keeps I (query f).
Proof. apply keeps_bindE; [apply keeps_fallible|]. by intros _ d H. Qed.

Lemma keeps_tx {A} (m : DB A) : keeps I m -> keeps I (tx m).
Proof.
  intros Hm d H. unfold tx.
  assert (K : keeps I (let? _ := fallible in let? a := m in let? _ := fallible in ret (Ok a))).
  { apply keeps_bindE; [apply keeps_fallible|]. intros _. apply keeps_bindE; [done|]. intros a.
    apply keeps_bindE; [apply keeps_fallible|]. intros _. apply keeps_ret. }
  specialize (K d H). destruct ((let? _ := fallible in _) d) as [[e|a] d1]; [by apply HI|done].
Qed.
End keeps.

Create HintDb db.
#[export] Hint Resolve keeps_ret keeps_gets keeps_fallible keeps_query : db.

Lemma tx_err {A} (m : DB A) d e d' : tx m d = (Err e, d') -> exists l, d' = set_db_faults l d.
Proof.
  unfold tx. destruct ((let? _ := fallible in _) d) as [[e1|a] d1]; intros [= <- <-]. eauto.
Qed.

(** ** The schema invariant *)
Definition tbl_ok {R} (id : R -> Z) (t : Table R) : Prop :=
  (0 <= seq t)%Z /\ NoDup (id <$> rows t) /\ Forall (fun r => (0 < id r <= seq t)%Z) (rows t).

Lemma tbl_insert_ok {R} (id : R -> Z) f t :
  (forall i, id (f i) = i) -> tbl_ok id t -> tbl_ok id (tbl_insert f t).
Proof.
  intros Hf (Hs & Hn & Hl). split; cbn; [lia|]. split.
  - rewrite fmap_app. apply NoDup_app. split; [done|]. split; [|apply NoDup_singleton].
    intros i Hi. apply list_elem_of_fmap in Hi as (r & -> & Hr). cbn. rewrite Hf.
    rewrite Forall_forall in Hl. specialize (Hl r Hr). intros Hin%list_elem_of_singleton. lia.
  - apply Forall_app. split; [eapply Forall_impl; [done|]; cbn; lia|].
    constructor; [rewrite Hf; lia|constructor].
Qed.

Lemma tbl_map_ok {R} (id : R -> Z) f t :
  (forall r, id (f r) = id r) -> tbl_ok id t -> tbl_ok id (tbl_map f t).
Proof.
  intros Hf (Hs & Hn & Hl). split; cbn; [done|]. split.
  - rewrite <- list_fmap_compose. by erewrite list_fmap_ext; [exact Hn|intros; apply Hf].
  - apply Forall_fmap. eapply Forall_impl; [done|]. intros r Hr. cbn. by rewrite Hf.
Qed.

Lemma NoDup_fmap_filter {A B} (f : A -> B) (P : A -> Prop) `{!forall x, Decision (P x)} l :
  NoDup (f <$> l) -> NoDup (f <$> filter P l).
Proof.
  induction l as [|x l IH]; [done|]. rewrite fmap_cons, filter_cons. intros [Hx Hn]%NoDup_cons.
  destruct (decide (P x)); [|auto]. rewrite fmap_cons. apply NoDup_cons. split; [|auto].
  intros (y & Hxy & Hy)%list_elem_of_fmap. apply list_elem_of_filter in Hy as [_ Hy].
  apply Hx. rewrite Hxy. by apply list_elem_of_fmap_2.
Qed.

Lemma tbl_filter_ok {R} (id : R -> Z) p t : tbl_ok id t -> tbl_ok id (tbl_filter p t).
Proof.
  intros (Hs & Hn & Hl). split; cbn; [done|]. split; [by apply NoDup_fmap_filter|].
  apply Forall_forall. intros r [_ Hr]%list_elem_of_filter. rewrite Forall_forall in Hl. auto.
Qed.

(** Active rows. *)
Definition actives {R} (act : R -> bool) (t : Table R) : nat := length (filter (fun r => act r = true) (rows t)).

Definition FK {R} (ref : R -> Z) (t : Table R) (d : Db) : Prop :=
  Forall (fun r => snapshot_exists (ref r) d = true) (rows t).

Record wf (d : Db) : Prop := {
  wf_snapshots : tbl_ok sn_ID (snapshots d);
  wf_hashes : NoDup (sn_ConfigHash <$> rows (snapshots d));
  wf_rules : tbl_ok rv_ID (rule_versions d);
  wf_rules_fk : FK rv_SnapshotID (rule_versions d) d;
  wf_rules_active : actives rv_Active (rule_versions d) <= 1;
  wf_status : tbl_ok st_ID (apply_status d);
  wf_status_fk : FK st_SnapshotID (apply_status d) d;
  wf_exits : tbl_ok x_RowID (exits d);
  wf_exit_ids : NoDup (x_ExitID <$> rows (exits d));
  wf_exits_active : actives x_Active (exits d) <= 1;
  wf_users : tbl_ok u_ID (panel_users d);
  wf_usernames : NoDup (u_Username <$> rows (panel_users d));
  wf_sessions : NoDup (ps_JWTID <$> panel_sessions d);
  wf_session_ids : NoDup (ps_ID <$> panel_sessions d)
}.

(** Every operation on the tables. *)
Inductive DbOp :=
| OpInsertSnapshot (hash tarball note : bytes)
| OpInsertRuleVersion (snapshotID : Z) (yaml : bytes) (setActive : bool)
| OpSetActiveRuleVersion (id : Z)
| OpClearActiveRuleVersion
| OpAppendAudit (e : AuditEntry)
| OpInsertApplyStatus (snapshotID : Z) (reason : bytes)
| OpUpdateApplyStatus (id : Z) (state : State) (reason : bytes)
| OpAddExit (exitID uri : bytes)
| OpDeleteExit (exitID : bytes)
| OpSwitchExit (exitID : bytes)
| OpInsertPanelUser (username bcryptHash : bytes)
| OpInsertFirstPanelUser (username bcryptHash : bytes)
| OpTouchLastLogin (userID : Z)
| OpUpdatePanelUserPassword (userID : Z) (bcryptHash : bytes)
| OpInsertPanelSession (id : bytes) (userID : Z) (jwtID : bytes) (expiresAt : Z)
| OpRevokeSession (sessionID : bytes)
| OpRevokeSessionsExcept (userID : Z) (keepJWTID : bytes).

Definition run_op (Parse : bytes -> option (option bytes)) (op : DbOp) (d : Db) : Db :=
  match op with
  | OpInsertSnapshot h t n => snd (InsertSnapshot h t n d)
  | OpInsertRuleVersion s y a => snd (InsertRuleVersion s y a d)
  | OpSetActiveRuleVersion id => snd (SetActiveRuleVersion id d)
  | OpClearActiveRuleVersion => snd (ClearActiveRuleVersion d)
  | OpAppendAudit e => snd (AppendAudit e d)
  | OpInsertApplyStatus s r => snd (InsertApplyStatus s r d)
  | OpUpdateApplyStatus i s r => snd (UpdateApplyStatus i s r d)
  | OpAddExit i u => snd (AddExit Parse i u d)
  | OpDeleteExit i => snd (DeleteExit i d)
  | OpSwitchExit i => snd (SwitchExitRow i d)
  | OpInsertPanelUser u h => snd (InsertPanelUser u h d)
  | OpInsertFirstPanelUser u h => snd (InsertFirstPanelUser u h d)
  | OpTouchLastLogin i => snd (TouchLastLogin i d)
  | OpUpdatePanelUserPassword i h => snd (UpdatePanelUserPassword i h d)
  | OpInsertPanelSession i u j e => snd (InsertPanelSession i u j e d)
  | OpRevokeSession i => snd (RevokeSession i d)
  | OpRevokeSessionsExcept u k => snd (RevokeSessionsExcept u k d)
  end.

(** ** Same tables, and specifications of statements *)
Definition eqt (d d' : Db) : Prop := set_db_faults [] d = set_db_faults [] d'.

#[export] Instance eqt_equiv : Equivalence eqt.
Proof. unfold eqt. split; [intros d; reflexivity|intros d d'; auto|intros d1 d2 d3; congruence]. Qed.

Lemma eqt_faults d l : eqt d (set_db_faults l d).
Proof. done. Qed.

Lemma eqt_inv d d' : eqt d d' -> exists l, d' = set_db_faults l d.
Proof. destruct d, d'. unfold eqt, set_db_faults. cbn. intros [= -> -> -> -> -> -> -> ->]. by eexists. Qed.

Definition on_ok {A} (d : Db) (Q : A -> Db -> Prop) (r : res DbErr A) (d' : Db) : Prop :=
  match r with Ok a => Q a d' | Err _ => eqt d d' end.

Lemma wp_fallible d : wp fallible (on_ok d (fun _ d' => eqt d d')) d.
Proof. unfold wp, fallible. destruct (db_faults d) as [|[|] l]; done. Qed.

Lemma wp_exec {A} (f : Db -> option (A * Db)) d :
  wp (exec f) (on_ok d (fun a d' => exists l, f (set_db_faults l d) = Some (a, d'))) d.
Proof.
  unfold exec, bindE. apply wp_bind. eapply wp_mono; [apply wp_fallible|]. intros [e|[]] d1 H1; [exact H1|].
  cbn in H1. apply eqt_inv in H1 as [l ->]. unfold wp. destruct (f (set_db_faults l d)) as [[a d2]|] eqn:E; [|done].
  exists l. exact E.
Qed.

Lemma wp_update f d : wp (update f) (on_ok d (fun _ d' => exists l, d' = f (set_db_faults l d))) d.
Proof. eapply wp_mono; [apply wp_exec|]. intros [e|a] d'; [done|]. intros [l [= _ <-]]. by exists l. Qed.

Lemma wp_query {A} (f : Db -> res DbErr A) d :
  wp (query f) (fun r d' => eqt d d' /\ match r with Ok _ => exists l, f (set_db_faults l d) = r | Err _ => True end) d.
Proof.
  unfold query, bindE. apply wp_bind. eapply wp_mono; [apply wp_fallible|]. intros [e|[]] d1 H1; [done|].
  cbn in H1. unfold wp, gets. split; [done|]. apply eqt_inv in H1 as [l ->].
  destruct (f (set_db_faults l d)) as [e|a] eqn:E; [done|]. exists l. exact E.
Qed.

Lemma wp_query_full {A} (f : Db -> res DbErr A) d :
  wp (query f) (fun r d' => eqt d d' /\ (r = Err ErrExec \/ exists l, f (set_db_faults l d) = r)) d.
Proof.
  unfold wp, query, bindE, bind, gets, fallible, ret. destruct (db_faults d) as [|[|] l] eqn:E; cbn.
  - split; [done|]. right. exists []. destruct d. unfold set_db_faults. cbn in *. by rewrite E.
  - split; [done|]. right. by exists l.
  - split; [done|]. by left.
Qed.

Lemma wp_tx {A} (m : DB A) (Q : A -> Db -> Prop) d :
  (forall l, wp m (fun r d1 => match r with Ok a => forall l', Q a (set_db_faults l' d1) | Err _ => True end) (set_db_faults l d)) ->
  wp (tx m) (on_ok d Q) d.
Proof.
  intros Hm. unfold wp, tx.
  assert (K : wp (let? _ := fallible in let? a := m in let? _ := fallible in ret (Ok a))
    (fun r d1 => match r with Ok a => Q a d1 | Err _ => True end) d).
  { unfold bindE at 1. apply wp_bind. eapply wp_mono; [apply wp_fallible|]. intros [e|[]] d1 H1; [done|].
    cbn in H1. apply eqt_inv in H1 as [l ->]. unfold bindE at 1. apply wp_bind. eapply wp_mono; [apply Hm|].
    intros [e|a] d2 H2; [done|]. unfold bindE. apply wp_bind. eapply wp_mono; [apply wp_fallible|].
    intros [e|[]] d3 H3; [done|]. cbn in H3. apply eqt_inv in H3 as [l' ->]. apply (H2 l'). }
  unfold wp in K. destruct ((let? _ := fallible in _) d) as [[e|a] d1]; [apply eqt_faults|exact K].
Qed.

(** [SetActiveRuleVersion] and [Switch], as one statement each. *)
Lemma filter_len_one {R} (id : R -> Z) (rs : list R) (n : Z) i :
  n = len (filter (fun r => id r = i) rs) -> (n =? 1)%Z = true -> exists r, r ∈ rs /\ id r = i.
Proof.
  intros -> H%Z.eqb_eq. unfold len in H. destruct (filter _ rs) as [|r l] eqn:E; [done|].
  exists r. assert (Hr : r ∈ filter (fun r => id r = i) rs) by (rewrite E; left).
  by apply list_elem_of_filter in Hr as [??].
Qed.

Lemma SetActive_wp id d :
  wp (SetActiveRuleVersion id) (on_ok d (fun _ d' => exists l,
    (exists r, r ∈ rows (rule_versions d) /\ rv_ID r = id) /\
    d' = set_rule_versions (tbl_map (fun r => rv_set_active (rv_ID r == id) r) (rule_versions d)) (set_db_faults l d))) d.
Proof.
  apply wp_tx. intros l. unfold bindE at 1. apply wp_bind. eapply wp_mono; [apply wp_update|].
  intros [e|[]] d1 H1; [done|]. destruct H1 as [l1 ->]. unfold bindE at 1. apply wp_bind.
  eapply wp_mono; [apply wp_exec|]. intros [e|n] d2 H2; [done|]. destruct H2 as (l2 & [= Hn <-]).
  unfold bindE. apply wp_bind. eapply wp_mono; [apply wp_fallible|]. intros [e|[]] d3 H3; [done|].
  cbn in H3. apply eqt_inv in H3 as [l3 ->]. unfold wp, ret.
  destruct (n =? 1)%Z eqn:E1; [|done]. intros l'. exists l'. split.
  - symmetry in Hn. destruct (filter_len_one rv_ID _ n id Hn E1) as (r & Hr & <-).
    cbn in Hr. apply list_elem_of_fmap in Hr as (r0 & -> & Hr0). exists r0. split; [done|].
    by destruct (rv_Active r0).
  - unfold set_rule_versions, set_db_faults, tbl_map. cbn. rewrite <- list_fmap_compose. do 2 f_equal.
    apply list_fmap_ext. intros i r _. cbn. destruct r as [i' s y a]. unfold rv_set_active. cbn.
    destruct a; cbn; by case_bool_decide.
Qed.

Lemma SwitchExitRow_wp id d :
  wp (SwitchExitRow id) (on_ok d (fun _ d' => exists l,
    (exists r, r ∈ rows (exits d) /\ x_ExitID r = id) /\
    d' = set_exits (tbl_map (fun r => x_set_active (x_ExitID r == id) r) (exits d)) (set_db_faults l d))) d.
Proof.
  apply wp_tx. intros l. unfold bindE at 1. apply wp_bind. eapply wp_mono; [apply wp_query|].
  intros [e|n] d0 [H0 Hn]; [done|]. apply eqt_inv in H0 as [l0 ->]. destruct Hn as [l1 [= Hn]].
  destruct (n =? 0)%Z eqn:E0; [done|].
  unfold bindE at 1. apply wp_bind. eapply wp_mono; [apply wp_update|].
  intros [e|[]] d1 H1; [done|]. destruct H1 as [l2 ->].
  eapply wp_mono; [apply wp_update|]. intros [e|[]] d2 H2; [done|]. destruct H2 as [l3 ->].
  intros l'. exists l'. split.
  - apply Z.eqb_neq in E0. subst n. unfold len in E0. destruct (filter _ (rows (exits d))) as [|r rs] eqn:E; [done|].
    exists r. assert (Hr : r ∈ filter (fun r => x_ExitID r = id) (rows (exits d))) by (rewrite E; left).
    by apply list_elem_of_filter in Hr as [??].
  - unfold set_exits, set_db_faults, tbl_map. cbn. rewrite <- list_fmap_compose. do 2 f_equal.
    apply list_fmap_ext. intros i r _. cbn. destruct r as [i' s y u a c]. unfold x_set_active. cbn.
    destruct a; cbn; by case_bool_decide.
Qed.

(** ** Active rows *)
Lemma actives_same {R} (act : R -> bool) f t :
  (forall r, act (f r) = act r) -> actives act (tbl_map f t) = actives act t.
Proof.
  intros Hf. unfold actives. cbn. induction (rows t) as [|r rs IH]; [done|].
  rewrite fmap_cons, !filter_cons, Hf. destruct (decide (act r = true)); cbn; lia.
Qed.

Lemma actives_none {R} (act : R -> bool) f t :
  (forall r, act (f r) = false) -> actives act (tbl_map f t) = 0.
Proof.
  intros Hf. unfold actives. cbn. induction (rows t) as [|r rs IH]; [done|].
  rewrite fmap_cons, filter_cons, Hf. by destruct (decide (false = true)).
Qed.

(** Exactly the row with the given key is active. *)
Lemma actives_key {R K} `{EqDecision K} (act : R -> bool) (key : R -> K) f t k :
  (forall r, act (f r) = (key r == k)) -> NoDup (key <$> rows t) ->
  (exists r, r ∈ rows t /\ key r = k) -> actives act (tbl_map f t) = 1.
Proof.
  intros Hf Hn (r & Hr & Hk). unfold actives. cbn. induction (rows t) as [|x rs IH]; [by apply elem_of_nil in Hr|].
  rewrite fmap_cons, filter_cons, Hf. rewrite fmap_cons in Hn. apply NoDup_cons in Hn as [Hx Hn].
  destruct (bool_decide_reflect (key x = k)) as [E|E].
  - destruct (decide (true = true)) as [_|]; [|done]. cbn. f_equal. clear IH Hr.
    induction rs as [|y rs IH]; [done|]. rewrite fmap_cons, filter_cons, Hf.
    rewrite fmap_cons in Hx, Hn. apply not_elem_of_cons in Hx as [Hxy Hx]. apply NoDup_cons in Hn as [_ Hn].
    rewrite bool_decide_false by congruence. destruct (decide (false = true)); [done|auto].
  - destruct (decide (false = true)); [done|]. apply elem_of_cons in Hr as [->|Hr]; [done|auto].
Qed.

Lemma actives_insert {R} (act : R -> bool) f t :
  actives act (tbl_insert f t) = actives act t + (if act (f (seq t + 1)%Z) then 1 else 0).
Proof.
  unfold actives. cbn. rewrite filter_app, length_app. f_equal.
  destruct (act _) eqn:E; by rewrite filter_cons, E.
Qed.

Lemma existsb_actives {R} (act : R -> bool) t : existsb act (rows t) = false -> actives act t = 0.
Proof.
  unfold actives. induction (rows t) as [|r rs IH]; [done|]. cbn [existsb]. intros [H1 H2]%orb_false_iff.
  rewrite filter_cons, H1. destruct (decide (false = true)); [done|auto].
Qed.

Lemma found_none {A} (P : A -> bool) l x : found P l = None -> x ∈ l -> P x = false.
Proof.
  induction l as [|y l IH]; intros Hf Hx; [by apply elem_of_nil in Hx|]. rewrite found_cons in Hf.
  destruct (P y) eqn:E; [done|]. apply elem_of_cons in Hx as [->|Hx]; auto.
Qed.

Lemma found_elem {A} (P : A -> bool) l x : found P l = Some x -> x ∈ l /\ P x = true.
Proof.
  induction l as [|y l IH]; [done|]. rewrite found_cons. destruct (P y) eqn:E.
  - intros [= <-]. split; [left|done].
  - intros [??]%IH. split; [by right|done].
Qed.

(** A key no row has can be added. *)
Lemma NoDup_insert_key {R K} `{EqDecision K} (key : R -> K) t f k :
  NoDup (key <$> rows t) -> found (fun r => key r == k) (rows t) = None -> key (f (seq t + 1)%Z) = k ->
  NoDup (key <$> rows (tbl_insert f t)).
Proof.
  intros Hn Hf Hk. cbn. rewrite fmap_app. apply NoDup_app. split; [done|]. split; [|apply NoDup_singleton].
  intros i (r & -> & Hr)%list_elem_of_fmap. cbn. rewrite Hk. intros Hin%list_elem_of_singleton.
  pose proof (found_none _ _ r Hf Hr) as E. by apply bool_decide_eq_false in E.
Qed.

Lemma NoDup_map_key {R K} (key : R -> K) f t :
  (forall r, key (f r) = key r) -> NoDup (key <$> rows t) -> NoDup (key <$> rows (tbl_map f t)).
Proof.
  intros Hf Hn. cbn. rewrite <- list_fmap_compose. by erewrite list_fmap_ext; [exact Hn|intros; apply Hf].
Qed.

Lemma FK_map {R} (ref : R -> Z) f t d : (forall r, ref (f r) = ref r) -> FK ref t d -> FK ref (tbl_map f t) d.
Proof. intros Hf H. unfold FK. cbn. apply Forall_fmap. eapply Forall_impl; [exact H|]. intros r. cbn. by rewrite Hf. Qed.

Lemma FK_insert {R} (ref : R -> Z) f t d :
  FK ref t d -> snapshot_exists (ref (f (seq t + 1)%Z)) d = true -> FK ref (tbl_insert f t) d.
Proof. intros H E. unfold FK. cbn. apply Forall_app. split; [done|]. by repeat constructor. Qed.

Lemma FK_new_snapshot {R} (ref : R -> Z) t d f :
  FK ref t d -> FK ref t (set_snapshots (tbl_insert f (snapshots d)) d).
Proof.
  intros H. eapply Forall_impl; [exact H|]. cbn. intros r. unfold snapshot_exists. cbn.
  intros Hr. by rewrite existsb_app, Hr.
Qed.

#[local] Arguments found : simpl never.
#[local] Arguments actives : simpl never.
#[local] Arguments FK : simpl never.
#[local] Arguments tbl_ok : simpl never.
#[local] Arguments tbl_map : simpl never.
#[local] Arguments tbl_filter : simpl never.
#[local] Arguments tbl_insert : simpl never.

Lemma wf_stable : stable wf.
Proof. intros l d []. by split. Qed.

(** A session of this id is on record as revoked. *)
Definition revoked_in (ss : list PanelSession) (id : bytes) : Prop :=
  exists s, s ∈ ss /\ ps_ID s = id /\ is_Some (ps_RevokedAt s).

(** The operations as a family: each keeps [wf], the exit that is active, if
    there is one, and the sessions of a list revoked. *)
Definition inv (k : bool * list bytes) (d : Db) : Prop :=
  wf d /\ (fst k = true -> actives x_Active (exits d) = 1) /\
  Forall (revoked_in (panel_sessions d)) (snd k).

Lemma inv_stable one : stable (inv one).
Proof. intros l d (H & H1 & H2). split; [by apply wf_stable|done]. Qed.
#[export] Hint Resolve inv_stable : db.

(* Splits the invariant and closes what a statement does not touch. *)
Ltac wf_split :=
  intros (Hwf & Hone & Hrev); destruct Hwf; split; [split; cbn; try done|split; cbn; try done].

Lemma demote_rules_keeps one : keeps (inv one) demote_rules.
Proof.
  apply keeps_update; [auto with db|]. intros d. wf_split.
  - apply tbl_map_ok; [|done]. intros r. by destruct (rv_Active r).
  - apply FK_map; [|done]. intros r. by destruct (rv_Active r).
  - rewrite actives_none; [lia|]. intros r. by destruct (rv_Active r) eqn:E.
Qed.

Lemma InsertSnapshot_keeps one h t n : keeps (inv one) (InsertSnapshot h t n).
Proof.
  apply keeps_bindE; [apply keeps_exec; [auto with db|]|].
  - intros d a d' E. destruct (hash_taken h d) eqn:Eh; [by injection E as _ <-|]. injection E as _ <-. wf_split.
    + by apply tbl_insert_ok.
    + by eapply NoDup_insert_key.
    + by apply FK_new_snapshot.
    + by apply FK_new_snapshot.
  - intros [a b]. apply keeps_bindE; [auto with db|]. intros _. destruct (a =? 1)%Z; [|auto with db].
    apply keeps_bindE; auto with db.
Qed.

Lemma InsertRuleVersion_keeps one s y a : keeps (inv one) (InsertRuleVersion s y a).
Proof.
  apply keeps_tx; [auto with db|]. apply keeps_bindE; [destruct a; [apply demote_rules_keeps|auto with db]|].
  intros _. apply keeps_bindE; [apply keeps_exec; [auto with db|]|].
  - intros d i d' E. destruct (snapshot_exists s d && _) eqn:C; [|done]. injection E as _ <-.
    apply andb_true_iff in C as [C1 C2]. wf_split.
    + by apply tbl_insert_ok.
    + by apply FK_insert.
    + rewrite actives_insert. cbn. destruct a; [|lia]. cbn in C2. apply negb_true_iff in C2.
      apply existsb_actives in C2. lia.
  - intros i. apply keeps_bindE; auto with db.
Qed.

Lemma SetActive_keeps one id : keeps (inv one) (SetActiveRuleVersion id).
Proof.
  intros d Hd. pose proof (SetActive_wp id d) as H. unfold wp in H.
  destruct (SetActiveRuleVersion id d) as [[e|[]] d']; cbn in *.
  - apply eqt_inv in H as [l ->]. by apply inv_stable.
  - destruct H as (l & Hex & ->). apply (inv_stable one l) in Hd. revert Hd. wf_split.
    + by apply tbl_map_ok.
    + by apply FK_map.
    + rewrite (actives_key rv_Active rv_ID _ _ id); try done. by destruct wf_rules0 as (_ & ? & _).
Qed.

Lemma SwitchExit_keeps one id : keeps (inv one) (SwitchExitRow id).
Proof.
  intros d Hd. pose proof (SwitchExitRow_wp id d) as H. unfold wp in H.
  destruct (SwitchExitRow id d) as [[e|[]] d']; cbn in *.
  - apply eqt_inv in H as [l ->]. by apply inv_stable.
  - destruct H as (l & Hex & ->). apply (inv_stable one l) in Hd. revert Hd.
    assert (K : NoDup (x_ExitID <$> rows (exits d)) ->
      actives x_Active (tbl_map (fun r => x_set_active (x_ExitID r == id) r) (exits d)) = 1).
    { intros Hn. by apply (actives_key x_Active x_ExitID _ _ id). }
    wf_split.
    + by apply tbl_map_ok.
    + by apply NoDup_map_key.
    + rewrite K by done. lia.
    + intros _. by apply K.
Qed.

Lemma InsertApplyStatus_keeps one s r : keeps (inv one) (InsertApplyStatus s r).
Proof.
  apply keeps_bindE; [apply keeps_exec; [auto with db|]|].
  - intros d i d' E. destruct (snapshot_exists s d) eqn:C; [|done]. injection E as _ <-. wf_split.
    + by apply tbl_insert_ok.
    + by apply FK_insert.
  - intros i. apply keeps_bindE; auto with db.
Qed.

Lemma UpdateApplyStatus_keeps one i s r : keeps (inv one) (UpdateApplyStatus i s r).
Proof.
  apply keeps_bindE; [apply keeps_exec; [auto with db|]|].
  - intros d n d' [= _ <-]. wf_split.
    + apply tbl_map_ok; [|done]. intros x. by destruct (st_ID x == i).
    + apply FK_map; [|done]. intros x. by destruct (st_ID x == i).
  - intros n. apply keeps_bindE; [auto with db|]. intros _. destruct (n =? 1)%Z; auto with db.
Qed.

Lemma AddExit_keeps one P i u : keeps (inv one) (AddExit P i u).
Proof.
  unfold AddExit. destruct (negb (exitIDRE i)); [auto with db|].
  destruct (if _ || _ then _ else _) as [p|]; [|auto with db].
  apply keeps_exec; [auto with db|]. intros d x d' E. destruct (find_exit i d) eqn:F; [done|].
  injection E as _ <-. wf_split.
  - by apply tbl_insert_ok.
  - by eapply NoDup_insert_key.
  - rewrite actives_insert. cbn. lia.
  - intros H. rewrite actives_insert. cbn. specialize (Hone H). lia.
Qed.

(** Deleting inactive rows. *)
Lemma actives_filter {R} (act p : R -> bool) t :
  (forall r, r ∈ rows t -> p r = false -> act r = false) -> actives act (tbl_filter p t) = actives act t.
Proof.
  intros H. unfold actives, tbl_filter. cbn. induction (rows t) as [|r rs IH]; [done|].
  rewrite !filter_cons. destruct (p r) eqn:E.
  - destruct (decide (true = true)) as [_|]; [|done]. rewrite filter_cons.
    destruct (decide (act r = true)); cbn; rewrite IH; try done; intros r' Hr'; apply H; by right.
  - destruct (decide (false = true)); [done|]. rewrite (H r) by (done || left).
    destruct (decide (false = true)); [done|]. apply IH. intros r' Hr'. apply H. by right.
Qed.

Lemma NoDup_key_eq {R K} (key : R -> K) l x y :
  NoDup (key <$> l) -> x ∈ l -> y ∈ l -> key x = key y -> x = y.
Proof.
  induction l as [|z l IH]; [by intros _ ?%elem_of_nil|]. rewrite fmap_cons. intros [Hz Hn]%NoDup_cons.
  rewrite !elem_of_cons. intros [->|Hx] [->|Hy] E; auto.
  - destruct Hz. rewrite E. by apply list_elem_of_fmap_2.
  - destruct Hz. rewrite <- E. by apply list_elem_of_fmap_2.
Qed.

Lemma DeleteExit_keeps one i : keeps (inv one) (DeleteExit i).
Proof.
  intros d Hd. unfold DeleteExit, bindE at 1, bind. pose proof (wp_query (fun d =>
    match find_exit i d with Some r => Ok r | None => Err ErrExitNotFound end) d) as Hq.
  unfold wp in Hq. destruct (query _ d) as [[e|r] d1]; destruct Hq as [H1 Hr].
  { apply eqt_inv in H1 as [l ->]. by apply inv_stable. }
  apply eqt_inv in H1 as [l ->]. destruct Hr as [l' Hr]. cbn in Hr.
  apply (inv_stable one l) in Hd. destruct (x_Active r) eqn:A; [done|].
  change (find_exit i (set_db_faults l' d)) with (find_exit i d) in Hr.
  destruct (find_exit i d) as [r'|] eqn:F; [injection Hr as ->|done]. apply found_elem in F as [Hin Hid].
  apply bool_decide_eq_true in Hid. unfold bindE, bind.
  pose proof (wp_exec (fun d => Some (len (filter (fun r => x_ExitID r = i) (rows (exits d))),
            set_exits (tbl_filter (fun r => x_ExitID r != i) (exits d)) d)) (set_db_faults l d)) as He.
  unfold wp in He. destruct (exec _ _) as [[e|n] d2]; cbn in He.
  { apply eqt_inv in He as [l2 ->]. by apply inv_stable. }
  destruct He as [l2 [= _ <-]].
  assert (G : inv one (set_exits (tbl_filter (fun r => x_ExitID r != i) (exits d)) (set_db_faults l2 d))).
  { clear n. apply (inv_stable one l2) in Hd. revert Hd.
    assert (K : NoDup (x_ExitID <$> rows (exits d)) ->
      actives x_Active (tbl_filter (fun r => x_ExitID r != i) (exits d)) = actives x_Active (exits d)).
    { intros Hn. apply actives_filter. intros x Hx Hp. apply negb_false_iff, bool_decide_eq_true in Hp.
      rewrite (NoDup_key_eq x_ExitID _ x r Hn Hx Hin) by congruence. done. }
    wf_split.
    - by apply tbl_filter_ok.
    - by apply NoDup_fmap_filter.
    - by rewrite K.
    - intros H. rewrite K; auto. }
  by destruct (n =? 0)%Z.
Qed.

Lemma InsertPanelUser_keeps one u h : keeps (inv one) (InsertPanelUser u h).
Proof.
  apply keeps_bindE; [apply keeps_exec; [auto with db|]|].
  - intros d i d' E. destruct (find_user u d) eqn:F; [done|]. injection E as _ <-. wf_split.
    + by apply tbl_insert_ok.
    + by eapply NoDup_insert_key.
  - intros i. apply keeps_bindE; auto with db.
Qed.

Lemma InsertFirstPanelUser_keeps one u h : keeps (inv one) (InsertFirstPanelUser u h).
Proof.
  apply keeps_bindE; [apply keeps_exec; [auto with db|]|].
  - intros d i d' E. case_bool_decide as C; [|by injection E as _ <-]. injection E as _ <-. wf_split.
    + by apply tbl_insert_ok.
    + eapply NoDup_insert_key; try done. by rewrite C.
  - intros [n i]. apply keeps_bindE; [auto with db|]. intros _. destruct (n =? 0)%Z; [auto with db|].
    apply keeps_bindE; auto with db.
Qed.

Lemma upd_user_keeps one i f :
  (forall d u, u_ID (f d u) = u_ID u /\ u_Username (f d u) = u_Username u) ->
  keeps (inv one) (update (fun d => upd_user i (f d) d)).
Proof.
  intros Hf. apply keeps_update; [auto with db|]. intros d. wf_split.
  - apply tbl_map_ok; [|done]. intros u. destruct (u_ID u == i); [apply Hf|done].
  - apply NoDup_map_key; [|done]. intros u. destruct (u_ID u == i); [apply Hf|done].
Qed.

Lemma InsertPanelSession_keeps one i u j e : keeps (inv one) (InsertPanelSession i u j e).
Proof.
  apply keeps_exec; [auto with db|]. intros d x d' E.
  destruct (existsb _ _ && _) eqn:C; [|done]. injection E as _ <-. apply andb_true_iff in C as [_ C].
  apply negb_true_iff in C.
  assert (K : forall s, s ∈ panel_sessions d -> ps_ID s <> i /\ ps_JWTID s <> j).
  { intros s Hs. rewrite <- not_true_iff_false in C. split; intros E; destruct C; apply existsb_exists; exists s;
      (split; [by apply list_elem_of_In|]); apply orb_true_iff; [left|right]; by apply bool_decide_eq_true. }
  wf_split.
  - rewrite fmap_app. apply NoDup_app. split; [done|]. split; [|apply NoDup_singleton].
    intros k (s & -> & Hs)%list_elem_of_fmap. cbn. intros Hj%list_elem_of_singleton. by destruct (K s Hs).
  - rewrite fmap_app. apply NoDup_app. split; [done|]. split; [|apply NoDup_singleton].
    intros k (s & -> & Hs)%list_elem_of_fmap. cbn. intros Hj%list_elem_of_singleton. by destruct (K s Hs).
  - eapply Forall_impl; [exact Hrev|]. intros k (s & Hs & ?). exists s. split; [|done].
    apply elem_of_app. by left.
Qed.

Lemma sessions_map_keeps one f :
  (forall d s, ps_JWTID (f d s) = ps_JWTID s /\ ps_ID (f d s) = ps_ID s /\
     (is_Some (ps_RevokedAt s) -> is_Some (ps_RevokedAt (f d s)))) ->
  keeps (inv one) (update (fun d => set_panel_sessions (f d <$> panel_sessions d) d)).
Proof.
  intros Hf. apply keeps_update; [auto with db|]. intros d. wf_split.
  - rewrite <- list_fmap_compose. by erewrite list_fmap_ext; [exact wf_sessions0|intros; apply Hf].
  - rewrite <- list_fmap_compose. by erewrite list_fmap_ext; [exact wf_session_ids0|intros; apply Hf].
  - eapply Forall_impl; [exact Hrev|]. intros k (s & Hs & Hk & Hr). exists (f d s).
    split; [by apply list_elem_of_fmap_2|]. destruct (Hf d s) as (_ & -> & Hr'). auto.
Qed.

Lemma run_op_inv P one op d : inv one d -> inv one (run_op P op d).
Proof.
  destruct op; cbn [run_op].
  - apply InsertSnapshot_keeps.
  - apply InsertRuleVersion_keeps.
  - apply SetActive_keeps.
  - apply demote_rules_keeps.
  - apply keeps_update; [auto with db|]. intros d'. wf_split.
  - apply InsertApplyStatus_keeps.
  - apply UpdateApplyStatus_keeps.
  - apply AddExit_keeps.
  - apply DeleteExit_keeps.
  - apply SwitchExit_keeps.
  - apply InsertPanelUser_keeps.
  - apply InsertFirstPanelUser_keeps.
  - by apply (upd_user_keeps one userID (fun d u => {| u_ID := u_ID u; u_Username := u_Username u;
      u_BcryptHash := u_BcryptHash u; u_LastLogin := Some (now d) |})).
  - by apply (upd_user_keeps one userID (fun d u => {| u_ID := u_ID u; u_Username := u_Username u;
      u_BcryptHash := bcryptHash; u_LastLogin := u_LastLogin u |})).
  - apply InsertPanelSession_keeps.
  - apply (sessions_map_keeps one (fun d s => if ps_ID s == sessionID then revoke (now d) s else s)).
    intros d' s. destruct (ps_ID s == sessionID); cbn; eauto.
  - apply (sessions_map_keeps one (fun d s => if (ps_UserID s == userID) && (ps_RevokedAt s == None) && (ps_JWTID s != keepJWTID)
               then revoke (now d) s else s)).
    intros d' s. destruct (_ && _); cbn; eauto.
Qed.

(** The clock and the faults of a database replaced. *)
Definition at_time (t : Z) (l : list bool) (d : Db) : Db :=
  MkDb (snapshots d) (rule_versions d) (apply_status d) (exits d) (panel_users d) (panel_sessions d) (audit_log d) t l.

(** A session on record as revoked is inactive at any time. *)
Lemma revoked_inactive d id t l :
  inv (false, [id]) d -> fst (IsSessionActive id (at_time t l d)) <> Ok true.
Proof.
  intros (Hw & _ & Hrev). cbn in Hrev. apply Forall_cons in Hrev as [(s' & Hs' & Hid & Hr) _].
  unfold IsSessionActive. intros HA.
  pose proof (wp_query (fun d => Ok (
    match found (fun s0 => ps_ID s0 == id) (panel_sessions d) with
    | None => false
    | Some s => if bool_decide (is_Some (ps_RevokedAt s)) then false else negb (ps_ExpiresAt s <? now d)%Z
    end)) (at_time t l d)) as Q. unfold wp in Q. destruct (query _ (at_time t l d)) as [q d2]. cbn in HA. subst q.
  destruct Q as [_ [l2 Q]]. cbn in Q. injection Q as Q.
  destruct (found (fun s0 => ps_ID s0 == id) (panel_sessions d)) as [s2|] eqn:F; [|done]. apply found_elem in F as [F1 F2].
  apply bool_decide_eq_true in F2. destruct Hw.
  rewrite (NoDup_key_eq ps_ID _ s2 s' wf_session_ids0 F1 Hs') in Q by congruence.
  by rewrite bool_decide_true in Q.
Qed.

(** ** Theorems *)

(** C26: Every sequence of operations of the control plane, with any of their
    statements failing, keeps the database well formed: keys unique, no rule
    version or status without its snapshot, at most one active rule version
    and at most one active exit.  Once some exit is active, one always is. *)
Theorem tables_invariant P ops d :
  wf d ->
  wf (foldl (fun d op => run_op P op d) d ops) /\
  (actives x_Active (exits d) = 1 -> actives x_Active (exits (foldl (fun d op => run_op P op d) d ops)) = 1).
Proof.
  intros Hd. assert (K : forall one, inv (one, []) d -> inv (one, []) (foldl (fun d op => run_op P op d) d ops)).
  { intros one. revert d Hd. induction ops as [|op ops IH]; intros d Hd H; [done|]. cbn.
    pose proof (run_op_inv P (one, []) op d H) as H'. apply IH; [apply H'|done]. }
  split; [by apply (K false)|]. intros H. by apply (K true).
Qed.

(** Activating a rule version is all or nothing: either exactly the
    version asked for is active and nothing else changed, or the call fails
    and every table is as before. *)
Theorem SetActiveRuleVersion_atomic id d r d' :
  wf d -> SetActiveRuleVersion id d = (r, d') ->
  match r with
  | Ok _ =>
      (exists v, found rv_Active (rows (rule_versions d')) = Some v /\ rv_ID v = id) /\
      eqt d' (set_rule_versions (tbl_map (fun r => rv_set_active (rv_ID r == id) r) (rule_versions d)) d)
  | Err _ => eqt d d'
  end.
Proof.
  intros Hd E. pose proof (wp_elim _ _ _ _ _ (SetActive_wp id d) E) as H. destruct r as [e|[]]; cbn in H; [done|].
  destruct H as (l & (v & Hv & Hid) & ->). split; [|done]. cbn.
  destruct (found rv_Active _) as [v'|] eqn:F.
  - exists v'. split; [done|]. apply found_elem in F as [F1 F2]. unfold tbl_map in F1. cbn in F1.
    apply list_elem_of_fmap in F1 as (v0 & -> & _). cbn in *. by apply bool_decide_eq_true in F2.
  - apply (found_none _ _ (rv_set_active (rv_ID v == id) v)) in F.
    + cbn in F. by apply bool_decide_eq_false in F.
    + unfold tbl_map. cbn. apply list_elem_of_fmap. by exists v.
Qed.

(** After [RevokeSessionsExcept] succeeds, no later operation and no
    passing of time makes another session of that user active again, and the
    session kept was not touched. *)
Theorem revoked_for_good P user keep d d' ops t s :
  wf d -> RevokeSessionsExcept user keep d = (Ok tt, d') ->
  s ∈ panel_sessions d -> ps_UserID s = user ->
  let dn := foldl (fun d op => run_op P op d) d' ops in
  let dt := at_time t (db_faults dn) dn in
  if ps_JWTID s == keep then s ∈ panel_sessions d'
  else fst (IsSessionActive (ps_ID s) dt) <> Ok true.
Proof.
  intros Hd E Hs Hu dn dt.
  pose proof (wp_elim _ _ _ _ _ (wp_update _ d) E) as H. cbn in H. destruct H as [l Hd'].
  destruct (bool_decide_reflect (ps_JWTID s = keep)) as [Hk|Hk].
  - subst d'. cbn. apply list_elem_of_fmap. exists s. split; [|done].
    rewrite (bool_decide_true (ps_JWTID s = keep)) by done. by rewrite andb_false_r.
  - assert (Hinv : inv (false, [ps_ID s]) d').
    { pose proof (run_op_inv P (false, []) (OpRevokeSessionsExcept user keep) d) as W.
      cbn [run_op] in W. rewrite E in W. destruct W as (W & _); [by split|].
      split; [exact W|]. split; [done|]. cbn. constructor; [|constructor]. subst d'. cbn.
      destruct (is_Some_dec (ps_RevokedAt s)) as [Hr|Hr].
      - exists s. split; [|done]. apply list_elem_of_fmap. exists s. split; [|done].
        rewrite (bool_decide_false (ps_RevokedAt s = None)) by (intros E0; rewrite E0 in Hr; by destruct Hr).
        by rewrite andb_false_r.
      - exists (revoke (now d) s). split; [|by eauto]. apply list_elem_of_fmap. exists s. split; [|done].
        rewrite !bool_decide_true by (done || by apply eq_None_not_Some). by rewrite bool_decide_false. }
    assert (Hn : inv (false, [ps_ID s]) dn).
    { unfold dn. clear -Hinv. revert d' Hinv. induction ops as [|op ops IH]; intros d' H; [done|].
      cbn. by apply IH, run_op_inv. }
    by apply (revoked_inactive dn).
Qed.

(** ** Witnesses *)
Module Demo.
(** The tables after the migrations: the direct exit, active. *)
Definition fresh (l : list bool) : Db :=
  MkDb (MkTable [] 0) (MkTable [] 0) (MkTable [] 0)
    (MkTable [{| x_RowID := 1; x_ExitID := directProtocol; x_Protocol := directProtocol; x_URI := directURI;
                 x_Active := true; x_Created := 100 |}] 1)
    (MkTable [] 0) [] [] 100 l.

Lemma fresh_wf l : wf (fresh l).
Proof.
  split; cbn; try apply NoDup_nil_2; try apply Forall_nil_2; try (split; cbn; [lia|split; [apply NoDup_nil_2|apply Forall_nil_2]]);
    try (vm_compute; lia); try apply NoDup_singleton.
  split; [cbn; lia|]. split; [apply NoDup_singleton|]. constructor; [cbn; lia|constructor].
Qed.

Definition parse (u : bytes) : option (option bytes) := Some (Some (str "vless")).

(** Two rule versions, the first one active, and an exit switched to. *)
Definition ops : list DbOp :=
  [OpInsertSnapshot (str "h1") [] []; OpInsertRuleVersion 1 (str "a") true;
   OpInsertSnapshot (str "h2") [] []; OpInsertRuleVersion 2 (str "b") false;
   OpInsertRuleVersion 9 (str "orphan") true;
   OpAddExit (str "jp") (str "vless://x"); OpSwitchExit (str "jp"); OpDeleteExit (str "jp");
   OpInsertPanelUser (str "root") (str "$2a$"); OpInsertPanelSession (str "s1") 1 (str "j1") 900;
   OpInsertPanelSession (str "s2") 1 (str "j2") 900].
Definition d1 : Db := foldl (fun d op => run_op parse op d) (fresh []) ops.

Lemma d1_wf : wf d1.
Proof.
  assert (K : forall ops d, inv (false, []) d -> inv (false, []) (foldl (fun d op => run_op parse op d) d ops)).
  { induction ops0 as [|op l IH]; [done|]. intros d H. cbn. by apply IH, run_op_inv. }
  apply (K ops (fresh [])). split; [apply fresh_wf|]. split; [done|constructor].
Qed.

Example d1_state :
  (x_ExitID <$> filter (fun x => x_Active x = true) (rows (exits d1))) = [str "jp"] /\
  (rv_ID <$> filter (fun v => rv_Active v = true) (rows (rule_versions d1))) = [1%Z] /\
  length (rows (exits d1)) = 2.
Proof. vm_compute. auto. Qed.

Lemma tables_invariant_witness : wf (foldl (fun d op => run_op parse op d) (fresh [true; false]) ops).
Proof. apply (proj1 (tables_invariant parse ops (fresh [true; false]) (fresh_wf _))). Defined.

Lemma SetActiveRuleVersion_atomic_witness :
  match SetActiveRuleVersion 2 d1 with
  | (Ok _, d') => exists v, found rv_Active (rows (rule_versions d')) = Some v /\ rv_ID v = 2%Z
  | (Err _, d') => eqt d1 d'
  end.
Proof.
  destruct (SetActiveRuleVersion 2 d1) as [r d'] eqn:E.
  pose proof (SetActiveRuleVersion_atomic 2 d1 r d' d1_wf E) as H.
  destruct r; [exact H|exact (proj1 H)].
Defined.

Definition d2 : Db := snd (RevokeSessionsExcept 1 (str "j2") d1).
Definition s1 : PanelSession :=
  {| ps_ID := str "s1"; ps_UserID := 1; ps_JWTID := str "j1"; ps_ExpiresAt := 900; ps_RevokedAt := None |}.

Lemma d2_ok : RevokeSessionsExcept 1 (str "j2") d1 = (Ok tt, d2).
Proof. vm_compute. reflexivity. Qed.

Lemma s1_in : s1 ∈ panel_sessions d1.
Proof. vm_compute. left. Qed.

Example s1_was_active : fst (IsSessionActive (str "s1") d1) = Ok true.
Proof. vm_compute. reflexivity. Qed.

Lemma revoked_for_good_witness :
  fst (IsSessionActive (ps_ID s1) (MkDb (snapshots d2) (rule_versions d2) (apply_status d2) (exits d2)
    (panel_users d2) (panel_sessions d2) (audit_log d2) 200 (db_faults d2))) <> Ok true.
Proof.
  exact (revoked_for_good parse 1 (str "j2") d1 d2 [] 200 s1 d1_wf d2_ok s1_in eq_refl).
Defined.
End Demo.
