(* ===== verification/Applier.v ===== *)
(** * The variation service

    [internal/core/assemble.go] and applier.go, with the rule store of
    internal/resolver/ruletable.go: every change of rules or of the active
    exit goes through here.  [App] is the control plane: the database, the
    published rule table and the applier's own maps.  Operations that call
    the data plane run on the orchestrator's world, whose control-plane part
    is [App]; they are written against the interface [Orch], which the
    systemd driver and the no-op driver implement.

    An error is its cause ([AErr]); the text of a message ([text]), which is
    what the status rows keep, is a parameter. *)
From S2P Require Import Prelude GoStrings GoNet Crypto Rules RuleTable Mihomo Orchestrator Db.
From Stdlib Require Import ZArith Lia.

(** [fmt]'s %d. *)
Definition dec (z : Z) : bytes := strconv_Itoa z.

(** ** The published rule table: [Store] *)
Record Store := { gen : Z; cur : option RuleTable }.

Definition set_Generation (g : Z) (t : RuleTable) : RuleTable :=
  {| Generation := g; Hash := Hash t; exact := exact t; suffix_trie := suffix_trie t;
     keywords := keywords t; defaultAction := defaultAction t; CIDRs := CIDRs t |}.

(** [Store.Load] and [Store.Publish]. *)
Definition Load (s : Store) : option RuleTable := cur s.
Definition Publish (t : option RuleTable) (s : Store) : Store :=
  match t with
  | None => s
  | Some t => {| gen := gen s + 1; cur := Some (set_Generation (gen s + 1) t) |}
  end.

(** ** Errors *)
Inductive AErr :=
| AEInFlight | AEEmptyExit | AENilBase
| AEReadTarget (e : DbErr) | AEWrongSnapshot | AEParse (e : RuleError) | AEValidate (e : RuleError)
| AEReadActive (e : DbErr) | AEListExits (e : DbErr) | AEReadPrior (e : DbErr) | AEStalePrior
| AESnapshot (e : DbErr) | AERuleVersion (e : DbErr) | AEInsertStatus (e : DbErr) | AEActivate (e : DbErr)
| AENoInflight | AEExit (e : DbErr) | AESwitchInFlight
| AEOrch (e : error) | AERestore (e : error) | AEReason (r : bytes)
| AEJoin (a b : AErr).

(** ** In-flight operations *)
Record ruleApplyInfo := {
  statusID : Z; ruleVersionID : Z; priorVersionID : Z; priorSnapshotID : Z;
  targetTable : RuleTable; priorTable : RuleTable; committed : bool
}.

Record switchInfo := { sw_statusID : Z; newExitID : bytes; priorExitID : bytes }.

Record App := MkApp {
  db : Db;
  resolver : option Store;                     (* nil: no resolver *)
  inflight : gmap Z ruleApplyInfo;
  switchInflight : gmap Z switchInfo;
  protectedExits : gmap bytes Z;
  terminalStatus : gmap Z (State * bytes);
  terminalOrder : list Z;
  variationActive : bool
}.

Definition set_db x a := MkApp x (resolver a) (inflight a) (switchInflight a) (protectedExits a) (terminalStatus a) (terminalOrder a) (variationActive a).
Definition set_resolver x a := MkApp (db a) x (inflight a) (switchInflight a) (protectedExits a) (terminalStatus a) (terminalOrder a) (variationActive a).
Definition set_inflight x a := MkApp (db a) (resolver a) x (switchInflight a) (protectedExits a) (terminalStatus a) (terminalOrder a) (variationActive a).
Definition set_switchInflight x a := MkApp (db a) (resolver a) (inflight a) x (protectedExits a) (terminalStatus a) (terminalOrder a) (variationActive a).
Definition set_protectedExits x a := MkApp (db a) (resolver a) (inflight a) (switchInflight a) x (terminalStatus a) (terminalOrder a) (variationActive a).
Definition set_terminal x o a := MkApp (db a) (resolver a) (inflight a) (switchInflight a) (protectedExits a) x o (variationActive a).
Definition set_variationActive x a := MkApp (db a) (resolver a) (inflight a) (switchInflight a) (protectedExits a) (terminalStatus a) (terminalOrder a) x.

Abbreviation AP A := (ST App A).

(** A database call, with its error as a result, or given up ([_ = ...]). *)
Definition on_db {A} (m : DB A) : AP (res DbErr A) := fun a =>
  let '(r, d) := m (db a) in (r, set_db d a).
Definition db_try {A} (f : DbErr -> AErr) (m : DB A) : AP (res AErr A) :=
  let! r := on_db m in ret (match r with Ok x => Ok x | Err e => Err (f e) end).
Definition AppendAudit_ (action target result : bytes) : AP unit :=
  let! _ := on_db (AppendAudit {| a_Actor := []; a_Action := action; a_Target := target; a_Result := result |}) in
  ret tt.

(** ** The maps of the applier *)

(** [beginVariation] and [endVariation]. *)
Definition beginVariation : AP bool := fun a =>
  if variationActive a then (false, a) else (true, set_variationActive true a).
Definition endVariation : AP unit := modify (set_variationActive false).

Definition applyTerminalCacheCap : nat := 128.

(** The eviction loop of [recordTerminalStatus]; the slice gets shorter. *)
Fixpoint evict (order : list Z) (m : gmap Z (State * bytes)) : list Z * gmap Z (State * bytes) :=
  if (applyTerminalCacheCap <? length order)%nat then
    match order with
    | oldest :: order' => evict order' (delete oldest m)
    | [] => (order, m)
    end
  else (order, m).

(** [recordTerminalStatus]. *)
Definition recordTerminalStatus (snapshotID : Z) (state : State) (reason : bytes) : AP unit :=
  modify (fun a =>
    let order := if bool_decide (is_Some (terminalStatus a !! snapshotID)) then terminalOrder a
                 else terminalOrder a ++ [snapshotID] in
    let '(order, m) := evict order (<[snapshotID := (state, reason)]> (terminalStatus a)) in
    set_terminal m order a).

(** Removal of the first occurrence. *)
Fixpoint remove_first (x : Z) (l : list Z) : list Z :=
  match l with [] => [] | y :: l' => if (y =? x)%Z then l' else y :: remove_first x l' end.

(** [clearTerminalStatus]. *)
Definition clearTerminalStatus (snapshotID : Z) : AP unit :=
  modify (fun a =>
    match terminalStatus a !! snapshotID with
    | None => a
    | Some _ => set_terminal (delete snapshotID (terminalStatus a)) (remove_first snapshotID (terminalOrder a)) a
    end).

(** [TerminalStatus]. *)
Definition TerminalStatus (snapshotID : Z) (a : App) : option (State * bytes) := terminalStatus a !! snapshotID.

(** [persistApplyStatus]. *)
Definition persistApplyStatus (statusID snapshotID : Z) (state : State) (reason : bytes) : AP unit :=
  let! r := on_db (UpdateApplyStatus statusID state reason) in
  match r with
  | Err _ => recordTerminalStatus snapshotID state reason
  | Ok _ => clearTerminalStatus snapshotID
  end.

(** [protectSwitchExits] and [unprotectSwitchExits]. *)
Definition protect_one (m : gmap bytes Z) (id : bytes) : gmap bytes Z :=
  if id == [] then m else <[id := (default 0 (m !! id) + 1)%Z]> m.
Definition unprotect_one (m : gmap bytes Z) (id : bytes) : gmap bytes Z :=
  if id == [] then m
  else if (default 0 (m !! id) <=? 1)%Z then delete id m
  else <[id := (default 0 (m !! id) - 1)%Z]> m.
Definition protectSwitchExits (ids : list bytes) : AP unit :=
  modify (fun a => set_protectedExits (foldl protect_one (protectedExits a) ids) a).
Definition unprotectSwitchExits (ids : list bytes) : AP unit :=
  modify (fun a => set_protectedExits (foldl unprotect_one (protectedExits a) ids) a).

(** [registerInflight], [clearInflight], [getInflight] and the same for switches. *)
Definition registerInflight (id : Z) (info : ruleApplyInfo) : AP unit :=
  modify (fun a => set_inflight (<[id := info]> (inflight a)) a).
Definition clearInflight (id : Z) : AP unit := modify (fun a => set_inflight (delete id (inflight a)) a).
Definition getInflight (id : Z) : AP (option ruleApplyInfo) := gets (fun a => inflight a !! id).
Definition registerSwitchInflight (id : Z) (info : switchInfo) : AP unit :=
  modify (fun a => set_switchInflight (<[id := info]> (switchInflight a)) a).
Definition clearSwitchInflight (id : Z) : AP unit :=
  modify (fun a => set_switchInflight (delete id (switchInflight a)) a).
Definition takeSwitchInflight (id : Z) : AP (option switchInfo) := fun a =>
  match switchInflight a !! id with
  | Some info => (Some info, set_switchInflight (delete id (switchInflight a)) a)
  | None => (None, a)
  end.

(** ** Activation of rules *)
Definition publish (t : RuleTable) : AP unit :=
  modify (fun a => set_resolver (Publish (Some t) <$> resolver a) a).

Definition set_committed (b : bool) (i : ruleApplyInfo) : ruleApplyInfo :=
  {| statusID := statusID i; ruleVersionID := ruleVersionID i; priorVersionID := priorVersionID i;
     priorSnapshotID := priorSnapshotID i; targetTable := targetTable i; priorTable := priorTable i;
     committed := b |}.

(** [commitRuleApply]. *)
Definition commitRuleApply (snapshotID : Z) : AP (option AErr) :=
  let! info := getInflight snapshotID in
  match info with
  | None => ret (Some AENoInflight)
  | Some info =>
      if committed info then ret None
      else
        let! r := on_db (SetActiveRuleVersion (ruleVersionID info)) in
        match r with
        | Err e => ret (Some (AEActivate e))
        | Ok _ =>
            let! _ := publish (targetTable info) in
            let! _ := registerInflight snapshotID (set_committed true info) in
            ret None
        end
  end.

(** [rollbackRuleApply]. *)
Definition rollbackRuleApply (snapshotID : Z) : AP unit :=
  let! info := getInflight snapshotID in
  match info with
  | None => ret tt
  | Some info =>
      if negb (committed info) then ret tt
      else
        let! r := on_db (if (priorVersionID info =? 0)%Z then ClearActiveRuleVersion
                         else SetActiveRuleVersion (priorVersionID info)) in
        match r with
        | Err _ => ret tt
        | Ok _ =>
            let! _ := publish (priorTable info) in
            registerInflight snapshotID (set_committed false info)
        end
  end.

(** [applyTerminalState]. *)
Definition applyTerminalState (res : ApplyResult) : State :=
  if RolledBack res then StRolledBack
  else match health res with HealthFailed => Failed | _ => Confirmed end.

(** ** The effective configuration: assemble.go *)
Section applier.
Context `{Unicode} {Value Base : Type}.
Context (Unmarshal : bytes -> option (list Rule)) (IsDomainName : bytes -> bool).
(** [exit.Parse] on a stored URI, and the text of an error. *)
Context (ParseExit : bytes -> option (gmap bytes Value)) (text : AErr -> bytes).

(** [Config]: the exits, the effective rules, and the rest. *)
Record Config := { cfg_base : Base; Exits : option (list (@ExitConfig Value)); EffectiveRules : list Rule }.

Record ExitRecord := { er_ID : bytes; er_Protocol : bytes; er_Config : gmap bytes Value }.

(** [stripNameType]. *)
Definition stripNameType (m : gmap bytes Value) : gmap bytes Value :=
  delete (str "type") (delete (str "name") m).

(** [bootStore]: the rules and exits of the database. *)
Definition ActiveRulesYAML : AP (res DbErr (option bytes)) :=
  let! r := on_db GetActiveRuleVersion in
  ret (match r with
       | Ok row => Ok (Some (rv_RulesYAML row))
       | Err ErrNoRows => Ok None
       | Err e => Err e
       end).

(** [parseURIOrNil] and [Records]. *)
Definition parseURIOrNil (protocol uri : bytes) : gmap bytes Value :=
  if (protocol == directProtocol) || (uri == directURI) then ∅ else default ∅ (ParseExit uri).
Definition Records : AP (res DbErr (list ExitRecord)) :=
  let! r := on_db ListExits in
  ret (match r with
       | Ok l => Ok (map (fun x => {| er_ID := x_ExitID x; er_Protocol := x_Protocol x;
                                      er_Config := parseURIOrNil (x_Protocol x) (x_URI x) |}) l)
       | Err e => Err e
       end).

Definition exit_config (e : ExitRecord) : ExitConfig :=
  {| ex_ID := er_ID e; ex_Protocol := er_Protocol e; ex_Config := stripNameType (er_Config e) |}.

(** [Assemble] over [bootStore]; [set != nil] always holds after a parse. *)
Definition Assemble (base : option Config) : AP (res AErr Config) :=
  match base with
  | None => ret (Err AENilBase)
  | Some cfg =>
      let! y := ActiveRulesYAML in
      match y with
      | Err e => ret (Err (AEReadActive e))
      | Ok y =>
          match (match y with
                 | None => Ok (EffectiveRules cfg)
                 | Some yaml =>
                     match ParseYAML IsDomainName Unmarshal yaml with
                     | Err e => Err (AEParse e)
                     | Ok set => match RuleSet_Validate IsDomainName set with
                                 | Err e => Err (AEValidate e)
                                 | Ok _ => Ok set
                                 end
                     end
                 end) with
          | Err e => ret (Err e)
          | Ok rs =>
              let! x := Records in
              ret (match x with
                   | Err e => Err (AEListExits e)
                   | Ok l => Ok {| cfg_base := cfg_base cfg; Exits := Some (map exit_config l); EffectiveRules := rs |}
                   end)
          end
      end
  end.

(** ** The interface of the data plane *)
Abbreviation W := (World Config App).
Abbreviation Req := (ApplyRequest Config App).

Record Orch := {
  orch_Apply : Req -> ST W (ApplyResult * error * option snapshotBundle);
  orch_Rollback : ST W error
}.

Definition on_cp {A} (m : AP A) : ST W A := fun w => let '(a, c) := m (cp w) in (a, upd_cp c w).

(** [errors.Is(err, ErrApplyInFlight)]. *)
Definition is_in_flight (e : error) : bool :=
  existsb (fun x => match x with EApplyInFlight => true | _ => false end) e.

Record CResult := {
  r_SnapshotID : Z; r_RuleVersionID : Z; r_RolledBack : bool; r_Health : Health; r_Reason : bytes
}.
Definition no_result : CResult :=
  {| r_SnapshotID := 0; r_RuleVersionID := 0; r_RolledBack := false; r_Health := HealthNone; r_Reason := [] |}.

(** [ApplyResult.Reason] of the data plane as text. *)
Definition reason (e : error) : bytes := match e with [] => [] | _ => text (AEOrch e) end.

Context (orch : Orch) (BaseConfig : option Config).

(** ** ApplyRules *)

(** The prior version, its snapshot and its table. *)
Definition readPrior : AP (res AErr (Z * Z * RuleTable)) :=
  let! r := on_db GetActiveRuleVersion in
  ret (match r with
       | Ok prior =>
           Ok (rv_ID prior, rv_SnapshotID prior,
               match ParseYAML IsDomainName Unmarshal (rv_RulesYAML prior) with
               | Ok set => BuildTable set
               | Err _ => BuildTable []
               end)
       | Err ErrNoRows => Ok (0%Z, 0%Z, BuildTable [])
       | Err e => Err (AEReadPrior e)
       end).

(** Everything before the dispatch: the configuration, the status row and
    the prior snapshot. *)
Definition prepareRules (snapshotID ruleVersionID prevSnapshot : Z) : AP (res AErr (Config * Z * Z)) :=
  let? target := db_try AEReadTarget (GetRuleVersionByID ruleVersionID) in
  if (rv_SnapshotID target != snapshotID) then ret (Err AEWrongSnapshot)
  else
    match ParseYAML IsDomainName Unmarshal (rv_RulesYAML target) with
    | Err e => ret (Err (AEParse e))
    | Ok set =>
        match RuleSet_Validate IsDomainName set with
        | Err e => ret (Err (AEValidate e))
        | Ok _ =>
            let? cfg := Assemble BaseConfig in
            let cfg := {| cfg_base := cfg_base cfg; Exits := Exits cfg; EffectiveRules := set |} in
            let? (priorVersionID, priorSnapshotID, priorTable) := readPrior in
            if ((prevSnapshot != 0) && (priorSnapshotID != 0) && (prevSnapshot != priorSnapshotID))%Z
            then ret (Err AEStalePrior)
            else
              let? sid := db_try AEInsertStatus (InsertApplyStatus snapshotID []) in
              let! _ := clearTerminalStatus snapshotID in
              let! _ := registerInflight snapshotID
                {| statusID := sid; ruleVersionID := ruleVersionID; priorVersionID := priorVersionID;
                   priorSnapshotID := priorSnapshotID; targetTable := BuildTable set;
                   priorTable := priorTable; committed := false |} in
              ret (Ok (cfg, sid, priorSnapshotID))
        end
    end.

Definition commit_callback (snapshotID : Z) (a : App) : bool * App :=
  let '(e, a) := commitRuleApply snapshotID a in (match e with None => true | Some _ => false end, a).

Definition finish (statusID snapshotID : Z) (state : State) (r : bytes) : ST W unit :=
  on_cp (let! _ := persistApplyStatus statusID snapshotID state r in clearInflight snapshotID).

(** The dispatch; the last result tells whether the variation is over. *)
Definition dispatchRules (snapshotID ruleVersionID : Z) (cfg : Config) (sid priorSnap : Z)
    : ST W (CResult * option AErr * bool) :=
  let! (res, appErr, bg) := orch_Apply orch
    {| SnapshotID := snapshotID; RuleVersionID := ruleVersionID; rq_config := Some cfg;
       PrevSnapshot := priorSnap; Commit := Some (commit_callback snapshotID) |} in
  let result := {| r_SnapshotID := snapshotID; r_RuleVersionID := ruleVersionID;
                   r_RolledBack := RolledBack res; r_Health := health res; r_Reason := reason (Reason res) |} in
  if is_in_flight appErr then
    let! _ := finish sid snapshotID StRolledBack (str "apply-in-flight") in
    ret (result, Some (AEOrch appErr), true)
  else if err appErr then
    let! _ := finish sid snapshotID (if RolledBack res then StRolledBack else Failed) (reason appErr) in
    ret (result, Some (AEOrch appErr), true)
  else
    match health res with
    | HealthObserving => ret (result, None, false)
    | _ =>
        let state := applyTerminalState res in
        let! ce := (match state with Confirmed => on_cp (commitRuleApply snapshotID) | _ => ret None end) in
        match ce with
        | Some e =>
            let! re := orch_Rollback orch in
            let '(state, rb, finalErr) :=
              if err re then (Failed, false, AEJoin e (AERestore re)) else (StRolledBack, true, e) in
            let! _ := finish sid snapshotID state (text finalErr) in
            ret ({| r_SnapshotID := snapshotID; r_RuleVersionID := ruleVersionID; r_RolledBack := rb;
                    r_Health := HealthFailed; r_Reason := text finalErr |}, Some finalErr, true)
        | None =>
            let! _ := finish sid snapshotID state (reason (Reason res)) in
            ret (result,
                 match state with
                 | Failed => Some (AEReason (
                     if reason (Reason res) == []
                     then str "orchestrator reported failed health without a confirmed rollback"
                     else reason (Reason res)))
                 | _ => None
                 end, true)
        end
    end.

(** [ApplyRules]. *)
Definition ApplyRules (snapshotID ruleVersionID prevSnapshot : Z) : ST W (CResult * option AErr) :=
  let! free := on_cp beginVariation in
  if negb free then ret (no_result, Some AEInFlight)
  else
    let! p := on_cp (prepareRules snapshotID ruleVersionID prevSnapshot) in
    match p with
    | Err e => let! _ := on_cp endVariation in ret (no_result, Some e)
    | Ok (cfg, sid, priorSnap) =>
        let! (result, e, over) := dispatchRules snapshotID ruleVersionID cfg sid priorSnap in
        let! _ := (if over then on_cp endVariation else ret tt) in
        ret (result, e)
    end.

(** [ImportRules]. *)
Definition ImportRules (rulesYAML actor : bytes) : ST W (CResult * option AErr) :=
  match ParseYAML IsDomainName Unmarshal rulesYAML with
  | Err e => ret (no_result, Some (AEParse e))
  | Ok set =>
      match RuleSet_Validate IsDomainName set with
      | Err e => ret (no_result, Some (AEValidate e))
      | Ok _ =>
          let! r := on_cp (
            let? snap := db_try AESnapshot (InsertSnapshot (HashRules set) [] (str "import by " ++ actor)) in
            let? rv := db_try AERuleVersion (InsertRuleVersion snap rulesYAML false) in
            let! _ := on_db (AppendAudit {| a_Actor := actor; a_Action := str "rules.import";
                                            a_Target := HashRules set; a_Result := str "ok" |}) in
            ret (Ok (snap, rv))) in
          match r with
          | Err e => ret (no_result, Some e)
          | Ok (snap, rv) => ApplyRules snap rv 0
          end
      end
  end.

(** ** Exit switches *)
Definition state_text (s : State) : bytes :=
  match s with
  | Submitted => str "submitted" | Confirmed => str "confirmed"
  | StRolledBack => str "rolled_back" | Failed => str "failed"
  end.

(** [applierExitAdapter.Active]: no active exit is the empty id. *)
Definition ActiveID : AP (res DbErr bytes) :=
  let! r := on_db ActiveExit in
  ret (match r with Ok x => Ok (x_ExitID x) | Err ErrNoActive => Ok [] | Err e => Err e end).

(** [compensateSwitch]. *)
Definition compensateSwitch (prior r : bytes) (terminal : State) : AP (State * option AErr) :=
  let r := if r == [] then str "exit switch did not reach a confirmed terminal state" else r in
  let! (terminal, restoreErr) :=
    (if prior == [] then ret (terminal, None)
     else
       let! x := on_db (SwitchExitRow prior) in
       ret (match x with Ok _ => (terminal, None) | Err e => (Failed, Some (AEExit e)) end)) in
  let! _ := AppendAudit_ (str "exits.switch." ++ state_text terminal) (str "prior=" ++ prior)
              (match restoreErr with None => r | Some e => text (AEJoin (AEReason r) e) end) in
  ret (terminal, restoreErr).

Definition join (a : AErr) (b : option AErr) : AErr := match b with None => a | Some b => AEJoin a b end.

Definition audit_switch_ok (exitID prior : bytes) : AP unit :=
  AppendAudit_ (str "exits.switch.confirmed") (str "exit=" ++ exitID ++ str " prior=" ++ prior) (str "ok").

(** Everything of [SwitchExit] from the database switch to the dispatch; a
    failure after the switch is compensated.  [nano] is time.Now().UnixNano(). *)
Definition prepareSwitch (exitID prior : bytes) (nano : Z) : AP (res AErr (Config * Z * Z)) :=
  let! s := on_db (SwitchExitRow exitID) in
  match s with
  | Err e => ret (Err (AEExit e))
  | Ok _ =>
      let! r := (let? cfg := Assemble BaseConfig in
                 let? snap := db_try AESnapshot
                   (InsertSnapshot (str "exit-switch:" ++ exitID ++ str ":" ++ dec nano) [] (str "exit-switch:" ++ exitID)) in
                 let? sid := db_try AEInsertStatus (InsertApplyStatus snap (str "exits.switch")) in
                 ret (Ok (cfg, snap, sid))) in
      match r with
      | Err primary =>
          let! (_, restoreErr) := compensateSwitch prior (text primary) StRolledBack in
          ret (Err (join primary restoreErr))
      | Ok (cfg, snap, sid) =>
          let! _ := clearTerminalStatus snap in
          let! _ := registerSwitchInflight snap {| sw_statusID := sid; newExitID := exitID; priorExitID := prior |} in
          ret (Ok (cfg, snap, sid))
      end
  end.

Definition no_verdict : bytes := str "orchestrator did not confirm the exit switch".

(** The verdict on a switch that did not go on in the background. *)
Definition switchVerdict (exitID prior : bytes) (snap sid : Z) (res : ApplyResult) : AP (option AErr) :=
  match health res with
  | HealthNone =>
      let! _ := persistApplyStatus sid snap Confirmed [] in
      let! _ := clearSwitchInflight snap in
      let! _ := audit_switch_ok exitID prior in
      ret None
  | _ =>
      let! (state, r) :=
        (match applyTerminalState res with
         | Confirmed => ret (Confirmed, reason (Reason res))
         | state =>
             let r := if reason (Reason res) == [] then no_verdict else reason (Reason res) in
             let! (state, restoreErr) := compensateSwitch prior r state in
             ret (state, match restoreErr with None => r | Some e => text (AEJoin (AEReason r) e) end)
         end) in
      let! _ := persistApplyStatus sid snap state r in
      let! _ := clearSwitchInflight snap in
      match state with
      | Confirmed => let! _ := audit_switch_ok exitID prior in ret None
      | Failed => ret (Some (AEReason r))
      | _ => ret None
      end
  end.

(** The dispatch of [SwitchExit]; the last result tells whether it is over. *)
Definition dispatchSwitch (exitID prior : bytes) (cfg : Config) (snap sid : Z)
    : ST W (CResult * option AErr * bool) :=
  let! (res, appErr, bg) := orch_Apply orch
    {| SnapshotID := snap; RuleVersionID := 0; rq_config := Some cfg; PrevSnapshot := 0; Commit := None |} in
  let result := {| r_SnapshotID := snap; r_RuleVersionID := 0; r_RolledBack := RolledBack res;
                   r_Health := health res; r_Reason := reason (Reason res) |} in
  if is_in_flight appErr then
    let! e := on_cp (
      let! _ := clearSwitchInflight snap in
      let! (state, restoreErr) := compensateSwitch prior (str "apply-in-flight") StRolledBack in
      let! _ := persistApplyStatus sid snap state (str "apply-in-flight") in
      ret (join (AEOrch appErr) restoreErr)) in
    ret (result, Some e, true)
  else if err appErr then
    let! e := on_cp (
      let! _ := clearSwitchInflight snap in
      let! (state, restoreErr) :=
        compensateSwitch prior (reason appErr) (if RolledBack res then StRolledBack else Failed) in
      let! _ := persistApplyStatus sid snap state (text (join (AEOrch appErr) restoreErr)) in
      ret (join (AEOrch appErr) restoreErr)) in
    ret (result, Some e, true)
  else
    match health res with
    | HealthObserving => ret (result, None, false)
    | _ => let! e := on_cp (switchVerdict exitID prior snap sid res) in ret (result, e, true)
    end.

(** [SwitchExit]. *)
Definition SwitchExit (exitID : bytes) (nano : Z) : ST W (CResult * option AErr) :=
  if exitID == [] then ret (no_result, Some AEEmptyExit)
  else
    let! free := on_cp beginVariation in
    if negb free then ret (no_result, Some AEInFlight)
    else
      let! p := on_cp ActiveID in
      match p with
      | Err e => let! _ := on_cp endVariation in ret (no_result, Some (AEExit e))
      | Ok prior =>
          let! _ := on_cp (protectSwitchExits [prior; exitID]) in
          let! q := on_cp (prepareSwitch exitID prior nano) in
          let! (result, e, over) :=
            (match q with
             | Err e => ret (no_result, Some e, true)
             | Ok (cfg, snap, sid) => dispatchSwitch exitID prior cfg snap sid
             end) in
          let! _ := (if over then on_cp (let! _ := unprotectSwitchExits [prior; exitID] in endVariation)
                     else ret tt) in
          ret (result, e)
      end.

(** [DeleteExit]. *)
Definition DeleteExit_ (exitID : bytes) : AP (option AErr) := fun a =>
  if (0 <? default 0 (protectedExits a !! exitID))%Z then (Some AESwitchInFlight, a)
  else
    let '(r, a) := on_db (DeleteExit exitID) a in
    (match r with Ok _ => None | Err e => Some (AEExit e) end, a).

(** ** Health verdicts *)

(** [finalizeSwitchOnHealth]. *)
Definition finalizeSwitchOnHealth (snap : Z) (res : ApplyResult) (info : switchInfo) : AP unit :=
  let! (state, r) :=
    (match applyTerminalState res with
     | Confirmed => ret (Confirmed, reason (Reason res))
     | state =>
         let r := if reason (Reason res) == [] then no_verdict else reason (Reason res) in
         let! (state, restoreErr) := compensateSwitch (priorExitID info) r state in
         ret (state, match restoreErr with None => r | Some e => text (AEJoin (AEReason r) e) end)
     end) in
  let! _ := persistApplyStatus (sw_statusID info) snap state r in
  let! _ := (match state with
             | Confirmed => audit_switch_ok (newExitID info) (priorExitID info)
             | _ => ret tt
             end) in
  unprotectSwitchExits [priorExitID info; newExitID info].

Definition audit_rules (snap : Z) (state : State) (r : bytes) : AP unit :=
  let target := str "snapshot=" ++ dec snap in
  match state with
  | StRolledBack => AppendAudit_ (str "rules.apply.rolled_back") target r
  | Failed => AppendAudit_ (str "rules.apply.failed") target r
  | _ => AppendAudit_ (str "rules.apply.confirmed") target (str "ok")
  end.

(** [OnHealth]. *)
Definition OnHealth (snap : Z) (res : ApplyResult) : ST W unit :=
  let! sw := on_cp (takeSwitchInflight snap) in
  match sw with
  | Some info => on_cp (let! _ := finalizeSwitchOnHealth snap res info in endVariation)
  | None =>
      let! i := on_cp (getInflight snap) in
      match i with
      | None => ret tt
      | Some info =>
          let! (state, r) :=
            (match applyTerminalState res with
             | StRolledBack =>
                 let! _ := on_cp (rollbackRuleApply snap) in ret (StRolledBack, reason (Reason res))
             | Confirmed =>
                 let! ce := on_cp (commitRuleApply snap) in
                 match ce with
                 | None => ret (Confirmed, reason (Reason res))
                 | Some e =>
                     let! re := orch_Rollback orch in
                     ret (if err re then (Failed, text (AEJoin e (AERestore re))) else (StRolledBack, text e))
                 end
             | state => ret (state, reason (Reason res))
             end) in
          on_cp (let! _ := persistApplyStatus (statusID info) snap state r in
                 let! _ := clearInflight snap in
                 let! _ := audit_rules snap state r in
                 endVariation)
      end
  end.

(** [Status]: the newest row, with the fallback for one still submitted. *)
Definition Status : AP (res DbErr (option (Z * Z * State * bytes))) :=
  let! r := on_db LatestApplyStatus in
  match r with
  | Err e => ret (Err e)
  | Ok None => ret (Ok None)
  | Ok (Some row) =>
      gets (fun a => Ok (Some (
        match TerminalStatus (st_SnapshotID row) a, st_State row with
        | Some (s, t), Submitted => (st_ID row, st_SnapshotID row, s, t)
        | _, s => (st_ID row, st_SnapshotID row, s, st_Reason row)
        end)))
  end.
End applier.
