(* ===== verification/ApplierSpec.v ===== *)
(** * The variation service keeps rules, resolver and status together

    Theorems about Applier.v: the published table is the one of the active
    rule version after every sequence of calls, an apply either activates its
    version or leaves rules and resolver alone, changes exclude each other,
    and the status fallback stays bounded. *)
From S2P Require Import Prelude GoStrings GoNet Crypto Rules RuleTable Mihomo Orchestrator Db Applier.
From Stdlib Require Import ZArith Lia.

(** ** Database calls that leave the rule versions alone *)
Section tables.
Context (R : Table RuleVersion).

Definition tables (d : Db) : Prop := Db.inv (false, []) d /\ rule_versions d = R.

Lemma tables_stable : stable tables.
Proof. intros l d [H HR]. split; [by apply inv_stable|exact HR]. Qed.

Lemma keeps_and {W A} (I J : W -> Prop) (m : ST W A) :
  keeps I m -> keeps J m -> keeps (fun w => I w /\ J w) m.
Proof. intros HI HJ w [H1 H2]. split; auto. Qed.

(* Shows that an operation writes other tables only. *)
Ltac rules_alone :=
  repeat first
    [ apply keeps_ret | apply keeps_query; [intros ? ? ?; done]
    | apply keeps_fallible; [intros ? ? ?; done]
    | apply keeps_tx; [intros ? ? ?; done|]
    | apply keeps_update; [intros ? ? ?; done|]; intros ? ?
    | match goal with |- keeps _ (exec _) => apply keeps_exec; [intros ? ? ?; done|]; intros ? ? ? end
    | match goal with |- keeps _ (bindE _ _) => apply keeps_bindE; [|intros ?] end
    | progress intros
    | match goal with
      | H : Some _ = Some _ |- _ => progress simplify_eq/=
      | H : None = Some _ |- _ => discriminate H
      | x : (_ * _)%type |- _ => destruct x
      | H : context [match ?x with _ => _ end] |- _ => destruct x eqn:?
      | |- context [match ?x with _ => _ end] => destruct x eqn:?
      end
    | done ].

Lemma keeps_query_tables {A} (f : Db -> res DbErr A) : keeps tables (query f).
Proof. apply keeps_query, tables_stable. Qed.
Lemma InsertSnapshot_tables h t n : keeps tables (InsertSnapshot h t n).
Proof. apply keeps_and; [apply InsertSnapshot_keeps|]. unfold InsertSnapshot. rules_alone. Qed.
Lemma InsertApplyStatus_tables s r : keeps tables (InsertApplyStatus s r).
Proof. apply keeps_and; [apply InsertApplyStatus_keeps|]. unfold InsertApplyStatus. rules_alone. Qed.
Lemma UpdateApplyStatus_tables i s r : keeps tables (UpdateApplyStatus i s r).
Proof. apply keeps_and; [apply UpdateApplyStatus_keeps|]. unfold UpdateApplyStatus. rules_alone. Qed.
Lemma SwitchExitRow_tables i : keeps tables (SwitchExitRow i).
Proof. apply keeps_and; [apply SwitchExit_keeps|]. unfold SwitchExitRow. rules_alone. Qed.
Lemma DeleteExit_tables i : keeps tables (DeleteExit i).
Proof. apply keeps_and; [apply DeleteExit_keeps|]. unfold DeleteExit. rules_alone. Qed.
Lemma AppendAudit_tables e : keeps tables (AppendAudit e).
Proof.
  apply keeps_and; [|unfold AppendAudit; rules_alone].
  intros d. apply (run_op_inv (fun _ => None) (false, []) (OpAppendAudit e)).
Qed.
End tables.
#[export] Hint Resolve keeps_query_tables InsertSnapshot_tables InsertApplyStatus_tables
  UpdateApplyStatus_tables SwitchExitRow_tables DeleteExit_tables AppendAudit_tables : st.

(** ** Operations of the applier that leave rules, resolver and in-flight
    applies alone *)
Section control_plane.
Context (R : Table RuleVersion) (S : option Store) (M : gmap Z ruleApplyInfo) (V : bool).

Definition K (a : App) : Prop :=
  tables R (db a) /\ resolver a = S /\ inflight a = M /\ variationActive a = V.

Lemma on_db_K {A} (m : DB A) : keeps (tables R) m -> keeps K (on_db m).
Proof.
  intros Hm a (H1 & H2). unfold on_db. specialize (Hm _ H1). destruct (m (db a)) as [r d]. by split.
Qed.

Lemma modify_K (f : App -> App) :
  (forall a, db (f a) = db a /\ resolver (f a) = resolver a /\ inflight (f a) = inflight a /\
             variationActive (f a) = variationActive a) ->
  keeps K (modify f).
Proof.
  intros Hf. apply keeps_modify. intros a (H1 & H2 & H3 & H4).
  destruct (Hf a) as (E1 & E2 & E3 & E4). unfold K. by rewrite E1, E2, E3, E4.
Qed.

(* Follows the structure of an operation down to its steps. *)
Ltac app_keeps :=
  repeat first
    [ solve [eauto with st]
    | match goal with
      | |- keeps _ (bind _ _) => apply keeps_bind; [|intros ?]
      | |- keeps _ (bindE _ _) => apply keeps_bindE; [|intros ?]
      | |- keeps _ (on_db _) => apply on_db_K
      | |- keeps _ (modify _) => apply modify_K; intros ?; done
      | |- keeps _ (let _ := _ in _) => cbv zeta
      | |- keeps _ (match ?x with _ => _ end) => destruct x eqn:?
      end ].

Lemma evict_order_ok order m : exists order' m', evict order m = (order', m').
Proof. destruct (evict order m) as [o m']. eauto. Qed.

Lemma recordTerminalStatus_K s st r : keeps K (recordTerminalStatus s st r).
Proof. apply modify_K. intros a. cbv zeta. by destruct (evict _ _). Qed.
Lemma clearTerminalStatus_K s : keeps K (clearTerminalStatus s).
Proof. apply modify_K. intros a. by destruct (terminalStatus a !! s). Qed.
Hint Resolve recordTerminalStatus_K clearTerminalStatus_K : st.

Lemma persistApplyStatus_K i s st r : keeps K (persistApplyStatus i s st r).
Proof. unfold persistApplyStatus. app_keeps. Qed.
Lemma AppendAudit_K a t r : keeps K (AppendAudit_ a t r).
Proof. unfold AppendAudit_. app_keeps. Qed.
Lemma protect_K ids : keeps K (protectSwitchExits ids).
Proof. by apply modify_K. Qed.
Lemma unprotect_K ids : keeps K (unprotectSwitchExits ids).
Proof. by apply modify_K. Qed.
Lemma registerSwitch_K i s : keeps K (registerSwitchInflight i s).
Proof. by apply modify_K. Qed.
Lemma clearSwitch_K i : keeps K (clearSwitchInflight i).
Proof. by apply modify_K. Qed.
Lemma takeSwitch_K i : keeps K (takeSwitchInflight i).
Proof. intros a H. unfold takeSwitchInflight. by destruct (switchInflight a !! i). Qed.
Hint Resolve persistApplyStatus_K AppendAudit_K protect_K unprotect_K registerSwitch_K clearSwitch_K takeSwitch_K : st.

Lemma db_try_K {A} f (m : DB A) : keeps (tables R) m -> keeps K (db_try f m).
Proof. intros Hm. unfold db_try. app_keeps. Qed.
Hint Resolve db_try_K : st.

Section parameters.
Context `{Unicode} {Value Base : Type} (Unmarshal : bytes -> option (list Rule)) (IsDomainName : bytes -> bool)
  (ParseExit : bytes -> option (gmap bytes Value)) (text : AErr -> bytes) (BaseConfig : option (@Config Value Base)).

Lemma Assemble_K : keeps K (Assemble Unmarshal IsDomainName ParseExit BaseConfig).
Proof.
  unfold Assemble, ActiveRulesYAML, Records, GetActiveRuleVersion, ListExits. app_keeps.
Qed.

Lemma readPrior_K : keeps K (readPrior Unmarshal IsDomainName).
Proof. unfold readPrior, GetActiveRuleVersion. app_keeps. Qed.

Lemma ActiveID_K : keeps K ActiveID.
Proof. unfold ActiveID, ActiveExit. app_keeps. Qed.

Lemma compensateSwitch_K p r t : keeps K (compensateSwitch text p r t).
Proof. unfold compensateSwitch. app_keeps. Qed.
Hint Resolve Assemble_K readPrior_K ActiveID_K compensateSwitch_K : st.

Lemma prepareSwitch_K i p n : keeps K (prepareSwitch Unmarshal IsDomainName ParseExit text BaseConfig i p n).
Proof. unfold prepareSwitch. app_keeps. Qed.

Lemma switchVerdict_K i p s sid r : keeps K (switchVerdict text i p s sid r).
Proof. unfold switchVerdict, audit_switch_ok. app_keeps. Qed.

Lemma finalizeSwitch_K s r i : keeps K (finalizeSwitchOnHealth text s r i).
Proof. unfold finalizeSwitchOnHealth, audit_switch_ok. app_keeps. Qed.
End parameters.

Lemma audit_rules_K s st r : keeps K (audit_rules s st r).
Proof. unfold audit_rules. app_keeps. Qed.

Lemma DeleteExit_K i : keeps K (DeleteExit_ i).
Proof.
  intros a H. unfold DeleteExit_. destruct (0 <? _)%Z; [done|].
  assert (Hk : keeps K (on_db (DeleteExit i))) by app_keeps.
  specialize (Hk a H). by destruct (on_db (DeleteExit i) a).
Qed.
End control_plane.

(** ** Rules, resolver and in-flight applies *)
Section agreement.
Context `{Unicode} (Unmarshal : bytes -> option (list Rule)) (IsDomainName : bytes -> bool).

Abbreviation parse := (ParseYAML IsDomainName Unmarshal).

(** [t] is the compiled table of [rs], whatever its generation. *)
Definition compiled (t : RuleTable) (rs : list Rule) : Prop := set_Generation 0 t = set_Generation 0 (BuildTable rs).

(** The table of version [id], 0 for none. *)
Definition table_of (R : Table RuleVersion) (id : Z) (t : RuleTable) : Prop :=
  if (id =? 0)%Z then compiled t []
  else exists v set, v ∈ rows R /\ rv_ID v = id /\ parse (rv_RulesYAML v) = Ok set /\ compiled t set.

Definition active_id (R : Table RuleVersion) : Z :=
  match found rv_Active (rows R) with Some v => rv_ID v | None => 0 end.

(** The resolver serves the active rule version. *)
Definition agree (R : Table RuleVersion) (S : option Store) : Prop :=
  forall s t, S = Some s -> cur s = Some t -> table_of R (active_id R) t.

(** What an in-flight apply remembers is what the database holds. *)
Definition ok_info (R : Table RuleVersion) (i : ruleApplyInfo) : Prop :=
  (exists v set, v ∈ rows R /\ rv_ID v = ruleVersionID i /\ parse (rv_RulesYAML v) = Ok set /\ compiled (targetTable i) set) /\
  table_of R (priorVersionID i) (priorTable i).

(** The rule versions with [id] the active one. *)
Definition activate (id : Z) (R : Table RuleVersion) : Table RuleVersion :=
  tbl_map (fun r => rv_set_active (rv_ID r == id) r) R.
Definition no_active (R : Table RuleVersion) : Table RuleVersion :=
  tbl_map (fun r => if rv_Active r then rv_set_active false r else r) R.

Lemma compiled_BuildTable rs : compiled (BuildTable rs) rs.
Proof. done. Qed.

Lemma table_of_rows (R R' : Table RuleVersion) id t :
  (forall v, v ∈ rows R -> exists v', v' ∈ rows R' /\ rv_ID v' = rv_ID v /\ rv_RulesYAML v' = rv_RulesYAML v) ->
  table_of R id t -> table_of R' id t.
Proof.
  intros HR. unfold table_of. destruct (id =? 0)%Z; [done|].
  intros (v & set & Hv & <- & Hp & Hc). destruct (HR v Hv) as (v' & Hv' & Hid & Hy).
  exists v', set. by rewrite Hy.
Qed.

Lemma ok_info_rows (R R' : Table RuleVersion) i :
  (forall v, v ∈ rows R -> exists v', v' ∈ rows R' /\ rv_ID v' = rv_ID v /\ rv_RulesYAML v' = rv_RulesYAML v) ->
  ok_info R i -> ok_info R' i.
Proof.
  intros HR [(v & set & Hv & Hid & Hp & Hc) Hprior]. split; [|by eapply table_of_rows].
  destruct (HR v Hv) as (v' & Hv' & Hid' & Hy). exists v', set. rewrite Hy. split; [done|]. by rewrite Hid'.
Qed.

(** Rewriting the active flags keeps what the rows say. *)
Lemma rows_map (R : Table RuleVersion) f :
  (forall v, rv_ID (f v) = rv_ID v /\ rv_RulesYAML (f v) = rv_RulesYAML v) ->
  forall v, v ∈ rows R -> exists v', v' ∈ rows (tbl_map f R) /\ rv_ID v' = rv_ID v /\ rv_RulesYAML v' = rv_RulesYAML v.
Proof.
  intros Hf v Hv. exists (f v). split; [|apply Hf]. unfold tbl_map. cbn. by apply list_elem_of_fmap_2.
Qed.

Lemma rows_activate id R v :
  v ∈ rows R -> exists v', v' ∈ rows (activate id R) /\ rv_ID v' = rv_ID v /\ rv_RulesYAML v' = rv_RulesYAML v.
Proof. by apply rows_map. Qed.

Lemma rows_no_active R v :
  v ∈ rows R -> exists v', v' ∈ rows (no_active R) /\ rv_ID v' = rv_ID v /\ rv_RulesYAML v' = rv_RulesYAML v.
Proof. apply rows_map. intros x. by destruct (rv_Active x). Qed.

Lemma active_activate id R : (exists v, v ∈ rows R /\ rv_ID v = id) -> active_id (activate id R) = id.
Proof.
  intros (v & Hv & Hid). unfold active_id.
  destruct (found rv_Active (rows (activate id R))) as [v'|] eqn:F.
  - apply found_elem in F as [F1 F2]. unfold activate, tbl_map in F1. cbn in F1.
    apply list_elem_of_fmap in F1 as (v0 & -> & _). cbn in *. by apply bool_decide_eq_true in F2.
  - apply (found_none _ _ (rv_set_active (rv_ID v == id) v)) in F.
    + cbn in F. by apply bool_decide_eq_false in F.
    + unfold activate, tbl_map. cbn. apply list_elem_of_fmap. by exists v.
Qed.

Lemma active_no_active R : active_id (no_active R) = 0%Z.
Proof.
  unfold active_id. destruct (found rv_Active (rows (no_active R))) as [v'|] eqn:F; [|done].
  apply found_elem in F as [F1 F2]. unfold no_active, tbl_map in F1. cbn in F1.
  apply list_elem_of_fmap in F1 as (v0 & -> & _). destruct (rv_Active v0) eqn:E; [done|]. by rewrite E in F2.
Qed.

(** Activating a version and publishing its table restores the agreement. *)
Lemma agree_publish (R : Table RuleVersion) S t :
  table_of R (active_id R) t -> agree R (Publish (Some t) <$> S).
Proof.
  intros Ht s t' Hs Ht'. destruct S as [s0|]; [|done]. injection Hs as <-. cbn in Ht'. injection Ht' as <-.
  revert Ht. unfold table_of, compiled. destruct (active_id R =? 0)%Z; [done|].
  intros (v & set & ? & ? & ? & ?). by exists v, set.
Qed.

(** The version an in-flight apply activates is a positive key. *)
Lemma ok_target (R : Table RuleVersion) i :
  Forall (fun v => (0 < rv_ID v)%Z) (rows R) -> ok_info R i ->
  (exists v, v ∈ rows R /\ rv_ID v = ruleVersionID i) /\ table_of R (ruleVersionID i) (targetTable i).
Proof.
  intros Hpos [(v & set & Hv & Hid & Hp & Hc) _]. split; [by exists v|].
  rewrite Forall_forall in Hpos. specialize (Hpos v Hv). unfold table_of. rewrite <- Hid.
  destruct (Z.eqb_spec (rv_ID v) 0); [lia|]. by exists v, set.
Qed.
End agreement.

(** ** The data plane as the applier sees it

    What an implementation of [Orch] promises about the control plane: the
    commit callback runs at most once, and its outcome is the call's. *)
Section interface.
Context {Value Base : Type}.
Abbreviation W := (World (@Config Value Base) App).

Class OrchLaws (orch : @Orch Value Base) : Prop := {
  law_apply : forall req w,
    wp (orch_Apply orch req) (fun '(r, e, _) w' =>
      if err e then cp w' = cp w \/ refuses req (cp w) (cp w')
      else RolledBack r = false /\
           (health r = HealthObserving /\ cp w' = cp w \/ health r = HealthOK /\ commits req (cp w) (cp w'))) w;
  law_rollback : forall w, wp (orch_Rollback orch) (fun _ w' => cp w' = cp w) w
}.

Context (Render : Unit3 -> @Config Value Base -> option bytes).

Definition systemd (has_health : bool) : @Orch Value Base :=
  {| orch_Apply := Orchestrator.Apply Render has_health; orch_Rollback := Rollback Render |}.
Definition noop : @Orch Value Base :=
  {| orch_Apply req := (let! (r, e) := NoOp_Apply req in ret (r, e, None)); orch_Rollback := NoOp_Rollback |}.

(** The error of [Systemd.Apply] and its health go together. *)
Lemma failed_err e re : err e = true -> err (snd (failedApplyResult e re)) = true.
Proof. unfold failedApplyResult. destruct (err re); cbn; [|done]. intros H. by rewrite err_app, H. Qed.

Lemma Apply_err h (req : ApplyRequest (@Config Value Base) App) w :
  wp (Orchestrator.Apply Render h req) (fun '(r, e, bg) _ =>
    if err e then bg = None /\ health r <> HealthOK /\ health r <> HealthObserving
    else RolledBack r = false /\
         (health r = HealthObserving /\ bg <> None \/ health r = HealthOK /\ bg = None)) w.
Proof.
  unfold wp, Orchestrator.Apply. destruct (rq_config req) as [cfg|]; [|done].
  destruct (applyMu w); [done|]. unfold apply_locked, bind.
  destruct (snapshotCurrent _) as [[e prev] w1]. destruct (err e) eqn:E1; [cbn; by rewrite E1|].
  destruct (render Render cfg w1) as [e2 w2]. destruct (err e2) eqn:E2.
  { destruct (restore prev w2) as [re w3]. cbn. pose proof (failed_err e2 re E2) as Hf.
    destruct (failedApplyResult_fst e2 re) as [Hh _]. destruct (failedApplyResult e2 re) as [r e'].
    cbn in *. rewrite Hf, Hh. done. }
  destruct (reloadUnits w2) as [e3 w3]. destruct (err e3) eqn:E3.
  { destruct (restoreAndReload prev w3) as [re w4]. cbn. pose proof (failed_err e3 re E3) as Hf.
    destruct (failedApplyResult_fst e3 re) as [Hh _]. destruct (failedApplyResult e3 re) as [r e'].
    cbn in *. rewrite Hf, Hh. done. }
  destruct h; [cbn; auto|]. destruct (commitOrRestore req prev w3) as [[rb e4] w4].
  destruct (err e4) eqn:E4; cbn; [by rewrite E4|auto].
Qed.

#[export] Instance systemd_laws h : OrchLaws (systemd h).
Proof.
  split.
  - intros req w. cbn. pose proof (Apply_err h req w) as He. destruct (applyMu w) eqn:Hl.
    + unfold wp, Orchestrator.Apply in *. rewrite Hl in *. destruct (rq_config req); cbn; auto.
    + pose proof (wp_Apply Render h req w Hl) as Ho. unfold wp in *.
      destruct (Orchestrator.Apply Render h req w) as [[[r e] bg] w']. unfold outcome in Ho. destruct (err e).
      * destruct He as (-> & H1 & H2). destruct Ho as [_ Ho]. destruct (health r); naive_solver.
      * destruct He as [Hr [[Hh Hb]|[Hh ->]]].
        -- split; [done|]. left. destruct bg; [|done]. naive_solver.
        -- split; [done|]. right. rewrite Hh in Ho. naive_solver.
  - intros w. cbn. destruct (applyMu w) eqn:Hl; [unfold wp, Rollback; by rewrite Hl|].
    unfold wp, Rollback, bind. rewrite Hl. unfold rollback_locked. cbn.
    destruct (config w) as [cfg|] eqn:Hc; [|done].
    pose proof (wp_rollback_to Render (upd_lock true w) cfg Hc) as H. unfold wp in H.
    destruct (rollback_to Render cfg (upd_lock true w)) as [e w']. by destruct H as (_ & H & _).
Qed.

#[export] Instance noop_laws : OrchLaws noop.
Proof.
  split; [|done]. intros req w. unfold wp. cbn. unfold NoOp_Apply, bind, commits, refuses, run_commit.
  destruct (Commit req) as [f|] eqn:Ec; [|cbn; auto].
  destruct (f (cp w)) as [[|] c] eqn:E; cbn; rewrite ?E; eauto.
Qed.
End interface.

(** ** Activation *)
Section activation.
Context `{Unicode} (Unmarshal : bytes -> option (list Rule)) (IsDomainName : bytes -> bool).

Abbreviation agree := (agree Unmarshal IsDomainName).
Abbreviation ok_info := (ok_info Unmarshal IsDomainName).

Definition all_ok (R : Table RuleVersion) (M : gmap Z ruleApplyInfo) : Prop := map_Forall (fun _ => ok_info R) M.

(** [K] with the agreement of rules, resolver and in-flight applies. *)
Definition Good R S M V (a : App) : Prop := K R S M V a /\ agree R S /\ all_ok R M.

Lemma K_pos R S M V a : K R S M V a -> Forall (fun v => (0 < rv_ID v)%Z) (rows R).
Proof.
  intros ([(Hwf & _) HR] & _). destruct (wf_rules _ Hwf) as (_ & _ & Hp). rewrite HR in Hp.
  eapply Forall_impl; [exact Hp|]. cbn. lia.
Qed.

Lemma all_ok_rows (R R' : Table RuleVersion) M :
  (forall v, v ∈ rows R -> exists v', v' ∈ rows R' /\ rv_ID v' = rv_ID v /\ rv_RulesYAML v' = rv_RulesYAML v) ->
  all_ok R M -> all_ok R' M.
Proof. intros HR HM id i Hi. eapply ok_info_rows; [exact HR|]. by apply (HM id). Qed.

Lemma all_ok_insert R M id i : all_ok R M -> ok_info R i -> all_ok R (<[id := i]> M).
Proof. intros HM Hi. by apply map_Forall_insert_2. Qed.

Lemma ok_info_committed R b i : ok_info R i -> ok_info R (set_committed b i).
Proof. done. Qed.

(** A database call that activates [id], seen from the applier. *)
Lemma on_db_activate R S M V id a :
  K R S M V a ->
  wp (on_db (SetActiveRuleVersion id)) (fun r a' =>
    match r with
    | Ok _ => K (activate id R) S M V a' /\ exists v, v ∈ rows R /\ rv_ID v = id
    | Err _ => K R S M V a'
    end) a.
Proof.
  intros (HT & HS & HM & HV). unfold wp, on_db.
  pose proof (SetActive_wp id (db a)) as H1. pose proof (SetActive_keeps (false, []) id (db a) (proj1 HT)) as H2.
  unfold wp in H1. destruct (SetActiveRuleVersion id (db a)) as [[e|[]] d]; cbn in H1.
  - apply eqt_inv in H1 as [l ->]. split; [|done]. by apply tables_stable.
  - destruct H1 as (l & Hex & ->). cbn in H2. destruct HT as [HT HR]. rewrite HR in *.
    split; [|done]. split; [|done]. split; [exact H2|done].
Qed.

Lemma on_db_clear R S M V a :
  K R S M V a ->
  wp (on_db ClearActiveRuleVersion) (fun r a' =>
    match r with Ok _ => K (no_active R) S M V a' | Err _ => K R S M V a' end) a.
Proof.
  intros (HT & HS & HM & HV). unfold wp, on_db, ClearActiveRuleVersion.
  pose proof (wp_update (fun d => set_rule_versions
    (tbl_map (fun r => if rv_Active r then rv_set_active false r else r) (rule_versions d)) d) (db a)) as H1.
  pose proof (demote_rules_keeps (false, []) (db a) (proj1 HT)) as H2.
  unfold demote_rules in *. unfold wp in H1.
  destruct (update _ (db a)) as [[e|[]] d]; cbn in H1.
  - apply eqt_inv in H1 as [l ->]. split; [|done]. by apply tables_stable.
  - destruct H1 as [l ->]. cbn in H2. destruct HT as [HT HR]. rewrite HR in *.
    split; [|done]. split; [exact H2|done].
Qed.

(** [publish] and [registerInflight] on [K]. *)
Lemma publish_K R S M V t a : K R S M V a -> wp (publish t) (fun _ => K R (Publish (Some t) <$> S) M V) a.
Proof. intros (HT & <- & HM & HV). by split. Qed.
Lemma register_K R S M V id i a :
  K R S M V a -> wp (registerInflight id i) (fun _ => K R S (<[id := i]> M) V) a.
Proof. intros (HT & HS & <- & HV). by split. Qed.
Lemma clear_K R S M V id a : K R S M V a -> wp (clearInflight id) (fun _ => K R S (delete id M) V) a.
Proof. intros (HT & HS & <- & HV). by split. Qed.

(** [commitRuleApply] activates the version and publishes its table, or
    changes nothing. *)
Lemma commit_wp R S M V snap a :
  Good R S M V a ->
  wp (commitRuleApply snap) (fun r a' =>
    match M !! snap, r with
    | Some i, None =>
        if committed i then Good R S M V a'
        else Good (activate (ruleVersionID i) R) (Publish (Some (targetTable i)) <$> S)
               (<[snap := set_committed true i]> M) V a' /\
             active_id (activate (ruleVersionID i) R) = ruleVersionID i
    | Some i, Some _ => committed i = false /\ Good R S M V a'
    | None, None => False
    | None, Some _ => Good R S M V a'
    end) a.
Proof.
  intros HG. pose proof HG as (HK & Ha & Hok). unfold commitRuleApply. apply wp_bind.
  unfold wp at 1, getInflight, gets. pose proof HK as (_ & _ & HM & _). rewrite HM.
  destruct (M !! snap) as [i|] eqn:Hi; [|exact HG].
  destruct (committed i) eqn:Hc; [exact HG|].
  wp_run (on_db_activate R S M V (ruleVersionID i)); [exact HK|].
  intros [e|[]] a1 H1; [split; [done|]; split; [exact H1|by split]|]. destruct H1 as [HK1 Hex].
  wp_run publish_K; [exact HK1|]. intros _ a2 HK2.
  wp_run register_K; [exact HK2|]. intros _ a3 HK3. apply wp_ret.
  pose proof (active_activate (ruleVersionID i) R Hex) as Hact.
  assert (Hoki : ok_info R i) by by apply (Hok snap).
  split; [|exact Hact]. split; [exact HK3|]. split.
  - apply agree_publish. rewrite Hact.
    eapply (table_of_rows Unmarshal IsDomainName R); [by apply rows_activate|].
    apply ok_target; [|done]. by eapply K_pos.
  - apply all_ok_insert; [by eapply all_ok_rows, Hok; apply rows_activate|].
    apply ok_info_committed. eapply ok_info_rows; [by apply rows_activate|done].
Qed.

(** [rollbackRuleApply] keeps the agreement too. *)
Lemma rollback_wp R S M V snap a :
  Good R S M V a ->
  wp (rollbackRuleApply snap) (fun _ a' =>
    (match M !! snap with Some i => committed i = false | None => True end -> K R S M V a') /\
    exists R' S' M', Good R' S' M' V a' /\ dom M' = dom M) a.
Proof.
  intros HG. pose proof HG as (HK & Ha & Hok). unfold rollbackRuleApply. apply wp_bind. unfold wp at 1, getInflight, gets.
  pose proof HK as (HT & HS & HM & HV). rewrite HM.
  assert (Hsame : exists R' S' M', Good R' S' M' V a /\ dom M' = dom M) by (by exists R, S, M).
  destruct (M !! snap) as [i|] eqn:Hi; [|by split].
  destruct (committed i) eqn:Hc; cbn [negb]; [|by split].
  assert (Hoki : ok_info R i) by by apply (Hok snap).
  assert (Hdom : forall b, dom (<[snap := set_committed b i]> M) = dom M).
  { intros b. rewrite dom_insert_L. apply elem_of_dom_2 in Hi. set_solver. }
  apply wp_bind. destruct Hoki as [Htgt Hprior]. unfold table_of in Hprior.
  destruct (priorVersionID i =? 0)%Z eqn:Hz.
  - eapply wp_mono; [apply on_db_clear, HK|]. intros [e|[]] a1 HK1; cbv beta.
    { split; [done|]. exists R, S, M. split; [split; [exact HK1|by split]|done]. }
    wp_run publish_K; [exact HK1|]. intros _ a2 HK2. eapply wp_mono; [apply register_K, HK2|].
    intros ? a3 HK3; cbv beta in HK3. split; [done|]. eexists _, _, _. split; [split; [exact HK3|split]|apply Hdom].
    + apply agree_publish. by rewrite active_no_active.
    + apply all_ok_insert; [by eapply all_ok_rows, Hok; apply rows_no_active|].
      apply ok_info_committed. eapply ok_info_rows; [by apply rows_no_active|by apply (Hok snap)].
  - eapply wp_mono; [apply on_db_activate, HK|]. intros [e|[]] a1 H1; cbv beta.
    { split; [done|]. exists R, S, M. split; [split; [exact H1|by split]|done]. }
    destruct H1 as [HK1 Hex]. wp_run publish_K; [exact HK1|]. intros _ a2 HK2.
    eapply wp_mono; [apply register_K, HK2|]. intros ? a3 HK3; cbv beta in HK3. split; [done|].
    eexists _, _, _. split; [split; [exact HK3|split]|apply Hdom].
    + apply agree_publish. rewrite (active_activate _ _ Hex).
      eapply (table_of_rows Unmarshal IsDomainName R); [by apply rows_activate|]. unfold table_of. by rewrite Hz.
    + apply all_ok_insert; [by eapply all_ok_rows, Hok; apply rows_activate|].
      apply ok_info_committed. eapply ok_info_rows; [by apply rows_activate|by apply (Hok snap)].
Qed.
End activation.

(** ** Preparing an apply *)
Section preparation.
Context `{Unicode} {Value Base : Type} (Unmarshal : bytes -> option (list Rule)) (IsDomainName : bytes -> bool)
  (ParseExit : bytes -> option (gmap bytes Value)) (BaseConfig : option (@Config Value Base)).

Abbreviation parse := (ParseYAML IsDomainName Unmarshal).
Abbreviation Good := (Good Unmarshal IsDomainName).

(** A query on the rule versions, seen from the applier. *)
Lemma on_db_query {A} (f : Table RuleVersion -> res DbErr A) R S M V a :
  K R S M V a ->
  wp (on_db (query (fun d => f (rule_versions d)))) (fun r a' => K R S M V a' /\ (r = Err ErrExec \/ f R = r)) a.
Proof.
  intros (HT & HS & HM & HV). unfold wp, on_db. pose proof (wp_query_full (fun d => f (rule_versions d)) (db a)) as H1.
  unfold wp in H1. destruct (query _ (db a)) as [r d]. destruct H1 as [H1 Hr]. apply eqt_inv in H1 as [l ->].
  split; [split; [by apply tables_stable|done]|]. destruct Hr as [->|[l' Hr]]; [by left|right].
  destruct HT as [_ <-]. exact Hr.
Qed.

Lemma Assemble_wp R S M V a :
  K R S M V a ->
  wp (Assemble Unmarshal IsDomainName ParseExit BaseConfig) (fun r a' => K R S M V a' /\
    match r with
    | Ok _ => forall v, found rv_Active (rows R) = Some v -> exists set, parse (rv_RulesYAML v) = Ok set
    | Err _ => True
    end) a.
Proof.
  intros HK. pose proof (Assemble_K R S M V Unmarshal IsDomainName ParseExit BaseConfig a HK) as Hkeep.
  unfold wp. destruct (Assemble _ _ _ _ a) as [r a'] eqn:E. split; [exact Hkeep|]. destruct r as [|cfg]; [done|].
  unfold Assemble in E. destruct BaseConfig as [base|]; [|done]. unfold ActiveRulesYAML, GetActiveRuleVersion in E.
  pose proof (on_db_query (fun R => one (found rv_Active (rows R))) R S M V a HK) as Hq.
  unfold wp in Hq. unfold bind in E at 1 2.
  destruct (on_db (query (fun d => one (found rv_Active (rows (rule_versions d))))) a) as [q a1].
  destruct Hq as [_ Hq]. intros v Hv. rewrite Hv in Hq. cbn in Hq. unfold ret in E.
  destruct Hq as [->|<-]; [done|]. destruct (parse (rv_RulesYAML v)) as [|set]; [done|]. by exists set.
Qed.

Lemma readPrior_wp R S M V a :
  K R S M V a ->
  (forall v, found rv_Active (rows R) = Some v -> exists set, parse (rv_RulesYAML v) = Ok set) ->
  wp (readPrior Unmarshal IsDomainName) (fun r a' => K R S M V a' /\
    match r with Ok (id, _, t) => table_of Unmarshal IsDomainName R id t | Err _ => True end) a.
Proof.
  intros HK Hp. unfold readPrior, GetActiveRuleVersion.
  wp_run (on_db_query (fun R => one (found rv_Active (rows R))) R S M V a); [exact HK|].
  intros q a1 [HK1 Hq]. apply wp_ret. split; [exact HK1|].
  destruct (found rv_Active (rows R)) as [v|] eqn:Hv; cbn in Hq; destruct Hq as [->|<-]; try done.
  destruct (Hp v eq_refl) as [set Hset]. rewrite Hset. unfold table_of.
  destruct (rv_ID v =? 0)%Z eqn:Hz.
  - apply found_elem in Hv as [Hv _]. pose proof (K_pos _ _ _ _ _ HK) as Hpos. rewrite Forall_forall in Hpos.
    specialize (Hpos v Hv). lia.
  - exists v, set. by apply found_elem in Hv as [Hv _].
Qed.

Lemma wp_keeps_bind {A B} (m : AP A) (f : A -> AP B) Q R S M V a :
  keeps (K R S M V) m -> K R S M V a ->
  (forall x a', K R S M V a' -> wp (f x) Q a') -> wp (bind m f) Q a.
Proof. intros Hm HK Hf. apply wp_bind. eapply wp_mono; [by apply (keeps_wp (K R S M V))|]. exact Hf. Qed.

Lemma prepareRules_wp snap rv prev R S M V a :
  Good R S M V a ->
  wp (prepareRules Unmarshal IsDomainName ParseExit BaseConfig snap rv prev) (fun r a' =>
    match r with
    | Err _ => Good R S M V a'
    | Ok (_, sid, _) => exists i, Good R S (<[snap := i]> M) V a' /\
        ruleVersionID i = rv /\ committed i = false /\ statusID i = sid
    end) a.
Proof.
  intros (HK & Ha & Hok). unfold prepareRules, db_try, GetRuleVersionByID, bindE.
  apply wp_bind. wp_run (on_db_query (fun R => one (found (fun r => rv_ID r == rv) (rows R))) R S M V a); [exact HK|].
  intros q a1 [HK1 Hq]. apply wp_ret. destruct q as [e|target]; [by split|].
  destruct Hq as [|Hq]; [done|].
  destruct (found (fun r => rv_ID r == rv) (rows R)) as [v|] eqn:Hv; [|done]. injection Hq as ->.
  apply found_elem in Hv as [Hv Hid]. apply bool_decide_eq_true in Hid.
  destruct (rv_SnapshotID target != snap); [by split|].
  destruct (parse (rv_RulesYAML target)) as [|set] eqn:Hset; [by split|].
  destruct (RuleSet_Validate IsDomainName set); [by split|].
  wp_run Assemble_wp; [exact HK1|]. intros [|cfg] a2 [HK2 Hact]; [by split|].
  wp_run readPrior_wp; [exact HK2|exact Hact|]. intros [|[[pid psnap] pt]] a3 [HK3 Hprior]; [by split|].
  destruct (_ && _); [by split|].
  apply wp_bind. eapply wp_keeps_bind; [apply on_db_K, InsertApplyStatus_tables|exact HK3|]. clear a3 HK3.
  intros q a3 HK3. apply wp_ret. destruct q as [e|sid]; [by split|].
  eapply wp_keeps_bind; [apply clearTerminalStatus_K|exact HK3|]. intros _ a4 HK4.
  wp_run register_K; [exact HK4|]. intros _ a5 HK5. apply wp_ret.
  eexists. split; [split; [exact HK5|]|done]. split; [exact Ha|]. apply all_ok_insert; [done|].
  split; [|exact Hprior]. by exists target, set.
Qed.
End preparation.

(** ** ApplyRules *)
Section apply_rules.
Context `{Unicode} {Value Base : Type} (Unmarshal : bytes -> option (list Rule)) (IsDomainName : bytes -> bool)
  (ParseExit : bytes -> option (gmap bytes Value)) (text : AErr -> bytes)
  (orch : @Orch Value Base) `{!OrchLaws orch} (BaseConfig : option (@Config Value Base)).

Abbreviation Good := (Good Unmarshal IsDomainName).
Abbreviation W := (World (@Config Value Base) App).

Lemma wp_on_cp {A} (m : AP A) (Q : A -> W -> Prop) w :
  wp m (fun x c => Q x (upd_cp c w)) (cp w) -> wp (on_cp m) Q w.
Proof. unfold wp, on_cp. by destruct (m (cp w)). Qed.

Lemma Good_delete R S M V snap a : Good R S M V a -> wp (clearInflight snap) (fun _ => Good R S (delete snap M) V) a.
Proof.
  intros (HK & Ha & Hok). eapply wp_mono; [apply clear_K, HK|]. cbv beta. intros _ a' HK'.
  split; [exact HK'|]. split; [exact Ha|]. by apply map_Forall_delete.
Qed.

Lemma Good_keeps {A} (m : AP A) R S M V : keeps (K R S M V) m -> keeps (Good R S M V) m.
Proof. intros Hm a (HK & Ha & Hok). split; [by apply Hm|done]. Qed.

Lemma finish_wp R S M V sid snap st r (w : W) :
  Good R S M V (cp w) ->
  wp (finish sid snap st r) (fun _ w' => Good R S (delete snap M) V (cp w')) w.
Proof.
  intros HG. apply wp_on_cp. apply wp_bind. eapply wp_mono.
  { apply (keeps_wp (Good R S M V)); [apply Good_keeps, persistApplyStatus_K|exact HG]. }
  intros ? a HG1; cbv beta in HG1. by apply Good_delete.
Qed.

Lemma callback_commits snap (req : ApplyRequest (@Config Value Base) App) c c' :
  Commit req = Some (commit_callback snap) -> commits req c c' -> commitRuleApply snap c = (None, c').
Proof.
  unfold commits, commit_callback. intros ->. by destruct (commitRuleApply snap c) as [[e|] a]; intros ?; simplify_eq.
Qed.

Lemma callback_refuses snap (req : ApplyRequest (@Config Value Base) App) c c' :
  Commit req = Some (commit_callback snap) -> refuses req c c' -> exists e, commitRuleApply snap c = (Some e, c').
Proof.
  unfold refuses, commit_callback. intros -> (f & [= <-] & E).
  destruct (commitRuleApply snap c) as [[e|] a]; simplify_eq. by exists e.
Qed.

(** How a dispatch leaves the control plane: nothing decided yet, the
    version active, or everything as it was. *)
Definition dispatched R S M V snap i (p : CResult * option AErr * bool) (w' : W) : Prop :=
  let '(r, e, over) := p in
  if over then
    match e with
    | None => Good (activate (ruleVersionID i) R) (Publish (Some (targetTable i)) <$> S) (delete snap M) V (cp w') /\
              active_id (activate (ruleVersionID i) R) = ruleVersionID i /\ r_Health r = HealthOK
    | Some _ => Good R S (delete snap M) V (cp w')
    end
  else e = None /\ r_Health r = HealthObserving /\ Good R S M V (cp w').

Lemma dispatchRules_wp R S M V snap i cfg ps w :
  Good R S M V (cp w) -> M !! snap = Some i -> committed i = false ->
  wp (dispatchRules text orch snap (ruleVersionID i) cfg (statusID i) ps) (dispatched R S M V snap i) w.
Proof.
  intros HG Hi Hc. unfold dispatchRules. wp_run law_apply. intros [[res e] bg] w1 H1.
  assert (Herr : err e = true -> Good R S M V (cp w1)).
  { intros Ee. rewrite Ee in H1. destruct H1 as [->|H1]; [exact HG|].
    apply (callback_refuses snap) in H1 as [e' H1]; [|done].
    pose proof (wp_elim _ _ _ _ _ (commit_wp _ _ _ _ _ _ snap _ HG) H1) as Hw. rewrite Hi in Hw. apply Hw. }
  destruct (is_in_flight e) eqn:Hfl.
  { assert (Ee : err e = true) by by destruct e. wp_run finish_wp; [by apply Herr|].
    intros _ w2 HG2. by apply wp_ret. }
  destruct (err e) eqn:Ee.
  { wp_run finish_wp; [by apply Herr|]. intros _ w2 HG2. by apply wp_ret. }
  destruct H1 as [Hrb [[Hh Hcp]|[Hh Hcm]]]; rewrite Hh.
  { apply wp_ret. unfold dispatched. cbn. by rewrite Hcp. }
  apply (callback_commits snap) in Hcm; [|done].
  pose proof (wp_elim _ _ _ _ _ (commit_wp _ _ _ _ _ _ snap _ HG) Hcm) as Hw. rewrite Hi, Hc in Hw.
  destruct Hw as [HG1 Hact]. unfold applyTerminalState. rewrite Hrb, Hh.
  apply wp_bind, wp_on_cp. eapply wp_mono; [apply commit_wp, HG1|]. intros ce a2. rewrite lookup_insert_eq. cbn.
  destruct ce as [|]; [by intros [? _]|]. intros HG2. wp_run finish_wp; [exact HG2|].
  intros _ w3 HG3. apply wp_ret. rewrite delete_insert_eq in HG3. by split.
Qed.

Lemma begin_wp R S M V a :
  Good R S M V a ->
  wp beginVariation (fun free a' => free = negb V /\ if V then a' = a else Good R S M true a') a.
Proof.
  intros ((HT & HS & HM & HV) & Ha & Hok). unfold wp, beginVariation. rewrite HV. by destruct V.
Qed.

Lemma end_wp R S M V a : Good R S M V a -> wp endVariation (fun _ => Good R S M false) a.
Proof. intros ((HT & HS & HM & HV) & Ha & Hok). by split. Qed.

(** What an [ApplyRules] leaves. *)
Definition applied R S M snap rv (r : CResult) (e : option AErr) (w' : W) : Prop :=
  match e with
  | None =>
      if bool_decide (r_Health r = HealthObserving) then
        exists i, Good R S (<[snap := i]> M) true (cp w') /\ ruleVersionID i = rv /\ committed i = false
      else exists S' M', Good (activate rv R) S' M' false (cp w') /\ active_id (activate rv R) = rv
  | Some _ => exists M', Good R S M' false (cp w')
  end.

Lemma ApplyRules_wp R S M snap rv prev w :
  Good R S M false (cp w) ->
  wp (ApplyRules Unmarshal IsDomainName ParseExit text orch BaseConfig snap rv prev)
    (fun '(r, e) w' => applied R S M snap rv r e w') w.
Proof.
  intros HG. unfold ApplyRules. apply wp_bind, wp_on_cp. eapply wp_mono; [apply begin_wp, HG|].
  intros free a1 [-> HG1]. cbn [negb].
  apply wp_bind, wp_on_cp. eapply wp_mono; [apply prepareRules_wp, HG1|].
  intros [e|[[cfg sid] ps]] a2 H2.
  - apply wp_bind, wp_on_cp. eapply wp_mono; [eapply end_wp, H2|]. intros ? a3 H3; cbv beta in H3.
    apply wp_ret. by exists M.
  - destruct H2 as (i & HG2 & <- & Hc & <-).
    wp_run (dispatchRules_wp R S (<[snap := i]> M) true snap i cfg ps); [exact HG2|apply lookup_insert_eq|exact Hc|].
    intros [[r e] over] w3 H3. unfold dispatched in H3. rewrite delete_insert_eq in H3. destruct over.
    + apply wp_bind, wp_on_cp. destruct e as [e|].
      * eapply wp_mono; [eapply end_wp, H3|]. intros ? a HG4; cbv beta in HG4. apply wp_ret.
        by exists (delete snap M).
      * destruct H3 as (H3 & Hact & Hh). eapply wp_mono; [eapply end_wp, H3|]. intros ? a HG4; cbv beta in HG4.
        apply wp_ret. unfold applied. rewrite Hh. cbn. eexists _, _. split; [exact HG4|exact Hact].
    + destruct H3 as (-> & Hh & HG3). do 2 apply wp_ret. unfold applied. rewrite Hh. cbn. by exists i.
Qed.

(** The control plane is in order. *)
Definition Safe (a : App) : Prop := exists R S M V, Good R S M V a.

Lemma Safe_intro R S M V a : Good R S M V a -> Safe a.
Proof. by exists R, S, M, V. Qed.

Lemma keeps_Safe {A} (m : AP A) : (forall R S M V, keeps (K R S M V) m) -> keeps Safe m.
Proof. intros Hm a (R & S & M & V & HG). exists R, S, M, V. by apply Good_keeps. Qed.

Lemma on_cp_Safe {A} (m : AP A) : keeps Safe m -> keeps (fun w : W => Safe (cp w)) (on_cp m).
Proof. intros Hm w Hw. unfold on_cp. specialize (Hm _ Hw). by destruct (m (cp w)). Qed.

(** The end of a health observation of an apply. *)
Lemma OnHealth_end R S M V i snap st r a :
  Good R S M V a ->
  wp (let! _ := persistApplyStatus (statusID i) snap st r in
      let! _ := clearInflight snap in
      let! _ := audit_rules snap st r in
      endVariation) (fun _ => Good R S (delete snap M) false) a.
Proof.
  intros HG. apply wp_bind. eapply wp_mono.
  { apply (keeps_wp (Good R S M V)); [apply Good_keeps, persistApplyStatus_K|exact HG]. }
  intros ? a1 HG1; cbv beta in HG1. wp_run Good_delete; [exact HG1|]. intros _ a2 HG2.
  apply wp_bind. eapply wp_mono.
  { apply (keeps_wp (Good R S (delete snap M) V)); [apply Good_keeps, audit_rules_K|exact HG2]. }
  intros ? a3 HG3; cbv beta in HG3. by eapply end_wp.
Qed.

(** A verdict on the apply of an entry: the variation ends, the entry is
    gone, and an entry not committed yet is activated or leaves all alone. *)
Definition judged R S M snap i st (a : App) : Prop :=
  (exists R' S' M', Good R' S' M' false a /\ M' !! snap = None) /\
  (committed i = false ->
   Good R S (delete snap M) false a \/
   st = Confirmed /\ Good (activate (ruleVersionID i) R) (Publish (Some (targetTable i)) <$> S) (delete snap M) false a).

Lemma OnHealth_wp R S M V i snap res (w : W) :
  Good R S M V (cp w) -> switchInflight (cp w) !! snap = None -> M !! snap = Some i ->
  wp (OnHealth text orch snap res) (fun _ w' => judged R S M snap i (applyTerminalState res) (cp w')) w.
Proof.
  intros HG Hsw Hi. unfold OnHealth. apply wp_bind, wp_on_cp. unfold wp at 1, takeSwitchInflight. rewrite Hsw.
  apply wp_bind, wp_on_cp. unfold wp at 1, getInflight, gets.
  assert (HM : inflight (cp w) = M) by apply HG.
  change (inflight (cp (upd_cp (cp w) w))) with (inflight (cp w)). rewrite HM, Hi.
  set (w1 := upd_cp _ _). assert (HG1 : Good R S M V (cp w1)) by exact HG. clearbody w1. clear HG Hsw HM w.
  assert (Hend : forall R' S' M' st r (w' : W), Good R' S' M' V (cp w') ->
    wp (on_cp (let! _ := persistApplyStatus (statusID i) snap st r in
        let! _ := clearInflight snap in let! _ := audit_rules snap st r in endVariation))
      (fun _ w'' => Good R' S' (delete snap M') false (cp w'')) w').
  { intros. apply wp_on_cp. by eapply OnHealth_end. }
  assert (Hdone : forall R' S' M' (c : App), Good R' S' (delete snap M') false c ->
    exists R' S' M', Good R' S' M' false c /\ M' !! snap = None).
  { intros R' S' M' c Hc. exists R', S', (delete snap M'). split; [exact Hc|apply lookup_delete_eq]. }
  apply wp_bind. destruct (applyTerminalState res) eqn:Hst.
  - apply wp_ret. eapply wp_mono; [apply Hend, HG1|]. intros ? w2 HG2; cbv beta in HG2. split; [by eapply Hdone|]. by left.
  - apply wp_bind, wp_on_cp. eapply wp_mono; [apply commit_wp, HG1|]. rewrite Hi. intros ce a2 H2.
    destruct ce as [e|].
    + destruct H2 as [Hc HG2]. wp_run law_rollback. intros re w3 Hw3. apply wp_ret.
      assert (HG3 : Good R S M V (cp w3)) by (rewrite Hw3; exact HG2).
      destruct (err re); (eapply wp_mono; [apply Hend, HG3|]); intros ? w4 HG4; cbv beta in HG4;
        (split; [by eapply Hdone|]); by left.
    + apply wp_ret. destruct (committed i) eqn:Hc.
      * eapply wp_mono; [apply Hend, H2|]. intros ? w4 HG4; cbv beta in HG4. split; [by eapply Hdone|]. congruence.
      * destruct H2 as [HG2 _]. eapply wp_mono; [apply Hend, HG2|]. intros ? w4 HG4; cbv beta in HG4.
        rewrite delete_insert_eq in HG4. split; [by eapply Hdone|]. right. by split.
  - apply wp_bind, wp_on_cp. eapply wp_mono; [apply rollback_wp, HG1|]. rewrite Hi.
    intros ? a2 H2; cbv beta in H2. destruct H2 as [Hsame (R' & S' & M' & HG2 & Hdom)]. apply wp_ret.
    destruct (committed i) eqn:Hc.
    + eapply wp_mono; [apply Hend, HG2|]. intros ? w4 HG4; cbv beta in HG4. split; [by eapply Hdone|]. congruence.
    + eapply wp_mono; [apply Hend; split; [by apply Hsame|apply HG1]|]. intros ? w4 HG4; cbv beta in HG4.
      split; [by eapply Hdone|]. by left.
  - apply wp_ret. eapply wp_mono; [apply Hend, HG1|]. intros ? w2 HG2; cbv beta in HG2. split; [by eapply Hdone|]. by left.
Qed.
End apply_rules.

(** ** Every call *)
Section calls.
Context `{Unicode} {Value Base : Type} (Unmarshal : bytes -> option (list Rule)) (IsDomainName : bytes -> bool)
  (ParseExit : bytes -> option (gmap bytes Value)) (text : AErr -> bytes)
  (orch : @Orch Value Base) `{!OrchLaws orch} (BaseConfig : option (@Config Value Base)).

Abbreviation Good := (Good Unmarshal IsDomainName).
Abbreviation Safe := (Safe Unmarshal IsDomainName).
Abbreviation W := (World (@Config Value Base) App).
Abbreviation parse := (ParseYAML IsDomainName Unmarshal).
Abbreviation agree := (agree Unmarshal IsDomainName).

Inductive Call :=
| CApplyRules (snapshotID ruleVersionID prevSnapshot : Z)
| CImportRules (rulesYAML actor : bytes)
| CSwitchExit (exitID : bytes) (nano : Z)
| CDeleteExit (exitID : bytes)
| COnHealth (snapshotID : Z) (res : ApplyResult).

Definition run_call (c : Call) : ST W unit :=
  match c with
  | CApplyRules s r p => let! _ := ApplyRules Unmarshal IsDomainName ParseExit text orch BaseConfig s r p in ret tt
  | CImportRules y a => let! _ := ImportRules Unmarshal IsDomainName ParseExit text orch BaseConfig y a in ret tt
  | CSwitchExit e n => let! _ := SwitchExit Unmarshal IsDomainName ParseExit text orch BaseConfig e n in ret tt
  | CDeleteExit e => let! _ := on_cp (DeleteExit_ e) in ret tt
  | COnHealth s r => OnHealth text orch s r
  end.

Definition SafeW (w : W) : Prop := Safe (cp w).

Lemma keeps_SafeW {A} (m : AP A) : (forall R S M V, keeps (K R S M V) m) -> keeps SafeW (on_cp m).
Proof. intros Hm. apply on_cp_Safe, keeps_Safe, Hm. Qed.

Lemma beginVariation_Safe : keeps Safe beginVariation.
Proof.
  intros a (R & S & M & V & HG). pose proof (begin_wp _ _ R S M V a HG) as Hb. unfold wp in Hb.
  destruct (beginVariation a) as [free a']. destruct Hb as [_ Hb]. destruct V; [subst|]; by eapply Safe_intro.
Qed.

Lemma endVariation_Safe : keeps Safe endVariation.
Proof. intros a (R & S & M & V & HG). eapply Safe_intro. exact (end_wp _ _ R S M V a HG). Qed.

Lemma ApplyRules_Safe s r p : keeps SafeW (ApplyRules Unmarshal IsDomainName ParseExit text orch BaseConfig s r p).
Proof.
  intros w (R & S & M & V & HG). destruct V.
  - unfold ApplyRules, bind, on_cp, beginVariation. assert (HV : variationActive (cp w) = true) by apply HG.
    rewrite HV. cbn. by exists R, S, M, true.
  - pose proof (ApplyRules_wp _ _ ParseExit text orch BaseConfig R S M s r p w HG) as H1. unfold wp in H1.
    destruct (ApplyRules _ _ _ _ _ _ _ _ _ w) as [[res e] w']. unfold applied in H1. cbn. destruct e.
    + destruct H1 as [M' H1]. by eapply Safe_intro.
    + case_bool_decide; [destruct H1 as (i & H1 & _)|destruct H1 as (S' & M' & H1 & _)]; by eapply Safe_intro.
Qed.

(** A rule version added inactive. *)
Definition extends (R R' : Table RuleVersion) : Prop :=
  exists l, rows R' = rows R ++ l /\ Forall (fun v => rv_Active v = false) l.

Lemma found_app {A} (P : A -> bool) l l' :
  found P (l ++ l') = match found P l with Some x => Some x | None => found P l' end.
Proof. induction l as [|x l IH]; [done|]. cbn [app]. rewrite !found_cons. by destruct (P x). Qed.

Lemma found_Forall_false {A} (P : A -> bool) l : Forall (fun x => P x = false) l -> found P l = None.
Proof. induction 1 as [|x l Hx _ IH]; [done|]. by rewrite found_cons, Hx. Qed.

Lemma extends_active R R' : extends R R' -> active_id R' = active_id R.
Proof.
  intros (l & HR & Hl). unfold active_id. rewrite HR, found_app.
  destruct (found rv_Active (rows R)); [done|]. by rewrite found_Forall_false.
Qed.

Lemma extends_Good R R' S M V a :
  extends R R' -> K R' S M V a -> agree R S -> all_ok Unmarshal IsDomainName R M -> Good R' S M V a.
Proof.
  intros HE HK Ha Hok.
  assert (HR : forall v, v ∈ rows R -> exists v', v' ∈ rows R' /\ rv_ID v' = rv_ID v /\ rv_RulesYAML v' = rv_RulesYAML v).
  { intros v Hv. exists v. split; [|done]. destruct HE as (l & -> & _). apply elem_of_app. by left. }
  split; [exact HK|]. split; [|by eapply all_ok_rows].
  intros s t Hs Ht. rewrite (extends_active R R' HE). eapply table_of_rows; [exact HR|]. by apply (Ha s).
Qed.

Lemma InsertRuleVersion_Safe s y : keeps Safe (on_db (InsertRuleVersion s y false)).
Proof.
  intros a (R & S & M & V & HG). pose proof HG as ((HT & HS & HM & HV) & Ha & Hok). unfold on_db.
  assert (HE : keeps (fun d => extends R (rule_versions d)) (InsertRuleVersion s y false)).
  { assert (Hst : stable (fun d => extends R (rule_versions d))) by (intros ? ? ?; done).
    unfold InsertRuleVersion. apply keeps_tx; [exact Hst|]. apply keeps_bindE; [apply keeps_ret|]. intros _.
    apply keeps_bindE; [apply keeps_exec; [exact Hst|]|intros; apply keeps_bindE; [by apply keeps_fallible|intros; apply keeps_ret]].
    intros d i d' E (l & HR & Hl). destruct (_ && _); [|done]. injection E as _ <-. cbn.
    unfold extends. cbn. eexists. rewrite HR, <- app_assoc. split; [reflexivity|]. apply Forall_app. split; [done|]. by repeat constructor. }
  specialize (HE (db a)). pose proof (InsertRuleVersion_keeps (false, []) s y false (db a) (proj1 HT)) as Hi.
  destruct (InsertRuleVersion s y false (db a)) as [r d]. cbn in *.
  assert (HER : extends R (rule_versions d)).
  { apply HE. exists []. destruct HT as [_ ->]. rewrite app_nil_r. split; [done|constructor]. }
  eapply Safe_intro, (extends_Good R (rule_versions d) S M V); [exact HER| |exact Ha|exact Hok].
  split; [split; [exact Hi|done]|done].
Qed.

Lemma ImportRules_Safe y a : keeps SafeW (ImportRules Unmarshal IsDomainName ParseExit text orch BaseConfig y a).
Proof.
  unfold ImportRules. destruct (parse y) as [|set]; [apply keeps_ret|].
  destruct (RuleSet_Validate IsDomainName set); [apply keeps_ret|].
  apply keeps_bind.
  - apply on_cp_Safe. apply keeps_bindE; [apply keeps_Safe; intros; apply db_try_K, InsertSnapshot_tables|].
    intros snap. apply keeps_bindE.
    + unfold db_try. apply keeps_bind; [apply InsertRuleVersion_Safe|intros; apply keeps_ret].
    + intros rv. apply keeps_bind; [|intros; apply keeps_ret].
      apply keeps_Safe. intros. apply on_db_K, AppendAudit_tables.
  - intros [e|[snap rv]]; [apply keeps_ret|apply ApplyRules_Safe].
Qed.

(** A data-plane call without a commit leaves the control plane alone. *)
Lemma apply_no_commit (req : ApplyRequest (@Config Value Base) App) :
  Commit req = None -> keeps SafeW (orch_Apply orch req).
Proof.
  intros Hc w Hw. unfold SafeW in *. pose proof (law_apply (orch := orch) req w) as Hl. unfold wp in Hl.
  destruct (orch_Apply orch req w) as [[[r e] bg] w']. cbn. unfold commits, refuses in Hl. rewrite Hc in Hl.
  destruct (err e).
  - destruct Hl as [->|(f & ? & _)]; [exact Hw|done].
  - destruct Hl as [_ [[_ ->]|[_ ->]]]; exact Hw.
Qed.

Lemma SwitchExit_Safe e n : keeps SafeW (SwitchExit Unmarshal IsDomainName ParseExit text orch BaseConfig e n).
Proof.
  unfold SwitchExit. destruct (e == []); [apply keeps_ret|].
  apply keeps_bind; [apply on_cp_Safe, beginVariation_Safe|]. intros free.
  destruct (negb free); [apply keeps_ret|].
  apply keeps_bind; [apply keeps_SafeW; intros; apply ActiveID_K|]. intros [er|prior].
  { apply keeps_bind; [apply on_cp_Safe, endVariation_Safe|intros; apply keeps_ret]. }
  apply keeps_bind; [apply keeps_SafeW; intros; apply protect_K|]. intros _.
  apply keeps_bind; [apply keeps_SafeW; intros; apply prepareSwitch_K|]. intros q.
  apply keeps_bind.
  - destruct q as [er|[[cfg snap] sid]]; [apply keeps_ret|]. unfold dispatchSwitch.
    apply keeps_bind; [by apply apply_no_commit|]. intros [[res er] bg].
    assert (Hfail : forall st r1 r2, keeps SafeW (on_cp (
      let! _ := clearSwitchInflight snap in
      let! (state, restoreErr) := compensateSwitch text prior r1 st in
      let! _ := persistApplyStatus sid snap state (r2 restoreErr) in
      ret (join (AEOrch er) restoreErr)))).
    { intros st r1 r2. apply keeps_SafeW. intros. apply keeps_bind; [apply clearSwitch_K|]. intros _.
      apply keeps_bind; [apply compensateSwitch_K|]. intros [st' re].
      apply keeps_bind; [apply persistApplyStatus_K|intros; apply keeps_ret]. }
    destruct (is_in_flight er).
    { apply keeps_bind; [apply (Hfail _ _ (fun _ => str "apply-in-flight"))|intros; apply keeps_ret]. }
    destruct (err er).
    { apply keeps_bind; [apply (Hfail _ _ (fun re => text (join (AEOrch er) re)))|intros; apply keeps_ret]. }
    destruct (health res); try apply keeps_ret;
      (apply keeps_bind; [apply keeps_SafeW; intros; apply switchVerdict_K|intros; apply keeps_ret]).
  - intros [[r er] over]. apply keeps_bind; [|intros; apply keeps_ret]. destruct over; [|apply keeps_ret].
    apply on_cp_Safe. apply keeps_bind; [apply keeps_Safe; intros; apply unprotect_K|intros; apply endVariation_Safe].
Qed.

Lemma OnHealth_Safe s r : keeps SafeW (OnHealth text orch s r).
Proof.
  intros w Hw. destruct Hw as (R & S & M & V & HG).
  destruct (switchInflight (cp w) !! s) as [info|] eqn:Hsw; [|destruct (M !! s) as [i|] eqn:Hi].
  - unfold OnHealth, bind at 1, on_cp at 1, takeSwitchInflight. rewrite Hsw.
    assert (HK : keeps SafeW (on_cp (let! _ := finalizeSwitchOnHealth text s r info in endVariation) : ST W unit)).
    { apply on_cp_Safe. apply keeps_bind; [apply keeps_Safe; intros; apply finalizeSwitch_K|intros; apply endVariation_Safe]. }
    apply HK. unfold SafeW. cbn. exists R, S, M, V. exact HG.
  - pose proof (OnHealth_wp _ _ text orch R S M V i s r w HG Hsw Hi) as H1. unfold wp in H1.
    destruct (OnHealth text orch s r w) as [[] w']. destruct H1 as [(R' & S' & M' & H1 & _) _].
    by eapply Safe_intro.
  - unfold OnHealth, bind, on_cp, takeSwitchInflight, getInflight, gets. rewrite Hsw. cbn.
    assert (HM : inflight (cp w) = M) by apply HG. rewrite HM, Hi. cbn. by exists R, S, M, V.
Qed.

Lemma run_call_Safe c : keeps SafeW (run_call c).
Proof.
  destruct c; cbn [run_call].
  - apply keeps_bind; [apply ApplyRules_Safe|intros; apply keeps_ret].
  - apply keeps_bind; [apply ImportRules_Safe|intros; apply keeps_ret].
  - apply keeps_bind; [apply SwitchExit_Safe|intros; apply keeps_ret].
  - apply keeps_bind; [apply keeps_SafeW; intros; apply DeleteExit_K|intros; apply keeps_ret].
  - apply OnHealth_Safe.
Qed.
End calls.

(** ** Theorems *)
Section theorems.
Context `{Unicode} {Value Base : Type} (Unmarshal : bytes -> option (list Rule)) (IsDomainName : bytes -> bool)
  (ParseExit : bytes -> option (gmap bytes Value)) (text : AErr -> bytes)
  (orch : @Orch Value Base) `{!OrchLaws orch} (BaseConfig : option (@Config Value Base)).

Abbreviation Safe := (Safe Unmarshal IsDomainName).
Abbreviation W := (World (@Config Value Base) App).
Abbreviation parse := (ParseYAML IsDomainName Unmarshal).
Abbreviation run_call := (run_call Unmarshal IsDomainName ParseExit text orch BaseConfig).
Abbreviation ApplyRules := (ApplyRules Unmarshal IsDomainName ParseExit text orch BaseConfig).
Abbreviation SwitchExit := (SwitchExit Unmarshal IsDomainName ParseExit text orch BaseConfig).

(** The rules of the active version: none when there is none. *)
Definition active_rules (a : App) : option (list Rule) :=
  match found rv_Active (rows (rule_versions (db a))) with
  | None => Some []
  | Some v => match parse (rv_RulesYAML v) with Ok set => Some set | Err _ => None end
  end.

Lemma compiled_classify t rs q : compiled t rs -> classify (Some t) q = classify (Some (BuildTable rs)) q.
Proof.
  intros Hc. change (classify (Some (set_Generation 0 t)) q = classify (Some (set_Generation 0 (BuildTable rs))) q).
  by rewrite Hc.
Qed.

Lemma Safe_serves a s t :
  Safe a -> resolver a = Some s -> cur s = Some t ->
  exists rs, active_rules a = Some rs /\ forall q, classify (Load s) q = classify (Some (BuildTable rs)) q.
Proof.
  intros (R & S & M & V & HK & Ha & _) Hs Ht. pose proof HK as ([Hwf HR] & HS & _).
  specialize (Ha s t (eq_trans (eq_sym HS) Hs) Ht). unfold active_rules. rewrite HR.
  unfold active_id, table_of in Ha. destruct (found rv_Active (rows R)) as [v|] eqn:Hv.
  - apply found_elem in Hv as [Hin _]. pose proof (K_pos _ _ _ _ _ HK) as Hpos. rewrite Forall_forall in Hpos.
    specialize (Hpos v Hin). destruct (Z.eqb_spec (rv_ID v) 0); [lia|].
    destruct Ha as (v' & set & Hin' & Hid & Hp & Hc). destruct Hwf as [Hwf _].
    destruct (wf_rules _ Hwf) as (_ & Hn & _). rewrite HR in Hn.
    rewrite (NoDup_key_eq rv_ID _ v' v Hn Hin' Hin Hid) in Hp. rewrite Hp. exists set. split; [done|].
    intros q. unfold Load. rewrite Ht. by apply compiled_classify.
  - exists []. split; [done|]. intros q. unfold Load. rewrite Ht. by apply compiled_classify.
Qed.

(** C8: After every sequence of applies, imports, exit switches, exit
    deletions and health verdicts, with any database statement and any step
    of the data plane failing, the resolver answers every name as the rule
    version does that the database holds active. *)
Theorem resolver_agrees w calls s t :
  Safe (cp w) ->
  let a := cp (foldl (fun w c => snd (run_call c w)) w calls) in
  resolver a = Some s -> Load s = Some t ->
  exists rs, active_rules a = Some rs /\ forall q, classify (Load s) q = classify (Some (BuildTable rs)) q.
Proof.
  intros Hw a. apply Safe_serves. unfold a. clear a. revert w Hw.
  induction calls as [|c calls IH]; intros w Hw; [exact Hw|]. cbn. apply IH.
  exact (run_call_Safe Unmarshal IsDomainName ParseExit text orch BaseConfig c w Hw).
Qed.

(** An [ApplyRules] that is let in either has its version active and
    ends the change, or reports an error, leaves rule versions and resolver
    as they were and ends the change, or goes into observation with both
    untouched; while it is observed every other apply and switch is refused
    without effect. *)
Theorem ApplyRules_outcome w snap rv prev res e w' :
  Safe (cp w) -> variationActive (cp w) = false -> ApplyRules snap rv prev w = ((res, e), w') ->
  let observing := bool_decide (e = None /\ r_Health res = HealthObserving) in
  variationActive (cp w') = observing /\
  (if observing then
     rule_versions (db (cp w')) = rule_versions (db (cp w)) /\ resolver (cp w') = resolver (cp w) /\
     (forall s r p, ApplyRules s r p w' = ((no_result, Some AEInFlight), w')) /\
     (forall x n, x <> [] -> SwitchExit x n w' = ((no_result, Some AEInFlight), w'))
   else match e with
        | Some _ => rule_versions (db (cp w')) = rule_versions (db (cp w)) /\ resolver (cp w') = resolver (cp w)
        | None => active_id (rule_versions (db (cp w'))) = rv
        end).
Proof.
  intros (R & S & M & V & HG) HV E. assert (V = false) as -> by (rewrite <- HV; symmetry; apply HG).
  pose proof (wp_elim _ _ _ _ _ (ApplyRules_wp _ _ ParseExit text orch BaseConfig R S M snap rv prev w HG) E) as H1.
  cbv beta iota in H1. unfold applied in H1.
  assert (HR : forall R' S' M' V' (c : App), Good Unmarshal IsDomainName R' S' M' V' c ->
    rule_versions (db c) = R' /\ resolver c = S' /\ variationActive c = V').
  { intros R' S' M' V' c ((Ht & ? & ? & ?) & _). split; [apply Ht|done]. }
  destruct (HR _ _ _ _ _ HG) as (-> & -> & _). intros observing. unfold observing. destruct e as [e|].
  - destruct H1 as [M' H1]. destruct (HR _ _ _ _ _ H1) as (-> & -> & ->).
    rewrite bool_decide_false by naive_solver. done.
  - destruct (bool_decide_reflect (r_Health res = HealthObserving)) as [Hh|Hh].
    + destruct H1 as (i & H1 & _). destruct (HR _ _ _ _ _ H1) as (-> & -> & HV').
      rewrite bool_decide_true by done. split; [exact HV'|]. split; [done|]. split; [done|].
      assert (Hb : forall A (f : bool -> ST W A), (let! free := on_cp beginVariation in f free) w' = f false w').
      { intros A f. unfold bind, on_cp, beginVariation. rewrite HV'. f_equal. by destruct w'. }
      split; [intros s r p; apply Hb|]. intros x n Hx. unfold Applier.SwitchExit. rewrite bool_decide_false by done.
      apply Hb.
    + destruct H1 as (S' & M' & H1 & Hact). destruct (HR _ _ _ _ _ H1) as (-> & _ & ->).
      by rewrite bool_decide_false by naive_solver.
Qed.

(** The verdict of the health observation ends an apply: its in-flight
    entry is gone and the next change is let in.  An apply that was not
    committed before is active afterwards if the verdict is good and its
    activation works; in every other case rule versions and resolver are as
    before the verdict. *)
Theorem OnHealth_outcome w snap i res w' :
  Safe (cp w) -> inflight (cp w) !! snap = Some i -> switchInflight (cp w) !! snap = None ->
  OnHealth text orch snap res w = (tt, w') ->
  variationActive (cp w') = false /\ inflight (cp w') !! snap = None /\
  (committed i = false ->
   rule_versions (db (cp w')) = rule_versions (db (cp w)) /\ resolver (cp w') = resolver (cp w) \/
   applyTerminalState res = Confirmed /\ active_id (rule_versions (db (cp w'))) = ruleVersionID i).
Proof.
  intros (R & S & M & V & HG) Hi Hsw E.
  assert (HR : forall R' S' M' V' (c : App), Good Unmarshal IsDomainName R' S' M' V' c ->
    rule_versions (db c) = R' /\ resolver c = S' /\ inflight c = M' /\ variationActive c = V').
  { intros R' S' M' V' c ((Ht & ? & ? & ?) & _). split; [apply Ht|done]. }
  destruct (HR _ _ _ _ _ HG) as (HRr & HSs & HM & _). rewrite HM in Hi.
  pose proof (wp_elim _ _ _ _ _ (OnHealth_wp _ _ text orch R S M V i snap res w HG Hsw Hi) E) as
    [(R' & S' & M' & H1 & Hgone) H2].
  destruct (HR _ _ _ _ _ H1) as (_ & _ & HM' & HV'). split; [exact HV'|]. split; [by rewrite HM'|].
  intros Hc. destruct (H2 Hc) as [H3|[Hst H3]]; destruct (HR _ _ _ _ _ H3) as (-> & -> & _).
  - left. by rewrite HRr, HSs.
  - right. split; [exact Hst|]. apply active_activate. destruct HG as (_ & _ & Hok).
    destruct (Hok snap i Hi) as [(v & set & Hv & Hid & _) _]. by exists v.
Qed.
End theorems.

(** ** Witnesses *)
Module Demo.
#[local] Existing Instance ascii_tables.

Definition match_rule (a : bytes) : Rule :=
  {| ID := str "m"; kind := KindMatch; Pattern := []; Action := a; Priority := 9; Enabled := true;
     Notes := []; GroupID := [] |}.

(** Two rule documents. *)
Definition Unmarshal (y : bytes) : option (list Rule) :=
  if y == str "A" then Some [match_rule (str "proxy")]
  else if y == str "B" then Some [match_rule (str "block")] else None.
Definition any_name (_ : bytes) : bool := true.
Definition no_exit (_ : bytes) : option (gmap bytes unit) := None.
Definition text (_ : AErr) : bytes := str "error".
Definition base : option (@Config unit unit) := Some {| cfg_base := tt; Exits := None; EffectiveRules := [] |}.

(** Version 1 active, version 2 waiting. *)
Definition ops : list DbOp :=
  [OpInsertSnapshot (str "h1") [] []; OpInsertRuleVersion 1 (str "A") true;
   OpInsertSnapshot (str "h2") [] []; OpInsertRuleVersion 2 (str "B") false;
   OpAddExit (str "jp") (str "vless://x")].
Definition db0 : Db := foldl (fun d op => Db.run_op Db.Demo.parse op d) (Db.Demo.fresh []) ops.
Definition t0 : RuleTable := BuildTable [match_rule (str "proxy")].
Definition app0 : App :=
  MkApp db0 (Some (Publish (Some t0) {| gen := 0; cur := None |})) ∅ ∅ ∅ ∅ [] false.
Definition w0 (l : list bool) : World (@Config unit unit) App :=
  MkWorld (MkThree None None None) (MkThree None None None) false base app0 l.

Definition render (u : Unit3) (c : @Config unit unit) : option bytes := Some (map Action (EffectiveRules c) !!! 0).
Definition orch : @Orch unit unit := systemd render true.

Lemma db0_inv : Db.inv (false, []) db0.
Proof.
  assert (K : forall ops d, Db.inv (false, []) d -> Db.inv (false, []) (foldl (fun d op => Db.run_op Db.Demo.parse op d) d ops)).
  { induction ops0 as [|op l IH]; [done|]. intros d H. cbn. by apply IH, run_op_inv. }
  apply (K ops (Db.Demo.fresh [])). split; [apply Db.Demo.fresh_wf|]. split; [done|constructor].
Qed.

Definition v1 : RuleVersion := {| rv_ID := 1; rv_SnapshotID := 1; rv_RulesYAML := str "A"; rv_Active := true |}.
Definition v2 : RuleVersion := {| rv_ID := 2; rv_SnapshotID := 2; rv_RulesYAML := str "B"; rv_Active := false |}.

Lemma db0_rules : rows (rule_versions db0) = [v1; v2].
Proof. vm_compute. reflexivity. Qed.

Lemma parse_A : ParseYAML any_name Unmarshal (str "A") = Ok [match_rule (str "proxy")].
Proof. vm_compute. reflexivity. Qed.

Lemma app0_Safe : Safe Unmarshal any_name app0.
Proof.
  exists (rule_versions db0), (resolver app0), ∅, false. split; [split; [split; [apply db0_inv|done]|done]|]. split.
  - intros s t [= <-] [= <-]. unfold active_id, table_of. rewrite db0_rules.
    exists v1, [match_rule (str "proxy")]. split; [left|]. split; [done|]. split; [apply parse_A|done].
  - apply map_Forall_empty.
Qed.

(** An apply, an import while it is observed, and its verdict. *)
Definition calls : list Call :=
  [CApplyRules 2 2 0; CImportRules (str "A") (str "root");
   COnHealth 2 {| RolledBack := false; health := HealthOK; Reason := [] |}].
Abbreviation run_call := (run_call Unmarshal any_name no_exit text orch base).

Example calls_end :
  let a := cp (foldl (fun w c => snd (run_call c w)) (w0 []) calls) in
  active_id (rule_versions (db a)) = 2%Z /\ variationActive a = false /\
  match resolver a with Some s => classify (Load s) (str "x.org") = ActionBlock | None => False end.
Proof. vm_compute. auto. Qed.

Lemma resolver_agrees_witness :
  let a := cp (foldl (fun w c => snd (run_call c w)) (w0 [true; false]) calls) in
  match resolver a with
  | Some s =>
      match Load s with
      | Some t => exists rs, active_rules Unmarshal any_name a = Some rs /\
                    forall q, classify (Load s) q = classify (Some (BuildTable rs)) q
      | None => True
      end
  | None => True
  end.
Proof.
  intros a. destruct (resolver a) as [s|] eqn:Hs; [|exact I]. destruct s as [g [t|]]; [|exact I].
  exact (resolver_agrees Unmarshal any_name no_exit text orch base (w0 [true; false]) calls _ t app0_Safe Hs eq_refl).
Defined.

Lemma ApplyRules_outcome_witness :
  let '((res, e), w') := ApplyRules Unmarshal any_name no_exit text orch base 2 2 0 (w0 []) in
  variationActive (cp w') = bool_decide (e = None /\ r_Health res = HealthObserving).
Proof.
  destruct (ApplyRules Unmarshal any_name no_exit text orch base 2 2 0 (w0 [])) as [[res e] w'] eqn:E.
  exact (proj1 (ApplyRules_outcome Unmarshal any_name no_exit text orch base (w0 []) 2 2 0 res e w'
    app0_Safe eq_refl E)).
Defined.

Definition info0 : ruleApplyInfo :=
  {| statusID := 1; ruleVersionID := 2; priorVersionID := 1; priorSnapshotID := 1;
     targetTable := BuildTable [match_rule (str "block")]; priorTable := t0; committed := false |}.
Definition app1 : App := set_variationActive true (set_inflight {[ 2%Z := info0 ]} app0).
Definition w1 : World (@Config unit unit) App := upd_cp app1 (w0 []).

Lemma parse_B : ParseYAML any_name Unmarshal (str "B") = Ok [match_rule (str "block")].
Proof. vm_compute. reflexivity. Qed.

Lemma app1_Safe : Safe Unmarshal any_name app1.
Proof.
  exists (rule_versions db0), (resolver app0), {[ 2%Z := info0 ]}, true.
  split; [split; [split; [apply db0_inv|done]|done]|]. split.
  - intros s t [= <-] [= <-]. unfold active_id, table_of. rewrite db0_rules.
    exists v1, [match_rule (str "proxy")]. split; [left|]. split; [done|]. split; [apply parse_A|done].
  - apply map_Forall_singleton. split.
    + exists v2, [match_rule (str "block")]. rewrite db0_rules. split; [right; left|]. split; [done|].
      split; [apply parse_B|done].
    + unfold table_of. rewrite db0_rules. exists v1, [match_rule (str "proxy")].
      split; [left|]. split; [done|]. split; [apply parse_A|done].
Qed.

Lemma OnHealth_outcome_witness :
  let w' := snd (OnHealth text orch 2 {| RolledBack := true; health := HealthFailed; Reason := [EHealth] |} w1) in
  variationActive (cp w') = false /\ inflight (cp w') !! 2%Z = None.
Proof.
  set (res := {| RolledBack := true; health := HealthFailed; Reason := [EHealth] |}).
  destruct (OnHealth text orch 2 res w1) as [[] w'] eqn:E.
  destruct (OnHealth_outcome Unmarshal any_name text orch w1 2 info0 res w' app1_Safe eq_refl eq_refl E)
    as (H1 & H2 & _).
  split; [exact H1|exact H2].
Defined.
End Demo.
