(* ===== verification/ApplierStatus.v ===== *)
(** * The status of an apply is never lost

    The in-memory fallback of the applier for terminal states that could not
    be written (Applier.v: [recordTerminalStatus], [clearTerminalStatus],
    [persistApplyStatus]), and the reference counts that protect the exits of
    a switch in flight. *)
From S2P Require Import Prelude GoStrings GoNet Crypto Rules RuleTable Mihomo Orchestrator Db Applier ApplierSpec.
From Stdlib Require Import ZArith Lia.

(** ** The bounded fallback *)

(** The order and the map hold the same snapshots, each once, at most
    [applyTerminalCacheCap] of them. *)
Record cache_ok (a : App) : Prop := {
  cache_nodup : NoDup (terminalOrder a);
  cache_dom : forall x, x ∈ terminalOrder a <-> is_Some (terminalStatus a !! x);
  cache_cap : length (terminalOrder a) <= applyTerminalCacheCap
}.

Lemma evict_small order m : length order <= applyTerminalCacheCap -> evict order m = (order, m).
Proof.
  intros Hl. destruct order as [|x order]; [done|]. unfold evict. fold evict.
  destruct (Nat.ltb_spec applyTerminalCacheCap (length (x :: order))); [lia|done].
Qed.

Lemma evict_over x order m :
  length order = applyTerminalCacheCap -> evict (x :: order) m = (order, delete x m).
Proof.
  intros Hl. unfold evict. fold evict. destruct (Nat.ltb_spec applyTerminalCacheCap (length (x :: order))) as [|Hx].
  - apply evict_small. lia.
  - cbn [length] in Hx. lia.
Qed.

Lemma remove_first_elem x y l : NoDup l -> y ∈ remove_first x l <-> y ∈ l /\ y <> x.
Proof.
  induction l as [|z l IH]; intros Hn; cbn; [split; [intros H; by apply elem_of_nil in H|intros [H _]; by apply elem_of_nil in H]|].
  apply NoDup_cons in Hn as [Hz Hn]. destruct (Z.eqb_spec z x) as [->|Hzx].
  - rewrite elem_of_cons. split; [intros Hy; split; [by right|congruence]|]. intros [[->|Hy] Hne]; [done|exact Hy].
  - rewrite !elem_of_cons, IH by done. split; [intros [->|[Hy Hne]]; auto|]. intros [[->|Hy] Hne]; auto.
Qed.

Lemma remove_first_NoDup x l : NoDup l -> NoDup (remove_first x l).
Proof.
  induction l as [|z l IH]; intros Hn; cbn; [done|]. apply NoDup_cons in Hn as [Hz Hn].
  destruct (z =? x)%Z; [done|]. apply NoDup_cons. split; [|auto]. rewrite remove_first_elem by done. naive_solver.
Qed.

Lemma remove_first_length x l : length (remove_first x l) <= length l.
Proof. induction l as [|z l IH]; cbn; [done|]. destruct (z =? x)%Z; cbn; lia. Qed.

(** A new entry is served; the cache stays in order, and gives up at most
    its oldest entry. *)
Lemma record_ok snap st r a :
  cache_ok a ->
  let a' := snd (recordTerminalStatus snap st r a) in
  cache_ok a' /\ TerminalStatus snap a' = Some (st, r) /\ apply_status (db a') = apply_status (db a).
Proof.
  intros [Hn Hd Hc]. cbn. unfold TerminalStatus.
  destruct (bool_decide_reflect (is_Some (terminalStatus a !! snap))) as [Hs|Hs].
  - rewrite evict_small by done. cbn. rewrite lookup_insert_eq. split; [|done]. split; cbn; [done| |done].
    intros x. rewrite Hd. destruct (decide (x = snap)) as [->|Hx]; [rewrite lookup_insert_eq; naive_solver|].
    by rewrite lookup_insert_ne.
  - assert (Hnot : snap ∉ terminalOrder a) by by rewrite Hd.
    assert (Hn' : NoDup (terminalOrder a ++ [snap])).
    { apply NoDup_app. split; [done|]. split; [|apply NoDup_singleton]. intros x Hx Hx'%list_elem_of_singleton. by subst. }
    assert (Hd' : forall x, x ∈ terminalOrder a ++ [snap] <-> is_Some (<[snap := (st, r)]> (terminalStatus a) !! x)).
    { intros x. rewrite elem_of_app, list_elem_of_singleton, Hd. destruct (decide (x = snap)) as [->|Hx].
      - rewrite lookup_insert_eq. naive_solver.
      - rewrite lookup_insert_ne by done. naive_solver. }
    destruct (decide (length (terminalOrder a) = applyTerminalCacheCap)) as [Hl|Hl].
    + destruct (terminalOrder a) as [|o l] eqn:Eo; [done|]. cbn [app] in *.
      rewrite evict_over by (rewrite length_app; cbn in *; lia). cbn.
      apply NoDup_cons in Hn' as [Ho Hn'].
      assert (Hos : o <> snap) by (intros ->; apply Ho, elem_of_app; right; by left).
      rewrite lookup_delete_ne, lookup_insert_eq by done. split; [|done]. split; cbn; [done| |].
      * intros x. destruct (decide (x = o)) as [->|Hx].
        { rewrite lookup_delete_eq. split; [done|]. by intros [??]. }
        rewrite lookup_delete_ne by done. rewrite <- Hd', elem_of_cons. naive_solver.
      * rewrite length_app. cbn in *. lia.
    + rewrite evict_small by (rewrite length_app; cbn; lia). cbn. rewrite lookup_insert_eq. split; [|done].
      split; cbn; [done|done|]. rewrite length_app. cbn. lia.
Qed.

Lemma clear_ok snap a :
  cache_ok a ->
  let a' := snd (clearTerminalStatus snap a) in
  cache_ok a' /\ TerminalStatus snap a' = None /\ apply_status (db a') = apply_status (db a).
Proof.
  intros [Hn Hd Hc]. cbn. unfold TerminalStatus. destruct (terminalStatus a !! snap) as [p|] eqn:E; [|by rewrite E].
  cbn. rewrite lookup_delete_eq. split; [|done]. split; cbn.
  - by apply remove_first_NoDup.
  - intros x. rewrite remove_first_elem by done. destruct (decide (x = snap)) as [->|Hx].
    + rewrite lookup_delete_eq. split; [naive_solver|by intros [??]].
    + rewrite lookup_delete_ne by done. rewrite Hd. naive_solver.
  - pose proof (remove_first_length snap (terminalOrder a)). lia.
Qed.

(** A status row written. *)
Lemma UpdateApplyStatus_wp i st r d :
  wp (UpdateApplyStatus i st r) (fun q d' =>
    match q with
    | Ok _ => exists row, row ∈ rows (apply_status d') /\ st_ID row = i /\ st_State row = st /\ st_Reason row = r
    | Err _ => True
    end) d.
Proof.
  unfold UpdateApplyStatus, bindE. apply wp_bind. eapply wp_mono; [apply wp_exec|].
  intros [e|n] d1 H1; [done|]. destruct H1 as [l [= Hn <-]].
  apply wp_bind. eapply wp_mono; [apply wp_fallible|]. intros [e|[]] d2 H2; [done|].
  cbn in H2. apply eqt_inv in H2 as [l' ->]. destruct (n =? 1)%Z eqn:E1; [|done]. apply wp_ret.
  symmetry in Hn. destruct (filter_len_one st_ID _ n i Hn E1) as (row & Hrow & Hid). cbn in Hrow.
  eexists. cbn. split; [apply list_elem_of_fmap; exists row; split; [reflexivity|exact Hrow]|].
  rewrite bool_decide_true by done. by subst i.
Qed.

(** A terminal verdict is never lost: once [persistApplyStatus] returns,
    whatever the database did, the verdict is served from the in-memory
    fallback or stands in its status row with no older fallback hiding it;
    and the fallback never exceeds its cap. *)
Theorem persist_visible sid snap st r a a' :
  cache_ok a -> persistApplyStatus sid snap st r a = (tt, a') ->
  cache_ok a' /\ length (terminalOrder a') <= 128 /\
  (TerminalStatus snap a' = Some (st, r) \/
   TerminalStatus snap a' = None /\
   exists row, row ∈ rows (apply_status (db a')) /\ st_ID row = sid /\ st_State row = st /\ st_Reason row = r).
Proof.
  intros Ha E. unfold persistApplyStatus, bind, on_db in E.
  pose proof (UpdateApplyStatus_wp sid st r (db a)) as Hu. unfold wp in Hu.
  destruct (UpdateApplyStatus sid st r (db a)) as [q d].
  assert (Hd : cache_ok (set_db d a)) by (destruct Ha; by split).
  destruct q as [e|[]].
  - destruct (record_ok snap st r _ Hd) as (Hok & Hs & _). rewrite E in Hok, Hs. cbn in *.
    split; [exact Hok|]. split; [apply Hok|]. by left.
  - destruct (clear_ok snap _ Hd) as (Hok & Hs & Hst). rewrite E in Hok, Hs, Hst. cbn [snd] in *.
    split; [exact Hok|]. split; [apply Hok|]. right. split; [exact Hs|]. rewrite Hst. exact Hu.
Qed.

(** ** Reference counts of protected exits *)
Definition count (m : gmap bytes Z) (x : bytes) : Z := default 0%Z (m !! x).
Definition positive (m : gmap bytes Z) : Prop := map_Forall (fun _ n => (0 < n)%Z) m.
Definition hits (ids : list bytes) (x : bytes) : Z := len (filter (fun y => y = x /\ y <> []) ids).

Lemma count_nonneg m x : positive m -> (0 <= count m x)%Z.
Proof. intros Hm. unfold count. destruct (m !! x) as [n|] eqn:E; cbn; [|lia]. specialize (Hm x n E). cbn in Hm. lia. Qed.

Lemma positive_ext m m' : positive m -> positive m' -> (forall x, count m x = count m' x) -> m = m'.
Proof.
  intros Hm Hm' Hc. apply map_eq. intros x. specialize (Hc x). unfold count in Hc.
  destruct (m !! x) as [n|] eqn:E, (m' !! x) as [n'|] eqn:E'; cbn in Hc; subst; try done.
  - specialize (Hm x _ E). cbn in Hm. lia.
  - specialize (Hm' x _ E'). cbn in Hm'. lia.
Qed.

Lemma protect_one_ok m id :
  positive m -> positive (protect_one m id) /\ forall x, count (protect_one m id) x = (count m x + hits [id] x)%Z.
Proof.
  intros Hm. unfold protect_one, hits. destruct (bool_decide_reflect (id = [])) as [->|Hid].
  - split; [done|]. intros x. rewrite filter_cons. destruct (decide _) as [[_ ?]|]; [done|]. unfold len; cbn; lia.
  - pose proof (count_nonneg m id Hm) as Hc. split.
    + apply map_Forall_insert_2; [unfold count in Hc; lia|done].
    + intros x. rewrite filter_cons. unfold count in *. destruct (decide (id = x)) as [->|Hx].
      * rewrite lookup_insert_eq. rewrite decide_True by done. unfold len; cbn; lia.
      * rewrite lookup_insert_ne by done. rewrite decide_False by naive_solver. unfold len; cbn; lia.
Qed.

Lemma unprotect_one_ok m id :
  positive m -> (hits [id] id <= count m id)%Z ->
  positive (unprotect_one m id) /\ forall x, count (unprotect_one m id) x = (count m x - hits [id] x)%Z.
Proof.
  intros Hm Hh. unfold unprotect_one, hits in *. destruct (bool_decide_reflect (id = [])) as [->|Hid].
  - split; [done|]. intros x. rewrite filter_cons. destruct (decide _) as [[_ ?]|]; [done|]. unfold len; cbn; lia.
  - rewrite filter_cons, decide_True in Hh by done. unfold len in Hh; cbn in Hh. unfold count in *.
    destruct (Z.leb_spec (default 0%Z (m !! id)) 1) as [Hle|Hgt].
    + split; [by apply map_Forall_delete|]. intros x. rewrite filter_cons. destruct (decide (id = x)) as [->|Hx].
      * rewrite lookup_delete_eq, decide_True by done. unfold len in *; cbn in *; lia.
      * rewrite lookup_delete_ne by done. rewrite decide_False by naive_solver. unfold len; cbn; lia.
    + split; [apply map_Forall_insert_2; [lia|done]|]. intros x. rewrite filter_cons.
      destruct (decide (id = x)) as [->|Hx].
      * rewrite lookup_insert_eq, decide_True by done. unfold len in *; cbn in *; lia.
      * rewrite lookup_insert_ne by done. rewrite decide_False by naive_solver. unfold len; cbn; lia.
Qed.

Lemma hits_cons id ids x : hits (id :: ids) x = (hits [id] x + hits ids x)%Z.
Proof.
  unfold hits. rewrite (filter_cons _ id ids), (filter_cons _ id []), filter_nil.
  destruct (decide _); unfold len; cbn [length]; lia.
Qed.

Lemma hits_nonneg ids x : (0 <= hits ids x)%Z.
Proof. unfold hits, len. lia. Qed.

Lemma protect_all ids m :
  positive m -> positive (foldl protect_one m ids) /\
  forall x, count (foldl protect_one m ids) x = (count m x + hits ids x)%Z.
Proof.
  revert m. induction ids as [|id ids IH]; intros m Hm; cbn [foldl].
  - split; [done|]. intros x. unfold hits, len. cbn. lia.
  - destruct (protect_one_ok m id Hm) as [H1 H2]. destruct (IH _ H1) as [H3 H4]. split; [done|].
    intros x. rewrite H4, H2, (hits_cons id ids). lia.
Qed.

Lemma unprotect_all ids m :
  positive m -> (forall x, (hits ids x <= count m x)%Z) ->
  positive (foldl unprotect_one m ids) /\
  forall x, count (foldl unprotect_one m ids) x = (count m x - hits ids x)%Z.
Proof.
  revert m. induction ids as [|id ids IH]; intros m Hm Hc; cbn [foldl].
  - split; [done|]. intros x. unfold hits, len. cbn. lia.
  - assert (Hh : (hits [id] id <= count m id)%Z).
    { specialize (Hc id). rewrite hits_cons in Hc. pose proof (hits_nonneg ids id). lia. }
    destruct (unprotect_one_ok m id Hm Hh) as [H1 H2]. destruct (IH _ H1) as [H3 H4].
    + intros x. rewrite H2. specialize (Hc x). rewrite hits_cons in Hc. lia.
    + split; [done|]. intros x. rewrite H4, H2, (hits_cons id ids). lia.
Qed.

Lemma unprotect_protect ids m : positive m -> foldl unprotect_one (foldl protect_one m ids) ids = m.
Proof.
  intros Hm. destruct (protect_all ids m Hm) as [H1 H2]. destruct (unprotect_all ids _ H1) as [H3 H4].
  - intros x. rewrite H2. pose proof (count_nonneg m x Hm). lia.
  - apply positive_ext; [done|done|]. intros x. rewrite H4, H2. lia.
Qed.

(** ** What leaves the protection alone *)
Definition Prot (m : gmap bytes Z) (a : App) : Prop := protectedExits a = m.

Ltac prot :=
  repeat first
    [ apply keeps_ret
    | match goal with
      | |- keeps _ (bind _ _) => apply keeps_bind; [|intros ?]
      | |- keeps _ (bindE _ _) => apply keeps_bindE; [|intros ?]
      | |- keeps _ (on_db ?m) => let a := fresh in intros a ?; unfold on_db; destruct (m (db a)); done
      | |- keeps _ (modify _) => apply keeps_modify; intros ? ?; cbv zeta;
          repeat match goal with |- context [match ?x with _ => _ end] => destruct x end; done
      | |- keeps _ (match ?x with _ => _ end) => destruct x
      end
    | progress cbv zeta ].

Section protection.
Context (m : gmap bytes Z) `{Unicode} {Value Base : Type} (Unmarshal : bytes -> option (list Rule))
  (IsDomainName : bytes -> bool) (ParseExit : bytes -> option (gmap bytes Value)) (text : AErr -> bytes)
  (orch : @Orch Value Base) (BaseConfig : option (@Config Value Base)).

Lemma clearTerminal_prot s : keeps (Prot m) (clearTerminalStatus s).
Proof. unfold clearTerminalStatus. prot. Qed.
Lemma persist_prot i s st r : keeps (Prot m) (persistApplyStatus i s st r).
Proof. unfold persistApplyStatus, recordTerminalStatus, clearTerminalStatus. prot. Qed.
Lemma Assemble_prot : keeps (Prot m) (Assemble Unmarshal IsDomainName ParseExit BaseConfig).
Proof. unfold Assemble, ActiveRulesYAML, Records. prot. Qed.
Lemma compensate_prot p r st : keeps (Prot m) (compensateSwitch text p r st).
Proof. unfold compensateSwitch, AppendAudit_. prot. Qed.
Lemma audit_prot e p : keeps (Prot m) (audit_switch_ok e p).
Proof. unfold audit_switch_ok, AppendAudit_. prot. Qed.

Lemma prepareSwitch_prot e p n :
  keeps (Prot m) (prepareSwitch Unmarshal IsDomainName ParseExit text BaseConfig e p n).
Proof.
  unfold prepareSwitch, registerSwitchInflight, db_try.
  apply keeps_bind; [prot|]. intros [|[]]; [prot|].
  apply keeps_bind; [apply keeps_bindE; [apply Assemble_prot|intros; prot]|].
  intros [|[[cfg snap] sid]]; [apply keeps_bind; [apply compensate_prot|intros [? ?]; prot]|].
  apply keeps_bind; [apply clearTerminal_prot|]. intros. prot.
Qed.

Lemma verdict_prot (res : ApplyResult) p :
  keeps (Prot m) (match applyTerminalState res with
     | Confirmed => ret (Confirmed, reason text (Reason res))
     | state =>
         let r := if reason text (Reason res) == [] then no_verdict else reason text (Reason res) in
         let! (state, restoreErr) := compensateSwitch text p r state in
         ret (state, match restoreErr with None => r | Some e => text (AEJoin (AEReason r) e) end)
     end).
Proof.
  destruct (applyTerminalState res); cbv zeta; try apply keeps_ret;
    (apply keeps_bind; [apply compensate_prot|intros [? ?]; apply keeps_ret]).
Qed.

Lemma switchVerdict_prot e p s sid r : keeps (Prot m) (switchVerdict text e p s sid r).
Proof.
  unfold switchVerdict, clearSwitchInflight.
  destruct (health r);
    first [ apply keeps_bind; [apply persist_prot|intros ?]; apply keeps_bind; [prot|intros ?];
            apply keeps_bind; [apply audit_prot|intros ?]; apply keeps_ret
          | apply keeps_bind; [apply verdict_prot|]; intros [st t]; apply keeps_bind; [apply persist_prot|intros ?];
            apply keeps_bind; [prot|intros ?]; destruct st; try apply keeps_ret;
            apply keeps_bind; [apply audit_prot|intros ?]; apply keeps_ret ].
Qed.

Lemma on_cp_prot {A} (f : AP A) : keeps (Prot m) f -> keeps (fun w : World (@Config Value Base) App => Prot m (cp w)) (on_cp f).
Proof. intros Hf w Hw. unfold on_cp. specialize (Hf _ Hw). by destruct (f (cp w)). Qed.
End protection.

Section switch.
Context `{Unicode} {Value Base : Type} (Unmarshal : bytes -> option (list Rule))
  (IsDomainName : bytes -> bool) (ParseExit : bytes -> option (gmap bytes Value)) (text : AErr -> bytes)
  (orch : @Orch Value Base) `{!OrchLaws orch} (BaseConfig : option (@Config Value Base)).
Abbreviation W := (World (@Config Value Base) App).

(** The data plane leaves the control plane alone when nothing is to be
    committed. *)
Lemma no_commit req w : Commit req = None -> wp (orch_Apply orch req) (fun _ w' => cp w' = cp w) w.
Proof.
  intros Hc. eapply wp_mono; [apply law_apply|]. intros [[r e] bg] w'. unfold commits, refuses. rewrite Hc.
  destruct (err e).
  - intros [?|(f & ? & _)]; [done|done].
  - intros [_ [[_ ?]|[_ ?]]]; done.
Qed.

Lemma wp_prot_cp {A B} (f : AP A) (k : A -> ST W B) Q m (w : W) :
  keeps (Prot m) f -> Prot m (cp w) ->
  (forall x w', Prot m (cp w') -> wp (k x) Q w') -> wp (bind (on_cp f) k) Q w.
Proof.
  intros Hf Hw Hk. apply wp_bind. unfold wp at 1, on_cp. specialize (Hf _ Hw).
  destruct (f (cp w)) as [x c]. by apply Hk.
Qed.

Lemma prepareSwitch_wp x p n m a :
  Prot m a ->
  wp (prepareSwitch Unmarshal IsDomainName ParseExit text BaseConfig x p n) (fun r a' => Prot m a' /\
    match r with
    | Ok (_, snap, sid) =>
        switchInflight a' !! snap = Some {| sw_statusID := sid; newExitID := x; priorExitID := p |}
    | Err _ => True
    end) a.
Proof.
  intros Ha. pose proof (prepareSwitch_prot m Unmarshal IsDomainName ParseExit text BaseConfig x p n a Ha) as Hk.
  unfold wp. destruct (prepareSwitch _ _ _ _ _ x p n a) as [r a'] eqn:E. split; [exact Hk|].
  unfold prepareSwitch, bind in E. destruct (on_db (SwitchExitRow x) a) as [[e|[]] a1]; [by injection E as <- _|].
  destruct ((let? cfg := Assemble Unmarshal IsDomainName ParseExit BaseConfig in _) a1) as [[e|[[cfg snap] sid]] a2].
  - destruct (compensateSwitch _ _ _ _ a2) as [[st re] a3]. by injection E as <- _.
  - destruct (clearTerminalStatus snap a2) as [[] a3]. injection E as <- <-. cbn. apply lookup_insert_eq.
Qed.

(** A switch under observation holds one reference on each of its exits;
    every other end of a switch has given them back. *)
Definition switched m x (r : CResult) (e : option AErr) (w' : W) : Prop :=
  if bool_decide (r_Health r = HealthObserving /\ e = None) then
    exists info, switchInflight (cp w') !! r_SnapshotID r = Some info /\ newExitID info = x /\
      Prot (foldl protect_one m [priorExitID info; x]) (cp w')
  else Prot m (cp w').

Lemma dispatchSwitch_wp x p cfg snap sid m (w : W) :
  let info := {| sw_statusID := sid; newExitID := x; priorExitID := p |} in
  Prot m (cp w) -> switchInflight (cp w) !! snap = Some info ->
  wp (dispatchSwitch text orch x p cfg snap sid) (fun '(r, e, over) w' => Prot m (cp w') /\
    if over then e <> None \/ r_Health r <> HealthObserving
    else r_Health r = HealthObserving /\ e = None /\ switchInflight (cp w') !! r_SnapshotID r = Some info) w.
Proof.
  intros info Hw Hi. unfold dispatchSwitch. wp_run (no_commit); [done|]. intros [[res er] bg] w1 H1.
  assert (Hw1 : Prot m (cp w1)) by by rewrite H1.
  destruct (is_in_flight er).
  { eapply wp_prot_cp; [|exact Hw1|].
    - apply keeps_bind; [unfold clearSwitchInflight; prot|intros ?]. apply keeps_bind; [apply compensate_prot|].
      intros [? ?]. apply keeps_bind; [apply persist_prot|intros; apply keeps_ret].
    - intros e w2 H2. apply wp_ret. split; [exact H2|]. by left. }
  destruct (err er).
  { eapply wp_prot_cp; [|exact Hw1|].
    - apply keeps_bind; [unfold clearSwitchInflight; prot|intros ?]. apply keeps_bind; [apply compensate_prot|].
      intros [? ?]. apply keeps_bind; [apply persist_prot|intros; apply keeps_ret].
    - intros e w2 H2. apply wp_ret. split; [exact H2|]. by left. }
  destruct (health res) eqn:Hh;
    try (eapply wp_prot_cp; [apply switchVerdict_prot|exact Hw1|]; intros e w2 H2; apply wp_ret;
         split; [exact H2|]; by right).
  apply wp_ret. split; [exact Hw1|]. cbn. by rewrite H1.
Qed.

Lemma SwitchExit_wp x n m (w : W) :
  Prot m (cp w) -> positive m ->
  wp (SwitchExit Unmarshal IsDomainName ParseExit text orch BaseConfig x n)
    (fun '(r, e) w' => switched m x r e w') w.
Proof.
  intros Hw Hm. unfold SwitchExit.
  assert (Hno : forall e w', Prot m (cp w') -> switched m x no_result e w').
  { intros e w' Hw'. unfold switched. by rewrite bool_decide_false by (by intros [? _]). }
  destruct (x == []); [apply wp_ret; by apply Hno|].
  eapply wp_prot_cp; [|exact Hw|].
  { intros a Ha. unfold beginVariation. by destruct (variationActive a). }
  intros free w1 Hw1. destruct (negb free); [apply wp_ret; by apply Hno|].
  eapply wp_prot_cp; [unfold ActiveID; prot|exact Hw1|]. intros [er|p] w2 Hw2.
  { eapply wp_prot_cp; [unfold endVariation; prot|exact Hw2|]. intros _ w3 Hw3. apply wp_ret. by apply Hno. }
  apply wp_bind. unfold wp at 1, on_cp at 1, protectSwitchExits, modify. rewrite Hw2.
  set (m' := foldl protect_one m [p; x]). set (w3 := upd_cp _ w2).
  assert (Hw3 : Prot m' (cp w3)) by done. clearbody w3.
  assert (Hend : forall r e (w' : W), Prot m' (cp w') -> e <> None \/ r_Health r <> HealthObserving ->
    wp (let! _ := on_cp (let! _ := unprotectSwitchExits [p; x] in endVariation) in ret (r, e))
      (fun '(r, e) w' => switched m x r e w') w').
  { intros r e w' Hw' He. apply wp_bind. unfold wp at 1, on_cp, bind, unprotectSwitchExits, endVariation, modify.
    cbn. unfold switched. rewrite bool_decide_false by naive_solver. unfold Prot. cbn -[foldl]. rewrite Hw'.
    unfold m'. exact (unprotect_protect [p; x] m Hm). }
  apply wp_bind, wp_on_cp. eapply wp_mono; [apply prepareSwitch_wp, Hw3|].
  intros q a4 [Ha4 Hq]. destruct q as [e|[[cfg snap] sid]].
  - apply wp_bind, wp_ret. apply Hend; [exact Ha4|by left].
  - wp_run (dispatchSwitch_wp x p cfg snap sid m'); [exact Ha4|exact Hq|].
    intros [[r e] over] w5 [Hw5 Ho]. destruct over; [by apply Hend|].
    destruct Ho as (Hh & -> & Hinfo). do 2 apply wp_ret. unfold switched. rewrite bool_decide_true by done.
    eexists. split; [exact Hinfo|]. split; [done|exact Hw5].
Qed.

(** The verdict gives both references back. *)
Lemma finalize_prot snap res info m (a : App) :
  Prot (foldl protect_one m [priorExitID info; newExitID info]) a -> positive m ->
  Prot m (snd (finalizeSwitchOnHealth text snap res info a)).
Proof.
  intros Ha Hm. set (m' := foldl protect_one m [priorExitID info; newExitID info]) in *.
  enough (wp (finalizeSwitchOnHealth text snap res info) (fun _ => Prot m) a) as Hwp
    by (unfold wp in Hwp; by destruct (finalizeSwitchOnHealth _ _ _ _ a)).
  unfold finalizeSwitchOnHealth. apply wp_bind. eapply wp_mono; [by apply (keeps_wp (Prot m')); [apply verdict_prot|]|].
  intros [st t] a1 H1; cbv beta in H1. apply wp_bind.
  eapply wp_mono; [by apply (keeps_wp (Prot m')); [apply persist_prot|]|].
  intros ? a2 H2; cbv beta in H2. apply wp_bind.
  eapply wp_mono; [apply (keeps_wp (Prot m')); [destruct st; first [apply audit_prot|apply keeps_ret]|exact H2]|].
  intros ? a3 H3; cbv beta in H3. unfold wp, unprotectSwitchExits, modify, Prot. cbn -[foldl]. rewrite H3.
  exact (unprotect_protect _ m Hm).
Qed.

(** C20: An exit that takes part in a switch cannot be deleted until the
    switch has its verdict: in the state an observed one leaves [DeleteExit]
    refuses both its sides without touching the database, and afterwards, as after every
    switch that ends at once, the reference counts are the ones from before
    the switch. *)
Theorem switch_protects_exits x n res (w : W) r e w' m :
  protectedExits (cp w) = m -> positive m ->
  SwitchExit Unmarshal IsDomainName ParseExit text orch BaseConfig x n w = ((r, e), w') ->
  if bool_decide (r_Health r = HealthObserving /\ e = None) then
    exists info, switchInflight (cp w') !! r_SnapshotID r = Some info /\ newExitID info = x /\
      (forall y, y = x \/ y = priorExitID info -> y <> [] ->
         DeleteExit_ y (cp w') = (Some AESwitchInFlight, cp w')) /\
      protectedExits (cp (snd (OnHealth text orch (r_SnapshotID r) res w'))) = m
  else protectedExits (cp w') = m.
Proof.
  intros Hw Hm E. pose proof (wp_elim _ _ _ _ _ (SwitchExit_wp x n m w Hw Hm) E) as Hs.
  cbv beta iota in Hs. unfold switched in Hs. case_bool_decide; [|exact Hs].
  destruct Hs as (info & Hi & Hx & Hp). exists info. split; [exact Hi|]. split; [exact Hx|]. subst x. split.
  - intros y Hy Hne. unfold DeleteExit_. rewrite Hp.
    destruct (protect_all [priorExitID info; newExitID info] m Hm) as [_ Hc].
    specialize (Hc y). unfold count in Hc. rewrite Hc, hits_cons. pose proof (count_nonneg m y Hm) as Hc0.
    unfold count in Hc0.
    assert (H1 : (1 <= hits [priorExitID info] y + hits [newExitID info] y)%Z).
    { pose proof (hits_nonneg [priorExitID info] y). pose proof (hits_nonneg [newExitID info] y).
      unfold hits, len in *. destruct Hy as [-> | ->].
      - rewrite (filter_cons _ (newExitID info)), decide_True in * by done. cbn [length] in *. lia.
      - rewrite (filter_cons _ (priorExitID info)), decide_True in * by done. cbn [length] in *. lia. }
    destruct (Z.ltb_spec 0 (default 0%Z (m !! y) + (hits [priorExitID info] y + hits [newExitID info] y))); [done|lia].
  - unfold OnHealth, bind at 1, on_cp at 1, takeSwitchInflight. rewrite Hi. unfold on_cp, bind.
    set (a := set_switchInflight _ _).
    assert (Ha : Prot (foldl protect_one m [priorExitID info; newExitID info]) (cp (upd_cp a w'))) by exact Hp.
    pose proof (finalize_prot (r_SnapshotID r) res info m _ Ha Hm) as Hf.
    destruct (finalizeSwitchOnHealth text (r_SnapshotID r) res info (cp (upd_cp a w'))) as [u a']. exact Hf.
Qed.
End switch.

(** ** Witnesses *)
Module Demo.
#[local] Existing Instance ascii_tables.

(** A fallback that is full. *)
Definition order : list Z := Z.of_nat <$> List.seq 1 128.
Definition full (l : list bool) : App :=
  MkApp (Db.set_db_faults l ApplierSpec.Demo.db0) None ∅ ∅ ∅
    (list_to_map ((fun x => (x, (Failed, str "old"))) <$> order)) order false.

Lemma full_ok l : cache_ok (full l).
Proof.
  split; cbn [terminalOrder terminalStatus full].
  - apply (bool_decide_unpack _). vm_compute. exact I.
  - intros x. rewrite <- elem_of_dom, dom_list_to_map_L, elem_of_list_to_set, <- list_fmap_compose.
    by rewrite (list_fmap_ext _ id), list_fmap_id.
  - vm_compute. lia.
Qed.

Example full_evicts :
  let a' := snd (persistApplyStatus 7 300 Confirmed [] (full [false])) in
  length (terminalOrder a') = 128 /\ TerminalStatus 300 a' = Some (Confirmed, []) /\ TerminalStatus 1 a' = None.
Proof. vm_compute. auto. Qed.

Lemma persist_visible_witness :
  let a' := snd (persistApplyStatus 7 300 Confirmed [] (full [false])) in
  cache_ok a' /\ length (terminalOrder a') <= 128.
Proof.
  destruct (persistApplyStatus 7 300 Confirmed [] (full [false])) as [[] a'] eqn:E.
  destruct (persist_visible 7 300 Confirmed [] (full [false]) a' (full_ok _) E) as (H1 & H2 & _).
  split; [exact H1|exact H2].
Defined.

Abbreviation orch := ApplierSpec.Demo.orch.
Abbreviation switch := (SwitchExit ApplierSpec.Demo.Unmarshal ApplierSpec.Demo.any_name ApplierSpec.Demo.no_exit
  ApplierSpec.Demo.text orch ApplierSpec.Demo.base).

(** The switch to jp is observed, and keeps both exits. *)
Example switch_observed :
  let '((r, e), w') := switch (str "jp") 5 (ApplierSpec.Demo.w0 []) in
  r_Health r = HealthObserving /\ e = None /\
  fst (DeleteExit_ (str "direct") (cp w')) = Some AESwitchInFlight.
Proof. vm_compute. auto. Qed.

Lemma switch_protects_exits_witness :
  let '((r, e), w') := switch (str "jp") 5 (ApplierSpec.Demo.w0 []) in
  if bool_decide (r_Health r = HealthObserving /\ e = None) then
    protectedExits (cp (snd (OnHealth ApplierSpec.Demo.text orch (r_SnapshotID r)
      {| RolledBack := true; health := HealthFailed; Reason := [EHealth] |} w'))) = ∅
  else protectedExits (cp w') = ∅.
Proof.
  destruct (switch (str "jp") 5 (ApplierSpec.Demo.w0 [])) as [[r e] w'] eqn:E.
  pose proof (switch_protects_exits ApplierSpec.Demo.Unmarshal ApplierSpec.Demo.any_name ApplierSpec.Demo.no_exit
    ApplierSpec.Demo.text orch ApplierSpec.Demo.base (str "jp") 5
    {| RolledBack := true; health := HealthFailed; Reason := [EHealth] |} (ApplierSpec.Demo.w0 []) r e w' ∅
    eq_refl (map_Forall_empty _) E) as H.
  destruct (bool_decide (r_Health r = HealthObserving /\ e = None)); [|exact H].
  destruct H as (info & _ & _ & _ & H). exact H.
Defined.
End Demo.
