(* ===== verification/Dns.v ===== *)
(** * DNS messages

    The data of [github.com/miekg/dns] the resolver works on (the exported
    fields of its [Msg], [Question], [RR_Header], [OPT], [A] and [AAAA]), and
    the package's functions the resolver calls, as the parameters of the class
    [MiekgDNS].  [MiekgLaws] states what the package documents of them;
    [sample_dns] is an instance the examples run on. *)
From S2P Require Import Prelude.
From Stdlib Require Import ZArith Lia.

Local Open Scope Z_scope.

(** ** Messages *)
Record RR_Header := { Name : bytes; Rrtype : Z; Class_ : Z; Ttl : Z }.

Record Question := { qName : bytes; Qtype : Z; Qclass : Z }.

(** [dns.EDNS0], an interface: its dynamic type is [*EDNS0_SUBNET] or another. *)
Inductive EDNS0 := EDNS0_SUBNET (data : bytes) | EDNS0_OTHER (code : Z) (data : bytes).

Record OPT := { opt_hdr : RR_Header; Option_ : list EDNS0 }.

(** [dns.RR], an interface over the record types. *)
Inductive RR :=
| RR_OPT (o : OPT)
| RR_A (hdr : RR_Header) (a : bytes)
| RR_AAAA (hdr : RR_Header) (aaaa : bytes)
| RR_OTHER (hdr : RR_Header) (rdata : bytes).

Record Msg := {
  Id : Z;
  Response : bool;
  Opcode : Z;
  Authoritative : bool;
  Truncated : bool;
  RecursionDesired : bool;
  RecursionAvailable : bool;
  Zero : bool;
  AuthenticatedData : bool;
  CheckingDisabled : bool;
  Rcode : Z;
  Questions : list Question;
  Answer : list RR;
  Ns : list RR;
  Extra : list RR
}.

(** [new(dns.Msg)]. *)
Definition new_Msg : Msg :=
  {| Id := 0; Response := false; Opcode := 0; Authoritative := false; Truncated := false;
     RecursionDesired := false; RecursionAvailable := false; Zero := false;
     AuthenticatedData := false; CheckingDisabled := false; Rcode := 0;
     Questions := []; Answer := []; Ns := []; Extra := [] |}.

(** The assignments the source makes: [m.Id = id], [m.Answer = ...],
    the two header flags of a spoofed reply, an element of [m.Extra]. *)
Definition set_Id (m : Msg) (id : Z) : Msg :=
  {| Id := id; Response := Response m; Opcode := Opcode m; Authoritative := Authoritative m;
     Truncated := Truncated m; RecursionDesired := RecursionDesired m;
     RecursionAvailable := RecursionAvailable m; Zero := Zero m;
     AuthenticatedData := AuthenticatedData m; CheckingDisabled := CheckingDisabled m;
     Rcode := Rcode m; Questions := Questions m; Answer := Answer m; Ns := Ns m; Extra := Extra m |}.

Definition set_Answer (m : Msg) (rrs : list RR) : Msg :=
  {| Id := Id m; Response := Response m; Opcode := Opcode m; Authoritative := Authoritative m;
     Truncated := Truncated m; RecursionDesired := RecursionDesired m;
     RecursionAvailable := RecursionAvailable m; Zero := Zero m;
     AuthenticatedData := AuthenticatedData m; CheckingDisabled := CheckingDisabled m;
     Rcode := Rcode m; Questions := Questions m; Answer := rrs; Ns := Ns m; Extra := Extra m |}.

Definition set_flags (m : Msg) (aa ra : bool) : Msg :=
  {| Id := Id m; Response := Response m; Opcode := Opcode m; Authoritative := aa;
     Truncated := Truncated m; RecursionDesired := RecursionDesired m;
     RecursionAvailable := ra; Zero := Zero m;
     AuthenticatedData := AuthenticatedData m; CheckingDisabled := CheckingDisabled m;
     Rcode := Rcode m; Questions := Questions m; Answer := Answer m; Ns := Ns m; Extra := Extra m |}.

Definition set_Extra (m : Msg) (rrs : list RR) : Msg :=
  {| Id := Id m; Response := Response m; Opcode := Opcode m; Authoritative := Authoritative m;
     Truncated := Truncated m; RecursionDesired := RecursionDesired m;
     RecursionAvailable := RecursionAvailable m; Zero := Zero m;
     AuthenticatedData := AuthenticatedData m; CheckingDisabled := CheckingDisabled m;
     Rcode := Rcode m; Questions := Questions m; Answer := Answer m; Ns := Ns m; Extra := rrs |}.

(** ** The package's constants *)
Definition TypeA : Z := 1.
Definition TypeAAAA : Z := 28.
Definition TypeIXFR : Z := 251.
Definition TypeAXFR : Z := 252.
Definition ClassINET : Z := 1.
Definition RcodeSuccess : Z := 0.
Definition RcodeFormatError : Z := 1.
Definition RcodeServerFailure : Z := 2.
Definition RcodeNameError : Z := 3.
Definition RcodeRefused : Z := 5.
Definition RcodeYXDomain : Z := 6.
Definition RcodeNXRrset : Z := 8.

(** ** The package's functions *)
Class MiekgDNS := {
  Copy : Msg -> Msg;
  (** the position in [Extra] of the OPT record the call points to *)
  IsEdns0 : Msg -> option nat;
  UDPSize : OPT -> Z;
  SetUDPSize : OPT -> Z -> OPT;
  (** receiver, request *)
  SetReply : Msg -> Msg -> Msg;
  SetRcode : Msg -> Msg -> Z -> Msg;
  Pack : Msg -> option bytes;
  Unpack : bytes -> option Msg
}.

Definition is_opt (r : RR) : bool := match r with RR_OPT _ => true | _ => false end.

(** What the package documents: [Copy] is a deep copy; [IsEdns0] finds an OPT
    record of the additional section when there is one; [SetUDPSize] sets what
    [UDPSize] reads; [SetReply] and [SetRcode] make a reply or an error for the
    request, with its id and its first question, and touch no record section. *)
Class MiekgLaws `{MiekgDNS} : Prop := {
  Copy_same : forall m, Copy m = m;
  IsEdns0_None : forall m, IsEdns0 m = None -> Forall (fun r => is_opt r = false) (Extra m);
  IsEdns0_Some : forall m i, IsEdns0 m = Some i -> exists o, Extra m !! i = Some (RR_OPT o);
  UDPSize_range : forall o, 0 <= UDPSize o < 65536;
  UDPSize_Set : forall o n, 0 <= n < 65536 -> UDPSize (SetUDPSize o n) = n;
  Option_Set : forall o n, Option_ (SetUDPSize o n) = Option_ o;
  UDPSize_Option : forall h os os',
    UDPSize {| opt_hdr := h; Option_ := os |} = UDPSize {| opt_hdr := h; Option_ := os' |};
  SetReply_reply : forall r m,
    Id (SetReply r m) = Id m /\ Response (SetReply r m) = true /\ Rcode (SetReply r m) = RcodeSuccess /\
    Questions (SetReply r m) = (match Questions m with [] => Questions r | q :: _ => [q] end) /\
    Answer (SetReply r m) = Answer r /\ Ns (SetReply r m) = Ns r /\ Extra (SetReply r m) = Extra r;
  SetRcode_reply : forall r m rc,
    Id (SetRcode r m rc) = Id m /\ Response (SetRcode r m rc) = true /\ Rcode (SetRcode r m rc) = rc /\
    Answer (SetRcode r m rc) = Answer r /\ Ns (SetRcode r m rc) = Ns r /\ Extra (SetRcode r m rc) = Extra r
}.

(** ** An instance

    The options and the size of an OPT record are those of its class field;
    a message packs to its id alone. *)
Definition sample_reply (r m : Msg) (rc : Z) : Msg :=
  {| Id := Id m; Response := true; Opcode := Opcode m; Authoritative := Authoritative r;
     Truncated := Truncated r; RecursionDesired := RecursionDesired m;
     RecursionAvailable := RecursionAvailable r; Zero := Zero r;
     AuthenticatedData := AuthenticatedData r; CheckingDisabled := CheckingDisabled m;
     Rcode := rc; Questions := match Questions m with [] => Questions r | q :: _ => [q] end;
     Answer := Answer r; Ns := Ns r; Extra := Extra r |}.

Definition set_class (h : RR_Header) (n : Z) : RR_Header :=
  {| Name := Name h; Rrtype := Rrtype h; Class_ := n; Ttl := Ttl h |}.

Definition sample_dns : MiekgDNS := {|
  Copy := fun m => m;
  IsEdns0 := fun m => fst <$> list_find (fun r => is_opt r = true) (Extra m);
  UDPSize := fun o => Class_ (opt_hdr o) mod 65536;
  SetUDPSize := fun o n => {| opt_hdr := set_class (opt_hdr o) n; Option_ := Option_ o |};
  SetReply := fun r m => sample_reply r m RcodeSuccess;
  SetRcode := sample_reply;
  Pack := fun m => Some (be_bytes 2 (Id m));
  Unpack := fun b => if (length b =? 2)%nat then Some (set_Id new_Msg (be b)) else None
|}.

Lemma sample_laws : @MiekgLaws sample_dns.
Proof.
  constructor; cbn [Copy IsEdns0 UDPSize SetUDPSize SetReply SetRcode sample_dns sample_reply].
  - done.
  - intros m E%fmap_None%list_find_None. eapply Forall_impl; [exact E|].
    intros r Hr. by apply not_true_is_false in Hr.
  - intros m i E. apply fmap_Some in E as ([j r] & E & ->). apply list_find_Some in E as (Hi & Hr & _).
    destruct r as [o| | |]; try done. by exists o.
  - intros o. apply Z.mod_pos_bound. lia.
  - intros o n Hn. cbn. by apply Z.mod_small.
  - done.
  - done.
  - by intros r m.
  - by intros r m rc.
Qed.
