(* ===== verification/DotConn.v ===== *)
(** * A multiplexed DNS-over-TLS connection

    [internal/resolver/dotconn.go]: one [dotConn] per upstream address, shared
    by every query to it.  Its critical sections ([register], [reconnect],
    [forget], [retire], the reader's dispatch and [close]) are functions on the
    fields the mutex guards.  [d_step] interleaves them as the goroutines do:
    a query's goroutine, the reader of every connection ever dialled, and
    [close]; what the network does and which [select] branch runs are the
    events' arguments.

    A [net.Conn] is the number of its dial (a generation); a response channel
    is named after the query that made it, and holds at most one value, since
    its capacity is one and every send is in a [select] with a default.  A
    send that follows a critical section is in the section's step: the section
    removed the channel from [pending], so no other goroutine can send on it. *)
From S2P Require Import Prelude Dns.
From stdpp Require Import gmap.
From Stdlib Require Import ZArith Lia.

Local Open Scope Z_scope.

(** ** The connection *)
Record pendingQuery := { pq_conn : nat; pq_ch : nat }.

#[export] Instance pendingQuery_eq_dec : EqDecision pendingQuery.
Proof. solve_decision. Defined.

Record dotConn := {
  conn : option nat;
  pending : gmap Z pendingQuery;
  nextID : Z;
  closed : bool
}.

(** [context.Canceled] or [context.DeadlineExceeded]. *)
Inductive CtxErr := Canceled | DeadlineExceeded.

Inductive DotError :=
| ErrCtx (e : CtxErr) | ErrConnClosed | ErrDoTQueryCapacity | ErrDial | ErrWrite | ErrRead.

Definition newDotConn : dotConn := {| conn := None; pending := ∅; nextID := 0; closed := false |}.

Definition set_pending (c : dotConn) (p : gmap Z pendingQuery) : dotConn :=
  {| conn := conn c; pending := p; nextID := nextID c; closed := closed c |}.
Definition set_nextID (c : dotConn) (n : Z) : dotConn :=
  {| conn := conn c; pending := pending c; nextID := n; closed := closed c |}.
Definition set_conn (c : dotConn) (g : option nat) : dotConn :=
  {| conn := g; pending := pending c; nextID := nextID c; closed := closed c |}.

(** The probe: [c.nextID++] wraps at 16 bits. *)
Fixpoint pick_loop (fuel : nat) (p : gmap Z pendingQuery) (n : Z) : res DotError Z * Z :=
  match fuel with
  | O => (Err ErrDoTQueryCapacity, n)
  | S fuel =>
      let id := (n + 1) mod 65536 in
      if bool_decide (p !! id = None) then (Ok id, id) else pick_loop fuel p id
  end.

Definition probes : nat := Z.to_nat 0x10000.

Definition pickID (c : dotConn) : res DotError Z * dotConn :=
  let '(r, n) := pick_loop probes (pending c) (nextID c) in (r, set_nextID c n).

(** What the critical section of [register] decides: fail, go and reconnect, or
    a pinned generation with the id assigned on it. *)
Inductive reg := RegErr (e : DotError) | RegReconnect | RegOk (g : nat) (id : Z).

Definition register (c : dotConn) (ch : nat) (ctx : option CtxErr) : reg * dotConn :=
  match ctx with
  | Some e => (RegErr (ErrCtx e), c)
  | None =>
    if closed c then (RegErr ErrConnClosed, c)
    else match conn c with
    | None => (RegReconnect, c)
    | Some g =>
      match pickID c with
      | (Err e, c) => (RegErr e, c)
      | (Ok id, c) => (RegOk g id, set_pending c (<[id := {| pq_conn := g; pq_ch := ch |}]> (pending c)))
      end
    end
  end.

Definition forget (c : dotConn) (g : nat) (id : Z) : dotConn :=
  match pending c !! id with
  | Some p => if (pq_conn p =? g)%nat then set_pending c (delete id (pending c)) else c
  | None => c
  end.

(** The channels [retire] fails. *)
Definition waiters (c : dotConn) (g : nat) : list nat :=
  pq_ch <$> (filter (fun p => pq_conn p = g) ((map_to_list (pending c)).*2)).

Definition retire (c : dotConn) (g : nat) : dotConn * list nat :=
  let c1 := if bool_decide (conn c = Some g) then set_conn c None else c in
  (set_pending c1 (filter (fun '(_, p) => pq_conn p <> g) (pending c)), waiters c g).

(** [reconnect] before the dial: fail, nothing to do, or dial. *)
Inductive rec := RecErr (e : DotError) | RecDone | RecDial.

Definition reconnect_begin (c : dotConn) : rec :=
  if closed c then RecErr ErrConnClosed
  else match conn c with Some _ => RecDone | None => RecDial end.

(** [reconnect] after a dial that gave [g]: the error, whether the new
    connection is closed at once, and the connection state. *)
Definition reconnect_end (c : dotConn) (g : nat) (ctx : option CtxErr) : option DotError * bool * dotConn :=
  match ctx with
  | Some e => (Some (ErrCtx e), true, c)
  | None =>
    if closed c then (Some ErrConnClosed, true, c)
    else match conn c with
    | Some _ => (None, true, c)
    | None => (None, false, set_conn c (Some g))
    end
  end.

(** The reader's critical section: the channel the message goes to. *)
Definition dispatch (c : dotConn) (g : nat) (m : Msg) : option nat * dotConn :=
  match pending c !! Id m with
  | Some p =>
      if (pq_conn p =? g)%nat then (Some (pq_ch p), set_pending c (delete (Id m) (pending c))) else (None, c)
  | None => (None, c)
  end.

(** [close]: the connection to close and the channels to fail. *)
Definition close (c : dotConn) : dotConn * option nat * list nat :=
  if closed c then (c, None, [])
  else ({| conn := None; pending := ∅; nextID := nextID c; closed := true |}, conn c,
        pq_ch <$> (map_to_list (pending c)).*2).

(** ** The goroutines around it *)
Inductive phase :=
| Registering | Reconnecting | Dialing
| Writing (g : nat) (id : Z) | Waiting (g : nat) (id : Z)
| Done (r : res DotError Msg).

Record World := {
  dc : dotConn;
  chans : gmap nat (option Msg);          (** what each channel buffers; [None] is the nil reply *)
  threads : gmap nat phase;               (** the queries *)
  readers : gset nat;                     (** generations whose reader runs *)
  shut : gset nat;                        (** connections [Close] was called on *)
  dials : nat;                            (** connections dialled so far *)
  sent : gmap nat (nat * Z);              (** the generation and the id each query was written with *)
  got : list (nat * Msg * option nat)     (** what each reader read, and the query it went to *)
}.

Definition d_init : World :=
  {| dc := newDotConn; chans := ∅; threads := ∅; readers := ∅; shut := ∅; dials := 0; sent := ∅; got := [] |}.

Definition send (chs : gmap nat (option Msg)) (ch : nat) (v : option Msg) : gmap nat (option Msg) :=
  match chs !! ch with None => <[ch := v]> chs | Some _ => chs end.

Definition send_nil (chs : gmap nat (option Msg)) (l : list nat) : gmap nat (option Msg) :=
  foldl (fun acc ch => send acc ch None) chs l.

Definition with_thread (w : World) (q : nat) (p : phase) : World :=
  {| dc := dc w; chans := chans w; threads := <[q := p]> (threads w); readers := readers w; shut := shut w;
     dials := dials w; sent := sent w; got := got w |}.

Definition with_dc (w : World) (c : dotConn) : World :=
  {| dc := c; chans := chans w; threads := threads w; readers := readers w; shut := shut w;
     dials := dials w; sent := sent w; got := got w |}.

(** [c.retire(conn)], with the [Close] and the nil replies after it. *)
Definition do_retire (w : World) (g : nat) : World :=
  let '(c, failed) := retire (dc w) g in
  {| dc := c; chans := send_nil (chans w) failed; threads := threads w; readers := readers w;
     shut := {[g]} ∪ shut w; dials := dials w; sent := sent w; got := got w |}.

Definition do_close (w : World) : World :=
  let '(c, old, failed) := close (dc w) in
  {| dc := c; chans := send_nil (chans w) failed; threads := threads w; readers := readers w;
     shut := match old with Some g => {[g]} ∪ shut w | None => shut w end;
     dials := dials w; sent := sent w; got := got w |}.

(** A dial that succeeded: the next generation. *)
Definition do_dialed (w : World) (q : nat) (ctx : option CtxErr) : World :=
  let g := dials w in
  let '(err, drop, c) := reconnect_end (dc w) g ctx in
  {| dc := c; chans := chans w;
     threads := <[q := match err with Some e => Done (Err e) | None => Registering end]> (threads w);
     readers := if drop : bool then readers w else {[g]} ∪ readers w;
     shut := if drop then {[g]} ∪ shut w else shut w;
     dials := S g; sent := sent w; got := got w |}.

Definition do_dispatch (w : World) (g : nat) (m : Msg) : World :=
  let '(ch, c) := dispatch (dc w) g m in
  {| dc := c; chans := match ch with Some q => send (chans w) q (Some m) | None => chans w end;
     threads := threads w; readers := readers w; shut := shut w; dials := dials w; sent := sent w;
     got := (g, m, ch) :: got w |}.

Inductive event :=
| Query (q : nat) (ctx : option CtxErr)              (** [query] is called *)
| Register (q : nat) (ctx : option CtxErr)
| Reconnect (q : nat)
| DialFailed (q : nat)
| Dialed (q : nat) (ctx : option CtxErr)
| Write (q : nat) (ok : bool)                        (** [writeFramed] *)
| Receive (q : nat)                                  (** [case resp := <-ch] *)
| CtxDone (q : nat) (e : CtxErr)                     (** [case <-ctx.Done()] *)
| Read (g : nat) (m : Msg)                           (** the reader of [g] reads [m] *)
| ReadFailed (g : nat)
| CloseConn.

Definition d_step (w : World) (e : event) : option World :=
  match e with
  | Query q ctx =>
      match threads w !! q with
      | None => Some (with_thread w q (match ctx with Some e => Done (Err (ErrCtx e)) | None => Registering end))
      | Some _ => None
      end
  | Register q ctx =>
      match threads w !! q with
      | Some Registering =>
          let '(r, c) := register (dc w) q ctx in
          Some (with_thread (with_dc w c) q
                  match r with RegErr e => Done (Err e) | RegReconnect => Reconnecting | RegOk g id => Writing g id end)
      | _ => None
      end
  | Reconnect q =>
      match threads w !! q with
      | Some Reconnecting =>
          Some (with_thread w q
                  match reconnect_begin (dc w) with
                  | RecErr e => Done (Err e) | RecDone => Registering | RecDial => Dialing
                  end)
      | _ => None
      end
  | DialFailed q =>
      match threads w !! q with
      | Some Dialing => Some (with_thread w q (Done (Err ErrDial)))
      | _ => None
      end
  | Dialed q ctx =>
      match threads w !! q with Some Dialing => Some (do_dialed w q ctx) | _ => None end
  | Write q ok =>
      match threads w !! q with
      | Some (Writing g id) =>
          if (ok : bool)
          then Some {| dc := dc w; chans := chans w; threads := <[q := Waiting g id]> (threads w);
                       readers := readers w; shut := shut w; dials := dials w;
                       sent := <[q := (g, id)]> (sent w); got := got w |}
          else Some (with_thread (do_retire w g) q (Done (Err ErrWrite)))
      | _ => None
      end
  | Receive q =>
      match threads w !! q, chans w !! q with
      | Some (Waiting g id), Some v =>
          Some {| dc := dc w; chans := delete q (chans w);
                  threads := <[q := Done match v with Some m => Ok m | None => Err ErrRead end]> (threads w);
                  readers := readers w; shut := shut w; dials := dials w; sent := sent w; got := got w |}
      | _, _ => None
      end
  | CtxDone q e =>
      match threads w !! q with
      | Some (Waiting g id) =>
          let w' := match e with
                    | DeadlineExceeded => do_retire w g
                    | Canceled => with_dc w (forget (dc w) g id)
                    end in
          Some (with_thread w' q (Done (Err (ErrCtx e))))
      | _ => None
      end
  | Read g m => if decide (g ∈ readers w) then Some (do_dispatch w g m) else None
  | ReadFailed g =>
      if decide (g ∈ readers w) then
        let w' := do_retire w g in
        Some {| dc := dc w'; chans := chans w'; threads := threads w'; readers := readers w' ∖ {[g]};
                shut := shut w'; dials := dials w'; sent := sent w'; got := got w' |}
      else None
  | CloseConn => Some (do_close w)
  end.

Inductive d_reach : World -> Prop :=
| d_start : d_reach d_init
| d_next w e w' : d_reach w -> d_step w e = Some w' -> d_reach w'.

Definition d_run (es : list event) : option World :=
  foldl (fun w e => w ← w; d_step w e) (Some d_init) es.

(** ** The invariant *)
Definition pinned (p : phase) : option (nat * Z) :=
  match p with Writing g id | Waiting g id => Some (g, id) | _ => None end.

Definition idle (p : option phase) : Prop :=
  match p with None | Some Registering | Some Reconnecting | Some Dialing => True | _ => False end.

Definition pin (w : World) (q : nat) : option (nat * Z) := threads w !! q ≫= pinned.

Record d_ok (w : World) : Prop := {
  ok_next : 0 <= nextID (dc w) < 65536;
  ok_pend : forall id p, pending (dc w) !! id = Some p ->
    conn (dc w) = Some (pq_conn p) /\ 0 <= id < 65536 /\ pin w (pq_ch p) = Some (pq_conn p, id) /\
    chans w !! pq_ch p = None;
  ok_idle : forall q, idle (threads w !! q) -> chans w !! q = None;
  ok_val : forall q g id m, pin w q = Some (g, id) -> chans w !! q = Some (Some m) ->
    Id m = id /\ (g, m, Some q) ∈ got w;
  ok_sent : forall q g id, threads w !! q = Some (Waiting g id) -> sent w !! q = Some (g, id);
  ok_done : forall q m, threads w !! q = Some (Done (Ok m)) ->
    exists g, sent w !! q = Some (g, Id m) /\ (g, m, Some q) ∈ got w;
  ok_closed : closed (dc w) = true -> conn (dc w) = None;
  ok_live : forall g, conn (dc w) = Some g -> g ∈ readers w /\ g ∉ shut w;
  ok_dials : forall g, g ∈ readers w ∪ shut w -> (g < dials w)%nat;
  ok_gen : forall q g id, pin w q = Some (g, id) -> (g < dials w)%nat
}.

(** A query holding an id owns its entry or has been answered. *)
Definition served (w : World) (q : nat) : Prop :=
  forall g id, pin w q = Some (g, id) ->
    pending (dc w) !! id = Some {| pq_conn := g; pq_ch := q |} \/ is_Some (chans w !! q).

(** ** Lemmas: channels and waiters *)
Lemma send_lookup chs ch v q :
  send chs ch v !! q = match chs !! q with Some x => Some x | None => if decide (q = ch) then Some v else None end.
Proof.
  unfold send. destruct (chs !! ch) eqn:E.
  - destruct (chs !! q) eqn:E'; [done|]. case_decide; [by subst; rewrite E in E'|done].
  - destruct (decide (q = ch)) as [->|Hne].
    + by rewrite lookup_insert_eq, E.
    + rewrite lookup_insert_ne by done. by destruct (chs !! q).
Qed.

Lemma send_nil_lookup l chs q :
  send_nil chs l !! q =
    match chs !! q with Some x => Some x | None => if decide (q ∈ l) then Some None else None end.
Proof.
  revert chs. induction l as [|ch l IH]; intros chs; simpl.
  - by destruct (chs !! q).
  - rewrite IH, send_lookup. destruct (chs !! q); [done|].
    destruct (decide (q = ch)) as [->|Hne]; repeat case_decide; set_solver.
Qed.

Lemma waiters_spec c g q :
  q ∈ waiters c g <-> exists id, pending c !! id = Some {| pq_conn := g; pq_ch := q |}.
Proof.
  unfold waiters. rewrite list_elem_of_fmap. split.
  - intros ([g' q'] & -> & [Hg ([id p] & E & Hp)%list_elem_of_fmap]%list_elem_of_filter).
    simpl in *. subst p g'. apply elem_of_map_to_list in Hp. by exists id.
  - intros [id E]. eexists. split; [|apply list_elem_of_filter; split; [|apply list_elem_of_fmap; exists (id, {| pq_conn := g; pq_ch := q |}); split; [done|by apply elem_of_map_to_list]]]; done.
Qed.

(** With the invariant, a generation that is not the live one has no waiters. *)
Lemma retire_pending w g id :
  d_ok w -> pending (retire (dc w) g).1 !! id = if decide (conn (dc w) = Some g) then None else pending (dc w) !! id.
Proof.
  intros Hok. unfold retire. simpl. destruct (pending (dc w) !! id) as [p|] eqn:E.
  - pose proof (ok_pend w Hok id p E) as (Hc & _). case_decide as Hd.
    + apply map_lookup_filter_None. right. intros p' Hp'. rewrite E in Hp'. injection Hp' as <-. simpl.
      intros []. congruence.
    + apply map_lookup_filter_Some. split; [done|]. simpl. intros <-. by rewrite Hc in Hd.
  - assert (filter (fun '(_, p) => pq_conn p <> g) (pending (dc w)) !! id = None) as ->
      by (apply map_lookup_filter_None; by left). by case_decide.
Qed.

Lemma retire_conn c g : conn (retire c g).1 = if decide (conn c = Some g) then None else conn c.
Proof. unfold retire. simpl. by case_bool_decide; case_decide. Qed.

(** ** Lemmas: every step keeps the invariant *)
Lemma ok_retire w g : d_ok w -> (g < dials w)%nat -> d_ok (do_retire w g).
Proof.
  intros Hok Hg. pose proof (fun id => retire_pending w g id Hok) as HP. pose proof (retire_conn (dc w) g) as HC.
  unfold do_retire. destruct (retire (dc w) g) as [c failed] eqn:ER. cbn [fst] in HP, HC.
  assert (failed = waiters (dc w) g) as -> by (unfold retire in ER; by injection ER as _ <-).
  assert (nextID c = nextID (dc w)) as HN.
  { unfold retire in ER. injection ER as <-. simpl. by case_bool_decide. }
  constructor; cbn [dc chans threads readers shut dials sent got].
  - rewrite HN. apply Hok.
  - intros id p E. rewrite HP in E. case_decide as Hd; [done|].
    destruct (ok_pend w Hok id p E) as (H1 & H2 & H3 & H4). rewrite HC.
    split; [done|]. split; [done|]. split; [exact H3|].
    rewrite send_nil_lookup, H4. rewrite decide_False; [done|].
    intros [id' E']%waiters_spec. apply (ok_pend w Hok) in E' as (Hc & _). by simpl in Hc.
  - intros q Hi. rewrite send_nil_lookup, (ok_idle w Hok q Hi), decide_False; [done|].
    intros [id (_ & _ & Hp & _)%(ok_pend w Hok)]%waiters_spec. unfold pin in Hp. simpl in Hp.
    by destruct (threads w !! q) as [[]|].
  - intros q g' id m Hp. rewrite send_nil_lookup. destruct (chans w !! q) as [v|] eqn:E.
    + intros [= ->]. by apply (ok_val w Hok).
    + by destruct (decide (q ∈ waiters (dc w) g)).
  - apply (ok_sent w Hok).
  - apply (ok_done w Hok).
  - intros Hcl. rewrite HC. case_decide; [done|]. apply (ok_closed w Hok).
    unfold retire in ER. injection ER as <-. simpl in Hcl. by case_bool_decide.
  - intros g'. rewrite HC. case_decide as Hd; [done|]. intros E. destruct (ok_live w Hok g' E) as [H1 H2].
    split; [done|]. apply not_elem_of_union. split; [|done]. apply not_elem_of_singleton. congruence.
  - intros x Hx. destruct (decide (x = g)) as [->|Hne]; [|apply (ok_dials w Hok); set_solver]. done.
  - apply (ok_gen w Hok).
Qed.

Lemma unpinned_no_waiter w q : d_ok w -> pin w q = None ->
  forall id p, pending (dc w) !! id = Some p -> pq_ch p <> q.
Proof. intros Hok Hq id p E <-. pose proof (ok_pend w Hok id p E) as (_ & _ & Hp & _). by rewrite Hq in Hp. Qed.

Lemma idle_pin w q : idle (threads w !! q) -> pin w q = None.
Proof. unfold pin. by destruct (threads w !! q) as [[]|]. Qed.

Lemma pin_insert w q p q' :
  pin (with_thread w q p) q' = if decide (q = q') then pinned p else pin w q'.
Proof. unfold pin. simpl. rewrite lookup_insert. by case_decide. Qed.

(** A query that holds no id moves to a phase that holds none. *)
Lemma ok_thread w q p :
  d_ok w -> (forall id x, pending (dc w) !! id = Some x -> pq_ch x <> q) -> pinned p = None ->
  (forall m, p <> Done (Ok m)) -> (idle (Some p) -> chans w !! q = None) -> d_ok (with_thread w q p).
Proof.
  intros Hok Hq Hp Hm Hi. constructor; try apply Hok.
  - intros id x E. rewrite pin_insert, decide_False by (intros Hx; by eapply (Hq id x)). by apply (ok_pend w Hok).
  - intros q'. simpl. rewrite lookup_insert. case_decide; [by subst|]. apply (ok_idle w Hok).
  - intros q' g id m. rewrite pin_insert, Hp. case_decide; [done|]. apply (ok_val w Hok).
  - intros q' g id. simpl. rewrite lookup_insert. case_decide; [by intros [= ->]|]. apply (ok_sent w Hok).
  - intros q' m. simpl. rewrite lookup_insert. case_decide; [by intros [= E]; apply Hm in E|]. apply (ok_done w Hok).
  - intros q' g id. rewrite pin_insert, Hp. case_decide; [done|]. apply (ok_gen w Hok).
Qed.

Lemma ok_idle_thread w q p :
  d_ok w -> idle (threads w !! q) -> pinned p = None -> (forall m, p <> Done (Ok m)) -> d_ok (with_thread w q p).
Proof.
  intros Hok Hq Hp Hm. apply ok_thread; try done.
  - by apply unpinned_no_waiter, idle_pin.
  - intros _. by apply (ok_idle w Hok).
Qed.

Lemma ok_dc w c :
  d_ok w -> conn c = conn (dc w) -> pending c = pending (dc w) -> closed c = closed (dc w) ->
  0 <= nextID c < 65536 -> d_ok (with_dc w c).
Proof.
  intros Hok Hc Hp Hcl Hn. constructor; cbn [with_dc dc]; try apply Hok; try done.
  - intros id p. rewrite Hp, Hc. apply (ok_pend w Hok).
  - rewrite Hcl, Hc. apply (ok_closed w Hok).
  - rewrite Hc. apply (ok_live w Hok).
Qed.

(** ** Lemmas: the id probe *)
Lemma pick_loop_spec fuel p n :
  0 <= n < 65536 ->
  match pick_loop fuel p n with
  | (Ok id, n') => n' = id /\ p !! id = None /\ exists k, 1 <= k <= Z.of_nat fuel /\ id = (n + k) mod 65536 /\
      forall i, 1 <= i < k -> is_Some (p !! ((n + i) mod 65536))
  | (Err e, n') => e = ErrDoTQueryCapacity /\ n' = (n + Z.of_nat fuel) mod 65536 /\
      forall i, 1 <= i <= Z.of_nat fuel -> is_Some (p !! ((n + i) mod 65536))
  end.
Proof.
  revert n. induction fuel as [|fuel IH]; intros n Hn; cbn [pick_loop].
  - split_and!; [done|by rewrite Z.add_0_r, Z.mod_small|lia].
  - set (id := (n + 1) mod 65536). assert (0 <= id < 65536) as Hid by (apply Z.mod_pos_bound; lia).
    assert (forall i, (id + i) mod 65536 = (n + (1 + i)) mod 65536) as Hs.
    { intros i. unfold id. rewrite Zplus_mod_idemp_l. f_equal. lia. }
    case_bool_decide as Hfree.
    + split_and!; [done..|]. exists 1. split_and!; [lia|lia|done|lia].
    + specialize (IH id Hid). apply not_eq_None_Some in Hfree.
      assert (forall i, 1 <= i -> i = 1 \/ exists j, i = 1 + j /\ 1 <= j) as Hcase.
      { intros i Hi. destruct (Z.eq_dec i 1) as [->|]; [by left|]. right. exists (i - 1). lia. }
      destruct (pick_loop fuel p id) as [[e|x] n'].
      * destruct IH as (-> & -> & HI). rewrite Hs. split_and!; [done|f_equal; lia|].
        intros i Hi. destruct (Hcase i ltac:(lia)) as [->|(j & -> & Hj)]; [done|]. rewrite <- Hs. apply HI. lia.
      * destruct IH as (-> & Hx & k & Hk & -> & HI). split_and!; [done..|]. exists (1 + k).
        rewrite Hs. split_and!; [lia|lia|done|].
        intros i Hi. destruct (Hcase i ltac:(lia)) as [->|(j & -> & Hj)]; [done|]. rewrite <- Hs. apply HI. lia.
Qed.

Lemma pickID_spec c r c' :
  0 <= nextID c < 65536 -> pickID c = (r, c') ->
  c' = set_nextID c (nextID c') /\ 0 <= nextID c' < 65536 /\
  (forall id, r = Ok id -> 0 <= id < 65536 /\ pending c !! id = None).
Proof.
  intros Hn. unfold pickID. pose proof (pick_loop_spec probes (pending c) (nextID c) Hn) as HS.
  destruct (pick_loop _ _ _) as [r' n']. intros [= <- <-]. cbn [set_nextID conn pending nextID].
  assert (forall x, 0 <= x mod 65536 < 65536) as HM by (intros; apply Z.mod_pos_bound; lia).
  destruct r' as [e|id].
  - destruct HS as (-> & -> & _). split; [done|]. split; [apply HM|done].
  - destruct HS as (-> & Hf & k & _ & -> & _). split; [done|]. split; [apply HM|].
    intros id [= <-]. split; [apply HM|done].
Qed.

(** ** Lemmas: the steps that touch the ids *)
Lemma ok_new_id w q g id :
  d_ok w -> threads w !! q = Some Registering -> conn (dc w) = Some g -> 0 <= id < 65536 ->
  pending (dc w) !! id = None ->
  d_ok (with_thread (with_dc w (set_pending (dc w) (<[id := {| pq_conn := g; pq_ch := q |}]> (pending (dc w))))) q
          (Writing g id)).
Proof.
  intros Hok Hq Hg Hid Hf. assert (idle (threads w !! q)) as Hi by (by rewrite Hq).
  pose proof (unpinned_no_waiter w q Hok (idle_pin w q Hi)) as Hw.
  constructor; try apply Hok.
  - intros i x. cbn [with_thread with_dc set_pending pending conn dc]. rewrite lookup_insert_Some, pin_insert.
    intros [[<- <-]|[Hne E]]; cbn [pq_ch pq_conn].
    + rewrite decide_True by done. split_and!; try done; try lia. by apply (ok_idle w Hok).
    + rewrite decide_False by (intros Hx; by eapply (Hw i x)). by apply (ok_pend w Hok).
  - intros q'. simpl. rewrite lookup_insert. case_decide; [done|]. apply (ok_idle w Hok).
  - intros q' g' id' m. rewrite pin_insert. simpl. case_decide as Hd; [|apply (ok_val w Hok)].
    subst q'. by rewrite (ok_idle w Hok q Hi).
  - intros q' g' id'. simpl. rewrite lookup_insert. case_decide; [done|]. apply (ok_sent w Hok).
  - intros q' m. simpl. rewrite lookup_insert. case_decide; [done|]. apply (ok_done w Hok).
  - intros q' g' id'. rewrite pin_insert. case_decide; [|apply (ok_gen w Hok)]. simpl. intros [= <- <-].
    apply (ok_dials w Hok). destruct (ok_live w Hok g Hg). set_solver.
Qed.

Lemma ok_written w q g id :
  d_ok w -> threads w !! q = Some (Writing g id) ->
  d_ok {| dc := dc w; chans := chans w; threads := <[q := Waiting g id]> (threads w);
          readers := readers w; shut := shut w; dials := dials w; sent := <[q := (g, id)]> (sent w); got := got w |}.
Proof.
  intros Hok Hq.
  assert (forall q', (<[q := Waiting g id]> (threads w) !! q' : option phase) ≫= pinned = pin w q') as HP.
  { intros q'. rewrite lookup_insert. case_decide; [subst|done]. unfold pin. by rewrite Hq. }
  constructor; try apply Hok; cbn [dc chans threads readers shut dials sent got].
  - intros i x E. unfold pin at 1. simpl. rewrite HP. by apply (ok_pend w Hok).
  - intros q'. rewrite lookup_insert. case_decide; [done|]. apply (ok_idle w Hok).
  - intros q' g' id' m. unfold pin. simpl. rewrite HP. apply (ok_val w Hok).
  - intros q' g' id'. rewrite !lookup_insert. case_decide; [by intros [= <- <-]|]. apply (ok_sent w Hok).
  - intros q' m. rewrite !lookup_insert. case_decide; [done|]. apply (ok_done w Hok).
  - intros q' g' id'. unfold pin. simpl. rewrite HP. apply (ok_gen w Hok).
Qed.

Lemma ok_received w q g id v :
  d_ok w -> threads w !! q = Some (Waiting g id) -> chans w !! q = Some v ->
  d_ok {| dc := dc w; chans := delete q (chans w);
          threads := <[q := Done match v with Some m => Ok m | None => Err ErrRead end]> (threads w);
          readers := readers w; shut := shut w; dials := dials w; sent := sent w; got := got w |}.
Proof.
  intros Hok Hq Hv. assert (pin w q = Some (g, id)) as Hp by (unfold pin; by rewrite Hq).
  assert (forall q', pin {| dc := dc w; chans := delete q (chans w);
          threads := <[q := Done match v with Some m => Ok m | None => Err ErrRead end]> (threads w);
          readers := readers w; shut := shut w; dials := dials w; sent := sent w; got := got w |} q' =
          if decide (q = q') then None else pin w q') as HP.
  { intros q'. unfold pin. simpl. rewrite lookup_insert. by case_decide. }
  constructor; try apply Hok; cbn [dc chans threads readers shut dials sent got].
  - intros i x E. destruct (ok_pend w Hok i x E) as (H1 & H2 & H3 & H4).
    assert (q <> pq_ch x) by (intros ->; congruence).
    rewrite HP, decide_False, lookup_delete_ne by done. done.
  - intros q'. rewrite lookup_insert. case_decide as Hd; [done|]. rewrite lookup_delete_ne by done. apply (ok_idle w Hok).
  - intros q' g' id' m. rewrite HP. case_decide as Hd; [done|]. rewrite lookup_delete_ne by done. apply (ok_val w Hok).
  - intros q' g' id'. rewrite lookup_insert. case_decide; [done|]. apply (ok_sent w Hok).
  - intros q' m. rewrite lookup_insert. case_decide as Hd; [|apply (ok_done w Hok)]. subst q'. intros [= E].
    destruct v as [m'|]; [|done]. injection E as ->. destruct (ok_val w Hok q g id m Hp Hv) as [<- Hin].
    exists g. split; [by apply (ok_sent w Hok)|done].
  - intros q' g' id'. rewrite HP. case_decide; [done|]. apply (ok_gen w Hok).
Qed.

Lemma ok_forget w q g id e :
  d_ok w -> threads w !! q = Some (Waiting g id) ->
  d_ok (with_thread (with_dc w (forget (dc w) g id)) q (Done (Err e))).
Proof.
  intros Hok Hq. assert (pin w q = Some (g, id)) as Hp by (unfold pin; by rewrite Hq).
  set (c := forget (dc w) g id).
  assert (conn c = conn (dc w) /\ nextID c = nextID (dc w) /\ closed c = closed (dc w)) as (HC & HN & HL).
  { unfold c, forget. by destruct (pending (dc w) !! id) as [x|]; [destruct (pq_conn x =? g)%nat|]. }
  assert (forall i x, pending c !! i = Some x -> pending (dc w) !! i = Some x /\ (i <> id \/ pq_conn x <> g)) as HP.
  { intros i x. unfold c, forget. destruct (pending (dc w) !! id) as [y|] eqn:E; [destruct (pq_conn y =? g)%nat eqn:Eg|].
    - cbn [set_pending pending]. intros [Hne Hx]%lookup_delete_Some. split; [done|]. left. congruence.
    - intros Hx. split; [done|]. apply Nat.eqb_neq in Eg. destruct (Z.eq_dec i id) as [->|]; [right|by left].
      rewrite E in Hx. by injection Hx as <-.
    - intros Hx. split; [done|]. left. intros ->. by rewrite E in Hx. }
  assert (d_ok (with_dc w c)) as Hok'.
  { constructor; cbn [with_dc dc]; try apply Hok; try (rewrite ?HC, ?HN, ?HL; apply Hok).
    intros i x [E _]%HP. rewrite HC. by apply (ok_pend w Hok). }
  apply ok_thread; try done. intros i x [E Hne]%HP Hx.
  destruct (ok_pend w Hok i x E) as (_ & _ & H3 & _). rewrite Hx, Hp in H3. injection H3 as -> ->. by destruct Hne.
Qed.

Lemma ok_retire_finish w q g id e :
  d_ok w -> pin w q = Some (g, id) -> d_ok (with_thread (do_retire w g) q (Done (Err e))).
Proof.
  intros Hok Hp. pose proof (ok_gen w Hok q g id Hp) as Hg. apply ok_thread; try done; [by apply ok_retire|].
  intros i x E <-. assert (dc (do_retire w g) = (retire (dc w) g).1) as HD by done.
  rewrite HD, (retire_pending w g i Hok) in E. case_decide as Hd; [done|].
  destruct (ok_pend w Hok i x E) as (Hc & _ & Hx & _). congruence.
Qed.

Lemma ok_dispatch w g m : d_ok w -> d_ok (do_dispatch w g m).
Proof.
  intros Hok. unfold do_dispatch, dispatch.
  assert (forall ch, d_ok {| dc := dc w; chans := chans w; threads := threads w; readers := readers w;
                             shut := shut w; dials := dials w; sent := sent w; got := (g, m, ch) :: got w |}) as Hgot.
  { intros ch. constructor; try apply Hok; cbn [dc chans threads readers shut dials sent got].
    - intros q g' id x Hp Hx. destruct (ok_val w Hok q g' id x Hp Hx). split; [done|]. by right.
    - intros q x Hx. destruct (ok_done w Hok q x Hx) as (g' & H1 & H2). exists g'. split; [done|]. by right. }
  destruct (pending (dc w) !! Id m) as [p|] eqn:E; [destruct (Nat.eqb_spec (pq_conn p) g) as [Hg|Hg]|]; try apply Hgot.
  destruct (ok_pend w Hok _ p E) as (H1 & H2 & H3 & H4). specialize (Hgot (Some (pq_ch p))).
  constructor; try apply Hgot; cbn [set_pending dc pending conn nextID chans threads].
  - intros i x [Hne Hx]%lookup_delete_Some. destruct (ok_pend w Hok i x Hx) as (G1 & G2 & G3 & G4).
    split; [done|]. split; [done|]. split; [done|]. rewrite send_lookup, G4, decide_False; [done|].
    intros Hxp. rewrite Hxp, H3 in G3. congruence.
  - intros q Hq. rewrite send_lookup, (ok_idle w Hok q Hq), decide_False; [done|].
    intros ->. apply idle_pin in Hq. congruence.
  - intros q g' id x Hp. rewrite send_lookup. destruct (chans w !! q) as [v|] eqn:Ev.
    + intros [= ->]. by apply (ok_val _ Hgot q g' id).
    + destruct (decide (q = pq_ch p)) as [->|Hq]; [|done]. intros [= <-].
      assert (pin w (pq_ch p) = Some (g', id)) as Hp' by exact Hp. rewrite H3 in Hp'. injection Hp' as <- <-.
      split; [done|]. rewrite Hg. by left.
Qed.

Lemma ok_close w : d_ok w -> d_ok (do_close w).
Proof.
  intros Hok. unfold do_close, close. destruct (closed (dc w)) eqn:EC.
  - constructor; apply Hok.
  - constructor; try apply Hok; cbn [dc conn pending nextID chans threads readers shut dials sent got]; try done.
    + intros q Hq. rewrite send_nil_lookup, (ok_idle w Hok q Hq), decide_False; [done|].
      intros (y & -> & ([i x] & -> & Hx)%list_elem_of_fmap)%list_elem_of_fmap.
      apply elem_of_map_to_list in Hx. destruct (ok_pend w Hok i _ Hx) as (_ & _ & H3 & _).
      apply idle_pin in Hq. simpl in *. congruence.
    + intros q g' id m Hp. rewrite send_nil_lookup. destruct (chans w !! q) as [v|] eqn:E.
      * intros [= ->]. by apply (ok_val w Hok).
      * by case_decide.
    + intros g Hg. apply (ok_dials w Hok). destruct (conn (dc w)) as [g'|] eqn:E; [|done].
      destruct (ok_live w Hok g' E). set_solver.
Qed.

Lemma ok_dialed w q ctx : d_ok w -> threads w !! q = Some Dialing -> d_ok (do_dialed w q ctx).
Proof.
  intros Hok Hq. unfold do_dialed. destruct (reconnect_end (dc w) (dials w) ctx) as [[err drop] c] eqn:ER.
  assert (idle (threads w !! q)) as Hi by (by rewrite Hq).
  set (p := match err with Some e => Done (Err e) | None => Registering end).
  assert (d_ok (with_thread w q p)) as Hok1.
  { apply ok_idle_thread; try done; [by unfold p; destruct err|intros m; by unfold p; destruct err]. }
  assert (nextID c = nextID (dc w) /\ pending c = pending (dc w) /\ closed c = closed (dc w) /\
          (drop = true /\ conn c = conn (dc w) \/ drop = false /\ closed (dc w) = false /\ conn (dc w) = None /\ conn c = Some (dials w))) as (HN & HP & HL & HC).
  { unfold reconnect_end in ER. destruct ctx as [e|]; [by injection ER as <- <- <-; split_and!; eauto|].
    destruct (closed (dc w)) eqn:EL; [by injection ER as <- <- <-; split_and!; eauto|].
    destruct (conn (dc w)) as [g|] eqn:E; injection ER as <- <- <-; simpl; rewrite ?E, ?EL; split_and!; eauto. }
  assert (forall x, x ∈ readers w ∪ shut w -> x <> dials w) as Hfresh
    by (intros x Hx%(ok_dials w Hok); lia).
  constructor; try apply Hok1; cbn [dc chans threads readers shut dials sent got].
  - rewrite HN. apply Hok.
  - intros i x. rewrite HP. intros E. destruct (ok_pend _ Hok1 i x E) as (H1 & H2 & H3 & H4).
    split; [|done]. destruct HC as [[_ ->]|(_ & _ & HC & _)]; [done|]. simpl in H1. congruence.
  - rewrite HL. intros Hcl. destruct HC as [[_ ->]|(_ & HC & _)]; [by apply (ok_closed w Hok)|congruence].
  - intros g Hg. destruct HC as [[-> HC]|(-> & _ & _ & HC)]; rewrite HC in Hg.
    + destruct (ok_live w Hok g Hg) as [G1 G2]. split; [done|].
      assert (g <> dials w) by (apply Hfresh; set_solver). set_solver.
    + injection Hg as <-. split; [set_solver|]. intros Hs. by apply (Hfresh (dials w)); [set_solver|].
  - intros g Hg. destruct (decide (g = dials w)) as [->|Hne]; [lia|].
    pose proof (ok_dials w Hok g) as HD. destruct drop; enough (g < dials w)%nat by lia; apply HD; set_solver.
  - intros q' g id Hp. pose proof (ok_gen _ Hok1 q' g id Hp) as Hlt. simpl in Hlt. lia.
Qed.

Lemma register_cases w q ctx r c :
  d_ok w -> register (dc w) q ctx = (r, c) ->
  match r with
  | RegOk g id => exists c0, c0 = with_dc w (set_nextID (dc w) (nextID c)) /\ d_ok c0 /\ conn (dc w) = Some g /\
      0 <= id < 65536 /\ pending (dc w) !! id = None /\
      c = set_pending (dc c0) (<[id := {| pq_conn := g; pq_ch := q |}]> (pending (dc w)))
  | RegErr _ | RegReconnect => conn c = conn (dc w) /\ pending c = pending (dc w) /\ d_ok (with_dc w c)
  end.
Proof.
  intros Hok. pose proof (ok_next w Hok) as Hn.
  assert (d_ok (with_dc w (dc w))) as Hsame by (by apply ok_dc).
  unfold register. destruct ctx as [e|]; [by intros [= <- <-]|].
  destruct (closed (dc w)); [by intros [= <- <-]|].
  destruct (conn (dc w)) as [g|] eqn:Eg; [|by intros [= <- <-]].
  destruct (pickID (dc w)) as [r' c'] eqn:EP.
  destruct (pickID_spec _ _ _ Hn EP) as (HC & HN & HF). clear EP.
  assert (d_ok (with_dc w (set_nextID (dc w) (nextID c')))) as Hok' by (by apply ok_dc).
  destruct r' as [e|id]; intros [= <- <-].
  - rewrite HC. by rewrite <- Eg.
  - destruct (HF id eq_refl) as [Hid Hf]. eexists. split; [done|]. split; [exact Hok'|].
    split; [done|]. split; [done|]. split; [done|]. by rewrite HC.
Qed.

Lemma ok_step w e w' : d_ok w -> d_step w e = Some w' -> d_ok w'.
Proof.
  intros Hok. destruct e as [q ctx|q ctx|q|q|q ctx|q ok|q|q e|g m|g|]; simpl.
  - destruct (threads w !! q) eqn:Eq; [done|]. intros [= <-].
    apply ok_idle_thread; try done; [by rewrite Eq|by destruct ctx|by destruct ctx].
  - destruct (threads w !! q) as [[]|] eqn:Eq; try done. destruct (register _ _ _) as [r c] eqn:ER. intros [= <-].
    pose proof (register_cases w q ctx r c Hok ER) as HR. destruct r as [e| |g id].
    + destruct HR as (_ & _ & HR). apply ok_idle_thread; try done. simpl. by rewrite Eq.
    + destruct HR as (_ & _ & HR). apply ok_idle_thread; try done. simpl. by rewrite Eq.
    + destruct HR as (c0 & -> & Hok0 & Hg & Hid & Hf & ->).
      exact (ok_new_id _ q g id Hok0 Eq Hg Hid Hf).
  - destruct (threads w !! q) as [[]|] eqn:Eq; try done. intros [= <-].
    apply ok_idle_thread; try done; [by rewrite Eq|by destruct (reconnect_begin _)|by destruct (reconnect_begin _)].
  - destruct (threads w !! q) as [[]|] eqn:Eq; try done. intros [= <-]. apply ok_idle_thread; try done. by rewrite Eq.
  - destruct (threads w !! q) as [[]|] eqn:Eq; try done. intros [= <-]. by apply ok_dialed.
  - destruct (threads w !! q) as [[| | |g id| |]|] eqn:Eq; try done. destruct ok; intros [= <-].
    + by apply ok_written.
    + apply (ok_retire_finish w q g id); [done|]. unfold pin. by rewrite Eq.
  - destruct (threads w !! q) as [[| | | |g id|]|] eqn:Eq; try done. destruct (chans w !! q) as [v|] eqn:Ev; [|done].
    intros [= <-]. by apply (ok_received w q g id v).
  - destruct (threads w !! q) as [[| | | |g id|]|] eqn:Eq; try done. intros [= <-]. destruct e.
    + by apply ok_forget.
    + apply (ok_retire_finish w q g id); [done|]. unfold pin. by rewrite Eq.
  - case_decide; [|done]. intros [= <-]. by apply ok_dispatch.
  - case_decide as Hr; [|done]. intros [= <-].
    assert (g < dials w)%nat as Hg by (apply (ok_dials w Hok); set_solver).
    pose proof (ok_retire w g Hok Hg) as Hok1. constructor; try apply Hok1; cbn [dc readers shut].
    + intros x Hx. destruct (ok_live _ Hok1 x Hx) as [H1 H2]. split; [|done].
      assert (x <> g) by (intros ->; apply H2; simpl; set_solver). set_solver.
    + intros x Hx. apply (ok_dials _ Hok1). simpl in *. set_solver.
  - intros [= <-]. by apply ok_close.
Qed.

(** ** Lemmas: who stays served *)
Lemma served_mono w w' q :
  pin w' q = pin w q \/ pin w' q = None -> (is_Some (chans w !! q) -> is_Some (chans w' !! q)) ->
  (forall g id, pending (dc w) !! id = Some {| pq_conn := g; pq_ch := q |} ->
    pending (dc w') !! id = Some {| pq_conn := g; pq_ch := q |} \/ is_Some (chans w' !! q)) ->
  served w q -> served w' q.
Proof.
  intros HP HC HE HS g id Hp. destruct HP as [HP|HP]; [|congruence]. rewrite HP in Hp.
  destruct (HS g id Hp) as [E|E]; [by apply HE|right; by apply HC].
Qed.

Lemma send_nil_some chs l q : is_Some (chs !! q) \/ q ∈ l -> is_Some (send_nil chs l !! q).
Proof. rewrite send_nil_lookup. intros [[v ->]|Hq]; [done|]. destruct (chs !! q); [done|]. by rewrite decide_True. Qed.

Lemma served_retire w g q : d_ok w -> served w q -> served (do_retire w g) q.
Proof.
  intros Hok. apply served_mono; [by left|intros HS; apply send_nil_some; by left|].
  intros g' id E. destruct (decide (conn (dc w) = Some g)) as [Hg|Hg].
  - right. apply send_nil_some. right. apply waiters_spec. exists id. rewrite E.
    destruct (ok_pend w Hok id _ E) as (Hc & _). simpl in Hc. congruence.
  - left. pose proof (retire_pending w g id Hok) as HR. rewrite decide_False in HR by done. rewrite <- E. exact HR.
Qed.

Lemma served_thread w q p q' : pinned p = None -> served w q' -> served (with_thread w q p) q'.
Proof.
  intros Hp. apply served_mono; [|done|by left]. rewrite pin_insert, Hp. case_decide; [by right|by left].
Qed.

Lemma served_dispatch w g m q : served w q -> served (do_dispatch w g m) q.
Proof.
  unfold do_dispatch, dispatch.
  destruct (pending (dc w) !! Id m) as [p|] eqn:E; [destruct (Nat.eqb_spec (pq_conn p) g) as [Hg|Hg]|];
    (apply served_mono; [by left| |]); cbn [dc chans set_pending pending]; try done; try (by left).
  - intros [v Hv]. rewrite send_lookup, Hv. done.
  - intros g' id E'. destruct (Z.eq_dec id (Id m)) as [->|Hne].
    + right. rewrite E in E'. injection E' as ->. rewrite send_lookup. simpl.
      destruct (chans w !! q); [done|]. by rewrite decide_True.
    + left. by rewrite lookup_delete_ne.
Qed.

Lemma served_close w q : served w q -> served (do_close w) q.
Proof.
  unfold do_close, close. destruct (closed (dc w)).
  - by apply served_mono; [left| |left].
  - apply served_mono; [by left| |]; cbn [dc chans pending].
    + intros H. apply send_nil_some. by left.
    + intros g id E. right. apply send_nil_some. right. apply list_elem_of_fmap. eexists. split; [|].
      2: { apply list_elem_of_fmap. exists (id, {| pq_conn := g; pq_ch := q |}). split; [done|]. by apply elem_of_map_to_list. }
      done.
Qed.

Definition steals (w : World) (e : event) (q : nat) : Prop :=
  exists q0 g id, e = CtxDone q0 Canceled /\ q0 <> q /\ threads w !! q0 = Some (Waiting g id) /\
    pending (dc w) !! id = Some {| pq_conn := g; pq_ch := q |}.

Lemma served_cancel w q0 g id q :
  threads w !! q0 = Some (Waiting g id) -> served w q ->
  served (with_thread (with_dc w (forget (dc w) g id)) q0 (Done (Err (ErrCtx Canceled)))) q \/
  steals w (CtxDone q0 Canceled) q.
Proof.
  intros Hq HS. destruct (Nat.eq_dec q0 q) as [->|Hne].
  - left. intros g' id'. by rewrite pin_insert, decide_True.
  - destruct (decide (pending (dc w) !! id = Some {| pq_conn := g; pq_ch := q |})) as [E|Hn].
    + right. by exists q0, g, id.
    + left. apply served_thread; [done|]. revert HS. apply served_mono; [by left|done|].
      intros g' id' E. left. cbn [with_dc dc]. unfold forget.
      destruct (pending (dc w) !! id) as [x|] eqn:Ex; [|done].
      destruct (Nat.eqb_spec (pq_conn x) g) as [Hx|Hx]; [|done]. cbn [set_pending pending].
      rewrite lookup_delete_ne; [done|]. intros ->. rewrite Ex in E. injection E as ->. simpl in *. congruence.
Qed.

Lemma served_step w e w' q : d_ok w -> d_step w e = Some w' -> served w q -> served w' q \/ steals w e q.
Proof.
  intros Hok. destruct e as [q0 ctx|q0 ctx|q0|q0|q0 ctx|q0 ok|q0|q0 e|g m|g|]; simpl.
  - destruct (threads w !! q0) eqn:Eq; [done|]. intros [= <-] HS. left. apply served_thread; [by destruct ctx|done].
  - destruct (threads w !! q0) as [[]|] eqn:Eq; try done. destruct (register _ _ _) as [r c] eqn:ER. intros [= <-] HS. left.
    pose proof (register_cases w q0 ctx r c Hok ER) as HR.
    assert (pending c = pending (dc w) -> served (with_dc w c) q) as Hsame.
    { intros E. revert HS. apply served_mono; [by left|done|]. intros. left. cbn [with_dc dc]. by rewrite E. }
    destruct r as [e| |g id]; [by apply served_thread, Hsame, HR..|].
    destruct HR as (c0 & -> & Hok0 & Hg & Hid & Hf & ->). intros g' id'. rewrite pin_insert.
    cbn [with_thread with_dc dc set_pending set_nextID pending chans]. case_decide as Hd.
    + simpl. intros [= <- <-]. left. subst q0. apply lookup_insert_eq.
    + intros Hp. destruct (HS g' id' Hp) as [E|E]; [left|by right]. rewrite lookup_insert_ne; [done|].
      intros ->. congruence.
  - destruct (threads w !! q0) as [[]|] eqn:Eq; try done. intros [= <-] HS. left.
    apply served_thread; [by destruct (reconnect_begin _)|done].
  - destruct (threads w !! q0) as [[]|] eqn:Eq; try done. intros [= <-] HS. left. by apply served_thread.
  - destruct (threads w !! q0) as [[]|] eqn:Eq; try done. intros [= <-] HS. left. revert HS.
    unfold do_dialed. destruct (reconnect_end _ _ _) as [[err drop] c] eqn:ER. apply served_mono; [|done|].
    + unfold pin. simpl. rewrite lookup_insert. case_decide; [right; by destruct err|by left].
    + intros g id E. left. cbn [dc]. unfold reconnect_end in ER.
      destruct ctx; [by injection ER as _ _ <-|]. destruct (closed (dc w)); [by injection ER as _ _ <-|].
      by destruct (conn (dc w)); injection ER as _ _ <-.
  - destruct (threads w !! q0) as [[| | |g id| |]|] eqn:Eq; try done. destruct ok; intros [= <-] HS; left.
    + revert HS. apply served_mono; [left|done|by left].
      unfold pin. simpl. rewrite lookup_insert. case_decide; [subst; by rewrite Eq|done].
    + apply served_thread; [done|]. by apply served_retire.
  - destruct (threads w !! q0) as [[| | | |g id|]|] eqn:Eq; try done. destruct (chans w !! q0) as [v|] eqn:Ev; [|done].
    intros [= <-] HS. left. destruct (Nat.eq_dec q0 q) as [->|Hne].
    + intros g' id'. unfold pin. simpl. by rewrite lookup_insert_eq.
    + revert HS. apply served_mono; cbn [chans dc].
      * left. unfold pin. simpl. by rewrite lookup_insert_ne.
      * by rewrite lookup_delete_ne.
      * by left.
  - destruct (threads w !! q0) as [[| | | |g id|]|] eqn:Eq; try done. intros [= <-] HS. destruct e.
    + by apply served_cancel.
    + left. apply served_thread; [done|]. by apply served_retire.
  - case_decide; [|done]. intros [= <-] HS. left. by apply served_dispatch.
  - case_decide as Hr; [|done]. intros [= <-] HS. left. apply (served_retire w g) in HS; [|done].
    revert HS. by apply served_mono; [left| |left].
  - intros [= <-] HS. left. by apply served_close.
Qed.

Lemma ok_init : d_ok d_init.
Proof. constructor; unfold pin; simpl; try done; try lia. Qed.

Lemma ok_reach w : d_reach w -> d_ok w.
Proof. induction 1; [apply ok_init|by eapply ok_step]. Qed.

Lemma d_run_snoc es e w : d_run es = Some w -> d_run (es ++ [e]) = d_step w e.
Proof. intros E. unfold d_run in *. by rewrite foldl_app, E. Qed.

Lemma d_run_reach es w : d_run es = Some w -> d_reach w.
Proof.
  revert w. induction es as [|e es IH] using rev_ind; intros w.
  - intros [= <-]. constructor.
  - unfold d_run. rewrite foldl_app. simpl. destruct (foldl _ _ es) as [w'|] eqn:E; [|done]. simpl.
    intros HS. econstructor; [by apply IH|done].
Qed.

(** A run in which no cancellation hits an id that has been given to another
    query meanwhile. *)
Inductive calm : World -> Prop :=
| calm_start : calm d_init
| calm_next w e w' : calm w -> d_step w e = Some w' -> (forall q, ~ steals w e q) -> calm w'.

Lemma calm_reach w : calm w -> d_reach w.
Proof. induction 1; by econstructor. Qed.

Lemma calm_served w q : calm w -> served w q.
Proof.
  induction 1 as [|w e w' Hc IH HS Hn]; [by intros g id|].
  destruct (served_step w e w' q) as [H|H]; try done; [by apply ok_reach, calm_reach|by destruct (Hn q)].
Qed.

(** ** The theorems *)

(** C16: the reply a query returns was read on the very connection the query was
    written to, carries the message id it was written with, and was handed to
    no other query, whatever the other queries, the readers and [close] do. *)
Theorem replies_matched w q m :
  d_reach w -> threads w !! q = Some (Done (Ok m)) ->
  exists g, sent w !! q = Some (g, Id m) /\ (g, m, Some q) ∈ got w.
Proof. intros Hr. by apply ok_done, ok_reach. Qed.

(** [pickID] gives the first message id after the last one given that no
    query in flight holds, wrapping at 65536; it fails exactly when all 65536
    ids are held, and then leaves the connection as it was. *)
Theorem pickID_first_free c :
  0 <= nextID c < 65536 ->
  match pickID c with
  | (Ok id, c') => c' = set_nextID c id /\ 0 <= id < 65536 /\ pending c !! id = None /\
      exists k, 1 <= k <= 65536 /\ id = (nextID c + k) mod 65536 /\
        forall i, 1 <= i < k -> is_Some (pending c !! ((nextID c + i) mod 65536))
  | (Err e, c') => e = ErrDoTQueryCapacity /\ c' = set_nextID c (nextID c) /\
      forall id, 0 <= id < 65536 -> is_Some (pending c !! id)
  end.
Proof.
  intros Hn. unfold pickID. pose proof (pick_loop_spec probes (pending c) (nextID c) Hn) as HS.
  destruct (pick_loop _ _ _) as [[e|id] n'].
  - destruct HS as (-> & -> & HI). split; [done|]. assert (Z.of_nat probes = 65536) as HP by done. rewrite HP in *.
    split; [f_equal; by rewrite <- Zplus_mod_idemp_r, Z_mod_same_full, Z.add_0_r, Z.mod_small|].
    intros id Hid. set (i := (id - nextID c - 1) mod 65536 + 1).
    assert (0 <= (id - nextID c - 1) mod 65536 < 65536) by (apply Z.mod_pos_bound; lia).
    replace id with ((nextID c + i) mod 65536); [apply HI; lia|]. unfold i.
    replace (nextID c + ((id - nextID c - 1) mod 65536 + 1)) with ((id - nextID c - 1) mod 65536 + (nextID c + 1)) by lia.
    rewrite Zplus_mod_idemp_l. replace (id - nextID c - 1 + (nextID c + 1)) with id by lia. by apply Z.mod_small.
  - destruct HS as (-> & Hf & k & Hk & -> & HI). split; [done|]. split; [apply Z.mod_pos_bound; lia|].
    split; [done|]. exists k. assert (Z.of_nat probes = 65536) as HP by done. split_and!; try lia; done.
Qed.

(** C17: no query is stranded: in a run without a stolen id, a query that waits
    either has its answer (a reply, or the failure of its connection) to
    receive, or is the one holder of its id on the live, open connection, whose
    reader runs; so when that connection is retired or closed, for whatever
    reason, the answer is there. *)
Theorem waiters_released w q g id :
  calm w -> threads w !! q = Some (Waiting g id) ->
  (exists w', d_step w (Receive q) = Some w') \/
  (conn (dc w) = Some g /\ closed (dc w) = false /\ g ∈ readers w /\ (g ∉ shut w) /\
   forall q', pin w q' = Some (g, id) -> q' <> q -> is_Some (chans w !! q')).
Proof.
  intros Hc Hq. pose proof (ok_reach w (calm_reach w Hc)) as Hok.
  assert (pin w q = Some (g, id)) as Hp by (unfold pin; by rewrite Hq).
  destruct (calm_served w q Hc g id Hp) as [E|[v E]].
  - right. destruct (ok_pend w Hok id _ E) as (Hg & _). simpl in Hg.
    destruct (ok_live w Hok g Hg) as [Hr Hs]. split_and!; try done.
    + destruct (closed (dc w)) eqn:EC; [|done]. rewrite (ok_closed w Hok EC) in Hg. done.
    + intros q' Hp' Hne. destruct (calm_served w q' Hc g id Hp') as [E'|E']; [|done]. congruence.
  - left. simpl. rewrite Hq, E. eauto.
Qed.

(** ** Examples *)
Definition demo_msg (id : Z) : Msg := set_Id new_Msg id.

(** Two queries share a connection; the second is answered first. *)
Definition demo_events : list event :=
  [Query 0 None; Register 0 None; Reconnect 0; Dialed 0 None; Register 0 None; Write 0 true;
   Query 1 None; Register 1 None; Write 1 true;
   Read 0 (demo_msg 2); Read 0 (demo_msg 7); Receive 1; ReadFailed 0; Receive 0].

Definition demo_world (n : nat) : World := default d_init (d_run (take n demo_events)).

Lemma demo_world_reach n : d_reach (demo_world n).
Proof.
  unfold demo_world. destruct (d_run (take n demo_events)) as [w|] eqn:E; [by apply d_run_reach in E|constructor].
Qed.

Lemma demo_done : threads (demo_world 14) !! 1%nat = Some (Done (Ok (demo_msg 2))).
Proof. by vm_compute. Qed.

Example demo_failed : threads (demo_world 14) !! 0%nat = Some (Done (Err ErrRead)).
Proof. by vm_compute. Qed.

Lemma replies_matched_witness :
  d_reach (demo_world 14) /\ threads (demo_world 14) !! 1%nat = Some (Done (Ok (demo_msg 2))) /\
  exists g, sent (demo_world 14) !! 1%nat = Some (g, 2) /\ (g, demo_msg 2, Some 1%nat) ∈ got (demo_world 14).
Proof.
  split; [apply demo_world_reach|]. split; [apply demo_done|].
  exact (replies_matched (demo_world 14) 1 (demo_msg 2) (demo_world_reach 14) demo_done).
Defined.

Lemma pickID_first_free_witness :
  0 <= nextID newDotConn < 65536 /\
  match pickID newDotConn with
  | (Ok id, c') => c' = set_nextID newDotConn id /\ 0 <= id < 65536 /\ pending newDotConn !! id = None /\
      exists k, 1 <= k <= 65536 /\ id = (nextID newDotConn + k) mod 65536 /\
        forall i, 1 <= i < k -> is_Some (pending newDotConn !! ((nextID newDotConn + i) mod 65536))
  | (Err e, c') => e = ErrDoTQueryCapacity /\ c' = set_nextID newDotConn (nextID newDotConn) /\
      forall id, 0 <= id < 65536 -> is_Some (pending newDotConn !! id)
  end.
Proof. split; [simpl; lia|]. apply (pickID_first_free newDotConn). simpl. lia. Defined.

Lemma demo_calm : calm (demo_world 9).
Proof.
  assert (forall n w, (n <= 9)%nat -> d_run (take n demo_events) = Some w -> calm w) as H.
  { intros n. induction n as [|n IH]; intros w Hn; [intros [= <-]; constructor|].
    assert (exists e, demo_events !! n = Some e /\ forall q x, e <> CtxDone q x) as (e & Ee & He)
      by (do 9 (destruct n as [|n]; [by eexists|]); lia).
    rewrite (take_S_r _ _ _ Ee). intros E. destruct (d_run (take n demo_events)) as [w0|] eqn:E0.
    - rewrite (d_run_snoc _ _ _ E0) in E. econstructor; [by apply IH; [lia|]|done|].
      intros q (q0 & g & id & -> & _). by apply (He q0 Canceled).
    - exfalso. clear -E E0. unfold d_run in *. rewrite foldl_app, E0 in E. done. }
  unfold demo_world. destruct (d_run (take 9 demo_events)) as [w|] eqn:E; [by eapply H|constructor].
Qed.

Lemma demo_waits : threads (demo_world 9) !! 0%nat = Some (Waiting 0 1).
Proof. by vm_compute. Qed.

Lemma waiters_released_witness :
  calm (demo_world 9) /\ threads (demo_world 9) !! 0%nat = Some (Waiting 0 1) /\
  ((exists w', d_step (demo_world 9) (Receive 0) = Some w') \/
   (conn (dc (demo_world 9)) = Some 0%nat /\ closed (dc (demo_world 9)) = false /\
    0%nat ∈ readers (demo_world 9) /\ (0%nat ∉ shut (demo_world 9)) /\
    forall q', pin (demo_world 9) q' = Some (0%nat, 1) -> q' <> 0%nat -> is_Some (chans (demo_world 9) !! q'))).
Proof.
  split; [apply demo_calm|]. split; [apply demo_waits|].
  exact (waiters_released (demo_world 9) 0 0 1 demo_calm demo_waits).
Defined.

(** ** A stolen id

    [forget] compares the connection of the entry it deletes, not its channel.
    A cancelled query whose reply has arrived, but whose [select] takes the
    [ctx.Done] branch after 65536 more registrations, deletes the entry of the
    query that holds its old id now: that query's reply is dropped. *)
Record spun (k : nat) (w : World) : Prop := {
  spun_reach : d_reach w;
  spun_conn : conn (dc w) = Some 0%nat;
  spun_open : closed (dc w) = false;
  spun_empty : pending (dc w) = ∅;
  spun_next : nextID (dc w) = (1 + Z.of_nat k) mod 65536;
  spun_first : threads w !! 0%nat = Some (Waiting 0 1);
  spun_chans : chans w = {[0%nat := Some (demo_msg 1)]};
  spun_fresh : forall j, (k < j)%nat -> threads w !! j = None
}.

Definition spin (q : nat) : list event := [Query q None; Register q None; Write q true].

Definition runs (w : World) (es : list event) : option World :=
  foldl (fun w e => w ← w; d_step w e) (Some w) es.

Lemma runs_reach w es w' : d_reach w -> runs w es = Some w' -> d_reach w'.
Proof.
  intros Hw. revert w'. induction es as [|e es IH] using rev_ind; intros w'; [by intros [= <-]|].
  unfold runs. rewrite foldl_app. simpl. destruct (foldl _ _ es) as [w1|] eqn:E; [|done]. simpl.
  intros HS. econstructor; [by apply IH|done].
Qed.

Lemma pick_empty n : pick_loop probes ∅ n = (Ok ((n + 1) mod 65536), (n + 1) mod 65536).
Proof. assert (Z.of_nat probes = 65536) as HP by done. revert HP. generalize probes. intros [|f] HP; done. Qed.

Lemma spin_runs k w : spun k w -> exists w', runs w (spin (S k)) = Some w' /\
  threads w' = <[S k := Waiting 0 ((2 + Z.of_nat k) mod 65536)]> (threads w) /\ chans w' = chans w /\
  readers w' = readers w /\
  dc w' = {| conn := Some 0%nat; closed := false; nextID := (2 + Z.of_nat k) mod 65536;
             pending := {[ (2 + Z.of_nat k) mod 65536 := {| pq_conn := 0; pq_ch := S k |} ]} |}.
Proof.
  intros [_ Hc Ho He Hn _ _ Hf]. eexists. unfold runs, spin. cbn [foldl mbind option_bind d_step].
  rewrite (Hf (S k)) by lia. cbn [mbind option_bind d_step with_thread threads]. rewrite lookup_insert_eq.
  unfold register, pickID. cbn [with_thread dc]. rewrite Ho, Hc, He, pick_empty, Hn, Zplus_mod_idemp_l.
  replace (1 + Z.of_nat k + 1) with (2 + Z.of_nat k) by lia.
  cbn [mbind option_bind d_step with_thread with_dc threads dc chans readers]. rewrite lookup_insert_eq. cbn [readers chans threads dc].
  split; [done|]. split; [by rewrite !insert_insert_eq|]. split; [done|]. split; [done|].
  unfold set_pending, set_nextID. cbn [conn pending nextID closed]. by rewrite Hc, Ho, He.
Qed.

Lemma spun_step k w : spun k w -> exists w', spun (S k) w'.
Proof.
  intros HS. destruct (spin_runs k w HS) as (w1 & ER & HT & HC & _ & HD). destruct HS as [Hr Hc Ho He Hn H0 Hch Hf].
  set (i := (2 + Z.of_nat k) mod 65536) in *.
  assert (d_step w1 (CtxDone (S k) Canceled) =
          Some (with_thread (with_dc w1 (forget (dc w1) 0 i)) (S k) (Done (Err (ErrCtx Canceled))))) as E.
  { simpl. by rewrite HT, lookup_insert_eq. }
  eexists. constructor; [econstructor; [by eapply runs_reach|exact E]|..];
    cbn [with_thread with_dc dc threads chans]; rewrite ?HT, ?HD; unfold forget; cbn [pending conn nextID closed];
    rewrite ?lookup_singleton_eq; cbn [pq_conn Nat.eqb set_pending pending conn nextID closed]; try done.
  - apply delete_singleton_eq.
  - unfold i. f_equal. lia.
  - by rewrite !lookup_insert_ne by done.
  - by rewrite HC.
  - intros j Hj. rewrite !lookup_insert_ne by lia. apply Hf. lia.
Qed.

Definition spin_world : World :=
  default d_init (d_run (take 6 demo_events ++ [Read 0 (demo_msg 1)])).

Lemma spun_start : spun 0 spin_world.
Proof.
  assert (threads spin_world = {[0%nat := Waiting 0 1]}) as HT by (by vm_compute).
  constructor; [|by vm_compute..|].
  - unfold spin_world. destruct (d_run _) as [w|] eqn:E; [by apply d_run_reach in E|constructor].
  - intros j Hj. rewrite HT. apply lookup_singleton_ne. lia.
Qed.

Lemma spun_all k : exists w, spun k w.
Proof. induction k as [|k [w IH]]; [exists spin_world; apply spun_start|by eapply spun_step]. Qed.

(** A reachable world in which a query waits for the id 1 on the live
    connection, and whatever message with that id its reader reads goes to no
    one. *)
Theorem forget_strands :
  exists w q, d_reach w /\ threads w !! q = Some (Waiting 0 1) /\ conn (dc w) = Some 0%nat /\
    chans w !! q = None /\ forall m, Id m = 1 -> dispatch (dc w) 0 m = (None, dc w).
Proof.
  destruct (spun_all (Z.to_nat 65535)) as [w HS].
  destruct (spin_runs _ w HS) as (w1 & ER & HT & HC & _ & HD). destruct HS as [Hr _ _ _ _ H0 Hch _].
  set (q := S (Z.to_nat 65535)) in *. assert ((2 + Z.of_nat (Z.to_nat 65535)) mod 65536 = 1) as Hi by (by rewrite Z2Nat.id by lia).
  rewrite Hi in *. assert (0%nat <> q) as Hq by (by unfold q).
  clearbody q.
  assert (d_step w1 (CtxDone 0 Canceled) =
          Some (with_thread (with_dc w1 (forget (dc w1) 0 1)) 0 (Done (Err (ErrCtx Canceled))))) as E.
  { simpl. by rewrite HT, lookup_insert_ne, H0. }
  exists (with_thread (with_dc w1 (forget (dc w1) 0 1)) 0 (Done (Err (ErrCtx Canceled)))), q.
  split; [econstructor; [by eapply runs_reach|exact E]|].
  cbn [with_thread with_dc dc threads chans]. rewrite HT, HC, Hch, HD. split_and!.
  - rewrite lookup_insert_ne by done. apply lookup_insert_eq.
  - done.
  - by apply lookup_singleton_ne.
  - intros m Hm. unfold dispatch, forget. rewrite Hm. cbn [pending]. by rewrite lookup_singleton_eq.
Qed.
