(* ===== verification/Upstream.v ===== *)
(** * The upstream race

    [internal/resolver/upstream.go]: the pools, the TLS server names, the
    framing of DNS over TLS, and [Query], which races the dials of the primary
    pool, lets the fallback pool join after a delay, and returns the first
    authoritative reply.

    [Query]'s goroutines are seen through what its [select] loop receives: an
    [rc_event] is the report of one outstanding dial, the fallback timer, or the
    end of the context; the order is the schedule's.  What [dotConn.query]
    answered each dial is part of its report. *)
From S2P Require Import Prelude GoStrings GoNet Dns DotConn.
From stdpp Require Import gmap.
From Stdlib Require Import ZArith Lia.

Local Open Scope Z_scope.

(** ** Server names *)
Definition knownServerNames : gmap bytes bytes :=
  list_to_map (prod_map str str <$>
    [("223.5.5.5:853", "dns.alidns.com"); ("223.6.6.6:853", "dns.alidns.com");
     ("1.1.1.1:853", "cloudflare-dns.com"); ("1.0.0.1:853", "cloudflare-dns.com");
     ("8.8.8.8:853", "dns.google"); ("8.8.4.4:853", "dns.google")]%string).

Definition serverNameFor (addr : bytes) : bytes :=
  match knownServerNames !! addr with
  | Some sn => sn
  | None => match SplitHostPort addr with Some (host, _) => host | None => addr end
  end.

(** ** Framing *)
Section Framing.
Context `{MiekgDNS}.

Inductive FrameError := ErrPack | ErrTooLarge | ErrConnWrite | ErrConnRead | ErrUnpack.

(** What reaches the connection, and the error: [w1] and [w2] say whether the
    two [conn.Write] calls succeed. *)
Definition writeFramed (w1 w2 : bool) (m : Msg) : bytes * option FrameError :=
  match Pack m with
  | None => ([], Some ErrPack)
  | Some packed =>
    if 65535 <? len packed then ([], Some ErrTooLarge)
    else if negb w1 then ([], Some ErrConnWrite)
    else if negb w2 then (be_bytes 2 (len packed), Some ErrConnWrite)
    else (be_bytes 2 (len packed) ++ packed, None)
  end.

(** Reads from what the connection delivers before it ends; gives the rest. *)
Definition readFramed (conn : bytes) : res FrameError (Msg * bytes) :=
  if len conn <? 2 then Err ErrConnRead
  else
    let n := be (take 2 conn) in
    let conn := drop 2 conn in
    if len conn <? n then Err ErrConnRead
    else match Unpack (take (Z.to_nat n) conn) with
    | None => Err ErrUnpack
    | Some m => Ok (m, drop (Z.to_nat n) conn)
    end.
End Framing.

(** ** Pools *)
Record Upstream := {
  CN : list bytes;
  Proxy : list bytes;
  Fallback : list bytes;
  Timeout : Z;
  FallbackDelay : Z
}.

Inductive Tier := TierPrimary | TierFallback.

#[export] Instance Tier_eq_dec : EqDecision Tier.
Proof. solve_decision. Defined.

Definition defaultUpstreamTimeout : Z := 8000000000.
Definition defaultFallbackDelay : Z := 500000000.

Definition NewUpstream : Upstream :=
  {| CN := str <$> ["223.5.5.5:853"; "223.6.6.6:853"]%string;
     Proxy := str <$> ["1.1.1.1:853"; "1.0.0.1:853"]%string;
     Fallback := []; Timeout := defaultUpstreamTimeout; FallbackDelay := defaultFallbackDelay |}.

Section Race.
Context `{Unicode}.

Definition primaryFor (u : Upstream) (category : bytes) : list bytes :=
  if EqualFold category (str "direct") then CN u else Proxy u.

Definition fallbackFor (u : Upstream) (category : bytes) : list bytes := Fallback u.

Definition isAuthoritative (m : Msg) : bool :=
  (Rcode m =? RcodeSuccess) || (Rcode m =? RcodeNameError) || (Rcode m =? RcodeYXDomain) || (Rcode m =? RcodeNXRrset).

(** [queryOne], given what [c.query] returned. *)
Definition queryOne (msg : Msg) (r : res DotError Msg) : res DotError Msg :=
  match r with Ok resp => Ok (set_Id resp (Id msg)) | Err e => Err e end.

(** ** The race *)
Inductive QueryError :=
| ErrNoUpstream (category : bytes) | ErrDot (e : DotError) | ErrRcode (rcode : Z) | ErrAllFailed
| ErrQueryCtx (e : CtxErr).

Record race := {
  outstanding : list (Tier * bytes);   (** dials that have not reported *)
  timer : bool;                        (** [fbTimer] has not fired *)
  fbStarted : bool;
  expected : Z;
  seen : Z;
  lastErr : option QueryError
}.

Inductive rc_event :=
| Report (i : nat) (r : res DotError Msg)    (** the [i]th outstanding dial *)
| TimerFires
| QctxDone (e : CtxErr).

Inductive rc_next := Continue (s : race) | Return (r : res QueryError (Msg * Tier)).

Definition fire (addrs : list bytes) (t : Tier) : list (Tier * bytes) := (fun a => (t, a)) <$> addrs.

(** The delay the timer is set to. *)
Definition fb_delay (u : Upstream) : Z :=
  let timeout := if Timeout u <=? 0 then defaultUpstreamTimeout else Timeout u in
  let d := if FallbackDelay u <? 0 then 0 else FallbackDelay u in
  if timeout <? d then timeout / 2 else d.

Definition race_start (u : Upstream) (category : bytes) : race :=
  let primary := primaryFor u category in
  let fallback := fallbackFor u category in
  let none := bool_decide (len fallback = 0) in
  let now := (fb_delay u =? 0) && negb none in
  {| outstanding := fire primary TierPrimary ++ (if now then fire fallback TierFallback else []);
     timer := true; fbStarted := none || now;
     expected := len primary + (if none || now then len fallback else 0);
     seen := 0; lastErr := None |}.

(** What a report does to the loop. *)
Definition on_report (msg : Msg) (s : race) (i : nat) (t : Tier) (r : res DotError Msg) : rc_next :=
  let seen := seen s + 1 in
  let rest := delete i (outstanding s) in
  let go_on last :=
    let s' := {| outstanding := rest; timer := timer s; fbStarted := fbStarted s; expected := expected s;
                 seen := seen; lastErr := last |} in
    if fbStarted s && (expected s <=? seen)
    then Return (Err match last with Some e => e | None => ErrAllFailed end)
    else Continue s' in
  match queryOne msg r with
  | Ok m => if isAuthoritative m then Return (Ok (m, t)) else go_on (Some (ErrRcode (Rcode m)))
  | Err e => go_on (Some (ErrDot e))
  end.

Definition race_step (u : Upstream) (category : bytes) (msg : Msg) (s : race) (e : rc_event) : option rc_next :=
  match e with
  | Report i r => match outstanding s !! i with Some (t, _) => Some (on_report msg s i t r) | None => None end
  | TimerFires =>
      if timer s then
        Some (Continue
          (if fbStarted s then
             {| outstanding := outstanding s; timer := false; fbStarted := true; expected := expected s;
                seen := seen s; lastErr := lastErr s |}
           else
             let fallback := fallbackFor u category in
             {| outstanding := outstanding s ++ fire fallback TierFallback; timer := false; fbStarted := true;
                expected := len (primaryFor u category) + len fallback; seen := seen s; lastErr := lastErr s |}))
      else None
  | QctxDone e => Some (Return (Err match lastErr s with Some l => l | None => ErrQueryCtx e end))
  end.

(** The loop over a schedule: it may return, with the events it did not need,
    still wait, or be given an event that cannot happen. *)
Inductive race_end :=
| Returned (r : res QueryError (Msg * Tier)) (rest : list rc_event) | Waits (s : race) | Impossible.

Fixpoint race_loop (u : Upstream) (category : bytes) (msg : Msg) (s : race) (es : list rc_event) : race_end :=
  match es with
  | [] => Waits s
  | e :: es =>
    match race_step u category msg s e with
    | Some (Continue s) => race_loop u category msg s es
    | Some (Return r) => Returned r es
    | None => Impossible
    end
  end.

Definition Query_ (u : Upstream) (msg : Msg) (category : bytes) (es : list rc_event) : race_end :=
  if bool_decide (len (primaryFor u category) = 0) && bool_decide (len (fallbackFor u category) = 0)
  then Returned (Err (ErrNoUpstream category)) es
  else race_loop u category msg (race_start u category) es.

(** ** The invariant of the loop *)
Definition pool (u : Upstream) (category : bytes) (t : Tier) : list bytes :=
  match t with TierPrimary => primaryFor u category | TierFallback => fallbackFor u category end.

Record race_ok (u : Upstream) (category : bytes) (s : race) : Prop := {
  rc_pool : forall t a, (t, a) ∈ outstanding s -> a ∈ pool u category t;
  rc_count : len (outstanding s) + seen s = expected s;
  rc_started : fbStarted s = true ->
    expected s = len (primaryFor u category) + len (fallbackFor u category) /\ 0 < len (outstanding s);
  rc_waiting : fbStarted s = false ->
    expected s = len (primaryFor u category) /\ timer s = true /\ 0 < len (fallbackFor u category) /\
    forall a, (TierFallback, a) ∉ outstanding s
}.

(** How many more events the loop can take. *)
Definition race_fuel (u : Upstream) (category : bytes) (s : race) : Z :=
  len (outstanding s) +
  (if timer s then 1 + (if fbStarted s then 0 else len (fallbackFor u category)) else 0).

Definition quiet (e : rc_event) : bool :=
  match e with
  | Report _ (Ok m) => negb (isAuthoritative m)
  | Report _ (Err _) | TimerFires => true
  | QctxDone _ => false
  end.

Definition is_report (e : rc_event) : bool := match e with Report _ _ => true | _ => false end.

Definition reports (es : list rc_event) : Z := len (filter (fun e => is_report e = true) es).

(** ** Lemmas *)
Lemma len_fire addrs t : len (fire addrs t) = len addrs.
Proof. unfold fire, len. by rewrite length_fmap. Qed.

Lemma fire_pool u category t x a : (x, a) ∈ fire (pool u category t) t -> x = t /\ a ∈ pool u category x.
Proof. unfold fire. intros (b & [= -> ->] & Hb)%list_elem_of_fmap. done. Qed.

Lemma race_start_ok u category :
  0 < len (primaryFor u category) + len (fallbackFor u category) -> race_ok u category (race_start u category).
Proof.
  intros HN. pose proof (len_nonneg (primaryFor u category)) as H1. pose proof (len_nonneg (fallbackFor u category)) as H2.
  unfold race_start. case_bool_decide as Hf; cbn [orb negb]; [|destruct (fb_delay u =? 0)]; cbn [andb];
    constructor; cbn [outstanding seen expected fbStarted timer]; try done; rewrite ?andb_false_r, ?app_nil_r, ?len_app, ?len_fire; try lia.
  - intros t a Hx. by apply (fire_pool u category TierPrimary) in Hx as [_ Hx].
  - intros t a [Hx|Hx]%elem_of_app; [by apply (fire_pool u category TierPrimary) in Hx as [_ Hx]|].
    by apply (fire_pool u category TierFallback) in Hx as [_ Hx].
  - intros t a Hx. by apply (fire_pool u category TierPrimary) in Hx as [_ Hx].
  - intros _. split_and!; try lia; try done. intros a Hx. by apply (fire_pool u category TierPrimary) in Hx as [Hx _].
Qed.

Lemma len_delete {A} (l : list A) i x : l !! i = Some x -> len (delete i l) = len l - 1.
Proof. intros Hi. unfold len. pose proof (length_delete l i ltac:(eauto)). apply lookup_lt_Some in Hi. lia. Qed.

Lemma isAuthoritative_set_Id m id : isAuthoritative (set_Id m id) = isAuthoritative m.
Proof. done. Qed.

Lemma on_report_cases msg s i t r :
  match on_report msg s i t r with
  | Return (Ok (m, t')) => t' = t /\ exists m0, r = Ok m0 /\ m = set_Id m0 (Id msg) /\ isAuthoritative m0 = true
  | Return (Err _) => quiet (Report i r) = true /\ fbStarted s = true /\ expected s <= seen s + 1
  | Continue s' => quiet (Report i r) = true /\ outstanding s' = delete i (outstanding s) /\ timer s' = timer s /\
      fbStarted s' = fbStarted s /\ expected s' = expected s /\ seen s' = seen s + 1 /\
      (fbStarted s = true -> seen s + 1 < expected s)
  end.
Proof.
  unfold on_report, queryOne. destruct r as [e|m]; [|rewrite isAuthoritative_set_Id; destruct (isAuthoritative m) eqn:EA];
    [..|]; cbn [quiet]; rewrite ?EA; try (by eauto 6).
  all: destruct (fbStarted s); cbn [andb]; [destruct (Z.leb_spec (expected s) (seen s + 1))|]; split_and!; try done; lia.
Qed.

Lemma race_step_ok u category msg s e s' :
  race_ok u category s -> race_step u category msg s e = Some (Continue s') ->
  race_ok u category s' /\ race_fuel u category s' + 1 <= race_fuel u category s /\ quiet e = true /\
  seen s' = seen s + (if is_report e then 1 else 0) /\
  (fbStarted s' = true -> fbStarted s = true \/ e = TimerFires).
Proof.
  intros Hok. pose proof (len_nonneg (fallbackFor u category)) as HF. destruct e as [i r| |e]; simpl; [| |done].
  - destruct (outstanding s !! i) as [[t a]|] eqn:Ei; [|done]. intros [= E].
    pose proof (on_report_cases msg s i t r) as HC. rewrite E in HC. destruct HC as (Hq & Ho & Ht & Hf & He & Hs & Hlt).
    pose proof (len_delete _ _ _ Ei) as HL. rewrite <- Ho in HL. pose proof (rc_count _ _ _ Hok) as HN.
    split; [|unfold race_fuel; rewrite Ht, Hf, HL; split_and!; [lia|done|lia|by left]].
    constructor; rewrite ?Hf, ?He, ?Hs, ?Ht.
    + intros x b Hx. apply (rc_pool _ _ _ Hok). rewrite Ho in Hx. by apply list_elem_of_delete_inv in Hx.
    + lia.
    + intros HS. destruct (rc_started _ _ _ Hok HS). split; [done|]. specialize (Hlt HS). lia.
    + intros HS. destruct (rc_waiting _ _ _ Hok HS) as (H1 & H2 & H3 & H4). split_and!; try done.
      intros b Hx. rewrite Ho in Hx. apply list_elem_of_delete_inv in Hx. by apply (H4 b).
  - destruct (timer s) eqn:Et; [|done]. intros [= <-]. pose proof (rc_count _ _ _ Hok) as HN. destruct (fbStarted s) eqn:Ef.
    + unfold race_fuel. cbn [outstanding timer fbStarted seen is_report]. rewrite Et, Ef.
      split; [|split; [lia|split; [done|split; [lia|by left]]]].
      constructor; cbn [outstanding timer fbStarted seen expected]; try apply Hok; try done. intros _. by apply (rc_started _ _ _ Hok).
    + destruct (rc_waiting _ _ _ Hok Ef) as (H1 & H2 & H3 & H4). pose proof (len_nonneg (outstanding s)) as HO.
      unfold race_fuel. cbn [outstanding timer fbStarted seen is_report]. rewrite Et, Ef, len_app, len_fire.
      split; [|split; [lia|split; [done|split; [lia|by right]]]].
      constructor; cbn [outstanding timer fbStarted seen expected]; rewrite ?len_app, ?len_fire; try lia; try done.
      intros t a [Hx|Hx]%elem_of_app; [by apply (rc_pool _ _ _ Hok)|].
      by apply (fire_pool u category TierFallback) in Hx as [_ Hx].
Qed.

Lemma race_loop_waits u category msg es : forall s s',
  race_ok u category s -> race_loop u category msg s es = Waits s' ->
  race_ok u category s' /\ race_fuel u category s' + len es <= race_fuel u category s /\
  Forall (fun e => quiet e = true) es /\ seen s' = seen s + reports es /\
  (fbStarted s' = true -> fbStarted s = true \/ TimerFires ∈ es).
Proof.
  induction es as [|e es IH]; intros s s' Hok; cbn [race_loop].
  - intros [= <-]. unfold reports, len. cbn. split_and!; try done; try lia. by left.
  - destruct (race_step _ _ _ _ _) as [[s1|r]|] eqn:ES; try done. intros HL.
    destruct (race_step_ok _ _ _ _ _ _ Hok ES) as (Hok1 & Hf1 & Hq & Hs1 & Hb1).
    destruct (IH s1 s' Hok1 HL) as (Hok' & Hf & Hqs & Hs & Hb).
    rewrite len_cons. unfold reports in *. rewrite filter_cons.
    split; [done|]. split; [lia|]. split; [by constructor|]. split.
    + rewrite Hs, Hs1. destruct (is_report e); [rewrite decide_True by done; rewrite len_cons; lia|].
      rewrite decide_False by done. lia.
    + intros HS. destruct (Hb HS) as [H'|H']; [|right; by right]. destruct (Hb1 H') as [?| ->]; [by left|right; by left].
Qed.

Lemma race_loop_returned u category msg es : forall s r rest,
  race_loop u category msg s es = Returned r rest ->
  exists es1 e s1, es = es1 ++ e :: rest /\ race_loop u category msg s es1 = Waits s1 /\
    race_step u category msg s1 e = Some (Return r).
Proof.
  induction es as [|e es IH]; intros s r rest; cbn [race_loop]; [done|].
  destruct (race_step _ _ _ _ _) as [[s1|r1]|] eqn:ES; try done.
  - intros HL. destruct (IH _ _ _ HL) as (es1 & e1 & s2 & -> & HW & HR).
    exists (e :: es1), e1, s2. cbn [race_loop app]. by rewrite ES.
  - intros [= -> ->]. by exists [], e, s.
Qed.

Lemma Query_loop u category msg es r rest :
  0 < len (primaryFor u category) + len (fallbackFor u category) ->
  Query_ u msg category es = Returned r rest ->
  exists es1 e s1, es = es1 ++ e :: rest /\ Query_ u msg category es1 = Waits s1 /\
    race_step u category msg s1 e = Some (Return r) /\
    race_ok u category s1 /\ Forall (fun e => quiet e = true) es1 /\ seen s1 = reports es1 /\
    (fbStarted s1 = true -> fbStarted (race_start u category) = true \/ TimerFires ∈ es1).
Proof.
  intros HN. unfold Query_.
  assert (bool_decide (len (primaryFor u category) = 0) && bool_decide (len (fallbackFor u category) = 0) = false) as ->.
  { apply andb_false_iff. rewrite !bool_decide_eq_false. lia. }
  intros HL. destruct (race_loop_returned _ _ _ _ _ _ _ HL) as (es1 & e & s1 & -> & HW & HR).
  destruct (race_loop_waits _ _ _ _ _ _ (race_start_ok u category HN) HW) as (Hok & _ & Hq & Hs & Hb).
  exists es1, e, s1. split_and!; try done.
Qed.

Lemma fallback_started u category :
  fbStarted (race_start u category) = true -> fb_delay u = 0 \/ fallbackFor u category = [].
Proof.
  unfold race_start. cbn [fbStarted]. case_bool_decide as Hf; cbn [orb negb andb].
  - intros _. right. by apply nil_length_inv, Nat2Z.inj.
  - rewrite andb_true_r. intros E%Z.eqb_eq. by left.
Qed.

Lemma Query_answer u msg category es m t rest :
  Query_ u msg category es = Returned (Ok (m, t)) rest ->
  exists es1 i m0 s a,
    es = es1 ++ Report i (Ok m0) :: rest /\ Query_ u msg category es1 = Waits s /\
    outstanding s !! i = Some (t, a) /\ (forall x b, (x, b) ∈ outstanding s -> b ∈ pool u category x) /\
    m = set_Id m0 (Id msg) /\ isAuthoritative m0 = true /\ Forall (fun e => quiet e = true) es1 /\
    (t = TierFallback -> Fallback u <> [] /\ (fb_delay u = 0 \/ TimerFires ∈ es1)).
Proof.
  intros HQ. assert (0 < len (primaryFor u category) + len (fallbackFor u category)) as HN.
  { unfold Query_ in HQ. destruct (bool_decide (len (primaryFor u category) = 0)) eqn:E1;
      [destruct (bool_decide (len (fallbackFor u category) = 0)) eqn:E2; [done|]|];
      rewrite ?bool_decide_eq_false, ?bool_decide_eq_true in *;
      pose proof (len_nonneg (primaryFor u category)); pose proof (len_nonneg (fallbackFor u category)); lia. }
  destruct (Query_loop _ _ _ _ _ _ HN HQ) as (es1 & e & s & -> & HW & HR & Hok & Hq & _ & Hb).
  destruct e as [i r| |e]; simpl in HR; [|by destruct (timer s)|done].
  destruct (outstanding s !! i) as [[t' a]|] eqn:Ei; [|done]. injection HR as HR.
  pose proof (on_report_cases msg s i t' r) as HC. rewrite HR in HC.
  destruct HC as (<- & m0 & -> & -> & HA). pose proof (list_elem_of_lookup_2 _ _ _ Ei) as Hin.
  exists es1, i, m0, s, a. split_and!; try done; [apply (rc_pool _ _ _ Hok)|].
  intros ->. assert (a ∈ fallbackFor u category) as Ha by (by apply (rc_pool _ _ _ Hok) in Hin).
  split; [by intros E; unfold fallbackFor in Ha; rewrite E in Ha; apply elem_of_nil in Ha|].
  destruct (fbStarted s) eqn:Ef.
  - destruct (Hb eq_refl) as [H'|H']; [|by right]. apply fallback_started in H' as [H'|H']; [by left|].
    rewrite H' in Ha. by apply elem_of_nil in Ha.
  - destruct (rc_waiting _ _ _ Hok Ef) as (_ & _ & _ & Hno). by apply Hno in Hin.
Qed.

(** ** The theorems *)

(** C15: a reply [Query] returns is the first authoritative one to arrive,
    whatever the order of the reports; it answers the query's id and comes from
    an address of the pool its tier names, as every dial does: the category's primary pool, or the
    fallback pool, which must then be configured and its delay have passed. *)
Theorem Query_first_authoritative u msg category es m t rest :
  Query_ u msg category es = Returned (Ok (m, t)) rest ->
  exists es1 i m0 s a,
    es = es1 ++ Report i (Ok m0) :: rest /\ Query_ u msg category es1 = Waits s /\
    outstanding s !! i = Some (t, a) /\ (forall x b, (x, b) ∈ outstanding s -> b ∈ pool u category x) /\
    m = set_Id m0 (Id msg) /\ isAuthoritative m0 = true /\ Forall (fun e => quiet e = true) es1 /\
    (t = TierFallback -> Fallback u <> [] /\ (fb_delay u = 0 \/ TimerFires ∈ es1)).
Proof. apply Query_answer. Qed.

(** [Query] fails only when no authoritative reply has arrived, and either
    its context ended or every dial of both pools has reported. *)
Theorem Query_fails u msg category es e rest :
  0 < len (primaryFor u category) + len (fallbackFor u category) ->
  Query_ u msg category es = Returned (Err e) rest ->
  exists es1 ev, es = es1 ++ ev :: rest /\ Forall (fun e => quiet e = true) es1 /\
    ((exists x, ev = QctxDone x) \/
     quiet ev = true /\ reports (es1 ++ [ev]) = len (primaryFor u category) + len (fallbackFor u category)).
Proof.
  intros HN HQ. destruct (Query_loop _ _ _ _ _ _ HN HQ) as (es1 & ev & s & -> & HW & HR & Hok & Hq & Hs & _).
  exists es1, ev. split; [done|]. split; [done|]. destruct ev as [i r| |x]; simpl in HR; [|by destruct (timer s)|eauto].
  right. destruct (outstanding s !! i) as [[t' a]|] eqn:Ei; [|done]. injection HR as HR.
  pose proof (on_report_cases msg s i t' r) as HC. rewrite HR in HC. destruct HC as (Hqe & Hf & He). split; [done|].
  destruct (rc_started _ _ _ Hok Hf) as [HE HL]. pose proof (rc_count _ _ _ Hok) as HN'.
  unfold reports in *. rewrite filter_app, len_app, <- Hs, filter_cons, decide_True by done. cbn [is_report].
  rewrite filter_nil, len_cons, len_nil. lia.
Qed.

(** [Query] ends: after as many events as there are dials, and one for the
    timer, it has returned, and while it waits it waits for a dial that has not
    reported or for the timer that starts the fallback pool. *)
Theorem Query_ends u msg category es s :
  Query_ u msg category es = Waits s ->
  len es <= len (primaryFor u category) + len (fallbackFor u category) + 1 /\
  (0 < len (outstanding s) \/ timer s = true /\ fbStarted s = false) /\
  forall x, exists r, race_step u category msg s (QctxDone x) = Some (Return r).
Proof.
  unfold Query_. destruct (bool_decide (len (primaryFor u category) = 0) && _) eqn:EB; [done|].
  assert (0 < len (primaryFor u category) + len (fallbackFor u category)) as HN.
  { apply andb_false_iff in EB. rewrite !bool_decide_eq_false in EB.
    pose proof (len_nonneg (primaryFor u category)). pose proof (len_nonneg (fallbackFor u category)). lia. }
  intros HL. pose proof (race_start_ok u category HN) as Hok0.
  destruct (race_loop_waits _ _ _ _ _ _ Hok0 HL) as (Hok & Hf & _).
  split; [|split; [|by eexists]].
  - pose proof (len_nonneg (outstanding s)). pose proof (len_nonneg (fallbackFor u category)).
    pose proof (rc_count _ _ _ Hok0) as HC. assert (0 <= race_fuel u category s) as HF.
    { unfold race_fuel. destruct (timer s), (fbStarted s); lia. }
    unfold race_fuel in Hf at 2. cbn [race_start timer seen] in Hf, HC.
    destruct (fbStarted (race_start u category)) eqn:EF.
    + destruct (rc_started _ _ _ Hok0 EF). lia.
    + destruct (rc_waiting _ _ _ Hok0 EF) as (HE & _). lia.
  - destruct (fbStarted s) eqn:Ef; [left; by apply (rc_started _ _ _ Hok)|right].
    destruct (rc_waiting _ _ _ Hok Ef) as (_ & Ht & _). done.
Qed.

End Race.

(** ** Framing *)
Lemma be_len_frame (b : bytes) : len b <= 65535 -> be (be_bytes 2 (len b)) = len b.
Proof. intros HL. pose proof (len_nonneg b). rewrite be_be_bytes. apply Z.mod_small. lia. Qed.

(** a message [writeFramed] sends whole is read back by [readFramed] from
    the front of the stream, with what follows it left in place, for every
    packed size up to 65535; larger messages are refused before anything is
    written. *)
Theorem framing_roundtrip `{MiekgDNS} m b rest :
  Pack m = Some b ->
  (65535 < len b -> writeFramed true true m = ([], Some ErrTooLarge)) /\
  (len b <= 65535 ->
     exists w, writeFramed true true m = (w, None) /\ len w = 2 + len b /\
       readFramed (w ++ rest) = match Unpack b with Some m' => Ok (m', rest) | None => Err ErrUnpack end).
Proof.
  intros HP. unfold writeFramed. rewrite HP. cbn [negb]. split; intros HL.
  - by rewrite (proj2 (Z.ltb_lt _ _)).
  - rewrite (proj2 (Z.ltb_ge _ _)) by done. eexists. split; [done|].
    pose proof (be_bytes_len 2 (len b)) as HL2. split; [rewrite len_app; lia|].
    pose proof (be_len_frame b HL) as HB. set (h := be_bytes 2 (len b)) in *.
    assert (length h = 2%nat) as H2 by (unfold len in HL2; lia).
    assert (take 2 (h ++ b ++ rest) = h) as HT by (rewrite <- H2; apply take_app_length).
    assert (drop 2 (h ++ b ++ rest) = b ++ rest) as HD by (rewrite <- H2; apply drop_app_length).
    unfold readFramed. rewrite <- app_assoc, HT, HD, HB, !len_app, HL2.
    pose proof (len_nonneg b). pose proof (len_nonneg rest).
    rewrite !(proj2 (Z.ltb_ge _ _)) by lia. unfold len. by rewrite Nat2Z.id, take_app_length, drop_app_length.
Qed.

(** ** Examples *)
Module Demo.
#[local] Existing Instance ascii_tables.

Definition reply (rc : Z) : Msg := @SetRcode sample_dns new_Msg new_Msg rc.
Definition query : Msg := set_Id new_Msg 4660.
Definition direct : bytes := str "direct".

(** The first dial fails, the other pool member answers. *)
Definition events : list rc_event :=
  [Report 1 (Ok (reply RcodeServerFailure)); TimerFires; Report 0 (Ok (reply RcodeNameError)); QctxDone Canceled].

Lemma races : Query_ NewUpstream query direct events =
  Returned (Ok (set_Id (reply RcodeNameError) 4660, TierPrimary)) [QctxDone Canceled].
Proof. by vm_compute. Qed.

Lemma Query_first_authoritative_witness :
  Query_ NewUpstream query direct events =
    Returned (Ok (set_Id (reply RcodeNameError) 4660, TierPrimary)) [QctxDone Canceled] /\
  exists es1 i m0 s a,
    events = es1 ++ Report i (Ok m0) :: [QctxDone Canceled] /\ Query_ NewUpstream query direct es1 = Waits s /\
    outstanding s !! i = Some (TierPrimary, a) /\
    (forall x b, (x, b) ∈ outstanding s -> b ∈ pool NewUpstream direct x) /\
    set_Id (reply RcodeNameError) 4660 = set_Id m0 (Id query) /\ isAuthoritative m0 = true /\
    Forall (fun e => quiet e = true) es1 /\
    (TierPrimary = TierFallback -> Fallback NewUpstream <> [] /\ (fb_delay NewUpstream = 0 \/ TimerFires ∈ es1)).
Proof. split; [exact races|]. exact (Query_first_authoritative NewUpstream query direct events _ _ _ races). Defined.

Definition failing : list rc_event :=
  [Report 1 (Ok (reply RcodeRefused)); Report 0 (Err ErrDial)].

Lemma fails : Query_ NewUpstream query direct failing = Returned (Err (ErrDot ErrDial)) [].
Proof. by vm_compute. Qed.

Lemma has_pool : 0 < len (primaryFor NewUpstream direct) + len (fallbackFor NewUpstream direct).
Proof. by vm_compute. Qed.

Lemma Query_fails_witness :
  0 < len (primaryFor NewUpstream direct) + len (fallbackFor NewUpstream direct) /\
  Query_ NewUpstream query direct failing = Returned (Err (ErrDot ErrDial)) [] /\
  exists es1 ev, failing = es1 ++ ev :: [] /\ Forall (fun e => quiet e = true) es1 /\
    ((exists x, ev = QctxDone x) \/
     quiet ev = true /\
     reports (es1 ++ [ev]) = len (primaryFor NewUpstream direct) + len (fallbackFor NewUpstream direct)).
Proof.
  split; [exact has_pool|]. split; [exact fails|].
  exact (Query_fails NewUpstream query direct failing _ _ has_pool fails).
Defined.

Lemma waits : exists s, Query_ NewUpstream query direct (take 2 events) = Waits s.
Proof. eexists. by vm_compute. Qed.

Lemma Query_ends_witness :
  exists s, Query_ NewUpstream query direct (take 2 events) = Waits s /\
    len (take 2 events) <= len (primaryFor NewUpstream direct) + len (fallbackFor NewUpstream direct) + 1 /\
    (0 < len (outstanding s) \/ timer s = true /\ fbStarted s = false) /\
    forall x, exists r, race_step NewUpstream direct query s (QctxDone x) = Some (Return r).
Proof.
  destruct waits as [s Hs]. exists s. split; [exact Hs|].
  exact (Query_ends NewUpstream query direct (take 2 events) s Hs).
Defined.

Lemma packs : @Pack sample_dns query = Some (be_bytes 2 4660).
Proof. by vm_compute. Qed.

Lemma framing_roundtrip_witness :
  let H := sample_dns in
  Pack query = Some (be_bytes 2 4660) /\
  (65535 < len (be_bytes 2 4660) -> writeFramed true true query = ([], Some ErrTooLarge)) /\
  (len (be_bytes 2 4660) <= 65535 ->
   exists w, writeFramed true true query = (w, None) /\ len w = 2 + len (be_bytes 2 4660) /\
     readFramed (w ++ [Byte.x2a]) =
       match Unpack (be_bytes 2 4660) with Some m' => Ok (m', [Byte.x2a]) | None => Err ErrUnpack end).
Proof. intros H. split; [exact packs|]. exact (@framing_roundtrip sample_dns query (be_bytes 2 4660) [Byte.x2a] packs). Defined.

Example server_names :
  serverNameFor (str "1.0.0.1:853") = str "cloudflare-dns.com" /\
  serverNameFor (str "dns.example:853") = str "dns.example" /\ serverNameFor (str "bad") = str "bad".
Proof. by vm_compute. Qed.
End Demo.
