(* ===== verification/Resolver.v ===== *)
(** * The resolver

    [internal/resolver/resolver.go], [spoof.go] and [metrics.go]: [Resolve]
    pins the rule table, classifies the question and answers it locally
    (refused, format error, blocked, spoofed) or forwards a sanitized copy to
    the upstream race.  The state of a call is the counters and a history
    variable, the messages handed to the upstream; the network's side of a
    forwarded query is the schedule the call is given. *)
From S2P Require Import Prelude GoStrings GoNet RuleTable Dns DotConn Upstream.
From Stdlib Require Import ZArith Lia.

Local Open Scope Z_scope.

(** ** metrics.go *)
Record Metrics := {
  queriesTotal : Z; hitsBlock : Z; hitsDirect : Z; hitsProxy : Z; hitsSpoof : Z;
  upstreamErrors : Z; upstreamFallback : Z; refusedAXFR : Z
}.

(** [atomic.Int64.Add]. *)
Definition int64 (z : Z) : Z := (z + 2 ^ 63) mod 2 ^ 64 - 2 ^ 63.

Arguments int64 : simpl never.

Definition NewMetrics : Metrics :=
  {| queriesTotal := 0; hitsBlock := 0; hitsDirect := 0; hitsProxy := 0; hitsSpoof := 0;
     upstreamErrors := 0; upstreamFallback := 0; refusedAXFR := 0 |}.

Definition IncQueries (m : Metrics) : Metrics :=
  {| queriesTotal := int64 (queriesTotal m + 1); hitsBlock := hitsBlock m; hitsDirect := hitsDirect m;
     hitsProxy := hitsProxy m; hitsSpoof := hitsSpoof m; upstreamErrors := upstreamErrors m;
     upstreamFallback := upstreamFallback m; refusedAXFR := refusedAXFR m |}.
Definition IncBlock (m : Metrics) : Metrics :=
  {| queriesTotal := queriesTotal m; hitsBlock := int64 (hitsBlock m + 1); hitsDirect := hitsDirect m;
     hitsProxy := hitsProxy m; hitsSpoof := hitsSpoof m; upstreamErrors := upstreamErrors m;
     upstreamFallback := upstreamFallback m; refusedAXFR := refusedAXFR m |}.
Definition IncDirect (m : Metrics) : Metrics :=
  {| queriesTotal := queriesTotal m; hitsBlock := hitsBlock m; hitsDirect := int64 (hitsDirect m + 1);
     hitsProxy := hitsProxy m; hitsSpoof := hitsSpoof m; upstreamErrors := upstreamErrors m;
     upstreamFallback := upstreamFallback m; refusedAXFR := refusedAXFR m |}.
Definition IncProxy (m : Metrics) : Metrics :=
  {| queriesTotal := queriesTotal m; hitsBlock := hitsBlock m; hitsDirect := hitsDirect m;
     hitsProxy := int64 (hitsProxy m + 1); hitsSpoof := hitsSpoof m; upstreamErrors := upstreamErrors m;
     upstreamFallback := upstreamFallback m; refusedAXFR := refusedAXFR m |}.
Definition IncSpoof (m : Metrics) : Metrics :=
  {| queriesTotal := queriesTotal m; hitsBlock := hitsBlock m; hitsDirect := hitsDirect m;
     hitsProxy := hitsProxy m; hitsSpoof := int64 (hitsSpoof m + 1); upstreamErrors := upstreamErrors m;
     upstreamFallback := upstreamFallback m; refusedAXFR := refusedAXFR m |}.
Definition IncUpstreamError (m : Metrics) : Metrics :=
  {| queriesTotal := queriesTotal m; hitsBlock := hitsBlock m; hitsDirect := hitsDirect m;
     hitsProxy := hitsProxy m; hitsSpoof := hitsSpoof m; upstreamErrors := int64 (upstreamErrors m + 1);
     upstreamFallback := upstreamFallback m; refusedAXFR := refusedAXFR m |}.
Definition IncUpstreamFallback (m : Metrics) : Metrics :=
  {| queriesTotal := queriesTotal m; hitsBlock := hitsBlock m; hitsDirect := hitsDirect m;
     hitsProxy := hitsProxy m; hitsSpoof := hitsSpoof m; upstreamErrors := upstreamErrors m;
     upstreamFallback := int64 (upstreamFallback m + 1); refusedAXFR := refusedAXFR m |}.
Definition IncRefusedAXFR (m : Metrics) : Metrics :=
  {| queriesTotal := queriesTotal m; hitsBlock := hitsBlock m; hitsDirect := hitsDirect m;
     hitsProxy := hitsProxy m; hitsSpoof := hitsSpoof m; upstreamErrors := upstreamErrors m;
     upstreamFallback := upstreamFallback m; refusedAXFR := int64 (refusedAXFR m + 1) |}.

(** ** spoof.go *)
Definition SpoofScopeAll : bytes := str "all".
Definition SpoofScopePrivateOnly : bytes := str "private_only".
Definition defaultSpoofTTL : Z := 60.

(** A nil [net.IP] is [None], a nil [*net.IPNet] too. *)
Record SpoofPolicy := {
  ServerIP4 : option bytes;
  ServerIP6 : option bytes;
  Scope : bytes;
  AllowCIDR : list (option IPNet);
  sp_TTL : Z
}.

(** [Contains] on the entries that are not nil. *)
Definition cidr_allows (client : bytes) (n : option IPNet) : bool :=
  match n with Some n => IPNet_Contains n client | None => false end.

Definition shouldSpoof (p : SpoofPolicy) (client : option bytes) (qtype : Z) : option bytes :=
  let ip := if qtype =? TypeA then ServerIP4 p else if qtype =? TypeAAAA then ServerIP6 p else None in
  match ip with
  | None => None
  | Some ip =>
      let scope := if Scope p == [] then SpoofScopeAll else Scope p in
      if scope == SpoofScopeAll then Some ip
      else if scope == SpoofScopePrivateOnly then
        match client with
        | None => None
        | Some client => if existsb (cidr_allows client) (AllowCIDR p) then Some ip else None
        end
      else None
  end.

(** [ParseCIDRs]: what does not parse is skipped. *)
Definition ParseCIDRs (l : list bytes) : list (option IPNet) :=
  omap (fun s => let s := TrimSpace s in
                 if s == [] then None else match ParseCIDR s with Some n => Some (Some n) | None => None end) l.

Section spoof.
Context `{MiekgDNS}.

Definition spoofReply (req : Msg) (ip : bytes) (ttl : Z) : Msg :=
  let resp := set_flags (SetReply new_Msg req) false true in
  let ttl := if ttl =? 0 then defaultSpoofTTL else ttl in
  match Questions req with
  | [] => resp
  | q :: _ =>
      let hdr ty := {| Name := qName q; Rrtype := ty; Class_ := ClassINET; Ttl := ttl |} in
      if Qtype q =? TypeA then
        match To4 ip with Some v4 => set_Answer resp [RR_A (hdr TypeA) v4] | None => resp end
      else if Qtype q =? TypeAAAA then
        match To16 ip with Some v6 => set_Answer resp [RR_AAAA (hdr TypeAAAA) v6] | None => resp end
      else resp
  end.
End spoof.

(** ** resolver.go *)
Record RState := { metrics : Metrics; forwarded : list (Msg * bytes) }.

Definition count (f : Metrics -> Metrics) : ST RState unit :=
  modify (fun s => {| metrics := f (metrics s); forwarded := forwarded s |}).

Definition record_forward (q : Msg) (category : bytes) : ST RState unit :=
  modify (fun s => {| metrics := metrics s; forwarded := forwarded s ++ [(q, category)] |}).

Inductive ResolveError := ErrNilRequest | ErrForward (category : bytes) (e : QueryError).

(** The reply and the error [Resolve] returns together, or the race it waits
    for at the end of the schedule. *)
Inductive outcome :=
| Replied (m : option Msg) (err : option ResolveError)
| Blocked (e : race_end).

Section resolver.
Context `{Unicode} `{MiekgDNS}.

Definition isZoneTransfer (req : Msg) : bool :=
  existsb (fun q => (Qtype q =? TypeAXFR) || (Qtype q =? TypeIXFR)) (Questions req).

Definition is_ECS (o : EDNS0) : bool := match o with EDNS0_SUBNET _ => true | _ => false end.

(** The OPT record the pointer of [IsEdns0] reaches, with the size clamped
    and the client-subnet options left out. *)
Definition sanitize_opt (o : OPT) : OPT :=
  let o := if 1232 <? UDPSize o then SetUDPSize o 1232 else o in
  {| opt_hdr := opt_hdr o; Option_ := filter (fun x => is_ECS x = false) (Option_ o) |}.

Definition sanitizeForUpstream (req : Msg) : Msg :=
  let q := Copy req in
  match IsEdns0 q with
  | None => q
  | Some i =>
    match Extra q !! i with
    | Some (RR_OPT o) => set_Extra q (<[i := RR_OPT (sanitize_opt o)]> (Extra q))
    | _ => q
    end
  end.

Definition refusedReply (req : Msg) : Msg := SetRcode new_Msg req RcodeRefused.
Definition nxDomainReply (req : Msg) : Msg := SetRcode new_Msg req RcodeNameError.
Definition servFailReply (req : Msg) : Msg := SetRcode new_Msg req RcodeServerFailure.
Definition formatErrorReply (req : Msg) : Msg := SetRcode new_Msg req RcodeFormatError.

Definition forward (u : Upstream) (req : Msg) (category : bytes) (es : list rc_event) : ST RState outcome :=
  let q := sanitizeForUpstream req in
  let! _ := record_forward q category in
  match Query_ u q category es with
  | Returned (Err e) _ =>
      let! _ := count IncUpstreamError in
      ret (Replied (Some (servFailReply req)) (Some (ErrForward category e)))
  | Returned (Ok (resp, tier)) _ =>
      let! _ := (if tier == TierFallback then count IncUpstreamFallback else ret tt) in
      ret (Replied (Some (set_Id resp (Id req))) None)
  | e => ret (Blocked e)
  end.

Definition Resolve (tbl : option RuleTable) (u : Upstream) (spoof : option SpoofPolicy)
    (req : option Msg) (client : option bytes) (es : list rc_event) : ST RState outcome :=
  let! _ := count IncQueries in
  match req with
  | None => ret (Replied None (Some ErrNilRequest))
  | Some req =>
    if isZoneTransfer req then
      let! _ := count IncRefusedAXFR in ret (Replied (Some (refusedReply req)) None)
    else match Questions req with
    | [q] =>
      match classify tbl (qName q) with
      | ActionBlock => let! _ := count IncBlock in ret (Replied (Some (nxDomainReply req)) None)
      | ActionDirect => let! _ := count IncDirect in forward u req (str "direct") es
      | ActionProxy =>
        match spoof ≫= (fun p => ip ← shouldSpoof p client (Qtype q); Some (p, ip)) with
        | Some (p, ip) => let! _ := count IncSpoof in ret (Replied (Some (spoofReply req ip (sp_TTL p))) None)
        | None => let! _ := count IncProxy in forward u req (str "proxy") es
        end
      end
    | _ => ret (Replied (Some (formatErrorReply req)) None)
    end
  end.

(** ** Specification *)

(** The policy's question, client and address fit. *)
Definition spoofs (spoof : option SpoofPolicy) (client : option bytes) (qtype : Z) (p : SpoofPolicy) (ip : bytes) : Prop :=
  spoof = Some p /\
  (qtype = TypeA /\ ServerIP4 p = Some ip \/ qtype = TypeAAAA /\ ServerIP6 p = Some ip) /\
  (Scope p = [] \/ Scope p = SpoofScopeAll \/
   Scope p = SpoofScopePrivateOnly /\
     exists c n, client = Some c /\ Some n ∈ AllowCIDR p /\ IPNet_Contains n c = true).

(** The OPT records of a section. *)
Definition opts (l : list RR) : list OPT := omap (fun r => match r with RR_OPT o => Some o | _ => None end) l.

(** [m] asks what [req] asks, with all of its other records; of at most one
    OPT record, the size is at most 1232 and no client-subnet option is left. *)
Definition sanitized (req m : Msg) : Prop :=
  Id m = Id req /\ Questions m = Questions req /\ isZoneTransfer m = isZoneTransfer req /\
  filter (fun r => is_opt r = false) (Extra m) = filter (fun r => is_opt r = false) (Extra req) /\
  ((length (opts (Extra req)) <= 1)%nat ->
     length (opts (Extra m)) = length (opts (Extra req)) /\
     Forall (fun o => UDPSize o <= 1232 /\ Forall (fun x => is_ECS x = false) (Option_ o)) (opts (Extra m))).

(** ** Lemmas: spoofing *)
Lemma private_not_all : SpoofScopePrivateOnly <> SpoofScopeAll /\ SpoofScopePrivateOnly <> [].
Proof. split; by vm_compute. Qed.

Lemma existsb_elem {A} (f : A -> bool) l : existsb f l = true <-> exists x, x ∈ l /\ f x = true.
Proof. rewrite existsb_exists. by setoid_rewrite list_elem_of_In. Qed.

Lemma shouldSpoof_spec spoof client qtype p ip :
  spoof = Some p /\ shouldSpoof p client qtype = Some ip <-> spoofs spoof client qtype p ip.
Proof.
  unfold spoofs, shouldSpoof. destruct private_not_all as [HP1 HP2]. apply and_iff_compat_l.
  set (adr := if qtype =? TypeA then _ else _).
  assert (forall x, adr = Some x <-> (qtype = TypeA /\ ServerIP4 p = Some x \/ qtype = TypeAAAA /\ ServerIP6 p = Some x)) as HA.
  { intros x. unfold adr. destruct (Z.eqb_spec qtype TypeA) as [->|Hn]; [|destruct (Z.eqb_spec qtype TypeAAAA) as [->|Hn']];
      unfold TypeA, TypeAAAA in *; naive_solver. }
  clearbody adr. rewrite <- (HA ip). destruct adr as [x|]; [|naive_solver].
  destruct (decide (Scope p = [])) as [E|E].
  { rewrite (bool_decide_eq_true_2 (Scope p = [])), (bool_decide_eq_true_2 (SpoofScopeAll = _)) by done. naive_solver. }
  rewrite (bool_decide_eq_false_2 (Scope p = [])) by done.
  destruct (decide (Scope p = SpoofScopeAll)) as [E'|E'].
  { rewrite (bool_decide_eq_true_2 (Scope p = SpoofScopeAll)) by done. naive_solver. }
  rewrite (bool_decide_eq_false_2 (Scope p = SpoofScopeAll)) by done.
  destruct (decide (Scope p = SpoofScopePrivateOnly)) as [E2|E2]; [rewrite (bool_decide_eq_true_2 (Scope p = SpoofScopePrivateOnly)) by done|rewrite (bool_decide_eq_false_2 (Scope p = SpoofScopePrivateOnly)) by done; naive_solver].
  destruct client as [c|]; [|naive_solver].
  destruct (existsb _ _) eqn:EX.
  - apply existsb_elem in EX as ([n|] & Hin & Hn); [|done]. simpl in Hn. split; [intros [= ->]|intros [-> _]; done].
    split; [done|]. right. right. split; [done|]. by exists c, n.
  - split; [done|]. intros [_ [?|[?|(_ & c' & n & [= <-] & Hin & Hn)]]]; try done.
    rewrite <- not_true_iff_false in EX. destruct EX. apply existsb_elem. by exists (Some n).
Qed.

(** ** Lemmas: sanitizing *)
Lemma opts_app l1 l2 : opts (l1 ++ l2) = opts l1 ++ opts l2.
Proof. apply omap_app. Qed.

Lemma opts_at l i o : l !! i = Some (RR_OPT o) -> opts l = opts (take i l) ++ o :: opts (drop (S i) l).
Proof. intros E. rewrite <- (take_drop_middle l i _ E) at 1. by rewrite opts_app. Qed.

Lemma sanitize_opt_ok `{!MiekgLaws} o :
  UDPSize (sanitize_opt o) <= 1232 /\ Option_ (sanitize_opt o) = filter (fun x => is_ECS x = false) (Option_ o) /\
  (UDPSize o <= 1232 -> UDPSize (sanitize_opt o) = UDPSize o).
Proof.
  unfold sanitize_opt.
  assert (forall x l, UDPSize {| opt_hdr := opt_hdr x; Option_ := l |} = UDPSize x) as HU.
  { intros [h os] l. apply UDPSize_Option. }
  cbn [Option_]. rewrite HU. destruct (Z.ltb_spec 1232 (UDPSize o)).
  - rewrite UDPSize_Set, Option_Set by lia. split_and!; [lia|done|lia].
  - split_and!; [lia|done..].
Qed.

Lemma sanitize_spec `{!MiekgLaws} req :
  exists ex, sanitizeForUpstream req = set_Extra req ex /\
    filter (fun r => is_opt r = false) ex = filter (fun r => is_opt r = false) (Extra req) /\
    (length (opts (Extra req)) <= 1 -> opts ex = sanitize_opt <$> opts (Extra req))%nat.
Proof.
  assert (set_Extra req (Extra req) = req) as Hsame by (by destruct req).
  unfold sanitizeForUpstream. rewrite Copy_same. destruct (IsEdns0 req) as [i|] eqn:EI.
  - destruct (IsEdns0_Some _ _ EI) as [o Ei]. rewrite Ei. eexists. split; [done|].
    assert (i < length (Extra req))%nat as Hlt by (by apply lookup_lt_Some in Ei).
    assert (<[i:=RR_OPT (sanitize_opt o)]> (Extra req) =
            take i (Extra req) ++ RR_OPT (sanitize_opt o) :: drop (S i) (Extra req)) as -> by (by apply insert_take_drop).
    split.
    + rewrite <- (take_drop_middle _ _ _ Ei) at 3. by rewrite !filter_app.
    + rewrite (opts_at _ _ _ Ei), opts_app, length_app. cbn [length opts]. intros HL.
      rewrite (nil_length_inv (opts (take i (Extra req)))) by lia.
      change (opts (?x :: ?l)) with (opts [x] ++ opts l).
      rewrite (nil_length_inv (opts (drop (S i) (Extra req)))) by lia. done.
  - exists (Extra req). split; [done|]. split; [done|]. intros _.
    pose proof (IsEdns0_None _ EI) as HF. assert (opts (Extra req) = []) as ->; [|done].
    revert HF. generalize (Extra req). induction l as [|r l IH]; [done|]. intros [Hr Hl]%Forall_cons.
    by destruct r; [|apply IH..].
Qed.

Lemma sanitize_ok `{!MiekgLaws} req : sanitized req (sanitizeForUpstream req).
Proof.
  destruct (sanitize_spec req) as (ex & -> & Hn & Ho). unfold sanitized, isZoneTransfer. cbn [set_Extra Extra Questions Id].
  split_and!; try done. intros HL. rewrite (Ho HL), length_fmap. split; [done|]. apply Forall_fmap, Forall_forall.
  intros x _. destruct (sanitize_opt_ok x) as (G1 & G2 & _). unfold compose. split; [done|]. rewrite G2.
  apply Forall_forall. by intros y [Hy _]%list_elem_of_filter.
Qed.

(** ** Lemmas: forwarding *)
Lemma forward_spec u req category es s :
  let '(o, s') := forward u req category es s in
  forwarded s' = forwarded s ++ [(sanitizeForUpstream req, category)] /\
  match o with
  | Replied (Some m) None =>
      exists resp tier rest, Query_ u (sanitizeForUpstream req) category es = Returned (Ok (resp, tier)) rest /\
        m = set_Id resp (Id req) /\
        metrics s' = (if tier == TierFallback then IncUpstreamFallback (metrics s) else metrics s)
  | Replied (Some m) (Some e) =>
      m = servFailReply req /\ metrics s' = IncUpstreamError (metrics s) /\
      exists x rest, e = ErrForward category x /\
        Query_ u (sanitizeForUpstream req) category es = Returned (Err x) rest
  | Replied None _ => False
  | Blocked e => metrics s' = metrics s /\ Query_ u (sanitizeForUpstream req) category es = e /\
      forall r rest, e <> Returned r rest
  end.
Proof.
  unfold forward, bind, record_forward, count, modify, ret. cbn [forwarded metrics].
  destruct (Query_ _ _ _ _) as [[e|[resp tier]] rest|x|]; cbn [forwarded metrics]; [..|by split_and!|by split_and!].
  - split_and!; [done..|]. by exists e, rest.
  - case_bool_decide as Ht; cbn [forwarded metrics]; (split; [done|]); exists resp, tier, rest;
      (split; [done|]); (split; [done|]); [by rewrite bool_decide_eq_true_2|by rewrite bool_decide_eq_false_2].
Qed.

(** ** The decision behind a call *)
Inductive verdict :=
| VRefuse | VMalformed | VBlock | VDirect | VSpoof (p : SpoofPolicy) (ip : bytes) | VProxy.

Definition decide_call (tbl : option RuleTable) (spoof : option SpoofPolicy) (req : Msg) (client : option bytes) : verdict :=
  if isZoneTransfer req then VRefuse
  else match Questions req with
  | [q] =>
      match classify tbl (qName q) with
      | ActionBlock => VBlock
      | ActionDirect => VDirect
      | ActionProxy =>
          match spoof ≫= (fun p => ip ← shouldSpoof p client (Qtype q); Some (p, ip)) with
          | Some (p, ip) => VSpoof p ip
          | None => VProxy
          end
      end
  | _ => VMalformed
  end.

Definition bump (v : verdict) (m : Metrics) : Metrics :=
  match v with
  | VRefuse => IncRefusedAXFR m | VMalformed => m | VBlock => IncBlock m | VDirect => IncDirect m
  | VSpoof _ _ => IncSpoof m | VProxy => IncProxy m
  end.

Definition with_metrics (m : Metrics) (s : RState) : RState := {| metrics := m; forwarded := forwarded s |}.

Lemma Resolve_decides tbl u spoof req client es s :
  let v := decide_call tbl spoof req client in
  let s1 := with_metrics (bump v (IncQueries (metrics s))) s in
  Resolve tbl u spoof (Some req) client es s =
  match v with
  | VRefuse => (Replied (Some (refusedReply req)) None, s1)
  | VMalformed => (Replied (Some (formatErrorReply req)) None, s1)
  | VBlock => (Replied (Some (nxDomainReply req)) None, s1)
  | VDirect => forward u req (str "direct") es s1
  | VSpoof p ip => (Replied (Some (spoofReply req ip (sp_TTL p))) None, s1)
  | VProxy => forward u req (str "proxy") es s1
  end.
Proof.
  unfold Resolve, decide_call, bind, count, modify, ret. cbn [metrics forwarded].
  destruct (isZoneTransfer req); [done|]. destruct (Questions req) as [|q [|q' l]]; try done.
  destruct (classify tbl (qName q)); try done.
  by destruct (spoof ≫= _) as [[p ip]|].
Qed.

(** ** The theorems *)

(** a name the active rules block (the least-priority earliest enabled rule
    covering it says block or reject) is answered NXDOMAIN without an answer
    record, for every client, policy and upstream, and no upstream ever sees
    it. *)
Theorem blocked_stays_local `{!MiekgLaws} rs u spoof req q client es s i r :
  Questions req = [q] -> isZoneTransfer req = false ->
  rules_name rs (normalizeName (qName q)) i r -> toAction (Rules.Action r) = ActionBlock ->
  exists m s', Resolve (Some (BuildTable rs)) u spoof (Some req) client es s = (Replied (Some m) None, s') /\
    forwarded s' = forwarded s /\ Id m = Id req /\ Rcode m = RcodeNameError /\ Answer m = [] /\
    hitsBlock (metrics s') = int64 (hitsBlock (metrics s) + 1).
Proof.
  intros HQ HZ HR HA. rewrite Resolve_decides. unfold decide_call. rewrite HZ, HQ, classify_spec. unfold spec_classify.
  rewrite (proj2 (found_enabled_first _ _ _) ltac:(by exists i)), HA. do 2 eexists. split; [done|].
  destruct (SetRcode_reply new_Msg req RcodeNameError) as (G1 & _ & G3 & G4 & _). by split_and!.
Qed.

(** C14: whatever a client sends, a call forwards at most one message, to the
    pool its category names; it asks the client's one question, is never a zone
    transfer, and (where the client sent at most one OPT record) carries no
    client-subnet option and no UDP size above 1232, and all else the client
    sent. *)
Theorem forwarded_sanitized `{!MiekgLaws} tbl u spoof req client es s o s' :
  Resolve tbl u spoof (Some req) client es s = (o, s') ->
  forwarded s' = forwarded s \/
  exists m category q, forwarded s' = forwarded s ++ [(m, category)] /\ (category = str "direct" \/ category = str "proxy") /\
    Questions m = [q] /\ isZoneTransfer m = false /\ sanitized req m.
Proof.
  rewrite Resolve_decides.
  set (s1 := with_metrics _ _). assert (forwarded s1 = forwarded s) as Hs1 by done. clearbody s1.
  assert (forall category q, category = str "direct" \/ category = str "proxy" ->
    Questions req = [q] -> isZoneTransfer req = false -> forward u req category es s1 = (o, s') ->
    exists m category q, forwarded s' = forwarded s ++ [(m, category)] /\ (category = str "direct" \/ category = str "proxy") /\
    Questions m = [q] /\ isZoneTransfer m = false /\ sanitized req m) as HF.
  { intros category q Hcat HQ HZ E. pose proof (forward_spec u req category es s1) as HS. rewrite E, Hs1 in HS.
    destruct HS as [HS _]. pose proof (sanitize_ok req) as Hok. pose proof Hok as (_ & HQ' & HZ' & _).
    exists (sanitizeForUpstream req), category, q. rewrite HQ', HZ'. by split_and!. }
  unfold decide_call. destruct (isZoneTransfer req) eqn:HZ; [intros [= <- <-]; by left|].
  destruct (Questions req) as [|q [|q' l]] eqn:HQ; try (intros [= <- <-]; by left).
  destruct (classify tbl (qName q)); [intros [= <- <-]; by left|..].
  - intros E. right. apply (HF (str "direct") q); eauto.
  - destruct (spoof ≫= _) as [[p ip]|]; [intros [= <- <-]; by left|].
    intros E. right. apply (HF (str "proxy") q); eauto.
Qed.

(** a proxy-classified question is answered with the gateway's address
    exactly for A and AAAA questions whose address the policy has, from clients
    the policy's scope admits; then nothing is forwarded, the answer is the one
    record with the policy's address and a positive TTL.  Every other such
    question is forwarded. *)
Theorem spoof_exact `{!MiekgLaws} tbl u spoof req q client es s :
  Questions req = [q] -> isZoneTransfer req = false -> classify tbl (qName q) = ActionProxy ->
  (forall p ip, spoofs spoof client (Qtype q) p ip ->
     exists m s', Resolve tbl u spoof (Some req) client es s = (Replied (Some m) None, s') /\
       forwarded s' = forwarded s /\ Id m = Id req /\ Rcode m = RcodeSuccess /\
       exists ttl, ttl <> 0 /\ (sp_TTL p <> 0 -> ttl = sp_TTL p) /\
         let hdr := {| Name := qName q; Rrtype := Qtype q; Class_ := ClassINET; Ttl := ttl |} in
         Answer m = if Qtype q =? TypeA
                    then from_option (fun a => [RR_A hdr a]) [] (To4 ip)
                    else from_option (fun a => [RR_AAAA hdr a]) [] (To16 ip)) /\
  ((forall p ip, ~ spoofs spoof client (Qtype q) p ip) ->
     exists m, forwarded (Resolve tbl u spoof (Some req) client es s).2 = forwarded s ++ [(m, str "proxy")]).
Proof.
  intros HQ HZ HC. rewrite Resolve_decides. unfold decide_call. rewrite HZ, HQ, HC. split.
  - intros p ip HS. pose proof HS as (_ & HT & _). apply shouldSpoof_spec in HS as [-> HS].
    cbn [mbind option_bind]. rewrite HS. cbn [mbind option_bind]. do 2 eexists. split; [done|]. split; [done|].
    unfold spoofReply. rewrite HQ.
    destruct (SetReply_reply new_Msg req) as (G1 & _ & G3 & _ & G5 & _).
    set (ttl := if sp_TTL p =? 0 then defaultSpoofTTL else sp_TTL p).
    assert (ttl <> 0 /\ (sp_TTL p <> 0 -> ttl = sp_TTL p)) as [Ht1 Ht2].
    { unfold ttl, defaultSpoofTTL. destruct (Z.eqb_spec (sp_TTL p) 0); lia. }
    destruct HT as [[HT _]|[HT _]]; rewrite HT; cbn [Z.eqb TypeA TypeAAAA].
    + destruct (To4 ip) as [v4|]; (split; [done|]; split; [done|]); exists ttl; by split_and!.
    + destruct (To16 ip) as [v6|]; (split; [done|]; split; [done|]); exists ttl; by split_and!.
  - intros HN. destruct (spoof ≫= _) as [[p ip]|] eqn:ES.
    + exfalso. destruct spoof as [p'|]; [|done]. cbn [mbind option_bind] in ES.
      destruct (shouldSpoof p' client (Qtype q)) as [ip'|] eqn:E; [|done]. injection ES as -> ->.
      apply (HN p ip). by apply shouldSpoof_spec.
    + set (s1 := with_metrics _ _). pose proof (forward_spec u req (str "proxy") es s1) as HF.
      destruct (forward _ _ _ _ _) as [o s']. destruct HF as [HF _]. cbn [snd]. rewrite HF. by eexists.
Qed.

(** every reply, canned, spoofed or from whichever upstream won the race,
    has the request's message id; a failed race gives SERVFAIL with the error. *)
Theorem reply_id `{!MiekgLaws} tbl u spoof req client es s m err s' :
  Resolve tbl u spoof (Some req) client es s = (Replied m err, s') ->
  exists r, m = Some r /\ Id r = Id req /\ (err <> None -> Rcode r = RcodeServerFailure).
Proof.
  rewrite Resolve_decides. set (s1 := with_metrics _ _).
  assert (forall rc, Id (SetRcode new_Msg req rc) = Id req /\ Rcode (SetRcode new_Msg req rc) = rc) as HR
    by (intros rc; destruct (SetRcode_reply new_Msg req rc) as (? & _ & ? & _); done).
  assert (forall category, forward u req category es s1 = (Replied m err, s') ->
    exists r, m = Some r /\ Id r = Id req /\ (err <> None -> Rcode r = RcodeServerFailure)) as HF.
  { intros category E. pose proof (forward_spec u req category es s1) as HS. rewrite E in HS. destruct HS as [_ HS].
    destruct m as [r|]; [|done]. exists r. split; [done|]. destruct err as [e|].
    - destruct HS as (-> & _). split; [apply HR|]. intros _. apply HR.
    - destruct HS as (resp & tier & rest & _ & -> & _). done. }
  destruct (decide_call tbl spoof req client) as [| | | |p ip|]; try (apply HF);
    intros [= <- <- _]; eexists; (split; [done|]); (split; [|done]); try apply HR.
  unfold spoofReply. destruct (SetReply_reply new_Msg req) as (G1 & _).
  by repeat case_match.
Qed.

(** without a configured fallback pool, a proxy-classified name that is not
    spoofed is answered by the first authoritative reply of the Proxy pool:
    no address of another pool is ever dialled for it. *)
Theorem proxy_pool_only tbl u spoof req client es s r s' :
  decide_call tbl spoof req client = VProxy -> Fallback u = [] ->
  Resolve tbl u spoof (Some req) client es s = (Replied (Some r) None, s') ->
  exists es1 i m0 st a rest,
    es = es1 ++ Report i (Ok m0) :: rest /\ Query_ u (sanitizeForUpstream req) (str "proxy") es1 = Waits st /\
    outstanding st !! i = Some (TierPrimary, a) /\ a ∈ Proxy u /\ r = set_Id m0 (Id req) /\ isAuthoritative m0 = true /\
    (forall t b, (t, b) ∈ outstanding st -> b ∈ Proxy u).
Proof.
  intros HV HFb. rewrite Resolve_decides, HV. set (s1 := with_metrics _ _). intros E.
  pose proof (forward_spec u req (str "proxy") es s1) as HS. rewrite E in HS.
  destruct HS as (_ & resp & tier & rest & HQ & -> & _).
  destruct (Query_answer _ _ _ _ _ _ _ HQ) as (es1 & i & m0 & st & a & Hes & HW & Ho & Ha & -> & HA & _ & HT).
  assert (primaryFor u (str "proxy") = Proxy u) as HP by done.
  assert (tier = TierPrimary) as -> by (destruct tier; [done|by destruct (HT eq_refl) as [? _]]).
  assert (forall t b, (t, b) ∈ outstanding st -> b ∈ Proxy u) as Hall.
  { intros t b Hb. apply Ha in Hb. destruct t; cbn [pool] in Hb; [by rewrite HP in Hb|].
    unfold fallbackFor in Hb. rewrite HFb in Hb. by apply elem_of_nil in Hb. }
  exists es1, i, m0, st, a, rest. split_and!; try done. apply (Hall TierPrimary). by apply list_elem_of_lookup_2 in Ho.
Qed.

(** ** The counters *)
Record call := {
  c_tbl : option RuleTable; c_up : Upstream; c_spoof : option SpoofPolicy; c_req : option Msg;
  c_client : option bytes; c_es : list rc_event
}.

Definition run_call (s : RState) (c : call) : RState :=
  (Resolve (c_tbl c) (c_up c) (c_spoof c) (c_req c) (c_client c) (c_es c) s).2.

(** No question to decide on: a nil message, or not one question. *)
Definition undecided (c : call) : bool :=
  match c_req c with
  | None => true
  | Some req => match decide_call (c_tbl c) (c_spoof c) req (c_client c) with VMalformed => true | _ => false end
  end.

Record accounted (n k : Z) (m : Metrics) : Prop := {
  acc_total : queriesTotal m = n;
  acc_sum : hitsBlock m + hitsDirect m + hitsProxy m + hitsSpoof m + refusedAXFR m + k = n;
  acc_pos : 0 <= hitsBlock m /\ 0 <= hitsDirect m /\ 0 <= hitsProxy m /\ 0 <= hitsSpoof m /\ 0 <= refusedAXFR m /\
    0 <= upstreamErrors m /\ 0 <= upstreamFallback m;
  acc_up : upstreamErrors m + upstreamFallback m <= hitsDirect m + hitsProxy m
}.

Lemma int64_small z : 0 <= z < 2 ^ 63 -> int64 z = z.
Proof. intros Hz. unfold int64. rewrite Z.mod_small; lia. Qed.

Lemma run_call_accounted n k s c :
  accounted n k (metrics s) -> 0 <= k -> 0 <= n < 2 ^ 63 - 1 ->
  accounted (n + 1) (k + if undecided c then 1 else 0) (metrics (run_call s c)).
Proof.
  intros [A1 A2 (P1 & P2 & P3 & P4 & P5 & P6 & P7) A3] Hk Hn. unfold run_call, undecided.
  destruct (c_req c) as [req|].
  - rewrite Resolve_decides.
    set (v := decide_call _ _ _ _).
    assert (forall category s1, let s2 := (forward (c_up c) req category (c_es c) s1).2 in
      metrics s2 = metrics s1 \/ metrics s2 = IncUpstreamError (metrics s1) \/ metrics s2 = IncUpstreamFallback (metrics s1)) as HF.
    { intros category s1. pose proof (forward_spec (c_up c) req category (c_es c) s1) as HS.
      destruct (forward _ _ _ _ _) as [[[m|] [e|]|e] s2]; destruct HS as [_ HS]; try done; cbn.
      - right. left. apply HS.
      - destruct HS as (r & t & rest & _ & _ & ->). case_bool_decide; auto.
      - left. apply HS. }
    destruct v; cbn [snd];
      try (destruct (HF (str "direct") (with_metrics (bump VDirect (IncQueries (metrics s))) s)) as [->|[->| ->]]);
      try (destruct (HF (str "proxy") (with_metrics (bump VProxy (IncQueries (metrics s))) s)) as [->|[->| ->]]);
      constructor; cbn; rewrite ?int64_small by lia; try lia.
  - constructor; cbn; rewrite ?int64_small by lia; lia.
Qed.

(** over any sequence of fewer than 2^63 calls, on whatever tables,
    policies, requests and schedules, the counters are exact: every call is
    counted once, under the one outcome it had, and the upstream errors and
    fallbacks never outnumber the forwarded queries. *)
Theorem counters_exact calls :
  len calls < 2 ^ 63 ->
  accounted (len calls) (len (filter (fun c => undecided c = true) calls))
    (metrics (foldl run_call {| metrics := NewMetrics; forwarded := [] |} calls)).
Proof.
  induction calls as [|c calls IH] using rev_ind.
  - intros _. rewrite filter_nil, len_nil. constructor; cbn; lia.
  - rewrite len_app, len_cons, len_nil, filter_app, len_app, foldl_app. intros HL.
    pose proof (len_nonneg calls). pose proof (len_nonneg (filter (fun c => undecided c = true) calls)).
    cbn [foldl]. rewrite filter_cons, filter_nil.
    replace (len (if decide (undecided c = true) then [c] else [])) with (if undecided c then 1 else 0)
      by (by destruct (undecided c)).
    rewrite Z.add_0_r. apply run_call_accounted; [apply IH|..]; lia.
Qed.

(** A message with two OPT records, both with a client-subnet option, still has
    one when it is forwarded: only the record [IsEdns0] points to is
    sanitized. *)
Lemma two_opts_keep_subnet `{!MiekgLaws} req i j oi oj :
  i <> j -> Extra req !! i = Some (RR_OPT oi) -> Extra req !! j = Some (RR_OPT oj) ->
  Exists (fun x => is_ECS x = true) (Option_ oi) -> Exists (fun x => is_ECS x = true) (Option_ oj) ->
  exists k o, Extra (sanitizeForUpstream req) !! k = Some (RR_OPT o) /\ Exists (fun x => is_ECS x = true) (Option_ o).
Proof.
  intros Hij Ei Ej Si Sj. unfold sanitizeForUpstream. rewrite Copy_same.
  destruct (IsEdns0 req) as [n|] eqn:En; [|by exists i, oi].
  destruct (IsEdns0_Some _ _ En) as [o Eo]. rewrite Eo. cbn [set_Extra Extra].
  destruct (Nat.eq_dec n i) as [->|Hni].
  - exists j, oj. by rewrite list_lookup_insert_ne.
  - exists i, oi. by rewrite list_lookup_insert_ne.
Qed.
End resolver.

(** ** Examples *)
Module Demo.
#[local] Existing Instance ascii_tables.
#[local] Existing Instance sample_dns.
#[local] Existing Instance sample_laws.

Definition opt : OPT :=
  {| opt_hdr := {| Name := str "."; Rrtype := 41; Class_ := 4096; Ttl := 0 |};
     Option_ := [EDNS0_SUBNET (str "net"); EDNS0_OTHER 10 (str "cookie")] |}.

Definition ask (name : bytes) (ty : Z) : Msg :=
  {| Id := 4660; Response := false; Opcode := 0; Authoritative := false; Truncated := false;
     RecursionDesired := true; RecursionAvailable := false; Zero := false;
     AuthenticatedData := false; CheckingDisabled := false; Rcode := 0;
     Questions := [{| qName := name; Qtype := ty; Qclass := ClassINET |}];
     Answer := []; Ns := []; Extra := [RR_OPT opt] |}.

Definition table : option RuleTable := Some (BuildTable demo_rules).
Definition s0 : RState := {| metrics := NewMetrics; forwarded := [] |}.
Definition www : Msg := ask (str "www.example.com.") TypeA.
Definition other : Msg := ask (str "other.net.") TypeA.

Definition policy : SpoofPolicy :=
  {| ServerIP4 := Some (map zb [203; 0; 113; 9]); ServerIP6 := None; Scope := SpoofScopePrivateOnly;
     AllowCIDR := ParseCIDRs [str " 172.22.0.0/16"; str "bad"]; sp_TTL := 0 |}.
Definition client : bytes := map zb [172; 22; 1; 2].

Definition ok_report : rc_event := Report 0 (Ok (SetRcode new_Msg new_Msg RcodeSuccess)).

Lemma www_blocked : rules_name demo_rules (normalizeName (str "www.example.com.")) 1 Rules.Example1.r2.
Proof.
  split; [done|]. split; [done|]. split; [by vm_compute|].
  intros [|[|[|j]]] r Hj _ Hc; [injection Hj as <-..|done]; (split; [cbn; lia|intros E; try lia; by cbn in E]).
Qed.

Lemma www_block : toAction (Rules.Action Rules.Example1.r2) = ActionBlock.
Proof. by vm_compute. Qed.

Lemma blocked_stays_local_witness :
  rules_name demo_rules (normalizeName (str "www.example.com.")) 1 Rules.Example1.r2 /\
  exists m s', Resolve table NewUpstream None (Some www) None [] s0 = (Replied (Some m) None, s') /\
    forwarded s' = [] /\ Id m = 4660 /\ Rcode m = RcodeNameError /\ Answer m = [] /\
    hitsBlock (metrics s') = int64 (0 + 1).
Proof.
  split; [exact www_blocked|].
  exact (blocked_stays_local demo_rules NewUpstream None www {| qName := str "www.example.com."; Qtype := TypeA; Qclass := ClassINET |}
           None [] s0 1 Rules.Example1.r2 eq_refl eq_refl www_blocked www_block).
Defined.

Lemma forwarded_sanitized_witness :
  exists o s', Resolve table NewUpstream None (Some other) None [ok_report] s0 = (o, s') /\
    (forwarded s' = [] \/
     exists m category q, forwarded s' = [(m, category)] /\ (category = str "direct" \/ category = str "proxy") /\
       Questions m = [q] /\ isZoneTransfer m = false /\ sanitized other m).
Proof.
  destruct (Resolve table NewUpstream None (Some other) None [ok_report] s0) as [o s'] eqn:E.
  exists o, s'. split; [reflexivity|].
  exact (forwarded_sanitized table NewUpstream None other None [ok_report] s0 o s' E).
Defined.

Example forwards_without_subnet :
  forwarded (Resolve table NewUpstream None (Some other) None [ok_report] s0).2 =
    [(set_Extra other [RR_OPT {| opt_hdr := {| Name := str "."; Rrtype := 41; Class_ := 1232; Ttl := 0 |};
                                 Option_ := [EDNS0_OTHER 10 (str "cookie")] |}], str "proxy")].
Proof. by vm_compute. Qed.

Definition other_q : Question := {| qName := str "other.net."; Qtype := TypeA; Qclass := ClassINET |}.

Lemma other_proxied : classify table (qName other_q) = ActionProxy.
Proof. by vm_compute. Qed.

Lemma policy_fits : spoofs (Some policy) (Some client) TypeA policy (map zb [203; 0; 113; 9]).
Proof. apply shouldSpoof_spec. split; [done|by vm_compute]. Qed.

Lemma spoof_exact_witness :
  classify table (qName other_q) = ActionProxy /\ spoofs (Some policy) (Some client) TypeA policy (map zb [203; 0; 113; 9]) /\
  exists m s', Resolve table NewUpstream (Some policy) (Some other) (Some client) [] s0 = (Replied (Some m) None, s') /\
    forwarded s' = [] /\ Id m = 4660 /\ Rcode m = RcodeSuccess.
Proof.
  split; [exact other_proxied|]. split; [exact policy_fits|].
  destruct (proj1 (spoof_exact table NewUpstream (Some policy) other other_q (Some client) [] s0 eq_refl eq_refl other_proxied)
              policy (map zb [203; 0; 113; 9]) policy_fits) as (m & s' & E & H1 & H2 & H3 & _).
  exists m, s'. split; [exact E|]. split; [exact H1|]. split; [exact H2|exact H3].
Defined.

Lemma other_answered : exists m s',
  Resolve table NewUpstream None (Some other) None [ok_report] s0 = (Replied (Some m) None, s').
Proof. do 2 eexists. by vm_compute. Qed.

Lemma reply_id_witness :
  exists m s', Resolve table NewUpstream None (Some other) None [ok_report] s0 = (Replied (Some m) None, s') /\
    exists r, Some m = Some r /\ Id r = 4660 /\ (None <> @None ResolveError -> Rcode r = RcodeServerFailure).
Proof.
  destruct other_answered as (m & s' & E). exists m, s'. split; [exact E|].
  exact (reply_id table NewUpstream None other None [ok_report] s0 (Some m) None s' E).
Defined.

Lemma other_verdict : decide_call table None other None = VProxy.
Proof. by vm_compute. Qed.

Lemma proxy_pool_only_witness :
  decide_call table None other None = VProxy /\
  exists m s' es1 i m0 st a rest,
    Resolve table NewUpstream None (Some other) None [ok_report] s0 = (Replied (Some m) None, s') /\
    [ok_report] = es1 ++ Report i (Ok m0) :: rest /\
    Query_ NewUpstream (sanitizeForUpstream other) (str "proxy") es1 = Waits st /\
    outstanding st !! i = Some (TierPrimary, a) /\ a ∈ Proxy NewUpstream /\ m = set_Id m0 4660.
Proof.
  split; [exact other_verdict|]. destruct other_answered as (m & s' & E).
  destruct (proxy_pool_only table NewUpstream None other None [ok_report] s0 m s' other_verdict eq_refl E)
    as (es1 & i & m0 & st & a & rest & H1 & H2 & H3 & H4 & H5 & _).
  exists m, s', es1, i, m0, st, a, rest. split; [exact E|]. split; [exact H1|]. split; [exact H2|].
  split; [exact H3|]. split; [exact H4|exact H5].
Defined.

Definition calls : list call :=
  [{| c_tbl := table; c_up := NewUpstream; c_spoof := None; c_req := Some www; c_client := None; c_es := [] |};
   {| c_tbl := table; c_up := NewUpstream; c_spoof := None; c_req := None; c_client := None; c_es := [] |};
   {| c_tbl := table; c_up := NewUpstream; c_spoof := None; c_req := Some other; c_client := None; c_es := [ok_report] |}].

Lemma counters_exact_witness :
  len calls < 2 ^ 63 /\
  accounted 3 (len (filter (fun c => undecided c = true) calls)) (metrics (foldl run_call s0 calls)).
Proof. split; [unfold len; cbn; lia|]. apply (counters_exact calls). unfold len. cbn. lia. Defined.
End Demo.
