(* ===== verification/GoCodec.v ===== *)
(** * Encodings of the Go standard library

    [net/url]'s [QueryUnescape] and [QueryEscape], [encoding/base64]'s standard
    and URL alphabets with padding, and [strconv.Atoi], as far as the parsers of
    the repository use them, with their round trips. *)
From S2P Require Import Prelude GoStrings GoNet.
From Stdlib Require Import ZArith Lia.

Local Open Scope Z_scope.

(** ** [url.QueryUnescape] *)
Definition percent : byte := Byte.x25.
Definition plus_sign : byte := Byte.x2b.
Definition space : byte := Byte.x20.

(** [None] is the error; a [%] needs two hexadecimal digits after it. *)
Fixpoint QueryUnescape (s : bytes) : option bytes :=
  match s with
  | [] => Some []
  | c :: s =>
      if c == percent then
        match s with
        | a :: b :: s =>
            x ← hex_value a; y ← hex_value b; r ← QueryUnescape s; Some (zb (16 * x + y) :: r)
        | _ => None
        end
      else r ← QueryUnescape s; Some ((if c == plus_sign then space else c) :: r)
  end.

(** Letters, digits and [-_.~] stand for themselves. *)
Definition unreserved (c : byte) : bool :=
  is_digit c || ((65 <=? bz c) && (bz c <=? 90)) || ((97 <=? bz c) && (bz c <=? 122)) ||
  bool_decide (c ∈ str "-_.~").

Definition upper_hex (z : Z) : byte := if z <? 10 then zb (48 + z) else zb (55 + z).

Definition escape_byte (c : byte) : bytes :=
  if unreserved c then [c]
  else if c == space then [plus_sign]
  else [percent; upper_hex (bz c / 16); upper_hex (bz c mod 16)].

Definition QueryEscape (s : bytes) : bytes := concat (map escape_byte s).

Lemma unreserved_all :
  forallb (fun z => negb (unreserved (zb z)) || (negb (zb z == percent) && negb (zb z == plus_sign))) (seqZ 0 256) = true.
Proof. by vm_compute. Qed.

Lemma unreserved_plain c : unreserved c = true -> c <> percent /\ c <> plus_sign.
Proof.
  intros Hc. pose proof unreserved_all as HA. rewrite forallb_forall in HA. specialize (HA (bz c)).
  rewrite zb_bz, Hc in HA. cbn [negb orb] in HA. rewrite andb_true_iff, !negb_true_iff, !bool_decide_eq_false in HA.
  apply HA. apply list_elem_of_In, elem_of_seqZ. pose proof (bz_range c). lia.
Qed.

Lemma hex_value_upper k : 0 <= k < 16 -> hex_value (upper_hex k) = Some k.
Proof.
  intros Hk. assert (forallb (fun k => hex_value (upper_hex k) == Some k) (seqZ 0 16) = true) as HA by (by vm_compute).
  rewrite forallb_forall in HA. specialize (HA k). rewrite bool_decide_eq_true in HA. apply HA.
  apply list_elem_of_In, elem_of_seqZ. lia.
Qed.

Lemma QueryUnescape_byte c s :
  QueryUnescape (escape_byte c ++ s) = r ← QueryUnescape s; Some (c :: r).
Proof.
  unfold escape_byte. destruct (unreserved c) eqn:EU; [|case_bool_decide as Hs].
  - destruct (unreserved_plain c EU) as [H1 H2]. cbn [app QueryUnescape].
    by rewrite !bool_decide_eq_false_2 by done.
  - subst c. cbn [app QueryUnescape]. by rewrite bool_decide_eq_false_2, bool_decide_eq_true_2 by done.
  - pose proof (bz_range c). pose proof (Z.mod_pos_bound (bz c) 16 ltac:(lia)).
    assert (0 <= bz c / 16 < 16) by (split; [apply Z.div_pos; lia|apply Z.div_lt_upper_bound; lia]).
    cbn [app QueryUnescape]. rewrite bool_decide_eq_true_2, !hex_value_upper by done. cbn [mbind option_bind].
    pose proof (Z.div_mod (bz c) 16 ltac:(lia)) as HD. by rewrite <- HD, zb_bz.
Qed.

Lemma QueryUnescape_escape s : QueryUnescape (QueryEscape s) = Some s.
Proof.
  induction s as [|c s IH]; [done|]. unfold QueryEscape in *. cbn [map concat].
  by rewrite QueryUnescape_byte, IH.
Qed.

(** What has no [%] and no [+] is left as it is. *)
Lemma QueryUnescape_plain s : percent ∉ s -> plus_sign ∉ s -> QueryUnescape s = Some s.
Proof.
  induction s as [|c s IH]; [done|]. rewrite !not_elem_of_cons. intros [H1 H2] [H3 H4]. cbn [QueryUnescape].
  rewrite bool_decide_eq_false_2 by done. rewrite IH by done. cbn. by rewrite bool_decide_eq_false_2.
Qed.

(** ** [encoding/base64] *)
Definition b64_char (url : bool) (k : Z) : byte :=
  if k <? 26 then zb (65 + k)
  else if k <? 52 then zb (71 + k)
  else if k <? 62 then zb (k - 4)
  else if k =? 62 then (if url then Byte.x2d else Byte.x2b)
  else (if url then Byte.x5f else Byte.x2f).

Definition b64_value (url : bool) (c : byte) : option Z :=
  let z := bz c in
  if (65 <=? z) && (z <=? 90) then Some (z - 65)
  else if (97 <=? z) && (z <=? 122) then Some (z - 71)
  else if is_digit c then Some (z + 4)
  else if c == (if url then Byte.x2d else Byte.x2b) then Some 62
  else if c == (if url then Byte.x5f else Byte.x2f) then Some 63
  else None.

Definition pad_char : byte := Byte.x3d.

(** Four characters at a time; padding ends the input. *)
Fixpoint b64_quanta (url : bool) (s : bytes) : option bytes :=
  match s with
  | [] => Some []
  | a :: b :: c :: d :: rest =>
      x ← b64_value url a; y ← b64_value url b;
      let b1 := zb (x * 4 + y / 16) in
      match b64_value url c with
      | None => if (c == pad_char) && (d == pad_char) && (rest == []) then Some [b1] else None
      | Some z =>
          let b2 := zb ((y mod 16) * 16 + z / 4) in
          match b64_value url d with
          | None => if (d == pad_char) && (rest == []) then Some [b1; b2] else None
          | Some w => r ← b64_quanta url rest; Some (b1 :: b2 :: zb ((z mod 4) * 64 + w) :: r)
          end
      end
  | _ => None
  end.

(** [DecodeString] skips carriage returns and line feeds. *)
Definition b64_DecodeString (url : bool) (s : bytes) : option bytes :=
  b64_quanta url (filter (fun c => c <> Byte.x0a /\ c <> Byte.x0d) s).

Fixpoint b64_encode (url : bool) (s : bytes) : bytes :=
  match s with
  | [] => []
  | [a] => [b64_char url (bz a / 4); b64_char url ((bz a mod 4) * 16); pad_char; pad_char]
  | [a; b] =>
      [b64_char url (bz a / 4); b64_char url ((bz a mod 4) * 16 + bz b / 16);
       b64_char url ((bz b mod 16) * 4); pad_char]
  | a :: b :: c :: rest =>
      b64_char url (bz a / 4) :: b64_char url ((bz a mod 4) * 16 + bz b / 16) ::
      b64_char url ((bz b mod 16) * 4 + bz c / 64) :: b64_char url (bz c mod 64) :: b64_encode url rest
  end.

Lemma b64_value_all url : forallb (fun k => b64_value url (b64_char url k) == Some k) (seqZ 0 64) = true.
Proof. by destruct url; vm_compute. Qed.

Lemma b64_value_char url k : 0 <= k < 64 -> b64_value url (b64_char url k) = Some k.
Proof.
  intros Hk. pose proof (b64_value_all url) as HA. rewrite forallb_forall in HA.
  specialize (HA k). rewrite bool_decide_eq_true in HA. apply HA. apply list_elem_of_In, elem_of_seqZ. lia.
Qed.

Lemma b64_pad_value url : b64_value url pad_char = None.
Proof. by destruct url. Qed.

(** Rebuilding the bytes from the six-bit groups. *)
Lemma b64_first a y : 0 <= y < 16 -> zb (bz a / 4 * 4 + (bz a mod 4 * 16 + y) / 16) = a.
Proof.
  intros Hy. rewrite Z.div_add_l, (Z.div_small y) by lia. rewrite <- (zb_bz a) at 3. f_equal.
  pose proof (Z.div_mod (bz a) 4 ltac:(lia)). lia.
Qed.

Lemma b64_second a b z : 0 <= z < 4 -> zb ((bz a mod 4 * 16 + bz b / 16) mod 16 * 16 + (bz b mod 16 * 4 + z) / 4) = b.
Proof.
  intros Hz. pose proof (bz_range b) as Hb. assert (0 <= bz b / 16 < 16) by (split; [apply Z.div_pos; lia|apply Z.div_lt_upper_bound; lia]).
  rewrite (Z.add_comm (bz a mod 4 * 16)), Z_mod_plus_full, Z.mod_small by done.
  rewrite Z.div_add_l, (Z.div_small z) by lia. rewrite <- (zb_bz b) at 3. f_equal.
  pose proof (Z.div_mod (bz b) 16 ltac:(lia)). lia.
Qed.

Lemma b64_third b c : zb ((bz b mod 16 * 4 + bz c / 64) mod 4 * 64 + bz c mod 64) = c.
Proof.
  pose proof (bz_range c) as Hc. assert (0 <= bz c / 64 < 4) by (split; [apply Z.div_pos; lia|apply Z.div_lt_upper_bound; lia]).
  rewrite (Z.add_comm (bz b mod 16 * 4)), Z_mod_plus_full, Z.mod_small by done.
  rewrite <- (zb_bz c) at 3. f_equal. pose proof (Z.div_mod (bz c) 64 ltac:(lia)). lia.
Qed.

Lemma b64_groups a b c :
  0 <= bz a / 4 < 64 /\ 0 <= bz a mod 4 * 16 + bz b / 16 < 64 /\ 0 <= bz b mod 16 * 4 + bz c / 64 < 64 /\
  0 <= bz c mod 64 < 64 /\ 0 <= bz a mod 4 * 16 < 64 /\ 0 <= bz b mod 16 * 4 < 64.
Proof.
  pose proof (bz_range a). pose proof (bz_range b). pose proof (bz_range c).
  pose proof (Z.mod_pos_bound (bz a) 4). pose proof (Z.mod_pos_bound (bz b) 16). pose proof (Z.mod_pos_bound (bz c) 64).
  assert (0 <= bz b / 16 < 16) by (split; [apply Z.div_pos; lia|apply Z.div_lt_upper_bound; lia]).
  assert (0 <= bz c / 64 < 4) by (split; [apply Z.div_pos; lia|apply Z.div_lt_upper_bound; lia]).
  assert (0 <= bz a / 4 < 64) by (split; [apply Z.div_pos; lia|apply Z.div_lt_upper_bound; lia]). lia.
Qed.

Lemma b64_roundtrip url s : b64_quanta url (b64_encode url s) = Some s.
Proof.
  induction s as [s IH] using (induction_ltof1 _ (@length byte)). unfold ltof in IH.
  destruct s as [|a [|b [|c rest]]]; [done|..]; cbn [b64_encode b64_quanta].
  - destruct (b64_groups a a a) as (G1 & _ & _ & _ & G5 & _).
    rewrite !b64_value_char, b64_pad_value by done. cbn.
    pose proof (b64_first a 0 ltac:(lia)) as H1. rewrite Z.add_0_r in H1. by rewrite H1.
  - destruct (b64_groups a b b) as (G1 & G2 & _ & _ & _ & G6).
    rewrite !b64_value_char, b64_pad_value by done. cbn.
    assert (0 <= bz b / 16 < 16) as Hb by (pose proof (bz_range b); split; [apply Z.div_pos; lia|apply Z.div_lt_upper_bound; lia]).
    pose proof (b64_first a _ Hb) as H1. pose proof (b64_second a b 0 ltac:(lia)) as H2.
    rewrite Z.add_0_r in H2. by rewrite H1, H2.
  - destruct (b64_groups a b c) as (G1 & G2 & G3 & G4 & _).
    rewrite !b64_value_char by done. cbn [mbind option_bind].
    assert (0 <= bz b / 16 < 16) as Hb by (pose proof (bz_range b); split; [apply Z.div_pos; lia|apply Z.div_lt_upper_bound; lia]).
    assert (0 <= bz c / 64 < 4) as Hc by (pose proof (bz_range c); split; [apply Z.div_pos; lia|apply Z.div_lt_upper_bound; lia]).
    rewrite (IH rest) by (cbn; lia). cbn [mbind option_bind].
    by rewrite (b64_first a _ Hb), (b64_second a b _ Hc), b64_third.
Qed.

(** ** Runes: [for _, r := range s]

    The UTF-8 encoding of each rune; an invalid byte is U+FFFD. *)
Definition in_range (lo hi : Z) (c : byte) : bool := (lo <=? bz c) && (bz c <=? hi).
Definition cont : byte -> bool := in_range 0x80 0xbf.

(** The width of the first rune, 0 for an invalid one. *)
Definition rune_width (s : bytes) : nat :=
  match s with
  | [] => 0
  | a :: r =>
      if bz a <? 0x80 then 1
      else match r with
      | [] => 0
      | b :: r =>
          if in_range 0xc2 0xdf a && cont b then 2
          else match r with
          | [] => 0
          | c :: r =>
              let second3 := if bz a =? 0xe0 then in_range 0xa0 0xbf b
                             else if bz a =? 0xed then in_range 0x80 0x9f b else cont b in
              if in_range 0xe0 0xef a && second3 && cont c then 3
              else match r with
              | [] => 0
              | d :: _ =>
                  let second4 := if bz a =? 0xf0 then in_range 0x90 0xbf b
                                 else if bz a =? 0xf4 then in_range 0x80 0x8f b else cont b in
                  if in_range 0xf0 0xf4 a && second4 && cont c && cont d then 4 else 0
              end
          end
      end
  end.

Definition replacement : bytes := map zb [0xef; 0xbf; 0xbd].

(** A string of [n] bytes has at most [n] runes. *)
Fixpoint runes_loop (fuel : nat) (s : bytes) : list bytes :=
  match fuel, s with
  | S fuel, _ :: r =>
      match rune_width s with
      | O => replacement :: runes_loop fuel r
      | S n => take (S n) s :: runes_loop fuel (drop (S n) s)
      end
  | _, _ => []
  end.

Definition runes (s : bytes) : list bytes := runes_loop (length s) s.

(** A rune of several bytes is made of bytes above ASCII. *)
Lemma rune_width_high s n : rune_width s = S (S n) -> Forall (fun c => 128 <= bz c) (take (S (S n)) s).
Proof.
  unfold rune_width, in_range, cont. intros E.
  repeat match type of E with
  | context [match ?x with [] => _ | _ :: _ => _ end] => destruct x; try done
  | context [if ?b then _ else _] => let H := fresh "B" in destruct b eqn:H; try done
  end; injection E as <-; cbn [take]; rewrite ?andb_true_iff, ?Z.leb_le, ?Z.ltb_ge in *;
  unfold in_range in *; repeat constructor; try lia;
  repeat match goal with B : context [if ?b then _ else _] |- _ => destruct b end; rewrite ?andb_true_iff, ?Z.leb_le in *; lia.
Qed.

Lemma runes_loop_ascii fuel s : is_ascii s = true -> (length s <= fuel)%nat -> runes_loop fuel s = (fun c => [c]) <$> s.
Proof.
  revert s. induction fuel as [|fuel IH]; intros s Ha Hl; destruct s as [|c s]; try done; [cbn in Hl; lia|].
  cbn in Ha. apply andb_true_iff in Ha as [Hc Ha]. cbn [runes_loop rune_width]. rewrite Hc. cbn.
  f_equal. rewrite drop_0. apply IH; [done|]. cbn in Hl. lia.
Qed.

Lemma runes_ascii s : is_ascii s = true -> runes s = (fun c => [c]) <$> s.
Proof. intros Ha. by apply runes_loop_ascii. Qed.

(** ** Case-insensitive literals of [regexp]

    [(?i)] folds an ASCII letter with its other case, s also with U+017F and k
    with U+212A.  [fold_prefix p s] is what follows the match of [p], lower
    case, at the start of [s]. *)
Definition fold_rune (c : byte) : list bytes :=
  if c == Byte.x73 then [map zb [0xc5; 0xbf]]
  else if c == Byte.x6b then [map zb [0xe2; 0x84; 0xaa]] else [].

Definition fold_eat (c : byte) (s : bytes) : option bytes :=
  match s with
  | x :: r => if lower_byte x == c then Some r
              else (fun a => drop (length a) s) <$> found (fun a => HasPrefix s a) (fold_rune c)
  | [] => None
  end.

Fixpoint fold_prefix (p s : bytes) : option bytes :=
  match p with
  | [] => Some s
  | c :: p => s ← fold_eat c s; fold_prefix p s
  end.

(** ** What the encodings are made of *)
Definition b64_byte (url : bool) (c : byte) : bool := bool_decide (is_Some (b64_value url c)) || (c == pad_char).

Lemma b64_encode_bytes url s : Forall (fun c => b64_byte url c = true) (b64_encode url s).
Proof.
  assert (forall k, 0 <= k < 64 -> b64_byte url (b64_char url k) = true) as HC.
  { intros k Hk. unfold b64_byte. rewrite b64_value_char by done. by rewrite bool_decide_eq_true_2. }
  assert (b64_byte url pad_char = true) as HP by (by destruct url).
  induction s as [s IH] using (induction_ltof1 _ (@length byte)). unfold ltof in IH.
  destruct s as [|a [|b [|c rest]]]; cbn [b64_encode].
  - done.
  - destruct (b64_groups a a a) as (G1 & _ & _ & _ & G5 & _). repeat constructor; auto.
  - destruct (b64_groups a b b) as (G1 & G2 & _ & _ & _ & G6). repeat constructor; auto.
  - destruct (b64_groups a b c) as (G1 & G2 & G3 & G4 & _). repeat constructor; auto. apply IH. cbn. lia.
Qed.

Lemma b64_encode_length url s : len (b64_encode url s) mod 4 = 0.
Proof.
  induction s as [s IH] using (induction_ltof1 _ (@length byte)). unfold ltof in IH.
  destruct s as [|a [|b [|c rest]]]; cbn [b64_encode]; try done.
  rewrite !len_cons. specialize (IH rest ltac:(cbn; lia)).
  replace (1 + (1 + (1 + (1 + len (b64_encode url rest))))) with (len (b64_encode url rest) + 1 * 4) by lia.
  by rewrite Z_mod_plus_full.
Qed.

Lemma b64_quanta_bytes url s v : b64_quanta url s = Some v -> Forall (fun c => b64_byte url c = true) s.
Proof.
  assert (forall c x, b64_value url c = Some x -> b64_byte url c = true) as HV.
  { intros c x E. unfold b64_byte. by rewrite E, bool_decide_eq_true_2. }
  assert (forall c, (c == pad_char) = true -> b64_byte url c = true) as HP.
  { intros c E. unfold b64_byte. by rewrite E, orb_true_r. }
  revert v. induction s as [s IH] using (induction_ltof1 _ (@length byte)). unfold ltof in IH. intros v.
  destruct s as [|a [|b [|c [|d rest]]]]; cbn [b64_quanta]; try done.
  destruct (b64_value url a) as [x|] eqn:Ea; [|done]. destruct (b64_value url b) as [y|] eqn:Eb; [|done]. cbn [mbind option_bind].
  destruct (b64_value url c) as [z|] eqn:Ec; [destruct (b64_value url d) as [w|] eqn:Ed|].
  - destruct (b64_quanta url rest) as [r|] eqn:Er; [|done]. intros _. repeat constructor; eauto. eapply IH; [|done]. cbn. lia.
  - destruct (d == pad_char) eqn:Ed'; [|done]. cbn [andb]. destruct (bool_decide_reflect (rest = [])) as [->|]; [|done]. intros _.
    repeat constructor; eauto.
  - destruct (c == pad_char) eqn:Ec'; [|done]. destruct (d == pad_char) eqn:Ed'; [|done]. cbn [andb].
    destruct (bool_decide_reflect (rest = [])) as [->|]; [|done]. intros _. repeat constructor; eauto.
Qed.

(** A text over both alphabets reads the same in both. *)
Lemma b64_common_all : forallb (fun z => let c := zb z in
  negb (b64_byte true c && b64_byte false c) || (b64_value true c == b64_value false c)) (seqZ 0 256) = true.
Proof. by vm_compute. Qed.

Lemma b64_common c : b64_byte true c = true -> b64_byte false c = true -> b64_value true c = b64_value false c.
Proof.
  intros Ht Hf. pose proof b64_common_all as HA. rewrite forallb_forall in HA. specialize (HA (bz c)).
  rewrite <- list_elem_of_In, elem_of_seqZ in HA. pose proof (bz_range c). specialize (HA ltac:(lia)).
  cbn zeta in HA. rewrite zb_bz, Ht, Hf in HA. by apply bool_decide_eq_true in HA.
Qed.

Lemma b64_quanta_common s :
  Forall (fun c => b64_byte true c = true) s -> Forall (fun c => b64_byte false c = true) s ->
  b64_quanta true s = b64_quanta false s.
Proof.
  induction s as [s IH] using (induction_ltof1 _ (@length byte)). unfold ltof in IH.
  destruct s as [|a [|b [|c [|d rest]]]]; intros Ht Hf; try done.
  rewrite !Forall_cons in Ht, Hf. destruct Ht as (A1 & B1 & C1 & D1 & R1), Hf as (A2 & B2 & C2 & D2 & R2).
  cbn [b64_quanta]. rewrite (b64_common a), (b64_common b), (b64_common c), (b64_common d) by done.
  rewrite (IH rest) by (try done; cbn; lia). done.
Qed.

Lemma filter_id (P : byte -> Prop) `{!forall c, Decision (P c)} l : Forall P l -> filter P l = l.
Proof. induction 1 as [|c l Hc _ IH]; [done|]. by rewrite filter_cons_True, IH. Qed.

(** Decoding with the standard alphabet first and then with the other one. *)
Lemma b64_decode_either url s :
  match b64_DecodeString false (b64_encode url s) with
  | Some v => Some v
  | None => b64_DecodeString true (b64_encode url s)
  end = Some s.
Proof.
  assert (forall u, b64_DecodeString u (b64_encode url s) = b64_quanta u (b64_encode url s)) as HD.
  { intros u. unfold b64_DecodeString. f_equal. apply filter_id. eapply Forall_impl; [apply b64_encode_bytes|].
    cbn. intros c Hc. split; intros ->; by destruct url. }
  rewrite !HD. destruct url; [|by rewrite b64_roundtrip].
  destruct (b64_quanta false _) as [v|] eqn:E; [|apply b64_roundtrip].
  rewrite <- E, <- b64_quanta_common; [apply b64_roundtrip|apply b64_encode_bytes|by eapply b64_quanta_bytes].
Qed.

(** Bytes of base64 and of escaped strings are visible, and none of these. *)
Definition delimiters : bytes := str "#?@/:".

Lemma b64_byte_all : forallb (fun z => let c := zb z in
  (negb (b64_byte true c) || (visible_byte c && negb (bool_decide (c ∈ delimiters)))) &&
  (negb (b64_byte false c) || negb (bool_decide (c = colon)))) (seqZ 0 256) = true.
Proof. by vm_compute. Qed.

Lemma b64_byte_safe c :
  (b64_byte true c = true -> visible_byte c = true /\ c ∉ delimiters) /\ (b64_byte false c = true -> c <> colon).
Proof.
  pose proof b64_byte_all as HA. rewrite forallb_forall in HA. specialize (HA (bz c)). cbv beta zeta in HA. rewrite zb_bz in HA.
  rewrite andb_true_iff, !orb_true_iff, !negb_true_iff, andb_true_iff, negb_true_iff, !bool_decide_eq_false in HA.
  destruct HA as [H1 H2]; [apply list_elem_of_In, elem_of_seqZ; pose proof (bz_range c); lia|].
  split; intros E; [destruct H1; [congruence|done]|destruct H2; [congruence|done]].
Qed.

Lemma escape_all : forallb (fun z => forallb (fun c => visible_byte c && negb (bool_decide (c ∈ delimiters)))
  (escape_byte (zb z))) (seqZ 0 256) = true.
Proof. by vm_compute. Qed.

Lemma QueryEscape_safe s : Forall (fun c => visible_byte c = true /\ c ∉ delimiters) (QueryEscape s).
Proof.
  unfold QueryEscape. apply Forall_concat, Forall_map, Forall_forall. intros c _.
  pose proof escape_all as HA. rewrite forallb_forall in HA. specialize (HA (bz c)). rewrite zb_bz, forallb_forall in HA.
  apply Forall_forall. intros x Hx%list_elem_of_In.
  specialize (HA ltac:(apply list_elem_of_In, elem_of_seqZ; pose proof (bz_range c); lia) x Hx).
  by rewrite andb_true_iff, negb_true_iff, bool_decide_eq_false in HA.
Qed.

(** ** [strings.FieldsFunc] and [strings.Fields]

    [sep s] is the width of the separator at the front of [s], 0 for none.
    No encoding of a space starts inside another rune, so the bytes of a word
    can be taken one at a time; [length s] is enough fuel. *)
Definition flush (cur : bytes) : list bytes := if cur == [] then [] else [cur].

Fixpoint fields_loop (sep : bytes -> nat) (fuel : nat) (s cur : bytes) : list bytes :=
  match fuel, s with
  | S fuel, c :: r =>
      match sep s with
      | O => fields_loop sep fuel r (cur ++ [c])
      | S n => flush cur ++ fields_loop sep fuel (drop (S n) s) []
      end
  | _, _ => flush cur
  end.

Definition FieldsFunc (sep : bytes -> nat) (s : bytes) : list bytes := fields_loop sep (length s) s [].

Definition space_width (s : bytes) : nat :=
  match list_find (fun r => r `prefix_of` s) space_runes with Some (_, r) => length r | None => 0 end.

Definition Fields (s : bytes) : list bytes := FieldsFunc space_width s.

(** A separator that is one byte of an ASCII set. *)
Definition one_of (cs s : bytes) : nat := match s with c :: _ => if bool_decide (c ∈ cs) then 1 else 0 | [] => 0 end.

Lemma fields_word sep w s fuel cur :
  (forall a b t, w = a ++ b -> b <> [] -> sep (b ++ t) = 0%nat) -> (length w + length s <= fuel)%nat ->
  exists fuel', (length s <= fuel')%nat /\ fields_loop sep fuel (w ++ s) cur = fields_loop sep fuel' s (cur ++ w).
Proof.
  revert fuel cur. induction w as [|c w IH]; intros fuel cur Hw Hf.
  - exists fuel. rewrite app_nil_r. by split.
  - destruct fuel as [|fuel]; [cbn in Hf; lia|]. cbn [app fields_loop].
    assert (sep (c :: w ++ s) = 0%nat) as -> by (by apply (Hw [] (c :: w) s)).
    destruct (IH fuel (cur ++ [c])) as (fuel' & Hl & ->).
    + intros a b t E Hb. apply (Hw (c :: a) b t); [by rewrite E|done].
    + cbn in Hf. lia.
    + exists fuel'. split; [done|]. by rewrite <- app_assoc.
Qed.

(** Words without a separator inside, joined by one-byte separators. *)
Lemma FieldsFunc_Join sep (c : byte) ws :
  (forall t, sep (c :: t) = 1%nat) -> Forall (fun w => w <> []) ws ->
  Forall (fun w => forall a b t, w = a ++ b -> b <> [] -> sep (b ++ t) = 0%nat) ws ->
  FieldsFunc sep (Join ws c) = ws.
Proof.
  intros Hc Hne Hw. unfold FieldsFunc. generalize (le_n (length (Join ws c))). generalize (length (Join ws c)) at 2 3.
  induction ws as [|w ws IH]; intros fuel Hf; [by destruct fuel|].
  apply Forall_cons in Hne as [Hn Hne], Hw as [Hw Hws]. destruct ws as [|w' ws].
  - cbn [Join] in *. rewrite <- (app_nil_r w) at 1. destruct (fields_word sep w [] fuel []) as (f' & _ & ->).
    { done. } { cbn. lia. } destruct f'; cbn; unfold flush; by rewrite bool_decide_eq_false_2.
  - rewrite Join_cons in * by done. destruct (fields_word sep w (c :: Join (w' :: ws) c) fuel []) as (f' & Hl & ->).
    { done. } { rewrite length_app in Hf. lia. }
    destruct f' as [|f']; [cbn in Hl; lia|]. cbn [fields_loop app]. rewrite Hc. unfold flush at 1.
    rewrite bool_decide_eq_false_2 by done. cbn [drop app]. rewrite drop_0. f_equal. apply IH; [done|done|]. cbn [length] in Hl. lia.
Qed.

Lemma space_width_visible c s : visible_byte c = true -> space_width (c :: s) = 0%nat.
Proof.
  intros Hc. unfold space_width. destruct (list_find _ _) as [[i r]|] eqn:E; [|done].
  apply list_find_Some in E as (Hr & Hp & _). pose proof (list_elem_of_lookup_2 _ _ _ Hr) as Hin.
  pose proof (hidden_rune r Hin) as Hh. destruct r as [|x r]; [done|]. cbn in Hh.
  destruct Hp as [k Hk]. injection Hk as <- _. by rewrite Hc in Hh.
Qed.

Lemma Fields_Join ws : Forall visible ws -> Forall (fun w => w <> []) ws -> Fields (Join ws space) = ws.
Proof.
  intros Hv Hn. apply FieldsFunc_Join; [done|done|]. eapply Forall_impl; [exact Hv|]. cbv beta.
  intros w Hw a b t -> Hb. destruct b as [|x b]; [done|]. cbn [app]. apply space_width_visible.
  apply Forall_app in Hw as [_ Hw]. by apply Forall_cons in Hw as [Hw _].
Qed.

(** ** Base64 without padding: [base64.RawURLEncoding] *)
Fixpoint b64_raw_quanta (url : bool) (s : bytes) : option bytes :=
  match s with
  | [] => Some []
  | [_] => None
  | [a; b] => x ← b64_value url a; y ← b64_value url b; Some [zb (x * 4 + y / 16)]
  | [a; b; c] =>
      x ← b64_value url a; y ← b64_value url b; z ← b64_value url c;
      Some [zb (x * 4 + y / 16); zb ((y mod 16) * 16 + z / 4)]
  | a :: b :: c :: d :: rest =>
      x ← b64_value url a; y ← b64_value url b; z ← b64_value url c; w ← b64_value url d;
      r ← b64_raw_quanta url rest;
      Some (zb (x * 4 + y / 16) :: zb ((y mod 16) * 16 + z / 4) :: zb ((z mod 4) * 64 + w) :: r)
  end.

Definition b64_raw_DecodeString (url : bool) (s : bytes) : option bytes :=
  b64_raw_quanta url (filter (fun c => c <> Byte.x0a /\ c <> Byte.x0d) s).

Fixpoint b64_raw_encode (url : bool) (s : bytes) : bytes :=
  match s with
  | [] => []
  | [a] => [b64_char url (bz a / 4); b64_char url ((bz a mod 4) * 16)]
  | [a; b] =>
      [b64_char url (bz a / 4); b64_char url ((bz a mod 4) * 16 + bz b / 16); b64_char url ((bz b mod 16) * 4)]
  | a :: b :: c :: rest =>
      b64_char url (bz a / 4) :: b64_char url ((bz a mod 4) * 16 + bz b / 16) ::
      b64_char url ((bz b mod 16) * 4 + bz c / 64) :: b64_char url (bz c mod 64) :: b64_raw_encode url rest
  end.

Lemma b64_raw_roundtrip url s : b64_raw_quanta url (b64_raw_encode url s) = Some s.
Proof.
  induction s as [s IH] using (induction_ltof1 _ (@length byte)). unfold ltof in IH.
  destruct s as [|a [|b [|c rest]]]; [done|..]; cbn [b64_raw_encode b64_raw_quanta].
  - destruct (b64_groups a a a) as (G1 & _ & _ & _ & G5 & _).
    rewrite !b64_value_char by done. cbn.
    pose proof (b64_first a 0 ltac:(lia)) as H1. rewrite Z.add_0_r in H1. by rewrite H1.
  - destruct (b64_groups a b b) as (G1 & G2 & _ & _ & _ & G6).
    rewrite !b64_value_char by done. cbn.
    assert (0 <= bz b / 16 < 16) as Hb by (pose proof (bz_range b); split; [apply Z.div_pos; lia|apply Z.div_lt_upper_bound; lia]).
    pose proof (b64_first a _ Hb) as H1. pose proof (b64_second a b 0 ltac:(lia)) as H2.
    rewrite Z.add_0_r in H2. by rewrite H1, H2.
  - destruct (b64_groups a b c) as (G1 & G2 & G3 & G4 & _).
    rewrite !b64_value_char by done. cbn [mbind option_bind].
    assert (0 <= bz b / 16 < 16) as Hb by (pose proof (bz_range b); split; [apply Z.div_pos; lia|apply Z.div_lt_upper_bound; lia]).
    assert (0 <= bz c / 64 < 4) as Hc by (pose proof (bz_range c); split; [apply Z.div_pos; lia|apply Z.div_lt_upper_bound; lia]).
    rewrite (IH rest) by (cbn; lia). cbn [mbind option_bind].
    by rewrite (b64_first a _ Hb), (b64_second a b _ Hc), b64_third.
Qed.

(** An encoding with padding is not one without, unless it needs none. *)
Lemma b64_raw_of_padded url s v : b64_raw_quanta url (b64_encode url s) = Some v -> v = s.
Proof.
  revert v. induction s as [s IH] using (induction_ltof1 _ (@length byte)). unfold ltof in IH.
  intros v. destruct s as [|a [|b [|c rest]]]; cbn [b64_encode b64_raw_quanta].
  - by intros [= <-].
  - destruct (b64_groups a a a) as (G1 & _ & _ & _ & G5 & _). by rewrite !b64_value_char, b64_pad_value by done.
  - destruct (b64_groups a b b) as (G1 & G2 & _ & _ & _ & G6). by rewrite !b64_value_char, b64_pad_value by done.
  - destruct (b64_groups a b c) as (G1 & G2 & G3 & G4 & _). rewrite !b64_value_char by done. cbn [mbind option_bind].
    destruct (b64_raw_quanta url (b64_encode url rest)) as [r|] eqn:E; [|done]. cbn.
    apply IH in E as ->; [|cbn; lia]. intros [= <-].
    assert (0 <= bz b / 16 < 16) as Hb by (pose proof (bz_range b); split; [apply Z.div_pos; lia|apply Z.div_lt_upper_bound; lia]).
    assert (0 <= bz c / 64 < 4) as Hc by (pose proof (bz_range c); split; [apply Z.div_pos; lia|apply Z.div_lt_upper_bound; lia]).
    by rewrite (b64_first a _ Hb), (b64_second a b _ Hc), b64_third.
Qed.

Lemma b64_raw_bytes url s : Forall (fun c => b64_byte url c = true /\ c <> pad_char) (b64_raw_encode url s).
Proof.
  assert (forall k, 0 <= k < 64 -> b64_byte url (b64_char url k) = true /\ b64_char url k <> pad_char) as HC.
  { intros k Hk. unfold b64_byte. rewrite b64_value_char by done. split; [by rewrite bool_decide_eq_true_2|].
    intros E. pose proof (b64_value_char url k Hk) as HV. rewrite E, b64_pad_value in HV. done. }
  induction s as [s IH] using (induction_ltof1 _ (@length byte)). unfold ltof in IH.
  destruct s as [|a [|b [|c rest]]]; cbn [b64_raw_encode].
  - done.
  - destruct (b64_groups a a a) as (G1 & _ & _ & _ & G5 & _). repeat constructor; by apply HC.
  - destruct (b64_groups a b b) as (G1 & G2 & _ & _ & _ & G6). repeat constructor; by apply HC.
  - destruct (b64_groups a b c) as (G1 & G2 & G3 & G4 & _). repeat (constructor; [by apply HC|]). apply IH. cbn. lia.
Qed.

(** Decoding without padding first and then with it: both forms are read. *)
Definition b64_raw_either (url : bool) (s : bytes) : option bytes :=
  match b64_raw_DecodeString url s with Some v => Some v | None => b64_DecodeString url s end.

Lemma b64_raw_either_ok url s :
  b64_raw_either url (b64_raw_encode url s) = Some s /\ b64_raw_either url (b64_encode url s) = Some s.
Proof.
  assert (forall t, Forall (fun c => b64_byte url c = true) t -> filter (fun c => c <> Byte.x0a /\ c <> Byte.x0d) t = t) as HD.
  { intros t Ht. apply filter_id. eapply Forall_impl; [exact Ht|]. cbn. intros c Hc. split; intros ->; by destruct url. }
  unfold b64_raw_either, b64_raw_DecodeString, b64_DecodeString. split.
  - rewrite HD, b64_raw_roundtrip; [done|]. eapply Forall_impl; [apply b64_raw_bytes|]. by intros c [Hc _].
  - rewrite HD by apply b64_encode_bytes. destruct (b64_raw_quanta _ _) as [v|] eqn:E; [|apply b64_roundtrip].
    by apply b64_raw_of_padded in E as ->.
Qed.

(** Text between two visible bytes is trimmed already. *)
Lemma visible_front rs c s :
  [] ∉ rs -> (forall r, r ∈ rs -> forallb (fun c => negb (visible_byte c)) r = true) -> visible_byte c = true ->
  no_front rs (c :: s).
Proof.
  intros Hnil Hrs Hc r Hr [k Hk]. destruct r as [|x r]; [done|]. apply Hrs in Hr.
  cbn in Hr. injection Hk as <- _. by rewrite Hc in Hr.
Qed.

Lemma TrimSpace_ends c s d :
  visible_byte c = true -> visible_byte d = true -> TrimSpace (c :: s ++ [d]) = c :: s ++ [d].
Proof.
  intros Hc Hd. apply TrimSpace_id.
  - apply visible_front; [apply space_runes_nonempty|apply hidden_rune|done].
  - change (c :: s ++ [d]) with ((c :: s) ++ [d]). rewrite reverse_snoc. apply visible_front; [apply space_runes_rev_nonempty| |done].
    intros r (x & -> & Hx)%list_elem_of_fmap. apply hidden_rune in Hx. rewrite forallb_forall in *.
    intros b Hb. apply Hx. apply list_elem_of_In. apply list_elem_of_In in Hb. by rewrite elem_of_reverse in Hb.
Qed.
