(* ===== verification/Exit.v ===== *)
(** * Exit URIs

    [internal/exit/exit.go]: [Parse] turns a share URI into the mihomo proxy
    object.  The textual parsers (Shadowsocks, SOCKS, host and port, base64
    payloads, query strings) are written out; [url.Parse] and the JSON decoder
    are parameters, a URL being what its accessors give. *)
From S2P Require Import Prelude GoStrings GoNet GoCodec.
From stdpp Require Import gmap.
From Stdlib Require Import ZArith Lia.

Local Open Scope Z_scope.

(** ** Data *)

(** A value of the proxy object: [any], as the parsers fill it. *)
Inductive val :=
| VStr (s : bytes) | VInt (n : Z) | VBool (b : bool) | VStrs (l : list bytes)
| VMap (m : list (bytes * val)).

Abbreviation Proxy := (gmap bytes val).

Definition put (k : String.string) (v : val) (p : Proxy) : Proxy := <[str k := v]> p.

(** [name], [type], [server] and [port], which every parser sets. *)
Definition base (ty : String.string) (host : bytes) (port : Z) : Proxy :=
  put "name" (VStr (str "out")) (put "type" (VStr (str ty)) (put "server" (VStr host) (put "port" (VInt port) ∅))).

(** What the parsers read of a [*url.URL]: [User] is the decoded name and the
    decoded password, when there are any. *)
Record URL := {
  Scheme : bytes; Hostname : bytes; Port : bytes;
  User : option (bytes * option bytes); RawQuery : bytes
}.

Inductive json := JStr (s : bytes) | JNum (int : Z) | JOther.

Inductive ExitError :=
| ErrScheme (s : bytes) | ErrEmptyPayload | ErrNotBase64
| ErrHostPort (v : bytes) | ErrMissingHost | ErrBadPort (p : bytes)
| ErrSSCredentials | ErrSSPayload | ErrSSLegacy
| ErrURL | ErrJSON | ErrMissingPublicKey.

(** ** Strings *)

(** [strings.Cut] at a byte: before, after, found. *)
Definition Cut (s : bytes) (c : byte) : bytes * bytes * bool :=
  match IndexByte s c with
  | Some i => (take i s, drop (S i) s, true)
  | None => (s, [], false)
  end.

(** [strings.SplitN(s, c, 2)[0]]. *)
Definition before (s : bytes) (c : byte) : bytes := (Cut s c).1.1.

Definition slash : byte := Byte.x2f.
Definition question : byte := Byte.x3f.
Definition hash_ : byte := Byte.x23.
Definition at_ : byte := Byte.x40.

(** [strconv.Atoi]: an optional sign, digits, and the range of an [int]. *)
Definition Atoi (s : bytes) : option Z :=
  let '(neg, ds) :=
    match s with
    | c :: r => if c == Byte.x2d then (true, r) else if c == Byte.x2b then (false, r) else (false, s)
    | [] => (false, s)
    end in
  if bool_decide (ds = []) || negb (forallb is_digit ds) then None
  else
    let n := if neg : bool then - dec_value ds else dec_value ds in
    if (- 2 ^ 63 <=? n) && (n <? 2 ^ 63) then Some n else None.

Definition firstNonEmpty (vals : list bytes) : bytes := default [] (found (fun v => v != []) vals).

Definition firstScheme (uri : bytes) : bytes :=
  match Index uri (str "://") with
  | Some (S i) => take (S i) uri
  | _ => uri
  end.

(** [url.Values] of a query: the pairs that parse, in order. *)
Definition query_pair (kv : bytes) : option (bytes * bytes) :=
  if bool_decide (Byte.x3b ∈ kv) || bool_decide (kv = []) then None
  else
    let '(k, v, _) := Cut kv Byte.x3d in
    k ← QueryUnescape k; v ← QueryUnescape v; Some (k, v).

Definition Query (u : URL) : list (bytes * bytes) := omap query_pair (Split (RawQuery u) Byte.x26).

(** [queryFirst]: the first value of each key. *)
Definition queryFirst (u : URL) : gmap bytes bytes := list_to_map (Query u).

(** A lookup of a [map[string]string]. *)
Definition get (q : gmap bytes bytes) (k : String.string) : bytes := default [] (q !! str k).

Section exit.
Context `{Unicode}.

Definition truthy (v : bytes) : bool :=
  let v := ToLower v in (v == str "1") || (v == str "true") || (v == str "yes") || (v == str "on").

(** [b64AnyDecode]. *)
Definition b64AnyDecode (s : bytes) : res ExitError bytes :=
  let s := TrimSpace s in
  if s == [] then Err ErrEmptyPayload
  else
    let padded := s ++ replicate (Z.to_nat ((4 - len s mod 4) mod 4)) pad_char in
    match b64_DecodeString true padded with
    | Some v => Ok v
    | None => match b64_DecodeString false padded with Some v => Ok v | None => Err ErrNotBase64 end
    end.

(** [hostPortRE]: the last colon is the one before the digits; [.] matches
    anything but a line feed. *)
Definition hostPortRE (v : bytes) : option (bytes * bytes) :=
  i ← LastIndexByte v colon;
  let pre := take i v in
  let digits := drop (S i) v in
  if bool_decide (digits = []) || negb (forallb is_digit digits) then None
  else if bool_decide (pre = []) || bool_decide (Byte.x0a ∈ pre) then None
  else if bool_decide (head pre = Some lbrack) && bool_decide (last pre = Some rbrack) && (3 <=? len pre)
       then Some (drop 1 (removelast pre), digits)
       else Some (pre, digits).

Definition valid_port (p : Z) : bool := (1 <=? p) && (p <=? 65535).

Definition parseHostPort (value : bytes) : res ExitError (bytes * Z) :=
  let value := TrimSpace (before (before (before value slash) question) hash_) in
  match hostPortRE value with
  | None => Err (ErrHostPort value)
  | Some (host, port) =>
      if host == [] then Err ErrMissingHost
      else match Atoi port with
           | Some p => if valid_port p then Ok (host, p) else Err (ErrBadPort port)
           | None => Err (ErrBadPort port)
           end
  end.

Definition portOrDefault (u : URL) (def : Z) : res ExitError Z :=
  if Port u == [] then Ok def
  else match Atoi (Port u) with
       | Some p => if valid_port p then Ok p else Err (ErrBadPort (Port u))
       | None => Err (ErrBadPort (Port u))
       end.

(** [unescape]. *)
Definition unescape (s def : bytes) : bytes :=
  if s == [] then def else match QueryUnescape s with Some v => v | None => s end.

(** [v, _ := url.QueryUnescape(s)]: the empty string on an error. *)
Definition unescape_or_empty (s : bytes) : bytes := default [] (QueryUnescape s).

Definition setTLS (p : Proxy) (servername : bytes) (insecure : bool) : Proxy :=
  let p := put "tls" (VBool true) p in
  let p := if servername != [] then put "servername" (VStr servername) p else p in
  if insecure then put "skip-cert-verify" (VBool true) p else p.

Definition setTransport (p : Proxy) (network host path service : bytes) : Proxy :=
  let network := ToLower network in
  let network := if network == [] then str "tcp" else network in
  if (network == str "ws") || (network == str "websocket") then
    let opts := (str "path", VStr (unescape path (str "/"))) ::
      (if host != [] then [(str "headers", VMap [(str "Host", VStr host)])] else []) in
    put "ws-opts" (VMap opts) (put "network" (VStr (str "ws")) p)
  else if network == str "grpc" then
    let name := if service == [] then TrimPrefix (unescape path []) (str "/") else service in
    put "grpc-opts" (VMap [(str "grpc-service-name", VStr name)]) (put "network" (VStr (str "grpc")) p)
  else if (network == str "http") || (network == str "h2") then
    put "h2-opts" (VMap [(str "path", VStr (unescape path (str "/"))); (str "host", VStrs (if host != [] then [host] else []))])
      (put "network" (VStr (str "h2")) p)
  else p.

(** ** The textual parsers *)

(** [ssCredsRE]. *)
Definition ssCredsRE (m : bytes) : bool :=
  (m != []) && forallb (fun c => is_digit c || ((97 <=? bz c) && (bz c <=? 122)) || (c == Byte.x2d)) m.

(** The credentials before an [@]. *)
Definition ss_credentials (userinfo : bytes) : res ExitError (bytes * bytes) :=
  let sip002 :=
    match b64AnyDecode userinfo with
    | Ok decoded =>
        let '(m, pw, found) := Cut decoded colon in
        if found && ssCredsRE m then Some (m, unescape pw []) else None
    | Err _ => None
    end in
  match sip002 with
  | Some mp => Ok mp
  | None =>
      match QueryUnescape userinfo with
      | None => Err ErrSSCredentials
      | Some userinfo =>
          let '(m, pw, found) := Cut userinfo colon in
          if found : bool then Ok (m, pw) else Err ErrSSCredentials
      end
  end.

Definition ss_proxy (method password server : bytes) : res ExitError Proxy :=
  match parseHostPort server with
  | Err e => Err e
  | Ok (host, port) =>
      Ok (put "cipher" (VStr method) (put "password" (VStr password) (put "udp" (VBool true) (base "ss" host port))))
  end.

(** [i := strings.LastIndex(s, "@")]: what is before and after. *)
Definition cut_last_at (s : bytes) : option (bytes * bytes) :=
  i ← LastIndexByte s at_; Some (take i s, drop (S i) s).

(** [parts := strings.SplitN(creds, c, 2)] and then [parts[0], parts[1]]:
    without the separator there is no [parts[1]]. *)
Definition split2 (creds : bytes) (c : byte) : go ExitError (bytes * bytes) :=
  let '(a, b, found) := Cut creds c in if found : bool then Ret (a, b) else Panic.

Definition parseSS (uri : bytes) : go ExitError Proxy :=
  let rest := TrimPrefix uri (str "ss://") in
  let rest := before (before rest hash_) question in
  match cut_last_at rest with
  | Some (userinfo, srv) =>
      '(method, password) ← go_of_res (ss_credentials userinfo);
      go_of_res (ss_proxy method password srv)
  | None =>
      match b64AnyDecode rest with
      | Err _ => Fail ErrSSPayload
      | Ok dec =>
          match cut_last_at dec with
          | None => Fail ErrSSLegacy
          | Some (creds, srv) =>
              if negb (bool_decide (colon ∈ dec)) then Fail ErrSSLegacy
              else
                '(method, password) ← split2 creds colon;
                go_of_res (ss_proxy method password srv)
          end
      end
  end.

(** The prefix [(?i)^socks(?:5h|5)?://]. *)
Definition strip_socks (uri : bytes) : bytes :=
  default uri
    (s ← fold_prefix (str "socks") uri;
     let s := match fold_prefix (str "5h") s, fold_prefix (str "5") s with
              | Some r, _ => r
              | None, Some r => r
              | None, None => s
              end in
     if HasPrefix s (str "://") then Some (drop 3 s) else None).

Definition parseSocks (uri : bytes) : res ExitError Proxy :=
  let rest := strip_socks uri in
  let '(userinfo, hostport) := match cut_last_at rest with Some p => p | None => ([], rest) end in
  match parseHostPort hostport with
  | Err e => Err e
  | Ok (host, port) =>
      let p := put "udp" (VBool true) (base "socks5" host port) in
      if userinfo == [] then Ok p
      else
        let userinfo := default userinfo (QueryUnescape userinfo) in
        let '(user, pass, _) := Cut userinfo colon in
        let p := put "username" (VStr user) p in
        Ok (if pass != [] then put "password" (VStr pass) p else p)
  end.

(** ** VMess *)
Context (json_Unmarshal : bytes -> option (gmap bytes json)).

(** [data[k].(string)]. *)
Definition json_str (data : gmap bytes json) (k : String.string) : bytes :=
  match data !! str k with Some (JStr s) => s | _ => [] end.

Definition json_int (data : gmap bytes json) (k : String.string) (def : Z) : Z :=
  match data !! str k with
  | Some (JStr v) => default def (Atoi v)
  | Some (JNum n) => n
  | _ => def
  end.

Definition parseVMess (uri : bytes) : res ExitError Proxy :=
  match b64AnyDecode (TrimPrefix uri (str "vmess://")) with
  | Err e => Err e
  | Ok decoded =>
    match json_Unmarshal decoded with
    | None => Err ErrJSON
    | Some data =>
      let host := json_str data "add" in
      if host == [] then Err ErrMissingHost
      else
        let port := json_int data "port" 443 in
        let aid := json_int data "aid" 0 in
        let cipher := firstNonEmpty [json_str data "scy"; str "auto"] in
        let proxy := put "uuid" (VStr (json_str data "id")) (put "alterId" (VInt aid)
                       (put "cipher" (VStr cipher) (put "udp" (VBool true) (base "vmess" host port)))) in
        let tls := json_str data "tls" in
        let hh := json_str data "host" in
        let proxy :=
          if EqualFold tls (str "tls") || EqualFold tls (str "true") || (tls == str "1")
          then setTLS proxy (firstNonEmpty [json_str data "sni"; hh; host]) false
          else proxy in
        Ok (setTransport proxy (json_str data "net") hh (json_str data "path") [])
    end
  end.

(** ** The URL parsers *)
Context (url_Parse : bytes -> option URL).

(** [url.Parse], the host and the port. *)
Definition parse_url (uri : bytes) (def : URL -> Z) : res ExitError (URL * bytes * Z) :=
  match url_Parse uri with
  | None => Err ErrURL
  | Some u =>
      if Hostname u == [] then Err ErrMissingHost
      else match portOrDefault u (def u) with Ok p => Ok (u, Hostname u, p) | Err e => Err e end
  end.

(** [u.User.Username()], unescaped once more. *)
Definition username (u : URL) : bytes :=
  match User u with Some (name, _) => unescape_or_empty name | None => [] end.

Definition parseTrojan (uri : bytes) : res ExitError Proxy :=
  '(u, host, port) ← parse_url uri (fun _ => 443);
  let q := queryFirst u in
  let proxy := put "password" (VStr (username u)) (put "udp" (VBool true) (base "trojan" host port)) in
  let sni := firstNonEmpty [get q "sni"; get q "peer"; host] in
  let proxy := setTLS proxy sni (truthy (get q "allowInsecure")) in
  Ok (setTransport proxy (get q "type") (get q "host") (get q "path")
        (firstNonEmpty [get q "serviceName"; get q "service_name"])).

Definition parseVLess (uri : bytes) : res ExitError Proxy :=
  '(u, host, port) ← parse_url uri (fun _ => 443);
  let q := queryFirst u in
  let proxy := put "uuid" (VStr (username u)) (put "udp" (VBool true) (base "vless" host port)) in
  let proxy := if get q "flow" != [] then put "flow" (VStr (get q "flow")) proxy else proxy in
  let security := firstNonEmpty [ToLower (get q "security"); str "tls"] in
  let proxy :=
    if (security == str "tls") || (security == str "reality")
    then setTLS proxy (firstNonEmpty [get q "sni"; host]) (truthy (get q "allowInsecure"))
    else proxy in
  proxy ←
    (if security == str "reality" then
       let pbk := firstNonEmpty [get q "pbk"; get q "public_key"] in
       if pbk == [] then Err ErrMissingPublicKey
       else Ok (put "client-fingerprint" (VStr (firstNonEmpty [get q "fp"; str "chrome"]))
              (put "reality-opts" (VMap [(str "public-key", VStr pbk);
                                         (str "short-id", VStr (firstNonEmpty [get q "sid"; get q "short_id"]))]) proxy))
     else Ok proxy);
  Ok (setTransport proxy (firstNonEmpty [get q "type"; get q "transport"]) (get q "host") (get q "path")
        (firstNonEmpty [get q "serviceName"; get q "service_name"])).

Definition parseHysteria2 (uri : bytes) : res ExitError Proxy :=
  '(u, host, port) ← parse_url uri (fun _ => 443);
  let q := queryFirst u in
  let p := put "password" (VStr (username u)) (put "sni" (VStr (firstNonEmpty [get q "sni"; host]))
             (put "skip-cert-verify" (VBool (truthy (get q "insecure"))) (put "udp" (VBool true) (base "hysteria2" host port)))) in
  Ok (if get q "obfs" != []
      then put "obfs-password" (VStr (firstNonEmpty [get q "obfs-password"; get q "obfs_password"]))
             (put "obfs" (VStr (get q "obfs")) p)
      else p).

(** The uuid and the password of a TUIC URI. *)
Definition tuic_user (u : URL) : bytes * bytes :=
  match User u with
  | None => ([], [])
  | Some (name, pw) =>
      let raw := unescape_or_empty name in
      let '(a, b, found) := Cut raw colon in
      if found : bool then (a, b)
      else (raw, match pw with Some p => unescape_or_empty p | None => [] end)
  end.

Definition parseTUIC (uri : bytes) : res ExitError Proxy :=
  '(u, host, port) ← parse_url uri (fun _ => 443);
  let q := queryFirst u in
  let '(uuid, password) := tuic_user u in
  Ok (put "uuid" (VStr uuid) (put "password" (VStr password) (put "udp" (VBool true)
     (put "sni" (VStr (firstNonEmpty [get q "sni"; host]))
     (put "skip-cert-verify" (VBool (truthy (get q "allow_insecure")))
     (put "udp-relay-mode" (VStr (firstNonEmpty [get q "udp_relay_mode"; str "native"]))
     (put "congestion-controller" (VStr (firstNonEmpty [get q "congestion_control"; str "bbr"]))
        (base "tuic" host port)))))))).

Definition parseAnyTLS (uri : bytes) : res ExitError Proxy :=
  '(u, host, port) ← parse_url uri (fun _ => 443);
  let q := queryFirst u in
  Ok (put "password" (VStr (username u)) (put "udp" (VBool true)
     (put "sni" (VStr (firstNonEmpty [get q "sni"; host]))
     (put "skip-cert-verify" (VBool (truthy (get q "insecure"))) (base "anytls" host port))))).

Definition parseHTTP (uri : bytes) : res ExitError Proxy :=
  '(u, host, port) ← parse_url uri (fun u => if EqualFold (Scheme u) (str "https") then 443 else 80);
  let p := base "http" host port in
  let p := match User u with
           | None => p
           | Some (name, pw) =>
               let p := put "username" (VStr (unescape_or_empty name)) p in
               match pw with Some pw => put "password" (VStr (unescape_or_empty pw)) p | None => p end
           end in
  Ok (if EqualFold (Scheme u) (str "https") then setTLS p host false else p).

(** ** Parse *)
Inductive protocol :=
| PSS | PVMess | PTrojan | PVLess | PHysteria2 | PTUIC | PAnyTLS | PSocks | PHTTP.

(** The [switch] on the lower-cased scheme. *)
Definition scheme_table : list (String.string * protocol) :=
  [("ss://", PSS); ("vmess://", PVMess); ("trojan://", PTrojan); ("vless://", PVLess);
   ("hysteria2://", PHysteria2); ("hy2://", PHysteria2); ("tuic://", PTUIC); ("anytls://", PAnyTLS);
   ("socks5h://", PSocks); ("socks5://", PSocks); ("socks://", PSocks); ("http://", PHTTP); ("https://", PHTTP)]%string.

Definition protocol_of (low : bytes) : option protocol :=
  snd <$> found (fun e => HasPrefix low (str e.1)) scheme_table.

Definition Parse (uri : bytes) : go ExitError Proxy :=
  let uri := TrimSpace uri in
  match protocol_of (ToLower uri) with
  | None => Fail (ErrScheme (firstScheme uri))
  | Some PSS => parseSS uri
  | Some PVMess => go_of_res (parseVMess uri)
  | Some PTrojan => go_of_res (parseTrojan uri)
  | Some PVLess => go_of_res (parseVLess uri)
  | Some PHysteria2 => go_of_res (parseHysteria2 uri)
  | Some PTUIC => go_of_res (parseTUIC uri)
  | Some PAnyTLS => go_of_res (parseAnyTLS uri)
  | Some PSocks => go_of_res (parseSocks uri)
  | Some PHTTP => go_of_res (parseHTTP uri)
  end.
End exit.
