(* ===== verification/ExitSpec.v ===== *)
(** * Exit URIs: theorems

    What an accepted URI gives, when [Parse] panics, and the round trips of the
    Shadowsocks forms. *)
From S2P Require Import Prelude GoStrings GoNet GoCodec Exit.
From stdpp Require Import gmap.
From Stdlib Require Import ZArith Lia.

Local Open Scope Z_scope.

(** ** Specification *)

(** The mihomo type of a protocol. *)
Definition type_of (pr : protocol) : bytes :=
  str match pr with
      | PSS => "ss" | PVMess => "vmess" | PTrojan => "trojan" | PVLess => "vless" | PHysteria2 => "hysteria2"
      | PTUIC => "tuic" | PAnyTLS => "anytls" | PSocks => "socks5" | PHTTP => "http"
      end.

(** The four fields every proxy has. *)
Record shaped (ty host : bytes) (port : Z) (p : Proxy) : Prop := {
  sh_name : p !! str "name" = Some (VStr (str "out"));
  sh_type : p !! str "type" = Some (VStr ty);
  sh_server : p !! str "server" = Some (VStr host);
  sh_port : p !! str "port" = Some (VInt port)
}.

(** ** Lemmas: the fields *)
Definition free_key (k : String.string) : bool :=
  forallb (fun k' => str k != str k') ["name"; "type"; "server"; "port"]%string.

Lemma shaped_put ty host port k v p : free_key k = true -> shaped ty host port p -> shaped ty host port (put k v p).
Proof.
  unfold free_key. cbn [forallb]. rewrite !andb_true_iff, !negb_true_iff, !bool_decide_eq_false.
  intros (H1 & H2 & H3 & H4 & _) []. constructor; unfold put; by rewrite lookup_insert_ne.
Qed.

Lemma shaped_base ty host port : shaped (str ty) host port (base ty host port).
Proof.
  unfold base, put. constructor; repeat (rewrite lookup_insert_ne by done); apply lookup_insert_eq.
Qed.

Create HintDb exit.
#[export] Hint Resolve shaped_base : exit.
#[export] Hint Extern 1 (shaped _ _ _ (put _ _ _)) => apply shaped_put; [reflexivity|] : exit.

Section spec.
Context `{Unicode}.

Lemma shaped_setTLS ty host port p sni b : shaped ty host port p -> shaped ty host port (setTLS p sni b).
Proof. intros Hp. unfold setTLS. destruct b, (sni != []); auto 10 with exit. Qed.

Lemma shaped_setTransport ty host port p n h pa sv :
  shaped ty host port p -> shaped ty host port (setTransport p n h pa sv).
Proof. intros Hp. unfold setTransport. repeat case_match; auto 10 with exit. Qed.

Hint Resolve shaped_setTLS shaped_setTransport : exit.

Lemma valid_port_range p : valid_port p = true -> 1 <= p <= 65535.
Proof. unfold valid_port. lia. Qed.

Lemma parseHostPort_ok v host port : parseHostPort v = Ok (host, port) -> host <> [] /\ 1 <= port <= 65535.
Proof.
  unfold parseHostPort. destruct (hostPortRE _) as [[h ds]|]; [|done].
  case_bool_decide as Hh; [done|]. destruct (Atoi ds) as [p|]; [|done]. destruct (valid_port p) eqn:E; [|done].
  intros [= <- <-]. split; [done|]. by apply valid_port_range.
Qed.

Lemma portOrDefault_ok u def port : 1 <= def <= 65535 -> portOrDefault u def = Ok port -> 1 <= port <= 65535.
Proof.
  unfold portOrDefault. intros Hd. case_bool_decide; [by intros [= <-]|].
  destruct (Atoi _) as [p|]; [|done]. destruct (valid_port p) eqn:E; [|done]. intros [= <-]. by apply valid_port_range.
Qed.

Lemma ss_proxy_ok m pw srv p : ss_proxy m pw srv = Ok p ->
  exists host port, host <> [] /\ 1 <= port <= 65535 /\ shaped (str "ss") host port p.
Proof.
  unfold ss_proxy. destruct (parseHostPort srv) as [e|[host port]] eqn:E; [done|]. intros [= <-].
  apply parseHostPort_ok in E as [H1 H2]. exists host, port. split; [done|]. split; [done|]. auto 10 with exit.
Qed.

Lemma go_of_res_Ret {E A} (r : res E A) a : go_of_res r = Ret a -> r = Ok a.
Proof. destruct r; [done|]. by intros [= ->]. Qed.

Lemma parseSS_ok uri p : parseSS uri = Ret p ->
  exists host port, host <> [] /\ 1 <= port <= 65535 /\ shaped (str "ss") host port p.
Proof.
  unfold parseSS. destruct (cut_last_at _) as [[ui srv]|].
  - destruct (ss_credentials ui) as [e|[m pw]]; [done|]. cbn. intros E%go_of_res_Ret. by eapply ss_proxy_ok.
  - destruct (b64AnyDecode _) as [e|dec]; [done|]. destruct (cut_last_at dec) as [[c srv]|]; [|done].
    destruct (negb _); [done|]. unfold split2. destruct (Cut c colon) as [[a b] [|]]; [|done].
    cbn. intros E%go_of_res_Ret. by eapply ss_proxy_ok.
Qed.

Lemma parseSocks_ok uri p : parseSocks uri = Ok p ->
  exists host port, host <> [] /\ 1 <= port <= 65535 /\ shaped (str "socks5") host port p.
Proof.
  unfold parseSocks. destruct (match cut_last_at _ with Some _ => _ | None => _ end) as [ui hp].
  destruct (parseHostPort hp) as [e|[host port]] eqn:E; [done|]. apply parseHostPort_ok in E as [H1 H2].
  case_bool_decide.
  - intros [= <-]. exists host, port. split; [done|]. split; [done|]. auto 10 with exit.
  - destruct (Cut _ colon) as [[a b] f]. intros [= <-]. exists host, port. split; [done|]. split; [done|].
    case_match; auto 10 with exit.
Qed.

Lemma parseVMess_ok J uri p : parseVMess J uri = Ok p ->
  exists host port, host <> [] /\ shaped (str "vmess") host port p.
Proof.
  unfold parseVMess. destruct (b64AnyDecode _) as [e|d]; [done|]. destruct (J d) as [data|]; [|done].
  case_bool_decide as Hh; [done|]. intros [= <-]. exists (json_str data "add"), (json_int data "port" 443). split; [done|].
  apply shaped_setTransport. repeat case_match; auto 15 with exit.
Qed.

Lemma parse_url_ok P uri def u host port :
  (forall u, 1 <= def u <= 65535) -> parse_url P uri def = Ok (u, host, port) -> host <> [] /\ 1 <= port <= 65535.
Proof.
  intros Hd. unfold parse_url. destruct (P uri) as [u'|]; [|done]. case_bool_decide as Hh; [done|].
  destruct (portOrDefault u' (def u')) as [e|p] eqn:E; [done|]. intros [= <- <- <-]. split; [done|].
  by eapply portOrDefault_ok.
Qed.

Ltac url_parser :=
  match goal with
  | |- context [parse_url ?P ?uri ?def] =>
      let E := fresh "E" in
      destruct (parse_url P uri def) as [?|[[u host] port]] eqn:E; [done|];
      apply parse_url_ok in E as [? ?]; [|intros ?; try case_match; lia]; cbn [mbind res_bind]
  end.

Lemma Ok_inj {E A} (a b : A) : @Ok E A a = Ok b -> a = b.
Proof. by intros [= ->]. Qed.

Lemma url_parsers_ok P uri p :
  (parseTrojan P uri = Ok p -> exists host port, host <> [] /\ 1 <= port <= 65535 /\ shaped (str "trojan") host port p) /\
  (parseVLess P uri = Ok p -> exists host port, host <> [] /\ 1 <= port <= 65535 /\ shaped (str "vless") host port p) /\
  (parseHysteria2 P uri = Ok p -> exists host port, host <> [] /\ 1 <= port <= 65535 /\ shaped (str "hysteria2") host port p) /\
  (parseTUIC P uri = Ok p -> exists host port, host <> [] /\ 1 <= port <= 65535 /\ shaped (str "tuic") host port p) /\
  (parseAnyTLS P uri = Ok p -> exists host port, host <> [] /\ 1 <= port <= 65535 /\ shaped (str "anytls") host port p) /\
  (parseHTTP P uri = Ok p -> exists host port, host <> [] /\ 1 <= port <= 65535 /\ shaped (str "http") host port p).
Proof.
  split_and!.
  - unfold parseTrojan. url_parser. intros <-%Ok_inj. exists host, port. split_and!; try lia; auto 15 with exit.
  - unfold parseVLess. url_parser.
    destruct (firstNonEmpty [ToLower _; str "tls"] == str "reality").
    + case_bool_decide; [done|]. cbn [mbind res_bind]. intros <-%Ok_inj. exists host, port. split_and!; try lia; [done|].
      apply shaped_setTransport. repeat case_match; auto 15 with exit.
    + cbn [mbind res_bind]. intros <-%Ok_inj. exists host, port. split_and!; try lia; [done|].
      apply shaped_setTransport. repeat case_match; auto 15 with exit.
  - unfold parseHysteria2. url_parser. intros <-%Ok_inj. exists host, port. split_and!; try lia; [done|].
    case_match; auto 15 with exit.
  - unfold parseTUIC. url_parser. destruct (tuic_user u) as [uu pw]. intros <-%Ok_inj. exists host, port.
    split_and!; try lia; auto 15 with exit.
  - unfold parseAnyTLS. url_parser. intros <-%Ok_inj. exists host, port. split_and!; try lia; auto 15 with exit.
  - unfold parseHTTP. url_parser. intros <-%Ok_inj. exists host, port. split_and!; try lia; [done|].
    repeat case_match; auto 15 with exit.
Qed.

(** ** Lemmas: cutting strings *)
Lemma IndexByte_None s c : c ∉ s -> IndexByte s c = None.
Proof.
  intros Hc. unfold IndexByte. destruct (list_find _ s) as [[i x]|] eqn:E; [|done].
  apply list_find_Some in E as (Hi & -> & _). destruct Hc. by eapply list_elem_of_lookup_2.
Qed.

Lemma Cut_app a c b : c ∉ a -> Cut (a ++ c :: b) c = (a, b, true).
Proof.
  intros Ha. unfold Cut. rewrite IndexByte_app by done. rewrite take_app_length.
  change (a ++ c :: b) with (a ++ [c] ++ b). rewrite app_assoc.
  replace (S (length a)) with (length (a ++ [c])) by (rewrite length_app; cbn; lia). by rewrite drop_app_length.
Qed.

Lemma Cut_none s c : c ∉ s -> Cut s c = (s, [], false).
Proof. intros Hc. unfold Cut. by rewrite IndexByte_None. Qed.

Lemma before_id s c : c ∉ s -> before s c = s.
Proof. intros Hc. unfold before. by rewrite Cut_none. Qed.

Lemma cut_last_at_app a b : at_ ∉ b -> cut_last_at (a ++ at_ :: b) = Some (a, b).
Proof.
  intros Hb. unfold cut_last_at. rewrite LastIndexByte_app by done. cbn [mbind option_bind]. rewrite take_app_length.
  change (a ++ at_ :: b) with (a ++ [at_] ++ b). rewrite app_assoc.
  replace (S (length a)) with (length (a ++ [at_])) by (rewrite length_app; cbn; lia). by rewrite drop_app_length.
Qed.

Lemma LastIndexByte_None s c : c ∉ s -> LastIndexByte s c = None.
Proof. intros Hc. unfold LastIndexByte. by rewrite IndexByte_None by (by rewrite elem_of_reverse). Qed.

Lemma cut_last_at_none s : at_ ∉ s -> cut_last_at s = None.
Proof. intros Hs. unfold cut_last_at. by rewrite LastIndexByte_None. Qed.

(** ** Lemmas: host and port *)
Lemma digit_facts c : digit_byte c -> is_digit c = true /\ visible_byte c = true /\ c ∉ delimiters.
Proof.
  assert (forallb (fun z => negb (is_digit (zb z)) || (visible_byte (zb z) && negb (bool_decide (zb z ∈ delimiters))))
            (seqZ 0 256) = true) as HA by (by vm_compute).
  unfold digit_byte. intros Hc. assert (is_digit c = true) as Hd by (unfold is_digit; lia).
  rewrite forallb_forall in HA. specialize (HA (bz c)). rewrite zb_bz, Hd in HA. cbn [negb orb] in HA.
  rewrite andb_true_iff, negb_true_iff, bool_decide_eq_false in HA. split; [done|]. apply HA.
  apply list_elem_of_In, elem_of_seqZ. pose proof (bz_range c). lia.
Qed.

(** A host that can be written before a port: visible, without brackets or
    the delimiters of a URI (colons are fine). *)
Record plain_host (h : bytes) : Prop := {
  ph_nonempty : h <> [];
  ph_visible : visible h;
  ph_free : forall c, c ∈ h -> c ∉ str "#?@/["
}.

Lemma port_numeral port : 1 <= port <= 65535 ->
  let ds := strconv_Itoa port in
  ds <> [] /\ forallb is_digit ds = true /\ visible ds /\ (forall c, c ∈ ds -> c ∉ delimiters) /\ Atoi ds = Some port.
Proof.
  intros Hp ds. destruct (strconv_Itoa_pos port) as (H1 & H2 & H3); [lia|]. fold ds in H1, H2, H3.
  rewrite Forall_forall in H2. split_and!; [done|..].
  - apply forallb_forall. intros c Hc%list_elem_of_In. by apply digit_facts, H2.
  - apply Forall_forall. intros c Hc. by apply digit_facts, H2.
  - intros c Hc. by apply digit_facts, H2.
  - assert (forallb is_digit ds = true) as HF
      by (apply forallb_forall; intros c Hc%list_elem_of_In; by apply digit_facts, H2).
    unfold Atoi. destruct ds as [|c r] eqn:E; [done|].
    assert (digit_byte c) as Hd by (apply H2; by left).
    assert (forall x, bz x < 48 -> (c == x) = false) as Hx
      by (intros x Hx; apply bool_decide_eq_false_2; intros ->; unfold digit_byte in Hd; lia).
    rewrite !Hx by (vm_compute; done). cbv zeta.
    rewrite bool_decide_eq_false_2, HF, H3 by done. cbn [negb orb].
    by rewrite (proj2 (Z.leb_le (- 2 ^ 63) port)), (proj2 (Z.ltb_lt port (2 ^ 63))) by lia.
Qed.

Lemma not_delim c (s d : bytes) : (forall x, x ∈ s -> x ∉ d) -> c ∈ d -> c ∉ s.
Proof. intros Hs Hd Hc. by apply (Hs c). Qed.

Lemma parseHostPort_plain host port : plain_host host -> 1 <= port <= 65535 ->
  parseHostPort (host ++ colon :: strconv_Itoa port) = Ok (host, port).
Proof.
  intros [Hne Hv Hf] Hp. destruct (port_numeral port Hp) as (D1 & D2 & D3 & D4 & D5).
  set (ds := strconv_Itoa port) in *. set (v := host ++ colon :: ds).
  assert (forall c, c ∈ str "#?@/" -> c ∉ v) as Hno.
  { intros c Hc. unfold v. rewrite not_elem_of_app, not_elem_of_cons. split_and!.
    - apply (not_delim c host (str "#?@/[")); [done|]. change (c ∈ str "#?@/" ++ [lbrack]). apply elem_of_app. by left.
    - intros ->. revert Hc. by apply (bool_decide_unpack _).
    - apply (not_delim c ds delimiters); [done|]. change (c ∈ str "#?@/" ++ [colon]). apply elem_of_app. by left. }
  assert (visible v) as Hvv by (apply Forall_app; split; [done|by constructor]).
  unfold parseHostPort. rewrite (before_id v slash), (before_id v question), (before_id v hash_) by (apply Hno; by apply (bool_decide_unpack _)).
  rewrite TrimSpace_visible by done. unfold hostPortRE, v.
  rewrite LastIndexByte_app by (apply (not_delim colon ds delimiters); [done|by apply (bool_decide_unpack _)]).
  cbn [mbind option_bind]. rewrite take_app_length.
  replace (drop (S (length host)) (host ++ colon :: ds)) with ds.
  2: { change (host ++ colon :: ds) with (host ++ [colon] ++ ds). rewrite app_assoc.
       replace (S (length host)) with (length (host ++ [colon])) by (rewrite length_app; cbn; lia). by rewrite drop_app_length. }
  rewrite (bool_decide_eq_false_2 (ds = [])), D2 by done. cbn [negb orb].
  rewrite (bool_decide_eq_false_2 (host = [])) by done.
  rewrite (bool_decide_eq_false_2 (Byte.x0a ∈ host)).
  2: { intros Hin. unfold visible in Hv. rewrite Forall_forall in Hv. by apply Hv in Hin. }
  cbn [orb]. rewrite (bool_decide_eq_false_2 (head host = Some lbrack)).
  2: { intros Hh. destruct host as [|c h]; [done|]. injection Hh as ->. apply (Hf lbrack); [by left|by apply (bool_decide_unpack _)]. }
  cbn [andb]. rewrite (bool_decide_eq_false_2 (host = [])), D5 by done. unfold valid_port.
  by rewrite (proj2 (Z.leb_le 1 port)), (proj2 (Z.leb_le port 65535)) by lia.
Qed.

(** ** Lemmas: Shadowsocks URIs *)
Definition ss_uri (userinfo host : bytes) (port : Z) : bytes :=
  str "ss://" ++ userinfo ++ at_ :: host ++ colon :: strconv_Itoa port.

Definition ss_value (method password host : bytes) (port : Z) : Proxy :=
  put "cipher" (VStr method) (put "password" (VStr password) (put "udp" (VBool true) (base "ss" host port))).

Lemma visible_ss : visible (str "ss://").
Proof. unfold visible. by repeat constructor. Qed.

Lemma Parse_ss J P rest : visible rest -> Parse J P (str "ss://" ++ rest) = parseSS (str "ss://" ++ rest).
Proof.
  intros Hv. assert (visible (str "ss://" ++ rest)) as Hs by (apply Forall_app; split; [apply visible_ss|done]).
  unfold Parse. rewrite TrimSpace_visible by done.
  assert (protocol_of (ToLower (str "ss://" ++ rest)) = Some PSS) as ->; [|done].
  rewrite ToLower_ascii, map_app by (by apply visible_ascii).
  replace (map lower_byte (str "ss://")) with (str "ss://") by (by vm_compute).
  unfold protocol_of, found, scheme_table. cbn [list_find fst snd].
  rewrite decide_True; [done|]. by rewrite (proj2 (HasPrefix_spec _ _)) by (by eexists).
Qed.

Lemma host_port_free host port : plain_host host -> 1 <= port <= 65535 ->
  let v := host ++ colon :: strconv_Itoa port in
  visible v /\ forall c, c ∈ str "#?@" -> c ∉ v.
Proof.
  intros [Hne Hv Hf] Hp. destruct (port_numeral port Hp) as (_ & _ & D3 & D4 & _). cbv zeta. split.
  - apply Forall_app. split; [done|by constructor].
  - intros c Hc. rewrite not_elem_of_app, not_elem_of_cons. split_and!.
    + apply (not_delim c host (str "#?@/[")); [done|]. change (c ∈ str "#?@" ++ str "/["). apply elem_of_app. by left.
    + intros ->. revert Hc. by apply (bool_decide_unpack _).
    + apply (not_delim c _ delimiters); [done|]. change (c ∈ str "#?@" ++ str "/:"). apply elem_of_app. by left.
Qed.

Lemma ss_proxy_plain m pw host port : plain_host host -> 1 <= port <= 65535 ->
  ss_proxy m pw (host ++ colon :: strconv_Itoa port) = Ok (ss_value m pw host port).
Proof. intros Hh Hp. unfold ss_proxy. by rewrite parseHostPort_plain. Qed.

Lemma Parse_ss_uri J P ui host port :
  visible ui -> (forall c, c ∈ str "#?@" -> c ∉ ui) -> plain_host host -> 1 <= port <= 65535 ->
  Parse J P (ss_uri ui host port) =
    match ss_credentials ui with Ok (m, pw) => Ret (ss_value m pw host port) | Err e => Fail e end.
Proof.
  intros Hv Hf Hh Hp. destruct (host_port_free host port Hh Hp) as [Hv2 Hf2].
  unfold ss_uri. set (v := host ++ colon :: strconv_Itoa port) in *.
  rewrite Parse_ss by (apply Forall_app; split; [done|by constructor]).
  assert (forall c, c ∈ str "#?" -> c ∉ ui ++ at_ :: v) as Hno.
  { intros c Hc. assert (c ∈ str "#?@") by (change (c ∈ str "#?" ++ [at_]); apply elem_of_app; by left).
    rewrite not_elem_of_app, not_elem_of_cons. split_and!; [by apply Hf| |by apply Hf2].
    intros ->. revert Hc. by apply (bool_decide_unpack _). }
  unfold parseSS. rewrite TrimPrefix_app.
  rewrite (before_id _ hash_), (before_id _ question) by (apply Hno; by apply (bool_decide_unpack _)).
  rewrite cut_last_at_app by (apply Hf2; by apply (bool_decide_unpack _)).
  destruct (ss_credentials ui) as [e|[m pw]]; [done|]. cbn. unfold v. by rewrite ss_proxy_plain.
Qed.

Lemma b64AnyDecode_encode s : s <> [] -> b64AnyDecode (b64_encode true s) = Ok s.
Proof.
  intros Hs. pose proof (b64_encode_bytes true s) as HB. rewrite Forall_forall in HB.
  assert (visible (b64_encode true s)) as Hv by (apply Forall_forall; intros c Hc; by apply b64_byte_safe, HB).
  unfold b64AnyDecode. rewrite TrimSpace_visible by done.
  rewrite bool_decide_eq_false_2.
  2: { intros E. pose proof (b64_roundtrip true s) as HR. rewrite E in HR. by injection HR as <-. }
  rewrite b64_encode_length. cbn [Z.sub Z.modulo]. cbn. rewrite app_nil_r. unfold b64_DecodeString.
  rewrite filter_id, b64_roundtrip; [done|].
  apply Forall_forall. intros c Hc. unfold visible in Hv. rewrite Forall_forall in Hv. apply Hv in Hc. split; intros ->; done.
Qed.

Lemma b64AnyDecode_colon s : visible s -> colon ∈ s -> exists e, b64AnyDecode s = Err e.
Proof.
  intros Hv Hc. unfold b64AnyDecode. rewrite TrimSpace_visible by done. case_bool_decide; [by eexists|].
  set (pad := replicate _ pad_char).
  assert (colon ∈ filter (fun c => c <> Byte.x0a /\ c <> Byte.x0d) (s ++ pad)) as Hin.
  { apply list_elem_of_filter. split; [done|]. apply elem_of_app. by left. }
  unfold b64_DecodeString.
  destruct (b64_quanta true _) as [v|] eqn:E1.
  { apply b64_quanta_bytes in E1. rewrite Forall_forall in E1. apply E1, b64_byte_safe in Hin as [_ Hin].
    destruct Hin. by apply (bool_decide_unpack _). }
  destruct (b64_quanta false _) as [v|] eqn:E2; [|by eexists].
  apply b64_quanta_bytes in E2. rewrite Forall_forall in E2. apply E2, b64_byte_safe in Hin. done.
Qed.

Lemma QueryUnescape_app m s : QueryUnescape (QueryEscape m ++ s) = r ← QueryUnescape s; Some (m ++ r).
Proof.
  induction m as [|c m IH]; [cbn; by destruct (QueryUnescape s)|].
  unfold QueryEscape in *. cbn [map concat]. rewrite <- app_assoc, QueryUnescape_byte, IH.
  by destruct (QueryUnescape s).
Qed.

Lemma escaped_pair m pw : QueryUnescape (QueryEscape m ++ colon :: QueryEscape pw) = Some (m ++ colon :: pw).
Proof.
  rewrite QueryUnescape_app. assert (QueryUnescape (colon :: QueryEscape pw) = Some (colon :: pw)) as ->; [|done].
  cbn [QueryUnescape]. rewrite bool_decide_eq_false_2 by done. rewrite QueryUnescape_escape. cbn.
  by rewrite bool_decide_eq_false_2.
Qed.

Lemma escaped_pair_safe m pw :
  visible (QueryEscape m ++ colon :: QueryEscape pw) /\
  forall c, c ∈ str "#?@" -> c ∉ QueryEscape m ++ colon :: QueryEscape pw.
Proof.
  pose proof (QueryEscape_safe m) as Hm. pose proof (QueryEscape_safe pw) as Hp. rewrite Forall_forall in Hm, Hp.
  assert (forall c, c ∈ str "#?@" -> c ∈ delimiters) as Hd
    by (intros c Hc; change (c ∈ str "#?@" ++ str "/:"); apply elem_of_app; by left).
  split.
  - apply Forall_app. split; [apply Forall_forall; intros; by apply Hm|]. constructor; [done|].
    apply Forall_forall. intros. by apply Hp.
  - intros c Hc. rewrite not_elem_of_app, not_elem_of_cons. split_and!.
    + intros Hx. by apply (Hm c Hx), Hd.
    + intros ->. revert Hc. by apply (bool_decide_unpack _).
    + intros Hx. by apply (Hp c Hx), Hd.
Qed.

Lemma ss_credentials_escaped m pw : colon ∉ m ->
  ss_credentials (QueryEscape m ++ colon :: QueryEscape pw) = Ok (m, pw).
Proof.
  intros Hm. destruct (escaped_pair_safe m pw) as [Hv _]. unfold ss_credentials.
  destruct (b64AnyDecode_colon _ Hv) as [e ->]; [apply elem_of_app; right; by left|].
  by rewrite escaped_pair, Cut_app.
Qed.

Lemma ssCredsRE_facts m : ssCredsRE m = true -> m <> [] /\ colon ∉ m.
Proof.
  unfold ssCredsRE. rewrite andb_true_iff, negb_true_iff, bool_decide_eq_false, forallb_forall. intros [H1 H2].
  split; [done|]. intros Hc%list_elem_of_In%H2. by vm_compute in Hc.
Qed.

Lemma ss_credentials_b64 m pw : ssCredsRE m = true ->
  ss_credentials (b64_encode true (m ++ colon :: pw)) = Ok (m, unescape pw []).
Proof.
  intros Hm. destruct (ssCredsRE_facts m Hm) as [H1 H2]. unfold ss_credentials.
  rewrite b64AnyDecode_encode by (by destruct m). by rewrite Cut_app, Hm by done.
Qed.

Lemma b64_encode_safe s :
  visible (b64_encode true s) /\ forall c, c ∈ delimiters -> c ∉ b64_encode true s.
Proof.
  pose proof (b64_encode_bytes true s) as HB. rewrite Forall_forall in HB. split.
  - apply Forall_forall. intros c Hc. by apply b64_byte_safe, HB.
  - intros c Hd Hc. apply HB, b64_byte_safe in Hc as [_ Hc]. done.
Qed.

(** ** The theorems *)

(** an accepted URI gives a proxy named "out", of the type of its scheme,
    with a server and a port between 1 and 65535 (VMess takes the port of its
    payload as it is). *)
Theorem Parse_shape J P uri p :
  Parse J P uri = Ret p ->
  exists pr host port, protocol_of (ToLower (TrimSpace uri)) = Some pr /\
    shaped (type_of pr) host port p /\ host <> [] /\ (pr <> PVMess -> 1 <= port <= 65535).
Proof.
  unfold Parse. destruct (url_parsers_ok P (TrimSpace uri) p) as (U1 & U2 & U3 & U4 & U5 & U6).
  destruct (protocol_of _) as [[]|]; try done; intros E; try apply go_of_res_Ret in E.
  - destruct (parseSS_ok _ _ E) as (h & q & ? & ? & ?). by exists PSS, h, q.
  - destruct (parseVMess_ok _ _ _ E) as (h & q & ? & ?). by exists PVMess, h, q.
  - destruct (U1 E) as (h & q & ? & ? & ?). by exists PTrojan, h, q.
  - destruct (U2 E) as (h & q & ? & ? & ?). by exists PVLess, h, q.
  - destruct (U3 E) as (h & q & ? & ? & ?). by exists PHysteria2, h, q.
  - destruct (U4 E) as (h & q & ? & ? & ?). by exists PTUIC, h, q.
  - destruct (U5 E) as (h & q & ? & ? & ?). by exists PAnyTLS, h, q.
  - destruct (parseSocks_ok _ _ E) as (h & q & ? & ? & ?). by exists PSocks, h, q.
  - destruct (U6 E) as (h & q & ? & ? & ?). by exists PHTTP, h, q.
Qed.

(** a Shadowsocks URI in the percent-encoded form gives back any method
    without a colon and any password; in the base64 form it gives back the
    method, and the password query-unescaped, so exactly the password when it
    has no percent and no plus sign. *)
Theorem ss_roundtrip J P m pw host port :
  plain_host host -> 1 <= port <= 65535 ->
  (colon ∉ m -> Parse J P (ss_uri (QueryEscape m ++ colon :: QueryEscape pw) host port) = Ret (ss_value m pw host port)) /\
  (ssCredsRE m = true ->
     Parse J P (ss_uri (b64_encode true (m ++ colon :: pw)) host port) = Ret (ss_value m (unescape pw []) host port) /\
     (percent ∉ pw -> plus_sign ∉ pw -> unescape pw [] = pw)).
Proof.
  intros Hh Hp. split.
  - intros Hm. destruct (escaped_pair_safe m pw) as [Hv Hf]. by rewrite Parse_ss_uri, ss_credentials_escaped.
  - intros Hm. destruct (b64_encode_safe (m ++ colon :: pw)) as [Hv Hf]. split.
    + rewrite Parse_ss_uri, ss_credentials_b64; try done.
      intros c Hc. apply Hf. change (c ∈ str "#?@" ++ str "/:"). apply elem_of_app. by left.
    + intros H1 H2. unfold unescape. rewrite QueryUnescape_plain by done. by case_bool_decide.
Qed.

(** [Parse] panics exactly on Shadowsocks URIs without an [@] whose base64
    payload has an [@] and a colon, but no colon before the last [@]: every
    payload [creds@host:port] with no colon in [creds] is one. *)
Theorem Parse_panics J P :
  (forall creds srv, colon ∉ creds -> colon ∈ srv -> at_ ∉ srv ->
     Parse J P (str "ss://" ++ b64_encode true (creds ++ at_ :: srv)) = Panic) /\
  (forall uri, Parse J P uri = Panic ->
     protocol_of (ToLower (TrimSpace uri)) = Some PSS /\
     exists dec creds srv,
       let payload := before (before (TrimPrefix (TrimSpace uri) (str "ss://")) hash_) question in
       cut_last_at payload = None /\ b64AnyDecode payload = Ok dec /\ cut_last_at dec = Some (creds, srv) /\
       (colon ∉ creds) /\ colon ∈ dec).
Proof.
  split.
  - intros creds srv H1 H2 H3. destruct (b64_encode_safe (creds ++ at_ :: srv)) as [Hv Hf].
    rewrite Parse_ss by done. unfold parseSS. rewrite TrimPrefix_app.
    rewrite (before_id _ hash_), (before_id _ question) by (apply Hf; by apply (bool_decide_unpack _)).
    rewrite cut_last_at_none by (apply Hf; by apply (bool_decide_unpack _)).
    rewrite b64AnyDecode_encode by (by destruct creds). rewrite cut_last_at_app by done.
    rewrite bool_decide_eq_true_2 by (apply elem_of_app; right; by right). unfold split2. cbn [negb].
    by rewrite Cut_none.
  - intros uri. unfold Parse. destruct (protocol_of _) as [[]|]; try done;
      try (match goal with |- go_of_res ?r = Panic -> _ => by destruct r end).
    intros E. split; [done|]. unfold parseSS in E. cbv zeta.
    destruct (cut_last_at _) as [[ui srv]|].
    { destruct (ss_credentials ui) as [e|[m pw]]; [done|]. cbn in E. by destruct (ss_proxy _ _ _). }
    destruct (b64AnyDecode _) as [e|dec]; [done|]. destruct (cut_last_at dec) as [[creds srv]|] eqn:EC; [|done].
    case_bool_decide as Hc; [|done]. cbn [negb] in E. exists dec, creds, srv. split_and!; try done.
    unfold split2, Cut in E. destruct (IndexByte creds colon) as [i|] eqn:EI.
    + cbn in E. by destruct (ss_proxy _ _ _).
    + unfold IndexByte in EI. apply fmap_None, list_find_None in EI. rewrite Forall_forall in EI. intros Hx. by apply (EI colon).
Qed.
End spec.

(** ** Examples *)
Module Demo.
#[local] Existing Instance ascii_tables.

Definition no_json : bytes -> option (gmap bytes json) := fun _ => None.
Definition no_url : bytes -> option URL := fun _ => None.

Lemma plain_example : plain_host (str "proxy.example").
Proof.
  assert (forallb (fun c => negb (bool_decide (c ∈ str "#?@/["))) (str "proxy.example") = true) as HA by (by vm_compute).
  constructor; [done|by repeat constructor|]. intros c Hc. rewrite forallb_forall in HA.
  apply list_elem_of_In, HA in Hc. by rewrite negb_true_iff, bool_decide_eq_false in Hc.
Qed.

Definition method : bytes := str "aes-256-gcm".
Definition secret : bytes := str "p+w%rd".

Lemma ss_roundtrip_witness :
  plain_host (str "proxy.example") /\ 1 <= 8388 <= 65535 /\ (colon ∉ method) /\ ssCredsRE method = true /\
  Parse no_json no_url (ss_uri (QueryEscape method ++ colon :: QueryEscape secret) (str "proxy.example") 8388) =
    Ret (ss_value method secret (str "proxy.example") 8388) /\
  Parse no_json no_url (ss_uri (b64_encode true (method ++ colon :: secret)) (str "proxy.example") 8388) =
    Ret (ss_value method (unescape secret []) (str "proxy.example") 8388).
Proof.
  assert (1 <= 8388 <= 65535) as Hp by lia.
  assert (colon ∉ method) as Hm by (by apply (bool_decide_unpack _); vm_compute).
  assert (ssCredsRE method = true) as Hr by (vm_compute; reflexivity).
  destruct (ss_roundtrip no_json no_url method secret (str "proxy.example") 8388 plain_example Hp) as [H1 H2].
  split; [exact plain_example|]. split; [exact Hp|]. split; [exact Hm|]. split; [exact Hr|].
  split; [exact (H1 Hm)|exact (proj1 (H2 Hr))].
Defined.

Definition socks_uri : bytes := str "Socks5h://alice:s3cret@[2001:db8::1]:1080".

Definition returned {A} (r : go ExitError A) : bool := match r with Ret _ => true | _ => false end.

Definition field (k : String.string) (r : go ExitError Proxy) : option val :=
  match r with Ret p => p !! str k | _ => None end.

Lemma socks_parses : exists p, Parse no_json no_url socks_uri = Ret p.
Proof.
  assert (returned (Parse no_json no_url socks_uri) = true) as HR by (by vm_compute).
  destruct (Parse no_json no_url socks_uri) as [|e|p]; [done..|by exists p].
Qed.

Example socks_fields :
  let r := Parse no_json no_url socks_uri in
  field "server" r = Some (VStr (str "2001:db8::1")) /\ field "port" r = Some (VInt 1080) /\
  field "username" r = Some (VStr (str "alice")) /\ field "password" r = Some (VStr (str "s3cret")).
Proof. by vm_compute. Qed.

Lemma Parse_shape_witness :
  exists p, Parse no_json no_url socks_uri = Ret p /\
  exists pr host port, protocol_of (ToLower (TrimSpace socks_uri)) = Some pr /\
    shaped (type_of pr) host port p /\ host <> [] /\ (pr <> PVMess -> 1 <= port <= 65535).
Proof.
  destruct socks_parses as [p E]. exists p. split; [exact E|].
  exact (Parse_shape no_json no_url socks_uri p E).
Defined.

(** "abc@host:80" has no password: indexing the second half panics. *)
Example legacy_panic : Parse no_json no_url (str "ss://YWJjQGhvc3Q6ODA=") = Panic.
Proof. by vm_compute. Qed.

(** The base64 form of a password with a plus sign loses it. *)
Example plus_lost :
  field "password" (Parse no_json no_url (ss_uri (b64_encode true (str "aes-128-gcm:a+b")) (str "h.example") 443)) =
    Some (VStr (str "a b")).
Proof. by vm_compute. Qed.

(** An upper-case scheme is dispatched, but not stripped. *)
Example upper_scheme :
  let r := Parse no_json no_url (str "SS://aes-128-gcm:pw@h.example:443") in
  field "cipher" r = Some (VStr (str "SS")) /\ field "password" r = Some (VStr (str "//aes-128-gcm:pw")).
Proof. by vm_compute. Qed.

(** A VMess port out of range is kept. *)
Example vmess_port :
  let J := fun _ => Some (<[str "add" := JStr (str "h")]> (<[str "port" := JNum 700000]> ∅)) in
  field "port" (Parse J no_url (str "vmess://e30=")) = Some (VInt 700000).
Proof. by vm_compute. Qed.

(** [url.Parse] has decoded the user name already: "100%25" in the URI is the
    password "100%", which the second decoding refuses and drops. *)
Example trojan_password_dropped :
  let u := {| Scheme := str "trojan"; Hostname := str "h.example"; Port := [];
              User := Some (str "100%", None); RawQuery := [] |} in
  field "password" (Parse no_json (fun _ => Some u) (str "trojan://100%25@h.example")) = Some (VStr []).
Proof. by vm_compute. Qed.
End Demo.
