(* ===== verification/RuleImport.v ===== *)
(** * Importing rule lists

    [internal/rules/importlegacy.go] and [internal/rules/importgfwlist.go]:
    Clash and mihomo lists, AutoProxy (gfwlist) lists and their base64 form
    become lines [KIND,VALUE,CATEGORY].  The regular expressions are written
    out as functions: [hostRE], [modifierRE], [leadingSymbols] and the
    separator of [ImportOptionsFromEnv]. *)
From S2P Require Import Prelude GoStrings GoCodec Rules.
From Stdlib Require Import ZArith Lia.

Definition quote : byte := Byte.x22.
Definition newline : byte := Byte.x0a.
Definition pipe : byte := Byte.x7c.
Definition slash : byte := Byte.x2f.
Definition lpar : byte := Byte.x28.
Definition rpar : byte := Byte.x29.

(** The line of three fields, [fmt.Sprintf] of [%s,%s,%s]. *)
Definition line3 (kind value policy : bytes) : bytes := kind ++ comma :: value ++ comma :: policy.

(** ** importlegacy.go: the tables *)
Definition legacyKeep : list bytes :=
  [str "DOMAIN"; str "DOMAIN-SUFFIX"; str "DOMAIN-KEYWORD"; str "IP-CIDR"; str "IP-CIDR6";
   str "RULE-SET"; str "GEOIP"; str "GEOSITE"].

Definition legacyDrop : list bytes :=
  [str "PROCESS-NAME"; str "SRC-IP"; str "SRC-PORT"; str "DEST-PORT"; str "IN-PORT"; str "MAC-ADDRESS";
   str "DEVICE-NAME"; str "IP-ASN"; str "USER-AGENT"; str "SUBNET"; str "PROTOCOL"; str "CELLULAR-RADIO";
   str "SSID"].

(** [modifierRE]: four words, or one of two names with a value ([.] is any
    rune but a newline). *)
Definition modifierRE (s : bytes) : bool :=
  existsb (fun w => fold_prefix w s == Some [])
    [str "no-resolve"; str "extended-matching"; str "dns-failed"; str "pre-matching"] ||
  existsb (fun w => match fold_prefix w s with Some v => bool_decide (newline ∉ v) | None => false end)
    [str "update-interval="; str "interval="].

(** [\p{Han}]: the code points of Go's table, as inclusive ranges. *)
Definition Han_ranges : list (Z * Z) :=
  [(0x2e80, 0x2e99); (0x2e9b, 0x2ef3); (0x2f00, 0x2fd5); (0x3005, 0x3005); (0x3007, 0x3007);
   (0x3021, 0x3029); (0x3038, 0x303b); (0x3400, 0x4dbf); (0x4e00, 0x9fff); (0xf900, 0xfa6d);
   (0xfa70, 0xfad9); (0x16fe2, 0x16fe3); (0x16ff0, 0x16ff1); (0x20000, 0x2a6df); (0x2a700, 0x2b739);
   (0x2b740, 0x2b81d); (0x2b820, 0x2cea1); (0x2ceb0, 0x2ebe0); (0x2f800, 0x2fa1d); (0x30000, 0x3134a);
   (0x31350, 0x323af)]%Z.

(** The code point of an encoded rune. *)
Definition rune_value (r : bytes) : Z :=
  (match map bz r with
   | [a] => a
   | [a; b] => (a mod 32) * 64 + b mod 64
   | [a; b; c] => (a mod 16) * 4096 + (b mod 64) * 64 + c mod 64
   | [a; b; c; d] => (a mod 8) * 262144 + (b mod 64) * 4096 + (c mod 64) * 64 + d mod 64
   | _ => 0
   end)%Z.

(** [\w] is a letter, a digit or an underscore of ASCII. *)
Definition word_byte (c : byte) : bool :=
  in_range 48 57 c || in_range 65 90 c || in_range 97 122 c || (c == Byte.x5f).

Definition word_or_Han (r : bytes) : bool :=
  match r with
  | [c] => word_byte c
  | _ => existsb (fun p => (p.1 <=? rune_value r) && (rune_value r <=? p.2))%Z Han_ranges
  end.

(** [leadingSymbols.ReplaceAllString(s, empty)]; an invalid byte reads as
    U+FFFD, a symbol.  A string of [n] bytes has at most [n] runes. *)
Fixpoint leadingSymbols (fuel : nat) (s : bytes) : bytes :=
  match fuel, s with
  | S fuel, _ :: r =>
      match rune_width s with
      | O => leadingSymbols fuel r
      | w => if word_or_Han (take w s) then s else leadingSymbols fuel (drop w s)
      end
  | _, _ => s
  end.

(** [normCategory]. *)
Definition normCategory (policy : bytes) : bytes :=
  let p := TrimSpace policy in
  let p := Trim p [quote] in
  let p := leadingSymbols (length p) p in
  let p := TrimSpace p in
  if p == [] then str "Proxy" else p.

(** [csvSplit]: the loop over the runes with the current field. *)
Fixpoint csv_loop (rs : list bytes) (cur : bytes) (inQ : bool) : list bytes :=
  match rs with
  | [] => [TrimSpace cur]
  | ch :: rs =>
      if ch == [quote] then csv_loop rs cur (negb inQ)
      else if (ch == [comma]) && negb inQ then TrimSpace cur :: csv_loop rs [] inQ
      else csv_loop rs (cur ++ ch) inQ
  end.

Definition csvSplit (s : bytes) : list bytes := csv_loop (runes s) [] false.

(** The loop of [parseLogical]: how far the parenthesis that closes the
    first one is. *)
Fixpoint close_paren (s : bytes) (depth : Z) : option nat :=
  match s with
  | [] => None
  | c :: s =>
      if c == lpar then S <$> close_paren s (depth + 1)
      else if c == rpar then
        if (depth - 1 =? 0)%Z then Some 0%nat else S <$> close_paren s (depth - 1)
      else S <$> close_paren s depth
  end.

(** The loop of [splitTopParens]; it looks for ASCII bytes only, which no
    longer rune contains, so it goes byte by byte. *)
Fixpoint top_parens (s rest : bytes) (i : nat) (depth : Z) (start : option nat) : list bytes :=
  match rest with
  | [] => []
  | c :: rest =>
      if c == lpar then
        top_parens s rest (S i) (depth + 1) (if (depth =? 0)%Z then Some (S i) else start)
      else if c == rpar then
        match (depth - 1 =? 0)%Z, start with
        | true, Some a => take (i - a) (drop a s) :: top_parens s rest (S i) (depth - 1) None
        | _, _ => top_parens s rest (S i) (depth - 1) start
        end
      else top_parens s rest (S i) depth start
  end.

Definition splitTopParens (s : bytes) : list bytes := top_parens s s 0 0 None.

(** [parseLogical]: the members and the policy; a nil slice is []. *)
Definition parseLogical (line : bytes) : list bytes * bytes :=
  match Index line [lpar] with
  | None => ([], [])
  | Some i =>
      match close_paren (drop i line) 0 with
      | None => ([], [])
      | Some k =>
          let group := take (k - 1) (drop (S i) line) in
          let tail := TrimLeft (drop (S (i + k)) line) [comma] in
          let policy := if tail == [] then [] else default [] (head (csvSplit tail)) in
          (splitTopParens group, policy)
      end
  end.

Record ImportLegacyOptions := { KeepCategories : list bytes; DirectCategories : list bytes }.

(** [ImportOptionsFromEnv]: the separator is a run of commas and ASCII
    spaces; the empty fields between two of them are dropped anyway. *)
Definition env_separators : bytes := map zb [44; 9; 10; 12; 13; 32]%Z.

Fixpoint split_any (s cs cur : bytes) : list bytes :=
  match s with
  | [] => [cur]
  | c :: s => if bool_decide (c ∈ cs) then cur :: split_any s cs [] else split_any s cs (cur ++ [c])
  end.

Definition split_env (s : bytes) : list bytes :=
  filter (fun p => p <> []) (TrimSpace <$> split_any s env_separators []).

Definition ImportOptionsFromEnv (Getenv : bytes -> bytes) : ImportLegacyOptions :=
  {| KeepCategories := split_env (Getenv (str "PGW_KEEP_CATEGORIES"));
     DirectCategories := split_env (Getenv (str "PGW_DIRECT_CATEGORIES")) |}.

Record ImportLegacyReport := {
  Converted : nat; Dropped : nat; OrFlattened : nat; Categories : list bytes; FinalPolicy : bytes
}.

(** The variables of [ImportLegacy]. *)
Record ImportState := {
  i_rules : list bytes; i_cats : gset bytes; i_final : bytes; i_dropped : nat; i_flattened : nat
}.

Definition import_init : ImportState :=
  {| i_rules := []; i_cats := ∅; i_final := []; i_dropped := 0; i_flattened := 0 |}.

Definition add_rule (line cat : bytes) (st : ImportState) : ImportState :=
  {| i_rules := i_rules st ++ [line]; i_cats := {[cat]} ∪ i_cats st; i_final := i_final st;
     i_dropped := i_dropped st; i_flattened := i_flattened st |}.
Definition drop_line (st : ImportState) : ImportState :=
  {| i_rules := i_rules st; i_cats := i_cats st; i_final := i_final st;
     i_dropped := S (i_dropped st); i_flattened := i_flattened st |}.
Definition count_flattened (st : ImportState) : ImportState :=
  {| i_rules := i_rules st; i_cats := i_cats st; i_final := i_final st;
     i_dropped := i_dropped st; i_flattened := S (i_flattened st) |}.
Definition set_final (cat : bytes) (st : ImportState) : ImportState :=
  {| i_rules := i_rules st; i_cats := i_cats st; i_final := cat;
     i_dropped := i_dropped st; i_flattened := i_flattened st |}.

(** The bytes of the marker "guang gao", advertisement. *)
Definition guanggao : bytes := map zb [0xe5; 0xb9; 0xbf; 0xe5; 0x91; 0x8a]%Z.

Section import.
Context `{Unicode}.

(** The closure [catFn]. *)
Definition catFn (opts : ImportLegacyOptions) (policy : bytes) : bytes :=
  let cat := normCategory policy in
  let low := ToLower cat in
  if bool_decide (low ∈ (ToLower <$> DirectCategories opts)) then str "direct"
  else if (KeepCategories opts == []) || bool_decide (cat ∈ KeepCategories opts) then cat
  else if bool_decide (low ∈ [str "dir"; str "direct"; str "china"; str "lan"; str "domestic"]) then str "direct"
  else if existsb (Contains low)
            [str "advert"; str "hijack"; str "privacy"; str "reject"; guanggao; str "malware"]
  then str "block"
  else str "Proxy".

(** The closure [emit]. *)
Definition emit (opts : ImportLegacyOptions) (kind value policy : bytes) (st : ImportState) : ImportState :=
  let kind := ToUpper kind in
  let kind := if kind == str "IP-CIDR6" then str "IP-CIDR" else kind in
  let cat := catFn opts policy in
  add_rule (line3 kind value cat) cat st.

(** One member of an OR or AND rule; the second component is [took]. *)
Definition logical_member (opts : ImportLegacyOptions) (policy : bytes) (acc : ImportState * bool) (m : bytes)
    : ImportState * bool :=
  match csvSplit m with
  | p0 :: p1 :: _ =>
      let mt := ToUpper p0 in
      if bool_decide (mt ∈ legacyKeep) then (emit opts mt p1 policy acc.1, true) else acc
  | _ => acc
  end.

(** The body of the loop over the lines. *)
Definition import_line (opts : ImportLegacyOptions) (st : ImportState) (raw : bytes) : ImportState :=
  let line := TrimSpace raw in
  if (line == []) || HasPrefix line (str "#") || HasPrefix line (str ";") || HasPrefix line (str "[") then st
  else
    let typ := ToUpper (TrimSpace (default [] (head (Split line comma)))) in
    if (typ == str "OR") || (typ == str "AND") then
      let '(members, policy) := parseLogical line in
      if policy == [] then st
      else let '(st, took) := foldl (logical_member opts policy) (st, false) members in
           if took then count_flattened st else drop_line st
    else
      let parts := csvSplit line in
      if typ == str "FINAL" then
        match parts with _ :: p :: _ => set_final (catFn opts p) st | _ => st end
      else if bool_decide (typ ∈ legacyDrop) then drop_line st
      else match parts with
           | _ :: value :: more =>
               if bool_decide (typ ∈ legacyKeep) then
                 let rest := filter (fun p => modifierRE (Trim (TrimSpace p) [quote]) = false) more in
                 emit opts typ value (default [] (head rest)) st
               else drop_line st
           | _ => drop_line st
           end.

(** [ImportLegacy]; [Categories] are the categories sorted. *)
Definition ImportLegacy (input : bytes) (opts : ImportLegacyOptions) : list bytes * ImportLegacyReport :=
  let st := foldl (import_line opts) import_init (Split input newline) in
  let final := i_final st in
  let st := if final != [] then add_rule (str "FINAL," ++ final) final st else st in
  (i_rules st,
   {| Converted := length (i_rules st); Dropped := i_dropped st; OrFlattened := i_flattened st;
      Categories := stable_sort bytes_leb (elements (i_cats st)); FinalPolicy := final |}).

(** ** importgfwlist.go *)
Definition gfwlistPolicyPROXY : bytes := str "Proxy".
Definition gfwlistPolicyDIRECT : bytes := str "direct".

(** [hostRE]: two or more dot separated labels of letters, digits and hyphens. *)
Definition host_byte (c : byte) : bool :=
  in_range 48 57 c || in_range 65 90 c || in_range 97 122 c || (c == Byte.x2d).

Definition hostRE (s : bytes) : bool :=
  let labels := Split s dot in
  (2 <=? length labels)%nat && forallb (fun l => (l != []) && forallb host_byte l) labels.

(** [hostFromBody]. *)
Definition cut_after (s : bytes) (o : option nat) : bytes :=
  match o with Some i => take i s | None => s end.

Definition hostFromBody (body : bytes) : bytes :=
  if body == [] then []
  else
    let body := cut_after body (IndexAny body (str "/?#")) in
    let body := match Index body (str "@") with Some i => drop (S i) body | None => body end in
    let body := cut_after body (Index body (str ":")) in
    TrimSpace body.

(** [trimGFWTail]. *)
Definition trimGFWTail (s : bytes) : bytes :=
  TrimSuffix (TrimSuffix (TrimSpace s) (str "^")) (str "/").

(** What one trimmed line pushes: its kind, value and policy. *)
Definition gfw_body (line : bytes) : option (bytes * bytes) :=
  if HasPrefix line [slash] && HasSuffix line [slash] && (2 <? len line)%Z then None
  else if HasPrefix line (str "||") then
    let host := hostFromBody (trimGFWTail (TrimPrefix line (str "||"))) in
    if (host != []) && hostRE host then Some (KindDomainSuffix, host) else None
  else if HasPrefix line (str "|http://") || HasPrefix line (str "|https://") then
    let body := TrimPrefix line [pipe] in
    let body := match Index body (str "://") with Some i => drop (i + 3) body | None => body end in
    let host := hostFromBody body in
    if (host != []) && hostRE host then Some (KindDomain, host) else None
  else if HasPrefix line (str "*.") then
    let body := trimGFWTail (TrimPrefix line (str "*.")) in
    if hostRE body then Some (KindDomainSuffix, body) else None
  else if HasPrefix line (str ".") then
    let body := trimGFWTail (TrimPrefix line (str ".")) in
    if hostRE body then Some (KindDomainSuffix, body) else None
  else
    let host := hostFromBody (trimGFWTail line) in
    if host == [] then None
    else if hostRE host then Some (KindDomainKeyword, host) else None.

Definition gfw_line (raw : bytes) : option (bytes * bytes * bytes) :=
  let line := TrimSpace raw in
  if line == [] then None
  else if HasPrefix line (str "!") || HasPrefix line (str "[") then None
  else
    let '(policy, line) := if HasPrefix line (str "@@") then (gfwlistPolicyDIRECT, TrimPrefix line (str "@@"))
                           else (gfwlistPolicyPROXY, line) in
    match gfw_body line with Some (kind, value) => Some (kind, value, policy) | None => None end.

(** The closure [push], with the set of keys seen. *)
Definition push (acc : gset bytes * list bytes) (e : option (bytes * bytes * bytes)) : gset bytes * list bytes :=
  match e with
  | None => acc
  | Some (kind, value, policy) =>
      if value == [] then acc
      else
        let key := kind ++ pipe :: value ++ pipe :: policy in
        if bool_decide (key ∈ acc.1) then acc
        else ({[key]} ∪ acc.1, acc.2 ++ [line3 kind value policy])
  end.

(** [gfwlistToClash]. *)
Definition gfwlistToClash (input : bytes) : list bytes :=
  (foldl (fun acc raw => push acc (gfw_line raw)) (∅, []) (Split input newline)).2.

(** [looksLikeGFWList]: the loop with its early return. *)
Fixpoint gfw_hits (lines : list bytes) (pipeHits commaHits : nat) : bool :=
  match lines with
  | [] => (3 <=? pipeHits)%nat && (commaHits <? pipeHits)%nat
  | line :: lines =>
      let line := TrimSpace line in
      if (line == []) || HasPrefix line (str "!") then gfw_hits lines pipeHits commaHits
      else
        let pipeHits := if HasPrefix line (str "||") || HasPrefix line (str "|http") || HasPrefix line (str "@@")
                        then S pipeHits else pipeHits in
        let commaHits := if Contains line [comma] then S commaHits else commaHits in
        if (3 <=? pipeHits)%nat && (commaHits =? 0)%nat then true else gfw_hits lines pipeHits commaHits
  end.

Definition looksLikeGFWList (input : bytes) : bool :=
  Contains input (str "[AutoProxy") || gfw_hits (Split input newline) 0 0.

(** [stripAllWhitespace] and [isBase64Char], a rune at a time. *)
Definition stripAllWhitespace (s : bytes) : bytes := concat (filter (fun r => r ∉ space_runes) (runes s)).

Definition isBase64Char (r : bytes) : bool :=
  match r with
  | [c] => in_range 65 90 c || in_range 97 122 c || in_range 48 57 c || bool_decide (c ∈ str "+/=-_")
  | _ => false
  end.

(** [decodeIfBase64GFWList]. *)
Definition decodeIfBase64GFWList (input : bytes) : option bytes :=
  let trimmed := stripAllWhitespace input in
  if (len trimmed <? 32)%Z then None
  else if negb (forallb isBase64Char (runes trimmed)) then None
  else
    let pad := (len trimmed mod 4)%Z in
    let padded := if (pad =? 0)%Z then trimmed else trimmed ++ repeat pad_char (Z.to_nat (4 - pad)) in
    match (match b64_DecodeString false padded with
           | Some raw => Some raw
           | None => b64_DecodeString true padded
           end) with
    | None => None
    | Some decoded => if looksLikeGFWList decoded then Some decoded else None
    end.

(** [mergeUnique] with one extra string. *)
Definition mergeUnique (existing : list bytes) (extra : bytes) : list bytes :=
  if bool_decide (extra ∈ existing) then existing else existing ++ [extra].

(** [Import]. *)
Definition Import_list (input : bytes) (opts : ImportLegacyOptions) : list bytes * ImportLegacyReport :=
  let input := default input (decodeIfBase64GFWList input) in
  if looksLikeGFWList input then
    let '(rules, rep) := ImportLegacy (Join (gfwlistToClash input) newline) opts in
    (rules, {| Converted := Converted rep; Dropped := Dropped rep; OrFlattened := OrFlattened rep;
               Categories := mergeUnique (Categories rep) (str "gfwlist"); FinalPolicy := FinalPolicy rep |})
  else ImportLegacy input opts.
End import.

(** Membership of concrete bytes. *)
Ltac elem := apply (bool_decide_eq_true_1 _); vm_compute; reflexivity.

(** ** Lines of plain fields

    A plain field is visible ASCII without the characters of the CSV syntax. *)
Definition plain_byte (c : byte) : bool := visible_byte c && (c != comma) && (c != quote).
Definition plain (s : bytes) : Prop := Forall (fun c => plain_byte c = true) s.

Lemma plain_visible s : plain s -> visible s.
Proof. intros Hp. eapply Forall_impl; [exact Hp|]. cbn. intros c Hc. unfold plain_byte in Hc. by destruct (visible_byte c). Qed.

Lemma plain_free s : plain s -> (comma ∉ s) /\ (quote ∉ s).
Proof.
  intros Hp. split; intros Hin; unfold plain in Hp; rewrite Forall_forall in Hp; specialize (Hp _ Hin); by vm_compute in Hp.
Qed.

Lemma visible_nonl s : visible s -> newline ∉ s.
Proof. intros Hv Hin. unfold visible in Hv. rewrite Forall_forall in Hv. specialize (Hv _ Hin). by vm_compute in Hv. Qed.

Lemma csv_loop_plain f rest cur :
  plain f -> csv_loop (((fun c => [c]) <$> f) ++ rest) cur false = csv_loop rest (cur ++ f) false.
Proof.
  revert cur. induction f as [|c f IH]; intros cur Hp; [by rewrite app_nil_r|].
  apply Forall_cons in Hp as [Hc Hp]. unfold plain_byte in Hc.
  apply andb_true_iff in Hc as [[_ Hc]%andb_true_iff Hq].
  apply negb_true_iff, bool_decide_eq_false in Hc. apply negb_true_iff, bool_decide_eq_false in Hq.
  cbn [fmap list_fmap app csv_loop].
  rewrite (bool_decide_eq_false_2 ([c] = [quote])); [|by intros [= ->]].
  rewrite (bool_decide_eq_false_2 ([c] = [comma])); [|by intros [= ->]].
  cbn. rewrite (IH _ Hp). by rewrite <- app_assoc.
Qed.

Lemma csv_loop_Join ws cur :
  ws <> [] -> Forall plain ws -> visible cur ->
  csv_loop ((fun c => [c]) <$> Join ws comma) cur false =
    (cur ++ default [] (head ws)) :: tail ws.
Proof.
  revert cur. induction ws as [|w [|v ws] IH]; intros cur Hne Hp Hc; [done| |].
  - apply Forall_cons in Hp as [Hw _]. cbn [Join head tail default from_option].
    rewrite <- (app_nil_r ((fun c => [c]) <$> w)), (csv_loop_plain w [] cur Hw). cbn.
    rewrite TrimSpace_visible; [done|]. apply Forall_app; split; [done|by apply plain_visible].
  - apply Forall_cons in Hp as [Hw Hp]. rewrite Join_cons by done. rewrite fmap_app, fmap_cons.
    rewrite (csv_loop_plain w _ cur Hw). cbn [csv_loop].
    rewrite (bool_decide_eq_false_2 ([comma] = [quote])), (bool_decide_eq_true_2 ([comma] = [comma])) by done.
    cbn [andb negb]. rewrite (IH [] ltac:(done) Hp); [|constructor].
    rewrite TrimSpace_visible; [done|]. apply Forall_app; split; [done|by apply plain_visible].
Qed.

Lemma visible_app s t : visible s -> visible t -> visible (s ++ t).
Proof. intros. by apply Forall_app. Qed.

Lemma visible_Join ws : Forall plain ws -> visible (Join ws comma).
Proof.
  induction ws as [|w [|v ws] IH]; intros Hp; [constructor| |]; apply Forall_cons in Hp as [Hw Hp].
  - by apply plain_visible.
  - rewrite Join_cons by done. apply visible_app; [by apply plain_visible|]. constructor; [done|by apply IH].
Qed.

Lemma csvSplit_Join ws : ws <> [] -> Forall plain ws -> csvSplit (Join ws comma) = ws.
Proof.
  intros Hne Hp. unfold csvSplit. rewrite runes_ascii; [|by apply visible_ascii, visible_Join].
  rewrite csv_loop_Join; [by destruct ws|done|done|constructor].
Qed.

Lemma line3_Join k v p : line3 k v p = Join [k; v; p] comma.
Proof. done. Qed.

Lemma csvSplit_line3 k v p : plain k -> plain v -> plain p -> csvSplit (line3 k v p) = [k; v; p].
Proof. intros. rewrite line3_Join, csvSplit_Join; try done. by repeat constructor. Qed.

Lemma line3_visible k v p : plain k -> plain v -> plain p -> visible (line3 k v p).
Proof. intros. rewrite line3_Join. apply visible_Join. by repeat constructor. Qed.

(** An entry of a list, as the importers see it. *)
Abbreviation entry := (bytes * bytes * bytes)%type.

Definition entry_line (e : entry) : bytes := line3 e.1.1 e.1.2 e.2.

Definition plain_entry (e : entry) : Prop :=
  e.1.1 ∈ legacyKeep /\ plain e.1.2 /\ plain e.2 /\ modifierRE (Trim e.2 [quote]) = false.

Lemma legacyKeep_facts `{Unicode} k :
  k ∈ legacyKeep ->
  plain k /\ ToUpper k = k /\ k <> [] /\
  (forall c, c ∈ str "#;[" -> head k <> Some c) /\
  (k ∉ [str "OR"; str "AND"; str "FINAL"]) /\ (k ∉ legacyDrop).
Proof.
  intros Hk.
  assert (Forall (fun k => forallb plain_byte k && is_ascii k && (map upper_byte k == k) && (k != []) &&
            match head k with Some c => negb (bool_decide (c ∈ str "#;[")) | None => false end &&
            negb (bool_decide (k ∈ [str "OR"; str "AND"; str "FINAL"])) && negb (bool_decide (k ∈ legacyDrop)) = true)
            legacyKeep) as HF by (repeat constructor).
  rewrite Forall_forall in HF. specialize (HF _ Hk). rewrite !andb_true_iff in HF.
  destruct HF as [[[[[[H1 H2] H3] H4] H5] H6] H7].
  apply bool_decide_eq_true in H3. apply negb_true_iff, bool_decide_eq_false in H4.
  apply negb_true_iff, bool_decide_eq_false in H6. apply negb_true_iff, bool_decide_eq_false in H7.
  repeat split; try done.
  - apply Forall_forall. intros c Hc%list_elem_of_In. by apply (proj1 (forallb_forall _ _) H1).
  - unfold ToUpper. by rewrite H2.
  - intros c Hc Hh. rewrite Hh in H5. apply negb_true_iff, bool_decide_eq_false in H5. done.
Qed.

(** ** One plain line through [ImportLegacy] *)
Section import_lemmas.
Context `{Unicode}.

Lemma Split_line3_head k rest : comma ∉ k -> head (Split (k ++ comma :: rest) comma) = Some k.
Proof. intros Hk. rewrite Split_app, Split_free_single by done. done. Qed.

Lemma HasPrefix_head s c : HasPrefix s [c] = true -> head s = Some c.
Proof. rewrite HasPrefix_spec. by intros [k ->]. Qed.

Lemma not_prefix_head s c : head s <> Some c -> HasPrefix s [c] = false.
Proof. intros Hh. apply not_true_iff_false. by intros ?%HasPrefix_head. Qed.

Lemma import_line_plain opts st e :
  plain_entry e -> import_line opts st (entry_line e) = emit opts e.1.1 e.1.2 e.2 st.
Proof.
  destruct e as [[k v] p]. intros (Hk & Hv & Hp & Hm). cbn [fst snd] in *. unfold entry_line. cbn [fst snd].
  destruct (legacyKeep_facts k Hk) as (Hkp & Hup & Hne & Hhd & Hnot & Hdrop).
  pose proof (plain_free _ Hkp) as [Hkc _].
  unfold import_line. rewrite TrimSpace_visible by by apply line3_visible.
  assert (head (line3 k v p) = head k) as Hh by (by destruct k).
  rewrite (bool_decide_eq_false_2 (line3 k v p = [])) by by destruct k.
  assert (forall c, c ∈ str "#;[" -> HasPrefix (line3 k v p) [c] = false) as Hpre.
  { intros c Hc. apply not_prefix_head. rewrite Hh. by apply Hhd. }
  change (str "#") with [Byte.x23]. change (str ";") with [Byte.x3b]. change (str "[") with [Byte.x5b].
  rewrite !Hpre by (vm_compute; repeat constructor). cbn [orb].
  assert (head (Split (line3 k v p) comma) = Some k) as -> by by apply Split_line3_head.
  cbn [default from_option id]. unfold id.
  rewrite TrimSpace_visible by by apply plain_visible. rewrite Hup.
  rewrite (bool_decide_eq_false_2 (k = str "OR")), (bool_decide_eq_false_2 (k = str "AND")),
    (bool_decide_eq_false_2 (k = str "FINAL")) by (intros ->; apply Hnot; set_solver). cbn [orb].
  rewrite csvSplit_line3 by done.
  rewrite (bool_decide_eq_false_2 (k ∈ legacyDrop)), (bool_decide_eq_true_2 (k ∈ legacyKeep)) by done.
  cbn [filter list_filter]. rewrite TrimSpace_visible by by apply plain_visible.
  rewrite decide_True by done. done.
Qed.

(** The kind [emit] writes. *)
Definition emitted_kind (k : bytes) : bytes := if k == str "IP-CIDR6" then str "IP-CIDR" else k.

Definition emitted (opts : ImportLegacyOptions) (e : entry) : bytes :=
  line3 (emitted_kind e.1.1) e.1.2 (catFn opts e.2).

Lemma import_plain_fold opts es st :
  Forall plain_entry es ->
  let st' := foldl (import_line opts) st (entry_line <$> es) in
  i_rules st' = i_rules st ++ (emitted opts <$> es) /\ i_final st' = i_final st /\
  i_dropped st' = i_dropped st /\ i_flattened st' = i_flattened st /\
  i_cats st' = list_to_set ((fun e => catFn opts e.2) <$> es) ∪ i_cats st.
Proof.
  revert st. induction es as [|e es IH]; intros st Hes; cbn zeta.
  - cbn. rewrite app_nil_r. repeat split; try done. set_solver.
  - apply Forall_cons in Hes as [He Hes]. cbn [fmap list_fmap foldl].
    destruct (IH (import_line opts st (entry_line e)) Hes) as (Hr & Hf & Hd & Ho & Hc).
    unfold fmap in *. rewrite Hr, Hf, Hd, Ho, Hc, import_line_plain by done.
    destruct (legacyKeep_facts _ (proj1 He)) as (_ & Hup & _).
    unfold emit. rewrite Hup. cbn. rewrite <- app_assoc. repeat split; try done. set_solver.
Qed.

Lemma plain_entry_line e : plain_entry e -> visible (entry_line e) /\ entry_line e <> [].
Proof.
  intros (Hk & Hv & Hp & _). destruct (legacyKeep_facts _ Hk) as (Hkp & _ & Hne & _).
  split; [by apply line3_visible|]. unfold entry_line, line3. by destruct (e.1.1).
Qed.

(** A text of plain lines is read line by line. *)
Lemma import_lines opts es :
  Forall plain_entry es ->
  foldl (import_line opts) import_init (Split (Join (entry_line <$> es) newline) newline) =
  foldl (import_line opts) import_init (entry_line <$> es).
Proof.
  intros Hes. destruct es as [|e es]; [done|]. rewrite Split_Join; [done|done|].
  apply Forall_fmap. eapply Forall_impl; [exact Hes|]. intros x Hx. apply visible_nonl, (plain_entry_line x Hx).
Qed.

Definition plain_report (opts : ImportLegacyOptions) (es : list entry) : ImportLegacyReport :=
  {| Converted := length es; Dropped := 0; OrFlattened := 0;
     Categories := stable_sort bytes_leb (elements (list_to_set ((fun e => catFn opts e.2) <$> es) : gset bytes));
     FinalPolicy := [] |}.

Lemma ImportLegacy_entries opts es :
  Forall plain_entry es ->
  ImportLegacy (Join (entry_line <$> es) newline) opts = (emitted opts <$> es, plain_report opts es).
Proof.
  intros Hes. unfold ImportLegacy. rewrite import_lines by done.
  destruct (import_plain_fold opts es import_init Hes) as (Hr & Hf & Hd & Ho & Hc).
  rewrite Hf. cbn [i_final import_init]. rewrite (bool_decide_eq_true_2 ([] = [])) by done. cbn [negb].
  rewrite Hr, Hd, Ho, Hc. cbn [i_rules i_cats i_dropped i_flattened import_init app].
  unfold plain_report. rewrite union_empty_r_L, length_fmap. done.
Qed.

(** ** Hosts of a gfwlist *)
Lemma hostRE_bytes s : hostRE s = true -> Forall (fun c => host_byte c = true \/ c = dot) s.
Proof.
  unfold hostRE. intros [_ Hl]%andb_true_iff. rewrite <- (Join_Split s dot) at 1.
  rewrite forallb_forall in Hl. induction (Split s dot) as [|w [|v ws] IH]; [constructor| |].
  - specialize (Hl w ltac:(by left)). apply andb_true_iff in Hl as [_ Hw]. cbn [Join].
    rewrite forallb_forall in Hw. apply Forall_forall. intros c Hc%list_elem_of_In. left. auto.
  - rewrite Join_cons by done. apply Forall_app; split; [|constructor; [by right|apply IH; intros x Hx; apply Hl; by right]].
    specialize (Hl w ltac:(by left)). apply andb_true_iff in Hl as [_ Hw].
    rewrite forallb_forall in Hw. apply Forall_forall. intros c Hc%list_elem_of_In. left. auto.
Qed.

Lemma host_byte_all : forallb (fun z => let c := zb z in
  negb (host_byte c || (c == dot)) || (plain_byte c && negb (bool_decide (c ∈ str "|/?#@:^*![")))) (seqZ 0 256) = true.
Proof. by vm_compute. Qed.

Lemma host_byte_safe c : host_byte c = true \/ c = dot -> plain_byte c = true /\ c ∉ str "|/?#@:^*![".
Proof.
  intros Hc. pose proof host_byte_all as HA. rewrite forallb_forall in HA.
  specialize (HA (bz c)). rewrite <- list_elem_of_In, elem_of_seqZ in HA. pose proof (bz_range c).
  specialize (HA ltac:(lia)). cbn zeta in HA. rewrite zb_bz in HA.
  assert (host_byte c || (c == dot) = true) as Hb.
  { destruct Hc as [-> | ->]; [done|]. rewrite (bool_decide_eq_true_2 (dot = dot)) by done. apply orb_true_r. }
  rewrite Hb in HA. cbn [negb orb] in HA. apply andb_true_iff in HA as [H1 H2].
  apply negb_true_iff, bool_decide_eq_false in H2. done.
Qed.

Lemma hostRE_plain s : hostRE s = true -> plain s.
Proof. intros Hh. eapply Forall_impl; [by apply hostRE_bytes|]. intros c Hc. by apply host_byte_safe. Qed.

Lemma hostRE_free s c : hostRE s = true -> c ∈ str "|/?#@:^*![" -> c ∉ s.
Proof.
  intros Hh Hc Hin. apply hostRE_bytes in Hh. rewrite Forall_forall in Hh.
  by destruct (host_byte_safe c (Hh c Hin)).
Qed.

Lemma hostRE_nonempty s : hostRE s = true -> s <> [].
Proof. by intros Hh ->. Qed.

Lemma Index_free s c : c ∉ s -> Index s [c] = None.
Proof.
  induction s as [|x s IH]; intros Hc; [done|]. cbn [Index].
  rewrite not_prefix_head by (cbn; intros [= ->]; apply Hc; by left).
  rewrite IH; [done|]. intros Hin. apply Hc. by right.
Qed.

Lemma Index_app s t c : c ∉ s -> Index (s ++ c :: t) [c] = Some (length s).
Proof.
  induction s as [|x s IH]; intros Hc.
  - cbn [app Index length]. destruct t; cbn [Index]; unfold HasPrefix; rewrite bool_decide_eq_true_2; try done;
      by eexists.
  - cbn [app Index length]. rewrite not_prefix_head by (cbn; intros [= ->]; apply Hc; by left).
    rewrite IH; [done|]. intros Hin. apply Hc. by right.
Qed.

Lemma IndexAny_app s t c cs : (forall x, x ∈ cs -> x ∉ s) -> c ∈ cs -> IndexAny (s ++ c :: t) cs = Some (length s).
Proof.
  intros Hs Hc. unfold IndexAny.
  rewrite (proj2 (list_find_Some _ _ (length s) c)); [done|]. repeat split; [|done|].
  - rewrite lookup_app_r, Nat.sub_diag by lia. done.
  - intros j y Hj Hlt. rewrite lookup_app_l in Hj by done. intros Hin. eapply Hs; [exact Hin|].
    by eapply list_elem_of_lookup_2.
Qed.

Lemma path_delims c : c ∈ str "/?#" -> c ∈ str "|/?#@:^*![".
Proof. intros Hc. apply (list_elem_of_In _ _) in Hc. cbn in Hc. destruct Hc as [<- | [<- | [<- | []]]]; elem. Qed.

(** What [hostFromBody] makes of a host, alone or followed by a path. *)
Lemma hostFromBody_host h : hostRE h = true -> hostFromBody h = h.
Proof.
  intros Hh. unfold hostFromBody. rewrite bool_decide_eq_false_2 by by apply hostRE_nonempty.
  rewrite (proj2 (IndexAny_None h (str "/?#"))) by (intros b Hb; apply hostRE_free; [done|by apply path_delims]).
  cbn [cut_after]. change (str "@") with [Byte.x40]. change (str ":") with [Byte.x3a].
  rewrite !Index_free by (apply hostRE_free; [done|elem]). cbn [cut_after].
  apply TrimSpace_visible, plain_visible, hostRE_plain, Hh.
Qed.

Lemma hostFromBody_path h c t : hostRE h = true -> c ∈ str "/?#" -> hostFromBody (h ++ c :: t) = h.
Proof.
  intros Hh Hc. rewrite <- (hostFromBody_host h Hh) at 2. unfold hostFromBody.
  rewrite (bool_decide_eq_false_2 (h ++ c :: t = [])) by by destruct h.
  rewrite (bool_decide_eq_false_2 (h = [])) by by apply hostRE_nonempty.
  rewrite (IndexAny_app h t c) by first [done | intros x Hx; apply hostRE_free; [done|by apply path_delims]].
  rewrite (proj2 (IndexAny_None h (str "/?#"))) by (intros b Hb; apply hostRE_free; [done|by apply path_delims]).
  cbn [cut_after]. by rewrite take_app_length.
Qed.

Lemma TrimSuffix_free s c : c ∉ s -> TrimSuffix s [c] = s.
Proof.
  intros Hc. unfold TrimSuffix. destruct (HasSuffix s [c]) eqn:E; [|done].
  apply HasSuffix_spec in E as [k ->]. exfalso. apply Hc. set_solver.
Qed.

Lemma trimGFWTail_host h : hostRE h = true -> trimGFWTail h = h.
Proof.
  intros Hh. unfold trimGFWTail. rewrite TrimSpace_visible by by apply plain_visible, hostRE_plain.
  change (str "^") with [Byte.x5e]. change (str "/") with [slash].
  rewrite (TrimSuffix_free h Byte.x5e), (TrimSuffix_free h slash) by (apply hostRE_free; [done|elem]). done.
Qed.

Lemma trimGFWTail_caret h : hostRE h = true -> trimGFWTail (h ++ str "^") = h.
Proof.
  intros Hh. unfold trimGFWTail.
  rewrite TrimSpace_visible by (apply visible_app; [by apply plain_visible, hostRE_plain|by repeat constructor]).
  rewrite TrimSuffix_app. change (str "/") with [slash].
  by rewrite TrimSuffix_free by (apply hostRE_free; [done|elem]).
Qed.

(** ** What a gfwlist line becomes *)
Lemma HasPrefix_cons a s b p : HasPrefix (a :: s) (b :: p) = (a == b) && HasPrefix s p.
Proof.
  apply eq_true_iff_eq. rewrite andb_true_iff, !HasPrefix_spec, bool_decide_eq_true. split.
  - intros [k [= -> ->]]. by eauto.
  - intros [-> [k ->]]. by exists k.
Qed.

Lemma HasPrefix_empty s : HasPrefix s [] = true.
Proof. apply HasPrefix_spec. by exists s. Qed.

(** Evaluate the prefix tests of a string with known first bytes. *)
Ltac lits := repeat match goal with |- context [str ?s] =>
  let v := eval vm_compute in (str s) in change (str s) with v end.
Ltac byte_tests := repeat match goal with |- context [@bool_decide (@eq byte ?a ?b) ?d] =>
  is_constructor a; is_constructor b;
  let v := eval vm_compute in (@bool_decide (@eq byte a b) d) in change (@bool_decide (@eq byte a b) d) with v end.
Ltac prefixes := lits; cbn [app]; rewrite ?HasPrefix_cons, ?HasPrefix_empty; byte_tests; cbn [andb orb].

Definition gfw_kinds : list bytes := [KindDomain; KindDomainSuffix; KindDomainKeyword].
Definition gfw_policies : list bytes := [gfwlistPolicyPROXY; gfwlistPolicyDIRECT].

Lemma gfw_body_shape line k v : gfw_body line = Some (k, v) -> k ∈ gfw_kinds /\ hostRE v = true.
Proof.
  unfold gfw_body, gfw_kinds. intros Hb.
  repeat match type of Hb with
  | (if ?b then _ else _) = _ => destruct b eqn:?
  | _ => progress cbn zeta in Hb
  end; try done; injection Hb as <- <-; (split; [elem|]);
  try (by eauto); by match goal with Hx : _ && hostRE _ = true |- _ => apply andb_true_iff in Hx as [_ ?] end.
Qed.

Lemma gfw_line_shape raw k v p :
  gfw_line raw = Some (k, v, p) -> k ∈ gfw_kinds /\ hostRE v = true /\ p ∈ gfw_policies.
Proof.
  unfold gfw_line, gfw_policies. intros Hl. repeat (case_match; try done);
    match goal with Hb : gfw_body _ = Some _ |- _ => apply gfw_body_shape in Hb as [? ?] end;
    injection Hl as -> -> ->; simplify_eq; repeat split; try done;
    repeat (case_match; simplify_eq); set_solver.
Qed.

Definition gfw_entry (e : entry) : Prop := e.1.1 ∈ gfw_kinds /\ hostRE e.1.2 = true /\ e.2 ∈ gfw_policies.

Lemma gfw_entry_plain e : gfw_entry e -> plain_entry e.
Proof.
  destruct e as [[k v] p]. intros (Hk & Hv & Hp). cbn [fst snd] in *. split; [|split; [by apply hostRE_plain|]].
  - cbn [fst]. assert (forall x, x ∈ gfw_kinds -> x ∈ legacyKeep) as HS; [|auto].
    intros x Hx. apply (bool_decide_eq_true_1 _).
    assert (forallb (fun x => bool_decide (x ∈ legacyKeep)) gfw_kinds = true) as HF by by vm_compute.
    rewrite forallb_forall in HF. apply HF. by apply list_elem_of_In.
  - cbn [snd]. assert (forallb (fun p => forallb plain_byte p && negb (modifierRE (Trim p [quote]))) gfw_policies = true)
      as HF by by vm_compute.
    rewrite forallb_forall in HF. apply list_elem_of_In in Hp. apply HF, andb_true_iff in Hp as [Hp1 Hp2].
    apply negb_true_iff in Hp2. split; [|done]. apply Forall_forall. intros c Hc%list_elem_of_In.
    rewrite forallb_forall in Hp1. auto.
Qed.

(** The key of [push], and that it tells entries apart. *)
Definition gfw_key (e : entry) : bytes := e.1.1 ++ pipe :: e.1.2 ++ pipe :: e.2.

Lemma gfw_entry_nopipe e : gfw_entry e -> (pipe ∉ e.1.1) /\ (pipe ∉ e.1.2) /\ (pipe ∉ e.2).
Proof.
  intros (Hk & Hv & Hp).
  assert (forallb (fun s => negb (bool_decide (pipe ∈ s))) (gfw_kinds ++ gfw_policies) = true) as HF by by vm_compute.
  rewrite forallb_forall in HF. repeat split.
  - specialize (HF e.1.1). rewrite <- list_elem_of_In in HF. specialize (HF ltac:(set_solver)).
    by apply negb_true_iff, bool_decide_eq_false in HF.
  - apply hostRE_free; [done|elem].
  - specialize (HF e.2). rewrite <- list_elem_of_In in HF. specialize (HF ltac:(set_solver)).
    by apply negb_true_iff, bool_decide_eq_false in HF.
Qed.

Lemma gfw_key_inj e f : gfw_entry e -> gfw_entry f -> gfw_key e = gfw_key f -> e = f.
Proof.
  intros He Hf Hk. destruct (gfw_entry_nopipe e He) as (E1 & E2 & E3), (gfw_entry_nopipe f Hf) as (F1 & F2 & F3).
  assert (forall e : entry, pipe ∉ e.1.1 -> pipe ∉ e.1.2 -> pipe ∉ e.2 -> Split (gfw_key e) pipe = [e.1.1; e.1.2; e.2]) as HS.
  { intros x X1 X2 X3. unfold gfw_key. rewrite !Split_app, !Split_free_single by done. done. }
  assert (Split (gfw_key e) pipe = Split (gfw_key f) pipe) as HE by by rewrite Hk.
  rewrite !HS in HE by done. destruct e as [[? ?] ?], f as [[? ?] ?]. cbn in HE. by simplify_eq.
Qed.

(** A list without its repetitions, in the order of first appearance. *)
Definition firsts {A} `{EqDecision A} (l : list A) : list A :=
  foldl (fun acc e => if bool_decide (e ∈ acc) then acc else acc ++ [e]) [] l.

Lemma firsts_snoc {A} `{EqDecision A} (l : list A) e :
  firsts (l ++ [e]) = if bool_decide (e ∈ firsts l) then firsts l else firsts l ++ [e].
Proof. unfold firsts. by rewrite foldl_app. Qed.

Lemma firsts_elem {A} `{EqDecision A} (l : list A) e : e ∈ firsts l -> e ∈ l.
Proof.
  induction l as [|x l IH] using rev_ind; [done|]. rewrite firsts_snoc, elem_of_app. case_bool_decide; [tauto|].
  rewrite elem_of_app. tauto.
Qed.

Lemma firsts_complete {A} `{EqDecision A} (l : list A) e : e ∈ l -> e ∈ firsts l.
Proof.
  induction l as [|x l IH] using rev_ind; [done|]. rewrite firsts_snoc, elem_of_app, list_elem_of_singleton.
  case_bool_decide; [naive_solver|]. rewrite elem_of_app, list_elem_of_singleton. tauto.
Qed.

Lemma firsts_nonempty {A} `{EqDecision A} (l : list A) : l <> [] -> firsts l <> [].
Proof. destruct l as [|x l]; [done|]. intros _ E. apply (elem_of_nil x). rewrite <- E. apply firsts_complete. by left. Qed.

Lemma firsts_length {A} `{EqDecision A} (l : list A) : (length (firsts l) <= length l)%nat.
Proof.
  induction l as [|x l IH] using rev_ind; [done|]. rewrite firsts_snoc, length_app. case_bool_decide; [lia|].
  rewrite length_app. cbn. lia.
Qed.

Lemma firsts_fmap {A B} `{EqDecision A} `{EqDecision B} (f : A -> B) (l : list A) :
  Inj (=) (=) f -> firsts (f <$> l) = f <$> firsts l.
Proof.
  intros Hf. induction l as [|x l IH] using rev_ind; [done|]. rewrite fmap_app. cbn [fmap list_fmap].
  rewrite !firsts_snoc, IH. destruct (decide (x ∈ firsts l)) as [Hx|Hx].
  - rewrite !bool_decide_eq_true_2; [done|done|]. apply list_elem_of_fmap. eauto.
  - rewrite !bool_decide_eq_false_2; [by rewrite fmap_app|done|]. intros (y & E & Hy)%list_elem_of_fmap. apply Hx. by apply Hf in E as ->.
Qed.

Lemma length_omap_le {A B} (f : A -> option B) (l : list A) : (length (omap f l) <= length l)%nat.
Proof. induction l as [|x l IH]; [done|]. cbn. destruct (f x); cbn; lia. Qed.

Lemma push_fold lines : exists es,
  foldl (fun acc raw => push acc (gfw_line raw)) (∅, []) lines = (list_to_set (gfw_key <$> es), entry_line <$> es) /\
  NoDup es /\ (forall e, e ∈ es <-> exists raw, raw ∈ lines /\ gfw_line raw = Some e) /\ es = firsts (omap gfw_line lines).
Proof.
  induction lines as [|raw lines IH] using rev_ind.
  { exists []. split; [done|]. split; [constructor|]. set_solver. }
  destruct IH as (es & Hf & Hnd & Hes & HF). rewrite foldl_app. cbn [foldl]. rewrite Hf, omap_app. cbn [omap list_omap].
  assert (Forall gfw_entry es) as HG.
  { apply Forall_forall. intros [[k v] p] (x & _ & Hx)%Hes. by apply gfw_line_shape in Hx. }
  assert (forall e, (exists x, x ∈ lines ++ [raw] /\ gfw_line x = Some e) <-> e ∈ es \/ gfw_line raw = Some e) as Hsnoc.
  { intros e. rewrite Hes. set_solver. }
  destruct (gfw_line raw) as [[[k v] p]|] eqn:Hl; cbn [push].
  2: { exists es. rewrite app_nil_r. repeat split; try done; rewrite Hsnoc; naive_solver. }
  rewrite firsts_snoc, <- HF.
  pose proof (gfw_line_shape _ _ _ _ Hl) as Hsh. cbn [fst snd].
  rewrite bool_decide_eq_false_2 by (apply hostRE_nonempty, Hsh).
  change (k ++ pipe :: v ++ pipe :: p) with (gfw_key (k, v, p)). case_bool_decide as Hin.
  - apply elem_of_list_to_set, list_elem_of_fmap in Hin as (e & He & Hin).
    assert ((k, v, p) = e) as <-.
    { apply gfw_key_inj; [done| |done]. by eapply Forall_forall. }
    exists es. rewrite bool_decide_eq_true_2 by done. repeat split; try done; rewrite Hsnoc; naive_solver.
  - assert ((k, v, p) ∉ es) as Hnin by (intros Hc; apply Hin, elem_of_list_to_set, list_elem_of_fmap; eauto).
    exists (es ++ [(k, v, p)]). rewrite bool_decide_eq_false_2 by done. split; [|split; [|split; [|done]]].
    + rewrite !fmap_app, list_to_set_app_L. f_equal. cbn. set_solver.
    + apply NoDup_app; repeat split; [done| |by apply NoDup_singleton].
      by intros e He ->%list_elem_of_singleton.
    + intros e. rewrite Hsnoc, elem_of_app, list_elem_of_singleton. naive_solver.
Qed.

(** ** Detecting the base64 form *)
Lemma rune_width_wide s n c : rune_width s = S (S n) -> c ∈ take (S (S n)) s -> (128 <= bz c)%Z.
Proof.
  assert (forall x, cont x = true -> (128 <= bz x)%Z) as HC by (intros x; unfold cont, in_range; lia).
  destruct s as [|a [|b [|c' [|d s]]]]; cbn [rune_width]; intros Hw Hin;
    repeat (case_match; try done); simplify_eq; cbn [take] in Hin;
    repeat match goal with Hx : _ && _ = true |- _ => apply andb_true_iff in Hx as [? ?] end;
    unfold in_range in *; rewrite !elem_of_cons in Hin; rewrite ?elem_of_nil in Hin;
    repeat destruct Hin as [-> | Hin]; try done; try (by apply HC); unfold cont, in_range in *; lia.
Qed.

Lemma runes_loop_elem fuel s c :
  (length s <= fuel)%nat -> (bz c < 128)%Z -> c ∈ s -> [c] ∈ runes_loop fuel s.
Proof.
  revert s. induction fuel as [|fuel IH]; intros s Hl Hc Hin; destruct s as [|a s]; try (by apply elem_of_nil in Hin);
    [cbn in Hl; lia|].
  cbn [runes_loop]. destruct (rune_width (a :: s)) as [|[|n]] eqn:Hw.
  - apply elem_of_cons in Hin as [-> | Hin].
    + cbn [rune_width] in Hw. by rewrite (proj2 (Z.ltb_lt _ _) Hc) in Hw.
    + right. apply IH; try done. cbn in Hl. lia.
  - cbn [take drop]. apply elem_of_cons in Hin as [-> | Hin]; [by left|]. right. rewrite drop_0. apply IH; try done. cbn in Hl. lia.
  - right. rewrite <- (take_drop (S (S n)) (a :: s)) in Hin. apply elem_of_app in Hin as [Hin|Hin].
    + pose proof (rune_width_wide _ _ _ Hw Hin). lia.
    + apply IH; try done. rewrite length_drop. cbn in *. lia.
Qed.

Lemma runes_elem s c : (bz c < 128)%Z -> c ∈ s -> [c] ∈ runes s.
Proof. intros. by apply runes_loop_elem. Qed.

Definition gfw_marks : bytes := str "[|@".

Lemma gfw_marks_facts c : c ∈ gfw_marks -> (bz c < 128)%Z /\ ([c] ∉ space_runes) /\ isBase64Char [c] = false.
Proof.
  intros Hc. assert (forallb (fun c => (bz c <? 128)%Z && negb (bool_decide ([c] ∈ space_runes)) && negb (isBase64Char [c]))
    gfw_marks = true) as HF by by vm_compute.
  rewrite forallb_forall in HF. apply list_elem_of_In, HF in Hc. rewrite !andb_true_iff in Hc.
  destruct Hc as [[H1 H2] H3]. apply negb_true_iff, bool_decide_eq_false in H2. apply negb_true_iff in H3.
  split; [lia|done].
Qed.

Lemma Split_elem s c x w : w ∈ Split s c -> x ∈ w -> x ∈ s.
Proof.
  revert w. induction s as [|b s IH]; intros w Hw Hx; [cbn in Hw; apply list_elem_of_singleton in Hw; by subst|].
  cbn [Split] in Hw. case_bool_decide.
  - apply elem_of_cons in Hw as [-> | Hw]; [by apply elem_of_nil in Hx|]. right. eauto.
  - destruct (Split s c) as [|v vs] eqn:E; [by apply Split_nonempty in E|].
    apply elem_of_cons in Hw as [-> | Hw].
    + apply elem_of_cons in Hx as [-> | Hx]; [by left|]. right. apply (IH v); [by left|done].
    + right. apply (IH w); [by right|done].
Qed.

Lemma gfw_hits_mark lines p c :
  gfw_hits lines p c = true ->
  (3 <= p)%nat \/ exists line m, line ∈ lines /\ m ∈ gfw_marks /\ m ∈ line.
Proof.
  revert p c. induction lines as [|raw lines IH]; intros p c Hh; cbn [gfw_hits] in Hh.
  { apply andb_true_iff in Hh as [Hp _]. apply Nat.leb_le in Hp. by left. }
  assert (forall p' c', gfw_hits lines p' c' = true -> (3 <= p')%nat \/
    exists line m, line ∈ raw :: lines /\ m ∈ gfw_marks /\ m ∈ line) as IH'.
  { intros p' c' [|(l & m & Hl & Hm)]%IH; [by left|right]. exists l, m. split; [by right|done]. }
  destruct (_ || _) in Hh; [by eapply IH'|].
  destruct (HasPrefix _ (str "||") || _ || _) eqn:Hpre.
  - right. assert (exists m, m ∈ gfw_marks /\ head (TrimSpace raw) = Some m) as (m & Hm & Hhd).
    { rewrite !orb_true_iff in Hpre. destruct Hpre as [[Hx|Hx]|Hx]; apply HasPrefix_spec in Hx as [k ->];
        [exists pipe|exists pipe|exists Byte.x40]; (split; [elem|done]). }
    exists raw, m. split; [by left|]. split; [done|]. apply TrimSpace_elem.
    destruct (TrimSpace raw); [done|]. injection Hhd as ->. by left.
  - destruct ((3 <=? p)%nat && _) eqn:H3; [|by eapply IH'].
    apply andb_true_iff in H3 as [H3 _]. apply Nat.leb_le in H3. by left.
Qed.

Lemma looksLike_mark body : looksLikeGFWList body = true -> exists m, m ∈ gfw_marks /\ m ∈ body.
Proof.
  intros [Hc|Hh]%orb_true_iff.
  - apply Contains_spec in Hc as (a & c & ->). exists Byte.x5b. split; [elem|].
    apply elem_of_app; right. by left.
  - apply gfw_hits_mark in Hh as [?|(l & m & Hl & Hm & Hin)]; [lia|]. exists m. split; [done|]. by eapply Split_elem.
Qed.

Lemma strip_elem s c : (bz c < 128)%Z -> [c] ∉ space_runes -> c ∈ s -> c ∈ stripAllWhitespace s.
Proof.
  intros Hc Hs Hin. unfold stripAllWhitespace. apply list_elem_of_In, in_concat. exists [c].
  rewrite <- !list_elem_of_In. split; [|by left]. apply list_elem_of_filter. split; [done|by apply runes_elem].
Qed.

(** A list that is not encoded is not taken for an encoded one. *)
Lemma decode_plain body : looksLikeGFWList body = true -> decodeIfBase64GFWList body = None.
Proof.
  intros (m & Hm & Hin)%looksLike_mark. destruct (gfw_marks_facts m Hm) as (Ha & Hs & Hb).
  unfold decodeIfBase64GFWList. case_match; [done|].
  assert (forallb isBase64Char (runes (stripAllWhitespace body)) = false) as ->; [|done].
  apply not_true_iff_false. rewrite forallb_forall. intros HF. specialize (HF [m]).
  rewrite Hb in HF. discriminate HF. apply list_elem_of_In, runes_elem; [done|]. by apply strip_elem.
Qed.

Lemma isBase64Char_all : forallb (fun z => let c := zb z in
  negb (b64_byte true c || b64_byte false c) || (isBase64Char [c] && (bz c <? 128)%Z)) (seqZ 0 256) = true.
Proof. by vm_compute. Qed.

Lemma isBase64Char_byte url c : b64_byte url c = true -> isBase64Char [c] = true /\ (bz c < 128)%Z.
Proof.
  intros Hc. pose proof isBase64Char_all as HA. rewrite forallb_forall in HA. specialize (HA (bz c)).
  rewrite <- list_elem_of_In, elem_of_seqZ in HA. pose proof (bz_range c). specialize (HA ltac:(lia)).
  cbn zeta in HA. rewrite zb_bz in HA.
  assert (b64_byte true c || b64_byte false c = true) as HU by (destruct url; rewrite Hc; [done|apply orb_true_r]).
  rewrite HU in HA. cbn [negb orb] in HA. apply andb_true_iff in HA as [-> HA]. split; [done|lia].
Qed.

(** The encoded form, wrapped in white space of any kind. *)
Lemma decode_encoded url w body :
  looksLikeGFWList body = true -> stripAllWhitespace w = b64_encode url body ->
  (32 <= len (b64_encode url body))%Z -> decodeIfBase64GFWList w = Some body.
Proof.
  intros Hl Hs Hlen. unfold decodeIfBase64GFWList. rewrite Hs. rewrite (proj2 (Z.ltb_ge _ _) Hlen).
  pose proof (b64_encode_bytes url body) as HE.
  rewrite runes_ascii.
  2: { apply forallb_forall. intros c Hc%list_elem_of_In. rewrite Forall_forall in HE.
       destruct (isBase64Char_byte url c (HE c Hc)). lia. }
  assert (forallb isBase64Char ((fun c => [c]) <$> b64_encode url body) = true) as ->.
  { apply forallb_forall. intros r Hr%list_elem_of_In. apply list_elem_of_fmap in Hr as (c & -> & Hc).
    rewrite Forall_forall in HE. by destruct (isBase64Char_byte url c (HE c Hc)). }
  cbn [negb]. rewrite b64_encode_length. cbn [Z.eqb]. rewrite b64_decode_either, Hl. done.
Qed.

(** ** The documented syntax *)
Lemma hostRE_head s : hostRE s = true -> exists c t, s = c :: t /\ c <> dot /\ host_byte c = true.
Proof.
  intros Hh. destruct s as [|c t]; [done|]. exists c, t. split; [done|].
  pose proof Hh as HL. unfold hostRE in HL. apply andb_true_iff in HL as [_ HL]. cbn [Split] in HL.
  case_bool_decide as Hc; [done|]. split; [done|].
  pose proof (hostRE_bytes _ Hh) as HB. apply Forall_cons in HB as [[Hb|Hb] _]; done.
Qed.

Lemma gfw_line_proxy line c :
  visible line -> head line = Some c -> c ∉ str "![@" ->
  gfw_line line = (fun kv => (kv.1, kv.2, gfwlistPolicyPROXY)) <$> gfw_body line.
Proof.
  intros Hv Hd Hh. unfold gfw_line. rewrite TrimSpace_visible by done.
  destruct line as [|x line]; [done|]. injection Hd as ->. rewrite (bool_decide_eq_false_2 (c :: line = [])) by done.
  lits. rewrite !HasPrefix_cons.
  rewrite !(bool_decide_eq_false_2 (c = _)) by (intros ->; apply Hh; elem). cbn [andb orb].
  by destruct (gfw_body (c :: line)) as [[k v]|].
Qed.

Lemma gfw_proxied c line kv :
  visible line -> head line = Some c -> c ∉ str "![@" -> gfw_body line = Some kv ->
  gfw_line line = Some (kv.1, kv.2, gfwlistPolicyPROXY).
Proof. intros Hv Hh Hc Hb. by rewrite (gfw_line_proxy line c), Hb. Qed.

Lemma gfw_line_direct line :
  visible line -> gfw_line (str "@@" ++ line) = (fun kv => (kv.1, kv.2, gfwlistPolicyDIRECT)) <$> gfw_body line.
Proof.
  intros Hv. unfold gfw_line. rewrite TrimSpace_visible.
  2: { apply visible_app; [vm_compute; repeat constructor|done]. }
  rewrite (bool_decide_eq_false_2 (str "@@" ++ line = [])) by done.
  rewrite TrimPrefix_app. prefixes. by destruct (gfw_body line) as [[k v]|].
Qed.

Lemma TrimSuffix_path h path p :
  hostRE h = true -> length p = 1%nat -> p <> [slash] -> exists path', TrimSuffix (h ++ slash :: path) p = h ++ slash :: path'.
Proof.
  intros Hh Hl Hp. destruct p as [|b [|]]; try done.
  unfold TrimSuffix. destruct (HasSuffix _ _) eqn:E; [|by eexists].
  apply HasSuffix_spec in E as [k E]. destruct path as [|x path _] using rev_ind.
  - apply app_inj_2 in E as [_ E]; [by injection E as <-|done].
  - exists path. rewrite !length_app. cbn [length]. rewrite length_app. cbn [length].
    replace (length h + S (length path + 1) - 1)%nat with (length (h ++ slash :: path)) by (rewrite length_app; cbn; lia).
    replace (h ++ slash :: path ++ [x]) with ((h ++ slash :: path) ++ [x]) by (by rewrite <- app_assoc).
    by rewrite take_app_length.
Qed.

Lemma trim_path h path : hostRE h = true -> visible path -> hostFromBody (trimGFWTail (h ++ slash :: path)) = h.
Proof.
  intros Hh Hp. unfold trimGFWTail.
  rewrite TrimSpace_visible by (apply visible_app; [by apply plain_visible, hostRE_plain|by constructor]).
  destruct (TrimSuffix_path h path (str "^") Hh ltac:(done) ltac:(done)) as [path' ->].
  unfold TrimSuffix. destruct (HasSuffix _ _) eqn:E; [|by apply hostFromBody_path; [|elem]].
  change (length (str "/")) with 1%nat.
  destruct path' as [|x path'' _] using rev_ind.
  - rewrite length_app. cbn [length]. replace (length h + 1 - 1)%nat with (length h) by lia.
    rewrite take_app_length. by apply hostFromBody_host.
  - rewrite !length_app. cbn [length]. rewrite length_app. cbn [length].
    replace (length h + S (length path'' + 1) - 1)%nat with (length (h ++ slash :: path'')) by (rewrite length_app; cbn; lia).
    replace (h ++ slash :: path'' ++ [x]) with ((h ++ slash :: path'') ++ [x]) by (by rewrite <- app_assoc).
    rewrite take_app_length. apply hostFromBody_path; [done|elem].
Qed.

Lemma gfw_anchored h rest :
  hostRE h = true -> hostFromBody (trimGFWTail (h ++ rest)) = h ->
  gfw_body (str "||" ++ h ++ rest) = Some (KindDomainSuffix, h).
Proof.
  intros Hh Hr. unfold gfw_body. rewrite TrimPrefix_app, Hr, Hh.
  rewrite (bool_decide_eq_false_2 (h = [])) by by apply hostRE_nonempty. by prefixes.
Qed.

Lemma gfw_scheme (https : bool) h path :
  hostRE h = true ->
  gfw_body (str (if https then "|https://" else "|http://") ++ h ++ slash :: path) = Some (KindDomain, h).
Proof.
  intros Hh. unfold gfw_body. destruct https.
  - change (str "|https://") with ([pipe] ++ str "https://"). rewrite <- app_assoc, TrimPrefix_app.
    prefixes. cbn [Index]. prefixes. cbn [fmap option_fmap option_map Nat.add drop].
    rewrite drop_0, (hostFromBody_path h) by (try done; elem). rewrite Hh.
    by rewrite (bool_decide_eq_false_2 (h = [])) by by apply hostRE_nonempty.
  - change (str "|http://") with ([pipe] ++ str "http://"). rewrite <- app_assoc, TrimPrefix_app.
    prefixes. cbn [Index]. prefixes. cbn [fmap option_fmap option_map Nat.add drop].
    rewrite drop_0, (hostFromBody_path h) by (try done; elem). rewrite Hh.
    by rewrite (bool_decide_eq_false_2 (h = [])) by by apply hostRE_nonempty.
Qed.

Lemma gfw_suffix (star : bool) h :
  hostRE h = true -> gfw_body (str (if star then "*." else ".") ++ h) = Some (KindDomainSuffix, h).
Proof.
  intros Hh. unfold gfw_body. destruct star; rewrite TrimPrefix_app, (trimGFWTail_host h Hh), Hh; by prefixes.
Qed.

Lemma gfw_bare h : hostRE h = true -> gfw_body h = Some (KindDomainKeyword, h).
Proof.
  intros Hh. destruct (hostRE_head h Hh) as (c & t & Heq & Hd & Hb). unfold gfw_body.
  rewrite (trimGFWTail_host h Hh), (hostFromBody_host h Hh), Hh.
  rewrite (bool_decide_eq_false_2 (h = [])) by by apply hostRE_nonempty.
  assert (forall b, b ∈ str "/|*." -> HasPrefix h [b] = false) as Hno.
  { intros b Hin. apply not_prefix_head. rewrite Heq. cbn. intros [= ->]. cbn in Hin.
    rewrite !elem_of_cons in Hin. repeat destruct Hin as [-> | Hin]; try done. by apply elem_of_nil in Hin. }
  rewrite Heq in Hno |- *. lits. rewrite !HasPrefix_cons.
  assert (forall b, b ∈ str "/|*." -> (c == b) = false) as Hc.
  { intros b Hin. specialize (Hno b Hin). rewrite HasPrefix_cons, HasPrefix_empty, andb_true_r in Hno. done. }
  rewrite !Hc by elem. done.
Qed.

Lemma gfw_regex re : re <> [] -> gfw_body ([slash] ++ re ++ [slash]) = None.
Proof.
  intros Hre. unfold gfw_body.
  assert (HasPrefix ([slash] ++ re ++ [slash]) [slash] = true) as -> by (apply HasPrefix_spec; by eexists).
  assert (HasSuffix ([slash] ++ re ++ [slash]) [slash] = true) as ->.
  { apply HasSuffix_spec. exists ([slash] ++ re). by rewrite app_assoc. }
  destruct re as [|x re]; [done|].
  assert ((2 <? len ([slash] ++ (x :: re) ++ [slash]))%Z = true) as ->; [|done].
  rewrite !len_app, !len_cons, len_nil. pose proof (len_nonneg re). lia.
Qed.
(** ** AutoProxy lists, as their authors write them *)
Inductive shape :=
| Anchored (caret : bool) (host : bytes)   (* ||host and ||host^ *)
| AnchoredPath (host path : bytes)    (* ||host/path *)
| Schemed (https : bool) (host path : bytes)   (* |http://host/path *)
| Dotted (star : bool) (host : bytes)   (* .host and *.host *)
| Bare (host : bytes)
| Regex (re : bytes).                 (* /re/ *)
Inductive gfw_item := Listed (exception : bool) (s : shape) | Comment (text : bytes) | Header (text : bytes) | Blank.

Definition written_shape (s : shape) : bytes :=
  match s with
  | Anchored caret h => str "||" ++ h ++ (if caret then str "^" else [])
  | AnchoredPath h path => str "||" ++ h ++ slash :: path
  | Schemed https h path => str (if https then "|https://" else "|http://") ++ h ++ slash :: path
  | Dotted star h => str (if star then "*." else ".") ++ h
  | Bare h => h
  | Regex re => [slash] ++ re ++ [slash]
  end.
Definition written (e : gfw_item) : bytes :=
  match e with
  | Listed x s => (if x then str "@@" else []) ++ written_shape s
  | Comment t => str "!" ++ t
  | Header t => str "[" ++ t
  | Blank => []
  end.

(** What an item asks for: a kind of match and a host. *)
Definition meant_shape (s : shape) : option (bytes * bytes) :=
  match s with
  | Anchored _ h | AnchoredPath h _ | Dotted _ h => Some (KindDomainSuffix, h)
  | Schemed _ h _ => Some (KindDomain, h)
  | Bare h => Some (KindDomainKeyword, h)
  | Regex _ => None
  end.
Definition meant (e : gfw_item) : option (bool * bytes * bytes) :=
  match e with Listed x s => (fun kh => (x, kh.1, kh.2)) <$> meant_shape s | _ => None end.

(** Hosts are host names, paths and expressions visible text, comments and
    headers one line without white space at its ends. *)
Definition shape_ok (s : shape) : Prop :=
  match s with
  | Anchored _ h | Dotted _ h | Bare h => hostRE h = true
  | AnchoredPath h path | Schemed _ h path => hostRE h = true /\ visible path
  | Regex re => visible re /\ re <> []
  end.
Definition item_ok (e : gfw_item) : Prop :=
  match e with
  | Listed _ s => shape_ok s
  | Comment t | Header t => TrimSpace (written e) = written e /\ newline ∉ t
  | Blank => True
  end.

Definition list_text (es : list gfw_item) : bytes := Join (written <$> es) newline.

Lemma visible_lit (s : bytes) : forallb visible_byte s = true -> visible s.
Proof. intros Hs. apply Forall_forall. intros c Hc%list_elem_of_In. by apply (proj1 (forallb_forall _ _) Hs). Qed.

Lemma visible_one_line s : visible s -> newline ∉ s.
Proof. intros Hv Hin. unfold visible in Hv. rewrite Forall_forall in Hv. by specialize (Hv _ Hin). Qed.

Lemma written_visible s : shape_ok s -> visible (written_shape s).
Proof.
  assert (forall h, hostRE h = true -> visible h) as Hh by (intros h ?; by apply plain_visible, hostRE_plain).
  assert (forall p, visible p -> visible (slash :: p)) as Hsl by (intros p Hp; by constructor).
  destruct s as [caret h|h path|https h path|star h|h|re]; cbn [shape_ok written_shape].
  - intros HS. apply visible_app; [by apply visible_lit|]. apply visible_app; [auto|by destruct caret; apply visible_lit].
  - intros [HS Hp]. apply visible_app; [by apply visible_lit|]. apply visible_app; auto.
  - intros [HS Hp]. apply visible_app; [by destruct https; apply visible_lit|]. apply visible_app; auto.
  - intros HS. apply visible_app; [by destruct star; apply visible_lit|auto].
  - auto.
  - intros [HS _]. apply visible_app; [by apply visible_lit|]. apply visible_app; [done|by apply visible_lit].
Qed.

Lemma written_body s : shape_ok s -> gfw_body (written_shape s) = meant_shape s.
Proof.
  destruct s as [caret h|h path|https h path|star h|h|re]; cbn [shape_ok written_shape meant_shape].
  - intros Hh. apply gfw_anchored; [done|]. destruct caret; [by rewrite trimGFWTail_caret, hostFromBody_host|].
    by rewrite app_nil_r, trimGFWTail_host, hostFromBody_host.
  - intros [Hh Hp]. apply gfw_anchored; [done|]. by apply trim_path.
  - intros [Hh _]. by apply gfw_scheme.
  - by apply gfw_suffix.
  - by apply gfw_bare.
  - intros [_ Hre]. by apply gfw_regex.
Qed.

Lemma written_head s : shape_ok s -> exists c, head (written_shape s) = Some c /\ c ∉ str "![@".
Proof.
  assert (forall h, hostRE h = true -> exists c, head h = Some c /\ c ∉ str "![@") as HB.
  { intros h Hh. destruct (hostRE_head h Hh) as (c & t & Heq & _). exists c. rewrite Heq. split; [done|].
    intros Hin. apply (hostRE_free h c Hh); [|rewrite Heq; by left].
    apply list_elem_of_In in Hin. cbn in Hin. destruct Hin as [<- | [<- | [<- | []]]]; elem. }
  destruct s as [caret h|h path|[] h path|[] h|h|re]; cbn [shape_ok written_shape]; intros HS;
    try (eexists; split; [reflexivity|elem]). by apply HB.
Qed.

(** The importer reads an item as it is meant. *)
Lemma written_line e : item_ok e ->
  gfw_line (written e) = (fun m => (m.1.2, m.2, if m.1.1 : bool then str "direct" else str "Proxy")) <$> meant e.
Proof.
  destruct e as [x s|t|t|]; cbn [item_ok].
  - intros HS. pose proof (written_visible s HS) as Hv. cbn [written meant]. rewrite <- (written_body s HS). destruct x.
    + rewrite gfw_line_direct by done. by destruct (gfw_body _) as [[k h]|].
    + destruct (written_head s HS) as (c & Hc & Hn). cbn [app]. rewrite (gfw_line_proxy _ c) by done. by destruct (gfw_body _) as [[k h]|].
  - intros [HT _]. unfold gfw_line. rewrite HT. cbn [written meant]. rewrite (bool_decide_eq_false_2 _) by done. by prefixes.
  - intros [HT _]. unfold gfw_line. rewrite HT. cbn [written meant]. rewrite (bool_decide_eq_false_2 _) by done. by prefixes.
  - intros _. by vm_compute.
Qed.

Lemma written_free e : item_ok e -> newline ∉ written e.
Proof.
  destruct e as [x s|t|t|]; cbn [item_ok written].
  - intros HS. apply visible_one_line, visible_app; [|by apply written_visible]. destruct x; [by apply visible_lit|constructor].
  - intros [_ Hn]. rewrite elem_of_app. intros [Hin|]; [|done]. revert Hin. apply (bool_decide_eq_true_1 _). by vm_compute.
  - intros [_ Hn]. rewrite elem_of_app. intros [Hin|]; [|done]. revert Hin. apply (bool_decide_eq_true_1 _). by vm_compute.
  - intros _. apply not_elem_of_nil.
Qed.

Lemma list_text_lines es : es <> [] -> Forall item_ok es -> Split (list_text es) newline = written <$> es.
Proof.
  intros Hn HF. unfold list_text. apply Split_Join; [by destruct es|]. apply Forall_fmap. eapply Forall_impl; [exact HF|].
  intros e He. by apply written_free.
Qed.

Lemma list_text_read es : es <> [] -> Forall item_ok es ->
  omap gfw_line (Split (list_text es) newline) = (fun m => (m.1.2, m.2, if m.1.1 : bool then str "direct" else str "Proxy")) <$> omap meant es.
Proof.
  intros Hn HF. rewrite list_text_lines by done. clear Hn. induction HF as [|e es He HF IH]; [done|].
  cbn [fmap list_fmap omap list_omap]. rewrite (written_line e He), IH. by destruct (meant e).
Qed.

Lemma Join_holds ws w c : w ∈ ws -> exists a b, Join ws c = a ++ w ++ b.
Proof.
  induction ws as [|v ws IH]; [by intros ?%elem_of_nil|]. intros [->|Hin]%elem_of_cons.
  - destruct ws as [|u ws]; [exists [], []; by rewrite app_nil_r|]. rewrite Join_cons by done. by exists [], (c :: Join (u :: ws) c).
  - destruct (IH Hin) as (a & b & E). assert (ws <> []) as Hn by (intros ->; by apply elem_of_nil in Hin).
    rewrite Join_cons, E by done. exists (v ++ c :: a), b. by rewrite <- app_assoc.
Qed.

Lemma list_text_detected es t : Header (str "AutoProxy" ++ t) ∈ es -> looksLikeGFWList (list_text es) = true.
Proof.
  intros Hin. apply orb_true_iff; left. apply Contains_spec. unfold list_text.
  destruct (Join_holds (written <$> es) (written (Header (str "AutoProxy" ++ t))) newline) as (a & b & ->).
  - apply list_elem_of_fmap. eauto.
  - exists a, (t ++ b). cbn [written]. by rewrite <- !app_assoc.
Qed.

End import_lemmas.

(** Without options the two policies and the three kinds are fixed. *)
Lemma emitted_gfw `{Unicode} opts e :
  KeepCategories opts = [] -> DirectCategories opts = [] -> gfw_entry e -> emitted opts e = entry_line e.
Proof.
  intros HK HD (Hk & _ & Hp). unfold emitted, entry_line. f_equal.
  - assert (forallb (fun k => emitted_kind k == k) gfw_kinds = true) as HF by by vm_compute.
    rewrite forallb_forall in HF. apply list_elem_of_In in Hk. by apply HF, bool_decide_eq_true in Hk.
  - unfold catFn. rewrite HK, HD. cbn [fmap list_fmap].
    rewrite (bool_decide_eq_false_2 (_ ∈ [])) by apply not_elem_of_nil.
    rewrite (bool_decide_eq_true_2 ([] = [])) by done. cbn [orb].
    assert (forallb (fun p => normCategory p == p) gfw_policies = true) as HF by by vm_compute.
    rewrite forallb_forall in HF. apply list_elem_of_In in Hp. by apply HF, bool_decide_eq_true in Hp.
Qed.

Lemma Import_gfwlist_entries `{Unicode} opts body w :
  KeepCategories opts = [] -> DirectCategories opts = [] ->
  looksLikeGFWList body = true ->
  w = body \/ (exists url, stripAllWhitespace w = b64_encode url body /\ (32 <= len (b64_encode url body))%Z) ->
  exists es, Forall gfw_entry es /\ (Import_list w opts).1 = entry_line <$> es /\ (Import_list w opts).1 = gfwlistToClash body /\
    NoDup es /\ (forall e, e ∈ es <-> exists raw, raw ∈ Split body newline /\ gfw_line raw = Some e) /\
    Converted (Import_list w opts).2 = length es /\ Dropped (Import_list w opts).2 = 0%nat /\
    es = firsts (omap gfw_line (Split body newline)).
Proof.
  intros HK HD Hl Hw. destruct (push_fold (Split body newline)) as (es & Hf & Hnd & Hes & HFs). exists es.
  assert (Forall gfw_entry es) as HG.
  { apply Forall_forall. intros [[k v] p] (x & _ & Hx)%Hes. by apply gfw_line_shape in Hx. }
  assert (gfwlistToClash body = entry_line <$> es) as Hclash by (unfold gfwlistToClash; by rewrite Hf).
  assert (default w (decodeIfBase64GFWList w) = body) as Hdec.
  { destruct Hw as [-> | (url & Hs & Hlen)]; [by rewrite decode_plain|by rewrite (decode_encoded url w body)]. }
  unfold Import_list. rewrite Hdec, Hl, Hclash, ImportLegacy_entries.
  2: { eapply Forall_impl; [exact HG|]. apply gfw_entry_plain. }
  cbn [fst snd Converted Dropped plain_report].
  assert (emitted opts <$> es = entry_line <$> es) as ->; [|done].
  apply list_fmap_ext. intros i e He%list_elem_of_lookup_2. rewrite Forall_forall in HG. by apply emitted_gfw, HG.
Qed.

(** ** Properties *)
Section properties.
Context `{Unicode}.

(** a list of plain CSV lines (a known matcher, a value and a policy of
    visible characters without commas or quotes, the policy not a modifier)
    is imported line by line, in order and without losing one: each value is
    kept, IP-CIDR6 becomes IP-CIDR, the policy becomes its category, and the
    report counts every line converted and none dropped. *)
Theorem ImportLegacy_plain opts es :
  Forall plain_entry es ->
  ImportLegacy (Join (entry_line <$> es) newline) opts = (emitted opts <$> es, plain_report opts es).
Proof. apply ImportLegacy_entries. Qed.

(** the AutoProxy syntax the importer documents, for every host name and
    every visible path: anchored hosts and leading dots or stars are suffix
    rules, a scheme an exact rule, a bare host a keyword rule, an exception
    the same rule for direct, and a regular expression nothing. *)
Theorem gfw_syntax h path :
  hostRE h = true -> visible path ->
  gfw_line (str "||" ++ h ++ str "^") = Some (KindDomainSuffix, h, gfwlistPolicyPROXY) /\
  gfw_line (str "||" ++ h ++ slash :: path) = Some (KindDomainSuffix, h, gfwlistPolicyPROXY) /\
  gfw_line (str "|http://" ++ h ++ slash :: path) = Some (KindDomain, h, gfwlistPolicyPROXY) /\
  gfw_line (str "|https://" ++ h ++ slash :: path) = Some (KindDomain, h, gfwlistPolicyPROXY) /\
  gfw_line (str "." ++ h) = Some (KindDomainSuffix, h, gfwlistPolicyPROXY) /\
  gfw_line (str "*." ++ h) = Some (KindDomainSuffix, h, gfwlistPolicyPROXY) /\
  gfw_line h = Some (KindDomainKeyword, h, gfwlistPolicyPROXY) /\
  gfw_line (str "@@" ++ str "||" ++ h ++ str "^") = Some (KindDomainSuffix, h, gfwlistPolicyDIRECT) /\
  (path <> [] -> gfw_line ([slash] ++ path ++ [slash]) = None).
Proof.
  intros Hh Hp. pose proof (plain_visible _ (hostRE_plain _ Hh)) as Hv.
  assert (forall s, forallb visible_byte s = true -> visible s) as HV.
  { intros s Hs. apply Forall_forall. intros c Hc%list_elem_of_In. by apply (proj1 (forallb_forall _ _) Hs). }
  assert (visible (slash :: path)) as Hsp by by constructor.
  assert (hostFromBody (trimGFWTail (h ++ str "^")) = h) as Hc
    by by rewrite trimGFWTail_caret, hostFromBody_host.
  destruct (hostRE_head h Hh) as (c & t & Heq & Hd & Hb).
  assert (c ∉ str "![@") as Hno.
  { intros Hin. apply (hostRE_free h c Hh); [|rewrite Heq; by left].
    apply list_elem_of_In in Hin. cbn in Hin. destruct Hin as [<- | [<- | [<- | []]]]; elem. }
  repeat split.
  - apply (gfw_proxied pipe _ (_, _)); [repeat apply visible_app; auto|done|elem|by apply gfw_anchored].
  - apply (gfw_proxied pipe _ (_, _)); [repeat apply visible_app; auto|done|elem|].
    by apply gfw_anchored, trim_path.
  - apply (gfw_proxied pipe _ (_, _)); [repeat apply visible_app; auto|done|elem|by apply (gfw_scheme false)].
  - apply (gfw_proxied pipe _ (_, _)); [repeat apply visible_app; auto|done|elem|by apply (gfw_scheme true)].
  - apply (gfw_proxied dot _ (_, _)); [repeat apply visible_app; auto|done|elem|by apply (gfw_suffix false)].
  - apply (gfw_proxied Byte.x2a _ (_, _)); [repeat apply visible_app; auto|done|elem|by apply (gfw_suffix true)].
  - apply (gfw_proxied c _ (_, _)); [done|by rewrite Heq|done|by apply gfw_bare].
  - rewrite gfw_line_direct, gfw_anchored; try done. repeat apply visible_app; auto.
  - intros Hre. rewrite (gfw_line_proxy _ slash), gfw_regex; [done|done| |done|elem]. repeat apply visible_app; auto.
Qed.

(** an AutoProxy list, plain or in base64 with either alphabet and wrapped
    by white space of any kind, is imported as the lines its entries stand
    for: each entry once and no other line, none dropped; a second pass
    through the Clash importer loses and changes nothing. *)
Theorem Import_gfwlist opts body w :
  KeepCategories opts = [] -> DirectCategories opts = [] ->
  looksLikeGFWList body = true ->
  w = body \/ (exists url, stripAllWhitespace w = b64_encode url body /\ (32 <= len (b64_encode url body))%Z) ->
  exists es, Forall gfw_entry es /\ (Import_list w opts).1 = entry_line <$> es /\ (Import_list w opts).1 = gfwlistToClash body /\
    NoDup es /\ (forall e, e ∈ es <-> exists raw, raw ∈ Split body newline /\ gfw_line raw = Some e) /\
    Converted (Import_list w opts).2 = length es /\ Dropped (Import_list w opts).2 = 0%nat /\
    es = firsts (omap gfw_line (Split body newline)).
Proof.
  apply Import_gfwlist_entries.
Qed.
End properties.

(** ** Concrete inputs *)
#[local] Existing Instance ascii_tables.

Definition no_options : ImportLegacyOptions := {| KeepCategories := []; DirectCategories := [] |}.

(** The comment above [hostRE] says that 1.2.3.4 is rejected. *)
Example ip_literal_accepted :
  gfw_line (str "1.2.3.4") = Some (KindDomainKeyword, str "1.2.3.4", gfwlistPolicyPROXY).
Proof. by vm_compute. Qed.

Example or_flattened :
  ImportLegacy (str "OR,((DOMAIN,a.com),(IP-CIDR6,::1/128,no-resolve)),REJECT") no_options =
  ([str "DOMAIN,a.com,REJECT"; str "IP-CIDR,::1/128,REJECT"],
   {| Converted := 2; Dropped := 0; OrFlattened := 1; Categories := [str "REJECT"]; FinalPolicy := [] |}).
Proof. by vm_compute. Qed.

Definition legacy_entries : list entry :=
  [(str "IP-CIDR6", str "2001:db8::/32", str "Proxy"); (str "DOMAIN", str "a.com", str "DIRECT")].

Lemma ImportLegacy_plain_witness :
  Forall plain_entry legacy_entries /\
  (ImportLegacy (str "IP-CIDR6,2001:db8::/32,Proxy" ++ newline :: str "DOMAIN,a.com,DIRECT") no_options).1 =
  [str "IP-CIDR,2001:db8::/32,Proxy"; str "DOMAIN,a.com,DIRECT"].
Proof.
  assert (Forall plain_entry legacy_entries) as HF.
  { repeat constructor; try done; try elem; vm_compute; repeat constructor. }
  split; [exact HF|].
  pose proof (ImportLegacy_plain no_options legacy_entries HF) as E.
  change (str "IP-CIDR6,2001:db8::/32,Proxy" ++ newline :: str "DOMAIN,a.com,DIRECT")
    with (Join (entry_line <$> legacy_entries) newline).
  rewrite E. reflexivity.
Defined.

Lemma gfw_syntax_witness :
  gfw_line (str "||example.com^") = Some (KindDomainSuffix, str "example.com", str "Proxy") /\
  gfw_line (str "/ads/") = None.
Proof.
  destruct (gfw_syntax (str "example.com") (str "ads")) as (H1 & _ & _ & _ & _ & _ & _ & _ & H9).
  - reflexivity.
  - repeat constructor.
  - split; [exact H1|]. apply H9. discriminate.
Defined.

Definition gfw_body_sample : bytes :=
  str "[AutoProxy 0.2.9]" ++ newline :: str "||a.com^" ++ newline :: str "@@||b.org/x" ++ newline ::
  str ".c.net" ++ newline :: str "||a.com".

(** The same list by its items. *)
Definition gfw_items_sample : list gfw_item :=
  [Header (str "AutoProxy 0.2.9]"); Listed false (Anchored true (str "a.com")); Listed true (AnchoredPath (str "b.org") (str "x"));
   Listed false (Dotted false (str "c.net")); Listed false (Anchored false (str "a.com"))].

Lemma gfw_items_ok : Forall item_ok gfw_items_sample.
Proof. repeat constructor; try reflexivity; apply (bool_decide_eq_true_1 _); by vm_compute. Qed.

(** The sample in base64, wrapped after forty characters. *)
Definition gfw_wrapped : bytes :=
  take 40 (b64_encode false gfw_body_sample) ++ newline :: drop 40 (b64_encode false gfw_body_sample).

Lemma gfw_wrapped_strip : stripAllWhitespace gfw_wrapped = b64_encode false gfw_body_sample.
Proof. by vm_compute. Qed.

Lemma Import_gfwlist_witness :
  looksLikeGFWList gfw_body_sample = true /\
  (Import_list gfw_wrapped no_options).1 = gfwlistToClash gfw_body_sample.
Proof.
  assert (looksLikeGFWList gfw_body_sample = true) as Hl by reflexivity.
  split; [exact Hl|].
  destruct (Import_gfwlist no_options gfw_body_sample gfw_wrapped eq_refl eq_refl Hl) as (es & _ & _ & E & _).
  - right. exists false. split; [exact gfw_wrapped_strip|]. vm_compute. discriminate.
  - exact E.
Defined.

Example gfw_sample_lines :
  gfwlistToClash gfw_body_sample =
  [str "DOMAIN-SUFFIX,a.com,Proxy"; str "DOMAIN-SUFFIX,b.org,direct"; str "DOMAIN-SUFFIX,c.net,Proxy"].
Proof. by vm_compute. Qed.
