(* ===== verification/Rulesets.v ===== *)
(** * Registered rulesets

    [internal/rulesets]: the registry of remote rule lists (rulesets.go), its
    synchronisation (sync.go) and its expansion into rules, and the merge
    with the operator's own rules of internal/api/rules.go.  [Reg] is the
    table of the database, keyed by name, with the clock and the outcomes of
    the next statements ([false]: the driver fails and the table stays).
    The HTTP client, [url.Parse] and the texts of errors are parameters. *)
From S2P Require Import Prelude GoStrings GoCodec Rules Netguard RuleImport.
From Stdlib Require Import ZArith Lia.

(** ** One row of the table; NULL text is empty, a NULL time is [None] *)
Record Ruleset := {
  Name : bytes; SourceURL : bytes; RKind : bytes; RAction : bytes; RPriority : Z; REnabled : bool;
  ETag : bytes; LastModified : bytes; LastSyncedAt : option Z; LastError : bytes; RuleCount : Z;
  Content : bytes; CreatedAt : option Z; CreatedBy : bytes
}.

Inductive RSError :=
| RSMalformed (name : bytes) (i : nat)
| RSInvalid (name : bytes) (i : nat) (e : RuleError)
| RSNoRules (name : bytes) (dropped : nat)
| RSRequired | RSExec | RSNotFound
| RSURL (e : GuardError) | RSRequest | RSFetch | RSStatus (code : Z) | RSRead | RSTooLarge.

(** ** Expansion *)

(** [splitCSV3] and [lowerASCII]. *)
Fixpoint splitCSV3_loop (s : bytes) (n : nat) (cur : bytes) : list bytes :=
  match s with
  | [] => [cur]
  | c :: s =>
      if (c == comma) && (n <? 2)%nat then cur :: splitCSV3_loop s (S n) []
      else splitCSV3_loop s n (cur ++ [c])
  end.

Definition splitCSV3 (s : bytes) : list bytes := splitCSV3_loop s 0 [].
Definition lowerASCII (s : bytes) : bytes := map lower_byte s.

(** [direct] and [block] keep their meaning in every ruleset. *)
Definition fixed_action (action : bytes) : bool :=
  (lowerASCII action == str "direct") || (lowerASCII action == str "block").

(** [fmt.Sprintf] of [%s-%d]. *)
Definition rule_id (name : bytes) (n : nat) : bytes := name ++ str "-" ++ strconv_Itoa (Z.of_nat n).

Section expand.
Context `{Unicode} (IsDomainName : bytes -> bool).

(** The body of the inner loop of [expandList] for line [i]. *)
Definition expand_line (rs : Ruleset) (i : nat) (line : bytes) : res RSError Rule :=
  let mk kind pattern action :=
    let action := if fixed_action action then action else RAction rs in
    let rule := {| ID := rule_id (Name rs) (i + 1); kind := kind; Pattern := pattern; Action := action;
                   Priority := RPriority rs; Enabled := true; Notes := []; GroupID := Name rs |} in
    match Rule_Validate IsDomainName rule with
    | Ok _ => Ok rule
    | Err e => Err (RSInvalid (Name rs) (i + 1) e)
    end in
  match splitCSV3 line with
  | k :: a :: rest =>
      if (k == str "FINAL") || (k == str "MATCH") then mk KindMatch [] a
      else match rest with
           | action :: _ => mk k a action
           | [] => Err (RSMalformed (Name rs) (i + 1))
           end
  | _ => Err (RSMalformed (Name rs) (i + 1))
  end.

Fixpoint expand_lines (rs : Ruleset) (i : nat) (lines : list bytes) : res RSError (list Rule) :=
  match lines with
  | [] => Ok []
  | line :: lines =>
      match expand_line rs i line with
      | Err e => Err e
      | Ok r => match expand_lines rs (S i) lines with Err e => Err e | Ok out => Ok (r :: out) end
      end
  end.

(** The body of the outer loop for an enabled ruleset with content. *)
Definition expand_one (rs : Ruleset) : res RSError (list Rule) :=
  let '(expanded, report) := Import_list (Content rs) no_options in
  match expand_lines rs 0 expanded with
  | Err e => Err e
  | Ok out => if (length out =? 0)%nat then Err (RSNoRules (Name rs) (Dropped report)) else Ok out
  end.

(** The two [continue]s of the outer loop. *)
Definition contributes (rs : Ruleset) : bool := REnabled rs && negb (len (Content rs) =? 0)%Z.

(** [expandList]. *)
Fixpoint expandList (l : list Ruleset) : res RSError (list Rule) :=
  match l with
  | [] => Ok []
  | rs :: l =>
      if contributes rs then
        match expand_one rs with
        | Err e => Err e
        | Ok a => match expandList l with Err e => Err e | Ok b => Ok (a ++ b) end
        end
      else expandList l
  end.
End expand.

(** ** The table *)
Record Reg := { table : gmap bytes Ruleset; clock : Z; faults : list bool }.

Definition set_table (t : gmap bytes Ruleset) (r : Reg) : Reg :=
  {| table := t; clock := clock r; faults := faults r |}.

Abbreviation RS A := (ST Reg (res RSError A)).

(** A driver call: it fails, or runs [f]. *)
Definition stmt {A} (f : Reg -> res RSError A * Reg) : RS A := fun r =>
  match faults r with
  | false :: l => (Err RSExec, {| table := table r; clock := clock r; faults := l |})
  | true :: l => f {| table := table r; clock := clock r; faults := l |}
  | [] => f r
  end.

(** UPDATE ... WHERE name = ?. *)
Definition update_row (name : bytes) (f : Reg -> Ruleset -> Ruleset) : RS unit :=
  stmt (fun r => (Ok tt, set_table (alter (f r) name (table r)) r)).

(** What registration owns, and what synchronisation owns. *)
Definition set_registration (x rs : Ruleset) : Ruleset :=
  {| Name := Name rs; SourceURL := SourceURL x; RKind := RKind x; RAction := RAction x;
     RPriority := RPriority x; REnabled := REnabled x; ETag := ETag rs; LastModified := LastModified rs;
     LastSyncedAt := LastSyncedAt rs; LastError := LastError rs; RuleCount := RuleCount rs;
     Content := Content rs; CreatedAt := CreatedAt rs; CreatedBy := CreatedBy rs |}.
Definition set_sync (etag lm : bytes) (at_ : option Z) (err : bytes) (n : Z) (c : bytes) (rs : Ruleset) : Ruleset :=
  {| Name := Name rs; SourceURL := SourceURL rs; RKind := RKind rs; RAction := RAction rs;
     RPriority := RPriority rs; REnabled := REnabled rs; ETag := etag; LastModified := lm;
     LastSyncedAt := at_; LastError := err; RuleCount := n;
     Content := c; CreatedAt := CreatedAt rs; CreatedBy := CreatedBy rs |}.

(** [Upsert]: the inserted row, and the columns DO UPDATE replaces. *)
Definition default_priority (p : Z) : Z := if (p =? 0)%Z then 500%Z else p.

Definition Upsert (x : Ruleset) : RS unit :=
  if Name x == [] then ret (Err RSRequired)
  else if SourceURL x == [] then ret (Err RSRequired)
  else if RAction x == [] then ret (Err RSRequired)
  else stmt (fun r =>
    let x := set_sync [] [] None [] 0 []
      {| Name := Name x; SourceURL := SourceURL x; RKind := RKind x; RAction := RAction x;
         RPriority := default_priority (RPriority x); REnabled := REnabled x; ETag := []; LastModified := [];
         LastSyncedAt := None; LastError := []; RuleCount := 0; Content := [];
         CreatedAt := Some (default (clock r) (CreatedAt x)); CreatedBy := CreatedBy x |} in
    (Ok tt, set_table (match table r !! Name x with
                       | None => <[Name x := x]> (table r)
                       | Some old => <[Name x := set_registration x old]> (table r)
                       end) r)).

(** [Get], [List], [Delete], [SetEnabled], [UpdateContent], [TouchSyncedAt]
    and [RecordError]. *)
Definition Get (name : bytes) : RS Ruleset :=
  stmt (fun r => (match table r !! name with Some rs => Ok rs | None => Err RSNotFound end, r)).

Definition row_leb (a b : Ruleset) : bool :=
  (RPriority a <? RPriority b)%Z || ((RPriority a =? RPriority b)%Z && bytes_leb (Name a) (Name b)).

Definition listing (t : gmap bytes Ruleset) : list Ruleset := stable_sort row_leb (snd <$> map_to_list t).

Definition List_ : RS (list Ruleset) := stmt (fun r => (Ok (listing (table r)), r)).

Definition Delete (name : bytes) : RS unit := stmt (fun r => (Ok tt, set_table (delete name (table r)) r)).

Definition SetEnabled (name : bytes) (enabled : bool) : RS unit :=
  update_row name (fun _ rs => set_registration
    {| Name := Name rs; SourceURL := SourceURL rs; RKind := RKind rs; RAction := RAction rs;
       RPriority := RPriority rs; REnabled := enabled; ETag := []; LastModified := []; LastSyncedAt := None;
       LastError := []; RuleCount := 0; Content := []; CreatedAt := None; CreatedBy := [] |} rs).

Definition UpdateContent (name content : bytes) (ruleCount : Z) (etag lastModified : bytes) : RS unit :=
  update_row name (fun r => set_sync etag lastModified (Some (clock r)) [] ruleCount content).

Definition TouchSyncedAt (name : bytes) : RS unit :=
  update_row name (fun r rs =>
    set_sync (ETag rs) (LastModified rs) (Some (clock r)) [] (RuleCount rs) (Content rs) rs).

Definition RecordError (name reason : bytes) : RS unit :=
  update_row name (fun _ rs =>
    set_sync (ETag rs) (LastModified rs) (LastSyncedAt rs) reason (RuleCount rs) (Content rs) rs).

(** ** sync.go *)

(** The body of a response: its bytes, and whether reading ends in an error. *)
Record Response := {
  StatusCode : Z; BodyData : bytes; BodyFails : bool; h_ETag : bytes; h_LastModified : bytes
}.

(** [io.ReadAll(io.LimitReader(body, n))]. *)
Definition read_limited (resp : Response) (n : Z) : option bytes :=
  if (n <=? len (BodyData resp))%Z then Some (take (Z.to_nat n) (BodyData resp))
  else if BodyFails resp then None else Some (BodyData resp).

Section sync.
Context `{Unicode} (IsDomainName : bytes -> bool).
(** [url.Parse] for [ValidateHTTPURL]; whether [http.NewRequestWithContext]
    accepts the URL; [Client.Do] with the URL and the headers that were set;
    the text of an error. *)
Context (url_Parse : bytes -> option URL) (NewRequest : bytes -> bool)
        (Do : bytes -> list (bytes * bytes) -> option Response) (Error : RSError -> bytes).
Context (MaxBytes : Z) (UserAgent : bytes).

Definition request_headers (rs : Ruleset) : list (bytes * bytes) :=
  (str "User-Agent", UserAgent) ::
  (if ETag rs == [] then [] else [(str "If-None-Match", ETag rs)]) ++
  (if LastModified rs == [] then [] else [(str "If-Modified-Since", LastModified rs)]).

(** [_ = s.Store.RecordError(ctx, name, ...)] and return the error. *)
Definition record (name : bytes) (e : RSError) : RS unit :=
  let! _ := RecordError name (Error e) in ret (Err e).

(** The number of rules the expansion will see. *)
Definition rule_count (body : bytes) : Z := len (Import_list body no_options).1.

(** [SyncOne]. *)
Definition SyncOne (name : bytes) : RS unit :=
  let? rs := Get name in
  match ValidateHTTPURL url_Parse (SourceURL rs) with
  | Err e => record name (RSURL e)
  | Ok _ =>
      if negb (NewRequest (SourceURL rs)) then ret (Err RSRequest)
      else match Do (SourceURL rs) (request_headers rs) with
           | None => record name RSFetch
           | Some resp =>
               if (StatusCode resp =? 304)%Z then TouchSyncedAt name
               else if (400 <=? StatusCode resp)%Z then record name (RSStatus (StatusCode resp))
               else match read_limited resp (MaxBytes + 1) with
                    | None => record name RSRead
                    | Some body =>
                        if (MaxBytes <? len body)%Z then record name RSTooLarge
                        else UpdateContent name body (rule_count body)
                               (TrimSpace (h_ETag resp)) (TrimSpace (h_LastModified resp))
                    end
           end
  end.

(** One tick of [Run]: failures are logged and the loop goes on. *)
Fixpoint sync_all (l : list Ruleset) : ST Reg unit :=
  match l with
  | [] => ret tt
  | rs :: l =>
      let! _ := (if REnabled rs then let! _ := SyncOne (Name rs) in ret tt else ret tt) in
      sync_all l
  end.

Definition Run_tick : ST Reg unit :=
  let! l := List_ in
  match l with Err _ => ret tt | Ok rss => sync_all rss end.

(** [ExpandWithGroups] and [Expand]. *)
Definition ExpandWithGroups : RS (list Rule * gset bytes) :=
  let? l := List_ in
  ret (match expandList IsDomainName l with
       | Ok rules => Ok (rules, list_to_set (Name <$> l))
       | Err e => Err e
       end).

Definition Expand : RS (list Rule) :=
  let? x := ExpandWithGroups in ret (Ok x.1).

(** ** internal/api/rules.go: the effective rules *)
Definition stripRulesetExpansions (rs : list Rule) (managed : gset bytes) : list Rule :=
  filter (fun r => ~ (GroupID r <> [] /\ GroupID r ∈ managed)) rs.

(** [expandRulesets]; [false]: no registry. *)
Definition expandRulesets (have : bool) (rs : list Rule) : RS (list Rule) :=
  if negb have then ret (Ok rs)
  else let? x := ExpandWithGroups in ret (Ok (stripRulesetExpansions rs x.2 ++ x.1)).
End sync.

(** ** Expansion: lemmas *)

(** Two texts split at their last separator. *)
Lemma last_sep_inj (c : byte) a b x y : a ++ c :: x = b ++ c :: y -> c ∉ x -> c ∉ y -> a = b /\ x = y.
Proof.
  intros HE Hx Hy. apply app_eq_inv in HE as [(k & -> & Hk)|(k & -> & Hk)]; destruct k as [|z k].
  - rewrite app_nil_r. split; [done|]. cbn in Hk. congruence.
  - cbn in Hk. injection Hk as -> ->. exfalso. apply Hy. apply elem_of_app. right. by left.
  - rewrite app_nil_r. split; [done|]. cbn in Hk. congruence.
  - cbn in Hk. injection Hk as -> ->. exfalso. apply Hx. apply elem_of_app. right. by left.
Qed.

Lemma Itoa_nodash n : (0 < n < 10 ^ 20)%Z -> Byte.x2d ∉ strconv_Itoa n.
Proof.
  intros Hn Hin. destruct (strconv_Itoa_pos n Hn) as (_ & HF & _).
  rewrite Forall_forall in HF. specialize (HF _ Hin). unfold digit_byte in HF. cbv in HF. by destruct HF.
Qed.

Lemma rule_id_inj a b m n :
  (0 < m)%nat -> (0 < n)%nat -> (Z.of_nat m < 10 ^ 20)%Z -> (Z.of_nat n < 10 ^ 20)%Z ->
  rule_id a m = rule_id b n -> a = b /\ m = n.
Proof.
  intros Hm Hn Bm Bn HE. unfold rule_id in HE. change (str "-") with [Byte.x2d] in HE. cbn [app] in HE.
  apply last_sep_inj in HE as [-> HI]; [|apply Itoa_nodash; lia|apply Itoa_nodash; lia].
  split; [done|]. destruct (strconv_Itoa_pos (Z.of_nat m) ltac:(lia)) as (_ & _ & Em).
  destruct (strconv_Itoa_pos (Z.of_nat n) ltac:(lia)) as (_ & _ & En).
  rewrite HI, En in Em. lia.
Qed.

Lemma fixed_or (a x : bytes) :
  (if fixed_action a then a else x) = x \/ fixed_action (if fixed_action a then a else x) = true.
Proof. destruct (fixed_action a) eqn:E; [by right|by left]. Qed.

Section expand_lemmas.
Context `{Unicode} (IsDomainName : bytes -> bool).

(** What every expanded rule takes from its ruleset. *)
Definition expanded_from (rs : Ruleset) (r : Rule) : Prop :=
  Rule_Validate IsDomainName r = Ok tt /\ Enabled r = true /\ GroupID r = Name rs /\
  Priority r = RPriority rs /\ (Action r = RAction rs \/ fixed_action (Action r) = true).

Lemma expand_line_ok rs i line r :
  expand_line IsDomainName rs i line = Ok r -> expanded_from rs r /\ ID r = rule_id (Name rs) (i + 1).
Proof.
  unfold expand_line. intros HE.
  repeat match type of HE with
  | match ?x with _ => _ end = Ok _ => destruct x eqn:?; try done
  end; injection HE as <-; (split; [|done]); repeat split; try done;
    try (match goal with u : unit |- _ => destruct u; done end); apply fixed_or.
Qed.

Lemma expand_lines_ok rs i lines out :
  expand_lines IsDomainName rs i lines = Ok out ->
  Forall (expanded_from rs) out /\ length out = length lines /\
  forall k r, out !! k = Some r -> ID r = rule_id (Name rs) (i + k + 1).
Proof.
  revert i out. induction lines as [|line lines IH]; intros i out; cbn [expand_lines].
  - intros [= <-]. split; [constructor|done].
  - destruct (expand_line _ _ _ _) as [e|r0] eqn:E1; [done|].
    destruct (expand_lines _ _ _ _) as [e|rest] eqn:E2; [done|]. intros [= <-].
    apply expand_line_ok in E1 as [H1 HI]. apply IH in E2 as (H2 & Hl & HJ).
    split; [by constructor|]. split; [cbn; lia|]. intros [|k] r; cbn.
    + intros [= <-]. by rewrite Nat.add_0_r.
    + intros Hk. rewrite (HJ k r Hk). f_equal. lia.
Qed.

Lemma expand_one_ok rs out :
  expand_one IsDomainName rs = Ok out ->
  out <> [] /\ Forall (expanded_from rs) out /\
  forall k r, out !! k = Some r -> ID r = rule_id (Name rs) (k + 1).
Proof.
  unfold expand_one. destruct (Import_list _ _) as [lines rep].
  destruct (expand_lines _ _ _ _) as [e|o] eqn:E; [done|].
  destruct (Nat.eqb_spec (length o) 0) as [|Hne]; [done|]. intros [= ->].
  apply expand_lines_ok in E as (HF & _ & HI). split; [by intros ->|]. split; [done|]. intros k r Hk.
  by apply HI in Hk.
Qed.

(** Each rule of the result comes from a ruleset, at an index. *)
Definition origin (l : list Ruleset) (out : list Rule) : Prop :=
  forall r, r ∈ out -> exists rs, rs ∈ l /\ contributes rs = true /\ expanded_from rs r /\
    exists n, (0 < n <= length out)%nat /\ ID r = rule_id (Name rs) n.

Lemma expandList_facts l out :
  expandList IsDomainName l = Ok out ->
  origin l out /\
  (forall rs, rs ∈ l -> contributes rs = true -> exists r, r ∈ out /\ GroupID r = Name rs) /\
  (NoDup (Name <$> l) -> (len out < 10 ^ 20)%Z -> NoDup (ID <$> out)).
Proof.
  revert out. induction l as [|rs l IH]; intros out; cbn [expandList].
  { intros [= <-]. split; [by intros r ?%elem_of_nil|]. split; [by intros rs ?%elem_of_nil|]. constructor. }
  destruct (contributes rs) eqn:HC.
  2: { intros HE. destruct (IH _ HE) as (HO & HN & HD). split; [|split].
       - intros r (x & Hx & Hr)%HO. exists x. split; [by right|done].
       - intros x [-> | Hx]%elem_of_cons Hc; [congruence|]. by apply HN.
       - intros [_ Hnd]%NoDup_cons. by apply HD. }
  destruct (expand_one _ rs) as [e|a] eqn:E1; [done|]. destruct (expandList _ l) as [e|b] eqn:E2; [done|].
  intros [= <-]. destruct (IH _ eq_refl) as (HO & HN & HD).
  apply expand_one_ok in E1 as (Hne & HF & HI).
  assert (forall r, r ∈ a -> exists n, (0 < n <= length a)%nat /\ ID r = rule_id (Name rs) n) as HA.
  { intros r [k Hk]%list_elem_of_lookup_1. exists (k + 1)%nat. split; [|by apply HI].
    apply lookup_lt_Some in Hk. lia. }
  split; [|split].
  - intros r [Hr|Hr]%elem_of_app.
    + exists rs. split; [by left|]. split; [done|]. split; [by eapply Forall_forall|].
      destruct (HA r Hr) as (n & Hn & E). exists n. rewrite length_app. split; [lia|done].
    + destruct (HO r Hr) as (x & Hx & Hc & Hf & n & Hn & E). exists x. split; [by right|]. split; [done|].
      split; [done|]. exists n. rewrite length_app. split; [lia|done].
  - intros x [-> | Hx]%elem_of_cons Hc.
    + destruct a as [|r a]; [done|]. exists r. split; [by left|]. apply Forall_cons in HF as [HF _]. apply HF.
    + destruct (HN x Hx Hc) as (r & Hr & E). exists r. split; [by apply elem_of_app; right|done].
  - rewrite len_app. intros [Hnin Hnd]%NoDup_cons Hlen.
    unfold len in *. rewrite fmap_app, NoDup_app. repeat split.
    + apply NoDup_alt. intros i j x Hi Hj. rewrite !list_lookup_fmap in *.
      destruct (a !! i) as [r|] eqn:Ei, (a !! j) as [s|] eqn:Ej; try done. cbn in Hi, Hj.
      rewrite (HI _ _ Ei) in Hi. rewrite (HI _ _ Ej) in Hj.
      apply lookup_lt_Some in Ei, Ej. injection Hi as <-. injection Hj as Hj.
      apply rule_id_inj in Hj; lia.
    + intros x (r & -> & Hr)%list_elem_of_fmap (s & HE & Hs)%list_elem_of_fmap.
      destruct (HA r Hr) as (n & Hn & En). destruct (HO s Hs) as (y & Hy & _ & _ & m & Hm & Em).
      rewrite En, Em in HE. apply rule_id_inj in HE as [HE _]; [|lia..].
      apply Hnin, list_elem_of_fmap. eauto.
    + apply HD; [done|lia].
Qed.

(** *** A gfwlist line *)
Lemma splitCSV3_free f n cur rest :
  comma ∉ f -> splitCSV3_loop (f ++ rest) n cur = splitCSV3_loop rest n (cur ++ f).
Proof.
  revert cur. induction f as [|c f IH]; intros cur Hf; [by rewrite app_nil_r|]. cbn [app splitCSV3_loop].
  rewrite (bool_decide_eq_false_2 (c = comma)) by (intros ->; apply Hf; by left). cbn [andb].
  rewrite IH by (intros Hin; apply Hf; by right). by rewrite <- app_assoc.
Qed.

Lemma splitCSV3_line3 k v p : comma ∉ k -> comma ∉ v -> comma ∉ p -> splitCSV3 (line3 k v p) = [k; v; p].
Proof.
  intros Hk Hv Hp. unfold splitCSV3, line3. rewrite splitCSV3_free by done. cbn [app splitCSV3_loop].
  rewrite (bool_decide_eq_true_2 (comma = comma)) by done. cbn [andb Nat.ltb Nat.leb].
  rewrite splitCSV3_free by done. cbn [app splitCSV3_loop].
  rewrite (bool_decide_eq_true_2 (comma = comma)) by done. cbn [andb Nat.ltb Nat.leb].
  rewrite <- (app_nil_r p) at 1. by rewrite splitCSV3_free.
Qed.

(** The rule of a gfwlist entry. *)
Definition gfw_rule (rs : Ruleset) (i : nat) (e : entry) : Rule :=
  {| ID := rule_id (Name rs) (i + 1); kind := e.1.1; Pattern := e.1.2;
     Action := if e.2 == gfwlistPolicyDIRECT then gfwlistPolicyDIRECT else RAction rs;
     Priority := RPriority rs; Enabled := true; Notes := []; GroupID := Name rs |}.

(** The rule of what an item of a list means: an exception, a kind, a host. *)
Definition meant_rule (rs : Ruleset) (i : nat) (m : bool * bytes * bytes) : Rule :=
  {| ID := rule_id (Name rs) (i + 1); kind := m.1.2; Pattern := m.2;
     Action := if m.1.1 then str "direct" else RAction rs;
     Priority := RPriority rs; Enabled := true; Notes := []; GroupID := Name rs |}.

Definition meant_entry (m : bool * bytes * bytes) : entry := (m.1.2, m.2, if m.1.1 : bool then str "direct" else str "Proxy").

Lemma meant_entry_inj : Inj (=) (=) meant_entry.
Proof. intros [[[] k] h] [[[] k'] h'] E; unfold meant_entry in E; cbn in E; by simplify_eq. Qed.

Lemma meant_rule_entry rs i m : gfw_rule rs i (meant_entry m) = meant_rule rs i m.
Proof. destruct m as [[[] k] h]; done. Qed.

(** A name and an action that can be expanded. *)
Definition expandable (rs : Ruleset) : Prop :=
  visible (Name rs) /\ blank (RAction rs) = false /\ (forall b, b ∈ csv_delims -> b ∉ RAction rs).

Lemma visible_blank s : visible s -> s <> [] -> blank s = false.
Proof. intros Hv Hs. unfold blank. rewrite TrimSpace_visible by done. by apply bool_decide_eq_false_2. Qed.

Lemma gfw_rule_valid rs i e :
  expandable rs -> gfw_entry e -> IsDomainName e.1.2 = true -> (Z.of_nat (i + 1) < 10 ^ 20)%Z ->
  Rule_Validate IsDomainName (gfw_rule rs i e) = Ok tt.
Proof.
  intros (Hn & Ha & Hd) (Hk & Hv & Hp) HD Hi. pose proof (hostRE_plain _ Hv) as Hpl.
  unfold Rule_Validate, gfw_rule. cbn [ID kind Pattern Action].
  assert (forallb (fun k => bool_decide (k ∈ allKinds) && (k != KindMatch) && (k != KindIPCIDR)) gfw_kinds = true) as HF
    by by vm_compute.
  rewrite forallb_forall in HF. apply list_elem_of_In, HF in Hk. rewrite !andb_true_iff in Hk.
  destruct Hk as [[K1 K2] K3]. apply bool_decide_eq_true in K1. apply negb_true_iff in K3.
  rewrite K2, K3. apply negb_true_iff in K2. rewrite K2.
  rewrite visible_blank.
  2: { apply visible_app; [done|]. constructor; [done|]. apply Itoa_visible. lia. }
  2: { by destruct (Name rs). }
  rewrite bool_decide_eq_false_2 by (intros Hnin; done).
  rewrite (visible_blank e.1.2) by first [by apply plain_visible|by apply hostRE_nonempty].
  rewrite (TrimSpace_visible e.1.2) by by apply plain_visible. rewrite HD. cbn [andb].
  set (act := if e.2 == gfwlistPolicyDIRECT then gfwlistPolicyDIRECT else RAction rs).
  assert (blank act = false /\ ContainsAny act csv_delims = false) as [-> ->].
  { subst act. destruct (e.2 == gfwlistPolicyDIRECT); [by vm_compute|]. split; [done|]. by apply ContainsAny_false. }
  rewrite (proj2 (ContainsAny_false _ _)).
  2: { intros b Hb Hin. unfold plain in Hpl. rewrite Forall_forall in Hpl. specialize (Hpl _ Hin).
       assert (forallb (fun b => negb (plain_byte b)) csv_delims = true) as HB by by vm_compute.
       rewrite forallb_forall in HB. apply list_elem_of_In, HB in Hb. by rewrite Hpl in Hb. }
  by destruct (_ || _).
Qed.

Lemma expand_line_gfw rs i e :
  expandable rs -> gfw_entry e -> IsDomainName e.1.2 = true -> (Z.of_nat (i + 1) < 10 ^ 20)%Z ->
  expand_line IsDomainName rs i (entry_line e) = Ok (gfw_rule rs i e).
Proof.
  intros Hx He HD Hi. pose proof (gfw_rule_valid rs i e Hx He HD Hi) as HV.
  pose proof (gfw_entry_plain e He) as (Hk & Hv & Hp & _). destruct (legacyKeep_facts _ Hk) as (Hkp & _).
  destruct He as (Hk' & _ & Hp'). unfold expand_line, entry_line.
  rewrite splitCSV3_line3 by (by apply plain_free).
  assert (forallb (fun k => negb (k == str "FINAL") && negb (k == str "MATCH")) gfw_kinds = true) as HF by by vm_compute.
  rewrite forallb_forall in HF. apply list_elem_of_In, HF, andb_true_iff in Hk' as [K1 K2].
  apply negb_true_iff in K1, K2. rewrite K1, K2. cbn [orb].
  assert ((if fixed_action e.2 then e.2 else RAction rs) =
          (if e.2 == gfwlistPolicyDIRECT then gfwlistPolicyDIRECT else RAction rs)) as ->.
  { assert (forallb (fun p => bool_decide (fixed_action p = (p == gfwlistPolicyDIRECT))) gfw_policies = true) as HP by by vm_compute.
    rewrite forallb_forall in HP. apply list_elem_of_In, HP, bool_decide_eq_true in Hp'. rewrite Hp'.
    by destruct (bool_decide_reflect (e.2 = gfwlistPolicyDIRECT)) as [->|]. }
  fold (gfw_rule rs i e). by rewrite HV.
Qed.

Lemma expand_lines_gfw rs i es :
  expandable rs -> Forall gfw_entry es -> Forall (fun e => IsDomainName e.1.2 = true) es ->
  (Z.of_nat (i + length es) < 10 ^ 20)%Z ->
  expand_lines IsDomainName rs i (entry_line <$> es) = Ok (imap (fun k e => gfw_rule rs (i + k) e) es).
Proof.
  intros Hx. revert i. induction es as [|e es IH]; intros i He HD Hi; [done|].
  apply Forall_cons in He as [He Hes]. apply Forall_cons in HD as [HD HDs]. cbn [length] in Hi.
  cbn [fmap list_fmap expand_lines imap]. rewrite expand_line_gfw by (try done; lia).
  unfold fmap in IH. rewrite IH by (try done; lia). cbn [imap]. rewrite Nat.add_0_r. do 2 f_equal.
  apply imap_ext. intros k x _. cbn. f_equal. lia.
Qed.
End expand_lemmas.

(** ** The registry: lemmas *)

(** Only the table and the clock matter to these invariants. *)
Definition on_table (P : gmap bytes Ruleset -> Prop) : Reg -> Prop := fun r => P (table r).

Lemma keeps_stmt {A : Type} (P : gmap bytes Ruleset -> Prop) (f : Reg -> res RSError A * Reg) :
  (forall r, P (table r) -> P (table (f r).2)) -> keeps (on_table P) (stmt f).
Proof.
  intros Hf r HP. unfold stmt, on_table in *. destruct (faults r) as [|[] l]; cbn; [by apply Hf| |done].
  exact (Hf {| table := table r; clock := clock r; faults := l |} HP).
Qed.

Lemma keeps_read {A : Type} (P : gmap bytes Ruleset -> Prop) (f : Reg -> res RSError A) :
  keeps (on_table P) (stmt (fun r => (f r, r))).
Proof. by apply keeps_stmt. Qed.

Lemma keeps_update_row P name f :
  (forall r t, P t -> P (alter (f r) name t)) -> keeps (on_table P) (update_row name f).
Proof. intros Hf. apply keeps_stmt. intros r HP. cbn. by apply Hf. Qed.

(** A change of one row that keeps what a predicate on rows says. *)
Lemma map_Forall_alter (Q : bytes -> Ruleset -> Prop) (f : Ruleset -> Ruleset) (name : bytes) (t : gmap bytes Ruleset) :
  (forall rs, Q name rs -> Q name (f rs)) -> map_Forall Q t -> map_Forall Q (alter f name t).
Proof.
  intros Hf HQ n rs Hn. destruct (decide (n = name)) as [->|Hne].
  - rewrite lookup_alter_eq in Hn. destruct (t !! name) as [x|] eqn:E; [|done]. injection Hn as <-. apply Hf. by apply HQ.
  - rewrite lookup_alter_ne in Hn by done. by apply HQ.
Qed.

Lemma update_row_cases name f r res r' :
  update_row name f r = (res, r') ->
  (res = Err RSExec /\ table r' = table r) \/
  (res = Ok tt /\ exists x, clock x = clock r /\ table r' = alter (f x) name (table r)).
Proof.
  unfold update_row, stmt. destruct (faults r) as [|[] l]; intros [= <- <-]; cbn; [right|right|by left];
    (split; [done|]); [by exists r|by exists {| table := table r; clock := clock r; faults := l |}].
Qed.

Lemma row_leb_total x y : row_leb x y = false -> row_leb y x = true.
Proof.
  unfold row_leb. rewrite orb_false_iff, andb_false_iff. intros [H1 H2]. apply orb_true_iff.
  destruct (Z.ltb_spec (RPriority y) (RPriority x)); [by left|]. right. apply andb_true_iff.
  split; [lia|]. destruct H2 as [H2|H2]; [lia|]. by apply bytes_leb_total.
Qed.

Lemma listing_perm t : Permutation (snd <$> map_to_list t) (listing t).
Proof. apply stable_sort_perm. Qed.

Lemma elem_of_listing t rs : rs ∈ listing t <-> exists n, t !! n = Some rs.
Proof.
  rewrite <- listing_perm, list_elem_of_fmap. split.
  - intros ([n x] & -> & Hin). exists n. by apply elem_of_map_to_list.
  - intros [n Hn]. exists (n, rs). split; [done|]. by apply elem_of_map_to_list.
Qed.

Lemma listing_names (t : gmap bytes Ruleset) : map_Forall (fun n rs => Name rs = n) t -> NoDup (Name <$> listing t).
Proof.
  intros HN. rewrite <- listing_perm, <- list_fmap_compose.
  assert ((Name ∘ snd) <$> map_to_list t = (map_to_list t).*1) as ->; [|apply NoDup_fst_map_to_list].
  apply list_fmap_ext. intros i [n rs] Hi%list_elem_of_lookup_2. cbn.
  apply elem_of_map_to_list in Hi. by apply HN.
Qed.

(** ** What registration and synchronisation keep of a row *)
Definition registration (rs : Ruleset) :=
  (Name rs, SourceURL rs, RKind rs, RAction rs, RPriority rs, REnabled rs, CreatedAt rs, CreatedBy rs).

(** A row the operations can leave: registered, its count the number of lines
    of its content, its content within the limit. *)
Definition row_ok `{Unicode} (MaxBytes : Z) (n : bytes) (rs : Ruleset) : Prop :=
  Name rs = n /\ n <> [] /\ SourceURL rs <> [] /\ RAction rs <> [] /\ RPriority rs <> 0%Z /\
  RuleCount rs = rule_count (Content rs) /\ (len (Content rs) <= MaxBytes)%Z.

Section registry.
Context `{Unicode} (url_Parse : bytes -> option URL) (NewRequest : bytes -> bool)
        (Error : RSError -> bytes) (MaxBytes : Z) (UserAgent : bytes).
Context (HMax : (0 <= MaxBytes)%Z).

Definition reg_ok (t : gmap bytes Ruleset) : Prop := map_Forall (row_ok MaxBytes) t.

Lemma rule_count_empty : rule_count [] = 0%Z.
Proof. reflexivity. Qed.

(** *** [SyncOne] as one update of the row it read *)
Abbreviation Doer := (bytes -> list (bytes * bytes) -> option Response).

(** The row after a sync that read [a]. *)
Inductive sync_outcome (Do : Doer) (a b : Ruleset) : Prop :=
| SameContent :
    b = set_sync (ETag a) (LastModified a) (LastSyncedAt b) (LastError b) (RuleCount a) (Content a) a ->
    sync_outcome Do a b
| FreshContent resp :
    Do (SourceURL a) (request_headers UserAgent a) = Some resp ->
    StatusCode resp <> 304%Z -> (StatusCode resp < 400)%Z -> BodyFails resp = false ->
    (len (BodyData resp) <= MaxBytes)%Z ->
    b = set_sync (TrimSpace (h_ETag resp)) (TrimSpace (h_LastModified resp)) (LastSyncedAt b) []
          (rule_count (BodyData resp)) (BodyData resp) a ->
    sync_outcome Do a b.

Abbreviation Sync Do := (SyncOne url_Parse NewRequest Do Error MaxBytes UserAgent).

Lemma read_limited_ok resp body :
  read_limited resp (MaxBytes + 1) = Some body -> (MaxBytes <? len body)%Z = false ->
  body = BodyData resp /\ BodyFails resp = false /\ (len (BodyData resp) <= MaxBytes)%Z.
Proof.
  unfold read_limited. destruct (Z.leb_spec (MaxBytes + 1) (len (BodyData resp))) as [Hle|Hlt].
  - intros [= <-] Hb. exfalso. unfold len in *. rewrite length_take in Hb. apply Z.ltb_ge in Hb. rewrite Nat.min_l in Hb by lia. lia.
  - destruct (BodyFails resp); [done|]. intros [= <-] Hb. split; [done|]. split; [done|lia].
Qed.

Lemma stmt_get name r x r1 :
  Get name r = (x, r1) -> table r1 = table r /\ clock r1 = clock r /\ forall rs, x = Ok rs -> table r !! name = Some rs.
Proof.
  unfold Get, stmt. destruct (faults r) as [|[] l]; cbn; intros [= <- <-]; (split; [done|]); (split; [done|]);
    intros rs; try done; destruct (table r !! name); try done; by intros [= ->].
Qed.

Lemma record_cases name e r x r' :
  record Error name e r = (x, r') ->
  x = Err e /\ (table r' = table r \/
    table r' = alter (fun rs => set_sync (ETag rs) (LastModified rs) (LastSyncedAt rs) (Error e) (RuleCount rs) (Content rs) rs)
                 name (table r)).
Proof.
  unfold record, bind, ret. destruct (RecordError _ _ r) as [y r1] eqn:E. intros [= <- <-]. split; [done|].
  apply update_row_cases in E as [[_ ->]|(_ & z & _ & ->)]; [by left|by right].
Qed.

(** Either nothing changed, or the row that was read was updated. *)
Lemma SyncOne_update Do name r x r' :
  Sync Do name r = (x, r') ->
  table r' = table r \/
  exists a b, table r !! name = Some a /\ table r' = <[name := b]> (table r) /\ sync_outcome Do a b.
Proof.
  unfold SyncOne, bindE, bind, ret. destruct (Get name r) as [[e|rs] r1] eqn:EG.
  { apply stmt_get in EG as (Ht & _ & _). intros [= <- <-]. by left. }
  apply stmt_get in EG as (Ht & _ & Hrs). specialize (Hrs rs eq_refl).
  assert (forall f, alter f name (table r) = <[name := f rs]> (table r)) as HA.
  { intros f. apply map_eq. intros n. destruct (decide (n = name)) as [->|Hne].
    - by rewrite lookup_alter_eq, lookup_insert_eq, Hrs.
    - by rewrite lookup_alter_ne, lookup_insert_ne by done. }
  assert (forall e, record Error name e r1 = (x, r') -> table r' = table r \/
    exists a b, table r !! name = Some a /\ table r' = <[name := b]> (table r) /\ sync_outcome Do a b) as HR.
  { intros e [_ [Hr|Hr]]%record_cases; rewrite Ht in Hr; [by left|right]. rewrite HA in Hr.
    exists rs. eexists. split; [done|]. split; [exact Hr|]. by apply SameContent. }
  destruct (ValidateHTTPURL _ _) as [e|u]; [apply HR|].
  destruct (NewRequest _); cbn [negb]; [|intros [= <- <-]; by left].
  destruct (Do _ _) as [resp|] eqn:ED; [|apply HR].
  destruct (Z.eqb_spec (StatusCode resp) 304) as [|H304].
  { intros [[_ Hr]|(_ & z & _ & Hr)]%update_row_cases; rewrite Ht in Hr; [by left|right]. rewrite HA in Hr.
    exists rs. eexists. split; [done|]. split; [exact Hr|]. by apply SameContent. }
  destruct (Z.leb_spec 400 (StatusCode resp)) as [|H400]; [apply HR|].
  destruct (read_limited _ _) as [body|] eqn:EB; [|apply HR].
  destruct (MaxBytes <? len body)%Z eqn:EL; [apply HR|].
  destruct (read_limited_ok _ _ EB EL) as (-> & Hf & Hl).
  intros [[_ Hr]|(_ & z & _ & Hr)]%update_row_cases; rewrite Ht in Hr; [by left|right]. rewrite HA in Hr.
  exists rs. eexists. split; [done|]. split; [exact Hr|]. by eapply FreshContent.
Qed.

Lemma sync_outcome_ok Do n a b : sync_outcome Do a b -> row_ok MaxBytes n a -> row_ok MaxBytes n b.
Proof.
  intros [Hb|resp _ _ _ _ Hl Hb] (H1 & H2 & H3 & H4 & H5 & H6 & H7); rewrite Hb; by repeat split.
Qed.

Lemma SyncOne_keeps Do name : keeps (on_table reg_ok) (Sync Do name).
Proof.
  intros r HP. destruct (Sync Do name r) as [x r'] eqn:E. cbn. unfold on_table in *.
  apply SyncOne_update in E as [->|(a & b & Ha & -> & Ho)]; [done|].
  apply map_Forall_insert_2; [|done]. eapply sync_outcome_ok; [done|]. by apply HP.
Qed.

Lemma Upsert_keeps x : keeps (on_table reg_ok) (Upsert x).
Proof.
  unfold Upsert. repeat case_bool_decide; try apply keeps_ret. apply keeps_stmt. intros r HP. cbn.
  assert (default_priority (RPriority x) <> 0%Z) as Hp by (unfold default_priority; destruct (Z.eqb_spec (RPriority x) 0); lia).
  destruct (table r !! Name x) as [old|] eqn:E; apply map_Forall_insert_2; try done.
  destruct (HP _ _ E) as (H1' & H2' & H3' & H4' & H5' & H6' & H7'). by repeat split.
Qed.

Lemma sync_all_keeps Do l :
  keeps (on_table reg_ok) (sync_all url_Parse NewRequest Do Error MaxBytes UserAgent l).
Proof.
  induction l as [|rs l IH]; cbn [sync_all]; [apply keeps_ret|]. apply keeps_bind; [|intros _; exact IH].
  destruct (REnabled rs); [|apply keeps_ret]. apply keeps_bind; [apply SyncOne_keeps|intros _; apply keeps_ret].
Qed.

(** ** Any sequence of operations

    Each may meet another clock, other database faults and another network. *)
Inductive reg_op :=
| OpEnv (now : Z) (f : list bool)
| OpUpsert (x : Ruleset) | OpDelete (n : bytes) | OpSetEnabled (n : bytes) (b : bool)
| OpSync (Do : Doer) (n : bytes) | OpTick (Do : Doer).

Definition reg_step (op : reg_op) : ST Reg unit :=
  match op with
  | OpEnv now f => modify (fun r => {| table := table r; clock := now; faults := f |})
  | OpUpsert x => let! _ := Upsert x in ret tt
  | OpDelete n => let! _ := Delete n in ret tt
  | OpSetEnabled n b => let! _ := SetEnabled n b in ret tt
  | OpSync Do n => let! _ := Sync Do n in ret tt
  | OpTick Do => Run_tick url_Parse NewRequest Do Error MaxBytes UserAgent
  end.

Definition reg_run (ops : list reg_op) : Reg :=
  foldl (fun r op => (reg_step op r).2) {| table := ∅; clock := 0; faults := [] |} ops.

Lemma reg_step_keeps op : keeps (on_table reg_ok) (reg_step op).
Proof.
  destruct op; cbn [reg_step]; try (apply keeps_bind; [|intros _; apply keeps_ret]).
  - apply keeps_modify. done.
  - apply Upsert_keeps.
  - apply keeps_stmt. intros r HP. cbn. by apply map_Forall_delete.
  - apply keeps_update_row. intros r t HP. apply map_Forall_alter; [|done].
    intros rs (H1 & H2 & H3 & H4 & H5 & H6 & H7). by repeat split.
  - apply SyncOne_keeps.
  - unfold Run_tick. apply keeps_bind; [apply keeps_read|]. intros [e|l]; [apply keeps_ret|apply sync_all_keeps].
Qed.

Lemma reg_run_ok ops : reg_ok (table (reg_run ops)).
Proof.
  unfold reg_run. assert (reg_ok (table {| table := ∅; clock := 0; faults := [] |})) as HI by apply map_Forall_empty.
  revert HI. generalize {| table := (∅ : gmap bytes Ruleset); clock := 0%Z; faults := [] |}.
  induction ops as [|op ops IH]; intros r Hr; cbn [foldl]; [done|]. apply IH. by apply (reg_step_keeps op r).
Qed.

Lemma reg_ok_names t : reg_ok t -> NoDup (Name <$> listing t).
Proof. intros Ht. apply listing_names. intros n rs Hn. by destruct (Ht n rs Hn). Qed.
End registry.

(** ** Properties *)
Section properties.
Context `{Unicode} (IsDomainName : bytes -> bool).
Context (url_Parse : bytes -> option URL) (NewRequest : bytes -> bool)
        (Error : RSError -> bytes) (MaxBytes : Z) (UserAgent : bytes).

Abbreviation run ops := (reg_run url_Parse NewRequest Error MaxBytes UserAgent ops).

Lemma ExpandWithGroups_ok r rules managed r' :
  ExpandWithGroups IsDomainName r = (Ok (rules, managed), r') ->
  table r' = table r /\ expandList IsDomainName (listing (table r)) = Ok rules /\
  managed = list_to_set (Name <$> listing (table r)) /\ (faults r = [] -> r' = r).
Proof.
  unfold ExpandWithGroups, bindE, bind, ret, List_, stmt.
  destruct (faults r) as [|[] l] eqn:EF; cbn; try done;
    destruct (expandList _ _) eqn:E; intros [= <- <- <-]; by rewrite ?EF.
Qed.

(** The rules of a registry that is well formed. *)
Lemma expand_managed t rules r :
  reg_ok MaxBytes t -> expandList IsDomainName (listing t) = Ok rules -> r ∈ rules ->
  GroupID r <> [] /\ GroupID r ∈ (list_to_set (Name <$> listing t) : gset bytes).
Proof.
  intros Ht HE Hr. destruct (expandList_facts IsDomainName _ _ HE) as (HO & _).
  destruct (HO r Hr) as (rs & Hrs & _ & (_ & _ & HG & _) & _). rewrite HG. split.
  - apply elem_of_listing in Hrs as [n Hn]. destruct (Ht n rs Hn) as (-> & Hne & _). done.
  - apply elem_of_list_to_set, list_elem_of_fmap. eauto.
Qed.

(** whatever sequence of registrations, deletions, toggles, syncs and
    background ticks runs, under any database failures, clocks and answers of
    the network, every row of the registry is keyed by its own non-empty
    name, has a URL, an action and a non-zero priority, its rule count is the
    number of lines the importer makes of its content, and its content is
    within the size limit. *)
Theorem registry_invariant ops :
  (0 <= MaxBytes)%Z -> reg_ok MaxBytes (table (run ops)).
Proof. intros HM. by apply reg_run_ok. Qed.

(** synchronising one ruleset changes no other row and no registration
    column; the cached content is replaced, together with its count and its
    cache headers, only by the whole body of an answer that was not 304, was
    below 400, was read to its end and is within the limit; in every other
    case (no row, bad URL, failed request, 304, error status, oversized or
    broken body) the content, its count and its headers are kept. *)
Theorem SyncOne_frame Do name r x r' :
  (0 <= MaxBytes)%Z ->
  SyncOne url_Parse NewRequest Do Error MaxBytes UserAgent name r = (x, r') ->
  (forall n, n <> name -> table r' !! n = table r !! n) /\
  (forall n, registration <$> table r' !! n = registration <$> table r !! n) /\
  (table r' !! name = table r !! name \/
   exists a b, table r !! name = Some a /\ table r' !! name = Some b /\
     sync_outcome MaxBytes UserAgent Do a b).
Proof.
  intros HM [Hr|(a & b & Ha & Hr & Ho)]%SyncOne_update; [|rewrite Hr|done].
  - rewrite Hr. split; [done|]. split; [done|]. by left.
  - assert (registration b = registration a) as HR by (destruct Ho as [Hb|? _ _ _ _ _ Hb]; by rewrite Hb).
    split; [intros n Hn; by rewrite lookup_insert_ne|]. split.
    + intros n. destruct (decide (n = name)) as [->|Hn]; [|by rewrite lookup_insert_ne].
      rewrite lookup_insert_eq, Ha. cbn. by rewrite HR.
    + right. exists a, b. by rewrite lookup_insert_eq.
Qed.

(** the expansion of any reachable registry, when it succeeds, holds only
    rules that Validate accepts, each enabled, with the group and the
    priority of an enabled ruleset with content and with its action unless
    the list said direct or block; every such ruleset contributes a rule; and
    no two rules have the same id. *)
Theorem Expand_sound ops rules managed r' :
  (0 <= MaxBytes)%Z ->
  ExpandWithGroups IsDomainName (run ops) = (Ok (rules, managed), r') ->
  (forall r, r ∈ rules -> exists n rs, table (run ops) !! n = Some rs /\ contributes rs = true /\
     expanded_from IsDomainName rs r /\ GroupID r = n /\ n ∈ managed) /\
  (forall n rs, table (run ops) !! n = Some rs -> contributes rs = true ->
     exists r, r ∈ rules /\ GroupID r = n) /\
  ((len rules < 10 ^ 20)%Z -> NoDup (ID <$> rules)).
Proof.
  intros HM (_ & HE & -> & _)%ExpandWithGroups_ok.
  pose proof (reg_run_ok url_Parse NewRequest Error MaxBytes UserAgent HM ops) as HR.
  pose proof (reg_ok_names MaxBytes _ HR) as Hnames.
  destruct (expandList_facts IsDomainName _ _ HE) as (HO & HN & HD). split; [|split].
  - intros r Hr. destruct (HO r Hr) as (rs & Hrs & Hc & Hf & _).
    apply elem_of_listing in Hrs as [n Hn]. pose proof (HR n rs Hn) as (Hname & _).
    pose proof Hf as (_ & _ & HG & _). exists n, rs. repeat split; try done; try congruence; try apply Hf.
    rewrite <- Hname. apply elem_of_list_to_set, list_elem_of_fmap. exists rs. split; [done|].
    apply elem_of_listing. by exists n.
  - intros n rs Hn Hc. destruct (HR n rs Hn) as (<- & _). apply HN; [|done]. apply elem_of_listing. by eexists.
  - by apply HD.
Qed.

(** expanding the registered rulesets into a rule list twice is the same
    as doing it once: the effective rules a client sends back do not
    accumulate copies, and the operator's own rules stay, in order, in front. *)
Theorem expandRulesets_idempotent ops rules out r' :
  (0 <= MaxBytes)%Z -> faults (run ops) = [] ->
  expandRulesets IsDomainName true rules (run ops) = (Ok out, r') ->
  expandRulesets IsDomainName true out (run ops) = (Ok out, run ops) /\
  exists own extra, out = own ++ extra /\ own `sublist_of` rules /\
    Forall (fun r => GroupID r = [] -> r ∈ own) (filter (fun r => GroupID r = []) rules).
Proof.
  intros HM HF. unfold expandRulesets. cbn [negb]. unfold bindE, bind.
  destruct (ExpandWithGroups IsDomainName (run ops)) as [[e|[extra managed]] r1] eqn:E; [done|].
  unfold ret. intros [= <- <-]. pose proof (ExpandWithGroups_ok _ _ _ _ E) as (_ & HE & Hm & Hr).
  rewrite (Hr HF) in E |- *. cbn [fst snd].
  pose proof (reg_run_ok url_Parse NewRequest Error MaxBytes UserAgent HM ops) as HR.
  set (own := stripRulesetExpansions rules managed).
  assert (stripRulesetExpansions (own ++ extra) managed = own) as ->.
  { unfold stripRulesetExpansions. rewrite filter_app.
    assert (filter (fun r => ~ (GroupID r <> [] /\ GroupID r ∈ managed)) extra = []) as ->.
    { apply elem_of_nil_inv. intros r [Hn Hr']%list_elem_of_filter. apply Hn. rewrite Hm. by eapply expand_managed. }
    rewrite app_nil_r. unfold own, stripRulesetExpansions. rewrite list_filter_filter.
    apply list_filter_iff. intros r. tauto. }
  split; [done|]. exists own, extra. split; [done|]. split; [apply sublist_filter|].
  apply Forall_forall. intros r Hin HG. apply list_elem_of_filter in Hin as [_ Hin].
  apply list_elem_of_filter. split; [|done]. rewrite HG. tauto.
Qed.

End properties.

(** ** Concrete inputs *)
Module Demo.
#[local] Existing Instance ascii_tables.

Definition parse (s : bytes) : option URL :=
  Some {| Scheme := str "https"; Hostname := str "lists.example"; User := None |}.
Definition any_domain (_ : bytes) : bool := true.
Definition error_text (_ : RSError) : bytes := str "failed".
Definition answer (code : Z) (body : bytes) (_ : bytes) (_ : list (bytes * bytes)) : option Response :=
  Some {| StatusCode := code; BodyData := body; BodyFails := false; h_ETag := str "v1"; h_LastModified := [] |}.

Definition gfw : Ruleset :=
  {| Name := str "gfw"; SourceURL := str "https://lists.example/gfw"; RKind := str "clash"; RAction := str "hk";
     RPriority := 0; REnabled := true; ETag := []; LastModified := []; LastSyncedAt := None; LastError := [];
     RuleCount := 0; Content := []; CreatedAt := None; CreatedBy := str "admin" |}.

Definition limit : Z := 4096.
Abbreviation demo_run ops := (reg_run parse (fun _ => true) error_text limit (str "agent") ops).
Abbreviation demo_sync code body :=
  (SyncOne parse (fun _ => true) (answer code body) error_text limit (str "agent") (str "gfw")).

Definition ops : list (reg_op) := [OpEnv 7 []; OpUpsert gfw; OpSync (answer 200 gfw_wrapped) (str "gfw")].

Definition manual : Rule :=
  {| ID := str "mine"; kind := KindDomain; Pattern := str "a.b"; Action := str "direct"; Priority := 1;
     Enabled := true; Notes := []; GroupID := [] |}.

Lemma expand_succeeds : res_ok (ExpandWithGroups any_domain (demo_run ops)).1 = true.
Proof. by vm_compute. Qed.

Lemma expandRulesets_succeeds : res_ok (expandRulesets any_domain true [manual] (demo_run ops)).1 = true.
Proof. by vm_compute. Qed.

(** The rules of the sample list. *)
Example expanded_rules :
  match (ExpandWithGroups any_domain (demo_run ops)).1 with
  | Ok (rules, _) => (fun r => (ID r, kind r, Pattern r, Action r, Priority r)) <$> rules =
      [(str "gfw-1", KindDomainSuffix, str "a.com", str "hk", 500%Z);
       (str "gfw-2", KindDomainSuffix, str "b.org", str "direct", 500%Z);
       (str "gfw-3", KindDomainSuffix, str "c.net", str "hk", 500%Z)]
  | Err _ => False
  end.
Proof. by vm_compute. Qed.

(** An answer 204 without a body is taken for new content: the cached list is
    gone, although the comment of SyncOne says that anything but 200 and 304
    is recorded as an error. *)
Example no_content_erases :
  (fun rs => (Content rs, RuleCount rs, LastError rs)) <$> table (demo_sync 204 [] (demo_run ops)).2 !! str "gfw" =
  Some ([], 0%Z, []).
Proof. by vm_compute. Qed.

(** A comma inside quotes is lost between the importer, which drops the
    quotes, and [splitCSV3], which splits again. *)
Example quoted_comma :
  (ImportLegacy (str "DOMAIN-KEYWORD," ++ quote :: str "a,b" ++ quote :: str ",direct") no_options).1 =
    [str "DOMAIN-KEYWORD,a,b,direct"] /\
  splitCSV3 (str "DOMAIN-KEYWORD,a,b,direct") = [str "DOMAIN-KEYWORD"; str "a"; str "b,direct"].
Proof. by vm_compute. Qed.
End Demo.

#[local] Existing Instance ascii_tables.

Lemma registry_invariant_witness :
  (0 <= Demo.limit)%Z /\
  reg_ok Demo.limit (table (reg_run Demo.parse (fun _ => true) Demo.error_text Demo.limit (str "agent") Demo.ops)).
Proof.
  assert (0 <= Demo.limit)%Z as HL by (vm_compute; discriminate). split; [exact HL|].
  exact (registry_invariant Demo.parse (fun _ => true) Demo.error_text Demo.limit (str "agent") Demo.ops HL).
Defined.

Lemma SyncOne_frame_witness :
  (0 <= Demo.limit)%Z /\
  let r := reg_run Demo.parse (fun _ => true) Demo.error_text Demo.limit (str "agent") Demo.ops in
  let r' := (SyncOne Demo.parse (fun _ => true) (Demo.answer 500 []) Demo.error_text Demo.limit (str "agent") (str "gfw") r).2 in
  registration <$> table r' !! str "gfw" = registration <$> table r !! str "gfw".
Proof.
  assert (0 <= Demo.limit)%Z as HL by (vm_compute; discriminate). split; [exact HL|]. intros r r'.
  destruct (SyncOne_frame Demo.parse (fun _ => true) Demo.error_text Demo.limit (str "agent")
    (Demo.answer 500 []) (str "gfw") r _ r' HL (surjective_pairing _)) as (_ & HR & _).
  exact (HR (str "gfw")).
Defined.

Lemma Expand_sound_witness :
  (0 <= Demo.limit)%Z /\
  exists rules managed r',
    ExpandWithGroups Demo.any_domain
      (reg_run Demo.parse (fun _ => true) Demo.error_text Demo.limit (str "agent") Demo.ops) = (Ok (rules, managed), r') /\
    forall r, r ∈ rules -> Enabled r = true.
Proof.
  assert (0 <= Demo.limit)%Z as HL by (vm_compute; discriminate). split; [exact HL|].
  pose proof Demo.expand_succeeds as HS.
  destruct (ExpandWithGroups _ _) as [[e|[rules managed]] r'] eqn:E; [discriminate HS|].
  exists rules, managed, r'. split; [reflexivity|]. intros r Hr.
  destruct (Expand_sound Demo.any_domain Demo.parse (fun _ => true) Demo.error_text Demo.limit (str "agent")
    Demo.ops rules managed r' HL E) as (H1 & _ & _).
  destruct (H1 r Hr) as (n & rs & _ & _ & (_ & HE & _) & _). exact HE.
Defined.

Lemma expandRulesets_idempotent_witness :
  (0 <= Demo.limit)%Z /\
  let r := reg_run Demo.parse (fun _ => true) Demo.error_text Demo.limit (str "agent") Demo.ops in
  faults r = [] /\
  exists out, expandRulesets Demo.any_domain true [Demo.manual] r = (Ok out, r) /\
    expandRulesets Demo.any_domain true out r = (Ok out, r).
Proof.
  assert (0 <= Demo.limit)%Z as HL by (vm_compute; discriminate). split; [exact HL|]. intros r.
  assert (faults r = []) as HF by (vm_compute; reflexivity). split; [exact HF|].
  pose proof Demo.expandRulesets_succeeds as HS.
  destruct (expandRulesets Demo.any_domain true [Demo.manual] r) as [[e|out] r'] eqn:E.
  - fold r in HS. rewrite E in HS. discriminate HS.
  - exists out.
    destruct (expandRulesets_idempotent Demo.any_domain Demo.parse (fun _ => true) Demo.error_text Demo.limit
      (str "agent") Demo.ops [Demo.manual] out r' HL HF E) as (H1 & _).
    split; [|exact H1]. unfold expandRulesets, bindE, bind, ret in E. cbn [negb] in E.
    destruct (ExpandWithGroups Demo.any_domain r) as [[e|x] r1] eqn:E1; [discriminate E|].
    destruct x as [a m]. destruct (ExpandWithGroups_ok _ _ _ _ _ E1) as (_ & _ & _ & Hr).
    injection E as _ E2. rewrite <- E2, (Hr HF). reflexivity.
Defined.

Definition cached : Ruleset := set_sync [] [] None [] 3 gfw_wrapped Demo.gfw.

Lemma sample_text : list_text gfw_items_sample = gfw_body_sample.
Proof. by vm_compute. Qed.

