(* ===== verification/Chinalist.v ===== *)
(** * The China list download

    [internal/rules/chinalist.go] with the ETag rows of internal/db/queries.go
    ([GetRuleSourceETag], [UpsertRuleSourceETag]).  The world is the files by
    path, the ETags by URL and the outcomes of the next calls of the file
    system and of the database ([false]: the call fails and does nothing).
    [CreateTemp]'s choice of a name is a parameter: a file that does not
    exist yet.  The HTTP client and [url.Parse] are parameters. *)
From S2P Require Import Prelude GoStrings Netguard Rulesets.
From Stdlib Require Import ZArith Lia.

Record World := { files : gmap bytes bytes; etags : gmap bytes bytes; outcomes : list bool }.

Definition set_files (f : gmap bytes bytes) (w : World) : World :=
  {| files := f; etags := etags w; outcomes := outcomes w |}.

Inductive CLError :=
| CLURL (e : GuardError) | CLRequest | CLFetch | CLStatus (code : Z) | CLMkdir | CLTemp | CLWrite
| CLTooLarge | CLClose | CLRename.

Abbreviation CL A := (ST World (res CLError A)).

(** A call that can fail with [e], or else changes the world by [f]. *)
Definition attempt (e : CLError) (f : World -> World) : CL unit := fun w =>
  match outcomes w with
  | false :: l => (Err e, {| files := files w; etags := etags w; outcomes := l |})
  | true :: l => (Ok tt, f {| files := files w; etags := etags w; outcomes := l |})
  | [] => (Ok tt, f w)
  end.

(** A call whose error is thrown away. *)
Definition ignoring {W E A} (m : ST W (res E A)) : ST W unit := let! _ := m in ret tt.

Definition maxChinaListBytes : Z := 50 * 2 ^ 20.

Section chinalist.
Context (url_Parse : bytes -> option URL) (NewRequest : bytes -> bool)
        (Do : bytes -> list (bytes * bytes) -> option Response).
(** [os.CreateTemp(dir, pattern)]: a name that is not taken. *)
Context (TempName : gmap bytes bytes -> bytes -> bytes).
(** Whether the process is given a database. *)
Context (store : bool).

(** [GetRuleSourceETag]: no row is an empty tag, and so is an error here. *)
Definition previous_etag (url : bytes) : ST World bytes :=
  if negb store then ret []
  else let! r := attempt CLFetch id in
       match r with Err _ => ret [] | Ok _ => gets (fun w => default [] (etags w !! url)) end.

(** [UpsertRuleSourceETag]. *)
Definition store_etag (url etag : bytes) : ST World unit :=
  if store && (etag != []) then
    ignoring (attempt CLFetch (fun w =>
      {| files := files w; etags := <[url := etag]> (etags w); outcomes := outcomes w |}))
  else ret tt.

(** From [os.CreateTemp] on: the copy, the cap, the close and the rename; the
    deferred function closes and removes the temporary file. *)
Definition write_temp (tmp path : bytes) (resp : Response) : CL unit :=
  match read_limited resp (maxChinaListBytes + 1) with
  | None =>
      let! _ := modify (fun w => set_files (<[tmp := BodyData resp]> (files w)) w) in
      ret (Err CLWrite)
  | Some body =>
      let? _ := attempt CLWrite (fun w => set_files (<[tmp := body]> (files w)) w) in
      if (maxChinaListBytes <? len body)%Z then ret (Err CLTooLarge)
      else
        let? _ := attempt CLClose id in
        attempt CLRename (fun w => set_files (<[path := body]> (delete tmp (files w))) w)
  end.

Definition remove_temp (tmp : bytes) : ST World unit :=
  ignoring (attempt CLTemp (fun w => set_files (delete tmp (files w)) w)).

Definition replace_file (path : bytes) (resp : Response) : CL unit :=
  let? _ := attempt CLMkdir id in
  let! tmp := gets (fun w => TempName (files w) path) in
  let? _ := attempt CLTemp (fun w => set_files (<[tmp := []]> (files w)) w) in
  let! r := write_temp tmp path resp in
  let! _ := remove_temp tmp in
  ret r.

(** [syncWithClient]. *)
Definition Sync (url path : bytes) : CL unit :=
  match ValidateHTTPURL url_Parse url with
  | Err e => ret (Err (CLURL e))
  | Ok _ =>
      let! prev := previous_etag url in
      if negb (NewRequest url) then ret (Err CLRequest)
      else match Do url (if prev == [] then [] else [(str "If-None-Match", prev)]) with
           | None => ret (Err CLFetch)
           | Some resp =>
               if (StatusCode resp =? 304)%Z then ret (Ok tt)
               else if negb (StatusCode resp =? 200)%Z then ret (Err (CLStatus (StatusCode resp)))
               else
                 let? _ := replace_file path resp in
                 let! _ := store_etag url (h_ETag resp) in
                 ret (Ok tt)
           end
  end.

(** ** Lemmas *)

(** [CreateTemp] never opens an existing file, nor the target. *)
Context (Temp_fresh : forall fs path, fs !! TempName fs path = None /\ TempName fs path <> path).

Lemma wp_attempt e f (Q : res CLError unit -> World -> Prop) w :
  (forall l, Q (Err e) {| files := files w; etags := etags w; outcomes := l |}) ->
  (forall l, Q (Ok tt) (f {| files := files w; etags := etags w; outcomes := l |})) ->
  wp (attempt e f) Q w.
Proof.
  intros HE HO. unfold wp, attempt. destruct w as [fs es [|[] l]]; cbn in *; [apply (HO [])|apply HO|apply HE].
Qed.

Lemma wp_ignoring {A} (m : CL A) (Q : unit -> World -> Prop) w :
  wp m (fun _ w => Q tt w) w -> wp (ignoring m) Q w.
Proof. intros Hm. apply wp_bind. eapply wp_mono; [exact Hm|]. done. Qed.

(** A whole answer within the cap. *)
Definition whole (resp : Response) : Prop :=
  BodyFails resp = false /\ (len (BodyData resp) <= maxChinaListBytes)%Z.

(** What the replacement of [path] through a temporary file leaves of the
    files [fs] and the tags [es]. *)
Definition replaced (fs es : gmap bytes bytes) (tmp path : bytes) (resp : Response)
    (r : res CLError unit) (w : World) : Prop :=
  etags w = es /\ (forall p, p <> path -> p <> tmp -> files w !! p = fs !! p) /\
  match r with
  | Ok _ => files w !! path = Some (BodyData resp) /\ whole resp
  | Err _ => files w !! path = fs !! path
  end.

Lemma read_cap resp n body :
  (0 <= n)%Z -> read_limited resp (n + 1) = Some body -> (n <? len body)%Z = false ->
  body = BodyData resp /\ BodyFails resp = false /\ (len (BodyData resp) <= n)%Z.
Proof. intros Hn. by apply read_limited_ok. Qed.

Lemma write_temp_spec fs tmp path resp w :
  tmp <> path -> files w = <[tmp := []]> fs ->
  wp (write_temp tmp path resp) (replaced fs (etags w) tmp path resp) w.
Proof.
  intros Hne Hw. unfold write_temp, replaced. destruct (read_limited _ _) as [body|] eqn:EB.
  2: { apply wp_bind. unfold wp. cbn. rewrite Hw. split; [done|]. split.
       - intros p Hp Ht. by rewrite !lookup_insert_ne.
       - by rewrite !lookup_insert_ne. }
  assert (forall p, p <> tmp -> <[tmp := body]> (<[tmp := []]> fs) !! p = fs !! p) as HF
    by (intros p Hp; by rewrite !lookup_insert_ne).
  assert (forall p, p <> tmp -> <[tmp := []]> fs !! p = fs !! p) as HF0 by (intros p Hp; by rewrite lookup_insert_ne).
  apply wp_bindE, wp_attempt; intros l; cbn; rewrite Hw; [split; [done|]; split; auto|].
  destruct (_ <? _)%Z eqn:EL; [apply wp_ret; cbn; split; [done|]; split; auto|].
  apply (read_cap resp maxChinaListBytes) in EB as (-> & HB & HL); [|done|done].
  apply wp_bindE, wp_attempt; intros l1; cbn; [split; [done|]; split; auto|].
  apply wp_attempt; intros l2; cbn; (split; [done|]); (split; [|auto]).
  - auto.
  - intros p Hp Ht. rewrite lookup_insert_ne, lookup_delete_ne by done. auto.
  - by rewrite lookup_insert_eq.
Qed.

Lemma replace_file_spec path resp w :
  wp (replace_file path resp) (fun r w' => exists tmp, files w !! tmp = None /\
    replaced (files w) (etags w) tmp path resp r w') w.
Proof.
  unfold replace_file, replaced. destruct (Temp_fresh (files w) path) as [HT HP].
  apply wp_bindE, wp_attempt; intros l; cbn; [by eexists|].
  apply wp_bind. unfold gets. cbn. apply wp_bindE, wp_attempt; intros l1; cbn; [by eexists|].
  apply wp_bind. eapply wp_mono; [by apply (write_temp_spec (files w))|]. cbn. intros r w1 (HE & HF & HR).
  apply wp_bind, wp_ignoring, wp_attempt; intros l2; cbn; exists (TempName (files w) path);
    (split; [done|]); (split; [done|]); cbn.
  - done.
  - split.
    + intros p Hp Ht. rewrite lookup_delete_ne by done. auto.
    + by rewrite lookup_delete_ne.
Qed.

(** ** Properties *)

(** a download never leaves a partial list: whatever file operation or
    database call fails, every other existing file is untouched, the target is
    as before or holds the whole body of a 200 answer within the cap, and a
    success other than 304 means it holds that body; the remembered tag
    changes only after the file was replaced, to the tag of that answer. *)
Theorem Sync_atomic url path w r w' :
  Sync url path w = (r, w') ->
  (forall p, p <> path -> is_Some (files w !! p) -> files w' !! p = files w !! p) /\
  ((files w' !! path = files w !! path /\ etags w' = etags w /\
    (r = Ok tt -> exists headers resp, Do url headers = Some resp /\ StatusCode resp = 304%Z)) \/
   exists headers resp, Do url headers = Some resp /\ StatusCode resp = 200%Z /\ whole resp /\ r = Ok tt /\
     files w' !! path = Some (BodyData resp) /\
     (etags w' = etags w \/ etags w' = <[url := h_ETag resp]> (etags w))).
Proof.
  revert r w'. cut (wp (Sync url path) (fun r w' =>
    (forall p, p <> path -> is_Some (files w !! p) -> files w' !! p = files w !! p) /\
    ((files w' !! path = files w !! path /\ etags w' = etags w /\
      (r = Ok tt -> exists headers resp, Do url headers = Some resp /\ StatusCode resp = 304%Z)) \/
     exists headers resp, Do url headers = Some resp /\ StatusCode resp = 200%Z /\ whole resp /\ r = Ok tt /\
       files w' !! path = Some (BodyData resp) /\
       (etags w' = etags w \/ etags w' = <[url := h_ETag resp]> (etags w)))) w).
  { intros Hw r w' E. exact (wp_elim _ _ _ _ _ Hw E). }
  unfold Sync. destruct (ValidateHTTPURL _ _) as [e|u]; [apply wp_ret; naive_solver|].
  apply wp_bind. apply (wp_mono _ (fun _ w1 => files w1 = files w /\ etags w1 = etags w)).
  { unfold previous_etag. destruct store; cbn; [|done]. apply wp_bind, wp_attempt; intros l; cbn; done. }
  intros prev w1 [HF HE]. destruct (NewRequest url); cbn [negb]; [|apply wp_ret; rewrite HF, HE; naive_solver].
  destruct (Do url _) as [resp|] eqn:ED; [|apply wp_ret; rewrite HF, HE; naive_solver].
  destruct (Z.eqb_spec (StatusCode resp) 304) as [H304|_].
  { apply wp_ret. rewrite HF, HE. split; [done|]. left. split; [done|]. split; [done|]. eauto. }
  destruct (Z.eqb_spec (StatusCode resp) 200) as [H200|_]; cbn [negb]; [|apply wp_ret; rewrite HF, HE; naive_solver].
  apply wp_bindE. eapply wp_mono; [apply replace_file_spec|]. cbn. intros r2 w2 (tmp & Ht & HE2 & HF2 & HR2).
  rewrite HF in *. rewrite HE in HE2.
  assert (forall p, p <> path -> is_Some (files w !! p) -> files w2 !! p = files w !! p) as HO.
  { intros p Hp [v Hv]. apply HF2; [done|]. intros ->. congruence. }
  destruct r2 as [e|[]].
  { split; [done|]. left. done. }
  destruct HR2 as [HR2 HW]. apply wp_bind. unfold store_etag. destruct (store && _).
  - apply wp_ignoring, wp_attempt; intros l; cbn; apply wp_ret; cbn; (split; [done|]); right; eexists _, resp;
      rewrite HE2; eauto 10.
  - apply wp_ret, wp_ret. split; [done|]. right. eexists _, resp. eauto 10.
Qed.
End chinalist.

(** ** Concrete inputs *)
Module Demo.
Definition parse (s : bytes) : option URL :=
  Some {| Scheme := str "https"; Hostname := str "lists.example"; User := None |}.
Definition answer (code : Z) (body : bytes) (_ : bytes) (_ : list (bytes * bytes)) : option Response :=
  Some {| StatusCode := code; BodyData := body; BodyFails := false; h_ETag := str "v1"; h_LastModified := [] |}.

#[local] Instance byte_inhabited : Inhabited byte := populate Byte.x00.

(** A name that is neither taken nor the target. *)
Definition fresh_name (fs : gmap bytes bytes) (path : bytes) : bytes :=
  fresh (dom fs ∪ {[path]}).

Lemma fresh_name_ok fs path : fs !! fresh_name fs path = None /\ fresh_name fs path <> path.
Proof.
  pose proof (is_fresh (dom fs ∪ {[path]})) as HF. fold (fresh_name fs path) in HF. split.
  - apply not_elem_of_dom. set_solver.
  - set_solver.
Qed.

Definition empty : World := {| files := ∅; etags := {[str "u" := str "v1"]}; outcomes := [] |}.

(** The tag belongs to the URL, not to the file: with the file gone, or with a
    new path, an answer 304 is a success that leaves no list at all. *)
Example not_modified_no_file :
  let '(r, w) := Sync parse (fun _ => true) (answer 304 []) fresh_name true (str "u") (str "p") empty in
  r = Ok tt /\ files w !! str "p" = None.
Proof. by vm_compute. Qed.
End Demo.

Lemma Sync_atomic_witness :
  let w' := (Sync Demo.parse (fun _ => true) (Demo.answer 500 []) Demo.fresh_name true (str "u") (str "p") Demo.empty).2 in
  files w' !! str "p" = files Demo.empty !! str "p" \/
  exists resp, files w' !! str "p" = Some (BodyData resp) /\ whole resp.
Proof.
  intros w'.
  destruct (Sync_atomic Demo.parse (fun _ => true) (Demo.answer 500 []) Demo.fresh_name true Demo.fresh_name_ok
    (str "u") (str "p") Demo.empty _ w' (surjective_pairing _)) as (_ & [(HF & _)|(h & resp & _ & _ & HW & _ & HF & _)]).
  - left. exact HF.
  - right. exists resp. split; [exact HF|exact HW].
Defined.
