(* ===== verification/PanelAuth.v ===== *)
(** * Panel authentication

    [internal/api/auth.go], middleware.go and the account handlers of
    panel.go: the login rate limiter with its lockout, the session tokens
    over the session table of [Db], the bootstrap claim, login, logout and
    the change of password.  Times are nanoseconds; time.Now() is the clock
    [now] of the database.  JWT, bcrypt, the token bucket of
    golang.org/x/time/rate and the order of a range over a map are
    parameters; uuid.NewString() and the salted hash come as arguments. *)
From S2P Require Import Prelude GoStrings Crypto Db.
From Stdlib Require Import ZArith Lia.
Local Open Scope Z_scope.

Definition second : Z := 1000000000.
Definition minute : Z := 60 * second.

Definition limiterVisitorTTL : Z := 60 * minute.
Definition limiterSweepEvery : Z := 5 * minute.
Definition limiterMaxVisitors : Z := 10000.

(** ** middleware.go: [ipLimiter] *)

(** A token bucket of golang.org/x/time/rate. *)
Class TokenBucket := {
  Bucket : Type;
  NewBucket : Bucket;                       (* rate.NewLimiter(rps, burst) *)
  BucketAllow : Z -> Bucket -> bool * Bucket (* Allow, at a time *)
}.

Section limiter.
Context `{TokenBucket}.

(** [ipRecord]; [None] is the zero time. *)
Record ipRecord := { lim : Bucket; failures : Z; lockUntil : option Z; lastSeen : Z }.

Record ipLimiter := { lockMinutes : Z; visitors : gmap bytes ipRecord; lastSweep : option Z }.

Definition set_visitors (v : gmap bytes ipRecord) (l : ipLimiter) : ipLimiter :=
  {| lockMinutes := lockMinutes l; visitors := v; lastSweep := lastSweep l |}.

(** [now.Before(rec.lockUntil)]. *)
Definition locked (now : Z) (r : ipRecord) : bool :=
  match lockUntil r with Some t => now <? t | None => false end.

(** [prune]. *)
Definition prune (now : Z) (l : ipLimiter) : ipLimiter :=
  match lastSweep l with
  | Some t =>
      if now - t <? limiterSweepEvery then l
      else {| lockMinutes := lockMinutes l; lastSweep := Some now;
              visitors := filter (fun p => ~ (locked now p.2 = false /\ limiterVisitorTTL < now - lastSeen p.2)) (visitors l) |}
  | None => {| lockMinutes := lockMinutes l; lastSweep := Some now;
               visitors := filter (fun p => ~ (locked now p.2 = false /\ limiterVisitorTTL < now - lastSeen p.2)) (visitors l) |}
  end.

(** The loop of [evictOldestUnlocked], over the map in some order; an empty
    [oldestIP] stands for none yet. *)
Definition oldest_step (now : Z) (acc : bytes * Z) (p : bytes * ipRecord) : bytes * Z :=
  if locked now p.2 then acc
  else if (acc.1 == []) || (lastSeen p.2 <? acc.2) then (p.1, lastSeen p.2) else acc.

(** The order in which a range visits the entries. *)
Context (range : gmap bytes ipRecord -> list (bytes * ipRecord)).

Definition evictOldestUnlocked (now : Z) (l : ipLimiter) : option ipLimiter :=
  let oldestIP := (foldl (oldest_step now) ([], 0) (range (visitors l))).1 in
  if oldestIP == [] then None else Some (set_visitors (delete oldestIP (visitors l)) l).

Definition newRecord : ipRecord := {| lim := NewBucket; failures := 0; lockUntil := None; lastSeen := 0 |}.

(** [allow], with its reason. *)
Definition allow_record (now : Z) (ip : bytes) (rec : ipRecord) (l : ipLimiter) : (bool * bytes) * ipLimiter :=
  if locked now rec then
    ((false, str "ip locked"),
     set_visitors (<[ip := {| lim := lim rec; failures := failures rec; lockUntil := lockUntil rec; lastSeen := now |}]>
                     (visitors l)) l)
  else
    let '(ok, b) := BucketAllow now (lim rec) in
    let l := set_visitors (<[ip := {| lim := b; failures := failures rec; lockUntil := lockUntil rec; lastSeen := now |}]>
                             (visitors l)) l in
    if ok then ((true, []), l) else ((false, str "rate limit"), l).

Definition allow (now : Z) (ip : bytes) (l : ipLimiter) : (bool * bytes) * ipLimiter :=
  let l := prune now l in
  match visitors l !! ip with
  | Some rec => allow_record now ip rec l
  | None =>
      if limiterMaxVisitors <=? Z.of_nat (size (visitors l)) then
        match evictOldestUnlocked now l with
        | None => ((false, str "rate limiter capacity"), l)
        | Some l => allow_record now ip newRecord l
        end
      else allow_record now ip newRecord l
  end.

(** [recordFailure] and [reset]. *)
Definition failed_record (lock now : Z) (rec : ipRecord) : ipRecord :=
  if 3 <=? failures rec + 1
  then {| lim := lim rec; failures := 0; lockUntil := Some (now + lock * minute); lastSeen := now |}
  else {| lim := lim rec; failures := failures rec + 1; lockUntil := lockUntil rec; lastSeen := now |}.

Definition recordFailure (now : Z) (ip : bytes) (l : ipLimiter) : ipLimiter :=
  match visitors l !! ip with
  | None => l
  | Some rec => set_visitors (<[ip := failed_record (lockMinutes l) now rec]> (visitors l)) l
  end.

Definition reset (ip : bytes) (l : ipLimiter) : ipLimiter := set_visitors (delete ip (visitors l)) l.

Definition newIPLimiter (minutes : Z) : ipLimiter :=
  {| lockMinutes := minutes; visitors := ∅; lastSweep := None |}.

(** The critical sections of concurrent requests, in any order. *)
Inductive lim_op := LAllow (now : Z) (ip : bytes) | LFailure (now : Z) (ip : bytes) | LReset (ip : bytes).

Definition lim_step (l : ipLimiter) (op : lim_op) : ipLimiter :=
  match op with
  | LAllow now ip => (allow now ip l).2
  | LFailure now ip => recordFailure now ip l
  | LReset ip => reset ip l
  end.
End limiter.

(** ** auth.go: [Authenticator] *)
Record authClaims := { SessionID : bytes; UserID : Z; Username : bytes; Issuer : bytes; JTI : bytes }.

(** golang-jwt: signing with an expiry, and parsing at a time with the key
    function of [Verify] (HMAC methods only). *)
Class JWT := {
  SignedString : authClaims -> Z -> bytes -> option bytes;
  ParseWithClaims : bytes -> bytes -> Z -> option authClaims
}.

(** bcrypt. *)
Class Bcrypt := { CompareHashAndPassword : bytes -> bytes -> bool }.

(** ** The server's state *)
Section server.
Context `{TokenBucket} `{JWT} `{Bcrypt} `{Unicode}.
Context (range : gmap bytes ipRecord -> list (bytes * ipRecord)).
Context (Secret : bytes) (TokenTTL : Z) (issuer : bytes).

Record Srv := { db : Db; Limiter : ipLimiter; SetupToken : bytes }.

Definition set_db (d : Db) (s : Srv) : Srv := {| db := d; Limiter := Limiter s; SetupToken := SetupToken s |}.
Definition set_limiter (l : ipLimiter) (s : Srv) : Srv := {| db := db s; Limiter := l; SetupToken := SetupToken s |}.
Definition set_token (t : bytes) (s : Srv) : Srv := {| db := db s; Limiter := Limiter s; SetupToken := t |}.

Definition on_db {A} (m : DB A) : ST Srv (res DbErr A) := fun s => let '(r, d) := m (db s) in (r, set_db d s).
Definition try_db {A} (m : DB A) : ST Srv unit := let! _ := on_db m in ret tt.
Definition time_now : ST Srv Z := gets (fun s => now (db s)).

(** Errors and answers: the status and the code of [writeError], or what
    [writeJSON] sends. *)
Inductive AuthErr := EUnsigned | ETokenInvalid | ERevokedOrExpired | EDb (e : DbErr).

Inductive Resp := RError (status : Z) (code : bytes) | RToken (token : bytes) | RCreated (id : Z) (name : bytes)
| RNoContent | RDone.

(** [Issue]; [sid] and [jti] are the two new UUIDs. *)
Definition Issue (userID : Z) (username sid jti : bytes) : ST Srv (res AuthErr bytes) :=
  let! t := time_now in
  let exp := t + TokenTTL in
  match SignedString {| SessionID := sid; UserID := userID; Username := username; Issuer := issuer; JTI := jti |} exp Secret with
  | None => ret (Err EUnsigned)
  | Some signed =>
      let! r := on_db (InsertPanelSession sid userID jti exp) in
      ret (match r with Ok _ => Ok signed | Err e => Err (EDb e) end)
  end.

(** [Verify]. *)
Definition Verify (token : bytes) : ST Srv (res AuthErr authClaims) :=
  let! t := time_now in
  match ParseWithClaims token Secret t with
  | None => ret (Err ETokenInvalid)
  | Some claims =>
      let! r := on_db (IsSessionActive (SessionID claims)) in
      ret (match r with
           | Err e => Err (EDb e)
           | Ok false => Err ERevokedOrExpired
           | Ok true => Ok claims
           end)
  end.

(** [extractBearer] of the Authorization header. *)
Definition sp : byte := Byte.x20.
Definition extractBearer (header : bytes) : bytes :=
  if header == [] then []
  else match Index header [sp] with
       | Some i => if EqualFold (take i header) (str "Bearer") then TrimSpace (drop (S i) header) else []
       | None => []
       end.

(** [authMiddleware] in front of a handler. *)
Definition authMiddleware (header : bytes) (next : authClaims -> ST Srv Resp) : ST Srv Resp :=
  let token := extractBearer header in
  if token == [] then ret (RError 401 (str "unauthorized"))
  else
    let! r := Verify token in
    match r with
    | Err _ => ret (RError 401 (str "unauthorized"))
    | Ok claims => next claims
    end.

(** ** panel.go *)
Record loginRequest := { l_Username : bytes; l_Password : bytes }.
Record bootstrapRequest := { b_Token : bytes; b_Username : bytes; b_Password : bytes }.
Record changePasswordRequest := { p_Current : bytes; p_Next : bytes }.

(** [handleBootstrapClaim]; [None] is a body that does not decode, [hash] the
    result of [HashPassword]. *)
Definition handleBootstrapClaim (req : option bootstrapRequest) (hash : option bytes) : ST Srv Resp :=
  match req with
  | None => ret (RError 400 (str "bad_request"))
  | Some req =>
      if len (b_Password req) <? 8 then ret (RError 400 (str "weak_password"))
      else
        let! setup := gets SetupToken in
        if (setup == []) || (b_Token req != setup) then ret (RError 403 (str "invalid_setup_token"))
        else match hash with
             | None => ret (RError 500 (str "hash_error"))
             | Some hash =>
                 let! r := on_db (InsertFirstPanelUser (b_Username req) hash) in
                 match r with
                 | Err _ => ret (RError 500 (str "insert_error"))
                 | Ok (uid, created) =>
                     let! _ := modify (set_token []) in
                     if created then ret (RCreated uid (b_Username req)) else ret (RError 409 (str "already_setup"))
                 end
             end
  end.

Definition limiter_allow (ip : bytes) : ST Srv bool := fun s =>
  let '((ok, _), l) := allow range (now (db s)) ip (Limiter s) in (ok, set_limiter l s).
Definition record_failure (ip : bytes) : ST Srv unit :=
  modify (fun s => set_limiter (recordFailure (now (db s)) ip (Limiter s)) s).

Definition audit (actor action result : bytes) : ST Srv unit :=
  try_db (AppendAudit {| a_Actor := actor; a_Action := action; a_Target := []; a_Result := result |}).

(** [handleLogin] from the address [ip]. *)
Definition handleLogin (ip : bytes) (req : option loginRequest) (sid jti : bytes) : ST Srv Resp :=
  let! ok := limiter_allow ip in
  if negb ok then ret (RError 429 (str "rate_limited"))
  else match req with
  | None => let! _ := record_failure ip in ret (RError 400 (str "bad_request"))
  | Some req =>
      let! u := on_db (GetPanelUserByUsername (l_Username req)) in
      match u with
      | Err ErrNoRows => let! _ := record_failure ip in ret (RError 401 (str "invalid_credentials"))
      | Err _ => ret (RError 500 (str "db_error"))
      | Ok u =>
          if negb (CompareHashAndPassword (u_BcryptHash u) (l_Password req)) then
            let! _ := record_failure ip in ret (RError 401 (str "invalid_credentials"))
          else
            let! tok := Issue (u_ID u) (u_Username u) sid jti in
            match tok with
            | Err _ => ret (RError 500 (str "issue_error"))
            | Ok tok =>
                let! _ := try_db (TouchLastLogin (u_ID u)) in
                let! _ := audit (u_Username u) (str "panel.login") (str "ok") in
                let! _ := modify (fun s => set_limiter (reset ip (Limiter s)) s) in
                ret (RToken tok)
            end
      end
  end.

(** [handleLogout]. *)
Definition handleLogout (c : authClaims) : ST Srv Resp :=
  if SessionID c == [] then ret (RError 401 (str "unauthorized"))
  else
    let! r := on_db (RevokeSession (SessionID c)) in
    match r with
    | Err _ => ret (RError 500 (str "revoke_error"))
    | Ok _ => let! _ := audit (Username c) (str "panel.logout") (str "ok") in ret RNoContent
    end.

(** [handleChangePassword]. *)
Definition handleChangePassword (c : authClaims) (req : option changePasswordRequest) (hash : option bytes) : ST Srv Resp :=
  if (UserID c =? 0) || (JTI c == []) then ret (RError 401 (str "unauthorized"))
  else match req with
  | None => ret (RError 400 (str "bad_request"))
  | Some req =>
      if len (p_Next req) <? 8 then ret (RError 400 (str "weak_password"))
      else
        let! u := on_db (GetPanelUserByUsername (Username c)) in
        match u with
        | Err ErrNoRows => ret (RError 401 (str "unauthorized"))
        | Err _ => ret (RError 500 (str "db_error"))
        | Ok u =>
            if negb (CompareHashAndPassword (u_BcryptHash u) (p_Current req)) then
              let! _ := audit (Username c) (str "panel.password.change") (str "wrong_current") in
              ret (RError 401 (str "invalid_credentials"))
            else match hash with
            | None => ret (RError 500 (str "hash_error"))
            | Some hash =>
                let! r := on_db (UpdatePanelUserPassword (UserID c) hash) in
                match r with
                | Err _ => ret (RError 500 (str "update_error"))
                | Ok _ =>
                    let! r := on_db (RevokeSessionsExcept (UserID c) (JTI c)) in
                    match r with
                    | Err _ => ret (RError 500 (str "revoke_error"))
                    | Ok _ =>
                        let! _ := audit (Username c) (str "panel.password.change") (str "ok") in
                        ret RDone
                    end
                end
            end
        end
  end.
(** A run of claims of the bootstrap endpoint. *)
Fixpoint run_claims (reqs : list (option bootstrapRequest * option bytes)) : ST Srv (list Resp) :=
  match reqs with
  | [] => ret []
  | (req, hash) :: reqs =>
      let! r := handleBootstrapClaim req hash in
      let! rs := run_claims reqs in
      ret (r :: rs)
  end.

Definition is_created (r : Resp) : bool := match r with RCreated _ _ => true | _ => false end.
End server.

(** ** The limiter: lemmas *)
Section limiter_lemmas.
Context `{TokenBucket} (range : gmap bytes ipRecord -> list (bytes * ipRecord)).
(** A range visits the entries of the map. *)
Context (range_entries : forall m p, p ∈ range m -> m !! p.1 = Some p.2).

Abbreviation lim_run := (foldl (lim_step range)).

Lemma prune_lookup now l ip rec :
  visitors l !! ip = Some rec -> locked now rec = true -> visitors (prune now l) !! ip = Some rec.
Proof.
  intros Hl Hk. unfold prune. destruct (lastSweep l) as [t|]; [destruct (_ <? _); [done|]|]; cbn;
    apply map_lookup_filter_Some; (split; [done|]); cbn; intros [Hf _]; congruence.
Qed.

Lemma prune_size now l : (size (visitors (prune now l)) <= size (visitors l))%nat.
Proof.
  unfold prune. destruct (lastSweep l) as [t|]; [destruct (_ <? _); [done|]|]; cbn;
    apply map_subseteq_size, map_filter_subseteq.
Qed.

(** What the loop picks is the key of an unlocked entry, or nothing. *)
Lemma oldest_pick now (ps : list (bytes * ipRecord)) (acc : bytes * Z) :
  (acc.1 = [] \/ exists p, p ∈ ps /\ p.1 = acc.1 /\ locked now p.2 = false) ->
  forall ps' : list (bytes * ipRecord), (forall p, p ∈ ps' -> p ∈ ps) ->
  let r := foldl (oldest_step now) acc ps' in
  r.1 = [] \/ exists p, p ∈ ps /\ p.1 = r.1 /\ locked now p.2 = false.
Proof.
  intros Hacc ps'. revert acc Hacc. induction ps' as [|p ps' IH]; intros acc Hacc Hsub; cbn zeta; [done|].
  cbn [foldl]. apply IH; [|intros q Hq; apply Hsub; by right]. unfold oldest_step.
  destruct (locked now p.2) eqn:E; [done|]. destruct (_ || _); [|done].
  right. exists p. split; [apply Hsub; by left|done].
Qed.

Lemma evict_spec now l l' :
  evictOldestUnlocked range now l = Some l' ->
  exists ip rec, visitors l !! ip = Some rec /\ locked now rec = false /\
    l' = set_visitors (delete ip (visitors l)) l.
Proof.
  unfold evictOldestUnlocked. case_bool_decide as He; [done|]. intros [= <-].
  destruct (oldest_pick now (range (visitors l)) ([], 0) ltac:(by left) (range (visitors l)) ltac:(done))
    as [|(p & Hp & Hk & Hf)]; [done|].
  exists p.1, p.2. split; [by apply range_entries|]. split; [done|]. by rewrite Hk.
Qed.

Lemma allow_record_visitors now ip rec l :
  exists b, visitors (allow_record now ip rec l).2 =
    <[ip := {| lim := b; failures := failures rec; lockUntil := lockUntil rec; lastSeen := now |}]> (visitors l) /\
  lockMinutes (allow_record now ip rec l).2 = lockMinutes l.
Proof.
  unfold allow_record. destruct (locked now rec); [by eexists|]. destruct (BucketAllow _ _) as [[|] b]; by eexists.
Qed.

(** *** The number of records is bounded *)
Lemma allow_size now ip l :
  Z.of_nat (size (visitors l)) <= limiterMaxVisitors ->
  Z.of_nat (size (visitors (allow range now ip l).2)) <= limiterMaxVisitors.
Proof.
  intros Hs. unfold allow. pose proof (prune_size now l) as Hp. set (l1 := prune now l) in *.
  destruct (visitors l1 !! ip) as [rec|] eqn:E.
  { destruct (allow_record_visitors now ip rec l1) as (b & -> & _). rewrite map_size_insert_Some by by eexists. lia. }
  destruct (Z.leb_spec limiterMaxVisitors (Z.of_nat (size (visitors l1)))) as [Hfull|Hroom].
  - destruct (evictOldestUnlocked range now l1) as [l2|] eqn:Ev; [|cbn; lia].
    apply evict_spec in Ev as (x & r & Hx & _ & ->).
    destruct (allow_record_visitors now ip newRecord (set_visitors (delete x (visitors l1)) l1)) as (b & -> & _).
    cbn. rewrite map_size_insert_None by (rewrite lookup_delete_None; by right).
    rewrite map_size_delete_Some by by eexists. unfold limiterMaxVisitors in *. lia.
  - destruct (allow_record_visitors now ip newRecord l1) as (b & -> & _). rewrite map_size_insert_None by done. lia.
Qed.

Lemma lim_step_size l op :
  Z.of_nat (size (visitors l)) <= limiterMaxVisitors ->
  Z.of_nat (size (visitors (lim_step range l op))) <= limiterMaxVisitors.
Proof.
  destruct op as [now ip|now ip|ip]; cbn [lim_step]; intros Hs.
  - by apply allow_size.
  - unfold recordFailure. destruct (visitors l !! ip) eqn:E; [|done]. cbn. rewrite map_size_insert_Some by by eexists. lia.
  - cbn. pose proof (map_subseteq_size (delete ip (visitors l)) (visitors l) (delete_subseteq _ _)). lia.
Qed.

(** *** A lock outlives every request before its end *)
Definition lock_at (lock t0 : Z) (ip : bytes) (l : ipLimiter) : Prop :=
  lockMinutes l = lock /\
  exists rec t, visitors l !! ip = Some rec /\ lockUntil rec = Some t /\ t0 + lock * minute <= t.

Lemma lock_at_locked lock t0 ip l now rec :
  lock_at lock t0 ip l -> now < t0 + lock * minute -> visitors l !! ip = Some rec -> locked now rec = true.
Proof.
  intros (_ & r & t & Hr & Ht & Hle) Hn Hrec. rewrite Hrec in Hr. injection Hr as <-. unfold locked. rewrite Ht. lia.
Qed.

(** What an operation needs to leave the lock of [ip] alone. *)
Definition respects (lock t0 : Z) (ip : bytes) (op : lim_op) : Prop :=
  match op with
  | LAllow now _ | LFailure now _ => t0 <= now < t0 + lock * minute
  | LReset x => x <> ip
  end.

Lemma lock_at_insert lock t0 ip l x rec :
  lock_at lock t0 ip l ->
  (x = ip -> exists t, lockUntil rec = Some t /\ t0 + lock * minute <= t) ->
  lock_at lock t0 ip (set_visitors (<[x := rec]> (visitors l)) l).
Proof.
  intros (HL & r & t & Hr & Ht & Hle) Hx. split; [done|]. cbn. destruct (decide (x = ip)) as [->|Hne].
  - destruct (Hx eq_refl) as (t' & Ht' & Hle'). exists rec, t'. by rewrite lookup_insert_eq.
  - exists r, t. by rewrite lookup_insert_ne.
Qed.

Lemma lock_at_prune lock t0 ip l now :
  lock_at lock t0 ip l -> now < t0 + lock * minute -> lock_at lock t0 ip (prune now l).
Proof.
  intros HL Hn. pose proof HL as (Hm & r & t & Hr & Ht & Hle). split.
  - rewrite <- Hm. unfold prune. destruct (lastSweep l); [destruct (_ <? _)|]; done.
  - exists r, t. split; [|done]. apply prune_lookup; [done|]. by eapply lock_at_locked.
Qed.

Lemma allow_record_set now ip rec l :
  exists b, (allow_record now ip rec l).2 =
    set_visitors (<[ip := {| lim := b; failures := failures rec; lockUntil := lockUntil rec; lastSeen := now |}]> (visitors l)) l.
Proof. unfold allow_record. destruct (locked now rec); [by eexists|]. destruct (BucketAllow _ _) as [[|] b]; by eexists. Qed.

Lemma lock_at_step lock t0 ip l op :
  lock_at lock t0 ip l -> respects lock t0 ip op -> lock_at lock t0 ip (lim_step range l op).
Proof.
  intros HL Hop. destruct op as [now x|now x|x]; cbn [lim_step respects] in *.
  - assert (lock_at lock t0 ip (prune now l)) as HP by (apply lock_at_prune; [done|lia]).
    unfold allow. set (l1 := prune now l) in *.
    destruct (visitors l1 !! x) as [rec|] eqn:E.
    + destruct (allow_record_set now x rec l1) as [b ->]. apply lock_at_insert; [done|]. intros ->.
      destruct HP as (_ & r & t & Hr & Ht & Hle). exists t. cbn. by simplify_eq.
    + assert (x <> ip) as Hne by (intros ->; destruct HP as (_ & r & t & Hr & _); congruence).
      destruct (_ <=? _).
      * destruct (evictOldestUnlocked range now l1) as [l2|] eqn:Ev; [|done].
        apply evict_spec in Ev as (y & r & Hy & Hfree & ->).
        assert (lock_at lock t0 ip (set_visitors (delete y (visitors l1)) l1)) as HD.
        { pose proof HP as (Hm & r' & t & Hr' & Ht & Hle). split; [done|]. exists r', t. cbn.
          rewrite lookup_delete_ne; [done|]. intros ->.
          rewrite (lock_at_locked _ _ _ _ _ _ HP (proj2 Hop) Hy) in Hfree. done. }
        destruct (allow_record_set now x newRecord (set_visitors (delete y (visitors l1)) l1)) as [b ->].
        by apply lock_at_insert.
      * destruct (allow_record_set now x newRecord l1) as [b ->]. by apply lock_at_insert.
  - unfold recordFailure. destruct (visitors l !! x) as [rec|] eqn:E; [|done]. apply lock_at_insert; [done|].
    intros ->. destruct HL as (Hm & r & t & Hr & Ht & Hle). simplify_eq. unfold failed_record.
    destruct (_ <=? _); eexists; cbn; (split; [done|]); lia.
  - destruct HL as (Hm & r & t & Hr & Ht & Hle). split; [done|]. exists r, t. cbn. by rewrite lookup_delete_ne.
Qed.

Lemma lock_at_run lock t0 ip ops l :
  Forall (respects lock t0 ip) ops -> lock_at lock t0 ip l -> lock_at lock t0 ip (lim_run l ops).
Proof.
  revert l. induction ops as [|op ops IH]; intros l Hops HL; [done|]. apply Forall_cons in Hops as [Hop Hops].
  cbn [foldl]. apply IH; [done|]. by apply lock_at_step.
Qed.

Lemma allow_locked lock t0 ip l now :
  lock_at lock t0 ip l -> now < t0 + lock * minute -> (allow range now ip l).1 = (false, str "ip locked").
Proof.
  intros HL Hn. assert (lock_at lock t0 ip (prune now l)) as HP by by apply lock_at_prune.
  pose proof HP as (_ & r & t & Hr & _). unfold allow. rewrite Hr. unfold allow_record.
  by rewrite (lock_at_locked _ _ _ _ _ _ HP Hn Hr).
Qed.
End limiter_lemmas.

(** ** The server: lemmas *)

(** Documented behaviour of golang-jwt: a token signed with a key is accepted
    under that key, with its claims, until the second before it expires; it
    is visible text. *)
Class JWTLaws `{JWT} := {
  jwt_roundtrip c exp key tok t :
    SignedString c exp key = Some tok -> t + second <= exp -> ParseWithClaims tok key t = Some c;
  jwt_text c exp key tok : SignedString c exp key = Some tok -> tok <> [] /\ visible tok
}.

Section server_lemmas.
Context `{TokenBucket} `{JWT} `{Bcrypt} `{Unicode}.
Context (range : gmap bytes ipRecord -> list (bytes * ipRecord)).
Context (Secret : bytes) (TokenTTL : Z) (issuer : bytes).

Lemma keeps_on_db {A} (I : Db -> Prop) (m : DB A) : keeps I m -> keeps (fun s => I (db s)) (on_db m).
Proof. intros Hm s Hs. unfold on_db. specialize (Hm _ Hs). by destruct (m (db s)). Qed.

Lemma keeps_try_db {A} (I : Db -> Prop) (m : DB A) : keeps I m -> keeps (fun s => I (db s)) (try_db m).
Proof. intros Hm. apply keeps_bind; [by apply keeps_on_db|]. intros _. apply keeps_ret. Qed.

Lemma wp_on_db {A} (m : DB A) (Q : res DbErr A -> Srv -> Prop) s :
  wp m (fun r d => Q r (set_db d s)) (db s) -> wp (on_db m) Q s.
Proof. unfold wp, on_db. by destruct (m (db s)). Qed.

(** The session table and the clock. *)
Definition sessions_are (ss : list PanelSession) (d : Db) : Prop := panel_sessions d = ss.

Lemma sessions_stable ss : stable (sessions_are ss).
Proof. intros l d Hd. exact Hd. Qed.

Lemma login_tail_sessions ss u actor :
  keeps (fun s => sessions_are ss (db s)) (try_db (TouchLastLogin u)) /\
  keeps (fun s => sessions_are ss (db s)) (audit actor (str "panel.login") (str "ok")).
Proof. split; (apply keeps_try_db, keeps_update; [apply sessions_stable|intros d Hd; exact Hd]). Qed.

(** The row [Issue] adds. *)
Definition session_row (sid jti : bytes) (u exp : Z) : PanelSession :=
  {| ps_ID := sid; ps_UserID := u; ps_JWTID := jti; ps_ExpiresAt := exp; ps_RevokedAt := None |}.

Lemma InsertPanelSession_wp sid u jti exp d :
  wp (InsertPanelSession sid u jti exp) (on_ok d (fun _ d' =>
    panel_sessions d' = panel_sessions d ++ [session_row sid jti u exp] /\
    (forall x, x ∈ panel_sessions d -> ps_ID x <> sid))) d.
Proof.
  eapply wp_mono; [apply wp_exec|]. intros [e|[]] d'; [done|]. intros [l E]. cbn in E.
  destruct (existsb _ (rows _)); [|done]. destruct (existsb _ (panel_sessions d)) eqn:EX; [done|].
  cbn in E. injection E as <-. split; [done|]. intros x Hx Hid.
  assert (existsb (fun s => (ps_ID s == sid) || (ps_JWTID s == jti)) (panel_sessions d) = true) as HT; [|congruence].
  apply existsb_exists. exists x. split; [by apply list_elem_of_In|]. by rewrite Hid, bool_decide_true.
Qed.

Lemma Issue_wp u name sid jti s :
  wp (Issue Secret TokenTTL issuer u name sid jti) (fun r s' => match r with
    | Err _ => True
    | Ok tok =>
        SignedString {| SessionID := sid; UserID := u; Username := name; Issuer := issuer; JTI := jti |}
          (now (db s) + TokenTTL) Secret = Some tok /\
        panel_sessions (db s') = panel_sessions (db s) ++ [session_row sid jti u (now (db s) + TokenTTL)] /\
        (forall x, x ∈ panel_sessions (db s) -> ps_ID x <> sid)
    end) s.
Proof.
  unfold Issue. apply wp_bind. unfold time_now, gets, wp at 1. destruct (SignedString _ _ _) as [tok|] eqn:E; [|done].
  apply wp_bind, wp_on_db. eapply wp_mono; [apply InsertPanelSession_wp|]. intros [e|[]] d Hd; [done|].
  split; [done|exact Hd].
Qed.

(** The row of a fresh session is the one found. *)
Lemma found_new ss row :
  (forall x, x ∈ ss -> ps_ID x <> ps_ID row) ->
  found (fun s => ps_ID s == ps_ID row) (ss ++ [row]) = Some row.
Proof.
  intros Hss. destruct (found _ _) as [x|] eqn:E.
  - apply found_elem in E as [[Hx|Hx]%elem_of_app Hid].
    + apply bool_decide_eq_true in Hid. by apply Hss in Hx.
    + apply list_elem_of_singleton in Hx as ->. done.
  - apply (found_none _ _ row) in E; [|apply elem_of_app; right; by left]. cbn beta in E. by rewrite bool_decide_true in E.
Qed.

(** A database without faults answers [IsSessionActive]. *)
Lemma IsSessionActive_fresh ss row s t :
  (forall x, x ∈ ss -> ps_ID x <> ps_ID row) -> ps_RevokedAt row = None ->
  panel_sessions (db s) = ss ++ [row] -> db_faults (db s) = [] -> now (db s) = t -> t <= ps_ExpiresAt row ->
  on_db (IsSessionActive (ps_ID row)) s = (Ok true, s).
Proof.
  intros Hss Hr Hp Hf Ht Hle. unfold on_db, IsSessionActive, query, bindE, bind, fallible, gets. rewrite Hf. cbn.
  rewrite Hp, found_new by done. rewrite Hr, bool_decide_false by apply is_Some_None.
  rewrite (proj2 (Z.ltb_ge _ _)) by lia. by destruct s.
Qed.

Lemma Index_sp a b : sp ∉ a -> Index (a ++ sp :: b) [sp] = Some (length a).
Proof.
  induction a as [|x a IH]; intros Ha.
  - cbn [app Index length]. destruct b; cbn [Index]; unfold HasPrefix; rewrite bool_decide_eq_true_2; try done; by eexists.
  - cbn [app Index length]. unfold HasPrefix. rewrite bool_decide_eq_false_2.
    + rewrite IH; [done|]. intros Hin. apply Ha. by right.
    + intros [k Hk]. injection Hk as -> _. apply Ha. by left.
Qed.

Lemma extractBearer_token tok : tok <> [] -> visible tok -> extractBearer (str "Bearer" ++ sp :: tok) = tok.
Proof.
  intros Hne Hv. unfold extractBearer.
  rewrite (bool_decide_eq_false_2 (str "Bearer" ++ sp :: tok = [])) by done.
  rewrite Index_sp.
  2: { apply (bool_decide_eq_true_1 _). by vm_compute. }
  rewrite take_app_length.
  replace (EqualFold (str "Bearer") (str "Bearer")) with true by (unfold EqualFold; by vm_compute).
  change (str "Bearer" ++ sp :: tok) with (str "Bearer" ++ [sp] ++ tok). rewrite app_assoc.
  change (S (length (str "Bearer"))) with (length (str "Bearer" ++ [sp])). rewrite drop_app_length.
  by apply TrimSpace_visible.
Qed.

(** *** What [Verify] and the middleware let through *)
Lemma IsSessionActive_wp id d :
  wp (IsSessionActive id) (fun r d' => eqt d d' /\ (r = Ok true -> exists row, row ∈ panel_sessions d /\
    ps_ID row = id /\ ps_RevokedAt row = None /\ now d <= ps_ExpiresAt row)) d.
Proof.
  eapply wp_mono; [apply wp_query_full|]. cbv beta. intros r d' [He Hr]. split; [done|]. intros ->.
  destruct Hr as [|[l Hr]]; [done|].
  apply (f_equal (fun r => match r with Ok b => b | Err _ => false end)) in Hr. cbv beta iota in Hr.
  destruct (found _ _) as [row|] eqn:E; [|done]. apply found_elem in E as [Hin Hid]. apply bool_decide_eq_true in Hid.
  destruct (bool_decide _) eqn:ER; [done|]. apply bool_decide_eq_false, eq_None_not_Some in ER.
  exists row. split; [done|]. split; [done|]. split; [done|]. apply negb_true_iff, Z.ltb_ge in Hr. done.
Qed.

(** A successful login, step by step. *)
Definition logged_in ip req sid jti s tok (s' : Srv) : Prop :=
  (allow range (now (db s)) ip (Limiter s)).1.1 = true /\
  exists r u d, req = Some r /\ eqt (db s) d /\ find_user (l_Username r) d = Some u /\
    CompareHashAndPassword (u_BcryptHash u) (l_Password r) = true /\
    SignedString {| SessionID := sid; UserID := u_ID u; Username := u_Username u; Issuer := issuer; JTI := jti |}
      (now (db s) + TokenTTL) Secret = Some tok /\
    exists ss, panel_sessions (db s') = ss ++ [session_row sid jti (u_ID u) (now (db s) + TokenTTL)] /\
      forall x, x ∈ ss -> ps_ID x <> sid.

Lemma handleLogin_wp ip req sid jti s tok :
  wp (handleLogin range Secret TokenTTL issuer ip req sid jti)
    (fun r s' => r = RToken tok -> logged_in ip req sid jti s tok s') s.
Proof.
  unfold handleLogin. apply wp_bind. unfold limiter_allow, wp at 1.
  destruct (allow range (now (db s)) ip (Limiter s)) as [[ok why] l] eqn:EA. cbn [fst].
  destruct ok; cbn [negb]; [|by apply wp_ret]. destruct req as [r|]; [|by apply wp_bind].
  apply wp_bind, wp_on_db. eapply wp_mono; [apply wp_query_full|]. cbv beta. intros q d [He Hq]. cbn [db set_limiter] in He.
  destruct q as [e|u].
  { destruct e; try (by apply wp_ret); by apply wp_bind. }
  destruct Hq as [|[lf Hq]]; [done|].
  assert (find_user (l_Username r) (set_db_faults lf (db s)) = Some u) as Hu.
  { unfold one in Hq. destruct (find_user _ _); [|done]. by injection Hq as ->. }
  destruct (CompareHashAndPassword _ _) eqn:EC; cbn [negb]; [|by apply wp_bind].
  apply wp_bind. eapply wp_mono; [apply Issue_wp|]. cbn [db set_db set_limiter]. intros [e|tok'] s1 U1; [by apply wp_ret|].
  destruct U1 as (Hsig & Hss & Hnew).
  assert (now d = now (db s)) as Hnow.
  { apply eqt_inv in He as [l' ->]. done. }
  rewrite Hnow in Hsig, Hss.
  destruct (login_tail_sessions (panel_sessions (db s1)) (u_ID u) (u_Username u)) as [HT1 HT2].
  apply wp_bind. eapply wp_mono; [by apply keeps_wp|]. cbv beta. intros _ s3 U3. apply wp_bind.
  eapply wp_mono; [by apply keeps_wp|]. cbv beta. intros _ s4 U4. apply wp_bind. unfold modify, wp, ret.
  intros [= ->]. unfold logged_in. rewrite EA. split; [done|]. exists r, u, (set_db_faults lf (db s)). repeat (split; [done|]).
  exists (panel_sessions d). cbn [db set_limiter]. unfold sessions_are in U4. by rewrite U4.
Qed.

(** *** Later operations *)
Lemma inv_ops P ids ops d :
  inv (false, ids) d -> inv (false, ids) (foldl (fun d op => run_op P op d) d ops).
Proof. revert d. induction ops as [|op ops IH]; intros d Hd; [done|]. cbn. by apply IH, run_op_inv. Qed.

Lemma revoked_refused header next s id l t d :
  inv (false, [id]) d -> db s = at_time t l d ->
  (forall c, ParseWithClaims (extractBearer header) Secret t = Some c -> SessionID c = id) ->
  (authMiddleware Secret header next s).1 = RError 401 (str "unauthorized").
Proof.
  intros Hd Hs Hc. unfold authMiddleware. case_bool_decide as Hb; [done|].
  unfold Verify, bind, time_now, gets. rewrite Hs. cbn [now at_time].
  destruct (ParseWithClaims _ _ _) as [c|] eqn:EP; [|done]. specialize (Hc c eq_refl).
  pose proof (revoked_inactive d id t l Hd) as HN. rewrite Hc.
  unfold on_db. rewrite Hs. destruct (IsSessionActive id (at_time t l d)) as [[e|[|]] d2]; done.
Qed.

(** *** What logout and the change of password leave revoked *)
Lemma audit_inv k actor action result : keeps (fun s => inv k (db s)) (audit actor action result).
Proof.
  apply keeps_try_db. intros d Hd. exact (run_op_inv (fun _ => None) k
    (OpAppendAudit {| a_Actor := actor; a_Action := action; a_Target := []; a_Result := result |}) d Hd).
Qed.

Lemma RevokeSession_wp id d :
  wf d -> id ∈ (ps_ID <$> panel_sessions d) ->
  wp (RevokeSession id) (fun r d' => r = Ok tt -> inv (false, [id]) d') d.
Proof.
  intros Hwf Hin. pose proof (run_op_inv (fun _ => None) (false, []) (OpRevokeSession id) d) as W.
  cbn [run_op] in W. pose proof (wp_update (fun d => set_panel_sessions
    ((fun s => if ps_ID s == id then revoke (now d) s else s) <$> panel_sessions d) d) d) as U.
  unfold RevokeSession in *. unfold wp in *. destruct (update _ d) as [r d'] eqn:E. cbn [snd] in W. intros ->. cbn in U.
  destruct U as [l Hd']. destruct W as (W & _); [by split|]. split; [done|]. split; [done|].
  cbn [snd]. constructor; [|constructor]. apply list_elem_of_fmap in Hin as (s & -> & Hs).
  exists (revoke (now (set_db_faults l d)) s). split; [|by eauto]. rewrite Hd'. cbn. apply list_elem_of_fmap.
  exists s. by rewrite bool_decide_true.
Qed.

Lemma RevokeSessionsExcept_wp user keep row d :
  wf d -> row ∈ panel_sessions d -> ps_UserID row = user -> ps_JWTID row <> keep ->
  wp (RevokeSessionsExcept user keep) (fun r d' => r = Ok tt -> inv (false, [ps_ID row]) d') d.
Proof.
  intros Hwf Hin Hu Hk. pose proof (run_op_inv (fun _ => None) (false, []) (OpRevokeSessionsExcept user keep) d) as W.
  cbn [run_op] in W. pose proof (wp_update (fun d => set_panel_sessions
    ((fun s => if (ps_UserID s == user) && (ps_RevokedAt s == None) && (ps_JWTID s != keep)
               then revoke (now d) s else s) <$> panel_sessions d) d) d) as U.
  unfold RevokeSessionsExcept in *. unfold wp in *. destruct (update _ d) as [r d'] eqn:E. cbn [snd] in W. intros ->. cbn in U.
  destruct U as [l Hd']. destruct W as (W & _); [by split|]. split; [done|]. split; [done|].
  cbn [snd]. constructor; [|constructor]. rewrite Hd'. cbn.
  destruct (is_Some_dec (ps_RevokedAt row)) as [Hr|Hr].
  - exists row. split; [|done]. apply list_elem_of_fmap. exists row. split; [|done].
    rewrite (bool_decide_false (ps_RevokedAt row = None)) by (intros E0; rewrite E0 in Hr; by destruct Hr).
    by rewrite andb_false_r.
  - exists (revoke (now d) row). split; [|by eauto]. apply list_elem_of_fmap. exists row. split; [|done].
    rewrite !bool_decide_true by (done || by apply eq_None_not_Some). by rewrite bool_decide_false.
Qed.

Lemma logout_revokes c row s s' :
  wf (db s) -> row ∈ panel_sessions (db s) -> handleLogout c s = (RNoContent, s') -> ps_ID row = SessionID c ->
  inv (false, [ps_ID row]) (db s').
Proof.
  intros Hwf Hrow HL Hid. refine (wp_elim (handleLogout c) (fun r s' => r = RNoContent -> inv (false, [ps_ID row]) (db s'))
    s RNoContent s' _ HL eq_refl).
  unfold handleLogout. case_bool_decide; [by apply wp_ret|]. apply wp_bind, wp_on_db.
  eapply wp_mono; [apply (RevokeSession_wp (SessionID c)); [done|]|].
  { rewrite <- Hid. by apply list_elem_of_fmap_2. }
  cbv beta. intros [e|[]] d Hd; [by apply wp_ret|]. specialize (Hd eq_refl). rewrite <- Hid in Hd.
  apply wp_bind. eapply wp_mono; [apply keeps_wp; [apply audit_inv|exact Hd]|]. cbv beta. intros _ s1 U1. by apply wp_ret.
Qed.

Lemma change_revokes c row req hash s s' :
  wf (db s) -> row ∈ panel_sessions (db s) -> handleChangePassword c req hash s = (RDone, s') ->
  ps_UserID row = UserID c -> ps_JWTID row <> JTI c ->
  inv (false, [ps_ID row]) (db s').
Proof.
  intros Hwf Hrow HL Hu Hj.
  refine (wp_elim (handleChangePassword c req hash) (fun r s' => r = RDone -> inv (false, [ps_ID row]) (db s'))
    s RDone s' _ HL eq_refl).
  unfold handleChangePassword. destruct (_ || _); [by apply wp_ret|]. destruct req as [req|]; [|by apply wp_ret].
  destruct (_ <? _); [by apply wp_ret|].
  apply wp_bind, wp_on_db. eapply wp_mono; [apply wp_query_full|]. cbv beta. intros q d [He _].
  destruct q as [e|u]; [destruct e; by apply wp_ret|].
  destruct (CompareHashAndPassword _ _); cbn [negb]; [|apply wp_bind, wp_any; intros ? ?; by apply wp_ret].
  destruct hash as [hash|]; [|by apply wp_ret].
  apply eqt_inv in He as [l ->].
  apply wp_bind, wp_on_db. eapply wp_mono; [apply wp_update|]. cbv beta. intros [e|[]] d1 U1; [by apply wp_ret|].
  cbn in U1. destruct U1 as [l1 U1].
  assert (wf d1) as Hwf1.
  { pose proof (run_op_inv (fun _ => None) (false, []) (OpUpdatePanelUserPassword (UserID c) hash)
      (set_db_faults [] (db s))) as W.
    destruct W as (W & _); [split; [by apply wf_stable|done]|]. rewrite U1. exact (wf_stable l1 _ W). }
  assert (row ∈ panel_sessions d1) as Hrow1 by (rewrite U1; done).
  apply wp_bind, wp_on_db.
  eapply wp_mono; [apply (RevokeSessionsExcept_wp (UserID c) (JTI c) row); done|].
  cbv beta. intros [e|[]] d2 U2; [by apply wp_ret|]. specialize (U2 eq_refl).
  apply wp_bind. eapply wp_mono; [apply keeps_wp; [apply audit_inv|exact U2]|]. cbv beta. intros _ s1 U3. by apply wp_ret.
Qed.

(** *** The bootstrap claim *)
Definition no_users (s : Srv) : Prop := rows (panel_users (db s)) = [].

Lemma InsertFirst_wp name hash d :
  wp (InsertFirstPanelUser name hash) (fun r d' =>
    (rows (panel_users d') = [] -> rows (panel_users d) = []) /\
    (forall id, r = Ok (id, true) -> rows (panel_users d) = [])) d.
Proof.
  assert (forall d1 d2, eqt d1 d2 -> panel_users d2 = panel_users d1) as HE by (by intros d1 d2 [l ->]%eqt_inv).
  unfold InsertFirstPanelUser, bindE at 1. apply wp_bind. eapply wp_mono; [apply wp_exec|].
  intros [e|[n id]] d1 U1; [apply wp_ret; cbn in U1; by rewrite (HE _ _ U1)|]. destruct U1 as [l U1]. cbn in U1.
  unfold bindE at 1. apply wp_bind. eapply wp_mono; [apply wp_fallible|]. intros r2 d2 U2.
  assert (panel_users d2 = panel_users d1) as Hp by (destruct r2; by apply HE).
  assert (rows (panel_users d2) = [] -> rows (panel_users d) = []) as Hempty.
  { rewrite Hp. destruct (bool_decide_reflect (rows (panel_users d) = [])) as [|Hne]; [done|].
    injection U1 as _ _ <-. done. }
  destruct r2 as [e|[]]; [by apply wp_ret|].
  destruct (bool_decide_reflect (rows (panel_users d) = [])) as [He|Hne]; injection U1 as <- <- <-; cbn [Z.eqb].
  - unfold bindE. apply wp_bind, wp_any. intros [e|[]] d3; apply wp_ret; by split.
  - apply wp_ret. split; [done|]. intros id' [= _]. 
Qed.

Lemma claim_cases req hash s r s' :
  handleBootstrapClaim req hash s = (r, s') ->
  (no_users s' -> no_users s) /\ (SetupToken s' = SetupToken s \/ SetupToken s' = []) /\
  (is_created r = true -> no_users s /\ SetupToken s <> [] /\ SetupToken s' = [] /\
     exists rq h, req = Some rq /\ hash = Some h /\ b_Token rq = SetupToken s /\ 8 <= len (b_Password rq)).
Proof.
  apply (wp_elim _ (fun r s' => (no_users s' -> no_users s) /\ (SetupToken s' = SetupToken s \/ SetupToken s' = []) /\
    (is_created r = true -> no_users s /\ SetupToken s <> [] /\ SetupToken s' = [] /\
     exists rq h, req = Some rq /\ hash = Some h /\ b_Token rq = SetupToken s /\ 8 <= len (b_Password rq)))).
  unfold handleBootstrapClaim. destruct req as [rq|]; [|apply wp_ret; naive_solver].
  destruct (Z.ltb_spec (len (b_Password rq)) 8) as [|Hlen]; [apply wp_ret; naive_solver|].
  apply wp_bind. unfold gets, wp at 1.
  destruct (bool_decide_reflect (SetupToken s = [])) as [|Hset]; [apply wp_ret; naive_solver|]. cbn [orb].
  destruct (bool_decide_reflect (b_Token rq = SetupToken s)) as [Htok|]; cbn [negb]; [|apply wp_ret; naive_solver].
  destruct hash as [h|]; [|apply wp_ret; naive_solver].
  apply wp_bind, wp_on_db. eapply wp_mono; [apply InsertFirst_wp|]. cbv beta. intros [e|[uid [|]]] d [Hn Hc].
  - apply wp_ret. naive_solver.
  - apply wp_bind. unfold modify, wp at 1. apply wp_ret. split; [exact Hn|]. split; [by right|]. intros _.
    split; [by eapply Hc|]. split; [done|]. split; [done|]. by exists rq, h.
  - apply wp_bind. unfold modify, wp at 1. apply wp_ret. split; [exact Hn|]. split; [by right|]. done.
Qed.

Lemma run_claims_facts reqs s rs s' :
  run_claims reqs s = (rs, s') ->
  (no_users s' -> no_users s) /\ (SetupToken s = [] -> filter (fun r => is_created r = true) rs = []) /\
  (length (filter (fun r => is_created r = true) rs) <= 1)%nat /\
  ((exists r, r ∈ rs /\ is_created r = true) ->
     no_users s /\ SetupToken s <> [] /\ SetupToken s' = [] /\
     exists req hash, (Some req, Some hash) ∈ reqs /\ b_Token req = SetupToken s /\ 8 <= len (b_Password req)) /\
  (SetupToken s = [] -> SetupToken s' = []).
Proof.
  revert s rs s'. induction reqs as [|[req hash] reqs IH]; intros s rs s'; cbn [run_claims].
  - intros [= <- <-]. split; [done|]. split; [done|]. split; [cbn; lia|]. split; [|done].
    intros (r & Hr & _). by apply elem_of_nil in Hr.
  - unfold bind, ret. destruct (handleBootstrapClaim req hash s) as [r s1] eqn:E1.
    destruct (run_claims reqs s1) as [rs1 s2] eqn:E2. intros [= <- <-].
    apply claim_cases in E1 as (Hn1 & Ht1 & Hc1). apply IH in E2 as (Hn2 & He2 & Hl2 & Hx2 & Hk2).
    destruct (is_created r) eqn:Er.
    + destruct (Hc1 eq_refl) as (Hu & Hset & Hempty & rq & h & -> & -> & Htok & Hlen).
      rewrite filter_cons_True, (He2 Hempty) by done. split; [auto|]. split; [done|]. split; [cbn; lia|].
      split; [|done]. intros _. repeat split; try done; [by apply Hk2|]. exists rq, h. split; [by left|done].
    + rewrite filter_cons_False by congruence. split; [auto|]. split; [|split; [done|split]].
      * intros Hset. apply He2. destruct Ht1 as [->|]; done.
      * intros (x & [-> | Hx]%elem_of_cons & Hcx); [congruence|].
        destruct (Hx2 ltac:(eauto)) as (Hu & Hset & Hempty & rq & h & Hin & Htok & Hlen).
        destruct Ht1 as [Ht1|Ht1]; [|done]. rewrite Ht1 in *. repeat split; try done; [by apply Hn1|].
        exists rq, h. split; [by right|done].
      * intros Hset. apply Hk2. destruct Ht1 as [->|]; done.
Qed.
End server_lemmas.

(** ** Properties *)
Section properties.
Context `{TokenBucket} `{JWTLaws} `{Bcrypt} `{Unicode}.
Context (range : gmap bytes ipRecord -> list (bytes * ipRecord)).
Context (Secret : bytes) (TokenTTL : Z) (issuer : bytes).

(** C23: the third failure of an address locks it: whatever critical sections
    of other requests run before the lock ends, in any order and from any
    addresses (pruning and eviction included), as long as no login of that
    address succeeds, every attempt of it is refused as locked.  And the
    limiter never remembers more than ten thousand addresses. *)
Theorem lockout_holds ip l rec t0 ops t :
  (forall m p, p ∈ range m -> m !! p.1 = Some p.2) ->
  Z.of_nat (size (visitors l)) <= limiterMaxVisitors ->
  visitors l !! ip = Some rec -> 2 <= failures rec ->
  Forall (respects (lockMinutes l) t0 ip) ops -> t0 <= t < t0 + lockMinutes l * minute ->
  (allow range t ip (foldl (lim_step range) (recordFailure t0 ip l) ops)).1 = (false, str "ip locked") /\
  Z.of_nat (size (visitors (foldl (lim_step range) (recordFailure t0 ip l) ops))) <= limiterMaxVisitors.
Proof.
  intros Hrange Hs Hrec Hf Hops Ht. split.
  - apply (allow_locked range (lockMinutes l) t0); [|lia]. apply lock_at_run; [done|done|].
    unfold recordFailure. rewrite Hrec. split; [done|]. unfold failed_record.
    rewrite (proj2 (Z.leb_le 3 (failures rec + 1))) by lia. cbn. rewrite lookup_insert_eq. by eexists _, _.
  - assert (forall ops l, Z.of_nat (size (visitors l)) <= limiterMaxVisitors ->
      Z.of_nat (size (visitors (foldl (lim_step range) l ops))) <= limiterMaxVisitors) as HR.
    { intros ops'. induction ops' as [|op ops' IH]; intros l' Hl'; [done|]. cbn [foldl]. by apply IH, lim_step_size. }
    apply HR. by apply (lim_step_size range Hrange l (LFailure t0 ip)).
Qed.

(** login answers with a token only to an address the limiter admits, for
    a stored user whose hash accepts the password; and that token, sent back
    as a bearer token while it has not expired and the session table still
    ends with the row of this login, reaches the protected handler with the
    identity of that user. *)
Theorem login_opens_session ip req sid jti s tok s' :
  handleLogin range Secret TokenTTL issuer ip req sid jti s = (RToken tok, s') ->
  (allow range (now (db s)) ip (Limiter s)).1.1 = true /\
  exists r u d, req = Some r /\ eqt (db s) d /\ find_user (l_Username r) d = Some u /\
    CompareHashAndPassword (u_BcryptHash u) (l_Password r) = true /\
    forall s2 next, panel_sessions (db s2) = panel_sessions (db s') -> db_faults (db s2) = [] ->
      now (db s2) + second <= now (db s) + TokenTTL ->
      authMiddleware Secret (str "Bearer" ++ sp :: tok) next s2 =
      next {| SessionID := sid; UserID := u_ID u; Username := u_Username u; Issuer := issuer; JTI := jti |} s2.
Proof.
  intros HL. destruct (wp_elim _ _ _ _ _ (handleLogin_wp range Secret TokenTTL issuer ip req sid jti s tok) HL eq_refl)
    as (HA & r & u & d & Hr & Hd & Hu & Hpw & Hsig & ss & Hss & Hnew).
  split; [done|]. exists r, u, d. repeat (split; [done|]). intros s2 next HP HF HT.
  destruct (jwt_text _ _ _ _ Hsig) as [Hne Hv]. unfold authMiddleware. rewrite extractBearer_token by done.
  rewrite (bool_decide_eq_false_2 (tok = [])) by done. unfold Verify, bind, time_now, gets.
  rewrite (jwt_roundtrip _ _ _ _ _ Hsig HT). cbn [SessionID].
  assert (on_db (IsSessionActive sid) s2 = (Ok true, s2)) as ->; [|done].
  apply (IsSessionActive_fresh ss (session_row sid jti (u_ID u) (now (db s) + TokenTTL)) s2 (now (db s2))); try done.
  - by rewrite HP.
  - cbn. unfold second in HT. lia.
Qed.

(** The middleware as a rule: what it refuses, and what it knows when it lets
    a request through. *)
Lemma authMiddleware_wp header next (Q : Resp -> Srv -> Prop) s :
  (forall s', eqt (db s) (db s') -> Q (RError 401 (str "unauthorized")) s') ->
  (forall claims s1 row,
    ParseWithClaims (extractBearer header) Secret (now (db s)) = Some claims ->
    row ∈ panel_sessions (db s) -> ps_ID row = SessionID claims -> ps_RevokedAt row = None ->
    now (db s) <= ps_ExpiresAt row -> eqt (db s) (db s1) -> wp (next claims) Q s1) ->
  wp (authMiddleware Secret header next) Q s.
Proof.
  intros H401 Hnext. unfold wp, authMiddleware. case_bool_decide as Hb; [by apply H401|].
  unfold Verify, bind, time_now, gets. destruct (ParseWithClaims _ _ _) as [c|] eqn:EP; [|by apply H401].
  destruct (on_db (IsSessionActive (SessionID c)) s) as [q s1] eqn:E.
  pose proof (IsSessionActive_wp (SessionID c) (db s)) as W.
  unfold on_db in E. unfold wp in W. destruct (IsSessionActive (SessionID c) (db s)) as [q' d1].
  injection E as <- <-. destruct W as [He HW].
  destruct q' as [e|[|]]; [by apply H401| |by apply H401].
  destruct (HW eq_refl) as (row & Hrow & Hid & Hrev & Hexp). by apply (Hnext c (set_db d1 s) row).
Qed.

(** C21: nothing behind the middleware runs without a live session: either the
    request is answered 401 with the tables unchanged, or the header carried a
    token signed with the server's key whose session is on record, not
    revoked and not expired, and the handler runs on unchanged tables. *)
Theorem middleware_requires_session header next s r s' :
  authMiddleware Secret header next s = (r, s') ->
  (r = RError 401 (str "unauthorized") /\ eqt (db s) (db s')) \/
  exists claims s1 row,
    ParseWithClaims (extractBearer header) Secret (now (db s)) = Some claims /\
    row ∈ panel_sessions (db s) /\ ps_ID row = SessionID claims /\ ps_RevokedAt row = None /\
    now (db s) <= ps_ExpiresAt row /\ eqt (db s) (db s1) /\ next claims s1 = (r, s').
Proof.
  intros E. pattern r, s'. refine (wp_elim _ _ s r s' _ E). apply authMiddleware_wp.
  - intros s1 He. by left.
  - intros claims s1 row HP Hrow Hid Hrev Hexp He. unfold wp. destruct (next claims s1) as [r1 s2] eqn:EN. right. by exists claims, s1, row.
Qed.

(** logging out, and changing the password, end sessions for good: after a
    successful logout the session of the caller, and after a successful
    change of password every other session of that user, is refused by the
    middleware, whatever operations the database sees later, at any time and
    under any failures. *)
Theorem revoked_tokens_refused P row c s s' ops t l s2 header next req hash :
  wf (db s) -> row ∈ panel_sessions (db s) ->
  (handleLogout c s = (RNoContent, s') /\ ps_ID row = SessionID c) \/
  (handleChangePassword c req hash s = (RDone, s') /\ ps_UserID row = UserID c /\ ps_JWTID row <> JTI c) ->
  db s2 = at_time t l (foldl (fun d op => run_op P op d) (db s') ops) ->
  (forall c', ParseWithClaims (extractBearer header) Secret t = Some c' -> SessionID c' = ps_ID row) ->
  (authMiddleware Secret header next s2).1 = RError 401 (str "unauthorized").
Proof.
  intros Hwf Hrow Hcase U2 Hc. eapply revoked_refused; [|exact U2|exact Hc]. apply inv_ops.
  destruct Hcase as [[HL Hid]|(HC & Hu & Hj)].
  - by eapply logout_revokes.
  - by eapply change_revokes.
Qed.

(** C24: whatever claims arrive, with any database failures, the bootstrap
    endpoint creates at most one user; it creates one only in an empty user
    table and for a request with the setup token and a password of eight
    bytes or more; and afterwards the token is gone, so every claim is
    refused. *)
Theorem bootstrap_once reqs s rs s' :
  run_claims reqs s = (rs, s') ->
  (length (filter (fun r => is_created r = true) rs) <= 1)%nat /\
  ((exists r, r ∈ rs /\ is_created r = true) ->
     rows (panel_users (db s)) = [] /\ SetupToken s <> [] /\ SetupToken s' = [] /\
     exists req hash, (Some req, Some hash) ∈ reqs /\ b_Token req = SetupToken s /\ 8 <= len (b_Password req)) /\
  (SetupToken s = [] -> filter (fun r => is_created r = true) rs = []).
Proof. intros HR. destruct (run_claims_facts reqs s rs s' HR) as (_ & HE & HL & HX & _). done. Qed.
End properties.

(** ** Witnesses *)
Module Demo.
(** A token scheme with the laws: the claims, the key and the expiry as text. *)
Definition dot : byte := Byte.x2e.
Definition fits (z : Z) : bool := (0 <? z) && (z <? 10 ^ 20).
Definition token_fields (c : authClaims) (exp : Z) (key : bytes) : list bytes :=
  [hex_encode key; hex_encode (SessionID c); strconv_Itoa (UserID c); hex_encode (Username c);
   hex_encode (Issuer c); hex_encode (JTI c); strconv_Itoa exp].
Definition sign (c : authClaims) (exp : Z) (key : bytes) : option bytes :=
  if fits (UserID c) && fits exp then Some (Join (token_fields c exp key) dot) else None.
Definition parse_token (tok key : bytes) (t : Z) : option authClaims :=
  match Split tok dot with
  | [k; sid; u; name; iss; jti; exp] =>
      if (k == hex_encode key) && (t <? dec_value exp) then
        sid' ← hex_decode sid; name' ← hex_decode name; iss' ← hex_decode iss; jti' ← hex_decode jti;
        Some {| SessionID := sid'; UserID := dec_value u; Username := name'; Issuer := iss'; JTI := jti' |}
      else None
  | _ => None
  end.

#[export] Instance jwt : JWT := {| SignedString := sign; ParseWithClaims := parse_token |}.

Lemma hex_text b : Forall (fun c => visible_byte c = true /\ c <> dot) (hex_encode b).
Proof.
  induction b as [|x b IH]; [constructor|]. unfold hex_encode. cbn [map concat]. apply Forall_app. split; [|exact IH].
  apply Forall_cons. split; [|apply Forall_singleton]; by destruct x.
Qed.

Lemma Itoa_text z : fits z = true -> Forall (fun c => visible_byte c = true /\ c <> dot) (strconv_Itoa z).
Proof.
  unfold fits. intros Hz. assert (0 < z < 10 ^ 20) as HB by lia. pose proof (Itoa_visible z HB) as HV.
  destruct (strconv_Itoa_pos z HB) as (_ & HD & _). unfold visible in HV. rewrite Forall_forall in HV, HD |- *.
  intros c Hc. split; [by apply HV|]. intros ->. specialize (HD _ Hc). by destruct HD.
Qed.

Lemma token_text c exp key :
  fits (UserID c) = true -> fits exp = true ->
  Forall (fun w => Forall (fun c => visible_byte c = true /\ c <> dot) w) (token_fields c exp key).
Proof. intros Hu He. repeat (constructor; [apply hex_text || by apply Itoa_text|]). constructor. Qed.

Lemma Join_visible ws : Forall visible ws -> visible (Join ws dot).
Proof.
  induction 1 as [|w ws Hw Hws IH]; [constructor|]. destruct ws as [|w' ws]; [done|].
  cbn [Join]. apply Forall_app. split; [done|]. by constructor.
Qed.

Lemma sign_parse c exp key tok t : sign c exp key = Some tok -> t < exp -> parse_token tok key t = Some c.
Proof.
  unfold sign. destruct (fits (UserID c) && fits exp) eqn:EF; [|done]. apply andb_true_iff in EF as [Hu He].
  intros HT Ht. assert (tok = Join (token_fields c exp key) dot) as -> by congruence.
  unfold parse_token. rewrite Split_Join; [|done|].
  - unfold token_fields. rewrite bool_decide_true by done. unfold fits in *.
    rewrite (proj2 (proj2 (strconv_Itoa_pos exp ltac:(lia)))), (proj2 (proj2 (strconv_Itoa_pos (UserID c) ltac:(lia)))).
    rewrite (proj2 (Z.ltb_lt _ _)) by lia. cbn [andb]. rewrite !hex_roundtrip. by destruct c.
  - eapply Forall_impl; [by apply token_text|]. cbv beta. intros w Hw Hin. rewrite Forall_forall in Hw.
    by destruct (Hw _ Hin).
Qed.

#[export] Instance jwt_laws : JWTLaws.
Proof.
  split.
  - intros c exp key tok t Hs Ht. apply (sign_parse c exp key); [done|]. unfold second in Ht. lia.
  - intros c exp key tok Hs. change (sign c exp key = Some tok) in Hs. unfold sign in Hs.
    destruct (fits (UserID c) && fits exp) eqn:EF; [|done]. apply andb_true_iff in EF as [Hu He].
    assert (tok = Join (token_fields c exp key) dot) as -> by congruence.
    pose proof (token_text c exp key Hu He) as HT. split.
    + unfold token_fields. cbn [Join]. intros E. apply app_eq_nil in E as [_ E]. done.
    + apply Join_visible. eapply Forall_impl; [exact HT|]. cbv beta. intros w Hw. eapply Forall_impl; [exact Hw|].
      by intros x [Hx _].
Qed.

#[export] Instance bucket : TokenBucket := {| Bucket := unit; NewBucket := tt; BucketAllow := fun _ b => (true, b) |}.
#[export] Instance bcrypt : Bcrypt := {| CompareHashAndPassword := fun h p => h == p |}.
#[export] Instance tables : Unicode := ascii_tables.

Definition range (m : gmap bytes ipRecord) : list (bytes * ipRecord) := map_to_list m.

Definition key : bytes := str "0123456789abcdef".
Definition srv (d : Db) : Srv := {| db := d; Limiter := newIPLimiter 15; SetupToken := str "setup" |}.
Definition s0 : Srv := srv Db.Demo.d1.
Definition ip : bytes := str "203.0.113.7".

(** An address with two failures, then the third. *)
Definition rec2 : ipRecord := {| lim := tt; failures := 2; lockUntil := None; lastSeen := 50 |}.
Definition l2 : ipLimiter := {| lockMinutes := 15; visitors := {[ip := rec2]}; lastSweep := None |}.
Definition later : list lim_op :=
  [LAllow (2 * minute) (str "198.51.100.1"); LFailure (2 * minute) ip; LReset (str "198.51.100.1"); LAllow (9 * minute) ip].

Lemma range_entries m p : p ∈ range m -> m !! p.1 = Some p.2.
Proof. destruct p as [k v]. unfold range. by rewrite elem_of_map_to_list. Qed.

Lemma lockout_holds_witness :
  (allow range (14 * minute) ip (foldl (lim_step range) (recordFailure 100 ip l2) later)).1 = (false, str "ip locked").
Proof.
  apply (lockout_holds range ip l2 rec2 100 later (14 * minute) range_entries).
  - by vm_compute.
  - exact (lookup_insert_eq ∅ ip rec2).
  - cbn. lia.
  - unfold later. repeat constructor; cbn; try done; try (vm_compute; done).
  - split; by vm_compute.
Defined.

(** A login, and the same token at the middleware. *)
Definition good : loginRequest := {| l_Username := str "root"; l_Password := str "$2a$" |}.
Definition login : ST Srv Resp := handleLogin range key (60 * minute) (str "5gpn") ip (Some good) (str "s3") (str "j3").
Definition tok3 : bytes :=
  Eval vm_compute in match (login s0).1 with RToken t => t | _ => [] end.
Definition s3 : Srv := (login s0).2.

Lemma login_ok : login s0 = (RToken tok3, s3).
Proof. unfold s3. apply fst_pair. by vm_compute. Qed.

Definition whoami (c : authClaims) : ST Srv Resp := ret (RCreated (UserID c) (Username c)).

Lemma login_opens_session_witness :
  (allow range 100 ip (newIPLimiter 15)).1.1 = true /\
  exists u, CompareHashAndPassword (u_BcryptHash u) (str "$2a$") = true.
Proof.
  pose proof (login_opens_session range key (60 * minute) (str "5gpn") ip (Some good) (str "s3") (str "j3") s0 tok3 s3) as HL.
  destruct (HL login_ok) as (HA & r & u & d & Hr & _ & _ & HC & _). injection Hr as <-.
  split; [exact HA|]. exists u. exact HC.
Defined.

Example whoami_answers : (authMiddleware key (str "Bearer " ++ tok3) whoami s3).1 = RCreated 1 (str "root").
Proof. by vm_compute. Qed.

Definition r4 : Srv := (authMiddleware key (str "bearer " ++ tok3) whoami s3).2.

Lemma middleware_run : authMiddleware key (str "bearer " ++ tok3) whoami s3 = (RCreated 1 (str "root"), r4).
Proof. unfold r4. apply fst_pair. by vm_compute. Qed.

Lemma middleware_requires_session_witness :
  exists row, row ∈ panel_sessions (db s3) /\ ps_RevokedAt row = None.
Proof.
  destruct (middleware_requires_session key (str "bearer " ++ tok3) whoami s3 _ _ middleware_run)
    as [[HE _]|(c & s1 & row & _ & Hrow & _ & Hrev & _)]; [discriminate HE|by exists row].
Defined.

(** Logging out ends the session. *)
Definition claims3 : authClaims :=
  {| SessionID := str "s1"; UserID := 1; Username := str "root"; Issuer := str "5gpn"; JTI := str "j1" |}.
Definition s5 : Srv := (handleLogout claims3 s0).2.
Definition tok1 : bytes := Eval vm_compute in match sign claims3 (10 ^ 15) key with Some t => t | None => [] end.

Lemma logout_ok : handleLogout claims3 s0 = (RNoContent, s5).
Proof. unfold s5. apply fst_pair. by vm_compute. Qed.

Lemma s0_wf : wf (db s0).
Proof. exact Db.Demo.d1_wf. Qed.

Lemma tok1_claims c' : ParseWithClaims (extractBearer (str "Bearer " ++ tok1)) key 500 = Some c' -> SessionID c' = str "s1".
Proof.
  assert (option_map SessionID (ParseWithClaims (extractBearer (str "Bearer " ++ tok1)) key 500) = Some (str "s1")) as HE
    by by vm_compute.
  intros E. rewrite E in HE. by injection HE.
Qed.

Lemma no_ops d :
  db (srv (at_time 500 [false] d)) = at_time 500 [false] (foldl (fun d op => run_op Db.Demo.parse op d) d []).
Proof. reflexivity. Qed.

Lemma revoked_tokens_refused_witness :
  (authMiddleware key (str "Bearer " ++ tok1) whoami (srv (at_time 500 [false] (db s5)))).1 =
  RError 401 (str "unauthorized").
Proof.
  apply (revoked_tokens_refused key Db.Demo.parse Db.Demo.s1 claims3 s0 s5 [] 500 [false]
    (srv (at_time 500 [false] (db s5))) (str "Bearer " ++ tok1) whoami None None).
  - exact s0_wf.
  - exact Db.Demo.s1_in.
  - left. split; [exact logout_ok|reflexivity].
  - exact (no_ops (db s5)).
  - exact tok1_claims.
Defined.

(** Two claims of the bootstrap: the second finds the token gone. *)
Definition claim (t p : bytes) : option bootstrapRequest * option bytes :=
  (Some {| b_Token := t; b_Username := str "root"; b_Password := p |}, Some (str "$2a$")).
Definition two_claims : list (option bootstrapRequest * option bytes) :=
  [claim (str "guess") (str "longenough"); claim (str "setup") (str "short"); claim (str "setup") (str "longenough");
   claim (str "setup") (str "longenough")].
Definition booted : Srv := (run_claims two_claims (srv (Db.Demo.fresh []))).2.
Definition answers : list Resp :=
  [RError 403 (str "invalid_setup_token"); RError 400 (str "weak_password"); RCreated 1 (str "root");
   RError 403 (str "invalid_setup_token")].

Lemma claims_run : run_claims two_claims (srv (Db.Demo.fresh [])) = (answers, booted).
Proof. unfold booted. apply fst_pair. by vm_compute. Qed.

Lemma bootstrap_once_witness :
  SetupToken booted = [] /\ (length (filter (fun r => is_created r = true) answers) <= 1)%nat.
Proof.
  destruct (bootstrap_once two_claims _ _ _ claims_run) as (HL & HX & _). split; [|exact HL].
  apply HX. exists (RCreated 1 (str "root")). split; [|reflexivity]. right. right. left.
Defined.
End Demo.
