(* ===== verification/Host.v ===== *)
(** * The host: files, permissions and commands

    What the controllers that manage the machine see of it: the files by
    path, the outcomes of the next system calls, the answers of the next
    commands, and the commands already run, each with the files it found.  A
    theorem over all hosts is a theorem over all failure patterns and all
    behaviours of systemctl and of other programs, which are not given the
    right to change the files. *)
From S2P Require Import Prelude.
From Stdlib Require Import ZArith Lia.

Record File := { Body : bytes; Perm : Z }.
Abbreviation Files := (gmap bytes File).

(** A system call works, or fails; a failing write has stored its first [n]
    bytes. *)
Inductive outcome := Done | Broken (n : nat).

Record Host := {
  files : Files;
  faults : list outcome;
  answers : list (bytes * bool);       (* output and exit status zero *)
  ran : list (list bytes * Files)      (* history, latest first *)
}.

Definition set_files (fs : Files) (w : Host) : Host :=
  {| files := fs; faults := faults w; answers := answers w; ran := ran w |}.
Definition set_faults (l : list outcome) (w : Host) : Host :=
  {| files := files w; faults := l; answers := answers w; ran := ran w |}.

Inductive FsErr := NotExist | EIO.

#[export] Instance FsErr_eq_dec : EqDecision FsErr.
Proof. solve_decision. Defined.

(** The outcome of the next call: [Some n] is a failure. *)
Definition next_call : ST Host (option nat) := fun w =>
  match faults w with
  | Broken n :: l => (Some n, set_faults l w)
  | Done :: l => (None, set_faults l w)
  | [] => (None, w)
  end.

(** A call that fails with [e] and changes nothing, or changes the files. *)
Definition sys {E} (e : E) (f : Files -> Files) : ST Host (res E unit) :=
  let! o := next_call in
  match o with
  | Some _ => ret (Err e)
  | None => let! _ := modify (fun w => set_files (f (files w)) w) in ret (Ok tt)
  end.

(** [os.ReadFile], [os.Stat], [os.Remove], [os.Rename]. *)
Definition Stat (path : bytes) : ST Host (res FsErr File) :=
  let! o := next_call in
  match o with
  | Some _ => ret (Err EIO)
  | None => gets (fun w => match files w !! path with Some f => Ok f | None => Err NotExist end)
  end.

Definition ReadFile (path : bytes) : ST Host (res FsErr bytes) :=
  let! r := Stat path in ret (match r with Ok f => Ok (Body f) | Err e => Err e end).

Definition Remove (path : bytes) : ST Host (res FsErr unit) :=
  let! r := Stat path in
  match r with
  | Err e => ret (Err e)
  | Ok _ => let! _ := modify (fun w => set_files (delete path (files w)) w) in ret (Ok tt)
  end.

Definition Rename (src dst : bytes) : ST Host (res FsErr unit) :=
  let! r := Stat src in
  match r with
  | Err e => ret (Err e)
  | Ok f => let! _ := modify (fun w => set_files (<[dst := f]> (delete src (files w))) w) in ret (Ok tt)
  end.

(** Writing all of [body] to the open file [path]. *)
Definition Write (path body : bytes) : ST Host (res FsErr unit) :=
  let! o := next_call in
  let stored (b : bytes) (f : File) : File := {| Body := b; Perm := Perm f |} in
  match o with
  | Some n => let! _ := modify (fun w => set_files (alter (stored (take n body)) path (files w)) w) in ret (Err EIO)
  | None => let! _ := modify (fun w => set_files (alter (stored body) path (files w)) w) in ret (Ok tt)
  end.

Definition Chmod (path : bytes) (mode : Z) : ST Host (res FsErr unit) :=
  sys EIO (alter (fun f => {| Body := Body f; Perm := mode |}) path).

(** [exec.Command(argv...).CombinedOutput]. *)
Definition exec (argv : list bytes) : ST Host (bytes * bool) := fun w =>
  let entry := (argv, files w) in
  match answers w with
  | a :: l => (a, {| files := files w; faults := faults w; answers := l; ran := entry :: ran w |})
  | [] => (([], true), {| files := files w; faults := faults w; answers := []; ran := entry :: ran w |})
  end.

(** A call whose error is thrown away. *)
Definition dropped {E A} (m : ST Host (res E A)) : ST Host unit := let! _ := m in ret tt.

(** An error of the file system, as the caller reports it. *)
Definition io {E A} (f : FsErr -> E) (m : ST Host (res FsErr A)) : ST Host (res E A) :=
  let! r := m in ret (match r with Ok a => Ok a | Err e => Err (f e) end).

(** ** Lemmas

    [Q] is asked of every state with other outcomes still to come. *)
Lemma wp_call (Q : option nat -> Host -> Prop) w :
  (forall o l, Q o (set_faults l w)) -> wp next_call Q w.
Proof. intros HQ. unfold wp, next_call. destruct w as [fs [|[|n] l] a r]; cbn; apply HQ || apply (HQ None []). Qed.

Lemma wp_sys {E} (e : E) f Q w :
  (forall l, Q (Err e) (set_faults l w)) -> (forall l, Q (Ok tt) (set_faults l (set_files (f (files w)) w))) ->
  wp (sys e f) Q w.
Proof. intros HE HO. apply wp_bind, wp_call. intros [n|] l; [apply HE|apply (HO l)]. Qed.

Lemma wp_stat path Q w :
  (forall l, Q (Err EIO) (set_faults l w)) ->
  (forall l, files w !! path = None -> Q (Err NotExist) (set_faults l w)) ->
  (forall l f, files w !! path = Some f -> Q (Ok f) (set_faults l w)) ->
  wp (Stat path) Q w.
Proof.
  intros HE HN HO. apply wp_bind, wp_call. intros [n|] l; [apply HE|]. unfold wp, gets. cbn.
  destruct (files w !! path) eqn:EF; auto.
Qed.

Lemma wp_read path Q w :
  (forall l, Q (Err EIO) (set_faults l w)) ->
  (forall l, files w !! path = None -> Q (Err NotExist) (set_faults l w)) ->
  (forall l f, files w !! path = Some f -> Q (Ok (Body f)) (set_faults l w)) ->
  wp (ReadFile path) Q w.
Proof. intros HE HN HO. apply wp_bind, wp_stat; intros; apply wp_ret; auto. Qed.

Lemma wp_remove path Q w :
  (forall l, Q (Err EIO) (set_faults l w)) ->
  (forall l, files w !! path = None -> Q (Err NotExist) (set_faults l w)) ->
  (forall l, Q (Ok tt) (set_faults l (set_files (delete path (files w)) w))) ->
  wp (Remove path) Q w.
Proof. intros HE HN HO. apply wp_bind, wp_stat; intros; [by apply wp_ret|by apply wp_ret; auto|apply (HO l)]. Qed.

Lemma wp_rename src dst Q w :
  (forall e l, Q (Err e) (set_faults l w)) ->
  (forall l f, files w !! src = Some f -> Q (Ok tt) (set_faults l (set_files (<[dst := f]> (delete src (files w))) w))) ->
  wp (Rename src dst) Q w.
Proof. intros HE HO. apply wp_bind, wp_stat; intros; [apply wp_ret, HE|apply wp_ret, HE|by apply (HO l f)]. Qed.

Lemma wp_write_file path body Q w :
  (forall n l, Q (Err EIO) (set_faults l (set_files
     (alter (fun f => {| Body := take n body; Perm := Perm f |}) path (files w)) w))) ->
  (forall l, Q (Ok tt) (set_faults l (set_files
     (alter (fun f => {| Body := body; Perm := Perm f |}) path (files w)) w))) ->
  wp (Write path body) Q w.
Proof. intros HE HO. apply wp_bind, wp_call. intros [n|] l; [apply (HE n l)|apply (HO l)]. Qed.

Lemma wp_exec_cmd argv Q w :
  (forall out ok l, Q (out, ok) {| files := files w; faults := faults w; answers := l; ran := (argv, files w) :: ran w |}) ->
  wp (exec argv) Q w.
Proof. intros HQ. unfold wp, exec. destruct w as [fs f [|[out ok] l] r]; cbn; apply HQ. Qed.

Lemma wp_io {E A} (f : FsErr -> E) (m : ST Host (res FsErr A)) Q w :
  wp m (fun r w => Q (match r with Ok a => Ok a | Err e => Err (f e) end) w) w -> wp (io f m) Q w.
Proof. intros Hm. apply wp_bind. eapply wp_mono; [exact Hm|]. done. Qed.

Lemma wp_dropped {E A} (m : ST Host (res E A)) Q w : wp m (fun _ w => Q tt w) w -> wp (dropped m) Q w.
Proof. intros Hm. apply wp_bind. eapply wp_mono; [exact Hm|]. done. Qed.

(** The next step of a run on the host. *)
Ltac host_step :=
  match goal with
  | |- wp (bind _ _) _ _ => apply wp_bind
  | |- wp (bindE _ _) _ _ => apply wp_bindE
  | |- wp (io _ _) _ _ => apply wp_io
  | |- wp (dropped _) _ _ => apply wp_dropped
  | |- wp (ret _) _ _ => apply wp_ret
  | |- wp (sys _ _) _ _ => apply wp_sys; intros
  | |- wp (Chmod _ _) _ _ => apply wp_sys; intros
  | |- wp (Stat _) _ _ => apply wp_stat; intros
  | |- wp (ReadFile _) _ _ => apply wp_read; intros
  | |- wp (Remove _) _ _ => apply wp_remove; intros
  | |- wp (Rename _ _) _ _ => apply wp_rename; intros
  | |- wp (Write _ _) _ _ => apply wp_write_file; intros
  | |- wp (exec _) _ _ => apply wp_exec_cmd; intros
  end; cbv beta iota.

(** ** A concrete choice of temporary names, for the examples *)
#[local] Instance byte_inhabited : Inhabited byte := populate Byte.x00.

Definition fresh_path (fs : Files) (path : bytes) : bytes := fresh (dom fs ∪ {[path]}).

Lemma fresh_path_ok fs path : fs !! fresh_path fs path = None /\ fresh_path fs path <> path.
Proof.
  pose proof (is_fresh (dom fs ∪ {[path]})) as HF. fold (fresh_path fs path) in HF. split.
  - apply not_elem_of_dom. set_solver.
  - set_solver.
Qed.
