(* ===== verification/Mtg.v ===== *)
(** * Control of the MTProto proxy

    [internal/mtgctl/mtgctl.go], the controller of mtg.service over the host
    ([Host]: its unit file and the systemctl and mtg commands), and
    [internal/api/mtproxy_settings.go], the panel's handlers over it.  The
    choice of a temporary name and the settings lookup are parameters. *)
From S2P Require Import Prelude GoStrings GoNet GoCodec Host.
From Stdlib Require Import ZArith Lia.
Local Open Scope Z_scope.

(** ** mtgctl.go *)
Definition DefaultListen : bytes := str "0.0.0.0:2443".
Definition FakeTLSSecretPrefix : byte := Byte.xee.
Definition cloudflare : bytes := str "www.cloudflare.com".
Definition nl : byte := Byte.x0a.

(** Errors by their cause; [Joined] is [errors.Join]. *)
Inductive MtgErr :=
| ErrNotInstalled | EStat | EStatus | EEmptyStatus | ECommand | EGenerate | ESecretRequired | ESecretArgs
| EListen | ERead | EWrite | EReload | EReloadRestore | ESettings | ENoPrevious | Joined (e f : MtgErr).

(** [errors.Is(err, ErrNotInstalled)]. *)
Fixpoint is_not_installed (e : MtgErr) : bool :=
  match e with
  | ErrNotInstalled => true
  | Joined e f => is_not_installed e || is_not_installed f
  | _ => false
  end.

Record Controller := { BinaryPath : bytes; UnitName : bytes; UnitFile : bytes }.

(** [New]. *)
Definition New (binary unitName unitFile : bytes) : Controller := {|
  BinaryPath := if binary == [] then str "/usr/local/bin/mtg" else binary;
  UnitName := if unitName == [] then str "mtg.service" else unitName;
  UnitFile := if unitFile == [] then str "/etc/systemd/system/mtg.service" else unitFile
|}.

(** [parseExecStart]: the sweep over the arguments between the first and the
    last; [i] counts from 1 and [n] is their number. *)
Fixpoint bind_sweep (rest : list bytes) (listen : bytes) : bytes :=
  match rest with
  | [] | [_] => listen
  | f :: ((g :: rest') as tl) =>
      let listen' :=
        if (f == str "--bind") || (f == str "-b") then if rest' == [] then listen else g
        else if HasPrefix f (str "--bind=") then TrimPrefix f (str "--bind=") else listen in
      bind_sweep tl listen'
  end.

Definition parseExecStart (cmd : bytes) : bytes * bytes :=
  match Fields cmd with
  | [] | [_] => ([], [])
  | f :: rest => (bind_sweep rest [], List.last rest [])
  end.

(** [renderUnit]. *)
Definition unit_head : bytes :=
  str "[Unit]" ++ nl :: str "Description=9seconds/mtg (managed by 5gpn panel)" ++ nl ::
  str "After=network.target" ++ nl :: nl :: str "[Service]" ++ nl :: str "Type=simple" ++ [nl].
Definition unit_tail : bytes :=
  nl :: str "Restart=on-failure" ++ nl :: str "RestartSec=5" ++ nl :: nl ::
  str "[Install]" ++ nl :: str "WantedBy=multi-user.target" ++ [nl].

Definition renderUnit (binaryPath listen secret : bytes) : bytes :=
  let binaryPath := if binaryPath == [] then str "/usr/local/bin/mtg" else binaryPath in
  unit_head ++ str "ExecStart=" ++ binaryPath ++ str " run --bind " ++ listen ++ str " " ++ secret ++ unit_tail.

(** [ReadUnit], the loop over the lines. *)
Fixpoint read_lines (lines : list bytes) : bytes * bytes :=
  match lines with
  | [] => ([], [])
  | line :: lines =>
      let line := TrimSpace line in
      if HasPrefix line (str "ExecStart=") then parseExecStart (TrimPrefix line (str "ExecStart=")) else read_lines lines
  end.

(** [decodeSecret] and [DecodeFrontingDomain]. *)
Definition decodeSecret (s : bytes) : option bytes :=
  let s := TrimSpace s in
  if s == [] then None else b64_raw_either true s.

Definition DecodeFrontingDomain (secret : bytes) : bytes :=
  match decodeSecret secret with
  | None => []
  | Some raw =>
      if len raw <? 17 then []
      else if negb (bool_decide (head raw = Some FakeTLSSecretPrefix)) then [] else drop 17 raw
  end.

Section mtgctl.
(** [os.CreateTemp]'s name: a file that does not exist yet. *)
Context (TempName : Files -> bytes -> bytes).
Context (c : Controller).

Abbreviation M A := (ST Host (res MtgErr A)).

Definition fail {A} (e : MtgErr) : M A := ret (Err e).

(** [checkInstalled] and the probe of [GenerateSecret]. *)
Definition present (path : bytes) : M unit :=
  let! r := Stat path in
  ret (match r with Ok _ => Ok tt | Err NotExist => Err ErrNotInstalled | Err EIO => Err EStat end).

Definition checkInstalled : M unit := present (UnitFile c).

Definition systemctl (args : list bytes) : M unit :=
  let! r := exec (str "systemctl" :: args) in
  ret (if r.2 : bool then Ok tt else Err ECommand).

(** [Status] and [IsActive]. *)
Definition valid_states : list bytes :=
  map str ["inactive"; "failed"; "activating"; "deactivating"; "unknown"]%string.

Definition Status : M bytes :=
  let? _ := checkInstalled in
  let! r := exec [str "systemctl"; str "is-active"; UnitName c] in
  let trimmed := TrimSpace r.1 in
  ret (if negb r.2 then if bool_decide (trimmed ∈ valid_states) then Ok trimmed else Err EStatus
       else if trimmed == [] then Err EEmptyStatus else Ok trimmed).

Definition IsActive : M bool := let? s := Status in ret (Ok (s == str "active")).

Definition Enable : M unit :=
  let? _ := checkInstalled in systemctl [str "enable"; str "--now"; UnitName c].
Definition Disable : M unit :=
  let? _ := checkInstalled in systemctl [str "disable"; str "--now"; UnitName c].
Definition Restart : M unit :=
  let? _ := checkInstalled in systemctl [str "restart"; UnitName c].
Definition DaemonReload : M unit := systemctl [str "daemon-reload"].

(** [GenerateSecret]. *)
Definition GenerateSecret (frontingDomain : bytes) : M bytes :=
  let? _ := present (BinaryPath c) in
  let domain := TrimSpace frontingDomain in
  let domain := if domain == [] then cloudflare else domain in
  let! r := exec [BinaryPath c; str "generate-secret"; domain] in
  ret (if r.2 : bool then Ok (TrimSpace r.1) else Err EGenerate).

(** [writeAtomic]: the deferred removal runs only on an error. *)
Definition fill_temp (tmp path body : bytes) (mode : Z) : ST Host (res FsErr unit) :=
  let? _ := Chmod tmp mode in
  let? _ := Write tmp body in
  let? _ := sys EIO id in            (* Sync *)
  let? _ := sys EIO id in            (* Close *)
  Rename tmp path.

Definition writeAtomic (path body : bytes) (mode : Z) : ST Host (res FsErr unit) :=
  let! tmp := gets (fun w => TempName (files w) path) in
  let? _ := sys EIO (<[tmp := {| Body := []; Perm := 384 |}]>) in
  let! r := fill_temp tmp path body mode in
  match r with
  | Ok _ => ret (Ok tt)
  | Err e => let! _ := dropped (Remove tmp) in ret (Err e)
  end.

(** [WriteUnit]: the reload and its compensation. *)
Definition restore_unit (old : option bytes) (mode : Z) : ST Host (res FsErr unit) :=
  match old with
  | Some old => writeAtomic (UnitFile c) old mode
  | None =>
      let! r := Remove (UnitFile c) in
      ret (match r with Err NotExist => Ok tt | r => r end)
  end.

Definition reload_or_restore (old : option bytes) (mode : Z) : M unit :=
  let! r := DaemonReload in
  match r with
  | Ok _ => ret (Ok tt)
  | Err _ =>
      let! r := restore_unit old mode in
      match r with
      | Err _ => fail EReloadRestore
      | Ok _ =>
          let! r := DaemonReload in
          match r with Err _ => fail EReloadRestore | Ok _ => fail EReload end
      end
  end.

Definition WriteUnit (listen secret : bytes) : M unit :=
  let listen := TrimSpace listen in
  let listen := if listen == [] then DefaultListen else listen in
  let secret := TrimSpace secret in
  if secret == [] then fail ESecretRequired
  else if ContainsAny secret (map zb [32; 9; 13; 10]) then fail ESecretArgs
  else match SplitHostPort listen with
  | None => fail EListen
  | Some _ =>
      let unit_body := renderUnit (BinaryPath c) listen secret in
      let! r := ReadFile (UnitFile c) in
      match r with
      | Err EIO => fail ERead
      | (Ok _ | Err NotExist) =>
          let old := match r with Ok b => Some b | Err _ => None end in
          let! st := Stat (UnitFile c) in
          let mode := match st with Ok f => Perm f | Err _ => 420 end in
          let? _ := io (fun _ => EWrite) (writeAtomic (UnitFile c) unit_body mode) in
          reload_or_restore old mode
      end
  end.

(** [ReadUnit]. *)
Definition ReadUnit : M (bytes * bytes) :=
  let! r := ReadFile (UnitFile c) in
  ret (match r with
       | Err NotExist => Ok ([], [])
       | Err EIO => Err ERead
       | Ok raw => Ok (read_lines (Split raw nl))
       end).

(** ** mtproxy_settings.go *)
Context `{Unicode}.
(** The settings store: absent, failing, or the panel's domain. *)
Context (Settings : option (option bytes)).

(** [restoreMTGUnit]. *)
Definition restoreMTGUnit (listen oldSecret : bytes) (wasActive : bool) (primary : MtgErr) : ST Host MtgErr :=
  if oldSecret == [] then ret (Joined primary ENoPrevious)
  else
    let! r := WriteUnit listen oldSecret in
    match r with
    | Err e => ret (Joined primary e)
    | Ok _ =>
        if wasActive then
          let! r := Restart in
          ret (match r with Err e => Joined primary e | Ok _ => primary end)
        else ret primary
    end.

Definition panelDomain : res MtgErr bytes :=
  match Settings with
  | None => Ok []
  | Some None => Err ESettings
  | Some (Some v) => Ok (TrimSpace v)
  end.

(** [portOnly]. *)
Definition portOnly (listen : bytes) : bytes :=
  match LastIndexByte listen colon with Some i => drop (S i) listen | None => [] end.

(** [buildConnectLinkHint] and [buildConnectLink]; [url.Values.Encode] sorts
    its keys. *)
Definition buildConnectLinkHint (domain listen : bytes) : bytes :=
  let host := if domain == [] then str "<panel_domain>" else domain in
  let port := portOnly listen in
  let port := if port == [] then str "<port>" else port in
  str "clients see this proxy at tg://proxy?server=" ++ host ++ str "&port=" ++ port ++ str "&secret=<secret>".

Definition buildConnectLink (domain listen secret : bytes) : bytes :=
  let host := if domain == [] then str "YOUR_SERVER" else domain in
  let port := portOnly listen in
  str "tg://proxy?" ++ (if port == [] then [] else str "port=" ++ QueryEscape port ++ str "&") ++
  str "secret=" ++ QueryEscape secret ++ str "&server=" ++ QueryEscape host.

Record Snapshot := {
  s_Enabled : bool; s_Listen : bytes; s_SecretConfigured : bool; s_FrontingDomain : bytes;
  s_ConnectLinkHint : bytes; s_ServiceStatus : bytes
}.

Inductive MtgResp := MError (status : Z) (code : bytes) | MSettings (s : Snapshot) | MSecret (secret link : bytes).

(** [writeMTGError]. *)
Definition writeMTGError (e : MtgErr) : MtgResp :=
  if is_not_installed e then MError 503 (str "mtg_not_installed") else MError 500 (str "mtg_failed").

Definition or_default (listen : bytes) : bytes := if listen == [] then DefaultListen else listen.

(** [readMTGSnapshot]. *)
Definition readMTGSnapshot : M Snapshot :=
  let? status := Status in
  let? u := ReadUnit in
  let listen := or_default u.1 in
  let configured := TrimSpace u.2 != [] in
  let domain := if configured then DecodeFrontingDomain u.2 else [] in
  match panelDomain with
  | Err e => fail e
  | Ok d => ret (Ok {|
      s_Enabled := status == str "active"; s_Listen := listen; s_SecretConfigured := configured;
      s_FrontingDomain := domain; s_ConnectLinkHint := buildConnectLinkHint d listen; s_ServiceStatus := status |})
  end.

(** The rotation both handlers contain: generate, write, and restart an
    active service, with the compensation of a failure. *)
Definition rotate (listen oldSecret domain : bytes) : M bytes :=
  let? secret := GenerateSecret domain in
  let? _ := WriteUnit listen secret in
  let! on := IsActive in
  match on with
  | Err e => let! e := restoreMTGUnit listen oldSecret false e in fail e
  | Ok false => ret (Ok secret)
  | Ok true =>
      let! r := Restart in
      match r with
      | Err e => let! e := restoreMTGUnit listen oldSecret true e in fail e
      | Ok _ => ret (Ok secret)
      end
  end.

(** [handleGetMTProxySettings]; [wired]: the server has a controller. *)
Definition answer (m : M MtgResp) : ST Host MtgResp :=
  let! r := m in ret (match r with Ok a => a | Err e => writeMTGError e end).

Definition not_wired : MtgResp := MError 503 (str "mtg_not_wired").

Definition handleGetMTProxySettings (wired : bool) : ST Host MtgResp :=
  if negb wired then ret not_wired
  else answer (let? s := readMTGSnapshot in ret (Ok (MSettings s))).

(** [handleUpdateMTProxySettings]; [None] is a body that does not decode. *)
Record UpdateRequest := { u_Enabled : option bool; u_FrontingDomain : option bytes }.

Definition set_enabled (enabled : option bool) (secret : bytes) : M MtgResp :=
  let finish : M MtgResp := let? s := readMTGSnapshot in ret (Ok (MSettings s)) in
  match enabled with
  | Some true =>
      if TrimSpace secret == [] then ret (Ok (MError 400 (str "secret_not_configured")))
      else let? _ := Enable in finish
  | Some false => let? _ := Disable in finish
  | None => finish
  end.

Definition wants_rotation (req : UpdateRequest) (currentSecret : bytes) : option bytes :=
  match u_FrontingDomain req with
  | None => None
  | Some d =>
      let want := TrimSpace d in
      if (want != []) && negb (EqualFold want (DecodeFrontingDomain currentSecret)) then Some want else None
  end.

Definition handleUpdateMTProxySettings (wired : bool) (req : option UpdateRequest) : ST Host MtgResp :=
  if negb wired then ret not_wired
  else match req with
  | None => ret (MError 400 (str "bad_request"))
  | Some req =>
      answer (
        let? u := ReadUnit in
        let listen := or_default u.1 in
        match wants_rotation req u.2 with
        | Some want => let? secret := rotate listen u.2 want in set_enabled (u_Enabled req) secret
        | None => set_enabled (u_Enabled req) u.2
        end)
  end.

(** [handleGenerateMTProxySecret]; the body may be empty. *)
Definition handleGenerateMTProxySecret (wired : bool) (req : option bytes) : ST Host MtgResp :=
  if negb wired then ret not_wired
  else match req with
  | None => ret (MError 400 (str "bad_request"))
  | Some d =>
      let domain := TrimSpace d in
      let domain := if domain == [] then cloudflare else domain in
      match panelDomain with
      | Err _ => ret (MError 500 (str "settings_failed"))
      | Ok forLink =>
          answer (
            let? u := ReadUnit in
            let listen := or_default u.1 in
            let? secret := rotate listen u.2 domain in
            ret (Ok (MSecret secret (buildConnectLink forLink listen secret))))
      end
  end.
End mtgctl.

(** ** Lemmas *)
Section lemmas.
Context (TempName : Files -> bytes -> bytes) (c : Controller).
Context (Temp_fresh : forall fs path, fs !! TempName fs path = None /\ TempName fs path <> path).

(** Every existing file but [path] is as it was. *)
Definition only (path : bytes) (w w' : Host) : Prop :=
  forall p, p <> path -> is_Some (files w !! p) -> files w' !! p = files w !! p.

Lemma only_same path w w' : files w' = files w -> only path w w'.
Proof. by intros E p _ _; rewrite E. Qed.

Lemma only_trans path w1 w2 w3 : only path w1 w2 -> only path w2 w3 -> only path w1 w3.
Proof. intros H1 H2 p Hp Hs. rewrite H2; [by apply H1|done|]. by rewrite H1. Qed.

(** What a replacement of [path] leaves: all of the new file, or the old one. *)
Definition placed (path body : bytes) (mode : Z) (w : Host) (r : res FsErr unit) (w' : Host) : Prop :=
  ran w' = ran w /\ only path w w' /\
  match r with
  | Ok _ => files w' !! path = Some {| Body := body; Perm := mode |}
  | Err _ => files w' !! path = files w !! path
  end.

Lemma fill_temp_spec tmp path body mode w0 w :
  tmp <> path -> files w0 !! tmp = None -> ran w = ran w0 ->
  files w = <[tmp := {| Body := []; Perm := 384 |}]> (files w0) ->
  wp (fill_temp tmp path body mode) (placed path body mode w0) w.
Proof.
  intros Hne Hnone Hran Hw.
  assert (forall f e l w1, ran w1 = ran w0 -> files w1 = <[tmp := f]> (files w0) ->
    placed path body mode w0 (Err e) (set_faults l w1)) as HE.
  { intros f e l w1 Hr Hf. split; [done|]. split.
    - intros p Hp [v Hv]. cbn. rewrite Hf, lookup_insert_ne; [done|]. intros ->. by rewrite Hnone in Hv.
    - cbn. rewrite Hf. by rewrite lookup_insert_ne. }
  unfold fill_temp. repeat host_step; try (eapply HE; cbn; [done|rewrite ?Hw, ?alter_insert_eq; done]).
  cbn in *. rewrite Hw, !alter_insert_eq in *. rewrite lookup_insert_eq in H. injection H as <-. cbn.
  split; [done|]. split; cbn.
  - intros p Hp [v Hv]. cbn. rewrite lookup_insert_ne, lookup_delete_ne, lookup_insert_ne; try done; intros ->;
      by rewrite Hnone in Hv.
  - cbn. by rewrite lookup_insert_eq.
Qed.

Lemma writeAtomic_spec path body mode w :
  wp (writeAtomic TempName path body mode) (placed path body mode w) w.
Proof.
  destruct (Temp_fresh (files w) path) as [Hn Hp]. unfold writeAtomic. host_step. unfold gets, wp at 1.
  host_step. host_step; [by split; [|split; [by apply only_same|]]|].
  host_step. eapply wp_mono; [apply (fill_temp_spec _ _ _ _ w); done|]. cbv beta.
  intros [e|[]] w1 (Hr & Ho & Hf); [|by host_step].
  host_step. host_step. host_step; host_step.
  - by split; [|split].
  - by split; [|split].
  - split; [done|]. split.
    + intros p Hpp [v Hv]. cbn. rewrite lookup_delete_ne; [by apply Ho|]. intros <-. by rewrite Hn in Hv.
    + cbn. by rewrite lookup_delete_ne.
Qed.

(** What is on the disk. *)
Definition unit_body (w : Host) : option bytes := Body <$> files w !! UnitFile c.

Lemma placed_body body mode w r w' :
  placed (UnitFile c) body mode w r w' -> unit_body w' = (if res_ok r then Some body else unit_body w).
Proof. intros (_ & _ & HF). unfold unit_body. destruct r; cbn; by rewrite HF. Qed.

Definition reload : list bytes := [str "systemctl"; str "daemon-reload"].

Definition effective (listen : bytes) : bytes :=
  let listen := TrimSpace listen in if listen == [] then DefaultListen else listen.

(** What [WriteUnit] promises. *)
Definition written (listen secret : bytes) (w : Host) (r : res MtgErr unit) (w' : Host) : Prop :=
  only (UnitFile c) w w' /\
  match r with
  | Ok _ =>
      TrimSpace secret <> [] /\
      unit_body w' = Some (renderUnit (BinaryPath c) (effective listen) (TrimSpace secret)) /\
      ran w' = (reload, files w') :: ran w
  | Err EReloadRestore => True
  | Err e => unit_body w' = unit_body w /\ is_not_installed e = false
  end.

Lemma restore_unit_spec old mode w :
  wp (restore_unit TempName c old mode) (fun r w' => only (UnitFile c) w w' /\
    match r with Ok _ => unit_body w' = old | Err _ => True end) w.
Proof.
  unfold restore_unit. destruct old as [old|].
  - eapply wp_mono; [apply writeAtomic_spec|]. intros r w' HP. split; [apply HP|]. apply placed_body in HP. by destruct r.
  - host_step. host_step; host_step.
    + split; [by apply only_same|done].
    + split; [by apply only_same|]. unfold unit_body. cbn. by rewrite H.
    + split; [intros p Hp _; cbn; by rewrite lookup_delete_ne|]. unfold unit_body. cbn. by rewrite lookup_delete_eq.
Qed.

Lemma wp_systemctl args Q w :
  (forall l, Q (Ok tt) {| files := files w; faults := faults w; answers := l; ran := (str "systemctl" :: args, files w) :: ran w |}) ->
  (forall l, Q (Err ECommand) {| files := files w; faults := faults w; answers := l; ran := (str "systemctl" :: args, files w) :: ran w |}) ->
  wp (systemctl args) Q w.
Proof. intros HO HE. unfold systemctl. host_step. host_step. host_step. destruct ok; [by apply HO|by apply HE]. Qed.

Lemma reload_or_restore_spec old mode w :
  wp (reload_or_restore TempName c old mode) (fun r w' => only (UnitFile c) w w' /\
    match r with
    | Ok _ => files w' = files w /\ ran w' = (reload, files w') :: ran w
    | Err e => e = EReloadRestore \/ (e = EReload /\ unit_body w' = old)
    end) w.
Proof.
  unfold reload_or_restore. host_step. apply wp_systemctl; intros l; cbv beta iota; [by host_step|].
  host_step. eapply wp_mono; [apply restore_unit_spec|]. cbv beta. intros [e|[]] w' [Ho Hb].
  - apply wp_ret. split; [exact Ho|by left].
  - host_step. apply wp_systemctl; intros l'; cbv beta iota; apply wp_ret; (split; [exact Ho|]); [by right|by left].
Qed.

Lemma WriteUnit_spec listen secret w :
  wp (WriteUnit TempName c listen secret) (written listen secret w) w.
Proof.
  assert (forall e l, is_not_installed e = false -> written listen secret w (Err e) (set_faults l w)) as HE.
  { intros e l He. split; [by apply only_same|]. by destruct e. }
  unfold WriteUnit. cbv zeta. fold (effective listen).
  destruct (bool_decide_reflect (TrimSpace secret = [])) as [|Hs]; [by apply (HE _ (faults w))|].
  destruct (ContainsAny _ _); [by apply (HE _ (faults w))|].
  destruct (SplitHostPort _); [|by apply (HE _ (faults w))].
  assert (forall old l, unit_body w = old ->
    wp (let! st := Stat (UnitFile c) in
        let? _ := io (fun _ => EWrite) (writeAtomic TempName (UnitFile c)
          (renderUnit (BinaryPath c) (effective listen) (TrimSpace secret)) match st with Ok f => Perm f | Err _ => 420 end) in
        reload_or_restore TempName c old match st with Ok f => Perm f | Err _ => 420 end)
      (written listen secret w) (set_faults l w)) as HW.
  { intros old l Hold. host_step. apply (wp_mono _ (fun _ w' => exists l, w' = set_faults l w)).
    { host_step; by eexists. }
    intros st w1 [l1 ->]. host_step. host_step. eapply wp_mono; [apply writeAtomic_spec|].
    intros r w2 HP. pose proof (placed_body _ _ _ _ _ HP) as HB. destruct HP as (Hr & Ho & _). cbn in Hr.
    destruct r as [e|[]]; [split; [exact Ho|]; split; [exact HB|done]|]. cbn [res_ok] in HB.
    eapply wp_mono; [apply reload_or_restore_spec|]. cbv beta. intros r w3 [Ho3 H3].
    split; [by eapply only_trans|]. destruct r as [e|[]].
    - destruct H3 as [->|[-> H3]]; [done|]. split; [|done]. rewrite H3. by symmetry.
    - destruct H3 as [Hf Hn]. split; [done|]. split; [|by rewrite Hn, Hr]. rewrite <- HB. unfold unit_body. by rewrite Hf. }
  host_step. host_step; [by apply (HE _ l)|..]; apply HW; unfold unit_body; by rewrite H.
Qed.

(** *** Reading a rendered unit back *)
Definition plain (w : bytes) : Prop := visible w /\ w <> [].

Lemma plain_ends w : plain w -> exists a b, visible_byte b = true /\ w = a ++ [b].
Proof.
  intros [Hv Hn]. destruct (exists_last Hn) as (a & b & ->). exists a, b. split; [|done].
  apply Forall_app in Hv as [_ Hv]. by apply Forall_cons in Hv as [Hv _].
Qed.

Lemma visible_no_nl w : visible w -> nl ∉ w.
Proof. intros Hv Hin. unfold visible in Hv. rewrite Forall_forall in Hv. by specialize (Hv _ Hin). Qed.

Lemma parseExecStart_rendered bin listen secret :
  plain bin -> plain listen -> plain secret -> HasPrefix listen (str "--bind=") = false ->
  parseExecStart (bin ++ str " run --bind " ++ listen ++ str " " ++ secret) = (listen, secret).
Proof.
  intros [Hb Hb0] [Hl Hl0] [Hs Hs0] Hp. unfold parseExecStart.
  change (str " run --bind ") with (space :: str "run" ++ space :: str "--bind" ++ [space]).
  replace (bin ++ (space :: str "run" ++ space :: str "--bind" ++ [space]) ++ listen ++ str " " ++ secret)
    with (Join [bin; str "run"; str "--bind"; listen; secret] space).
  2: { cbn [Join]; f_equal; cbn [app]; by rewrite <- ?app_assoc. }
  rewrite Fields_Join.
  - cbn [bind_sweep List.last]. rewrite Hp.
    assert (bool_decide ([secret] = []) = false) as -> by done.
    destruct ((listen == str "--bind") || (listen == str "-b")); done.
  - repeat (constructor; [first [done|by vm_compute; repeat constructor]|]); try constructor.
  - by repeat (constructor; [done|]).
Qed.

Definition head_lines : list bytes :=
  [str "[Unit]"; str "Description=9seconds/mtg (managed by 5gpn panel)"; str "After=network.target"; [];
   str "[Service]"; str "Type=simple"].
Definition tail_lines : list bytes :=
  [str "Restart=on-failure"; str "RestartSec=5"; []; str "[Install]"; str "WantedBy=multi-user.target"; []].

Lemma renderUnit_lines bin listen secret : bin <> [] ->
  renderUnit bin listen secret =
  Join (head_lines ++ (str "ExecStart=" ++ bin ++ str " run --bind " ++ listen ++ str " " ++ secret) :: tail_lines) nl.
Proof.
  intros Hb. unfold renderUnit. rewrite (bool_decide_eq_false_2 (bin = [])) by done.
  rewrite Join_app, (Join_cons _ tail_lines) by done. rewrite <- !app_assoc. done.
Qed.

Lemma read_skip l ls : HasPrefix (TrimSpace l) (str "ExecStart=") = false -> read_lines (l :: ls) = read_lines ls.
Proof. intros Hp. cbn [read_lines]. by rewrite Hp. Qed.

Lemma read_rendered bin listen secret :
  plain bin -> plain listen -> plain secret -> HasPrefix listen (str "--bind=") = false ->
  read_lines (Split (renderUnit bin listen secret) nl) = (listen, secret).
Proof.
  intros Hb Hl Hs Hp. rewrite renderUnit_lines by apply Hb.
  set (line := str "ExecStart=" ++ bin ++ str " run --bind " ++ listen ++ str " " ++ secret).
  rewrite Split_Join; [|done|].
  - unfold head_lines. cbn [app]. do 6 (rewrite read_skip by by vm_compute). cbn [read_lines].
    assert (TrimSpace line = line) as ->.
    { destruct (plain_ends _ Hs) as (a & b & Hvb & ->). subst line. rewrite !app_assoc.
      change (str "ExecStart=") with (Byte.x45 :: str "xecStart="). cbn [app]. by apply TrimSpace_ends. }
    rewrite (proj2 (HasPrefix_spec line _)) by by eexists. subst line. rewrite TrimPrefix_app.
    by apply parseExecStart_rendered.
  - unfold head_lines, tail_lines. cbn [app]. apply Forall_forall.
    assert (nl ∉ line) as Hline.
    { subst line. rewrite !elem_of_app. destruct Hb as [Hb _], Hl as [Hl _], Hs as [Hs _].
      apply visible_no_nl in Hb, Hl, Hs. assert (forall l : bytes, bool_decide (nl ∈ l) = false -> nl ∉ l) as HB
        by (intros l; by rewrite bool_decide_eq_false). 
      pose proof (HB (str "ExecStart=") eq_refl). pose proof (HB (str " run --bind ") eq_refl).
      pose proof (HB (str " ") eq_refl). tauto. }
    intros x Hx. repeat (apply elem_of_cons in Hx as [->|Hx];
      [first [exact Hline|apply (bool_decide_unpack _); by vm_compute]|]). by apply elem_of_nil in Hx.
Qed.

(** *** Calls that leave the files alone *)
Definition enable_cmd : list bytes := [str "systemctl"; str "enable"; str "--now"; UnitName c].
Definition restart_cmd : list bytes := [str "systemctl"; str "restart"; UnitName c].

(** No enable among the commands run since. *)
Definition quiet (w w' : Host) : Prop :=
  exists new, ran w' = new ++ ran w /\ Forall (fun e => e.1 <> enable_cmd) new.
Definition looks (w w' : Host) : Prop := files w' = files w /\ quiet w w'.

Lemma quiet_trans w1 w2 w3 : quiet w1 w2 -> quiet w2 w3 -> quiet w1 w3.
Proof.
  intros (n1 & E1 & F1) (n2 & E2 & F2). exists (n2 ++ n1). rewrite E2, E1, app_assoc. split; [done|]. by apply Forall_app.
Qed.

Lemma quiet_same w w' : ran w' = ran w -> quiet w w'.
Proof. intros E. exists []. by rewrite E. Qed.

Lemma quiet_cons w w' e : e.1 <> enable_cmd -> ran w' = e :: ran w -> quiet w w'.
Proof. intros He E. exists [e]. rewrite E. split; [done|]. by constructor. Qed.

Lemma looks_trans w1 w2 w3 : looks w1 w2 -> looks w2 w3 -> looks w1 w3.
Proof. intros [F1 Q1] [F2 Q2]. split; [by rewrite F2|by eapply quiet_trans]. Qed.

Lemma looks_same w w' : files w' = files w -> ran w' = ran w -> looks w w'.
Proof. intros HF HR. split; [done|by apply quiet_same]. Qed.

Lemma looks_body w w' : looks w w' -> unit_body w' = unit_body w.
Proof. intros [HF _]. unfold unit_body. by rewrite HF. Qed.

(** The same files and history. *)
Definition idle (w w' : Host) : Prop := files w' = files w /\ ran w' = ran w.

Lemma idle_looks w w' : idle w w' -> looks w w'.
Proof. intros [HF HR]. by apply looks_same. Qed.

Lemma present_idle path w : wp (present path) (fun _ => idle w) w.
Proof. unfold present. repeat host_step; done. Qed.

Lemma present_looks path w : wp (present path) (fun _ => looks w) w.
Proof. eapply wp_mono; [apply present_idle|]. intros r w' HI. by apply idle_looks. Qed.

Lemma ReadUnit_looks w : wp (ReadUnit c) (fun _ => looks w) w.
Proof. unfold ReadUnit. repeat host_step; by apply looks_same. Qed.

(** The rest of a run, from a state that looks the same. *)
Lemma wp_looks {A B} (m : ST Host A) (f : A -> ST Host B) w0 w :
  looks w0 w -> wp m (fun _ => looks w) w -> (forall a w', looks w0 w' -> wp (f a) (fun _ => looks w0) w') ->
  wp (bind m f) (fun _ => looks w0) w.
Proof.
  intros HL Hm Hf. apply wp_bind. eapply wp_mono; [exact Hm|]. cbv beta. intros a w' Hw'. apply Hf. by eapply looks_trans.
Qed.

Lemma exec_looks argv w : argv <> enable_cmd -> wp (exec argv) (fun _ => looks w) w.
Proof. intros Ha. host_step. split; [done|]. by apply (quiet_cons _ _ (argv, files w)). Qed.

Lemma Status_looks w : wp (Status c) (fun _ => looks w) w.
Proof.
  unfold Status, checkInstalled, bindE. eapply wp_looks; [by apply looks_same|apply present_looks|].
  intros [e|[]] w' HL; [by apply wp_ret|]. apply (wp_looks _ _ _ _ HL); [by apply exec_looks|].
  intros a w2 HL2. by apply wp_ret.
Qed.

Lemma IsActive_looks w : wp (IsActive c) (fun _ => looks w) w.
Proof.
  unfold IsActive, bindE. eapply wp_looks; [by apply looks_same|apply Status_looks|].
  intros [e|s] w' HL; by apply wp_ret.
Qed.

Lemma GenerateSecret_looks d w : wp (GenerateSecret c d) (fun _ => looks w) w.
Proof.
  unfold GenerateSecret, bindE. eapply wp_looks; [by apply looks_same|apply present_looks|].
  intros [e|[]] w' HL; [by apply wp_ret|]. apply (wp_looks _ _ _ _ HL); [apply exec_looks; unfold enable_cmd; congruence|].
  intros a w2 HL2. by apply wp_ret.
Qed.

(** A command after the check for the unit file. *)
Lemma checked_spec args w :
  wp (let? _ := checkInstalled c in systemctl args) (fun r w' => files w' = files w /\
    (ran w' = ran w \/ ran w' = (str "systemctl" :: args, files w') :: ran w) /\
    (r = Ok tt -> ran w' = (str "systemctl" :: args, files w') :: ran w)) w.
Proof.
  unfold checkInstalled. apply wp_bindE. eapply wp_mono; [apply present_idle|].
  cbv beta. intros [e|[]] w' [HF HR]; [by split; [|split; [left|]]|].
  apply wp_systemctl; intros l; cbn; rewrite HR, HF; (split; [done|]); (split; [by right|done]).
Qed.

Lemma Restart_spec w :
  wp (Restart c) (fun r w' => looks w w' /\ (r = Ok tt -> ran w' = (restart_cmd, files w') :: ran w)) w.
Proof.
  eapply wp_mono; [apply checked_spec|]. cbv beta. intros r w' (HF & HR & HO). split; [|exact HO].
  split; [done|]. destruct HR as [HR|HR]; [by apply quiet_same|by apply (quiet_cons _ _ (restart_cmd, files w'))].
Qed.

(** *** The compensation and the rotation *)
Context `{Unicode}.

(** The error says that the compensation failed too. *)
Definition restore_reported (e : MtgErr) : bool :=
  match e with Joined _ _ | EReloadRestore => true | _ => false end.

Definition unit_for (listen secret : bytes) : option bytes :=
  Some (renderUnit (BinaryPath c) (effective listen) (TrimSpace secret)).

Lemma restoreMTGUnit_spec listen old active e w :
  wp (restoreMTGUnit TempName c listen old active e) (fun e' w' => only (UnitFile c) w w' /\
    (restore_reported e' = true \/ (e' = e /\ unit_body w' = unit_for listen old))) w.
Proof.
  unfold restoreMTGUnit. destruct (old == []); [apply wp_ret; split; [by apply only_same|by left]|].
  apply wp_bind. eapply wp_mono; [apply WriteUnit_spec|]. intros [e1|[]] w1 [Ho HW]; [by apply wp_ret; split; [|left]|].
  destruct HW as (_ & HB & _). destruct active; [|by apply wp_ret; split; [|right]].
  apply wp_bind. eapply wp_mono; [apply Restart_spec|]. cbv beta. intros r w2 [HL _].
  apply wp_ret. pose proof (looks_body _ _ HL) as HB2. split.
  - eapply only_trans; [exact Ho|]. apply only_same. by destruct HL.
  - destruct r as [e2|[]]; [by left|right]. split; [done|]. by rewrite HB2.
Qed.

(** What [rotate] leaves. *)
Definition rotated (listen old : bytes) (w : Host) (r : res MtgErr bytes) (w' : Host) : Prop :=
  only (UnitFile c) w w' /\
  match r with
  | Ok secret => TrimSpace secret <> [] /\ unit_body w' = unit_for listen secret /\ quiet w w'
  | Err e => restore_reported e = true \/ unit_body w' = unit_body w \/ unit_body w' = unit_for listen old
  end.

Lemma rotate_spec listen old domain w :
  wp (rotate TempName c listen old domain) (rotated listen old w) w.
Proof.
  unfold rotate. apply wp_bindE. eapply wp_mono; [apply GenerateSecret_looks|].
  cbv beta. intros [e|secret] w1 HL1.
  { split; [apply only_same; by destruct HL1|]. right. left. by apply looks_body. }
  pose proof (looks_body _ _ HL1) as HB1. assert (only (UnitFile c) w w1) as Ho1 by (apply only_same; by destruct HL1).
  apply wp_bindE. eapply wp_mono; [apply WriteUnit_spec|]. intros [e|[]] w2 [Ho2 HW2].
  { split; [by eapply only_trans|]. destruct e; try (by left); right; left; rewrite <- HB1; apply HW2. }
  destruct HW2 as (Hs & HB2 & HR2). assert (only (UnitFile c) w w2) as Ho by by eapply only_trans.
  assert (quiet w w2) as HQ by (eapply quiet_trans; [apply HL1|]; by apply (quiet_cons _ _ (reload, files w2))).
  apply wp_bind. eapply wp_mono; [apply IsActive_looks|]. cbv beta. intros on w3 HL3.
  pose proof (looks_body _ _ HL3) as HB3. assert (only (UnitFile c) w w3) as Ho3
    by (eapply only_trans; [exact Ho|apply only_same; by destruct HL3]).
  assert (quiet w w3) as HQ3 by (eapply quiet_trans; [exact HQ|apply HL3]).
  assert (forall active e w4, only (UnitFile c) w w4 ->
    wp (let! e := restoreMTGUnit TempName c listen old active e in fail e) (rotated listen old w) w4) as HF.
  { intros active e w4 Ho4. apply wp_bind. eapply wp_mono; [apply restoreMTGUnit_spec|]. cbv beta. intros e' w5 [Ho5 HE].
    apply wp_ret. split; [by eapply only_trans|]. destruct HE as [|[_ HE]]; [by left|by right; right]. }
  destruct on as [e|[|]]; [by apply HF| |].
  - apply wp_bind. eapply wp_mono; [apply Restart_spec|]. cbv beta. intros r w4 [HL4 _].
    pose proof (looks_body _ _ HL4) as HB4. assert (only (UnitFile c) w w4) as Ho4
      by (eapply only_trans; [exact Ho3|apply only_same; by destruct HL4]).
    destruct r as [e|[]]; [by apply HF|]. apply wp_ret. split; [done|]. split; [done|]. split.
    + by rewrite HB4, HB3.
    + eapply quiet_trans; [exact HQ3|apply HL4].
  - apply wp_ret. split; [done|]. split; [done|]. split; [by rewrite HB3|done].
Qed.
(** *** The final snapshot *)
Definition status_cmd : list bytes := [str "systemctl"; str "is-active"; UnitName c].

(** The secret [ReadUnit] finds in a unit file. *)
Definition secret_in (body : option bytes) : bytes :=
  match body with Some raw => (read_lines (Split raw nl)).2 | None => [] end.

Lemma ReadUnit_spec w :
  wp (ReadUnit c) (fun r w' => idle w w' /\ forall u, r = Ok u -> u.2 = secret_in (unit_body w)) w.
Proof.
  unfold ReadUnit, unit_body. repeat host_step; (split; [done|]); intros u [= <-]; by rewrite H0.
Qed.

Lemma Status_spec w :
  wp (Status c) (fun r w' => looks w w' /\ forall s, r = Ok s -> ran w' = (status_cmd, files w') :: ran w) w.
Proof.
  unfold Status, checkInstalled. apply wp_bindE. eapply wp_mono; [apply present_idle|].
  cbv beta. intros [e|[]] w' [HF HR]; [by split; [apply looks_same|]|]. apply wp_bind. host_step. apply wp_ret.
  split.
  - split; [done|]. apply (quiet_cons _ _ (status_cmd, files w')); [done|]. cbn. by rewrite HR.
  - intros s _. cbn. by rewrite HR.
Qed.

Lemma readMTGSnapshot_spec Settings w :
  wp (readMTGSnapshot c Settings) (fun r w' => forall s, r = Ok s ->
    files w' = files w /\ ran w' = (status_cmd, files w') :: ran w /\
    s_SecretConfigured s = (TrimSpace (secret_in (unit_body w)) != [])) w.
Proof.
  unfold readMTGSnapshot. apply wp_bindE. eapply wp_mono; [apply Status_spec|]. cbv beta.
  intros [e|st] w1 [HL HR]; [done|]. specialize (HR st eq_refl). apply wp_bindE.
  eapply wp_mono; [apply ReadUnit_spec|]. cbv beta. intros [e|u] w2 [[HF HR2] HU]; [done|]. specialize (HU u eq_refl).
  rewrite (looks_body _ _ HL) in HU. destruct (panelDomain Settings) as [e|d]; apply wp_ret; [done|].
  intros s [= <-]. cbn. rewrite HU, HF, HR2. split; [apply HL|]. by split.
Qed.

Lemma set_enabled_spec Settings secret w :
  wp (set_enabled c Settings (Some true) secret) (fun r w' => forall s, r = Ok (MSettings s) ->
    TrimSpace secret <> [] /\ files w' = files w /\ ran w' = (status_cmd, files w') :: (enable_cmd, files w') :: ran w /\
    s_SecretConfigured s = (TrimSpace (secret_in (unit_body w)) != [])) w.
Proof.
  unfold set_enabled. destruct (bool_decide_reflect (TrimSpace secret = [])) as [|Hs]; [by apply wp_ret|].
  apply wp_bindE. eapply wp_mono; [apply checked_spec|]. cbv beta. intros [e|[]] w1 (HF & _ & HR); [done|].
  specialize (HR eq_refl). apply wp_bindE. eapply wp_mono; [apply readMTGSnapshot_spec|]. cbv beta.
  intros [e|s0] w2 HS; [done|]. apply wp_ret. intros s [= <-]. destruct (HS s0 eq_refl) as (HF2 & HR2 & HC).
  split; [done|]. rewrite HR2, HR, HF2, HC, HF. unfold unit_body. by rewrite HF.
Qed.

Lemma wp_answer (m : ST Host (res MtgErr MtgResp)) (Q : MtgResp -> Host -> Prop) w :
  wp m (fun r w' => Q (match r with Ok a => a | Err e => writeMTGError e end) w') w -> wp (answer m) Q w.
Proof. intros Hm. apply wp_bind. eapply wp_mono; [exact Hm|]. done. Qed.

Lemma error_settings e s : writeMTGError e <> MSettings s.
Proof. unfold writeMTGError. by destruct (is_not_installed e). Qed.
End lemmas.

(** ** Properties *)
Section properties.
Context (TempName : Files -> bytes -> bytes) (c : Controller) `{Unicode}.
Context (Settings : option (option bytes)).
Context (Temp_fresh : forall fs path, fs !! TempName fs path = None /\ TempName fs path <> path).

(** writing the unit is atomic, whatever calls and commands fail: either
    the unit is the one rendered, systemd was told to reload after the write,
    and reading it gives back the address and the secret; or the file is as
    before, unless the error says that restoring it failed.  No other file
    changes. *)
Theorem WriteUnit_contract listen secret w r w' :
  WriteUnit TempName c listen secret w = (r, w') ->
  only (UnitFile c) w w' /\
  match r with
  | Ok _ =>
      unit_body c w' = unit_for c listen secret /\ ran w' = (reload, files w') :: ran w /\
      (plain (BinaryPath c) -> plain (effective listen) -> plain (TrimSpace secret) ->
       HasPrefix (effective listen) (str "--bind=") = false -> faults w' = [] ->
       (ReadUnit c w').1 = Ok (effective listen, TrimSpace secret))
  | Err e => e = EReloadRestore \/ unit_body c w' = unit_body c w
  end.
Proof.
  intros E. destruct (wp_elim _ _ _ _ _ (WriteUnit_spec TempName c Temp_fresh listen secret w) E) as [Ho HW].
  split; [done|]. destruct r as [e|[]]; [destruct e; try (right; apply HW); by left|].
  destruct HW as (_ & HB & HR). split; [done|]. split; [done|]. intros Hb Hl Hs Hp HF.
  unfold unit_body in HB. destruct (files w' !! UnitFile c) as [f|] eqn:Ef; [|done]. injection HB as HB.
  unfold ReadUnit, ReadFile, Stat, next_call, bind, gets. rewrite HF. cbn. rewrite Ef, HB. by rewrite read_rendered.
Qed.

(** C25: rotating the secret of a unit the panel wrote is all or nothing: on
    success the unit holds the new secret; on an error of any step - the
    generation, the write, the reload, the probe or the restart - the unit is
    the one from before, unless the error says that the compensation failed
    too. *)
Theorem rotation_compensated listen old domain w r w' :
  unit_body c w = unit_for c listen old ->
  rotate TempName c listen old domain w = (r, w') ->
  only (UnitFile c) w w' /\
  match r with
  | Ok secret => TrimSpace secret <> [] /\ unit_body c w' = unit_for c listen secret
  | Err e => restore_reported e = true \/ unit_body c w' = unit_body c w
  end.
Proof.
  intros HU E. destruct (wp_elim _ _ _ _ _ (rotate_spec TempName c Temp_fresh listen old domain w) E) as [Ho HR].
  split; [done|]. destruct r as [e|secret]; [rewrite HU in *; tauto|]. by destruct HR as (Hs & HB & _).
Qed.

(** a request that enables the service starts it only once everything
    else is in place: the enable is the last command but the final probe, it
    found the unit that is on the disk at the end, and that unit is a newly
    rotated one with a secret, or the old one with its secret configured; so
    changing the domain and enabling at once never runs the old secret. *)
Theorem enable_after_rotation req w s w' :
  handleUpdateMTProxySettings TempName c Settings true (Some req) w = (MSettings s, w') ->
  u_Enabled req = Some true ->
  (exists before, ran w' = ([str "systemctl"; str "is-active"; UnitName c], files w') :: (enable_cmd c, files w') :: before ++ ran w /\
     Forall (fun e => e.1 <> enable_cmd c) before) /\
  ((unit_body c w' = unit_body c w /\ s_SecretConfigured s = true) \/
   exists listen secret, TrimSpace secret <> [] /\ unit_body c w' = unit_for c listen secret).
Proof.
  intros E. revert s E. intros s E. refine (wp_elim _ (fun r w' => r = MSettings s -> u_Enabled req = Some true -> _) _ _ _ _ E eq_refl).
  unfold handleUpdateMTProxySettings. cbn [negb]. apply wp_answer, wp_bindE.
  eapply wp_mono; [apply ReadUnit_spec|]. cbv beta. intros [e|u] w1 [[HF HR] HU]; [by intros ?%error_settings|].
  specialize (HU u eq_refl). destruct (wants_rotation req u.2) as [want|].
  - apply wp_bindE. eapply wp_mono; [by apply rotate_spec|]. cbv beta. intros [e|secret] w2 [_ HW]; [by intros ?%error_settings|].
    destruct HW as (Hs & HB & (new & HN & HQ)). destruct (u_Enabled req) as [[|]|]; [|by apply wp_any..].
    eapply wp_mono; [apply set_enabled_spec|]. cbv beta. intros [e|a] w3 HS; [by intros ?%error_settings|]. intros -> _.
    destruct (HS s eq_refl) as (_ & HF3 & HR3 & _). split.
    + exists new. split; [by rewrite HR3, HN, HR|done].
    + right. exists (or_default u.1), secret. split; [done|]. rewrite <- HB. unfold unit_body. by rewrite HF3.
  - destruct (u_Enabled req) as [[|]|]; [|by apply wp_any..].
    eapply wp_mono; [apply set_enabled_spec|]. cbv beta. intros [e|a] w3 HS; [by intros ?%error_settings|]. intros -> _.
    destruct (HS s eq_refl) as (Hs & HF3 & HR3 & HC). assert (unit_body c w1 = unit_body c w) as HB
      by (unfold unit_body; by rewrite HF). split.
    + exists []. split; [by rewrite HR3, HR|done].
    + left. split; [unfold unit_body; by rewrite HF3, HF|]. rewrite HC, HB, <- HU. by rewrite bool_decide_eq_false_2.
Qed.

(** the fronting domain of a fake-TLS secret is read back from both of its
    base64 forms. *)
Theorem DecodeFrontingDomain_roundtrip key host :
  length key = 16%nat ->
  DecodeFrontingDomain (b64_raw_encode true (FakeTLSSecretPrefix :: key ++ host)) = host /\
  DecodeFrontingDomain (b64_encode true (FakeTLSSecretPrefix :: key ++ host)) = host.
Proof.
  intros Hk. set (raw := FakeTLSSecretPrefix :: key ++ host).
  assert (forall e, b64_raw_either true e = Some raw -> Forall (fun x => b64_byte true x = true) e -> e <> [] ->
    DecodeFrontingDomain e = host) as HD.
  { intros e He Hf Hn. unfold DecodeFrontingDomain, decodeSecret.
    rewrite TrimSpace_visible by (eapply Forall_impl; [exact Hf|]; intros x Hx; by eapply b64_byte_safe).
    rewrite (bool_decide_eq_false_2 (e = [])) by done. rewrite He.
    assert ((len raw <? 17) = false) as -> by (apply Z.ltb_ge; unfold raw, len; cbn [length]; rewrite length_app, Hk; lia).
    unfold raw. cbn. by rewrite drop_app_length'. }
  destruct (b64_raw_either_ok true raw) as [H1 H2]. split; apply HD; try done.
  - eapply Forall_impl; [apply b64_raw_bytes|]. by intros x [Hx _].
  - by destruct key as [|? [|? ?]].
  - apply b64_encode_bytes.
  - by destruct key as [|? [|? ?]].
Qed.
End properties.

(** ** Concrete inputs *)
Module Demo.
#[export] Instance tables : Unicode := ascii_tables.

Definition ctl : Controller := New [] [] [].
Definition s_old : bytes := str "7hERERERERERERERERERERF3d3cuYS5jb20".
Definition s_new : bytes := str "7iIiIiIiIiIiIiIiIiIiIiJ3d3cuYi5jb20".
Definition listen : bytes := str "0.0.0.0:3443".

Definition with_unit (body : bytes) (l : list (bytes * bool)) : Host :=
  {| files := {[UnitFile ctl := {| Body := body; Perm := 420 |}; BinaryPath ctl := {| Body := []; Perm := 493 |}]};
     faults := []; answers := l; ran := [] |}.
Definition h0 (l : list (bytes * bool)) : Host := with_unit (renderUnit (BinaryPath ctl) listen s_old) l.

Definition write : ST Host (res MtgErr unit) := WriteUnit fresh_path ctl (str " :443 ") s_new.
Definition h1 : Host := (write (h0 [])).2.

Lemma write_ok : WriteUnit fresh_path ctl (str " :443 ") s_new (h0 []) = (Ok tt, h1).
Proof. unfold h1, write. apply fst_pair. by vm_compute. Qed.

Lemma WriteUnit_contract_witness : (ReadUnit ctl h1).1 = Ok (str ":443", s_new).
Proof.
  destruct (WriteUnit_contract fresh_path ctl fresh_path_ok (str " :443 ") s_new (h0 []) (Ok tt) h1 write_ok)
    as (_ & _ & _ & HR).
  apply HR; [split; [vm_compute; repeat constructor|done]..|by vm_compute|by vm_compute].
Defined.

(** The restart fails: the answers of generate-secret, daemon-reload,
    is-active, restart; then the reload and the restart of the compensation. *)
Definition restart_fails : list (bytes * bool) :=
  [(s_new ++ [nl], true); ([], true); (str "active", true); (str "job failed", false)].
Definition rotation : ST Host (res MtgErr bytes) := rotate fresh_path ctl listen s_old (str "www.b.com").
Definition h2 : Host := (rotation (h0 restart_fails)).2.

Lemma rotation_fails : rotate fresh_path ctl listen s_old (str "www.b.com") (h0 restart_fails) = (Err ECommand, h2).
Proof. unfold h2, rotation. apply fst_pair. by vm_compute. Qed.

Lemma h0_unit l : unit_body ctl (h0 l) = unit_for ctl listen s_old.
Proof. by vm_compute. Qed.

Lemma rotation_compensated_witness : unit_body ctl h2 = unit_body ctl (h0 restart_fails).
Proof.
  destruct (rotation_compensated fresh_path ctl fresh_path_ok listen s_old (str "www.b.com") (h0 restart_fails) (Err ECommand) h2
    (h0_unit restart_fails) rotation_fails) as (_ & [HE|HB]); [discriminate HE|exact HB].
Defined.

(** A change of domain and an enable in one request. *)
Definition request : UpdateRequest := {| u_Enabled := Some true; u_FrontingDomain := Some (str "www.b.com") |}.
Definition all_works : list (bytes * bool) :=
  [(s_new ++ [nl], true); ([], true); (str "inactive", false); ([], true); (str "active", true)].
Definition update : ST Host MtgResp := handleUpdateMTProxySettings fresh_path ctl (Some (Some (str "p.example"))) true (Some request).
Definition h3 : Host := (update (h0 all_works)).2.
Definition snap : Snapshot := {|
  s_Enabled := true; s_Listen := listen; s_SecretConfigured := true; s_FrontingDomain := str "www.b.com";
  s_ConnectLinkHint := str "clients see this proxy at tg://proxy?server=p.example&port=3443&secret=<secret>";
  s_ServiceStatus := str "active" |}.

Lemma update_ok : handleUpdateMTProxySettings fresh_path ctl (Some (Some (str "p.example"))) true (Some request)
  (h0 all_works) = (MSettings snap, h3).
Proof. unfold h3, update. apply fst_pair. by vm_compute. Qed.

Lemma enable_after_rotation_witness : exists before,
  ran h3 = ([str "systemctl"; str "is-active"; UnitName ctl], files h3) :: (enable_cmd ctl, files h3) :: before /\
  length before = 3%nat.
Proof.
  destruct (enable_after_rotation fresh_path ctl (Some (Some (str "p.example"))) fresh_path_ok request
    (h0 all_works) snap h3 update_ok eq_refl) as ((before & HR & _) & _).
  exists (before ++ ran (h0 all_works)). split; [exact HR|].
  apply (f_equal (@length _)) in HR. assert (length (ran h3) = 5%nat) as HL by by vm_compute.
  assert (forall n m : nat, n = S (S m) -> n = 5%nat -> m = 3%nat) as HN by lia. exact (HN _ _ HR HL).
Defined.

(** A unit that runs mtg from a configuration file is taken for one with a
    secret, the path of the file. *)
Example config_unit_misread :
  parseExecStart (str "/usr/local/bin/mtg run /etc/mtg.toml") = ([], str "/etc/mtg.toml").
Proof. by vm_compute. Qed.

(** A failed rotation of a unit that was edited by hand does not restore it:
    the restored unit is rendered anew, without the operator's options. *)
Definition edited : bytes :=
  str "[Service]" ++ nl :: str "ExecStart=/usr/local/bin/mtg run -b 0.0.0.0:3443 --prefer-ip only-ipv4 " ++ s_old ++ [nl].

Example hand_edited_lost :
  let '(r, w) := rotate fresh_path ctl listen s_old (str "www.b.com") (with_unit edited restart_fails) in
  r = Err ECommand /\ unit_body ctl w = unit_for ctl listen s_old /\ unit_body ctl w <> Some edited.
Proof. vm_compute. by split; [|split]. Qed.
End Demo.
