(* ===== verification/Supervisor.v ===== *)
(** * The supervisor of the plain DNS listeners

    [internal/frontdoor/supervisor.go]: restarts a task that crashes, waits
    longer each time, and gives up when a window of sixty seconds would hold
    a sixth restart.  Times are nanoseconds.  What happens to the task is the
    list of its attempts: how each one ends, when, and whether the context is
    done by then or during the wait that follows. *)
From S2P Require Import Prelude.
From Stdlib Require Import ZArith Lia.
Local Open Scope Z_scope.

Definition millisecond : Z := 1000000.
Definition MaxRestartsPerWindow : Z := 5.
Definition RestartWindow : Z := 60000 * millisecond.
Definition restartBackoff : list Z := (fun n => n * millisecond) <$> [250; 500; 1000; 2000; 4000].

Record Supervisor := { restarts : list Z; givenUp : bool }.

Definition NewSupervisor : Supervisor := {| restarts := []; givenUp := false |}.

(** [recordRestart] at a time. *)
Definition recordRestart (now : Z) (sv : Supervisor) : bool * Supervisor :=
  let cutoff := now - RestartWindow in
  let kept := filter (fun t => cutoff < t) (restarts sv) ++ [now] in
  (len kept <=? MaxRestartsPerWindow, {| restarts := kept; givenUp := givenUp sv |}).

(** One attempt of the task: [runOnce] turns a panic into an error. *)
Inductive task_end := EndNil | EndError | EndPanic.

Record attempt := {
  a_end : task_end;
  a_now : Z;             (* the time at which it ended *)
  a_done : bool;         (* the context is done when it ends *)
  a_done_waiting : bool  (* or by the end of the wait *)
}.

Definition runOnce (a : attempt) : bool := match a_end a with EndNil => true | _ => false end.

(** [Run]: how it returns ([Running]: the last attempt still runs), the waits
    it made and the number of calls of [onGiveUp]. *)
Inductive run_end := Finished | Stopped | GaveUp | Running.

Definition backoff (attempt : nat) : Z :=
  nth (Nat.min attempt (length restartBackoff - 1)) restartBackoff 0.

Fixpoint run_from (n : nat) (l : list attempt) (sv : Supervisor) : run_end * list Z * nat * Supervisor :=
  match l with
  | [] => (Running, [], 0%nat, sv)
  | a :: l =>
      let ok := runOnce a in
      if a_done a then (Stopped, [], 0%nat, sv)
      else if ok then (Finished, [], 0%nat, sv)
      else
        let '(within, sv) := recordRestart (a_now a) sv in
        if negb within then
          (GaveUp, [], if givenUp sv then 0%nat else 1%nat, {| restarts := restarts sv; givenUp := true |})
        else if a_done_waiting a then (Stopped, [backoff n], 0%nat, sv)
        else
          let '(e, waits, calls, sv) := run_from (S n) l sv in
          (e, backoff n :: waits, calls, sv)
  end.

Definition Run (l : list attempt) (sv : Supervisor) : run_end * list Z * nat * Supervisor := run_from 0 l sv.

(** ** Specification

    [ts] are the times of the crashes, in order.  Crash [k] is one too many
    when more than five of the crashes up to it lie in the window that ends
    with it. *)
Definition in_window (ts : list Z) (now : Z) : list Z := filter (fun t => now - RestartWindow < t) ts.

Definition too_many (ts : list Z) (k : nat) : Prop :=
  exists now, ts !! k = Some now /\ MaxRestartsPerWindow < len (in_window (take (S k) ts) now).

(** Later attempts end later, after the wait between them. *)
Fixpoint spaced (n : nat) (l : list attempt) : Prop :=
  match l with
  | a :: ((b :: _) as l') => a_now a + backoff n <= a_now b /\ spaced (S n) l'
  | _ => True
  end.

(** ** Lemmas *)
Lemma backoff_pos n : 0 < backoff n.
Proof. unfold backoff. do 5 (destruct n as [|n]; [by vm_compute|]). by vm_compute. Qed.

Lemma in_window_app l1 l2 now : in_window (l1 ++ l2) now = in_window l1 now ++ in_window l2 now.
Proof. apply filter_app. Qed.

(** Dropping the old entries early loses nothing, as time does not go back. *)
Lemma in_window_twice ts t now : t <= now -> in_window (in_window ts t) now = in_window ts now.
Proof.
  intros Ht. unfold in_window. induction ts as [|x ts IH]; [done|].
  destruct (decide (t - RestartWindow < x)) as [Hx|Hx].
  - rewrite (filter_cons_True _ x ts) by done. destruct (decide (now - RestartWindow < x)).
    + by rewrite !filter_cons_True, IH by done.
    + by rewrite !filter_cons_False, IH by done.
  - rewrite (filter_cons_False _ x ts) by done. rewrite (filter_cons_False _ x ts) by lia. done.
Qed.

Lemma in_window_self now : in_window [now] now = [now].
Proof.
  unfold in_window. rewrite filter_cons_True; [done|]. unfold RestartWindow, millisecond. lia.
Qed.

(** The window the supervisor keeps is that of the whole history. *)
Definition keeps_window (ts : list Z) (sv : Supervisor) : Prop :=
  restarts sv = match last ts with Some t => in_window ts t | None => [] end.

Lemma recordRestart_spec ts now sv :
  keeps_window ts sv -> (forall t, last ts = Some t -> t <= now) ->
  let '(ok, sv') := recordRestart now sv in
  keeps_window (ts ++ [now]) sv' /\ givenUp sv' = givenUp sv /\
  ok = (len (in_window (ts ++ [now]) now) <=? MaxRestartsPerWindow).
Proof.
  intros HK Hmon. unfold recordRestart, keeps_window in *. cbn. rewrite last_snoc.
  assert (filter (fun t => now - RestartWindow < t) (restarts sv) ++ [now] = in_window (ts ++ [now]) now) as ->.
  { rewrite in_window_app, in_window_self. f_equal. rewrite HK. fold (in_window (match last ts with Some t => in_window ts t | None => [] end) now).
    destruct (last ts) as [t|] eqn:El; [by apply in_window_twice, Hmon|]. apply last_None in El as ->. done. }
  done.
Qed.

(** The times of a list of attempts, until one is not a crash that is
    followed by a wait. *)
Definition times (l : list attempt) : list Z := a_now <$> l.

Lemma too_many_at ts now rest :
  too_many (ts ++ now :: rest) (length ts) <-> MaxRestartsPerWindow < len (in_window (ts ++ [now]) now).
Proof.
  unfold too_many. rewrite (list_lookup_middle ts rest now) by done.
  replace (take (S (length ts)) (ts ++ now :: rest)) with (ts ++ [now]).
  - split; [by intros (x & [= <-] & Hx)|by eauto].
  - change (now :: rest) with ([now] ++ rest). rewrite app_assoc. symmetry. apply take_app_length'. rewrite length_app. cbn. lia.
Qed.

Lemma run_from_spec l : forall n ts sv e waits calls sv',
  keeps_window ts sv -> givenUp sv = false -> length ts = n ->
  (forall t a, last ts = Some t -> head l = Some a -> t <= a_now a) -> spaced n l ->
  run_from n l sv = (e, waits, calls, sv') ->
  waits = backoff <$> seq n (length waits) /\
  (forall k, (n <= k < n + length waits)%nat -> ~ too_many (ts ++ times l) k) /\
  match e with
  | GaveUp => too_many (ts ++ times l) (n + length waits) /\ calls = 1%nat /\ givenUp sv' = true
  | Running => length waits = length l /\ calls = 0%nat /\ givenUp sv' = false
  | Stopped => calls = 0%nat /\ givenUp sv' = false /\
      Exists (fun a => a_done a = true \/ a_done_waiting a = true) l
  | Finished => calls = 0%nat /\ givenUp sv' = false /\ Exists (fun a => a_end a = EndNil) l
  end.
Proof.
  induction l as [|a l IH]; intros n ts sv e waits calls sv' HK HG Hn Hmon Hsp; cbn [run_from].
  { intros [= <- <- <- <-]. cbn. split; [done|]. split; [lia|]. done. }
  destruct (a_done a) eqn:Ed.
  { intros [= <- <- <- <-]. cbn. split; [done|]. split; [lia|]. split; [done|]. split; [done|]. constructor. by left. }
  destruct (runOnce a) eqn:Er.
  { intros [= <- <- <- <-]. cbn. split; [done|]. split; [lia|]. split; [done|]. split; [done|].
    constructor. unfold runOnce in Er. by destruct (a_end a). }
  assert (forall t, last ts = Some t -> t <= a_now a) as Hnow by (intros t Ht; by apply (Hmon t a)).
  pose proof (recordRestart_spec ts (a_now a) sv HK Hnow) as HR.
  destruct (recordRestart (a_now a) sv) as [within sv1]. destruct HR as (HK1 & HG1 & ->).
  pose proof (too_many_at ts (a_now a) (times l)) as Hhere. rewrite Hn in Hhere.
  destruct (Z.leb_spec (len (in_window (ts ++ [a_now a]) (a_now a))) MaxRestartsPerWindow) as [Hle|Hgt]; cbn [negb].
  2: { rewrite HG1, HG. intros [= <- <- <- <-]. cbn. split; [done|]. split; [lia|]. split; [|done].
       rewrite Nat.add_0_r. by apply Hhere. }
  assert (~ too_many (ts ++ times (a :: l)) n) as Hok by (intros Hm%Hhere; lia).
  destruct (a_done_waiting a) eqn:Ew.
  { intros [= <- <- <- <-]. cbn. split; [done|]. split; [intros k Hk; by replace k with n by lia|].
    split; [done|]. split; [by rewrite HG1|]. constructor. by right. }
  destruct (run_from (S n) l sv1) as [[[e1 w1] c1] sv2] eqn:E. intros [= <- <- <- <-].
  apply (IH (S n) (ts ++ [a_now a])) in E; [|done|by rewrite HG1|rewrite length_app; cbn; lia|..].
  2: { intros t b. rewrite last_snoc. intros [= <-] Hb. destruct l as [|b' l]; [done|]. injection Hb as ->.
       destruct Hsp as [Hsp _]. pose proof (backoff_pos n). lia. }
  2: { destruct l as [|b' l]; [done|]. by destruct Hsp. }
  rewrite <- app_assoc in E. destruct E as (Hw & Hno & He). cbn [length].
  split; [cbn [seq fmap list_fmap]; f_equal; exact Hw|]. split.
  { intros k Hk. destruct (decide (k = n)) as [->|]; [exact Hok|]. apply Hno. lia. }
  rewrite <- Nat.add_succ_comm. destruct e1; [..|done|].
  - destruct He as (-> & -> & HE). split; [done|]. split; [done|]. by constructor.
  - destruct He as (-> & -> & HE). split; [done|]. split; [done|]. by constructor.
  - destruct He as (HL & He). split; [by rewrite HL|done].
Qed.

(** Attempts end one after the other. *)
Lemma spaced_later n a l : spaced n (a :: l) -> Forall (fun b => a_now a <= a_now b) l.
Proof.
  revert n a. induction l as [|b l IH]; intros n a Hsp; [constructor|]. destruct Hsp as [Hb Hsp].
  pose proof (backoff_pos n). constructor; [lia|]. apply IH in Hsp. eapply Forall_impl; [exact Hsp|]. cbn. lia.
Qed.

Lemma in_window_all ts now : Forall (fun t => now - RestartWindow < t) ts -> in_window ts now = ts.
Proof. induction 1 as [|t ts Ht _ IH]; [done|]. unfold in_window in *. by rewrite filter_cons_True, IH. Qed.

Lemma in_window_length ts now : len (in_window ts now) <= len ts.
Proof. unfold in_window, len. pose proof (length_filter (fun t => now - RestartWindow < t) ts). lia. Qed.

(** A sixth crash is the first that can be one too many. *)
Lemma too_many_late ts k : too_many ts k -> (5 <= k < length ts)%nat.
Proof.
  intros (now & Hk & HL). pose proof (in_window_length (take (S k) ts) now) as HI.
  apply lookup_lt_Some in Hk. unfold len in *. rewrite length_take in HI. unfold MaxRestartsPerWindow in HL. lia.
Qed.

(** ** Properties *)

(** C28: the supervisor restarts its task after every crash, waiting the
    documented backoff, as long as no window of sixty seconds holds more than
    five crashes, and gives up exactly at the first crash that would be the
    sixth of one, calling back once; the list of instants it keeps is never
    more than the window needs.  Short of that it stops only for a finished
    context or a task that returns by itself, and never calls back. *)
Theorem Run_spec l e waits calls sv :
  spaced 0 l -> Run l NewSupervisor = (e, waits, calls, sv) ->
  waits = backoff <$> seq 0 (length waits) /\
  (forall k, (k < length waits)%nat -> ~ too_many (times l) k) /\
  match e with
  | GaveUp => too_many (times l) (length waits) /\ calls = 1%nat /\ givenUp sv = true
  | Running => length waits = length l /\ calls = 0%nat /\ givenUp sv = false
  | Stopped => calls = 0%nat /\ givenUp sv = false /\
      Exists (fun a => a_done a = true \/ a_done_waiting a = true) l
  | Finished => calls = 0%nat /\ givenUp sv = false /\ Exists (fun a => a_end a = EndNil) l
  end.
Proof.
  intros Hsp HR. destruct (run_from_spec l 0 [] NewSupervisor e waits calls sv) as (Hw & Hno & He); try done.
  split; [done|]. split; [|done]. intros k Hk. apply Hno. lia.
Qed.

(** a task that keeps crashing is given up: when the first six attempts
    crash within sixty seconds of the first crash and the context lives, the
    supervisor gives up at the sixth, after the five waits. *)
Theorem crash_loop_gives_up l sv r :
  spaced 0 l -> length l = 6%nat -> Forall (fun a => a_done a = false /\ a_done_waiting a = false /\ a_end a <> EndNil) l ->
  (forall a b, l !! 0%nat = Some a -> l !! 5%nat = Some b -> a_now b < a_now a + RestartWindow) ->
  Run l NewSupervisor = (r, sv) -> r = (GaveUp, restartBackoff, 1%nat).
Proof.
  intros Hsp HL HF Hwin HR. destruct r as [[e waits] calls].
  destruct (run_from_spec l 0 [] NewSupervisor e waits calls sv) as (Hw & Hno & He); try done. cbn [app] in *.
  assert (too_many (times l) 5) as H5.
  { do 6 (destruct l as [|? l]; [done|]). destruct l as [|? l]; [|done]. clear HL HF Hno He HR.
    pose proof (Hwin _ _ eq_refl eq_refl) as Hlast. apply spaced_later in Hsp.
    exists (a_now a4). split; [done|]. cbn [times fmap list_fmap take]. rewrite in_window_all; [by vm_compute|].
    rewrite !Forall_cons in Hsp. destruct Hsp as (S0 & S1 & S2 & S3 & S4 & _). repeat (constructor; [lia|]). constructor. }
  rewrite Forall_forall in HF. destruct e.
  - destruct He as (_ & _ & HX). apply Exists_exists in HX as (x & Hx & Hn). by destruct (HF x Hx) as (_ & _ & ?).
  - destruct He as (_ & _ & HX). apply Exists_exists in HX as (x & Hx & [Hn|Hn]); destruct (HF x Hx) as (? & ? & _); congruence.
  - destruct He as (HT & -> & _). apply too_many_late in HT. unfold times in HT. rewrite length_fmap, HL in HT.
    assert (length waits = 5%nat) as EL by (cbn in HT; lia). rewrite Hw, EL. by vm_compute.
  - destruct He as (EL & _). exfalso. apply (Hno 5%nat); [lia|done].
Qed.

(** ** Concrete inputs *)
Module Demo.
(** Six crashes, a second each. *)
Definition crash (t : Z) : attempt :=
  {| a_end := EndPanic; a_now := t * millisecond; a_done := false; a_done_waiting := false |}.
Definition loop : list attempt := crash <$> [1000; 2250; 3750; 5750; 8750; 13750].

Lemma loop_spaced : spaced 0 loop.
Proof. by vm_compute. Qed.

Definition end_state : Supervisor := (Run loop NewSupervisor).2.

Lemma Run_spec_witness : too_many (times loop) 5 /\ givenUp end_state = true.
Proof.
  destruct (Run_spec loop GaveUp restartBackoff 1%nat end_state loop_spaced) as (_ & _ & HT & _ & HG).
  - vm_compute. reflexivity.
  - split; [exact HT|exact HG].
Defined.

Lemma crash_loop_gives_up_witness : (Run loop NewSupervisor).1 = (GaveUp, restartBackoff, 1%nat).
Proof.
  apply (crash_loop_gives_up loop end_state (Run loop NewSupervisor).1 loop_spaced eq_refl).
  - repeat constructor; discriminate.
  - intros a b [= <-] [= <-]. by vm_compute.
  - reflexivity.
Defined.

(** Crashes spread out over more than the window are restarted for ever. *)
Example slow_crashes : (Run (crash <$> [0; 20000; 40000; 60000; 80000; 100000; 120000]) NewSupervisor).1.1.1 = Running.
Proof. by vm_compute. Qed.
End Demo.
