(* ===== verification/GoIP.v ===== *)
(** * The methods of [net.IP]

    [String] and the address predicates of Go's net.IP, on byte slices. *)
From S2P Require Import Prelude GoStrings GoNet Crypto.
From Stdlib Require Import ZArith Lia.
Local Open Scope Z_scope.

Definition IPv4zero : bytes := replicate 4 Byte.x00.
Definition IPv6zero : bytes := replicate 16 Byte.x00.
Definition IPv6loopback : bytes := replicate 15 Byte.x00 ++ [Byte.x01].

(** [IP.IsUnspecified] and [IP.IsLoopback]; an IPv4 address has two forms. *)
Definition ip_unspecified (ip : bytes) : bool := (To4 ip == Some IPv4zero) || (ip == IPv6zero).
Definition byte_at (i : nat) (ip : bytes) : Z := bz (nth i ip Byte.x00).

Definition ip_loopback (ip : bytes) : bool :=
  match To4 ip with Some v4 => byte_at 0 v4 =? 127 | None => ip == IPv6loopback end.

(** [IP.IsPrivate], [IsLinkLocalUnicast], [IsMulticast] and
    [IsInterfaceLocalMulticast]. *)
Definition ip_private (ip : bytes) : bool :=
  match To4 ip with
  | Some v4 =>
      (byte_at 0 v4 =? 10) || ((byte_at 0 v4 =? 172) && (Z.land (byte_at 1 v4) 0xf0 =? 16)) ||
      ((byte_at 0 v4 =? 192) && (byte_at 1 v4 =? 168))
  | None => (len ip =? 16) && (Z.land (byte_at 0 ip) 0xfe =? 0xfc)
  end.

Definition ip_link_local (ip : bytes) : bool :=
  match To4 ip with
  | Some v4 => (byte_at 0 v4 =? 169) && (byte_at 1 v4 =? 254)
  | None => (len ip =? 16) && (byte_at 0 ip =? 0xfe) && (Z.land (byte_at 1 ip) 0xc0 =? 0x80)
  end.

Definition ip_multicast (ip : bytes) : bool :=
  match To4 ip with
  | Some v4 => Z.land (byte_at 0 v4) 0xf0 =? 0xe0
  | None => (len ip =? 16) && (byte_at 0 ip =? 0xff)
  end.

Definition ip_interface_local_multicast (ip : bytes) : bool :=
  (len ip =? 16) && (byte_at 0 ip =? 0xff) && (Z.land (byte_at 1 ip) 0x0f =? 0x01).

(** ** [IP.String] *)
Definition dotted (v4 : bytes) : bytes := Join (map (fun b => strconv_Itoa (bz b)) v4) Byte.x2e.

(** The eight groups of an IPv6 address. *)
Fixpoint groups (ip : bytes) : list Z :=
  match ip with a :: b :: ip => (bz a * 256 + bz b) :: groups ip | _ => [] end.

Fixpoint zero_run (l : list Z) : nat := match l with 0 :: l => S (zero_run l) | _ => O end.

(** The first longest run of at least two zero groups: its start and length;
    [i] is the group [l] starts with. *)
Fixpoint longest_zeros (i : nat) (l : list Z) (best : nat * nat) : nat * nat :=
  match l with
  | [] => best
  | _ :: l' =>
      let n := zero_run l in
      longest_zeros (S i) l' (if (1 <? n)%nat && (best.2 <? n)%nat then (i, n) else best)
  end.

Definition hex16 (z : Z) : bytes :=
  let digits := map (fun s => hex_digit (Z.land (Z.shiftr z s) 15)) [12; 8; 4; 0] in
  (fix strip l := match l with [c] => [c] | c :: l' => if c == Byte.x30 then strip l' else l | [] => [] end) digits.

Definition ipv6_text (ip : bytes) : bytes :=
  let gs := groups ip in
  let '(start, n) := longest_zeros 0 gs (0%nat, 0%nat) in
  if (n =? 0)%nat then Join (map hex16 gs) Byte.x3a
  else Join (map hex16 (take start gs)) Byte.x3a ++ [Byte.x3a; Byte.x3a] ++ Join (map hex16 (drop (start + n) gs)) Byte.x3a.

Definition IP_String (ip : bytes) : bytes :=
  if len ip =? 0 then str "<nil>"
  else if negb ((len ip =? 4) || (len ip =? 16)) then str "?" ++ hex_encode ip
  else match To4 ip with Some v4 => dotted v4 | None => ipv6_text ip end.

Example texts :
  IP_String (map zb [10; 0; 0; 1]) = str "10.0.0.1" /\
  IP_String IPv6zero = str "::" /\ IP_String IPv6loopback = str "::1" /\
  option_map IP_String (ParseIP (str "2001:db8:0:0:1:0:0:1")) = Some (str "2001:db8::1:0:0:1") /\
  option_map IP_String (ParseIP (str "fe80:0:1:0:0:0:0:0")) = Some (str "fe80:0:1::") /\
  option_map IP_String (ParseIP (str "::ffff:1.2.3.4")) = Some (str "1.2.3.4").
Proof. by vm_compute. Qed.
