(* ===== verification/Frontdoor.v ===== *)
(** * The DNS front door: binds and listeners

    [internal/frontdoor/frontdoor.go]: the default and the wildcard-filtered
    binds, and the life of the plain, DoT, DoQ and DoH3 listeners through
    Start, Reconcile, Shutdown and the supervised task.  A listener is the
    address it is bound to; a plain one keeps, as history, whether public
    binds were enabled when it was bound.  [net_ok] is the outcome of the next
    binds ([false]: the bind fails).  Closing a listener always works.
    The goroutine of every Start is told apart by a generation number, and
    each critical section under the mutex is one step. *)
From S2P Require Import Prelude GoStrings GoNet GoIP.
From Stdlib Require Import ZArith Lia.

Record Config := {
  BindUDP53 : list bytes; BindTCP53 : list bytes; PublicPlainDNSEnabled : bool;
  TLSConfigs : bool;                       (* not nil *)
  DoQEnabled : bool; DoQBind : list bytes;
  DoH3Enabled : bool; DoH3Bind : list bytes
}.

Definition set_DoQEnabled (b : bool) (c : Config) : Config :=
  {| BindUDP53 := BindUDP53 c; BindTCP53 := BindTCP53 c; PublicPlainDNSEnabled := PublicPlainDNSEnabled c;
     TLSConfigs := TLSConfigs c; DoQEnabled := b; DoQBind := DoQBind c; DoH3Enabled := DoH3Enabled c;
     DoH3Bind := DoH3Bind c |}.
Definition set_DoH3Enabled (b : bool) (c : Config) : Config :=
  {| BindUDP53 := BindUDP53 c; BindTCP53 := BindTCP53 c; PublicPlainDNSEnabled := PublicPlainDNSEnabled c;
     TLSConfigs := TLSConfigs c; DoQEnabled := DoQEnabled c; DoQBind := DoQBind c; DoH3Enabled := b;
     DoH3Bind := DoH3Bind c |}.

Definition firstBindOrDefault (binds : list bytes) (def : bytes) : bytes :=
  match binds with [] => def | b :: _ => b end.

Definition defaultDoTAddr : bytes := str "[::]:853".
Definition defaultDoQAddr : bytes := str "[::]:853".
Definition defaultDoH3Addr : bytes := str "[::]:443".

(** ** The binds *)

(** [isWildcardBind]. *)
Definition isWildcardBind (addr : bytes) : bool :=
  let host := match SplitHostPort addr with Some (h, _) => h | None => addr end in
  if host == [] then true
  else match ParseIP host with Some ip => ip_unspecified ip | None => false end.

(** [sanitizeBinds]. *)
Definition sanitizeBinds (binds : list bytes) (publicEnabled : bool) : list bytes :=
  if publicEnabled then binds else filter (fun a => isWildcardBind a = false) binds.

(** An interface address: a [*net.IPNet] or another kind. *)
Inductive IfAddr := AIPNet (ip : bytes) | AOther.

Definition wireGuardIfacePrefixes : list bytes := [str "pgw-"; str "wg"].

Section frontdoor.
Context `{Unicode}.
(** [net.Interfaces]: the names with their addresses, [None] for an error. *)
Context (Interfaces : option (list (bytes * option (list IfAddr)))).

(** [discoverWireGuardIP]: the addresses of an interface, and the loop. *)
Fixpoint first_addr (addrs : list IfAddr) : option bytes :=
  match addrs with
  | [] => None
  | AIPNet ip :: addrs =>
      if ip_loopback ip || ip_unspecified ip then first_addr addrs else Some (IP_String ip)
  | AOther :: addrs => first_addr addrs
  end.

Fixpoint discover (ifaces : list (bytes * option (list IfAddr))) : option bytes :=
  match ifaces with
  | [] => None
  | (name, addrs) :: ifaces =>
      if negb (existsb (HasPrefix (ToLower name)) wireGuardIfacePrefixes) then discover ifaces
      else match addrs with
           | None => discover ifaces
           | Some addrs => match first_addr addrs with Some ip => Some ip | None => discover ifaces end
           end
  end.

Definition discoverWireGuardIP : option bytes := Interfaces ≫= discover.

(** [DefaultConfig], its binds. *)
Definition DefaultBinds : list bytes :=
  str "[::1]:53" :: match discoverWireGuardIP with Some ip => [JoinHostPort ip (str "53")] | None => [] end.

Definition DefaultConfig : Config :=
  {| BindUDP53 := DefaultBinds; BindTCP53 := DefaultBinds; PublicPlainDNSEnabled := false; TLSConfigs := false;
     DoQEnabled := false; DoQBind := []; DoH3Enabled := false; DoH3Bind := [] |}.

(** [effectiveBinds]. *)
Definition effectiveBinds (c : Config) : list bytes * list bytes :=
  let '(u, t) :=
    if (BindUDP53 c == []) && (BindTCP53 c == []) then (BindUDP53 DefaultConfig, BindTCP53 DefaultConfig)
    else (BindUDP53 c, BindTCP53 c) in
  (sanitizeBinds u (PublicPlainDNSEnabled c), sanitizeBinds t (PublicPlainDNSEnabled c)).

(** ** The listeners *)

(** Where the goroutine of a Start is: about to call the task or waiting to
    call it again, serving, or ended. *)
Inductive phase := Entering | Serving | Gone.

#[local] Instance phase_eq_dec : EqDecision phase.
Proof. solve_decision. Defined.

Record FD := {
  cfg : Config;
  udp : list (bytes * bool); tcp : list (bytes * bool);
  dot : option bytes; doq : option bytes; doh3 : option bytes;
  started : bool;
  degraded : bool;
  sups : list phase;            (* by generation *)
  cancelled : list nat;         (* generations whose context is done *)
  net_ok : list bool
}.

Definition NewFD (c : Config) (l : list bool) : FD :=
  {| cfg := c; udp := []; tcp := []; dot := None; doq := None; doh3 := None; started := false; degraded := false;
     sups := []; cancelled := []; net_ok := l |}.

Definition set_cfg c s := {| cfg := c; udp := udp s; tcp := tcp s; dot := dot s; doq := doq s; doh3 := doh3 s; started := started s; degraded := degraded s; sups := sups s; cancelled := cancelled s; net_ok := net_ok s |}.
Definition set_plain u t s := {| cfg := cfg s; udp := u; tcp := t; dot := dot s; doq := doq s; doh3 := doh3 s; started := started s; degraded := degraded s; sups := sups s; cancelled := cancelled s; net_ok := net_ok s |}.
Definition set_dot d s := {| cfg := cfg s; udp := udp s; tcp := tcp s; dot := d; doq := doq s; doh3 := doh3 s; started := started s; degraded := degraded s; sups := sups s; cancelled := cancelled s; net_ok := net_ok s |}.
Definition set_doq d s := {| cfg := cfg s; udp := udp s; tcp := tcp s; dot := dot s; doq := d; doh3 := doh3 s; started := started s; degraded := degraded s; sups := sups s; cancelled := cancelled s; net_ok := net_ok s |}.
Definition set_doh3 d s := {| cfg := cfg s; udp := udp s; tcp := tcp s; dot := dot s; doq := doq s; doh3 := d; started := started s; degraded := degraded s; sups := sups s; cancelled := cancelled s; net_ok := net_ok s |}.
Definition set_life st dg sp cn s := {| cfg := cfg s; udp := udp s; tcp := tcp s; dot := dot s; doq := doq s; doh3 := doh3 s; started := st; degraded := dg; sups := sp; cancelled := cn; net_ok := net_ok s |}.
Definition set_net l s := {| cfg := cfg s; udp := udp s; tcp := tcp s; dot := dot s; doq := doq s; doh3 := doh3 s; started := started s; degraded := degraded s; sups := sups s; cancelled := cancelled s; net_ok := l |}.

Inductive FErr := ErrStarted | ErrBind | ErrDoT | ErrDoQ | ErrDoH3.
Abbreviation F A := (ST FD (res FErr A)).

(** A bind. *)
Definition listen (e : FErr) : F unit := fun s =>
  match net_ok s with
  | b :: l => ((if b : bool then Ok tt else Err e), set_net l s)
  | [] => (Ok tt, s)
  end.

(** [bindLocked]: all addresses, or none; the partial binds of a failure are
    closed. *)
Fixpoint bind_all (addrs : list bytes) : F unit :=
  match addrs with
  | [] => ret (Ok tt)
  | _ :: addrs => let? _ := listen ErrBind in bind_all addrs
  end.

Definition bindLocked : F unit :=
  let! c := gets cfg in
  let '(u, t) := effectiveBinds c in
  let? _ := bind_all u in
  let? _ := bind_all t in
  let mark (a : bytes) := (a, PublicPlainDNSEnabled c) in
  let! _ := modify (set_plain (mark <$> u) (mark <$> t)) in
  ret (Ok tt).

Definition closePlainListenersLocked : ST FD unit := modify (set_plain [] []).
Definition stopDoTLocked : ST FD unit := modify (set_dot None).
Definition stopDoQLocked : ST FD unit := modify (set_doq None).
Definition stopDoH3Locked : ST FD unit := modify (set_doh3 None).

Definition closeListenersLocked : ST FD unit :=
  let! _ := closePlainListenersLocked in
  let! _ := stopDoTLocked in
  let! _ := stopDoQLocked in
  stopDoH3Locked.

(** [startDoTLocked], [startDoQLocked], [startDoH3Locked]. *)
Definition start_one (running : FD -> option bytes) (store : option bytes -> FD -> FD) (e : FErr)
    (addr : bytes) (c : Config) : F unit :=
  let! r := gets running in
  if bool_decide (is_Some r) || negb (TLSConfigs c) then ret (Ok tt)
  else
    let? _ := listen e in
    let! _ := modify (store (Some addr)) in
    ret (Ok tt).

Definition startDoTLocked (c : Config) : F unit := start_one dot set_dot ErrDoT defaultDoTAddr c.
Definition startDoQLocked (c : Config) : F unit :=
  start_one doq set_doq ErrDoQ (firstBindOrDefault (DoQBind c) defaultDoQAddr) c.
Definition startDoH3Locked (c : Config) : F unit :=
  start_one doh3 set_doh3 ErrDoH3 (firstBindOrDefault (DoH3Bind c) defaultDoH3Addr) c.

(** A step whose error is followed by a clean-up. *)
Definition or_else (m : F unit) (cleanup : ST FD unit) : F unit :=
  let! r := m in
  match r with Ok _ => ret (Ok tt) | Err e => let! _ := cleanup in ret (Err e) end.

Definition startEncryptedLocked (c : Config) : F unit :=
  let? _ := startDoTLocked c in
  let? _ := (if DoQEnabled c then or_else (startDoQLocked c) stopDoTLocked else ret (Ok tt)) in
  if DoH3Enabled c then or_else (startDoH3Locked c) (let! _ := stopDoQLocked in stopDoTLocked) else ret (Ok tt).

(** [Start]; the goroutine it leaves is a new generation. *)
Definition Start : F unit :=
  let! st := gets started in
  if st : bool then ret (Err ErrStarted)
  else
    let? _ := bindLocked in
    let! c := gets cfg in
    let? _ := or_else (startEncryptedLocked c) closeListenersLocked in
    let! _ := modify (fun s => set_life true false (sups s ++ [Entering]) (cancelled s) s) in
    ret (Ok tt).

(** [Shutdown], its critical section; then it waits for the goroutine. *)
Definition Shutdown : ST FD unit :=
  let! _ := modify (fun s =>
    let gens := if started s then (length (sups s) - 1) :: cancelled s else cancelled s in
    set_life false (degraded s) (sups s) gens s) in
  let! _ := stopDoTLocked in
  let! _ := stopDoQLocked in
  stopDoH3Locked.

(** [Reconcile]. *)
Definition reconcile_one (now before : bool) (start : F unit) (stop revert : ST FD unit) : F unit :=
  if now && negb before then or_else start revert
  else if negb now && before then let! _ := stop in ret (Ok tt)
  else ret (Ok tt).

Definition Reconcile (c : Config) : F unit :=
  let! prev := gets cfg in
  let! _ := modify (set_cfg c) in
  let? _ := reconcile_one (DoQEnabled c) (DoQEnabled prev) (startDoQLocked c) stopDoQLocked
              (modify (fun s => set_cfg (set_DoQEnabled false (cfg s)) s)) in
  reconcile_one (DoH3Enabled c) (DoH3Enabled prev) (startDoH3Locked c) stopDoH3Locked
    (modify (fun s => set_cfg (set_DoH3Enabled false (cfg s)) s)).

(** [serveAll]: its entry, which binds when nothing is bound, and its two
    ends, on a crash and on a done context.  A failed entry is a crash. *)
Definition set_phase (g : nat) (p : phase) : ST FD unit :=
  modify (fun s => set_life (started s) (degraded s) (<[g := p]> (sups s)) (cancelled s) s).

Definition serve_entry (g : nat) : ST FD unit :=
  let! s := gets id in
  let! r := (if (udp s == []) && (tcp s == []) then bindLocked else ret (Ok tt)) in
  match r with Ok _ => set_phase g Serving | Err _ => ret tt end.

Definition serve_crash (g : nat) : ST FD unit :=
  let! _ := closePlainListenersLocked in set_phase g Entering.

Definition serve_done (g : nat) : ST FD unit :=
  let! _ := closePlainListenersLocked in set_phase g Gone.

(** [enterDegraded], when the supervisor of the generation gives up. *)
Definition enterDegraded (g : nat) : ST FD unit :=
  modify (fun s => set_life (started s) true (<[g := Gone]> (sups s)) (cancelled s) s).

(** [Status]. *)
Record ListenerState := { Configured : bool; IsRunning : bool }.
Record StatusReport := {
  st_UDP53 : ListenerState; st_TCP53 : ListenerState; st_DoT : ListenerState; st_DoQ : ListenerState;
  st_DoH3 : ListenerState; st_Degraded : bool
}.

Definition Status (s : FD) : StatusReport :=
  let '(u, t) := effectiveBinds (cfg s) in
  let tls := TLSConfigs (cfg s) in
  {| st_UDP53 := {| Configured := negb (u == []); IsRunning := negb (udp s == []) |};
     st_TCP53 := {| Configured := negb (t == []); IsRunning := negb (tcp s == []) |};
     st_DoT := {| Configured := tls; IsRunning := bool_decide (is_Some (dot s)) |};
     st_DoQ := {| Configured := tls && DoQEnabled (cfg s); IsRunning := bool_decide (is_Some (doq s)) |};
     st_DoH3 := {| Configured := tls && DoH3Enabled (cfg s); IsRunning := bool_decide (is_Some (doh3 s)) |};
     st_Degraded := degraded s |}.

(** ** Interleavings *)
Inductive event :=
| EvStart | EvReconcile (c : Config) | EvShutdown | EvEntry (g : nat) | EvCrash (g : nat) | EvReturn (g : nat)
| EvDone (g : nat) | EvGiveUp (g : nat).

(** A step a goroutine can make where it is; [EvReturn]: a listener that was
    closed returns without an error. *)
Definition fd_step (s : FD) (ev : event) : FD :=
  match ev with
  | EvStart => (Start s).2
  | EvReconcile c => (Reconcile c s).2
  | EvShutdown => (Shutdown s).2
  | EvEntry g => if sups s !! g == Some Entering then (serve_entry g s).2 else s
  | EvCrash g => if sups s !! g == Some Serving then (serve_crash g s).2 else s
  | EvReturn g => if sups s !! g == Some Serving then (serve_done g s).2 else s
  | EvDone g => if (sups s !! g == Some Serving) && bool_decide (g ∈ cancelled s) then (serve_done g s).2
                else if (sups s !! g == Some Entering) && bool_decide (g ∈ cancelled s) then (set_phase g Gone s).2 else s
  | EvGiveUp g => if sups s !! g == Some Entering then (enterDegraded g s).2 else s
  end.

Definition run_fd (evs : list event) (s : FD) : FD := foldl fd_step s evs.

(** ** Lemmas: no public bind *)
Definition private (l : list (bytes * bool)) : Prop := Forall (fun p => isWildcardBind p.1 = false) l.

Definition closed (s : FD) : Prop := PublicPlainDNSEnabled (cfg s) = false /\ private (udp s) /\ private (tcp s).

Lemma sanitize_private binds (b : bool) : private ((fun a => (a, b)) <$> sanitizeBinds binds false).
Proof. apply Forall_fmap, Forall_forall. intros a Ha. unfold sanitizeBinds in Ha. by apply list_elem_of_filter in Ha as [Ha _]. Qed.

Lemma wp_listen e Q s :
  (forall l, Q (Ok tt) (set_net l s)) -> (forall l, Q (Err e) (set_net l s)) -> wp (listen e) Q s.
Proof. intros HO HE. unfold wp, listen. destruct s as [? ? ? ? ? ? ? ? ? ? [|[|] ?]]; cbn; apply HO || apply HE || apply (HO []). Qed.

(** The state up to the outcomes to come. *)
Definition eqn (s s' : FD) : Prop := exists l, s' = set_net l s.

Lemma bind_all_spec l s :
  wp (bind_all l) (fun r s' => eqn s s' /\ (r = Ok tt \/ r = Err ErrBind)) s.
Proof.
  revert s. induction l as [|a l IH]; intros s; cbn [bind_all].
  - apply wp_ret. split; [exists (net_ok s); by destruct s|by left].
  - apply wp_bindE, wp_listen; intros k.
    + eapply wp_mono; [apply IH|]. cbv beta. intros r s' [[k' ->] Hr]. split; [by exists k'|done].
    + split; [by exists k|by right].
Qed.

(** What the plain listeners become. *)
Definition bound (s : FD) : FD :=
  let mark (a : bytes) := (a, PublicPlainDNSEnabled (cfg s)) in
  set_plain (mark <$> (effectiveBinds (cfg s)).1) (mark <$> (effectiveBinds (cfg s)).2) s.

Lemma bindLocked_spec s :
  wp bindLocked (fun r s' => match r with Ok _ => eqn (bound s) s' | Err e => eqn s s' /\ e = ErrBind end) s.
Proof.
  unfold bindLocked. apply wp_bind, wp_gets. unfold bound. destruct (effectiveBinds (cfg s)) as [u t].
  apply wp_bindE. eapply wp_mono; [apply bind_all_spec|]. cbv beta. intros r s1 [[k1 ->] [->| ->]]; [|by split; [exists k1|]].
  apply wp_bindE. eapply wp_mono; [apply bind_all_spec|]. cbv beta. intros r s2 [[k2 ->] [->| ->]]; [|by split; [exists k2|]].
  apply wp_bind, wp_modify, wp_ret. by exists k2.
Qed.

Lemma bound_closed s : closed s -> closed (bound s).
Proof.
  intros (Hp & _ & _). unfold bound, effectiveBinds. rewrite Hp.
  destruct ((BindUDP53 (cfg s) == []) && (BindTCP53 (cfg s) == [])); (split; [done|]); split; apply sanitize_private.
Qed.

Lemma start_one_closed running store e addr c :
  (forall a s, closed s -> closed (store a s)) -> keeps closed (start_one running store e addr c).
Proof.
  intros Hst. apply keeps_of_wp. intros s Hs. unfold start_one. apply wp_bind, wp_gets. destruct (_ || _); [by apply wp_ret|].
  apply wp_bindE, wp_listen; intros l; [|done]. apply wp_bind, wp_modify, wp_ret. by apply Hst.
Qed.

Lemma or_else_closed m cleanup : keeps closed m -> keeps closed cleanup -> keeps closed (or_else m cleanup).
Proof.
  intros Hm Hc. apply keeps_bind; [done|]. intros [e|a]; [|apply keeps_ret]. apply keeps_bind; [done|]. intros _. apply keeps_ret.
Qed.

(** The steps of a run keep [closed]. *)
Ltac closed_step :=
  match goal with
  | |- keeps _ (bind _ _) => apply keeps_bind; [|intros ?]
  | |- keeps _ (bindE _ _) => apply keeps_bindE; [|intros ?]
  | |- keeps _ (ret _) => apply keeps_ret
  | |- keeps _ (modify _) => apply keeps_modify; intros ? (? & ? & ?); by split; [|split]
  | |- keeps _ (start_one _ _ _ _ _) => apply start_one_closed; intros ? ? (? & ? & ?); by split; [|split]
  | |- keeps _ (or_else _ _) => apply or_else_closed
  | |- keeps _ (if ?b then _ else _) => destruct b
  end.

Lemma bindLocked_closed : keeps closed bindLocked.
Proof.
  apply keeps_of_wp. intros s Hs. eapply wp_mono; [apply bindLocked_spec|]. cbv beta. intros [e|a] s' H1.
  - destruct H1 as [[l ->] _]. exact Hs.
  - destruct H1 as [l ->]. by apply bound_closed in Hs.
Qed.

Lemma closeListeners_closed : keeps closed closeListenersLocked.
Proof.
  apply keeps_of_wp. intros s (Hp & _). unfold closeListenersLocked. do 3 apply wp_bind, wp_modify. apply wp_modify.
  split; [done|]. split; constructor.
Qed.

Lemma Start_closed : keeps closed Start.
Proof.
  unfold Start. apply keeps_bind; [apply keeps_gets|]. intros [|]; [apply keeps_ret|].
  apply keeps_bindE; [apply bindLocked_closed|]. intros _. apply keeps_bind; [apply keeps_gets|]. intros c.
  apply keeps_bindE; [apply or_else_closed; [|apply closeListeners_closed]|intros _; repeat closed_step].
  unfold startEncryptedLocked, startDoTLocked, startDoQLocked, startDoH3Locked, stopDoTLocked, stopDoQLocked.
  repeat closed_step.
Qed.

Lemma Reconcile_closed c : PublicPlainDNSEnabled c = false -> keeps closed (Reconcile c).
Proof.
  intros Hc. unfold Reconcile. apply keeps_bind; [apply keeps_gets|]. intros prev.
  apply keeps_bind; [apply keeps_modify; intros s (_ & Hu & Ht); by split; [|split]|]. intros _.
  unfold reconcile_one, startDoQLocked, startDoH3Locked, stopDoQLocked, stopDoH3Locked. repeat closed_step.
Qed.

Lemma plain_closed g p : keeps closed (let! _ := closePlainListenersLocked in set_phase g p).
Proof.
  apply keeps_of_wp. intros s (Hp & _). apply wp_bind, wp_modify, wp_modify. split; [done|]. split; constructor.
Qed.

Lemma entry_closed g : keeps closed (serve_entry g).
Proof.
  unfold serve_entry. apply keeps_bind; [apply keeps_gets|]. intros s.
  apply keeps_bind; [destruct (_ && _); [apply bindLocked_closed|apply keeps_ret]|].
  intros [e|a]; [apply keeps_ret|]. unfold set_phase. closed_step.
Qed.

(** ** Lemmas: the outcomes of Start and Reconcile *)
Definition nothing (s : FD) : Prop := udp s = [] /\ tcp s = [] /\ dot s = None /\ doq s = None /\ doh3 s = None.

(** The encrypted listeners that run are those the configuration enables. *)
Definition serves (enabled : bool) (l : option bytes) : Prop := bool_decide (is_Some l) = enabled.
Definition dot_agrees (s : FD) : Prop := serves (TLSConfigs (cfg s)) (dot s).
Definition doq_agrees (s : FD) : Prop := serves (TLSConfigs (cfg s) && DoQEnabled (cfg s)) (doq s).
Definition doh3_agrees (s : FD) : Prop := serves (TLSConfigs (cfg s) && DoH3Enabled (cfg s)) (doh3 s).
Definition agrees (s : FD) : Prop := dot_agrees s /\ doq_agrees s /\ doh3_agrees s.

(** A start of a listener that is not running. *)
Lemma start_one_spec running store e addr c s Q :
  running s = None ->
  (TLSConfigs c = false -> Q (Ok tt) s) ->
  (TLSConfigs c = true -> forall l, Q (Ok tt) (store (Some addr) (set_net l s))) ->
  (TLSConfigs c = true -> forall l, Q (Err e) (set_net l s)) ->
  wp (start_one running store e addr c) Q s.
Proof.
  intros Hr H0 H1 H2. unfold start_one. apply wp_bind, wp_gets. rewrite Hr. cbn.
  destruct (TLSConfigs c); cbn; [|by apply wp_ret, H0].
  apply wp_bindE, wp_listen; intros l; [|by apply H2]. apply wp_bind, wp_modify, wp_ret. by apply H1.
Qed.

Lemma wp_or_else m cleanup Q s :
  wp m (fun r s => match r with Ok _ => Q (Ok tt) s | Err e => wp cleanup (fun _ s => Q (Err e) s) s end) s ->
  wp (or_else m cleanup) Q s.
Proof.
  intros Hm. apply wp_bind. eapply wp_mono; [exact Hm|]. cbv beta. intros [e|[]] s' HQ; [|by apply wp_ret].
  apply wp_bind. eapply wp_mono; [exact HQ|]. intros [] s2 HQ2. by apply wp_ret.
Qed.

(** The parts of the state the encrypted listeners do not touch. *)
Definition same_base (s s' : FD) : Prop :=
  cfg s' = cfg s /\ udp s' = udp s /\ tcp s' = tcp s /\ started s' = started s /\ degraded s' = degraded s /\
  sups s' = sups s /\ cancelled s' = cancelled s.

Lemma encrypted_spec s :
  dot s = None -> doq s = None -> doh3 s = None ->
  wp (startEncryptedLocked (cfg s)) (fun r s' => same_base s s' /\
    match r with Ok _ => agrees s' | Err e => e = ErrDoT \/ e = ErrDoQ \/ e = ErrDoH3 end) s.
Proof.
  intros H1 H2 H3. unfold startEncryptedLocked.
  assert (forall l, same_base s (set_net l s)) as Hnet by done.
  apply wp_bindE, start_one_spec; [done|..].
  - (* no certificates *)
    intros HT. assert (agrees s) as HA.
    { unfold agrees, dot_agrees, doq_agrees, doh3_agrees, serves. by rewrite HT, H1, H2, H3. }
    apply wp_bindE. apply (wp_mono _ (fun r s' => s' = s /\ r = Ok tt)).
    { destruct (DoQEnabled (cfg s)); [|by apply wp_ret]. by apply wp_or_else, start_one_spec; [|by rewrite ?HT..]. }
    intros r s' [-> ->]. destruct (DoH3Enabled (cfg s)); [|by apply wp_ret].
    apply wp_or_else, start_one_spec; [done|by rewrite ?HT..].
  - intros HT l. cbn.
    apply wp_bindE. apply (wp_mono _ (fun r s' => same_base s s' /\ dot s' = Some defaultDoTAddr /\ doh3 s' = None /\
      match r with Ok _ => doq_agrees s' | Err e => e = ErrDoQ end \/ same_base s s' /\ r = Err ErrDoQ)).
    { unfold doq_agrees, serves. destruct (DoQEnabled (cfg s)) eqn:EQ.
      - apply wp_or_else, start_one_spec; [done|cbn; congruence|..]; intros _ k; cbn.
        + left. rewrite HT, EQ. done.
        + by right.
      - apply wp_ret. left. cbn. rewrite HT, EQ, H2, H3. done. }
    intros r s1 [(HB & HD & HH & HQ)|[HB ->]]; [|by split; [|right; left]].
    destruct r as [e|[]]; [split; [done|]; right; by left|].
    pose proof HB as (HC & _). unfold agrees, dot_agrees, doh3_agrees, serves.
    destruct (DoH3Enabled (cfg s)) eqn:EH.
    + apply wp_or_else, start_one_spec; [done|cbn; congruence|..]; intros _ k; cbn.
      * split; [done|]. rewrite HD, HC, HT, EH. done.
      * split; [done|]. right. by right.
    + apply wp_ret. split; [done|]. rewrite HD, HH, HC, HT, EH. done.
  - intros HT l. split; [done|]. by left.
Qed.

Lemma Start_outcome s :
  started s = false -> nothing s ->
  wp Start (fun r s' => cfg s' = cfg s /\
    match r with
    | Ok _ => agrees s' /\ started s' = true /\ degraded s' = false /\ sups s' = sups s ++ [Entering] /\
        udp s' = udp (bound s) /\ tcp s' = tcp (bound s)
    | Err e => nothing s' /\ started s' = false /\ sups s' = sups s /\ degraded s' = degraded s
    end) s.
Proof.
  intros Hst (Hu & Ht & H1 & H2 & H3). unfold Start. apply wp_bind, wp_gets. rewrite Hst.
  apply wp_bindE. eapply wp_mono; [apply bindLocked_spec|]. cbv beta. intros [e|[]] s1 H4.
  { destruct H4 as [[l ->] _]. split; [done|]. done. }
  destruct H4 as [l ->]. apply wp_bind, wp_gets. apply wp_bindE, wp_or_else.
  eapply wp_mono; [by apply encrypted_spec|]. cbv beta. intros [e|[]] s2 [HB HE].
  - unfold closeListenersLocked. do 3 apply wp_bind, wp_modify. apply wp_modify.
    destruct HB as (Hc & _ & _ & Hs & Hd & Hp & _). cbn in *. rewrite Hc, Hs, Hp, Hd. done.
  - apply wp_bind, wp_modify, wp_ret. destruct HB as (Hc & Hu2 & Ht2 & Hs & Hd & Hp & _). cbn in *. rewrite Hp. done.
Qed.

(** One listener of [Reconcile]. *)
Lemma reconcile_one_spec running store e addr c now before revert Q s :
  serves (TLSConfigs c && before) (running s) ->
  (now = before -> Q (Ok tt) s) ->
  (now = false -> before = true -> Q (Ok tt) (store None s)) ->
  (now = true -> before = false -> TLSConfigs c = false -> Q (Ok tt) s) ->
  (now = true -> before = false -> TLSConfigs c = true -> forall l,
     Q (Ok tt) (store (Some addr) (set_net l s)) /\ Q (Err e) (revert (set_net l s))) ->
  wp (reconcile_one now before (start_one running store e addr c) (modify (store None)) (modify revert)) Q s.
Proof.
  intros Hs H0 H1 H2 H3. unfold reconcile_one. destruct now, before; cbn [andb negb].
  - by apply wp_ret, H0.
  - unfold serves in Hs. rewrite andb_false_r in Hs. apply bool_decide_eq_false in Hs.
    apply wp_or_else, start_one_spec; [by apply eq_None_not_Some|..].
    + intros HT. by apply H2.
    + intros HT l. by apply H3.
    + intros HT l. apply wp_modify. by apply H3.
  - apply wp_bind, wp_modify, wp_ret. by apply H1.
  - by apply wp_ret, H0.
Qed.

(** What [Reconcile] leaves: all of the new configuration in force, or one
    flag reverted. *)
Definition reconciled (c : Config) (s : FD) (r : res FErr unit) (s' : FD) : Prop :=
  udp s' = udp s /\ tcp s' = tcp s /\
  match r with
  | Ok _ => cfg s' = c /\ agrees s'
  | Err ErrDoQ => cfg s' = set_DoQEnabled false c /\ dot_agrees s' /\ doq_agrees s' /\ doh3 s' = doh3 s /\
      DoQEnabled (cfg s) = false
  | Err e => e = ErrDoH3 /\ cfg s' = set_DoH3Enabled false c /\ agrees s'
  end.

Lemma reconcile_doh3 c s s1 :
  agrees s -> TLSConfigs c = TLSConfigs (cfg s) ->
  dot s1 = dot s -> cfg s1 = c -> udp s1 = udp s -> tcp s1 = tcp s -> doh3 s1 = doh3 s ->
  serves (TLSConfigs c && DoQEnabled c) (doq s1) ->
  wp (reconcile_one (DoH3Enabled c) (DoH3Enabled (cfg s)) (startDoH3Locked c) stopDoH3Locked
        (modify (fun s => set_cfg (set_DoH3Enabled false (cfg s)) s))) (reconciled c s) s1.
Proof.
  intros (HD & _ & HH) HT E1 E2 E3 E4 E5 HQ. unfold dot_agrees, doh3_agrees in *. rewrite <- HT in *.
  unfold reconciled, agrees, dot_agrees, doq_agrees, doh3_agrees. apply reconcile_one_spec; [by rewrite E5|..].
  - intros Hb. rewrite E2, E1, E5, Hb. done.
  - intros Hn _. cbn. rewrite E2, E1, Hn, andb_false_r. done.
  - intros Hn Hb HT0. rewrite E2, E1, E5. rewrite HT0 in *. done.
  - intros Hn Hb HT1 l. cbn. rewrite E1, E2, E3, E4, E5, Hn, HT1 in *. by rewrite Hb in HH.
Qed.

Lemma Reconcile_outcome c s :
  agrees s -> TLSConfigs c = TLSConfigs (cfg s) -> wp (Reconcile c) (reconciled c s) s.
Proof.
  intros HA HT. pose proof HA as (HD & HQ & HH). unfold Reconcile. apply wp_bind, wp_gets, wp_bind, wp_modify.
  unfold dot_agrees, doq_agrees, doh3_agrees in HD, HQ, HH. rewrite <- HT in HD, HQ, HH.
  apply wp_bindE, reconcile_one_spec; [done|..].
  - intros Hb. apply reconcile_doh3; try done. by rewrite Hb.
  - intros Hn _. apply reconcile_doh3; try done. cbn. by rewrite Hn, andb_false_r.
  - intros Hn Hb HT0. apply reconcile_doh3; try done. cbn. by rewrite HT0 in *.
  - intros Hn Hb HT1 l. split.
    + apply reconcile_doh3; try done. cbn. by rewrite HT1, Hn.
    + unfold reconciled, dot_agrees, doq_agrees. cbn. rewrite HT1 in *. by rewrite Hb in HQ.
Qed.

(** A listener that [Status] reports on as the configuration says. *)
Definition in_force (l : ListenerState) : Prop := Configured l = IsRunning l.

Lemma agrees_status s :
  dot_agrees s <-> in_force (st_DoT (Status s)).
Proof. unfold in_force, Status. destruct (effectiveBinds (cfg s)). cbn. unfold dot_agrees, serves. by split. Qed.

Lemma agrees_in_force s :
  agrees s -> in_force (st_DoT (Status s)) /\ in_force (st_DoQ (Status s)) /\ in_force (st_DoH3 (Status s)).
Proof.
  unfold in_force, Status. destruct (effectiveBinds (cfg s)). cbn. intros (H1 & H2 & H3).
  unfold dot_agrees, doq_agrees, doh3_agrees, serves in *. by rewrite H1, H2, H3.
Qed.

Lemma doh3_in_force s : in_force (st_DoH3 (Status s)) <-> doh3_agrees s.
Proof. unfold in_force, Status. destruct (effectiveBinds (cfg s)). cbn. unfold doh3_agrees, serves. by split. Qed.
End frontdoor.

(** ** Properties *)
Section properties.
Context `{Unicode} (Interfaces : option (list (bytes * option (list IfAddr)))).

(** C27: plain DNS is closed to the internet by default: as long as no
    configuration enables public plain DNS, no listener is ever bound to a
    wildcard address, in every interleaving of starts, reconfigurations,
    shutdowns, crashes and restarts, whichever binds fail, and whatever
    addresses the configurations list. *)
Theorem no_public_bind c l evs :
  PublicPlainDNSEnabled c = false ->
  Forall (fun ev => match ev with EvReconcile c => PublicPlainDNSEnabled c = false | _ => True end) evs ->
  Forall (fun p => isWildcardBind p.1 = false)
    (udp (run_fd Interfaces evs (NewFD c l)) ++ tcp (run_fd Interfaces evs (NewFD c l))).
Proof.
  intros Hc Hevs. assert (closed (NewFD c l)) as HC by (by split; [|split; constructor]).
  assert (closed (run_fd Interfaces evs (NewFD c l))) as (_ & Hu & Ht); [|by apply Forall_app].
  revert HC. generalize (NewFD c l) as s. induction Hevs as [|ev evs Hev _ IH]; intros s Hs; [done|].
  apply IH. destruct ev; cbn [fd_step].
  - by apply Start_closed.
  - by apply Reconcile_closed.
  - by destruct Hs as (? & ? & ?).
  - case_bool_decide; [by apply entry_closed|done].
  - case_bool_decide; [by apply plain_closed|done].
  - case_bool_decide; [by apply plain_closed|done].
  - destruct (_ && _); [by apply plain_closed|]. destruct (_ && _); [by destruct Hs as (? & ? & ?)|done].
  - case_bool_decide; [by destruct Hs as (? & ? & ?)|done].
Qed.

(** Start is all or nothing: from a front door with nothing bound, either
    every transport is running exactly if it is configured, the plain
    listeners are at the effective addresses and a new supervised task
    exists, or nothing is bound at all and it can be started again. *)
Theorem Start_all_or_nothing s r s' :
  started s = false -> nothing s -> Start Interfaces s = (r, s') ->
  match r with
  | Ok _ =>
      let st := Status Interfaces s' in
      started s' = true /\ sups s' = sups s ++ [Entering] /\ st_Degraded st = false /\
      Forall in_force [st_UDP53 st; st_TCP53 st; st_DoT st; st_DoQ st; st_DoH3 st] /\
      (udp s').*1 = (effectiveBinds Interfaces (cfg s)).1 /\ (tcp s').*1 = (effectiveBinds Interfaces (cfg s)).2
  | Err _ => nothing s' /\ started s' = false /\ cfg s' = cfg s /\ sups s' = sups s
  end.
Proof.
  intros Hst Hn E. destruct (wp_elim _ _ _ _ _ (Start_outcome Interfaces s Hst Hn) E) as [Hc HR].
  destruct r as [e|[]]; [tauto|]. destruct HR as (HA & Hs & Hd & Hp & Hu & Ht). cbv zeta.
  destruct (agrees_in_force Interfaces s' HA) as (H1 & H2 & H3).
  assert (forall (l : list bytes) (b : bool), ((fun a => (a, b)) <$> l).*1 = l) as Hfst
    by (intros l b; rewrite <- list_fmap_compose; by apply list_fmap_id).
  unfold bound in Hu, Ht. cbn in Hu, Ht. rewrite Hu, Ht, !Hfst. split; [done|]. split; [done|].
  split; [unfold Status; by destruct (effectiveBinds Interfaces (cfg s'))|]. split; [|done].
  assert (forall (l : list bytes) (b : bool), bool_decide (((fun a => (a, b)) <$> l) = []) = bool_decide (l = [])) as Hnil.
  { intros l b. apply bool_decide_ext. by destruct l. }
  assert (in_force (st_UDP53 (Status Interfaces s')) /\ in_force (st_TCP53 (Status Interfaces s'))) as [Hf1 Hf2].
  { unfold in_force, Status. rewrite Hc, Hu, Ht. destruct (effectiveBinds Interfaces (cfg s)) as [u t]. cbn. by rewrite !Hnil. }
  repeat (constructor; [done|]). constructor.
Qed.

(** a reconfiguration with the certificates unchanged puts the encrypted
    listeners in force: on success DoT, DoQ and DoH3 run exactly if the new
    configuration enables them; on a failed DoH3 bind its flag is off and
    they still do; a failed DoQ bind turns its flag off, but then DoH3 is
    left as it was.  The plain listeners are never touched. *)
Theorem Reconcile_in_force c s r s' :
  agrees s -> TLSConfigs c = TLSConfigs (cfg s) -> Reconcile c s = (r, s') ->
  udp s' = udp s /\ tcp s' = tcp s /\
  let st := Status Interfaces s' in
  match r with
  | Err ErrDoQ => DoQEnabled (cfg s') = false /\ doq s' = None /\ doh3 s' = doh3 s /\ DoH3Enabled (cfg s') = DoH3Enabled c
  | _ => Forall in_force [st_DoT st; st_DoQ st; st_DoH3 st] /\
      (cfg s' = c \/ cfg s' = set_DoH3Enabled false c /\ doh3 s' = None)
  end.
Proof.
  intros HA HT E. destruct (wp_elim _ _ _ _ _ (Reconcile_outcome c s HA HT) E) as (Hu & Ht & HR).
  split; [done|]. split; [done|]. cbv zeta.
  assert (agrees s' -> Forall in_force [st_DoT (Status Interfaces s'); st_DoQ (Status Interfaces s'); st_DoH3 (Status Interfaces s')]) as HF.
  { intros HA'. destruct (agrees_in_force Interfaces s' HA') as (? & ? & ?). repeat (constructor; [done|]). constructor. }
  destruct r as [e|[]].
  - destruct e; try (destruct HR as (Hx & _); discriminate Hx).
    + destruct HR as (Hc & _ & HQ & HH & _). rewrite Hc in *. unfold doq_agrees, serves in HQ. rewrite Hc in HQ.
      cbn in HQ. rewrite andb_false_r in HQ. apply bool_decide_eq_false in HQ. split; [done|].
      split; [by apply eq_None_not_Some|done].
    + destruct HR as (_ & Hc & HA'). split; [by apply HF|]. right. split; [done|].
      destruct HA' as (_ & _ & HH). unfold doh3_agrees, serves in HH. rewrite Hc in HH. cbn in HH.
      rewrite andb_false_r in HH. apply bool_decide_eq_false in HH. by apply eq_None_not_Some.
  - destruct HR as (Hc & HA'). split; [by apply HF|by left].
Qed.

(** *** A stranded flag *)
Definition stranded (b : bool) (s : FD) : Prop :=
  TLSConfigs (cfg s) = true /\ DoH3Enabled (cfg s) = b /\ bool_decide (is_Some (doh3 s)) = negb b.

Lemma reconcile_one_doh3 now before store e addr c (stop revert : FD -> FD) running b s :
  (forall a s, stranded b s -> stranded b (store a s)) -> (forall s, stranded b s -> stranded b (revert s)) ->
  stranded b s -> wp (reconcile_one now before (start_one running store e addr c) (modify (store None)) (modify revert))
    (fun _ s' => stranded b s') s.
Proof.
  intros Hst Hrev Hs. unfold reconcile_one. destruct (now && negb before).
  - apply wp_or_else. unfold start_one. apply wp_bind, wp_gets. destruct (_ || _); [by apply wp_ret|].
    apply wp_bindE, wp_listen; intros l; [|by apply wp_modify, Hrev]. apply wp_bind, wp_modify, wp_ret. by apply Hst.
  - destruct (negb now && before); [|by apply wp_ret]. apply wp_bind, wp_modify, wp_ret. by apply Hst.
Qed.

Lemma Reconcile_stranded c b s :
  TLSConfigs c = true -> DoH3Enabled c = b -> stranded b s -> stranded b (Reconcile c s).2.
Proof.
  intros HT Hc Hs. assert (wp (Reconcile c) (fun _ s' => stranded b s') s) as HW.
  2: { unfold wp in HW. by destruct (Reconcile c s). }
  pose proof Hs as (_ & Hb & _). unfold Reconcile. apply wp_bind, wp_gets, wp_bind, wp_modify.
  assert (forall s1, stranded b s1 -> wp (reconcile_one (DoH3Enabled c) (DoH3Enabled (cfg s)) (startDoH3Locked c) stopDoH3Locked
    (modify (fun s => set_cfg (set_DoH3Enabled false (cfg s)) s))) (fun _ s' => stranded b s') s1) as Hn.
  { intros s1 H1. unfold reconcile_one. rewrite Hb, Hc. destruct b; by apply wp_ret. }
  apply wp_bindE. eapply wp_mono; [apply (reconcile_one_doh3 _ _ _ _ _ _ id _ _ b); [by intros ? ? (? & ? & ?)|by intros ? (? & ? & ?)|]|].
  - destruct Hs as (_ & _ & Hd). split; [done|]. by split.
  - cbv beta. intros [e|[]] s1 H1; [done|by apply Hn].
Qed.

(** a failed DoQ bind strands DoH3: if a reconfiguration that enables DoQ
    also changes DoH3 and the bind of DoQ fails, the error is returned before
    DoH3 is looked at, but the new DoH3 flag is kept; from then on the status
    of DoH3 contradicts its listener - enabled and not running, or disabled
    and still serving - and no later reconfiguration with the same flag
    repairs it, even when every bind works. *)
Theorem reconcile_strands_doh3 c s l cs :
  agrees s -> TLSConfigs (cfg s) = true -> TLSConfigs c = true ->
  DoQEnabled (cfg s) = false -> DoQEnabled c = true -> net_ok s = false :: l ->
  DoH3Enabled c <> DoH3Enabled (cfg s) ->
  Forall (fun c' => TLSConfigs c' = true /\ DoH3Enabled c' = DoH3Enabled c) cs ->
  (Reconcile c s).1 = Err ErrDoQ /\
  ~ in_force (st_DoH3 (Status Interfaces (foldl (fun s c' => (Reconcile c' s).2) (Reconcile c s).2 cs))).
Proof.
  intros HA HT0 HT HQ0 HQ Hnet HH Hcs. pose proof HA as (_ & Hq & Hh).
  assert (Reconcile c s = (Err ErrDoQ, set_cfg (set_DoQEnabled false c) (set_net l (set_cfg c s)))) as E.
  { unfold doq_agrees, serves in Hq. rewrite HQ0, andb_false_r in Hq. apply bool_decide_eq_false, eq_None_not_Some in Hq.
    unfold Reconcile, bind, gets, modify, bindE, reconcile_one, or_else, startDoQLocked, start_one, listen, bindE, bind, gets, ret.
    cbn. rewrite HQ, HQ0. cbn. rewrite Hq, HT. cbn. by rewrite Hnet. }
  rewrite E. split; [done|].
  assert (stranded (DoH3Enabled c) (set_cfg (set_DoQEnabled false c) (set_net l (set_cfg c s)))) as HS.
  { split; [done|]. split; [done|]. cbn. unfold doh3_agrees, serves in Hh. rewrite Hh, HT0. cbn.
    by destruct (DoH3Enabled c), (DoH3Enabled (cfg s)). }
  cbn [snd]. revert HS. generalize (set_cfg (set_DoQEnabled false c) (set_net l (set_cfg c s))) as s1.
  induction Hcs as [|c' cs [Hc1 Hc2] _ IH]; intros s1 HS.
  - cbn. rewrite doh3_in_force. destruct HS as (H1 & H2 & H3). unfold doh3_agrees, serves. rewrite H1, H2, H3.
    by destruct (DoH3Enabled c).
  - cbn [foldl]. by apply IH, Reconcile_stranded.
Qed.
End properties.

(** ** Concrete inputs *)
Module Demo.
#[export] Instance tables : Unicode := ascii_tables.

Definition ifs : option (list (bytes * option (list IfAddr))) :=
  Some [(str "eth0", Some [AIPNet (map zb [203; 0; 113; 5]%Z)]);
        (str "WG0", Some [AOther; AIPNet (map zb [127; 0; 0; 1]%Z); AIPNet (map zb [10; 8; 0; 1]%Z)])].

Example binds : DefaultBinds ifs = [str "[::1]:53"; str "10.8.0.1:53"].
Proof. by vm_compute. Qed.

Example wildcards :
  map isWildcardBind [str ":53"; str "0.0.0.0:53"; str "[::]:53"; str "::"; str "[::ffff:0.0.0.0]:53"; str "10.0.0.1:53"]
  = [true; true; true; true; true; false].
Proof. by vm_compute. Qed.

Definition conf (pub dq d3 : bool) : Config :=
  {| BindUDP53 := [str "0.0.0.0:53"; str "10.0.0.1:53"]; BindTCP53 := []; PublicPlainDNSEnabled := pub; TLSConfigs := true;
     DoQEnabled := dq; DoQBind := []; DoH3Enabled := d3; DoH3Bind := [] |}.

Definition evs : list event :=
  [EvStart; EvEntry 0; EvReconcile (conf false true true); EvCrash 0; EvEntry 0; EvShutdown; EvDone 0; EvStart].

Lemma no_public_bind_witness :
  Forall (fun p => isWildcardBind p.1 = false) (udp (run_fd ifs evs (NewFD (conf false false false) [])) ++
    tcp (run_fd ifs evs (NewFD (conf false false false) []))).
Proof. apply no_public_bind; [reflexivity|]. repeat constructor. Defined.

Definition s0 : FD := NewFD (conf false true false) [].
Definition s1 : FD := (Start ifs s0).2.

Lemma start_ok : Start ifs s0 = (Ok tt, s1).
Proof. by vm_compute. Qed.

Lemma Start_all_or_nothing_witness : Forall in_force
  (let st := Status ifs s1 in [st_UDP53 st; st_TCP53 st; st_DoT st; st_DoQ st; st_DoH3 st]).
Proof.
  destruct (Start_all_or_nothing ifs s0 (Ok tt) s1 eq_refl ltac:(repeat split; reflexivity) start_ok)
    as (_ & _ & _ & HF & _). exact HF.
Defined.

(** From here on, the first bind fails. *)
Definition s2 : FD := set_net [false] (Start ifs (NewFD (conf false false false) [])).2.
Definition s3 : FD := (Reconcile (conf false false true) s2).2.

Lemma s2_agrees : agrees s2.
Proof. by vm_compute. Qed.

Lemma reconcile_fails : Reconcile (conf false false true) s2 = (Err ErrDoH3, s3).
Proof. by vm_compute. Qed.

Lemma Reconcile_in_force_witness : DoH3Enabled (cfg s3) = false /\ doh3 s3 = None.
Proof.
  destruct (Reconcile_in_force ifs (conf false false true) s2 (Err ErrDoH3) s3 s2_agrees eq_refl reconcile_fails)
    as (_ & _ & _ & [HC|[HC HN]]); [discriminate HC|rewrite HC; split; [reflexivity|exact HN]].
Defined.

Lemma reconcile_strands_doh3_witness :
  ~ in_force (st_DoH3 (Status ifs (Reconcile (conf false true true) (Reconcile (conf false true true) s2).2).2)).
Proof.
  exact (proj2 (reconcile_strands_doh3 ifs (conf false true true) s2 [] [conf false true true] s2_agrees
    eq_refl eq_refl eq_refl eq_refl eq_refl ltac:(discriminate) ltac:(repeat constructor))).
Defined.

(** A Shutdown that gives up waiting, then a Start: the old task, stopping
    late, closes the listeners of the new one, which then ends without an
    error and is not restarted, while the front door is not degraded. *)
Example late_stop :
  let s := run_fd ifs [EvStart; EvEntry 0; EvShutdown; EvStart; EvEntry 1; EvDone 0; EvReturn 1] s0 in
  started s = true /\ udp s = [] /\ degraded s = false /\ sups s = [Gone; Gone].
Proof. by vm_compute. Qed.
End Demo.
