(* ===== verification/DnsTransports.v ===== *)
(** * The DNS transports

    [internal/frontdoor]: the plain and DoT handlers (handler.go, dot.go),
    DNS over QUIC (doq.go), DNS over HTTPS (doh.go) and the client addresses
    (remoteip.go), in front of [Resolve] of Resolver.v.  A stream is what it
    delivers before it ends; [mime.ParseMediaType] and miekg/dns are
    parameters.  A call of the resolver that waits for an upstream for ever
    has no answer. *)
From S2P Require Import Prelude GoStrings GoNet GoCodec Dns RuleTable Upstream Resolver.
From Stdlib Require Import ZArith Lia.
Local Open Scope Z_scope.

(** ** remoteip.go *)
Inductive NetAddr := TCPAddr (ip : option bytes) | UDPAddr (ip : option bytes) | OtherAddr (text : bytes).

Definition remoteIP (a : option NetAddr) : option bytes :=
  match a with
  | None => None
  | Some (TCPAddr ip) | Some (UDPAddr ip) => ip
  | Some (OtherAddr text) =>
      match SplitHostPort text with Some (host, _) => ParseIP host | None => ParseIP text end
  end.

Definition httpRemoteIP (RemoteAddr : bytes) : option bytes :=
  if RemoteAddr == [] then None
  else match SplitHostPort RemoteAddr with
       | Some (host, _) => ParseIP host
       | None => ParseIP (TrimSpace RemoteAddr)
       end.

Definition doqRemoteIP : option bytes := None.

Definition dnsMessageContentType : bytes := str "application/dns-message".
Definition maxDoHMessageBytes : Z := 65535.
Definition maxDoQMessageBytes : Z := 65535.

Section transports.
Context `{Unicode} `{MiekgDNS}.
Context (ParseMediaType : bytes -> option bytes).
(** What the resolver has in force during a request. *)
Context (tbl : option RuleTable) (u : Upstream) (spoof : option SpoofPolicy).

(** An answer, or none because the resolver still waits. *)
Definition resolved (req : Msg) (client : option bytes) (es : list rc_event) : ST RState (option (option Msg)) :=
  let! o := Resolve tbl u spoof (Some req) client es in
  ret (match o with Replied m _ => Some m | Blocked _ => None end).

(** [servFailReply], [refusedReply] and [isZoneTransfer] of doh.go. *)
Definition doh_servFailReply (req : Msg) : Msg := SetRcode new_Msg req RcodeServerFailure.
Definition doh_refusedReply (req : Msg) : Msg := SetRcode new_Msg req RcodeRefused.
Definition doh_isZoneTransfer (msg : Msg) : bool :=
  existsb (fun q => (Qtype q =? TypeAXFR) || (Qtype q =? TypeIXFR)) (Questions msg).

(** ** handler.go and dot.go *)

(** [ServeDNS]: the message written. *)
Definition ServeDNS (degraded : bool) (addr : option NetAddr) (r : Msg) (es : list rc_event) : ST RState (option Msg) :=
  if degraded then ret (Some (doh_servFailReply r))
  else
    let! o := resolved r (remoteIP addr) es in
    ret (match o with None => None | Some m => Some (default (doh_servFailReply r) m) end).

(** [DoT.handle]. *)
Definition DoT_handle (addr : option NetAddr) (r : Msg) (es : list rc_event) : ST RState (option Msg) :=
  let! o := resolved r (remoteIP addr) es in ret (match o with Some m => m | None => None end).

(** ** doq.go *)
Inductive DoQError := ErrPrefix | ErrZeroLength | ErrBody | ErrUnpackDoQ.

(** [io.ReadFull]. *)
Definition ReadFull (n : Z) (r : bytes) : option (bytes * bytes) :=
  if len r <? n then None else Some (take (Z.to_nat n) r, drop (Z.to_nat n) r).

Definition readDoQMessage (r : bytes) : res DoQError Msg :=
  match ReadFull 2 r with
  | None => Err ErrPrefix
  | Some (hdr, r) =>
      let n := be hdr in
      if n =? 0 then Err ErrZeroLength
      else match ReadFull n r with
           | None => Err ErrBody
           | Some (buf, _) => match Unpack buf with Some m => Ok m | None => Err ErrUnpackDoQ end
           end
  end.

(** [writeDoQMessage]: what reaches the stream; [w1] and [w2] say whether the
    two writes succeed. *)
Definition writeDoQMessage (w1 w2 : bool) (msg : Msg) : bytes :=
  match Pack msg with
  | None => []
  | Some packed =>
      if maxDoQMessageBytes <? len packed then []
      else if negb w1 then []
      else be_bytes 2 (len packed) ++ (if w2 then packed else [])
  end.

(** [handleStream]: what is written on the stream before it is closed. *)
Definition handleStream (w1 w2 : bool) (stream : bytes) (es : list rc_event) : ST RState (option bytes) :=
  match readDoQMessage stream with
  | Err _ => ret (Some [])
  | Ok req =>
      let! o := resolved req doqRemoteIP es in
      ret (match o with
           | None => None
           | Some m => Some (writeDoQMessage w1 w2 (default (doh_servFailReply req) m))
           end)
  end.

(** ** doh.go *)
Record HttpRequest := {
  Method : bytes; ContentType : bytes; HBody : bytes; HBodyFails : bool; QueryDns : bytes; RemoteAddr : bytes
}.

Inductive HttpResponse := HttpError (status : Z) | DnsMessage (body cache : bytes).

Inductive WireError := ErrMediaType | ErrBadRequest.

(** [io.ReadAll(io.LimitReader(body, n))]. *)
Definition read_all (n : Z) (body : bytes) (fails : bool) : option bytes :=
  if n <=? len body then Some (take (Z.to_nat n) body) else if fails then None else Some body.

Definition readPostWire (req : HttpRequest) : res WireError bytes :=
  if negb (ParseMediaType (ContentType req) == Some dnsMessageContentType) then Err ErrMediaType
  else match read_all (maxDoHMessageBytes + 1) (HBody req) (HBodyFails req) with
       | None => Err ErrBadRequest
       | Some data => if (len data =? 0) || (maxDoHMessageBytes <? len data) then Err ErrBadRequest else Ok data
       end.

Definition readGetWire (req : HttpRequest) : res WireError bytes :=
  let q := QueryDns req in
  if q == [] then Err ErrBadRequest
  else if maxDoHMessageBytes * 2 <? len q then Err ErrBadRequest
  else match b64_raw_either true q with
       | None => Err ErrBadRequest
       | Some data => if (len data =? 0) || (maxDoHMessageBytes <? len data) then Err ErrBadRequest else Ok data
       end.

(** [RR.Header]. *)
Definition Header (r : RR) : RR_Header :=
  match r with RR_OPT o => opt_hdr o | RR_A h _ | RR_AAAA h _ | RR_OTHER h _ => h end.

(** [minAnswerTTL] and [cacheControlFor]. *)
Definition minAnswerTTL (first : RR) (rest : list RR) : Z :=
  foldl (fun min r => if Ttl (Header r) <? min then Ttl (Header r) else min) (Ttl (Header first)) rest.

Definition cacheControlFor (msg : Msg) : bytes :=
  if Rcode msg =? RcodeSuccess then
    match Answer msg with
    | [] => str "max-age=60"
    | r :: rs => str "max-age=" ++ strconv_Itoa (minAnswerTTL r rs)
    end
  else if Rcode msg =? RcodeNameError then str "max-age=60"
  else str "no-store".

(** [writeDNSMessage]. *)
Definition writeDNSMessage (msg : Msg) : HttpResponse :=
  match Pack msg with None => HttpError 500 | Some packed => DnsMessage packed (cacheControlFor msg) end.

(** [serveHTTP]. *)
Definition doh_answer (wire : bytes) (client : option bytes) (es : list rc_event) : ST RState (option HttpResponse) :=
  match Unpack wire with
  | None => ret (Some (HttpError 400))
  | Some msg =>
      if doh_isZoneTransfer msg then ret (Some (writeDNSMessage (doh_refusedReply msg)))
      else
        let! o := resolved msg client es in
        ret (match o with None => None | Some m => Some (writeDNSMessage (default (doh_servFailReply msg) m)) end)
  end.

Definition serveHTTP (req : HttpRequest) (es : list rc_event) : ST RState (option HttpResponse) :=
  let wire :=
    if Method req == str "POST" then Some (readPostWire req)
    else if Method req == str "GET" then Some (readGetWire req) else None in
  match wire with
  | None => ret (Some (HttpError 405))
  | Some (Err ErrMediaType) => ret (Some (HttpError 415))
  | Some (Err ErrBadRequest) => ret (Some (HttpError 400))
  | Some (Ok wire) => doh_answer wire (httpRemoteIP (RemoteAddr req)) es
  end.

(** ** Specification: the resolver's reply to a message *)
Definition resolver_reply (req : Msg) (client : option bytes) (es : list rc_event) (s : RState) : option Msg :=
  match (Resolve tbl u spoof (Some req) client es s).1 with Replied m _ => m | Blocked _ => None end.

(** ** Lemmas *)

(** A reply comes with a message. *)
Lemma Resolve_replies req client es s m err s' :
  Resolve tbl u spoof (Some req) client es s = (Replied m err, s') -> exists r, m = Some r.
Proof.
  rewrite Resolve_decides. set (s1 := with_metrics _ _).
  assert (forall category, forward u req category es s1 = (Replied m err, s') -> exists r, m = Some r) as HF.
  { intros category E. pose proof (forward_spec u req category es s1) as HS. rewrite E in HS. destruct HS as [_ HS].
    destruct m as [r|]; [by exists r|by destruct err]. }
  destruct (decide_call tbl spoof req client) as [| | | |p ip|]; try (apply HF); intros [= <- _ _]; by eexists.
Qed.

Lemma resolved_spec req client es s :
  (resolved req client es s).1 = Some <$> resolver_reply req client es s /\
  (resolved req client es s).2 = (Resolve tbl u spoof (Some req) client es s).2.
Proof.
  unfold resolved, resolver_reply, bind, ret. destruct (Resolve _ _ _ _ _ _ _) as [o s1] eqn:E. cbn.
  destruct o as [m err|e]; [|done]. apply Resolve_replies in E as [r ->]. done.
Qed.

Lemma bind_resolved {A} req client es s (f : option (option Msg) -> A) :
  (bind (resolved req client es) (fun o => ret (f o)) s).1 = f (Some <$> resolver_reply req client es s).
Proof.
  unfold bind. destruct (resolved req client es s) as [o s1] eqn:E.
  pose proof (resolved_spec req client es s) as [H1 _]. rewrite E in H1. cbn in *. by rewrite H1.
Qed.

Lemma zone_transfer_reply req client es s :
  doh_isZoneTransfer req = true -> resolver_reply req client es s = Some (doh_refusedReply req).
Proof.
  intros HZ. unfold resolver_reply. rewrite Resolve_decides. unfold decide_call. change (isZoneTransfer req) with (doh_isZoneTransfer req).
  by rewrite HZ.
Qed.

Lemma doh_answer_spec wire req client es s :
  Unpack wire = Some req -> (doh_answer wire client es s).1 = writeDNSMessage <$> resolver_reply req client es s.
Proof.
  intros HU. unfold doh_answer. rewrite HU. destruct (doh_isZoneTransfer req) eqn:EZ.
  - by rewrite (zone_transfer_reply req client es s EZ).
  - rewrite bind_resolved. by destruct (resolver_reply req client es s).
Qed.

Lemma post_wire req wire :
  ParseMediaType (ContentType req) = Some dnsMessageContentType -> HBody req = wire -> 1 <= len wire <= 65535 ->
  readPostWire req = Ok wire \/ HBodyFails req = true.
Proof.
  intros HC HB HL. destruct (HBodyFails req) eqn:EF; [by right|left]. unfold readPostWire. rewrite HC, bool_decide_true by done.
  cbn [negb]. unfold read_all. rewrite EF, HB. unfold maxDoHMessageBytes. rewrite (proj2 (Z.leb_gt _ _)) by lia.
  rewrite (proj2 (Z.eqb_neq _ _)), (proj2 (Z.ltb_ge _ _)) by lia. done.
Qed.

Lemma b64_encode_len url b : 3 * len (b64_encode url b) <= 4 * len b + 8.
Proof.
  induction b as [b IH] using (induction_ltof1 _ (@length byte)). unfold ltof in IH.
  destruct b as [|x [|y [|z rest]]]; cbn [b64_encode]; autorewrite with golen; [lia..|].
  specialize (IH rest ltac:(cbn; lia)). lia.
Qed.

Lemma b64_raw_encode_len url b : 3 * len (b64_raw_encode url b) <= 4 * len b + 8.
Proof.
  induction b as [b IH] using (induction_ltof1 _ (@length byte)). unfold ltof in IH.
  destruct b as [|x [|y [|z rest]]]; cbn [b64_raw_encode]; autorewrite with golen; [lia..|].
  specialize (IH rest ltac:(cbn; lia)). lia.
Qed.

Lemma get_wire req wire :
  QueryDns req = b64_raw_encode true wire \/ QueryDns req = b64_encode true wire -> 1 <= len wire <= 65535 ->
  readGetWire req = Ok wire.
Proof.
  intros HQ HL. assert (b64_raw_either true (QueryDns req) = Some wire) as HD
    by (destruct (b64_raw_either_ok true wire); by destruct HQ as [-> | ->]).
  unfold readGetWire, maxDoHMessageBytes. rewrite HD.
  assert (QueryDns req <> []) as Hne.
  { destruct wire as [|a [|b [|c w]]]; [change (1 <= 0 <= 65535) in HL; lia|..]; by destruct HQ as [-> | ->]. }
  rewrite (bool_decide_eq_false_2 (QueryDns req = [])) by done.
  assert (len (QueryDns req) <= 65535 * 2) as Hlen.
  { destruct HQ as [-> | ->]; [pose proof (b64_raw_encode_len true wire)|pose proof (b64_encode_len true wire)]; lia. }
  rewrite (proj2 (Z.ltb_ge _ _)) by lia. rewrite (proj2 (Z.eqb_neq (len wire) 0)), (proj2 (Z.ltb_ge _ _)) by lia. done.
Qed.

Lemma ReadFull_app (a b : bytes) n : len a = n -> ReadFull n (a ++ b) = Some (a, b).
Proof.
  intros <-. unfold ReadFull. rewrite len_app, (proj2 (Z.ltb_ge _ _)) by (pose proof (len_nonneg b); lia). unfold len.
  by rewrite Nat2Z.id, take_app_length, drop_app_length.
Qed.

Lemma readDoQMessage_framed wire rest req :
  1 <= len wire <= 65535 -> Unpack wire = Some req -> readDoQMessage (be_bytes 2 (len wire) ++ wire ++ rest) = Ok req.
Proof.
  intros HL HU. unfold readDoQMessage. rewrite ReadFull_app by apply be_bytes_len. cbn beta iota.
  rewrite be_be_bytes, Z.mod_small by (change (256 ^ Z.of_nat 2) with 65536; lia).
  rewrite (proj2 (Z.eqb_neq _ _)) by lia. by rewrite ReadFull_app, HU.
Qed.

Lemma handleStream_spec w1 w2 stream req es s :
  readDoQMessage stream = Ok req ->
  (handleStream w1 w2 stream es s).1 = writeDoQMessage w1 w2 <$> resolver_reply req None es s.
Proof.
  intros HR. unfold handleStream. rewrite HR, bind_resolved. by destruct (resolver_reply _ _ _ _).
Qed.

(** ** Specification: the replies on the wire *)

(** RFC 9250: two bytes of length, then the message; nothing when it does not
    fit. *)
Definition doq_reply (m : Msg) (out : bytes) : Prop :=
  match Pack m with
  | Some p => if len p <=? 65535 then exists hi lo, be [hi; lo] = len p /\ out = hi :: lo :: p else out = []
  | None => out = []
  end.

(** How long an answer may be cached: a successful one with answers for the
    least TTL among them, an empty one or a name error for sixty seconds, any
    other not at all. *)
Definition cacheable (m : Msg) (cache : bytes) : Prop :=
  if Rcode m =? RcodeSuccess then
    match Answer m with
    | [] => cache = str "max-age=60"
    | _ => exists t, cache = str "max-age=" ++ strconv_Itoa t /\
        (exists r, r ∈ Answer m /\ t = Ttl (Header r)) /\ Forall (fun r => t <= Ttl (Header r)) (Answer m)
    end
  else if Rcode m =? RcodeNameError then cache = str "max-age=60"
  else cache = str "no-store".

(** RFC 8484: the message is the body. *)
Definition doh_reply (m : Msg) (r : HttpResponse) : Prop :=
  match Pack m with
  | Some p => exists cache, r = DnsMessage p cache /\ cacheable m cache
  | None => r = HttpError 500
  end.

(** What a transport gives for the resolver's reply, or nothing while there is
    none. *)
Definition conveys {A} (P : Msg -> A -> Prop) (reply : option Msg) (out : option A) : Prop :=
  match reply, out with Some m, Some x => P m x | None, None => True | _, _ => False end.

Lemma foldl_min_ttl rs m0 :
  let m := foldl (fun min r => if Ttl (Header r) <? min then Ttl (Header r) else min) m0 rs in
  m <= m0 /\ Forall (fun r => m <= Ttl (Header r)) rs /\ (m = m0 \/ exists r, r ∈ rs /\ m = Ttl (Header r)).
Proof.
  revert m0. induction rs as [|r rs IH]; intros m0; cbn [foldl]; [by repeat split; [lia|constructor|left]|].
  destruct (Z.ltb_spec (Ttl (Header r)) m0) as [Hlt|Hge].
  - destruct (IH (Ttl (Header r))) as (H1 & H2 & H3). split; [lia|]. split; [by constructor|]. right.
    destruct H3 as [->|(r' & Hr & ->)]; [exists r|exists r']; (split; [set_solver|done]).
  - destruct (IH m0) as (H1 & H2 & H3). split; [lia|]. split; [constructor; [lia|done]|].
    destruct H3 as [->|(r' & Hr & ->)]; [by left|right; exists r'; split; [set_solver|done]].
Qed.

Lemma cacheControlFor_cacheable m : cacheable m (cacheControlFor m).
Proof.
  unfold cacheable, cacheControlFor. destruct (Rcode m =? RcodeSuccess); [|by destruct (_ =? _)].
  destruct (Answer m) as [|r rs]; [done|]. exists (minAnswerTTL r rs). split; [done|]. unfold minAnswerTTL.
  destruct (foldl_min_ttl rs (Ttl (Header r))) as (H1 & H2 & H3). split; [|by constructor].
  destruct H3 as [->|(r' & Hr & ->)]; [exists r|exists r']; (split; [set_solver|done]).
Qed.

Lemma writeDoQ_conveys o : conveys doq_reply o (writeDoQMessage true true <$> o).
Proof.
  destruct o as [m|]; [|done]. cbn. unfold doq_reply, writeDoQMessage, maxDoQMessageBytes. destruct (Pack m) as [p|]; [|done].
  destruct (Z.leb_spec (len p) 65535); [rewrite (proj2 (Z.ltb_ge _ _)) by lia|by rewrite (proj2 (Z.ltb_lt _ _)) by lia].
  pose proof (be_bytes_len 2 (len p)) as HL. pose proof (be_be_bytes 2 (len p)) as HB.
  rewrite Z.mod_small in HB by (change (256 ^ Z.of_nat 2) with 65536; pose proof (len_nonneg p); lia).
  destruct (be_bytes 2 (len p)) as [|hi [|lo [|? l]]]; rewrite ?len_cons, ?len_nil in HL; try lia; [|pose proof (len_nonneg l); lia].
  by exists hi, lo.
Qed.

Lemma writeDNS_conveys o : conveys doh_reply o (writeDNSMessage <$> o).
Proof.
  destruct o as [m|]; [|done]. cbn. unfold doh_reply, writeDNSMessage. destruct (Pack m) as [p|]; [|done].
  eexists. split; [done|]. apply cacheControlFor_cacheable.
Qed.

(** ** Properties *)


End transports.

(** ** Runs *)
Module Demo.
#[local] Existing Instance ascii_tables.
#[local] Existing Instance sample_dns.

Definition wire : bytes := map zb [18; 52].
Definition req : Msg := set_Id new_Msg 4660.
Definition post : HttpRequest :=
  {| Method := str "POST"; ContentType := dnsMessageContentType; HBody := wire; HBodyFails := false; QueryDns := [];
     RemoteAddr := str "172.22.1.2:5353" |}.
Definition get : HttpRequest :=
  {| Method := str "GET"; ContentType := []; HBody := []; HBodyFails := false; QueryDns := str "EjQ";
     RemoteAddr := str "[2001:db8::1]:443" |}.
Definition client_addr : option NetAddr := Some (UDPAddr (ParseIP (str "172.22.1.2"))).
Definition s0 : RState := {| metrics := NewMetrics; forwarded := [] |}.

Lemma wire_get : QueryDns get = b64_raw_encode true wire \/ QueryDns get = b64_encode true wire.
Proof. left. by vm_compute. Qed.


(** An empty message is a format error on every transport. *)
Example empty_question :
  Rcode <$> resolver_reply None NewUpstream None req None [] s0 = Some RcodeFormatError.
Proof. by vm_compute. Qed.
End Demo.
