(* ===== verification/Updater.v ===== *)
(** * The updater

    [internal/updater/updater.go]: the checksum of a release body, the
    download of an asset, and the swap of the running binary with its backup,
    its restart and its roll-back, over the host of Host.v.  An HTTP request
    is the response it gets, or none; the JSON decoder of the release and the
    health check are parameters. *)
From S2P Require Import Prelude GoStrings Crypto Host.
From Stdlib Require Import ZArith Lia.
Local Open Scope Z_scope.

Record Asset := { AssetName : bytes; AssetSize : Z; DownloadURL : bytes }.
Record Release := {
  TagName : bytes; ReleaseName : bytes; Draft : bool; Prerelease : bool; ReleaseBody : bytes;
  Assets : list Asset; PublishedAt : bytes
}.

(** A response: its status, the bytes the body delivers, and whether the body
    then ends in an error. *)
Record Response := { StatusCode : Z; Content : bytes; Breaks : bool }.

Inductive UpdErr :=
| ENoResponse | EStatusCode (status : Z) | EDecode | ENoAsset | ENoHash | ECreate | ECopy | EMismatch | EChmod | ERename
| EPaths | EBackup | ERestart | EUnhealthy | EUnit | EUnsupported.

(** [find_hex64] is [FindString] of the expression [([a-fA-F0-9]{64})]. *)
Definition is_hex (b : byte) : bool := bool_decide (is_Some (unhex b)).

Fixpoint find_hex64 (s : bytes) : option bytes :=
  match s with
  | [] => None
  | _ :: s' => if (64 <=? len s) && forallb is_hex (take 64 s) then Some (take 64 s) else find_hex64 s'
  end.

Section updater.
Context `{Unicode}.
Context (GOOS GOARCH : bytes) (umask : Z).
Context (DecodeRelease : bytes -> option Release).

(** [Latest], after the request. *)
Definition Latest (resp : option Response) : res UpdErr Release :=
  match resp with
  | None => Err ENoResponse
  | Some resp =>
      if negb (StatusCode resp =? 200) then Err (EStatusCode (StatusCode resp))
      else match DecodeRelease (Content resp) with Some r => Ok r | None => Err EDecode end
  end.

(** [FindAsset]. *)
Definition FindAsset (r : Release) (needle : bytes) : res UpdErr Asset :=
  let needle := ToLower needle in
  match list_find (fun a => Contains (ToLower (AssetName a)) needle = true) (Assets r) with
  | Some (_, a) => Ok a
  | None => Err ENoAsset
  end.

(** [ExtractSha256]: its loop over the lines. *)
Fixpoint hash_line (lines : list bytes) (assetName : bytes) : option bytes :=
  match lines with
  | [] => None
  | line :: lines =>
      if negb (Contains line assetName) then hash_line lines assetName
      else match find_hex64 line with Some m => Some (ToLower m) | None => hash_line lines assetName end
  end.

Definition ExtractSha256 (body assetName : bytes) : res UpdErr bytes :=
  match hash_line (Split body Byte.x0a) assetName with
  | Some m => Ok m
  | None => match find_hex64 body with Some m => Ok (ToLower m) | None => Err ENoHash end
  end.

Definition ArtifactSuffix : bytes := GOOS ++ str "-" ++ GOARCH.

(** ** Files *)

(** [os.OpenFile] with create and truncate; [os.Create] is at 0666. *)
Definition OpenFile (path : bytes) (mode : Z) : ST Host (res FsErr unit) :=
  sys EIO (fun fs =>
    let perm := match fs !! path with Some f => Perm f | None => Z.land mode (Z.lnot umask) end in
    <[path := {| Body := []; Perm := perm |}]> fs).

Definition Close : ST Host (res FsErr unit) := sys EIO id.

(** [copyFile]: open, open, read and write, close. *)
Definition copyFile (src dst : bytes) : ST Host (res FsErr unit) :=
  let? file := Stat src in
  let? _ := OpenFile dst 493 in
  let! r := (let? _ := sys EIO id in Write dst (Body file)) in
  match r with
  | Err e => let! _ := dropped Close in ret (Err e)
  | Ok _ => Close
  end.

(** [restore]. *)
Definition restore (backup current : bytes) : ST Host (res FsErr unit) :=
  let? _ := Stat backup in Rename backup current.

Abbreviation U A := (ST Host (res UpdErr A)).

(** [Download]. *)
Definition Download (resp : option Response) (dest wantHex : bytes) : U Z :=
  match resp with
  | None => ret (Err ENoResponse)
  | Some resp =>
      if negb (StatusCode resp =? 200) then ret (Err (EStatusCode (StatusCode resp)))
      else
        let tmp := dest ++ str ".dl" in
        let? _ := io (fun _ => ECreate) (OpenFile tmp 438) in
        let! w := Write tmp (Content resp) in
        let! _ := dropped Close in
        if (match w with Ok _ => Breaks resp | Err _ => true end) then let! _ := dropped (Remove tmp) in ret (Err ECopy)
        else
          let got := hex_encode (sha256 (Content resp)) in
          if negb (wantHex == []) && negb (got == ToLower wantHex) then
            let! _ := dropped (Remove tmp) in ret (Err EMismatch)
          else
            let? _ := io (fun _ => EChmod) (Chmod tmp 493) in
            let? _ := io (fun _ => ERename) (Rename tmp dest) in
            ret (Ok (len (Content resp)))
  end.

(** ** The swap *)
Record SwapOptions := {
  CurrentPath : bytes; NewPath : bytes; Unit : bytes;
  HealthCheck : option (Host -> bool)     (* after the delay *)
}.

Definition restart (name : bytes) : ST Host bool :=
  let! r := exec [str "systemctl"; str "restart"; name] in ret r.2.

(** [RestartService]. *)
Definition RestartService (name : bytes) : U unit :=
  if name == [] then ret (Err EUnit)
  else if negb (GOOS == str "linux") then ret (Err EUnsupported)
  else
    let! r := exec [str "systemctl"; str "restart"; str "--no-block"; name] in
    ret (if r.2 : bool then Ok tt else Err ERestart).

(** [Swap]: the restart that follows the rename, and the health check. *)
Definition managed (o : SwapOptions) : bool := negb (Unit o == []) && (GOOS == str "linux").
Definition backup_of (o : SwapOptions) : bytes := CurrentPath o ++ str ".prev".

Definition swap_restart (o : SwapOptions) : U unit :=
  if negb (managed o) then ret (Ok tt)
  else
    let! ok := restart (Unit o) in
    if ok : bool then ret (Ok tt)
    else let! _ := dropped (restore (backup_of o) (CurrentPath o)) in ret (Err ERestart).

Definition swap_health (o : SwapOptions) : U unit :=
  match HealthCheck o with
  | None => ret (Ok tt)
  | Some check =>
      let! healthy := gets check in
      if healthy : bool then ret (Ok tt)
      else
        let! _ := dropped (restore (backup_of o) (CurrentPath o)) in
        let! _ := (if managed o then let! _ := restart (Unit o) in ret tt else ret tt) in
        ret (Err EUnhealthy)
  end.

Definition swap_backup (o : SwapOptions) : U unit :=
  let! st := Stat (CurrentPath o) in
  match st with
  | Err _ => ret (Ok tt)
  | Ok _ => io (fun _ => EBackup) (copyFile (CurrentPath o) (backup_of o))
  end.

Definition Swap (o : SwapOptions) : U unit :=
  if (CurrentPath o == []) || (NewPath o == []) then ret (Err EPaths)
  else
    let? _ := swap_backup o in
    let? _ := io (fun _ => ERename) (Rename (NewPath o) (CurrentPath o)) in
    let? _ := swap_restart o in
    swap_health o.
End updater.

(** ** Specification *)

(** [m] is the first run of 64 hexadecimal digits of [s]. *)
Definition first_hash (s m : bytes) : Prop :=
  len m = 64 /\ forallb is_hex m = true /\
  exists a c, s = a ++ m ++ c /\
    forall a' m' c', s = a' ++ m' ++ c' -> len m' = 64 -> forallb is_hex m' = true -> (length a <= length a')%nat.

(** ** Lemmas: the checksum *)
Lemma find_hex64_here m c : len m = 64 -> forallb is_hex m = true -> find_hex64 (m ++ c) = Some m.
Proof.
  intros HL Hm. destruct m as [|x m]; [by cbn in HL|]. cbn [app find_hex64].
  change (x :: m ++ c) with ((x :: m) ++ c). replace 64%nat with (length (x :: m)) by (unfold len in HL; lia).
  rewrite take_app_length, Hm, len_app, (proj2 (Z.leb_le _ _)); [done|]. pose proof (len_nonneg c). lia.
Qed.

Lemma find_hex64_spec s :
  match find_hex64 s with
  | Some m => first_hash s m
  | None => forall a m c, s = a ++ m ++ c -> len m = 64 -> forallb is_hex m = false
  end.
Proof.
  induction s as [|x s IH].
  - cbn. intros a m c E HL. symmetry in E. apply app_eq_nil in E as [_ E]. apply app_eq_nil in E as [-> _]. by cbn in HL.
  - cbn [find_hex64]. destruct ((64 <=? len (x :: s)) && forallb is_hex (take 64 (x :: s))) eqn:EH.
    + apply andb_true_iff in EH as [HL HM]. apply Z.leb_le in HL.
      assert (len (take 64 (x :: s)) = 64) as HT by (unfold len in *; rewrite length_take; lia).
      split; [done|]. split; [done|]. exists [], (drop 64 (x :: s)). split; [by rewrite app_nil_l, take_drop|].
      intros. cbn. lia.
    + assert (forall a m c, x :: s = a ++ m ++ c -> len m = 64 -> forallb is_hex m = true -> exists a', a = x :: a') as Hne.
      { intros [|y a] m c E HL Hm; [|injection E as -> _; by exists a]. cbn [app] in E.
        assert (take 64 (x :: s) = m) as HT by (rewrite E; replace 64%nat with (length m) by (unfold len in HL; lia); apply take_app_length).
        rewrite HT, Hm, andb_true_r in EH. apply Z.leb_gt in EH. rewrite E, len_app in EH. pose proof (len_nonneg c). lia. }
      destruct (find_hex64 s) as [m|].
      * destruct IH as (HL & HM & a & c & -> & Hmin). split; [done|]. split; [done|]. exists (x :: a), c. split; [done|].
        intros a' m' c' E HL' HM'. destruct (Hne _ _ _ E HL' HM') as [a'' ->]. injection E as E.
        specialize (Hmin _ _ _ E HL' HM'). cbn. lia.
      * intros a m c E HL. destruct (forallb is_hex m) eqn:HM; [|done]. destruct (Hne _ _ _ E HL HM) as [a' ->].
        injection E as E. by rewrite (IH _ _ _ E HL) in HM.
Qed.

Section updater_proofs.
Context `{Unicode}.

Lemma hash_line_spec lines name m :
  hash_line lines name = Some m ->
  exists l1 line l2 raw, lines = l1 ++ line :: l2 /\ Contains line name = true /\ first_hash line raw /\ m = ToLower raw /\
    Forall (fun l => Contains l name = true -> find_hex64 l = None) l1.
Proof.
  induction lines as [|line lines IH]; [done|]. cbn [hash_line].
  assert (hash_line lines name = Some m -> (Contains line name = true -> find_hex64 line = None) ->
    exists l1 line0 l2 raw, line :: lines = l1 ++ line0 :: l2 /\ Contains line0 name = true /\ first_hash line0 raw /\
      m = ToLower raw /\ Forall (fun l => Contains l name = true -> find_hex64 l = None) l1) as HS.
  { intros E Hl. destruct (IH E) as (l1 & line0 & l2 & raw & -> & ? & ? & ? & ?).
    exists (line :: l1), line0, l2, raw. refine (conj eq_refl (conj _ (conj _ (conj _ _)))); try done. by constructor. }
  destruct (Contains line name) eqn:EC; cbn [negb]; [|intros E; by apply HS].
  pose proof (find_hex64_spec line) as HF. destruct (find_hex64 line) as [raw|]; [|intros E; by apply HS].
  intros [= <-]. by exists [], line, lines, raw.
Qed.

(** the checksum that is compared with a download is the first run of 64
    hexadecimal digits of the first line of the release notes that names the
    asset and has one, in lower case; only when no line does, it is the first
    such run of the whole text; without any there is an error. *)
Theorem ExtractSha256_spec body name :
  match ExtractSha256 body name with
  | Ok h =>
      (exists l1 line l2 raw, Split body Byte.x0a = l1 ++ line :: l2 /\ Contains line name = true /\
        first_hash line raw /\ h = ToLower raw /\
        Forall (fun l => Contains l name = true -> find_hex64 l = None) l1) \/
      (Forall (fun l => Contains l name = true -> find_hex64 l = None) (Split body Byte.x0a) /\
        exists raw, first_hash body raw /\ h = ToLower raw)
  | Err e => e = ENoHash /\ forall a m c, body = a ++ m ++ c -> len m = 64 -> forallb is_hex m = false
  end.
Proof.
  unfold ExtractSha256. destruct (hash_line _ name) as [m|] eqn:EL; [left; by apply hash_line_spec|].
  assert (Forall (fun l => Contains l name = true -> find_hex64 l = None) (Split body Byte.x0a)) as HN.
  { revert EL. generalize (Split body Byte.x0a) as lines. induction lines as [|l lines IH]; [constructor|].
    cbn [hash_line]. destruct (Contains l name) eqn:EC; cbn [negb]; [|intros E; constructor; [congruence|auto]].
    destruct (find_hex64 l) eqn:EF; [done|]. intros E. constructor; auto. }
  pose proof (find_hex64_spec body) as HF. destruct (find_hex64 body) as [raw|]; [right; eauto|done].
Qed.
End updater_proofs.

(** ** Lemmas: files *)
Lemma tmp_neq (p q : bytes) : q <> [] -> p ++ q <> p.
Proof. intros Hq E. apply (f_equal length) in E. rewrite length_app in E. destruct q; [done|cbn in E; lia]. Qed.

(** [fs] and [fs'] agree but for the path [p]. *)
Definition same_but (p : bytes) (fs fs' : Files) : Prop := forall q, q <> p -> fs' !! q = fs !! q.

Lemma same_but_refl p fs : same_but p fs fs.
Proof. done. Qed.
Lemma same_but_insert p f fs fs' : same_but p fs fs' -> same_but p fs (<[p := f]> fs').
Proof. intros HS q Hq. rewrite lookup_insert_ne by done. by apply HS. Qed.
Lemma same_but_alter p g fs fs' : same_but p fs fs' -> same_but p fs (alter g p fs').
Proof. intros HS q Hq. rewrite lookup_alter_ne by done. by apply HS. Qed.
Lemma same_but_delete p fs fs' : same_but p fs fs' -> same_but p fs (delete p fs').
Proof. intros HS q Hq. rewrite lookup_delete_ne by done. by apply HS. Qed.
Lemma renamed (a b : bytes) (f : File) (fs : Files) :
  a <> b ->
  (<[b := f]> (delete a fs)) !! b = Some f /\ (<[b := f]> (delete a fs)) !! a = None /\
  (forall q, q <> b -> q <> a -> (<[b := f]> (delete a fs)) !! q = fs !! q).
Proof.
  intros Hab. split; [apply lookup_insert_eq|]. split.
  - rewrite lookup_insert_ne by done. apply lookup_delete_eq.
  - intros q Hb Ha. by rewrite lookup_insert_ne, lookup_delete_ne by done.
Qed.
#[local] Hint Resolve same_but_refl same_but_insert same_but_alter same_but_delete : core.

Section updater_files.
Context `{Unicode}.
Context (GOOS : bytes) (umask : Z).

(** What a download leaves of the files [fs] it started from. *)
Definition downloaded (resp : option Response) (dest want : bytes) (fs : Files) (r : res UpdErr Z) (w' : Host) : Prop :=
  let tmp := dest ++ str ".dl" in
  match r with
  | Ok n =>
      exists resp', resp = Some resp' /\ StatusCode resp' = 200 /\ Breaks resp' = false /\ n = len (Content resp') /\
        (want = [] \/ hex_encode (sha256 (Content resp')) = ToLower want) /\
        files w' !! dest = Some {| Body := Content resp'; Perm := 493 |} /\ files w' !! tmp = None /\
        (forall q, q <> dest -> q <> tmp -> files w' !! q = fs !! q)
  | Err _ => same_but tmp fs (files w')
  end.

Lemma clean_up (e : UpdErr) resp dest want fs w :
  same_but (dest ++ str ".dl") fs (files w) ->
  wp (let! _ := dropped (Remove (dest ++ str ".dl")) in ret (Err e)) (downloaded resp dest want fs) w.
Proof. intros HS. host_step. host_step. host_step; host_step; unfold downloaded; cbn; auto. Qed.

Lemma Download_wp resp dest want w : wp (Download umask resp dest want) (downloaded resp dest want (files w)) w.
Proof.
  assert (dest ++ str ".dl" <> dest) as Hne by (apply tmp_neq; by vm_compute).
  unfold Download. destruct resp as [resp|]; [|by apply wp_ret].
  destruct (Z.eqb_spec (StatusCode resp) 200) as [H200|]; cbn [negb]; [|by apply wp_ret].
  unfold OpenFile, Close. host_step. host_step. host_step; [done|].
  host_step. host_step.
  - host_step. host_step. host_step; apply clean_up; cbn; auto.
  - assert (forall w2, same_but (dest ++ str ".dl") (files w) (files w2) ->
      (exists p, files w2 !! (dest ++ str ".dl") = Some {| Body := Content resp; Perm := p |}) ->
      wp (if Breaks resp then let! _ := dropped (Remove (dest ++ str ".dl")) in ret (Err ECopy)
        else
          if negb (want == []) && negb (hex_encode (sha256 (Content resp)) == ToLower want) then
            let! _ := dropped (Remove (dest ++ str ".dl")) in ret (Err EMismatch)
          else
            let? _ := io (fun _ => EChmod) (Chmod (dest ++ str ".dl") 493) in
            let? _ := io (fun _ => ERename) (Rename (dest ++ str ".dl") dest) in
            ret (Ok (len (Content resp)))) (downloaded (Some resp) dest want (files w)) w2) as HK.
    { intros w2 HS [p Hp].
      destruct (Breaks resp) eqn:EB; [by apply clean_up|].
      destruct (negb (want == []) && _) eqn:EM; [by apply clean_up|].
      host_step. host_step. host_step; [exact HS|].
      host_step. host_step. host_step; [by apply same_but_alter|]. host_step.
      match goal with Hf : files _ !! _ = Some _ |- _ => cbn [files set_faults set_files] in Hf; rewrite lookup_alter_eq, Hp in Hf; injection Hf as <- end.
      cbn [files set_faults set_files].
      destruct (renamed (dest ++ str ".dl") dest {| Body := Content resp; Perm := 493 |}
        (alter (fun f => {| Body := Body f; Perm := 493 |}) (dest ++ str ".dl") (files w2)) Hne) as (R1 & R2 & R3).
      exists resp. split_and!; try done.
      - apply andb_false_iff in EM as [EM|EM]; apply negb_false_iff, bool_decide_eq_true in EM; auto.
      - intros q Hq1 Hq2. cbn [files set_faults set_files]. rewrite R3 by done. rewrite lookup_alter_ne by done. by apply HS. }
    host_step. host_step. host_step; apply HK; cbn [files set_faults set_files];
      [by apply same_but_alter, same_but_insert, same_but_refl|eexists; by rewrite lookup_alter_eq, lookup_insert_eq
      |by apply same_but_alter, same_but_insert, same_but_refl|unfold id; eexists; by rewrite lookup_alter_eq, lookup_insert_eq].
Qed.

(** whatever the server sends and whichever system calls fail, a download
    touches only its temporary file until it is complete: on success the
    destination is the whole body, executable, of the wanted checksum, and the
    temporary file is gone; on an error the destination is what it was. *)
Theorem Download_verified resp dest want w r w' :
  Download umask resp dest want w = (r, w') ->
  let tmp := dest ++ str ".dl" in
  match r with
  | Ok n =>
      exists resp', resp = Some resp' /\ StatusCode resp' = 200 /\ Breaks resp' = false /\ n = len (Content resp') /\
        (want = [] \/ hex_encode (sha256 (Content resp')) = ToLower want) /\
        files w' !! dest = Some {| Body := Content resp'; Perm := 493 |} /\ files w' !! tmp = None /\
        (forall q, q <> dest -> q <> tmp -> files w' !! q = files w !! q)
  | Err _ => same_but tmp (files w) (files w')
  end.
Proof. intros E. exact (wp_elim _ _ _ _ _ (Download_wp resp dest want w) E). Qed.
End updater_files.

(** ** Lemmas: the swap *)
Lemma wp_copy umask src dst f Q w :
  files w !! src = Some f ->
  (forall fs l e, same_but dst (files w) fs -> Q (Err e) (set_faults l (set_files fs w))) ->
  (forall l p, Q (Ok tt) (set_faults l (set_files (<[dst := {| Body := Body f; Perm := p |}]> (files w)) w))) ->
  wp (copyFile umask src dst) Q w.
Proof.
  intros Hf HE HO. unfold copyFile, OpenFile, Close. host_step. host_step.
  - by apply (HE (files w)).
  - by apply (HE (files w)).
  - match goal with Hx : files w !! src = Some ?x |- _ => rewrite Hf in Hx; injection Hx as <- end.
    pose (fs1 := <[dst := {| Body := []; Perm := match files w !! dst with Some f => Perm f | None => Z.land 493 (Z.lnot umask) end |}]> (files w)).
    host_step. host_step; [by apply (HE (files w))|].
    assert (forall l1, wp (let? _ := sys EIO id in Write dst (Body f)) (fun r w2 => match r with
      | Err _ => exists fs, same_but dst (files w) fs /\ exists l2, w2 = set_faults l2 (set_files fs w)
      | Ok _ => exists p l2, w2 = set_faults l2 (set_files (<[dst := {| Body := Body f; Perm := p |}]> (files w)) w)
      end) (set_faults l1 (set_files fs1 w))) as HW.
    { intros l1. host_step. host_step.
      - exists fs1. split; [by apply same_but_insert, same_but_refl|by eexists].
      - host_step; cbn [files set_faults set_files]; unfold id.
        + eexists. split; [|by eexists]. by apply same_but_alter, same_but_insert, same_but_refl.
        + unfold fs1. rewrite alter_insert_eq. by eexists _, _. }
    host_step. eapply wp_mono; [apply HW|]. cbv beta. intros [e|[]] w2 H2.
    + destruct H2 as (fs & HS & l2 & ->). host_step. host_step. host_step; host_step; by apply (HE fs).
    + destruct H2 as (p & l2 & ->). host_step.
      * apply (HE (<[dst := {| Body := Body f; Perm := p |}]> (files w))). by apply same_but_insert, same_but_refl.
      * apply HO.
Qed.

Lemma wp_put_back backup current Q w :
  (forall l e, Q (Err e) (set_faults l w)) ->
  (forall l f, files w !! backup = Some f -> Q (Ok tt) (set_faults l (set_files (<[current := f]> (delete backup (files w))) w))) ->
  wp (restore backup current) Q w.
Proof.
  intros HE HO. unfold restore. host_step. host_step; [apply HE|apply HE|]. host_step; [apply HE|by apply HO].
Qed.

(** *** Which calls failed

    The failures still to come: a call that fails takes one away. *)
Definition failing (c : outcome) : bool := match c with Broken _ => true | Done => false end.
Definition broken (w : Host) : nat := length (filter (fun c => failing c = true) (faults w)).
Definition stat_failed (w : Host) : Prop := exists n l, faults w = Broken n :: l.

Lemma wp_both {A} (m : ST Host A) (P Q : A -> Host -> Prop) w : wp m P w -> wp m Q w -> wp m (fun a w' => P a w' /\ Q a w') w.
Proof. unfold wp. by destruct (m w). Qed.

Lemma call_tracked w :
  wp next_call (fun c w' => match c with Some n => (broken w' < broken w)%nat /\ stat_failed w | None => broken w' = broken w end) w.
Proof.
  destruct w as [fs [|[|n] l] a r]; unfold wp, broken, stat_failed; cbn [next_call faults set_faults]; [done..|].
  rewrite filter_cons_True by done. cbn [length]. split; [lia|by eexists _, _].
Qed.

Lemma stat_tracked path w :
  wp (Stat path) (fun r w' => (broken w' <= broken w)%nat /\
    forall e, r = Err e -> (broken w' < broken w)%nat /\ stat_failed w \/ files w !! path = None) w.
Proof.
  unfold Stat. apply wp_bind. pose proof (call_tracked w) as HT. unfold wp in *.
  assert (files (next_call w).2 = files w) as HF by by destruct w as [fs [|[|n] l] a r].
  destruct (next_call w) as [c w1]. cbn in HF. destruct c as [n|]; unfold ret, gets.
  - split; [lia|]. intros e _. by left.
  - rewrite HF. split; [lia|]. intros e E. right. by destruct (files w !! path).
Qed.

Definition fewer (m : nat) (w : Host) : Prop := (broken w <= m)%nat.

Lemma fewer_call m : keeps (fewer m) next_call.
Proof. apply keeps_of_wp. intros w Hw. eapply wp_mono; [apply call_tracked|]. unfold fewer in *. intros [n|] w'; lia. Qed.

Lemma fewer_sys {E} m (e : E) f : keeps (fewer m) (sys e f).
Proof. unfold sys. apply keeps_bind; [apply fewer_call|]. intros [n|]; [apply keeps_ret|]. apply keeps_bind; [by apply keeps_modify|]. intros. apply keeps_ret. Qed.

Lemma fewer_stat m path : keeps (fewer m) (Stat path).
Proof. unfold Stat. apply keeps_bind; [apply fewer_call|]. intros [n|]; [apply keeps_ret|apply keeps_gets]. Qed.

Lemma fewer_write m path body : keeps (fewer m) (Write path body).
Proof. unfold Write. apply keeps_bind; [apply fewer_call|]. intros [n|]; (apply keeps_bind; [by apply keeps_modify|]; intros; apply keeps_ret). Qed.

Lemma fewer_rename m a b : keeps (fewer m) (Rename a b).
Proof. unfold Rename. apply keeps_bind; [apply fewer_stat|]. intros [e|f]; [apply keeps_ret|]. apply keeps_bind; [by apply keeps_modify|]. intros. apply keeps_ret. Qed.

Lemma fewer_dropped {E A} m (x : ST Host (res E A)) : keeps (fewer m) x -> keeps (fewer m) (dropped x).
Proof. intros Hx. apply keeps_bind; [done|]. intros. apply keeps_ret. Qed.

Lemma fewer_copy m umask src dst : keeps (fewer m) (copyFile umask src dst).
Proof.
  unfold copyFile, OpenFile, Close. apply keeps_bindE; [apply fewer_stat|]. intros f. apply keeps_bindE; [apply fewer_sys|]. intros _.
  apply keeps_bind; [apply keeps_bindE; [apply fewer_sys|intros; apply fewer_write]|].
  intros [e|[]]; [|apply fewer_sys]. apply keeps_bind; [apply fewer_dropped, fewer_sys|]. intros. apply keeps_ret.
Qed.

(** Putting back a backup that is there fails only with a failed call. *)
Lemma put_back_tracked backup current w :
  wp (restore backup current) (fun r w' => (broken w' <= broken w)%nat /\
    forall e, r = Err e -> (broken w' < broken w)%nat \/ files w !! backup = None) w.
Proof.
  unfold restore. apply wp_bindE. eapply wp_mono; [apply wp_both; [apply stat_tracked|]|].
  - apply (wp_stat backup (fun r w' => files w' = files w)); by intros.
  - cbv beta. intros [e|f] w1 [[H1 H2] HF].
    + split; [done|]. intros e' _. destruct (H2 e eq_refl) as [[? _]|]; auto.
    + unfold Rename. apply wp_bind. eapply wp_mono; [apply wp_both; [apply stat_tracked|]|].
      * apply (wp_stat backup (fun r w' => True)); by intros.
      * cbv beta. intros [e|g] w2 [[H3 H4] _]; [apply wp_ret|].
        -- split; [lia|]. intros e' _. destruct (H4 e eq_refl) as [[? _]|]; [left; lia|right; congruence].
        -- apply wp_bind, wp_modify, wp_ret. split; [|done].
           match goal with |- context [broken (set_files ?x ?y)] => change (broken (set_files x y)) with (broken y) end. lia.
Qed.

Section swap.
Context (GOOS : bytes) (umask : Z) (o : SwapOptions).
Abbreviation cur := (CurrentPath o).
Abbreviation bak := (backup_of o).
Abbreviation new := (NewPath o).
Abbreviation argv := [str "systemctl"; str "restart"; Unit o].

(** The binary a roll-back leaves: the old one; or the new one, when a system
    call failed; or what the backup held before, when the stat failed with
    which the swap starts. *)
Definition rolled (w0 : Host) (f g b : File) (w' : Host) : Prop :=
  Body b = Body f \/ (b = g /\ (broken w' < broken w0)%nat) \/ (files w0 !! bak = Some b /\ stat_failed w0).

(** What a swap leaves, from the host [w0] and the history [hist]. *)
Definition swapped (w0 : Host) (hist : list (list bytes * Files)) (f g : File) (r : res UpdErr unit) (w' : Host) : Prop :=
  exists b, files w' !! cur = Some b /\
  match r with
  | Ok _ =>
      b = g /\ files w' !! new = None /\
      (forall check, HealthCheck o = Some check -> exists w1, check w1 = true /\ files w1 = files w') /\
      (managed GOOS o = true -> ran w' = (argv, files w') :: hist)
  | Err (EBackup | ERename) => b = f /\ files w' !! new = Some g /\ ran w' = hist
  | Err ERestart =>
      managed GOOS o = true /\ rolled w0 f g b w' /\ exists fs1, ran w' = (argv, fs1) :: hist /\ fs1 !! cur = Some g
  | Err EUnhealthy =>
      rolled w0 f g b w' /\
      (exists check w1, HealthCheck o = Some check /\ check w1 = false /\ files w1 !! cur = Some g) /\
      (managed GOOS o = true -> exists hist', ran w' = (argv, files w') :: hist')
  | Err _ => False
  end.

(** The host once the new binary is in place. *)
Definition installed (w0 : Host) (f g : File) (w2 : Host) : Prop :=
  files w2 !! cur = Some g /\ files w2 !! new = None /\ (broken w2 <= broken w0)%nat /\
  match files w2 !! bak with
  | Some b => Body b = Body f \/ (files w0 !! bak = Some b /\ stat_failed w0)
  | None => (broken w2 < broken w0)%nat
  end.

Lemma bak_cur : bak <> cur.
Proof. unfold backup_of. apply tmp_neq. by vm_compute. Qed.

(** The roll-back. *)
Lemma roll_back w0 f g (Q : unit -> Host -> Prop) w :
  installed w0 f g w ->
  (forall w' b, files w' !! cur = Some b -> rolled w0 f g b w' -> ran w' = ran w -> Q tt w') ->
  wp (dropped (restore bak cur)) Q w.
Proof.
  intros (Hc & _ & HB & Hb) HQ. host_step. eapply wp_mono; [apply wp_both; [apply put_back_tracked|]|].
  - apply (wp_put_back bak cur (fun r w' => ran w' = ran w /\ match r with
      | Err _ => files w' = files w | Ok _ => exists b, files w !! bak = Some b /\ files w' !! cur = Some b end)); [done|].
    intros l b E. split; [done|]. exists b. split; [done|]. apply lookup_insert_eq.
  - cbv beta. intros r w' [[H1 H2] [HR H3]]. destruct r as [e|[]].
    + apply (HQ w' g); [by rewrite H3| |done]. right; left. split; [done|]. destruct (H2 e eq_refl) as [?|E]; [lia|]. rewrite E in Hb. lia.
    + destruct H3 as (b & E & E'). apply (HQ w' b); [done| |done]. rewrite E in Hb. destruct Hb as [?|?]; [by left|by right; right].
Qed.

Lemma wp_restart_unit name Q w :
  (forall ok l, Q ok {| files := files w; faults := faults w; answers := l;
     ran := ([str "systemctl"; str "restart"; name], files w) :: ran w |}) -> wp (restart name) Q w.
Proof. intros HQ. unfold restart. host_step. host_step. host_step. apply HQ. Qed.

Lemma swap_restart_spec w0 f g w :
  installed w0 f g w ->
  wp (swap_restart GOOS o) (fun r w' => match r with
    | Ok _ => installed w0 f g w' /\ (if managed GOOS o then ran w' = (argv, files w') :: ran w else ran w' = ran w)
    | Err _ => swapped w0 (ran w) f g r w'
    end) w.
Proof.
  intros HI. unfold swap_restart. destruct (managed GOOS o) eqn:EM; cbn [negb]; [|by host_step].
  host_step. apply wp_restart_unit. intros [|] l; [by host_step|]. host_step.
  eapply (roll_back w0 f g); [exact HI|]. cbn [ran]. intros w' b Hb HR Hran. host_step. exists b. split; [done|].
  split; [done|]. split; [done|]. rewrite Hran. eexists. split; [done|]. by destruct HI as (? & _).
Qed.

Lemma swap_health_spec w0 hist f g w :
  installed w0 f g w -> (managed GOOS o = true -> ran w = (argv, files w) :: hist) ->
  wp (swap_health GOOS o) (swapped w0 hist f g) w.
Proof.
  intros HI Hran. pose proof HI as (Hc & Hn & _). unfold swap_health. destruct (HealthCheck o) as [check|] eqn:EC.
  - host_step. apply wp_gets. destruct (check w) eqn:ER.
    + host_step. exists g. split; [done|]. split; [done|]. split; [done|]. split; [|done].
      rewrite EC. intros ? [= <-]. by exists w.
    + host_step. eapply (roll_back w0 f g); [exact HI|]. intros w1 b Hb HR _.
      assert (forall w', files w' = files w1 -> faults w' = faults w1 -> (managed GOOS o = true -> exists hist', ran w' = (argv, files w') :: hist') ->
        swapped w0 hist f g (Err EUnhealthy) w') as HF.
      { intros w' E EF Hr. exists b. rewrite E. split; [done|]. split; [|split; [by exists check, w|by rewrite <- E]].
        unfold rolled, broken in *. by rewrite EF. }
      host_step. destruct (managed GOOS o) eqn:EM.
      * host_step. apply wp_restart_unit. intros ok k. host_step. host_step. apply HF; [done|done|]. by eexists.
      * host_step. host_step. by apply HF.
  - host_step. exists g. split; [done|]. split; [done|]. split; [done|]. by rewrite EC.
Qed.

Lemma swap_backup_spec f g w :
  files w !! cur = Some f -> files w !! new = Some g -> new <> bak ->
  wp (swap_backup umask o) (fun r w' => (broken w' <= broken w)%nat /\ ran w' = ran w /\ files w' !! cur = Some f /\ files w' !! new = Some g /\
    match r with
    | Ok _ => match files w' !! bak with
        | Some b => Body b = Body f \/ (files w !! bak = Some b /\ stat_failed w)
        | None => (broken w' < broken w)%nat
        end
    | Err e => e = EBackup
    end) w.
Proof.
  intros Hf Hg Hnb. pose proof bak_cur as Hbc. unfold swap_backup. host_step. eapply wp_mono; [apply wp_both; [apply stat_tracked|]|].
  - apply (wp_stat cur (fun r w' => files w' = files w /\ ran w' = ran w /\ match r with Ok x => x = f | Err e => e = EIO end)); intros; try done.
    + congruence.
    + split; [done|]. split; [done|]. congruence.
  - cbv beta. intros r w1 [[H1 H2] (HF & HR & H3)]. destruct r as [e|x].
    + host_step. rewrite HF. split; [done|]. split; [done|]. split; [done|]. split; [done|].
      destruct (H2 e eq_refl) as [[Hlt Hs]|E]; [|congruence]. destruct (files w !! bak); auto.
    + host_step. eapply wp_mono; [apply wp_both; [exact (keeps_wp _ _ w1 (fewer_copy (broken w) umask cur bak) H1)|]|].
      * apply (wp_copy umask cur bak f (fun r w' => ran w' = ran w /\ files w' !! cur = Some f /\ files w' !! new = Some g /\
            match r with Ok _ => exists p, files w' !! bak = Some {| Body := Body f; Perm := p |} | Err _ => True end)); [by rewrite HF|..].
        -- intros fs1 l1 e HS. cbn. rewrite !HS by done. by rewrite HF, HR, Hf, Hg.
        -- intros l1 p. cbn. rewrite !lookup_insert_ne by done. rewrite HF, HR. repeat split; try done. exists p. apply lookup_insert_eq.
      * cbv beta. intros r w2 [Hle (HR2 & HF2 & HG2 & H4)]. split; [exact Hle|]. split; [done|]. split; [done|]. split; [done|].
        destruct r as [e|[]]; [done|]. destruct H4 as [p ->]. by left.
Qed.

Lemma Swap_wp f g w :
  cur <> [] -> new <> [] -> files w !! cur = Some f -> files w !! new = Some g -> new <> cur -> new <> bak ->
  wp (Swap GOOS umask o) (swapped w (ran w) f g) w.
Proof.
  intros Hc Hn Hf Hg Hnc Hnb. unfold Swap. rewrite (bool_decide_eq_false_2 (cur = [])), (bool_decide_eq_false_2 (new = [])) by done.
  cbn [orb]. host_step. eapply wp_mono; [by apply swap_backup_spec|]. cbv beta. intros r w1 (Hle & Hr1 & Hf1 & Hg1 & HB).
  destruct r as [e|[]]; [subst e; exists f; by rewrite Hf1, Hg1|].
  host_step. host_step. pose proof (renamed new cur g (files w1) Hnc) as (R1 & R2 & R3). pose proof bak_cur as Hbc.
  eapply wp_mono; [apply wp_both; [exact (keeps_wp _ _ w1 (fewer_rename (broken w1) new cur) (le_n _))|]|].
  - apply (wp_rename new cur (fun r w' => ran w' = ran w1 /\ match r with
      | Ok _ => files w' = <[cur := g]> (delete new (files w1)) | Err _ => files w' = files w1 end)); intros; try done.
    split; [done|]. cbn. congruence.
  - cbv beta. unfold fewer. intros r w2 (Hle2 & Hr2 & HF2). destruct r as [e|[]].
    { exists f. rewrite HF2. by rewrite Hf1, Hg1, Hr2. }
    assert (installed w f g w2) as HI.
    { unfold installed. rewrite HF2. split; [exact R1|]. split; [exact R2|]. split; [lia|]. rewrite R3 by done.
      destruct (files w1 !! bak); [exact HB|]. lia. }
    host_step. eapply wp_mono; [by apply (swap_restart_spec w f g)|]. cbv beta. rewrite Hr2, Hr1.
    intros [e|[]] w3 H3; [exact H3|]. destruct H3 as [HI3 Hran]. apply swap_health_spec; [exact HI3|]. intros HM. by rewrite HM in Hran.
Qed.

(** C31: a swap never leaves the service without its binary, whatever system
    calls and commands fail.  On success the new binary is in place, healthy,
    and the unit was last started on it; when the backup or the rename fails
    nothing has changed; when the restart or the health check fails the old
    binary is back, with two exceptions: the new one stays only if a system
    call of the swap failed, and an older backup comes back only if the stat
    of the running binary failed with which the swap starts.  After an
    unhealthy start the unit is restarted on whatever is then in place, but
    after a failed restart it is not: the last restart saw the new binary. *)
Theorem Swap_contract f g w r w' :
  cur <> [] -> new <> [] -> files w !! cur = Some f -> files w !! new = Some g -> new <> cur -> new <> bak ->
  Swap GOOS umask o w = (r, w') ->
  exists b, files w' !! cur = Some b /\
  match r with
  | Ok _ =>
      b = g /\ files w' !! new = None /\
      (forall check, HealthCheck o = Some check -> exists w1, check w1 = true /\ files w1 = files w') /\
      (managed GOOS o = true -> ran w' = (argv, files w') :: ran w)
  | Err (EBackup | ERename) => b = f /\ files w' !! new = Some g /\ ran w' = ran w
  | Err ERestart =>
      managed GOOS o = true /\
      (Body b = Body f \/ (b = g /\ (broken w' < broken w)%nat) \/ (files w !! bak = Some b /\ stat_failed w)) /\
      exists fs1, ran w' = (argv, fs1) :: ran w /\ fs1 !! cur = Some g
  | Err EUnhealthy =>
      (Body b = Body f \/ (b = g /\ (broken w' < broken w)%nat) \/ (files w !! bak = Some b /\ stat_failed w)) /\
      (exists check w1, HealthCheck o = Some check /\ check w1 = false /\ files w1 !! cur = Some g) /\
      (managed GOOS o = true -> exists hist', ran w' = (argv, files w') :: hist')
  | Err _ => False
  end.
Proof. intros Hc Hn Hf Hg Hnc Hnb E. exact (wp_elim _ _ _ _ _ (Swap_wp f g w Hc Hn Hf Hg Hnc Hnb) E). Qed.

(** ** Without system-call failures *)
Lemma no_call w : faults w = [] -> next_call w = (None, w).
Proof. intros E. unfold next_call. by rewrite E. Qed.

Lemma stat_now path w f : faults w = [] -> files w !! path = Some f -> Stat path w = (Ok f, w).
Proof. intros E Hf. unfold Stat, bind, gets. rewrite no_call by done. by rewrite Hf. Qed.

Lemma sys_now {E} (e : E) f w : faults w = [] -> sys e f w = (Ok tt, set_files (f (files w)) w).
Proof. intros E'. unfold sys, bind, modify, ret. by rewrite no_call. Qed.

Lemma rename_now a b w f :
  faults w = [] -> files w !! a = Some f -> Rename a b w = (Ok tt, set_files (<[b := f]> (delete a (files w))) w).
Proof. intros E Hf. unfold Rename, bind. rewrite (stat_now a w f) by done. done. Qed.

Lemma restore_now w f :
  faults w = [] -> files w !! bak = Some f -> restore bak cur w = (Ok tt, set_files (<[cur := f]> (delete bak (files w))) w).
Proof. intros E Hf. unfold restore, bindE, bind. rewrite (stat_now bak w f) by done. by apply rename_now. Qed.

Lemma copy_now src dst w f :
  faults w = [] -> files w !! src = Some f ->
  exists p, copyFile umask src dst w = (Ok tt, set_files (<[dst := {| Body := Body f; Perm := p |}]> (files w)) w).
Proof.
  intros E Hf. eexists. unfold copyFile, OpenFile, Close. unfold bindE, bind. rewrite (stat_now src w f) by done.
  rewrite sys_now by done. rewrite sys_now by done. unfold Write, bind. rewrite no_call by done.
  unfold modify, ret. rewrite sys_now by done. cbn [files set_files]. unfold id. by rewrite alter_insert_eq.
Qed.

Lemma wp_eq {A} (m : ST Host A) a w w1 (Q : A -> Host -> Prop) : m w = (a, w1) -> Q a w1 -> wp m Q w.
Proof. unfold wp. by intros ->. Qed.

(** What is left of a swap that meets no failing system call. *)
Definition outcome_now (f g : File) (r : res UpdErr unit) (w' : Host) : Prop :=
  match r with
  | Ok _ => files w' !! cur = Some g /\ Body <$> files w' !! bak = Some (Body f)
  | Err e => (e = ERestart \/ e = EUnhealthy) /\ Body <$> files w' !! cur = Some (Body f)
  end.

Lemma roll_back_now {A} f p (k : ST Host A) Q w :
  faults w = [] -> files w !! bak = Some {| Body := Body f; Perm := p |} ->
  (forall w', Body <$> files w' !! cur = Some (Body f) -> wp k Q w') ->
  wp (let! _ := dropped (restore bak cur) in k) Q w.
Proof.
  intros HF Hb Hk. host_step. host_step. eapply wp_eq; [by apply restore_now|]. apply Hk. cbn. by rewrite lookup_insert_eq.
Qed.

Lemma after_install_now f g p w :
  faults w = [] -> files w !! cur = Some g -> files w !! bak = Some {| Body := Body f; Perm := p |} ->
  wp (let? _ := swap_restart GOOS o in swap_health GOOS o) (outcome_now f g) w.
Proof.
  intros HF Hc Hb. assert (forall w1, files w1 = files w -> faults w1 = [] -> wp (swap_health GOOS o) (outcome_now f g) w1) as HH.
  { intros w1 E1 F1. unfold swap_health. destruct (HealthCheck o) as [check|].
    - host_step. apply wp_gets. destruct (check w1); [host_step; split; rewrite E1; [done|by rewrite Hb]|].
      apply (roll_back_now f p); [done|by rewrite E1|]. intros w2 H2. host_step. destruct (managed GOOS o).
      + host_step. apply wp_restart_unit. intros ok l. host_step. host_step. split; [by right|exact H2].
      + host_step. host_step. split; [by right|exact H2].
    - host_step. split; rewrite E1; [done|by rewrite Hb]. }
  unfold swap_restart. host_step. destruct (managed GOOS o); cbn [negb]; [|host_step; by apply HH].
  host_step. apply wp_restart_unit. intros [|] l; [host_step; by apply HH|].
  apply (roll_back_now f p); [done|done|]. intros w2 H2. host_step. split; [by left|exact H2].
Qed.

Lemma Swap_now f g w :
  cur <> [] -> new <> [] -> files w !! cur = Some f -> files w !! new = Some g -> new <> cur -> new <> bak ->
  faults w = [] -> wp (Swap GOOS umask o) (outcome_now f g) w.
Proof.
  intros Hc Hn Hf Hg Hnc Hnb HF. pose proof bak_cur as Hbc.
  unfold Swap. rewrite (bool_decide_eq_false_2 (cur = [])), (bool_decide_eq_false_2 (new = [])) by done. cbn [orb].
  destruct (copy_now cur bak w f HF Hf) as [p Ec]. host_step. unfold swap_backup. host_step.
  eapply wp_eq; [by apply stat_now|]. cbv beta iota. host_step. eapply wp_eq; [exact Ec|]. cbv beta iota.
  host_step. host_step. eapply wp_eq; [apply (rename_now new cur _ g); [done|cbn; by rewrite lookup_insert_ne]|].
  cbv beta iota. apply (after_install_now f g p); [done|cbn; apply lookup_insert_eq|cbn].
  rewrite lookup_insert_ne by done. rewrite lookup_delete_ne by done. apply lookup_insert_eq.
Qed.

(** when no system call fails, a failed swap ends with the old binary in
    place - a missing unit, a restart that fails or a service that stays
    unhealthy - and a successful one keeps it as the backup. *)
Theorem Swap_rolls_back f g w r w' :
  cur <> [] -> new <> [] -> files w !! cur = Some f -> files w !! new = Some g -> new <> cur -> new <> bak ->
  faults w = [] -> Swap GOOS umask o w = (r, w') ->
  match r with
  | Ok _ => files w' !! cur = Some g /\ Body <$> files w' !! bak = Some (Body f)
  | Err e => (e = ERestart \/ e = EUnhealthy) /\ Body <$> files w' !! cur = Some (Body f)
  end.
Proof.
  intros Hc Hn Hf Hg Hnc Hnb HF E. exact (wp_elim _ _ _ _ _ (Swap_now f g w Hc Hn Hf Hg Hnc Hnb HF) E).
Qed.
End swap.

(** ** Runs *)
Module Demo.
#[local] Existing Instance ascii_tables.

Definition cur : bytes := str "/usr/local/bin/5gpn".
Definition new : bytes := str "/tmp/5gpn".
Definition old_bin : File := {| Body := str "old"; Perm := 493 |}.
Definition new_bin : File := {| Body := str "new"; Perm := 493 |}.
Definition opts (check : option (Host -> bool)) : SwapOptions :=
  {| CurrentPath := cur; NewPath := new; Unit := str "5gpn.service"; HealthCheck := check |}.
Definition host (l : list outcome) (a : list (bytes * bool)) : Host :=
  {| files := {[cur := old_bin; new := new_bin]}; faults := l; answers := a; ran := [] |}.

(** The server sends the body, then the connection breaks; or it does not. *)
Definition answer (b : bool) : option Response := Some {| StatusCode := 200; Content := str "abc"; Breaks := b |}.
Definition abc_hash : bytes := str "BA7816BF8F01CFEA414140DE5DAE2223B00361A396177A9CB410FF61F20015AD".

Definition d1 : Host := (Download 18 (answer false) new abc_hash (host [] [])).2.

Lemma download_run : Download 18 (answer false) new abc_hash (host [] []) = (Ok 3, d1).
Proof. unfold d1. apply fst_pair. by vm_compute. Qed.

Lemma Download_verified_witness : files d1 !! new = Some {| Body := str "abc"; Perm := 493 |}.
Proof.
  destruct (Download_verified 18 (answer false) new abc_hash (host [] []) (Ok 3) d1 download_run)
    as (resp & [= <-] & _ & _ & _ & _ & Hd & _).
  exact Hd.
Defined.

Definition sick : option (Host -> bool) := Some (fun w => bool_decide (Body <$> files w !! cur = Some (str "old"))).

Definition s1 : Host := (Swap (str "linux") 18 (opts sick) (host [] [])).2.

Lemma swap_run : Swap (str "linux") 18 (opts sick) (host [] []) = (Err EUnhealthy, s1).
Proof. unfold s1. apply fst_pair. by vm_compute. Qed.

Lemma Swap_contract_witness : is_Some (files s1 !! cur).
Proof.
  destruct (Swap_contract (str "linux") 18 (opts sick) old_bin new_bin (host [] []) (Err EUnhealthy) s1
    ltac:(by vm_compute) ltac:(by vm_compute) eq_refl eq_refl ltac:(by vm_compute) ltac:(by vm_compute) swap_run)
    as (b & Hb & _).
  exists b. exact Hb.
Defined.

Lemma Swap_rolls_back_witness : Body <$> files s1 !! cur = Some (str "old").
Proof.
  exact (proj2 (Swap_rolls_back (str "linux") 18 (opts sick) old_bin new_bin (host [] []) (Err EUnhealthy) s1
    ltac:(by vm_compute) ltac:(by vm_compute) eq_refl eq_refl ltac:(by vm_compute) ltac:(by vm_compute) eq_refl swap_run)).
Defined.

(** After a failed restart the old binary is back, but nothing started it. *)
Example restart_not_retried :
  let w' := (Swap (str "linux") 18 (opts None) (host [] [([], false)])).2 in
  (Body <$> files w' !! cur, (fun e => Body <$> e.2 !! cur) <$> ran w') = (Some (str "old"), [Some (str "new")]).
Proof. by vm_compute. Qed.

(** A stat that fails counts as no binary to back up: the backup of an earlier
    update comes back instead of the binary that was running. *)
Definition with_prev : Host :=
  {| files := {[cur := old_bin; new := new_bin; cur ++ str ".prev" := {| Body := str "older"; Perm := 493 |}]};
     faults := [Broken 0]; answers := []; ran := [] |}.

Example stale_backup :
  Body <$> files (Swap (str "linux") 18 (opts (Some (fun _ => false))) with_prev).2 !! cur = Some (str "older").
Proof. by vm_compute. Qed.

(** Without a line of its own, an asset is compared with another's checksum. *)
Example foreign_hash :
  ExtractSha256 (str "5gpn-linux-arm64  " ++ abc_hash) (str "5gpn-linux-amd64") = Ok (ToLower abc_hash).
Proof. by vm_compute. Qed.
End Demo.
