(* ===== verification/Settings.v ===== *)
(** * The panel settings

    [internal/settings]: the store over the panel_settings table (store.go)
    and the overlay on the boot configuration (overlay.go).  A row is the
    JSON text with its audit columns; a statement fails by the next outcome
    of [db_ok] ([false]).  The JSON codec is a parameter, and so is the order
    in which Go ranges over a map. *)
From S2P Require Import Prelude GoStrings.
From Stdlib Require Import ZArith Lia.
Local Open Scope Z_scope.

(** ** Keys *)
Definition KeyServerDomain : bytes := str "server.domain".
Definition KeyServerPanelBind : bytes := str "server.panel_bind".
Definition KeyServerPanelPort : bytes := str "server.panel_port".
Definition KeyTLSACMEEnabled : bytes := str "tls.acme_enabled".
Definition KeyTLSACMEEmail : bytes := str "tls.acme_email".
Definition KeyTGBotToken : bytes := str "tgbot.token".
Definition KeyTGBotAdminChats : bytes := str "tgbot.admin_chat_ids".
Definition KeyWAShimEnabled : bytes := str "washim.enabled".
Definition KeyWAShimListen : bytes := str "washim.listen".
Definition KeyWAShimPort : bytes := str "washim.port".
Definition KeyWAShimBackend : bytes := str "washim.backend".
Definition KeyWAShimWAHost : bytes := str "washim.wa_host".
Definition KeyWAShimAllowCIDR : bytes := str "washim.allow_cidr".
Definition KeyWizardComplete : bytes := str "wizard.complete".
Definition KeyFrontdoorIOSProfileEnabled : bytes := str "frontdoor.ios_profile_enabled".
Definition KeyFrontdoorFallbackDoT : bytes := str "frontdoor.ios_fallback_dot".
Definition KeyFrontdoorPreflightLastAt : bytes := str "frontdoor.preflight_last_at".
Definition KeyFrontdoorPreflightLastError : bytes := str "frontdoor.preflight_last_error".
Definition KeyFrontdoorSpoofEnabled : bytes := str "frontdoor.spoof_enabled".
Definition KeyFrontdoorSpoofScope : bytes := str "frontdoor.spoof_scope".
Definition KeyFrontdoorSpoofServerIP : bytes := str "frontdoor.spoof_server_ip".
Definition KeyFrontdoorSpoofAllowCIDR : bytes := str "frontdoor.spoof_allow_cidr".
Definition KeyFrontdoorSNIForwardEnabled : bytes := str "frontdoor.sni_forward_enabled".
Definition KeyFrontdoorQUICForwardEnabled : bytes := str "frontdoor.quic_forward_enabled".
Definition KeyFrontdoorPanelBackendTCP : bytes := str "frontdoor.panel_backend_tcp".
Definition KeyFrontdoorPanelBackendUDP : bytes := str "frontdoor.panel_backend_udp".
Definition KeyFrontdoorInternalOnlyEnabled : bytes := str "frontdoor.internal_only_enabled".
Definition KeyFrontdoorInternalCIDRs : bytes := str "frontdoor.internal_cidrs".

(** ** The JSON codec *)
Inductive jval := JStr (s : bytes) | JBool (b : bool) | JInt (z : Z) | JInts (l : list Z) | JStrs (l : list bytes).

(** [json.Marshal], and [json.Unmarshal] into each type the code uses. *)
Class JSON := {
  Marshal : jval -> option bytes;
  as_string : bytes -> option bytes;
  as_bool : bytes -> option bool;
  as_int : bytes -> option Z;
  as_ints : bytes -> option (list Z);
  as_strings : bytes -> option (list bytes)
}.

(** What the code relies on; [text] are the strings JSON carries unchanged. *)
Class JSONLaws `{JSON} := {
  text : bytes -> Prop;
  text_ascii s : is_ascii s = true -> text s;
  string_back s : text s -> exists raw, Marshal (JStr s) = Some raw /\ as_string raw = Some s;
  bool_back b : exists raw, Marshal (JBool b) = Some raw /\ as_bool raw = Some b;
  int_back z : -2 ^ 63 <= z < 2 ^ 63 -> exists raw, Marshal (JInt z) = Some raw /\ as_int raw = Some z;
  ints_back l : Forall (fun z => -2 ^ 63 <= z < 2 ^ 63) l ->
    exists raw, Marshal (JInts l) = Some raw /\ as_ints raw = Some l;
  strings_back l : Forall text l -> exists raw, Marshal (JStrs l) = Some raw /\ as_strings raw = Some l
}.

(** ** The store *)
Record Row := { value : bytes; updated_at : Z; updated_by : bytes }.
Record Store := { table : gmap bytes Row; db_ok : list bool; clock : Z }.

Inductive SErr := ErrNotFound | ErrDb | ErrEncode | ErrDecode.

#[export] Instance SErr_eq_dec : EqDecision SErr.
Proof. solve_decision. Defined.

Definition set_table (t : gmap bytes Row) (s : Store) : Store := {| table := t; db_ok := db_ok s; clock := clock s |}.
Definition set_db_ok (l : list bool) (s : Store) : Store := {| table := table s; db_ok := l; clock := clock s |}.

Abbreviation S A := (ST Store (res SErr A)).

(** A driver call. *)
Definition call : S unit := fun s =>
  match db_ok s with
  | false :: l => (Err ErrDb, set_db_ok l s)
  | true :: l => (Ok tt, set_db_ok l s)
  | [] => (Ok tt, s)
  end.

Section store.
Context `{JSON}.
(** The order in which [range] visits a map. *)
Context (range : forall A, gmap bytes A -> list (bytes * A)).

(** [Get]. *)
Definition Get (key : bytes) : S bytes :=
  let? _ := call in
  let! s := gets id in
  ret (match table s !! key with None => Err ErrNotFound | Some r => Ok (value r) end).

(** The statement of [Set] and [SetMany]. *)
Definition upsert (key raw by_ : bytes) : S unit :=
  let? _ := call in
  let! _ := modify (fun s => set_table (<[key := {| value := raw; updated_at := clock s; updated_by := by_ |}]> (table s)) s) in
  ret (Ok tt).

(** [Set], [Delete], [Snapshot]. *)
Definition Set_ (key raw by_ : bytes) : S unit := upsert key raw by_.
Definition Delete (key : bytes) : S unit :=
  let? _ := call in let! _ := modify (fun s => set_table (delete key (table s)) s) in ret (Ok tt).
Definition Snapshot : S (gmap bytes bytes) :=
  let? _ := call in let! s := gets id in ret (Ok (value <$> table s)).

(** [SetMany]: the values are encoded before the transaction begins. *)
Fixpoint encode_all (l : list (bytes * jval)) (encoded : gmap bytes bytes) : res SErr (gmap bytes bytes) :=
  match l with
  | [] => Ok encoded
  | (key, v) :: l =>
      match Marshal v with None => Err ErrEncode | Some raw => encode_all l (<[key := raw]> encoded) end
  end.

Fixpoint write_all (l : list (bytes * bytes)) (by_ : bytes) : S unit :=
  match l with
  | [] => ret (Ok tt)
  | (key, raw) :: l => let? _ := upsert key raw by_ in write_all l by_
  end.

(** Begin ... Commit with the deferred Rollback. *)
Definition tx (m : S unit) : S unit :=
  let? _ := call in
  let! before := gets table in
  let! r := (let? _ := m in call) in
  match r with
  | Ok _ => ret (Ok tt)
  | Err e => let! _ := modify (set_table before) in ret (Err e)
  end.

Definition SetMany (values : gmap bytes jval) (by_ : bytes) : S unit :=
  if bool_decide (values = ∅) then ret (Ok tt)
  else match encode_all (range _ values) ∅ with
       | Err e => ret (Err e)
       | Ok encoded => tx (write_all (range _ encoded) by_)
       end.

(** [GetString], [GetBool], [GetInt]: a missing key is the zero value.
    [GetJSON] tells it apart. *)
Definition typed {A} (decode : bytes -> option A) (zero : res SErr A) (key : bytes) : S A :=
  let! r := Get key in
  ret (match r with
       | Err ErrNotFound => zero
       | Err e => Err e
       | Ok raw => match decode raw with Some v => Ok v | None => Err ErrDecode end
       end).

Definition GetString (key : bytes) : S bytes := typed as_string (Ok []) key.
Definition GetBool (key : bytes) : S bool := typed as_bool (Ok false) key.
Definition GetInt (key : bytes) : S Z := typed as_int (Ok 0) key.
Definition GetJSON {A} (decode : bytes -> option A) (key : bytes) : S A := typed decode (Err ErrNotFound) key.

(** [SetString], [SetBool], [SetInt], [SetJSON]. *)
Definition SetJSON (key : bytes) (v : jval) (by_ : bytes) : S unit :=
  match Marshal v with None => ret (Err ErrEncode) | Some raw => Set_ key raw by_ end.
Definition SetString (key s by_ : bytes) : S unit := SetJSON key (JStr s) by_.
Definition SetBool (key : bytes) (b : bool) (by_ : bytes) : S unit := SetJSON key (JBool b) by_.
Definition SetInt (key : bytes) (z : Z) (by_ : bytes) : S unit := SetJSON key (JInt z) by_.

(** The variable stays as it is when the key is missing
    ([err != nil && !errors.Is(err, ErrNotFound)]). *)
Definition optional {A} (zero : A) (m : S A) : S A :=
  let! r := m in ret (match r with Err ErrNotFound => Ok zero | r => r end).
End store.

(** ** Lemmas *)

(** What the table holds under a key. *)
Definition stored {A} (decode : bytes -> option A) (zero : res SErr A) (key : bytes) (t : gmap bytes Row) : res SErr A :=
  match t !! key with
  | None => zero
  | Some r => match decode (value r) with Some v => Ok v | None => Err ErrDecode end
  end.

Lemma wp_call_db Q s :
  (forall l, Q (Err ErrDb) (set_db_ok l s)) -> (forall l, Q (Ok tt) (set_db_ok l s)) -> wp call Q s.
Proof. intros HE HO. unfold wp, call. destruct s as [t [|[|] l] c]; cbn; [apply (HO [])|apply HO|apply HE]. Qed.

Lemma wp_Get key Q s :
  (forall l, Q (Err ErrDb) (set_db_ok l s)) ->
  (forall l, Q (match table s !! key with None => Err ErrNotFound | Some r => Ok (value r) end) (set_db_ok l s)) ->
  wp (Get key) Q s.
Proof.
  intros HE HO. unfold Get. apply wp_bindE, wp_call_db; intros l; [apply HE|].
  apply wp_bind, wp_gets, wp_ret. apply (HO l).
Qed.

Lemma wp_typed {A} (decode : bytes -> option A) zero key Q s :
  (forall l, Q (Err ErrDb) (set_db_ok l s)) -> (forall l, Q (stored decode zero key (table s)) (set_db_ok l s)) ->
  wp (typed decode zero key) Q s.
Proof.
  intros HE HO. unfold typed, stored in *. apply wp_bind, wp_Get; intros l; [apply wp_ret, HE|].
  apply wp_ret. specialize (HO l). by destruct (table s !! key).
Qed.

Lemma wp_optional {A} (decode : bytes -> option A) zero key Q s :
  (forall l, Q (Err ErrDb) (set_db_ok l s)) -> (forall l, Q (stored decode (Ok zero) key (table s)) (set_db_ok l s)) ->
  wp (optional zero (GetJSON decode key)) Q s.
Proof.
  intros HE HO. apply wp_bind, wp_typed; intros l; [apply wp_ret, HE|]. apply wp_ret. specialize (HO l).
  unfold stored in *. destruct (table s !! key); [|done]. by destruct (decode _).
Qed.

Section store_proofs.
Context `{JSON} (range : forall A, gmap bytes A -> list (bytes * A)).
Context (range_perm : forall A (m : gmap bytes A), range A m ≡ₚ map_to_list m).

Lemma range_spec {A} (m : gmap bytes A) : NoDup (range A m).*1 /\ forall k v, (k, v) ∈ range A m <-> m !! k = Some v.
Proof.
  split; [rewrite range_perm; apply NoDup_fst_map_to_list|]. intros k v. by rewrite range_perm, elem_of_map_to_list.
Qed.

Lemma encode_all_spec l acc m :
  NoDup l.*1 -> encode_all l acc = Ok m ->
  (forall k v, (k, v) ∈ l -> exists raw, Marshal v = Some raw /\ m !! k = Some raw) /\ (forall k, k ∉ l.*1 -> m !! k = acc !! k).
Proof.
  revert acc. induction l as [|[k v] l IH]; intros acc HN E; cbn [encode_all] in E.
  - injection E as <-. split; [intros ? ? Hin; by apply not_elem_of_nil in Hin|done].
  - destruct (Marshal v) as [raw|] eqn:EM; [|done]. apply NoDup_cons in HN as [Hk HN].
    destruct (IH _ HN E) as [HI HO]. split.
    + intros k' v' [[= -> ->]|Hin]%elem_of_cons; [|by apply HI].
      exists raw. split; [done|]. rewrite HO by done. by rewrite lookup_insert_eq.
    + intros k' [Hne Hin]%not_elem_of_cons. rewrite HO by done. by rewrite lookup_insert_ne by done.
Qed.

(** The rows [l] written over [t]. *)
Definition rows_over (l : list (bytes * bytes)) (by_ : bytes) (c : Z) (t : gmap bytes Row) : gmap bytes Row :=
  foldl (fun t p => <[p.1 := {| value := p.2; updated_at := c; updated_by := by_ |}]> t) t l.

Lemma rows_over_spec l by_ c t :
  NoDup l.*1 ->
  (forall k raw, (k, raw) ∈ l -> rows_over l by_ c t !! k = Some {| value := raw; updated_at := c; updated_by := by_ |}) /\
  (forall k, k ∉ l.*1 -> rows_over l by_ c t !! k = t !! k).
Proof.
  revert t. induction l as [|[k raw] l IH]; intros t HN.
  - split; [intros ? ? Hin; by apply not_elem_of_nil in Hin|done].
  - apply NoDup_cons in HN as [Hk HN]. destruct (IH (<[k := {| value := raw; updated_at := c; updated_by := by_ |}]> t) HN) as [HI HO].
    split.
    + intros k' raw' [[= -> ->]|Hin]%elem_of_cons; [|by apply HI]. cbn [rows_over foldl fst snd].
      rewrite HO by done. by rewrite lookup_insert_eq.
    + intros k' [Hne Hin]%not_elem_of_cons. cbn [rows_over foldl fst snd]. rewrite HO by done. by rewrite lookup_insert_ne by done.
Qed.

Lemma wp_upsert key raw by_ Q s :
  (forall l, Q (Err ErrDb) (set_db_ok l s)) ->
  (forall l, Q (Ok tt) (set_db_ok l (set_table (<[key := {| value := raw; updated_at := clock s; updated_by := by_ |}]> (table s)) s))) ->
  wp (upsert key raw by_) Q s.
Proof.
  intros HE HO. apply wp_bindE, wp_call_db; intros l; [apply HE|]. apply wp_bind, wp_modify, wp_ret. apply (HO l).
Qed.

Lemma wp_write_all l by_ Q s :
  (forall k t e, Q (Err e) (set_db_ok k (set_table t s))) ->
  (forall k, Q (Ok tt) (set_db_ok k (set_table (rows_over l by_ (clock s) (table s)) s))) ->
  wp (write_all l by_) Q s.
Proof.
  revert s. induction l as [|[key raw] l IH]; intros s HE HO; cbn [write_all].
  - apply wp_ret. specialize (HO (db_ok s)). by destruct s.
  - apply wp_bindE, wp_upsert; intros k; [apply (HE k (table s))|]. apply IH; [intros k' t e; apply (HE k' t)|intros k'; apply (HO k')].
Qed.

Lemma wp_settings_tx m Q s :
  (forall l e, Q (Err e) (set_db_ok l s)) ->
  (forall s1, table s1 = table s -> clock s1 = clock s ->
    wp m (fun r s2 => exists l t, s2 = set_db_ok l (set_table t s) /\
      (r = Ok tt -> forall l', Q (Ok tt) (set_db_ok l' (set_table t s)))) s1) ->
  wp (tx m) Q s.
Proof.
  intros HE Hm. apply wp_bindE, wp_call_db; intros l; [apply HE|]. apply wp_bind, wp_gets. apply wp_bind, wp_bindE.
  eapply wp_mono; [by apply Hm|]. cbv beta. intros r s2 (l2 & t & -> & HQ).
  assert (forall k e, wp (let! _ := modify (set_table (table s)) in ret (Err e)) Q (set_db_ok k (set_table t s))) as HR.
  { intros k e. apply wp_bind, wp_modify, wp_ret. pose proof (HE k e) as HQ'. by destruct s. }
  destruct r as [e|[]]; [apply HR|]. apply wp_call_db; intros k; [apply HR|]. apply wp_ret. by apply HQ.
Qed.

(** The table after a successful [SetMany]. *)
Definition written (values : gmap bytes jval) (by_ : bytes) (c : Z) (t t' : gmap bytes Row) : Prop :=
  forall k, match values !! k with
    | Some v => exists raw, Marshal v = Some raw /\ t' !! k = Some {| value := raw; updated_at := c; updated_by := by_ |}
    | None => t' !! k = t !! k
    end.

Lemma wp_SetMany values by_ Q s :
  (forall l e, Q (Err e) (set_db_ok l s)) ->
  (forall l t, written values by_ (clock s) (table s) t -> Q (Ok tt) (set_db_ok l (set_table t s))) ->
  wp (SetMany range values by_) Q s.
Proof.
  intros HE HO. unfold SetMany. case_bool_decide as Hv.
  - subst values. apply wp_ret. pose proof (HO (db_ok s) (table s)) as HQ. destruct s. apply HQ.
    intros k. by rewrite lookup_empty.
  - destruct (range_spec values) as [HN HI]. destruct (encode_all _ ∅) as [e|encoded] eqn:EE.
    { apply wp_ret. pose proof (HE (db_ok s) e) as HQ. by destruct s. }
    destruct (encode_all_spec _ _ _ HN EE) as [HM HE']. destruct (range_spec encoded) as [HN2 HI2].
    apply wp_settings_tx; [done|]. intros s1 Ht Hc. apply wp_write_all.
    + intros k t e. exists k, t. split; [|done]. destruct s1, s. cbn in *. by subst.
    + intros k. exists k, (rows_over (range _ encoded) by_ (clock s1) (table s1)). split.
      { clear -Ht Hc. destruct s1, s. cbn in *. by subst. }
      intros _ l'. rewrite Ht, Hc. apply HO.
      destruct (rows_over_spec (range _ encoded) by_ (clock s) (table s) HN2) as [R1 R2]. intros key.
      destruct (values !! key) as [v|] eqn:EV.
      * destruct (HM key v) as (raw & EM & El); [by apply HI|]. exists raw. split; [done|]. by apply R1, HI2.
      * assert (key ∉ (range _ values).*1) as Hnot.
        { intros ([k' v'] & -> & Hin)%list_elem_of_fmap. apply HI in Hin. cbn in EV. congruence. }
        apply R2. intros Hk. apply list_elem_of_fmap in Hk as ([k' raw] & Ek & Hin). cbn in Ek. subst k'.
        apply HI2 in Hin. rewrite (HE' key Hnot) in Hin. by rewrite lookup_empty in Hin.
Qed.
End store_proofs.

(** ** overlay.go *)

(** The part of the boot configuration the overlay touches. *)
Record BootConfig := {
  Domain : bytes; PanelBind : bytes; PanelPort : Z;
  Token : bytes; AdminChatIDs : list Z;
  Listen : bytes; Port : Z; Backend : bytes; WAHost : bytes; AllowCIDR : list bytes
}.

Definition set_Domain v c := {| Domain := v; PanelBind := PanelBind c; PanelPort := PanelPort c; Token := Token c; AdminChatIDs := AdminChatIDs c; Listen := Listen c; Port := Port c; Backend := Backend c; WAHost := WAHost c; AllowCIDR := AllowCIDR c |}.
Definition set_PanelBind v c := {| Domain := Domain c; PanelBind := v; PanelPort := PanelPort c; Token := Token c; AdminChatIDs := AdminChatIDs c; Listen := Listen c; Port := Port c; Backend := Backend c; WAHost := WAHost c; AllowCIDR := AllowCIDR c |}.
Definition set_PanelPort v c := {| Domain := Domain c; PanelBind := PanelBind c; PanelPort := v; Token := Token c; AdminChatIDs := AdminChatIDs c; Listen := Listen c; Port := Port c; Backend := Backend c; WAHost := WAHost c; AllowCIDR := AllowCIDR c |}.
Definition set_Token v c := {| Domain := Domain c; PanelBind := PanelBind c; PanelPort := PanelPort c; Token := v; AdminChatIDs := AdminChatIDs c; Listen := Listen c; Port := Port c; Backend := Backend c; WAHost := WAHost c; AllowCIDR := AllowCIDR c |}.
Definition set_AdminChatIDs v c := {| Domain := Domain c; PanelBind := PanelBind c; PanelPort := PanelPort c; Token := Token c; AdminChatIDs := v; Listen := Listen c; Port := Port c; Backend := Backend c; WAHost := WAHost c; AllowCIDR := AllowCIDR c |}.
Definition set_Listen v c := {| Domain := Domain c; PanelBind := PanelBind c; PanelPort := PanelPort c; Token := Token c; AdminChatIDs := AdminChatIDs c; Listen := v; Port := Port c; Backend := Backend c; WAHost := WAHost c; AllowCIDR := AllowCIDR c |}.
Definition set_Port v c := {| Domain := Domain c; PanelBind := PanelBind c; PanelPort := PanelPort c; Token := Token c; AdminChatIDs := AdminChatIDs c; Listen := Listen c; Port := v; Backend := Backend c; WAHost := WAHost c; AllowCIDR := AllowCIDR c |}.
Definition set_Backend v c := {| Domain := Domain c; PanelBind := PanelBind c; PanelPort := PanelPort c; Token := Token c; AdminChatIDs := AdminChatIDs c; Listen := Listen c; Port := Port c; Backend := v; WAHost := WAHost c; AllowCIDR := AllowCIDR c |}.
Definition set_WAHost v c := {| Domain := Domain c; PanelBind := PanelBind c; PanelPort := PanelPort c; Token := Token c; AdminChatIDs := AdminChatIDs c; Listen := Listen c; Port := Port c; Backend := Backend c; WAHost := v; AllowCIDR := AllowCIDR c |}.
Definition set_AllowCIDR v c := {| Domain := Domain c; PanelBind := PanelBind c; PanelPort := PanelPort c; Token := Token c; AdminChatIDs := AdminChatIDs c; Listen := Listen c; Port := Port c; Backend := Backend c; WAHost := WAHost c; AllowCIDR := v |}.

Section overlay.
Context `{JSON}.

(** The store is read while the configuration is changed in place. *)
Abbreviation OV A := (ST (Store * BootConfig) (res SErr A)).

Definition on_store {A} (m : S A) : OV A := fun w => let '(r, s) := m w.1 in (r, (s, w.2)).

(** One read and one assignment. *)
Definition override {A} `{EqDecision A} (zero : A) (m : S A) (assign : A -> BootConfig -> BootConfig) : OV unit :=
  let? v := on_store m in
  if v == zero then ret (Ok tt)
  else let! _ := modify (fun w => (w.1, assign v w.2)) in ret (Ok tt).

(** [OverlayConfig]. *)
Definition OverlayConfig : OV unit :=
  let? _ := override [] (GetString KeyServerDomain) set_Domain in
  let? _ := override [] (GetString KeyServerPanelBind) set_PanelBind in
  let? _ := override 0 (GetInt KeyServerPanelPort) set_PanelPort in
  let? _ := override [] (GetString KeyTGBotToken) set_Token in
  let? _ := override [] (optional [] (GetJSON as_ints KeyTGBotAdminChats)) set_AdminChatIDs in
  let? _ := override [] (GetString KeyWAShimListen) set_Listen in
  let? _ := override 0 (GetInt KeyWAShimPort) set_Port in
  let? _ := override [] (GetString KeyWAShimBackend) set_Backend in
  let? _ := override [] (GetString KeyWAShimWAHost) set_WAHost in
  override [] (optional [] (GetJSON as_strings KeyWAShimAllowCIDR)) set_AllowCIDR.

(** ** Specification: a non-zero setting wins over the file *)
Definition wins {A} `{EqDecision A} (decode : bytes -> option A) (zero : A) (t : gmap bytes Row) (key : bytes) (file : A) : A :=
  match stored decode (Ok zero) key t with Ok v => if v == zero then file else v | Err _ => file end.

Definition overlays (t : gmap bytes Row) : list (BootConfig -> BootConfig) :=
  [fun c => set_Domain (wins as_string [] t KeyServerDomain (Domain c)) c;
   fun c => set_PanelBind (wins as_string [] t KeyServerPanelBind (PanelBind c)) c;
   fun c => set_PanelPort (wins as_int 0 t KeyServerPanelPort (PanelPort c)) c;
   fun c => set_Token (wins as_string [] t KeyTGBotToken (Token c)) c;
   fun c => set_AdminChatIDs (wins as_ints [] t KeyTGBotAdminChats (AdminChatIDs c)) c;
   fun c => set_Listen (wins as_string [] t KeyWAShimListen (Listen c)) c;
   fun c => set_Port (wins as_int 0 t KeyWAShimPort (Port c)) c;
   fun c => set_Backend (wins as_string [] t KeyWAShimBackend (Backend c)) c;
   fun c => set_WAHost (wins as_string [] t KeyWAShimWAHost (WAHost c)) c;
   fun c => set_AllowCIDR (wins as_strings [] t KeyWAShimAllowCIDR (AllowCIDR c)) c].

Definition overlaid (n : nat) (t : gmap bytes Row) (c : BootConfig) : BootConfig := foldl (fun c f => f c) c (take n (overlays t)).

(** A read of the store, as the overlay uses it. *)
Definition reads {A} (m : S A) (f : gmap bytes Row -> res SErr A) : Prop :=
  forall s, wp m (fun r s' => table s' = table s /\ (r = Err ErrDb \/ r = f (table s))) s.

Lemma reads_typed {A} (decode : bytes -> option A) zero key : reads (typed decode zero key) (stored decode zero key).
Proof. intros s. apply wp_typed; intros l; cbn; auto. Qed.

Lemma reads_optional {A} (decode : bytes -> option A) zero key :
  reads (optional zero (GetJSON decode key)) (stored decode (Ok zero) key).
Proof. intros s. apply wp_optional; intros l; cbn; auto. Qed.

Lemma wp_override {A} `{EqDecision A} (decode : bytes -> option A) zero key m get assign t Q w :
  reads m (stored decode (Ok zero) key) -> (forall c, assign (get c) c = c) -> table w.1 = t ->
  (forall s e, table s = t -> Q (Err e) (s, w.2)) ->
  (forall s, table s = t -> Q (Ok tt) (s, assign (wins decode zero t key (get w.2)) w.2)) ->
  wp (override zero m assign) Q w.
Proof.
  intros Hm Hid Ht HE HO. destruct w as [s c]. apply wp_bindE. unfold on_store, wp at 1. cbn in *.
  pose proof (Hm s) as HW. unfold wp in HW. destruct (m s) as [r s']. destruct HW as [Ht' HR]. cbn.
  rewrite Ht in Ht', HR. destruct r as [e|v]; [by apply HE|]. destruct HR as [|HR]; [done|].
  specialize (HO s' Ht'). unfold wins in HO. rewrite <- HR in HO.
  destruct (v == zero); [apply wp_ret; by rewrite Hid in HO|by apply wp_bind, wp_modify, wp_ret].
Qed.

Definition overlay_result (t : gmap bytes Row) (c : BootConfig) (r : res SErr unit) (w : Store * BootConfig) : Prop :=
  table w.1 = t /\
  match r with
  | Ok _ => w.2 = overlaid 10 t c
  | Err _ => exists n, (n < 10)%nat /\ w.2 = overlaid n t c
  end.

(** The [n]-th field of the overlay, read as [get]. *)
Ltac overlay_field n lem field :=
  eapply wp_override with (get := field);
  [apply lem|by intros []|eassumption || reflexivity|intros ? e ?; split; [done|exists n; split; [lia|done]]|intros ? ?].

Lemma OverlayConfig_wp s c : wp OverlayConfig (overlay_result (table s) c) (s, c).
Proof.
  unfold OverlayConfig.
  apply wp_bindE; overlay_field 0%nat @reads_typed Domain.
  apply wp_bindE; overlay_field 1%nat @reads_typed PanelBind.
  apply wp_bindE; overlay_field 2%nat @reads_typed PanelPort.
  apply wp_bindE; overlay_field 3%nat @reads_typed Token.
  apply wp_bindE; overlay_field 4%nat @reads_optional AdminChatIDs.
  apply wp_bindE; overlay_field 5%nat @reads_typed Listen.
  apply wp_bindE; overlay_field 6%nat @reads_typed Port.
  apply wp_bindE; overlay_field 7%nat @reads_typed Backend.
  apply wp_bindE; overlay_field 8%nat @reads_typed WAHost.
  overlay_field 9%nat @reads_optional AllowCIDR. by split.
Qed.
(** the overlay on the boot configuration: on success every field is the
    stored setting when it is there and not zero, and the file's value
    otherwise; when a read or a decoding fails, the fields are overlaid in
    place up to the failing one and the rest is the file's.  The settings are
    never changed. *)
Theorem OverlayConfig_spec s c r s' c' :
  OverlayConfig (s, c) = (r, (s', c')) ->
  table s' = table s /\
  match r with
  | Ok _ => c' = overlaid 10 (table s) c
  | Err _ => exists n, (n < 10)%nat /\ c' = overlaid n (table s) c
  end.
Proof. intros E. exact (wp_elim _ _ _ _ _ (OverlayConfig_wp s c) E). Qed.
End overlay.

(** SetMany is all or nothing: when it succeeds exactly the given keys
    hold the encodings of their values, stamped with the time and the writer,
    and every other row is the one from before; when an encoding, a statement
    or the commit fails, no row has changed - in whatever order the map is
    visited. *)
Theorem SetMany_atomic `{JSON} (range : forall A, gmap bytes A -> list (bytes * A)) values by_ s r s' :
  (forall A (m : gmap bytes A), range A m ≡ₚ map_to_list m) ->
  SetMany range values by_ s = (r, s') ->
  match r with
  | Ok _ => forall k, match values !! k with
      | Some v => exists raw, Marshal v = Some raw /\
          table s' !! k = Some {| value := raw; updated_at := clock s; updated_by := by_ |}
      | None => table s' !! k = table s !! k
      end
  | Err _ => table s' = table s
  end.
Proof.
  intros Hr E. refine (wp_elim _ (fun r s' => match r with Ok _ => written values by_ (clock s) (table s) (table s') | Err _ => table s' = table s end)
    s r s' _ E). by apply wp_SetMany.
Qed.

(** ** A codec, for the examples *)
Fixpoint pbits (p : positive) : bytes :=
  match p with xH => [Byte.x02] | xO p => Byte.x00 :: pbits p | xI p => Byte.x01 :: pbits p end.

Fixpoint of_bits (b : bytes) : option positive :=
  match b with
  | [] => None
  | x :: b => if x == Byte.x02 then Some 1%positive else p ← of_bits b; Some (if x == Byte.x00 then p~0 else p~1)%positive
  end.

Lemma of_pbits p : of_bits (pbits p) = Some p.
Proof. induction p as [p IH|p IH|]; cbn; rewrite ?IH; done. Qed.

Definition sample_back {A} `{Countable A} (tag : byte) (raw : bytes) : option A :=
  match raw with t :: b => if t == tag then of_bits b ≫= decode else None | [] => None end.

Lemma sample_back_ok {A} `{Countable A} tag (a : A) : sample_back tag (tag :: pbits (encode a)) = Some a.
Proof. unfold sample_back. rewrite bool_decide_true by done. rewrite of_pbits. cbn. apply decode_encode. Qed.

Definition sample_json : JSON := {|
  Marshal := fun v => Some (match v with
    | JStr s => Byte.x73 :: pbits (encode s) | JBool b => Byte.x62 :: pbits (encode b)
    | JInt z => Byte.x69 :: pbits (encode z) | JInts l => Byte.x49 :: pbits (encode l)
    | JStrs l => Byte.x53 :: pbits (encode l) end);
  as_string := sample_back Byte.x73; as_bool := sample_back Byte.x62; as_int := sample_back Byte.x69;
  as_ints := sample_back Byte.x49; as_strings := sample_back Byte.x53
|}.

Program Definition sample_json_laws : @JSONLaws sample_json := {| text := fun _ => True |}.
Next Obligation. done. Qed.
Next Obligation. intros s _. eexists. split; [done|]. apply sample_back_ok. Qed.
Next Obligation. intros b. eexists. split; [done|]. apply sample_back_ok. Qed.
Next Obligation. intros z _. eexists. split; [done|]. apply sample_back_ok. Qed.
Next Obligation. intros l _. eexists. split; [done|]. apply sample_back_ok. Qed.
Next Obligation. intros l _. eexists. split; [done|]. apply sample_back_ok. Qed.

(** The order of [map_to_list] is one an iteration may have. *)
Definition sample_range : forall A, gmap bytes A -> list (bytes * A) := fun A m => map_to_list m.

Lemma sample_range_perm A (m : gmap bytes A) : sample_range A m ≡ₚ map_to_list m.
Proof. done. Qed.

Module Demo.
#[local] Existing Instance sample_json.

Definition s0 : Store := {| table := ∅; db_ok := []; clock := 7 |}.
Definition values : gmap bytes jval := {[KeyServerDomain := JStr (str "a.example"); KeyServerPanelPort := JInt 8443]}.
Definition s1 : Store := (SetMany sample_range values (str "admin") s0).2.

Lemma set_run : SetMany sample_range values (str "admin") s0 = (Ok tt, s1).
Proof. unfold s1. apply fst_pair. by vm_compute. Qed.

Lemma SetMany_atomic_witness :
  exists raw, Marshal (JInt 8443) = Some raw /\
    table s1 !! KeyServerPanelPort = Some {| value := raw; updated_at := 7; updated_by := str "admin" |}.
Proof.
  exact (SetMany_atomic sample_range values (str "admin") s0 (Ok tt) s1 sample_range_perm set_run KeyServerPanelPort).
Defined.

(** The second statement of the transaction fails. *)
Example set_fails :
  table (SetMany sample_range values (str "admin") {| table := ∅; db_ok := [true; true; false]; clock := 7 |}).2 = ∅.
Proof. by vm_compute. Qed.

Definition file : BootConfig :=
  {| Domain := str "panel.local"; PanelBind := str "127.0.0.1"; PanelPort := 9000; Token := []; AdminChatIDs := [];
     Listen := str "0.0.0.0"; Port := 443; Backend := str "127.0.0.1:8443"; WAHost := str "g.whatsapp.net"; AllowCIDR := [] |}.
Definition booted : res SErr unit * (Store * BootConfig) := OverlayConfig (s1, file).

Lemma boot_run : OverlayConfig (s1, file) = (Ok tt, (booted.2.1, booted.2.2)).
Proof. rewrite <- surjective_pairing. apply fst_pair. by vm_compute. Qed.

Lemma OverlayConfig_spec_witness : booted.2.2 = overlaid 10 (table s1) file.
Proof. exact (proj2 (OverlayConfig_spec s1 file (Ok tt) booted.2.1 booted.2.2 boot_run)). Defined.

Example overlaid_fields :
  (Domain booted.2.2, PanelPort booted.2.2, PanelBind booted.2.2) = (str "a.example", 8443, str "127.0.0.1").
Proof. by vm_compute. Qed.
End Demo.
