(* ===== verification/Tgbot.v ===== *)
(** * The Telegram bot

    [internal/tgbot]: the update loop with its whitelist (bot.go), the command
    dispatch (handlers.go, and the menu of handlers_default.go), and the
    manager that replaces the running bot (manager.go).  A handler is the call
    made to it; the validation of a token by Telegram is a parameter.  [From]
    is a pointer: [None] is nil, and dereferencing it panics.  The return of
    Serve and the status update of its goroutine under the lock are one step;
    the cancellation of the manager's root context is not modelled. *)
From S2P Require Import Prelude GoStrings GoNet GoCodec.
From Stdlib Require Import ZArith Lia.
Local Open Scope Z_scope.

(** ** handlers.go *)

(** The methods of [Handlers] with their arguments. *)
Inductive Call :=
| HStart (chat : Z) | HMenu (chat : Z) | HStatus | HListExits | HListRules | HSwitchExit (id : bytes)
| HAddExit (id uri : bytes) | HDeleteExit (id : bytes) | HUptime | HLoadAvg | HMemInfo | HCPUStat | HTCPStat
| HNFConntrack | HRoute | HExitIP | HWireGuard | HDev | HWWW | HJSON | HCancel (chat : Z)
| HAsID (chat : Z) (from : bytes) | HRecordUnauthorized (chat : Z) (from : bytes).

Record Message := { ChatID : Z; From : option bytes; Text : bytes }.

(** What a command leads to: a call, whose text is the reply; a text; or
    nothing. *)
Inductive Reply := RCall (c : Call) | RCurrentExit (c : Call) | RHelp | RUnknown | RNothing.

Definition space : byte := Byte.x20.

(** [Dispatch]. *)
Definition Dispatch (cmd : bytes) (args : list bytes) (msg : Message) : option Reply :=
  if cmd == str "/start" then Some (RCall (HStart (ChatID msg)))
  else if cmd == str "/menu" then Some (RCall (HMenu (ChatID msg)))
  else if cmd == str "/help" then Some RHelp
  else if cmd == str "/status" then Some (RCall HStatus)
  else if cmd == str "/exits" then
    Some (match args with
          | sub :: id :: rest =>
              if sub == str "switch" then RCall (HSwitchExit id)
              else if (sub == str "add") && negb (rest == []) then RCall (HAddExit id (Join rest space))
              else if sub == str "del" then RCall (HDeleteExit id)
              else RCall HListExits
          | _ => RCall HListExits
          end)
  else if cmd == str "/rules" then Some (RCall HListRules)
  else if cmd == str "/a" then Some (RCurrentExit HListExits)
  else if cmd == str "/cancel" then Some (RCall (HCancel (ChatID msg)))
  else if cmd == str "/dev" then Some (RCall HDev)
  else if cmd == str "/id" then match From msg with None => None | Some from => Some (RCall (HAsID (ChatID msg) from)) end
  else if cmd == str "/ip" then Some (RCall HExitIP)
  else if cmd == str "/json" then Some (RCall HJSON)
  else if cmd == str "/loadavg" then Some (RCall HLoadAvg)
  else if cmd == str "/meminfo" then Some (RCall HMemInfo)
  else if cmd == str "/nf_conntrack_count" then Some (RCall HNFConntrack)
  else if cmd == str "/route" then Some (RCall HRoute)
  else if cmd == str "/stat" then Some (RCall HCPUStat)
  else if cmd == str "/tcp" then Some (RCall HTCPStat)
  else if cmd == str "/uptime" then Some (RCall HUptime)
  else if cmd == str "/wireguard" then Some (RCall HWireGuard)
  else if cmd == str "/www" then Some (RCall HWWW)
  else if HasPrefix cmd (str "/") then Some RUnknown
  else Some RNothing.

Definition DispatchCommands : list bytes := map str
  ["/start"; "/menu"; "/help"; "/status"; "/exits"; "/rules";
   "/a"; "/cancel"; "/dev"; "/id"; "/ip";
   "/json"; "/loadavg"; "/meminfo"; "/nf_conntrack_count";
   "/route"; "/stat"; "/tcp"; "/uptime"; "/wireguard"; "/www"]%string.

(** [Menu] of handlers_default.go: the data of its buttons. *)
Definition menu_data : list bytes := map str
  ["status"; "exits"; "rules"; "stat"; "meminfo"; "uptime"; "route"; "tcp"; "wireguard"]%string.

(** ** bot.go *)
Section bot.
Context `{Unicode}.

(** [splitCommand]. *)
Definition splitCommand (text : bytes) : bytes * list bytes :=
  let text :=
    match IndexByte text Byte.x40 with
    | None => text
    | Some idx =>
        if (0 <? idx)%nat && negb (existsb (fun b => b == space) (take idx text)) then
          match IndexByte (drop idx text) space with
          | None => take idx text
          | Some endName => take idx text ++ drop (idx + endName) text
          end
        else text
    end in
  match Fields text with [] => ([], []) | f :: fs => (ToLower f, fs) end.

Definition isPublicCommand (text : bytes) : bool := (splitCommand (TrimSpace text)).1 == str "/id".

(** [allowed]: the whitelist is a map to true. *)
Definition allowed (whitelist : gset Z) (chatID : Z) : bool := bool_decide (chatID ∈ whitelist).

(** [handleMessage] and [handleCallback]: the reply computed. *)
Definition handleMessage (msg : Message) : option Reply :=
  let text := TrimSpace (Text msg) in
  if text == [] then Some RNothing
  else let '(cmd, args) := splitCommand text in Dispatch cmd args msg.

Definition handleCallback (whitelist : gset Z) (message : option Message) (data : bytes) : option Reply :=
  match message with
  | None => Some RNothing
  | Some msg =>
      if negb (allowed whitelist (ChatID msg)) then Some RNothing
      else let '(cmd, args) := splitCommand (str "/" ++ TrimPrefix data (str "/")) in Dispatch cmd args msg
  end.

(** The body of [Serve]'s loop. *)
Inductive Update := UMessage (m : Message) | UCallback (m : option Message) (data : bytes) | UOther.

Definition serve_update (whitelist : gset Z) (u : Update) : option Reply :=
  match u with
  | UOther => Some RNothing
  | UCallback m data => handleCallback whitelist m data
  | UMessage msg =>
      if negb (allowed whitelist (ChatID msg)) && negb (isPublicCommand (Text msg)) then
        match From msg with None => None | Some from => Some (RCall (HRecordUnauthorized (ChatID msg) from)) end
      else handleMessage msg
  end.
End bot.

(** [NewWithContext]: the checks before Telegram is asked. *)
Inductive BotErr := ErrBotDisabled | ErrHandlers | ErrNoAdmins | ErrInit | ErrContext.

Definition NewWithContext (handlers : bool) (getMe : bytes -> bool) (token : bytes) (adminChatIDs : list Z) : res BotErr (gset Z) :=
  if token == [] then Err ErrBotDisabled
  else if negb handlers then Err ErrHandlers
  else if adminChatIDs == [] then Err ErrNoAdmins
  else if negb (getMe token) then Err ErrInit
  else Ok (list_to_set adminChatIDs).

(** [MaskToken]. *)
Definition ellipsis : bytes := [Byte.xe2; Byte.x80; Byte.xa6].
Definition MaskToken (t : bytes) : bytes :=
  if t == [] then [] else if len t <=? 8 then str "***" else take 4 t ++ ellipsis ++ drop (length t - 3) t.

(** ** manager.go *)

(** The goroutine of an activation: its generation, whether its context is
    cancelled, and whether its Serve has returned. *)
Record Serving := { myGen : Z; ctx_done : bool; exited : bool }.

Record Manager := {
  m_token : bytes; m_ids : list Z;
  has_cancel : bool; running : bool; generation : Z;
  bots : list Serving            (* the last one is the one [cancel] ends *)
}.

Definition NewManager : Manager :=
  {| m_token := []; m_ids := []; has_cancel := false; running := false; generation := 0; bots := [] |}.

Definition cancel_last (l : list Serving) : list Serving :=
  alter (fun b => {| myGen := myGen b; ctx_done := true; exited := exited b |}) (pred (length l)) l.

(** [stopLocked]. *)
Definition stopLocked (m : Manager) : Manager :=
  {| m_token := m_token m; m_ids := m_ids m; has_cancel := false; running := false; generation := generation m;
     bots := if has_cancel m then cancel_last (bots m) else bots m |}.

(** [activateLocked]; [generation] is a uint64. *)
Definition activateLocked (token : bytes) (ids : list Z) (m : Manager) : Manager :=
  let g := (generation m + 1) mod 2 ^ 64 in
  {| m_token := token; m_ids := ids; has_cancel := true; running := true; generation := g;
     bots := bots m ++ [{| myGen := g; ctx_done := false; exited := false |}] |}.

(** The end of the goroutine of the [i]-th activation. *)
Definition bot_exit (i : nat) (m : Manager) : Manager :=
  match bots m !! i with
  | None => m
  | Some b =>
      let l := <[i := {| myGen := myGen b; ctx_done := ctx_done b; exited := true |}]> (bots m) in
      if generation m =? myGen b then
        {| m_token := m_token m; m_ids := m_ids m; has_cancel := false; running := false; generation := generation m; bots := l |}
      else
        {| m_token := m_token m; m_ids := m_ids m; has_cancel := has_cancel m; running := running m;
           generation := generation m; bots := l |}
  end.

(** [Status]. *)
Record BotStatus := { bs_Enabled : bool; bs_AdminCount : Z; bs_TokenSet : bool; bs_TokenMasked : bytes }.
Definition ManagerStatus (m : Manager) : BotStatus :=
  {| bs_Enabled := running m; bs_AdminCount := len (m_ids m); bs_TokenSet := negb (m_token m == []);
     bs_TokenMasked := MaskToken (m_token m) |}.

Section manager.
Context (handlers : bool) (getMe : bytes -> bool).

(** [buildCandidate]. *)
Definition buildCandidate (token : bytes) (ids : list Z) : res BotErr (gset Z) := NewWithContext handlers getMe token ids.

(** [Start]. *)
Definition Manager_Start (token : bytes) (ids : list Z) (m : Manager) : res BotErr unit * Manager :=
  if token == [] then (Err ErrBotDisabled, m)
  else match buildCandidate token ids with
       | Err e => (Err e, m)
       | Ok _ => (Ok tt, activateLocked token ids (stopLocked m))
       end.

(** [UpdateWithCommit], with the state [W] its commit changes; [ctx_ok] says
    whether the context is alive at its two tests. *)
Inductive UpdateErr (E : Type) := UBot (e : BotErr) | UCommit (e : E).
Arguments UBot {E} _.
Arguments UCommit {E} _.

Definition swap_bot (token : bytes) (ids : list Z) (m : Manager) : Manager :=
  let m := stopLocked m in
  if token == [] then
    {| m_token := []; m_ids := []; has_cancel := has_cancel m; running := running m; generation := generation m; bots := bots m |}
  else activateLocked token ids m.

Definition UpdateWithCommit {W E} (ctx_ok : bool * bool) (token : bytes) (ids : list Z) (commit : ST W (res E unit)) :
    ST (Manager * W) (res (UpdateErr E) unit) := fun w =>
  if negb ctx_ok.1 then (Err (UBot ErrContext), w)
  else match (if token == [] then Ok ∅ else buildCandidate token ids) with
  | Err e => (Err (UBot e), w)
  | Ok _ =>
      if negb ctx_ok.2 then (Err (UBot ErrContext), w)
      else let '(r, w') := commit w.2 in
           match r with
           | Err e => (Err (UCommit e), (w.1, w'))
           | Ok _ => (Ok tt, (swap_bot token ids w.1, w'))
           end
  end.

(** [Update] and [Stop]. *)
Definition Manager_Update (ctx_ok : bool * bool) (token : bytes) (ids : list Z) (m : Manager) : Manager :=
  (UpdateWithCommit (W := unit) (E := unit) ctx_ok token ids (ret (Ok tt)) (m, tt)).2.1.
Definition Manager_Stop (m : Manager) : Manager := stopLocked m.

Inductive mevent :=
| MStart (token : bytes) (ids : list Z) | MUpdate (ctx_ok : bool * bool) (token : bytes) (ids : list Z) | MStop
| MExit (i : nat).

Definition mstep (m : Manager) (ev : mevent) : Manager :=
  match ev with
  | MStart token ids => (Manager_Start token ids m).2
  | MUpdate ok token ids => Manager_Update ok token ids m
  | MStop => Manager_Stop m
  | MExit i => bot_exit i m
  end.
Definition mrun (evs : list mevent) : Manager := foldl mstep NewManager evs.
End manager.
Arguments UBot {E} _.
Arguments UCommit {E} _.

(** ** Lemmas *)

(** The chat an update comes from. *)
Definition chat_of (u : Update) : option Z :=
  match u with UMessage m => Some (ChatID m) | UCallback m _ => ChatID <$> m | UOther => None end.

Lemma Dispatch_id args msg :
  Dispatch (str "/id") args msg = match From msg with None => None | Some from => Some (RCall (HAsID (ChatID msg) from)) end.
Proof. reflexivity. Qed.

(** ** Properties *)

(** a chat that is not on the whitelist reaches no command of the bot: a
    message makes it at most answer /id with the chat's own number, or record
    the attempt, and a button press does nothing at all.  No handler that
    shows or changes the gateway is ever called for it. *)
Theorem unauthorized_inert `{Unicode} whitelist u c r :
  chat_of u = Some c -> c ∉ whitelist -> serve_update whitelist u = Some r ->
  r = RNothing \/
  exists from, r = RCall (HRecordUnauthorized c from) \/ (r = RCall (HAsID c from) /\ exists m, u = UMessage m /\ isPublicCommand (Text m) = true).
Proof.
  intros HC Hno. assert (allowed whitelist c = false) as HA by (by apply bool_decide_eq_false).
  destruct u as [m|m data|]; [|destruct m as [m|]; [|done]|done]; injection HC as <-; cbn [serve_update].
  - rewrite HA. cbn [negb andb]. destruct (isPublicCommand (Text m)) eqn:EP; cbn [negb].
    + unfold handleMessage. case_bool_decide; [intros [= <-]; by left|]. pose proof EP as EP'. unfold isPublicCommand in EP'.
      destruct (splitCommand (TrimSpace (Text m))) as [cmd args]. cbn in EP'. apply bool_decide_eq_true in EP'. subst cmd.
      rewrite Dispatch_id. destruct (From m) as [from|]; [|done]. intros [= <-]. right. exists from. right. split; [done|]. by exists m.
    + destruct (From m) as [from|]; [|done]. intros [= <-]. right. exists from. by left.
  - unfold handleCallback. rewrite HA. cbn. intros [= <-]. by left.
Qed.

(** the dispatcher and the list of commands it advertises are the same:
    among the words that start with a slash exactly those of DispatchCommands
    lead to a handler or a text of their own, and every button of the menu is
    one of them. *)
Theorem dispatch_total cmd args msg :
  HasPrefix cmd (str "/") = true ->
  (Dispatch cmd args msg = Some RUnknown <-> cmd ∉ DispatchCommands) /\
  Forall (fun data => str "/" ++ data ∈ DispatchCommands) menu_data.
Proof.
  intros HP. split; [|by apply (bool_decide_unpack _); vm_compute]. unfold Dispatch.
  repeat (case_bool_decide as Hc; [subst cmd; split;
    [intros E; exfalso; revert E; (destruct args as [|sub [|id rest]] || destruct (From msg) || idtac); repeat case_match; discriminate
    |intros Hn; exfalso; apply Hn; by apply (bool_decide_unpack _); vm_compute]|]; revert Hc).
  intros. rewrite HP. split; [|done]. intros _ Hin. unfold DispatchCommands in Hin. cbn [map] in Hin.
  repeat (apply elem_of_cons in Hin as [->|Hin]; [congruence|]). by apply not_elem_of_nil in Hin.
Qed.

(** ** The mention of a group chat *)
Lemma IndexByte_none a c : c ∉ a -> IndexByte a c = None.
Proof.
  intros Hc. unfold IndexByte. apply fmap_None, list_find_None, Forall_forall. by intros x Hx ->.
Qed.

Lemma no_space a : space ∉ a -> existsb (fun b => b == space) a = false.
Proof.
  intros Ha. apply not_true_is_false. intros (b & Hin & Hb)%existsb_exists. apply bool_decide_eq_true in Hb as ->.
  by apply list_elem_of_In in Hin.
Qed.

Section mention.
Context `{Unicode}.

Lemma splitCommand_plain (cmd : bytes) (rest : bytes) :
  Byte.x40 ∉ cmd -> (rest = [] \/ exists rest', rest = space :: rest') ->
  splitCommand (cmd ++ rest) = match Fields (cmd ++ rest) with [] => ([], []) | f :: fs => (ToLower f, fs) end.
Proof.
  intros Hc Hr. unfold splitCommand. destruct (IndexByte (cmd ++ rest) Byte.x40) as [idx|] eqn:EI; [|done].
  unfold IndexByte in EI. apply fmap_Some in EI as ([i x] & EI & ->). apply list_find_Some in EI as (Hx & -> & _). cbn [fst].
  assert (length cmd < i)%nat as Hi.
  { destruct (decide (i < length cmd)%nat) as [Hl|Hl].
    - rewrite lookup_app_l in Hx by done. by apply list_elem_of_lookup_2 in Hx.
    - destruct (decide (i = length cmd)) as [->|]; [|lia]. rewrite lookup_app_r, Nat.sub_diag in Hx by lia.
      by destruct Hr as [->|[rest' ->]]. }
  assert (existsb (fun b => b == space) (take i (cmd ++ rest)) = true) as ->; [|by rewrite andb_false_r].
  destruct Hr as [->|[rest' ->]]; [rewrite app_nil_r in Hx; apply lookup_lt_Some in Hx; lia|].
  apply existsb_exists. exists space. split; [|by apply bool_decide_eq_true].
  apply list_elem_of_In. rewrite take_app_ge by lia. destruct (i - length cmd)%nat as [|k] eqn:Ek; [lia|]. cbn. set_solver.
Qed.

(** in a group a command may carry the bot's name: whatever follows, the
    command with the mention is read as the command without it.  (An at sign
    in an argument, as in an exit's URI, is no mention.) *)
Theorem mention_ignored (cmd bot rest : bytes) :
  cmd <> [] -> Byte.x40 ∉ cmd -> space ∉ cmd -> space ∉ bot -> (rest = [] \/ exists rest', rest = space :: rest') ->
  splitCommand (cmd ++ Byte.x40 :: bot ++ rest) = splitCommand (cmd ++ rest).
Proof.
  intros Hne Hc Hs Hb Hr. rewrite (splitCommand_plain cmd rest) by done. unfold splitCommand.
  rewrite IndexByte_app by done. assert ((0 <? length cmd)%nat = true) as -> by (destruct cmd; done).
  rewrite take_app_length, no_space by done. cbn [andb negb]. rewrite drop_app_length.
  destruct Hr as [->|[rest' ->]].
  - rewrite IndexByte_none; [by rewrite app_nil_r|]. rewrite app_nil_r. by (apply not_elem_of_cons; split; [done|]).
  - change (Byte.x40 :: bot ++ space :: rest') with ((Byte.x40 :: bot) ++ space :: rest').
    rewrite IndexByte_app by (apply not_elem_of_cons; by split). rewrite <- drop_drop, drop_app_length, drop_app_length. done.
Qed.
End mention.

(** ** The manager *)
Definition alive (b : Serving) : Prop := ctx_done b = false /\ exited b = false.

(** The state after fewer than 2^64 activations. *)
Record managed (m : Manager) : Prop := {
  m_gen : generation m = len (bots m) /\ len (bots m) < 2 ^ 64;
  m_gens i b : bots m !! i = Some b -> myGen b = Z.of_nat i + 1;
  m_cancel : has_cancel m = running m;
  m_alive i b : bots m !! i = Some b -> alive b -> running m = true /\ S i = length (bots m);
  m_last : running m = true -> exists b, last (bots m) = Some b /\ alive b;
  m_admins : running m = true -> m_token m <> [] /\ m_ids m <> []
}.

Lemma managed_new : managed NewManager.
Proof. by split. Qed.

Lemma last_lookup_len {A} (l : list A) b : last l = Some b -> l !! pred (length l) = Some b.
Proof. by rewrite last_lookup. Qed.

Lemma managed_stop m : managed m -> managed (stopLocked m) /\ length (bots (stopLocked m)) = length (bots m).
Proof.
  intros [[HG HB] HI HC HA HL HT]. unfold stopLocked, cancel_last. destruct (has_cancel m) eqn:EC; cbn [bots].
  - rewrite length_alter. split; [|done]. split; cbn.
    + unfold len. by rewrite length_alter.
    + intros i b. rewrite list_lookup_alter. case_decide; [|apply HI]. subst i.
      intros (b0 & Hb & ->)%fmap_Some. cbn. by apply HI.
    + done.
    + intros i b. rewrite list_lookup_alter. case_decide.
      * intros (b0 & Hb & ->)%fmap_Some [Hd _]. done.
      * intros Hb Ha. destruct (HA i b Hb Ha) as [_ HS]. lia.
    + done.
    + done.
  - split; [|done]. split; cbn; try done. intros i b Hb Ha. destruct (HA i b Hb Ha) as [Hr _]. congruence.
Qed.

Lemma managed_activate token ids m :
  token <> [] -> ids <> [] -> len (bots m) + 1 < 2 ^ 64 -> managed m -> running m = false -> managed (activateLocked token ids m).
Proof.
  intros Ht Hi HB [[HG _] HI HC HA HL HT] Hr. unfold activateLocked. pose proof (len_nonneg (bots m)).
  rewrite HG, Z.mod_small by lia. split; cbn; rewrite ?len_app.
  - split; [done|]. change (len [_]) with 1. lia.
  - intros i b [Hb|[Hge Hb]]%lookup_app_Some; [by apply HI|]. apply list_lookup_singleton_Some in Hb as [Hi' <-]. cbn. unfold len. lia.
  - done.
  - intros i b Hb Ha. split; [done|]. rewrite length_app. cbn. apply lookup_app_Some in Hb as [Hb|[Hge Hb]].
    + destruct (HA i b Hb Ha). congruence.
    + apply list_lookup_singleton_Some in Hb as [Hi' _]. lia.
  - intros _. rewrite last_snoc. by eexists.
  - done.
Qed.

Lemma managed_exit i m : managed m -> managed (bot_exit i m) /\ length (bots (bot_exit i m)) = length (bots m).
Proof.
  intros HM. pose proof HM as [[HG HB] HI HC HA HL HT]. unfold bot_exit. destruct (bots m !! i) as [b|] eqn:Eb; [|done].
  set (l := <[i := _]> (bots m)). assert (length l = length (bots m)) as Hl by apply length_insert.
  assert (forall j b', l !! j = Some b' -> myGen b' = Z.of_nat j + 1) as HI'.
  { intros j b' Hj. unfold l in Hj. apply list_lookup_insert_Some in Hj as [(<- & <- & _)|[_ Hj]]; [|by apply HI]. cbn. by apply HI. }
  assert (forall j b', l !! j = Some b' -> alive b' -> j <> i /\ bots m !! j = Some b') as HA'.
  { intros j b' Hj [_ He]. unfold l in Hj. apply list_lookup_insert_Some in Hj as [(<- & <- & _)|[Hne Hj]]; [done|by split]. }
  pose proof (HI i b Eb) as Hg. pose proof (lookup_lt_Some _ _ _ Eb) as Hlt.
  destruct (Z.eqb_spec (generation m) (myGen b)) as [Eg|Eg]; cbn [bots].
  - split; [|done]. split; cbn; unfold len; rewrite ?Hl; try done.
    intros j b' Hj Ha. destruct (HA' j b' Hj Ha) as [Hne Hj']. destruct (HA j b' Hj' Ha) as [_ HS].
    exfalso. unfold len in HG. lia.
  - split; [|done]. split; cbn; unfold len; rewrite ?Hl; try done.
    + intros j b' Hj Ha. destruct (HA' j b' Hj Ha) as [Hne Hj']. by apply (HA j b').
    + intros Hr. destruct (HL Hr) as (b' & Hb & Ha). exists b'. split; [|done]. rewrite last_lookup in *. rewrite Hl.
      unfold l. rewrite list_lookup_insert_ne; [done|]. unfold len in HG. lia.
Qed.

Section manager_proofs.
Context (handlers : bool) (getMe : bytes -> bool).

Lemma build_ok token ids w : buildCandidate handlers getMe token ids = Ok w -> token <> [] /\ ids <> [].
Proof.
  unfold buildCandidate, NewWithContext. case_bool_decide; [done|]. destruct handlers; [|done]. cbn.
  case_bool_decide; [done|]. by split.
Qed.

Lemma managed_swap token ids m :
  len (bots m) + 1 < 2 ^ 64 -> (token <> [] -> ids <> []) -> managed m ->
  managed (swap_bot token ids m) /\ (length (bots (swap_bot token ids m)) <= S (length (bots m)))%nat.
Proof.
  intros HB Hi HM. destruct (managed_stop m HM) as [HS HL]. unfold swap_bot. case_bool_decide as Ht.
  - split; [|cbn [bots]; lia]. destruct HS as [HG HI HC HA HLa HT]. by split.
  - split; [apply managed_activate; auto; unfold len in *; lia|]. unfold activateLocked. cbn [bots]. rewrite length_app. cbn [length]. lia.
Qed.

Lemma managed_step ev m :
  len (bots m) + 1 < 2 ^ 64 -> managed m ->
  managed (mstep handlers getMe m ev) /\ (length (bots (mstep handlers getMe m ev)) <= S (length (bots m)))%nat.
Proof.
  intros HB HM. destruct ev as [token ids|ok token ids| |i]; cbn [mstep].
  - unfold Manager_Start. case_bool_decide; [split; [done|cbn; lia]|].
    destruct (buildCandidate _ _ token ids) eqn:EB; [split; [done|cbn; lia]|]. apply build_ok in EB as [Ht Hi]. cbn [snd].
    destruct (managed_swap token ids m HB (fun _ => Hi) HM) as [H1 H2]. unfold swap_bot in *. by rewrite bool_decide_false in H1, H2.
  - unfold Manager_Update, UpdateWithCommit. destruct ok as [[|] o2]; cbn [fst snd negb]; [|split; [done|lia]].
    assert (forall w, (if token == [] then Ok ∅ else buildCandidate handlers getMe token ids) = Ok w -> token <> [] -> ids <> []) as HK.
    { intros w. case_bool_decide; [done|]. intros E _. by destruct (build_ok _ _ _ E). }
    destruct (if token == [] then _ else _) as [e|w] eqn:EB; [split; [done|cbn; lia]|].
    destruct o2; cbn [negb ret snd fst]; [|split; [done|cbn; lia]]. apply managed_swap; [done|exact (HK w eq_refl)|done].
  - unfold Manager_Stop. destruct (managed_stop m HM) as [H1 H2]. split; [done|lia].
  - destruct (managed_exit i m HM) as [H1 H2]. split; [done|lia].
Qed.

(** C33: at most one bot answers.  In every sequence of starts, updates, stops
    and bots that end by themselves (fewer than 2^64 - 1 of them), at most
    one Serve goroutine is alive with a live context; the status says
    "enabled" exactly when there is one, and then the manager's token is set
    and its whitelist is not empty. *)
Theorem one_bot evs :
  len evs + 1 < 2 ^ 64 ->
  let m := mrun handlers getMe evs in
  (forall i j b b', bots m !! i = Some b -> bots m !! j = Some b' -> alive b -> alive b' -> i = j) /\
  (bs_Enabled (ManagerStatus m) = true <-> exists i b, bots m !! i = Some b /\ alive b) /\
  (bs_Enabled (ManagerStatus m) = true -> bs_TokenSet (ManagerStatus m) = true /\ 0 < bs_AdminCount (ManagerStatus m)).
Proof.
  intros HL. assert (managed (mrun handlers getMe evs) /\ len (bots (mrun handlers getMe evs)) <= len evs) as [HM _].
  { revert HL. induction evs as [|ev evs IH] using rev_ind; intros HL; [by split; [apply managed_new|]|].
    unfold mrun. rewrite foldl_app. cbn [foldl]. fold (mrun handlers getMe evs). rewrite len_app in *. change (len [ev]) with 1 in *.
    destruct IH as [HM HB]; [lia|]. destruct (managed_step ev (mrun handlers getMe evs)) as [H1 H2]; [lia|done|].
    split; [done|]. unfold len in *. lia. }
  cbv zeta. destruct HM as [_ _ _ HA HLa HT]. split_and!.
  - intros i j b b' Hi Hj Ha Ha'. destruct (HA i b Hi Ha), (HA j b' Hj Ha'). lia.
  - cbn. split; [|intros (i & b & Hi & Ha); by destruct (HA i b Hi Ha)]. intros Hr. destruct (HLa Hr) as (b & Hb & Ha).
    exists (pred (length (bots (mrun handlers getMe evs)))), b. split; [by rewrite <- last_lookup|done].
  - cbn. intros Hr. destruct (HT Hr) as [Ht Hi]. split; [by rewrite bool_decide_false|].
    destruct (m_ids _); [done|]. unfold len. cbn. lia.
Qed.
End manager_proofs.

(** The commit and the swap happen together or not at all. *)
Lemma UpdateWithCommit_spec {W E} handlers getMe ok token ids (commit : ST W (res E unit)) m w r m' w' :
  UpdateWithCommit handlers getMe ok token ids commit (m, w) = (r, (m', w')) ->
  match r with
  | Ok _ => commit w = (Ok tt, w') /\ m_token m' = token /\ running m' = negb (token == []) /\
      (token <> [] -> m_ids m' = ids)
  | Err (UCommit e) => commit w = (Err e, w') /\ m' = m
  | Err (UBot e) => w' = w /\ m' = m
  end.
Proof.
  unfold UpdateWithCommit. destruct ok as [[|] o2]; cbn [fst snd negb]; [|by intros [= <- <- <-]].
  destruct (if token == [] then _ else _) as [e|wl]; [by intros [= <- <- <-]|]. destruct o2; cbn [negb]; [|by intros [= <- <- <-]].
  destruct (commit w) as [[e|[]] w1]; intros [= <- <- <-]; [done|]. split; [done|]. unfold swap_bot.
  case_bool_decide; [by subst|]. cbn. by split.
Qed.

(** ** Concrete inputs *)
Module Demo.
#[local] Existing Instance ascii_tables.

Definition admins : gset Z := {[42]}.
Definition stranger (text : bytes) : Update := UMessage {| ChatID := 7; From := Some (str "mallory"); Text := text |}.

Lemma unauthorized_inert_witness :
  RCall (HRecordUnauthorized 7 (str "mallory")) = RNothing \/
  exists from, RCall (HRecordUnauthorized 7 (str "mallory")) = RCall (HRecordUnauthorized 7 from) \/
    (RCall (HRecordUnauthorized 7 (str "mallory")) = RCall (HAsID 7 from) /\
     exists m, stranger (str "/exits switch x") = UMessage m /\ isPublicCommand (Text m) = true).
Proof.
  exact (unauthorized_inert admins (stranger (str "/exits switch x")) 7 (RCall (HRecordUnauthorized 7 (str "mallory")))
    eq_refl ltac:(by vm_compute) ltac:(by vm_compute)).
Defined.

Example public_id : serve_update admins (stranger (str " /id@gwbot ")) = Some (RCall (HAsID 7 (str "mallory"))).
Proof. by vm_compute. Qed.

Definition admin (text : bytes) : Message := {| ChatID := 42; From := Some (str "root"); Text := text |}.

Lemma dispatch_total_witness :
  (Dispatch (str "/reboot") [] (admin []) = Some RUnknown <-> str "/reboot" ∉ DispatchCommands) /\
  Forall (fun data => str "/" ++ data ∈ DispatchCommands) menu_data.
Proof. apply dispatch_total. reflexivity. Defined.

Lemma mention_ignored_witness :
  splitCommand (str "/exits" ++ Byte.x40 :: str "gwbot" ++ str " add a ss://k@h:1") = splitCommand (str "/exits" ++ str " add a ss://k@h:1").
Proof.
  apply (mention_ignored (str "/exits") (str "gwbot") (str " add a ss://k@h:1"));
    [discriminate|by apply (bool_decide_unpack _); vm_compute..|right; by eexists].
Defined.

Definition evs : list mevent :=
  [MStart (str "1:a") [42]; MUpdate (true, true) (str "2:b") [42; 43]; MExit 0; MUpdate (true, true) [] []; MStart (str "2:b") []; MStart (str "3:c") [9]].

Lemma one_bot_witness :
  bs_Enabled (ManagerStatus (mrun true (fun _ => true) evs)) = true <->
  exists i b, bots (mrun true (fun _ => true) evs) !! i = Some b /\ alive b.
Proof. exact (proj1 (proj2 (one_bot true (fun _ => true) evs ltac:(by vm_compute)))). Defined.

Example one_bot_run :
  (fun b => (myGen b, ctx_done b, exited b)) <$> bots (mrun true (fun _ => true) evs) =
  [(1, true, true); (2, true, false); (3, false, false)].
Proof. by vm_compute. Qed.
End Demo.
