(* ===== verification/LiveSettings.v ===== *)
(** * Settings that act on the running daemon

    The panel's handlers for DNS spoofing (internal/api/frontdoor_proxy.go)
    and for the internal-only gate (internal/api/internal_only.go), and what
    the daemon does with the same settings when it boots
    (cmd/5gpn/spoof_runtime.go; [Gate.Refresh] of Access.v).  [Panel] is the
    state the handlers share; [egress] is the local address a UDP dial to
    1.1.1.1 gets. *)
From S2P Require Import Prelude GoStrings GoNet GoIP Access Resolver Settings Tgbot.
From Stdlib Require Import ZArith Lia.
Local Open Scope Z_scope.

(** What a handler sees of the server: [wired] is [s.Settings != nil], [live]
    the policy of [s.LiveResolver], [gate] is [s.Gate], [bot] is [s.TGBot]. *)
Record Panel := MkPanel {
  wired : bool;
  store : Settings.Store;
  live : option (option SpoofPolicy);
  gate : option Gate;
  bot : option Manager;
  audits : list (bytes * bytes)         (* actor and action, latest first *)
}.

Definition set_store x p := MkPanel (wired p) x (live p) (gate p) (bot p) (audits p).
Definition set_live x p := MkPanel (wired p) (store p) x (gate p) (bot p) (audits p).
Definition set_gate x p := MkPanel (wired p) (store p) (live p) x (bot p) (audits p).
Definition set_bot x p := MkPanel (wired p) (store p) (live p) (gate p) x (audits p).
Definition AppendAudit (actor action : bytes) (p : Panel) :=
  MkPanel (wired p) (store p) (live p) (gate p) (bot p) ((actor, action) :: audits p).

(** An answer: a status and a code, or a document. *)
Abbreviation H A := (ST Panel (res (Z * bytes) A)).
Definition bad {A} (status : Z) (code : bytes) : H A := ret (Err (status, code)).

(** A call of the settings store, with the answer for its error. *)
Definition on_settings {E A} (status : Z) (code : bytes) (m : ST Settings.Store (res E A)) : H A := fun p =>
  let '(r, s) := m (store p) in
  (match r with Ok a => Ok a | Err _ => Err (status, code) end, set_store s p).

Definition need_settings {A} (k : H A) : H A :=
  let! p := gets id in
  if negb (wired p) then bad 503 (str "settings_unavailable") else k.

Section live.
Context `{Unicode} `{JSON}.
Context (range : forall A, gmap bytes A -> list (bytes * A)).
Context (egress : option (option bytes)).

(** ** frontdoor_proxy.go *)

(** [discoverEgressIPForAPI], and [discoverEgressIP] of spoof_runtime.go. *)
Definition discoverEgressIP : bytes :=
  match egress with
  | Some (Some ip) =>
      if ip_unspecified ip then [] else match To4 ip with Some v4 => IP_String v4 | None => IP_String ip end
  | _ => []
  end.

Record proxySettingsDoc := {
  SpoofEnabled : option bool; SpoofScope : option bytes; SpoofServerIP : option bytes; SpoofAllowCIDR : option bytes;
  SNIForwardEnabled : option bool; QUICForwardEnabled : option bool;
  PanelBackendTCP : option bytes; PanelBackendUDP : option bytes
}.

Record proxySettingsResponse := {
  r_SpoofEnabled : bool; r_SpoofScope : bytes; r_SpoofServerIP : bytes; r_SpoofAllowCIDR : bytes;
  r_SNIForwardEnabled : bool; r_QUICForwardEnabled : bool; r_PanelBackendTCP : bytes; r_PanelBackendUDP : bytes;
  ServerIPEffective : bytes; ServerIPAutodetected : bytes; RestartRequired : bool
}.

(** [canonicalSpoofScope]. *)
Definition canonicalSpoofScope (raw : bytes) : option bytes :=
  let scope := ToLower (TrimSpace raw) in
  if (scope == SpoofScopeAll) || (scope == SpoofScopePrivateOnly) then Some scope else None.

(** [validateProxySettings]. *)
Definition when {A} (o : option A) (f : A -> bool) : bool := match o with None => true | Some a => f a end.
Definition host_port (b : bytes) : bool := (b == []) || bool_decide (is_Some (SplitHostPort b)).

Definition validateProxySettings (req : proxySettingsDoc) : bool :=
  when (SpoofScope req) (fun s => bool_decide (is_Some (canonicalSpoofScope s))) &&
  when (SpoofServerIP req) (fun s => (s == []) || bool_decide (is_Some (ParseIP (TrimSpace s)))) &&
  when (SpoofAllowCIDR req) (fun s => (s == []) ||
    forallb (fun c => let c := TrimSpace c in (c == []) || bool_decide (is_Some (ParseCIDR c))) (Split s csv_sep)) &&
  when (PanelBackendTCP req) host_port && when (PanelBackendUDP req) host_port.

(** [spoofPolicyFromSettings]: an error, no policy, or a policy. *)
Definition parse_cidrs (s : bytes) : option (list IPNet) :=
  if s == [] then Some [] else mapM (fun raw => ParseCIDR (TrimSpace raw)) (Split s csv_sep).

(** The policy of an address: spelled out twice in the source, here and in
    cmd/5gpn/spoof_runtime.go, in the same way. *)
Definition spoof_policy (ip : bytes) (scope : bytes) (cidrs : list IPNet) : SpoofPolicy :=
  match To4 ip with
  | Some v4 => {| ServerIP4 := Some v4; ServerIP6 := None; Scope := scope; Resolver.AllowCIDR := Some <$> cidrs; sp_TTL := 60 |}
  | None => {| ServerIP4 := None; ServerIP6 := Some ip; Scope := scope; Resolver.AllowCIDR := Some <$> cidrs; sp_TTL := 60 |}
  end.

Definition spoofPolicyFromSettings (cfg : proxySettingsResponse) : option (option SpoofPolicy) :=
  if negb (r_SpoofEnabled cfg) then Some None
  else
    ip ← ParseIP (TrimSpace (ServerIPEffective cfg));
    let rawScope := if TrimSpace (r_SpoofScope cfg) == [] then SpoofScopeAll else r_SpoofScope cfg in
    scope ← canonicalSpoofScope rawScope;
    cidrs ← parse_cidrs (r_SpoofAllowCIDR cfg);
    Some (Some (spoof_policy ip scope cidrs)).

(** [readProxySettings]. *)
Inductive PErr := PStore (e : SErr) | PScope | PNoIP | PCIDR.
Abbreviation PS A := (ST Settings.Store (res PErr A)).
Definition sto {A} (m : Settings.S A) : PS A :=
  let! r := m in ret (match r with Ok a => Ok a | Err e => Err (PStore e) end).
Definition or_default (s def : bytes) : bytes := if s == [] then def else s.

Definition readProxySettings : PS proxySettingsResponse :=
  let? spoofOn := sto (GetBool KeyFrontdoorSpoofEnabled) in
  let? scope := sto (GetString KeyFrontdoorSpoofScope) in
  match canonicalSpoofScope (or_default scope SpoofScopeAll) with
  | None => ret (Err PScope)
  | Some scope =>
      let? serverIP := sto (GetString KeyFrontdoorSpoofServerIP) in
      let? allowCIDR := sto (GetString KeyFrontdoorSpoofAllowCIDR) in
      let? sniOn := sto (GetBool KeyFrontdoorSNIForwardEnabled) in
      let? quicOn := sto (GetBool KeyFrontdoorQUICForwardEnabled) in
      let? tcp := sto (GetString KeyFrontdoorPanelBackendTCP) in
      let? udp := sto (GetString KeyFrontdoorPanelBackendUDP) in
      ret (Ok {| r_SpoofEnabled := spoofOn; r_SpoofScope := scope; r_SpoofServerIP := serverIP; r_SpoofAllowCIDR := allowCIDR;
                 r_SNIForwardEnabled := sniOn; r_QUICForwardEnabled := quicOn;
                 r_PanelBackendTCP := or_default tcp (str "127.0.0.1:8444");
                 r_PanelBackendUDP := or_default udp (str "127.0.0.1:8445");
                 ServerIPEffective := or_default serverIP discoverEgressIP; ServerIPAutodetected := discoverEgressIP;
                 RestartRequired := false |})
  end.

(** [handleUpdateFrontdoorProxy]: the values to write and the new document. *)
Definition put {A} (key : bytes) (wrap : A -> jval) (field : option A) (m : gmap bytes jval) : gmap bytes jval :=
  match field with None => m | Some v => <[key := wrap v]> m end.

Definition proxy_values (req : proxySettingsDoc) : gmap bytes jval :=
  put KeyFrontdoorPanelBackendUDP JStr (PanelBackendUDP req)
  (put KeyFrontdoorPanelBackendTCP JStr (PanelBackendTCP req)
  (put KeyFrontdoorQUICForwardEnabled JBool (QUICForwardEnabled req)
  (put KeyFrontdoorSNIForwardEnabled JBool (SNIForwardEnabled req)
  (put KeyFrontdoorSpoofAllowCIDR JStr (SpoofAllowCIDR req)
  (put KeyFrontdoorSpoofServerIP JStr (SpoofServerIP req)
  (put KeyFrontdoorSpoofScope (fun s => JStr (default [] (canonicalSpoofScope s))) (SpoofScope req)
  (put KeyFrontdoorSpoofEnabled JBool (SpoofEnabled req) ∅))))))).

Definition proxy_merged (req : proxySettingsDoc) (prev : proxySettingsResponse) : proxySettingsResponse :=
  let serverIP := default (r_SpoofServerIP prev) (SpoofServerIP req) in
  {| r_SpoofEnabled := default (r_SpoofEnabled prev) (SpoofEnabled req);
     r_SpoofScope := match SpoofScope req with None => r_SpoofScope prev | Some s => default [] (canonicalSpoofScope s) end;
     r_SpoofServerIP := serverIP;
     r_SpoofAllowCIDR := default (r_SpoofAllowCIDR prev) (SpoofAllowCIDR req);
     r_SNIForwardEnabled := default (r_SNIForwardEnabled prev) (SNIForwardEnabled req);
     r_QUICForwardEnabled := default (r_QUICForwardEnabled prev) (QUICForwardEnabled req);
     r_PanelBackendTCP := default (r_PanelBackendTCP prev) (PanelBackendTCP req);
     r_PanelBackendUDP := default (r_PanelBackendUDP prev) (PanelBackendUDP req);
     ServerIPEffective := or_default serverIP (ServerIPAutodetected prev); ServerIPAutodetected := ServerIPAutodetected prev;
     RestartRequired := false |}.

Definition changes {A} `{EqDecision A} (field : option A) (old : A) : bool :=
  match field with None => false | Some v => negb (v == old) end.

Definition restart_needed (req : proxySettingsDoc) (prev : proxySettingsResponse) : bool :=
  changes (SNIForwardEnabled req) (r_SNIForwardEnabled prev) || changes (QUICForwardEnabled req) (r_QUICForwardEnabled prev) ||
  changes (PanelBackendTCP req) (r_PanelBackendTCP prev) || changes (PanelBackendUDP req) (r_PanelBackendUDP prev).

Definition set_restart (b : bool) (r : proxySettingsResponse) : proxySettingsResponse :=
  {| r_SpoofEnabled := r_SpoofEnabled r; r_SpoofScope := r_SpoofScope r; r_SpoofServerIP := r_SpoofServerIP r;
     r_SpoofAllowCIDR := r_SpoofAllowCIDR r; r_SNIForwardEnabled := r_SNIForwardEnabled r;
     r_QUICForwardEnabled := r_QUICForwardEnabled r; r_PanelBackendTCP := r_PanelBackendTCP r;
     r_PanelBackendUDP := r_PanelBackendUDP r; ServerIPEffective := ServerIPEffective r;
     ServerIPAutodetected := ServerIPAutodetected r; RestartRequired := b |}.

Definition handleUpdateFrontdoorProxy (req : option proxySettingsDoc) (actor : bytes) : H proxySettingsResponse :=
  need_settings (match req with
  | None => bad 400 (str "bad_request")
  | Some req =>
      if negb (validateProxySettings req) then bad 400 (str "invalid_settings")
      else
        let? prev := on_settings 500 (str "read_failed") readProxySettings in
        let resp := proxy_merged req prev in
        match spoofPolicyFromSettings resp with
        | None => bad 400 (str "invalid_settings")
        | Some policy =>
            let? _ := on_settings 500 (str "write_failed") (SetMany range (proxy_values req) actor) in
            let! _ := modify (fun p => match live p with None => p | Some _ => set_live (Some policy) p end) in
            ret (Ok (set_restart (restart_needed req prev) resp))
        end
  end).

Definition handleGetFrontdoorProxy : H proxySettingsResponse :=
  need_settings (on_settings 500 (str "read_failed") readProxySettings).

(** [handleFrontdoorProxyPreflight]. *)
Definition handleFrontdoorProxyPreflight : option bytes :=
  if discoverEgressIP == [] then None else Some discoverEgressIP.

(** ** spoof_runtime.go: the policy at boot *)
Definition boot_spoof_policy : PS (option SpoofPolicy) :=
  let? on := sto (GetBool KeyFrontdoorSpoofEnabled) in
  if negb on then ret (Ok None)
  else
    let? ipStr := sto (GetString KeyFrontdoorSpoofServerIP) in
    match ParseIP (TrimSpace (or_default ipStr discoverEgressIP)) with
    | None => ret (Err PNoIP)
    | Some ip =>
        let? scopeStr := sto (GetString KeyFrontdoorSpoofScope) in
        let scopeStr := or_default (ToLower (TrimSpace scopeStr)) SpoofScopeAll in
        if negb ((scopeStr == SpoofScopeAll) || (scopeStr == SpoofScopePrivateOnly)) then ret (Err PScope)
        else
          let? cidrStr := sto (GetString KeyFrontdoorSpoofAllowCIDR) in
          ret (match parse_cidrs cidrStr with
               | None => Err PCIDR
               | Some cidrs => Ok (Some (spoof_policy ip scopeStr cidrs))
               end)
    end.

Definition applySpoofSettings : ST (Settings.Store * option SpoofPolicy) (res PErr unit) := fun w =>
  let '(r, s) := boot_spoof_policy w.1 in
  match r with
  | Err e => (Err e, (s, w.2))
  | Ok None => (Ok tt, (s, w.2))
  | Ok (Some policy) => (Ok tt, (s, Some policy))
  end.

(** ** internal_only.go *)
Record internalOnly := { io_Enabled : bool; io_CIDRs : bytes }.

Definition readInternalOnly : Settings.S internalOnly :=
  let? on := GetBool KeyFrontdoorInternalOnlyEnabled in
  let? cidrs := GetString KeyFrontdoorInternalCIDRs in
  ret (Ok {| io_Enabled := on; io_CIDRs := or_default cidrs DefaultInternalCIDRs |}).

Definition handleGetInternalOnly : H internalOnly :=
  need_settings (on_settings 500 (str "read_failed") readInternalOnly).

Definition handleUpdateInternalOnly (req : option (option bool * option bytes)) (actor : bytes) : H internalOnly :=
  need_settings (match req with
  | None => bad 400 (str "bad_request")
  | Some (on, cidrs) =>
      let? old := on_settings 500 (str "read_failed") readInternalOnly in
      let effective := {| io_Enabled := default (io_Enabled old) on; io_CIDRs := default (io_CIDRs old) cidrs |} in
      let values := put KeyFrontdoorInternalCIDRs JStr cidrs (put KeyFrontdoorInternalOnlyEnabled JBool on ∅) in
      match ValidateCIDRs (io_CIDRs effective) with
      | Err _ => bad 400 (str "invalid_settings")
      | Ok _ =>
          let? _ := on_settings 500 (str "write_failed") (SetMany range values actor) in
          let! p := gets id in
          match gate p with
          | None => ret (Ok effective)
          | Some g =>
              match Configure g (io_Enabled effective) (io_CIDRs effective) with
              | Err _ => bad 500 (str "apply_failed")
              | Ok g' => let! _ := modify (set_gate (Some g')) in ret (Ok effective)
              end
          end
      end
  end).

(** The two reads of [Gate.Refresh], as Access.v takes them. *)
Definition boot_gate (g : Gate) : ST Settings.Store (res GateError Gate) :=
  let! on := GetBool KeyFrontdoorInternalOnlyEnabled in
  match on with
  | Err _ => ret (Refresh g None None)
  | Ok on =>
      let! raw := GetString KeyFrontdoorInternalCIDRs in
      ret (Refresh g (Some on) (match raw with Ok raw => Some raw | Err _ => None end))
  end.
End live.

(** ** Lemmas *)
Lemma wp_sto {A} (m : Settings.S A) (Q : res PErr A -> Settings.Store -> Prop) s :
  wp m (fun r s => Q (match r with Ok a => Ok a | Err e => Err (PStore e) end) s) s -> wp (sto m) Q s.
Proof. intros Hm. apply wp_bind. eapply wp_mono; [exact Hm|]. done. Qed.

Lemma lookup_put_eq {A} key (wrap : A -> jval) field m : m !! key = None -> put key wrap field m !! key = wrap <$> field.
Proof. intros Hm. destruct field; cbn; [by rewrite lookup_insert_eq|done]. Qed.

Lemma lookup_put_ne {A} key key' (wrap : A -> jval) field m : key <> key' -> put key wrap field m !! key' = m !! key'.
Proof. intros Hk. destruct field; cbn; [by rewrite lookup_insert_ne|done]. Qed.

(** The value a handler has put under one of its keys. *)
Ltac look_put :=
  repeat first [rewrite lookup_put_ne by (by vm_compute)
               |rewrite lookup_put_eq; [|repeat rewrite lookup_put_ne by (by vm_compute); by rewrite lookup_empty]];
  try reflexivity.

Lemma wp_on_settings {E A} status code (m : ST Settings.Store (res E A)) Q p :
  wp m (fun r s => Q (match r with Ok a => Ok a | Err _ => Err (status, code) end) (set_store s p)) (store p) ->
  wp (on_settings status code m) Q p.
Proof. unfold wp, on_settings. by destruct (m (store p)). Qed.

Section read_back.
Context `{JSON} `{!JSONLaws}.

(** A setting after a write: the new value, or what it was. *)
Lemma read_back {A} (decode : bytes -> option A) zero (wrap : A -> jval) values by_ c t t' key field :
  written values by_ c t t' -> values !! key = wrap <$> field ->
  (forall v, field = Some v -> exists raw, Marshal (wrap v) = Some raw /\ decode raw = Some v) ->
  stored decode zero key t' = match field with Some v => Ok v | None => stored decode zero key t end.
Proof.
  intros HW HV HM. specialize (HW key). rewrite HV in HW. unfold stored. destruct field as [v|]; cbn in HW; [|by rewrite HW].
  destruct HW as (raw & E & ->). destruct (HM v eq_refl) as (raw' & E' & HD). rewrite E in E'. injection E' as <-. cbn. by rewrite HD.
Qed.

Lemma typed_now {A} (decode : bytes -> option A) zero key s :
  db_ok s = [] -> typed decode zero key s = (stored decode zero key (table s), s).
Proof.
  intros E. unfold typed, Get, call, bindE, bind, gets, ret, stored. destruct s as [t l c]. cbn in E. subst l. cbn.
  by destruct (t !! key).
Qed.
End read_back.

Section live_proofs.
Context `{Unicode} `{JSON} `{!JSONLaws}.
Context (range : forall A, gmap bytes A -> list (bytes * A)).
Context (range_perm : forall A (m : gmap bytes A), range A m ≡ₚ map_to_list m).
Context (egress : option (option bytes)).

(** [cfg] shows the spoofing settings stored in [t]. *)
Record shows (t : gmap bytes Row) (cfg : proxySettingsResponse) : Prop := {
  sh_on : stored as_bool (Ok false) KeyFrontdoorSpoofEnabled t = Ok (r_SpoofEnabled cfg);
  sh_scope : exists v, stored as_string (Ok []) KeyFrontdoorSpoofScope t = Ok v /\
    canonicalSpoofScope (or_default v SpoofScopeAll) = Some (r_SpoofScope cfg);
  sh_ip : stored as_string (Ok []) KeyFrontdoorSpoofServerIP t = Ok (r_SpoofServerIP cfg);
  sh_cidr : stored as_string (Ok []) KeyFrontdoorSpoofAllowCIDR t = Ok (r_SpoofAllowCIDR cfg);
  sh_auto : ServerIPAutodetected cfg = discoverEgressIP egress
}.

Lemma wp_setting {A B} (decode : bytes -> option A) zero key (f : A -> ST Settings.Store (res PErr B)) Q s :
  (forall l e, Q (Err e) (set_db_ok l s)) ->
  (forall l v, stored decode zero key (table s) = Ok v -> wp (f v) Q (set_db_ok l s)) ->
  wp (bindE (sto (typed decode zero key)) f) Q s.
Proof.
  intros HE HO. apply wp_bindE, wp_sto, wp_typed; intros l; [apply HE|].
  destruct (stored decode zero key (table s)) as [e|v] eqn:E; [apply HE|by apply HO].
Qed.

Lemma wp_readProxySettings Q s :
  (forall l e, Q (Err e) (set_db_ok l s)) -> (forall l cfg, shows (table s) cfg -> Q (Ok cfg) (set_db_ok l s)) ->
  wp (readProxySettings egress) Q s.
Proof.
  intros HE HO. unfold readProxySettings.
  apply wp_setting; [exact HE|intros l1 on E1]. apply wp_setting; [intros l; apply (HE l)|cbn [table set_db_ok]; intros l2 v E2].
  destruct (canonicalSpoofScope _) as [scope|] eqn:EC; [|apply wp_ret, (HE l2)].
  apply wp_setting; [intros l; apply (HE l)|cbn [table set_db_ok]; intros l3 ip E3].
  apply wp_setting; [intros l; apply (HE l)|cbn [table set_db_ok]; intros l4 cidr E4].
  apply wp_setting; [intros l; apply (HE l)|intros l5 sni _].
  apply wp_setting; [intros l; apply (HE l)|intros l6 quic _].
  apply wp_setting; [intros l; apply (HE l)|intros l7 tcp _].
  apply wp_setting; [intros l; apply (HE l)|intros l8 udp _].
  apply wp_ret, (HO l8). by split; [|exists v| | |].
Qed.

Lemma canonical_scopes raw c :
  canonicalSpoofScope raw = Some c -> (c = SpoofScopeAll \/ c = SpoofScopePrivateOnly) /\ ToLower (TrimSpace raw) = c.
Proof.
  unfold canonicalSpoofScope. destruct (_ || _) eqn:E; [|done]. intros [= <-].
  apply orb_true_iff in E as [E|E]; apply bool_decide_eq_true in E; auto.
Qed.

Lemma canonical_again c : c = SpoofScopeAll \/ c = SpoofScopePrivateOnly -> canonicalSpoofScope (or_default c SpoofScopeAll) = Some c.
Proof. by intros [-> | ->]. Qed.

Definition texts (req : proxySettingsDoc) : Prop :=
  (forall s, SpoofServerIP req = Some s -> text s) /\ (forall s, SpoofAllowCIDR req = Some s -> text s).

(** The merged document shows the settings the handler has written. *)
Lemma shows_merged t t' by_ c req prev :
  shows t prev -> validateProxySettings req = true -> texts req -> written (proxy_values req) by_ c t t' ->
  shows t' (proxy_merged req prev).
Proof.
  intros [S1 (v & S2 & SC) S3 S4 S5] HV [HT1 HT2] HW. split; cbn; [| | | |exact S5].
  - erewrite (read_back _ _ JBool _ _ _ t t' _ (SpoofEnabled req) HW); [by destruct (SpoofEnabled req)|unfold proxy_values; look_put|].
    intros b _. apply bool_back.
  - destruct (SpoofScope req) as [s|] eqn:ES.
    + unfold validateProxySettings in HV. rewrite ES in HV. repeat (apply andb_true_iff in HV as [HV _]). cbn in HV.
      apply bool_decide_eq_true in HV as [c' Hc]. destruct (canonical_scopes s c' Hc) as [Hc' _]. exists c'. rewrite Hc. cbn.
      split; [|by apply canonical_again].
      erewrite (read_back _ _ JStr _ _ _ t t' _ (Some c') HW); [done|unfold proxy_values; rewrite ES; look_put; cbn; by rewrite Hc|].
      intros ? [= <-]. apply string_back, text_ascii. by destruct Hc' as [-> | ->].
    + exists v. split; [|exact SC].
      erewrite (read_back _ _ JStr _ _ _ t t' _ None HW); [exact S2|unfold proxy_values; rewrite ES; look_put|done].
  - erewrite (read_back _ _ JStr _ _ _ t t' _ (SpoofServerIP req) HW); [by destruct (SpoofServerIP req)|unfold proxy_values; look_put|].
    intros b Hb. by apply string_back, HT1.
  - erewrite (read_back _ _ JStr _ _ _ t t' _ (SpoofAllowCIDR req) HW); [by destruct (SpoofAllowCIDR req)|unfold proxy_values; look_put|].
    intros b Hb. by apply string_back, HT2.
Qed.

(** What the daemon publishes at boot is the policy of a document that shows
    its settings. *)
Lemma wp_setting_now {A B} (decode : bytes -> option A) zero key v (f : A -> ST Settings.Store (res PErr B)) Q s :
  db_ok s = [] -> stored decode zero key (table s) = Ok v -> wp (f v) Q s -> wp (bindE (sto (typed decode zero key)) f) Q s.
Proof.
  intros Hs Hv Hf. apply wp_bindE, wp_sto. unfold wp at 1. rewrite typed_now by done. by rewrite Hv.
Qed.

Lemma boot_policy s cfg policy :
  shows (table s) cfg -> ServerIPEffective cfg = or_default (r_SpoofServerIP cfg) (discoverEgressIP egress) ->
  spoofPolicyFromSettings cfg = Some policy -> db_ok s = [] -> applySpoofSettings egress (s, None) = (Ok tt, (s, policy)).
Proof.
  intros [S1 (v & S2 & SC) S3 S4 _] HI HP Hs.
  assert (wp (boot_spoof_policy egress) (fun r s' => r = Ok policy /\ s' = s) s) as HW.
  { unfold boot_spoof_policy, spoofPolicyFromSettings in *. apply (wp_setting_now _ _ _ _ _ _ _ Hs S1).
    destruct (r_SpoofEnabled cfg); cbn [negb] in *; [|injection HP as <-; by apply wp_ret].
    apply (wp_setting_now _ _ _ _ _ _ _ Hs S3). rewrite HI in HP. destruct (ParseIP _) as [ip|]; [|done]. cbn [mbind option_bind] in HP.
    apply (wp_setting_now _ _ _ _ _ _ _ Hs S2). destruct (canonical_scopes _ _ SC) as [Hc Hl].
    assert ((if TrimSpace (r_SpoofScope cfg) == [] then SpoofScopeAll else r_SpoofScope cfg) = r_SpoofScope cfg) as HR
      by (by destruct Hc as [-> | ->]).
    rewrite HR in HP. assert (canonicalSpoofScope (r_SpoofScope cfg) = Some (r_SpoofScope cfg)) as HR2 by (by destruct Hc as [-> | ->]).
    rewrite HR2 in HP. cbn [mbind option_bind] in HP.
    assert (or_default (ToLower (TrimSpace v)) SpoofScopeAll = r_SpoofScope cfg) as ->.
    { unfold or_default in *. destruct (decide (v = [])) as [->|Hv].
      - rewrite bool_decide_true in Hl by done. rewrite <- Hl. reflexivity.
      - rewrite (bool_decide_eq_false_2 (v = [])) in Hl by done. rewrite Hl. by destruct Hc as [-> | ->]. }
    assert ((r_SpoofScope cfg == SpoofScopeAll) || (r_SpoofScope cfg == SpoofScopePrivateOnly) = true) as -> by (by destruct Hc as [-> | ->]).
    cbn [negb]. apply (wp_setting_now _ _ _ _ _ _ _ Hs S4). destruct (parse_cidrs _) as [cidrs|]; [|done]. cbn [mbind option_bind] in HP.
    injection HP as <-. by apply wp_ret. }
  unfold applySpoofSettings. unfold wp in HW. cbn [fst]. destruct (boot_spoof_policy egress s) as [r s']. destruct HW as [-> ->].
  by destruct policy.
Qed.

(** C34: the spoofing policy in force is the one a restart would publish: when
    an update of the settings succeeds, the live resolver has exactly the
    policy that the boot code computes from the settings just stored, for the
    same egress address. *)
Theorem live_matches_boot req actor p resp p' :
  live p <> None -> texts req ->
  handleUpdateFrontdoorProxy range egress (Some req) actor p = (Ok resp, p') ->
  exists policy, live p' = Some policy /\
    forall s, table s = table (store p') -> db_ok s = [] -> applySpoofSettings egress (s, None) = (Ok tt, (s, policy)).
Proof.
  intros Hl HT E. refine (wp_elim _ (fun r p' => match r with Ok _ => exists policy, live p' = Some policy /\
    forall s, table s = table (store p') -> db_ok s = [] -> applySpoofSettings egress (s, None) = (Ok tt, (s, policy)) | _ => True end) p (Ok resp) p' _ E).
  unfold handleUpdateFrontdoorProxy, need_settings. apply wp_bind, wp_gets. destruct (negb _); [by apply wp_ret|].
  destruct (validateProxySettings req) eqn:EV; cbn [negb]; [|by apply wp_ret].
  apply wp_bindE, wp_on_settings, wp_readProxySettings; [done|]. intros l1 prev HS.
  destruct (spoofPolicyFromSettings _) as [policy|] eqn:EP; [|by apply wp_ret].
  apply wp_bindE, wp_on_settings, wp_SetMany; [done|done|]. intros l2 t' HW.
  apply wp_bind, wp_modify, wp_ret. cbn in HW |- *. destruct (live p) as [old|] eqn:EL; [|done]. exists policy. split; [done|].
  cbn. intros s Ht Hs. apply (boot_policy s (proxy_merged req prev)); [| |exact EP|done].
  - rewrite Ht. by eapply shows_merged.
  - unfold proxy_merged. cbn [ServerIPEffective r_SpoofServerIP]. by rewrite (sh_auto _ _ HS).
Qed.

(** ** The gate *)
Definition effective_cidrs (raw : bytes) : bytes := if TrimSpace raw == [] then DefaultInternalCIDRs else raw.

Lemma effective_or_default v : effective_cidrs (or_default v DefaultInternalCIDRs) = effective_cidrs v.
Proof. unfold or_default. case_bool_decide; [by subst|done]. Qed.

Lemma Configure_validated g on raw :
  ValidateCIDRs raw = Ok tt -> Configure g on raw = Ok (publish g {| enabled := on; cidrs := parseCIDRs (effective_cidrs raw) |}).
Proof.
  intros HV. unfold Configure, effective_cidrs. case_bool_decide; [|by rewrite HV].
  assert (ValidateCIDRs DefaultInternalCIDRs = Ok tt) as -> by (by vm_compute). done.
Qed.

Lemma boot_gate_now g s on raw :
  has_settings g = true -> db_ok s = [] ->
  stored as_bool (Ok false) KeyFrontdoorInternalOnlyEnabled (table s) = Ok on ->
  stored as_string (Ok []) KeyFrontdoorInternalCIDRs (table s) = Ok raw ->
  boot_gate g s = (Ok (publish g {| enabled := on; cidrs := parseCIDRs (effective_cidrs raw) |}), s).
Proof.
  intros Hg Hs H1' H2'. unfold boot_gate, GetBool, GetString, bind. rewrite typed_now, H1' by done.
  rewrite typed_now, H2' by done. unfold ret, Refresh. by rewrite Hg.
Qed.

Lemma wp_get {A B} (decode : bytes -> option A) zero key (f : A -> Settings.S B) Q s :
  (forall l e, Q (Err e) (set_db_ok l s)) ->
  (forall l v, stored decode zero key (table s) = Ok v -> wp (f v) Q (set_db_ok l s)) ->
  wp (bindE (typed decode zero key) f) Q s.
Proof.
  intros HE HO. apply wp_bindE, wp_typed; intros l; [apply HE|].
  destruct (stored decode zero key (table s)) as [e|v] eqn:E; [apply HE|by apply HO].
Qed.

(** the gate in force is the one a restart would load: an update of the
    internal-only settings either stores them and configures the gate - to
    exactly the snapshot a refresh would compute from the stored rows - or
    changes neither.  (So the answer apply_failed, after the settings have
    been written, never happens.) *)
Theorem gate_matches_boot on cidrs_ actor p g r p' :
  gate p = Some g -> has_settings g = true -> (forall s, cidrs_ = Some s -> text s) ->
  handleUpdateInternalOnly range (Some (on, cidrs_)) actor p = (r, p') ->
  match r with
  | Ok _ => exists g', gate p' = Some g' /\
      forall s, table s = table (store p') -> db_ok s = [] -> boot_gate g s = (Ok g', s)
  | Err e => e <> (500, str "apply_failed") /\ gate p' = gate p /\ table (store p') = table (store p)
  end.
Proof.
  intros Hg Hb HT E. refine (wp_elim _ (fun r p' => match r with
    | Ok _ => exists g', gate p' = Some g' /\ forall s, table s = table (store p') -> db_ok s = [] -> boot_gate g s = (Ok g', s)
    | Err e => e <> (500, str "apply_failed") /\ gate p' = gate p /\ table (store p') = table (store p) end) p r p' _ E).
  unfold handleUpdateInternalOnly, need_settings. apply wp_bind, wp_gets. destruct (negb _); [by apply wp_ret|].
  apply wp_bindE, wp_on_settings. unfold readInternalOnly. apply wp_get; [done|]. intros l1 on0 E1.
  apply wp_get; [done|]. cbn [table set_db_ok]. intros l2 raw0 E2. apply wp_ret. cbn [io_Enabled io_CIDRs].
  destruct (ValidateCIDRs _) as [e|[]] eqn:EV; [by apply wp_ret|].
  apply wp_bindE, wp_on_settings, wp_SetMany; [done|done|]. intros l3 t' HW.
  apply wp_bind, wp_gets. cbn [id gate set_store]. rewrite Hg, (Configure_validated g _ _ EV).
  apply wp_bind, wp_modify, wp_ret. cbn in HW |- *. eexists. split; [done|]. intros s Ht Hs.
  rewrite (boot_gate_now g s (default on0 on) (default raw0 cidrs_) Hb Hs).
  - do 4 f_equal. destruct cidrs_ as [v|]; cbn; [done|]. by rewrite effective_or_default.
  - rewrite Ht. erewrite (read_back _ _ JBool _ _ _ _ t' _ on HW); [by destruct on|look_put|]. intros b _. apply bool_back.
  - rewrite Ht. erewrite (read_back _ _ JStr _ _ _ _ t' _ cidrs_ HW); [by destruct cidrs_|look_put|]. intros b Hb'. by apply string_back, HT.
Qed.
End live_proofs.

(** ** Concrete inputs *)
Module Demo.
#[local] Existing Instance ascii_tables.
#[local] Existing Instance sample_json.
#[local] Existing Instance sample_json_laws.

Definition egress : option (option bytes) := Some (Some (map zb [203; 0; 113; 9])).
Definition no_change : proxySettingsDoc :=
  {| SpoofEnabled := None; SpoofScope := None; SpoofServerIP := None; SpoofAllowCIDR := None; SNIForwardEnabled := None;
     QUICForwardEnabled := None; PanelBackendTCP := None; PanelBackendUDP := None |}.
Definition set_cidr (on : option bool) (c : option bytes) : proxySettingsDoc :=
  {| SpoofEnabled := on; SpoofScope := Some (str " Private_Only"); SpoofServerIP := None; SpoofAllowCIDR := c; SNIForwardEnabled := None;
     QUICForwardEnabled := Some true; PanelBackendTCP := None; PanelBackendUDP := None |}.
Definition req : proxySettingsDoc := set_cidr (Some true) (Some (str "172.22.0.0/16, 10.0.0.0/8")).

Definition g0 : Gate := {| has_settings := true; snapshot := None |}.
Definition p0 : Panel :=
  {| wired := true; store := {| table := ∅; db_ok := []; clock := 1 |}; live := Some None; gate := Some g0; bot := None; audits := [] |}.

Definition update (req : proxySettingsDoc) (p : Panel) := handleUpdateFrontdoorProxy sample_range egress (Some req) (str "admin") p.
Definition none : proxySettingsResponse := proxy_merged no_change
  {| r_SpoofEnabled := false; r_SpoofScope := []; r_SpoofServerIP := []; r_SpoofAllowCIDR := []; r_SNIForwardEnabled := false;
     r_QUICForwardEnabled := false; r_PanelBackendTCP := []; r_PanelBackendUDP := []; ServerIPEffective := [];
     ServerIPAutodetected := []; RestartRequired := false |}.
Definition resp : proxySettingsResponse := match (update req p0).1 with Ok r => r | Err _ => none end.
Definition p1 : Panel := (update req p0).2.

Lemma update_run : handleUpdateFrontdoorProxy sample_range egress (Some req) (str "admin") p0 = (Ok resp, p1).
Proof. unfold p1, update. apply fst_pair. by vm_compute. Qed.

Lemma live_matches_boot_witness :
  exists policy, live p1 = Some policy /\
    forall s, table s = table (store p1) -> db_ok s = [] -> applySpoofSettings egress (s, None) = (Ok tt, (s, policy)).
Proof.
  apply (live_matches_boot sample_range sample_range_perm egress req (str "admin") p0 resp p1);
    [discriminate|split; intros; exact I|exact update_run].
Defined.

Example policy_now :
  match live p1 with
  | Some (Some q) => (ServerIP4 q, Scope q, length (Resolver.AllowCIDR q)) = (Some (map zb [203; 0; 113; 9]), SpoofScopePrivateOnly, 2%nat)
  | _ => False
  end /\ RestartRequired resp = true.
Proof. by vm_compute. Qed.

Definition gate_update := handleUpdateInternalOnly sample_range (Some (Some true, None)) (str "admin") p0.
Definition p2 : Panel := gate_update.2.
Definition io : internalOnly := {| io_Enabled := true; io_CIDRs := DefaultInternalCIDRs |}.

Lemma gate_run : handleUpdateInternalOnly sample_range (Some (Some true, None)) (str "admin") p0 = (Ok io, p2).
Proof. unfold p2, gate_update. apply fst_pair. by vm_compute. Qed.

Lemma gate_matches_boot_witness :
  exists g', gate p2 = Some g' /\
    forall s, table s = table (store p2) -> db_ok s = [] -> boot_gate g0 s = (Ok g', s).
Proof.
  exact (gate_matches_boot sample_range sample_range_perm (Some true) None (str "admin") p0 g0 (Ok io) p2
    eq_refl eq_refl ltac:(intros ? E; discriminate E) gate_run).
Defined.

(** A list with an empty entry passes the validation and is stored while
    spoofing is off; turning spoofing on is then refused. *)
Example comma_stored :
  let p := (update (set_cidr None (Some (str "10.0.0.0/8,"))) p0).2 in
  ((update (set_cidr (Some true) None) p).1, live p) = (Err (400, str "invalid_settings"), Some None).
Proof. by vm_compute. Qed.
End Demo.
