(* ===== verification/PanelSettings.v ===== *)
(** * The settings page

    internal/api/wizard.go (the panel's settings document and its partial
    update), internal/api/settings.go (the Telegram bot's credentials) and
    internal/api/preflight.go (the iOS preflight and the switch it guards),
    over the state of LiveSettings.v.  The request's nested pointers are one
    option per field.  What the preflight meets on the wire, and the text of
    its errors, are parameters. *)
From S2P Require Import Prelude GoStrings GoNet Access Resolver Settings Tgbot LiveSettings.
From Stdlib Require Import ZArith Lia.
Local Open Scope Z_scope.

Record panelSettingsUpdate := {
  u_Domain : option bytes; u_PanelBind : option bytes; u_PanelPort : option Z;
  u_ACMEEnabled : option bool; u_ACMEEmail : option bytes;
  u_Token : option bytes; u_AdminChatIDs : option (list Z);
  u_WAEnabled : option bool; u_Listen : option bytes; u_Port : option Z; u_Backend : option bytes; u_WAHost : option bytes;
  u_AllowCIDR : option (list bytes);
  u_Complete : option bool
}.

Record panelSettingsResponse := {
  p_Domain : bytes; p_PanelBind : bytes; p_PanelPort : Z; p_ACMEEnabled : bool; p_ACMEEmail : bytes;
  p_TokenSet : bool; p_TokenMasked : bytes; p_AdminChatIDs : list Z;
  p_WAEnabled : bool; p_Listen : bytes; p_Port : Z; p_Backend : bytes; p_WAHost : bytes; p_AllowCIDR : list bytes;
  p_Complete : bool; p_ProfileEnabled : bool; p_FallbackDoT : bytes; p_PreflightLastAt : option Z; p_PreflightLastError : bytes
}.

(** ** preflight.go: what a preflight meets, and its result *)
Record wire := { dials : bool; sends : bool; reply : option bool   (* None: no message; whether it has answers *) }.
Inductive PreflightErr := PFHandshake | PFWrite | PFRead | PFNoAnswer.
Record preflightResult := { OK : bool; DotHandshake : bool; SampleQuery : bool; Error : option PreflightErr; CheckedAt : Z }.

Definition runIOSPreflight (w : wire) (now : Z) : preflightResult :=
  let res ok hs q e := {| OK := ok; DotHandshake := hs; SampleQuery := q; Error := e; CheckedAt := now |} in
  if negb (dials w) then res false false false (Some PFHandshake)
  else if negb (sends w) then res false true false (Some PFWrite)
  else match reply w with
       | None => res false true false (Some PFRead)
       | Some false => res false true false (Some PFNoAnswer)
       | Some true => res true true true None
       end.

Section panel.
Context `{Unicode} `{JSON}.
Context (range : forall A, gmap bytes A -> list (bytes * A)).
Context (handlers : bool) (getMe : bytes -> bool) (errtext : PreflightErr -> bytes).

(** ** wizard.go *)

(** [readPanelSettings]. *)
Definition readPanelSettings : Settings.S panelSettingsResponse :=
  let? domain := GetString KeyServerDomain in
  let? bind_ := GetString KeyServerPanelBind in
  let? port := GetInt KeyServerPanelPort in
  let? acme := GetBool KeyTLSACMEEnabled in
  let? email := GetString KeyTLSACMEEmail in
  let? token := GetString KeyTGBotToken in
  let? ids := optional [] (GetJSON as_ints KeyTGBotAdminChats) in
  let? wa := GetBool KeyWAShimEnabled in
  let? listen := GetString KeyWAShimListen in
  let? waport := GetInt KeyWAShimPort in
  let? backend := GetString KeyWAShimBackend in
  let? wahost := GetString KeyWAShimWAHost in
  let? cidrs := optional [] (GetJSON as_strings KeyWAShimAllowCIDR) in
  let? complete := GetBool KeyWizardComplete in
  let? profile := GetBool KeyFrontdoorIOSProfileEnabled in
  let? fallback := GetString KeyFrontdoorFallbackDoT in
  let? last := optional None (GetJSON (fun raw => Some <$> as_int raw) KeyFrontdoorPreflightLastAt) in
  let? last_error := GetString KeyFrontdoorPreflightLastError in
  ret (Ok {| p_Domain := domain; p_PanelBind := bind_; p_PanelPort := port; p_ACMEEnabled := acme; p_ACMEEmail := email;
             p_TokenSet := negb (token == []); p_TokenMasked := MaskToken token; p_AdminChatIDs := ids;
             p_WAEnabled := wa; p_Listen := listen; p_Port := waport; p_Backend := backend; p_WAHost := wahost;
             p_AllowCIDR := cidrs; p_Complete := complete; p_ProfileEnabled := profile; p_FallbackDoT := fallback;
             p_PreflightLastAt := last; p_PreflightLastError := last_error |}).

Definition handleGetPanelSettings : H panelSettingsResponse :=
  need_settings (on_settings 500 (str "read_error") readPanelSettings).

(** [effectiveTGBot]. *)
Definition effectiveTGBot (tokenPatch : option bytes) (idsPatch : option (list Z)) : Settings.S (bytes * list Z) :=
  let? token := (match tokenPatch with Some t => ret (Ok t) | None => GetString KeyTGBotToken end) in
  let? ids := (match idsPatch with Some l => ret (Ok l) | None => optional [] (GetJSON as_ints KeyTGBotAdminChats) end) in
  ret (Ok (token, ids)).

(** The checks of [handleUpdatePanelSettings], by the code of their answer. *)
Definition port_ok (p : Z) : bool := (1 <=? p) && (p <=? 65535).

Definition refused (req : panelSettingsUpdate) : option bytes :=
  if negb (when (u_PanelPort req) port_ok) then Some (str "bad_port")
  else if negb (when (u_Port req) port_ok) then Some (str "bad_port")
  else if negb (when (u_AllowCIDR req) (fun l => negb (l == []) && forallb (fun raw => bool_decide (is_Some (ParseCIDR raw))) l))
  then Some (str "invalid_cidr")
  else None.

Definition base_values (req : panelSettingsUpdate) : gmap bytes jval :=
  put KeyWizardComplete JBool (u_Complete req)
  (put KeyWAShimAllowCIDR JStrs (u_AllowCIDR req)
  (put KeyWAShimWAHost JStr (u_WAHost req)
  (put KeyWAShimBackend JStr (u_Backend req)
  (put KeyWAShimPort JInt (u_Port req)
  (put KeyWAShimListen JStr (u_Listen req)
  (put KeyWAShimEnabled JBool (u_WAEnabled req)
  (put KeyTLSACMEEmail JStr (u_ACMEEmail req)
  (put KeyTLSACMEEnabled JBool (u_ACMEEnabled req)
  (put KeyServerPanelPort JInt (u_PanelPort req)
  (put KeyServerPanelBind JStr (u_PanelBind req)
  (put KeyServerDomain JStr (u_Domain req) ∅))))))))))).

Definition tg_values (req : panelSettingsUpdate) : gmap bytes jval :=
  put KeyTGBotAdminChats JInts (u_AdminChatIDs req) (put KeyTGBotToken JStr (u_Token req) (base_values req)).

Definition touches_bot (req : panelSettingsUpdate) : bool :=
  bool_decide (is_Some (u_Token req)) || bool_decide (is_Some (u_AdminChatIDs req)).

(** [UpdateWithCommit] with the settings transaction as its commit. *)
Definition update_bot (ctx_ok : bool * bool) (token : bytes) (ids : list Z) (values : gmap bytes jval) (actor : bytes) :
    ST Panel (option (res (UpdateErr SErr) unit)) := fun p =>
  match bot p with
  | None => (None, p)
  | Some m =>
      let '(r, (m', s')) := UpdateWithCommit handlers getMe ctx_ok token ids (SetMany range values actor) (m, store p) in
      (Some r, set_bot (Some m') (set_store s' p))
  end.

(** [handleUpdatePanelSettings]: the document, and whether it carries a
    warning about the bot. *)
Definition persist (values : gmap bytes jval) (actor : bytes) : H unit :=
  on_settings 500 (str "write_error") (SetMany range values actor).

Definition save (req : panelSettingsUpdate) (ctx_ok : bool * bool) (actor : bytes) : H bool :=
  if negb (touches_bot req) then let? _ := persist (base_values req) actor in ret (Ok false)
  else
    let? tg := on_settings 500 (str "read_error") (effectiveTGBot (u_Token req) (u_AdminChatIDs req)) in
    let! r := update_bot ctx_ok tg.1 tg.2 (tg_values req) actor in
    match r with
    | None => let? _ := persist (tg_values req) actor in ret (Ok false)
    | Some (Ok _) => ret (Ok false)
    | Some (Err (UCommit _)) => bad 500 (str "write_error")
    | Some (Err (UBot _)) =>
        let? _ := persist (delete KeyTGBotAdminChats (delete KeyTGBotToken (tg_values req))) actor in ret (Ok true)
    end.

Definition handleUpdatePanelSettings (req : option panelSettingsUpdate) (ctx_ok : bool * bool) (actor : bytes) :
    H (panelSettingsResponse * bool) :=
  need_settings (match req with
  | None => bad 400 (str "bad_request")
  | Some req =>
      match refused req with
      | Some code => bad 400 code
      | None =>
          let? warning := save req ctx_ok actor in
          let! _ := modify (AppendAudit actor (str "panel.settings.update")) in
          let? resp := on_settings 500 (str "read_error") readPanelSettings in
          ret (Ok (resp, warning))
      end
  end).

(** ** settings.go *)
Record tgbotStatusResponse := { ts_Enabled : bool; ts_AdminCount : Z; ts_TokenMasked : bytes }.
Definition status_response (st : BotStatus) : tgbotStatusResponse :=
  {| ts_Enabled := bs_Enabled st; ts_AdminCount := bs_AdminCount st; ts_TokenMasked := bs_TokenMasked st |}.

Definition handleUpdateTgbotSettings (req : option (bytes * list Z)) (ctx_ok : bool * bool) (actor : bytes) : H tgbotStatusResponse :=
  let! p := gets id in
  if negb (wired p) || negb (bool_decide (is_Some (bot p))) then bad 503 (str "tgbot_unavailable")
  else match req with
  | None => bad 400 (str "bad_request")
  | Some (token, ids) =>
      let token := TrimSpace token in
      if negb (token == []) && (ids == []) then bad 400 (str "no_admins")
      else
        let values := <[KeyTGBotAdminChats := JInts ids]> (<[KeyTGBotToken := JStr token]> ∅) in
        let! r := update_bot ctx_ok token ids values actor in
        match r with
        | Some (Ok _) => let! p := gets id in
            ret (match bot p with Some m => Ok (status_response (ManagerStatus m)) | None => Err (503, str "tgbot_unavailable") end)
        | Some (Err (UCommit _)) => bad 500 (str "write_error")
        | _ => bad 502 (str "tgbot_update_failed")
        end
  end.

Definition handleGetTgbotSettings (p : Panel) : tgbotStatusResponse :=
  match bot p with
  | None => {| ts_Enabled := false; ts_AdminCount := 0; ts_TokenMasked := [] |}
  | Some m => status_response (ManagerStatus m)
  end.

(** ** preflight.go *)
Definition error_text (e : option PreflightErr) : bytes := match e with None => [] | Some e => errtext e end.

Definition persistPreflightResult (res : preflightResult) (actor : bytes) : Settings.S unit :=
  let values := <[KeyFrontdoorPreflightLastError := JStr (error_text (Error res))]> ∅ in
  let values := if OK res then <[KeyFrontdoorPreflightLastAt := JInt (CheckedAt res)]> values else values in
  SetMany range values actor.

Definition handleIOSPreflight (w : wire) (now : Z) (actor : bytes) : H preflightResult :=
  need_settings (
    let res := runIOSPreflight w now in
    let? _ := on_settings 500 (str "write_error") (persistPreflightResult res actor) in
    ret (Ok res)).

Definition handleIOSProfileToggle (req : option bool) (w : wire) (now : Z) (actor : bytes) : H bool :=
  need_settings (match req with
  | None => bad 400 (str "bad_request")
  | Some false =>
      let? _ := on_settings 500 (str "write_error") (SetBool KeyFrontdoorIOSProfileEnabled false actor) in ret (Ok false)
  | Some true =>
      let res := runIOSPreflight w now in
      if negb (OK res) then
        let? _ := on_settings 500 (str "write_error") (persistPreflightResult res actor) in
        bad 400 (str "preflight_failed")
      else
        let? _ := on_settings 500 (str "write_error") (SetMany range
          (<[KeyFrontdoorIOSProfileEnabled := JBool true]>
             (<[KeyFrontdoorPreflightLastError := JStr (error_text (Error res))]>
               (<[KeyFrontdoorPreflightLastAt := JInt (CheckedAt res)]> ∅))) actor) in
        ret (Ok true)
  end).
End panel.

(** ** Specification *)

(** The bot runs on the stored credentials. *)
Definition runs_stored `{JSON} (t : gmap bytes Row) (m : Manager) : Prop :=
  stored as_string (Ok []) KeyTGBotToken t = Ok (m_token m) /\ running m = negb (m_token m == []) /\
  (m_token m <> [] -> stored as_ints (Ok []) KeyTGBotAdminChats t = Ok (m_ids m)).

Definition int64s (l : list Z) : Prop := Forall (fun z => -2 ^ 63 <= z < 2 ^ 63) l.

(** Nothing the handlers share has changed. *)
Definition unchanged (p p' : Panel) : Prop := table (store p') = table (store p) /\ bot p' = bot p.

Section panel_proofs.
Context `{Unicode} `{JSON} `{!JSONLaws}.
Context (range : forall A, gmap bytes A -> list (bytes * A)).
Context (range_perm : forall A (m : gmap bytes A), range A m ≡ₚ map_to_list m).
Context (handlers : bool) (getMe : bytes -> bool) (errtext : PreflightErr -> bytes).

(** What a successful save leaves; [warned] when Telegram refused the bot. *)
Definition committed (req : panelSettingsUpdate) (actor : bytes) (p p' : Panel) (warned : bool) : Prop :=
  written (if warned then base_values req else tg_values req) actor (clock (store p)) (table (store p)) (table (store p')) /\
  if touches_bot req && negb warned
  then forall m, bot p = Some m -> exists m', bot p' = Some m' /\ runs_stored (table (store p')) m'
  else bot p' = bot p.

(** ** Lemmas *)
Lemma tg_untouched req : touches_bot req = false -> tg_values req = base_values req.
Proof.
  unfold touches_bot, tg_values. intros [H1' H2']%orb_false_iff. apply bool_decide_eq_false in H1', H2'.
  by rewrite (proj2 (eq_None_not_Some _) H1'), (proj2 (eq_None_not_Some _) H2').
Qed.

Lemma base_no_tg req : base_values req !! KeyTGBotToken = None /\ base_values req !! KeyTGBotAdminChats = None.
Proof. unfold base_values. split; repeat rewrite lookup_put_ne by (by vm_compute); apply lookup_empty. Qed.

Lemma tg_lookup req :
  tg_values req !! KeyTGBotToken = JStr <$> u_Token req /\ tg_values req !! KeyTGBotAdminChats = JInts <$> u_AdminChatIDs req.
Proof.
  destruct (base_no_tg req) as [B1 B2]. unfold tg_values. split.
  - rewrite lookup_put_ne by (by vm_compute). by apply lookup_put_eq.
  - apply lookup_put_eq. by rewrite lookup_put_ne by (by vm_compute).
Qed.

Lemma tg_deleted req k : delete KeyTGBotAdminChats (delete KeyTGBotToken (tg_values req)) !! k = base_values req !! k.
Proof.
  destruct (base_no_tg req) as [B1 B2].
  destruct (decide (k = KeyTGBotAdminChats)) as [->|H1']; [by rewrite lookup_delete_eq|]. rewrite lookup_delete_ne by done.
  destruct (decide (k = KeyTGBotToken)) as [->|H2']; [by rewrite lookup_delete_eq|]. rewrite lookup_delete_ne by done.
  unfold tg_values. by rewrite !lookup_put_ne by done.
Qed.

Lemma written_ext v v' by_ c t t' : (forall k, v !! k = v' !! k) -> written v by_ c t t' -> written v' by_ c t t'.
Proof. intros HE HW k. specialize (HW k). by rewrite HE in HW. Qed.

(** The result of [UpdateWithCommit] on the panel. *)
Lemma wp_update_bot ok token ids values actor Q p :
  (bot p = None -> Q None p) ->
  (forall m, bot p = Some m ->
    (forall e, Q (Some (Err (UBot e))) (set_bot (Some m) (set_store (store p) p))) /\
    (forall e l, Q (Some (Err (UCommit e))) (set_bot (Some m) (set_store (set_db_ok l (store p)) p))) /\
    (forall l t m', written values actor (clock (store p)) (table (store p)) t -> m_token m' = token -> running m' = negb (token == []) ->
      (token <> [] -> m_ids m' = ids) -> Q (Some (Ok tt)) (set_bot (Some m') (set_store (set_db_ok l (set_table t (store p))) p)))) ->
  wp (update_bot range handlers getMe ok token ids values actor) Q p.
Proof.
  intros HN HS. unfold wp, update_bot. destruct (bot p) as [m|] eqn:EB; [|by apply HN]. destruct (HS m eq_refl) as (HB & HC & HO).
  destruct (UpdateWithCommit _ _ _ _ _ _ _) as [r [m' s']] eqn:EU. apply UpdateWithCommit_spec in EU.
  destruct r as [[e|e]|[]].
  - destruct EU as [-> ->]. apply HB.
  - destruct EU as [ES ->]. refine (wp_elim _ (fun r s' => match r with Err e => Q (Some (Err (UCommit e))) (set_bot (Some m) (set_store s' p)) | Ok _ => True end) _ _ _ _ ES).
    by apply wp_SetMany.
  - destruct EU as (ES & Ht & Hr & Hi). refine (wp_elim _ (fun r s' => match r with Ok _ => Q (Some (Ok tt)) (set_bot (Some m') (set_store s' p)) | Err _ => True end) _ _ _ _ ES).
    apply wp_SetMany; [done|done|]. intros l t HW. by apply HO.
Qed.

Lemma wp_persist values actor Q p :
  (forall l, Q (Err (500, str "write_error")) (set_store (set_db_ok l (store p)) p)) ->
  (forall l t, written values actor (clock (store p)) (table (store p)) t -> Q (Ok tt) (set_store (set_db_ok l (set_table t (store p))) p)) ->
  wp (persist range values actor) Q p.
Proof. intros HE HO. apply wp_on_settings, wp_SetMany; [done|intros l e; apply HE|exact HO]. Qed.

Lemma wp_effective tok idp Q s :
  (forall l e, Q (Err e) (set_db_ok l s)) ->
  (forall l token ids,
    match tok with Some t => token = t | None => stored as_string (Ok []) KeyTGBotToken (table s) = Ok token end ->
    match idp with Some i => ids = i | None => stored as_ints (Ok []) KeyTGBotAdminChats (table s) = Ok ids end ->
    Q (Ok (token, ids)) (set_db_ok l s)) ->
  wp (effectiveTGBot tok idp) Q s.
Proof.
  intros HE HO. unfold effectiveTGBot.
  assert (forall l token, match tok with Some t => token = t | None => stored as_string (Ok []) KeyTGBotToken (table s) = Ok token end ->
    wp (let? ids := (match idp with Some l => ret (Ok l) | None => optional [] (GetJSON as_ints KeyTGBotAdminChats) end) in
        ret (Ok (token, ids))) Q (set_db_ok l s)) as HI.
  { intros l token Ht. apply wp_bindE. destruct idp as [i|]; [by apply wp_ret, wp_ret, HO|].
    apply wp_optional; intros k; [apply (HE k)|]. cbn [table set_db_ok].
    destruct (stored as_ints _ _ _) as [e|ids] eqn:E; [apply (HE k)|by apply wp_ret, (HO k)]. }
  apply wp_bindE. destruct tok as [t|].
  - apply wp_ret. specialize (HI (db_ok s) t eq_refl). by destruct s.
  - apply wp_typed; intros l; [apply HE|]. destruct (stored as_string _ _ _) as [e|token] eqn:E; [apply HE|by apply HI].
Qed.

(** A read leaves the table alone. *)
Definition reading {A} (m : Settings.S A) : Prop := forall s, wp m (fun _ s' => table s' = table s) s.

Lemma reading_bind {A B} (m : Settings.S A) (f : A -> Settings.S B) : reading m -> (forall a, reading (f a)) -> reading (bindE m f).
Proof.
  intros Hm Hf s. apply wp_bindE. eapply wp_mono; [apply Hm|]. cbv beta. intros [e|a] s1 Ht; [done|].
  eapply wp_mono; [apply Hf|]. cbv beta. intros _ s2. by rewrite Ht.
Qed.
Lemma reading_typed {A} (decode : bytes -> option A) zero key : reading (typed decode zero key).
Proof. intros s. by apply wp_typed. Qed.
Lemma reading_optional {A} (decode : bytes -> option A) zero key : reading (optional zero (GetJSON decode key)).
Proof. intros s. by apply wp_optional. Qed.

Lemma readPanel_keeps s : wp readPanelSettings (fun _ s' => table s' = table s) s.
Proof.
  revert s. change (reading readPanelSettings). unfold readPanelSettings.
  repeat (apply reading_bind; [apply reading_typed || apply reading_optional|intros ?]). by intros s.
Qed.

Definition sendable (req : panelSettingsUpdate) : Prop :=
  (forall t, u_Token req = Some t -> text t) /\ (forall l, u_AdminChatIDs req = Some l -> int64s l).

(** The credentials a bot update was asked with are the ones then stored. *)
Lemma credentials_stored req actor c t t' token ids :
  sendable req -> written (tg_values req) actor c t t' ->
  match u_Token req with Some v => token = v | None => stored as_string (Ok []) KeyTGBotToken t = Ok token end ->
  match u_AdminChatIDs req with Some v => ids = v | None => stored as_ints (Ok []) KeyTGBotAdminChats t = Ok ids end ->
  stored as_string (Ok []) KeyTGBotToken t' = Ok token /\ stored as_ints (Ok []) KeyTGBotAdminChats t' = Ok ids.
Proof.
  intros [HT HI] HW Ht Hi. destruct (tg_lookup req) as [L1 L2]. split.
  - erewrite (read_back _ _ JStr _ _ _ t t' _ (u_Token req) HW L1); [destruct (u_Token req); [by subst|done]|].
    intros v Hv. by apply string_back, HT.
  - erewrite (read_back _ _ JInts _ _ _ t t' _ (u_AdminChatIDs req) HW L2); [destruct (u_AdminChatIDs req); [by subst|done]|].
    intros v Hv. by apply ints_back, HI.
Qed.

Definition saved (req : panelSettingsUpdate) (actor : bytes) (p : Panel) (r : res (Z * bytes) bool) (p' : Panel) : Prop :=
  match r with Err _ => unchanged p p' | Ok warned => committed req actor p p' warned end.

Lemma save_spec req ok actor p :
  sendable req -> wp (save range handlers getMe req ok actor) (saved req actor p) p.
Proof.
  intros HS. unfold save. destruct (touches_bot req) eqn:ET; cbn [negb].
  - apply wp_bindE, wp_on_settings, wp_effective; [done|]. intros l0 token ids Ht Hi. cbn [fst snd]. apply wp_bind.
    apply wp_update_bot.
    + intros HB. apply wp_bindE, wp_persist; [done|]. intros l t HW. apply wp_ret. split; [exact HW|].
      rewrite ET. cbn. cbn in HB. intros m Hm. congruence.
    + intros m Hm. cbn in Hm. split_and!.
      * intros e. apply wp_bindE, wp_persist; [intros l; by split|]. intros l t HW. apply wp_ret. split; [|by rewrite andb_false_r].
        eapply written_ext; [apply tg_deleted|exact HW].
      * intros e l. apply wp_ret. by split.
      * intros l t m' HW Htok Hrun Hids. apply wp_ret. split; [exact HW|]. rewrite ET. cbn. intros m0 Hm0. exists m'. split; [done|].
        destruct (credentials_stored _ _ _ _ _ _ _ HS HW Ht Hi) as [S1 S2].
        split; [by rewrite Htok|]. split; [by rewrite Htok|]. rewrite Htok. intros Hne. by rewrite Hids.
  - apply wp_bindE, wp_persist; [done|]. intros l t HW. apply wp_ret. split; [|by rewrite ET]. by rewrite tg_untouched.
Qed.

(** the settings page and the running bot are one failure domain.  An
    update either changes nothing, or stores exactly the fields that were
    sent: then, if it touched the bot and Telegram accepted the credentials,
    the bot runs on the ones now stored (or is stopped, for an empty token);
    if Telegram refused them, the old bot goes on, its stored credentials are
    kept, and the answer carries a warning while the other fields are stored.
    After a commit only the final read can fail. *)
Theorem settings_and_bot req ok actor p r p' :
  sendable req -> handleUpdatePanelSettings range handlers getMe (Some req) ok actor p = (r, p') ->
  match r with
  | Ok (resp, warned) => committed req actor p p' warned
  | Err (status, code) => unchanged p p' \/ (code = str "read_error" /\ exists warned, committed req actor p p' warned)
  end.
Proof.
  intros HS E. refine (wp_elim _ (fun r p' => match r with
    | Ok (resp, warned) => committed req actor p p' warned
    | Err (status, code) => unchanged p p' \/ (code = str "read_error" /\ exists warned, committed req actor p p' warned) end) p r p' _ E).
  unfold handleUpdatePanelSettings, need_settings. apply wp_bind, wp_gets. destruct (negb _); [apply wp_ret; by left|].
  destruct (refused req) as [code|]; [apply wp_ret; by left|].
  apply wp_bindE. eapply wp_mono; [by apply save_spec|]. cbv beta. intros [[status code]|warned] p1 HP; [by left|].
  apply wp_bind, wp_modify, wp_bindE, wp_on_settings.
  assert (forall s, table s = table (store p1) -> committed req actor p (set_store s (AppendAudit actor (str "panel.settings.update") p1)) warned) as HC.
  { intros s Hs. unfold committed in *. cbn. by rewrite Hs. }
  eapply wp_mono; [apply readPanel_keeps|]. cbv beta. intros [e|resp] s Hs; [|by apply wp_ret, HC].
  right. split; [done|]. exists warned. by apply HC.
Qed.

(** The Telegram page: the same for its own handler. *)
Lemma tgbot_settings_atomic token ids ok actor p r p' :
  text (TrimSpace token) -> int64s ids ->
  handleUpdateTgbotSettings range handlers getMe (Some (token, ids)) ok actor p = (r, p') ->
  match r with
  | Ok st => exists m', bot p' = Some m' /\ st = status_response (ManagerStatus m') /\ m_token m' = TrimSpace token /\ runs_stored (table (store p')) m'
  | Err _ => unchanged p p'
  end.
Proof.
  intros HT HI E. refine (wp_elim _ (fun r p' => match r with
    | Ok st => exists m', bot p' = Some m' /\ st = status_response (ManagerStatus m') /\ m_token m' = TrimSpace token /\ runs_stored (table (store p')) m'
    | Err _ => unchanged p p' end) p r p' _ E).
  unfold handleUpdateTgbotSettings. apply wp_bind, wp_gets. destruct (negb (wired _) || _) eqn:EW; [by apply wp_ret|].
  destruct (negb _ && _); [by apply wp_ret|]. apply wp_bind, wp_update_bot; [intros HB; by apply wp_ret|].
  intros m Hm. split_and!; [intros e; by apply wp_ret|intros e l; by apply wp_ret|].
  intros l t m' HW Htok Hrun Hids. apply wp_bind, wp_gets, wp_ret. exists m'. split; [done|]. split; [done|]. split; [done|].
  cbn [store set_bot set_store table set_db_ok set_table].
  assert (KeyTGBotAdminChats <> KeyTGBotToken) as Hk by (by vm_compute).
  split; [|split; [by rewrite Htok|]].
  - rewrite Htok. rewrite (read_back _ _ JStr _ _ _ _ _ _ (Some (TrimSpace token)) HW); [done|..].
    + by rewrite lookup_insert_ne, lookup_insert_eq by done.
    + intros ? [= <-]. by apply string_back.
  - rewrite Htok. intros Hne. rewrite (Hids Hne). rewrite (read_back _ _ JInts _ _ _ _ _ _ (Some ids) HW); [done|..].
    + by rewrite lookup_insert_eq.
    + intros ? [= <-]. by apply ints_back.
Qed.

(** ** The iOS profile *)
Definition profile (p : Panel) : option Row := table (store p) !! KeyFrontdoorIOSProfileEnabled.
Definition profile_is (r : option Row) (p : Panel) : Prop := profile p = r.

Lemma keeps_settings {E A} r status code (m : ST Settings.Store (res E A)) :
  (forall s, table s !! KeyFrontdoorIOSProfileEnabled = r -> wp m (fun _ s' => table s' !! KeyFrontdoorIOSProfileEnabled = r) s) ->
  keeps (profile_is r) (on_settings status code m).
Proof.
  intros Hm. apply keeps_of_wp. intros p Hp. apply wp_on_settings. eapply wp_mono; [by apply Hm|]. done.
Qed.

Lemma keeps_reading {A} r status code (m : Settings.S A) : reading m -> keeps (profile_is r) (on_settings status code m).
Proof. intros Hm. apply keeps_settings. intros s Hs. eapply wp_mono; [apply Hm|]. cbv beta. intros _ s' ->. done. Qed.

Lemma SetMany_profile values actor r s :
  values !! KeyFrontdoorIOSProfileEnabled = None -> table s !! KeyFrontdoorIOSProfileEnabled = r ->
  wp (SetMany range values actor) (fun _ s' => table s' !! KeyFrontdoorIOSProfileEnabled = r) s.
Proof.
  intros Hv Hs. apply wp_SetMany; [done|done|]. intros l t HW. specialize (HW KeyFrontdoorIOSProfileEnabled).
  rewrite Hv in HW. cbn [table set_db_ok set_table]. by rewrite HW.
Qed.

Lemma keeps_SetMany r status code values actor :
  values !! KeyFrontdoorIOSProfileEnabled = None -> keeps (profile_is r) (on_settings status code (SetMany range values actor)).
Proof. intros Hv. apply keeps_settings. intros s. by apply SetMany_profile. Qed.

Lemma keeps_update_bot r ok token ids values actor :
  values !! KeyFrontdoorIOSProfileEnabled = None -> keeps (profile_is r) (update_bot range handlers getMe ok token ids values actor).
Proof.
  intros Hv. apply keeps_of_wp. intros p Hp. apply wp_update_bot; [done|]. intros m _. split_and!; [done|done|].
  intros l t m' HW _ _ _. specialize (HW KeyFrontdoorIOSProfileEnabled). rewrite Hv in HW.
  unfold profile_is, profile. cbn [store set_bot set_store table set_db_ok set_table]. by rewrite HW.
Qed.

(** *** Every other handler leaves the switch alone *)
Lemma proxy_profile req : proxy_values req !! KeyFrontdoorIOSProfileEnabled = None.
Proof. unfold proxy_values. repeat rewrite lookup_put_ne by (by vm_compute). apply lookup_empty. Qed.

Lemma tg_profile req :
  base_values req !! KeyFrontdoorIOSProfileEnabled = None /\ tg_values req !! KeyFrontdoorIOSProfileEnabled = None.
Proof. unfold tg_values, base_values. split; repeat rewrite lookup_put_ne by (by vm_compute); apply lookup_empty. Qed.

Lemma keeps_need {A} r (k : H A) : keeps (profile_is r) k -> keeps (profile_is r) (need_settings k).
Proof. intros Hk. apply keeps_bind; [apply keeps_gets|]. intros p. by destruct (negb _); [apply keeps_ret|]. Qed.

Lemma keeps_proxy egress r req actor : keeps (profile_is r) (handleUpdateFrontdoorProxy range egress req actor).
Proof.
  apply keeps_need. destruct req as [req|]; [|apply keeps_ret]. destruct (negb (validateProxySettings req)); [apply keeps_ret|].
  apply keeps_bindE.
  - apply keeps_settings. intros s Hs. by apply wp_readProxySettings.
  - intros prev. cbv zeta. destruct (spoofPolicyFromSettings (proxy_merged req prev)); [|apply keeps_ret].
    apply keeps_bindE; [apply keeps_SetMany, proxy_profile|]. intros _. apply keeps_bind; [|intros; apply keeps_ret].
    apply keeps_modify. intros p Hp. by destruct (live p).
Qed.

Lemma keeps_internal r req actor : keeps (profile_is r) (handleUpdateInternalOnly range req actor).
Proof.
  apply keeps_need. destruct req as [[on cidrs]|]; [|apply keeps_ret]. apply keeps_bindE.
  - apply keeps_reading. unfold readInternalOnly.
    repeat (apply reading_bind; [apply reading_typed|intros ?]). by intros s.
  - intros old. cbv zeta. cbn [io_CIDRs io_Enabled]. destruct (ValidateCIDRs (default (io_CIDRs old) cidrs)); [apply keeps_ret|]. apply keeps_bindE; [apply keeps_SetMany|].
    + repeat rewrite lookup_put_ne by (by vm_compute). apply lookup_empty.
    + intros _. apply keeps_bind; [apply keeps_gets|]. intros p. destruct (gate p) as [g|]; [|apply keeps_ret].
      destruct (Configure g (default (io_Enabled old) on) (default (io_CIDRs old) cidrs)); [apply keeps_ret|]. apply keeps_bind; [by apply keeps_modify|]. intros; apply keeps_ret.
Qed.

Lemma keeps_save r req ok actor : keeps (profile_is r) (save range handlers getMe req ok actor).
Proof.
  destruct (tg_profile req) as [P1 P2]. unfold save. destruct (negb _).
  - apply keeps_bindE; [by apply keeps_SetMany|]. intros; apply keeps_ret.
  - apply keeps_bindE.
    + apply keeps_settings. intros s Hs. by apply wp_effective.
    + intros tg. apply keeps_bind; [by apply keeps_update_bot|]. intros [[[e|e]|[]]|].
      * apply keeps_bindE; [|intros; apply keeps_ret]. apply keeps_SetMany. by rewrite tg_deleted.
      * apply keeps_ret.
      * apply keeps_ret.
      * apply keeps_bindE; [by apply keeps_SetMany|]. intros; apply keeps_ret.
Qed.

Lemma keeps_panel r req ok actor : keeps (profile_is r) (handleUpdatePanelSettings range handlers getMe req ok actor).
Proof.
  apply keeps_need. destruct req as [req|]; [|apply keeps_ret]. destruct (refused req); [apply keeps_ret|].
  apply keeps_bindE; [apply keeps_save|]. intros w. apply keeps_bind; [by apply keeps_modify|]. intros _.
  apply keeps_bindE; [|intros; apply keeps_ret]. apply keeps_reading. intros s. apply readPanel_keeps.
Qed.

Lemma keeps_tgbot r req ok actor : keeps (profile_is r) (handleUpdateTgbotSettings range handlers getMe req ok actor).
Proof.
  apply keeps_bind; [apply keeps_gets|]. intros p. destruct (_ || _); [apply keeps_ret|].
  destruct req as [[token ids]|]; [|apply keeps_ret]. cbv zeta. destruct (negb (TrimSpace token == []) && (ids == [])); [apply keeps_ret|].
  apply keeps_bind; [apply keeps_update_bot; by rewrite !lookup_insert_ne by (by vm_compute)|].
  intros [[[e|e]|[]]|]; [apply keeps_ret..| |apply keeps_ret]. apply keeps_bind; [apply keeps_gets|]. intros; apply keeps_ret.
Qed.

Lemma keeps_persist r res actor status code : keeps (profile_is r) (on_settings status code (persistPreflightResult range errtext res actor)).
Proof. apply keeps_SetMany. destruct (OK res); by rewrite !lookup_insert_ne by (by vm_compute). Qed.

(** ** Sequences of requests *)
Inductive request :=
| ReqProxy (egress : option (option bytes)) (req : option proxySettingsDoc) (actor : bytes)
| ReqInternal (req : option (option bool * option bytes)) (actor : bytes)
| ReqPanel (req : option panelSettingsUpdate) (ok : bool * bool) (actor : bytes)
| ReqTgbot (req : option (bytes * list Z)) (ok : bool * bool) (actor : bytes)
| ReqPreflight (w : wire) (now : Z) (actor : bytes)
| ReqToggle (req : option bool) (w : wire) (now : Z) (actor : bytes).

Definition serve (p : Panel) (q : request) : Panel :=
  match q with
  | ReqProxy egress req actor => (handleUpdateFrontdoorProxy range egress req actor p).2
  | ReqInternal req actor => (handleUpdateInternalOnly range req actor p).2
  | ReqPanel req ok actor => (handleUpdatePanelSettings range handlers getMe req ok actor p).2
  | ReqTgbot req ok actor => (handleUpdateTgbotSettings range handlers getMe req ok actor p).2
  | ReqPreflight w now actor => (handleIOSPreflight range errtext w now actor p).2
  | ReqToggle req w now actor => (handleIOSProfileToggle range errtext req w now actor p).2
  end.

Definition profile_on (p : Panel) : Prop := stored as_bool (Ok false) KeyFrontdoorIOSProfileEnabled (table (store p)) = Ok true.

(** A preflight that passed: the listener was reached, took the query and
    answered it. *)
Definition passed (w : wire) : Prop := dials w = true /\ sends w = true /\ reply w = Some true.

Lemma preflight_ok w now : OK (runIOSPreflight w now) = true <-> passed w.
Proof. unfold runIOSPreflight, passed. destruct w as [[|] [|] [[|]|]]; cbn; naive_solver. Qed.

Lemma same_profile p p' : profile p' = profile p -> profile_on p' -> profile_on p.
Proof. unfold profile_on, stored, profile. by intros ->. Qed.

Lemma toggle_off w now actor p :
  profile_on (handleIOSProfileToggle range errtext (Some false) w now actor p).2 -> profile_on p.
Proof.
  assert (wp (handleIOSProfileToggle range errtext (Some false) w now actor) (fun _ p' => profile_on p' -> profile_on p) p) as HW.
  2: { unfold wp in HW. by destruct (handleIOSProfileToggle _ _ _ _ _ _ p). }
  unfold handleIOSProfileToggle, need_settings. apply wp_bind, wp_gets. destruct (negb _); [by apply wp_ret|].
  apply wp_bindE, wp_on_settings. unfold SetBool, SetJSON. destruct (bool_back false) as (raw & -> & Hraw).
  apply wp_upsert; [done|]. intros l. apply wp_ret. unfold profile_on, stored.
  cbn [store set_store table set_db_ok set_table]. rewrite lookup_insert_eq. cbn [value]. by rewrite Hraw.
Qed.

Lemma serve_profile p q :
  profile_on (serve p q) -> profile_on p \/ exists w now actor, q = ReqToggle (Some true) w now actor /\ passed w.
Proof.
  assert (forall {A} (m : ST Panel A), keeps (profile_is (profile p)) m -> profile_on (m p).2 -> profile_on p) as HK.
  { intros A m Hm. apply same_profile. by apply Hm. }
  destruct q as [egress req actor|req actor|req ok actor|req ok actor|w now actor|req w now actor]; cbn [serve].
  - intros Hp. left. revert Hp. apply HK, keeps_proxy.
  - intros Hp. left. revert Hp. apply HK, keeps_internal.
  - intros Hp. left. revert Hp. apply HK, keeps_panel.
  - intros Hp. left. revert Hp. apply HK, keeps_tgbot.
  - intros Hp. left. revert Hp. apply HK, keeps_need. apply keeps_bindE; [apply keeps_persist|]. intros; apply keeps_ret.
  - destruct req as [[|]|].
    + destruct (OK (runIOSPreflight w now)) eqn:EO; [right; exists w, now, actor; split; [done|by apply (preflight_ok w now)]|].
      intros Hp. left. revert Hp. apply HK, keeps_need. cbv zeta. rewrite EO. cbn [negb].
      apply keeps_bindE; [apply keeps_persist|]. intros; apply keeps_ret.
    + intros Hp. left. revert Hp. by apply toggle_off.
    + intros Hp. left. revert Hp. apply HK, keeps_need, keeps_ret.
Qed.

(** the iOS profile is served only after a preflight: in every sequence of
    requests to the settings handlers - of any kind, with any failures of the
    database and of Telegram - if the profile is enabled at the end and was
    not at the start, some request to enable it ran a preflight that passed:
    the DoT listener was reached, took the query and answered it. *)
Theorem ios_gate qs p :
  stored as_bool (Ok false) KeyFrontdoorIOSProfileEnabled (table (store p)) <> Ok true ->
  stored as_bool (Ok false) KeyFrontdoorIOSProfileEnabled (table (store (foldl serve p qs))) = Ok true ->
  exists w now actor, ReqToggle (Some true) w now actor ∈ qs /\ dials w = true /\ sends w = true /\ reply w = Some true.
Proof.
  revert p. induction qs as [|q qs IH]; intros p Hno Hon; [done|]. cbn [foldl] in Hon.
  assert (profile_on (serve p q) \/ ~ profile_on (serve p q)) as [Hq|Hq].
  { unfold profile_on. destruct (stored as_bool (Ok false) KeyFrontdoorIOSProfileEnabled (table (store (serve p q)))) as [e|b]; [right; discriminate|]. destruct b; [by left|right; discriminate]. }
  - destruct (serve_profile p q Hq) as [|(w & now & actor & -> & Hw)]; [done|]. exists w, now, actor. split; [left|done].
  - destruct (IH _ Hq Hon) as (w & now & actor & Hin & Hw). exists w, now, actor. split; [by right|done].
Qed.
End panel_proofs.

(** ** Concrete inputs *)
Module Demo.
#[local] Existing Instance ascii_tables.
#[local] Existing Instance sample_json.
#[local] Existing Instance sample_json_laws.

Definition telegram (token : bytes) : bool := negb (token == str "bad").
Definition m0 : Manager := (Manager_Start true telegram (str "old") [1] NewManager).2.
Definition p0 : Panel :=
  {| wired := true; store := {| table := ∅; db_ok := []; clock := 1 |}; live := None; gate := None; bot := Some m0; audits := [] |}.

Definition blank : panelSettingsUpdate :=
  {| u_Domain := Some (str "a.example"); u_PanelBind := None; u_PanelPort := Some 8443; u_ACMEEnabled := None; u_ACMEEmail := None;
     u_Token := None; u_AdminChatIDs := None; u_WAEnabled := None; u_Listen := None; u_Port := None; u_Backend := None;
     u_WAHost := None; u_AllowCIDR := None; u_Complete := Some true |}.
Definition with_bot (token : bytes) (ids : list Z) : panelSettingsUpdate :=
  {| u_Domain := Some (str "a.example"); u_PanelBind := None; u_PanelPort := Some 8443; u_ACMEEnabled := None; u_ACMEEmail := None;
     u_Token := Some token; u_AdminChatIDs := Some ids; u_WAEnabled := None; u_Listen := None; u_Port := None; u_Backend := None;
     u_WAHost := None; u_AllowCIDR := None; u_Complete := Some true |}.

Definition update (req : panelSettingsUpdate) : res (Z * bytes) (panelSettingsResponse * bool) * Panel :=
  handleUpdatePanelSettings sample_range true telegram (Some req) (true, true) (str "admin") p0.

Definition doc (req : panelSettingsUpdate) : panelSettingsResponse :=
  match (update req).1 with
  | Ok (d, _) => d
  | Err _ => {| p_Domain := []; p_PanelBind := []; p_PanelPort := 0; p_ACMEEnabled := false; p_ACMEEmail := []; p_TokenSet := false;
      p_TokenMasked := []; p_AdminChatIDs := []; p_WAEnabled := false; p_Listen := []; p_Port := 0; p_Backend := []; p_WAHost := [];
      p_AllowCIDR := []; p_Complete := false; p_ProfileEnabled := false; p_FallbackDoT := []; p_PreflightLastAt := None;
      p_PreflightLastError := [] |}
  end.

Definition req : panelSettingsUpdate := with_bot (str "new") [7].
Definition p1 : Panel := (update req).2.

Lemma panel_update_run : handleUpdatePanelSettings sample_range true telegram (Some req) (true, true) (str "admin") p0 = (Ok (doc req, false), p1).
Proof. unfold p1, update. apply fst_pair. by vm_compute. Qed.

Lemma sendable_req : sendable req.
Proof. split; [by intros|]. intros l [= <-]. constructor; [lia|constructor]. Qed.

Lemma settings_and_bot_witness : exists m, bot p1 = Some m /\ runs_stored (table (store p1)) m.
Proof.
  pose proof (settings_and_bot sample_range sample_range_perm true telegram req (true, true) (str "admin") p0
    (Ok (doc req, false)) p1 sendable_req panel_update_run) as HC.
  exact (proj2 HC m0 eq_refl).
Defined.

(** Telegram refuses the token: the domain is stored, the bot and its row are
    the old ones, and the answer warns. *)
Example refused_token :
  match update (with_bot (str "bad") [7]) with
  | (Ok (d, warned), p) => (warned, p_Domain d, p_TokenSet d, m_token <$> bot p) = (true, str "a.example", false, Some (str "old"))
  | _ => False
  end.
Proof. by vm_compute. Qed.

Definition up : wire := {| dials := true; sends := true; reply := Some true |}.
Definition mute : wire := {| dials := true; sends := true; reply := Some false |}.
Definition errtext (e : PreflightErr) : bytes := str "preflight failed".
Definition qs : list request :=
  [ReqToggle (Some true) mute 5 (str "admin"); ReqPanel (Some blank) (true, true) (str "admin"); ReqToggle (Some true) up 6 (str "admin");
   ReqPreflight mute 7 (str "admin")].

Lemma qs_on :
  stored as_bool (Ok false) KeyFrontdoorIOSProfileEnabled
    (table (store (foldl (serve sample_range true telegram errtext) p0 qs))) = Ok true.
Proof. by vm_compute. Qed.

Lemma ios_gate_witness :
  exists w now actor, ReqToggle (Some true) w now actor ∈ qs /\ dials w = true /\ sends w = true /\ reply w = Some true.
Proof.
  exact (ios_gate sample_range sample_range_perm true telegram errtext qs p0 ltac:(by vm_compute) qs_on).
Defined.
End Demo.
