(* ===== verification/WaShim.v ===== *)
(** * The WhatsApp shim (internal/proxy/washim.go)

    The fail-open relay on TCP/443: the peek at the first bytes of a
    connection, its classification, the cache of edge addresses, the relay,
    and the accept loop with its cap.  A connection's input is the list of
    what its reads return; the answers of the DNS resolvers and the outcomes
    of dials and writes are parameters of each step.  Handlers interleave at
    the points where they share the cache. *)
From S2P Require Import Prelude GoStrings GoNet Crypto GoIP.
From Stdlib Require Import ZArith Lia.
Local Open Scope Z_scope.

Record WAShimConfig := {
  Listen : bytes; Port : Z; Backend : bytes; WAHost : bytes; WAPort : Z; Resolvers : list bytes;
  SelfIPs : gmap bytes bool; AllowCIDR : list IPNet; PeekTimeout : Z; ConnectTimeout : Z; DNSTTL : Z; MaxConn : Z
}.

Definition millisecond : Z := 1000000.

Definition must (pattern : bytes) : list IPNet := option_list (ParseCIDR pattern).

Definition DefaultWAShimConfig : WAShimConfig := {|
  Listen := str "0.0.0.0"; Port := 443; Backend := str "127.0.0.1:8443"; WAHost := str "g.whatsapp.net"; WAPort := 443;
  Resolvers := [str "1.1.1.1"; str "8.8.8.8"];
  SelfIPs := list_to_map (map (fun a => (str a, true)) ["127.0.0.1"; "::1"; "0.0.0.0"; "::"]%string);
  AllowCIDR := must (str "172.22.0.0/16") ++ must (str "127.0.0.0/8");
  PeekTimeout := 3000 * millisecond; ConnectTimeout := 8000 * millisecond; DNSTTL := 60000 * millisecond; MaxConn := 8192
|}.

(** ** Classification *)
Inductive Route := RouteBackend | RouteWhatsApp.
#[export] Instance Route_eq_dec : EqDecision Route.
Proof. solve_decision. Defined.

Definition waPrefixes : list bytes := [str "ED"; str "WA"].
Definition knownHandshakes : list bytes := [map zb [0x45; 0x44; 0x00; 0x01]; map zb [0x57; 0x41; 0x06; 0x03]].

Definition is_wa (prefix : bytes) : bool := bool_decide (prefix ∈ waPrefixes).

Definition Classify (data : bytes) : Route * bytes :=
  if (2 <=? len data) && is_wa (take 2 data) then
    (RouteWhatsApp, if (4 <=? len data) && bool_decide (take 4 data ∈ knownHandshakes) then str "known" else str "new")
  else (RouteBackend, []).

Definition SourceAllowed (cfg : WAShimConfig) (remoteHost : bytes) : bool :=
  match ParseIP remoteHost with
  | None => false
  | Some ip => existsb (fun n => IPNet_Contains n ip) (AllowCIDR cfg)
  end.

(** ** [peek]

    What successive reads of a connection find: a segment, or [None] when
    the read deadline passes first; at the end of the list every read fails.
    A read takes at most the bytes asked for and leaves the others. *)
Definition input := list (option bytes).

Definition push (b : bytes) (rest : input) : input := if b == [] then rest else Some b :: rest.

Definition peek_enough (buf : bytes) : bool := (2 <=? len buf) && (negb (is_wa (take 2 buf)) || (4 <=? len buf)).

Fixpoint peek_loop (n : nat) (buf : bytes) (segs : input) : bytes * input :=
  if (n <=? length buf)%nat then (buf, segs)
  else match segs with
  | [] => (buf, [])
  | None :: rest => (buf, rest)
  | Some c :: rest =>
      let k := (n - length buf)%nat in
      let buf := buf ++ take k c in
      if peek_enough buf || (k <? length c)%nat      (* the second: [buf] is full *)
      then (buf, push (drop k c) rest)
      else peek_loop n buf rest
  end.

Definition peek (segs : input) (n : nat) : bytes * input := peek_loop n [] segs.

(** ** The edge addresses *)
Record waCache := { addrs : list bytes; expiresAt : Z }.

Definition isGlobal (ip : bytes) : bool :=
  negb (ip_loopback ip || ip_private ip || ip_link_local ip || ip_interface_local_multicast ip || ip_multicast ip || ip_unspecified ip).

Definition is_self (cfg : WAShimConfig) (s : bytes) : bool := default false (SelfIPs cfg !! s).

Definition usable (cfg : WAShimConfig) (ips : list bytes) : list bytes :=
  map IP_String (filter (fun ip => is_self cfg (IP_String ip) = false /\ isGlobal ip = true) ips).

(** The loop over the resolvers; [lookup r] is the answer of the resolver at
    [r] for the edge's name, [None] for a failed lookup. *)
Definition resolver_addr (r : bytes) : bytes :=
  if Contains r (str ":") then r else JoinHostPort r (str "53").

Fixpoint try_resolvers (cfg : WAShimConfig) (lookup : bytes -> option (list bytes)) (rs : list bytes) : list bytes :=
  match rs with
  | [] => []
  | r :: rs =>
      match lookup (resolver_addr r) with
      | None => try_resolvers cfg lookup rs
      | Some ips => let out := usable cfg ips in if out == [] then try_resolvers cfg lookup rs else out
      end
  end.

(** [resolveEdge] up to the lookups: the literal and the cache ([None]: the
    resolvers have to be asked). *)
Definition resolve_cached (cfg : WAShimConfig) (now : Z) (c : waCache) : option (list bytes) :=
  match ParseIP (WAHost cfg) with
  | Some ip => Some (if is_self cfg (IP_String ip) then [] else [IP_String ip])
  | None => if (now <? expiresAt c) && negb (addrs c == []) then Some (addrs c) else None
  end.

Definition resolve_store (cfg : WAShimConfig) (now : Z) (out : list bytes) : waCache :=
  {| addrs := out; expiresAt := now + DNSTTL cfg |}.

(** ** The handler *)
Inductive Event :=
| EvDial (address : bytes)
| EvWrite (d : bytes)        (* the peeked bytes, to the upstream just dialled *)
| EvPipe (d : bytes)         (* both directions are spliced; [d] is what the client still sends *)
| EvCloseUpstream
| EvCloseClient.

Section handler.
Context (cfg : WAShimConfig) (dial : bytes -> bool) (write_ok : bytes -> bool).

Definition stream (segs : input) : bytes := concat (omap id segs).

Definition relay (address first : bytes) (rest : input) : bool * list Event :=
  if negb (dial address) then (false, [EvDial address])
  else if negb (first == []) && negb (write_ok address) then (false, [EvDial address; EvWrite first; EvCloseUpstream])
  else (true, EvDial address :: (if first == [] then [] else [EvWrite first]) ++ [EvPipe (stream rest); EvCloseUpstream]).

Definition edge_addr (a : bytes) : bytes := JoinHostPort a (strconv_Itoa (WAPort cfg)).

(** The end of [handle], from the addresses of the edge on. *)
Definition fail_open (first : bytes) (rest : input) : list Event := (relay (Backend cfg) first rest).2 ++ [EvCloseClient].

Definition to_edge (edge : list bytes) (first : bytes) (rest : input) : list Event :=
  match edge with
  | [] => fail_open first rest
  | a :: _ =>
      let '(ok, es) := relay (edge_addr a) first rest in
      if ok then es ++ [EvCloseClient] else es ++ fail_open first rest
  end.
End handler.

(** ** The server: accept loop, counter, cache and handlers *)
Inductive phase :=
| Accepted                                          (* the goroutine is started *)
| LookingUp (first : bytes) (rest : input)          (* between the cache and the resolvers *)
| Served (es : list Event)                          (* [handle] has returned *)
| Gone (es : list Event).                           (* the counter is taken back *)

Record Conn := { source : bytes; segs : input; at_ : phase }.
Record WAShim := { active : Z; cache : waCache; conns : list Conn; dropped : Z }.

Definition NewWAShim : WAShim := {| active := 0; cache := {| addrs := []; expiresAt := 0 |}; conns := []; dropped := 0 |}.

Definition set_phase (i : nat) (ph : phase) (s : WAShim) : WAShim :=
  {| active := active s; cache := cache s;
     conns := alter (fun c => {| source := source c; segs := segs c; at_ := ph |}) i (conns s); dropped := dropped s |}.
Definition set_cache (c : waCache) (s : WAShim) : WAShim :=
  {| active := active s; cache := c; conns := conns s; dropped := dropped s |}.
Definition set_active (n : Z) (s : WAShim) : WAShim :=
  {| active := n; cache := cache s; conns := conns s; dropped := dropped s |}.

Definition Outcomes : Type := (bytes -> bool) * (bytes -> bool).   (* dials and writes *)

Inductive WAStep :=
| DoAccept (source : bytes) (segs : input)          (* one turn of the loop of [Serve] *)
| DoHandle (i : nat) (now : Z) (o : Outcomes)       (* [handle] up to the lookups *)
| DoLookup (i : nat) (lookup : bytes -> option (list bytes)) (now : Z) (o : Outcomes)
| DoExit (i : nat).                                 (* the deferred [active.Add(-1)] *)

Definition accept (cfg : WAShimConfig) (src : bytes) (sg : input) (s : WAShim) : WAShim :=
  if MaxConn cfg <=? active s
  then {| active := active s; cache := cache s; conns := conns s; dropped := dropped s + 1 |}
  else {| active := active s + 1; cache := cache s; conns := conns s ++ [{| source := src; segs := sg; at_ := Accepted |}];
          dropped := dropped s |}.

Definition handle (cfg : WAShimConfig) (now : Z) (o : Outcomes) (c : Conn) (cc : waCache) : phase :=
  let '(first, rest) := peek (segs c) 8 in
  if bool_decide ((Classify first).1 = RouteWhatsApp) && SourceAllowed cfg (source c) then
    match resolve_cached cfg now cc with
    | Some edge => Served (to_edge cfg o.1 o.2 edge first rest)
    | None => LookingUp first rest
    end
  else Served (fail_open cfg o.1 o.2 first rest).

Definition wa_step (cfg : WAShimConfig) (s : WAShim) (e : WAStep) : option WAShim :=
  match e with
  | DoAccept src sg => Some (accept cfg src sg s)
  | DoHandle i now o =>
      c ← conns s !! i;
      match at_ c with
      | Accepted => Some (set_phase i (handle cfg now o c (cache s)) s)
      | _ => None
      end
  | DoLookup i lookup now o =>
      c ← conns s !! i;
      match at_ c with
      | LookingUp first rest =>
          let out := try_resolvers cfg lookup (Resolvers cfg) in
          Some (set_phase i (Served (to_edge cfg o.1 o.2 out first rest)) (set_cache (resolve_store cfg now out) s))
      | _ => None
      end
  | DoExit i =>
      c ← conns s !! i;
      match at_ c with
      | Served es => Some (set_active (active s - 1) (set_phase i (Gone es) s))
      | _ => None
      end
  end.

Definition wa_run (cfg : WAShimConfig) (es : list WAStep) : option WAShim :=
  foldl (fun o e => s ← o; wa_step cfg s e) (Some NewWAShim) es.

(** ** Specification *)

(** The upstream connections of a trace: the address, what the client's
    bytes sent to it are, and whether it was spliced. *)
Abbreviation session := (bytes * bytes * bool)%type.

Definition session_step (l : list session) (e : Event) : list session :=
  match e, l with
  | EvDial a, _ => (a, [], false) :: l
  | EvWrite d, (a, b, x) :: l => (a, b ++ d, x) :: l
  | EvPipe d, (a, b, _) :: l => (a, b ++ d, true) :: l
  | _, _ => l
  end.
Definition sessions (es : list Event) : list session := rev (foldl session_step [] es).

Definition trace_of (c : Conn) : option (list Event) :=
  match at_ c with Served es | Gone es => Some es | _ => None end.

(** An address the edge may have: the configured literal, or a global
    address a configured resolver gave; never one of the host's own. *)
Definition good_edge (cfg : WAShimConfig) (es : list WAStep) (e : bytes) : Prop :=
  is_self cfg e = false /\
  ((exists ip, ParseIP (WAHost cfg) = Some ip /\ e = IP_String ip) \/
   (exists i lookup now o r ips ip, DoLookup i lookup now o ∈ es /\ r ∈ Resolvers cfg /\ lookup (resolver_addr r) = Some ips /\
      ip ∈ ips /\ isGlobal ip = true /\ e = IP_String ip)).

(** When and where a connection may be relayed to the edge. *)
Definition edge_ok (cfg : WAShimConfig) (es : list WAStep) (c : Conn) (a : bytes) : Prop :=
  (Classify (stream (segs c))).1 = RouteWhatsApp /\ SourceAllowed cfg (source c) = true /\
  exists e, a = edge_addr cfg e /\ good_edge cfg es e.

(** What a session sent: everything when it was spliced, else at most the
    peeked bytes. *)
Definition sent (c : Conn) (b : bytes) (spliced : bool) : Prop :=
  if spliced then b = stream (segs c) else b `prefix_of` stream (segs c).

Definition policy (cfg : WAShimConfig) (es : list WAStep) (c : Conn) (tr : list Event) : Prop :=
  match sessions tr with
  | [(a, b, x)] => sent c b x /\ (a = Backend cfg \/ (x = true /\ edge_ok cfg es c a))
  | [(a, b, x); (a', b', x')] => sent c b x /\ sent c b' x' /\ x = false /\ a' = Backend cfg /\ edge_ok cfg es c a
  | _ => False
  end.

(** ** Lemmas: classification and peeking *)
Lemma stream_some c rest : stream (Some c :: rest) = c ++ stream rest.
Proof. done. Qed.
Lemma stream_push b rest : stream (push b rest) = b ++ stream rest.
Proof. unfold push. case_bool_decide as H; [by rewrite H|done]. Qed.

Lemma classify_prefix a b : peek_enough a = true -> Classify (a ++ b) = Classify a.
Proof.
  unfold peek_enough, Classify. intros [H2 H4]%andb_true_iff. apply Z.leb_le in H2.
  rewrite take_app_le by (unfold len in H2; lia).
  assert ((2 <=? len (a ++ b)) = true) as -> by (apply Z.leb_le; rewrite len_app; pose proof (len_nonneg b); lia).
  assert ((2 <=? len a) = true) as -> by (by apply Z.leb_le).
  destruct (is_wa (take 2 a)); [|done]. cbn [andb]. cbn [negb orb] in H4. apply Z.leb_le in H4.
  rewrite take_app_le by (unfold len in H4; lia).
  assert ((4 <=? len (a ++ b)) = true) as -> by (apply Z.leb_le; rewrite len_app; pose proof (len_nonneg b); lia).
  by assert ((4 <=? len a) = true) as -> by (by apply Z.leb_le).
Qed.

Lemma classify_wa a b : (Classify a).1 = RouteWhatsApp -> (Classify (a ++ b)).1 = RouteWhatsApp.
Proof.
  unfold Classify. destruct (_ && _) eqn:E; [|done]. intros _. apply andb_true_iff in E as [H2 HW]. apply Z.leb_le in H2.
  rewrite take_app_le by (unfold len in H2; lia). rewrite HW.
  by assert ((2 <=? len (a ++ b)) = true) as -> by (apply Z.leb_le; rewrite len_app; pose proof (len_nonneg b); lia).
Qed.

Lemma peek_loop_spec n buf segs first rest :
  (length buf <= n)%nat -> peek_loop n buf segs = (first, rest) ->
  first ++ stream rest = buf ++ stream segs /\ (length first <= n)%nat /\
  (Forall is_Some segs -> peek_enough first = true \/ length first = n \/ stream rest = []).
Proof.
  revert buf. induction segs as [|[c|] segs IH]; intros buf Hn; cbn [peek_loop].
  1-3: destruct (Nat.leb_spec n (length buf)) as [Hf|Hf]; [intros [= <- <-]; split_and!; [done|lia|right; left; lia]|].
  - intros [= <- <-]. split_and!; [done|lia|by right; right].
  - cbv zeta. rewrite stream_some.
    destruct (peek_enough (buf ++ take (n - length buf) c) || (n - length buf <? length c)%nat) eqn:ES.
    + intros [= <- <-]. rewrite stream_push, <- !app_assoc, (app_assoc (take _ _)), take_drop.
      split_and!; [done|rewrite length_app, length_take; lia|]. intros _. apply orb_true_iff in ES as [ES|ES]; [by left|right; left].
      apply Nat.ltb_lt in ES. rewrite length_app, length_take. lia.
    + apply orb_false_iff in ES as [_ ES]. apply Nat.ltb_ge in ES. rewrite (take_ge c) by lia. intros E.
      apply IH in E as (E1 & E2 & E3); [|rewrite length_app; lia]. rewrite <- app_assoc in E1.
      split_and!; [done|done|]. intros HF. by apply E3, (Forall_inv_tail HF).
  - intros [= <- <-]. split_and!; [done|lia|]. intros HF. by apply Forall_inv, is_Some_None in HF.
Qed.

(** ** Lemmas: relaying *)
Lemma relay_sessions dial write_ok a first rest l :
  exists b, foldl session_step l (relay dial write_ok a first rest).2 = (a, b, (relay dial write_ok a first rest).1) :: l /\
  if (relay dial write_ok a first rest).1 then b = first ++ stream rest else b `prefix_of` first.
Proof.
  unfold relay. destruct (dial a); cbn [negb].
  2: { exists []. split; [done|]. by apply prefix_nil. }
  destruct (negb (first == []) && negb (write_ok a)) eqn:E; cbn [fst snd].
  - exists first. split; [done|done].
  - exists (first ++ stream rest). split; [|done]. case_bool_decide as H; [by rewrite H|done].
Qed.

(** One or two sessions, the last with the backend unless the edge took it. *)
Definition served (cfg : WAShimConfig) (edge : list bytes) (first : bytes) (rest : input) (tr : list Event) : Prop :=
  let whole (b : bytes) (x : bool) : Prop := if x then b = first ++ stream rest else b `prefix_of` first in
  (exists b x, sessions tr = [(Backend cfg, b, x)] /\ whole b x) \/
  (exists e b, e ∈ edge /\ sessions tr = [(edge_addr cfg e, b, true)] /\ whole b true) \/
  (exists e b b' x, e ∈ edge /\ sessions tr = [(edge_addr cfg e, b, false); (Backend cfg, b', x)] /\ whole b false /\ whole b' x).

Lemma fail_open_served cfg dial write_ok edge first rest : served cfg edge first rest (fail_open cfg dial write_ok first rest).
Proof.
  left. destruct (relay_sessions dial write_ok (Backend cfg) first rest []) as (b & HS & Hb).
  exists b, (relay dial write_ok (Backend cfg) first rest).1. unfold sessions, fail_open. rewrite foldl_app, HS. done.
Qed.

Lemma to_edge_served cfg dial write_ok edge first rest : served cfg edge first rest (to_edge cfg dial write_ok edge first rest).
Proof.
  destruct edge as [|e edge]; [apply fail_open_served|]. unfold to_edge.
  destruct (relay_sessions dial write_ok (edge_addr cfg e) first rest []) as (b & HS & Hb).
  destruct (relay dial write_ok (edge_addr cfg e) first rest) as [[|] es]; cbn [fst snd] in *; right.
  - left. exists e, b. split; [left|]. unfold sessions. by rewrite foldl_app, HS.
  - right. destruct (relay_sessions dial write_ok (Backend cfg) first rest [(edge_addr cfg e, b, false)]) as (b' & HS' & Hb').
    exists e, b, b', (relay dial write_ok (Backend cfg) first rest).1. split; [left|]. unfold sessions, fail_open.
    rewrite !foldl_app, HS, HS'. done.
Qed.

Lemma served_policy cfg es c edge first rest tr :
  peek (segs c) 8 = (first, rest) -> served cfg edge first rest tr ->
  (edge <> [] -> (Classify first).1 = RouteWhatsApp /\ SourceAllowed cfg (source c) = true /\ Forall (good_edge cfg es) edge) ->
  policy cfg es c tr.
Proof.
  intros EP HS HE. apply peek_loop_spec in EP as (EP & _ & _); [|cbn; lia]. rewrite app_nil_l in EP.
  assert (forall b x, (if x : bool then b = first ++ stream rest else b `prefix_of` first) -> sent c b x) as HW.
  { intros b [|]; unfold sent; rewrite <- EP; [done|]. intros Hb. by apply prefix_app_r. }
  assert (forall e, e ∈ edge -> edge_ok cfg es c (edge_addr cfg e)) as HK.
  { intros e He. destruct HE as (HC & HA & HF); [by intros ->; apply not_elem_of_nil in He|].
    split_and!; [rewrite <- EP; by apply classify_wa|done|]. exists e. split; [done|]. rewrite Forall_forall in HF. by apply HF. }
  unfold policy. destruct HS as [(b & x & -> & Hb)|[(e & b & He & -> & Hb)|(e & b & b' & x & He & -> & Hb & Hb')]].
  - split; [by apply HW|by left].
  - split; [by apply HW|right; split; [done|by apply HK]].
  - split_and!; [by apply HW|by apply HW|done|done|by apply HK].
Qed.

(** ** Lemmas: the addresses *)
Lemma usable_spec cfg ips e :
  e ∈ usable cfg ips <-> is_self cfg e = false /\ exists ip, ip ∈ ips /\ isGlobal ip = true /\ e = IP_String ip.
Proof.
  unfold usable. rewrite list_elem_of_fmap. split.
  - intros (ip & -> & ((H1 & H2) & H3)%list_elem_of_filter). split; [done|]. by exists ip.
  - intros (H1 & ip & H2 & H3 & ->). exists ip. split; [done|]. by apply list_elem_of_filter.
Qed.

Lemma try_resolvers_spec cfg lookup rs e :
  e ∈ try_resolvers cfg lookup rs -> is_self cfg e = false /\
  exists r ips ip, r ∈ rs /\ lookup (resolver_addr r) = Some ips /\ ip ∈ ips /\ isGlobal ip = true /\ e = IP_String ip.
Proof.
  assert (forall r rs', (e ∈ try_resolvers cfg lookup rs' -> is_self cfg e = false /\
      exists r ips ip, r ∈ rs' /\ lookup (resolver_addr r) = Some ips /\ ip ∈ ips /\ isGlobal ip = true /\ e = IP_String ip) ->
    e ∈ try_resolvers cfg lookup rs' -> is_self cfg e = false /\
      exists r0 ips ip, r0 ∈ r :: rs' /\ lookup (resolver_addr r0) = Some ips /\ ip ∈ ips /\ isGlobal ip = true /\ e = IP_String ip) as HR.
  { intros r rs' IH He. destruct (IH He) as (H1 & r0 & ips & ip & H2 & HH). split; [done|]. exists r0, ips, ip. split; [by right|done]. }
  induction rs as [|r rs IH]; cbn [try_resolvers]; [by intros []%not_elem_of_nil|].
  destruct (lookup (resolver_addr r)) as [ips|] eqn:EL; [|by apply HR]. cbv zeta. case_bool_decide; [by apply HR|].
  intros He. apply usable_spec in He as (H1 & ip & H2 & H3 & H4). split; [done|]. exists r, ips, ip. split; [by left|done].
Qed.

Lemma good_edge_more cfg es e x : good_edge cfg es x -> good_edge cfg (es ++ [e]) x.
Proof.
  intros [H1 [HL|(i & lookup & now & o & r & ips & ip & HI & HH)]]; (split; [done|]); [by left|right].
  exists i, lookup, now, o, r, ips, ip. split; [|done]. apply elem_of_app. by left.
Qed.

Lemma policy_more cfg es e c tr : policy cfg es c tr -> policy cfg (es ++ [e]) c tr.
Proof.
  assert (forall a, edge_ok cfg es c a -> edge_ok cfg (es ++ [e]) c a) as HE.
  { intros a (H1 & H2 & x & H3 & H4). split_and!; [done|done|]. exists x. split; [done|by apply good_edge_more]. }
  unfold policy. destruct (sessions tr) as [|[[a b] x] [|[[a' b'] x'] [|]]]; try done.
  - intros [HS [HB|[Hx HK]]]; (split; [done|]); [by left|right; auto].
  - intros (H1 & H2 & H3 & H4 & H5). split_and!; auto.
Qed.

(** ** The invariant *)
Definition alive (c : Conn) : bool := match at_ c with Gone _ => false | _ => true end.

Definition conn_good (cfg : WAShimConfig) (es : list WAStep) (c : Conn) : Prop :=
  match at_ c with
  | Accepted => True
  | LookingUp first rest =>
      peek (segs c) 8 = (first, rest) /\ (Classify first).1 = RouteWhatsApp /\ SourceAllowed cfg (source c) = true
  | Served tr | Gone tr => policy cfg es c tr
  end.

Record WInv (cfg : WAShimConfig) (es : list WAStep) (s : WAShim) : Prop := {
  w_active : active s = len (filter (fun c => alive c = true) (conns s));
  w_cap : active s <= Z.max 0 (MaxConn cfg);
  w_cache : Forall (good_edge cfg es) (addrs (cache s));
  w_conns : Forall (conn_good cfg es) (conns s)
}.

Lemma conn_good_more cfg es e c : conn_good cfg es c -> conn_good cfg (es ++ [e]) c.
Proof. unfold conn_good. destruct (at_ c); try done; apply policy_more. Qed.

(** A handler that stays alive, or ends, moves the count by as much. *)
Lemma alive_alter i ph (l : list Conn) c :
  l !! i = Some c -> alive c = true ->
  len (filter (fun c => alive c = true) (alter (fun c => {| source := source c; segs := segs c; at_ := ph |}) i l)) =
  len (filter (fun c => alive c = true) l) - (if alive {| source := source c; segs := segs c; at_ := ph |} then 0 else 1).
Proof.
  revert i. induction l as [|x l IH]; intros i Hi Ha; [done|]. destruct i as [|i]; cbn in Hi.
  - injection Hi as ->. cbn [alter list_alter]. rewrite !filter_cons, (decide_True _ _ Ha), len_cons.
    destruct (alive {| source := source c; segs := segs c; at_ := ph |}) eqn:E.
    + rewrite decide_True by done. rewrite len_cons. lia.
    + rewrite decide_False by (by intros ?). lia.
  - change (alter ?f (S i) (x :: l)) with (x :: alter f i l). rewrite !filter_cons. pose proof (IH i Hi Ha) as HI.
    destruct (decide (alive x = true)); rewrite ?len_cons, HI; lia.
Qed.

Lemma Forall_alter_phase (P : Conn -> Prop) i ph l :
  Forall P l -> (forall c, l !! i = Some c -> P {| source := source c; segs := segs c; at_ := ph |}) ->
  Forall P (alter (fun c => {| source := source c; segs := segs c; at_ := ph |}) i l).
Proof. intros HF HP. apply Forall_alter; [done|]. intros c Hc _. by apply HP. Qed.

Lemma handle_good cfg es now o c cc :
  Forall (good_edge cfg es) (addrs cc) -> conn_good cfg es {| source := source c; segs := segs c; at_ := handle cfg now o c cc |}.
Proof.
  intros HC. unfold handle. destruct (peek (segs c) 8) as [first rest] eqn:EP.
  destruct (bool_decide ((Classify first).1 = RouteWhatsApp) && SourceAllowed cfg (source c)) eqn:EW.
  - apply andb_true_iff in EW as [ER%bool_decide_eq_true ES]. destruct (resolve_cached cfg now cc) as [edge|] eqn:EC; [|done].
    eapply served_policy; [exact EP|apply to_edge_served|]. intros _. split_and!; [done|done|]. unfold resolve_cached in EC.
    destruct (ParseIP (WAHost cfg)) as [ip|] eqn:EI.
    + injection EC as <-. destruct (is_self cfg (IP_String ip)) eqn:EF; [constructor|]. constructor; [|constructor].
      split; [done|]. left. by exists ip.
    + destruct (_ && _); [|done]. by injection EC as <-.
  - eapply (served_policy cfg es _ []); [exact EP|apply fail_open_served|done].
Qed.

Lemma wa_inv cfg es s : wa_run cfg es = Some s -> WInv cfg es s.
Proof.
  revert s. induction es as [|e es IH] using rev_ind; intros s; unfold wa_run.
  - intros [= <-]. constructor; cbn; [done|lia|constructor|constructor].
  - rewrite foldl_app. cbn [foldl]. fold (wa_run cfg es). destruct (wa_run cfg es) as [s0|] eqn:E0; [|done]. cbn [mbind option_bind].
    intros HS. specialize (IH s0 eq_refl) as [IA IC IK IF].
    assert (Forall (good_edge cfg (es ++ [e])) (addrs (cache s0))) as IK'.
    { eapply Forall_impl; [exact IK|]. apply good_edge_more. }
    assert (Forall (conn_good cfg (es ++ [e])) (conns s0)) as IF'.
    { eapply Forall_impl; [exact IF|]. apply conn_good_more. }
    destruct e as [src sg|i now o|i lookup now o|i]; cbn [wa_step] in HS.
    + injection HS as <-. unfold accept. destruct (Z.leb_spec (MaxConn cfg) (active s0)); constructor; cbn; try done.
      * rewrite filter_app, len_app. cbn. rewrite <- IA. done.
      * lia.
      * apply Forall_app. split; [done|]. by repeat constructor.
    + destruct (conns s0 !! i) as [c|] eqn:EC; [|done]. cbn [mbind option_bind] in HS. destruct (at_ c) eqn:EA; try done.
      injection HS as <-. constructor; cbn [active cache conns set_phase addrs]; [|done|done|].
      * rewrite (alive_alter i _ _ c EC) by (unfold alive; by rewrite EA). unfold handle, alive. cbn [at_].
        destruct (peek _ _). destruct (_ && _); [destruct (resolve_cached _ _ _)|]; cbn; rewrite ?Z.sub_0_r; try exact IA.
      * apply Forall_alter_phase; [done|]. intros c' Hc'. assert (c' = c) as -> by congruence. by apply handle_good.
    + destruct (conns s0 !! i) as [c|] eqn:EC; [|done]. cbn [mbind option_bind] in HS. destruct (at_ c) as [|first rest| |] eqn:EA; try done.
      injection HS as <-.
      assert (Forall (good_edge cfg (es ++ [DoLookup i lookup now o])) (try_resolvers cfg lookup (Resolvers cfg))) as HG.
      { apply Forall_forall. intros x Hx. apply try_resolvers_spec in Hx as (H1 & r & ips & ip & HH). split; [done|right].
        exists i, lookup, now, o, r, ips, ip. split; [|done]. apply elem_of_app. right. by left. }
      constructor; cbn [active cache conns set_phase set_cache resolve_store addrs]; [|done|done|].
      * rewrite (alive_alter i _ _ c EC) by (unfold alive; by rewrite EA). cbn. lia.
      * apply Forall_alter_phase; [done|]. intros c' Hc'. assert (c' = c) as -> by congruence.
        rewrite Forall_lookup in IF. pose proof (IF i c EC) as HC. unfold conn_good in HC. rewrite EA in HC. destruct HC as (HP & HR & HA).
        eapply served_policy; [exact HP|apply to_edge_served|]. by intros _.
    + destruct (conns s0 !! i) as [c|] eqn:EC; [|done]. cbn [mbind option_bind] in HS. destruct (at_ c) as [| |tr|] eqn:EA; try done.
      injection HS as <-. constructor; cbn [active cache conns set_phase set_active]; [|lia|done|].
      * rewrite (alive_alter i _ _ c EC) by (unfold alive; by rewrite EA). cbn. lia.
      * apply Forall_alter_phase; [done|]. intros c' Hc'. assert (c' = c) as -> by congruence.
        rewrite Forall_lookup in IF'. pose proof (IF' i c EC) as HC. unfold conn_good in HC |- *. by rewrite EA in HC.
Qed.

(** ** Properties *)

(** the peek loses nothing and decides as if it had seen everything: it
    takes at most eight bytes, which with what is left are the client's
    stream; however TCP cuts the stream into segments, a peek that no
    deadline cut short classifies it as the whole stream would be. *)
Theorem peek_exact sg first rest :
  peek sg 8 = (first, rest) ->
  first ++ stream rest = stream sg /\ len first <= 8 /\ (Forall is_Some sg -> Classify first = Classify (stream sg)).
Proof.
  intros E. apply peek_loop_spec in E as (E1 & E2 & E3); [|cbn; lia]. rewrite app_nil_l in E1. split_and!; [done|unfold len; lia|].
  intros HF. rewrite <- E1. destruct (E3 HF) as [HP|[HL|HN]].
  - symmetry. by apply classify_prefix.
  - symmetry. apply classify_prefix. unfold peek_enough, len. rewrite HL. by rewrite orb_true_r.
  - by rewrite HN, app_nil_r.
Qed.

(** the cap on connections holds in every interleaving: the counter is
    the number of handlers that have not given it back, and never above
    MaxConn. *)
Theorem wa_conn_cap cfg es s :
  wa_run cfg es = Some s ->
  active s = len (filter (fun c => alive c = true) (conns s)) /\ active s <= Z.max 0 (MaxConn cfg).
Proof. intros H. apply wa_inv in H as []. done. Qed.

(** C40: what a connection can make the shim do, in every interleaving, for
    every input, resolver answer and dial outcome.  A finished handler has
    made one upstream connection, to the backend or, for an allowed source
    whose stream starts with a WhatsApp handshake, to the edge; or two, when
    the edge failed and it fell back to the backend.  The edge is the literal
    address of the configuration, whatever it is, or a global address that a
    configured resolver gave, never an address of this host.  A spliced upstream gets the client's
    bytes exactly; one that was not spliced at most a prefix of them. *)
Theorem wa_fail_open cfg es s i c tr :
  wa_run cfg es = Some s -> conns s !! i = Some c -> trace_of c = Some tr -> policy cfg es c tr.
Proof.
  intros H Hi HT. apply wa_inv in H as [_ _ _ HF]. rewrite Forall_lookup in HF. specialize (HF i c Hi).
  unfold trace_of in HT. unfold conn_good in HF. destruct (at_ c); simplify_eq; done.
Qed.

(** ** Concrete inputs *)
Module Demo.
Definition cfg : WAShimConfig := DefaultWAShimConfig.
Definition hello : bytes := str "ED" ++ [Byte.x00; Byte.x01] ++ str "noise".
Definition lookup (r : bytes) : option (list bytes) :=
  if r == str "8.8.8.8:53" then Some [map zb [127; 0; 0; 1]; map zb [157; 240; 1; 60]] else None.
Definition up : Outcomes := (fun _ => true, fun _ => true).
Definition edge_down : Outcomes := (fun a => a == str "127.0.0.1:8443", fun _ => true).

Definition es : list WAStep := [
  DoAccept (str "172.22.0.9") [Some (str "E"); Some (str "D"); Some (drop 2 hello)];
  DoAccept (str "198.51.100.7") [Some hello];
  DoHandle 0 5 up; DoHandle 1 6 up; DoLookup 0 lookup 7 up;
  DoAccept (str "127.0.0.1") [Some hello]; DoHandle 2 8 edge_down; DoExit 0].

Definition s1 : option WAShim := wa_run cfg es.

Example sessions_of : (fun s => (active s, map (fun c => sessions <$> trace_of c) (conns s))) <$> s1 =
  Some (2, [Some [(str "157.240.1.60:443", hello, true)]; Some [(str "127.0.0.1:8443", hello, true)];
            Some [(str "157.240.1.60:443", [], false); (str "127.0.0.1:8443", hello, true)]]).
Proof. by vm_compute. Qed.

Lemma peek_exact_witness : str "ED" ++ stream [Some (drop 2 hello)] = stream [Some (str "ED"); None; Some (drop 2 hello)].
Proof. destruct (peek_exact [Some (str "ED"); None; Some (drop 2 hello)] (str "ED") [Some (drop 2 hello)]) as (H & _ & _); [by vm_compute|exact H]. Defined.

Definition run1 : WAShim := default NewWAShim s1.
Lemma run1_ok : wa_run cfg es = Some run1.
Proof. unfold run1, s1. by destruct (wa_run cfg es) eqn:E; [|vm_compute in E]. Qed.

Lemma wa_conn_cap_witness : active run1 <= 8192.
Proof. destruct (wa_conn_cap cfg es run1 run1_ok) as [_ H]. exact H. Defined.

Definition c2 : Conn := default {| source := []; segs := []; at_ := Accepted |} (conns run1 !! 2%nat).
Definition tr2 : list Event := default [] (trace_of c2).
Lemma c2_ok : conns run1 !! 2%nat = Some c2 /\ trace_of c2 = Some tr2.
Proof. by vm_compute. Qed.

Lemma wa_fail_open_witness : policy cfg es c2 tr2.
Proof. exact (wa_fail_open cfg es run1 2 c2 tr2 run1_ok (proj1 c2_ok) (proj2 c2_ok)). Defined.
End Demo.
