(* ===== verification/ApplyRing.v ===== *)
(** * The ring of tracked applies (internal/api/applies.go)

    The in-memory record of the last applies that clients poll: [applyStore]
    with its count cap and its time-to-live.  Its abstract specification is
    the log of all applies ever tracked; the ring shows the end of it.  An
    identifier comes from the UUID generator, a time from the caller's clock;
    [sort.Slice], which is not stable, is a parameter with its contract. *)
From S2P Require Import Prelude GoStrings.
From Stdlib Require Import ZArith Lia.
Local Open Scope Z_scope.

Inductive EStatus := Pending | Succeeded | FailedApply.
#[export] Instance EStatus_eq_dec : EqDecision EStatus.
Proof. solve_decision. Defined.

Record applyEntry := {
  e_ID : bytes; e_Hash : bytes; e_Status : EStatus; e_Kind : bytes;
  StartedAt : Z; FinishedAt : option Z; e_Error : bytes; e_RuleCount : Z; e_SnapshotID : Z
}.
#[export] Instance applyEntry_eq_dec : EqDecision applyEntry.
Proof. solve_decision. Defined.

Record applyStore := { order : list bytes; byID : gmap bytes applyEntry }.

Definition applyRingCap : nat := 128.
Definition applyRingTTL : Z := 24 * 3600 * 1000000000.   (* nanoseconds *)

Definition newApplyStore : applyStore := {| order := []; byID := ∅ |}.

(** The eviction loop of [create]; the slice gets shorter. *)
Fixpoint evict_oldest (l : list bytes) (m : gmap bytes applyEntry) : applyStore :=
  match l with
  | oldest :: rest =>
      if (applyRingCap <? length l)%nat then evict_oldest rest (delete oldest m) else {| order := l; byID := m |}
  | [] => {| order := []; byID := m |}
  end.

Definition pending_entry (id hash kind : bytes) (ruleCount snapshotID now : Z) : applyEntry :=
  {| e_ID := id; e_Hash := hash; e_Status := Pending; e_Kind := kind; StartedAt := now; FinishedAt := None;
     e_Error := []; e_RuleCount := ruleCount; e_SnapshotID := snapshotID |}.

(** [create]; [id] is what [uuid.NewString] returned. *)
Definition create (e : applyEntry) (s : applyStore) : applyStore :=
  evict_oldest (order s ++ [e_ID e]) (<[e_ID e := e]> (byID s)).

(** [finish]. *)
Definition finished (status : EStatus) (errMsg : bytes) (now : Z) (e : applyEntry) : applyEntry :=
  if e_Status e == Pending then
    {| e_ID := e_ID e; e_Hash := e_Hash e; e_Status := status; e_Kind := e_Kind e; StartedAt := StartedAt e;
       FinishedAt := Some now; e_Error := errMsg; e_RuleCount := e_RuleCount e; e_SnapshotID := e_SnapshotID e |}
  else e.

Definition finish_entry (id : bytes) (status : EStatus) (errMsg : bytes) (now : Z) (s : applyStore) : applyStore :=
  match byID s !! id with
  | None => s
  | Some e => {| order := order s; byID := <[id := finished status errMsg now e]> (byID s) |}
  end.

(** [Get]. *)
Definition ring_Get (id : bytes) (now : Z) (s : applyStore) : option applyEntry :=
  match byID s !! id with
  | None => None
  | Some e => if applyRingTTL <? now - StartedAt e then None else Some e
  end.

(** [List]: the entries in insertion order, before they are sorted. *)
Definition live (now : Z) (e : applyEntry) : bool := negb (StartedAt e <? now - applyRingTTL).

Definition ring_entries (now : Z) (s : applyStore) : list applyEntry :=
  filter (fun e => live now e = true) (omap (fun id => byID s !! id) (order s)).

(** The order given to [sort.Slice]. *)
Definition newer (a b : applyEntry) : bool := StartedAt b <? StartedAt a.

Section list.
Context (sortSlice : (applyEntry -> applyEntry -> bool) -> list applyEntry -> list applyEntry).

Definition ring_List (now : Z) (s : applyStore) : list applyEntry := sortSlice newer (ring_entries now s).
End list.

(** ** Specification: the log *)
Inductive RingOp :=
| OpCreate (e : applyEntry)
| OpFinish (id : bytes) (status : EStatus) (errMsg : bytes) (now : Z).

Definition ring_step (s : applyStore) (op : RingOp) : applyStore :=
  match op with OpCreate e => create e s | OpFinish id st m now => finish_entry id st m now s end.

Definition ring_run (ops : list RingOp) : applyStore := foldl ring_step newApplyStore ops.

Definition log_step (l : list applyEntry) (op : RingOp) : list applyEntry :=
  match op with
  | OpCreate e => l ++ [e]
  | OpFinish id st m now => (fun e => if e_ID e == id then finished st m now e else e) <$> l
  end.

Definition log_run (ops : list RingOp) : list applyEntry := foldl log_step [] ops.

(** The identifiers of a run are all different. *)
Definition created (ops : list RingOp) : list bytes :=
  omap (fun op => match op with OpCreate e => Some (e_ID e) | _ => None end) ops.

Definition window (l : list applyEntry) : list applyEntry := drop (length l - applyRingCap) l.

(** ** Lemmas *)
Lemma NoDup_dropped {A} (l : list A) k : NoDup l -> NoDup (drop k l).
Proof. rewrite <- (take_drop k l) at 1. by intros (_ & _ & H)%NoDup_app. Qed.

Lemma finished_id st m now e : e_ID (finished st m now e) = e_ID e.
Proof. unfold finished. by case_bool_decide. Qed.
Lemma finished_start st m now e : StartedAt (finished st m now e) = StartedAt e.
Proof. unfold finished. by case_bool_decide. Qed.

Lemma log_ids ops : e_ID <$> log_run ops = created ops.
Proof.
  induction ops as [|op ops IH] using rev_ind; [done|]. unfold log_run, created in *. rewrite foldl_app, omap_app, <- IH. cbn.
  destruct op as [e|id st m now]; cbn [log_step].
  - by rewrite fmap_app.
  - rewrite app_nil_r, <- list_fmap_compose. apply list_fmap_ext. intros i e _. cbn. case_bool_decide; [apply finished_id|done].
Qed.

(** The eviction keeps the last entries. *)
Lemma evict_oldest_spec l m :
  evict_oldest l m =
  {| order := drop (length l - applyRingCap) l; byID := foldl (fun m id => delete id m) m (take (length l - applyRingCap) l) |}.
Proof.
  revert m. induction l as [|x l IH]; intros m; [done|]. cbn [evict_oldest].
  destruct (Nat.ltb_spec applyRingCap (length (x :: l))) as [H|H]; cbn [length] in *.
  - rewrite IH. replace (S (length l) - applyRingCap)%nat with (S (length l - applyRingCap)) by lia. done.
  - by replace (S (length l) - applyRingCap)%nat with 0%nat by lia.
Qed.

Lemma foldl_delete_lookup (l : list bytes) (m : gmap bytes applyEntry) x :
  foldl (fun m id => delete id m) m l !! x = if bool_decide (x ∈ l) then None else m !! x.
Proof.
  revert m. induction l as [|y l IH]; intros m; [done|]. cbn [foldl]. rewrite IH.
  destruct (decide (x = y)) as [->|Hn].
  - rewrite (bool_decide_true (y ∈ y :: l)) by left. rewrite lookup_delete_eq. by case_bool_decide.
  - rewrite lookup_delete_ne by done. apply (f_equal (fun b : bool => if b then None else m !! x)).
    apply bool_decide_ext. rewrite elem_of_cons. naive_solver.
Qed.

(** The ring as a view of the log. *)
Definition view (l : list applyEntry) (s : applyStore) : Prop :=
  order s = e_ID <$> window l /\ forall id, byID s !! id = found (fun e => e_ID e == id) (window l).

Lemma found_ids (l : list applyEntry) i e :
  NoDup (e_ID <$> l) -> l !! i = Some e -> found (fun x => e_ID x == e_ID e) l = Some e.
Proof.
  revert i. induction l as [|x l IH]; intros i HN Hi; [done|]. cbn in HN. apply NoDup_cons in HN as [Hx HN]. rewrite found_cons.
  destruct i as [|i]; cbn in Hi; [injection Hi as ->; by rewrite bool_decide_true|].
  rewrite bool_decide_false; [by eapply IH|]. intros Heq. apply Hx. rewrite Heq. apply list_elem_of_fmap_2.
  by eapply list_elem_of_lookup_2.
Qed.

Lemma found_snoc_ne {A} (P : A -> bool) l x : P x = false -> found P (l ++ [x]) = found P l.
Proof.
  intros HP. induction l as [|y l IH]; cbn [app]; rewrite !found_cons; [by rewrite HP|]. by rewrite IH.
Qed.

Lemma found_id_None (l : list applyEntry) id : id ∉ e_ID <$> l -> found (fun x => e_ID x == id) l = None.
Proof.
  intros H. apply found_None, Forall_forall. intros x Hx. apply bool_decide_eq_false. intros <-. apply H.
  by apply list_elem_of_fmap_2.
Qed.

(** Looking in the entries that are kept. *)
Lemma found_evicted (l : list applyEntry) k id :
  NoDup (e_ID <$> l) ->
  (if bool_decide (id ∈ e_ID <$> take k l) then None else found (fun e => e_ID e == id) l) =
  found (fun e => e_ID e == id) (drop k l).
Proof.
  revert k. induction l as [|x l IH]; intros k HN; [by destruct k|]. destruct k as [|k]; [done|]. cbn [take drop fmap list_fmap].
  cbn in HN. apply NoDup_cons in HN as [Hx HN]. rewrite <- IH by done. rewrite found_cons.
  destruct (decide (e_ID x = id)) as [<-|Hne].
  - rewrite bool_decide_true by left. rewrite found_id_None by done. by case_bool_decide.
  - rewrite (bool_decide_false (e_ID x = id)) by done. rewrite (bool_decide_ext _ (id ∈ e_ID <$> take k l)); [done|].
    rewrite elem_of_cons. naive_solver.
Qed.

Lemma found_fmap_id (f : applyEntry -> applyEntry) (l : list applyEntry) id :
  (forall e, e_ID (f e) = e_ID e) -> found (fun x => e_ID x == id) (f <$> l) = f <$> found (fun x => e_ID x == id) l.
Proof.
  intros Hf. induction l as [|x l IH]; [done|]. cbn [fmap list_fmap]. rewrite !found_cons, Hf, IH. by case_bool_decide.
Qed.

Lemma window_fmap (f : applyEntry -> applyEntry) l : window (f <$> l) = f <$> window l.
Proof. unfold window. by rewrite length_fmap, fmap_drop. Qed.

Lemma view_create l s e :
  view l s -> NoDup (e_ID <$> (l ++ [e])) -> view (l ++ [e]) (create e s).
Proof.
  intros [HO HB] HN. unfold create. rewrite HO, evict_oldest_spec.
  pose proof HN as HN0. rewrite fmap_app in HN0. apply NoDup_app in HN0 as (HNl & Hdis & _).
  set (l' := window l ++ [e]).
  assert (e_ID <$> window l ++ [e] = (e_ID <$> window l) ++ [e_ID e]) as Hids by (by rewrite fmap_app).
  assert (window (l ++ [e]) = drop (length l' - applyRingCap) l') as HW.
  { unfold l', window. rewrite !length_app, length_drop. cbn [length].
    destruct (decide (length l < applyRingCap)%nat) as [Hl|Hl].
    - replace (length l - applyRingCap)%nat with 0%nat by lia. cbn [drop].
      by replace (length l - 0 + 1 - applyRingCap)%nat with (length l + 1 - applyRingCap)%nat by lia.
    - replace (length l - (length l - applyRingCap) + 1 - applyRingCap)%nat with 1%nat by lia.
      assert (length (drop (length l - applyRingCap) l) = applyRingCap) as Hd by (rewrite length_drop; lia).
      rewrite (drop_app_le (drop _ _)) by (rewrite Hd; unfold applyRingCap; lia). rewrite drop_drop.
      rewrite drop_app_le by (unfold applyRingCap in *; lia). do 2 f_equal. lia. }
  assert (NoDup (e_ID <$> l')) as HN'.
  { unfold l'. rewrite Hids. apply NoDup_app. split_and!.
    - unfold window. rewrite fmap_drop. by apply NoDup_dropped.
    - intros x Hx. apply Hdis. unfold window in Hx. rewrite fmap_drop in Hx. rewrite <- (take_drop (length l - applyRingCap) (e_ID <$> l)).
      apply elem_of_app. by right.
    - apply NoDup_singleton. }
  split; cbn [order byID].
  - rewrite HW, length_app, length_fmap. cbn [length]. rewrite fmap_drop. unfold l'. by rewrite Hids, length_app.
  - intros id. rewrite foldl_delete_lookup, HW. rewrite <- Hids. fold l'. rewrite length_fmap, <- fmap_take.
    set (k := (length l' - applyRingCap)%nat).
    assert (<[e_ID e := e]> (byID s) !! id = found (fun x => e_ID x == id) l') as ->.
    { destruct (decide (e_ID e = id)) as [<-|Hne].
      - rewrite lookup_insert_eq. symmetry. apply (found_ids l' (length (window l))); [done|]. unfold l'. by rewrite lookup_app_r, Nat.sub_diag by lia.
      - rewrite lookup_insert_ne, HB by done. unfold l'. symmetry. apply found_snoc_ne. by apply bool_decide_eq_false. }
    by apply found_evicted.
Qed.

Lemma view_finish l s id st m now : view l s -> view (log_step l (OpFinish id st m now)) (finish_entry id st m now s).
Proof.
  intros [HO HB]. cbn [log_step]. set (f := fun e => if e_ID e == id then finished st m now e else e).
  assert (forall e, e_ID (f e) = e_ID e) as Hf by (intros e; unfold f; case_bool_decide; [apply finished_id|done]).
  assert (order (finish_entry id st m now s) = order s) as HOs by (unfold finish_entry; by destruct (byID s !! id)).
  split; rewrite window_fmap.
  - rewrite HOs, HO, <- list_fmap_compose. apply list_fmap_ext. intros i e _. cbn. by rewrite Hf.
  - intros x. rewrite (found_fmap_id f _ _ Hf), <- HB. unfold finish_entry.
    assert (forall e, byID s !! x = Some e -> e_ID e = x) as HK.
    { intros e He. rewrite HB in He. unfold found in He. destruct (list_find _ (window l)) as [[i y]|] eqn:E; [|done].
      apply list_find_Some in E as (_ & E & _). injection He as <-. by apply bool_decide_eq_true in E. }
    destruct (byID s !! id) as [e|] eqn:E; cbn [byID].
    + destruct (decide (x = id)) as [->|Hne].
      * rewrite lookup_insert_eq, E. cbn. unfold f. by rewrite (HK e E), bool_decide_true.
      * rewrite lookup_insert_ne by done. destruct (byID s !! x) as [e'|] eqn:E'; [|done]. cbn. unfold f.
        by rewrite (HK _ eq_refl), bool_decide_false.
    + destruct (byID s !! x) as [e'|] eqn:E'; [|done]. cbn. unfold f. rewrite (HK _ eq_refl), bool_decide_false; [done|]. congruence.
Qed.

Lemma ring_view ops : NoDup (created ops) -> view (log_run ops) (ring_run ops).
Proof.
  induction ops as [|op ops IH] using rev_ind; intros HN; [by split|].
  rewrite <- log_ids in HN. unfold log_run, ring_run in *. rewrite !foldl_app in *. cbn [foldl] in *.
  destruct op as [e|id st m now].
  - cbn [log_step ring_step] in *. apply view_create; [|exact HN]. apply IH. rewrite <- log_ids. unfold log_run.
    rewrite fmap_app in HN. by apply NoDup_app in HN as [HN _].
  - apply view_finish, IH. rewrite <- log_ids. unfold log_run. cbn [log_step] in HN. rewrite <- list_fmap_compose in HN.
    erewrite list_fmap_ext; [exact HN|]. intros i e _. cbn. case_bool_decide; [by rewrite finished_id|done].
Qed.

Lemma omap_ids (w : list applyEntry) (m : gmap bytes applyEntry) :
  NoDup (e_ID <$> w) -> (forall id, m !! id = found (fun e => e_ID e == id) w) -> omap (fun id => m !! id) (e_ID <$> w) = w.
Proof.
  intros HN HM. assert (forall k, k `suffix_of` w -> omap (fun id => m !! id) (e_ID <$> k) = k) as H; [|by apply H].
  intros k [pre Hk]. induction k as [|e k IH] in pre, Hk |- *; [done|]. cbn. rewrite HM, (found_ids w (length pre) e HN).
  - f_equal. apply (IH (pre ++ [e])). by rewrite <- app_assoc.
  - rewrite Hk, lookup_app_r, Nat.sub_diag by lia. done.
Qed.

Lemma window_NoDup l : NoDup (e_ID <$> l) -> NoDup (e_ID <$> window l).
Proof.
  intros HN. unfold window. rewrite fmap_drop. by apply NoDup_dropped.
Qed.

Lemma sorted_weaken {A} (R R' : A -> A -> Prop) l : (forall x y, R x y -> R' x y) -> StronglySorted R l -> StronglySorted R' l.
Proof. intros HR. induction 1 as [|x l _ IH HF]; constructor; [done|]. eapply Forall_impl; [exact HF|]. auto. Qed.

(** ** Properties *)

(** C39: the ring implements the log: after every sequence of creations (with
    different identifiers) and finishes, polling an identifier returns the
    entry of the log, with the verdict of its first finish, exactly while it
    is among the last 128 tracked and at most 24 hours old, and the list is
    exactly those entries, newest first.  At most 128 are kept. *)
Theorem ring_refines_log sortSlice ops now :
  (forall l, sortSlice newer l ≡ₚ l /\ StronglySorted (fun a b => newer b a = false) (sortSlice newer l)) ->
  NoDup (created ops) ->
  (length (order (ring_run ops)) <= applyRingCap)%nat /\
  (forall id, ring_Get id now (ring_run ops) = found (fun e => (e_ID e == id) && live now e) (window (log_run ops))) /\
  ring_List sortSlice now (ring_run ops) ≡ₚ filter (fun e => live now e = true) (window (log_run ops)) /\
  StronglySorted (fun a b => StartedAt b <= StartedAt a) (ring_List sortSlice now (ring_run ops)).
Proof.
  intros HS HN. destruct (ring_view ops HN) as [HO HB]. rewrite <- log_ids in HN. split_and!.
  - rewrite HO, length_fmap. unfold window. rewrite length_drop. lia.
  - intros id. unfold ring_Get. rewrite HB. apply window_NoDup in HN. revert HN. generalize (window (log_run ops)). intros w HN.
    induction w as [|e w IH]; [done|]. cbn in HN. apply NoDup_cons in HN as [He HN]. rewrite !found_cons.
    case_bool_decide as Hid; cbn [andb]; [|by apply IH]. unfold live.
    destruct (Z.ltb_spec applyRingTTL (now - StartedAt e)), (Z.ltb_spec (StartedAt e) (now - applyRingTTL)); try lia; [|done].
    cbn [negb]. symmetry. apply found_None, Forall_forall. intros x Hx. rewrite bool_decide_false; [done|]. intros Hxe. apply He.
    rewrite Hid, <- Hxe. by apply list_elem_of_fmap_2.
  - unfold ring_List. rewrite (proj1 (HS _)). unfold ring_entries. rewrite HO, omap_ids; [done|by apply window_NoDup|done].
  - unfold ring_List. eapply sorted_weaken; [|apply (proj2 (HS _))]. unfold newer. cbv beta. lia.
Qed.

Lemma log_settles ops1 ops2 e :
  e ∈ log_run ops1 -> e_Status e <> Pending -> NoDup (created (ops1 ++ ops2)) ->
  forall e', e' ∈ log_run (ops1 ++ ops2) -> e_ID e' = e_ID e -> e' = e.
Proof.
  intros He Hst. induction ops2 as [|op ops2 IH] using rev_ind; intros HN e' He' Hid.
  - rewrite app_nil_r in *. rewrite <- log_ids in HN. apply list_elem_of_lookup in He as [i Hi], He' as [j Hj].
    pose proof (NoDup_lookup _ i j (e_ID e) HN) as H. rewrite !list_lookup_fmap, Hi, Hj in H. cbn in H. rewrite Hid in H.
    specialize (H eq_refl eq_refl) as ->. congruence.
  - rewrite app_assoc in *. unfold created in HN. rewrite omap_app in HN. pose proof HN as HN0. apply NoDup_app in HN0 as (HN1 & Hdis & _).
    specialize (IH HN1). unfold log_run in He', IH. rewrite foldl_app in He'. cbn [foldl] in He'.
    assert (e ∈ foldl log_step [] (ops1 ++ ops2)) as Hin.
    { clear IH He' Hdis HN HN1. induction ops2 as [|op2 ops2 IH2] using rev_ind; [by rewrite app_nil_r|]. rewrite app_assoc, foldl_app. cbn.
      destruct op2 as [x|id st m t]; cbn [log_step]; [apply elem_of_app; by left|].
      apply list_elem_of_fmap. exists e. split; [|exact IH2]. unfold finished. by case_bool_decide; [rewrite bool_decide_false|]. }
    destruct op as [x|id st m t]; cbn [log_step] in He'.
    + apply elem_of_app in He' as [He'|He']; [by apply IH|]. apply list_elem_of_singleton in He' as ->. exfalso.
      apply (Hdis (e_ID x)); [|by left]. rewrite Hid. change (e_ID e ∈ created (ops1 ++ ops2)). rewrite <- log_ids.
      by apply list_elem_of_fmap_2.
    + apply list_elem_of_fmap in He' as (y & -> & Hy). assert (y = e) as ->.
      { apply IH; [done|]. case_bool_decide; [by rewrite finished_id in Hid|done]. }
      unfold finished. by case_bool_decide; [rewrite bool_decide_false|].
Qed.

(** a verdict is final: once a poll has shown an apply as succeeded or
    failed, every later poll shows the very same entry, until it is forgotten
    by age or by the count - whatever is tracked or finished in between. *)
Theorem verdict_final ops1 ops2 id now1 now2 e e' :
  NoDup (created (ops1 ++ ops2)) ->
  ring_Get id now1 (ring_run ops1) = Some e -> e_Status e <> Pending ->
  ring_Get id now2 (ring_run (ops1 ++ ops2)) = Some e' -> e' = e.
Proof.
  intros HN H1 Hst H2.
  assert (forall ops now x, NoDup (created ops) -> ring_Get id now (ring_run ops) = Some x -> x ∈ log_run ops /\ e_ID x = id) as HG.
  { intros ops now x HNo Hx. destruct (ring_view ops HNo) as [_ HB]. unfold ring_Get in Hx. rewrite HB in Hx.
    destruct (found _ _) as [y|] eqn:E; [|done]. destruct (_ <? _); [done|]. injection Hx as ->. unfold found in E.
    destruct (list_find _ _) as [[i y]|] eqn:EL; [|done]. injection E as ->. apply list_find_Some in EL as (Hi & Hy & _).
    apply bool_decide_eq_true in Hy. split; [|done]. unfold window in Hi. rewrite lookup_drop in Hi. by eapply list_elem_of_lookup_2. }
  assert (NoDup (created ops1)) as HN1 by (unfold created in HN; rewrite omap_app in HN; by apply NoDup_app in HN as [HN _]).
  destruct (HG ops1 now1 e HN1 H1) as [He Hid], (HG _ now2 e' HN H2) as [He' Hid'].
  eapply log_settles; [exact He|exact Hst|exact HN|exact He'|congruence].
Qed.

(** ** Concrete inputs *)
Module Demo.
Definition entry (id : bytes) (at_ : Z) : applyEntry := pending_entry id (str "h") (str "apply") 3 7 at_.
Definition sort_newest (less : applyEntry -> applyEntry -> bool) (l : list applyEntry) : list applyEntry :=
  stable_sort (fun a b => negb (less b a)) l.

Definition ops1 : list RingOp := [OpCreate (entry (str "a") 10); OpFinish (str "a") Succeeded [] 11].
Definition ops2 : list RingOp := [OpCreate (entry (str "b") 12); OpFinish (str "a") FailedApply (str "late") 13].

Example listed : map e_ID (ring_List sort_newest 20 (ring_run (ops1 ++ ops2))) = [str "b"; str "a"].
Proof. by vm_compute. Qed.

(** After a day, or after 128 more applies, an entry is forgotten. *)
Example forgotten :
  ring_Get (str "a") (11 + applyRingTTL) (ring_run ops1) = None /\
  ring_Get (str "a") 20 (ring_run (ops1 ++ map (fun n => OpCreate (entry [zb n] 12)) (Z.of_nat <$> seq 0 128))) = None.
Proof. by vm_compute. Qed.

Lemma ids_differ : NoDup (created (ops1 ++ ops2)).
Proof. apply (bool_decide_unpack _). by vm_compute. Qed.

Definition e1 : applyEntry := finished Succeeded [] 11 (entry (str "a") 10).

Lemma ring_refines_log_witness :
  ring_Get (str "a") 20 (ring_run (ops1 ++ ops2)) = found (fun e => (e_ID e == str "a") && live 20 e) (window (log_run (ops1 ++ ops2))).
Proof.
  destruct (ring_refines_log sort_newest (ops1 ++ ops2) 20) as (_ & H & _).
  - intros l. split; [symmetry; apply stable_sort_perm|]. eapply (sorted_weaken (fun a b => negb (newer b a) = true)).
    + unfold newer. intros x y. lia.
    + apply stable_sort_sorted; unfold newer; intros; lia.
  - exact ids_differ.
  - apply H.
Defined.

Lemma verdict_final_witness : e1 = e1.
Proof.
  exact (verdict_final ops1 ops2 (str "a") 15 20 e1 e1 ids_differ ltac:(by vm_compute) ltac:(discriminate) ltac:(by vm_compute)).
Defined.
End Demo.
