(* ===== verification/ApplyApi.v ===== *)
(** * The handlers that change rules and exits

    internal/api/rules.go (handleApply), snapshots.go (handleRollbackSnapshot),
    exits.go (handleSwitchExit, handleDeleteExit), the tracking and polling of
    internal/api/applies.go, and the same operations as the control socket of
    cmd/5gpn/ctl_socket_linux.go offers them: over the applier (Applier.v),
    the rule sets (Rulesets.v) and the ring (ApplyRing.v).  A request is what
    the JSON decoder returned, [None] when it failed; [Marshal] is the YAML
    encoder; identifiers and times of the ring are arguments.  Where Go would
    dereference a nil entry the answer is [NilEntry]. *)
From S2P Require Import Prelude GoStrings GoNet Crypto Rules RuleTable Mihomo Orchestrator Db Applier ApplierSpec Rulesets ApplyRing.
From Stdlib Require Import ZArith Lia.
Local Open Scope Z_scope.

Section handlers.
Context `{Unicode} {Value Base : Type}.
Context (Unmarshal : bytes -> option (list Rule)) (IsDomainName : bytes -> bool)
  (ParseExit : bytes -> option (gmap bytes Value)) (text : AErr -> bytes)
  (orch : @Orch Value Base) (BaseConfig : option (@Config Value Base)).
Context (Marshal : list Rule -> option bytes) (have_rulesets : bool).

Abbreviation W := (World (@Config Value Base) App).

Record Srv := MkSrv { ring : applyStore; reg : Reg; world : W }.
Definition set_ring x s := MkSrv x (reg s) (world s).
Definition set_reg x s := MkSrv (ring s) x (world s).
Definition set_world x s := MkSrv (ring s) (reg s) x.

Inductive Reply :=
| Bad (status : Z) (code : bytes)
| Done (r : CResult)                               (* 200: over *)
| Observing (r : CResult) (entry : applyEntry)     (* 202: poll the entry *)
| NoContent                                        (* 204 *)
| NilEntry.

(** What the ring needs from outside: the new identifier, and the times of
    its creation and of its settling. *)
Record Ticket := { tk_ID : bytes; tk_created : Z; tk_settled : Z }.

Definition on_world {A} (m : ST W A) : ST Srv A := fun s => let '(a, w) := m (world s) in (a, set_world w s).
Definition on_app {A} (m : AP A) : ST Srv A := on_world (on_cp m).
Definition on_reg {A} (m : ST Reg A) : ST Srv A := fun s => let '(a, r) := m (reg s) in (a, set_reg r s).
Definition on_ring (f : applyStore -> applyStore) : ST Srv unit := modify (fun s => set_ring (f (ring s)) s).

(** ** applies.go *)

(** [trackApplyResult]. *)
Definition trackApplyResult (t : Ticket) (hash kind : bytes) (ruleCount : Z) (r : CResult) : ST Srv (option applyEntry) :=
  let entry := pending_entry (tk_ID t) hash kind ruleCount (r_SnapshotID r) (tk_created t) in
  let! _ := on_ring (create entry) in
  match r_Health r with
  | HealthObserving => ret (Some entry)
  | _ =>
      let! _ := on_ring (if r_RolledBack r then finish_entry (tk_ID t) FailedApply (r_Reason r) (tk_settled t)
                         else finish_entry (tk_ID t) Succeeded [] (tk_settled t)) in
      gets (fun s => ring_Get (tk_ID t) (tk_settled t) (ring s))
  end.

(** [trackRuleApply]. *)
Definition trackRuleApply (t : Ticket) (set : list Rule) (kind : bytes) (r : CResult) : ST Srv (option applyEntry) :=
  trackApplyResult t (HashRules set) kind (len set) r.

(** [refreshApplyEntry]. *)
Definition settle (id : bytes) (st : State) (reason : bytes) (now : Z) : ST Srv unit :=
  on_ring (match st with Confirmed => finish_entry id Succeeded [] now | _ => finish_entry id FailedApply reason now end).

Definition refreshApplyEntry (entry : applyEntry) (now : Z) : ST Srv (option applyEntry) :=
  if negb (bool_decide (e_Status entry = Pending)) || (e_SnapshotID entry =? 0) then ret (Some entry)
  else
    let! verdict := gets (fun s => TerminalStatus (e_SnapshotID entry) (cp (world s))) in
    match verdict with
    | Some (st, reason) =>
        let! _ := settle (e_ID entry) st reason now in
        gets (fun s => ring_Get (e_ID entry) now (ring s))
    | None =>
        let! row := on_app (on_db (ApplyStatusBySnapshot (e_SnapshotID entry))) in
        match row with
        | Err _ | Ok None => ret (Some entry)
        | Ok (Some row) =>
            match st_State row with
            | Submitted => ret (Some entry)
            | st =>
                let! _ := settle (e_ID entry) st (st_Reason row) now in
                gets (fun s => Some (default entry (ring_Get (e_ID entry) now (ring s))))
            end
        end
    end.

(** [handleApplyGet]: 404, or the document, where a nil entry is [null]. *)
Definition handleApplyGet (id : bytes) (now : Z) : ST Srv (option (option applyEntry)) :=
  let! e := gets (fun s => ring_Get id now (ring s)) in
  match e with
  | None => ret None
  | Some e => let! r := refreshApplyEntry e now in ret (Some r)
  end.

(** [handleAppliesList], from the time of [List] to the time of the
    refreshes; [None]: a nil entry is dereferenced. *)
Fixpoint refresh_all (l : list applyEntry) (now : Z) : ST Srv (option (list applyEntry)) :=
  match l with
  | [] => ret (Some [])
  | e :: l =>
      let! r := refreshApplyEntry e now in
      match r with
      | None => ret None
      | Some e => let! rs := refresh_all l now in ret (cons e <$> rs)
      end
  end.
Definition handleAppliesList (sortSlice : (applyEntry -> applyEntry -> bool) -> list applyEntry -> list applyEntry)
    (listed now : Z) : ST Srv (option (list applyEntry)) :=
  let! l := gets (fun s => ring_List sortSlice listed (ring s)) in refresh_all l now.

(** ** rules.go *)

(** [errors.Is(err, ErrApplyInFlight)] on the applier's errors. *)
Fixpoint in_flight (e : AErr) : bool :=
  match e with
  | AEInFlight => true
  | AEOrch o | AERestore o => is_in_flight o
  | AEJoin a b => in_flight a || in_flight b
  | _ => false
  end.

Definition audit (actor action target result : bytes) : AP unit :=
  let! _ := on_db (AppendAudit {| a_Actor := actor; a_Action := action; a_Target := target; a_Result := result |}) in ret tt.

Definition bad {A} (status : Z) (code : bytes) : ST Srv (res (Z * bytes) A) := ret (Err (status, code)).

(** The rows of a new version: its snapshot, itself, and the snapshot of the
    version active before. *)
Definition db_or {A} (status : Z) (code : bytes) (m : DB A) : AP (res (Z * bytes) A) :=
  let! r := on_db m in ret (match r with Ok a => Ok a | Err _ => Err (status, code) end).

Definition active_snapshot (code : bytes) : AP (res (Z * bytes) Z) :=
  let! r := on_db GetActiveRuleVersion in
  ret (match r with Ok v => Ok (rv_SnapshotID v) | Err ErrNoRows => Ok 0 | Err _ => Err (500, code) end).

Definition store_version (hash note yaml : bytes) : AP (res (Z * bytes) (Z * Z * Z)) :=
  let? snapID := db_or 500 (str "snapshot_error") (InsertSnapshot hash [] note) in
  let? prev := active_snapshot (str "rule_version_error") in
  let? rvID := db_or 500 (str "rule_version_error") (InsertRuleVersion snapID yaml false) in
  ret (Ok (snapID, rvID, prev)).

(** The answer to an apply that was let in and reported no error. *)
Definition tracked (r : CResult) (entry : option applyEntry) : Reply :=
  match entry with
  | None => NilEntry
  | Some e => if bool_decide (e_Status e = Pending) then Observing r e else Done r
  end.

Definition refuse (e : AErr) (code : bytes) : Reply :=
  if in_flight e then Bad 409 (str "apply_in_flight") else Bad 500 code.

Definition apply_word (r : CResult) (e : option AErr) : bytes :=
  if r_RolledBack r then str "rolled_back"
  else match e with
       | Some e => if in_flight e then str "in_flight" else str "failed"
       | None => str "ok"
       end.

(** [handleApply]. *)
Definition effective (rules : list Rule) : ST Srv (res (Z * bytes) (list Rule)) :=
  let! r := on_reg (expandRulesets IsDomainName have_rulesets rules) in
  match r with
  | Err _ => bad 503 (str "ruleset_expand_failed")
  | Ok set => match RuleSet_Validate IsDomainName set with
              | Err _ => bad 400 (str "validation_failed")
              | Ok _ => ret (Ok set)
              end
  end.

Definition handleApply (req : option (list Rule * bytes)) (actor : bytes) (t : Ticket) : ST Srv Reply :=
  match req with
  | None => ret (Bad 400 (str "bad_request"))
  | Some (rules, note) =>
      let! x := effective rules in
      match x with
      | Err (st, code) => ret (Bad st code)
      | Ok set =>
          match Marshal set with
          | None => ret (Bad 500 (str "marshal_error"))
          | Some yaml =>
              let! v := on_app (store_version (HashRules set) note yaml) in
              match v with
              | Err (st, code) => ret (Bad st code)
              | Ok (snapID, rvID, prev) =>
                  let! (r, e) := on_world (ApplyRules Unmarshal IsDomainName ParseExit text orch BaseConfig snapID rvID prev) in
                  let! _ := on_app (audit actor (str "rules.apply") (HashRules set) (apply_word r e)) in
                  match e with
                  | Some e => ret (refuse e (str "apply_failed"))
                  | None => let! entry := trackRuleApply t set (str "apply") r in ret (tracked r entry)
                  end
              end
          end
      end
  end.

(** ** snapshots.go *)

(** [handleRollbackSnapshot], from the database to the checks. *)
Definition rollback_target (id : Z) : AP (res (Z * bytes) (Snapshot * RuleVersion * list Rule * Z)) :=
  let! s := on_db (GetSnapshotByID id) in
  match s with
  | Err ErrNoRows => ret (Err (404, str "not_found"))
  | Err _ => ret (Err (500, str "db_error"))
  | Ok snap =>
      let! v := on_db (GetRuleVersionBySnapshot (sn_ID snap)) in
      match v with
      | Err ErrNoRows => ret (Err (409, str "no_rules"))
      | Err _ => ret (Err (500, str "db_error"))
      | Ok target =>
          match ParseYAML IsDomainName Unmarshal (rv_RulesYAML target) with
          | Err _ => ret (Err (500, str "rules_corrupt"))
          | Ok set =>
              match RuleSet_Validate IsDomainName set with
              | Err _ => ret (Err (500, str "rules_corrupt"))
              | Ok _ => let? prev := active_snapshot (str "db_error") in ret (Ok (snap, target, set, prev))
              end
          end
      end
  end.

Definition handleRollbackSnapshot (id : option Z) (actor : bytes) (t : Ticket) : ST Srv Reply :=
  match id with
  | None => ret (Bad 400 (str "bad_request"))
  | Some id =>
      let! x := on_app (rollback_target id) in
      match x with
      | Err (st, code) => ret (Bad st code)
      | Ok (snap, target, set, prev) =>
          let! (r, e) := on_world (ApplyRules Unmarshal IsDomainName ParseExit text orch BaseConfig (sn_ID snap) (rv_ID target) prev) in
          match e with
          | Some e => ret (refuse e (str "rollback_failed"))
          | None =>
              let! entry := trackRuleApply t set (str "rollback") r in
              let! _ := on_app (audit actor (str "rules.rollback") (sn_ConfigHash snap)
                          (if bool_decide (r_Health r = HealthObserving) then str "observing" else str "ok")) in
              ret (tracked r entry)
          end
      end
  end.

(** ** exits.go *)
Definition switch_word (r : CResult) : bytes :=
  if r_RolledBack r then str "rolled_back"
  else match r_Health r with HealthObserving => str "observing" | _ => str "ok" end.

(** [errors.Is(err, ErrExitNotFound)]. *)
Fixpoint is_exit (x : DbErr) (e : AErr) : bool :=
  match e with
  | AEExit d => bool_decide (d = x)
  | AEJoin a b => is_exit x a || is_exit x b
  | _ => false
  end.

Definition handleSwitchExit (req : option bytes) (actor : bytes) (nano : Z) (t : Ticket) : ST Srv Reply :=
  match req with
  | None => ret (Bad 400 (str "bad_request"))
  | Some id =>
      if id == [] then ret (Bad 400 (str "bad_request"))
      else
        let! (r, e) := on_world (SwitchExit Unmarshal IsDomainName ParseExit text orch BaseConfig id nano) in
        match e with
        | Some e =>
            let! _ := on_app (audit actor (str "exits.switch") id (str "failed")) in
            ret (if is_exit ErrExitNotFound e then Bad 404 (str "not_found") else refuse e (str "switch_error"))
        | None =>
            let! _ := on_app (audit actor (str "exits.switch") id (switch_word r)) in
            let! entry := trackApplyResult t id (str "exit_switch") 0 r in
            ret (tracked r entry)
        end
  end.

Definition handleDeleteExit (req : option bytes) (actor : bytes) : ST Srv Reply :=
  match req with
  | None => ret (Bad 400 (str "bad_request"))
  | Some id =>
      if id == [] then ret (Bad 400 (str "bad_request"))
      else
        let! e := on_app (DeleteExit_ id) in
        match e with
        | Some AESwitchInFlight => ret (Bad 409 (str "exit_switch_in_flight"))
        | Some (AEExit ErrExitActive) => ret (Bad 409 (str "exit_active"))
        | Some (AEExit ErrExitNotFound) => ret (Bad 404 (str "not_found"))
        | Some _ => ret (Bad 500 (str "delete_error"))
        | None => let! _ := on_app (audit actor (str "exits.delete") id (str "ok")) in ret NoContent
        end
  end.

(** ** ctl_socket_linux.go

    [authorize] is the comparison of user identifiers; [newest] is the order
    of ListRuleVersions (by a creation time in seconds, descending), of which
    the first 500 rows are listed. *)
Definition authorize (peer daemon : Z) : bool := (peer =? daemon) || (peer =? 0).

Definition health_text (h : Health) : bytes :=
  match h with
  | HealthNone => [] | HealthOK => str "ok" | HealthFailed => str "failed" | HealthObserving => str "observing"
  end.

Inductive CtlReply := CtlErr (msg : bytes) | CtlOk (r : CResult) (target : option (Z * Z)).

Definition cmdExitsSwitch (exitID : bytes) (nano : Z) : ST Srv CtlReply :=
  if exitID == [] then ret (CtlErr (str "missing exit_id"))
  else
    let! (r, e) := on_world (SwitchExit Unmarshal IsDomainName ParseExit text orch BaseConfig exitID nano) in
    ret (match e with Some e => CtlErr (text e) | None => CtlOk r None end).

Definition ListRuleVersions (newest : list RuleVersion -> list RuleVersion) (limit : nat) : DB (list RuleVersion) :=
  query (fun d => Ok (take limit (newest (rows (rule_versions d))))).

Definition rollback_choice (active : RuleVersion) (versions : list RuleVersion) : option RuleVersion :=
  found (fun v => negb (rv_ID v =? rv_ID active)) versions.

Definition cmdRulesRollback (newest : list RuleVersion -> list RuleVersion) : ST Srv CtlReply :=
  let! a := on_app (on_db GetActiveRuleVersion) in
  match a with
  | Err _ => ret (CtlErr (str "no active rule_version"))
  | Ok active =>
      let! l := on_app (on_db (ListRuleVersions newest 500)) in
      match l with
      | Err _ => ret (CtlErr (str "list rule versions"))
      | Ok versions =>
          match rollback_choice active versions with
          | None => ret (CtlErr (str "no prior rule_version to roll back to"))
          | Some target =>
              let! (r, e) := on_world (ApplyRules Unmarshal IsDomainName ParseExit text orch BaseConfig
                               (rv_SnapshotID target) (rv_ID target) (rv_SnapshotID active)) in
              match e with
              | Some e => ret (CtlErr (text e))
              | None =>
                  let! _ := on_app (audit (str "ctl") (str "rules.rollback")
                              (str "rule_version=" ++ dec (rv_ID target) ++ str " snapshot=" ++ dec (rv_SnapshotID target))
                              (health_text (r_Health r))) in
                  ret (CtlOk r (Some (rv_ID target, rv_SnapshotID target)))
              end
          end
      end
  end.
End handlers.
Arguments MkSrv {Value Base}.
Arguments ring {Value Base}.
Arguments reg {Value Base}.
Arguments world {Value Base}.

(** ** Lemmas *)
Lemma InsertRuleVersion_wp s y d :
  wp (InsertRuleVersion s y false) (on_ok d (fun id d' => exists l, id = seq (rule_versions d) + 1 /\
    d' = set_rule_versions (tbl_insert (fun id => {| rv_ID := id; rv_SnapshotID := s; rv_RulesYAML := y; rv_Active := false |})
           (rule_versions d)) (set_db_faults l d))) d.
Proof.
  apply wp_tx. intros l. unfold bindE at 1. apply wp_bind, wp_ret. unfold bindE at 1. apply wp_bind.
  eapply wp_mono; [apply wp_exec|]. intros [e|id] d1 H1; [done|]. destruct H1 as [l1 H1]. cbn in H1.
  destruct (snapshot_exists _ _ && _); [|done]. injection H1 as <- <-.
  unfold bindE. apply wp_bind. eapply wp_mono; [apply wp_fallible|]. intros [e|[]] d2 H2; [done|].
  cbn in H2. apply eqt_inv in H2 as [l2 ->]. unfold wp, ret. intros l'. by exists l'.
Qed.

Section spec.
Context `{Unicode} {Value Base : Type}.
Context (Unmarshal : bytes -> option (list Rule)) (IsDomainName : bytes -> bool)
  (ParseExit : bytes -> option (gmap bytes Value)) (text : AErr -> bytes)
  (orch : @Orch Value Base) `{!OrchLaws orch} (BaseConfig : option (@Config Value Base)).
Context (Marshal : list Rule -> option bytes) (have_rulesets : bool).

Abbreviation Good := (Good Unmarshal IsDomainName).
Abbreviation Safe := (Safe Unmarshal IsDomainName).
Abbreviation parse := (ParseYAML IsDomainName Unmarshal).
Abbreviation active_rules := (active_rules Unmarshal IsDomainName).
Abbreviation Srv := (@Srv Value Base).
Abbreviation handleApply := (handleApply Unmarshal IsDomainName ParseExit text orch BaseConfig Marshal have_rulesets).
Abbreviation handleRollbackSnapshot := (handleRollbackSnapshot Unmarshal IsDomainName ParseExit text orch BaseConfig).

Lemma wp_on_world {A} (m : ST (World (@Config Value Base) App) A) (Q : A -> Srv -> Prop) s :
  wp m (fun x w => Q x (set_world w s)) (world s) -> wp (on_world m) Q s.
Proof. unfold wp, on_world. by destruct (m (world s)). Qed.

Lemma wp_on_app {A} (m : AP A) (Q : A -> Srv -> Prop) s :
  wp m (fun x a => Q x (set_world (upd_cp a (world s)) s)) (cp (world s)) -> wp (on_app m) Q s.
Proof. intros HW. by apply wp_on_world, wp_on_cp. Qed.

Lemma Good_rules R S M V a : Good R S M V a -> rule_versions (db a) = R /\ resolver a = S /\ variationActive a = V.
Proof. intros ((HT & HS & _ & HV) & _). split; [apply HT|done]. Qed.

Lemma extends_refl R : extends R R.
Proof. exists []. rewrite app_nil_r. split; [done|constructor]. Qed.

(** The rules in force are the same before and after. *)
Definition same_rules (a a' : App) : Prop :=
  active_id (rule_versions (db a')) = active_id (rule_versions (db a)) /\ active_rules a' = active_rules a /\ resolver a' = resolver a.

Lemma extends_same R R' S M V M' V' a a' : Good R S M V a -> extends R R' -> Good R' S M' V' a' -> same_rules a a'.
Proof.
  intros (E1 & E2 & _)%Good_rules HE (E3 & E4 & _)%Good_rules. unfold same_rules, ApplierSpec.active_rules. rewrite E1, E2, E3, E4.
  split; [by apply extends_active|split; [|done]]. destruct HE as (l & -> & Hl). rewrite found_app, (found_Forall_false _ l Hl).
  by destruct (found rv_Active (rows R)).
Qed.

(** The rules [set] are in force: active, and what the resolver answers by. *)
Definition in_force (set : list Rule) (a : App) : Prop :=
  active_rules a = Some set /\
  forall s t, resolver a = Some s -> Load s = Some t -> forall q, classify (Load s) q = classify (Some (BuildTable set)) q.

Lemma activate_in_force R S M V rv v set a :
  v ∈ rows R -> rv_ID v = rv -> parse (rv_RulesYAML v) = Ok set -> Good (activate rv R) S M V a -> in_force set a.
Proof.
  intros Hv Hid Hp HG. pose proof (Good_rules _ _ _ _ _ HG) as (ER & _).
  assert (active_rules a = Some set) as HA.
  { unfold ApplierSpec.active_rules. rewrite ER.
    pose proof (active_activate rv R (ex_intro _ v (conj Hv Hid))) as HI. unfold active_id in HI.
    assert (rv_set_active true v ∈ rows (activate rv R)) as Hin.
    { unfold activate, tbl_map. cbn. apply list_elem_of_fmap. exists v. by rewrite bool_decide_true. }
    destruct (found rv_Active (rows (activate rv R))) as [v'|] eqn:F.
    - apply found_elem in F as [F _]. destruct HG as ((([Hwf _] & HR) & _) & _). destruct (wf_rules _ Hwf) as (_ & HN & _).
      rewrite HR in HN. rewrite (NoDup_key_eq rv_ID _ v' (rv_set_active true v) HN F Hin) by (by rewrite HI). cbn. by rewrite Hp.
    - by apply (found_none _ _ _ F) in Hin. }
  split; [exact HA|]. intros s t Hs Ht. destruct (Safe_serves Unmarshal IsDomainName a s t) as (rs & Hrs & Hq); [by eapply Safe_intro|done|done|].
  rewrite HA in Hrs. by injection Hrs as <-.
Qed.

Lemma active_snapshot_K R S M V c : keeps (K R S M V) (active_snapshot c).
Proof.
  unfold active_snapshot. apply keeps_bind; [apply on_db_K, keeps_query_tables|intros; apply keeps_ret].
Qed.

(** The rows of a stored version. *)
Definition stored_version R S M y (rv : Z) (a' : App) (V : bool) : Prop :=
  exists R', extends R R' /\ Good R' S M V a' /\ exists v, v ∈ rows R' /\ rv_ID v = rv /\ rv_RulesYAML v = y.

Lemma insert_version_wp R S M V snap y a :
  Good R S M V a ->
  wp (on_db (InsertRuleVersion snap y false)) (fun r a' =>
    match r with Err _ => Good R S M V a' | Ok rv => stored_version R S M y rv a' V end) a.
Proof.
  intros (HK & Ha & Hok).
  pose proof (InsertRuleVersion_wp snap y (db a)) as HI. pose proof HK as ((Hwf & HR) & HS & HM & HV).
  pose proof (InsertRuleVersion_keeps (false, []) snap y false (db a) Hwf) as Hwf'.
  unfold wp, on_db in *. destruct (InsertRuleVersion snap y false (db a)) as [[e|rv] d]; cbn in HI, Hwf' |- *.
  - apply eqt_inv in HI as [l ->]. split; [|by split]. split; [split; [exact Hwf'|exact HR]|done].
  - destruct HI as (l & -> & ->). rewrite HR. set (v := {| rv_ID := seq R + 1; rv_SnapshotID := snap; rv_RulesYAML := y; rv_Active := false |}).
    exists (tbl_insert (fun id => {| rv_ID := id; rv_SnapshotID := snap; rv_RulesYAML := y; rv_Active := false |}) R).
    assert (extends R (tbl_insert (fun id => {| rv_ID := id; rv_SnapshotID := snap; rv_RulesYAML := y; rv_Active := false |}) R)) as HE.
    { exists [v]. split; [done|]. by repeat constructor. }
    split; [exact HE|]. split.
    + eapply extends_Good; [exact HE| |exact Ha|exact Hok]. rewrite HR in Hwf'. split; [split; [exact Hwf'|done]|done].
    + exists v. split; [|done]. cbn. apply elem_of_app. right. by left.
Qed.

Lemma store_version_wp R S M V h n y a :
  Good R S M V a ->
  wp (store_version h n y) (fun r a' =>
    match r with Err _ => Good R S M V a' | Ok (snap, rv, prev) => stored_version R S M y rv a' V end) a.
Proof.
  intros (HK & Ha & Hok). unfold store_version, db_or, bindE.
  apply wp_bind. eapply wp_keeps_bind; [apply on_db_K, InsertSnapshot_tables|exact HK|]. clear a HK. intros r a HK. apply wp_ret.
  destruct r as [e|snap]; [by split|]. eapply wp_keeps_bind; [apply active_snapshot_K|exact HK|]. clear a HK.
  intros [e|prev] a HK; [by apply wp_ret|]. do 2 apply wp_bind.
  eapply wp_mono; [apply insert_version_wp; by split|]. intros [e|rv] a' H'; by do 2 apply wp_ret.
Qed.

Lemma audit_Good R S M V u x t r a : Good R S M V a -> wp (audit u x t r) (fun _ => Good R S M V) a.
Proof.
  intros HG. apply keeps_wp; [|exact HG]. apply Good_keeps. unfold audit.
  apply keeps_bind; [apply on_db_K, AppendAudit_tables|intros; apply keeps_ret].
Qed.

(** Tracking touches the ring alone; the answer is 202 exactly for an apply
    under observation. *)
Lemma settled_not_pending id st m now now' rg e :
  st <> Pending -> ring_Get id now' (finish_entry id st m now rg) = Some e -> e_Status e <> Pending.
Proof.
  intros Hst. unfold ring_Get, finish_entry. destruct (byID rg !! id) as [e0|] eqn:E; [|by rewrite E]. cbn [byID].
  rewrite lookup_insert_eq. destruct (_ <? _); [done|]. intros [= <-]. unfold finished. case_bool_decide; [done|]. done.
Qed.

Definition reply_of (t : Ticket) (hash kind : bytes) (n : Z) (r : CResult) (reply : Reply) : Prop :=
  match r_Health r with
  | HealthObserving => reply = Observing r (pending_entry (tk_ID t) hash kind n (r_SnapshotID r) (tk_created t))
  | _ => reply = Done r \/ reply = NilEntry
  end.

Lemma track_wp t hash kind n r (Q : option applyEntry -> Srv -> Prop) s :
  (forall rg e, reply_of t hash kind n r (tracked r e) -> Q e (set_ring rg s)) ->
  wp (trackApplyResult t hash kind n r) Q s.
Proof.
  intros HQ. unfold trackApplyResult, on_ring. apply wp_bind, wp_modify.
  assert (forall rg st m, st <> Pending -> r_Health r <> HealthObserving ->
    reply_of t hash kind n r (tracked r (ring_Get (tk_ID t) (tk_settled t) (finish_entry (tk_ID t) st m (tk_settled t) rg)))) as HR.
  { intros rg st m Hst Hh. assert (forall o, (forall e, o = Some e -> e_Status e <> Pending) -> tracked r o = Done r \/ tracked r o = NilEntry) as HT.
    { intros [e|] He; cbn; [|by right]. rewrite bool_decide_false by (by apply He). by left. }
    unfold reply_of. destruct (r_Health r); try done; apply HT; intros e He; by eapply settled_not_pending. }
  destruct (r_Health r) eqn:EH.
  4: { apply wp_ret, HQ. unfold reply_of. by rewrite EH. }
  all: apply wp_bind, wp_modify, wp_gets; cbn [ring set_ring]; apply (HQ _ _); destruct (r_RolledBack r); apply HR; congruence.
Qed.

(** What a handler of an apply may answer, and what then holds. *)
Definition reported (set : list Rule) (t : Ticket) (a : App) (reply : Reply) (a' : App) : Prop :=
  match reply with
  | Bad _ _ => same_rules a a'
  | Done r => r_Health r <> HealthObserving /\ in_force set a' /\ variationActive a' = false
  | Observing r e =>
      same_rules a a' /\ variationActive a' = true /\ is_Some (inflight a' !! r_SnapshotID r) /\
      e_ID e = tk_ID t /\ e_Status e = Pending /\ e_SnapshotID e = r_SnapshotID r
  | NilEntry => in_force set a' /\ variationActive a' = false
  | NoContent => False
  end.

Lemma ApplyRules_snapshot snap rv prev w :
  wp (ApplyRules Unmarshal IsDomainName ParseExit text orch BaseConfig snap rv prev)
    (fun '(r, e) _ => e = None -> r_SnapshotID r = snap /\ r_RolledBack r = false) w.
Proof.
  unfold ApplyRules. apply wp_bind, wp_any. intros free w1. destruct (negb free); [by apply wp_ret|].
  apply wp_bind, wp_any. intros [e|[[cfg sid] ps]] w2; [apply wp_bind, wp_any; intros; by apply wp_ret|].
  apply wp_bind. eapply (wp_mono _ (fun p _ => p.1.2 = None -> r_SnapshotID p.1.1 = snap /\ r_RolledBack p.1.1 = false)).
  - unfold dispatchRules. wp_run law_apply. intros [[res e] bg] w3 HL.
    destruct (is_in_flight e); [apply wp_bind, wp_any; intros; by apply wp_ret|].
    destruct (err e); [apply wp_bind, wp_any; intros; by apply wp_ret|]. destruct HL as [HL _].
    assert (forall st, wp (let! ce := (match st with Confirmed => on_cp (commitRuleApply snap) | _ => ret None end) in
      match ce with
      | Some e0 => let! re := orch_Rollback orch in
          let '(state, rb, finalErr) := if err re then (Failed, false, AEJoin e0 (AERestore re)) else (StRolledBack, true, e0) in
          let! _ := finish sid snap state (text finalErr) in
          ret ({| r_SnapshotID := snap; r_RuleVersionID := rv; r_RolledBack := rb; r_Health := HealthFailed; r_Reason := text finalErr |}, Some finalErr, true)
      | None => let! _ := finish sid snap st (reason text (Reason res)) in
          ret ({| r_SnapshotID := snap; r_RuleVersionID := rv; r_RolledBack := RolledBack res; r_Health := health res; r_Reason := reason text (Reason res) |},
            match st with Failed => Some (AEReason (if reason text (Reason res) == [] then
              str "orchestrator reported failed health without a confirmed rollback" else reason text (Reason res))) | _ => None end, true)
      end) (fun (p : CResult * option AErr * bool) (_ : World (@Config Value Base) App) => p.1.2 = None -> r_SnapshotID p.1.1 = snap /\ r_RolledBack p.1.1 = false) w3) as HC.
    { intros st. apply wp_bind, wp_any. intros [ce|] w4; [|apply wp_bind, wp_any; intros; by apply wp_ret].
      apply wp_bind, wp_any. intros re w5. destruct (err re); apply wp_bind, wp_any; intros; by apply wp_ret. }
    destruct (health res); try apply HC. by apply wp_ret.
  - intros [[r e] over] w3 Hr. cbn in Hr. apply wp_bind, wp_any. intros _ w4. by apply wp_ret.
Qed.

(** What an apply of the stored version [rv], whose rules are [set], comes to. *)
Definition come_to R S (set : list Rule) (rv : Z) (r : CResult) (e : option AErr) (a : App) : Prop :=
  match e with
  | Some _ => exists M', Good R S M' false a
  | None =>
      r_RolledBack r = false /\
      if bool_decide (r_Health r = HealthObserving)
      then Good R S (inflight a) true a /\ is_Some (inflight a !! r_SnapshotID r)
      else exists S' M', Good (activate rv R) S' M' false a /\ in_force set a
  end.

Lemma ApplyRules_come_to R S M set snap rv prev v w :
  Good R S M false (cp w) -> v ∈ rows R -> rv_ID v = rv -> parse (rv_RulesYAML v) = Ok set ->
  wp (ApplyRules Unmarshal IsDomainName ParseExit text orch BaseConfig snap rv prev)
    (fun '(r, e) w' => come_to R S set rv r e (cp w')) w.
Proof.
  intros HG Hv Hid Hp.
  pose proof (ApplyRules_wp Unmarshal IsDomainName ParseExit text orch BaseConfig R S M snap rv prev _ HG) as HA.
  pose proof (ApplyRules_snapshot snap rv prev w) as HN. unfold wp in *.
  destruct (ApplyRules _ _ _ _ _ _ snap rv prev w) as [[r e] w']. unfold applied in HA. destruct e as [e|]; [exact HA|].
  split; [by apply HN|]. case_bool_decide.
  - destruct HA as (i & HA & _). assert (inflight (cp w') = <[snap := i]> M) as EI by apply HA. rewrite EI. split; [exact HA|].
    rewrite (proj1 (HN eq_refl)), lookup_insert_eq. by eexists.
  - destruct HA as (S' & M' & HA & _). exists S', M'. split; [exact HA|]. by eapply activate_in_force.
Qed.

(** The tail both handlers share: the apply of a stored version, its
    tracking, and audit rows in between. *)
Lemma apply_tail R S M (set : list Rule) snap rv prev v (s : Srv) (Q : Reply -> Srv -> Prop) (k : CResult -> option AErr -> ST Srv Reply) :
  Good R S M false (cp (world s)) -> v ∈ rows R -> rv_ID v = rv -> parse (rv_RulesYAML v) = Ok set ->
  (forall r e s', come_to R S set rv r e (cp (world s')) -> wp (k r e) Q s') ->
  wp (let! (r, e) := on_world (ApplyRules Unmarshal IsDomainName ParseExit text orch BaseConfig snap rv prev) in k r e) Q s.
Proof.
  intros HG Hv Hid Hp HK. apply wp_bind, wp_on_world.
  eapply wp_mono; [by eapply ApplyRules_come_to|]. intros [r e] w HC. by apply HK.
Qed.

Lemma effective_wp rules (s : Srv) :
  wp (effective IsDomainName have_rulesets rules)
    (fun r s' => world s' = world s /\ match r with Ok set => res_ok (RuleSet_Validate IsDomainName set) = true | Err _ => True end) s.
Proof.
  unfold effective, bad. apply wp_bind. unfold wp at 1, on_reg. destruct (expandRulesets _ _ _ _) as [[e|set] g]; [by apply wp_ret|].
  destruct (RuleSet_Validate IsDomainName set) eqn:E; apply wp_ret; split; try done. by rewrite E.
Qed.

Lemma same_rules_refl a : same_rules a a.
Proof. done. Qed.

(** The state after an apply that reported no error, seen from the rules [R]
    and the store [S] before the handler. *)
Definition outcome R S set (r : CResult) (a : App) : Prop :=
  if bool_decide (r_Health r = HealthObserving)
  then exists R' M', extends R R' /\ Good R' S M' true a /\ is_Some (inflight a !! r_SnapshotID r)
  else exists R' S' M', Good R' S' M' false a /\ in_force set a.

Lemma come_to_outcome R R' S set rv r a : extends R R' -> come_to R' S set rv r None a -> outcome R S set r a.
Proof.
  intros HE [_ HC]. unfold outcome. case_bool_decide.
  - destruct HC as [HG HI]. by exists R', (inflight a).
  - destruct HC as (S' & M' & HG & HF). by exists (activate rv R'), S', M'.
Qed.

Lemma in_force_stable R S M V M' V' set a a' : Good R S M V a -> in_force set a -> Good R S M' V' a' -> in_force set a'.
Proof.
  intros (E1 & E2 & _)%Good_rules HF (E3 & E4 & _)%Good_rules.
  unfold in_force, ApplierSpec.active_rules in *. by rewrite E1, E2, <- E3, <- E4 in HF.
Qed.

Lemma outcome_audit R S set r u x t w a : outcome R S set r a -> wp (audit u x t w) (fun _ => outcome R S set r) a.
Proof.
  unfold outcome. case_bool_decide.
  - intros (R' & M' & HE & HG & HI). assert (inflight a = M') as Ei by apply HG.
    eapply wp_mono; [by eapply audit_Good|]. cbv beta. intros _ a' HG'. exists R', M'. split_and!; [done|done|].
    assert (inflight a' = M') as -> by apply HG'. by rewrite <- Ei.
  - intros (R' & S' & M' & HG & HF). eapply wp_mono; [by eapply audit_Good|]. cbv beta. intros _ a' HG'. exists R', S', M'.
    split; [done|]. exact (in_force_stable _ _ _ _ _ _ _ _ _ HG HF HG').
Qed.

Lemma tracked_reported R S M set (t : Ticket) hash kind n r a a' e :
  Good R S M false a -> outcome R S set r a' ->
  reply_of t hash kind n r (tracked r e) -> reported set t a (tracked r e) a'.
Proof.
  intros HG HH HR. unfold reply_of, outcome in *. case_bool_decide as Hh.
  - rewrite Hh in HR. rewrite HR. destruct HH as (R' & M' & HE & HG' & HI). unfold reported. split_and!; try done.
    + by eapply extends_same.
    + by eapply Good_rules.
  - destruct HH as (R' & S' & M' & HG' & HF).
    assert (tracked r e = Done r \/ tracked r e = NilEntry) as [-> | ->] by (by destruct (r_Health r)).
    + split_and!; [done|done|by eapply Good_rules].
    + split; [done|by eapply Good_rules].
Qed.

(** ** Properties *)

(** C9: the answer to an apply is true.  With no other variation active and a
    parser that inverts the printer, for every request, with every
    database statement and step of the data plane failing or not: an error
    leaves the rules in force as they were; 200 means that the effective
    rules of the request - with the rule sets expanded - are active and are
    what the resolver answers by; 202 means that nothing has changed yet,
    the apply is observed, and the entry to poll is pending for it. *)
Theorem apply_reported req actor t s reply s' :
  (forall set y, res_ok (RuleSet_Validate IsDomainName set) = true -> Marshal set = Some y -> parse y = Ok set) ->
  Safe (cp (world s)) -> variationActive (cp (world s)) = false ->
  handleApply req actor t s = (reply, s') ->
  (exists st code, reply = Bad st code /\ same_rules (cp (world s)) (cp (world s'))) \/
  exists rules note set, req = Some (rules, note) /\ (effective IsDomainName have_rulesets rules s).1 = Ok set /\
    reported set t (cp (world s)) reply (cp (world s')).
Proof.
  intros HM (R & S & M & V & HG) HV E. assert (V = false) as -> by (rewrite <- HV; symmetry; by eapply Good_rules).
  refine (wp_elim _ (fun reply s' => (exists st code, reply = Bad st code /\ same_rules (cp (world s)) (cp (world s'))) \/
    exists rules note set, req = Some (rules, note) /\ (effective IsDomainName have_rulesets rules s).1 = Ok set /\
      reported set t (cp (world s)) reply (cp (world s'))) s reply s' _ E). clear E.
  destruct req as [[rules note]|]; [|apply wp_ret; left; by exists 400, (str "bad_request")]. unfold ApplyApi.handleApply.
  apply wp_bind. pose proof (effective_wp rules s) as HW. unfold wp in HW |- *.
  destruct (effective IsDomainName have_rulesets rules s) as [x s1] eqn:EX. destruct HW as [Hw Hval].
  assert (forall st code (s2 : Srv) R' M', extends R R' -> Good R' S M' false (cp (world s2)) ->
    (exists st0 code0, @Bad st code = Bad st0 code0 /\ same_rules (cp (world s)) (cp (world s2))) \/
    exists rules0 note0 set, Some (rules, note) = Some (rules0, note0) /\ (effective IsDomainName have_rulesets rules0 s).1 = Ok set /\
      reported set t (cp (world s)) (Bad st code) (cp (world s2))) as HB.
  { intros st code s2 R' M' HE HG'. left. exists st, code. split; [done|]. by eapply extends_same. }
  destruct x as [[st code]|set]; [apply (HB _ _ _ R M); [apply extends_refl|by rewrite Hw]|].
  destruct (Marshal set) as [yaml|] eqn:EM; [|apply (HB _ _ _ R M); [apply extends_refl|by rewrite Hw]].
  pose proof (HM set yaml Hval EM) as Hp.
  match goal with |- context [bind ?m ?f s1] => change (wp (bind m f) (fun reply s' =>
    (exists st code, reply = Bad st code /\ same_rules (cp (world s)) (cp (world s'))) \/
    exists rules0 note0 set, Some (rules, note) = Some (rules0, note0) /\ (effective IsDomainName have_rulesets rules0 s).1 = Ok set /\
      reported set t (cp (world s)) reply (cp (world s'))) s1) end.
  apply wp_bind, wp_on_app. rewrite Hw. eapply wp_mono; [by apply store_version_wp|].
  intros [[st code]|[[snap rv] prev]] a2 H2; [apply wp_ret, (HB _ _ _ R M); [apply extends_refl|exact H2]|].
  destruct H2 as (R' & HE & HG2 & v & Hv & Hid & Hy).
  eapply (apply_tail R' S M set); [exact HG2|exact Hv|exact Hid|by rewrite Hy|]. intros r e s3 H3.
  apply wp_bind, wp_on_app. destruct e as [e|].
  - destruct H3 as (M' & H3). eapply wp_mono; [by eapply audit_Good|]. intros [] a4 H4. apply wp_ret. unfold refuse.
    destruct (in_flight e); by eapply HB.
  - eapply wp_mono; [eapply outcome_audit, come_to_outcome; [exact HE|exact H3]|]. intros [] a4 H4.
    apply wp_bind, track_wp. intros rg en HR. apply wp_ret. right. exists rules, note, set.
    split_and!; [done|by rewrite EX|]. by eapply (tracked_reported R S M).
Qed.

Lemma rollback_target_wp R S M V id a :
  K R S M V a ->
  wp (rollback_target Unmarshal IsDomainName id) (fun r a' => K R S M V a' /\
    match r with
    | Err _ => True
    | Ok (snap, target, set, _) =>
        sn_ID snap = id /\ last (filter (fun v => rv_SnapshotID v = id) (rows R)) = Some target /\ parse (rv_RulesYAML target) = Ok set
    end) a.
Proof.
  intros HK. unfold rollback_target. apply wp_bind. unfold wp at 1, on_db. destruct HK as ((Hwf & HR) & HS & HM & HV).
  pose proof (wp_query (fun d => one (found (fun s => sn_ID s == id) (rows (snapshots d)))) (db a)) as HQ. unfold wp in HQ.
  change (GetSnapshotByID id) with (query (fun d => one (found (fun s => sn_ID s == id) (rows (snapshots d))))).
  destruct (query _ (db a)) as [q d]. destruct HQ as [Hd HQ]. apply eqt_inv in Hd as [l ->].
  assert (K R S M V (set_db (set_db_faults l (db a)) a)) as HK by (split; [split; [exact (inv_stable (false, []) l _ Hwf)|exact HR]|done]).
  destruct q as [[]|snap]; try (apply wp_ret; by split). destruct HQ as [l' HQ].
  assert (sn_ID snap = id) as Hsid.
  { cbn in HQ. destruct (found _ _) as [x|] eqn:F; [|done]. injection HQ as ->. apply found_elem in F as [_ F]. by apply bool_decide_eq_true in F. }
  clear Hwf HR HS HM HV HQ. revert HK. generalize (set_db (set_db_faults l (db a)) a). clear a l l'. intros a HK.
  wp_run (on_db_query (fun R => one (last (filter (fun r => rv_SnapshotID r = sn_ID snap) (rows R)))) R S M V a); [exact HK|].
  clear a HK. intros q a [HK HQ]. destruct q as [e|target]; [destruct e; apply wp_ret; by split|].
  destruct HQ as [|HQ]; [done|]. destruct (last _) as [v|] eqn:EL; [|done]. cbn in HQ. injection HQ as ->. rewrite Hsid in EL.
  destruct (parse (rv_RulesYAML target)) as [|set] eqn:EP; [apply wp_ret; by split|].
  destruct (RuleSet_Validate IsDomainName set); [apply wp_ret; by split|].
  unfold bindE. eapply wp_keeps_bind; [apply active_snapshot_K|exact HK|]. clear a HK. intros [e|prev] a HK; apply wp_ret; by split_and!.
Qed.

(** the answer to a rollback is true: an error leaves the rules in force
    as they were; 200 means that the newest version stored with the requested
    snapshot is active and is what the resolver answers by; 202 that nothing
    has changed yet and the entry to poll is pending. *)
Theorem rollback_reported id actor t s reply s' :
  Safe (cp (world s)) -> variationActive (cp (world s)) = false ->
  handleRollbackSnapshot (Some id) actor t s = (reply, s') ->
  (exists st code, reply = Bad st code /\ same_rules (cp (world s)) (cp (world s'))) \/
  exists target set, last (filter (fun v => rv_SnapshotID v = id) (rows (rule_versions (db (cp (world s)))))) = Some target /\
    parse (rv_RulesYAML target) = Ok set /\ reported set t (cp (world s)) reply (cp (world s')).
Proof.
  intros (R & S & M & V & HG) HV E. assert (V = false) as -> by (rewrite <- HV; symmetry; by eapply Good_rules).
  destruct (Good_rules _ _ _ _ _ HG) as (ER & _ & _). rewrite ER.
  refine (wp_elim _ (fun reply s' => (exists st code, reply = Bad st code /\ same_rules (cp (world s)) (cp (world s'))) \/
    exists target set, last (filter (fun v => rv_SnapshotID v = id) (rows R)) = Some target /\
      parse (rv_RulesYAML target) = Ok set /\ reported set t (cp (world s)) reply (cp (world s'))) s reply s' _ E). clear E.
  pose proof HG as (HK & Ha & Hok). unfold ApplyApi.handleRollbackSnapshot.
  apply wp_bind, wp_on_app. eapply wp_mono; [by apply rollback_target_wp|].
  intros [[st code]|[[[snap target] set] prev]] a2 [HK2 H2].
  { apply wp_ret. left. exists st, code. split; [done|]. eapply (extends_same R R); [exact HG|apply extends_refl|by split]. }
  destruct H2 as (Hsid & HL & Hp). assert (Good R S M false a2) as HG2 by (by split).
  assert (target ∈ rows R) as Hin.
  { apply last_Some_elem_of in HL. by apply list_elem_of_filter in HL as [_ HL]. }
  eapply apply_tail; [exact HG2|exact Hin|done|exact Hp|]. intros r e s3 H3. destruct e as [e|].
  - destruct H3 as (M' & H3). apply wp_ret. left. unfold refuse. destruct (in_flight e); eexists _, _; (split; [done|]);
      (eapply (extends_same R R); [exact HG|apply extends_refl|exact H3]).
  - apply wp_bind, track_wp. intros rg en HR. apply wp_bind, wp_on_app. cbn [world set_ring].
    eapply wp_mono; [eapply outcome_audit, (come_to_outcome R R); [apply extends_refl|exact H3]|]. intros [] a4 H4. apply wp_ret. right.
    exists target, set. split_and!; [done|done|]. by eapply (tracked_reported R S M).
Qed.

(** What a poll may go by: the fallback of the applier, or the status row. *)
Definition verdict (n : Z) (a : App) (st : State) (reason : bytes) : Prop :=
  TerminalStatus n a = Some (st, reason) \/
  exists row, last (filter (fun r => st_SnapshotID r = n) (rows (apply_status (db a)))) = Some row /\
    st_State row = st /\ st_Reason row = reason /\ st <> Submitted.

Definition settled (st : State) (reason : bytes) (now : Z) (e : applyEntry) : applyEntry :=
  match st with Confirmed => finished Succeeded [] now e | _ => finished FailedApply reason now e end.

Lemma settle_get (e : applyEntry) st reason now rg :
  ring_Get (e_ID e) now rg = Some e ->
  ring_Get (e_ID e) now (match st with Confirmed => finish_entry (e_ID e) Succeeded [] now | _ => finish_entry (e_ID e) FailedApply reason now end rg) =
  Some (settled st reason now e).
Proof.
  unfold ring_Get. destruct (byID rg !! e_ID e) as [x|] eqn:E; [|done]. destruct (_ <? _) eqn:EL; [done|]. intros [= ->].
  destruct st; unfold finish_entry; rewrite E; cbn [byID]; rewrite lookup_insert_eq, finished_start, EL; done.
Qed.

(** a poll tells the truth about a pending apply: it goes on as pending,
    or it is reported with the verdict that the applier's fallback or the
    status row of its snapshot carries - succeeded only for a confirmed one -
    and the ring keeps that.  Polling touches neither rules nor exits. *)
Theorem poll_truthful e now (s s' : Srv) r :
  ring_Get (e_ID e) now (ring s) = Some e -> e_Status e = Pending ->
  handleApplyGet (e_ID e) now s = (r, s') ->
  exists e', r = Some (Some e') /\ ring_Get (e_ID e) now (ring s') = Some e' /\
    (e' = e \/ exists st reason, verdict (e_SnapshotID e) (cp (world s)) st reason /\ e' = settled st reason now e) /\
    same_rules (cp (world s)) (cp (world s')).
Proof.
  intros HGet HP E.
  refine (wp_elim _ (fun r s' => exists e', r = Some (Some e') /\ ring_Get (e_ID e) now (ring s') = Some e' /\
    (e' = e \/ exists st reason, verdict (e_SnapshotID e) (cp (world s)) st reason /\ e' = settled st reason now e) /\
    same_rules (cp (world s)) (cp (world s'))) s r s' _ E). clear E.
  unfold handleApplyGet. apply wp_bind, wp_gets. rewrite HGet. apply wp_bind. unfold refreshApplyEntry. rewrite HP.
  destruct (negb _ || _); [apply wp_ret, wp_ret; exists e; split_and!; [done|done|by left|done]|].
  apply wp_bind, wp_gets. destruct (TerminalStatus _ _) as [[st reason]|] eqn:ET.
  - apply wp_bind, wp_modify, wp_gets. cbn [ring set_ring]. rewrite settle_get by done. apply wp_ret.
    exists (settled st reason now e). split_and!; [done|by apply settle_get| |done]. right. exists st, reason. split; [by left|done].
  - apply wp_bind, wp_on_app. unfold wp at 1, on_db, ApplyStatusBySnapshot.
    pose proof (wp_query (fun d => Ok (last (filter (fun r => st_SnapshotID r = e_SnapshotID e) (rows (apply_status d))))) (db (cp (world s)))) as HQ.
    unfold wp in HQ. destruct (query _ _) as [q d]. destruct HQ as [Hd HQ]. apply eqt_inv in Hd as [l ->].
    assert (forall e', ring_Get (e_ID e) now (ring s) = Some e -> same_rules (cp (world s)) (set_db (set_db_faults l (db (cp (world s)))) (cp (world s)))) as HS by done.
    destruct q as [er|row]; [apply wp_ret, wp_ret; exists e; split_and!; [done|done|by left|done]|].
    destruct HQ as [l' [= HQ]]. destruct row as [row|]; [|apply wp_ret, wp_ret; exists e; split_and!; [done|done|by left|done]].
    assert (forall st (s1 : Srv), ring s1 = ring s -> same_rules (cp (world s)) (cp (world s1)) -> st_State row = st -> st <> Submitted ->
      wp (let! _ := settle (e_ID e) st (st_Reason row) now in gets (fun s => Some (default e (ring_Get (e_ID e) now (ring s)))))
        (fun r s' => wp (ret (Some r)) (fun r s' => exists e', r = Some (Some e') /\ ring_Get (e_ID e) now (ring s') = Some e' /\
          (e' = e \/ exists st reason, verdict (e_SnapshotID e) (cp (world s)) st reason /\ e' = settled st reason now e) /\
          same_rules (cp (world s)) (cp (world s'))) s') s1) as HG.
    { intros st s1 Hr1 Hs1 Hst Hne. apply wp_bind, wp_modify, wp_gets. cbn [ring set_ring]. rewrite Hr1, settle_get by done.
      apply wp_ret. exists (settled st (st_Reason row) now e). cbn [ring set_ring world]. split_and!; [done| | |exact Hs1].
      - by apply settle_get.
      - right. exists st, (st_Reason row). split; [right; by exists row|done]. }
    destruct (st_State row) eqn:ES; [apply wp_ret, wp_ret; exists e; split_and!; [done|done|by left|done]|..]; by apply HG.
Qed.
End spec.

(** ** Concrete inputs *)
Module Demo.
#[local] Existing Instance ascii_tables.
Import ApplierSpec.Demo.

Definition block : list Rule := [match_rule (str "block")].
Definition proxy : list Rule := [match_rule (str "proxy")].
Definition Marshal (l : list Rule) : option bytes :=
  if bool_decide (l = proxy) then Some (str "A") else if bool_decide (l = block) then Some (str "B") else None.

Lemma Marshal_law set y : res_ok (RuleSet_Validate any_name set) = true -> Marshal set = Some y -> ParseYAML any_name Unmarshal y = Ok set.
Proof.
  intros _. unfold Marshal. case_bool_decide as H1; [intros [= <-]; rewrite H1; apply parse_A|].
  case_bool_decide as H2; [intros [= <-]; rewrite H2; apply parse_B|done].
Qed.

Definition server (w : World (@Config unit unit) App) : @Srv unit unit :=
  MkSrv newApplyStore {| table := ∅; clock := 5; faults := [] |} w.
Definition s0 : Srv := server (w0 []).
Definition ticket : Ticket := {| tk_ID := str "t1"; tk_created := 10; tk_settled := 11 |}.

(** An apply without a data plane, and one that is observed. *)
Abbreviation apply := (handleApply Unmarshal any_name no_exit text).
Definition done_run := apply noop base Marshal true (Some (block, str "note")) (str "root") ticket s0.
Definition seen_run := apply orch base Marshal true (Some (block, str "note")) (str "root") ticket s0.

Example done_200 : match done_run with (Done r, s) => r_RuleVersionID r = 3 /\ active_id (rule_versions (db (cp (world s)))) = 3 | _ => False end.
Proof. by vm_compute. Qed.

Lemma apply_reported_witness :
  match done_run.1 with Done _ => in_force Unmarshal any_name block (cp (world done_run.2)) | _ => False end.
Proof.
  assert (exists r, done_run.1 = Done r) as [r Hr] by (eexists; by vm_compute).
  destruct (apply_reported Unmarshal any_name no_exit text noop base Marshal true (Some (block, str "note")) (str "root") ticket s0
    done_run.1 done_run.2 Marshal_law app0_Safe eq_refl (surjective_pairing _)) as [(st & code & H & _)|(rules & note & set & H1 & H2 & H3)].
  - rewrite Hr in H. discriminate H.
  - rewrite Hr in H3 |- *. injection H1 as <- <-. assert (set = block) as -> by (vm_compute in H2; by injection H2 as <-).
    exact (proj1 (proj2 H3)).
Defined.

Definition back_run := handleRollbackSnapshot Unmarshal any_name no_exit text noop base (Some 2) (str "root") ticket s0.

Lemma rollback_reported_witness :
  match back_run.1 with Done _ => exists set, in_force Unmarshal any_name set (cp (world back_run.2)) | _ => False end.
Proof.
  assert (exists r, back_run.1 = Done r) as [r Hr] by (eexists; by vm_compute).
  destruct (rollback_reported Unmarshal any_name no_exit text noop base 2 (str "root") ticket s0
    back_run.1 back_run.2 app0_Safe eq_refl (surjective_pairing _)) as [(st & code & H & _)|(target & set & H1 & H2 & H3)].
  - rewrite Hr in H. discriminate H.
  - rewrite Hr in H3 |- *. exists set. exact (proj1 (proj2 H3)).
Defined.

(** The verdict comes, and the poll shows it. *)
Definition observed : Srv := seen_run.2.
Definition verdict_in : Srv :=
  MkSrv (ring observed) (reg observed) (OnHealth text orch 3 {| RolledBack := false; health := HealthOK; Reason := [] |} (world observed)).2.
Definition e0 : applyEntry := pending_entry (str "t1") (HashRules block) (str "apply") 1 3 10.

Example poll_before : (handleApplyGet (str "t1") 20 observed).1 = Some (Some e0).
Proof. by vm_compute. Qed.
Example poll_after : (handleApplyGet (str "t1") 20 verdict_in).1 = Some (Some (finished Succeeded [] 20 e0)).
Proof. by vm_compute. Qed.

Lemma poll_truthful_witness : exists e', (handleApplyGet (str "t1") 20 verdict_in).1 = Some (Some e').
Proof.
  destruct (poll_truthful Unmarshal any_name e0 20 verdict_in (handleApplyGet (str "t1") 20 verdict_in).2 (handleApplyGet (str "t1") 20 verdict_in).1)
    as (e' & H & _); [by vm_compute|reflexivity|apply surjective_pairing|]. exists e'. exact H.
Defined.

(** The control socket's rollback does not go back: it takes the newest
    version that is not active.  Version 2 was never in force; from version 1
    it is activated, and the next rollback returns to version 1. *)
Definition ctl (s : Srv) := cmdRulesRollback Unmarshal any_name no_exit text noop base (@rev _) s.
Example ctl_pingpong :
  match (ctl s0).1, (ctl (ctl s0).2).1 with
  | CtlOk _ (Some (v, _)), CtlOk _ (Some (v', _)) => v = 2 /\ v' = 1
  | _, _ => False
  end.
Proof. by vm_compute. Qed.

(** An entry that turns a day old between the listing and its refresh, with
    a verdict in the fallback: the handler dereferences nil. *)
Definition aged : Srv :=
  MkSrv (create (pending_entry (str "t9") [] (str "apply") 1 2 0) newApplyStore) (reg s0)
    (upd_cp (set_terminal {[ 2 := (Failed, str "x") ]} [2] app0) (w0 [])).
Example list_nil : (handleAppliesList ApplyRing.Demo.sort_newest applyRingTTL (applyRingTTL + 1) aged).1 = None.
Proof. by vm_compute. Qed.
End Demo.
