(* ===== verification/ImportOk.v ===== *)
(** * Imports that go through

    When no call on the database fails, the panel's own active rules parse and
    the data plane takes what it is given, an import of rules that parse ends
    without an error.  [Applier.ImportRules] statement by statement: what
    ApplierSpec.v says of an answer is said here of there being the answer. *)
From S2P Require Import Prelude GoStrings Rules RuleTable Orchestrator Db Applier ApplierSpec.
From Stdlib Require Import ZArith Lia.
Local Open Scope Z_scope.

(** ** Statements on a database without faults *)
Definition calm_db (d : Db) : Prop := db_faults d = [].

Lemma fallible_ok d : calm_db d -> fallible d = (Ok tt, d).
Proof. unfold calm_db, fallible. by intros ->. Qed.
Lemma exec_ok {A} (f : Db -> option (A * Db)) d a d' : calm_db d -> f d = Some (a, d') -> exec f d = (Ok a, d').
Proof. intros Hc Hf. unfold exec, bindE, bind. by rewrite (fallible_ok d Hc), Hf. Qed.
Lemma query_ok {A} (f : Db -> res DbErr A) d : calm_db d -> query f d = (f d, d).
Proof. intros Hc. unfold query, bindE, bind. by rewrite (fallible_ok d Hc). Qed.
Lemma tx_ok {A} (m : DB A) d a d' : calm_db d -> m d = (Ok a, d') -> calm_db d' -> tx m d = (Ok a, d').
Proof. intros Hc Hm Hc'. unfold tx, bindE, bind. by rewrite (fallible_ok d Hc), Hm, (fallible_ok d' Hc'). Qed.
Lemma bindE_ok {W E A B} (m : ST W (res E A)) (f : A -> ST W (res E B)) w a w' : m w = (Ok a, w') -> bindE m f w = f a w'.
Proof. intros Hm. unfold bindE, bind. by rewrite Hm. Qed.
Lemma bind_ok {W A B} (m : ST W A) (f : A -> ST W B) w a w' : m w = (a, w') -> bind m f w = f a w'.
Proof. intros Hm. unfold bind. by rewrite Hm. Qed.
Lemma on_db_ok {A} (m : DB A) a r d : m (db a) = (r, d) -> on_db m a = (r, set_db d a).
Proof. intros Hm. unfold on_db. by rewrite Hm. Qed.
Lemma db_try_ok {A} (f : DbErr -> AErr) (m : DB A) a x d : m (db a) = (Ok x, d) -> db_try f m a = (Ok x, set_db d a).
Proof. intros Hm. unfold db_try. by rewrite (bind_ok _ _ _ _ _ (on_db_ok m a _ _ Hm)). Qed.

Lemma found_exists {A} (P : A -> bool) l : existsb P l = true -> exists x, found P l = Some x /\ P x = true.
Proof.
  intros HE. destruct (found P l) as [x|] eqn:F; [exists x; split; [done|]; by apply found_elem in F as [_ ?]|].
  apply existsb_exists in HE as (x & Hin & Hx). apply list_elem_of_In in Hin. apply (found_none _ _ _ F) in Hin. by rewrite Hx in Hin.
Qed.

Lemma InsertSnapshot_ok h t n d : calm_db d ->
  exists id d', InsertSnapshot h t n d = (Ok id, d') /\ calm_db d' /\ snapshot_exists id d' = true /\ rule_versions d' = rule_versions d.
Proof.
  intros Hc. unfold InsertSnapshot. destruct (hash_taken h d) as [s|] eqn:EH.
  - exists (sn_ID s), d. erewrite bindE_ok; [|apply exec_ok; [exact Hc|by rewrite EH]]. cbv beta iota.
    rewrite (bindE_ok _ _ _ _ _ (fallible_ok d Hc)). cbn. rewrite query_ok, EH by done. split_and!; try done.
    unfold snapshot_exists. apply existsb_exists. unfold hash_taken in EH. apply found_elem in EH as [Hin _].
    exists s. split; [by apply list_elem_of_In|]. by apply bool_decide_eq_true.
  - eexists _, _. erewrite bindE_ok; [|apply exec_ok; [exact Hc|rewrite EH; reflexivity]]. cbv beta iota.
    erewrite bindE_ok; [|apply fallible_ok; exact Hc]. cbn. erewrite bindE_ok; [|apply fallible_ok; exact Hc]. split; [reflexivity|].
    split_and!; [done| |done]. unfold snapshot_exists. cbn. rewrite existsb_app. cbn. rewrite bool_decide_true by done. apply orb_true_iff. by right.
Qed.

(** The row of a version stored and not yet active. *)
Definition stored (snap rv : Z) (y : bytes) : RuleVersion := {| rv_ID := rv; rv_SnapshotID := snap; rv_RulesYAML := y; rv_Active := false |}.

Lemma InsertRuleVersion_ok s y d : calm_db d -> snapshot_exists s d = true ->
  let t := tbl_insert (fun id => stored s id y) (rule_versions d) in
  InsertRuleVersion s y false d = (Ok (seq t), set_rule_versions t d).
Proof.
  intros Hc Hs t. unfold InsertRuleVersion. apply tx_ok; [done| |done]. erewrite bindE_ok; [|reflexivity].
  erewrite bindE_ok; [|apply exec_ok; [exact Hc|rewrite Hs; cbn [andb negb]; reflexivity]]. by erewrite bindE_ok; [|apply fallible_ok; exact Hc].
Qed.

Lemma SetActive_ok id d : calm_db d -> length (filter (fun r => rv_ID r = id) (rows (rule_versions d))) = 1%nat ->
  exists d', SetActiveRuleVersion id d = (Ok tt, d') /\ calm_db d'.
Proof.
  intros Hc Hl. eexists. split; [|shelve]. unfold SetActiveRuleVersion. apply tx_ok; [done| |].
  - erewrite bindE_ok; [|apply exec_ok; [exact Hc|reflexivity]].
    erewrite bindE_ok; [|apply exec_ok; [exact Hc|reflexivity]]. erewrite bindE_ok; [|apply fallible_ok; exact Hc].
    cbv beta. match goal with |- (if ?b then _ else _) _ = _ => assert (b = true) as ->; [|reflexivity] end.
    apply Z.eqb_eq. cbn [rule_versions set_rule_versions rows tbl_map]. unfold len. transitivity (Z.of_nat (length (filter (fun r => rv_ID r = id) (rows (rule_versions d))))); [|by rewrite Hl].
    f_equal. generalize (rows (rule_versions d)). intros l. induction l as [|r l IH]; [done|]. cbn [fmap list_fmap]. rewrite !filter_cons.
    assert (rv_ID (if rv_Active r then rv_set_active false r else r) = rv_ID r) as -> by (by destruct (rv_Active r)). destruct (decide _); cbn; by rewrite ?IH.
  - exact Hc.
  Unshelve. exact Hc.
Qed.

Lemma InsertApplyStatus_ok s r d : calm_db d -> snapshot_exists s d = true ->
  exists id d', InsertApplyStatus s r d = (Ok id, d') /\ calm_db d' /\ rule_versions d' = rule_versions d.
Proof.
  intros Hc Hs. eexists _, _. unfold InsertApplyStatus. erewrite bindE_ok; [|apply exec_ok; [exact Hc|rewrite Hs; reflexivity]].
  erewrite bindE_ok; [|apply fallible_ok; exact Hc]. split; [reflexivity|done].
Qed.

Lemma found_by_id rv l v : filter (fun r => rv_ID r = rv) l = [v] -> found (fun r => rv_ID r == rv) l = Some v.
Proof.
  induction l as [|r l IH]; [done|]. rewrite filter_cons, found_cons. destruct (decide (rv_ID r = rv)) as [E|E].
  - intros [= -> _]. by rewrite bool_decide_true.
  - rewrite bool_decide_false by done. exact IH.
Qed.

(** A version just inserted is the only row of its id. *)
Lemma inserted_alone (f : Z -> RuleVersion) (t : Table RuleVersion) : (forall i, rv_ID (f i) = i) -> tbl_ok rv_ID t ->
  filter (fun r => rv_ID r = seq (tbl_insert f t)) (rows (tbl_insert f t)) = [f (seq (tbl_insert f t))].
Proof.
  intros Hf (_ & _ & HF). unfold tbl_insert. cbn [seq rows]. rewrite filter_app, filter_cons. cbn.
  rewrite decide_True by apply Hf. assert (filter (fun r => rv_ID r = seq t + 1) (rows t) = []) as ->; [|done].
  induction HF as [|r l Hr _ IH]; [done|]. rewrite filter_cons, decide_False; [exact IH|lia].
Qed.

Section import.
Context `{Unicode} {Value Base : Type}.
Context (Unmarshal : bytes -> option (list Rule)) (IsDomainName : bytes -> bool)
  (ParseExit : bytes -> option (gmap bytes Value)) (text : AErr -> bytes)
  (orch : @Orch Value Base) `{!OrchLaws orch} (BaseConfig : option (@Config Value Base)).
Abbreviation W := (World (@Config Value Base) App).
Abbreviation parse := (ParseYAML IsDomainName Unmarshal).
Abbreviation active_rules := (active_rules Unmarshal IsDomainName).

Lemma parse_valid y set : parse y = Ok set -> RuleSet_Validate IsDomainName set = Ok tt.
Proof. unfold ParseYAML. destruct (Unmarshal y) as [l|]; [|done]. destruct (RuleSet_Validate IsDomainName l) as [|[]] eqn:E; [done|]. by intros [= <-]. Qed.

(** Nothing stands in the way of an import: no call on the database fails,
    the rules in force parse, and no variation is active. *)
Record clear (a : App) : Prop := {
  cl_db : calm_db (db a); cl_rules : is_Some (active_rules a); cl_idle : variationActive a = false; cl_table : tbl_ok rv_ID (rule_versions (db a))
}.

(** The data plane takes what it is given, when the commit goes through, in
    the world [w] with any state of the control plane. *)
Definition willing (w : W) : Prop :=
  forall c req f, Commit req = Some f -> (f c).1 = true -> err (orch_Apply orch req (upd_cp c w)).1.1.2 = false.

(** A stored version is ready to be applied. *)
Record ready (snap rv : Z) (y : bytes) (a : App) : Prop := {
  rd_db : calm_db (db a); rd_snap : snapshot_exists snap (db a) = true; rd_rules : is_Some (active_rules a);
  rd_row : filter (fun r => rv_ID r = rv) (rows (rule_versions (db a))) = [stored snap rv y]
}.

(** ... and registered. *)
Record registered (snap rv : Z) (a : App) : Prop := {
  rg_db : calm_db (db a);
  rg_info : exists i, inflight a !! snap = Some i /\ ruleVersionID i = rv /\ committed i = false;
  rg_row : length (filter (fun r => rv_ID r = rv) (rows (rule_versions (db a)))) = 1%nat
}.

Lemma active_read a : calm_db (db a) -> is_Some (active_rules a) ->
  exists r, on_db GetActiveRuleVersion a = (r, a) /\ match r with Ok v => exists set, parse (rv_RulesYAML v) = Ok set | Err e => e = ErrNoRows end.
Proof.
  intros Hc [set HA]. unfold GetActiveRuleVersion. eexists. split; [erewrite on_db_ok; [|by apply query_ok]; by destruct a|].
  unfold ApplierSpec.active_rules in HA. destruct (found rv_Active (rows (rule_versions (db a)))) as [v|]; [|done]. cbn. destruct (parse (rv_RulesYAML v)) as [|set']; [done|]. by exists set'.
Qed.

Lemma Assemble_ok a : is_Some BaseConfig -> calm_db (db a) -> is_Some (active_rules a) ->
  exists cfg, Assemble Unmarshal IsDomainName ParseExit BaseConfig a = (Ok cfg, a).
Proof.
  intros [b ->] Hc HA. destruct (active_read a Hc HA) as (r & Er & Hr). unfold Assemble, ActiveRulesYAML.
  erewrite bind_ok; [|erewrite bind_ok; [|exact Er]; reflexivity].
  assert (forall rs, exists cfg, (let! x := Records ParseExit in
    ret (match x with Err e => Err (AEListExits e) | Ok l => Ok {| cfg_base := cfg_base b; Exits := Some (map exit_config l); EffectiveRules := rs |} end)) a = (Ok cfg, a)) as HR.
  { intros rs. unfold Records, ListExits. eexists. erewrite bind_ok; [|erewrite bind_ok; [|apply on_db_ok; by apply query_ok]; reflexivity]. by destruct a. }
  destruct r as [e|v]; [subst e; apply HR|]. cbv beta iota. destruct Hr as [rs Hr]. rewrite Hr, (parse_valid _ _ Hr). apply HR.
Qed.

Lemma readPrior_ok a : calm_db (db a) -> is_Some (active_rules a) -> exists x, readPrior Unmarshal IsDomainName a = (Ok x, a).
Proof.
  intros Hc HA. destruct (active_read a Hc HA) as (r & Er & Hr). unfold readPrior. erewrite bind_ok; [|exact Er]. destruct r as [e|v]; [subst e|]; by eexists.
Qed.

Lemma prepareRules_ok snap rv y set a : is_Some BaseConfig -> parse y = Ok set -> ready snap rv y a ->
  exists p a', prepareRules Unmarshal IsDomainName ParseExit BaseConfig snap rv 0 a = (Ok p, a') /\ registered snap rv a'.
Proof.
  intros HB Hp [Hc Hs HA Hrow]. unfold prepareRules, GetRuleVersionByID.
  erewrite bindE_ok; [|apply db_try_ok; rewrite query_ok, (found_by_id _ _ _ Hrow) by done; reflexivity].
  assert (set_db (db a) a = a) as -> by (by destruct a). cbn [stored rv_SnapshotID rv_RulesYAML]. rewrite bool_decide_true by done. cbn [negb].
  rewrite Hp, (parse_valid _ _ Hp). destruct (Assemble_ok a HB Hc HA) as [cfg Ecfg]. erewrite bindE_ok; [|exact Ecfg].
  destruct (readPrior_ok a Hc HA) as [[[pv ps] pt] Epr]. erewrite bindE_ok; [|exact Epr]. cbv beta iota zeta.
  rewrite (bool_decide_true (0 = 0)) by done. cbn [negb andb].
  destruct (InsertApplyStatus_ok snap [] (db a) Hc Hs) as (sid & d' & Est & Hc' & Ht). erewrite bindE_ok; [|apply db_try_ok; exact Est].
  eexists _, _. split; [reflexivity|]. cbn [db set_inflight].
  assert (forall a0, db (match terminalStatus a0 !! snap with None => a0 | Some _ => set_terminal (delete snap (terminalStatus a0)) (remove_first snap (terminalOrder a0)) a0 end) = db a0) as HD
    by (intros a0; by destruct (terminalStatus a0 !! snap)).
  split; cbn [db inflight set_inflight]; rewrite ?HD; cbn [db set_db]; [done| |by rewrite Ht, Hrow].
  eexists. split; [apply lookup_insert_eq|done].
Qed.

Lemma commit_ok snap rv a : registered snap rv a ->
  exists a', commitRuleApply snap a = (None, a') /\ calm_db (db a') /\ exists i, inflight a' !! snap = Some i /\ committed i = true.
Proof.
  intros [Hc (i & Ei & Hi & Hn) Hrow]. unfold commitRuleApply, getInflight, gets. erewrite bind_ok; [|reflexivity]. rewrite Ei, Hn, Hi.
  destruct (SetActive_ok rv (db a) Hc Hrow) as (d' & Ed & Hc'). erewrite bind_ok; [|apply on_db_ok; exact Ed].
  eexists. split; [reflexivity|]. cbn. split; [done|]. eexists. split; [apply lookup_insert_eq|done].
Qed.

Lemma dispatchRules_ok snap rv cfg sid ps (w : W) : willing w -> registered snap rv (cp w) ->
  exists r over w', dispatchRules text orch snap rv cfg sid ps w = (r, None, over, w') /\ r_RolledBack r = false.
Proof.
  intros HW HR. unfold dispatchRules. set (req := {| SnapshotID := snap; RuleVersionID := rv; rq_config := Some cfg; PrevSnapshot := ps; Commit := Some (commit_callback snap) |}).
  destruct (commit_ok snap rv (cp w) HR) as (a' & EC & Hc' & i & Ei & Hi).
  assert ((commit_callback snap (cp w)).1 = true) as Hf by (unfold commit_callback; by rewrite EC).
  specialize (HW (cp w) req _ eq_refl Hf). replace (upd_cp (cp w) w) with w in HW by (by destruct w).
  pose proof (law_apply req w) as HL. unfold wp in HL. unfold bind at 1.
  destruct (orch_Apply orch req w) as [[[res e] bg] w1]. cbn in HW. rewrite HW in HL. destruct e as [|? ?]; [|done]. destruct HL as [Hb HL].
  cbn [is_in_flight existsb err]. destruct HL as [[-> _]|[Hh HC]]; [by eexists _, _, _|]. rewrite Hh.
  assert (cp w1 = a') as E1 by (unfold commits in HC; cbn in HC; unfold commit_callback in HC; rewrite EC in HC; by injection HC).
  unfold applyTerminalState. rewrite Hb, Hh. cbv zeta.
  erewrite bind_ok; [|unfold on_cp; rewrite E1; unfold commitRuleApply, getInflight, gets; erewrite bind_ok; [|reflexivity]; rewrite Ei, Hi; reflexivity].
  cbv iota. unfold bind, ret. destruct (finish _ _ _ _ _) as [? ?]. eexists _, _, _. split; [reflexivity|done].
Qed.

Lemma ApplyRules_ok snap rv y set (w : W) : is_Some BaseConfig -> parse y = Ok set -> willing w -> variationActive (cp w) = false -> ready snap rv y (cp w) ->
  exists r w', ApplyRules Unmarshal IsDomainName ParseExit text orch BaseConfig snap rv 0 w = (r, None, w') /\ r_RolledBack r = false.
Proof.
  intros HB Hp HW HV HR. unfold ApplyRules. erewrite bind_ok; [|unfold on_cp, beginVariation; rewrite HV; reflexivity]. cbv beta iota. cbn [negb].
  set (a1 := set_variationActive true (cp w)).
  destruct (prepareRules_ok snap rv y set a1 HB Hp) as ([[cfg sid] ps] & a2 & E2 & H2); [by destruct HR|].
  erewrite bind_ok; [|unfold on_cp at 1; cbn [cp upd_cp]; fold a1; rewrite E2; reflexivity]. cbv beta iota.
  destruct (dispatchRules_ok snap rv cfg sid ps (upd_cp a2 (upd_cp a1 w))) as (r & over & w3 & E3 & Hr); [|exact H2|].
  { intros c req f Hf Hc. exact (HW c req f Hf Hc). }
  erewrite bind_ok; [|exact E3]. unfold bind, ret. destruct ((if over then on_cp endVariation else _) w3) as [? ?]. by eexists _, _.
Qed.

Lemma ImportRules_ok y actor set (w : W) : is_Some BaseConfig -> parse y = Ok set -> willing w -> clear (cp w) ->
  exists r w', ImportRules Unmarshal IsDomainName ParseExit text orch BaseConfig y actor w = (r, None, w') /\ r_RolledBack r = false.
Proof.
  intros HB Hp HW [Hc HA HV HT]. unfold ImportRules. rewrite Hp, (parse_valid _ _ Hp).
  destruct (InsertSnapshot_ok (HashRules set) [] (str "import by " ++ actor) (db (cp w)) Hc) as (snap & d1 & E1 & Hc1 & Hs1 & Ht1).
  pose proof (InsertRuleVersion_ok snap y d1 Hc1 Hs1) as E2. cbv zeta in E2. set (t := tbl_insert _ _) in E2.
  set (e := {| a_Actor := actor; a_Action := str "rules.import"; a_Target := HashRules set; a_Result := str "ok" |}).
  set (d3 := set_audit_log (audit_log (set_rule_versions t d1) ++ [e]) (set_rule_versions t d1)).
  assert (AppendAudit e (set_rule_versions t d1) = (Ok tt, d3)) as E3 by (apply exec_ok; [exact Hc1|reflexivity]).
  erewrite bind_ok; [|unfold on_cp; erewrite bindE_ok; [|apply db_try_ok; exact E1]; erewrite bindE_ok; [|apply db_try_ok; exact E2];
    erewrite bind_ok; [|apply on_db_ok; exact E3]; reflexivity].
  cbv beta iota. eapply ApplyRules_ok; [exact HB|exact Hp| | |].
  - intros c req f Hf Hcm. exact (HW c req f Hf Hcm).
  - exact HV.
  - cbn [cp upd_cp]. split; cbn [db set_db]; [exact Hc1|exact Hs1| |].
    + unfold ApplierSpec.active_rules in *. cbn [db set_db]. unfold d3. cbn [rule_versions set_audit_log set_rule_versions]. unfold t, tbl_insert. cbn [rows]. rewrite Ht1.
      destruct (found rv_Active (rows (rule_versions (db (cp w))))) as [v|] eqn:F; [by rewrite (found_app _ _ _), F|].
      rewrite (found_app _ _ _), F. cbn. by eexists.
    + unfold d3. cbn [rule_versions set_audit_log set_rule_versions]. unfold t. rewrite (inserted_alone (fun id => stored snap id y)); [done|done|by rewrite Ht1].
Qed.
End import.

(** A machine without a data plane takes everything. *)
Lemma noop_willing {Value Base : Type} (w : World (@Config Value Base) App) : willing noop w.
Proof.
  intros c req f Hf Hc. cbn. unfold NoOp_Apply, bind. rewrite Hf. unfold run_commit. cbn [cp upd_cp]. destruct (f c) as [b c']. cbn in Hc. by subst b.
Qed.
