(* ===== verification/Backup.v ===== *)
(** * The backup archive (internal/api/snapshots.go)

    The export of the panel's backup, the checks on an uploaded archive, and
    its import through the applier.  An archive is the list of what the tar
    reader returns; gzip and the framing of tar are not modelled.  The JSON
    encoder of the manifest, the hot copy of the database and the outcome of
    the file system calls on the temporary file are parameters. *)
From S2P Require Import Prelude GoStrings GoNet Crypto Rules RuleTable Mihomo Orchestrator Db Applier ApplierSpec Rulesets ApplyRing ApplyApi ImportOk.
From Stdlib Require Import ZArith Lia.
Local Open Scope Z_scope.

Definition backupMaxCompressedBytes : Z := Z.shiftl 32 20.
Definition backupMaxEntries : Z := 256.
Definition backupMaxTotalBytes : Z := Z.shiftl 128 20.
Definition backupMaxMemberBytes : Z := Z.shiftl 128 20.
Definition backupMaxRulesBytes : Z := Z.shiftl 8 20.

(** A member: its header, and its body ([None]: reading it fails). *)
Record Member := { m_Name : bytes; m_Regular : bool; m_Size : Z; m_Body : option bytes }.

(** The members [Next] returns, and whether the archive then ends cleanly. *)
Record Archive := { members : list Member; at_EOF : bool }.

Record Backup := { rulesYAML : bytes; entries : Z; totalSize : Z; seen : gset bytes; ignored : list bytes }.

Definition rules_member : bytes := str "rules/active.yaml".
Definition other_members : list bytes := [str "snapshots/manifest.json"; str "db/5gpn.db"; str "README.txt"].

(** ** The checks of [handleImportBackup] *)
Definition code {A} (c : bytes) : res bytes A := Err c.

(** The body of a member, by its name. *)
Definition read_member (h : Member) (b : Backup) : res bytes Backup :=
  if m_Name h == rules_member then
    if backupMaxRulesBytes <? m_Size h then code (str "backup_limits")
    else match m_Body h with
    | None => code (str "bad_tar")
    | Some body =>
        let body := take (Z.to_nat (backupMaxRulesBytes + 1)) body in
        if (len body =? 0) || (backupMaxRulesBytes <? len body) then code (str "bad_rules")
        else Ok {| rulesYAML := body; entries := entries b; totalSize := totalSize b; seen := seen b; ignored := ignored b |}
    end
  else if bool_decide (m_Name h ∈ other_members) then
    match m_Body h with
    | None => code (str "bad_tar")
    | Some _ => Ok {| rulesYAML := rulesYAML b; entries := entries b; totalSize := totalSize b; seen := seen b;
                      ignored := ignored b ++ [m_Name h] |}
    end
  else code (str "unknown_member").

(** One turn of the loop. *)
Definition take_member (h : Member) (b : Backup) : res bytes Backup :=
  let n := entries b + 1 in
  if backupMaxEntries <? n then code (str "backup_limits")
  else if negb (m_Regular h) then code (str "bad_tar")
  else if (m_Size h <? 0) || (backupMaxMemberBytes <? m_Size h) then code (str "backup_limits")
  else
    let total := totalSize b + m_Size h in
    if backupMaxTotalBytes <? total then code (str "backup_limits")
    else if bool_decide (m_Name h ∈ seen b) then code (str "duplicate_member")
    else read_member h {| rulesYAML := rulesYAML b; entries := n; totalSize := total; seen := {[m_Name h]} ∪ seen b; ignored := ignored b |}.

Fixpoint read_members (l : list Member) (b : Backup) : res bytes Backup :=
  match l with
  | [] => Ok b
  | h :: l => match take_member h b with Err e => Err e | Ok b => read_members l b end
  end.

Definition no_backup : Backup := {| rulesYAML := []; entries := 0; totalSize := 0; seen := ∅; ignored := [] |}.

Definition readBackup (a : Archive) : res bytes Backup :=
  match read_members (members a) no_backup with
  | Err e => Err e
  | Ok b =>
      if negb (at_EOF a) then code (str "bad_tar")
      else if len (rulesYAML b) =? 0 then code (str "rules_missing") else Ok b
  end.

(** ** The handlers *)
Section handlers.
Context `{Unicode} {Value Base : Type}.
Context (Unmarshal : bytes -> option (list Rule)) (IsDomainName : bytes -> bool)
  (ParseExit : bytes -> option (gmap bytes Value)) (text : AErr -> bytes)
  (orch : @Orch Value Base) (BaseConfig : option (@Config Value Base)).
Context (MarshalIndent : list Snapshot -> option bytes) (newest : list Snapshot -> list Snapshot).

(** An upload: its declared length ([-1]: unknown) and its content; [None]:
    the gzip header is bad. *)
Record Upload := { ContentLength : Z; Content : option Archive }.

Definition handleImportBackup (u : Upload) (actor : bytes) (t : Ticket) : ST (@Srv Value Base) Reply :=
  if backupMaxCompressedBytes <? ContentLength u then ret (Bad 413 (str "backup_too_large"))
  else match Content u with
  | None => ret (Bad 400 (str "bad_gzip"))
  | Some a =>
      match readBackup a with
      | Err c => ret (Bad 400 c)
      | Ok b =>
          match ParseYAML IsDomainName Unmarshal (rulesYAML b) with
          | Err _ => ret (Bad 400 (str "bad_rules"))
          | Ok set =>
              match RuleSet_Validate IsDomainName set with
              | Err _ => ret (Bad 400 (str "bad_rules"))
              | Ok _ =>
                  let! (r, e) := on_world (ImportRules Unmarshal IsDomainName ParseExit text orch BaseConfig (rulesYAML b) actor) in
                  if bool_decide (is_Some e) || r_RolledBack r then
                    let! _ := on_app (audit actor (str "backup.restore.rolled_back") rules_member
                                (match e with Some e => text e | None => r_Reason r end)) in
                    ret (Bad 500 (str "import_failed"))
                  else
                    let! entry := trackRuleApply t set (str "import") r in
                    match entry with
                    | None => ret NilEntry
                    | Some e =>
                        let! _ := on_app (audit actor (str "backup.restore") rules_member
                                    (if bool_decide (e_Status e = Pending) then str "observing" else str "confirmed")) in
                        ret (tracked r (Some e))
                    end
              end
          end
      end
  end.

(** [ListSnapshots]: the rows, newest first, at most [limit]. *)
Definition ListSnapshots (limit : nat) : DB (list Snapshot) :=
  query (fun d => Ok (take limit (newest (rows (snapshots d))))).

Definition readme : bytes :=
  str "5GPN disaster-recovery export" ++ [Byte.x0a] ++
  str "The panel import endpoint applies rules/active.yaml only." ++ [Byte.x0a] ++
  str "db/5gpn.db and snapshots/manifest.json are for offline recovery by an administrator." ++ [Byte.x0a] ++
  str "This archive is plaintext and contains secrets. Store it securely." ++ [Byte.x0a].

Definition writeMember (name body : bytes) : Member :=
  {| m_Name := name; m_Regular := true; m_Size := len body; m_Body := Some body |}.

Definition no_rules : bytes := str "rules: []" ++ [Byte.x0a].

Definition archive (active : option RuleVersion) (manifest dbCopy : bytes) : Archive :=
  {| members := [writeMember rules_member (match active with Some v => rv_RulesYAML v | None => no_rules end);
                 writeMember (str "snapshots/manifest.json") manifest;
                 writeMember (str "db/5gpn.db") dbCopy;
                 writeMember (str "README.txt") readme];
     at_EOF := true |}.

(** [buildBackupArchive]; [sound] is the answer of the integrity check,
    [hotCopy] the copied database, [files_ok] whether every call on the
    temporary file succeeds. *)
Inductive BackupErr := BEIntegrity | BEActive (e : DbErr) | BEList (e : DbErr) | BEManifest | BECopy | BEFile.

Definition buildBackupArchive (sound : bool) (hotCopy : option bytes) (files_ok : bool) : AP (res BackupErr Archive) :=
  let! c := on_db fallible in
  match c with
  | Err _ => ret (Err BEIntegrity)
  | Ok _ =>
      if negb sound then ret (Err BEIntegrity)
      else
        let! v := on_db GetActiveRuleVersion in
        match (match v with Ok v => Ok (Some v) | Err ErrNoRows => Ok None | Err e => Err e end) with
        | Err e => ret (Err (BEActive e))
        | Ok active =>
            let! l := on_db (ListSnapshots 200) in
            match l with
            | Err e => ret (Err (BEList e))
            | Ok snaps =>
                match MarshalIndent snaps, hotCopy with
                | None, _ => ret (Err BEManifest)
                | _, None => ret (Err BECopy)
                | Some manifest, Some dbCopy =>
                    ret (if files_ok then Ok (archive active manifest dbCopy) else Err BEFile)
                end
            end
        end
  end.
End handlers.

(** ** Specification *)

(** What an archive has to be to be imported. *)
Definition importable (a : Archive) (y : bytes) : Prop :=
  let l := members a in
  at_EOF a = true /\ len l <= backupMaxEntries /\ NoDup (m_Name <$> l) /\
  foldr Z.add 0 (m_Size <$> l) <= backupMaxTotalBytes /\
  Forall (fun h => m_Regular h = true /\ 0 <= m_Size h /\ is_Some (m_Body h) /\ (m_Name h = rules_member \/ m_Name h ∈ other_members)) l /\
  exists h, h ∈ l /\ m_Name h = rules_member /\ m_Size h <= backupMaxRulesBytes /\ m_Body h = Some y /\
    0 < len y <= backupMaxRulesBytes.

(** ** Reading an archive *)
Definition well (h : Member) : Prop :=
  m_Regular h = true /\ 0 <= m_Size h /\ is_Some (m_Body h) /\ (m_Name h = rules_member \/ m_Name h ∈ other_members).
Definition rules_fit (h : Member) : Prop :=
  m_Name h = rules_member -> m_Size h <= backupMaxRulesBytes /\ exists y, m_Body h = Some y /\ 0 < len y <= backupMaxRulesBytes.

(** What a member that is taken adds. *)
Definition absorb (b : Backup) (h : Member) : Backup :=
  {| rulesYAML := if m_Name h == rules_member then default [] (m_Body h) else rulesYAML b;
     entries := entries b + 1; totalSize := totalSize b + m_Size h; seen := {[m_Name h]} ∪ seen b;
     ignored := if m_Name h == rules_member then ignored b else ignored b ++ [m_Name h] |}.

Lemma rules_not_other : rules_member ∉ other_members.
Proof. apply (bool_decide_unpack _). by vm_compute. Qed.

Lemma read_member_Ok h b b' :
  read_member h b = Ok b' <->
  is_Some (m_Body h) /\ (m_Name h = rules_member \/ m_Name h ∈ other_members) /\ rules_fit h /\
  b' = {| rulesYAML := if m_Name h == rules_member then default [] (m_Body h) else rulesYAML b; entries := entries b;
          totalSize := totalSize b; seen := seen b; ignored := if m_Name h == rules_member then ignored b else ignored b ++ [m_Name h] |}.
Proof.
  unfold read_member, rules_fit, code. destruct (decide (m_Name h = rules_member)) as [E|E].
  - rewrite (bool_decide_true _ E). destruct (backupMaxRulesBytes <? m_Size h) eqn:ES.
    { split; [done|]. intros (_ & _ & HF & _). apply HF in E. lia. }
    destruct (m_Body h) as [y|]; [|split; [done|intros ([? [=]] & _)]]. cbv zeta.
    destruct (decide (0 < len y <= backupMaxRulesBytes)) as [Hy|Hy].
    + assert (take (Z.to_nat (backupMaxRulesBytes + 1)) y = y) as -> by (apply take_ge; unfold len in Hy; lia).
      replace (len y =? 0) with false by lia. replace (backupMaxRulesBytes <? len y) with false by lia. cbn [orb].
      split; [intros [= <-]|by intros (_ & _ & _ & ->)]. split_and!; [by eexists|by left| |done]. intros _. split; [lia|by exists y].
    + split; [|intros (_ & _ & HF & _); destruct (HF E) as (_ & y' & [= <-] & ?); done].
      assert (len (take (Z.to_nat (backupMaxRulesBytes + 1)) y) = 0 \/ backupMaxRulesBytes < len (take (Z.to_nat (backupMaxRulesBytes + 1)) y)) as HL.
      { unfold len in *. rewrite length_take. assert (0 < backupMaxRulesBytes) by done. lia. }
      destruct (len _ =? 0) eqn:E1; [done|]. replace (backupMaxRulesBytes <? _) with true by lia. done.
  - rewrite (bool_decide_false _ E). case_bool_decide as EO; [|split; [done|by intros (_ & [?|?] & _)]].
    destruct (m_Body h) as [y|]; [|split; [done|intros ([? [=]] & _)]].
    split; [intros [= <-]|by intros (_ & _ & _ & ->)]. split_and!; [by eexists|by right|done|done].
Qed.

Lemma take_member_Ok h b b' :
  0 <= totalSize b ->
  take_member h b = Ok b' <->
  entries b + 1 <= backupMaxEntries /\ totalSize b + m_Size h <= backupMaxTotalBytes /\ m_Name h ∉ seen b /\
  well h /\ rules_fit h /\ b' = absorb b h.
Proof.
  intros HT. unfold take_member, well, code. cbv zeta. assert (backupMaxTotalBytes = backupMaxMemberBytes) as HM by done.
  destruct (backupMaxEntries <? _) eqn:E1; [split; [done|lia]|]. destruct (m_Regular h); cbn [negb]; [|split; [done|by intros (_ & _ & _ & (? & _) & _)]].
  destruct ((m_Size h <? 0) || _) eqn:E2; [split; [done|]; intros (_ & ? & _ & (_ & ? & _) & _); lia|].
  destruct (backupMaxTotalBytes <? _) eqn:E3; [split; [done|lia]|]. case_bool_decide as E4; [split; [done|by intros (_ & _ & ? & _)]|].
  rewrite read_member_Ok. cbn [entries totalSize seen rulesYAML ignored]. unfold absorb.
  split; [intros (HB & HN & HF & ->)|intros (_ & _ & _ & (_ & _ & HB & HN) & HF & ->)]; split_and!; try done; lia.
Qed.

Lemma read_members_Ok l : forall b b',
  0 <= totalSize b -> entries b <= backupMaxEntries -> totalSize b <= backupMaxTotalBytes ->
  read_members l b = Ok b' <->
  entries b + len l <= backupMaxEntries /\ totalSize b + foldr Z.add 0 (m_Size <$> l) <= backupMaxTotalBytes /\
  NoDup (m_Name <$> l) /\ Forall (fun h => m_Name h ∉ seen b) l /\ Forall well l /\ Forall rules_fit l /\ b' = foldl absorb b l.
Proof.
  induction l as [|h l IH]; intros b b' H0 He Ht; cbn [read_members fmap list_fmap foldr foldl].
  - autorewrite with golen. split; [intros [= <-]|by intros (_ & _ & _ & _ & _ & _ & ->)]. split_and!; try constructor; lia.
  - autorewrite with golen. split.
    + destruct (take_member h b) as [e|b1] eqn:E; [done|]. apply take_member_Ok in E as (H1 & H2 & H3 & H4 & H5 & ->); [|done].
      assert (0 <= m_Size h) as Hs by apply H4. intros HR. apply IH in HR as (R1 & R2 & R3 & R4 & R5 & R6 & ->); cbn [absorb totalSize entries seen] in *; try lia.
      split_and!; try lia; try done.
      * constructor; [|done]. intros (h' & Hn & Hin)%list_elem_of_fmap. rewrite Forall_forall in R4. apply (R4 h'); [done|]. set_solver.
      * constructor; [done|]. eapply Forall_impl; [exact R4|]. cbn. set_solver.
      * by constructor.
      * by constructor.
    + intros (H1 & H2 & [N1 N2]%NoDup_cons & [S1 S2]%Forall_cons & [W1 W2]%Forall_cons & [F1 F2]%Forall_cons & ->).
      assert (0 <= foldr Z.add 0 (m_Size <$> l)) as Hpos.
      { clear -W2. induction W2 as [|h l (_ & H & _) _ IH]; cbn [fmap list_fmap foldr]; lia. }
      assert (0 <= m_Size h) as Hs by apply W1. pose proof (len_nonneg l).
      rewrite (proj2 (take_member_Ok h b (absorb b h) H0)) by (split_and!; try done; lia).
      apply IH; cbn [absorb totalSize entries seen]; try lia. split_and!; try done; try lia.
      rewrite Forall_forall in S2 |- *. intros h' Hin [E%elem_of_singleton|]%elem_of_union; [|by apply (S2 h')].
      apply N1. rewrite <- E. by apply list_elem_of_fmap_2.
Qed.

(** The rules of the members taken. *)
Lemma absorb_rules l : forall b,
  NoDup (m_Name <$> l) ->
  rulesYAML (foldl absorb b l) = match found (fun h => m_Name h == rules_member) l with Some h => default [] (m_Body h) | None => rulesYAML b end.
Proof.
  induction l as [|h l IH]; intros b; cbn [foldl fmap list_fmap]; [done|]. intros [N1 N2]%NoDup_cons.
  rewrite found_cons, (IH (absorb b h) N2). cbn [absorb rulesYAML]. case_bool_decide as E; [|done].
  destruct (found _ l) as [h'|] eqn:F; [|done]. apply found_elem in F as [Hin F]. apply bool_decide_eq_true in F.
  exfalso. apply N1. rewrite E, <- F. by apply list_elem_of_fmap_2.
Qed.

Lemma readBackup_Ok a b :
  readBackup a = Ok b <-> importable a (rulesYAML b) /\ b = foldl absorb no_backup (members a).
Proof.
  unfold readBackup, importable, code. cbv zeta. pose proof (fun b' => read_members_Ok (members a) no_backup b' ltac:(done) ltac:(done) ltac:(done)) as HR.
  cbn [no_backup totalSize entries seen] in HR.
  assert (Forall (fun h => m_Name h ∉ (∅ : gset bytes)) (members a)) as HE by (apply Forall_true; set_solver).
  destruct (read_members (members a) no_backup) as [e|b1] eqn:E.
  - split; [done|]. intros ((H1 & H2 & H3 & H4 & H5 & h & Hin & Hn & Hs & Hb & Hy) & ->).
    assert (Err e = Ok (foldl absorb no_backup (members a))) as [=]. rewrite <- (proj2 (HR _)); [done|].
    split_and!; try done.
    apply Forall_forall. intros h' Hin' Hn'. assert (h' = h) as -> by (eapply (NoDup_key_eq m_Name); [exact H3|done|done|by rewrite Hn, Hn']).
    split; [done|]. eexists. by split.
  - pose proof (proj1 (HR b1) eq_refl) as (H2 & H4 & H3 & _ & HW & HF & ->). clear E. rewrite !Z.add_0_l in *.
    pose proof (absorb_rules (members a) no_backup H3) as HY. cbn [no_backup rulesYAML] in HY.
    destruct (at_EOF a); cbn [negb]; [|split; [done|by intros ((? & _) & _)]].
    destruct (found _ (members a)) as [h|] eqn:F.
    + apply found_elem in F as [Hin Hn]. apply bool_decide_eq_true in Hn. pose proof (proj1 (Forall_forall _ _) HF h Hin Hn) as (Hs & y & Hb & Hy).
      rewrite Hb in HY. cbn [default id from_option] in HY. rewrite HY. replace (len y =? 0) with false by lia.
      split; [intros [= <-]|by intros [_ ->]]. split; [|done]. rewrite HY. split_and!; [done..|]. exists h. split_and!; [done..|apply Hy|apply Hy].
    + rewrite HY. autorewrite with golen. cbn. split; [done|]. intros ((_ & _ & _ & _ & _ & h & Hin & Hn & _) & _).
      exfalso. apply (found_none _ _ _ F) in Hin. rewrite Hn, bool_decide_true in Hin by done. done.
Qed.

Lemma readBackup_complete a y : importable a y -> exists b, readBackup a = Ok b /\ rulesYAML b = y.
Proof.
  intros HI. pose proof HI as (_ & _ & HN & _ & _ & h & Hin & Hn & _ & Hh & _).
  exists (foldl absorb no_backup (members a)).
  assert (rulesYAML (foldl absorb no_backup (members a)) = y) as HY.
  { rewrite (absorb_rules _ _ HN). destruct (found _ (members a)) as [h'|] eqn:F.
    - apply found_elem in F as [Hin' Hn']. apply bool_decide_eq_true in Hn'.
      by rewrite (NoDup_key_eq m_Name _ h' h HN Hin' Hin), Hh by (by rewrite Hn, Hn').
    - apply (found_none _ _ _ F) in Hin. rewrite Hn, bool_decide_true in Hin by done. done. }
  split; [|exact HY]. apply readBackup_Ok. by rewrite HY.
Qed.

(** the checks on an uploaded archive are exact: the rules of an archive
    are read exactly when it ends cleanly, has at most 256 members of at most
    128 MiB in all, no name twice, only regular readable members with the
    names of an export, and one rules/active.yaml of at most 8 MiB that is
    not empty; and they are the content of that member. *)
Theorem readBackup_exact a y : (exists b, readBackup a = Ok b /\ rulesYAML b = y) <-> importable a y.
Proof.
  split; [|apply readBackup_complete]. intros (b & Hb & <-). by apply readBackup_Ok in Hb as [? _].
Qed.

(** ** The import *)
Section spec.
Context `{Unicode} {Value Base : Type}.
Context (Unmarshal : bytes -> option (list Rule)) (IsDomainName : bytes -> bool)
  (ParseExit : bytes -> option (gmap bytes Value)) (text : AErr -> bytes)
  (orch : @Orch Value Base) `{!OrchLaws orch} (BaseConfig : option (@Config Value Base)).
Context (MarshalIndent : list Snapshot -> option bytes) (newest : list Snapshot -> list Snapshot).

Abbreviation Good := (Good Unmarshal IsDomainName).
Abbreviation Safe := (Safe Unmarshal IsDomainName).
Abbreviation parse := (ParseYAML IsDomainName Unmarshal).
Abbreviation active_rules := (active_rules Unmarshal IsDomainName).
Abbreviation same_rules := (same_rules Unmarshal IsDomainName).
Abbreviation come_to := (come_to Unmarshal IsDomainName).
Abbreviation reported := (reported Unmarshal IsDomainName).
Abbreviation Srv := (@Srv Value Base).
Abbreviation handleImportBackup := (handleImportBackup Unmarshal IsDomainName ParseExit text orch BaseConfig).
Abbreviation buildBackupArchive := (buildBackupArchive MarshalIndent newest).

(** An import stores a version and applies it. *)
Lemma ImportRules_come_to R S M y actor set w :
  Good R S M false (cp w) -> parse y = Ok set ->
  wp (ImportRules Unmarshal IsDomainName ParseExit text orch BaseConfig y actor)
    (fun '(r, e) w' => exists R' rv, extends R R' /\ come_to R' S set rv r e (cp w')) w.
Proof.
  intros HG Hp. pose proof (extends_refl R) as HR. unfold ImportRules. rewrite Hp.
  destruct (RuleSet_Validate IsDomainName set); [apply wp_ret; exists R, 0; split; [done|by exists M]|].
  apply wp_bind, wp_on_cp. unfold db_try, bindE.
  do 2 apply wp_bind. eapply wp_mono; [apply keeps_wp; [apply Good_keeps, on_db_K, InsertSnapshot_tables|exact HG]|]. clear HG.
  intros [e|snap] a' HG; apply wp_ret; [apply wp_ret; exists R, 0; split; [done|by exists M]|].
  do 2 apply wp_bind. eapply wp_mono; [apply (insert_version_wp Unmarshal IsDomainName R S M false), HG|].
  intros [e|rv] a1 H1; apply wp_ret; [apply wp_ret; exists R, 0; split; [done|by exists M]|].
  destruct H1 as (R' & HE & HG1 & v & Hv & Hid & Hy).
  apply wp_bind. eapply wp_mono; [apply keeps_wp; [apply Good_keeps, on_db_K, AppendAudit_tables|exact HG1]|].
  intros x a2 HG2. apply wp_ret.
  eapply wp_mono; [eapply (ApplyRules_come_to Unmarshal IsDomainName ParseExit text orch BaseConfig R' S M set);
    [exact HG2|exact Hv|exact Hid|by rewrite Hy]|]. intros [r e] w' HC. by exists R', rv.
Qed.

(** What an accepted archive leads to. *)
Lemma import_wp u ar b set actor t (s : Srv) :
  Safe (cp (world s)) -> variationActive (cp (world s)) = false ->
  ContentLength u <= backupMaxCompressedBytes -> Content u = Some ar -> readBackup ar = Ok b -> parse (rulesYAML b) = Ok set ->
  wp (handleImportBackup u actor t) (fun reply s' =>
    reported set t (cp (world s)) reply (cp (world s')) /\ forall st c, reply = Bad st c -> st = 500) s.
Proof.
  intros (R & S & M & V & HG) HV Hc HA Hb Hp. assert (V = false) as -> by (rewrite <- HV; symmetry; by eapply Good_rules).
  unfold Backup.handleImportBackup. replace (backupMaxCompressedBytes <? _) with false by lia. rewrite HA, Hb, Hp.
  assert (RuleSet_Validate IsDomainName set = Ok tt) as ->.
  { unfold ParseYAML in Hp. destruct (Unmarshal _) as [l|]; [|done]. destruct (RuleSet_Validate IsDomainName l) as [|[]] eqn:E; [done|]. by injection Hp as <-. }
  apply wp_bind, wp_on_world. eapply wp_mono; [by eapply ImportRules_come_to|]. intros [r e] w (R' & rv & HE & HC).
  assert (same_rules (cp (world s)) (cp (world s))) as _ by done. destruct e as [e|].
  - destruct HC as (M' & HG'). rewrite bool_decide_true by done. cbn [orb].
    apply wp_bind, wp_on_app. eapply wp_mono; [by eapply audit_Good|]. intros [] a' HG''. apply wp_ret.
    split; [by eapply extends_same|]. by intros ? ? [= <- _].
  - pose proof HC as [HN _]. rewrite HN. rewrite bool_decide_false by (by intros [? [=]]). cbn [orb].
    assert (outcome Unmarshal IsDomainName R S set r (cp w)) as HO by (by eapply come_to_outcome).
    apply wp_bind, track_wp. intros rg [en|] HR; [|apply wp_ret; split; [exact (tracked_reported Unmarshal IsDomainName R S M set t _ _ _ r _ _ None HG HO HR)|done]].
    apply wp_bind, wp_on_app. eapply wp_mono; [apply (outcome_audit Unmarshal IsDomainName R S), HO|]. intros [] a' HO'. apply wp_ret.
    split; [exact (tracked_reported Unmarshal IsDomainName R S M set t _ _ _ r _ _ (Some en) HG HO' HR)|]. intros st c. unfold tracked. by case_bool_decide.
Qed.

(** An archive that is accepted is imported, when nothing fails. *)
Lemma import_goes u ar b set actor t (s : Srv) :
  Safe (cp (world s)) -> variationActive (cp (world s)) = false ->
  ContentLength u <= backupMaxCompressedBytes -> Content u = Some ar -> readBackup ar = Ok b -> parse (rulesYAML b) = Ok set ->
  is_Some BaseConfig -> calm_db (db (cp (world s))) -> is_Some (active_rules (cp (world s))) -> willing orch (world s) ->
  forall st c, (handleImportBackup u actor t s).1 <> Bad st c.
Proof.
  intros (R & S & M & V & ((((Hwf & _) & _) & _) & _)) HV Hc HA Hb Hp HB HD HL HW st c. unfold Backup.handleImportBackup.
  replace (backupMaxCompressedBytes <? _) with false by lia. rewrite HA, Hb, Hp, (parse_valid Unmarshal IsDomainName _ _ Hp).
  destruct (ImportRules_ok Unmarshal IsDomainName ParseExit text orch BaseConfig (rulesYAML b) actor set (world s) HB Hp HW) as (r & w' & EI & Hr).
  { split; [exact HD|exact HL|exact HV|apply Hwf]. }
  erewrite bind_ok; [|unfold on_world; rewrite EI; reflexivity]. cbv beta iota. rewrite bool_decide_false by (by intros [? [=]]). rewrite Hr. cbn [orb].
  unfold bind at 1. destruct (trackRuleApply t set (str "import") r _) as [[e|] s2]; [|done].
  unfold bind, ret. destruct (on_app _ s2) as [[] s3]. cbn. by case_bool_decide.
Qed.

(** The archive of an export. *)
Lemma archive_importable active manifest dbCopy y :
  let ar := archive active manifest dbCopy in
  y = match active with Some v => rv_RulesYAML v | None => no_rules end ->
  0 < len y <= backupMaxRulesBytes -> foldr Z.add 0 (m_Size <$> members ar) <= backupMaxTotalBytes -> importable ar y.
Proof.
  cbv zeta. intros Hy HL HT. unfold importable. cbv zeta. split_and!; [done|done| |exact HT| |].
  - apply (bool_decide_unpack _). by vm_compute.
  - unfold archive, writeMember. cbn [members]. rewrite !Forall_cons. cbn [m_Regular m_Size m_Body m_Name].
    split_and!; try done; try (by eexists); try apply len_nonneg; try (by left); right; apply (bool_decide_unpack _); by vm_compute.
  - exists (writeMember rules_member y). unfold archive. rewrite <- Hy. cbn [members]. split; [left|]. cbn [writeMember m_Name m_Size m_Body].
    split_and!; try done; lia.
Qed.

Lemma build_wp sound hotCopy files_ok a :
  Safe a ->
  wp (buildBackupArchive sound hotCopy files_ok) (fun r _ => forall ar, r = Ok ar ->
    exists manifest dbCopy, ar = archive (found rv_Active (rows (rule_versions (db a)))) manifest dbCopy) a.
Proof.
  intros (R & S & M & V & HG). destruct (Good_rules _ _ _ _ _ _ _ HG) as (-> & _). destruct HG as (HK & _).
  unfold Backup.buildBackupArchive. eapply wp_keeps_bind; [apply on_db_K, keeps_fallible, tables_stable|exact HK|].
  clear a HK. intros [e|[]] a HK; [by apply wp_ret|]. destruct (negb sound); [by apply wp_ret|].
  wp_run (on_db_query (fun R => one (found rv_Active (rows R))) R S M V a); [exact HK|]. clear a HK. intros q a [HK HQ].
  assert (forall active, match q with Ok v => Ok (Some v) | Err ErrNoRows => Ok None | Err e => Err e end = Ok active ->
    active = found rv_Active (rows R)) as HA.
  { intros active. destruct HQ as [->|<-]; [done|]. destruct (found rv_Active (rows R)); by intros [= <-]. }
  destruct (match q with Ok v => _ | Err _ => _ end) as [e|active]; [by apply wp_ret|]. specialize (HA active eq_refl) as ->.
  eapply wp_keeps_bind; [apply on_db_K, keeps_query_tables|exact HK|]. clear a HK HQ q. intros [e|snaps] a HK; [by apply wp_ret|].
  destruct (MarshalIndent snaps) as [manifest|], hotCopy as [dbCopy|]; try by apply wp_ret.
  apply wp_ret. intros ar. destruct files_ok; [|done]. intros [= <-]. by exists manifest, dbCopy.
Qed.

(** ** Properties *)

(** the answer to an import is true: an error leaves the rules in force
    as they were - whatever the upload holds and whichever statements and
    steps fail; otherwise the archive passed the checks, and its rules are in
    force (200) or observed with a pending entry to poll (202). *)
Theorem import_reported u actor t (s s' : Srv) reply :
  Safe (cp (world s)) -> variationActive (cp (world s)) = false ->
  handleImportBackup u actor t s = (reply, s') ->
  (exists st code, reply = Bad st code /\ same_rules (cp (world s)) (cp (world s'))) \/
  exists ar y set, Content u = Some ar /\ importable ar y /\ parse y = Ok set /\ reported set t (cp (world s)) reply (cp (world s')).
Proof.
  intros HS HV E.
  destruct (Z.ltb_spec backupMaxCompressedBytes (ContentLength u)) as [H1|H1].
  { left. unfold Backup.handleImportBackup in E. replace (_ <? _) with true in E by lia. injection E as <- <-. by eexists _, _. }
  destruct (Content u) as [ar|] eqn:E2.
  2: { left. unfold Backup.handleImportBackup in E. replace (_ <? _) with false in E by lia. rewrite E2 in E. injection E as <- <-. by eexists _, _. }
  destruct (readBackup ar) as [c|b] eqn:E3.
  { left. unfold Backup.handleImportBackup in E. replace (_ <? _) with false in E by lia. rewrite E2, E3 in E. injection E as <- <-. by eexists _, _. }
  destruct (parse (rulesYAML b)) as [c|set] eqn:E4.
  { left. unfold Backup.handleImportBackup in E. replace (_ <? _) with false in E by lia. rewrite E2, E3, E4 in E. injection E as <- <-. by eexists _, _. }
  right. exists ar, (rulesYAML b), set. split_and!; [done|by apply readBackup_Ok|done|].
  exact (proj1 (wp_elim _ _ _ _ _ (import_wp u ar b set actor t s HS HV H1 E2 E3 E4) E)).
Qed.

End spec.

(** ** Concrete inputs *)
Module Demo.
#[local] Existing Instance ascii_tables.
Import ApplierSpec.Demo ApplyApi.Demo.

Definition ar : Archive := archive (Some {| rv_ID := 1; rv_SnapshotID := 1; rv_RulesYAML := str "A"; rv_Active := true |}) (str "[]") (str "db").

Example exact_A : exists b, readBackup ar = Ok b /\ rulesYAML b = str "A".
Proof. eexists. split; [by vm_compute|reflexivity]. Qed.

(** An archive with a member twice, one with an unknown member, one that
    is cut off, and one without rules. *)
Definition with_members l : Archive := {| members := l; at_EOF := true |}.
Definition code_of (a : Archive) : option bytes := match readBackup a with Err c => Some c | Ok _ => None end.
Example refused :
  code_of (with_members (members ar ++ members ar)) = Some (str "duplicate_member") /\
  code_of (with_members [writeMember (str "../etc/passwd") (str "x")]) = Some (str "unknown_member") /\
  code_of {| members := members ar; at_EOF := false |} = Some (str "bad_tar") /\
  code_of (with_members [writeMember (str "README.txt") (str "x")]) = Some (str "rules_missing").
Proof. by vm_compute. Qed.

(** A restore onto a panel without a data plane. *)
Definition Unm (raw : bytes) : option (list Rule) := if raw == no_rules then Some [] else Unmarshal raw.
Definition MarshalIndent (_ : list Snapshot) : option bytes := Some (str "[]").
Abbreviation export := (buildBackupArchive MarshalIndent (fun l => l) true (Some (str "db")) true).

Lemma Unm_A : ParseYAML any_name Unm (str "A") = Ok proxy.
Proof. vm_compute. reflexivity. Qed.

Lemma appA_Safe : Safe Unm any_name app0.
Proof.
  exists (rule_versions db0), (resolver app0), ∅, false. split; [split; [split; [apply db0_inv|done]|done]|]. split.
  - intros s t [= <-] [= <-]. unfold active_id, table_of. rewrite db0_rules.
    exists v1, proxy. split; [left|]. split; [done|]. split; [apply Unm_A|done].
  - apply map_Forall_empty.
Qed.

(** The panel restored onto: it has its own rules, to block. *)
Definition opsB : list DbOp := [OpInsertSnapshot (str "h0") [] []; OpInsertRuleVersion 1 (str "B") true].
Definition dbB : Db := foldl (fun d op => Db.run_op Db.Demo.parse op d) (Db.Demo.fresh []) opsB.
Definition appB : App := MkApp dbB (Some (Publish (Some (BuildTable block)) {| gen := 0; cur := None |})) ∅ ∅ ∅ ∅ [] false.
Definition sB : Srv := server (upd_cp appB (w0 [])).
Definition vB : RuleVersion := {| rv_ID := 1; rv_SnapshotID := 1; rv_RulesYAML := str "B"; rv_Active := true |}.

Lemma dbB_rules : rows (rule_versions dbB) = [vB].
Proof. vm_compute. reflexivity. Qed.
Lemma dbB_inv : Db.inv (false, []) dbB.
Proof.
  assert (K : forall ops d, Db.inv (false, []) d -> Db.inv (false, []) (foldl (fun d op => Db.run_op Db.Demo.parse op d) d ops)).
  { induction ops0 as [|op l IH]; [done|]. intros d H. cbn. by apply IH, run_op_inv. }
  apply (K opsB (Db.Demo.fresh [])). split; [apply Db.Demo.fresh_wf|]. split; [done|constructor].
Qed.
Lemma Unm_B : ParseYAML any_name Unm (str "B") = Ok block.
Proof. vm_compute. reflexivity. Qed.
Lemma appB_Safe : Safe Unm any_name appB.
Proof.
  exists (rule_versions dbB), (resolver appB), ∅, false. split; [split; [split; [apply dbB_inv|done]|done]|]. split.
  - intros s t [= <-] [= <-]. unfold active_id, table_of. rewrite dbB_rules.
    exists vB, block. split; [left|]. split; [done|]. split; [apply Unm_B|done].
  - apply map_Forall_empty.
Qed.

Lemma app0_rules : active_rules Unm any_name app0 = Some proxy.
Proof. unfold active_rules. change (db app0) with db0. by rewrite db0_rules. Qed.

Lemma appB_rules : active_rules Unm any_name appB = Some block.
Proof. unfold active_rules. change (db appB) with dbB. by rewrite dbB_rules. Qed.

Definition upload : Upload := {| ContentLength := -1; Content := Some ar |}.
Definition restore := handleImportBackup Unm any_name no_exit text noop base upload (str "root") ticket sB.

Lemma export_run : (export app0).1 = Ok ar.
Proof. by vm_compute. Qed.

Lemma restore_200 : exists r, restore.1 = Done r.
Proof. eexists. by vm_compute. Qed.


Lemma import_reported_witness : exists y set, importable ar y /\ ParseYAML any_name Unm y = Ok set.
Proof.
  destruct (import_reported Unm any_name no_exit text noop base upload (str "root") ticket sB restore.2 restore.1
    appB_Safe eq_refl (surjective_pairing _)) as [(st & c & H & _)|(ar' & y & set & H1 & H2 & H3 & _)].
  - destruct restore_200 as [r Hr]. rewrite Hr in H. discriminate H.
  - injection H1 as <-. by exists y, set.
Defined.
End Demo.
