(* ===== verification/RulesApi.v ===== *)
(** * What the panel shows of rules, exits and snapshots

    internal/api/rules.go (handleListRules, handleDryRun, handleApplyStatus),
    exits.go (handleListExits, handleAddExit), snapshots.go
    (handleListSnapshots), [Applier.Status] of internal/core/applier.go, the
    hydration of internal/exit/store.go and the read commands of
    cmd/5gpn/ctl_socket_linux.go.  The dry run is compared with the compiled
    table (RuleTable.v).  Exit URIs are parsed by Exit.v; where its parser
    panics the router's Recoverer answers ([Crashed]). *)
From S2P Require Import Prelude Backup GoStrings GoNet Rules RuleTable Mihomo Orchestrator Db Applier ApplierSpec Rulesets Exit ApplyRing ApplyApi.
From Stdlib Require Import ZArith Lia.
Local Open Scope Z_scope.

Inductive Answer (A : Type) := Refused (status : Z) (code : bytes) | Crashed | Answered (a : A).
Arguments Refused {A} status code.
Arguments Crashed {A}.
Arguments Answered {A} a.

(** ** rules.go *)
Record DryRunResponse := { Results : list DryRunResult; Passed : Z; Failed_ : Z }.

Section rules.
Context `{Unicode} {Value Base : Type}.
Context (Unmarshal : bytes -> option (list Rule)) (IsDomainName : bytes -> bool) (have_rulesets : bool).
Context (BaseConfig : option (@Config Value Base)).

Definition handleListRules : AP (Answer (list Rule)) :=
  let! r := on_db GetActiveRuleVersion in
  ret (match r with
       | Err ErrNoRows => Answered []
       | Err _ => Refused 500 (str "db_error")
       | Ok v => match ParseYAML IsDomainName Unmarshal (rv_RulesYAML v) with
                 | Err _ => Refused 500 (str "parse_error")
                 | Ok set => Answered set
                 end
       end).

(** The first exit of the base configuration. *)
Definition activeExit : bytes :=
  match BaseConfig with
  | Some c => match default [] (Exits c) with e :: _ => ex_ID e | [] => [] end
  | None => []
  end.

Definition handleDryRun (req : option (list Rule * list TestFixture)) : ST (@Srv Value Base) (Answer DryRunResponse) :=
  match req with
  | None => ret (Refused 400 (str "bad_request"))
  | Some (rules, fixtures) =>
      let! x := effective IsDomainName have_rulesets rules in
      ret (match x with
           | Err (st, code) => Refused st code
           | Ok set =>
               let res := DryRun set fixtures (ResolveFallthrough set activeExit (str "PROXY")).1 in
               let passed := len (filter (fun r => d_pass r = true) res) in
               Answered {| Results := res; Passed := passed; Failed_ := len res - passed |}
           end)
  end.
End rules.

(** ** The status of the newest apply *)

(** [Applier.Status]; no row is the empty status. *)
Definition Status : AP (res DbErr (option ApplyStatus)) :=
  let! r := on_db LatestApplyStatus in
  match r with
  | Err e => ret (Err e)
  | Ok None => ret (Ok None)
  | Ok (Some row) =>
      gets (fun a => Ok (Some (match TerminalStatus (st_SnapshotID row) a, st_State row with
        | Some (st, reason), Submitted =>
            {| st_ID := st_ID row; st_SnapshotID := st_SnapshotID row; st_State := st; st_Reason := reason; st_Updated := st_Updated row |}
        | _, _ => row
        end)))
  end.

Definition handleApplyStatus : AP (Answer (option ApplyStatus)) :=
  let! r := Status in
  ret (match r with Err _ => Refused 500 (str "db_error") | Ok s => Answered s end).

(** ** exits.go *)
Record ExitSummary := {
  s_ID : bytes; s_Protocol : bytes; s_Server : bytes; s_Port : Z; s_Active : bool; s_Notes : bytes
}.

Definition exitToSummary (id protocol : bytes) (active : bool) (cfg : Proxy) : ExitSummary :=
  if protocol == directProtocol then
    {| s_ID := id; s_Protocol := str "direct"; s_Server := str "-"; s_Port := 0; s_Active := active; s_Notes := str "built-in" |}
  else
    {| s_ID := id; s_Protocol := protocol;
       s_Server := match cfg !! str "server" with Some (VStr h) => h | _ => [] end;
       s_Port := match cfg !! str "port" with Some (VInt p) => p | _ => 0 end;
       s_Active := active; s_Notes := [] |}.

Section exits.
Context `{Unicode} (json_Unmarshal : bytes -> option (gmap bytes json)) (url_Parse : bytes -> option URL).
Abbreviation Parse := (Exit.Parse json_Unmarshal url_Parse).

(** [parseURIOrNil]; [None]: the parser panics. *)
Definition ProxyConfig (protocol uri : bytes) : option Proxy :=
  if (protocol == directProtocol) || (uri == directURI) then Some ∅
  else match Parse uri with Panic => None | Fail _ => Some ∅ | Ret p => Some p end.

Definition summary_of (x : Db.Exit) : option ExitSummary :=
  exitToSummary (x_ExitID x) (x_Protocol x) (x_Active x) <$> ProxyConfig (x_Protocol x) (x_URI x).

Definition handleListExits : AP (Answer (list ExitSummary * bytes)) :=
  let! r := on_db ListExits in
  ret (match r with
       | Err _ => Refused 500 (str "list_error")
       | Ok l => match mapM summary_of l with
                 | None => Crashed
                 | Some out => Answered (out, foldl (fun active x => if x_Active x then x_ExitID x else active) [] l)
                 end
       end).

(** The type of a parsed URI, as the store asks for it. *)
Definition type_of (p : Proxy) : option bytes := match p !! str "type" with Some (VStr t) => Some t | _ => None end.
Definition parsed_type (uri : bytes) : option (option bytes) :=
  match Parse uri with Ret p => Some (type_of p) | _ => None end.

Definition handleAddExit (req : option (bytes * bytes)) (actor : bytes) : AP (Answer ExitSummary) :=
  match req with
  | None => ret (Refused 400 (str "bad_request"))
  | Some (id, uri) =>
      if (id == []) || (uri == []) then ret (Refused 400 (str "bad_request"))
      else if exitIDRE id && negb ((id == directProtocol) || (uri == directURI)) &&
              match Parse uri with Panic => true | _ => false end then ret Crashed
      else
        let! r := on_db (AddExit parsed_type id uri) in
        match r with
        | Err ErrInvalidExitID => ret (Refused 400 (str "invalid_id"))
        | Err ErrParseURI => ret (Refused 400 (str "parse_error"))
        | Err ErrConstraint => ret (Refused 409 (str "exit_exists"))
        | Err _ => ret (Refused 500 (str "add_error"))
        | Ok x =>
            let! _ := audit actor (str "exits.add") id (str "ok") in
            let proxyCfg := if (id == directProtocol) || (uri == directURI) then ∅
                            else match Parse uri with Ret p => p | _ => ∅ end in
            ret (Answered (exitToSummary id (x_Protocol x) false proxyCfg))
        end
  end.
End exits.

(** ** snapshots.go *)
Record snapshotEntry := { se_ID : Z; se_ConfigHash : bytes; se_Note : bytes; se_Active : bool; se_Rollbackable : bool }.

Definition list_limit (q : bytes) : nat :=
  match Atoi q with Some n => if (0 <? n) && (n <=? 500) then Z.to_nat n else 50%nat | None => 50%nat end.

Section snapshots.
Context (newest : list Snapshot -> list Snapshot).

(** [rollbackableSnapshotIDs]. *)
Definition rollbackableSnapshotIDs (l : list Snapshot) : DB (gset Z) :=
  if bool_decide (l = []) then ret (Ok ∅)
  else query (fun d => Ok (list_to_set (filter (fun id => id ∈ (sn_ID <$> l)) (rv_SnapshotID <$> rows (rule_versions d))))).

Definition snapshot_entry (can : gset Z) (active : Z) (s : Snapshot) : snapshotEntry :=
  {| se_ID := sn_ID s; se_ConfigHash := sn_ConfigHash s; se_Note := sn_Note s;
     se_Active := sn_ID s =? active; se_Rollbackable := bool_decide (sn_ID s ∈ can) |}.

Definition handleListSnapshots (q : bytes) : AP (Answer (list snapshotEntry)) :=
  let! l := on_db (ListSnapshots newest (list_limit q)) in
  match l with
  | Err _ => ret (Refused 500 (str "db_error"))
  | Ok l =>
      let! can := on_db (rollbackableSnapshotIDs l) in
      match can with
      | Err _ => ret (Refused 500 (str "db_error"))
      | Ok can =>
          let! active := active_snapshot (str "db_error") in
          ret (match active with
               | Err (st, code) => Refused st code
               | Ok active => Answered (snapshot_entry can active <$> l)
               end)
      end
  end.
End snapshots.

(** ** The read commands of the control socket *)
Inductive CtlData :=
| CtlError (msg : bytes)
| CtlStatus (active_exit : bytes) (rule_count : Z)
| CtlExits (l : list Db.Exit).

Definition cmdStatus `{Unicode} (Unmarshal : bytes -> option (list Rule)) (IsDomainName : bytes -> bool) (have_base : bool) : AP CtlData :=
  let! e := on_db ActiveExit in
  let active_exit := match e with Ok x => x_ExitID x | Err _ => [] end in
  if negb have_base then ret (CtlStatus active_exit 0)
  else
    let! v := on_db GetActiveRuleVersion in
    ret (CtlStatus active_exit
      (match v with
       | Ok v => match ParseYAML IsDomainName Unmarshal (rv_RulesYAML v) with Ok set => len set | Err _ => 0 end
       | Err _ => 0
       end)).

Definition cmdExitsList : AP CtlData :=
  let! r := on_db ListExits in
  ret (match r with Err _ => CtlError (str "exit: list") | Ok l => CtlExits l end).















(** ** The dry run *)
Section dryrun.
Context `{Unicode} (IsDomainName : bytes -> bool).

(** A name or pattern both readings normalize alike: ASCII, and without a
    trailing dot. *)
Definition plain (s : bytes) : Prop := is_ascii s = true /\ HasSuffix (TrimSpace s) [dot] = false.

(** The rules compared: patterns that are exact names or suffixes are plain. *)
Definition plain_rule (r : Rule) : Prop := kind r = KindDomain \/ kind r = KindDomainSuffix -> plain (Pattern r).

(** A probe of a name alone: no address, and no hints. *)
Definition name_probe (f : TestFixture) : Prop :=
  plain (f_domain f) /\ TrimSpace (f_domain f) = f_domain f /\ f_ip f = [] /\ f_notes f = [].

Lemma ascii_trim s : is_ascii s = true -> is_ascii (TrimSpace s) = true.
Proof.
  unfold is_ascii. rewrite !forallb_forall. intros Hs b Hb%list_elem_of_In. apply Hs, list_elem_of_In. by apply TrimSpace_elem.
Qed.

Lemma lower_dot b : lower_byte b = dot -> b = dot.
Proof. by destruct b; vm_compute. Qed.

Lemma plain_normal s : plain s -> normalizeName s = map lower_byte (TrimSpace s).
Proof.
  intros [HA HD]. unfold normalizeName. rewrite ToLower_ascii by (by apply ascii_trim).
  destruct (TrimSuffix_cases (map lower_byte (TrimSpace s)) [dot]) as [(k & E & _)|[_ ->]]; [|done]. exfalso.
  apply (f_equal reverse) in E. rewrite reverse_app in E.
  destruct (TrimSpace s) as [|x l _] eqn:ET using rev_ind; [discriminate E|]. rewrite map_app, reverse_app in E. injection E as E _.
  apply lower_dot in E as ->. assert (HasSuffix (l ++ [dot]) [dot] = true) by (apply HasSuffix_spec; by exists l). congruence.
Qed.

Lemma matches_covers f r :
  name_probe f -> plain_rule r -> Rule_Validate IsDomainName r = Ok tt -> kind r <> KindMatch ->
  ruleMatchesFixture r f = covers (normalizeName (f_domain f)) r.
Proof.
  intros (HP & HT & HI & HN) HR (_ & Hk & Hb & _)%Rule_Validate_fields HM. specialize (Hb HM).
  pose proof (plain_normal _ HP) as Hn. rewrite HT in Hn. rewrite Hn.
  unfold ruleMatchesFixture, covers, plain_rule in *. destruct HP as [HA _].
  case_bool_decide as E1.
  { specialize (HR (or_introl E1)). rewrite (plain_normal _ HR). destruct HR as [HR _]. unfold equalFold, EqualFold.
    rewrite HT, HA, (ascii_trim _ HR). cbn [andb]. apply bool_decide_ext. naive_solver. }
  case_bool_decide as E2.
  { specialize (HR (or_intror E2)). rewrite (plain_normal _ HR). destruct HR as [HR _]. unfold domainHasSuffix.
    rewrite HT, !ToLower_ascii by (done || by apply ascii_trim).
    assert (map lower_byte (TrimSpace (Pattern r)) <> []) as Hne.
    { intros E%map_eq_nil. unfold blank in Hb. apply bool_decide_eq_false in Hb. done. }
    rewrite (bool_decide_false _ Hne). cbn [negb andb]. by case_bool_decide. }
  case_bool_decide as E3; [by rewrite ToLower_ascii|]. rewrite HI, HN.
  case_bool_decide as E4; [done|]. rewrite (bool_decide_false _ HM).
  destruct (_ || _); [|done]. destruct (Contains [] _) eqn:EC; [|done].
  apply Contains_spec in EC as (a & c & EC). destruct a; discriminate EC.
Qed.

(** Validate puts the MATCH rule after every other one. *)
Lemma match_comes_last rs i m j r :
  RuleSet_Validate IsDomainName rs = Ok tt -> rs !! i = Some m -> kind m = KindMatch -> rs !! j = Some r -> j <> i ->
  (Priority r <= Priority m)%Z /\ (Priority r = Priority m -> (j < i)%nat).
Proof.
  intros (_ & HN & HM)%RuleSet_Validate_spec Hi Hm Hj Hji.
  assert (m ∈ filter (fun r => kind r = KindMatch) rs) as Hin by (apply list_elem_of_filter; split; [done|by eapply list_elem_of_lookup_2]).
  destruct HM as [E|(m' & E & HL)]; rewrite E in Hin; [by apply not_elem_of_nil in Hin|]. apply list_elem_of_singleton in Hin as <-.
  pose proof (proj2 (match_last_sorted rs i m Hi HN) HL) as HS. rewrite match_last_loop_spec in HS. by apply (HS j r).
Qed.

Lemma dry_run_classify rs f target :
  RuleSet_Validate IsDomainName rs = Ok tt -> Forall plain_rule rs -> name_probe f ->
  (exists m, m ∈ rs /\ kind m = KindMatch /\ Enabled m = true) \/ (target <> [] /\ toAction target = ActionProxy) ->
  toAction (d_actual (dry_run_one (sort_enabled rs) target f)) = classify (Some (BuildTable rs)) (f_domain f).
Proof.
  intros HV HP Hf Ht. pose proof (proj1 (proj1 (RuleSet_Validate_spec IsDomainName rs) HV)) as HF.
  rewrite Forall_forall in HP, HF.
  assert (forall j r, rs !! j = Some r -> kind r <> KindMatch -> ruleMatchesFixture r f = covers (normalizeName (f_domain f)) r) as HC.
  { intros j r Hj Hk. apply list_elem_of_lookup_2 in Hj. apply matches_covers; auto. }
  assert (forall r, covers (normalizeName (f_domain f)) r = true -> kind r <> KindMatch) as HK.
  { intros r Hc Hk. unfold covers in Hc. rewrite Hk in Hc. vm_compute in Hc. discriminate Hc. }
  assert (forall r, kind r = KindMatch -> ruleMatchesFixture r f = true) as HT.
  { intros r Hk. unfold ruleMatchesFixture. rewrite Hk. reflexivity. }
  rewrite classify_spec. unfold spec_classify, dry_run_one.
  destruct (findMatch (sort_enabled rs) f) as [r|] eqn:E.
  - apply findMatch_decides in E as (i & Hi & He & Hm & Hmin). cbn [d_actual dry_result]. unfold dry_result. cbn [d_actual].
    destruct (decide (kind r = KindMatch)) as [Hk|Hk].
    + rewrite (proj2 (found_enabled_none _ rs)); cycle 1.
      { intros s Hs Hse. destruct (covers _ s) eqn:Ec; [|done]. exfalso. apply list_elem_of_lookup in Hs as [j Hj].
        pose proof (HK s Ec) as Hsk. assert (j <> i) as Hji by (intros ->; congruence).
        destruct (match_comes_last rs i r j s HV Hi Hk Hj Hji) as [L1 L2].
        destruct (Hmin j s Hj Hse) as [M1 M2]; [by rewrite (HC j)|]. assert (Priority s = Priority r) as EP by lia.
        specialize (L2 EP). specialize (M2 EP). lia. }
      assert (Action r <> []) as Ha.
      { apply list_elem_of_lookup_2 in Hi. apply HF, Rule_Validate_fields in Hi as (_ & _ & _ & _ & Hb & _). intros Ha. by rewrite Ha in Hb. }
      rewrite (proj2 (found_enabled_first is_default rs r)); [done|]. exists i. split; [exact Hi|split; [exact He|split]].
      * unfold is_default. by rewrite (bool_decide_true _ Hk), (bool_decide_false _ Ha).
      * intros j s Hj Hse Hd. apply (Hmin j s Hj Hse), HT. unfold is_default in Hd. by apply andb_true_iff in Hd as [Hd%bool_decide_eq_true _].
    + rewrite (proj2 (found_enabled_first (covers (normalizeName (f_domain f))) rs r)); [done|]. exists i.
      split; [exact Hi|split; [exact He|split; [by rewrite <- (HC i r Hi Hk)|]]]. intros j s Hj Hse Hc. apply (Hmin j s Hj Hse). rewrite (HC j s Hj); [done|by apply HK].
  - rewrite findMatch_none in E. destruct Ht as [(m & Hm & Hk & He)|[Ht Hta]]; [specialize (E m Hm He); by rewrite HT in E|].
    rewrite (proj2 (found_enabled_none _ rs)); cycle 1.
    { intros s Hs Hse. destruct (covers _ s) eqn:Ec; [|done]. apply list_elem_of_lookup in Hs as [j Hj].
      rewrite <- (HC j s Hj (HK s Ec)) in Ec. rewrite E in Ec; [done| |done]. by eapply list_elem_of_lookup_2. }
    rewrite (proj2 (found_enabled_none _ rs)); cycle 1.
    { intros s Hs Hse. destruct (is_default s) eqn:Ec; [|done]. unfold is_default in Ec. apply andb_true_iff in Ec as [Ec%bool_decide_eq_true _].
      pose proof (E s Hs Hse) as E'. rewrite HT in E' by done. done. }
    unfold dry_result. rewrite (bool_decide_false _ Ht). exact Hta.
Qed.
End dryrun.

(** ** Statements, seen from the applier *)
Lemma wp_db_step {A} (m : DB A) (Q : res DbErr A -> App -> Prop) a :
  wp m (fun x d => Q x (set_db d a)) (db a) -> wp (on_db m) Q a.
Proof. unfold wp, on_db. by destruct (m (db a)). Qed.

Lemma exec_on_db {A} (f : Db -> option (A * Db)) a (Q : res DbErr A -> App -> Prop) :
  (forall e l, Q (Err e) (set_db (set_db_faults l (db a)) a)) ->
  (forall x d l, f (set_db_faults l (db a)) = Some (x, d) -> Q (Ok x) (set_db d a)) -> wp (on_db (exec f)) Q a.
Proof.
  intros HE HO. apply wp_db_step. eapply wp_mono; [apply wp_exec|]. intros [e|x] d Hd; cbn in Hd.
  - apply eqt_inv in Hd as [l ->]. apply HE.
  - destruct Hd as [l Hd]. by eapply HO.
Qed.

Lemma query_on_db {A} (f : Db -> res DbErr A) a (Q : res DbErr A -> App -> Prop) :
  (forall l, Q (Err ErrExec) (set_db (set_db_faults l (db a)) a)) ->
  (forall l l', Q (f (set_db_faults l' (db a))) (set_db (set_db_faults l (db a)) a)) -> wp (on_db (query f)) Q a.
Proof.
  intros HE HO. apply wp_db_step. pose proof (wp_query_full f (db a)) as HQ. unfold wp in *. destruct (query f (db a)) as [r d].
  destruct HQ as [Hd [->|[l' <-]]]; apply eqt_inv in Hd as [l ->]; [apply HE|apply HO].
Qed.

Lemma audit_exits u x t r a : wp (audit u x t r) (fun _ a' => exits (db a') = exits (db a) /\ rule_versions (db a') = rule_versions (db a)) a.
Proof.
  unfold audit, AppendAudit, update. apply wp_bind. apply exec_on_db; [intros; by apply wp_ret|].
  intros [] d l [= <-]. by apply wp_ret.
Qed.

Section exit_lemmas.
Context `{Unicode} (json_Unmarshal : bytes -> option (gmap bytes json)) (url_Parse : bytes -> option URL).

(** The row of an added exit, and the summary both handlers make of it. *)
Lemma handleAddExit_wp id uri actor a :
  wp (handleAddExit json_Unmarshal url_Parse (Some (id, uri)) actor) (fun r a' => forall sum, r = Answered sum ->
    exists x, rows (exits (db a')) = rows (exits (db a)) ++ [x] /\ summary_of json_Unmarshal url_Parse x = Some sum /\
      s_ID sum = id /\ s_Active sum = false) a.
Proof.
  unfold handleAddExit. destruct (_ || _); [by apply wp_ret|]. destruct (exitIDRE id && _ && _) eqn:EP; [by apply wp_ret|].
  unfold AddExit. destruct (exitIDRE id); cbn [negb andb] in *; [|apply wp_bind; by apply wp_ret].
  set (direct := (id == directProtocol) || (uri == directURI)) in *.
  destruct (if direct then _ else _) as [protocol|] eqn:ET; [|apply wp_bind; by apply wp_ret].
  apply wp_bind, exec_on_db; [intros e l; destruct e; by apply wp_ret|]. intros x d l Hx.
  destruct (find_exit id _); [discriminate Hx|]. injection Hx as <- <-. apply wp_bind. eapply wp_mono; [apply audit_exits|].
  cbv beta. intros _ a' [HE _]. apply wp_ret. intros sum [= <-]. rewrite HE. eexists. split; [reflexivity|].
  assert (forall p cfg, s_ID (exitToSummary id p false cfg) = id /\ s_Active (exitToSummary id p false cfg) = false) as HS.
  { intros p cfg. unfold exitToSummary. by case_bool_decide. }
  split; [|apply HS]. unfold summary_of. cbn [x_ExitID x_Protocol x_Active x_URI]. unfold ProxyConfig.
  destruct (decide (protocol = directProtocol)) as [Hp|Hp].
  { rewrite (bool_decide_true _ Hp). cbn [orb fmap option_fmap option_map]. unfold exitToSummary. by rewrite !(bool_decide_true _ Hp). }
  rewrite (bool_decide_false _ Hp). cbn [orb]. unfold parsed_type in ET.
  destruct direct eqn:ED; [injection ET as <-; by destruct Hp|]. apply orb_false_iff in ED as [_ ->].
  destruct (Exit.Parse json_Unmarshal url_Parse uri) as [|e|p]; [done|discriminate ET|]. done.
Qed.

Lemma handleListExits_wp a :
  wp (handleListExits json_Unmarshal url_Parse) (fun r _ => forall l active, r = Answered (l, active) ->
    forall x s, x ∈ rows (exits (db a)) -> summary_of json_Unmarshal url_Parse x = Some s -> s ∈ l) a.
Proof.
  unfold handleListExits. apply wp_bind, query_on_db; [intros; by apply wp_ret|].
  intros l l'. cbn [exits set_db_faults]. apply wp_ret. intros out active. destruct (mapM _ _) as [out'|] eqn:EM; [|done]. intros [= <- _].
  intros x s Hx Hs. apply mapM_Some in EM. assert (x ∈ stable_sort exit_leb (rows (exits (db a)))) as Hin.
  { by rewrite <- (stable_sort_perm exit_leb). }
  apply list_elem_of_lookup in Hin as [i Hi]. destruct (Forall2_lookup_l _ _ _ _ _ EM Hi) as (y & Hy & Hxy).
  rewrite Hs in Hxy. injection Hxy as <-. by eapply list_elem_of_lookup_2.
Qed.
End exit_lemmas.

Lemma handleListSnapshots_wp newest q a :
  wp (handleListSnapshots newest q) (fun r a' => forall l, r = Answered l ->
    exists can active snaps, l = snapshot_entry can active <$> snaps /\
      (forall s, s ∈ snaps -> sn_ID s ∈ can <-> exists v, v ∈ rows (rule_versions (db a)) /\ rv_SnapshotID v = sn_ID s) /\
      active = match found rv_Active (rows (rule_versions (db a))) with Some v => rv_SnapshotID v | None => 0 end /\
      rule_versions (db a') = rule_versions (db a)) a.
Proof.
  unfold handleListSnapshots, ListSnapshots. apply wp_bind, query_on_db; [intros; by apply wp_ret|]. intros l0 l0'.
  set (snaps := take _ _). clearbody snaps.
  apply wp_bind. eapply (wp_mono _ (fun r a' => rule_versions (db a') = rule_versions (db a) /\
      forall can, r = Ok can -> forall s, s ∈ snaps -> sn_ID s ∈ can <-> exists v, v ∈ rows (rule_versions (db a)) /\ rv_SnapshotID v = sn_ID s)).
  { unfold rollbackableSnapshotIDs. case_bool_decide as Hnil.
    - apply wp_db_step, wp_ret. split; [done|]. intros can [= <-] s Hs. rewrite Hnil in Hs. by apply not_elem_of_nil in Hs.
    - apply query_on_db; [intros; by split|]. intros l l'. split; [done|]. intros can [= <-] s Hs. cbn [rule_versions set_db_faults db set_db].
      rewrite elem_of_list_to_set, list_elem_of_filter. split.
      + intros [_ (v & -> & Hv)%list_elem_of_fmap]. by exists v.
      + intros (v & Hv & Hid). split; [by apply list_elem_of_fmap_2|]. rewrite <- Hid. by apply list_elem_of_fmap_2. }
  intros [e|can] a1 [Hr Hcan]; [by apply wp_ret|]. apply wp_bind. unfold active_snapshot. apply wp_bind.
  apply query_on_db; [intros; by apply wp_ret, wp_ret|]. intros l l'. apply wp_ret. cbn [rule_versions set_db_faults]. rewrite Hr.
  assert (forall active, active = match found rv_Active (rows (rule_versions (db a))) with Some v => rv_SnapshotID v | None => 0 end ->
    exists can0 active0 snaps0, snapshot_entry can active <$> snaps = snapshot_entry can0 active0 <$> snaps0 /\
      (forall s, s ∈ snaps0 -> sn_ID s ∈ can0 <-> exists v, v ∈ rows (rule_versions (db a)) /\ rv_SnapshotID v = sn_ID s) /\
      active0 = match found rv_Active (rows (rule_versions (db a))) with Some v => rv_SnapshotID v | None => 0 end /\
      rule_versions (db (set_db (set_db_faults l (db a1)) a1)) = rule_versions (db a)) as HA.
  { intros active Ha. exists can, active, snaps. split; [done|]. split; [by apply Hcan|done]. }
  destruct (found rv_Active _) as [v|]; cbn [one]; apply wp_ret; intros out [= <-]; by apply HA.
Qed.

Section spec.
Context `{Unicode} {Value Base : Type}.
Context (Unmarshal : bytes -> option (list Rule)) (IsDomainName : bytes -> bool) (have_rulesets : bool)
  (ParseExit : bytes -> option (gmap bytes Value)) (text : AErr -> bytes) (orch : @Orch Value Base)
  (BaseConfig : option (@Config Value Base)).
Context (newest : list Snapshot -> list Snapshot).
Context (json_Unmarshal : bytes -> option (gmap bytes json)) (url_Parse : bytes -> option URL).
Abbreviation Srv := (@Srv Value Base).

(** C10: the dry run predicts the resolver.  For the effective rules of a
    request - the ones an apply of the same rules puts in force - the dry run
    has one result for each probe, and the counts add up.  When the patterns of
    the name rules are ASCII without a final dot, the action it shows for a
    probe of such a name (without an address or notes) is the one the compiled
    table gives that name, if the rules have a MATCH rule or the panel's first
    exit is one that is proxied. *)
Theorem dry_run_predicts rules fixtures (s s' : Srv) resp :
  handleDryRun IsDomainName have_rulesets BaseConfig (Some (rules, fixtures)) s = (Answered resp, s') ->
  exists set, (effective IsDomainName have_rulesets rules s).1 = Ok set /\
    length (Results resp) = length fixtures /\ Passed resp + Failed_ resp = len fixtures /\
    (Forall plain_rule set ->
     (exists m, m ∈ set /\ kind m = KindMatch /\ Enabled m = true) \/ toAction (activeExit BaseConfig) = ActionProxy ->
     forall k f d, fixtures !! k = Some f -> name_probe f -> Results resp !! k = Some d ->
      toAction (d_actual d) = classify (Some (BuildTable set)) (f_domain f)).
Proof.
  intros E. unfold handleDryRun, bind in E. destruct (effective _ _ _ s) as [x s1] eqn:EX.
  destruct x as [[st c]|set]; [discriminate E|]. injection E as <- _. exists set. cbn [Results Passed Failed_ fst].
  assert (RuleSet_Validate IsDomainName set = Ok tt) as HV.
  { unfold effective, bind, on_reg in EX. destruct (expandRulesets _ _ _ _) as [[e|l] g]; [discriminate EX|].
    destruct (RuleSet_Validate IsDomainName l) as [e|[]] eqn:EV; [discriminate EX|]. injection EX as -> _. exact EV. }
  split; [done|]. assert (length (DryRun set fixtures (ResolveFallthrough set (activeExit BaseConfig) (str "PROXY")).1) = length fixtures) as HL by apply length_map.
  split; [exact HL|]. split; [unfold len; lia|].
  intros HP HA k f d Hk Hf Hd. unfold DryRun in Hd. rewrite list_lookup_fmap, Hk in Hd. injection Hd as <-.
  apply (dry_run_classify IsDomainName); try done. destruct HA as [HA|HA]; [by left|]. unfold ResolveFallthrough.
  destruct (list_find _ set) as [[i m]|] eqn:F.
  - left. apply list_find_Some in F as (F & [Hm He] & _). exists m. split; [by eapply list_elem_of_lookup_2|done].
  - right. destruct (decide (activeExit BaseConfig = [])) as [Ea|Ea].
    + rewrite Ea. split; [done|]. unfold toAction. rewrite ToLower_ascii by reflexivity. reflexivity.
    + rewrite (bool_decide_false _ Ea). done.
Qed.

(** an added exit is listed.  When the panel accepts an exit, the next
    listing, if the database answers, shows it with the very summary the
    answer had - the stored URI parses again to the same proxy -, and the
    exits that were listed before still are. *)
Theorem added_exit_listed id uri actor a a1 sum a2 l active :
  handleAddExit json_Unmarshal url_Parse (Some (id, uri)) actor a = (Answered sum, a1) ->
  handleListExits json_Unmarshal url_Parse a1 = (Answered (l, active), a2) ->
  sum ∈ l /\ s_ID sum = id /\ s_Active sum = false /\
  forall x s, x ∈ rows (exits (db a)) -> summary_of json_Unmarshal url_Parse x = Some s -> s ∈ l.
Proof.
  intros E1 E2. destruct (wp_elim _ _ _ _ _ (handleAddExit_wp json_Unmarshal url_Parse id uri actor a) E1 sum eq_refl) as (x & Hr & Hs & Hid & Ha).
  pose proof (wp_elim _ _ _ _ _ (handleListExits_wp json_Unmarshal url_Parse a1) E2 l active eq_refl) as HL. rewrite Hr in HL.
  split; [eapply HL; [|exact Hs]; apply elem_of_app; right; left|]. split; [done|]. split; [done|].
  intros y s Hy Hys. eapply HL; [|exact Hys]. apply elem_of_app. by left.
Qed.

(** the listing of the snapshots is truthful: an entry is marked active
    exactly when the active rule version is its own, and rollbackable exactly
    when the rollback handler would find rules to reactivate. *)
Theorem snapshots_truthful q a a' l e actor t (s : Srv) :
  handleListSnapshots newest q a = (Answered l, a') -> e ∈ l -> cp (world s) = a' ->
  se_Active e = (match found rv_Active (rows (rule_versions (db a))) with Some v => se_ID e =? rv_SnapshotID v | None => se_ID e =? 0 end) /\
  (se_Rollbackable e = true <-> exists v, v ∈ rows (rule_versions (db a)) /\ rv_SnapshotID v = se_ID e) /\
  (se_Rollbackable e = true ->
    (handleRollbackSnapshot Unmarshal IsDomainName ParseExit text orch BaseConfig (Some (se_ID e)) actor t s).1 <> Bad 409 (str "no_rules")).
Proof.
  intros EL He Hs.
  destruct (wp_elim _ _ _ _ _ (handleListSnapshots_wp newest q a) EL l eq_refl) as (can & active & snaps & -> & Hcan & Hact & Hr).
  apply list_elem_of_fmap in He as (sn & -> & Hsn). cbn [snapshot_entry se_Active se_ID se_Rollbackable].
  split; [rewrite Hact; by destruct (found _ _)|]. split; [rewrite bool_decide_eq_true; by apply Hcan|].
  rewrite bool_decide_eq_true, (Hcan sn Hsn). intros (v & Hv & Hid).
  assert (wp (handleRollbackSnapshot Unmarshal IsDomainName ParseExit text orch BaseConfig (Some (sn_ID sn)) actor t)
    (fun r _ => r <> Bad 409 (str "no_rules")) s) as HW; [|unfold wp in HW; by destruct (handleRollbackSnapshot _ _ _ _ _ _ _ _ _ s)].
  rewrite <- Hs in Hr. clear -Hr Hv Hid. unfold handleRollbackSnapshot. apply wp_bind.
  eapply (wp_mono _ (fun r _ => r <> Err (409, str "no_rules"))).
  - apply wp_on_app. unfold rollback_target, GetSnapshotByID, GetRuleVersionBySnapshot.
    apply wp_bind, query_on_db; [intros; by apply wp_ret|]. intros l l'. cbn [snapshots set_db_faults].
    destruct (found _ _) as [snap|] eqn:F; cbn [one]; [|by apply wp_ret].
    apply found_elem in F as [_ F%bool_decide_eq_true]. rewrite F.
    apply wp_bind, query_on_db; [intros; by apply wp_ret|]. intros l2 l2'. cbn [rule_versions set_db_faults db set_db]. rewrite Hr.
    destruct (last _) as [target|] eqn:EL.
    + cbn [one]. destruct (ParseYAML _ _ _); [by apply wp_ret|]. destruct (RuleSet_Validate _ _); [by apply wp_ret|].
      unfold bindE. apply wp_bind. eapply (wp_mono _ (fun r _ => forall c, r = Err c -> c = (500, str "db_error"))).
      * unfold active_snapshot. apply wp_bind. apply wp_any. intros [[]|w] a'; apply wp_ret; congruence.
      * intros [c|prev] a' Hc; apply wp_ret; [|done]. rewrite (Hc c eq_refl). done.
    + apply last_None in EL. assert (v ∈ filter (fun r => rv_SnapshotID r = sn_ID sn) (rows (rule_versions (db a)))) as Hin by (by apply list_elem_of_filter).
      rewrite EL in Hin. by apply not_elem_of_nil in Hin.
  - intros [[st c]|[[[x y] z] p]] s' Hx; [apply wp_ret; congruence|]. apply wp_bind. apply wp_any. intros [r [e|]] s2.
    + apply wp_ret. unfold refuse. by destruct (in_flight e).
    + apply wp_bind. apply wp_any. intros en s3. apply wp_bind. apply wp_any. intros [] s4.
      apply wp_ret. unfold tracked. destruct en; [by case_bool_decide|done].
Qed.
End spec.

(** ** Concrete inputs *)
Module Demo.
#[local] Existing Instance ascii_tables.
Import ApplierSpec.Demo ApplyApi.Demo.

Definition rule (id : bytes) (k : Kind) (p a : bytes) (prio : Z) : Rule :=
  {| ID := id; kind := k; Pattern := p; Action := a; Priority := prio; Enabled := true; Notes := []; GroupID := [] |}.
Definition probe (d : bytes) : TestFixture := {| f_domain := d; f_ip := []; f_expected := []; f_notes := [] |}.
Definition demo_set : list Rule :=
  [rule (str "a") KindDomainSuffix (str "example.com") (str "direct") 10; rule (str "m") KindMatch [] (str "block") 100].
Definition dry (rs : list Rule) (fs : list TestFixture) := handleDryRun any_name false base (Some (rs, fs)) s0.
Definition demo_probes : list TestFixture := [probe (str "www.Example.COM"); probe (str "other.net")].

Lemma demo_dry : exists resp, dry demo_set demo_probes = (Answered resp, (dry demo_set demo_probes).2).
Proof. eexists. unfold dry, handleDryRun. by vm_compute. Qed.

Lemma demo_plain : Forall plain_rule demo_set.
Proof.
  repeat constructor; intros [E|E]; try (apply (bool_decide_unpack _) in E; done); try discriminate E; by vm_compute.
Qed.

Lemma dry_run_predicts_witness : exists resp, dry demo_set demo_probes = (Answered resp, (dry demo_set demo_probes).2) /\
  forall d, Results resp !! 1%nat = Some d -> toAction (d_actual d) = classify (Some (BuildTable demo_set)) (str "other.net").
Proof.
  destruct demo_dry as [resp E]. exists resp. split; [exact E|]. intros d Hd.
  destruct (dry_run_predicts any_name false base demo_set demo_probes s0 _ resp E) as (set & Hs & _ & _ & HP).
  assert (set = demo_set) as -> by (vm_compute in Hs; by injection Hs as <-).
  refine (HP demo_plain (or_intror eq_refl) 1%nat (probe (str "other.net")) d eq_refl _ Hd). repeat split; by vm_compute.
Defined.

(** A pattern with a trailing dot is a name for the resolver, and matches
    nothing in the dry run. *)
Definition dotted : list Rule := [rule (str "a") KindDomainSuffix (str "example.com.") (str "block") 10].
Example dotted_diverges :
  d_rule (dry_run_one (sort_enabled dotted) (str "PROXY") (probe (str "example.com"))) = str "fallthrough" /\
  classify (Some (BuildTable dotted)) (str "example.com") = ActionBlock.
Proof. by vm_compute. Qed.

(** Without a MATCH rule the dry run falls through to the first exit; when
    that is the built-in direct exit it shows direct for names that the
    resolver proxies. *)
Example direct_exit_diverges :
  d_actual (dry_run_one (sort_enabled []) (ResolveFallthrough [] (str "direct") (str "PROXY")).1 (probe (str "example.com"))) = str "direct" /\
  classify (Some (BuildTable [])) (str "example.com") = ActionProxy.
Proof. by vm_compute. Qed.

Definition no_json (_ : bytes) : option (gmap bytes json) := None.
Definition no_url (_ : bytes) : option URL := None.
Definition add := handleAddExit no_json no_url (Some (str "jp2", str "socks5://192.0.2.1:1080")) (str "root") app0.
(** The exit db0 has cannot be parsed without a URL parser: it is listed bare. *)
Definition listing := handleListExits no_json no_url add.2.

Definition jp2 : ExitSummary :=
  {| s_ID := str "jp2"; s_Protocol := str "socks5"; s_Server := str "192.0.2.1"; s_Port := 1080; s_Active := false; s_Notes := [] |}.

Lemma add_answer : add.1 = Answered jp2.
Proof. by vm_compute. Qed.
Lemma listing_answer : exists l active, listing.1 = Answered (l, active).
Proof. do 2 eexists. by vm_compute. Qed.

Lemma added_exit_listed_witness : exists l active, listing.1 = Answered (l, active) /\ jp2 ∈ l.
Proof.
  destruct listing_answer as (l & active & HL). exists l, active. split; [exact HL|].
  destruct (added_exit_listed no_json no_url (str "jp2") (str "socks5://192.0.2.1:1080") (str "root") app0 add.2 jp2 listing.2 l active) as [H _].
  - rewrite <- add_answer. apply surjective_pairing.
  - rewrite <- HL. apply surjective_pairing.
  - exact H.
Defined.

Definition snaps_run := handleListSnapshots (@rev _) (str "10") app0.
Lemma snaps_answer : exists l e, snaps_run.1 = Answered l /\ e ∈ l /\ se_ID e = 2.
Proof. do 2 eexists. split; [by vm_compute|]. split; [left|reflexivity]. Qed.

Lemma snapshots_truthful_witness : exists e, se_ID e = 2 /\ (se_Rollbackable e = true <-> exists v, v ∈ rows (rule_versions (db app0)) /\ rv_SnapshotID v = 2).
Proof.
  destruct snaps_answer as (l & e & HL & He & Hid). exists e. split; [exact Hid|].
  destruct (snapshots_truthful Unmarshal any_name no_exit text noop base (@rev _) (str "10") app0 snaps_run.2 l e (str "root") ticket
    (server (upd_cp snaps_run.2 (w0 [])))) as (_ & H & _).
  - rewrite <- HL. apply surjective_pairing.
  - exact He.
  - reflexivity.
  - rewrite <- Hid. exact H.
Defined.
End Demo.
