(* ===== verification/Installer.v ===== *)
(** * The installer

    internal/installer: env.go, actions.go, recorder.go and the write path and
    text helpers of migrate.go.  Go's interface [Executor] is a class; its
    instances are the recorder (--dry-run and the tests) and the host.  The
    host is a tree of nodes with modes and owners, with outcomes for the next
    system calls; paths are clean and absolute.  [os.ReadFile], which the code
    calls past the interface, is an operation of the class too.  Parameters:
    runtime.GOOS ([linux]), the umask, the rendering of the unit file and the
    default configuration (UnitFile has both).  groupadd, useradd and systemctl are not given the
    right to change the tree. *)
From S2P Require Import Prelude GoStrings GoNet GoCodec Exit.
From Stdlib Require Import ZArith Lia.
Local Open Scope Z_scope.

(** ** env.go *)
Record Env := {
  BinDir : bytes; ConfigDir : bytes; DataDir : bytes; UnitDir : bytes;
  EUser : bytes; EGroup : bytes; Binary : bytes; EUnit : bytes
}.

Definition Defaults : Env := {|
  BinDir := str "/usr/local/bin"; ConfigDir := str "/etc/5gpn"; DataDir := str "/var/lib/5gpn";
  UnitDir := str "/etc/systemd/system"; EUser := str "5gpn"; EGroup := str "5gpn";
  Binary := str "5gpn"; EUnit := str "5gpn.service" |}.

(** [filepath.Join] of a clean absolute directory, other than the root, and a
    clean relative path. *)
Definition Join2 (dir name : bytes) : bytes := dir ++ slash :: name.

Definition BinaryPath (e : Env) : bytes := Join2 (BinDir e) (Binary e).
Definition ConfigPath (e : Env) : bytes := Join2 (ConfigDir e) (str "config.yaml").
Definition UnitPath (e : Env) : bytes := Join2 (UnitDir e) (EUnit e).

Definition octal (u g o : Z) : Z := u * 64 + g * 8 + o.

Inductive IErr := IOp (kind path : bytes) | IText (t : bytes) | IWrap (prefix : bytes) (e : IErr).

(** The interface [Executor], and [os.ReadFile]. *)
Class Executor (W : Type) := {
  Run : list bytes -> ST W (res IErr unit);
  WriteFile : bytes -> bytes -> Z -> ST W (res IErr unit);
  MkdirAll : bytes -> Z -> ST W (res IErr unit);
  Remove : bytes -> ST W (res IErr unit);
  Chown : bytes -> bytes -> bytes -> ST W (res IErr unit);
  Chmod : bytes -> Z -> ST W (res IErr unit);
  Exists : bytes -> ST W bool;
  ReadFile : bytes -> ST W (res IErr bytes)
}.

Record InstallOptions := {
  Force : bool; SkipUnit : bool; SkipEnable : bool; SourceBinary : bytes; ConfigContent : option bytes
}.
Record UpgradeOptions := { NewBinary : bytes; SkipRestart : bool }.

(** ** actions.go *)
Section actions.
Context {W : Type} `{Executor W}.
Context (linux : bool) (RenderUnit : Env -> res IErr bytes) (DefaultConfigTemplate : bytes).

Definition done_ : ST W (res IErr unit) := ret (Ok tt).
Definition wrap {A} (prefix : bytes) (m : ST W (res IErr A)) : ST W (res IErr A) :=
  let! r := m in ret (match r with Ok a => Ok a | Err e => Err (IWrap prefix e) end).
Definition ignored_ {A} (m : ST W (res IErr A)) : ST W unit := let! _ := m in ret tt.

Definition ensureUser (e : Env) : ST W (res IErr unit) :=
  if negb linux then done_
  else
    let! _ := ignored_ (Run [str "groupadd"; str "--system"; str "--force"; EGroup e]) in
    let! _ := ignored_ (Run [str "useradd"; str "--system"; str "--no-create-home"; str "--gid"; EGroup e;
                              str "--shell"; str "/usr/sbin/nologin"; EUser e]) in
    done_.

Fixpoint mkdirs (l : list (bytes * Z)) : ST W (res IErr unit) :=
  match l with
  | [] => done_
  | (path, mode) :: l => let? _ := wrap (str "mkdir " ++ path) (MkdirAll path mode) in mkdirs l
  end.

Definition ensureDirs (e : Env) : ST W (res IErr unit) :=
  let? _ := mkdirs [(BinDir e, octal 7 5 5); (ConfigDir e, octal 7 5 0); (DataDir e, octal 7 0 0); (UnitDir e, octal 7 5 5)] in
  let? _ := wrap (str "chmod config dir") (Chmod (ConfigDir e) (octal 7 5 0)) in
  let? _ := wrap (str "chmod data dir") (Chmod (DataDir e) (octal 7 0 0)) in
  let? _ := wrap (str "chown data") (Chown (DataDir e) (EUser e) (EGroup e)) in
  wrap (str "chown config dir") (Chown (ConfigDir e) (str "root") (EGroup e)).

Definition ensureConfig (e : Env) (o : InstallOptions) : ST W (res IErr unit) :=
  let! there := Exists (ConfigPath e) in
  if there && negb (Force o) then done_
  else WriteFile (ConfigPath e) (default DefaultConfigTemplate (ConfigContent o)) (octal 6 4 0).

Definition ensureBinary (e : Env) (source : bytes) : ST W (res IErr unit) :=
  if source == [] then done_
  else let? body := wrap (str "read source binary") (ReadFile source) in WriteFile (BinaryPath e) body (octal 7 5 5).

Definition finalizeConfigOwnership (e : Env) : ST W (res IErr unit) :=
  let? _ := wrap (str "chown config tree") (Chown (ConfigDir e) (str "root") (EGroup e)) in
  let? _ := wrap (str "chmod config tree") (Chmod (ConfigDir e) (octal 7 5 0)) in
  let! there := Exists (ConfigPath e) in
  if there then wrap (str "chmod config") (Chmod (ConfigPath e) (octal 6 4 0)) else done_.

Definition state_names : list bytes := [str "5gpn.db"; str "5gpn.db-wal"; str "5gpn.db-shm"; str "jwt.key"].

Fixpoint chmod_state (dir : bytes) (names : list bytes) : ST W (res IErr unit) :=
  match names with
  | [] => done_
  | name :: names =>
      let path := Join2 dir name in
      let! there := Exists path in
      if there then
        let? _ := wrap (str "chmod state file " ++ path) (Chmod path (octal 6 0 0)) in chmod_state dir names
      else chmod_state dir names
  end.

Definition finalizeStatePermissions (e : Env) : ST W (res IErr unit) :=
  let? _ := wrap (str "chmod data tree") (Chmod (DataDir e) (octal 7 0 0)) in chmod_state (DataDir e) state_names.

Definition ensureUnit (e : Env) : ST W (res IErr unit) :=
  match RenderUnit e with Err x => ret (Err x) | Ok body => WriteFile (UnitPath e) body (octal 6 4 4) end.

Definition systemctl (args : list bytes) : ST W (res IErr unit) := Run (str "systemctl" :: args).

Definition enableUnit (e : Env) : ST W (res IErr unit) :=
  if negb linux then done_
  else
    let? _ := systemctl [str "daemon-reload"] in
    let? _ := systemctl [str "enable"; EUnit e] in
    systemctl [str "restart"; EUnit e].

Definition Install (e : Env) (o : InstallOptions) : ST W (res IErr unit) :=
  let? _ := ensureUser e in
  let? _ := ensureDirs e in
  let? _ := ensureConfig e o in
  let? _ := ensureBinary e (SourceBinary o) in
  let? _ := finalizeConfigOwnership e in
  let? _ := finalizeStatePermissions e in
  let? _ := (if SkipUnit o then done_ else ensureUnit e) in
  if SkipEnable o || SkipUnit o then done_ else enableUnit e.

(** The loop over the targets keeps the first error. *)
Fixpoint remove_all (l : list bytes) (firstErr : option IErr) : ST W (option IErr) :=
  match l with
  | [] => ret firstErr
  | t :: l =>
      let! r := Remove t in
      remove_all l (match r, firstErr with Err x, None => Some x | _, _ => firstErr end)
  end.

Definition targets (e : Env) (purge : bool) : list bytes :=
  [UnitPath e; BinaryPath e] ++ (if purge then [ConfigDir e; DataDir e] else []).

Definition Uninstall (e : Env) (purge : bool) : ST W (res IErr unit) :=
  let! _ := (if linux then let! _ := ignored_ (systemctl [str "stop"; EUnit e]) in ignored_ (systemctl [str "disable"; EUnit e])
             else ret tt) in
  let! x := remove_all (targets e purge) None in
  let! _ := (if linux then ignored_ (systemctl [str "daemon-reload"]) else ret tt) in
  ret (match x with Some x => Err x | None => Ok tt end).

Definition copyOrRun (src dst : bytes) : ST W (res IErr unit) :=
  let? body := ReadFile src in WriteFile dst body (octal 7 5 5).

Definition prev (e : Env) : bytes := BinaryPath e ++ str ".prev".

Definition Upgrade (e : Env) (o : UpgradeOptions) : ST W (res IErr unit) :=
  if NewBinary o == [] then ret (Err (IText (str "installer: NewBinary required")))
  else
    let! there := Exists (BinaryPath e) in
    let? _ := (if there then wrap (str "backup") (copyOrRun (BinaryPath e) (prev e)) else done_) in
    let? _ := wrap (str "install new") (copyOrRun (NewBinary o) (BinaryPath e)) in
    if negb (SkipRestart o) && linux then
      let! r := systemctl [str "restart"; EUnit e] in
      match r with
      | Ok _ => done_
      | Err x =>
          let! _ := ignored_ (copyOrRun (prev e) (BinaryPath e)) in
          let! _ := ignored_ (systemctl [str "restart"; EUnit e]) in
          ret (Err (IWrap (str "restart") x))
      end
    else done_.
End actions.

(** ** migrate.go: the write path *)
Record LegacyExtract := {
  Domain : bytes; RemoteDNS : bytes; LocalDNS : bytes; CurrentExit : bytes; LRules : bytes; LExits : list bytes;
  PolicyMap : bytes; TGToken : bytes; TGAdminIDs : bytes; IOSProfileUUID : bytes
}.

(** [strings.FieldsFunc] at the separators of the lists of the legacy files. *)
Definition list_seps : bytes := str ",; " ++ [Byte.x09; Byte.x0a; Byte.x0d].
Definition list_fields (s : bytes) : list bytes := FieldsFunc (one_of list_seps) s.

(** [normalizeAdminIDs], field by field. *)
Fixpoint admin_ids (fields : list bytes) (seen : gset Z) : list bytes * Z :=
  match fields with
  | [] => ([], 0)
  | f :: fields =>
      match Atoi f with
      | Some id =>
          if (id =? 0) || bool_decide (id ∈ seen) then let '(v, n) := admin_ids fields seen in (v, n + 1)
          else let '(v, n) := admin_ids fields ({[id]} ∪ seen) in (strconv_Itoa id :: v, n)
      | None => let '(v, n) := admin_ids fields seen in (v, n + 1)
      end
  end.

(** [strings.Join] with a separator of several bytes. *)
Fixpoint join_with (sep : bytes) (l : list bytes) : bytes :=
  match l with [] => [] | [x] => x | x :: l => x ++ sep ++ join_with sep l end.

Definition normalizeAdminIDs (raw : bytes) : bytes * Z :=
  let '(valid, rejected) := admin_ids (list_fields raw) ∅ in (join_with (str ", ") valid, rejected).

(** [legacyDNSUpstreams]. *)
Fixpoint dedup (l : list bytes) (seen : gset bytes) : list bytes :=
  match l with
  | [] => []
  | x :: l => if bool_decide (x ∈ seen) then dedup l seen else x :: dedup l ({[x]} ∪ seen)
  end.
Definition legacyDNSUpstreams (values : list bytes) : list bytes := dedup (concat (map list_fields values)) ∅.

Section migrate.
Context `{Unicode}.

Definition unsupportedMigrationFields (e : LegacyExtract) : list bytes :=
  let current := TrimSpace (ToLower (CurrentExit e)) in
  (if TrimSpace (LRules e) != [] then [str "rules"] else []) ++
  (if TrimSpace (PolicyMap e) != [] then [str "policy map"] else []) ++
  (if 0 <? len (LExits e) then [str "exits"] else []) ++
  (if (current != []) && (current != str "local") && (current != str "direct") then [str "active exit"] else []) ++
  (if (TGToken e != []) && ((normalizeAdminIDs (TGAdminIDs e)).1 == []) then [str "Telegram token without a valid admin ID"] else []).

Record MigratePlan := { Extract : LegacyExtract; NewConfigYAML : bytes }.
Record MigrateOptions := { MForce : bool; AllowPartial : bool }.

Definition Migrate {W} `{Executor W} (linux : bool) (e : Env) (plan : MigratePlan) (o : MigrateOptions) : ST W (res IErr unit) :=
  let fields := unsupportedMigrationFields (Extract plan) in
  if (0 <? len fields) && negb (AllowPartial o) then
    ret (Err (IText (str "installer: refusing partial legacy migration; unsupported state present: " ++ join_with (str ", ") fields ++
                   str " (pass --allow-partial to migrate only domain, DNS, Telegram and iOS settings)")))
  else
    let? _ := ensureUser linux e in
    let? _ := ensureDirs e in
    let! there := Exists (ConfigPath e) in
    if there && negb (MForce o) then ret (Err (IText (str "installer: " ++ ConfigPath e ++ str " exists (pass --force to overwrite)")))
    else
      let? _ := WriteFile (ConfigPath e) (NewConfigYAML plan) (octal 6 4 0) in
      let? _ := finalizeConfigOwnership e in
      finalizeStatePermissions e.

(** [readEnvFile], from the content of the file; a later line wins. *)
Definition env_line (line : bytes) : option (bytes * bytes) :=
  let line := TrimSpace line in
  if (line == []) || HasPrefix line (str "#") then None
  else match IndexByte line Byte.x3d with
       | Some (S i) =>
           let quote := [Byte.x22] in
           Some (TrimSpace (take (S i) line), TrimSuffix (TrimPrefix (TrimSpace (drop (S (S i)) line)) quote) quote)
       | _ => None
       end.
Definition env_insert (m : gmap bytes bytes) (kv : bytes * bytes) : gmap bytes bytes := <[kv.1 := kv.2]> m.
Definition readEnvFile (content : bytes) : gmap bytes bytes :=
  foldl env_insert ∅ (omap env_line (Split content Byte.x0a)).
End migrate.

(** ** osdetect.go *)
Inductive Family := FamilyDebian | FamilyRHEL | FamilyFedora | FamilyUnknown.

Definition family_of (id : bytes) : option Family :=
  if bool_decide (id ∈ [str "ubuntu"; str "debian"]) then Some FamilyDebian
  else if bool_decide (id ∈ [str "centos"; str "almalinux"; str "rocky"; str "rockylinux"; str "rhel"; str "ol"; str "oraclelinux"]) then Some FamilyRHEL
  else if id == str "fedora" then Some FamilyFedora else None.
Definition family_like (like : bytes) : option Family :=
  if like == str "debian" then Some FamilyDebian
  else if bool_decide (like ∈ [str "rhel"; str "centos"]) then Some FamilyRHEL
  else if like == str "fedora" then Some FamilyFedora else None.
Definition distro_family (id : bytes) (id_like : list bytes) : Family :=
  match family_of id with
  | Some f => f
  | None => default FamilyUnknown (head (omap family_like id_like))
  end.

(** ** recorder.go *)
Inductive Op :=
| ORun (argv : list bytes) | OWrite (path : bytes) (mode size : Z) | OMkdir (path : bytes) (mode : Z)
| ORemove (path : bytes) | OChown (path who : bytes) | OChmod (path : bytes) (mode : Z).

Record Recorder := {
  Ops : list Op; r_Files : gmap bytes bytes; r_Dirs : gset bytes; r_Owners : gmap bytes bytes; r_Modes : gmap bytes Z;
  Existing : gset bytes; Apply : bool; Failures : gset bytes;
  host_files : gmap bytes bytes        (* what os.ReadFile reads, past the recorder *)
}.

Definition NewRecorder (host : gmap bytes bytes) : Recorder :=
  {| Ops := []; r_Files := ∅; r_Dirs := ∅; r_Owners := ∅; r_Modes := ∅; Existing := ∅; Apply := false; Failures := ∅; host_files := host |}.

Definition who (user group : bytes) : bytes := user ++ str ":" ++ group.

(** [record], the mirror when [Apply] is set, and [fail]. *)
Definition recorded (op : Op) (mirror : Recorder -> Recorder) (key path : bytes) : ST Recorder (res IErr unit) := fun r =>
  let r := {| Ops := Ops r ++ [op]; r_Files := r_Files r; r_Dirs := r_Dirs r; r_Owners := r_Owners r; r_Modes := r_Modes r;
              Existing := Existing r; Apply := Apply r; Failures := Failures r; host_files := host_files r |} in
  let r := if Apply r then mirror r else r in
  (if bool_decide (key ++ path ∈ Failures r) then Err (IOp key path) else Ok tt, r).

Definition rec_set (files : gmap bytes bytes) (dirs : gset bytes) (owners : gmap bytes bytes) (modes : gmap bytes Z) (ex : gset bytes) (r : Recorder) : Recorder :=
  {| Ops := Ops r; r_Files := files; r_Dirs := dirs; r_Owners := owners; r_Modes := modes;
     Existing := ex; Apply := Apply r; Failures := Failures r; host_files := host_files r |}.

#[export] Instance RecordingExecutor : Executor Recorder := {|
  Run argv := recorded (ORun argv) id (str "run:") (default [] (head argv));
  WriteFile path data mode := recorded (OWrite path mode (len data))
    (fun r => rec_set (<[path := data]> (r_Files r)) (r_Dirs r) (r_Owners r) (r_Modes r) ({[path]} ∪ Existing r) r) (str "write:") path;
  MkdirAll path mode := recorded (OMkdir path mode)
    (fun r => rec_set (r_Files r) ({[path]} ∪ r_Dirs r) (r_Owners r) (r_Modes r) ({[path]} ∪ Existing r) r) (str "mkdir:") path;
  Remove path := recorded (ORemove path)
    (fun r => rec_set (delete path (r_Files r)) (r_Dirs r ∖ {[path]}) (r_Owners r) (r_Modes r) (Existing r ∖ {[path]}) r) (str "remove:") path;
  Chown path user group := recorded (OChown path (who user group))
    (fun r => rec_set (r_Files r) (r_Dirs r) (<[path := who user group]> (r_Owners r)) (r_Modes r) (Existing r) r) (str "chown:") path;
  Chmod path mode := recorded (OChmod path mode)
    (fun r => rec_set (r_Files r) (r_Dirs r) (r_Owners r) (<[path := mode]> (r_Modes r)) (Existing r) r) (str "chmod:") path;
  Exists path := gets (fun r => bool_decide (path ∈ Existing r));
  ReadFile path := gets (fun r => match host_files r !! path with Some b => Ok b | None => Err (IOp (str "read:") path) end)
|}.

(** ** The host: env.go's [RealExecutor] *)
Record Node := { n_Dir : bool; n_Body : bytes; n_Mode : Z; n_Owner : bytes }.
Abbreviation Tree := (gmap bytes Node).

(** The next system call that changes the tree works, is refused, or stops
    in the middle: after [n] bytes or entries. *)
Inductive Outcome := Works | Refused | Torn (n : nat).

Record Sys := {
  nodes : Tree; outs : list Outcome; exit_ok : list bool;
  stats : list bool;                   (* stat works although the file is there *)
  did : list Op                        (* history *)
}.
Definition set_nodes (t : Tree) (s : Sys) : Sys := {| nodes := t; outs := outs s; exit_ok := exit_ok s; stats := stats s; did := did s |}.

(** [q] is [p] or below it. *)
Definition under (p q : bytes) : bool := (q == p) || HasPrefix q (p ++ [slash]).

(** The entries a recursive call goes through first. *)
Definition some_under (p : bytes) (n : nat) (t : Tree) : gset bytes :=
  list_to_set (take n (filter (fun q => under p q = true) (map_to_list t).*1)).

Section real.
Context (linux : bool) (umask : Z).

Definition put_file (path body : bytes) (mode : Z) (t : Tree) : Tree :=
  <[path := match t !! path with
            | Some f => {| n_Dir := n_Dir f; n_Body := body; n_Mode := n_Mode f; n_Owner := n_Owner f |}
            | None => {| n_Dir := false; n_Body := body; n_Mode := Z.land mode (Z.lnot umask); n_Owner := who (str "root") (str "root") |}
            end]> t.

(** [MkdirAll]: the directories on the way to [p], and [p]. *)
Definition way (p : bytes) : list bytes :=
  map (fun i => take i p) (filter (fun i => (0 < i)%nat /\ p !! i = Some slash) (seq 0 (length p))) ++ [p].
Definition put_dir (mode : Z) (t : Tree) (p : bytes) : Tree :=
  match t !! p with
  | Some _ => t
  | None => <[p := {| n_Dir := true; n_Body := []; n_Mode := Z.land mode (Z.lnot umask); n_Owner := who (str "root") (str "root") |}]> t
  end.
Definition is_file (t : Tree) (p : bytes) : bool := match t !! p with Some n => negb (n_Dir n) | None => false end.

Definition chmod_node (path : bytes) (mode : Z) (t : Tree) : Tree :=
  alter (fun n => {| n_Dir := n_Dir n; n_Body := n_Body n; n_Mode := mode; n_Owner := n_Owner n |}) path t.
Definition chown_where (P : bytes -> bool) (w : bytes) (t : Tree) : Tree :=
  map_imap (fun q n => Some (if P q then {| n_Dir := n_Dir n; n_Body := n_Body n; n_Mode := n_Mode n; n_Owner := w |} else n)) t.

(** A call that is logged, has an outcome, and a change for it: [change None]
    is the whole change, [change (Some n)] what a torn call leaves. *)
Definition call (op : Op) (e : IErr) (possible : Tree -> bool) (change : option nat -> Tree -> Tree) : ST Sys (res IErr unit) := fun s =>
  let '(o, l) := match outs s with o :: l => (o, l) | [] => (Works, []) end in
  let s := {| nodes := nodes s; outs := l; exit_ok := exit_ok s; stats := stats s; did := did s ++ [op] |} in
  if negb (possible (nodes s)) then (Err e, s)
  else match o with
       | Works => (Ok tt, set_nodes (change None (nodes s)) s)
       | Refused => (Err e, s)
       | Torn n => (Err e, set_nodes (change (Some n) (nodes s)) s)
       end.

Definition cut (n : option nat) {A} (l : list A) : list A := match n with None => l | Some n => take n l end.

#[export] Instance RealExecutor : Executor Sys := {|
  Run argv := fun s =>
    let '(ok, l) := match exit_ok s with b :: l => (b, l) | [] => (true, []) end in
    (if ok then Ok tt else Err (IOp (str "run:") (default [] (head argv))),
     {| nodes := nodes s; outs := outs s; exit_ok := l; stats := stats s; did := did s ++ [ORun argv] |});
  WriteFile path data mode := call (OWrite path mode (len data)) (IOp (str "write:") path)
    (fun t => match t !! path with Some n => negb (n_Dir n) | None => true end)
    (fun n => put_file path (cut n data) mode);
  MkdirAll path mode := call (OMkdir path mode) (IOp (str "mkdir:") path)
    (fun t => forallb (fun p => negb (is_file t p)) (way path))
    (fun n t => foldl (put_dir mode) t (cut n (way path)));
  Remove path := call (ORemove path) (IOp (str "remove:") path) (fun _ => true)
    (fun n t => match n with
                | None => filter (fun '(q, _) => under path q = false) t
                | Some n => filter (fun '(q, _) => q ∉ some_under path n t) t
                end);
  Chown path user group :=
    if negb linux then fun s => (Ok tt, {| nodes := nodes s; outs := outs s; exit_ok := exit_ok s; stats := stats s; did := did s ++ [OChown path (who user group)] |})
    else call (OChown path (who user group)) (IOp (str "chown:") path)
      (fun t => bool_decide (is_Some (t !! path)))
      (fun n t => chown_where (fun q => match n with None => under path q | Some n => bool_decide (q ∈ some_under path n t) end) (who user group) t);
  Chmod path mode := call (OChmod path mode) (IOp (str "chmod:") path)
    (fun t => bool_decide (is_Some (t !! path)))
    (fun n t => match n with None => chmod_node path mode t | Some _ => t end);
  Exists path := fun s =>
    let '(b, l) := match stats s with b :: l => (b, l) | [] => (true, []) end in
    (b && bool_decide (is_Some (nodes s !! path)),
     {| nodes := nodes s; outs := outs s; exit_ok := exit_ok s; stats := l; did := did s |});
  ReadFile path := gets (fun s => match nodes s !! path with
                                  | Some n => if n_Dir n then Err (IOp (str "read:") path) else Ok (n_Body n)
                                  | None => Err (IOp (str "read:") path)
                                  end)
|}.
End real.

(** ** Lemmas: paths and trees *)
Lemma under_refl p : under p p = true.
Proof. unfold under. by rewrite bool_decide_true. Qed.

Lemma under_spec p q : under p q = true <-> exists k, q = p ++ k /\ (k = [] \/ exists k', k = slash :: k').
Proof.
  unfold under. rewrite orb_true_iff, bool_decide_eq_true, HasPrefix_spec. split.
  - intros [->|[k ->]]; [exists []; split; [by rewrite app_nil_r|by left]|]. exists (slash :: k). rewrite <- app_assoc. split; [done|right; by exists k].
  - intros (k & -> & [->|[k' ->]]); [left; by rewrite app_nil_r|right; exists k'; by rewrite <- app_assoc].
Qed.

Lemma under_trans p q r : under p q = true -> under q r = true -> under p r = true.
Proof.
  rewrite !under_spec. intros (k & -> & Hk) (l & -> & Hl). exists (k ++ l). split; [by rewrite app_assoc|].
  destruct Hk as [->|[k' ->]]; [exact Hl|right; by exists (k' ++ l)].
Qed.

Lemma under_Join2 d n : under d (Join2 d n) = true.
Proof. apply under_spec. exists (slash :: n). split; [done|right; by exists n]. Qed.

Lemma under_length p q : under p q = true -> (length p <= length q)%nat.
Proof. intros (k & -> & _)%under_spec. rewrite length_app. lia. Qed.

Lemma way_under p q : q ∈ way p -> under q p = true.
Proof.
  unfold way. rewrite elem_of_app, list_elem_of_singleton. intros [Hq| ->]; [|apply under_refl].
  apply list_elem_of_In, in_map_iff in Hq as (i & <- & Hi). apply list_elem_of_In, list_elem_of_filter in Hi as [[_ Hi] _].
  apply under_spec. exists (drop i p). split; [by rewrite take_drop|]. right. exists (drop (S i) p). by apply drop_S.
Qed.

Lemma way_self p : p ∈ way p.
Proof. unfold way. apply elem_of_app. right. by left. Qed.

Lemma put_dirs_lookup umask mode l t q :
  foldl (put_dir umask mode) t l !! q =
  match t !! q with
  | Some n => Some n
  | None => if bool_decide (q ∈ l) then Some {| n_Dir := true; n_Body := []; n_Mode := Z.land mode (Z.lnot umask); n_Owner := who (str "root") (str "root") |} else None
  end.
Proof.
  revert t. induction l as [|p l IH]; intros t; cbn [foldl].
  - destruct (t !! q); [done|]. rewrite bool_decide_false; [done|]. apply not_elem_of_nil.
  - rewrite IH. unfold put_dir. destruct (t !! p) as [n|] eqn:E.
    + destruct (t !! q) eqn:E2; [done|]. assert (q <> p) as Hqp by congruence.
      rewrite (bool_decide_ext (q ∈ p :: l) (q ∈ l)); [done|]. rewrite elem_of_cons. tauto.
    + destruct (decide (q = p)) as [->|Hqp].
      * rewrite lookup_insert_eq, E, bool_decide_true; [done|]. left.
      * rewrite lookup_insert_ne by done. destruct (t !! q); [done|].
        rewrite (bool_decide_ext (q ∈ p :: l) (q ∈ l)); [done|]. rewrite elem_of_cons. tauto.
Qed.

Lemma chown_where_lookup P w t q :
  chown_where P w t !! q = (fun n => if P q then {| n_Dir := n_Dir n; n_Body := n_Body n; n_Mode := n_Mode n; n_Owner := w |} else n) <$> t !! q.
Proof. unfold chown_where. rewrite map_lookup_imap. by destruct (t !! q). Qed.

(** ** Triples over the host, for calls that succeed *)
Definition triple {A : Type} (P : Tree -> Prop) (m : ST Sys (res IErr A)) (Q : A -> Tree -> Prop) : Prop :=
  forall s, stats s = [] -> P (nodes s) ->
    wp m (fun r s' => stats s' = [] /\ match r with Ok a => Q a (nodes s') | Err _ => True end) s.

Section triples.
Context (linux : bool) (umask : Z).
#[local] Existing Instance RealExecutor.
Abbreviation exec := (RealExecutor linux umask).

Lemma t_ret {A : Type} (P : Tree -> Prop) (a : A) : triple P (ret (Ok a)) (fun _ => P).
Proof. intros s Hs HP. by apply wp_ret. Qed.

Lemma t_bind {A B : Type} P (m : ST Sys (res IErr A)) R (f : A -> ST Sys (res IErr B)) Q :
  triple P m R -> (forall a, triple (R a) (f a) Q) -> triple P (bindE m f) Q.
Proof.
  intros Hm Hf s Hs HP. unfold bindE. apply wp_bind. eapply wp_mono; [by apply Hm|]. intros [e|a] s' [Hs' HR]; [by apply wp_ret|]. by apply Hf.
Qed.

Lemma t_wrap {A : Type} P c (m : ST Sys (res IErr A)) Q : triple P m Q -> triple P (wrap c m) Q.
Proof. intros Hm s Hs HP. apply wp_bind. eapply wp_mono; [by apply Hm|]. intros [e|a] s' HQ; by apply wp_ret. Qed.

Lemma t_weaken {A : Type} (P P' : Tree -> Prop) (m : ST Sys (res IErr A)) (Q Q' : A -> Tree -> Prop) :
  triple P m Q -> (forall t, P' t -> P t) -> (forall a t, Q a t -> Q' a t) -> triple P' m Q'.
Proof. intros Hm HP HQ s Hs H'. eapply wp_mono; [by apply Hm, HP|]. intros [e|a] s' [? ?]; auto. Qed.

Lemma t_call op e possible change P :
  triple (fun t => possible t = true -> P (change None t)) (call op e possible change) (fun _ => P).
Proof.
  intros s Hs HP. unfold wp, call. destruct (match outs s with [] => _ | _ => _ end) as [o l]. cbn [nodes].
  destruct (possible (nodes s)) eqn:EP; cbn [negb]; [|done]. destruct o; [|done..]. split; [done|]. by apply HP.
Qed.

Lemma t_run argv P : triple P (Run (Executor := exec) argv) (fun _ => P).
Proof. intros s Hs HP. unfold wp. cbn. by destruct (exit_ok s) as [|[] l]. Qed.

Lemma t_ignored argv P {A : Type} (f : unit -> ST Sys (res IErr A)) Q : triple P (f tt) Q ->
  triple P (let! x := ignored_ (Run (Executor := exec) argv) in f x) Q.
Proof.
  intros Hf s Hs HP. apply wp_bind, wp_bind. eapply (wp_mono _ (fun _ s' => stats s' = [] /\ P (nodes s'))).
  - unfold wp. cbn. by destruct (exit_ok s) as [|[] l].
  - cbv beta. intros r s' [Hs' HR]. apply wp_ret. by apply Hf.
Qed.

Lemma t_exists p P {A : Type} (f : bool -> ST Sys (res IErr A)) Q :
  (forall b, triple (fun t => P t /\ b = bool_decide (is_Some (t !! p))) (f b) Q) ->
  triple P (let! b := Exists (Executor := exec) p in f b) Q.
Proof. intros Hf s Hs HP. apply wp_bind. unfold wp at 1. cbn. rewrite Hs. by apply Hf. Qed.

Lemma t_read p P : triple P (ReadFile (Executor := exec) p) (fun body t => P t /\ exists n, t !! p = Some n /\ n_Body n = body).
Proof.
  intros s Hs HP. unfold wp. cbn. destruct (nodes s !! p) as [n|] eqn:E; [|done]. destruct (n_Dir n); [done|]. split; [done|]. split; [done|]. by exists n.
Qed.

(** *** The calls *)
Lemma t_mkdir p mode P :
  triple (fun t => (forall q, q ∈ way p -> is_file t q = false) -> P (foldl (put_dir umask mode) t (way p))) (MkdirAll (Executor := exec) p mode) (fun _ => P).
Proof.
  eapply t_weaken; [apply t_call| |intros ? ? H; exact H]. cbv beta. intros t HP Hp. apply HP. intros q Hq.
  rewrite forallb_forall in Hp. specialize (Hp q (proj1 (list_elem_of_In _ _) Hq)). by apply negb_true_iff in Hp.
Qed.

Lemma t_write p data mode P :
  triple (fun t => P (put_file umask p data mode t)) (WriteFile (Executor := exec) p data mode) (fun _ => P).
Proof. eapply t_weaken; [apply t_call| |intros ? ? H; exact H]. cbv beta. intros t HP _. exact HP. Qed.

Lemma t_chmod p mode P :
  triple (fun t => is_Some (t !! p) -> P (chmod_node p mode t)) (Chmod (Executor := exec) p mode) (fun _ => P).
Proof. eapply t_weaken; [apply t_call| |intros ? ? H; exact H]. cbv beta. intros t HP Hp%bool_decide_eq_true. by apply HP. Qed.
End triples.

Lemma t_chown umask p u g P :
  triple (fun t => is_Some (t !! p) -> P (chown_where (under p) (who u g) t)) (Chown (Executor := RealExecutor true umask) p u g) (fun _ => P).
Proof. eapply t_weaken; [apply t_call| |intros ? ? H; exact H]. cbv beta. intros t HP Hp%bool_decide_eq_true. by apply HP. Qed.

(** ** What an install secures *)

(** The trees of the configuration and of the state are apart, and neither
    holds the binary or the unit. *)
Record layout (e : Env) : Prop := {
  l_config : under (ConfigDir e) (DataDir e) = false;
  l_data : under (DataDir e) (ConfigDir e) = false;
  l_out : forall d p, d = ConfigDir e \/ d = DataDir e -> p = UnitPath e \/ p = BinaryPath e -> under d p = false;
  l_unit : UnitPath e <> BinaryPath e
}.

(** The node at [p] is there and has [F]. *)
Definition at_ (p : bytes) (F : Node -> Prop) (t : Tree) : Prop := exists n, t !! p = Some n /\ F n.
Definition owned (d w : bytes) (t : Tree) : Prop := forall q n, under d q = true -> t !! q = Some n -> n_Owner n = w.

Section trees.
Context (umask : Z).

Lemma at_put_file q p body mode F t : q <> p -> at_ q F t -> at_ q F (put_file umask p body mode t).
Proof. intros Hq (n & Hn & HF). exists n. split; [|done]. unfold put_file. by rewrite lookup_insert_ne. Qed.
Lemma at_put_dirs q mode l F t : at_ q F t -> at_ q F (foldl (put_dir umask mode) t l).
Proof. intros (n & Hn & HF). exists n. split; [|done]. by rewrite put_dirs_lookup, Hn. Qed.
Lemma at_chmod_ne q p mode F t : q <> p -> at_ q F t -> at_ q F (chmod_node p mode t).
Proof. intros Hq (n & Hn & HF). exists n. split; [|done]. unfold chmod_node. by rewrite lookup_alter_ne. Qed.
Lemma at_chown_out q P w F t : P q = false -> at_ q F t -> at_ q F (chown_where P w t).
Proof. intros HP (n & Hn & HF). exists n. rewrite chown_where_lookup, Hn, HP. done. Qed.

(** What survives a change of mode, or of owner. *)
Definition mode_free (F : Node -> Prop) : Prop := forall n m, F n -> F {| n_Dir := n_Dir n; n_Body := n_Body n; n_Mode := m; n_Owner := n_Owner n |}.
Definition owner_free (F : Node -> Prop) : Prop := forall n o, F n -> F {| n_Dir := n_Dir n; n_Body := n_Body n; n_Mode := n_Mode n; n_Owner := o |}.

Lemma at_chmod p mode F t : mode_free F -> at_ p F t -> at_ p (fun n => n_Mode n = mode /\ F n) (chmod_node p mode t).
Proof.
  intros HS (n & Hn & HF). unfold chmod_node, at_. rewrite lookup_alter_eq, Hn. eexists. split; [reflexivity|]. split; [done|by apply HS].
Qed.
Lemma at_chmod_free q p mode F t : mode_free F -> at_ q F t -> at_ q F (chmod_node p mode t).
Proof.
  intros HS Ht. destruct (decide (q = p)) as [->|Hqp]; [|by apply at_chmod_ne].
  destruct (at_chmod p mode F t HS Ht) as (n & Hn & _ & HF). by exists n.
Qed.
Lemma at_chown q P w F t : owner_free F -> P q = true -> at_ q F t -> at_ q (fun n => n_Owner n = w /\ F n) (chown_where P w t).
Proof.
  intros HS HP (n & Hn & HF). unfold at_. rewrite chown_where_lookup, Hn, HP. eexists. split; [reflexivity|]. split; [done|by apply HS].
Qed.
Lemma at_chown_free q P w F t : owner_free F -> at_ q F t -> at_ q F (chown_where P w t).
Proof.
  intros HS Ht. destruct (P q) eqn:E; [|by apply at_chown_out]. destruct (at_chown q P w F t HS E Ht) as (n & Hn & _ & HF). by exists n.
Qed.

Lemma owned_put_file d w p body mode t : under d p = false -> owned d w t -> owned d w (put_file umask p body mode t).
Proof.
  intros Hp Ho q n Hq. unfold put_file. assert (q <> p) by congruence. rewrite lookup_insert_ne by done. by apply Ho.
Qed.
Lemma owned_chmod d w p mode t : owned d w t -> owned d w (chmod_node p mode t).
Proof.
  intros Ho q n Hq. unfold chmod_node. destruct (decide (q = p)) as [->|Hqp]; [|rewrite lookup_alter_ne by done; by apply Ho].
  rewrite lookup_alter_eq. intros (m & Hm & ->)%fmap_Some. by apply (Ho p m).
Qed.
Lemma owned_chown d w t : owned d w (chown_where (under d) w t).
Proof. intros q n Hq. rewrite chown_where_lookup. intros (m & Hm & ->)%fmap_Some. by rewrite Hq. Qed.
Lemma owned_chown_out d w P w' t : (forall q, under d q = true -> P q = false) -> owned d w t -> owned d w (chown_where P w' t).
Proof. intros HP Ho q n Hq. rewrite chown_where_lookup. intros (m & Hm & ->)%fmap_Some. rewrite (HP q Hq). by apply (Ho q m). Qed.
End trees.

Section install.
Context (umask : Z) (RenderUnit : Env -> res IErr bytes) (DefaultConfigTemplate : bytes).
Context (e : Env) (HL : layout e) (o : InstallOptions) (t0 : Tree).
#[local] Existing Instance RealExecutor.
Abbreviation exec := (RealExecutor true umask).

(** The content the configuration has to have afterwards. *)
Definition wanted : bytes :=
  let new := default DefaultConfigTemplate (ConfigContent o) in
  match t0 !! ConfigPath e with Some n => if Force o then new else n_Body n | None => new end.

Definition daemon : bytes := who (EUser e) (EGroup e).
Definition installer_ : bytes := who (str "root") (EGroup e).

Definition dirs_made (t : Tree) : Prop :=
  at_ (ConfigDir e) (fun n => n_Dir n = true) t /\ at_ (DataDir e) (fun n => n_Dir n = true) t /\ owned (DataDir e) daemon t.
Definition config_is (t : Tree) : Prop := at_ (ConfigPath e) (fun n => n_Body n = wanted) t.

Lemma under_common p q r : under p r = true -> under q r = true -> under p q = true \/ under q p = true.
Proof.
  intros (k & Hk & Hks)%under_spec (l & Hl & Hls)%under_spec. rewrite !under_spec. rewrite Hk in Hl.
  apply app_eq_inv in Hl as [(m & -> & E)|(m & -> & E)].
  - right. exists m. split; [done|]. destruct m as [|b m]; [by left|]. right. destruct Hls as [->|[l' ->]]; [done|]. injection E as -> _. by exists m.
  - left. exists m. split; [done|]. destruct m as [|b m]; [by left|]. right. destruct Hks as [->|[k' ->]]; [done|]. injection E as -> _. by exists m.
Qed.

Lemma Join2_ne d n : Join2 d n <> d.
Proof. intros E. apply (f_equal length) in E. unfold Join2 in E. rewrite length_app in E. cbn in E. lia. Qed.

Lemma config_apart : under (DataDir e) (ConfigPath e) = false.
Proof.
  destruct (under (DataDir e) (ConfigPath e)) eqn:E; [|done]. exfalso. destruct HL as [L1 L2 _ _].
  destruct (under_common _ _ _ E (under_Join2 (ConfigDir e) (str "config.yaml"))); congruence.
Qed.

Lemma apart_ne p : under (ConfigDir e) p = false -> p <> ConfigPath e /\ p <> ConfigDir e.
Proof.
  intros Hp. split; intros ->; [|by rewrite under_refl in Hp]. unfold ConfigPath in Hp. by rewrite under_Join2 in Hp.
Qed.

Lemma state_ne name : Join2 (DataDir e) name <> ConfigPath e /\ Join2 (DataDir e) name <> ConfigDir e /\ Join2 (DataDir e) name <> DataDir e.
Proof.
  split_and!; [| |apply Join2_ne]; intros E; pose proof (under_Join2 (DataDir e) name) as HU; rewrite E in HU;
    [by rewrite config_apart in HU|by rewrite (l_data _ HL) in HU].
Qed.

Lemma out_ne p : p = UnitPath e \/ p = BinaryPath e ->
  p <> ConfigPath e /\ p <> ConfigDir e /\ p <> DataDir e /\ under (DataDir e) p = false /\ forall name, p <> Join2 (DataDir e) name.
Proof.
  intros Hp. pose proof (l_out _ HL (ConfigDir e) p (or_introl eq_refl) Hp) as H1. pose proof (l_out _ HL (DataDir e) p (or_intror eq_refl) Hp) as H2.
  apply apart_ne in H1 as [H3 H4]. split_and!; [done|done| |done|].
  - intros ->. by rewrite under_refl in H2.
  - intros name ->. by rewrite under_Join2 in H2.
Qed.

Lemma config_off_way d : d ∈ [BinDir e; ConfigDir e; DataDir e; UnitDir e] -> ConfigPath e ∉ way d.
Proof.
  intros Hd Hw%way_under.
  assert (under (ConfigDir e) d = true -> d = ConfigDir e) as HC.
  { pose proof (l_out _ HL (ConfigDir e)) as HO.
    rewrite !elem_of_cons in Hd. destruct Hd as [->|[->|[->|[->|Hd]]]]; [| | | |by apply not_elem_of_nil in Hd]; intros HU; [|done| |].
    - pose proof (HO (BinaryPath e) (or_introl eq_refl) (or_intror eq_refl)) as HF. unfold BinaryPath in HF. by rewrite (under_trans _ _ _ HU (under_Join2 _ _)) in HF.
    - by rewrite (l_config _ HL) in HU.
    - pose proof (HO (UnitPath e) (or_introl eq_refl) (or_introl eq_refl)) as HF. unfold UnitPath in HF. by rewrite (under_trans _ _ _ HU (under_Join2 _ _)) in HF. }
  pose proof (under_trans _ _ _ (under_Join2 (ConfigDir e) (str "config.yaml")) Hw) as HU. apply HC in HU as ->.
  apply under_length in Hw. unfold ConfigPath, Join2 in Hw. rewrite length_app in Hw. cbn in Hw. lia.
Qed.

(** *** The steps *)
Definition body_at (p : bytes) (t : Tree) : option bytes := n_Body <$> t !! p.
Lemma body_chmod q p mode t : body_at q (chmod_node p mode t) = body_at q t.
Proof.
  unfold body_at, chmod_node. destruct (decide (q = p)) as [->|H]; [|by rewrite lookup_alter_ne]. rewrite lookup_alter_eq. by destruct (t !! p).
Qed.
Lemma body_chown q P w t : body_at q (chown_where P w t) = body_at q t.
Proof. unfold body_at. rewrite chown_where_lookup. destruct (t !! q); [|done]. cbn. by destruct (P q). Qed.
Lemma body_put_dirs q mode l t : q ∉ l -> body_at q (foldl (put_dir umask mode) t l) = body_at q t.
Proof. intros Hq. unfold body_at. rewrite put_dirs_lookup, (bool_decide_false _ Hq). by destruct (t !! q). Qed.

Lemma made_dir p mode t : (forall q, q ∈ way p -> is_file t q = false) -> at_ p (fun n => n_Dir n = true) (foldl (put_dir umask mode) t (way p)).
Proof.
  intros Hw. unfold at_. rewrite put_dirs_lookup, (bool_decide_true _ (way_self p)). specialize (Hw p (way_self p)). unfold is_file in Hw.
  destruct (t !! p) as [n|]; [|by eexists]. exists n. split; [done|]. by apply negb_false_iff in Hw.
Qed.

Definition dirs_there (l : list bytes) (t : Tree) : Prop := Forall (fun d => at_ d (fun n => n_Dir n = true) t) l.
Lemma dir_free : mode_free (fun n => n_Dir n = true) /\ owner_free (fun n => n_Dir n = true).
Proof. split; intros n x; done. Qed.

Lemma t_mkdirs l : forall made,
  (forall d m, (d, m) ∈ l -> ConfigPath e ∉ way d) ->
  triple (fun t => dirs_there made t /\ body_at (ConfigPath e) t = body_at (ConfigPath e) t0) (mkdirs (H := exec) l)
    (fun _ t => dirs_there (rev l.*1 ++ made) t /\ body_at (ConfigPath e) t = body_at (ConfigPath e) t0).
Proof.
  induction l as [|[d m] l IH]; intros made Hl; cbn [mkdirs fmap list_fmap rev]; [apply t_ret|].
  eapply (t_bind _ _ (fun _ t => dirs_there (d :: made) t /\ body_at (ConfigPath e) t = body_at (ConfigPath e) t0)).
  - apply t_wrap. eapply t_weaken; [apply t_mkdir| |intros ? ? H; exact H]. cbv beta. intros t [Hm Hb] Hw. split.
    + constructor; [by apply made_dir|]. eapply Forall_impl; [exact Hm|]. cbv beta. intros x. apply at_put_dirs.
    + rewrite body_put_dirs; [done|]. apply (Hl d m). left.
  - intros []. rewrite <- app_assoc. apply (IH (d :: made)). intros x y Hx. apply (Hl x y). by right.
Qed.

Lemma t_ensureDirs :
  triple (fun t => t = t0) (ensureDirs (H := exec) e) (fun _ t => dirs_made t /\ body_at (ConfigPath e) t = body_at (ConfigPath e) t0).
Proof.
  unfold ensureDirs. destruct dir_free as [HM HO].
  eapply (t_bind _ _ (fun _ t => (at_ (ConfigDir e) (fun n => n_Dir n = true) t /\ at_ (DataDir e) (fun n => n_Dir n = true) t) /\ body_at (ConfigPath e) t = body_at (ConfigPath e) t0)).
  { eapply t_weaken; [apply (t_mkdirs _ [])| |].
    - intros d m Hd. apply config_off_way. apply (list_elem_of_fmap_2 fst) in Hd. exact Hd.
    - intros t ->. split; [constructor|done].
    - cbv beta. intros [] t [Hd Hb]. split; [|done]. unfold dirs_there in Hd. rewrite Forall_forall in Hd. split; apply Hd; set_solver. }
  set (B := fun t : Tree => (at_ (ConfigDir e) (fun n => n_Dir n = true) t /\ at_ (DataDir e) (fun n => n_Dir n = true) t) /\ body_at (ConfigPath e) t = body_at (ConfigPath e) t0).
  assert (forall p mode t, B t -> B (chmod_node p mode t)) as HBm.
  { intros p mode t [[H1 H2] H3]. split; [split; by apply at_chmod_free|by rewrite body_chmod]. }
  assert (forall P w t, B t -> B (chown_where P w t)) as HBo.
  { intros P w t [[H1 H2] H3]. split; [split; by apply at_chown_free|by rewrite body_chown]. }
  assert (forall c p mode, triple B (wrap c (Chmod (Executor := exec) p mode)) (fun _ => B)) as HC.
  { intros c p mode. apply t_wrap. eapply t_weaken; [apply t_chmod| |intros ? ? H; exact H]. cbv beta. intros t HB _. by apply HBm. }
  intros []. eapply t_bind; [apply HC|]. intros []. eapply t_bind; [apply HC|]. intros [].
  eapply (t_bind _ _ (fun _ t => B t /\ owned (DataDir e) daemon t)).
  { apply t_wrap. eapply t_weaken; [apply t_chown| |intros ? ? H; exact H]. cbv beta. intros t HB _. split; [by apply HBo|apply owned_chown]. }
  intros []. apply t_wrap. eapply t_weaken; [apply t_chown| |intros ? ? H; exact H]. cbv beta. intros t [HB Ho] _.
  apply (HBo (under (ConfigDir e)) (who (str "root") (EGroup e))) in HB as [[H1 H2] H3]. split; [|done]. split; [done|]. split; [done|].
  apply owned_chown_out; [|done]. intros q Hq. destruct (under (ConfigDir e) q) eqn:E; [|done]. exfalso. destruct HL as [L1 L2 _ _].
  destruct (under_common _ _ _ Hq E); congruence.
Qed.

Lemma dirs_put_file p body mode t : under (DataDir e) p = false -> p <> ConfigDir e -> dirs_made t -> dirs_made (put_file umask p body mode t).
Proof.
  intros Hp Hc (H1 & H2 & H3). split; [by apply at_put_file|]. split; [|by apply owned_put_file].
  apply at_put_file; [|done]. intros <-. by rewrite under_refl in Hp.
Qed.

Lemma put_file_at p body mode t : at_ p (fun n => n_Body n = body) (put_file umask p body mode t).
Proof. unfold at_, put_file. rewrite lookup_insert_eq. eexists. split; [reflexivity|]. by destruct (t !! p). Qed.

Lemma t_ensureConfig :
  triple (fun t => dirs_made t /\ body_at (ConfigPath e) t = body_at (ConfigPath e) t0) (ensureConfig (H := exec) DefaultConfigTemplate e o)
    (fun _ t => dirs_made t /\ config_is t).
Proof.
  apply t_exists. intros there. destruct (there && negb (Force o)) eqn:E.
  - apply andb_true_iff in E as [-> E%negb_true_iff]. eapply t_weaken; [apply t_ret| |intros ? ? H; exact H]. cbv beta.
    intros t [[Hd Hb] Ht]. symmetry in Ht. apply bool_decide_eq_true in Ht as [n Hn]. split; [done|]. exists n. split; [done|].
    unfold body_at in Hb. rewrite Hn in Hb. unfold wanted. rewrite E. destruct (t0 !! ConfigPath e) as [n0|]; [|done]. by injection Hb.
  - eapply t_weaken; [apply t_write| |intros ? ? H; exact H]. cbv beta. intros t [[Hd Hb] Ht]. split.
    + apply dirs_put_file; [apply config_apart|apply Join2_ne|done].
    + unfold config_is. assert (wanted = default DefaultConfigTemplate (ConfigContent o)) as ->; [|apply put_file_at].
      unfold wanted. unfold body_at in Hb. destruct (t0 !! ConfigPath e) as [n0|] eqn:E0; [|done].
      destruct (t !! ConfigPath e) as [n|] eqn:E1; [|done]. rewrite Ht, bool_decide_true in E by (by eexists). by destruct (Force o).
Qed.

Lemma t_ensureBinary :
  triple (fun t => dirs_made t /\ config_is t) (ensureBinary (H := exec) e (SourceBinary o)) (fun _ t => dirs_made t /\ config_is t).
Proof.
  destruct (out_ne (BinaryPath e) (or_intror eq_refl)) as (N1 & N2 & N3 & N4 & N5).
  unfold ensureBinary. destruct (SourceBinary o == []); [apply t_ret|].
  eapply (t_bind _ _ (fun _ t => dirs_made t /\ config_is t)).
  { apply t_wrap. eapply t_weaken; [apply (t_read true umask (SourceBinary o) (fun t => dirs_made t /\ config_is t))|done|]. by intros a t [? _]. }
  intros body. eapply t_weaken; [apply t_write| |intros ? ? H; exact H]. cbv beta. intros t [Hd Hc].
  split; [by apply dirs_put_file|]. by apply at_put_file.
Qed.

(** The configuration belongs to the installer, readable by the daemon's
    group; the state is private to the daemon. *)
Definition config_secured (t : Tree) : Prop :=
  at_ (ConfigDir e) (fun n => n_Mode n = octal 7 5 0 /\ n_Owner n = installer_ /\ n_Dir n = true) t /\
  at_ (ConfigPath e) (fun n => n_Mode n = octal 6 4 0 /\ n_Owner n = installer_ /\ n_Body n = wanted) t.
Definition private (names : list bytes) (t : Tree) : Prop :=
  forall name n, name ∈ names -> t !! Join2 (DataDir e) name = Some n -> n_Mode n = octal 6 0 0.
Definition secured (names : list bytes) (t : Tree) : Prop :=
  config_secured t /\ private names t /\ owned (DataDir e) daemon t /\
  at_ (DataDir e) (fun n => n_Mode n = octal 7 0 0 /\ n_Dir n = true) t.

Lemma t_finalizeConfig :
  triple (fun t => dirs_made t /\ config_is t) (finalizeConfigOwnership (H := exec) e) (fun _ t => dirs_made t /\ config_secured t).
Proof.
  assert (under (ConfigDir e) (ConfigPath e) = true) as HU by apply under_Join2.
  eapply (t_bind _ _ (fun _ t => dirs_made t /\ at_ (ConfigDir e) (fun n => n_Owner n = installer_ /\ n_Dir n = true) t /\
    at_ (ConfigPath e) (fun n => n_Owner n = installer_ /\ n_Body n = wanted) t)).
  { apply t_wrap. eapply t_weaken; [apply t_chown| |intros ? ? H; exact H]. cbv beta. intros t [(H1 & H2 & H3) Hc] _. refine (conj _ (conj _ _)).
    - split; [apply at_chown_free; [by intros ? ? ?|done]|]. split; [apply at_chown_free; [by intros ? ? ?|done]|]. apply owned_chown_out; [|done].
      intros q Hq. destruct (under (ConfigDir e) q) eqn:E; [|done]. exfalso. destruct HL as [L1 L2 _ _]. destruct (under_common _ _ _ Hq E); congruence.
    - apply at_chown; [by intros ? ? ?|apply under_refl|done].
    - apply at_chown; [by intros ? ? ?|exact HU|done]. }
  intros []. eapply (t_bind _ _ (fun _ t => dirs_made t /\ at_ (ConfigDir e) (fun n => n_Mode n = octal 7 5 0 /\ n_Owner n = installer_ /\ n_Dir n = true) t /\
    at_ (ConfigPath e) (fun n => n_Owner n = installer_ /\ n_Body n = wanted) t)).
  { apply t_wrap. eapply t_weaken; [apply t_chmod| |intros ? ? H; exact H]. cbv beta. intros t ((H1 & H2 & H3) & Hd & Hc) _. refine (conj _ (conj _ _)).
    - split; [apply at_chmod_free; [by intros ? ? ?|done]|]. split; [apply at_chmod_free; [by intros ? ? ?|done]|by apply owned_chmod].
    - apply at_chmod; [by intros ? ? ?|done].
    - apply at_chmod_free; [by intros ? ? ?|done]. }
  intros []. apply t_exists. intros [].
  - apply t_wrap. eapply t_weaken; [apply t_chmod| |intros ? ? H; exact H]. cbv beta. intros t (((H1 & H2 & H3) & Hd & Hc) & _) _. refine (conj _ (conj _ _)).
    + split; [apply at_chmod_free; [by intros ? ? ?|done]|]. split; [apply at_chmod_free; [by intros ? ? ?|done]|by apply owned_chmod].
    + apply at_chmod_ne; [|done]. intros E. symmetry in E. by apply Join2_ne in E.
    + apply at_chmod; [by intros ? ? ?|done].
  - intros st _ [(_ & _ & (n & Hn & _)) Hb]. rewrite Hn in Hb. symmetry in Hb. apply bool_decide_eq_false in Hb. destruct Hb. by eexists.
Qed.

Lemma private_chmod names q p t : private names t -> (forall name, name ∈ names -> Join2 (DataDir e) name <> p) \/ q = octal 6 0 0 -> private names (chmod_node p q t).
Proof.
  intros HP Hq name n Hin. unfold chmod_node. destruct (decide (Join2 (DataDir e) name = p)) as [E|E].
  - rewrite E, lookup_alter_eq. intros (m & Hm & ->)%fmap_Some. destruct Hq as [Hq| ->]; [by apply Hq in Hin|done].
  - rewrite lookup_alter_ne by done. by apply HP.
Qed.

Lemma secured_chmod names name t : secured names t -> secured names (chmod_node (Join2 (DataDir e) name) (octal 6 0 0) t).
Proof.
  destruct (state_ne name) as (N1 & N2 & N3). intros ([H1 H2] & H3 & H4 & H5). split; [split; by apply at_chmod_ne|].
  split; [apply private_chmod; [done|by right]|]. split; [by apply owned_chmod|by apply at_chmod_ne].
Qed.

Lemma t_chmod_state names : forall done_names,
  triple (secured done_names) (chmod_state (H := exec) (DataDir e) names) (fun _ => secured (rev names ++ done_names)).
Proof.
  induction names as [|name names IH]; intros dn; cbn [chmod_state rev]; [apply t_ret|]. rewrite <- app_assoc. apply t_exists. intros [].
  - eapply (t_bind _ _ (fun _ => secured (name :: dn))); [|intros []; apply (IH (name :: dn))].
    apply t_wrap. eapply t_weaken; [apply t_chmod| |intros ? ? H; exact H]. cbv beta. intros t [Ht _] _.
    apply (secured_chmod _ name) in Ht as (H1 & H2 & H3 & H4). split; [done|]. split; [|done].
    intros x n [->|Hx]%elem_of_cons; [|by apply H2]. unfold chmod_node. rewrite lookup_alter_eq. by intros (m & _ & ->)%fmap_Some.
  - eapply t_weaken; [apply (IH (name :: dn))| |intros ? ? H; exact H]. cbv beta. intros t [(H1 & H2 & H3) Hb]. split; [done|]. split; [|done].
    intros x n [->|Hx]%elem_of_cons; [|by apply H2]. intros Hn. rewrite Hn, bool_decide_true in Hb; [done|by eexists].
Qed.

Lemma t_finalizeState :
  triple (fun t => dirs_made t /\ config_secured t) (finalizeStatePermissions (H := exec) e) (fun _ => secured state_names).
Proof.
  eapply (t_bind _ _ (fun _ => secured [])).
  - apply t_wrap. eapply t_weaken; [apply t_chmod| |intros ? ? H; exact H]. cbv beta. intros t [(H1 & H2 & H3) [H4 H5]] _.
    split; [split|]. { apply at_chmod_ne; [|done]. intros E. pose proof (l_config _ HL) as HF. by rewrite <- E, under_refl in HF. }
    { apply at_chmod_ne; [|done]. intros E. pose proof (l_config _ HL) as HF. rewrite <- E in HF. unfold ConfigPath in HF. by rewrite under_Join2 in HF. }
    split; [by intros ? ? ?%not_elem_of_nil|]. split; [by apply owned_chmod|apply at_chmod; [by intros ? ? ?|done]].
  - intros []. eapply t_weaken; [apply (t_chmod_state state_names [])|done|]. cbv beta. intros [] t (H1 & H2 & H3). split; [done|]. split; [|done].
    intros name n Hin. apply H2. rewrite app_nil_r. apply list_elem_of_In. rewrite <- in_rev. by apply list_elem_of_In.
Qed.

Lemma secured_put_unit body mode t : secured state_names t -> secured state_names (put_file umask (UnitPath e) body mode t).
Proof.
  destruct (out_ne (UnitPath e) (or_introl eq_refl)) as (N1 & N2 & N3 & N4 & N5). intros ([H1 H2] & H3 & H4 & H5).
  split; [split; by apply at_put_file|]. split; [|split; [by apply owned_put_file|by apply at_put_file]].
  intros name n Hin Hn. unfold put_file in Hn. rewrite lookup_insert_ne in Hn; [by apply (H3 name n)|]. apply N5.
Qed.

(** What holds after an install without an error. *)
Definition installed (t : Tree) : Prop :=
  secured state_names t /\ (SkipUnit o = false -> exists body, RenderUnit e = Ok body /\ at_ (UnitPath e) (fun n => n_Body n = body) t).

Lemma t_Install : triple (fun t => t = t0) (Install (H := exec) true RenderUnit DefaultConfigTemplate e o) (fun _ => installed).
Proof.
  unfold Install. eapply (t_bind _ _ (fun _ t => t = t0)); [apply t_ignored, t_ignored, t_ret|]. intros [].
  eapply t_bind; [apply t_ensureDirs|]. intros []. eapply t_bind; [apply t_ensureConfig|]. intros [].
  eapply t_bind; [apply t_ensureBinary|]. intros []. eapply t_bind; [apply t_finalizeConfig|]. intros [].
  eapply t_bind; [apply t_finalizeState|]. intros []. eapply (t_bind _ _ (fun _ => installed)).
  - destruct (SkipUnit o) eqn:ES.
    + eapply t_weaken; [apply t_ret| |intros ? ? H; exact H]. intros t Ht. split; [exact Ht|]. congruence.
    + unfold ensureUnit. destruct (RenderUnit e) as [x|body] eqn:ER; [by intros st Hs _; apply wp_ret|].
      eapply t_weaken; [apply t_write| |intros ? ? H; exact H]. cbv beta. intros t Ht. split; [by apply secured_put_unit|].
      intros _. exists body. split; [done|]. apply put_file_at.
  - intros []. destruct (SkipEnable o || SkipUnit o); [apply t_ret|].
    eapply t_bind; [apply t_run|]. intros []. eapply t_bind; [apply t_run|]. intros []. apply t_run.
Qed.
End install.

(** ** The recorder against the host *)

(** [m1] succeeds, with the same operations, whenever [m2] does. *)
Definition sim {A : Type} (R : Recorder -> Sys -> Prop) (m1 : ST Recorder (res IErr A)) (m2 : ST Sys (res IErr A)) (R' : Recorder -> Sys -> Prop) : Prop :=
  forall r s a s', R r s -> m2 s = (Ok a, s') -> exists r', m1 r = (Ok a, r') /\ R' r' s'.

Definition file_body (t : Tree) (p : bytes) : option bytes := t !! p ≫= fun n => if n_Dir n then None else Some (n_Body n).

(** The recorder mirrors the host at the paths asked about, and reads the
    same source file. *)
Record mirrors (asked : list bytes) (src : option bytes) (r : Recorder) (s : Sys) : Prop := {
  m_apply : Apply r = true;
  m_failures : Failures r = ∅;
  m_stats : stats s = [];
  m_ops : Ops r = did s;
  m_asked : forall p, p ∈ asked -> p ∈ Existing r <-> is_Some (nodes s !! p);
  m_src : forall p, src = Some p -> host_files r !! p = file_body (nodes s) p
}.

Section sim.
Context (umask : Z) (asked : list bytes).
Abbreviation rec := RecordingExecutor.
Abbreviation real := (RealExecutor true umask).

Lemma sim_ret {A : Type} R (a : A) : sim R (ret (Ok a)) (ret (Ok a)) R.
Proof. intros r s x s' HR [= <- <-]. by exists r. Qed.
Lemma sim_bind {A B : Type} R R1 R2 (m1 : ST Recorder (res IErr A)) m2 (f1 : A -> ST Recorder (res IErr B)) f2 :
  sim R m1 m2 R1 -> (forall a, sim R1 (f1 a) (f2 a) R2) -> sim R (bindE m1 f1) (bindE m2 f2) R2.
Proof.
  intros Hm Hf r s b s' HR E. unfold bindE, bind in *. destruct (m2 s) as [[e|a] s1] eqn:E2; [discriminate E|].
  destruct (Hm _ _ _ _ HR E2) as (r1 & -> & HR1). exact (Hf a _ _ _ _ HR1 E).
Qed.
Lemma sim_wrap {A : Type} R c (m1 : ST Recorder (res IErr A)) m2 R' : sim R m1 m2 R' -> sim R (wrap c m1) (wrap c m2) R'.
Proof.
  intros Hm r s a s' HR E. unfold wrap, bind, ret in *. destruct (m2 s) as [[e|x] s1] eqn:E2; [discriminate E|]. injection E as -> <-.
  destruct (Hm _ _ _ _ HR E2) as (r1 & -> & HR1). by exists r1.
Qed.
Lemma sim_exists {A : Type} src p (f1 : bool -> ST Recorder (res IErr A)) f2 R' :
  p ∈ asked -> (forall b, sim (mirrors asked src) (f1 b) (f2 b) R') ->
  sim (mirrors asked src) (bind (Exists (Executor := rec) p) f1) (bind (Exists (Executor := real) p) f2) R'.
Proof.
  intros Hp Hf r s a s' HR E. unfold bind in *. cbn in *. rewrite (m_stats _ _ _ _ HR) in E. unfold gets.
  assert (bool_decide (p ∈ Existing r) = bool_decide (is_Some (nodes s !! p))) as -> by (apply bool_decide_ext; by apply (m_asked _ _ _ _ HR)).
  eapply Hf; [|exact E]. destruct HR. by constructor.
Qed.
Lemma sim_read p :
  sim (mirrors asked (Some p)) (ReadFile (Executor := rec) p) (ReadFile (Executor := real) p) (mirrors asked None).
Proof.
  intros r s a s' HR E. cbn in *. unfold gets in *. exists r. rewrite (m_src _ _ _ _ HR p eq_refl). unfold file_body.
  destruct (nodes s !! p) as [n|]; [|discriminate E]. cbn. destruct (n_Dir n); [discriminate E|]. injection E as <- <-.
  split; [done|]. destruct HR. by constructor.
Qed.

Lemma mirror_run src argv r s l : mirrors asked src r s ->
  mirrors asked src (recorded (ORun argv) id (str "run:") (default [] (head argv)) r).2
    {| nodes := nodes s; outs := outs s; exit_ok := l; stats := stats s; did := did s ++ [ORun argv] |} /\
  (recorded (ORun argv) id (str "run:") (default [] (head argv)) r).1 = Ok tt.
Proof.
  intros [H1 H2 H3 H4 H5 H6]. unfold recorded. cbn. rewrite H1, H2, bool_decide_false by set_solver. split; [|done].
  constructor; cbn; try done. by rewrite H4.
Qed.
Lemma sim_run src argv : sim (mirrors asked src) (Run (Executor := rec) argv) (Run (Executor := real) argv) (mirrors asked src).
Proof.
  intros r s a s' HR E. cbn in E. destruct (match exit_ok s with [] => _ | _ => _ end) as [[] l]; [|discriminate E]. injection E as <- <-.
  destruct (mirror_run src argv r s l HR) as [H1 H2]. cbn. eexists. split; [|exact H1]. rewrite <- H2. apply surjective_pairing.
Qed.
Lemma sim_ignored {A : Type} src argv (f1 : unit -> ST Recorder (res IErr A)) f2 R' :
  sim (mirrors asked src) (f1 tt) (f2 tt) R' ->
  sim (mirrors asked src) (bind (ignored_ (Run (Executor := rec) argv)) f1) (bind (ignored_ (Run (Executor := real) argv)) f2) R'.
Proof.
  intros Hf r s a s' HR E. unfold ignored_, bind, ret in *. cbn in E. destruct (match exit_ok s with [] => _ | _ => _ end) as [ok l] eqn:EO.
  destruct (mirror_run src argv r s l HR) as [H1 H2]. cbn [Run rec].
  destruct (recorded _ _ _ _ r) as [x r1]. cbn in H1. eapply Hf; [exact H1|]. by destruct ok.
Qed.

Lemma sim_call (src : option bytes) (op : Op) (key path : bytes) (mirror : Recorder -> Recorder) (e : IErr) (possible : Tree -> bool)
    (change : option nat -> Tree -> Tree) (f : gset bytes -> gset bytes) :
  (forall r, Existing (mirror r) = f (Existing r) /\ host_files (mirror r) = host_files r /\ Apply (mirror r) = Apply r /\ Failures (mirror r) = Failures r /\ Ops (mirror r) = Ops r) ->
  (forall X t, possible t = true -> (forall p, p ∈ asked -> p ∈ X <-> is_Some (t !! p)) -> forall p, p ∈ asked -> p ∈ f X <-> is_Some (change None t !! p)) ->
  (forall t p, src = Some p -> possible t = true -> file_body (change None t) p = file_body t p) ->
  sim (mirrors asked src) (recorded op mirror key path) (call op e possible change) (mirrors asked src).
Proof.
  intros Hm HX Hsrc r s a s' [H1 H2 H3 H4 H5 H6] E. unfold call in E. destruct (match outs s with [] => _ | _ => _ end) as [o l]. cbn [nodes] in E.
  destruct (possible (nodes s)) eqn:EP; cbn [negb] in E; [|discriminate E]. destruct o; try discriminate E. injection E as <- <-.
  unfold recorded. cbn [Apply]. rewrite H1. set (r1 := {| Ops := _ |}). destruct (Hm r1) as (M1 & M2 & M3 & M4 & M5).
  rewrite M4. cbn [Failures r1]. rewrite H2, bool_decide_false by set_solver. eexists. split; [reflexivity|].
  constructor; cbn [nodes stats did set_nodes].
  - rewrite M3. done.
  - rewrite M4. done.
  - done.
  - rewrite M5. cbn. by rewrite H4.
  - rewrite M1. cbn. by apply HX.
  - intros p Hp. rewrite M2. cbn. rewrite (Hsrc (nodes s) p Hp EP). by apply H6.
Qed.
(** *** The calls *)
Lemma sim_write src p data mode : (forall q, src = Some q -> q <> p) ->
  sim (mirrors asked src) (WriteFile (Executor := rec) p data mode) (WriteFile (Executor := real) p data mode) (mirrors asked src).
Proof.
  intros Hs. apply (sim_call _ _ _ _ _ _ _ _ (fun X => {[p]} ∪ X)); [done| |].
  - intros X t _ HX q Hq. cbn [cut]. unfold put_file. rewrite elem_of_union, elem_of_singleton, (HX q Hq).
    destruct (decide (q = p)) as [->|Hqp]; [rewrite lookup_insert_eq|rewrite lookup_insert_ne by done; tauto].
    split; [by eexists|by left].
  - intros t q Hq _. specialize (Hs q Hq). unfold file_body, put_file. by rewrite lookup_insert_ne.
Qed.
Lemma sim_mkdir src p mode : (forall q, q ∈ asked -> q ∈ way p -> q = p) ->
  sim (mirrors asked src) (MkdirAll (Executor := rec) p mode) (MkdirAll (Executor := real) p mode) (mirrors asked src).
Proof.
  intros Hw. apply (sim_call _ _ _ _ _ _ _ _ (fun X => {[p]} ∪ X)); [done| |].
  - intros X t _ HX q Hq. cbn [cut]. rewrite put_dirs_lookup, elem_of_union, elem_of_singleton, (HX q Hq). destruct (t !! q) as [n|] eqn:E.
    + split; [by eexists|]. right. by eexists.
    + case_bool_decide as Hin; [split; [by eexists|left; by apply Hw]|]. split; [|by intros [? [=]]]. intros [->|[? [=]]]. destruct Hin. apply way_self.
  - intros t q _ _. cbn [cut]. unfold file_body. rewrite put_dirs_lookup. destruct (t !! q); [done|]. by case_bool_decide.
Qed.
Lemma sim_chmod src p mode :
  sim (mirrors asked src) (Chmod (Executor := rec) p mode) (Chmod (Executor := real) p mode) (mirrors asked src).
Proof.
  assert (forall t q, chmod_node p mode t !! q = (fun n => if bool_decide (q = p) then {| n_Dir := n_Dir n; n_Body := n_Body n; n_Mode := mode; n_Owner := n_Owner n |} else n) <$> t !! q) as HE.
  { intros t q. unfold chmod_node. case_bool_decide as E; [by rewrite E, lookup_alter_eq|]. rewrite lookup_alter_ne by done. by destruct (t !! q). }
  apply (sim_call _ _ _ _ _ _ _ _ id); [done| |].
  - intros X t _ HX q Hq. rewrite HE, fmap_is_Some. by apply HX.
  - intros t q _ _. unfold file_body. rewrite HE. destruct (t !! q) as [n|]; [|done]. cbn. by case_bool_decide.
Qed.
Lemma sim_chown src p u g :
  sim (mirrors asked src) (Chown (Executor := rec) p u g) (Chown (Executor := real) p u g) (mirrors asked src).
Proof.
  apply (sim_call _ _ _ _ _ _ _ _ id); [done| |].
  - intros X t _ HX q Hq. rewrite chown_where_lookup, fmap_is_Some. by apply HX.
  - intros t q _ _. unfold file_body. rewrite chown_where_lookup. destruct (t !! q) as [n|]; [|done]. cbn. by destruct (under p q).
Qed.

(** *** The steps of an install *)
Lemma sim_mkdirs src l : (forall d m q, (d, m) ∈ l -> q ∈ asked -> q ∈ way d -> q = d) ->
  sim (mirrors asked src) (mkdirs (H := rec) l) (mkdirs (H := real) l) (mirrors asked src).
Proof.
  induction l as [|[d m] l IH]; intros Hl; cbn [mkdirs]; [apply sim_ret|].
  eapply sim_bind; [apply sim_wrap, sim_mkdir; intros q; apply (Hl d m q); left|]. intros []. apply IH. intros d' m' q Hd. apply (Hl d' m' q). by right.
Qed.
Lemma sim_chmod_state src dir names : (forall n, n ∈ names -> Join2 dir n ∈ asked) ->
  sim (mirrors asked src) (chmod_state (H := rec) dir names) (chmod_state (H := real) dir names) (mirrors asked src).
Proof.
  induction names as [|n names IH]; intros Hn; cbn [chmod_state]; [apply sim_ret|].
  assert (sim (mirrors asked src) (chmod_state (H := rec) dir names) (chmod_state (H := real) dir names) (mirrors asked src)) as HI.
  { apply IH. intros x Hx. apply Hn. by right. }
  apply sim_exists; [apply Hn; left|]. intros []; [|exact HI]. eapply sim_bind; [apply sim_wrap, sim_chmod|]. intros []. exact HI.
Qed.
End sim.

Definition asked_paths (e : Env) : list bytes := ConfigPath e :: map (Join2 (DataDir e)) state_names.

Lemma state_off_way e d n : layout e -> d ∈ [BinDir e; ConfigDir e; DataDir e; UnitDir e] -> Join2 (DataDir e) n ∉ way d.
Proof.
  intros HL Hd Hw%way_under. pose proof (under_trans _ _ _ (under_Join2 (DataDir e) n) Hw) as HU.
  pose proof (l_out _ HL (DataDir e)) as HO. rewrite !elem_of_cons in Hd. destruct Hd as [->|[->|[->|[->|Hd]]]]; [| | | |by apply not_elem_of_nil in Hd].
  - pose proof (HO (BinaryPath e) (or_intror eq_refl) (or_intror eq_refl)) as HF. unfold BinaryPath in HF. by rewrite (under_trans _ _ _ HU (under_Join2 _ _)) in HF.
  - by rewrite (l_data _ HL) in HU.
  - apply under_length in Hw. unfold Join2 in Hw. rewrite length_app in Hw. cbn in Hw. lia.
  - pose proof (HO (UnitPath e) (or_intror eq_refl) (or_introl eq_refl)) as HF. unfold UnitPath in HF. by rewrite (under_trans _ _ _ HU (under_Join2 _ _)) in HF.
Qed.

Lemma asked_off_way e d q : layout e -> d ∈ [BinDir e; ConfigDir e; DataDir e; UnitDir e] -> q ∈ asked_paths e -> q ∈ way d -> q = d.
Proof.
  intros HL Hd Hq Hw. exfalso. unfold asked_paths in Hq. rewrite elem_of_cons in Hq. destruct Hq as [->|Hq].
  - by eapply config_off_way.
  - apply list_elem_of_In, in_map_iff in Hq as (n & <- & _). by eapply state_off_way.
Qed.

Section sim_install.
Context (umask : Z) (RenderUnit : Env -> res IErr bytes) (template : bytes) (e : Env) (HL : layout e) (o : InstallOptions).
Context (Hsrc : SourceBinary o <> ConfigPath e).
Abbreviation rec := RecordingExecutor.
Abbreviation real := (RealExecutor true umask).
Abbreviation M := (mirrors (asked_paths e)).

Lemma sim_Install :
  sim (M (Some (SourceBinary o))) (Install (H := rec) true RenderUnit template e o) (Install (H := real) true RenderUnit template e o) (M None).
Proof.
  assert (forall r s src, M src r s -> M None r s) as HN by (intros r s src []; by constructor).
  assert (ConfigPath e ∈ asked_paths e) as HC by left.
  unfold Install. eapply (sim_bind _ (M (Some (SourceBinary o)))); [apply sim_ignored, sim_ignored, sim_ret|]. intros [].
  eapply (sim_bind _ (M (Some (SourceBinary o)))).
  { unfold ensureDirs. eapply sim_bind.
    - apply sim_mkdirs. intros d m q Hd Hq Hw. eapply (asked_off_way e); [exact HL| |exact Hq|exact Hw]. apply (list_elem_of_fmap_2 fst) in Hd. exact Hd.
    - intros []. eapply sim_bind; [apply sim_wrap, sim_chmod|]. intros []. eapply sim_bind; [apply sim_wrap, sim_chmod|]. intros [].
      eapply sim_bind; [apply sim_wrap, sim_chown|]. intros []. apply sim_wrap, sim_chown. }
  intros []. eapply (sim_bind _ (M (Some (SourceBinary o)))).
  { apply sim_exists; [exact HC|]. intros there. destruct (there && _); [apply sim_ret|]. apply sim_write. by intros q [= <-]. }
  intros []. eapply (sim_bind _ (M None)).
  { unfold ensureBinary. destruct (SourceBinary o == []).
    - intros r s a s' HR [= <- <-]. exists r. split; [done|]. by eapply HN.
    - eapply sim_bind; [apply sim_wrap, sim_read|]. intros body. by apply sim_write. }
  intros []. eapply (sim_bind _ (M None)).
  { eapply sim_bind; [apply sim_wrap, sim_chown|]. intros []. eapply sim_bind; [apply sim_wrap, sim_chmod|]. intros [].
    apply sim_exists; [exact HC|]. intros []; [apply sim_wrap, sim_chmod|apply sim_ret]. }
  intros []. eapply (sim_bind _ (M None)).
  { eapply sim_bind; [apply sim_wrap, sim_chmod|]. intros []. apply sim_chmod_state. intros n Hn. right. by apply list_elem_of_In, in_map, list_elem_of_In. }
  intros []. eapply (sim_bind _ (M None)).
  { destruct (SkipUnit o); [apply sim_ret|]. unfold ensureUnit. destruct (RenderUnit e); [by intros r s a s' _ E|]. by apply sim_write. }
  intros []. destruct (SkipEnable o || SkipUnit o); [apply sim_ret|].
  eapply sim_bind; [apply sim_run|]. intros []. eapply sim_bind; [apply sim_run|]. intros []. apply sim_run.
Qed.
End sim_install.

(** ** Properties *)

(** an install without an error leaves the host secured, whatever state
    it found it in and whatever modes and owners older installs left: the
    configuration directory and file belong to root and the daemon's group
    and are not writable by it (0750, 0640), an existing configuration is
    kept unless it is forced, the state directory is the daemon's alone
    (0700), the database files and the key that exist are 0600, everything
    below it is the daemon's, and the unit file is the rendered one. *)
Theorem install_secures umask RenderUnit template e o s s' :
  layout e -> stats s = [] ->
  Install (H := RealExecutor true umask) true RenderUnit template e o s = (Ok tt, s') ->
  installed RenderUnit template e o (nodes s) (nodes s').
Proof.
  intros HL Hs E. exact (proj2 (wp_elim _ _ _ _ _ (t_Install umask RenderUnit template e HL o (nodes s) s Hs eq_refl) E)).
Qed.

(** migration fails closed, under every executor: legacy state that the
    new configuration cannot hold is refused, unless the operator accepts a
    partial migration, before anything is run or written. *)
Theorem migrate_fails_closed `{Unicode} {W} `{Executor W} linux e plan o w :
  unsupportedMigrationFields (Extract plan) <> [] -> AllowPartial o = false ->
  exists t, Migrate linux e plan o w = (Err (IText t), w).
Proof.
  intros Hf Ha. unfold Migrate. rewrite Ha. destruct (unsupportedMigrationFields _) as [|f l]; [done|].
  cbn [negb andb]. assert ((0 <? len (f :: l)) = true) as ->; [|by eexists]. by apply Z.ltb_lt.
Qed.


(** the recorder is a faithful stand-in for the host.  A recorder that
    mirrors writes ([Apply]) and knows what exists among the configuration and
    the state files goes through an install with no error and records exactly
    the operations, in the order, that an install without an error does on
    the host, whatever is there. *)
Theorem recorder_predicts umask RenderUnit template e o r s s' :
  layout e -> SourceBinary o <> ConfigPath e -> mirrors (asked_paths e) (Some (SourceBinary o)) r s ->
  Install (H := RealExecutor true umask) true RenderUnit template e o s = (Ok tt, s') ->
  exists r', Install (H := RecordingExecutor) true RenderUnit template e o r = (Ok tt, r') /\ Ops r' = did s'.
Proof.
  intros HL Hs HM E. destruct (sim_Install umask RenderUnit template e HL o Hs r s tt s' HM E) as (r' & Hr & HM').
  exists r'. split; [exact Hr|exact (m_ops _ _ _ _ HM')].
Qed.

(** An uninstall asks to remove each target, in order, whatever fails before. *)
Lemma remove_all_tries {W : Type} (HW : Executor W) l : forall first w,
  (remove_all l first w).2 = foldl (fun w p => (Remove p w).2) w l.
Proof.
  induction l as [|p l IH]; intros first w; cbn [remove_all foldl]; [done|].
  unfold bind. destruct (Remove p w) as [x w1]. cbn. apply IH.
Qed.

(** ** Concrete runs *)
Module Demo.
#[export] Instance tables : Unicode := ascii_tables.
Definition unit_text : Env -> res IErr bytes := fun _ => Ok (str "[Unit]").
Definition conf : bytes := str "domain: example.org".
Definition opts : InstallOptions := {| Force := false; SkipUnit := false; SkipEnable := false; SourceBinary := str "/tmp/5gpn"; ConfigContent := None |}.
Definition file (body : bytes) (mode : Z) : Node := {| n_Dir := false; n_Body := body; n_Mode := mode; n_Owner := who (str "root") (str "root") |}.
Definition host (t : Tree) : Sys := {| nodes := t; outs := []; exit_ok := []; stats := []; did := [] |}.
(** A host with the new binary, and one that also has a configuration that
    anyone may read. *)
Definition fresh : Tree := {[ str "/tmp/5gpn" := file (str "ELF") (octal 7 5 5) ]}.
Definition used : Tree := <[ConfigPath Defaults := file (str "mine") (octal 6 6 6)]> fresh.
Definition real := RealExecutor true 18.
Definition install (t : Tree) : res IErr unit * Sys := Install (H := real) true unit_text conf Defaults opts (host t).
Definition recorder (ex : gset bytes) : Recorder :=
  {| Ops := []; r_Files := ∅; r_Dirs := ∅; r_Owners := ∅; r_Modes := ∅; Existing := ex; Apply := true; Failures := ∅;
     host_files := {[ str "/tmp/5gpn" := str "ELF" ]} |}.

Lemma layout_Defaults : layout Defaults.
Proof. split; [done|done| |done]. by intros d p [->| ->] [->| ->]. Qed.

Definition is_ok {A : Type} (x : res IErr A) : bool := match x with Ok _ => true | Err _ => false end.
Lemma installs t : is_ok (install t).1 = true -> install t = (Ok tt, (install t).2).
Proof. destruct (install t) as [[e|[]] s]; [by intros [=]|done]. Qed.

Lemma fresh_ok : install fresh = (Ok tt, (install fresh).2).
Proof. apply installs. by vm_compute. Qed.
Lemma used_ok : install used = (Ok tt, (install used).2).
Proof. apply installs. by vm_compute. Qed.

Lemma mirrors_fresh : mirrors (asked_paths Defaults) (Some (SourceBinary opts)) (recorder ∅) (host fresh).
Proof.
  constructor; [done..| |].
  - intros p Hp. split; [by intros ?%not_elem_of_empty|]. intros Hs%elem_of_dom. unfold fresh in Hs. cbn [nodes host] in Hs.
    rewrite dom_singleton, elem_of_singleton in Hs. subst p. revert Hp. assert (bool_decide (str "/tmp/5gpn" ∈ asked_paths Defaults) = false) as E by by vm_compute.
    by intros ?; apply bool_decide_eq_false in E.
  - by intros p [= <-].
Qed.

(** Two reinstalls of a host with a configuration: the host keeps it and
    closes it to the others; the dry run ([NewRecorder], which knows no file)
    announces a rewrite of it and no change of its mode. *)
Definition real_ops : list Op := did (install used).2.
Definition dry_ops : list Op :=
  Ops (Install (H := RecordingExecutor) true unit_text conf Defaults opts (NewRecorder {[ str "/tmp/5gpn" := str "ELF" ]})).2.
Definition writes_config (op : Op) : bool := match op with OWrite p _ _ => p == ConfigPath Defaults | _ => false end.
Definition closes_config (op : Op) : bool := match op with OChmod p m => (p == ConfigPath Defaults) && (m =? octal 6 4 0) | _ => false end.
Lemma dry_run_differs :
  (existsb writes_config real_ops, existsb closes_config real_ops) = (false, true) /\
  (existsb writes_config dry_ops, existsb closes_config dry_ops) = (true, false).
Proof. split; vm_compute; reflexivity. Qed.

(** An upgrade whose write of the new binary stops half-way returns the error
    and leaves the torn binary; the copy that restarts would restore is there. *)
Definition upgrading : Sys :=
  {| nodes := <[BinaryPath Defaults := file (str "old") (octal 7 5 5)]> fresh; outs := [Works; Torn 1]; exit_ok := []; stats := []; did := [] |}.
Definition upgraded : res IErr unit * Sys :=
  Upgrade (H := real) true Defaults {| NewBinary := str "/tmp/5gpn"; SkipRestart := false |} upgrading.
Lemma upgrade_torn :
  is_ok upgraded.1 = false /\
  (n_Body <$> nodes upgraded.2 !! BinaryPath Defaults, n_Body <$> nodes upgraded.2 !! prev Defaults) = (Some (str "E"), Some (str "old")).
Proof. split; vm_compute; reflexivity. Qed.

(** An unreadable stat counts as absent: the configuration is rewritten
    although the install is not forced. *)
Definition blind : Sys := {| nodes := used; outs := []; exit_ok := []; stats := [false]; did := [] |}.
Lemma blind_rewrites :
  (n_Body <$> nodes (Install (H := real) true unit_text conf Defaults opts blind).2 !! ConfigPath Defaults) = Some conf.
Proof. vm_compute. reflexivity. Qed.

Definition legacy : LegacyExtract := {|
  Domain := str "example.org"; RemoteDNS := []; LocalDNS := []; CurrentExit := str " Local "; LRules := str "DOMAIN,a.com"; LExits := [];
  PolicyMap := []; TGToken := str "t"; TGAdminIDs := str "x, 0; 12 12"; IOSProfileUUID := [] |}.
Definition plan : MigratePlan := {| Extract := legacy; NewConfigYAML := conf |}.
Lemma legacy_fields : unsupportedMigrationFields legacy = [str "rules"].
Proof. vm_compute. reflexivity. Qed.
Lemma legacy_admins : normalizeAdminIDs (TGAdminIDs legacy) = (str "12", 3).
Proof. vm_compute. reflexivity. Qed.
End Demo.

Lemma install_secures_witness :
  installed Demo.unit_text Demo.conf Defaults Demo.opts (nodes (Demo.host Demo.used)) (nodes (Demo.install Demo.used).2).
Proof.
  exact (install_secures 18 Demo.unit_text Demo.conf Defaults Demo.opts (Demo.host Demo.used) (Demo.install Demo.used).2
    Demo.layout_Defaults eq_refl Demo.used_ok).
Defined.

#[local] Existing Instance Demo.tables.
Lemma migrate_fails_closed_witness :
  exists t, Migrate (H0 := RecordingExecutor) true Defaults Demo.plan {| MForce := true; AllowPartial := false |} (NewRecorder ∅) = (Err (IText t), NewRecorder ∅).
Proof.
  apply (migrate_fails_closed (H0 := RecordingExecutor) true Defaults Demo.plan {| MForce := true; AllowPartial := false |} (NewRecorder ∅));
    [cbn [Demo.plan Extract]; rewrite Demo.legacy_fields; discriminate|reflexivity].
Defined.

Lemma recorder_predicts_witness :
  exists r', Install (H := RecordingExecutor) true Demo.unit_text Demo.conf Defaults Demo.opts (Demo.recorder ∅) = (Ok tt, r') /\
    Ops r' = did (Demo.install Demo.fresh).2.
Proof.
  apply (recorder_predicts 18 Demo.unit_text Demo.conf Defaults Demo.opts (Demo.recorder ∅) (Demo.host Demo.fresh) (Demo.install Demo.fresh).2);
    [exact Demo.layout_Defaults|discriminate|exact Demo.mirrors_fresh|exact Demo.fresh_ok].
Defined.
