(* ===== verification/Routes.v ===== *)
(** * The panel's router

    internal/api/server.go (the routes and their guards, the listeners of
    [ListenAndServe]), internal_only_middleware.go, the security headers of
    middleware.go and tls.go's servers.  chi's choice of a route is a
    parameter with its documented law, and so is which requests the CORS
    middleware answers itself.  A handler is an argument: the theorems hold
    for all handlers.  A mounted sub-router answers 404 for what it does not
    know below its prefix; that is the route [HNotFound].  chi routes by the
    URL's RawPath when it is set and by its Path otherwise; a request here is
    one with an empty RawPath. *)
From S2P Require Import Prelude GoStrings GoNet Db Access PanelAuth.
From Stdlib Require Import ZArith Lia.
Local Open Scope Z_scope.

(** ** The table of routes *)
Inductive Handler :=
| HHealth | HBootstrapStatus | HBootstrapClaim | HNotFound | HLogin | HIOSMobileconfig | HDoH | HDoHNotWired | HStatic
| HLogout | HMe | HChangePassword
| HListRules | HDryRun | HApply | HApplyPreview | HImportRules | HChinalistSync
| HListRulesets | HRegisterRuleset | HSyncRuleset | HToggleRuleset | HDeleteRuleset
| HGetTgbotSettings | HUpdateTgbotSettings | HGetPanelSettings | HUpdatePanelSettings
| HApplyStatus | HApplyGet | HAppliesList
| HListExits | HAddExit | HDeleteExit | HSwitchExit
| HListSnapshots | HRollbackSnapshot | HExportBackup | HImportBackup
| HMetrics | HDNSMetrics | HLogsSSE | HUpdateCheck | HUpdateApply | HSystemRestart
| HIOSProfileURL | HIOSPreflight | HIOSProfileToggle
| HGetFrontdoorProxy | HUpdateFrontdoorProxy | HFrontdoorProxyPreflight
| HGetInternalOnly | HUpdateInternalOnly
| HGetMTProxySettings | HUpdateMTProxySettings | HGenerateMTProxySecret.

(** A pattern of chi: text, [{name}] for one segment, [*] for the rest. *)
Definition slash : byte := Byte.x2f.
Inductive piece := Lit (s : bytes) | Param (name : bytes) | Star.

Record Route := { r_Method : option bytes; r_Pattern : list piece; r_Auth : bool; r_Handler : Handler }.

Definition GET : bytes := str "GET".
Definition POST : bytes := str "POST".
Definition DELETE : bytes := str "DELETE".
Definition OPTIONS : bytes := str "OPTIONS".
Definition lit (s : bytes) : list piece := [Lit s].
Definition open_ (m : bytes) (p : list piece) (h : Handler) : Route := {| r_Method := Some m; r_Pattern := p; r_Auth := false; r_Handler := h |}.
Definition any_ (p : list piece) (h : Handler) : Route := {| r_Method := None; r_Pattern := p; r_Auth := false; r_Handler := h |}.
Definition guarded (m : bytes) (p : list piece) (h : Handler) : Route := {| r_Method := Some m; r_Pattern := p; r_Auth := true; r_Handler := h |}.

(** The routes registered on the root router. *)
Definition public_routes (doh : bool) : list Route :=
  [open_ GET (lit (str "/api/v1/health")) HHealth;
   open_ GET (lit (str "/api/v1/bootstrap")) HBootstrapStatus; open_ GET (lit (str "/api/v1/bootstrap/")) HBootstrapStatus;
   open_ POST (lit (str "/api/v1/bootstrap")) HBootstrapClaim; open_ POST (lit (str "/api/v1/bootstrap/")) HBootstrapClaim;
   any_ [Lit (str "/api/v1/bootstrap/"); Star] HNotFound;
   open_ POST (lit (str "/api/v1/login")) HLogin;
   open_ GET (lit (str "/ios-dot.mobileconfig")) HIOSMobileconfig] ++
  (if doh then [open_ GET (lit (str "/dns-query")) HDoH; open_ POST (lit (str "/dns-query")) HDoH]
   else [any_ (lit (str "/dns-query")) HDoHNotWired]).

(** The routes of the group behind [authMiddleware]. *)
Definition protected_routes : list Route :=
  [guarded POST (lit (str "/api/v1/logout")) HLogout;
   guarded GET (lit (str "/api/v1/me")) HMe;
   guarded POST (lit (str "/api/v1/password")) HChangePassword;
   guarded GET (lit (str "/api/v1/rules")) HListRules;
   guarded POST (lit (str "/api/v1/rules/dry-run")) HDryRun;
   guarded POST (lit (str "/api/v1/rules/apply")) HApply;
   guarded POST (lit (str "/api/v1/rules/apply/preview")) HApplyPreview;
   guarded POST (lit (str "/api/v1/rules/import")) HImportRules;
   guarded POST (lit (str "/api/v1/rules/chinalist/sync")) HChinalistSync;
   guarded GET (lit (str "/api/v1/rulesets")) HListRulesets;
   guarded POST (lit (str "/api/v1/rulesets")) HRegisterRuleset;
   guarded POST [Lit (str "/api/v1/rulesets/"); Param (str "name"); Lit (str "/sync")] HSyncRuleset;
   guarded POST [Lit (str "/api/v1/rulesets/"); Param (str "name"); Lit (str "/enabled")] HToggleRuleset;
   guarded DELETE [Lit (str "/api/v1/rulesets/"); Param (str "name")] HDeleteRuleset;
   guarded GET (lit (str "/api/v1/settings/tgbot")) HGetTgbotSettings;
   guarded POST (lit (str "/api/v1/settings/tgbot")) HUpdateTgbotSettings;
   guarded GET (lit (str "/api/v1/settings/panel")) HGetPanelSettings;
   guarded POST (lit (str "/api/v1/settings/panel")) HUpdatePanelSettings;
   guarded GET (lit (str "/api/v1/apply/status")) HApplyStatus;
   guarded GET [Lit (str "/api/v1/applies/"); Param (str "id")] HApplyGet;
   guarded GET (lit (str "/api/v1/applies")) HAppliesList;
   guarded GET (lit (str "/api/v1/exits")) HListExits;
   guarded POST (lit (str "/api/v1/exits/add")) HAddExit;
   guarded POST (lit (str "/api/v1/exits/delete")) HDeleteExit;
   guarded POST (lit (str "/api/v1/exits/switch")) HSwitchExit;
   guarded GET (lit (str "/api/v1/snapshots")) HListSnapshots;
   guarded POST [Lit (str "/api/v1/snapshots/"); Param (str "id"); Lit (str "/rollback")] HRollbackSnapshot;
   guarded GET (lit (str "/api/v1/backup/export")) HExportBackup;
   guarded POST (lit (str "/api/v1/backup/import")) HImportBackup;
   guarded GET (lit (str "/api/v1/metrics")) HMetrics;
   guarded GET (lit (str "/api/v1/metrics/dns")) HDNSMetrics;
   guarded GET (lit (str "/api/v1/events/logs")) HLogsSSE;
   guarded GET (lit (str "/api/v1/update/check")) HUpdateCheck;
   guarded POST (lit (str "/api/v1/update/apply")) HUpdateApply;
   guarded POST (lit (str "/api/v1/system/restart")) HSystemRestart;
   guarded GET (lit (str "/api/v1/ios/profile-url")) HIOSProfileURL;
   guarded POST (lit (str "/api/v1/settings/ios/preflight")) HIOSPreflight;
   guarded POST (lit (str "/api/v1/settings/ios/profile-enabled")) HIOSProfileToggle;
   guarded GET (lit (str "/api/v1/settings/frontdoor/proxy")) HGetFrontdoorProxy;
   guarded POST (lit (str "/api/v1/settings/frontdoor/proxy")) HUpdateFrontdoorProxy;
   guarded POST (lit (str "/api/v1/settings/frontdoor/proxy/preflight")) HFrontdoorProxyPreflight;
   guarded GET (lit (str "/api/v1/settings/frontdoor/internal-only")) HGetInternalOnly;
   guarded POST (lit (str "/api/v1/settings/frontdoor/internal-only")) HUpdateInternalOnly;
   guarded GET (lit (str "/api/v1/settings/mtproxy")) HGetMTProxySettings;
   guarded POST (lit (str "/api/v1/settings/mtproxy")) HUpdateMTProxySettings;
   guarded POST (lit (str "/api/v1/settings/mtproxy/generate-secret")) HGenerateMTProxySecret].

Definition routes (doh web : bool) : list Route :=
  public_routes doh ++ protected_routes ++ (if web then [open_ GET [Lit [slash]; Star] HStatic] else []).

(** *** Patterns *)
Fixpoint until_slash (p : bytes) : bytes * bytes :=
  match p with
  | [] => ([], [])
  | c :: p' => if c == slash then ([], p) else let '(v, r) := until_slash p' in (c :: v, r)
  end.

(** The parameters of a path, if it has the form of the pattern. *)
Fixpoint match_pattern (ps : list piece) (path : bytes) : option (list (bytes * bytes)) :=
  match ps with
  | [] => if path == [] then Some [] else None
  | Lit s :: ps => if HasPrefix path s then match_pattern ps (drop (length s) path) else None
  | Param n :: ps => let '(v, rest) := until_slash path in l ← match_pattern ps rest; Some ((n, v) :: l)
  | Star :: _ => Some [(str "*", path)]
  end.

Record Request := {
  Method : bytes; Path : bytes; Authorization : bytes; RemoteAddr : bytes; TLS : bool;
  RequestMethod : bytes                (* Access-Control-Request-Method *)
}.

(** What chi documents of its choice: the route is registered for the method,
    and the path has the form of its pattern. *)
Record chooses (find : list Route -> bytes -> bytes -> res Z (Route * list (bytes * bytes))) : Prop := {
  ch_member : forall rs m p rt l, find rs m p = Ok (rt, l) -> rt ∈ rs;
  ch_method : forall rs m p rt l, find rs m p = Ok (rt, l) -> r_Method rt = None \/ r_Method rt = Some m;
  ch_pattern : forall rs m p rt l, find rs m p = Ok (rt, l) -> match_pattern (r_Pattern rt) p = Some l
}.

(** ** The middlewares *)
Definition bypass_paths : list bytes := [str "/api/v1/health"; str "/ios-dot.mobileconfig"; str "/dns-query"].
Definition bootstrap_prefix : bytes := str "/api/v1/bootstrap".
Definition isInternalOnlyBypass (p : bytes) : bool :=
  if p == str "/api/v1/health" then true
  else if p == str "/ios-dot.mobileconfig" then true
  else if p == str "/dns-query" then true
  else HasPrefix p bootstrap_prefix.

Definition remoteAddrFromRequest (r : Request) : NetAddr := OtherAddr (RemoteAddr r).

Definition internalOnlyMiddleware {W : Type} (gate : option Gate) (r : Request) (next : ST W Resp) : ST W Resp :=
  if negb (Enabled gate) then next
  else if Method r == OPTIONS then next
  else if isInternalOnlyBypass (Path r) then next
  else if Allow gate (remoteAddrFromRequest r) then next
  else ret (RError 403 (str "internal_only_access")).

Definition csp : bytes := str "default-src 'self'; script-src 'self'; style-src 'self' 'unsafe-inline'; img-src 'self' data:; font-src 'self'; connect-src 'self'; object-src 'none'; base-uri 'self'; frame-ancestors 'none'; form-action 'self'".
Definition securityHeaders (r : Request) : list (bytes * bytes) :=
  [(str "Content-Security-Policy", csp); (str "X-Content-Type-Options", str "nosniff"); (str "X-Frame-Options", str "DENY");
   (str "Referrer-Policy", str "no-referrer"); (str "Permissions-Policy", str "camera=(), microphone=(), geolocation=()")] ++
  (if TLS r then [(str "Strict-Transport-Security", str "max-age=31536000")] else []).

(** [clientIP]. *)
Definition clientIP (r : Request) : bytes := match SplitHostPort (RemoteAddr r) with Some (h, _) => h | None => RemoteAddr r end.

(** The answer of the static handler: the index, or a file of the bundle. *)
Inductive Static := Index | File (path : bytes).
Definition serve_static (stat : bytes -> bool) (path : bytes) : Static :=
  if (path == []) || (path == [slash]) then Index else if stat (drop 1 path) then File path else Index.

(** ** The router *)
Section router.
Context `{TokenBucket} `{JWT} `{Bcrypt} `{Unicode}.
Context (find : list Route -> bytes -> bytes -> res Z (Route * list (bytes * bytes))) (cors_answers : Request -> bool).
Context (Secret : bytes) (gate : option Gate) (doh web : bool).
Context (handlers : Handler -> option authClaims -> list (bytes * bytes) -> Request -> ST Srv Resp).

(** The chosen route: the handler, behind [authMiddleware] in the group. *)
Definition dispatch (r : Request) : ST Srv Resp :=
  match find (routes doh web) (Method r) (Path r) with
  | Err status => ret (RError status [])
  | Ok (rt, params) =>
      if r_Auth rt then authMiddleware Secret (Authorization r) (fun claims => handlers (r_Handler rt) (Some claims) params r)
      else handlers (r_Handler rt) None params r
  end.

(** The whole chain, with the headers every answer carries. *)
Definition Router (r : Request) : ST Srv (list (bytes * bytes) * Resp) :=
  let! a := (if cors_answers r then ret RDone else internalOnlyMiddleware gate r (dispatch r)) in
  ret (securityHeaders r, a).
End router.

(** ** Lemmas *)

(** The handlers that run without a session. *)
Definition public_handler (h : Handler) : bool :=
  match h with
  | HHealth | HBootstrapStatus | HBootstrapClaim | HNotFound | HLogin | HIOSMobileconfig | HDoH | HDoHNotWired | HStatic => true
  | _ => false
  end.

Lemma routes_split doh web rt : rt ∈ routes doh web ->
  (r_Auth rt = true /\ rt ∈ protected_routes) \/ (r_Auth rt = false /\ public_handler (r_Handler rt) = true).
Proof.
  unfold routes. rewrite !elem_of_app. intros [H|[H|H]].
  - right. assert (Forall (fun rt => r_Auth rt = false /\ public_handler (r_Handler rt) = true) (public_routes doh)) as HF
      by (destruct doh; repeat constructor).
    rewrite Forall_forall in HF. by apply HF.
  - left. split; [|done]. assert (forallb r_Auth protected_routes = true) as HF by by vm_compute.
    apply (proj1 (forallb_forall _ _) HF). by apply list_elem_of_In.
  - right. destruct web; [|by apply not_elem_of_nil in H]. apply list_elem_of_singleton in H as ->. done.
Qed.

(** What the path of a protected route starts with, and that it is apart from
    what the gate lets everyone reach. *)
Definition apart (s : bytes) : bool :=
  negb (HasPrefix s bootstrap_prefix) && negb (HasPrefix bootstrap_prefix s) && forallb (fun b => negb (HasPrefix b s)) bypass_paths.
Definition starts_apart (rt : Route) : bool := match r_Pattern rt with Lit s :: _ => apart s | _ => false end.
Definition has_method (rt : Route) : bool := match r_Method rt with Some m => m != OPTIONS | None => false end.

Lemma prefixes_comparable (a b p : bytes) : HasPrefix p a = true -> HasPrefix p b = true -> HasPrefix a b = true \/ HasPrefix b a = true.
Proof.
  unfold HasPrefix. rewrite !bool_decide_eq_true. intros [x ->] [y Hy].
  destruct (decide (length b <= length a)%nat) as [Hl|Hl].
  - left. exists (drop (length b) a). apply (f_equal (take (length b))) in Hy.
    rewrite take_app_le, take_app_length in Hy by done. by rewrite <- Hy at 1; rewrite take_drop.
  - right. exists (drop (length a) b). apply (f_equal (take (length a))) in Hy.
    rewrite take_app_length, take_app_le in Hy by lia. by rewrite Hy at 1; rewrite take_drop.
Qed.

Lemma apart_not_bypass s p : apart s = true -> HasPrefix p s = true -> isInternalOnlyBypass p = false.
Proof.
  unfold apart. rewrite !andb_true_iff, !negb_true_iff. intros [[H1 H2] H3] Hp. unfold isInternalOnlyBypass.
  assert (forall b, b ∈ bypass_paths -> (p == b) = false) as HB.
  { intros b Hb. apply bool_decide_eq_false. intros ->. rewrite forallb_forall in H3. apply list_elem_of_In in Hb.
    specialize (H3 b Hb). by rewrite Hp in H3. }
  rewrite !HB by (unfold bypass_paths; rewrite !elem_of_cons; tauto).
  destruct (HasPrefix p bootstrap_prefix) eqn:E; [|done]. destruct (prefixes_comparable _ _ _ Hp E); congruence.
Qed.

Lemma protected_facts rt p l m : rt ∈ protected_routes ->
  match_pattern (r_Pattern rt) p = Some l -> r_Method rt = None \/ r_Method rt = Some m ->
  isInternalOnlyBypass p = false /\ (m == OPTIONS) = false.
Proof.
  intros Hin Hm HM. assert (forallb (fun rt => starts_apart rt && has_method rt) protected_routes = true) as HF by by vm_compute.
  rewrite forallb_forall in HF. apply list_elem_of_In in Hin. specialize (HF _ Hin). apply andb_true_iff in HF as [HS HM'].
  unfold starts_apart in HS. unfold has_method in HM'. split.
  - destruct (r_Pattern rt) as [|[s|n|] ps]; try done. cbn in Hm. destruct (HasPrefix p s) eqn:EP; [|done]. by eapply apart_not_bypass.
  - destruct HM as [HM|HM]; rewrite HM in HM'; [done|]. by apply negb_true_iff in HM'.
Qed.

(** ** Properties *)
Section properties.
Context `{TokenBucket} `{JWT} `{Bcrypt} `{Unicode}.
Context (find : list Route -> bytes -> bytes -> res Z (Route * list (bytes * bytes))) (cors_answers : Request -> bool).
Context (Secret : bytes) (gate : option Gate) (doh web : bool).
Context (handlers : Handler -> option authClaims -> list (bytes * bytes) -> Request -> ST Srv Resp).

(** The session the header's token names is on record, unrevoked and in time. *)
Definition has_session (r : Request) (claims : authClaims) (d : Db) : Prop :=
  ParseWithClaims (extractBearer (Authorization r)) Secret (now d) = Some claims /\
  exists row, row ∈ panel_sessions d /\ ps_ID row = SessionID claims /\ ps_RevokedAt row = None /\ now d <= ps_ExpiresAt row.

(** The gate lets the client of [r] in. *)
Definition let_in (r : Request) : Prop := Enabled gate = true -> Allow gate (remoteAddrFromRequest r) = true.

(** What one request can do. *)
Inductive outcome (r : Request) (s : Srv) (a : Resp) (s' : Srv) : Prop :=
| Stopped : eqt (db s) (db s') -> (exists status code, a = RError status code) \/ Method r = OPTIONS -> outcome r s a s'
| Public (rt : Route) (params : list (bytes * bytes)) :
    public_handler (r_Handler rt) = true ->
    let_in r \/ Method r = OPTIONS \/ isInternalOnlyBypass (Path r) = true ->
    handlers (r_Handler rt) None params r s = (a, s') -> outcome r s a s'
| Guarded (rt : Route) (params : list (bytes * bytes)) (claims : authClaims) (s1 : Srv) :
    rt ∈ protected_routes -> has_session r claims (db s) -> let_in r -> eqt (db s) (db s1) ->
    handlers (r_Handler rt) (Some claims) params r s1 = (a, s') -> outcome r s a s'.

Lemma dispatch_wp r s : chooses find ->
  let_in r \/ Method r = OPTIONS \/ isInternalOnlyBypass (Path r) = true ->
  wp (dispatch find Secret doh web handlers r) (fun a s' => outcome r s a s') s.
Proof.
  intros HC HG. unfold dispatch. destruct (find (routes doh web) (Method r) (Path r)) as [st|[rt l]] eqn:E.
  - unfold wp, ret. apply Stopped; [done|left; by eexists _, _].
  - destruct (routes_split doh web rt (ch_member _ HC _ _ _ _ _ E)) as [[HA HP]|[HA HP]]; rewrite HA.
    + destruct (protected_facts rt (Path r) l (Method r) HP (ch_pattern _ HC _ _ _ _ _ E) (ch_method _ HC _ _ _ _ _ E)) as [HNB HNO].
      apply bool_decide_eq_false in HNO. assert (let_in r) as HL by (destruct HG as [HG|[HG|HG]]; [done|done|congruence]).
      apply authMiddleware_wp; [intros s' He; apply Stopped; [done|left; by eexists _, _]|]. intros claims s1 row HPa Hrow Hid Hrev Hexp He.
      unfold wp. destruct (handlers (r_Handler rt) (Some claims) l r s1) as [a s2] eqn:EH.
      eapply Guarded; [done| |done|exact He|exact EH]. split; [done|]. by exists row.
    + unfold wp. destruct (handlers (r_Handler rt) None l r s) as [a s2] eqn:EH. by eapply Public.
Qed.

(** C22: the panel's perimeter, for all handlers and whatever chi chooses among
    the routes: a request is stopped with the tables unchanged, or runs one of
    the nine public handlers without claims, or a protected handler with the
    claims of a live session; and an enabled gate lets a foreign address
    reach only OPTIONS and the listed public paths, never a protected
    handler.  Every answer carries the security headers. *)
Theorem router_guards r s hs a s' :
  chooses find -> (forall q, cors_answers q = true -> Method q = OPTIONS) ->
  Router find cors_answers Secret gate doh web handlers r s = ((hs, a), s') ->
  hs = securityHeaders r /\ outcome r s a s'.
Proof.
  intros HC Hcors E. unfold Router, bind, ret in E. destruct (if cors_answers r then _ else _) as [b s1] eqn:E1 in E.
  injection E as <- <- <-. split; [done|]. revert E1. destruct (cors_answers r) eqn:EC; [intros [= <- <-]; apply Stopped; [done|right; by apply Hcors]|].
  unfold internalOnlyMiddleware. intros E1. refine (wp_elim _ (fun a s' => outcome r s a s') s b s1 _ E1).
  destruct (Enabled gate) eqn:EG; cbn [negb]; [|apply dispatch_wp; [done|left; by intros ?; congruence]].
  case_bool_decide as EM; [apply dispatch_wp; by auto|].
  destruct (isInternalOnlyBypass (Path r)) eqn:EB; [apply dispatch_wp; by auto|].
  destruct (Allow gate _) eqn:EA; [apply dispatch_wp; [done|left; by intros _]|]. unfold wp, ret. apply Stopped; [done|left; by eexists _, _].
Qed.
End properties.

(** ** The listeners *)
Record ACMEOptions := { Domain : bytes; Email : bytes; StorageDir : bytes; UseStaging : bool }.
Inductive TLSErr := EDomain | EEmail | EStorage | EManage | ELoad.
(** Where the certificate of a TLS configuration comes from. *)
Inductive Cert := Managed (domain storage : bytes) (staging : bool) | Static_ (certFile keyFile : bytes).
Record listenerConfig := { primaryAddr : bytes; tlsConfig : option Cert; acmeAddr : bytes }.

(** [setupACME]; [managed] tells whether certmagic takes the domain on. *)
Definition setupACME (managed : bool) (o : ACMEOptions) : res TLSErr Cert :=
  if Domain o == [] then Err EDomain
  else if Email o == [] then Err EEmail
  else if StorageDir o == [] then Err EStorage
  else if negb managed then Err EManage else Ok (Managed (Domain o) (StorageDir o) (UseStaging o)).

(** The configuration [ListenAndServe] hands to [runDual]; [loads] tells
    whether the key pair can be loaded. *)
Definition ListenAndServe (managed loads : bool) (o : ACMEOptions) (ACMEListenAddr addr certFile keyFile : bytes) : res TLSErr listenerConfig :=
  if Domain o != [] then
    match setupACME managed o with
    | Err e => Err e
    | Ok c =>
        let secondary := if ACMEListenAddr != [] then ACMEListenAddr else str ":443" in
        Ok {| primaryAddr := addr; tlsConfig := Some c;
              acmeAddr := if (addr != secondary) && negb (HasSuffix addr secondary) then secondary else [] |}
    end
  else if (certFile != []) && (keyFile != []) then
    if loads then Ok {| primaryAddr := addr; tlsConfig := Some (Static_ certFile keyFile); acmeAddr := [] |} else Err ELoad
  else Ok {| primaryAddr := addr; tlsConfig := None; acmeAddr := [] |}.

(** The servers [runDual] starts: address and certificate, [None] for plain
    HTTP. *)
Definition servers (lc : listenerConfig) : list (bytes * option Cert) :=
  (primaryAddr lc, tlsConfig lc) ::
  match tlsConfig lc with
  | Some c => if acmeAddr lc != [] then [(acmeAddr lc, Some c)] else []
  | None => []
  end.

(** A panel with a domain, or with a key pair, never serves plain HTTP: when
    the certificate cannot be had it does not start; the panel's address is
    always served. *)
Lemma no_plain_fallback managed loads o acme addr certFile keyFile lc :
  ListenAndServe managed loads o acme addr certFile keyFile = Ok lc ->
  Domain o <> [] \/ (certFile <> [] /\ keyFile <> []) ->
  addr ∈ (servers lc).*1 /\ Forall (fun p => p.2 <> None) (servers lc).
Proof.
  unfold ListenAndServe. intros E Hc. destruct (decide (Domain o = [])) as [HD|HD].
  - destruct Hc as [Hc|[Hc Hk]]; [done|]. rewrite (bool_decide_true (Domain o = [])), (bool_decide_false (certFile = [])), (bool_decide_false (keyFile = [])) in E by done.
    cbn in E. destruct loads; [|done]. injection E as <-. split; [left|]. by repeat constructor.
  - rewrite (bool_decide_false (Domain o = [])) in E by done. cbn [negb] in E. destruct (setupACME managed o) as [|c]; [done|]. injection E as <-.
    split; [left|]. unfold servers. cbn [tlsConfig primaryAddr acmeAddr]. constructor; [done|]. destruct (_ != []); by repeat constructor.
Qed.

(** The defaults of [New]. *)
Record Knobs := { SessionTTL : Z; LoginPerMinute : Z; LockoutMinutes : Z; Issuer_ : bytes }.
Definition New_knobs (c : Knobs) : Knobs :=
  {| SessionTTL := if SessionTTL c =? 0 then 24 * 60 * minute else SessionTTL c;
     LoginPerMinute := if LoginPerMinute c <=? 0 then 5 else LoginPerMinute c;
     LockoutMinutes := if LockoutMinutes c <=? 0 then 15 else LockoutMinutes c;
     Issuer_ := if Issuer_ c == [] then str "5gpn" else Issuer_ c |}.

(** ** Concrete runs *)
Module Demo.
#[local] Existing Instances PanelAuth.Demo.jwt PanelAuth.Demo.bucket PanelAuth.Demo.bcrypt PanelAuth.Demo.tables.

(** The first route that fits. *)
Fixpoint first_fit (rs : list Route) (m p : bytes) : res Z (Route * list (bytes * bytes)) :=
  match rs with
  | [] => Err 404
  | rt :: rs =>
      if bool_decide (r_Method rt = None \/ r_Method rt = Some m) then
        match match_pattern (r_Pattern rt) p with Some l => Ok (rt, l) | None => first_fit rs m p end
      else first_fit rs m p
  end.

Lemma first_fit_spec rs m p rt l : first_fit rs m p = Ok (rt, l) ->
  rt ∈ rs /\ (r_Method rt = None \/ r_Method rt = Some m) /\ match_pattern (r_Pattern rt) p = Some l.
Proof.
  induction rs as [|x rs IH]; cbn [first_fit]; [done|]. case_bool_decide as HM.
  - destruct (match_pattern (r_Pattern x) p) as [l'|] eqn:EP; [|intros E; destruct (IH E) as (?&?&?); split_and!; [by right|done|done]].
    intros [= <- <-]. split_and!; [left|done|done].
  - intros E. destruct (IH E) as (?&?&?). split_and!; [by right|done|done].
Qed.

Lemma first_fit_chooses : chooses first_fit.
Proof. by split; intros rs m p rt l E; apply first_fit_spec in E as (?&?&?). Qed.

Definition cors (q : Request) : bool := (Method q == OPTIONS) && (RequestMethod q != []).
Definition req (m p from auth : bytes) : Request :=
  {| Method := m; Path := p; Authorization := auth; RemoteAddr := from; TLS := true; RequestMethod := [] |}.

(** Handlers that tell who called them. *)
Definition telling (h : Handler) (c : option authClaims) (params : list (bytes * bytes)) (r : Request) : ST Srv Resp :=
  match c with Some c => ret (RCreated (UserID c) (Username c)) | None => ret RNoContent end.

Definition gate_on : option Gate := match Configure {| has_settings := true; snapshot := None |} true [] with Ok g => Some g | Err _ => None end.
Definition inside : bytes := str "10.0.0.7:5000".
Definition outside : bytes := str "198.51.100.7:5000".
Definition bearer : bytes := str "Bearer " ++ PanelAuth.Demo.tok3.
Definition answer (q : Request) : Resp := (Router first_fit cors PanelAuth.Demo.key gate_on true true telling q PanelAuth.Demo.s3).1.2.

Example restart_inside : answer (req POST (str "/api/v1/system/restart") inside bearer) = RCreated 1 (str "root").
Proof. by vm_compute. Qed.
Example restart_no_token : answer (req POST (str "/api/v1/system/restart") inside []) = RError 401 (str "unauthorized").
Proof. by vm_compute. Qed.
Example restart_outside : answer (req POST (str "/api/v1/system/restart") outside bearer) = RError 403 (str "internal_only_access").
Proof. by vm_compute. Qed.
Example doh_outside : answer (req GET (str "/dns-query") outside []) = RNoContent.
Proof. by vm_compute. Qed.

Definition chosen (m p : bytes) : option (Handler * list (bytes * bytes)) :=
  match first_fit (routes true true) m p with Ok (rt, l) => Some (r_Handler rt, l) | Err _ => None end.

Example sync_route : chosen POST (str "/api/v1/rulesets/gfw/sync") = Some (HSyncRuleset, [(str "name", str "gfw")]).
Proof. by vm_compute. Qed.

(** The gate tests the prefix of the bootstrap endpoint: a path that only
    begins like it is the static bundle's, and a foreign address gets the
    panel it is kept from otherwise. *)
Lemma bootstrap_prefix_leaks :
  chosen GET (str "/api/v1/bootstrap-panel") = Some (HStatic, [(str "*", str "api/v1/bootstrap-panel")]) /\
  answer (req GET (str "/api/v1/bootstrap-panel") outside []) = RNoContent /\
  answer (req GET (str "/") outside []) = RError 403 (str "internal_only_access").
Proof. split_and!; by vm_compute. Qed.

(** An unknown path under /api/ is answered with the index of the panel. *)
Lemma unknown_api_is_index :
  chosen GET (str "/api/v1/nosuch") = Some (HStatic, [(str "*", str "api/v1/nosuch")]) /\
  serve_static (fun _ => false) (str "/api/v1/nosuch") = Index.
Proof. split; by vm_compute. Qed.

Definition restart : Request := req POST (str "/api/v1/system/restart") inside bearer.
Definition run := Router first_fit cors PanelAuth.Demo.key gate_on true true telling restart PanelAuth.Demo.s3.
Lemma run_eq : run = ((run.1.1, run.1.2), run.2).
Proof. by destruct run as [[? ?] ?]. Qed.
End Demo.

Lemma router_guards_witness :
  Demo.run.1.1 = securityHeaders Demo.restart /\
  outcome (H0 := PanelAuth.Demo.jwt) (H2 := PanelAuth.Demo.tables) PanelAuth.Demo.key Demo.gate_on Demo.telling Demo.restart PanelAuth.Demo.s3 Demo.run.1.2 Demo.run.2.
Proof.
  apply (router_guards Demo.first_fit Demo.cors PanelAuth.Demo.key Demo.gate_on true true Demo.telling Demo.restart PanelAuth.Demo.s3).
  - exact Demo.first_fit_chooses.
  - intros q Hq. unfold Demo.cors in Hq. apply andb_true_iff in Hq as [Hq _]. by apply bool_decide_eq_true in Hq.
  - exact Demo.run_eq.
Defined.
