(* ===== verification/Preview.v ===== *)
(** * The preview of an apply

    [RuleTable.Entries] and [walk] of internal/resolver/ruletable.go, and
    internal/api/apply_preview.go: the difference between the published table
    and the one the candidate rules would compile to.  The order in which Go
    ranges over a map is a parameter. *)
From S2P Require Import Prelude GoStrings GoNet Crypto Rules RuleTable Mihomo Orchestrator Db Applier Rulesets ApplyRing ApplyApi RulesApi.
From Stdlib Require Import ZArith Lia.
Local Open Scope Z_scope.

(** ** Entries *)
Record Entry := { en_Kind : bytes; en_Pattern : bytes; en_Action : DnsAction }.

(** [walk]: the terminal nodes with their names, [path] from the root. *)
Fixpoint walk (path : list bytes) (n : suffixNode) : list (bytes * bytes) :=
  (if hasAction n then [(Join (rev path) dot, sn_action n)] else []) ++
  map_fold (fun lbl child acc => walk (path ++ [lbl]) child ++ acc) [] (children n).

Definition kExact : bytes := str "exact".
Definition kSuffix : bytes := str "suffix".
Definition kKeyword : bytes := str "keyword".
Definition colon : byte := Byte.x3a.
Definition key (k pat : bytes) : bytes := k ++ colon :: pat.

Section entries.
Context `{Unicode}.

Definition entry (k pat action : bytes) : Entry := {| en_Kind := k; en_Pattern := pat; en_Action := toAction action |}.

Definition put_entry (k : bytes) (out : gmap bytes Entry) (p : bytes * bytes) : gmap bytes Entry :=
  <[key k p.1 := entry k p.1 p.2]> out.
Definition put_keyword (out : gmap bytes Entry) (kw : keywordRule) : gmap bytes Entry :=
  match out !! key kKeyword (kw_keyword kw) with
  | Some _ => out
  | None => <[key kKeyword (kw_keyword kw) := entry kKeyword (kw_keyword kw) (kw_action kw)]> out
  end.

(** [Entries]; [None] is a nil table. *)
Definition Entries (t : option RuleTable) : gmap bytes Entry :=
  match t with
  | None => ∅
  | Some t =>
      let out := foldl (put_entry kExact) ∅ (map (fun p => (p.1, ra_action p.2)) (map_to_list (exact t))) in
      let out := foldl (put_entry kSuffix) out (walk [] (suffix_trie t)) in
      foldl put_keyword out (keywords t)
  end.
End entries.

(** ** apply_preview.go *)
Definition applyPreviewSampleCap : Z := 5.

Record applyPreviewResponse := MkPreview {
  AddedBlock : Z; AddedDirect : Z; AddedProxy : Z; RemovedBlock : Z; RemovedDirect : Z; RemovedProxy : Z;
  ChangedProxy : Z; Total : Z; Sample : gmap bytes (list Entry); Hash_ : bytes
}.

(** The counters, and [addSample]. *)
Inductive bucket := Added (a : DnsAction) | Removed (a : DnsAction) | Changed.
#[export] Instance bucket_eq_dec : EqDecision bucket.
Proof. solve_decision. Defined.

Definition bucket_name (b : bucket) : bytes :=
  match b with
  | Added ActionBlock => str "added_block" | Added ActionDirect => str "added_direct" | Added ActionProxy => str "added_proxy"
  | Removed ActionBlock => str "removed_block" | Removed ActionDirect => str "removed_direct" | Removed ActionProxy => str "removed_proxy"
  | Changed => str "changed_proxy"
  end.

Definition Buckets : Type := (bucket -> Z) * gmap bytes (list Entry).

Definition bump (b : bucket) (e : Entry) (acc : Buckets) : Buckets :=
  (fun x => if decide (x = b) then acc.1 x + 1 else acc.1 x,
   let l := default [] (acc.2 !! bucket_name b) in
   if applyPreviewSampleCap <=? len l then acc.2 else <[bucket_name b := l ++ [e]]> acc.2).

Section diff.
Context (range : gmap bytes Entry -> list (bytes * Entry)).

(** The two loops: where an entry of the candidate, and one of the baseline,
    is counted. *)
Definition cand_bucket (base : gmap bytes Entry) (p : bytes * Entry) : option bucket :=
  match base !! p.1 with
  | None => Some (Added (en_Action p.2))
  | Some be => if bool_decide (en_Action be <> en_Action p.2) && bool_decide (en_Action p.2 = ActionProxy) then Some Changed else None
  end.
Definition base_bucket (cand : gmap bytes Entry) (p : bytes * Entry) : option bucket :=
  match cand !! p.1 with Some _ => None | None => Some (Removed (en_Action p.2)) end.
Definition count (f : bytes * Entry -> option bucket) (acc : Buckets) (p : bytes * Entry) : Buckets :=
  match f p with Some b => bump b p.2 acc | None => acc end.

Definition diffRuleTables (base cand : gmap bytes Entry) (hash : bytes) : applyPreviewResponse :=
  let acc := foldl (count (cand_bucket base)) (fun _ => 0, ∅) (range cand) in
  let '(n, samples) := foldl (count (base_bucket cand)) acc (range base) in
  MkPreview (n (Added ActionBlock)) (n (Added ActionDirect)) (n (Added ActionProxy))
    (n (Removed ActionBlock)) (n (Removed ActionDirect)) (n (Removed ActionProxy)) (n Changed)
    (n (Added ActionBlock) + n (Added ActionDirect) + n (Added ActionProxy) +
     n (Removed ActionBlock) + n (Removed ActionDirect) + n (Removed ActionProxy) + n Changed) samples hash.

Section handler.
Context `{Unicode} {Value Base : Type} (IsDomainName : bytes -> bool) (have_rulesets : bool).

(** [handleApplyPreview]. *)
Definition handleApplyPreview (req : option (list Rule)) : ST (@Srv Value Base) (Answer applyPreviewResponse) :=
  match req with
  | None => ret (Refused 400 (str "bad_request"))
  | Some rules =>
      let! x := effective IsDomainName have_rulesets rules in
      match x with
      | Err (st, code) => ret (Refused st code)
      | Ok set =>
          let candidate := BuildTable set in
          let! baseline := gets (fun s => resolver (Orchestrator.cp (world s)) ≫= Load) in
          ret (Answered (diffRuleTables (Entries baseline) (Entries (Some candidate)) (Hash candidate)))
      end
  end.
End handler.
End diff.
(** ** Lemmas: the walk *)
Lemma elem_of_map_fold {A B : Type} (f : bytes -> A -> list B) (m : gmap bytes A) (x : B) :
  x ∈ map_fold (fun k a acc => f k a ++ acc) [] m <-> exists k a, m !! k = Some a /\ x ∈ f k a.
Proof.
  rewrite map_fold_foldr. transitivity (exists p, p ∈ map_to_list m /\ x ∈ f p.1 p.2).
  - induction (map_to_list m) as [|[k a] l IH]; cbn [foldr uncurry].
    + split; [by intros ?%not_elem_of_nil|by intros (p & ?%not_elem_of_nil & _)].
    + rewrite elem_of_app, IH. split.
      * intros [Hx|(p & Hp & Hx)]; [exists (k, a); split; [left|done]|exists p; split; [by right|done]].
      * intros (p & Hp & Hx). apply elem_of_cons in Hp as [->|Hp]; [by left|right; by exists p].
  - split.
    + intros ([k a] & Hp%elem_of_map_to_list & Hx). by exists k, a.
    + intros (k & a & Hp & Hx). exists (k, a). split; [by apply elem_of_map_to_list|done].
Qed.

Fixpoint tsize (n : suffixNode) : nat := S (map_fold (fun _ c acc => (tsize c + acc)%nat) O (children n)).

Lemma tsize_child l c n : children n !! l = Some c -> (tsize c < tsize n)%nat.
Proof.
  destruct n as [cs a r h]. cbn [children tsize]. intros Hl. rewrite map_fold_foldr. apply elem_of_map_to_list in Hl.
  induction (map_to_list cs) as [|[k x] xs IH]; [by apply not_elem_of_nil in Hl|]. cbn [foldr uncurry].
  apply elem_of_cons in Hl as [[= <- <-]|Hl]; [lia|]. specialize (IH Hl). lia.
Qed.

Lemma suffixNode_induction (P : suffixNode -> Prop) :
  (forall n, (forall l c, children n !! l = Some c -> P c) -> P n) -> forall n, P n.
Proof.
  intros HP n. remember (tsize n) as k eqn:Hk. revert n Hk. induction (lt_wf k) as [k _ IH]. intros n ->.
  apply HP. intros l c Hl. eapply IH; [by eapply tsize_child|done].
Qed.

Lemma walk_unfold path n :
  walk path n = (if hasAction n then [(Join (rev path) dot, sn_action n)] else []) ++
    map_fold (fun lbl child acc => walk (path ++ [lbl]) child ++ acc) [] (children n).
Proof. by destruct n. Qed.

Lemma elem_of_walk n : forall path x,
  x ∈ walk path n <-> exists rl r, trie_get rl n = Some r /\ x = (Join (rev (path ++ rl)) dot, ra_action r).
Proof.
  induction n as [n IH] using suffixNode_induction. intros path x. rewrite walk_unfold, elem_of_app, elem_of_map_fold. split.
  - intros [Hx|(l & c & Hl & Hx)].
    + destruct (hasAction n) eqn:E; [|by apply not_elem_of_nil in Hx]. apply list_elem_of_singleton in Hx as ->.
      exists [], {| ra_action := sn_action n; ra_rank := sn_rank n |}. cbn [trie_get]. by rewrite E, app_nil_r.
    + apply (IH l c Hl) in Hx as (rl & r & Hr & ->). exists (l :: rl), r. cbn [trie_get]. rewrite Hl. by rewrite <- app_assoc.
  - intros ([|l rl] & r & Hr & ->); cbn [trie_get] in Hr.
    + left. destruct (hasAction n); [|done]. injection Hr as <-. rewrite app_nil_r. left.
    + right. apply bind_Some in Hr as (c & Hl & Hr). exists l, c. split; [done|]. apply (IH l c Hl).
      exists rl, r. split; [done|]. by rewrite <- app_assoc.
Qed.

(** ** Lemmas: filling the map *)
Section fill.
Context `{Unicode}.

Lemma key_inj k p q : key k p = key k q -> p = q.
Proof. unfold key. intros E. apply app_inv_head in E. by injection E. Qed.

Lemma puts_lookup k (g : bytes -> option bytes) pat : forall l m,
  (forall a, (pat, a) ∈ l <-> g pat = Some a) ->
  foldl (put_entry k) m l !! key k pat = match g pat with Some a => Some (entry k pat a) | None => m !! key k pat end.
Proof.
  induction l as [|[p a] l IH] using rev_ind; intros m Hg.
  - destruct (g pat) as [a|] eqn:E; [|done]. pose proof (proj2 (Hg a) eq_refl) as Hx. by apply not_elem_of_nil in Hx.
  - rewrite foldl_snoc. unfold put_entry at 1. cbn [fst snd]. destruct (decide (p = pat)) as [->|Hp].
    + rewrite lookup_insert_eq. rewrite (proj1 (Hg a)); [done|]. apply elem_of_app. right. left.
    + rewrite lookup_insert_ne by (by intros ?%key_inj). apply IH. intros b. rewrite <- Hg, elem_of_app, list_elem_of_singleton.
      split; [by left|intros [Hb|[= ? ?]]; [done|congruence]].
Qed.

Lemma puts_other k q l : forall m, (forall p, key k p <> q) -> foldl (put_entry k) m l !! q = m !! q.
Proof.
  induction l as [|[p a] l IH]; intros m Hq; [done|]. cbn [foldl]. rewrite IH by done. unfold put_entry.
  rewrite lookup_insert_ne; [done|apply Hq].
Qed.

Lemma keywords_lookup w l : forall m, 
  foldl put_keyword m l !! key kKeyword w =
  match m !! key kKeyword w with
  | Some e => Some e
  | None => (fun kw => entry kKeyword w (kw_action kw)) <$> found (fun kw => kw_keyword kw == w) l
  end.
Proof.
  induction l as [|kw l IH]; intros m; cbn [foldl].
  - by destruct (m !! key kKeyword w).
  - rewrite IH. unfold put_keyword. rewrite found_cons. case_bool_decide as E.
    + subst w. destruct (m !! key kKeyword (kw_keyword kw)) eqn:E; [by rewrite E|]. by rewrite lookup_insert_eq.
    + destruct (m !! key kKeyword (kw_keyword kw)); [done|]. rewrite lookup_insert_ne; [done|]. intros E'. by apply key_inj in E'.
Qed.

Lemma keywords_other q l : forall m, (forall p, key kKeyword p <> q) -> foldl put_keyword m l !! q = m !! q.
Proof.
  induction l as [|kw l IH]; intros m Hq; [done|]. cbn [foldl]. rewrite IH by done. unfold put_keyword.
  destruct (m !! _); [done|]. rewrite lookup_insert_ne; [done|apply Hq].
Qed.

(** ** What a rule list claims about a name *)
Inductive EKind := KExact | KSuffix | KKeyword.
Definition ekind (k : EKind) : bytes := match k with KExact => kExact | KSuffix => kSuffix | KKeyword => kKeyword end.

Definition names (k : EKind) (pat : bytes) (r : Rule) : bool :=
  match k with
  | KExact => (kind r == KindDomain) && (normalizeName (Rules.Pattern r) == pat)
  | KSuffix => (kind r == KindDomainSuffix) && (normalizeName (Rules.Pattern r) == pat)
  | KKeyword => (kind r == KindDomainKeyword) && (ToLower (Rules.Pattern r) == pat)
  end.

(** The action of the first enabled rule, in the order of priorities, with
    this kind and normalized pattern. *)
Definition claim (rs : list Rule) (k : EKind) (pat : bytes) : option DnsAction :=
  (fun r => toAction (Action r)) <$> found (names k pat) (sort_enabled rs).

Lemma keys_apart k k' p q : k <> k' -> key (ekind k) p <> key (ekind k') q.
Proof. by destruct k, k'. Qed.

Lemma found_list_find (P : Rule -> Prop) `{forall r, Decision (P r)} (Q : Rule -> bool) rs :
  (forall r, P r <-> Q r = true) -> ra_action <$> (ranked <$> list_find P rs) = Action <$> found Q rs.
Proof.
  intros HE. unfold found. rewrite (list_find_ext P (fun r => Q r = true)) by done. by destruct (list_find _ rs) as [[i r]|].
Qed.

Lemma keywords_compiled rs :
  (fun kw => (kw_keyword kw, kw_action kw)) <$> keywords (compile_loop emptyTable 0 rs) =
  (fun r => (ToLower (Rules.Pattern r), Action r)) <$> filter (fun r => kind r = KindDomainKeyword) rs.
Proof.
  induction rs as [|r rs IH] using rev_ind; [done|]. rewrite compile_loop_snoc, filter_app, fmap_app, <- IH.
  unfold compileRule. set (t := compile_loop emptyTable 0 rs).
  rewrite filter_cons, filter_nil. case_decide as E.
  - rewrite E. rewrite (bool_decide_false (KindDomainKeyword = KindDomain)), (bool_decide_false (KindDomainKeyword = KindDomainSuffix)), bool_decide_true by done.
    cbn [keywords]. by rewrite fmap_app.
  - rewrite app_nil_r. rewrite (bool_decide_false (kind r = KindDomainKeyword)) by done. repeat case_match; done.
Qed.

Lemma found_map {A B : Type} (f : A -> B) (P : B -> bool) l : found P (f <$> l) = f <$> found (fun a => P (f a)) l.
Proof. induction l as [|a l IH]; [done|]. cbn [fmap list_fmap]. rewrite !found_cons. destruct (P (f a)); [done|]. exact IH. Qed.

Lemma found_andb (P : Rule -> Prop) `{forall r, Decision (P r)} (Q : Rule -> bool) l :
  found Q (filter P l) = found (fun r => bool_decide (P r) && Q r) l.
Proof.
  induction l as [|a l IH]; [done|]. rewrite filter_cons, found_cons. case_decide as E.
  - rewrite found_cons, bool_decide_true by done. cbn [andb]. by rewrite IH.
  - rewrite bool_decide_false by done. exact IH.
Qed.

Lemma found_keyword rs w :
  kw_action <$> found (fun kw => kw_keyword kw == w) (keywords (compile_loop emptyTable 0 rs)) =
  Action <$> found (names KKeyword w) rs.
Proof.
  pose proof (f_equal (fun l => snd <$> found (fun p : bytes * bytes => p.1 == w) l) (keywords_compiled rs)) as E. cbv beta in E.
  rewrite !found_map, found_andb, <- !option_fmap_compose in E. exact E.
Qed.
End fill.

(** ** Lemmas: the entries of a compiled table *)
Section spec.
Context `{Unicode}.

(** A table that was compiled from [rs], whatever its generation. *)
Definition compiled (t : option RuleTable) (rs : list Rule) : Prop :=
  match t with None => rs = [] | Some t => exists g, t = set_Generation g (BuildTable rs) end.

Definition claimed (k : EKind) (pat : bytes) (a : DnsAction) : Entry := {| en_Kind := ekind k; en_Pattern := pat; en_Action := a |}.

Lemma rev_reverse {A : Type} (l : list A) : rev (reverse l) = l.
Proof. rewrite rev_alt. exact (reverse_involutive l). Qed.
Lemma join_labels s : Join (splitLabels s) dot = s.
Proof. unfold splitLabels. case_bool_decide as E; [by rewrite E|apply Join_Split]. Qed.

Lemma names_suffix pat rs :
  ra_action <$> trie_get (reverse (splitLabels pat)) (suffix_trie (compile_loop emptyTable 0 rs)) = Action <$> found (names KSuffix pat) rs.
Proof.
  rewrite (ok_trie _ _ (table_ok_compiled rs)). apply found_list_find. intros r. unfold names, rule_path.
  rewrite andb_true_iff, !bool_decide_eq_true. split; intros [Hk HE]; (split; [done|]).
  - apply (inj reverse) in HE. by rewrite <- (join_labels (normalizeName (Rules.Pattern r))), HE, join_labels.
  - by rewrite HE.
Qed.

Lemma walk_names rs pat a :
  (pat, a) ∈ walk [] (suffix_trie (compile_loop emptyTable 0 rs)) <-> Action <$> found (names KSuffix pat) rs = Some a.
Proof.
  rewrite elem_of_walk, <- names_suffix. split.
  - intros (rl & r & Hr & [= -> ->]). cbn [app]. assert (exists s, rl = reverse (splitLabels s)) as [s ->].
    { rewrite (ok_trie _ _ (table_ok_compiled rs)) in Hr. destruct (list_find _ rs) as [[i x]|] eqn:E; [|done].
      apply list_find_Some in E as (_ & [_ <-] & _). by eexists. }
    rewrite rev_reverse, join_labels. by rewrite Hr.
  - intros (r & Hr & ->)%fmap_Some. exists (reverse (splitLabels pat)), r. split; [done|]. cbn [app].
    by rewrite rev_reverse, join_labels.
Qed.

Lemma found_exact rs pat :
  ra_action <$> exact (compile_loop emptyTable 0 rs) !! pat = Action <$> found (names KExact pat) rs.
Proof.
  rewrite (ok_exact _ _ (table_ok_compiled rs)). apply found_list_find. intros r. unfold names.
  by rewrite andb_true_iff, !bool_decide_eq_true.
Qed.

Lemma exact_names rs pat a :
  (pat, a) ∈ map (fun p : bytes * rankedAction => (p.1, ra_action p.2)) (map_to_list (exact (compile_loop emptyTable 0 rs))) <->
  Action <$> found (names KExact pat) rs = Some a.
Proof.
  rewrite <- found_exact. split.
  - intros ([k r] & [= -> ->] & Hin)%list_elem_of_fmap. apply elem_of_map_to_list in Hin. by rewrite Hin.
  - intros (r & Hr & ->)%fmap_Some. apply list_elem_of_fmap. exists (pat, r). split; [done|]. by apply elem_of_map_to_list.
Qed.

Lemma entries_lookup rs k pat : Entries (Some (BuildTable rs)) !! key (ekind k) pat = claimed k pat <$> claim rs k pat.
Proof.
  unfold Entries, BuildTable. cbn [exact suffix_trie keywords]. unfold claim. set (l := sort_enabled rs).
  destruct k; cbn [ekind].
  - rewrite keywords_other by (intros q; apply (keys_apart KKeyword KExact); done).
    rewrite puts_other by (intros q; apply (keys_apart KSuffix KExact); done).
    rewrite (puts_lookup kExact (fun q => Action <$> found (names KExact q) l)) by (intros a; apply exact_names).
    destruct (found (names KExact pat) l); [done|]. apply lookup_empty.
  - rewrite keywords_other by (intros q; apply (keys_apart KKeyword KSuffix); done).
    rewrite (puts_lookup kSuffix (fun q => Action <$> found (names KSuffix q) l)) by (intros a; apply walk_names).
    destruct (found (names KSuffix pat) l); [done|]. cbn [fmap option_fmap option_map].
    rewrite puts_other by (intros q; apply (keys_apart KExact KSuffix); done). apply lookup_empty.
  - rewrite keywords_lookup. rewrite puts_other by (intros q; apply (keys_apart KSuffix KKeyword); done).
    rewrite puts_other by (intros q; apply (keys_apart KExact KKeyword); done). rewrite lookup_empty.
    pose proof (found_keyword l pat) as E. destruct (found _ (keywords _)) as [kw|], (found (names KKeyword pat) l) as [r|]; cbn in *; try done.
    injection E as E. unfold entry, claimed. by rewrite E.
Qed.

Lemma entries_keys t q e : Entries t !! q = Some e -> exists k pat, q = key (ekind k) pat.
Proof.
  destruct t as [t|]; [|unfold Entries; by rewrite lookup_empty]. intros E.
  destruct (decide (Exists (fun k => HasPrefix q (key (ekind k) []) = true) [KExact; KSuffix; KKeyword])) as [(k & _ & HP)%Exists_exists|HN].
  - apply HasPrefix_spec in HP as [pat ->]. exists k, pat. unfold key. by rewrite <- app_assoc.
  - exfalso. assert (forall k p, key (ekind k) p <> q) as HK.
    { intros k p <-. apply HN, Exists_exists. exists k. split; [destruct k; rewrite !elem_of_cons; tauto|].
      apply HasPrefix_spec. exists p. unfold key. by rewrite <- app_assoc. }
    unfold Entries in E. rewrite keywords_other in E by (intros p; apply (HK KKeyword)).
    rewrite puts_other in E by (intros p; apply (HK KSuffix)). rewrite puts_other in E by (intros p; apply (HK KExact)).
    by rewrite lookup_empty in E.
Qed.

Lemma compiled_lookup t rs k pat : compiled t rs -> Entries t !! key (ekind k) pat = claimed k pat <$> claim rs k pat.
Proof.
  destruct t as [t|]; cbn [compiled]; [intros [g ->]; exact (entries_lookup rs k pat)|].
  intros ->. unfold Entries. by rewrite lookup_empty.
Qed.
End spec.

(** ** Lemmas: counting *)
Section counting.
Context `{Unicode} (range : gmap bytes Entry -> list (bytes * Entry)).
Context (range_perm : forall m, range m ≡ₚ map_to_list m).

Lemma count_fold f b l : forall acc,
  (foldl (count f) acc l).1 b = acc.1 b + len (filter (fun p => f p = Some b) l).
Proof.
  induction l as [|p l IH]; intros acc; [rewrite filter_nil; unfold len; cbn [foldl length]; lia|]. cbn [foldl]. rewrite IH, filter_cons. unfold count.
  destruct (f p) as [b'|]; cbn [fst bump].
  - destruct (decide (b = b')) as [<-|Hb]; [rewrite !decide_True by done; unfold len; cbn [length]; lia|]. by rewrite !decide_False by congruence.
  - by rewrite decide_False by done.
Qed.

Definition small (m : gmap bytes (list Entry)) : Prop := map_Forall (fun _ l => len l <= applyPreviewSampleCap) m.

Lemma count_small f l : forall acc, small acc.2 -> small (foldl (count f) acc l).2.
Proof.
  induction l as [|p l IH]; intros acc Ha; [done|]. cbn [foldl]. apply IH. unfold count. destruct (f p) as [b|]; [|done].
  cbn [bump snd]. destruct (applyPreviewSampleCap <=? len _) eqn:E; [done|]. apply Z.leb_gt in E.
  apply map_Forall_insert_2; [|done]. unfold len in *. rewrite length_app. cbn [length]. lia.
Qed.

(** The number a bucket shows. *)
Definition counter (r : applyPreviewResponse) (b : bucket) : Z :=
  match b with
  | Added ActionBlock => AddedBlock r | Added ActionDirect => AddedDirect r | Added ActionProxy => AddedProxy r
  | Removed ActionBlock => RemovedBlock r | Removed ActionDirect => RemovedDirect r | Removed ActionProxy => RemovedProxy r
  | Changed => ChangedProxy r
  end.

(** Which claims belong to it. *)
Definition in_bucket (rs0 rs : list Rule) (b : bucket) (k : EKind) (pat : bytes) : Prop :=
  match b with
  | Added a => claim rs0 k pat = None /\ claim rs k pat = Some a
  | Removed a => claim rs0 k pat = Some a /\ claim rs k pat = None
  | Changed => claim rs k pat = Some ActionProxy /\ exists a, claim rs0 k pat = Some a /\ a <> ActionProxy
  end.

Definition bucket_of (base cand : gmap bytes Entry) (b : bucket) : list (bytes * Entry) :=
  match b with
  | Removed _ => filter (fun p => base_bucket cand p = Some b) (range base)
  | _ => filter (fun p => cand_bucket base p = Some b) (range cand)
  end.

Lemma filter_none {A : Type} (P : A -> Prop) `{forall a, Decision (P a)} l : (forall a, ~ P a) -> len (filter P l) = 0.
Proof. intros HP. induction l as [|a l IH]; [done|]. rewrite filter_cons, decide_False by apply HP. exact IH. Qed.

Lemma diff_counter base cand h b : counter (diffRuleTables range base cand h) b = len (bucket_of base cand b).
Proof.
  unfold diffRuleTables. set (acc := foldl _ _ (range cand)).
  destruct (foldl (count (base_bucket cand)) acc (range base)) as [n samples] eqn:E.
  assert (forall b, n b = len (filter (fun p => cand_bucket base p = Some b) (range cand)) + len (filter (fun p => base_bucket cand p = Some b) (range base))) as HN.
  { intros b'. change (n b') with ((n, samples).1 b'). rewrite <- E, count_fold. unfold acc. rewrite count_fold. cbn [fst]. lia. }
  assert (counter (MkPreview (n (Added ActionBlock)) (n (Added ActionDirect)) (n (Added ActionProxy))
    (n (Removed ActionBlock)) (n (Removed ActionDirect)) (n (Removed ActionProxy)) (n Changed)
    (n (Added ActionBlock) + n (Added ActionDirect) + n (Added ActionProxy) +
     n (Removed ActionBlock) + n (Removed ActionDirect) + n (Removed ActionProxy) + n Changed) samples h) b = n b) as ->
    by (destruct b as [[]|[]|]; reflexivity).
  rewrite HN. unfold bucket_of. destruct b as [a|a|].
  - rewrite (filter_none (fun p => base_bucket cand p = Some (Added a))); [lia|].
    intros p. unfold base_bucket. by destruct (cand !! p.1).
  - rewrite (filter_none (fun p => cand_bucket base p = Some (Removed a))); [lia|].
    intros p. unfold cand_bucket. destruct (base !! p.1); [|done]. by destruct (_ && _).
  - rewrite (filter_none (fun p => base_bucket cand p = Some Changed)); [lia|].
    intros p. unfold base_bucket. by destruct (cand !! p.1).
Qed.

Lemma diff_total base cand h (r := diffRuleTables range base cand h) :
  Total r = AddedBlock r + AddedDirect r + AddedProxy r + RemovedBlock r + RemovedDirect r + RemovedProxy r + ChangedProxy r /\
  small (Sample r).
Proof.
  subst r. unfold diffRuleTables. set (acc := foldl _ _ (range cand)).
  assert (small acc.2) as HA by (apply count_small; apply map_Forall_empty).
  pose proof (count_small (base_bucket cand) (range base) acc HA) as HS.
  by destruct (foldl (count (base_bucket cand)) acc (range base)) as [n samples].
Qed.

(** The claim an entry stands for. *)
Definition kind_of (k : bytes) : EKind := if k == kExact then KExact else if k == kSuffix then KSuffix else KKeyword.
Definition ident (p : bytes * Entry) : EKind * bytes := (kind_of (en_Kind p.2), en_Pattern p.2).
Definition ident_key (i : EKind * bytes) : bytes := key (ekind i.1) i.2.

Lemma kind_of_ekind k : kind_of (ekind k) = k.
Proof. by destruct k. Qed.

Lemma compiled_range t rs p : compiled t rs ->
  p ∈ range (Entries t) <-> exists k pat a, claim rs k pat = Some a /\ p = (key (ekind k) pat, claimed k pat a).
Proof.
  intros HC. rewrite range_perm. destruct p as [q e]. rewrite elem_of_map_to_list. split.
  - intros HE. destruct (entries_keys t q e HE) as (k & pat & ->). rewrite (compiled_lookup t rs k pat HC) in HE.
    apply fmap_Some in HE as (a & Ha & ->). by exists k, pat, a.
  - intros (k & pat & a & Ha & [= -> ->]). by rewrite (compiled_lookup t rs k pat HC), Ha.
Qed.

Lemma ident_claimed k pat a : ident (key (ekind k) pat, claimed k pat a) = (k, pat).
Proof. unfold ident. cbn [snd claimed en_Kind en_Pattern]. by rewrite kind_of_ekind. Qed.

(** The claims of some entries, each once. *)
Lemma idents_once t rs (P : bytes * Entry -> Prop) `{forall p, Decision (P p)} : compiled t rs ->
  NoDup (ident <$> filter P (range (Entries t))).
Proof.
  intros HC. apply (NoDup_fmap_1 ident_key). rewrite <- list_fmap_compose.
  assert (ident_key ∘ ident <$> filter P (range (Entries t)) = fst <$> filter P (range (Entries t))) as ->.
  { apply list_fmap_ext. intros i p Hp. apply list_elem_of_lookup_2, list_elem_of_filter in Hp as [_ Hp].
    apply (compiled_range t rs p HC) in Hp as (k & pat & a & _ & ->). unfold compose. by rewrite ident_claimed. }
  eapply (sublist_NoDup _ (fst <$> range (Entries t))).
  - rewrite range_perm. apply NoDup_fst_map_to_list.
  - apply fmap_sublist, sublist_filter.
Qed.

Lemma in_bucket_of t0 t rs0 rs b k pat : compiled t0 rs0 -> compiled t rs ->
  (k, pat) ∈ ident <$> bucket_of (Entries t0) (Entries t) b <-> in_bucket rs0 rs b k pat.
Proof.
  intros H0 H1. assert (forall t rs P `{forall p, Decision (P p)}, compiled t rs ->
    (k, pat) ∈ ident <$> filter P (range (Entries t)) <-> exists a, claim rs k pat = Some a /\ P (key (ekind k) pat, claimed k pat a)) as HF.
  { intros t' rs' P HP HC. rewrite list_elem_of_fmap. split.
    - intros (p & Hi & [Hp Hr]%list_elem_of_filter). apply (compiled_range _ _ _ HC) in Hr as (k' & pat' & a & Ha & ->).
      rewrite ident_claimed in Hi. injection Hi as -> ->. by exists a.
    - intros (a & Ha & Hp). exists (key (ekind k) pat, claimed k pat a). split; [by rewrite ident_claimed|].
      apply list_elem_of_filter. split; [done|]. apply (compiled_range _ _ _ HC). by exists k, pat, a. }
  pose proof (compiled_lookup t0 rs0 k pat H0) as E0. pose proof (compiled_lookup t rs k pat H1) as E1.
  destruct b as [a|a|]; unfold bucket_of;
    [rewrite (HF t rs _ _ H1)|rewrite (HF t0 rs0 _ _ H0)|rewrite (HF t rs _ _ H1)]; unfold in_bucket, cand_bucket, base_bucket; cbn [fst snd].
  - rewrite E0. destruct (claim rs0 k pat) as [a0|]; cbn [fmap option_fmap option_map].
    + split; [|by intros [? _]]. intros (a' & _ & Hb). by destruct (_ && _).
    + split; [intros (a' & Ha & [= <-]); done|intros [_ Ha]; by exists a].
  - rewrite E1. destruct (claim rs k pat) as [a1|]; cbn [fmap option_fmap option_map].
    + split; [by intros (a' & _ & ?)|by intros [_ ?]].
    + split; [intros (a' & Ha & [= <-]); done|intros [Ha _]; by exists a].
  - rewrite E0. destruct (claim rs0 k pat) as [a0|]; cbn [fmap option_fmap option_map].
    + split.
      * intros (a' & Ha & Hb). cbn [claimed en_Action] in Hb. case_bool_decide as N1; [|done]. case_bool_decide as N2; [|done].
        subst a'. split; [done|]. by exists a0.
      * intros (Ha & a & [= <-] & Hn). exists ActionProxy. split; [done|]. cbn [claimed en_Action]. by rewrite !bool_decide_true.
    + split; [by intros (a' & _ & ?)|by intros (_ & ? & ? & _)].
Qed.
End counting.

Lemma effective_world `{Unicode} {Value Base : Type} IsDomainName have_rulesets rules (s : @Srv Value Base) :
  world (effective IsDomainName have_rulesets rules s).2 = world s.
Proof.
  unfold effective, bind, on_reg. destruct (expandRulesets _ _ _ _) as [[e|l] g]; [done|].
  destruct (RuleSet_Validate _ _); done.
Qed.

(** ** Properties *)

(** the preview tells exactly what would change among the claims of the
    rules: for the effective rules of the candidate and a table published for
    [rs0] (or none), every counter is the number of pairs of a kind and a
    normalized pattern whose first enabled claim is added, removed, or turned
    into proxy with the counter's action; the total is their sum, so it is
    zero exactly when no claim appears or disappears and none turns into
    proxy; samples stay within the cap; and nothing of the panel changes. *)
Theorem preview_exact `{Unicode} {Value Base : Type} range IsDomainName have_rulesets rules set rs0 (s : @Srv Value Base) resp s' :
  (forall m, range m ≡ₚ map_to_list m) ->
  (effective IsDomainName have_rulesets rules s).1 = Ok set ->
  compiled (resolver (Orchestrator.cp (world s)) ≫= Load) rs0 ->
  handleApplyPreview range IsDomainName have_rulesets (Some rules) s = (Answered resp, s') ->
  Hash_ resp = Hash (BuildTable set) /\ world s' = world s /\
  (forall b, exists l, NoDup l /\ (forall k pat, (k, pat) ∈ l <-> in_bucket rs0 set b k pat) /\ counter resp b = len l) /\
  Total resp = AddedBlock resp + AddedDirect resp + AddedProxy resp + RemovedBlock resp + RemovedDirect resp + RemovedProxy resp + ChangedProxy resp /\
  small (Sample resp).
Proof.
  intros HR HE HC E. unfold handleApplyPreview, bind in E. pose proof (effective_world IsDomainName have_rulesets rules s) as HW.
  destruct (effective _ _ _ s) as [x s1]. cbn in HE, HW. subst x. unfold gets, ret in E. injection E as <- <-. rewrite HW.
  split; [by unfold diffRuleTables; destruct (foldl _ _ (range _))|]. split; [done|]. split; [|apply diff_total].
  intros b. rewrite diff_counter. set (t0 := _ ≫= Load) in *. exists (ident <$> bucket_of range (Entries t0) (Entries (Some (BuildTable set))) b).
  assert (compiled (Some (BuildTable set)) set) as HS by (by exists (Generation (BuildTable set))).
  split; [destruct b; [apply (idents_once range HR _ set _ HS)|apply (idents_once range HR t0 rs0 _ HC)|apply (idents_once range HR _ set _ HS)]|].
  split; [intros k pat; by apply in_bucket_of|]. unfold len. by rewrite length_fmap.
Qed.

(** ** A concrete run *)
Module Demo.
#[export] Instance tables : Unicode := ascii_tables.
Definition any_name (_ : bytes) : bool := true.
Definition order (m : gmap bytes Entry) : list (bytes * Entry) := map_to_list m.
Definition rule (id : bytes) (k : Kind) (p a : bytes) (prio : Z) : Rule := RulesApi.Demo.rule id k p a prio.

Definition before : list Rule :=
  [rule (str "a") KindDomainSuffix (str "example.com") (str "direct") 10; rule (str "b") KindDomainKeyword (str "ads") (str "block") 20;
   rule (str "m") KindMatch [] (str "proxy") 90].
Definition after : list Rule :=
  [rule (str "a") KindDomainSuffix (str "example.com") (str "PROXY") 10; rule (str "c") KindDomain (str "x.org") (str "block") 30;
   rule (str "m") KindMatch [] (str "proxy") 90].

Definition counters (r : applyPreviewResponse) : list Z :=
  [AddedBlock r; AddedDirect r; AddedProxy r; RemovedBlock r; RemovedDirect r; RemovedProxy r; ChangedProxy r; Total r].
Definition diff (a b : list Rule) : applyPreviewResponse :=
  diffRuleTables order (Entries (Some (BuildTable a))) (Entries (Some (BuildTable b))) [].

Example diff_counts : counters (diff before after) = [1; 0; 0; 1; 0; 0; 1; 3].
Proof. by vm_compute. Qed.

(** What the counters do not show: the order of the rules, the default, and
    a claim that turns into block.  The total is zero and names are
    classified differently. *)
Definition swapped : list Rule :=
  [rule (str "a") KindDomainSuffix (str "example.com") (str "direct") 30; rule (str "b") KindDomainKeyword (str "ads") (str "block") 20;
   rule (str "m") KindMatch [] (str "block") 90].
Lemma preview_blind :
  counters (diff before swapped) = [0; 0; 0; 0; 0; 0; 0; 0] /\
  (classify (Some (BuildTable before)) (str "ads.example.com"), classify (Some (BuildTable swapped)) (str "ads.example.com")) = (ActionDirect, ActionBlock) /\
  (classify (Some (BuildTable before)) (str "other.net"), classify (Some (BuildTable swapped)) (str "other.net")) = (ActionProxy, ActionBlock).
Proof. split_and!; by vm_compute. Qed.

Lemma order_perm m : order m ≡ₚ map_to_list m.
Proof. done. Qed.
Definition s0 := ApplyApi.Demo.s0.
Definition run := handleApplyPreview order any_name false (Some after) s0.
Definition resp : applyPreviewResponse := match run.1 with Answered r => r | _ => diff [] [] end.
Lemma preview_run_eq : run = (Answered resp, run.2).
Proof. unfold resp. destruct run as [[| |r] s] eqn:E; [exfalso..|done]; pose proof (f_equal (fun x => match x.1 with Answered _ => true | _ => false end) E) as F; by vm_compute in F. Qed.
End Demo.

Lemma preview_exact_witness :
  exists rs0, Total Demo.resp = AddedBlock Demo.resp + AddedDirect Demo.resp + AddedProxy Demo.resp + RemovedBlock Demo.resp +
    RemovedDirect Demo.resp + RemovedProxy Demo.resp + ChangedProxy Demo.resp /\
  exists l, NoDup l /\ (forall k pat, (k, pat) ∈ l <-> in_bucket (H := Demo.tables) rs0 Demo.after (Added ActionBlock) k pat) /\ AddedBlock Demo.resp = len l.
Proof.
  exists ApplyApi.Demo.proxy. pose proof (preview_exact (H := Demo.tables) Demo.order Demo.any_name false Demo.after Demo.after ApplyApi.Demo.proxy Demo.s0 Demo.resp Demo.run.2
    Demo.order_perm ltac:(vm_compute; reflexivity) ltac:(exists 1; reflexivity) Demo.preview_run_eq) as (_ & _ & HB & HT & _).
  split; [exact HT|exact (HB (Added ActionBlock))].
Defined.
