(* ===== verification/ImportApi.v ===== *)
(** * One-shot imports (internal/api/rules_import.go)

    The handler that fetches or takes a rule list and returns candidate rules
    for the draft.  The request is what the JSON decoder returned; the HTTP
    client and [url.Parse] are parameters, as in Rulesets.v, and a fetch is
    the response it got.  A priority is a Go int: it wraps. *)
From S2P Require Import Prelude GoStrings GoNet GoCodec Rules RuleTable Netguard RuleImport Rulesets RulesApi.
From Stdlib Require Import ZArith Lia.
Local Open Scope Z_scope.

Record importRequest := {
  URL_ : bytes; Text : bytes; q_Action : bytes; IDPrefix : bytes; StartingPrio : Z; Keep : list bytes; DirectCats : list bytes
}.
Record importResponse := {
  Rules_ : list Rule; Converted_ : nat; Dropped_ : nat; Categories_ : list bytes; SourceURL_ : bytes; SourceKind : bytes; SourceFormat : bytes
}.

(** Two's complement of 64 bits. *)
Definition wrap64 (z : Z) : Z := (z + 2 ^ 63) mod 2 ^ 64 - 2 ^ 63.

(** [strings.SplitN] with the limit 3. *)
Definition SplitN3 (s : bytes) (c : byte) : list bytes :=
  match Split s c with
  | a :: b :: d :: rest => [a; b; Join (d :: rest) c]
  | l => l
  end.

Definition direct : bytes := str "direct".
Definition block : bytes := str "block".

Section import.
Context `{Unicode}.

(** The kind, the pattern and the category of a line. *)
Definition line_parts (line : bytes) : option (bytes * bytes * bytes) :=
  match SplitN3 line comma with
  | p0 :: p1 :: rest =>
      let kind := ToUpper (TrimSpace p0) in
      if (kind == str "FINAL") || (kind == str "MATCH") then Some (str "MATCH", [], TrimSpace p1)
      else match rest with
           | p2 :: _ => Some (kind, TrimSpace p1, TrimSpace p2)
           | [] => None
           end
  | _ => None
  end.

Definition rule_action (action cat : bytes) : bytes :=
  let low := ToLower cat in if (low != direct) && (low != block) then action else cat.

(** The loop over the lines; [i] is the index of the line. *)
Fixpoint import_rules (action idPrefix : bytes) (i prio : Z) (lines : list bytes) : list Rule :=
  match lines with
  | [] => []
  | line :: lines =>
      match line_parts line with
      | None => import_rules action idPrefix (i + 1) prio lines
      | Some (kind, pattern, cat) =>
          {| ID := idPrefix ++ strconv_Itoa (i + 1); Rules.kind := kind; Pattern := pattern; Action := rule_action action cat;
             Priority := prio; Enabled := true; Notes := []; GroupID := [] |} ::
          import_rules action idPrefix (i + 1) (wrap64 (prio + 10)) lines
      end
  end.

Definition importMaxBytes : Z := 2 * 1024 * 1024.

Section fetch.
Context (url_Parse : bytes -> option URL) (NewRequest : bytes -> bool) (Do : bytes -> option Response).

(** [fetchRuleset]; [None] is an error. *)
Definition fetchRuleset (url : bytes) (maxBytes : Z) : option bytes :=
  if negb (NewRequest url) then None
  else match Do url with
       | None => None
       | Some resp =>
           if 400 <=? StatusCode resp then None
           else match read_limited resp (maxBytes + 1) with
                | None => None
                | Some data => if maxBytes <? len data then None else Some data
                end
       end.

(** The text, where it is from and its URL. *)
Definition import_source (req : importRequest) : res (Z * bytes) (bytes * bytes * bytes) :=
  let url := TrimSpace (URL_ req) in
  if url != [] then
    match ValidateHTTPURL url_Parse url with
    | Err _ => Err (400, str "bad_url")
    | Ok _ => match fetchRuleset url importMaxBytes with
              | None => Err (502, str "fetch_failed")
              | Some body => Ok (body, str "url", url)
              end
    end
  else if TrimSpace (Text req) != [] then Ok (Text req, str "text", [])
  else Err (400, str "empty").

Definition or_text (s def : bytes) : bytes := if s == [] then def else s.

Definition handleImportRules (req : option importRequest) : Answer importResponse :=
  match req with
  | None => Refused 400 (str "bad_request")
  | Some req =>
      let action := or_text (TrimSpace (q_Action req)) (str "PROXY") in
      let idPrefix := or_text (IDPrefix req) (str "imp-") in
      let startPrio := if StartingPrio req =? 0 then 200 else StartingPrio req in
      match import_source req with
      | Err (st, code) => Refused st code
      | Ok (body, sourceKind, sourceURL) =>
          let '(csvLines, rep) := Import_list body {| KeepCategories := Keep req; DirectCategories := DirectCats req |} in
          Answered {| Rules_ := import_rules action idPrefix 0 startPrio csvLines; Converted_ := Converted rep; Dropped_ := Dropped rep;
                      Categories_ := Categories rep; SourceURL_ := sourceURL; SourceKind := sourceKind;
                      SourceFormat := if bool_decide (str "gfwlist" ∈ Categories rep) then str "gfwlist" else [] |}
      end
  end.
End fetch.
End import.

(** ** Lemmas *)
Section lemmas.
Context `{Unicode}.

Lemma import_rules_ids action pre lines : forall i prio r,
  r ∈ import_rules action pre i prio lines -> exists k, i < k <= i + len lines /\ ID r = pre ++ strconv_Itoa k.
Proof.
  induction lines as [|line lines IH]; intros i prio r; cbn [import_rules]; [by intros ?%not_elem_of_nil|].
  rewrite len_cons. pose proof (len_nonneg lines). destruct (line_parts line) as [[[k p] cat]|].
  - intros [->|Hr]%elem_of_cons; [exists (i + 1); cbn [ID]; split; [lia|done]|].
    destruct (IH _ _ _ Hr) as (x & Hx & HE). exists x. split; [lia|done].
  - intros Hr. destruct (IH _ _ _ Hr) as (x & Hx & HE). exists x. split; [lia|done].
Qed.

Lemma Itoa_inj a b : 0 < a < 10 ^ 20 -> 0 < b < 10 ^ 20 -> strconv_Itoa a = strconv_Itoa b -> a = b.
Proof.
  intros Ha Hb E. destruct (strconv_Itoa_pos a Ha) as (_ & _ & HA), (strconv_Itoa_pos b Hb) as (_ & _ & HB). congruence.
Qed.

Lemma import_rules_NoDup action pre lines : forall i prio, 0 <= i -> i + len lines < 10 ^ 20 ->
  NoDup (ID <$> import_rules action pre i prio lines).
Proof.
  induction lines as [|line lines IH]; intros i prio Hi Hl; cbn [import_rules]; [constructor|].
  rewrite len_cons in Hl. destruct (line_parts line) as [[[k p] cat]|]; [|apply IH; lia].
  cbn [fmap list_fmap ID]. constructor; [|apply IH; lia]. intros (r & HE & Hr)%list_elem_of_fmap.
  destruct (import_rules_ids _ _ _ _ _ _ Hr) as (x & Hx & HI). rewrite HI in HE. apply app_inv_head, Itoa_inj in HE; lia.
Qed.

Lemma import_rules_at action pre lines : forall i prio n r,
  import_rules action pre i prio lines !! n = Some r -> - 2 ^ 63 <= prio -> prio + 10 * Z.of_nat n < 2 ^ 63 ->
  Priority r = prio + 10 * Z.of_nat n /\ Enabled r = true /\ GroupID r = [] /\
  (Action r = action \/ ToLower (Action r) = direct \/ ToLower (Action r) = block).
Proof.
  induction lines as [|line lines IH]; intros i prio n r; cbn [import_rules]; [done|].
  destruct (line_parts line) as [[[k p] cat]|]; [destruct n as [|n]|by apply IH].
  - intros [= <-] _ _. cbn [Priority Enabled GroupID Action]. split_and!; [lia|done|done|].
    unfold rule_action. case_bool_decide as E1; [by right; left|]. cbn [negb andb]. case_bool_decide as E2; [by right; right|]. by left.
  - intros Hr Hlo Hhi. cbn [lookup list_lookup] in Hr. assert (wrap64 (prio + 10) = prio + 10) as HW.
    { unfold wrap64. rewrite Z.mod_small; lia. }
    rewrite HW in Hr. destruct (IH (i + 1) (prio + 10) n r Hr) as (Hp & Hrest); [lia|lia|]. split; [lia|done].
Qed.

(** *** The lines of an AutoProxy list *)
Lemma SplitN3_line3 k v p : comma ∉ k -> comma ∉ v -> comma ∉ p -> SplitN3 (line3 k v p) comma = [k; v; p].
Proof.
  intros Hk Hv Hp. assert (line3 k v p = Join [k; v; p] comma) as -> by done.
  unfold SplitN3. rewrite Split_Join; [done|done|]. by repeat constructor.
Qed.

Definition gfw_imported (action pre : bytes) (prio : Z) (i : nat) (e : entry) : Rule :=
  {| ID := pre ++ strconv_Itoa (Z.of_nat i + 1); kind := e.1.1; Pattern := e.1.2;
     Action := if e.2 == gfwlistPolicyDIRECT then gfwlistPolicyDIRECT else action;
     Priority := prio; Enabled := true; Notes := []; GroupID := [] |}.

Lemma line_parts_gfw e : gfw_entry e -> line_parts (entry_line e) = Some (e.1.1, e.1.2, e.2).
Proof.
  intros He. pose proof (gfw_entry_plain e He) as (Hk & Hv & Hp & _). destruct (legacyKeep_facts _ Hk) as (Hkp & Hku & _).
  destruct He as (Hk' & _ & _). unfold line_parts, entry_line. rewrite SplitN3_line3 by (by apply plain_free).
  rewrite !TrimSpace_visible by (by apply plain_visible). rewrite Hku.
  assert (forallb (fun k => negb (k == str "FINAL") && negb (k == str "MATCH")) gfw_kinds = true) as HF by by vm_compute.
  rewrite forallb_forall in HF. apply list_elem_of_In, HF, andb_true_iff in Hk' as [K1 K2].
  apply negb_true_iff in K1, K2. by rewrite K1, K2.
Qed.

Lemma rule_action_gfw action cat : cat ∈ gfw_policies ->
  rule_action action cat = if cat == gfwlistPolicyDIRECT then gfwlistPolicyDIRECT else action.
Proof.
  intros Hc. unfold rule_action. assert (Forall (fun p => forall a : bytes, (if (ToLower p != direct) && (ToLower p != block) then a else p) =
    if p == gfwlistPolicyDIRECT then gfwlistPolicyDIRECT else a) gfw_policies) as HF by (repeat constructor).
  rewrite Forall_forall in HF. by apply HF.
Qed.

(** Which rules two imports agree on. *)
Definition same_effect (a b : Rule) : Prop :=
  kind a = kind b /\ Pattern a = Pattern b /\ Action a = Action b /\ Enabled a = Enabled b.

Lemma import_rules_gfw rs action pre es : RAction rs = action -> Forall gfw_entry es -> forall i j prio,
  Forall2 same_effect (import_rules action pre i prio (entry_line <$> es)) (imap (fun k e => gfw_rule rs (j + k) e) es).
Proof.
  intros Ha. induction 1 as [|e es He Hes IH]; intros i j prio; [constructor|]. cbn [fmap list_fmap import_rules imap].
  rewrite (line_parts_gfw e He). constructor.
  - unfold gfw_rule. split_and!; cbn [kind Pattern Action Enabled]; try done. destruct He as (_ & _ & He). rewrite rule_action_gfw, Ha by done. done.
  - erewrite (imap_ext _ (fun k e => gfw_rule rs (S j + k) e)); [apply IH|]. intros k x _. cbn. f_equal. lia.
Qed.
End lemmas.

(** ** Properties *)
Section properties.
Context `{Unicode} (IsDomainName : bytes -> bool).
Context (url_Parse : bytes -> option URL) (NewRequest : bytes -> bool) (Do : bytes -> option Response).

(** What an import returns can be merged into a draft: ids are distinct,
    priorities go up by ten from the start, every rule is enabled, belongs to
    no rule set, and has the requested action unless its category is direct
    or block. *)
Lemma import_mergeable req resp :
  handleImportRules url_Parse NewRequest Do (Some req) = Answered resp ->
  exists (lines : list bytes) (start : Z), len (Rules_ resp) <= len lines /\ (StartingPrio req <> 0 -> start = StartingPrio req) /\
    (len lines < 10 ^ 20 -> NoDup (ID <$> Rules_ resp)) /\
    forall n r, Rules_ resp !! n = Some r -> - 2 ^ 63 <= start -> start + 10 * Z.of_nat n < 2 ^ 63 ->
      Priority r = start + 10 * Z.of_nat n /\ Enabled r = true /\ GroupID r = [] /\
      (Action r = or_text (TrimSpace (q_Action req)) (str "PROXY") \/ ToLower (Action r) = direct \/ ToLower (Action r) = block).
Proof.
  unfold handleImportRules. destruct (import_source _ _ _ req) as [[st c]|[[body k] u]]; [done|].
  destruct (Import_list body _) as [lines rep]. intros [= <-]. cbn [Rules_]. exists lines, (if StartingPrio req =? 0 then 200 else StartingPrio req).
  split; [|split; [|split]].
  - generalize 0, (if StartingPrio req =? 0 then 200 else StartingPrio req). induction lines as [|l ls IH]; intros i prio; cbn [import_rules]; [done|].
    rewrite len_cons. destruct (line_parts l) as [[[]]|]; [rewrite len_cons|]; [specialize (IH (i + 1) (wrap64 (prio + 10)))|specialize (IH (i + 1) prio)]; lia.
  - intros Hs. by rewrite (proj2 (Z.eqb_neq _ _)).
  - intros Hl. apply import_rules_NoDup; lia.
  - intros n r. apply import_rules_at.
Qed.

(** importing an AutoProxy list once and registering it as a rule set
    mean the same: for the same text (plain or in base64), the same action
    and valid domain names, the import returns, in the same order, a rule
    with the kind, the pattern and the action of each rule the rule set
    expands to. *)
Theorem import_agrees_with_rulesets rs body req :
  REnabled rs = true -> expandable rs -> looksLikeGFWList body = true ->
  Content rs = body \/ (exists url, stripAllWhitespace (Content rs) = b64_encode url body /\
                          (32 <= len (b64_encode url body))%Z) ->
  (forall raw k v p, raw ∈ Split body newline -> gfw_line raw = Some (k, v, p) -> IsDomainName v = true) ->
  (exists raw, raw ∈ Split body newline /\ gfw_line raw <> None) ->
  TrimSpace (URL_ req) = [] -> Text req = Content rs -> TrimSpace (Text req) <> [] ->
  TrimSpace (q_Action req) = RAction rs -> RAction rs <> [] -> Keep req = [] -> DirectCats req = [] ->
  exists resp, handleImportRules url_Parse NewRequest Do (Some req) = Answered resp /\
    (len (Rules_ resp) < 10 ^ 20 -> exists out, expandList IsDomainName [rs] = Ok out /\ Forall2 same_effect (Rules_ resp) out).
Proof.
  intros Hen Hx Hl Hc HD (raw0 & Hraw0 & Hne) Hu Ht Hb Ha Hne' Hk Hd.
  destruct (Import_gfwlist_entries no_options body (Content rs) eq_refl eq_refl Hl Hc) as (es & HG & HI & _ & Hnd & Hes & _ & _ & _).
  unfold handleImportRules, import_source. rewrite Hu. cbn [negb]. rewrite (bool_decide_true ([] = [])) by done. cbn [negb].
  rewrite (bool_decide_false (TrimSpace (Text req) = [])) by done. cbn [negb]. rewrite Hk, Hd, Ht. fold no_options.
  destruct (Import_list (Content rs) no_options) as [lines rep] eqn:EI. cbn [fst] in HI. eexists. split; [reflexivity|]. cbn [Rules_].
  unfold or_text. rewrite Ha, (bool_decide_false (RAction rs = [])) by done.
  set (pre := if IDPrefix req == [] then _ else _). set (start := if StartingPrio req =? 0 then _ else _). intros Hlen.
  pose proof (import_rules_gfw rs (RAction rs) pre es eq_refl HG 0 0%nat start) as HF. rewrite <- HI in HF.
  assert (Z.of_nat (length es) < 10 ^ 20) as Hes20.
  { apply Forall2_length in HF. rewrite length_imap in HF. unfold len in Hlen. lia. }
  exists (imap (fun k e => gfw_rule rs (0 + k) e) es). split; [|exact HF]. cbn [expandList].
  assert (contributes rs = true) as ->.
  { unfold contributes. rewrite Hen. cbn. destruct (Content rs) as [|c l] eqn:EC; [|done]. exfalso. apply Hb. by rewrite Ht. }
  assert (Forall (fun e => IsDomainName e.1.2 = true) es) as HDs.
  { apply Forall_forall. intros [[k v] p] (raw & Hr & E)%Hes. by eapply HD. }
  unfold expand_one. rewrite EI, HI, expand_lines_gfw by (try done; lia). rewrite length_imap.
  destruct es as [|e es]; [exfalso; destruct (gfw_line raw0) as [e|] eqn:E; [|done]; apply (elem_of_nil e), Hes; eauto|].
  cbn [length Nat.eqb]. by rewrite app_nil_r.
Qed.
End properties.

(** ** Concrete runs *)
Module Demo.
#[export] Instance tables : Unicode := ascii_tables.
Definition request (text action : bytes) : importRequest :=
  {| URL_ := []; Text := text; q_Action := action; IDPrefix := []; StartingPrio := 0; Keep := []; DirectCats := [] |}.
Definition answer (_ : bytes) : option Response := None.
Definition import (req : importRequest) : Answer importResponse := handleImportRules Rulesets.Demo.parse (fun _ => true) answer (Some req).
Definition shown (a : Answer importResponse) : list (bytes * Kind * bytes * bytes * Z) :=
  match a with Answered r => (fun r => (ID r, kind r, Pattern r, Action r, Priority r)) <$> Rules_ r | _ => [] end.

Definition clash : bytes := str "DOMAIN,a.com,direct
DOMAIN-SUFFIX,ads.net,REJECT
FINAL,Proxy".

(** A REJECT rule of an imported list, which would block, becomes a rule for
    the chosen exit. *)
Lemma reject_becomes_proxy :
  shown (import (request clash (str "hk"))) =
    [(str "imp-1", KindDomain, str "a.com", str "direct", 200);
     (str "imp-2", KindDomainSuffix, str "ads.net", str "hk", 210);
     (str "imp-3", KindMatch, [], str "hk", 220)] /\
  toAction (str "REJECT") = ActionBlock.
Proof. split; by vm_compute. Qed.

(** A start near the largest integer wraps to the least priority values. *)
Lemma priority_wraps :
  (fun x => x.2) <$> shown (import {| URL_ := []; Text := clash; q_Action := str "hk"; IDPrefix := []; StartingPrio := 2 ^ 63 - 8; Keep := []; DirectCats := [] |}) =
  [2 ^ 63 - 8; - 2 ^ 63 + 2; - 2 ^ 63 + 12].
Proof. by vm_compute. Qed.

Definition gfw_request : importRequest := request gfw_wrapped (str " hk ").
End Demo.

Lemma import_agrees_with_rulesets_witness :
  exists resp, handleImportRules (H := Demo.tables) Rulesets.Demo.parse (fun _ => true) Demo.answer (Some Demo.gfw_request) = Answered resp /\
    (len (Rules_ resp) < 10 ^ 20 -> exists out, expandList (H := Demo.tables) Rulesets.Demo.any_domain [cached] = Ok out /\ Forall2 same_effect (Rules_ resp) out).
Proof.
  apply (import_agrees_with_rulesets (H := Demo.tables) Rulesets.Demo.any_domain Rulesets.Demo.parse (fun _ => true) Demo.answer cached gfw_body_sample Demo.gfw_request).
  - reflexivity.
  - split; [repeat constructor|]. split; [reflexivity|].
    intros b Hb. apply (bool_decide_eq_true_1 _).
    assert (forallb (fun b => bool_decide (b ∉ RAction cached)) csv_delims = true) as HF by (vm_compute; reflexivity).
    rewrite forallb_forall in HF. apply HF, list_elem_of_In, Hb.
  - reflexivity.
  - right. exists false. split; [exact gfw_wrapped_strip|]. vm_compute. discriminate.
  - reflexivity.
  - exists (str "||a.com"). split; [apply (bool_decide_eq_true_1 _); vm_compute; reflexivity|]. vm_compute. discriminate.
  - reflexivity.
  - reflexivity.
  - vm_compute. discriminate.
  - vm_compute. reflexivity.
  - vm_compute. discriminate.
  - reflexivity.
  - reflexivity.
Defined.
