(* ===== verification/RulesetsApi.v ===== *)
(** * The panel's rule set handlers (internal/api/rulesets.go)

    Listing, registration, synchronisation, toggling and deletion over the
    registry of Rulesets.v and the audit table.  A request is what the JSON
    decoder returned; the generated name, the network and [url.Parse] are
    arguments.  The goroutine a registration starts is the second part of its
    answer: the name it will synchronise. *)
From S2P Require Import Prelude GoStrings GoNet GoCodec Rules Netguard Mihomo Orchestrator Db Applier ApplierSpec RuleImport Rulesets ApplyRing ApplyApi RulesApi.
From Stdlib Require Import ZArith Lia.
Local Open Scope Z_scope.

Record rulesetView := {
  v_Name : bytes; v_SourceURL : bytes; v_Kind : bytes; v_Action : bytes; v_Priority : Z; v_Enabled : bool; v_RuleCount : Z;
  v_LastSyncedAt : option Z; v_LastError : bytes; v_CreatedAt : option Z; v_CreatedBy : bytes
}.

Definition toView (r : Ruleset) : rulesetView :=
  {| v_Name := Name r; v_SourceURL := SourceURL r; v_Kind := RKind r; v_Action := RAction r; v_Priority := RPriority r;
     v_Enabled := REnabled r; v_RuleCount := RuleCount r; v_LastSyncedAt := LastSyncedAt r; v_LastError := LastError r;
     v_CreatedAt := CreatedAt r; v_CreatedBy := CreatedBy r |}.

Record rulesetRegisterRequest := {
  q_Name : bytes; q_SourceURL : bytes; q_Kind : bytes; q_RAction : bytes; q_Priority : Z; q_Enabled : option bool
}.

(** [nameSafe]. *)
Definition name_char (c : byte) : bool :=
  in_range 65 90 c || in_range 97 122 c || in_range 48 57 c || (c == Byte.x2e) || (c == Byte.x5f) || (c == Byte.x2d).
Definition nameSafe (s : bytes) : bool := (1 <=? len s) && (len s <=? 64) && forallb name_char s.

Definition KindClash : bytes := str "clash".
Definition enabledStr (b : bool) : bytes := if b then str "enabled" else str "disabled".

Section handlers.
Context `{Unicode} {Value Base : Type}.
Context (wired syncer : bool).         (* the store and the syncer are there *)
Context (url_Parse : bytes -> option URL) (NewRequest : bytes -> bool)
        (Do : bytes -> list (bytes * bytes) -> option Response) (Error : RSError -> bytes).
Context (MaxBytes : Z) (UserAgent : bytes).
Abbreviation S_ := (@Srv Value Base).

Definition unavailable {A} : ST S_ (Answer A) := ret (Refused 503 (str "rulesets_unavailable")).
Definition log_ (actor action target result : bytes) : ST S_ unit := on_app (audit actor action target result).

Definition handleListRulesets : ST S_ (Answer (list rulesetView)) :=
  if negb wired then ret (Answered [])
  else
    let! r := on_reg List_ in
    ret (match r with Err _ => Refused 500 (str "list_error") | Ok l => Answered (map toView l) end).

(** The row a request asks for, or the refusal; [hex] is the random suffix. *)
Definition requested (req : rulesetRegisterRequest) (actor hex : bytes) : res (Z * bytes) Ruleset :=
  let url := TrimSpace (q_SourceURL req) in
  let action := TrimSpace (q_RAction req) in
  if url == [] then Err (400, str "empty_url")
  else match ValidateHTTPURL url_Parse url with
       | Err _ => Err (400, str "bad_url")
       | Ok _ =>
           if action == [] then Err (400, str "empty_action")
           else
             let name := let n := TrimSpace (q_Name req) in if n == [] then str "rs-" ++ hex else n in
             if negb (nameSafe name) then Err (400, str "bad_name")
             else Ok {| Name := name; SourceURL := url; RKind := if q_Kind req == [] then KindClash else q_Kind req; RAction := action;
                        RPriority := q_Priority req; REnabled := default true (q_Enabled req);
                        ETag := []; LastModified := []; LastSyncedAt := None; LastError := []; RuleCount := 0; Content := [];
                        CreatedAt := None; CreatedBy := actor |}
       end.

Definition reply_row (missing : bool) (name : bytes) : ST S_ (Answer rulesetView) :=
  let! r := on_reg (Get name) in
  ret (match r with
       | Ok rs => Answered (toView rs)
       | Err RSNotFound => if missing then Refused 404 (str "not_found") else Refused 500 (str "read_error")
       | Err _ => Refused 500 (str "read_error")
       end).

Definition handleRegisterRuleset (req : option rulesetRegisterRequest) (actor hex : bytes) : ST S_ (Answer rulesetView * option bytes) :=
  if negb wired || negb syncer then let! a := unavailable in ret (a, None)
  else match req with
  | None => ret (Refused 400 (str "bad_request"), None)
  | Some req =>
      match requested req actor hex with
      | Err (st, code) => ret (Refused st code, None)
      | Ok row =>
          let! u := on_reg (Upsert row) in
          match u with
          | Err _ => ret (Refused 500 (str "upsert_error"), None)
          | Ok _ =>
              let! _ := log_ actor (str "rulesets.register") (Name row) (str "ok") in
              let! a := reply_row false (Name row) in
              ret (a, Some (Name row))
          end
      end
  end.

Definition handleSyncRuleset (name actor : bytes) : ST S_ (Answer rulesetView) :=
  if negb wired || negb syncer then unavailable
  else if name == [] then ret (Refused 400 (str "empty_name"))
  else
    let! r := on_reg (SyncOne url_Parse NewRequest Do Error MaxBytes UserAgent name) in
    match r with
    | Err _ => ret (Refused 502 (str "sync_failed"))
    | Ok _ => let! _ := log_ actor (str "rulesets.sync") name (str "ok") in reply_row false name
    end.

Definition handleToggleRuleset (name : bytes) (enabled : option bool) (actor : bytes) : ST S_ (Answer rulesetView) :=
  if negb wired then unavailable
  else match enabled with
  | None => ret (Refused 400 (str "bad_request"))
  | Some enabled =>
      let! r := on_reg (SetEnabled name enabled) in
      match r with
      | Err _ => ret (Refused 500 (str "toggle_error"))
      | Ok _ => let! _ := log_ actor (str "rulesets.toggle") name (enabledStr enabled) in reply_row true name
      end
  end.

Definition handleDeleteRuleset (name actor : bytes) : ST S_ (Answer unit) :=
  if negb wired then unavailable
  else if name == [] then ret (Refused 400 (str "empty_name"))
  else
    let! r := on_reg (Delete name) in
    match r with
    | Err _ => ret (Refused 500 (str "delete_error"))
    | Ok _ => let! _ := log_ actor (str "rulesets.delete") name (str "ok") in ret (Answered tt)
    end.
End handlers.

(** ** Lemmas *)
Section lemmas.
Context `{Unicode} {Value Base : Type} (url_Parse : bytes -> option URL) (NewRequest : bytes -> bool) (Error : RSError -> bytes).
Context (MaxBytes : Z) (UserAgent : bytes) (HMax : 0 <= MaxBytes).
Abbreviation S_ := (@Srv Value Base).

(** A row that came through the panel. *)
Definition api_row (n : bytes) (rs : Ruleset) : Prop :=
  row_ok MaxBytes n rs /\ nameSafe n = true /\ (exists u, ValidateHTTPURL url_Parse (SourceURL rs) = Ok u).
Definition api_ok (t : gmap bytes Ruleset) : Prop := map_Forall api_row t.
Abbreviation good := (fun s : S_ => api_ok (table (reg s))).

Lemma wp_on_reg {A : Type} (m : ST Reg A) (Q : A -> S_ -> Prop) s :
  wp m (fun a r => Q a (set_reg r s)) (reg s) -> wp (on_reg m) Q s.
Proof. unfold wp, on_reg. by destruct (m (reg s)). Qed.

Lemma keeps_on_reg {A : Type} (P : gmap bytes Ruleset -> Prop) (m : ST Reg A) :
  keeps (on_table P) m -> keeps (fun s : S_ => P (table (reg s))) (on_reg m).
Proof. intros Hm s Hs. specialize (Hm (reg s) Hs). unfold on_reg. by destruct (m (reg s)). Qed.

Lemma log_reg actor action target result (s : S_) : reg (log_ actor action target result s).2 = reg s.
Proof. unfold log_, on_app, on_world. by destruct (on_cp _ (world s)). Qed.

Lemma keeps_log P actor action target result : keeps (fun s : S_ => P (table (reg s))) (log_ actor action target result).
Proof. intros s Hs. by rewrite log_reg. Qed.

Lemma keeps_reply P missing name : keeps (fun s : S_ => P (table (reg s))) (reply_row missing name).
Proof. apply keeps_bind; [apply keeps_on_reg, keeps_read|]. intros r. apply keeps_ret. Qed.

Lemma requested_spec req actor hex row : requested url_Parse req actor hex = Ok row ->
  nameSafe (Name row) = true /\ SourceURL row = TrimSpace (q_SourceURL req) /\ SourceURL row <> [] /\
  (exists u, ValidateHTTPURL url_Parse (SourceURL row) = Ok u) /\ RAction row = TrimSpace (q_RAction req) /\ RAction row <> [] /\
  RPriority row = q_Priority req /\ REnabled row = default true (q_Enabled req).
Proof.
  unfold requested. case_bool_decide as HU; [done|]. destruct (ValidateHTTPURL _ _) as [e|u] eqn:EV; [done|].
  case_bool_decide as HA; [done|]. destruct (nameSafe _) eqn:EN; cbn [negb]; [|done]. intros [= <-]. cbn. split_and!; try done. by exists u.
Qed.

Lemma Upsert_api row : nameSafe (Name row) = true -> (exists u, ValidateHTTPURL url_Parse (SourceURL row) = Ok u) ->
  keeps (on_table api_ok) (Upsert row).
Proof.
  intros HN HU. unfold Upsert. repeat case_bool_decide; try apply keeps_ret. apply keeps_stmt. intros r HP. cbn.
  assert (default_priority (RPriority row) <> 0) as Hp by (unfold default_priority; destruct (Z.eqb_spec (RPriority row) 0); lia).
  destruct (table r !! Name row) as [old|] eqn:E; apply map_Forall_insert_2; try done.
  destruct (HP _ _ E) as ((H1' & H2' & H3' & H4' & H5' & H6' & H7') & _ & _). by repeat split.
Qed.

Lemma Sync_api Do name : keeps (on_table api_ok) (SyncOne url_Parse NewRequest Do Error MaxBytes UserAgent name).
Proof.
  intros r HP. destruct (SyncOne _ _ _ _ _ _ _ r) as [x r'] eqn:E. cbn. unfold on_table in *.
  apply SyncOne_update in E as [->|(a & b & Ha & -> & Ho)]; [done| |done].
  apply map_Forall_insert_2; [|done]. destruct (HP _ _ Ha) as (HR & HN & HU). split; [by eapply sync_outcome_ok|]. split; [done|].
  by destruct Ho as [Hb|resp _ _ _ _ _ Hb]; rewrite Hb.
Qed.

(** *** Any sequence of requests, syncs and environments *)
Inductive api_op :=
| ARegister (wired syncer : bool) (req : option rulesetRegisterRequest) (actor hex : bytes)
| ASync (wired syncer : bool) (Do : bytes -> list (bytes * bytes) -> option Response) (name actor : bytes)
| AToggle (wired : bool) (name : bytes) (enabled : option bool) (actor : bytes)
| ADelete (wired : bool) (name actor : bytes)
| AJob (Do : bytes -> list (bytes * bytes) -> option Response) (name : bytes)
| AEnv (now : Z) (f : list bool).

Definition api_step (op : api_op) : ST S_ unit :=
  match op with
  | ARegister w y req actor hex => let! _ := handleRegisterRuleset w y url_Parse req actor hex in ret tt
  | ASync w y Do name actor => let! _ := handleSyncRuleset w y url_Parse NewRequest Do Error MaxBytes UserAgent name actor in ret tt
  | AToggle w name b actor => let! _ := handleToggleRuleset w name b actor in ret tt
  | ADelete w name actor => let! _ := handleDeleteRuleset w name actor in ret tt
  | AJob Do name => let! _ := on_reg (SyncOne url_Parse NewRequest Do Error MaxBytes UserAgent name) in ret tt
  | AEnv now f => modify (fun s => set_reg {| table := table (reg s); clock := now; faults := f |} s)
  end.

Ltac keep_reply := first [apply keeps_ret | apply (keeps_reply api_ok) | apply (keeps_log api_ok)].

Lemma api_step_keeps op : keeps good (api_step op).
Proof.
  destruct op as [w y req actor hex|w y Do name actor|w name b actor|w name actor|Do name|now f]; cbn [api_step];
    try (apply keeps_bind; [|intros ?; apply keeps_ret]).
  - unfold handleRegisterRuleset, unavailable. destruct (negb w || negb y); [apply keeps_bind; intros; apply keeps_ret|].
    destruct req as [req|]; [|apply keeps_ret]. destruct (requested url_Parse req actor hex) as [[st c]|row] eqn:E; [apply keeps_ret|].
    apply requested_spec in E as (HN & _ & _ & HU & _). apply keeps_bind; [by apply (keeps_on_reg api_ok), Upsert_api|]. intros [e|[]]; [apply keeps_ret|].
    apply keeps_bind; [keep_reply|]. intros _. apply keeps_bind; [keep_reply|]. intros a. apply keeps_ret.
  - unfold handleSyncRuleset. destruct (negb w || negb y); [apply keeps_ret|]. case_bool_decide; [apply keeps_ret|].
    apply keeps_bind; [apply (keeps_on_reg api_ok), Sync_api|]. intros [e|[]]; [apply keeps_ret|]. apply keeps_bind; [keep_reply|]. intros _. keep_reply.
  - unfold handleToggleRuleset. destruct (negb w); [apply keeps_ret|]. destruct b as [b|]; [|apply keeps_ret].
    apply keeps_bind.
    { apply (keeps_on_reg api_ok), keeps_update_row. intros r t HP. apply map_Forall_alter; [|done].
      intros rs ((H1 & H2 & H3 & H4 & H5 & H6 & H7) & HN & HU). by repeat split. }
    intros [e|[]]; [apply keeps_ret|]. apply keeps_bind; [keep_reply|]. intros _. keep_reply.
  - unfold handleDeleteRuleset. destruct (negb w); [apply keeps_ret|]. case_bool_decide; [apply keeps_ret|].
    apply keeps_bind; [|intros [e|[]]; [apply keeps_ret|]; apply keeps_bind; [keep_reply|intros _; apply keeps_ret]].
    apply (keeps_on_reg api_ok), keeps_stmt. intros r HP. cbn. by apply map_Forall_delete.
  - apply (keeps_on_reg api_ok), Sync_api.
  - apply keeps_modify. done.
Qed.

Definition api_run (ops : list api_op) (s : S_) : S_ := foldl (fun s op => (api_step op s).2) s ops.

Lemma api_run_ok ops s : good s -> good (api_run ops s).
Proof. revert s. induction ops as [|op ops IH]; intros s Hs; [done|]. apply IH. by apply api_step_keeps. Qed.
End lemmas.

(** *** What one registration does *)
Section contract.
Context `{Unicode} {Value Base : Type} (url_Parse : bytes -> option URL) (NewRequest : bytes -> bool) (Error : RSError -> bytes).
Context (MaxBytes : Z) (UserAgent : bytes).
Abbreviation S_ := (@Srv Value Base).
Abbreviation api_run := (api_run url_Parse NewRequest Error MaxBytes UserAgent).

(** What synchronisation owns of a row; a new row has none of it. *)
Definition synced (rs : Ruleset) := (ETag rs, LastModified rs, LastSyncedAt rs, LastError rs, RuleCount rs, Content rs).
Definition never_synced : bytes * bytes * option Z * bytes * Z * bytes := ([], [], None, [], 0, []).

(** The row [stored] is the request's, over what was there. *)
Definition registered (old : option Ruleset) (req : rulesetRegisterRequest) (stored : Ruleset) : Prop :=
  nameSafe (Name stored) = true /\ SourceURL stored = TrimSpace (q_SourceURL req) /\
  (exists u, ValidateHTTPURL url_Parse (SourceURL stored) = Ok u) /\
  RAction stored = TrimSpace (q_RAction req) /\ RAction stored <> [] /\
  RPriority stored = default_priority (q_Priority req) /\ REnabled stored = default true (q_Enabled req) /\
  synced stored = match old with Some o => synced o | None => never_synced end.

(** What the answer, the started job and the registry after it say. *)
Definition register_outcome (req : option rulesetRegisterRequest) (a : Answer rulesetView) (job : option bytes)
    (t t' : gmap bytes Ruleset) : Prop :=
  match job with
  | None => t' = t /\ exists st c, a = Refused st c
  | Some n => exists q stored, req = Some q /\ registered (t !! n) q stored /\ t' = <[n := stored]> t /\
      (a = Answered (toView stored) \/ a = Refused 500 (str "read_error"))
  end.

(** A statement that changes the table when it succeeds, and a read. *)
Lemma wp_stmt {A : Type} (f : Reg -> res RSError A * Reg) (Q : res RSError A -> Reg -> Prop) (r : Reg) :
  (forall l, Q (Err RSExec) {| table := table r; clock := clock r; faults := l |}) ->
  (forall l, let x := f {| table := table r; clock := clock r; faults := l |} in Q x.1 x.2) -> wp (stmt f) Q r.
Proof.
  intros HF HO. unfold wp, stmt. destruct r as [t c [|[] l]]; cbn in *; [specialize (HO [])|specialize (HO l)|apply HF]; by destruct (f _).
Qed.

Lemma wp_Upsert row (r : Reg) (Q : res RSError unit -> Reg -> Prop) :
  SourceURL row <> [] -> RAction row <> [] -> Name row <> [] ->
  (forall l, Q (Err RSExec) {| table := table r; clock := clock r; faults := l |}) ->
  (forall l x, Name x = Name row -> SourceURL x = SourceURL row -> RAction x = RAction row -> REnabled x = REnabled row ->
     RPriority x = default_priority (RPriority row) ->
     synced x = match table r !! Name row with Some o => synced o | None => never_synced end ->
     Q (Ok tt) {| table := <[Name row := x]> (table r); clock := clock r; faults := l |}) ->
  (forall o, table r !! Name row = Some o -> Name o = Name row) -> wp (Upsert row) Q r.
Proof.
  intros HU HA HN HE HO Hold. unfold Upsert. rewrite !bool_decide_eq_false_2 by done. apply wp_stmt; [done|].
  intros l. cbn. destruct (table r !! Name row) as [o|] eqn:E; apply HO; cbn; try done. by apply Hold.
Qed.

Lemma wp_reply missing name (s : S_) (Q : Answer rulesetView -> S_ -> Prop) :
  (forall a l, (exists st c, a = Refused st c /\ (st = 500 \/ table (reg s) !! name = None)) \/
     (exists rs, a = Answered (toView rs) /\ table (reg s) !! name = Some rs) ->
     (forall rs, table (reg s) !! name = Some rs -> a = Answered (toView rs) \/ a = Refused 500 (str "read_error")) ->
     Q a (set_reg {| table := table (reg s); clock := clock (reg s); faults := l |} s)) ->
  wp (reply_row missing name) Q s.
Proof.
  intros HQ. unfold reply_row. apply wp_bind, wp_on_reg, wp_stmt; intros l; apply wp_ret; cbn.
  - apply HQ; [left; eexists _, _; by split; [|left]|]. intros; by right.
  - destruct (table (reg s) !! name) as [rs|] eqn:E; apply HQ.
    + right. by exists rs.
    + intros ? [= <-]. by left.
    + left. destruct missing; eexists _, _; (split; [done|by right]).
    + done.
Qed.

Lemma nameSafe_nonempty n : nameSafe n = true -> n <> [].
Proof. by intros HN ->. Qed.

Lemma wp_register w y req actor hex (s : S_) (Q : Answer rulesetView * option bytes -> S_ -> Prop) :
  (forall n o, table (reg s) !! n = Some o -> Name o = n) ->
  (forall a job s', register_outcome req a job (table (reg s)) (table (reg s')) -> Q (a, job) s') ->
  wp (handleRegisterRuleset w y url_Parse req actor hex) Q s.
Proof.
  intros Hk HQ. unfold handleRegisterRuleset, unavailable.
  destruct (negb w || negb y); [apply wp_bind, wp_ret, wp_ret, HQ; split; eauto|].
  destruct req as [req|]; [|apply wp_ret, HQ; split; eauto].
  destruct (requested url_Parse req actor hex) as [[st c]|row] eqn:E; [apply wp_ret, HQ; split; eauto|].
  apply requested_spec in E as (HN & HU & HU' & HV & HA & HA' & HP & HE).
  apply wp_bind, wp_on_reg, wp_Upsert; try done; [by apply nameSafe_nonempty| | |by apply Hk].
  - intros l. apply wp_ret, HQ. split; [done|eauto].
  - intros l x Hn Hx Ha He Hp Hs. apply wp_bind. unfold wp at 1.
    match goal with |- context [log_ ?a ?b ?c ?d ?t] => pose proof (log_reg a b c d t) as HL; destruct (log_ a b c d t) as [[] s1] end.
    cbn in HL. apply wp_bind, wp_reply. intros a l' _ Hrow. apply wp_ret, HQ. cbn. rewrite HL. cbn.
    exists req, x. split; [done|]. split.
    { unfold registered. rewrite Hn, Hx, Ha, He, Hp, HP, HE, HU, HA. rewrite HU in HV. rewrite HA in HA'. split_and!; done. }
    split; [done|]. apply Hrow. rewrite HL. cbn. by rewrite lookup_insert_eq.
Qed.

(** a registration stores exactly the row it was asked for, at a safe
    name, with a URL that parses and an action, keeping what earlier syncs
    put there and every other row, and starts the job that syncs it; in
    every other case it is refused, starts nothing and changes no row. *)
Theorem register_contract wired syncer req actor hex (s : S_) a job s' :
  api_ok url_Parse MaxBytes (table (reg s)) ->
  handleRegisterRuleset wired syncer url_Parse req actor hex s = ((a, job), s') ->
  register_outcome req a job (table (reg s)) (table (reg s')).
Proof.
  intros Hok E. refine (wp_elim _ (fun p s' => register_outcome req p.1 p.2 (table (reg s)) (table (reg s'))) s _ s' _ E).
  apply wp_register; [|done].
  intros n o Ho. apply (Hok _ _ Ho).
Qed.

(** whatever requests, syncs, background jobs, clocks and failures of
    the database follow each other from an empty registry, every row has a
    safe name, a URL the guard accepts, an action, a non-zero priority and
    the count of its content, which is within the limit. *)
Theorem rulesets_api_invariant (ops : list api_op) (s : S_) :
  0 <= MaxBytes -> table (reg s) = ∅ -> api_ok url_Parse MaxBytes (table (reg (api_run ops s))).
Proof.
  intros HM H0. apply api_run_ok; [done|]. rewrite H0. apply map_Forall_empty.
Qed.
End contract.

(** ** Concrete inputs *)
Module Demo.
#[local] Existing Instance ascii_tables.
Import ApplierSpec.Demo ApplyApi.Demo.

Definition parse (s : bytes) : option URL :=
  Some {| Scheme := str "https"; Hostname := str "lists.example"; User := None |}.
Definition error_text (_ : RSError) : bytes := str "failed".
(** A server that holds a tag and answers a request with it by 304. *)
Definition cache (tag body : bytes) (_ : bytes) (h : list (bytes * bytes)) : option Response :=
  Some {| StatusCode := if bool_decide ((str "If-None-Match", tag) ∈ h) then 304 else 200; BodyData := body; BodyFails := false;
          h_ETag := tag; h_LastModified := [] |}.
Definition list_a : bytes := str "DOMAIN-SUFFIX,a.com,PROXY".
Definition list_b : bytes := str "DOMAIN-SUFFIX,b.org,PROXY".

Definition ask (url action : bytes) : option rulesetRegisterRequest :=
  Some {| q_Name := str "list"; q_SourceURL := url; q_Kind := []; q_RAction := action; q_Priority := 0; q_Enabled := None |}.
Definition url_a : bytes := str "https://a.example/list".
Definition url_b : bytes := str "https://b.example/list".
Definition register url action : @api_op := ARegister true true (ask url action) (str "admin") (str "0a0b").
Definition job tag body : @api_op := AJob (cache tag body) (str "list").
Abbreviation run ops := (api_run (Value := unit) (Base := unit) parse (fun _ => true) error_text 4096 (str "agent") ops s0).

Definition ops : list api_op := [register url_a (str "hk"); job (str "v1") list_a].

Example synced_row :
  (fun rs => (SourceURL rs, RAction rs, RPriority rs, Content rs, RuleCount rs)) <$> table (reg (run ops)) !! str "list" =
  Some (url_a, str "hk", 500, list_a, 1).
Proof. by vm_compute. Qed.

(** Registering the name again with another URL keeps the tag of the old
    one: a server of the new URL that uses the same tag answers 304, and the
    old list stays in force under the new URL. *)
Example new_url_old_list :
  (fun rs => (SourceURL rs, Content rs, LastError rs)) <$>
    table (reg (run (ops ++ [register url_b (str "hk"); job (str "v1") list_b]))) !! str "list" =
  Some (url_b, list_a, []).
Proof. by vm_compute. Qed.

(** An action with a comma is accepted, and after the first sync every
    expansion of the registry fails, so no rules can be applied or shown. *)
Definition expansion (ops : list api_op) : res RSError nat :=
  match (ExpandWithGroups any_name (reg (run ops))).1 with Ok (rules, _) => Ok (length rules) | Err e => Err e end.
Example comma_action :
  (match (handleRegisterRuleset true true parse (ask url_a (str "hk,jp")) (str "admin") [] s0).1 with (Answered _, Some _) => true | _ => false end) = true /\
  expansion [register url_a (str "hk,jp")] = Ok 0%nat /\
  expansion [register url_a (str "hk,jp"); job (str "v1") list_a] = Err (RSInvalid (str "list") 1 (ErrActionDelimiter (str "list-1"))).
Proof. by vm_compute. Qed.
End Demo.

#[local] Existing Instance ascii_tables.

Lemma register_contract_witness :
  exists a s', handleRegisterRuleset true true Demo.parse (Demo.ask Demo.url_a (str "hk")) (str "admin") [] ApplyApi.Demo.s0 = ((a, Some (str "list")), s') /\
  exists stored, table (reg s') = {[ str "list" := stored ]} /\ SourceURL stored = Demo.url_a.
Proof.
  destruct (handleRegisterRuleset true true Demo.parse (Demo.ask Demo.url_a (str "hk")) (str "admin") [] ApplyApi.Demo.s0) as [[a job] s'] eqn:E.
  assert (job = Some (str "list")) as -> by (change job with ((a, job), s').1.2; rewrite <- E; vm_compute; reflexivity).
  exists a, s'. split; [reflexivity|].
  destruct (register_contract Demo.parse 4096 true true (Demo.ask Demo.url_a (str "hk")) (str "admin") [] ApplyApi.Demo.s0 a (Some (str "list")) s'
    (map_Forall_empty _) E) as (q & stored & Hq & (_ & HU & _) & HT & _).
  exists stored. split; [exact HT|]. injection Hq as <-. rewrite HU. vm_compute. reflexivity.
Defined.

Lemma rulesets_api_invariant_witness :
  0 <= 4096 /\ api_ok Demo.parse 4096 (table (reg (api_run (Value := unit) (Base := unit) Demo.parse (fun _ => true) Demo.error_text 4096 (str "agent") Demo.ops ApplyApi.Demo.s0))).
Proof.
  assert (0 <= 4096) as HL by lia. split; [exact HL|].
  exact (rulesets_api_invariant Demo.parse (fun _ => true) Demo.error_text 4096 (str "agent") Demo.ops ApplyApi.Demo.s0 HL eq_refl).
Defined.
