(* ===== verification/Collector.v ===== *)
(** * Host metrics (internal/metrics/collector.go, api/metrics.go, api/dns_metrics.go)

    The /proc readers over the texts of the files, the deltas of a sample, the
    ring in the database and the handlers that read it.  [int64] and [uint64]
    arithmetic wraps; a percentage is the exact rational that the float64 of
    the code approximates.  A row's key is its time; the database is taken to
    compare times as the clock does. *)
From S2P Require Import Prelude GoStrings GoNet GoCodec Exit Dns Resolver RuleImport Db Rulesets ApplyRing ApplyApi RulesApi Routes.
From Stdlib Require Import ZArith Lia QArith.
Local Close Scope Q_scope.
Local Open Scope Z_scope.

(** ** [strconv.ParseUint] and [strconv.ParseInt], with the value they return
    beside an error *)
Inductive NumError := ErrSyntax | ErrRange.

Fixpoint uint_loop (s : bytes) (n : Z) : Z * option NumError :=
  match s with
  | [] => (n, None)
  | c :: s =>
      if negb (is_digit c) then (0, Some ErrSyntax)
      else let n := n * 10 + (bz c - 48) in
           if 2 ^ 64 <=? n then (2 ^ 64 - 1, Some ErrRange) else uint_loop s n
  end.

Definition ParseUint (s : bytes) : Z * option NumError :=
  if s == [] then (0, Some ErrSyntax) else uint_loop s 0.

Definition ParseInt (s : bytes) : Z * option NumError :=
  let '(neg, ds) :=
    match s with
    | c :: r => if c == Byte.x2d then (true, r) else if c == Byte.x2b then (false, r) else (false, s)
    | [] => (false, s)
    end in
  match ParseUint ds with
  | (_, Some ErrSyntax) => (0, Some ErrSyntax)
  | (un, _) =>
      if negb neg && (2 ^ 63 <=? un) then (2 ^ 63 - 1, Some ErrRange)
      else if neg && (2 ^ 63 <? un) then (- 2 ^ 63, Some ErrRange)
      else (if neg : bool then - un else un, None)
  end.

Definition uint64 (z : Z) : Z := z mod 2 ^ 64.
Arguments uint64 : simpl never.

(** ** The readers *)

(** The files, [None] when they cannot be read. *)
Record Proc := {
  linux : bool; stat : option bytes; net_dev : option bytes; meminfo : option bytes; net_tcp : option bytes; net_tcp6 : option bytes
}.

Record cpuSnapshot := { total : Z; idle : Z }.
Record netSnapshot := { tx : Z; rx : Z }.
Definition no_cpu : cpuSnapshot := {| total := 0; idle := 0 |}.
Definition no_net : netSnapshot := {| tx := 0; rx := 0 |}.

(** The loop over the fields after the first. *)
Fixpoint cpu_fields (i : Z) (fields : list bytes) (acc : cpuSnapshot) : cpuSnapshot :=
  match fields with
  | [] => acc
  | f :: fields =>
      let v := (ParseInt f).1 in
      cpu_fields (i + 1) fields {| total := int64 (total acc + v); idle := if i =? 3 then v else idle acc |}
  end.

Definition readCPU (p : Proc) : option cpuSnapshot :=
  if negb (linux p) then None
  else
    raw ← stat p;
    line ← found (fun l => HasPrefix l (str "cpu ")) (Split raw newline);
    let fields := Fields line in
    if (length fields <? 5)%nat then None else Some (cpu_fields 0 (drop 1 fields) no_cpu).

(** One line of /proc/net/dev. *)
Definition net_line (iface : bytes) (acc : netSnapshot) (line : bytes) : netSnapshot :=
  match IndexByte line colon with
  | None => acc
  | Some i =>
      let name := TrimSpace (take i line) in
      if name == str "lo" then acc
      else if (iface != []) && (name != iface) then acc
      else
        let fields := Fields (drop (S i) line) in
        if (length fields <? 16)%nat then acc
        else {| tx := uint64 (tx acc + (ParseUint (default [] (fields !! 8%nat))).1);
                rx := uint64 (rx acc + (ParseUint (default [] (fields !! 0%nat))).1) |}
  end.

Definition readNet (iface : bytes) (p : Proc) : option netSnapshot :=
  if negb (linux p) then None
  else raw ← net_dev p; Some (foldl (net_line iface) no_net (Split raw newline)).

(** One line of /proc/meminfo: the total and the available memory. *)
Definition mem_line (acc : Z * Z) (line : bytes) : Z * Z :=
  match Fields line with
  | k :: f :: _ =>
      let v := (ParseInt f).1 in
      if k == str "MemTotal:" then (int64 (v * 1024), acc.2)
      else if k == str "MemAvailable:" then (acc.1, int64 (v * 1024)) else acc
  | _ => acc
  end.

Definition readMemBytes (p : Proc) : option Z :=
  if negb (linux p) then None
  else
    raw ← meminfo p;
    let '(memTotal, memAvail) := foldl mem_line (0, 0) (Split raw newline) in
    if memTotal =? 0 then None else Some (int64 (memTotal - memAvail)).

(** The established sockets of one table, without its header line. *)
Definition established (raw : bytes) : Z :=
  len (filter (fun line => Fields line !! 3%nat = Some (str "01")) (drop 1 (Split raw newline))).

Definition readTCPConns (p : Proc) : option Z :=
  if negb (linux p) then None
  else raw ← net_tcp p; Some (established raw + match net_tcp6 p with Some r => established r | None => 0 end).

(** ** The collector *)
Record Sample := { TS : Z; CPU : Q; MemBytes : Z; Conns : Z; TxBytes : Z; RxBytes : Z }.

Record Config := { DB_ : bool; Interval : Z; Retention : Z; Iface : bytes }.
Definition second : Z := 1000000000.
Definition New (cfg : Config) : Config :=
  {| DB_ := DB_ cfg; Interval := if Interval cfg =? 0 then 10 * second else Interval cfg;
     Retention := if Retention cfg =? 0 then 24 * 3600 * second else Retention cfg; Iface := Iface cfg |}.

Record Prev := { prevCPU : cpuSnapshot; prevNet : netSnapshot }.

(** The percentage between two readings. *)
Definition cpu_percent (a b : cpuSnapshot) : Q :=
  if (0 <? total a) && (total a <? total b) then
    let diff := int64 (total b - total a) in
    let idl := int64 (idle b - idle a) in
    if (0 <? diff) && (0 <=? idl) then Qmake (int64 (diff - idl) * 100) (Z.to_pos diff) else 0%Q
  else 0%Q.

(** The bytes between two readings of a counter. *)
Definition delta (a b : Z) : Z := Z.max 0 (int64 (uint64 (b - a))).

Definition take_sample (iface : bytes) (prev : Prev) (p : Proc) (now : Z) : Sample * Prev :=
  let cpu := default no_cpu (readCPU p) in
  let net := default no_net (readNet iface p) in
  let started := 0 <? tx (prevNet prev) in
  ({| TS := now; CPU := cpu_percent (prevCPU prev) cpu; MemBytes := default 0 (readMemBytes p); Conns := default 0 (readTCPConns p);
      TxBytes := if started then delta (tx (prevNet prev)) (tx net) else 0;
      RxBytes := if started then delta (rx (prevNet prev)) (rx net) else 0 |},
   {| prevCPU := cpu; prevNet := net |}).

(** ** The ring *)
Record Col := { prev : Prev; ring : list Sample; faults : list bool }.
Abbreviation CM A := (ST Col (res unit A)).

(** A statement of the database: it fails, or runs. *)
Definition statement {A} (f : list Sample -> A * list Sample) : CM A := fun c =>
  let '(ok, rest) := match faults c with [] => (true, []) | b :: l => (b, l) end in
  if ok : bool then let '(a, r) := f (ring c) in (Ok a, {| prev := prev c; ring := r; faults := rest |})
  else (Err tt, {| prev := prev c; ring := ring c; faults := rest |}).

(** INSERT OR REPLACE, and DELETE ... WHERE ts < cutoff. *)
Definition insertSample (s : Sample) : CM unit := statement (fun r => (tt, filter (fun x => TS x <> TS s) r ++ [s])).
Definition trim (retention now : Z) : CM unit := statement (fun r => (tt, filter (fun x => now - retention <= TS x) r)).

(** One tick of [Run]: the files, the time of the sample and that of the trim. *)
Record Tick := { t_proc : Proc; t_sample : Z; t_trim : Z }.

Definition Run_tick (cfg : Config) (t : Tick) : ST Col unit :=
  let! s := (fun c => let '(s, p) := take_sample (Iface cfg) (prev c) (t_proc t) (t_sample t) in
                      (s, {| prev := p; ring := ring c; faults := faults c |})) in
  if DB_ cfg then let! _ := insertSample s in let! _ := trim (Retention cfg) (t_trim t) in ret tt else ret tt.

Definition Run_start (cfg : Config) (p : Proc) (c : Col) : Col :=
  {| prev := {| prevCPU := default no_cpu (readCPU p); prevNet := default no_net (readNet (Iface cfg) p) |};
     ring := ring c; faults := faults c |}.

Definition Run (cfg : Config) (p : Proc) (ts : list Tick) (c : Col) : Col :=
  foldl (fun c t => (Run_tick cfg t c).2) (Run_start cfg p c) ts.

Definition newest_first (a b : Sample) : bool := TS b <=? TS a.

Definition ListRecent (limit : Z) : CM (list Sample) :=
  let limit := if (limit <=? 0) || (5000 <? limit) then 60 else limit in
  statement (fun r => (reverse (take (Z.to_nat limit) (stable_sort newest_first r)), r)).

(** ** The handlers *)

(** [handleMetrics]; [q] is the query's limit. *)
Definition metrics_limit (q : bytes) : Z :=
  match Atoi q with Some n => if (0 <? n) && (n <=? 5000) then n else 60 | None => 60 end.

Definition handleMetrics (q : bytes) : ST Col (Answer (list Sample)) :=
  let! r := ListRecent (metrics_limit q) in
  ret (match r with Ok l => Answered l | Err _ => Refused 500 (str "db_error") end).

Record DNSListenerStatus := { l_UDP53 : bytes; l_TCP53 : bytes; l_DoT : bytes; l_DoH : bytes; l_DoQ : bytes; l_DoH3 : bytes }.
Record DNSCertStatus := { c_Domain : bytes; NotAfterUnix : Z; DaysUntilExpiry : Z }.
Record DNSMetricsResponse := { d_Snap : Metrics; d_Listeners : DNSListenerStatus; d_Cert : option DNSCertStatus }.

Definition notConfiguredListeners : DNSListenerStatus :=
  let n := str "not_configured" in {| l_UDP53 := n; l_TCP53 := n; l_DoT := n; l_DoH := n; l_DoQ := n; l_DoH3 := n |}.

Section dns.
(** [filepath.Join], reading a file, and the expiry (in nanoseconds) of the
    certificate in its first PEM block. *)
Context (JoinPath : list bytes -> bytes) (ReadFile : bytes -> option bytes) (leaf_expiry : bytes -> option Z).

(** [time.Until], which saturates. *)
Definition Until (t now : Z) : Z := Z.max (- 2 ^ 63) (Z.min (2 ^ 63 - 1) (t - now)).

Definition dnsCertStatus (o : ACMEOptions) (now : Z) : option DNSCertStatus :=
  if (Domain o == []) || (StorageDir o == []) then None
  else
    raw ← ReadFile (JoinPath [StorageDir o; str "certificates"; str "acme-v02.api.letsencrypt.org-directory"; Domain o; Domain o ++ str ".crt"]);
    notAfter ← leaf_expiry raw;
    Some {| c_Domain := Domain o; NotAfterUnix := notAfter / second; DaysUntilExpiry := Z.quot (Until notAfter now) (24 * 3600 * second) |}.

Definition handleDNSMetrics (listeners : option DNSListenerStatus) (m : option Metrics) (o : ACMEOptions) (now : Z) : DNSMetricsResponse :=
  {| d_Snap := default NewMetrics m; d_Listeners := default notConfiguredListeners listeners; d_Cert := dnsCertStatus o now |}.
End dns.

(** ** Lemmas: numerals *)
Lemma dec_value_nonneg s : Forall digit_byte s -> 0 <= dec_value s.
Proof.
  induction 1 as [|c s Hc _ IH]; [done|]. rewrite dec_value_cons. unfold digit_byte in Hc.
  assert (0 < 10 ^ len s) by (apply Z.pow_pos_nonneg; [lia|apply len_nonneg]). nia.
Qed.

Lemma uint_loop_digits s n : Forall digit_byte s -> 0 <= n -> n * 10 ^ len s + dec_value s < 2 ^ 64 ->
  uint_loop s n = (n * 10 ^ len s + dec_value s, None).
Proof.
  revert n. induction s as [|c s IH]; intros n HF Hn Hb.
  - cbn [uint_loop]. f_equal. rewrite len_nil. unfold dec_value. cbn [foldl]. lia.
  - apply Forall_cons in HF as [Hc HF]. unfold digit_byte in Hc. cbn [uint_loop]. unfold is_digit.
    rewrite (proj2 (Z.leb_le 48 _)), (proj2 (Z.leb_le _ 57)) by lia. cbn [andb negb].
    rewrite len_cons, Z.pow_add_r in * by (pose proof (len_nonneg s); lia). rewrite dec_value_cons in *.
    assert (0 < 10 ^ len s) by (apply Z.pow_pos_nonneg; [lia|apply len_nonneg]).
    assert (0 <= dec_value s) by (apply dec_value_nonneg; done).
    rewrite (proj2 (Z.leb_gt _ _)) by nia. rewrite IH; [|done|lia|nia]. f_equal. nia.
Qed.

(** The numeral of a natural number is read back. *)
Definition numeral (n : Z) (s : bytes) : Prop := s <> [] /\ Forall digit_byte s /\ dec_value s = n.

Lemma Itoa_numeral n : 0 <= n < 2 ^ 63 -> numeral n (strconv_Itoa n).
Proof.
  intros Hn. destruct (decide (n = 0)) as [->|H0]; [|apply strconv_Itoa_pos; lia].
  split; [done|]. split; [|by vm_compute]. repeat constructor; by vm_compute.
Qed.

Lemma ParseUint_numeral n s : 0 <= n < 2 ^ 64 -> numeral n s -> ParseUint s = (n, None).
Proof.
  intros Hn (Hs & HF & HV). unfold ParseUint. rewrite bool_decide_eq_false_2 by done.
  rewrite uint_loop_digits; [f_equal; lia|done|lia|lia].
Qed.

Lemma ParseInt_numeral n s : 0 <= n < 2 ^ 63 -> numeral n s -> ParseInt s = (n, None).
Proof.
  intros Hn HN. pose proof HN as (Hs & HF & _). unfold ParseInt. destruct s as [|c s]; [done|].
  apply Forall_cons in HF as [Hc _]. unfold digit_byte in Hc.
  rewrite !bool_decide_eq_false_2 by (intros ->; cbv in Hc; by destruct Hc).
  rewrite (ParseUint_numeral n) by (done || lia). cbn [negb andb].
  by rewrite (proj2 (Z.leb_gt _ _)) by lia.
Qed.

Lemma digits_visible s : Forall digit_byte s -> visible s.
Proof. intros HF. eapply Forall_impl; [exact HF|]. cbn. intros c Hc. unfold digit_byte in Hc. unfold visible_byte. lia. Qed.

(** Words joined by spaces, some of them empty. *)
Lemma fields_loop_gaps ws : Forall visible ws -> forall fuel, (length (Join ws space) <= fuel)%nat ->
  fields_loop space_width fuel (Join ws space) [] = filter (fun w => w <> []) ws.
Proof.
  assert (forall t, space_width (space :: t) = 1%nat) as Hc by done.
  induction ws as [|w ws IH]; intros HF fuel Hf; [by destruct fuel|].
  apply Forall_cons in HF as [Hw HF]. rewrite filter_cons.
  assert (forall a b t, w = a ++ b -> b <> [] -> space_width (b ++ t) = 0%nat) as HS.
  { intros a b t -> Hb. destruct b as [|x b]; [done|]. cbn [app]. apply space_width_visible.
    apply Forall_app in Hw as [_ Hw]. by apply Forall_cons in Hw as [Hw _]. }
  destruct ws as [|w' ws].
  - cbn [Join] in *. rewrite <- (app_nil_r w) at 1. destruct (fields_word space_width w [] fuel []) as (f' & _ & ->); [done|cbn; lia|].
    destruct f'; cbn [fields_loop app]; unfold flush; repeat case_bool_decide; repeat case_decide; done.
  - rewrite Join_cons in * by done. destruct (fields_word space_width w (space :: Join (w' :: ws) space) fuel []) as (f' & Hl & ->).
    { done. } { rewrite length_app in Hf. lia. }
    destruct f' as [|f']; [cbn in Hl; lia|]. cbn [fields_loop app]. rewrite Hc. cbn [drop app]. rewrite drop_0, IH; [|done|cbn [length] in Hl; lia].
    unfold flush. repeat case_bool_decide; repeat case_decide; done.
Qed.

(** *** The line of /proc/stat *)
Definition cpu_line (vs : list Z) : bytes := Join (str "cpu" :: [] :: map strconv_Itoa vs) space.
Definition stat_text (vs : list Z) (rest : bytes) : bytes := cpu_line vs ++ newline :: rest.
Definition counters (vs : list Z) : Prop := Forall (fun v => 0 <= v < 2 ^ 63) vs /\ (4 <= length vs)%nat /\ foldr Z.add 0 vs < 2 ^ 63.
Definition sum (vs : list Z) : Z := foldr Z.add 0 vs.

Lemma numerals_fields vs : Forall (fun v => 0 <= v < 2 ^ 63) vs ->
  Forall (fun w => visible w /\ w <> []) (map strconv_Itoa vs).
Proof.
  intros HF. apply Forall_map. eapply Forall_impl; [exact HF|]. cbv beta. intros v Hv.
  destruct (Itoa_numeral v Hv) as (Hn & Hd & _). split; [by apply digits_visible|done].
Qed.

Lemma Fields_cpu_line vs : Forall (fun v => 0 <= v < 2 ^ 63) vs -> Fields (cpu_line vs) = str "cpu" :: map strconv_Itoa vs.
Proof.
  intros HF%numerals_fields. unfold Fields, FieldsFunc, cpu_line. rewrite fields_loop_gaps; [| |done].
  - rewrite filter_cons, decide_True by done. rewrite filter_cons, decide_False by (intros Hx; by apply Hx). f_equal.
    induction HF as [|w ws [_ Hw] _ IH]; [done|]. rewrite filter_cons, decide_True by done. by rewrite IH.
  - constructor; [by repeat constructor|]. constructor; [constructor|]. eapply Forall_impl; [exact HF|]. by intros w [? _].
Qed.

Lemma sum_nonneg vs : Forall (fun v => 0 <= v < 2 ^ 63) vs -> 0 <= sum vs.
Proof. induction 1; cbn; unfold sum in *; lia. Qed.

Lemma cpu_fields_sum vs : forall i acc, Forall (fun v => 0 <= v < 2 ^ 63) vs -> 0 <= total acc -> total acc + sum vs < 2 ^ 63 ->
  total (cpu_fields i (map strconv_Itoa vs) acc) = total acc + sum vs.
Proof.
  induction vs as [|v vs IH]; intros i acc HF H0 Hb; cbn [cpu_fields map]; [unfold sum; cbn; lia|].
  apply Forall_cons in HF as [Hv HF]. pose proof (sum_nonneg vs HF) as Hs. unfold sum in *. cbn [foldr] in *.
  rewrite (ParseInt_numeral v) by (done || by apply Itoa_numeral). cbn [fst]. rewrite IH; cbn [total]; rewrite ?int64_small; try done; lia.
Qed.

Lemma cpu_fields_idle vs : forall i acc, Forall (fun v => 0 <= v < 2 ^ 63) vs -> i <= 3 ->
  idle (cpu_fields i (map strconv_Itoa vs) acc) = default (idle acc) (vs !! Z.to_nat (3 - i)).
Proof.
  assert (forall vs i acc, 3 < i -> idle (cpu_fields i (map strconv_Itoa vs) acc) = idle acc) as Hpast.
  { clear. induction vs as [|v vs IH]; intros i acc Hi; [done|]. cbn [cpu_fields map]. rewrite IH by lia. cbn [idle].
    by rewrite (proj2 (Z.eqb_neq i 3)) by lia. }
  induction vs as [|v vs IH]; intros i acc HF Hi; [done|]. apply Forall_cons in HF as [Hv HF]. cbn [cpu_fields map].
  rewrite (ParseInt_numeral v) by (done || by apply Itoa_numeral). cbn [fst]. destruct (Z.eqb_spec i 3) as [->|Hne].
  - rewrite Hpast by lia. done.
  - rewrite IH by (done || lia). cbn [idle]. replace (Z.to_nat (3 - i)) with (S (Z.to_nat (3 - (i + 1)))) by lia. done.
Qed.

(** A text of the kernel's form is read as the sum of its counters and the
    fourth of them. *)
Lemma readCPU_text p vs rest : linux p = true -> stat p = Some (stat_text vs rest) -> counters vs ->
  readCPU p = Some {| total := sum vs; idle := default 0 (vs !! 3%nat) |}.
Proof.
  intros HL HS (HF & Hlen & Hsum). unfold readCPU. rewrite HL, HS. cbn [negb]. cbn [mbind option_bind].
  unfold stat_text. rewrite Split_app.
  assert (newline ∉ cpu_line vs) as Hnl.
  { assert (forall ws, Forall (fun w => newline ∉ w) ws -> newline ∉ Join ws space) as HJ.
    { induction 1 as [|w ws Hw Hws IHw]; [by apply not_elem_of_nil|]. destruct ws; [done|]. rewrite Join_cons by done.
      rewrite elem_of_app, elem_of_cons. intros [?|[?|?]]; [done|done|by apply IHw]. }
    apply HJ. constructor; [apply (bool_decide_eq_true_1 _); by vm_compute|]. constructor; [by apply not_elem_of_nil|]. apply Forall_map. eapply Forall_impl; [exact HF|].
    cbv beta. intros v Hv. destruct (Itoa_numeral v Hv) as (_ & Hd & _). intros Hin. rewrite Forall_forall in Hd.
    specialize (Hd _ Hin). unfold digit_byte in Hd. cbv in Hd. by destruct Hd. }
  rewrite Split_free_single by done. cbn [app]. rewrite found_cons.
  assert (HasPrefix (cpu_line vs) (str "cpu ") = true) as HP.
  { apply bool_decide_eq_true. unfold cpu_line. exists (space :: Join (map strconv_Itoa vs) space). destruct vs; [cbn in Hlen; lia|done]. }
  rewrite HP. cbn [mbind option_bind]. rewrite Fields_cpu_line by done. cbn [length]. rewrite length_map.
  rewrite (proj2 (Nat.ltb_ge _ _)) by lia. cbn [drop]. rewrite drop_0. f_equal.
  pose proof (cpu_fields_sum vs 0 no_cpu HF) as H1. pose proof (cpu_fields_idle vs 0 no_cpu HF) as H2.
  destruct (cpu_fields 0 _ _) as [t i]. cbn [total idle no_cpu] in *. f_equal; [rewrite H1; unfold sum; lia|rewrite H2 by lia; done].
Qed.

(** *** The difference of two sums *)
Lemma sum_le vs ws : Forall2 Z.le vs ws -> sum vs <= sum ws.
Proof. induction 1 as [|v w vs ws Hv _ IH]; [done|]. unfold sum in *. cbn [foldr]. lia. Qed.

Lemma sum_others vs ws : Forall2 Z.le vs ws -> forall i, default 0 (ws !! i) - default 0 (vs !! i) <= sum ws - sum vs.
Proof.
  induction 1 as [|v w vs ws Hv HF IH]; intros i; [by rewrite lookup_nil|]. pose proof (sum_le _ _ HF) as HS.
  assert (forall x l, sum (x :: l) = x + sum l) as HC by done. rewrite !HC. destruct i as [|i]; cbn [lookup list_lookup]; [cbn [default from_option]; unfold id; lia|].
  specialize (IH i). by transitivity (sum ws - sum vs); [exact IH|lia].
Qed.

Lemma Qle_frac a b : 0 < b -> 0 <= a <= b -> (0 <= Qmake (a * 100) (Z.to_pos b) <= inject_Z 100)%Q.
Proof. intros Hb Ha. unfold Qle, inject_Z. cbn [Qnum Qden]. rewrite Z2Pos.id by done. lia. Qed.

Lemma delta_range a b : 0 <= delta a b < 2 ^ 63.
Proof.
  unfold delta, int64. pose proof (Z.mod_pos_bound (uint64 (b - a) + 2 ^ 63) (2 ^ 64) ltac:(lia)). lia.
Qed.

Lemma delta_exact a b : 0 <= a <= b -> b - a < 2 ^ 63 -> delta a b = b - a.
Proof. intros Ha Hb. unfold delta, uint64. rewrite Z.mod_small, int64_small by lia. lia. Qed.

(** A counter of the network that wrapped at 64 bits is still read right. *)
Lemma delta_wrapped a n : 0 <= a < 2 ^ 64 -> 0 <= n < 2 ^ 63 -> delta a (uint64 (a + n)) = n.
Proof.
  intros Ha Hn. unfold delta, uint64. rewrite <- Zminus_mod_idemp_l, Z.mod_mod, Zminus_mod_idemp_l by lia.
  replace (a + n - a) with n by lia. rewrite Z.mod_small, int64_small by lia. lia.
Qed.

(** ** Properties *)

(** between two readings of /proc/stat whose counters did not go back, the
    sampled percentage is a percentage, and it is the busy share of the
    ticks; whatever the files hold, the traffic of a sample is a natural
    number, and 0 until a first count of sent bytes is known. *)
Theorem sample_sound iface p q p0 vs ws rest rest' now (s := take_sample iface
    {| prevCPU := default no_cpu (readCPU p); prevNet := p0 |} q now) :
  linux p = true -> linux q = true -> stat p = Some (stat_text vs rest) -> stat q = Some (stat_text ws rest') ->
  counters vs -> counters ws -> Forall2 Z.le vs ws ->
  (0 <= CPU s.1 <= inject_Z 100)%Q /\
  (0 < sum vs < sum ws -> CPU s.1 = Qmake ((sum ws - sum vs - (default 0 (ws !! 3%nat) - default 0 (vs !! 3%nat))) * 100) (Z.to_pos (sum ws - sum vs))) /\
  0 <= TxBytes s.1 < 2 ^ 63 /\ 0 <= RxBytes s.1 < 2 ^ 63 /\ (tx p0 = 0 -> TxBytes s.1 = 0 /\ RxBytes s.1 = 0).
Proof.
  intros HL HL' HS HS' HC HC' HF. subst s. unfold take_sample.
  rewrite (readCPU_text p vs rest HL HS HC), (readCPU_text q ws rest' HL' HS' HC'). cbn [fst CPU TxBytes RxBytes prevCPU prevNet default from_option id].
  pose proof (sum_others vs ws HF 3) as Ho. set (i := default 0 (vs !! 3%nat)) in *. set (j := default 0 (ws !! 3%nat)) in *.
  destruct HC as (HV & _ & Hb), HC' as (HW & _ & Hb'). fold (sum vs) in Hb. fold (sum ws) in Hb'.
  pose proof (sum_nonneg vs HV). pose proof (sum_nonneg ws HW).
  assert (0 <= i <= j /\ j < 2 ^ 63) as [Hi Hj].
  { subst i j. destruct (vs !! 3%nat) as [x|] eqn:Ex.
    - destruct (Forall2_lookup_l _ _ _ _ _ HF Ex) as (y & Ey & Hxy). rewrite Ey. cbn.
      pose proof (Forall_lookup_1 _ _ _ _ HV Ex). pose proof (Forall_lookup_1 _ _ _ _ HW Ey). cbv beta in *. lia.
    - apply lookup_ge_None in Ex. apply Forall2_length in HF. rewrite (proj2 (lookup_ge_None ws 3)) by lia. cbn. lia. }
  assert (0 < sum vs < sum ws -> cpu_percent {| total := sum vs; idle := i |} {| total := sum ws; idle := j |} =
    Qmake ((sum ws - sum vs - (j - i)) * 100) (Z.to_pos (sum ws - sum vs))) as HE.
  { intros Hlt. unfold cpu_percent. cbn [total idle]. rewrite !int64_small by lia.
    by rewrite !(proj2 (Z.ltb_lt _ _)), (proj2 (Z.leb_le _ _)) by lia. }
  split; [|split; [exact HE|]].
  - destruct (decide (0 < sum vs < sum ws)) as [Hlt|Hlt]; [rewrite HE by done; apply Qle_frac; lia|].
    assert (cpu_percent {| total := sum vs; idle := i |} {| total := sum ws; idle := j |} = 0%Q) as ->; [|by split].
    unfold cpu_percent. cbn [total idle]. destruct (Z.ltb_spec 0 (sum vs)), (Z.ltb_spec (sum vs) (sum ws)); try done. lia.
  - pose proof (delta_range (tx p0) (tx (default no_net (readNet iface q)))).
    pose proof (delta_range (rx p0) (rx (default no_net (readNet iface q)))).
    destruct (Z.ltb_spec 0 (tx p0)); split_and!; try lia; intros; lia.
Qed.

Lemma Forall_filtered {A : Type} (Q P : A -> Prop) `{forall a, Decision (P a)} l : Forall Q l -> Forall Q (filter P l).
Proof. rewrite !Forall_forall. intros HQ a [_ Ha]%list_elem_of_filter. by apply HQ. Qed.

(** *** The ring and the log of samples *)
Section ring.
Context (cfg : Config).

(** The samples the ticks take, after the readings [p]. *)
Fixpoint samples (p : Prev) (ts : list Tick) : list Sample :=
  match ts with
  | [] => []
  | t :: ts => let '(s, p) := take_sample (Iface cfg) p (t_proc t) (t_sample t) in s :: samples p ts
  end.

(** Time goes on from [t0]. *)
Fixpoint timely (t0 : Z) (ts : list Tick) : Prop :=
  match ts with [] => True | t :: ts => t0 < t_sample t <= t_trim t /\ timely (t_trim t) ts end.
Definition last_trim (t0 : Z) (ts : list Tick) : Z := default t0 (t_trim <$> last ts).

Definition kept (cut : Z) (l : list Sample) : list Sample := filter (fun x => cut <= TS x) l.

Lemma kept_kept a b l : a <= b -> kept b (kept a l) = kept b l.
Proof. intros Hab. unfold kept. rewrite list_filter_filter. apply list_filter_iff. intros x. lia. Qed.

Lemma Run_tick_ring t c : DB_ cfg = true -> faults c = [] -> Forall (fun x => TS x < t_sample t) (ring c) ->
  let '(s, p) := take_sample (Iface cfg) (prev c) (t_proc t) (t_sample t) in
  (Run_tick cfg t c).2 = {| prev := p; ring := kept (t_trim t - Retention cfg) (ring c ++ [s]); faults := [] |} /\ TS s = t_sample t.
Proof.
  intros HD HF HO. destruct (take_sample _ _ _ _) as [s p] eqn:E. assert (TS s = t_sample t) as HT by by injection E as <- _.
  split; [|done]. unfold Run_tick, bind. rewrite E, HD. unfold insertSample, trim, statement. cbn [faults]. rewrite HF. cbn.
  assert (filter (fun x => TS x <> TS s) (ring c) = ring c) as ->; [|done].
  clear -HO HT. induction HO as [|x l Hx _ IH]; [done|]. rewrite filter_cons, decide_True by lia. by rewrite IH.
Qed.

Lemma run_ring ts : forall c t0 old, DB_ cfg = true -> faults c = [] -> timely t0 ts -> 0 <= Retention cfg ->
  Forall (fun x => TS x <= t0) old -> ring c = kept (t0 - Retention cfg) old ->
  let c' := foldl (fun c t => (Run_tick cfg t c).2) c ts in
  ring c' = kept (last_trim t0 ts - Retention cfg) (old ++ samples (prev c) ts) /\ faults c' = [].
Proof.
  induction ts as [|t ts IH]; intros c t0 old HD HF HT HR HO Hc; cbn [foldl samples]; [by rewrite app_nil_r|].
  destruct HT as [Ht HT]. pose proof (Run_tick_ring t c HD HF) as Htick.
  destruct (take_sample _ _ _ _) as [s p]. destruct Htick as [HE HS].
  { rewrite Hc. unfold kept. apply Forall_filtered. eapply Forall_impl; [exact HO|]. cbv beta. intros x Hx. lia. }
  rewrite HE. specialize (IH {| prev := p; ring := kept (t_trim t - Retention cfg) (ring c ++ [s]); faults := [] |} (t_trim t) (old ++ [s])).
  cbv zeta in IH. cbn [prev ring faults] in IH. replace (last_trim t0 (t :: ts)) with (last_trim (t_trim t) ts).
  2:{ unfold last_trim. destruct ts as [|t' ts]; [done|]. rewrite last_cons_cons. destruct (last (t' :: ts)) eqn:EL; [done|]. by apply last_None in EL. }
  rewrite <- app_assoc in IH. cbn [app] in IH. apply IH; try done.
  - apply Forall_app. split; [|by repeat constructor; lia]. eapply Forall_impl; [exact HO|]. cbv beta. lia.
  - rewrite Hc. unfold kept. rewrite !filter_app. f_equal. apply (kept_kept (t0 - Retention cfg)). lia.
Qed.
End ring.

(** *** The newest rows *)
Lemma sort_ascending l : StronglySorted (fun a b => TS a < TS b) l -> stable_sort newest_first l = reverse l.
Proof.
  induction l as [|x l IH]; intros HS; [done|]. apply StronglySorted_inv in HS as [HS HX]. cbn [stable_sort]. rewrite IH by done.
  rewrite reverse_cons. assert (Forall (fun y => TS x < TS y) (reverse l)) as HR by (by rewrite Forall_reverse).
  clear -HR. induction HR as [|y k Hy _ IH]; [done|]. cbn [sort_insert app]. unfold newest_first at 1.
  by rewrite (proj2 (Z.leb_gt _ _)), IH by lia.
Qed.

Lemma samples_ascending cfg ts : forall p t0, timely t0 ts ->
  StronglySorted (fun a b => TS a < TS b) (samples cfg p ts) /\ Forall (fun s => t0 < TS s) (samples cfg p ts).
Proof.
  induction ts as [|t ts IH]; intros p t0 HT; [by repeat constructor|]. destruct HT as [Ht HT]. cbn [samples].
  destruct (take_sample _ _ _ _) as [s p'] eqn:E. assert (TS s = t_sample t) as HS by by injection E as <- _.
  destruct (IH p' _ HT) as [H1 H2]. split; constructor; try done; try lia.
  - eapply Forall_impl; [exact H2|]. cbv beta. lia.
  - eapply Forall_impl; [exact H2|]. cbv beta. lia.
Qed.

Lemma StronglySorted_filter {A : Type} (R : A -> A -> Prop) (P : A -> Prop) `{forall a, Decision (P a)} l :
  StronglySorted R l -> StronglySorted R (filter P l).
Proof.
  induction 1 as [|x l HS IH HX]; [constructor|]. rewrite filter_cons. case_decide; [|done]. constructor; [done|]. by apply Forall_filtered.
Qed.

Lemma StronglySorted_app {A : Type} (R : A -> A -> Prop) l k : StronglySorted R l -> StronglySorted R k ->
  (forall a b, a ∈ l -> b ∈ k -> R a b) -> StronglySorted R (l ++ k).
Proof.
  induction 1 as [|x l HS IH HX]; intros HK HR; [done|]. cbn [app]. constructor.
  - apply IH; [done|]. intros a b Ha Hb. apply HR; [by right|done].
  - apply Forall_app. split; [done|]. apply Forall_forall. intros b Hb. apply HR; [left|done].
Qed.

(** the panel's history of samples: after any number of ticks with a
    working database, over any rows an earlier process left, the metrics
    endpoint returns the newest samples within the retention of the last
    tick, as many as asked for (60 unless the query asks for 1 to 5000),
    oldest first, and the ring holds nothing else. *)
Theorem recent_exact cfg p ts c t0 old q :
  DB_ cfg = true -> 0 <= Retention cfg -> faults c = [] -> timely t0 ts ->
  StronglySorted (fun a b => TS a < TS b) old -> Forall (fun x => TS x <= t0) old -> ring c = kept (t0 - Retention cfg) old ->
  let c' := Run cfg p ts c in
  let log := kept (last_trim t0 ts - Retention cfg) (old ++ samples cfg (prev (Run_start cfg p c)) ts) in
  (handleMetrics q c').1 = Answered (drop (length log - Z.to_nat (metrics_limit q)) log) /\ ring c' = log.
Proof.
  intros HD HR HF HT HS HO Hc c' log.
  destruct (run_ring cfg ts (Run_start cfg p c) t0 old HD HF HT HR HO Hc) as [Hring Hf]. change (ring c' = log) in Hring. change (faults c' = []) in Hf.
  split; [|done]. destruct (samples_ascending cfg ts (prev (Run_start cfg p c)) t0 HT) as [HA HB].
  assert (StronglySorted (fun a b => TS a < TS b) log) as HL.
  { apply StronglySorted_filter, StronglySorted_app; [done|done|]. intros a b Ha Hb.
    rewrite Forall_forall in HO, HB. specialize (HO a Ha). specialize (HB b Hb). cbv beta in *. lia. }
  assert (0 < metrics_limit q <= 5000) as Hq.
  { unfold metrics_limit. destruct (Atoi q) as [n|]; [|lia]. destruct (Z.ltb_spec 0 n), (Z.leb_spec n 5000); cbn [andb]; lia. }
  unfold handleMetrics, bind, ListRecent, statement. rewrite Hf, Hring.
  rewrite (proj2 (Z.leb_gt _ _)), (proj2 (Z.ltb_ge 5000 _)) by lia. cbn [orb fst snd ret]. f_equal.
  rewrite sort_ascending by done. by rewrite take_reverse, reverse_involutive.
Qed.

(** ** Concrete inputs *)
Module Demo.
Definition host (vs : list Z) (net : bytes) : Proc :=
  {| linux := true; stat := Some (stat_text vs (str "cpu0 1 2 3 4")); net_dev := Some net;
     meminfo := Some (Join [str "MemTotal:       1000 kB"; str "MemAvailable:    400 kB"] newline);
     net_tcp := Some (Join [str "  sl  local_address"; str "   0: 0100007F:0035 00000000:0000 0A 0";
                            str "   1: 0100007F:0035 0100007F:C001 01 0"; []] newline); net_tcp6 := None |}.
Definition net_line_of (rx tx : bytes) : bytes := str "  eth0: " ++ rx ++ str " 1 0 0 0 0 0 0 " ++ tx ++ str " 1 0 0 0 0 0 0".
Definition first : list Z := [100; 0; 50; 800; 50].
Definition second_ : list Z := [150; 0; 60; 830; 60].
(** proc(5): the fifth counter, iowait, may decrease. *)
Definition back : list Z := [100; 0; 50; 810; 48].
Definition p1 : Proc := host first (net_line_of (str "1000") (str "500")).
Definition p2 : Proc := host second_ (net_line_of (str "1700") (str "650")).
Definition p3 : Proc := host back (net_line_of (str "1000") (str "500")).
Definition prev1 : Prev := {| prevCPU := default no_cpu (readCPU p1); prevNet := default no_net (readNet [] p1) |}.

Example busy : (take_sample [] prev1 p2 7).1 = {| TS := 7; CPU := Qmake 7000 100; MemBytes := 614400; Conns := 1; TxBytes := 150; RxBytes := 700 |}.
Proof. by vm_compute. Qed.

(** When iowait goes back, the idle ticks exceed the total and the sampled
    percentage is negative. *)
Example negative_cpu : CPU (take_sample [] prev1 p3 7).1 = Qmake (-200) 8.
Proof. by vm_compute. Qed.

(** Received bytes are not counted until a byte was sent. *)
Example silent_rx :
  let quiet := {| prevCPU := no_cpu; prevNet := {| tx := 0; rx := 1000 |} |} in RxBytes (take_sample [] quiet p2 7).1 = 0.
Proof. by vm_compute. Qed.

(** A number out of range counts as the largest one. *)
Example out_of_range : ParseInt (str "99999999999999999999x") = (2 ^ 63 - 1, Some ErrRange) /\ ParseInt (str "9x") = (0, Some ErrSyntax).
Proof. by vm_compute. Qed.

Definition cfg : Config := New {| DB_ := true; Interval := 0; Retention := 15; Iface := [] |}.
Definition tick (p : Proc) (t : Z) : Tick := {| t_proc := p; t_sample := t; t_trim := t |}.
Definition ticks : list Tick := [tick p2 10; tick p1 20; tick p2 30].
Definition empty : Col := {| prev := {| prevCPU := no_cpu; prevNet := no_net |}; ring := []; faults := [] |}.

Lemma first_counters : counters first /\ counters second_ /\ Forall2 Z.le first second_.
Proof. split_and!; repeat constructor; cbn; lia. Qed.

Lemma ticks_timely : timely 0 ticks.
Proof. cbn. lia. Qed.
End Demo.

Lemma sample_sound_witness :
  (0 <= CPU (take_sample [] Demo.prev1 Demo.p2 7).1 <= inject_Z 100)%Q.
Proof.
  destruct Demo.first_counters as (H1 & H2 & H3).
  exact (proj1 (sample_sound [] Demo.p1 Demo.p2 (prevNet Demo.prev1) Demo.first Demo.second_ (str "cpu0 1 2 3 4") (str "cpu0 1 2 3 4") 7
    eq_refl eq_refl eq_refl eq_refl H1 H2 H3)).
Defined.

Lemma recent_exact_witness :
  let c' := Run Demo.cfg Demo.p1 Demo.ticks Demo.empty in
  exists log, (handleMetrics (str "2") c').1 = Answered log /\ map TS log = [20; 30] /\ length (ring c') = 2%nat.
Proof.
  intros c'. destruct (recent_exact Demo.cfg Demo.p1 Demo.ticks Demo.empty 0 [] (str "2")
    eq_refl ltac:(vm_compute; discriminate) eq_refl Demo.ticks_timely (SSorted_nil _) (Forall_nil_2 _) eq_refl) as [HA HR].
  eexists. split; [exact HA|]. split; [vm_compute; reflexivity|]. unfold c'. rewrite HR. vm_compute. reflexivity.
Defined.
