(* ===== verification/UpdateApi.v ===== *)
(** * The panel's update and restart handlers (internal/api/update.go, system.go)

    The release check with its checksum lookup, the refusal to update in
    process, and the queued restart, over the updater and the host it works
    on.  An HTTP request is the response it gets; the temporary name is an
    argument. *)
From S2P Require Import Prelude GoStrings GoNet GoCodec Db Applier Rulesets ApplyRing ApplyApi RulesApi Host Updater.
From Stdlib Require Import ZArith Lia.
Local Open Scope Z_scope.

Record updateCheckResponse := {
  Current : bytes; Latest_ : bytes; HasUpdate : bool; Asset_ : bytes; Checksum : bytes; Size : Z; Notes_ : bytes
}.

(** [filepath.Base]. *)
Fixpoint drop_slashes (s : bytes) : bytes :=
  match s with c :: s' => if c == Byte.x2f then drop_slashes s' else s | [] => [] end.
Definition path_Base (p : bytes) : bytes :=
  if p == [] then str "."
  else match drop_slashes (reverse p) with
       | [] => str "/"
       | r => reverse (match IndexByte r Byte.x2f with Some i => take i r | None => r end)
       end.

Section update.
Context `{Unicode} {Value Base : Type}.
Context (GOOS GOARCH : bytes) (umask : Z) (DecodeRelease : bytes -> option Release).

Record US := { srv : @Srv Value Base; host : Host }.
Definition on_host {A} (m : ST Host A) : ST US A := fun s => let '(a, h) := m (host s) in (a, {| srv := srv s; host := h |}).
Definition log (actor action target result : bytes) : ST US unit := fun s =>
  let '(a, x) := on_app (audit actor action target result) (srv s) in (a, {| srv := x; host := host s |}).

Definition is_sums (name : bytes) : bool :=
  Contains name (str "sha256sum") || Contains name (str "sha256sums") || HasSuffix name (str ".sha256").

Definition findSumsAsset (rel : Release) : option Asset := found (fun a => is_sums (ToLower (AssetName a))) (Assets rel).

(** The loop over the lines of the file of sums. *)
Fixpoint sum_line (base assetName : bytes) (lines : list bytes) : option bytes :=
  match lines with
  | [] => None
  | line :: lines =>
      let fields := Fields (TrimSpace line) in
      match fields, last fields with
      | f :: _ :: _, Some l => if (l == base) || (l == assetName) then Some (ToLower f) else sum_line base assetName lines
      | _, _ => sum_line base assetName lines
      end
  end.

(** [fetchSumForAsset]; [resp] answers the request for the sums, [tmp] is the
    name of the temporary file; [None] is an error. *)
Definition fetch_sums (resp : option Response) (tmp assetName : bytes) : ST Host (option bytes) :=
  let! _ := dropped Close in
  let! d := Download umask resp tmp [] in
  match d with
  | Err _ => ret None
  | Ok _ =>
      let! raw := ReadFile tmp in
      match raw with
      | Err _ => ret None
      | Ok raw => ret (sum_line (path_Base assetName) assetName (Split raw Byte.x0a))
      end
  end.

Definition fetchSumForAsset (resp : option Response) (tmp assetName : bytes) : ST Host (option bytes) :=
  let! c := OpenFile umask tmp 384 in
  match c with
  | Err _ => ret None
  | Ok _ =>
      let! r := fetch_sums resp tmp assetName in
      let! _ := dropped (Remove tmp) in
      ret r
  end.

(** The checksum of an asset: from the notes, else from the sums. *)
Definition find_checksum (rel : Release) (asset : Asset) (sums_resp : option Response) (tmp : bytes) : ST Host bytes :=
  let c := match ExtractSha256 (ReleaseBody rel) (AssetName asset) with Ok c => c | Err _ => [] end in
  if c == [] then
    match findSumsAsset rel with
    | Some _ => let! got := fetchSumForAsset sums_resp tmp (AssetName asset) in ret (default [] got)
    | None => ret []
    end
  else ret c.

Definition has_update (rel : Release) (version : bytes) : bool := (TagName rel != []) && (TagName rel != version).

(** [handleUpdateCheck]; [client]: the updater is configured. *)
Definition handleUpdateCheck (client : bool) (version : bytes) (resp sums_resp : option Response) (tmp actor : bytes) :
    ST US (Answer updateCheckResponse) :=
  if negb client then ret (Refused 503 (str "updater_disabled"))
  else match Latest DecodeRelease resp with
  | Err _ => let! _ := log actor (str "update.check") [] (str "error") in ret (Refused 502 (str "github_error"))
  | Ok rel =>
      let suffix := ArtifactSuffix GOOS GOARCH in
      match FindAsset rel suffix with
      | Err _ =>
          let! _ := log actor (str "update.check") [] (str "no_asset") in
          ret (Answered {| Current := version; Latest_ := TagName rel; HasUpdate := has_update rel version; Asset_ := []; Checksum := []; Size := 0;
                           Notes_ := str "no asset for " ++ suffix ++ str " in release " ++ TagName rel |})
      | Ok asset =>
          let! checksum := on_host (find_checksum rel asset sums_resp tmp) in
          let! _ := log actor (str "update.check") (TagName rel) (str "ok") in
          ret (Answered {| Current := version; Latest_ := TagName rel; HasUpdate := has_update rel version; Asset_ := AssetName asset;
                           Checksum := checksum; Size := AssetSize asset; Notes_ := ReleaseName rel |})
      end
  end.

Definition handleUpdateApply (client : bool) (version actor : bytes) : ST US (Answer unit) :=
  if negb client then ret (Refused 503 (str "updater_disabled"))
  else
    let! _ := log actor (str "update.apply.refused") version (str "external_supervisor_required") in
    ret (Refused 503 (str "updater_requires_supervisor")).

Definition handleSystemRestart (name actor : bytes) : ST US (Answer unit) :=
  if name == [] then ret (Refused 503 (str "no_unit"))
  else
    let! r := on_host (RestartService GOOS name) in
    match r with
    | Err _ => let! _ := log actor (str "system.restart") name (str "failed") in ret (Refused 500 (str "restart_failed"))
    | Ok _ => let! _ := log actor (str "system.restart") name (str "queued") in ret (Answered tt)
    end.
End update.

(** ** Lemmas *)
Section lemmas.
Context `{Unicode} {Value Base : Type}.
Context (GOOS GOARCH : bytes) (umask : Z) (DecodeRelease : bytes -> option Release).

(** The files but the temporary ones, and the commands that have run. *)
Definition untouched (tmp : bytes) (w w' : Host) : Prop :=
  ran w' = ran w /\ forall q, q <> tmp -> q <> tmp ++ str ".dl" -> files w' !! q = files w !! q.

Lemma untouched_refl tmp w : untouched tmp w w.
Proof. done. Qed.
Lemma untouched_trans tmp a b c : untouched tmp a b -> untouched tmp b c -> untouched tmp a c.
Proof. intros [H1 H2] [H3 H4]. split; [congruence|]. intros q Hq Hq'. rewrite H4, H2 by done. done. Qed.
Lemma untouched_set tmp l fs w : (forall q, q <> tmp -> q <> tmp ++ str ".dl" -> fs !! q = files w !! q) ->
  untouched tmp w (set_faults l (set_files fs w)).
Proof. by intros HF. Qed.

Definition same_ran (r : list (list bytes * Files)) : Host -> Prop := fun w => ran w = r.

Lemma ran_call r : keeps (same_ran r) next_call.
Proof. intros w Hw. unfold next_call. by destruct w as [fs [|[|n] l] a k]. Qed.
Lemma ran_files {E : Type} r (e : E) f : keeps (same_ran r) (sys e f).
Proof.
  apply keeps_bind; [apply ran_call|]. intros [n|]; [apply keeps_ret|]. apply keeps_bind; [by apply keeps_modify|]. intros. apply keeps_ret.
Qed.
Lemma ran_stat r p : keeps (same_ran r) (Stat p).
Proof. apply keeps_bind; [apply ran_call|]. intros [n|]; [apply keeps_ret|apply keeps_gets]. Qed.
Lemma ran_remove r p : keeps (same_ran r) (dropped (Remove p)).
Proof.
  apply keeps_bind; [|intros; apply keeps_ret]. apply keeps_bind; [apply ran_stat|]. intros [e|f]; [apply keeps_ret|].
  apply keeps_bind; [by apply keeps_modify|]. intros. apply keeps_ret.
Qed.
Lemma ran_rename r a b : keeps (same_ran r) (Rename a b).
Proof.
  apply keeps_bind; [apply ran_stat|]. intros [e|f]; [apply keeps_ret|].
  apply keeps_bind; [by apply keeps_modify|]. intros. apply keeps_ret.
Qed.
Lemma ran_write r p b : keeps (same_ran r) (Write p b).
Proof.
  apply keeps_bind; [apply ran_call|]. intros [n|]; (apply keeps_bind; [by apply keeps_modify|]; intros; apply keeps_ret).
Qed.
Lemma ran_io {E A : Type} r (f : FsErr -> E) (m : ST Host (res FsErr A)) : keeps (same_ran r) m -> keeps (same_ran r) (io f m).
Proof. intros Hm. apply keeps_bind; [done|]. intros. apply keeps_ret. Qed.

Lemma ran_download r resp dest want : keeps (same_ran r) (Download umask resp dest want).
Proof.
  unfold Download. destruct resp as [resp|]; [|apply keeps_ret]. destruct (negb _); [apply keeps_ret|].
  apply keeps_bindE; [apply ran_io, ran_files|]. intros _. apply keeps_bind; [apply ran_write|]. intros x.
  apply keeps_bind; [apply keeps_bind; [apply ran_files|intros; apply keeps_ret]|]. intros _.
  destruct (match x with Ok _ => _ | Err _ => _ end); [apply keeps_bind; [apply ran_remove|intros; apply keeps_ret]|].
  destruct (_ && _); [apply keeps_bind; [apply ran_remove|intros; apply keeps_ret]|].
  apply keeps_bindE; [apply ran_io, ran_files|]. intros _. apply keeps_bindE; [apply ran_io, ran_rename|]. intros _. apply keeps_ret.
Qed.

(** A line of the sums that names the asset. *)
Definition names_sum (raw assetName c : bytes) : Prop :=
  exists line f rest l, line ∈ Split raw Byte.x0a /\ Fields (TrimSpace line) = f :: rest /\ last rest = Some l /\
    (l = path_Base assetName \/ l = assetName) /\ c = ToLower f.

Lemma sum_line_spec lines assetName c : sum_line (path_Base assetName) assetName lines = Some c ->
  exists line f rest l, line ∈ lines /\ Fields (TrimSpace line) = f :: rest /\ last rest = Some l /\
    (l = path_Base assetName \/ l = assetName) /\ c = ToLower f.
Proof.
  induction lines as [|line lines IH]; [done|]. cbn [sum_line]. intros E.
  assert (sum_line (path_Base assetName) assetName lines = Some c -> exists line' f rest l, line' ∈ line :: lines /\ Fields (TrimSpace line') = f :: rest /\
    last rest = Some l /\ (l = path_Base assetName \/ l = assetName) /\ c = ToLower f) as Hrest.
  { intros (x & f & rest & l & Hx & ?)%IH. exists x, f, rest, l. split; [by right|done]. }
  destruct (Fields (TrimSpace line)) as [|f [|g rest]] eqn:EF; [by apply Hrest|by apply Hrest|].
  rewrite last_cons_cons in E. destruct (last (g :: rest)) as [l|] eqn:EL; [|by apply Hrest].
  destruct ((l == path_Base assetName) || (l == assetName)) eqn:EB; [|by apply Hrest].
  injection E as <-. exists line, f, (g :: rest), l. split; [left|]. split; [done|]. split; [done|]. split; [|done].
  apply orb_true_iff in EB as [EB|EB]; apply bool_decide_eq_true in EB; auto.
Qed.

(** The download of the sums, whatever the state it starts in. *)
Lemma wp_fetch_sums resp tmp name w :
  wp (fetch_sums umask resp tmp name) (fun r w' => untouched tmp w w' /\
    forall c, r = Some c -> exists resp', resp = Some resp' /\ StatusCode resp' = 200 /\ Breaks resp' = false /\ names_sum (Content resp') name c) w.
Proof.
  unfold fetch_sums. apply wp_bind, wp_dropped.
  apply (wp_mono _ (fun _ w1 => untouched tmp w w1)); [apply wp_sys; intros; by apply untouched_set|].
  intros _ w1 Hw1. apply wp_bind.
  pose proof (wp_elim _ _ _ _ _ (Download_wp umask resp tmp [] w1) (surjective_pairing _)) as HD.
  pose proof (ran_download (ran w1) resp tmp [] w1 eq_refl) as HR. unfold same_ran in HR.
  unfold wp at 1. destruct (Download umask resp tmp [] w1) as [[e|n] w2]; cbn [fst snd] in HD, HR; cbv beta iota.
  - apply wp_ret. split; [|done]. apply (untouched_trans _ _ _ _ Hw1). split; [done|]. intros q _ Hq. by apply HD.
  - destruct HD as (resp' & -> & Hst & Hbr & _ & _ & Hf & _ & Hsame).
    assert (forall l', untouched tmp w (set_faults l' w2)) as Hu
      by (intros l'; apply (untouched_trans _ _ _ _ Hw1); split; [done|]; intros q Hq Hq'; by apply Hsame).
    apply wp_bind, wp_read; [intros l; by apply wp_ret|intros l _; by apply wp_ret|].
    intros l f Hx. apply wp_ret. split; [apply Hu|]. rewrite Hf in Hx. injection Hx as <-. cbn [Body].
    intros c Hc%sum_line_spec. by exists resp'.
Qed.

(** Where a reported checksum comes from. *)
Definition checksum_of (rel : Release) (asset : Asset) (sums_resp : option Response) (c : bytes) : Prop :=
  c = [] \/ ExtractSha256 (ReleaseBody rel) (AssetName asset) = Ok c \/
  exists sums resp', sums ∈ Assets rel /\ is_sums (ToLower (AssetName sums)) = true /\ sums_resp = Some resp' /\
    StatusCode resp' = 200 /\ Breaks resp' = false /\ names_sum (Content resp') (AssetName asset) c.

Lemma wp_find_checksum rel asset sums_resp tmp w :
  wp (find_checksum umask rel asset sums_resp tmp) (fun c w' => untouched tmp w w' /\ checksum_of rel asset sums_resp c) w.
Proof.
  unfold find_checksum. case_bool_decide as HC.
  2:{ apply wp_ret. split; [done|]. right; left. destruct (ExtractSha256 _ _); done. }
  destruct (findSumsAsset rel) as [sums|] eqn:ES; [|apply wp_ret; split; [done|by left]].
  apply wp_bind, wp_bind.
  apply (wp_mono _ (fun _ w1 => untouched tmp w w1)).
  { apply wp_sys; intros; apply untouched_set; [done|]. intros q Hq _. by rewrite lookup_insert_ne. }
  intros [e|[]] w1 Hw1; [apply wp_ret, wp_ret; split; [done|by left]|].
  apply wp_bind. eapply wp_mono; [apply wp_fetch_sums|]. cbv beta. intros r w2 [Hw2 Hr].
  apply wp_bind, wp_dropped. apply (wp_mono _ (fun _ w3 => untouched tmp w w3)).
  { pose proof (untouched_trans _ _ _ _ Hw1 Hw2) as Hw. apply wp_remove; intros; try exact Hw.
    apply (untouched_trans _ _ _ _ Hw), untouched_set. intros q Hq _. by rewrite lookup_delete_ne. }
  intros _ w3 Hw3. apply wp_ret, wp_ret. split; [done|]. destruct r as [c|]; [|by left]. right; right.
  destruct (Hr c eq_refl) as (resp' & H1 & H2 & H3 & H4). unfold findSumsAsset, found in ES. apply fmap_Some in ES as ([i x] & (Hx & Hi & _)%list_find_Some & ->).
  exists x, resp'. split; [by eapply list_elem_of_lookup_2|]. done.
Qed.

(** What a check may answer. *)
Definition check_answer (client : bool) (version : bytes) (resp sums_resp : option Response) (a : Answer updateCheckResponse) : Prop :=
  match a with
  | Answered r =>
      exists rel, Latest DecodeRelease resp = Ok rel /\ Current r = version /\ Latest_ r = TagName rel /\
        (HasUpdate r = true <-> TagName rel <> [] /\ TagName rel <> version) /\
        ((Asset_ r = [] /\ Checksum r = [] /\ Forall (fun x => Contains (ToLower (AssetName x)) (ToLower (ArtifactSuffix GOOS GOARCH)) = false) (Assets rel)) \/
         exists asset, asset ∈ Assets rel /\ Contains (ToLower (AssetName asset)) (ToLower (ArtifactSuffix GOOS GOARCH)) = true /\
           Asset_ r = AssetName asset /\ Size r = AssetSize asset /\ checksum_of rel asset sums_resp (Checksum r))
  | Refused st _ => (st = 503 /\ client = false) \/ (st = 502 /\ exists e, Latest DecodeRelease resp = Err e)
  | Crashed => False
  end.

Lemma log_host actor action target result (s : @US Value Base) : host (log actor action target result s).2 = host s.
Proof. unfold log. by destruct (on_app _ _). Qed.

Lemma has_update_spec rel version : has_update rel version = true <-> TagName rel <> [] /\ TagName rel <> version.
Proof. unfold has_update. by rewrite andb_true_iff, !negb_true_iff, !bool_decide_eq_false. Qed.

(** the release check, whatever GitHub answers and whichever system calls
    fail: it runs no command and leaves every file but its temporary ones as
    it was; it reports the release's tag, an update exactly when that tag is
    not empty and not the running version, an asset for this platform when
    there is one, and a checksum only from the notes or from a complete file
    of sums whose line names the asset. *)
Theorem update_check_sound client version resp sums_resp tmp actor (s : @US Value Base) a s' :
  handleUpdateCheck GOOS GOARCH umask DecodeRelease client version resp sums_resp tmp actor s = (a, s') ->
  untouched tmp (host s) (host s') /\ check_answer client version resp sums_resp a.
Proof.
  intros E. refine (wp_elim _ (fun a (s' : @US Value Base) => untouched tmp (host s) (host s') /\ check_answer client version resp sums_resp a) s a s' _ E). clear E a s'.
  unfold handleUpdateCheck. destruct client; cbn [negb]; [|apply wp_ret; split; [done|by left]].
  assert (forall x y z t (m : Answer updateCheckResponse) (s1 : @US Value Base), untouched tmp (host s) (host s1) ->
    check_answer true version resp sums_resp m ->
    wp (let! _ := log x y z t in ret m) (fun a (s' : @US Value Base) => untouched tmp (host s) (host s') /\ check_answer true version resp sums_resp a) s1) as HL.
  { intros x y z t m s1 Hs Hm. apply wp_bind. unfold wp at 1. pose proof (log_host x y z t s1) as HH. destruct (log x y z t s1) as [[] s2]. cbn in HH.
    apply wp_ret. by rewrite HH. }
  destruct (Latest DecodeRelease resp) as [e|rel] eqn:EL; [apply HL; [done|right; split; [done|by exists e]]|].
  unfold FindAsset. destruct (list_find _ (Assets rel)) as [[i asset]|] eqn:EF.
  - apply list_find_Some in EF as (Hi & HC & _). apply wp_bind. unfold on_host. unfold wp at 1.
    pose proof (wp_elim _ _ _ _ _ (wp_find_checksum rel asset sums_resp tmp (host s)) (surjective_pairing _)) as [HU HK].
    destruct (find_checksum umask rel asset sums_resp tmp (host s)) as [c h]. cbn [fst snd] in HU, HK. apply HL; [done|].
    exists rel. split; [done|]. split; [done|]. split; [done|]. split; [apply has_update_spec|]. right. exists asset.
    split; [by eapply list_elem_of_lookup_2|]. done.
  - apply list_find_None in EF. apply HL; [done|]. exists rel. split; [done|]. split; [done|]. split; [done|]. split; [apply has_update_spec|].
    left. split; [done|]. split; [done|]. eapply Forall_impl; [exact EF|]. cbv beta. intros x Hx. by apply not_true_is_false.
Qed.
End lemmas.

(** ** Concrete inputs *)
Module Demo.
#[local] Existing Instance ascii_tables.
Definition sums : bytes :=
  str "AAAA  5gpn-linux-amd64
BBBB  5gpn-linux-arm64
".
Definition asset (n : bytes) (size : Z) : Asset := {| AssetName := n; AssetSize := size; DownloadURL := [] |}.
Definition release : Release :=
  {| TagName := str "v2"; ReleaseName := str "two"; Draft := false; Prerelease := false; ReleaseBody := str "notes";
     Assets := [asset (str "5gpn-linux-amd64") 7; asset (str "SHA256SUMS") 1]; PublishedAt := [] |}.
Definition decode (b : bytes) : option Release := if b == str "v2" then Some release else None.
Definition answer (b : bytes) : option Response := Some {| StatusCode := 200; Content := b; Breaks := false |}.
Definition h0 : Host := {| files := {[ str "/etc/x" := {| Body := str "x"; Perm := 420 |} ]}; faults := []; answers := []; ran := [] |}.
Definition s0 : @US unit unit := {| srv := ApplyApi.Demo.s0; host := h0 |}.
Definition check_run (goarch : bytes) := handleUpdateCheck (str "linux") goarch 18 decode true (str "v1") (answer (str "v2")) (answer sums) (str "/tmp/s") (str "root") s0.
Definition shown (a : Answer updateCheckResponse) : option (bytes * bool * bytes * bytes) :=
  match a with Answered r => Some (Latest_ r, HasUpdate r, Asset_ r, Checksum r) | _ => None end.

Example check_amd64 : shown (check_run (str "amd64")).1 = Some (str "v2", true, str "5gpn-linux-amd64", str "aaaa").
Proof. by vm_compute. Qed.
Example check_other : shown (check_run (str "riscv64")).1 = Some (str "v2", true, [], []).
Proof. by vm_compute. Qed.
Example base_name : path_Base (str "out/5gpn//") = str "5gpn" /\ path_Base (str "//") = str "/" /\ path_Base [] = str ".".
Proof. by vm_compute. Qed.

(** A running build newer than the published release is offered the older
    one: any other tag counts as an update. *)
Example downgrade_offered : has_update release (str "v3") = true.
Proof. by vm_compute. Qed.

(** A restart is queued, or its failure is answered. *)
Example restart_queued : match handleSystemRestart (str "linux") (str "5gpn") (str "root") s0 with
  | (Answered _, s) => map fst (ran (host s)) = [[str "systemctl"; str "restart"; str "--no-block"; str "5gpn"]] | _ => False end.
Proof. by vm_compute. Qed.
Example restart_off_linux : (handleSystemRestart (str "darwin") (str "5gpn") (str "root") s0).1 = Refused 500 (str "restart_failed").
Proof. by vm_compute. Qed.
End Demo.

#[local] Existing Instance ascii_tables.
Lemma update_check_sound_witness :
  files (host (Demo.check_run (str "amd64")).2) !! str "/etc/x" = Some {| Body := str "x"; Perm := 420 |}.
Proof.
  destruct (update_check_sound (str "linux") (str "amd64") 18 Demo.decode true (str "v1") (Demo.answer (str "v2")) (Demo.answer Demo.sums) (str "/tmp/s") (str "root")
    Demo.s0 _ _ (surjective_pairing _)) as [[_ HU] _].
  etransitivity; [exact (HU (str "/etc/x") ltac:(discriminate) ltac:(discriminate))|]. vm_compute. reflexivity.
Defined.
