(* ===== verification/Logs.v ===== *)
(** * The log stream of the panel (internal/api/logs.go)

    The unit list, the frames and their JSON, the journal reader, and the
    loop of the handler over the events its select receives: the client is
    gone, a keepalive tick with the state of the server at that time, a line
    of the producer, which is written without a look at the token.  [json.Unmarshal] of a journal line, the rendering of a
    float and the RFC 3339 text of a time are parameters. *)
From S2P Require Import Prelude GoStrings GoCodec Crypto Db PanelAuth.
From Stdlib Require Import ZArith Lia.
Local Open Scope Z_scope.

(** ** [json.Marshal] of the frames *)
Definition newline : byte := Byte.x0a.
Definition quote : byte := Byte.x22.
Definition backslash : byte := Byte.x5c.

Definition u_escape (z : Z) : bytes := backslash :: str "u00" ++ [hex_digit (z / 16); hex_digit (z mod 16)].
Definition json_byte (c : byte) : bytes :=
  if (c == backslash) || (c == quote) then [backslash; c]
  else if bz c =? 8 then backslash :: str "b"
  else if bz c =? 12 then backslash :: str "f"
  else if bz c =? 10 then backslash :: str "n"
  else if bz c =? 13 then backslash :: str "r"
  else if bz c =? 9 then backslash :: str "t"
  else if (bz c <? 32) || (c == Byte.x3c) || (c == Byte.x3e) || (c == Byte.x26) then u_escape (bz c)
  else [c].

(** U+2028 and U+2029. *)
Definition line_separators : list bytes := map (map zb) [[226; 128; 168]; [226; 128; 169]].
Definition json_rune (r : bytes) : bytes :=
  if bool_decide (r ∈ line_separators) then backslash :: str "u202" ++ [hex_digit (match last r with Some c => bz c mod 16 | None => 0 end)] else r.

Fixpoint json_loop (fuel : nat) (s : bytes) : bytes :=
  match fuel, s with
  | S fuel, c :: r =>
      match rune_width s with
      | O => backslash :: str "ufffd" ++ json_loop fuel r
      | 1%nat => json_byte c ++ json_loop fuel r
      | n => json_rune (take n s) ++ json_loop fuel (drop n s)
      end
  | _, _ => []
  end.
Definition json_string (s : bytes) : bytes := quote :: json_loop (length s) s ++ [quote].

(** A frame; the keys of a map are written in order. *)
Record Frame := { f_ts : bytes; f_unit : bytes; f_level : bytes; f_msg : bytes; f_seq : Z }.
Definition member (k v : bytes) : bytes := json_string k ++ Byte.x3a :: v.
Definition encode (f : Frame) : bytes :=
  Byte.x7b :: Join [member (str "level") (json_string (f_level f)); member (str "msg") (json_string (f_msg f));
    member (str "seq") (strconv_Itoa (f_seq f)); member (str "ts") (json_string (f_ts f));
    member (str "unit") (json_string (f_unit f))] Byte.x2c ++ [Byte.x7d].

(** ** The journal *)
Inductive any := AString (s : bytes) | AFloat (text : bytes) | AOther.
Definition asString (v : option any) : bytes := match v with Some (AString s) => s | Some (AFloat t) => t | _ => [] end.

Definition journalPriority (raw : gmap bytes any) : bytes :=
  let pri := asString (raw !! str "PRIORITY") in
  if bool_decide (pri ∈ [str "0"; str "1"; str "2"]) then str "error"
  else if pri == str "3" then str "error"
  else if pri == str "4" then str "warn"
  else if bool_decide (pri ∈ [str "5"; str "6"]) then str "info"
  else if pri == str "7" then str "debug"
  else str "info".

Definition allowedLogUnits : list bytes := [str "5gpn"; str "dnsdist"; str "mihomo"; str "sniproxy"; str "mtg"].

Section logs.
Context `{Unicode}.
Context (ParseInt64 : bytes -> option Z) (Unmarshal : bytes -> option (gmap bytes any)) (RFC3339 : Z -> Z -> bytes).

(** [journalTimestamp]; [now] is the clock's seconds and nanoseconds. *)
Definition split_micros (micros : Z) : Z * Z := (Z.quot micros 1000000, Z.rem micros 1000000 * 1000).
Definition journalTimestamp (raw : gmap bytes any) (now : Z * Z) : bytes :=
  let s := asString (raw !! str "__REALTIME_TIMESTAMP") in
  if s == [] then RFC3339 now.1 now.2
  else match ParseInt64 s with
       | Some micros => let '(sec, nanos) := split_micros micros in RFC3339 sec nanos
       | None => RFC3339 now.1 now.2
       end.

Definition entry_frame (name : bytes) (seq : Z) (raw : gmap bytes any) (now : Z * Z) : Frame :=
  {| f_ts := journalTimestamp raw now; f_unit := name; f_level := journalPriority raw;
     f_msg := asString (raw !! str "MESSAGE"); f_seq := seq |}.

(** The scan loop of [journalctlStream]: a line that does not fit the buffer
    ends it. *)
Fixpoint journal_frames (name : bytes) (seq : Z) (now : Z * Z) (lines : list bytes) : list Frame :=
  match lines with
  | [] => []
  | line :: lines =>
      if 2 ^ 20 <=? len line then []
      else match Unmarshal line with
           | None => journal_frames name seq now lines
           | Some raw => entry_frame name seq raw now :: journal_frames name (seq + 1) now lines
           end
  end.

(** [drainStderr]. *)
Definition errorFrame (name text : bytes) (now : Z * Z) : Frame :=
  {| f_ts := RFC3339 now.1 now.2; f_unit := name; f_level := str "error"; f_msg := text; f_seq := 0 |}.
Definition drainStderr (name : bytes) (now : Z * Z) (lines : list bytes) : list Frame :=
  map (fun l => errorFrame name (str "journalctl: " ++ l) now) (filter (fun l => l <> []) (map TrimSpace lines)).

Definition helloFrame (name : bytes) (now : Z * Z) : Frame :=
  {| f_ts := RFC3339 now.1 now.2; f_unit := name; f_level := str "info";
     f_msg := str "stream opened for unit " ++ quote :: name ++ [quote]; f_seq := 0 |}.

(** ** The stream *)
Context `{TokenBucket} `{JWT}.
Context (Secret : bytes).

Definition writeSSE (line : bytes) : bytes := str "data: " ++ line ++ [newline; newline].
Definition keepalive : bytes := str ": keepalive" ++ [newline; newline].

(** A tick comes with the server's state at that time, and whether the write
    to the client works. *)
Inductive Event := Gone | Tick (s : Srv) (written : bool) | Line (line : bytes).

Fixpoint session (token : bytes) (evs : list Event) : list bytes :=
  match evs with
  | [] | Gone :: _ => []
  | Tick s written :: evs =>
      match (Verify Secret token s).1 with
      | Err _ => []
      | Ok _ => if written then keepalive :: session token evs else []
      end
  | Line line :: evs => writeSSE line :: session token evs
  end.

Inductive LogsReply := BadUnit | NoFlusher | Stream (chunks : list bytes).

Definition requested_unit (q : bytes) : bytes := let u := TrimSpace q in if u == [] then str "5gpn" else u.

Definition handleLogsSSE (q header : bytes) (flusher : bool) (now : Z * Z) (evs : list Event) : LogsReply :=
  let name := requested_unit q in
  if negb (bool_decide (name ∈ allowedLogUnits)) then BadUnit
  else if negb flusher then NoFlusher
  else Stream (writeSSE (encode (helloFrame name now)) :: session (extractBearer header) evs).
End logs.

(** ** What a browser makes of the stream

    The EventSource format: the lines up to the last line end; [data] fields
    gather until an empty line, comments and other fields are skipped. *)
Definition sse_line (st : option bytes * list bytes) (line : bytes) : option bytes * list bytes :=
  let '(buf, evs) := st in
  match line with
  | [] => match buf with Some d => (None, evs ++ [d]) | None => (None, evs) end
  | _ =>
      if HasPrefix line (str "data:") then
        let v := drop 5 line in
        let v := if HasPrefix v (str " ") then drop 1 v else v in
        (Some (match buf with Some d => d ++ newline :: v | None => v end), evs)
      else (buf, evs)
  end.
Definition parse_events (out : bytes) : list bytes := (foldl sse_line (None, []) (removelast (Split out newline))).2.

(** ** Lemmas: no line end in a frame *)
Lemma json_byte_all : forallb (fun z => negb (bool_decide (newline ∈ json_byte (zb z)))) (seqZ 0 256) = true.
Proof. by vm_compute. Qed.

Lemma json_byte_free c : newline ∉ json_byte c.
Proof.
  pose proof json_byte_all as HA. rewrite forallb_forall in HA. specialize (HA (bz c)). rewrite zb_bz in HA.
  specialize (HA ltac:(apply list_elem_of_In, elem_of_seqZ; pose proof (bz_range c); lia)).
  by rewrite negb_true_iff, bool_decide_eq_false in HA.
Qed.

Lemma high_bytes_free r : Forall (fun c => 128 <= bz c) r -> newline ∉ r.
Proof. rewrite Forall_forall. intros HF Hin. specialize (HF _ Hin). cbv in HF. by apply HF. Qed.

Lemma json_rune_free r : newline ∉ r -> newline ∉ json_rune r.
Proof.
  intros Hr. unfold json_rune. case_bool_decide as HL; [|done].
  unfold line_separators in HL. cbn [map] in HL. rewrite !elem_of_cons in HL. destruct HL as [->|[->|HL]]; [| |by apply not_elem_of_nil in HL];
    apply (bool_decide_eq_true_1 _); by vm_compute.
Qed.

Lemma json_loop_free fuel : forall s, newline ∉ json_loop fuel s.
Proof.
  induction fuel as [|fuel IH]; intros [|c r]; cbn [json_loop]; try apply not_elem_of_nil.
  destruct (rune_width (c :: r)) as [|[|n]] eqn:E.
  - rewrite elem_of_cons, elem_of_app. intros [|[Hin|Hin]]; [done| |by apply IH in Hin].
    revert Hin. apply (bool_decide_eq_true_1 _). by vm_compute.
  - rewrite elem_of_app. intros [Hin|Hin]; [by apply json_byte_free in Hin|by apply IH in Hin].
  - rewrite elem_of_app. intros [Hin|Hin]; [|by apply IH in Hin]. revert Hin. apply json_rune_free, high_bytes_free. by apply rune_width_high.
Qed.

Lemma json_string_free s : newline ∉ json_string s.
Proof. unfold json_string. rewrite elem_of_cons, elem_of_app, list_elem_of_singleton. intros [|[Hin|]]; [done| |done]. by apply json_loop_free in Hin. Qed.

Lemma digits_free fuel : forall n acc, newline ∉ acc -> newline ∉ decimal_digits fuel n acc.
Proof.
  induction fuel as [|fuel IH]; intros n acc Ha; cbn [decimal_digits]; [done|]. destruct (n <=? 0); [done|]. apply IH.
  rewrite elem_of_cons. intros [E|E]; [|done]. apply (f_equal bz) in E. rewrite bz_zb in E. change (bz newline) with 10 in E.
  pose proof (Z.mod_pos_bound n 10 ltac:(lia)). rewrite Z.mod_small in E by lia. lia.
Qed.

Lemma Itoa_free n : newline ∉ strconv_Itoa n.
Proof.
  unfold strconv_Itoa. destruct (n =? 0); [apply (bool_decide_eq_true_1 _); by vm_compute|].
  destruct (n <? 0); [|apply digits_free, not_elem_of_nil]. rewrite elem_of_app. intros [Hin|Hin].
  - revert Hin. apply (bool_decide_eq_true_1 _). by vm_compute.
  - revert Hin. apply digits_free, not_elem_of_nil.
Qed.

Lemma member_free k v : newline ∉ v -> newline ∉ member k v.
Proof. unfold member. intros Hv. rewrite elem_of_app, elem_of_cons. intros [Hin|[|Hin]]; [by apply json_string_free in Hin|done|done]. Qed.

Lemma Join_free ws c : c <> newline -> Forall (fun w => newline ∉ w) ws -> newline ∉ Join ws c.
Proof.
  intros Hc. induction 1 as [|w ws Hw HF IH]; [apply not_elem_of_nil|]. destruct ws as [|v ws]; [done|].
  rewrite Join_cons by done. rewrite elem_of_app, elem_of_cons. intros [Hin|[E|Hin]]; [done|by apply Hc|by apply IH].
Qed.

Lemma encode_free f : newline ∉ encode f.
Proof.
  unfold encode. rewrite elem_of_cons, elem_of_app, list_elem_of_singleton. intros [E|[Hin|E]]; [done| |done].
  revert Hin. apply Join_free; [done|]. repeat constructor; apply member_free; first [apply json_string_free | apply Itoa_free].
Qed.

(** *** Feeding the parser chunk by chunk *)
Definition feed (evs : list bytes) (out : bytes) : option bytes * list bytes := foldl sse_line (None, evs) (removelast (Split out newline)).

Lemma feed_line evs w rest : newline ∉ w -> w <> [] ->
  feed evs (w ++ newline :: newline :: rest) =
  foldl sse_line (sse_line (sse_line (None, evs) w) []) (removelast (Split rest newline)).
Proof.
  intros Hw Hne. unfold feed. rewrite Split_app, (Split_free_single w) by done.
  assert (Split (newline :: rest) newline = [] :: Split rest newline) as -> by (cbn [Split]; by rewrite bool_decide_eq_true_2).
  destruct (Split rest newline) eqn:E; [by apply Split_nonempty in E|]. done.
Qed.

Lemma feed_frame evs l rest : newline ∉ l -> feed evs (writeSSE l ++ rest) = feed (evs ++ [l]) rest.
Proof.
  intros Hl. unfold writeSSE. rewrite <- !app_assoc. cbn [app]. rewrite (app_assoc (str "data: ") l).
  rewrite feed_line; [|rewrite elem_of_app; intros [Hin|Hin]; [revert Hin; apply (bool_decide_eq_true_1 _); by vm_compute|done]|done].
  unfold feed. f_equal.
Qed.

Lemma feed_keepalive evs rest : feed evs (keepalive ++ rest) = feed evs rest.
Proof.
  unfold keepalive. rewrite <- app_assoc. cbn [app]. rewrite feed_line; [done| |done]. apply (bool_decide_eq_true_1 _); by vm_compute.
Qed.

(** ** Properties *)
Section properties.
Context `{Unicode} `{TokenBucket} `{JWT} `{Bcrypt}.
Context (RFC3339 : Z -> Z -> bytes) (Secret : bytes).

(** The events before the one that ends the session. *)
Fixpoint live (token : bytes) (evs : list Event) : list Event :=
  match evs with
  | [] | Gone :: _ => []
  | Tick s written :: evs =>
      match (Verify Secret token s).1 with Err _ => [] | Ok _ => if written then Tick s written :: live token evs else [] end
  | Line l :: evs => Line l :: live token evs
  end.
Definition lines_of (evs : list Event) : list bytes := omap (fun e => match e with Line l => Some l | _ => None end) evs.

(** Every line of the producers is an encoded frame. *)
Definition frames (evs : list Event) : Prop := Forall (fun e => match e with Line l => exists f, l = encode f | _ => True end) evs.

Lemma feed_session token evs : frames evs -> forall got, feed got (concat (session Secret token evs)) = (None, got ++ lines_of (live token evs)).
Proof.
  induction 1 as [|e evs He HF IH]; intros got; [by rewrite app_nil_r|].
  destruct e as [|s written|l]; cbn [session live]; [by rewrite app_nil_r| |].
  - destruct (Verify Secret token s).1; [by rewrite app_nil_r|]. destruct written; [|by rewrite app_nil_r].
    cbn [concat]. rewrite feed_keepalive. apply IH.
  - destruct He as [f ->]. cbn [concat]. rewrite feed_frame by apply encode_free. rewrite IH, <- app_assoc. done.
Qed.

(** C32: what the panel shows of the log: from the bytes of a stream an
    EventSource recovers the greeting and then exactly the frames produced
    before the event that ends the session - a tick that finds the token
    invalid, a failed keepalive write, a disconnect -, each whole and in order,
    whatever text the log lines hold; the keepalives in between are not seen.
    A frame is written without a look at the token, so those between a
    revocation and the next tick are delivered. *)
Theorem stream_roundtrip q header flusher now evs chunks :
  frames evs -> handleLogsSSE RFC3339 Secret q header flusher now evs = Stream chunks ->
  parse_events (concat chunks) =
    encode (helloFrame RFC3339 (requested_unit q) now) :: lines_of (live (extractBearer header) evs) /\
  requested_unit q ∈ allowedLogUnits.
Proof.
  intros HF. unfold handleLogsSSE. case_bool_decide as HU; [|done]. cbn [negb]. destruct flusher; [|done]. cbn [negb]. intros [= <-].
  split; [|done]. unfold parse_events. cbn [concat].
  change (snd (feed [] (writeSSE (encode (helloFrame RFC3339 (requested_unit q) now)) ++ concat (session Secret (extractBearer header) evs))) =
    encode (helloFrame RFC3339 (requested_unit q) now) :: lines_of (live (extractBearer header) evs)).
  by rewrite feed_frame, feed_session by (done || apply encode_free).
Qed.

Lemma session_cut token s written pre post :
  (forall c, (Verify Secret token s).1 <> Ok c) ->
  session Secret token (pre ++ Tick s written :: post) = session Secret token pre.
Proof.
  intros HV. induction pre as [|e pre IH]; cbn [app session].
  - destruct (Verify Secret token s).1 as [e|c] eqn:E; [done|]. by destruct (HV c).
  - destruct e as [|s' w|l]; [done| |by rewrite IH]. destruct (Verify Secret token s').1; [done|]. by rewrite IH.
Qed.

Lemma refused_verify header s : (forall next, (authMiddleware Secret header next s).1 = RError 401 (str "unauthorized")) ->
  extractBearer header <> [] -> forall c, (Verify Secret (extractBearer header) s).1 <> Ok c.
Proof.
  intros HA Hne c HV. specialize (HA (fun _ => ret RDone)). unfold authMiddleware in HA. rewrite bool_decide_eq_false_2 in HA by done.
  unfold bind in HA. destruct (Verify Secret (extractBearer header) s) as [r s1]. cbn in HV. subst r. done.
Qed.

(** a stream does not outlive its session: once the user has logged out, or
    changed the password from another session, whatever the database sees in
    between, the next keepalive tick ends the stream, and nothing after it
    is written. *)
Theorem revoked_stream_ends P row c s s' ops t l s2 header req hash pre written post :
  wf (db s) -> row ∈ panel_sessions (db s) ->
  (handleLogout c s = (RNoContent, s') /\ ps_ID row = SessionID c) \/
  (handleChangePassword c req hash s = (RDone, s') /\ ps_UserID row = UserID c /\ ps_JWTID row <> JTI c) ->
  db s2 = at_time t l (foldl (fun d op => run_op P op d) (db s') ops) ->
  (forall c', ParseWithClaims (extractBearer header) Secret t = Some c' -> SessionID c' = ps_ID row) ->
  extractBearer header <> [] ->
  session Secret (extractBearer header) (pre ++ Tick s2 written :: post) = session Secret (extractBearer header) pre.
Proof.
  intros Hwf Hrow Hcase U2 Hc Hne. apply session_cut, refused_verify; [|done]. intros next.
  eapply revoked_refused; [|exact U2|exact Hc]. apply inv_ops. destruct Hcase as [[HL Hid]|(HC & Hu & Hj)].
  - by eapply logout_revokes.
  - by eapply change_revokes.
Qed.
End properties.

(** The journal's microseconds as seconds and nanoseconds. *)
Lemma split_micros_exact m : let '(s, n) := split_micros m in s * 1000000000 + n = m * 1000 /\ Z.abs n < 1000000000.
Proof.
  unfold split_micros. pose proof (Z.quot_rem' m 1000000). pose proof (Z.rem_bound_abs m 1000000 ltac:(lia)). lia.
Qed.

(** Numbered frames, one per line that decodes. *)
Lemma journal_frames_numbered `{Unicode} P U R name now lines : forall seq, Forall (fun l => len l < 2 ^ 20) lines ->
  f_seq <$> journal_frames P U R name seq now lines = (fun k => seq + Z.of_nat k) <$> List.seq 0 (length (omap U lines)).
Proof.
  induction lines as [|line lines IH]; intros seq HF; [done|]. apply Forall_cons in HF as [Hl HF]. cbn [journal_frames].
  rewrite (proj2 (Z.leb_gt _ _)) by done. cbn [omap list_omap]. destruct (U line) as [raw|]; [|by apply IH].
  cbn [fmap list_fmap length List.seq]. f_equal; [cbn; lia|]. change (list_omap _ _ U lines) with (omap U lines). rewrite <- seq_shift, IH by done.
  rewrite <- list_fmap_compose. apply list_fmap_ext. intros k x _. cbn. lia.
Qed.

(** ** Concrete inputs *)
Module Demo.
#[local] Existing Instance ascii_tables.
Import PanelAuth.Demo.

Definition rfc (s n : Z) : bytes := strconv_Itoa s ++ str "." ++ strconv_Itoa n.
Definition parse_int (s : bytes) : option Z := if s == str "1700000000000001" then Some 1700000000000001 else None.
(** A log line that tries to forge an event. *)
Definition forged : bytes := str "a" ++ [newline; newline] ++ str "data: <" ++ [quote; zb 255].
Definition raw : gmap bytes any :=
  {[ str "MESSAGE" := AString forged; str "PRIORITY" := AString (str "4"); str "__REALTIME_TIMESTAMP" := AString (str "1700000000000001") ]}.
Definition unmarshal (l : bytes) : option (gmap bytes any) := if l == str "{}" then Some raw else None.
Definition journal := journal_frames parse_int unmarshal rfc (str "mtg") 0 (0, 0).

Example forged_json : json_string forged = quote :: str "a\n\ndata: \u003c\" ++ quote :: str "\ufffd" ++ [quote].
Proof. by vm_compute. Qed.

Example journal_two : (fun f => (f_seq f, f_level f, f_ts f)) <$> journal [str "{}"; str "bad"; str "{}"] =
  [(0, str "warn", str "1700000000.1000"); (1, str "warn", str "1700000000.1000")].
Proof. by vm_compute. Qed.

(** A journal line of a mebibyte ends the stream of entries without a frame
    that says so. *)
Lemma long_line_ends line : 2 ^ 20 <= len line -> journal [line; str "{}"] = [].
Proof. intros HL. unfold journal. cbn [journal_frames]. by rewrite (proj2 (Z.leb_le _ _)). Qed.

(** A message that is not UTF-8 comes from journalctl as an array of
    numbers, and is shown empty. *)
Example binary_message : f_msg (entry_frame parse_int rfc (str "mtg") 0 {[ str "MESSAGE" := AOther ]} (0, 0)) = [].
Proof. by vm_compute. Qed.

Definition frame0 : Frame := entry_frame parse_int rfc (str "mtg") 0 raw (0, 0).
Definition evs : list Event := [Line (encode frame0); Gone].

Lemma evs_frames : frames evs.
Proof. constructor; [by exists frame0|]. by constructor; [|constructor]. Qed.

Definition stream := handleLogsSSE rfc key (str " mtg ") (str "Bearer " ++ tok1) true (0, 0) evs.
Definition chunks : list bytes := match stream with Stream c => c | _ => [] end.
Lemma stream_eq : stream = Stream chunks.
Proof.
  assert (bool_decide (requested_unit (str " mtg ") ∈ allowedLogUnits) = true) as HU by (vm_compute; reflexivity).
  unfold chunks, stream, handleLogsSSE. cbv zeta. rewrite HU. reflexivity.
Qed.

Lemma stream_roundtrip_witness : parse_events (concat chunks) = [encode (helloFrame rfc (str "mtg") (0, 0)); encode frame0].
Proof.
  exact (proj1 (stream_roundtrip rfc key (str " mtg ") (str "Bearer " ++ tok1) true (0, 0) evs chunks evs_frames stream_eq)).
Defined.

Definition later : Srv := srv (at_time 500 [false] (db s5)).
Lemma revoked_stream_ends_witness :
  session key (extractBearer (str "Bearer " ++ tok1)) (evs ++ Tick later true :: evs) = session key (extractBearer (str "Bearer " ++ tok1)) evs.
Proof.
  apply (revoked_stream_ends key Db.Demo.parse Db.Demo.s1 claims3 s0 s5 [] 500 [false] later (str "Bearer " ++ tok1) None None evs true evs).
  - exact s0_wf.
  - exact Db.Demo.s1_in.
  - left. split; [exact logout_ok|reflexivity].
  - exact (no_ops (db s5)).
  - exact tok1_claims.
  - discriminate.
Defined.
End Demo.
