(* ===== verification/Ios.v ===== *)
(** * The iOS profile (internal/ios, internal/api/ios.go, cmd/5gpn/ios_listener.go)

    The configuration profile and its escaping, the socket-activated server
    of the two routes, and the handlers that hand the profile out.  A
    connection is the bytes its client sends; the UUID package and reading a
    file are parameters.  A reader of property lists, which the program does
    not have, says what a device sees of a document. *)
From S2P Require Import Prelude GoStrings GoNet GoCodec Exit Settings ApplyRing ApplyApi RulesApi.
From Stdlib Require Import ZArith Lia.
Local Open Scope Z_scope.
#[local] Abbreviation S := Datatypes.S.

(** ** [xml.EscapeText] *)
Definition quote : byte := Byte.x22.
Definition amp : byte := Byte.x26.
Definition lt : byte := Byte.x3c.
Definition gt : byte := Byte.x3e.

(** The entities the encoder writes, by the byte they stand for. *)
Definition entities : list (byte * bytes) :=
  [(quote, str "&#34;"); (Byte.x27, str "&#39;"); (amp, str "&amp;"); (lt, str "&lt;"); (gt, str "&gt;");
   (Byte.x09, str "&#x9;"); (Byte.x0a, str "&#xA;"); (Byte.x0d, str "&#xD;")].

Definition esc_byte (c : byte) : bytes :=
  match found (fun e => e.1 == c) entities with
  | Some (_, e) => e
  | None => if bz c <? 32 then replacement else [c]
  end.

(** [isInCharacterRange] of a rune of several bytes: all but U+FFFE and U+FFFF. *)
Definition non_characters : list bytes := map (map zb) [[239; 191; 190]; [239; 191; 191]].
Definition esc_rune (r : bytes) : bytes := if bool_decide (r ∈ non_characters) then replacement else r.

Fixpoint escape_loop (fuel : nat) (s : bytes) : bytes :=
  match fuel, s with
  | S fuel, c :: r =>
      match rune_width s with
      | O => replacement ++ escape_loop fuel r
      | 1%nat => esc_byte c ++ escape_loop fuel r
      | n => esc_rune (take n s) ++ escape_loop fuel (drop n s)
      end
  | _, _ => []
  end.
Definition EscapeText (s : bytes) : bytes := escape_loop (length s) s.

(** ** profile.go *)
Record ProfileParams := {
  Domain : bytes; DisplayName : bytes; Identifier : bytes; UUID : bytes; PayloadUUID : bytes;
  OnDemand : bool; FallbackDoT : bytes; FallbackPayloadUUID : bytes
}.

Inductive hole := HDomain | HDisplayName | HIdentifier | HUUID | HPayloadUUID | HFallbackDoT | HFallbackPayloadUUID.
Inductive item := Text (s : bytes) | Xml (h : hole).

Definition field (p : ProfileParams) (h : hole) : bytes :=
  match h with
  | HDomain => Domain p | HDisplayName => DisplayName p | HIdentifier => Identifier p | HUUID => UUID p
  | HPayloadUUID => PayloadUUID p | HFallbackDoT => FallbackDoT p | HFallbackPayloadUUID => FallbackPayloadUUID p
  end.

(** The template: the white space before an action with a dash is gone. *)
Definition primary_item : list item :=
  [Text (str "<?xml version=" ++ [quote] ++ str "1.0" ++ [quote] ++ str " encoding=" ++ [quote] ++ str "UTF-8" ++ [quote] ++ str "?>
<!DOCTYPE plist PUBLIC " ++ [quote] ++ str "-//Apple//DTD PLIST 1.0//EN" ++ [quote] ++ str " " ++ [quote] ++ str "http://www.apple.com/DTDs/PropertyList-1.0.dtd" ++ [quote] ++ str ">
<plist version=" ++ [quote] ++ str "1.0" ++ [quote] ++ str ">
<dict>
    <key>PayloadContent</key>
    <array>
        <dict>
            <key>DNSSettings</key>
            <dict>
                <key>DNSProtocol</key>
                <string>HTTPS</string>
                <key>ServerName</key>
                <string>");
   Xml HDomain;
   Text (str "</string>
                <key>ServerURL</key>
                <string>https://");
   Xml HDomain;
   Text (str "/dns-query</string>")].

Definition on_demand_item : list item :=
  [Text (str "
                <key>OnDemandRules</key>
                <array>
                    <dict>
                        <key>Action</key>
                        <string>Connect</string>
                        <key>InterfaceTypeMatch</key>
                        <string>WiFi</string>
                    </dict>
                    <dict>
                        <key>Action</key>
                        <string>Connect</string>
                        <key>InterfaceTypeMatch</key>
                        <string>Cellular</string>
                    </dict>
                </array>")].

Definition payload_item : list item :=
  [Text (str "
            </dict>
            <key>PayloadDescription</key>
            <string>5GPN gateway encrypted DNS profile</string>
            <key>PayloadDisplayName</key>
            <string>");
   Xml HDisplayName;
   Text (str "</string>
            <key>PayloadIdentifier</key>
            <string>");
   Xml HIdentifier;
   Text (str ".payload</string>
            <key>PayloadType</key>
            <string>com.apple.dnsSettings.managed</string>
            <key>PayloadUUID</key>
            <string>");
   Xml HPayloadUUID;
   Text (str "</string>
            <key>PayloadVersion</key>
            <integer>1</integer>
        </dict>")].

Definition fallback_item : list item :=
  [Text (str "
        <dict>
            <key>DNSSettings</key>
            <dict>
                <key>DNSProtocol</key>
                <string>TLS</string>
                <key>ServerName</key>
                <string>");
   Xml HFallbackDoT;
   Text (str "</string>
            </dict>
            <key>PayloadDescription</key>
            <string>5GPN gateway fallback encrypted DNS profile</string>
            <key>PayloadDisplayName</key>
            <string>");
   Xml HDisplayName;
   Text (str " Fallback</string>
            <key>PayloadIdentifier</key>
            <string>");
   Xml HIdentifier;
   Text (str ".fallback-payload</string>
            <key>PayloadType</key>
            <string>com.apple.dnsSettings.managed</string>
            <key>PayloadUUID</key>
            <string>");
   Xml HFallbackPayloadUUID;
   Text (str "</string>
            <key>PayloadVersion</key>
            <integer>1</integer>
        </dict>")].

Definition profile_item : list item :=
  [Text (str "
    </array>
    <key>PayloadDisplayName</key>
    <string>");
   Xml HDisplayName;
   Text (str "</string>
    <key>PayloadIdentifier</key>
    <string>");
   Xml HIdentifier;
   Text (str "</string>
    <key>PayloadRemovalDisallowed</key>
    <false/>
    <key>PayloadType</key>
    <string>Configuration</string>
    <key>PayloadUUID</key>
    <string>");
   Xml HUUID;
   Text (str "</string>
    <key>PayloadVersion</key>
    <integer>1</integer>
</dict>
</plist>
")].

Definition mobileConfigTemplate (onDemand fallback : bool) : list item :=
  primary_item ++ (if onDemand then on_demand_item else []) ++ payload_item ++ (if fallback then fallback_item else []) ++ profile_item.

Definition exec_item (f : hole -> bytes) (i : item) : bytes := match i with Text s => s | Xml h => f h end.
Definition Execute (items : list item) (p : ProfileParams) : bytes := concat (map (exec_item (fun h => EscapeText (field p h))) items).

Inductive ProfileErr := NoDomain | NoUUID | NoFallbackUUID.

Definition with_defaults (p : ProfileParams) : ProfileParams :=
  {| Domain := Domain p; DisplayName := if DisplayName p == [] then str "5GPN Encrypted DNS" else DisplayName p;
     Identifier := if Identifier p == [] then str "com.5gpn.dot" else Identifier p; UUID := UUID p; PayloadUUID := PayloadUUID p;
     OnDemand := OnDemand p; FallbackDoT := FallbackDoT p; FallbackPayloadUUID := FallbackPayloadUUID p |}.

Definition Render (p : ProfileParams) : res ProfileErr bytes :=
  if TrimSpace (Domain p) == [] then Err NoDomain
  else if (UUID p == []) || (PayloadUUID p == []) then Err NoUUID
  else if (FallbackDoT p != []) && (FallbackPayloadUUID p == []) then Err NoFallbackUUID
  else Ok (Execute (mobileConfigTemplate (OnDemand p) (FallbackDoT p != [])) (with_defaults p)).

(** ** http.go *)
Definition maxRequestHeaderBytes : Z := 32 * 1024.
Definition maxRequestLineBytes : Z := 4 * 1024.
Definition maxHeaderLineBytes : Z := 8 * 1024.
Definition maxHeaderCount : nat := 100.

Record IRoute := { Filename : bytes; ContentType : bytes }.
Definition html : bytes := str "text/html; charset=utf-8".
Definition DefaultRoutes : list (bytes * IRoute) :=
  [(str "/ios-dot.mobileconfig", {| Filename := str "ios-dot.mobileconfig"; ContentType := str "application/x-apple-aspen-config" |});
   (str "/", {| Filename := str "index.html"; ContentType := html |});
   (str "/index.html", {| Filename := str "index.html"; ContentType := html |})].

Definition crlf : bytes := [Byte.x0d; Byte.x0a].
Definition writeStatus (status ctype body : bytes) : bytes :=
  str "HTTP/1.1 " ++ status ++ crlf ++ str "Content-Type: " ++ ctype ++ crlf ++ str "Content-Length: " ++ strconv_Itoa (len body) ++ crlf ++
  str "Connection: close" ++ crlf ++ crlf ++ body.
Definition refuse (status text : bytes) : bytes := writeStatus status (str "text/plain") (text ++ [Byte.x0a]).

(** [ReadString]: the line with its end, or what there was before an error. *)
Definition ReadLine (s : bytes) : bytes * bytes * bool :=
  match IndexByte s Byte.x0a with Some i => (take (S i) s, drop (S i) s, true) | None => (s, [], false) end.

Section serve.
(** Reading a file below the web directory; how much of the limited reader is
    buffered once [n] bytes are consumed. *)
Context (ReadFile : bytes -> option bytes) (pulled : Z -> Z) (routes : list (bytes * IRoute)).

(** The loop over the headers, with the refusal. *)
Fixpoint headers (count : nat) (headerBytes : Z) (input : bytes) : option bytes :=
  match count with
  | O => Some (refuse (str "431 Request Header Fields Too Large") (str "too many headers"))
  | S count =>
      let '(line, input, ok) := ReadLine input in
      let headerBytes := headerBytes + len line in
      if (maxHeaderLineBytes <? len line) || (maxRequestHeaderBytes <? headerBytes) || (maxRequestHeaderBytes + 1 <=? pulled headerBytes)
      then Some (refuse (str "431 Request Header Fields Too Large") (str "headers too large"))
      else if negb ok then Some (refuse (str "400 Bad Request") (str "bad request"))
      else if TrimRight line crlf == [] then None
      else headers count headerBytes input
  end.

Definition respond (target : bytes) : bytes :=
  match found (fun r => r.1 == before target Byte.x3f) routes with
  | None => refuse (str "404 Not Found") (str "not found")
  | Some (_, r) =>
      match ReadFile (Filename r) with
      | None => refuse (str "404 Not Found") (str "not found")
      | Some body => writeStatus (str "200 OK") (ContentType r) body
      end
  end.

(** What is written to a client that sends [sent]. *)
Definition ServeConn (sent : bytes) : bytes :=
  let '(requestLine, input, ok) := ReadLine (take (Z.to_nat (maxRequestHeaderBytes + 1)) sent) in
  if negb ok then refuse (str "400 Bad Request") (str "bad request")
  else if maxRequestLineBytes <? len requestLine then refuse (str "414 URI Too Long") (str "request line too large")
  else match Fields (TrimRight requestLine crlf) with
       | m :: target :: _ =>
           if m != str "GET" then refuse (str "400 Bad Request") (str "bad request")
           else match headers maxHeaderCount (len requestLine) input with
                | Some r => r
                | None => respond target
                end
       | _ => refuse (str "400 Bad Request") (str "bad request")
       end.
End serve.

(** The listeners of [runIOSListener]: those systemd passed, or one it opens. *)
Definition ios_listeners (activated : option (list bytes)) (port : Z) (listens : bool) : res unit (list bytes) :=
  match default [] activated with
  | [] => if port <=? 0 then Ok [] else if listens then Ok [str ":" ++ strconv_Itoa port] else Err tt
  | l => Ok l
  end.

(** ** api/ios.go *)
Definition defaultIOSFallbackDoT : bytes := str "1.1.1.1".

Section api.
Context `{Unicode} `{JSON}.
(** [uuid.Parse] accepts it; the text of [uuid.NewSHA1] in the URL space. *)
Context (uuid_Parse : bytes -> bool) (uuid_url : bytes -> bytes).

Definition iosProfileUUID (domain configured : bytes) : bytes :=
  if (configured != []) && (configured != str "auto") && uuid_Parse configured then configured
  else uuid_url (str "5gpn-dot-profile:" ++ domain).
Definition iosPayloadUUID (u : bytes) : bytes := uuid_url (str "5gpn-dot-payload:" ++ u).
Definition iosFallbackPayloadUUID (u : bytes) : bytes := uuid_url (str "5gpn-dot-fallback-payload:" ++ u).

Definition handleIOSProfileURL (base : option (bytes * bytes)) : Answer (bytes * bytes) :=
  match base with
  | None => Refused 500 (str "no_config")
  | Some (domain, configured) =>
      if domain == [] then Refused 500 (str "no_domain")
      else Answered (str "https://" ++ domain ++ str "/ios-dot.mobileconfig", iosProfileUUID domain configured)
  end.

Definition profile_params (domain configured fallback : bytes) : ProfileParams :=
  let u := iosProfileUUID domain configured in
  {| Domain := domain; DisplayName := []; Identifier := []; UUID := u; PayloadUUID := iosPayloadUUID u; OnDemand := true;
     FallbackDoT := fallback; FallbackPayloadUUID := iosFallbackPayloadUUID u |}.

(** [handleIOSMobileconfig]; [base] is the domain and the configured UUID of
    the boot configuration, [have] tells whether there is a settings store. *)
Definition handleIOSMobileconfig (base : option (bytes * bytes)) (have : bool) : ST Store (Answer bytes) :=
  match base with
  | None => ret (Refused 500 (str "no_config"))
  | Some (domain, configured) =>
      if domain == [] then ret (Refused 500 (str "no_domain"))
      else
        let! enabled := (if have then GetBool KeyFrontdoorIOSProfileEnabled else ret (Ok false)) in
        match enabled with
        | Err _ => ret (Refused 500 (str "settings_error"))
        | Ok false => ret (Refused 503 (str "ios_profile_disabled"))
        | Ok true =>
            let! v := (if have then GetString KeyFrontdoorFallbackDoT else ret (Ok [])) in
            match v with
            | Err _ => ret (Refused 500 (str "settings_error"))
            | Ok v =>
                let fallback := if v != [] then v else defaultIOSFallbackDoT in
                ret (match Render (profile_params domain configured fallback) with
                     | Err _ => Refused 500 (str "render")
                     | Ok payload => Answered payload
                     end)
            end
        end
  end.
End api.

(** ** A reader of property lists *)

(** Entities are read back; anything else stays. *)
Fixpoint unescape_loop (fuel : nat) (s : bytes) : bytes :=
  match fuel, s with
  | S fuel, c :: r =>
      match found (fun e => bool_decide (e.2 `prefix_of` s)) entities with
      | Some (b, e) => b :: unescape_loop fuel (drop (length e) s)
      | None => c :: unescape_loop fuel r
      end
  | _, _ => []
  end.
Definition unescape (s : bytes) : bytes := unescape_loop (length s) s.

(** The tags of a document, each with the text that follows it. *)
Definition elements (segments : list bytes) : list (bytes * bytes) :=
  omap (fun seg => i ← IndexByte seg gt; Some (take i seg, drop (S i) seg)) segments.

(** The strings with their keys, in the order of the document. *)
Fixpoint keyed (U : bytes -> bytes) (k : option bytes) (l : list (bytes * bytes)) : list (bytes * bytes) :=
  match l with
  | [] => []
  | (tag, text) :: l =>
      if tag == str "key" then keyed U (Some text) l
      else if tag == str "string" then match k with Some k => (k, U text) :: keyed U None l | None => keyed U None l end
      else keyed U k l
  end.
Definition read_plist (doc : bytes) : list (bytes * bytes) := keyed unescape None (elements (Split doc lt)).

(** ** Lemmas: escaping *)
Lemma esc_byte_all : forallb (fun z => let e := esc_byte (zb z) in negb (bool_decide (lt ∈ e)) && negb (bool_decide (gt ∈ e))) (seqZ 0 256) = true.
Proof. by vm_compute. Qed.

Lemma esc_byte_free c : lt ∉ esc_byte c /\ gt ∉ esc_byte c.
Proof.
  pose proof esc_byte_all as HA. rewrite forallb_forall in HA. specialize (HA (bz c)). cbv zeta in HA. rewrite zb_bz in HA.
  specialize (HA ltac:(apply list_elem_of_In, elem_of_seqZ; pose proof (bz_range c); lia)).
  by rewrite andb_true_iff, !negb_true_iff, !bool_decide_eq_false in HA.
Qed.

Lemma high_free r : Forall (fun c => 128 <= bz c) r -> lt ∉ r /\ gt ∉ r /\ amp ∉ r.
Proof. rewrite Forall_forall. intros HF. split_and!; intros Hin; specialize (HF _ Hin); cbv in HF; by apply HF. Qed.

Lemma replacement_high : Forall (fun c => 128 <= bz c) replacement.
Proof. repeat constructor; by vm_compute. Qed.

Lemma escape_free fuel : forall s, lt ∉ escape_loop fuel s /\ gt ∉ escape_loop fuel s.
Proof.
  pose proof (high_free _ replacement_high) as (RL & RG & _).
  induction fuel as [|fuel IH]; intros [|c r]; cbn [escape_loop]; try (split; apply not_elem_of_nil).
  destruct (rune_width (c :: r)) as [|[|n]] eqn:E; rewrite !elem_of_app.
  - destruct (IH r). tauto.
  - destruct (IH r), (esc_byte_free c). tauto.
  - destruct (IH (drop (S (S n)) (c :: r))). unfold esc_rune. case_bool_decide; [tauto|].
    destruct (high_free _ (rune_width_high _ _ E)) as (? & ? & _). tauto.
Qed.

(** The text a document carries unchanged: valid runes, all of them characters
    of XML. *)
Fixpoint chars_loop (fuel : nat) (s : bytes) : bool :=
  match fuel, s with
  | S fuel, c :: r =>
      match rune_width s with
      | O => false
      | 1%nat => ((32 <=? bz c) || bool_decide (c ∈ [Byte.x09; Byte.x0a; Byte.x0d])) && chars_loop fuel r
      | n => negb (bool_decide (take n s ∈ non_characters)) && chars_loop fuel (drop n s)
      end
  | _, _ => true
  end.
Definition xml_text (s : bytes) : bool := chars_loop (length s) s.

Lemma unescape_fuel n : forall m s, (length s <= n)%nat -> (length s <= m)%nat -> unescape_loop n s = unescape_loop m s.
Proof.
  induction n as [|n IH]; intros m s Hn Hm; [destruct s; [by destruct m|cbn in Hn; lia]|].
  destruct s as [|c r]; [by destruct m|]. destruct m as [|m]; [cbn in Hm; lia|]. cbn [length] in Hn, Hm. cbn [unescape_loop].
  destruct (found _ entities) as [[b e]|] eqn:E; [|by rewrite (IH m) by lia].
  assert (e <> []) as He.
  { unfold found in E. apply fmap_Some in E as ([i x] & (Hx & _)%list_find_Some & Ex). cbn in Ex. subst x. apply list_elem_of_lookup_2 in Hx.
    assert (forallb (fun e : byte * bytes => negb (e.2 == [])) entities = true) as HF by by vm_compute.
    rewrite forallb_forall in HF. apply list_elem_of_In in Hx. specialize (HF _ Hx). by rewrite negb_true_iff, bool_decide_eq_false in HF. }
  f_equal. destruct e as [|x e]; [done|]. cbn [length drop]. apply IH; rewrite length_drop; lia.
Qed.

Lemma unescape_plain k : forall rest, amp ∉ k -> unescape (k ++ rest) = k ++ unescape rest.
Proof.
  induction k as [|c k IH]; intros rest Hk; [done|]. apply not_elem_of_cons in Hk as [Hc Hk]. cbn [app].
  unfold unescape at 1. cbn [length unescape_loop].
  assert (found (fun e => bool_decide (e.2 `prefix_of` c :: k ++ rest)) entities = None) as ->.
  { unfold found. rewrite (proj2 (list_find_None _ _)); [done|]. apply Forall_forall. intros [b e] Hin HP. apply bool_decide_eq_true in HP. cbn in HP.
    assert (forallb (fun e : byte * bytes => bool_decide (head e.2 = Some amp)) entities = true) as HF by by vm_compute.
    rewrite forallb_forall in HF. apply list_elem_of_In in Hin. specialize (HF _ Hin). apply bool_decide_eq_true in HF. cbn in HF.
    destruct e as [|x e]; [done|]. injection HF as ->. destruct HP as [t Ht]. injection Ht as Ht _. by apply Hc. }
  f_equal. by apply IH.
Qed.

Lemma unescape_entity b e rest : (b, e) ∈ entities -> unescape (e ++ rest) = b :: unescape rest.
Proof.
  intros Hin. assert (forall x, length (drop (length x) (x ++ rest)) = length rest) as HD by (intros x; rewrite length_drop, length_app; lia).
  unfold entities in Hin. rewrite !elem_of_cons in Hin.
  repeat (destruct Hin as [[= -> ->]|Hin]; [match goal with |- context [?e ++ rest] =>
    unfold unescape at 1; change (unescape_loop (length (e ++ rest)) (e ++ rest)) with
      (match found (fun x => bool_decide (x.2 `prefix_of` (e ++ rest))) entities with
       | Some (b, x) => b :: unescape_loop (length (drop 1 e ++ rest)) (drop (length x) (e ++ rest)) | None => [] end) end;
    match goal with |- context [found ?f entities] => let v := eval vm_compute in (found f entities) in change (found f entities) with v end;
    cbv beta iota; f_equal; apply unescape_fuel; rewrite ?length_drop, ?length_app; cbn; lia|]).
  by apply not_elem_of_nil in Hin.
Qed.

Lemma esc_byte_read c rest : (32 <= bz c \/ c ∈ [Byte.x09; Byte.x0a; Byte.x0d]) -> unescape (esc_byte c ++ rest) = c :: unescape rest.
Proof.
  intros Hc. unfold esc_byte, found. destruct (list_find _ entities) as [[i [b e]]|] eqn:E; cbn [fmap option_fmap option_map snd].
  - apply list_find_Some in E as (Hi & HB & _). apply bool_decide_eq_true in HB. cbn in HB. subst b.
    apply unescape_entity. by eapply list_elem_of_lookup_2.
  - apply list_find_None in E. rewrite Forall_forall in E.
    assert (forall b e, (b, e) ∈ entities -> c <> b) as HN by (intros b e Hin ->; apply (E _ Hin); by apply bool_decide_eq_true).
    assert (32 <= bz c) as Hlow.
    { destruct Hc as [|Hc]; [done|]. rewrite !elem_of_cons in Hc. destruct Hc as [->|[->|[->|Hc]]]; [| | |by apply not_elem_of_nil in Hc].
      - by destruct (HN Byte.x09 (str "&#x9;") ltac:(apply (bool_decide_eq_true_1 _); by vm_compute)).
      - by destruct (HN Byte.x0a (str "&#xA;") ltac:(apply (bool_decide_eq_true_1 _); by vm_compute)).
      - by destruct (HN Byte.x0d (str "&#xD;") ltac:(apply (bool_decide_eq_true_1 _); by vm_compute)). }
    rewrite (proj2 (Z.ltb_ge _ _)) by done. apply unescape_plain. rewrite list_elem_of_singleton. intros <-.
    by apply (HN amp (str "&amp;") ltac:(apply (bool_decide_eq_true_1 _); by vm_compute)).
Qed.

Lemma escape_read fuel : forall s rest, (length s <= fuel)%nat -> chars_loop fuel s = true -> unescape (escape_loop fuel s ++ rest) = s ++ unescape rest.
Proof.
  induction fuel as [|fuel IH]; intros [|c r] rest Hl HC; try done; [cbn in Hl; lia|]. cbn [length] in Hl. cbn [escape_loop chars_loop] in *.
  destruct (rune_width (c :: r)) as [|[|n]] eqn:E; [done| |]; apply andb_true_iff in HC as [HC HR]; rewrite <- app_assoc.
  - rewrite orb_true_iff, Z.leb_le, bool_decide_eq_true in HC. rewrite esc_byte_read by done. rewrite IH by (done || lia). done.
  - rewrite negb_true_iff, bool_decide_eq_false in HC. unfold esc_rune. rewrite bool_decide_eq_false_2 by done.
    destruct (high_free _ (rune_width_high _ _ E)) as (_ & _ & HA). rewrite unescape_plain by done.
    rewrite IH; [|rewrite length_drop; cbn [length]; lia|done]. rewrite app_assoc. by rewrite take_drop.
Qed.

Lemma EscapeText_read s rest : xml_text s = true -> unescape (EscapeText s ++ rest) = s ++ unescape rest.
Proof. intros HC. by apply escape_read. Qed.

Lemma EscapeText_back s : xml_text s = true -> unescape (EscapeText s) = s.
Proof. intros HC. rewrite <- (app_nil_r (EscapeText s)), EscapeText_read by done. by rewrite app_nil_r. Qed.

(** *** Segments of a concatenation *)
Definition cat (x y : bytes) : bytes := match y with [] => x | _ => x ++ y end.
Lemma cat_app x y : cat x y = x ++ y.
Proof. destruct y; [by rewrite app_nil_r|done]. Qed.

(** The segments of a template, the holes being filled with [h]. *)
Definition put_hole (v : bytes) (l : list bytes) : list bytes := match l with y :: ys => cat v y :: ys | [] => [v] end.
Definition segments (h : hole -> bytes) (items : list item) : list bytes :=
  foldr (fun i l => match i with Text s => glue (Split s lt) l | Xml x => put_hole (h x) l end) [[]] items.

Lemma segments_spec h items : (forall x, lt ∉ h x) -> Split (concat (map (exec_item h) items)) lt = segments h items.
Proof.
  intros Hh. induction items as [|i items IH]; [done|]. cbn [map concat]. rewrite Split_glue, IH. cbn [segments foldr].
  destruct i as [s|x]; cbn [exec_item]; [done|]. rewrite (Split_free_single (h x)) by done. unfold put_hole. cbn [glue]. change (foldr _ [[]] items) with (segments h items). destruct (segments h items); [done|]. by rewrite cat_app.
Qed.

(** What a device should read in the profile of [p]. *)
Definition pair (k : bytes) (v : bytes) : bytes * bytes := (k, v).
Definition on_demand_strings : list (bytes * bytes) :=
  [pair (str "Action") (str "Connect"); pair (str "InterfaceTypeMatch") (str "WiFi");
   pair (str "Action") (str "Connect"); pair (str "InterfaceTypeMatch") (str "Cellular")].
Definition settings_type : bytes * bytes := pair (str "PayloadType") (str "com.apple.dnsSettings.managed").

Definition profile_strings (p : ProfileParams) : list (bytes * bytes) :=
  [pair (str "DNSProtocol") (str "HTTPS"); pair (str "ServerName") (Domain p);
   pair (str "ServerURL") (str "https://" ++ Domain p ++ str "/dns-query")] ++
  (if OnDemand p then on_demand_strings else []) ++
  [pair (str "PayloadDescription") (str "5GPN gateway encrypted DNS profile"); pair (str "PayloadDisplayName") (DisplayName p);
   pair (str "PayloadIdentifier") (Identifier p ++ str ".payload"); settings_type; pair (str "PayloadUUID") (PayloadUUID p)] ++
  (if FallbackDoT p == [] then []
   else [pair (str "DNSProtocol") (str "TLS"); pair (str "ServerName") (FallbackDoT p);
         pair (str "PayloadDescription") (str "5GPN gateway fallback encrypted DNS profile");
         pair (str "PayloadDisplayName") (DisplayName p ++ str " Fallback");
         pair (str "PayloadIdentifier") (Identifier p ++ str ".fallback-payload"); settings_type;
         pair (str "PayloadUUID") (FallbackPayloadUUID p)]) ++
  [pair (str "PayloadDisplayName") (DisplayName p); pair (str "PayloadIdentifier") (Identifier p);
   pair (str "PayloadType") (str "Configuration"); pair (str "PayloadUUID") (UUID p)].

(** The same with the holes unread. *)
Definition raw_strings (U : bytes -> bytes) (h : hole -> bytes) (onDemand fallback : bool) : list (bytes * bytes) :=
  let u k v := (k, U v) in
  [u (str "DNSProtocol") (str "HTTPS"); u (str "ServerName") (h HDomain);
   u (str "ServerURL") (str "https://" ++ h HDomain ++ str "/dns-query")] ++
  (if onDemand then map (fun p => (p.1, U p.2)) on_demand_strings else []) ++
  [u (str "PayloadDescription") (str "5GPN gateway encrypted DNS profile"); u (str "PayloadDisplayName") (h HDisplayName);
   u (str "PayloadIdentifier") (h HIdentifier ++ str ".payload"); u (str "PayloadType") (str "com.apple.dnsSettings.managed");
   u (str "PayloadUUID") (h HPayloadUUID)] ++
  (if fallback then
     [u (str "DNSProtocol") (str "TLS"); u (str "ServerName") (h HFallbackDoT);
      u (str "PayloadDescription") (str "5GPN gateway fallback encrypted DNS profile");
      u (str "PayloadDisplayName") (h HDisplayName ++ str " Fallback");
      u (str "PayloadIdentifier") (h HIdentifier ++ str ".fallback-payload"); u (str "PayloadType") (str "com.apple.dnsSettings.managed");
      u (str "PayloadUUID") (h HFallbackPayloadUUID)] else []) ++
  [u (str "PayloadDisplayName") (h HDisplayName); u (str "PayloadIdentifier") (h HIdentifier);
   u (str "PayloadType") (str "Configuration"); u (str "PayloadUUID") (h HUUID)].

Lemma raw_profile U h onDemand fallback :
  keyed U None (elements (segments h (mobileConfigTemplate onDemand fallback))) = raw_strings U h onDemand fallback.
Proof. destruct onDemand, fallback; vm_compute; reflexivity. Qed.

Lemma plain_read s : amp ∉ s -> unescape s = s.
Proof. intros Hs. rewrite <- (app_nil_r s) at 1. rewrite unescape_plain by done. by rewrite app_nil_r. Qed.

Lemma raw_read p : (forall x, xml_text (field p x) = true) ->
  raw_strings unescape (fun x => EscapeText (field p x)) (OnDemand p) (FallbackDoT p != []) = profile_strings p.
Proof.
  intros HX. unfold raw_strings, profile_strings.
  assert (map (fun p => (p.1, unescape p.2)) on_demand_strings = on_demand_strings) as -> by (vm_compute; reflexivity).
  assert (forall k, bool_decide (amp ∈ k) = false -> unescape k = k) as HK by (intros k Hk; apply plain_read; exact (proj1 (bool_decide_eq_false _) Hk)).
  assert (forall x k, bool_decide (amp ∈ k) = false -> unescape (EscapeText (field p x) ++ k) = field p x ++ k) as HA
    by (intros x k Hk; rewrite EscapeText_read by done; by rewrite HK).
  assert (unescape (str "https://" ++ EscapeText (field p HDomain) ++ str "/dns-query") = str "https://" ++ Domain p ++ str "/dns-query") as ->.
  { rewrite unescape_plain by (apply (bool_decide_eq_true_1 _); vm_compute; reflexivity). by rewrite HA by (vm_compute; reflexivity). }
  rewrite !HA by (vm_compute; reflexivity). rewrite !EscapeText_back by done. rewrite !(HK (str _)) by (vm_compute; reflexivity).
  case_bool_decide; done.
Qed.


(** ** The socket server *)
Section server.
Context (pulled : Z -> Z).

(** What may be written: a refusal, or the file of one of the three routes. *)
Definition reply (ReadFile : bytes -> option bytes) (r : bytes) : Prop :=
  (exists status text, r = refuse status text) \/
  exists path rt body, (path, rt) ∈ DefaultRoutes /\ ReadFile (Filename rt) = Some body /\ r = writeStatus (str "200 OK") (ContentType rt) body.

Lemma headers_reply count : forall n input, match headers pulled count n input with Some r => exists status text, r = refuse status text | None => True end.
Proof.
  induction count as [|count IH]; intros n input; cbn [headers]; [by eexists _, _|].
  destruct (ReadLine input) as [[line rest] ok]. destruct (_ || _ || _); [by eexists _, _|]. destruct ok; cbn [negb]; [|by eexists _, _].
  case_bool_decide; [done|]. apply IH.
Qed.

Lemma respond_reply ReadFile target : reply ReadFile (respond ReadFile DefaultRoutes target).
Proof.
  unfold respond, found. destruct (list_find _ DefaultRoutes) as [[i [path rt]]|] eqn:E; cbn [fmap option_fmap option_map snd]; [|left; by eexists _, _].
  apply list_find_Some in E as (Hi & _ & _). destruct (ReadFile (Filename rt)) as [body|] eqn:ER; [|left; by eexists _, _].
  right. exists path, rt, body. split; [by eapply list_elem_of_lookup_2|done].
Qed.

(** whatever a client sends, however it arrives, it gets one reply: a refusal
    or one of the two published files. *)
Theorem ServeConn_reply ReadFile sent : reply ReadFile (ServeConn ReadFile pulled DefaultRoutes sent).
Proof.
  unfold ServeConn. destruct (ReadLine _) as [[line input] ok]. destruct ok; cbn [negb]; [|left; by eexists _, _].
  destruct (maxRequestLineBytes <? len line); [left; by eexists _, _|].
  destruct (Fields _) as [|m [|target rest]]; [left; by eexists _, _|left; by eexists _, _|].
  destruct (m != str "GET"); [left; by eexists _, _|]. pose proof (headers_reply maxHeaderCount (len line) input) as HH.
  destruct (headers pulled maxHeaderCount (len line) input); [by left|]. apply respond_reply.
Qed.

(** A request as a browser sends it. *)
Definition header_line (h : bytes) : bytes := h ++ crlf.
Definition get_request (path : bytes) (hs : list bytes) : bytes :=
  (str "GET " ++ path ++ str " HTTP/1.1" ++ crlf) ++ concat (map header_line hs) ++ crlf.

Lemma ReadLine_crlf l rest : Byte.x0a ∉ l -> ReadLine (l ++ crlf ++ rest) = (l ++ crlf, rest, true).
Proof.
  intros Hl. unfold ReadLine. assert (IndexByte (l ++ crlf ++ rest) Byte.x0a = Some (length l + 1)%nat) as ->.
  { unfold IndexByte. rewrite list_find_app_r; [by rewrite Nat.add_comm|]. apply list_find_None. apply Forall_forall. by intros b Hb ->. }
  replace (S (length l + 1)) with (length (l ++ crlf)) by (rewrite length_app; cbn; lia).
  by rewrite app_assoc, take_app_length, drop_app_length.
Qed.

Lemma TrimRight_crlf l : visible l -> l <> [] -> TrimRight (l ++ crlf) crlf = l.
Proof.
  intros Hv Hl. unfold TrimRight. rewrite reverse_app. change (reverse crlf) with [Byte.x0a; Byte.x0d]. cbn [app].
  destruct l as [|c l _] using rev_ind; [done|]. rewrite reverse_snoc.
  apply Forall_app in Hv as [_ Hv]. apply Forall_cons in Hv as [Hv _].
  assert (TrimLeft (Byte.x0a :: Byte.x0d :: c :: reverse l) crlf = c :: reverse l) as ->.
  { cbn [TrimLeft]. rewrite !bool_decide_eq_true_2 by (unfold crlf; set_solver). rewrite bool_decide_eq_false_2; [done|].
    unfold crlf. rewrite !elem_of_cons. intros [->|[->|Hin]]; [done|done|by apply not_elem_of_nil in Hin]. }
  rewrite reverse_cons, reverse_involutive. done.
Qed.

Definition plain_header (h : bytes) : Prop := Byte.x0a ∉ h /\ TrimRight (h ++ crlf) crlf <> [] /\ len h + 2 <= maxHeaderLineBytes.

Lemma headers_pass (Hp : forall n, pulled n <= maxRequestHeaderBytes) hs : forall count n rest, Forall plain_header hs -> (length hs < count)%nat ->
  n + len (concat (map header_line hs) ++ crlf) <= maxRequestHeaderBytes -> headers pulled count n (concat (map header_line hs) ++ crlf ++ rest) = None.
Proof.
  induction hs as [|h hs IH]; intros [|count] n rest HF Hc Hn; try (cbn in Hc; lia); cbn [headers map concat].
  - assert (ReadLine (crlf ++ rest) = (crlf, rest, true)) as HR by (apply (ReadLine_crlf []); apply not_elem_of_nil). cbn [app] in *. rewrite HR.
    assert (len crlf = 2) as HL by done. change (concat (map header_line []) ++ crlf) with crlf in Hn. specialize (Hp (n + len crlf)). unfold maxRequestHeaderBytes, maxHeaderLineBytes in *. rewrite HL in *.
    rewrite !(proj2 (Z.ltb_ge _ _)), (proj2 (Z.leb_gt _ _)) by lia. cbn [orb negb].
    by rewrite (bool_decide_eq_true_2 (TrimRight crlf crlf = [])) by (vm_compute; reflexivity).
  - apply Forall_cons in HF as [(H0 & H1 & H2) HF]. unfold header_line at 1. rewrite <- !app_assoc, ReadLine_crlf by done.
    assert (len (h ++ crlf) = len h + 2) as HL by (unfold len; rewrite length_app; cbn [length crlf]; lia).
    assert (len (concat (map header_line (h :: hs)) ++ crlf) = len h + 2 + len (concat (map header_line hs) ++ crlf)) as HT.
    { cbn [map concat]. unfold header_line at 1. unfold len. rewrite !length_app. cbn [length crlf]. lia. }
    pose proof (len_nonneg (concat (map header_line hs) ++ crlf)). rewrite HT in Hn. specialize (Hp (n + len (h ++ crlf))) as Hp'. rewrite HL in *.
    unfold maxRequestHeaderBytes, maxHeaderLineBytes in *. rewrite !(proj2 (Z.ltb_ge _ _)), (proj2 (Z.leb_gt _ _)) by lia. cbn [orb negb].
    rewrite bool_decide_eq_false_2 by done. apply IH; [done|cbn in Hc; lia|lia].
Qed.

Lemma get_line path : visible path -> path <> [] ->
  Byte.x0a ∉ str "GET " ++ path ++ str " HTTP/1.1" /\ Fields (TrimRight ((str "GET " ++ path ++ str " HTTP/1.1") ++ crlf) crlf) = [str "GET"; path; str "HTTP/1.1"].
Proof.
  intros Hv Hne. split.
  - rewrite !elem_of_app. intros [Hin|[Hin|Hin]]; [revert Hin; apply (bool_decide_eq_true_1 _); by vm_compute| |revert Hin; apply (bool_decide_eq_true_1 _); by vm_compute].
    unfold visible in Hv. rewrite Forall_forall in Hv. by specialize (Hv _ Hin).
  - assert (str "GET " ++ path ++ str " HTTP/1.1" = (str "GET " ++ path ++ str " HTTP/1.") ++ str "1") as -> by (by rewrite <- !app_assoc).
    set (y := str "GET " ++ path ++ str " HTTP/1."). unfold TrimRight. rewrite !reverse_app.
    change (reverse crlf) with [Byte.x0a; Byte.x0d]. change (reverse (str "1")) with [Byte.x31]. cbn [app].
    assert (TrimLeft (Byte.x0a :: Byte.x0d :: Byte.x31 :: reverse y) crlf = Byte.x31 :: reverse y) as ->.
    { cbn [TrimLeft]. rewrite !bool_decide_eq_true_2 by (unfold crlf; set_solver). rewrite bool_decide_eq_false_2; [done|].
      apply (bool_decide_eq_true_1 _); by vm_compute. }
    rewrite reverse_cons, reverse_involutive. unfold y. rewrite <- !app_assoc.
    change (str "GET " ++ path ++ str " HTTP/1." ++ [Byte.x31]) with (Join [str "GET"; path; str "HTTP/1.1"] space).
    apply Fields_Join; repeat constructor; try done.
Qed.

(** a well-formed request for a published path within the limits is
    answered with the file, and with nothing else. *)
Theorem ServeConn_serves ReadFile path hs rest :
  (forall n, pulled n <= maxRequestHeaderBytes) -> visible path -> path <> [] -> len path + 15 <= maxRequestLineBytes ->
  Forall plain_header hs -> (length hs < maxHeaderCount)%nat -> len (get_request path hs ++ rest) <= maxRequestHeaderBytes ->
  ServeConn ReadFile pulled DefaultRoutes (get_request path hs ++ rest) = respond ReadFile DefaultRoutes path.
Proof.
  intros Hp Hv Hne Hl HF Hc Hn. destruct (get_line path Hv Hne) as [Hnl HFi]. unfold ServeConn.
  rewrite take_ge by (unfold len, maxRequestHeaderBytes in *; lia). unfold get_request in *.
  assert (((str "GET " ++ path ++ str " HTTP/1.1" ++ crlf) ++ concat (map header_line hs) ++ crlf) ++ rest =
    (str "GET " ++ path ++ str " HTTP/1.1") ++ crlf ++ (concat (map header_line hs) ++ crlf ++ rest)) as HE by (by rewrite <- !app_assoc).
  rewrite HE in *. rewrite ReadLine_crlf by done. cbn [negb]. rewrite HFi.
  assert (len ((str "GET " ++ path ++ str " HTTP/1.1") ++ crlf) = len path + 15) as HL by (unfold len; rewrite !length_app; cbn [length crlf]; change (length (str "GET ")) with 4%nat; change (length (str " HTTP/1.1")) with 9%nat; lia).
  rewrite HL, (proj2 (Z.ltb_ge _ _)) by done. rewrite bool_decide_eq_true_2 by done. cbn [negb].
  rewrite headers_pass; [done|done|done|done|].
  unfold len in *. rewrite !length_app in *. cbn [length crlf] in *. lia.
Qed.
End server.

(** The profile is handed out only when its setting is on, and then it reads
    as intended, with the stored fallback or the default one. *)
Theorem handleIOSMobileconfig_gate `{Unicode} `{JSON} uuid_Parse uuid_url base have (s : Store) doc s' :
  handleIOSMobileconfig uuid_Parse uuid_url base have s = (Answered doc, s') ->
  exists domain configured fallback s1, base = Some (domain, configured) /\ domain <> [] /\ have = true /\
    GetBool KeyFrontdoorIOSProfileEnabled s = (Ok true, s1) /\ fallback <> [] /\
    (fst (GetString KeyFrontdoorFallbackDoT s1) = Ok fallback \/ (fst (GetString KeyFrontdoorFallbackDoT s1) = Ok [] /\ fallback = defaultIOSFallbackDoT)) /\
    Render (profile_params uuid_Parse uuid_url domain configured fallback) = Ok doc.
Proof.
  unfold handleIOSMobileconfig. destruct base as [[domain configured]|]; [|done]. case_bool_decide as HD; [done|].
  destruct have; [|done]. unfold bind. destruct (GetBool KeyFrontdoorIOSProfileEnabled s) as [[e|[|]] s1] eqn:EB; [done| |done].
  destruct (GetString KeyFrontdoorFallbackDoT s1) as [[e|v] s2] eqn:ES; [done|]. unfold ret. intros E.
  set (fb := if v != [] then v else defaultIOSFallbackDoT) in *.
  destruct (Render (profile_params uuid_Parse uuid_url domain configured fb)) as [e|payload] eqn:ER; [done|]. injection E as -> _.
  exists domain, configured, fb, s1. split_and!; try done; unfold fb.
  - case_bool_decide; done.
  - rewrite ES. cbn. case_bool_decide as Hv; cbn [negb]; [right; by subst|by left].
Qed.

(** ** Concrete inputs *)
Module Demo.
(** A display name that tries to close its string. *)
Definition params : ProfileParams :=
  {| Domain := str "dns.example"; DisplayName := str "</string><key>x</key><string>" ++ [quote; amp]; Identifier := []; UUID := str "u1";
     PayloadUUID := str "u2"; OnDemand := true; FallbackDoT := str "1.1.1.1"; FallbackPayloadUUID := str "u3" |}.
Definition doc : bytes := match Render params with Ok d => d | Err _ => [] end.
Lemma render_ok : Render params = Ok doc.
Proof. reflexivity. Qed.

(** The rules for networks are in the first payload only, although the
    comment of the parameter says every payload. *)
Example rules_once : length (filter (fun p => p.1 = str "InterfaceTypeMatch") (read_plist doc)) = 2%nat /\
  length (filter (fun p => p.1 = str "DNSProtocol") (read_plist doc)) = 2%nat.
Proof. by vm_compute. Qed.

Definition files (f : bytes) : option bytes := if f == str "index.html" then Some (str "<p>") else None.
Definition buffered (n : Z) : Z := Z.min n 32768.
Definition serve (sent : bytes) : bytes := ServeConn files buffered DefaultRoutes sent.
Definition host_header : list bytes := [str "Host: dns.example"; str "X: y"].

Example index_served : serve (get_request (str "/?x=1") host_header) = writeStatus (str "200 OK") html (str "<p>").
Proof. by vm_compute. Qed.
Example traversal_refused : serve (get_request (str "/../etc/passwd") host_header) = refuse (str "404 Not Found") (str "not found").
Proof. by vm_compute. Qed.
Example post_refused : serve (str "POST / HTTP/1.1" ++ crlf ++ crlf) = refuse (str "400 Bad Request") (str "bad request").
Proof. by vm_compute. Qed.
(** The empty line counts: a hundred headers are one too many. *)
Example hundred_headers : serve (get_request (str "/") (repeat (str "A: b") 99)) = writeStatus (str "200 OK") html (str "<p>") /\
  serve (get_request (str "/") (repeat (str "A: b") 100)) = refuse (str "431 Request Header Fields Too Large") (str "too many headers").
Proof. by vm_compute. Qed.
End Demo.


Lemma ServeConn_serves_witness :
  Demo.serve (get_request (str "/index.html") Demo.host_header ++ []) = respond Demo.files DefaultRoutes (str "/index.html").
Proof.
  apply (ServeConn_serves Demo.buffered Demo.files (str "/index.html") Demo.host_header []).
  - intros n. unfold Demo.buffered, maxRequestHeaderBytes. apply Z.le_min_r.
  - repeat constructor.
  - discriminate.
  - vm_compute. discriminate.
  - repeat constructor; try (apply (bool_decide_eq_true_1 _); vm_compute; reflexivity); vm_compute; discriminate.
  - vm_compute. repeat constructor.
  - vm_compute. discriminate.
Defined.
