(* ===== verification/CtlSocket.v ===== *)
(** * The control socket and its client

    cmd/5gpn/ctl_socket_linux.go (the socket's path, the connection, the
    dispatch and the China list command), cmd/5gpn-ctl (the command line and
    its exit code), and the panel's China list handler of api/rules.go, which
    runs the same download.  The commands over the applier and the database
    are ApplyApi's and RulesApi's.  A message is what the JSON codec decodes. *)
From S2P Require Import Prelude GoStrings Rules Netguard Rulesets Chinalist Orchestrator Db Applier ApplierSpec ApplyRing ApplyApi RulesApi.
From Stdlib Require Import ZArith Lia.
Local Open Scope Z_scope.

(** ** The socket's path *)
Definition ctlSocketPath : bytes := str "/run/5gpn/ctl.sock".
Definition ctlSocketFallback : bytes := str "/tmp/5gpn.sock".

(** [prepareSocketPath]: whether the directory and the probe can be made. *)
Definition prepareSocketPath (mkdir create : bool) : bytes := if mkdir && create then ctlSocketPath else ctlSocketFallback.

(** ** The daemon's side *)
Record request := { Cmd : bytes; exit_id : option bytes }.       (* the one argument read *)

Inductive ctl_response :=
| RError (msg : bytes) | RVersion (v : bytes) | RData (d : CtlData) | RApply (id : bytes) (r : CtlReply) | RChina (source path : bytes).

Inductive received := Decoded (r : request) | EOF | Garbled.

Section daemon.
Context `{Unicode} {Value Base : Type}.
Context (Unmarshal : bytes -> option (list Rule)) (IsDomainName : bytes -> bool)
  (ParseExit : bytes -> option (gmap bytes Value)) (text : AErr -> bytes)
  (orch : @Orch Value Base) (BaseConfig : option (@Config Value Base)).
Context (newest : list RuleVersion -> list RuleVersion).
Context (url_Parse : bytes -> option URL) (NewRequest : bytes -> bool)
        (Do : bytes -> list (bytes * bytes) -> option Response) (TempName : gmap bytes bytes -> bytes -> bytes).
(** What the router was given, and the China list of its configuration. *)
Context (have_exits have_applier have_db : bool) (ChinaListSource ChinaListPath version : bytes).

Record CS := { srv : @Srv Value Base; china : Chinalist.World }.
Definition on_srv {A} (m : ST (@Srv Value Base) A) : ST CS A := fun s => let '(a, x) := m (srv s) in (a, {| srv := x; china := china s |}).
Definition on_china {A} (m : ST Chinalist.World A) : ST CS A := fun s => let '(a, x) := m (china s) in (a, {| srv := srv s; china := x |}).

Definition have_base : bool := match BaseConfig with Some _ => true | None => false end.
Definition sync (url path : bytes) : ST CS (res CLError unit) := on_china (Sync url_Parse NewRequest Do TempName have_db url path).

Definition cmdChinalistSync : ST CS ctl_response :=
  if negb (have_applier && have_base) then ret (RError (str "config unavailable"))
  else if ChinaListSource == [] then ret (RError (str "dns.chinalist_source not configured"))
  else
    let path := if ChinaListPath == [] then str "/var/lib/5gpn/chinalist.txt" else ChinaListPath in
    let! r := sync ChinaListSource path in
    match r with
    | Err _ => ret (RError (str "sync failed"))
    | Ok _ => let! _ := on_srv (on_app (audit (str "ctl") (str "chinalist.sync") ChinaListSource (str "ok"))) in ret (RChina ChinaListSource path)
    end.

(** The commands with the guards of their first lines. *)
Definition ctl_switch (id : bytes) (nano : Z) : ST CS ctl_response :=
  if id == [] then ret (RError (str "missing exit_id"))
  else if negb have_applier then ret (RError (str "applier unavailable"))
  else let! r := on_srv (cmdExitsSwitch Unmarshal IsDomainName ParseExit text orch BaseConfig id nano) in ret (RApply id r).
Definition ctl_rollback : ST CS ctl_response :=
  if negb (have_db && have_applier) then ret (RError (str "db unavailable"))
  else let! r := on_srv (cmdRulesRollback Unmarshal IsDomainName ParseExit text orch BaseConfig newest) in ret (RApply [] r).
Definition ctl_list : ST CS ctl_response :=
  if negb have_exits then ret (RError (str "exit store unavailable"))
  else let! r := on_srv (on_app cmdExitsList) in ret (match r with CtlError m => RError m | d => RData d end).
Definition ctl_status : ST CS ctl_response :=
  let! r := on_srv (on_app (cmdStatus Unmarshal IsDomainName (have_applier && have_base))) in ret (RData r).

Definition dispatch (req : request) (nano : Z) : ST CS ctl_response :=
  let c := Cmd req in
  if c == str "version" then ret (RVersion version)
  else if c == str "status" then ctl_status
  else if c == str "exits.list" then ctl_list
  else if c == str "exits.switch" then ctl_switch (default [] (exit_id req)) nano
  else if c == str "rules.rollback" then ctl_rollback
  else if c == str "chinalist.sync" then cmdChinalistSync
  else ret (RError (str "unknown cmd: " ++ c)).

(** [handleConn]: [None] is no answer.  [peer] is what SO_PEERCRED says. *)
Definition handleConn (peer : option Z) (uid : Z) (deadline : bool) (msg : received) (nano : Z) : ST CS (option ctl_response) :=
  if negb (match peer with Some p => authorize p uid | None => false end) then ret (Some (RError (str "not authorized")))
  else if negb deadline then ret (Some (RError (str "set deadline")))
  else match msg with
       | EOF => ret None
       | Garbled => ret (Some (RError (str "decode request")))
       | Decoded req => let! r := dispatch req nano in ret (Some r)
       end.

(** [handleChinalistSync] of the panel; [url] is the request's, empty when
    there is none. *)
Record chinalistSyncResponse := { s_URL : bytes; s_Path : bytes; s_Refreshed : bool; s_ETag : bytes }.

Definition handleChinalistSync (url actor : bytes) : ST CS (Answer chinalistSyncResponse) :=
  if negb have_base then ret (Refused 500 (str "config_missing"))
  else
    let url := if url == [] then ChinaListSource else url in
    if (url == []) || (ChinaListPath == []) then ret (Refused 400 (str "chinalist_unconfigured"))
    else
      let! before := on_china (previous_etag have_db url) in
      let! r := sync url ChinaListPath in
      match r with
      | Err _ => ret (Refused 502 (str "sync_failed"))
      | Ok _ =>
          let! after := on_china (previous_etag have_db url) in
          let! _ := on_srv (on_app (audit actor (str "rules.chinalist.sync") url (str "ok"))) in
          ret (Answered {| s_URL := url; s_Path := ChinaListPath; s_Refreshed := bool_decide (after <> before); s_ETag := after |})
      end.
End daemon.

(** ** The client *)
Inductive cli := Usage (code : Z) | Version | Misused | Send (r : request).

(** [dispatch] of 5gpn-ctl, with the check of [main]. *)
Definition plain_request (c : bytes) : cli := Send {| Cmd := c; exit_id := None |}.
Definition cli_dispatch (args : list bytes) : cli :=
  match args with
  | [] => Usage 2
  | a :: rest =>
      if bool_decide (a ∈ [str "-h"; str "--help"; str "help"]) then Usage 0
      else if a == str "--version" then Version
      else if a == str "status" then plain_request (str "status")
      else if a == str "version" then plain_request (str "version")
      else if a == str "exits" then
        match rest with
        | [] => Misused
        | b :: rest =>
            if b == str "list" then plain_request (str "exits.list")
            else if b == str "switch" then
              match rest with [] => Misused | id :: _ => Send {| Cmd := str "exits.switch"; exit_id := Some id |} end
            else Misused
        end
      else if a == str "rules" then
        match rest with b :: _ => if b == str "rollback" then plain_request (str "rules.rollback") else Misused | [] => Misused end
      else if a == str "chinalist" then
        match rest with b :: _ => if b == str "sync" then plain_request (str "chinalist.sync") else Misused | [] => Misused end
      else Misused
  end.

(** [dial]: the first path that exists and answers. *)
Definition dial (exists_ answers : bytes -> bool) : option bytes :=
  found (fun p => exists_ p && answers p) [ctlSocketPath; ctlSocketFallback].

(** Whether the daemon's answer is marked OK. *)
Definition resp_ok (r : ctl_response) : bool :=
  match r with RError _ | RApply _ (CtlErr _) | RData (CtlError _) => false | _ => true end.

Definition exit_code (c : cli) (answer : option ctl_response) : Z :=
  match c with
  | Usage code => code
  | Version => 0
  | Misused => 2
  | Send _ => match answer with Some r => if resp_ok r then 0 else 1 | None => 1 end
  end.

(** ** Lemmas *)
Definition ctl_commands : list bytes := [str "version"; str "status"; str "exits.list"; str "exits.switch"; str "rules.rollback"; str "chinalist.sync"].
Definition changing : list bytes := [str "exits.switch"; str "rules.rollback"; str "chinalist.sync"].

Lemma cli_known args r : cli_dispatch args = Send r -> Cmd r ∈ ctl_commands /\ (Cmd r = str "exits.switch" <-> is_Some (exit_id r)).
Proof.
  unfold cli_dispatch, plain_request. intros E.
  repeat match type of E with
  | match ?x with [] => _ | _ :: _ => _ end = _ => destruct x; try discriminate E
  | (if ?b then _ else _) = _ => destruct b; try discriminate E
  end; injection E as <-; (split; [apply (bool_decide_eq_true_1 _); vm_compute; reflexivity|]); split; intros; done || (by destruct H) || (by eexists).
Qed.

(** The state of the applier up to the outcomes of later statements. *)
Definition quiet (a0 a : App) : Prop := exists l, a = set_db (set_db_faults l (db a0)) a0.

Lemma quiet_refl a : quiet a a.
Proof. exists (db_faults (db a)). by destruct a as [[] ? ? ? ? ? ? ?]. Qed.

Lemma quiet_query {A : Type} a0 (f : Db -> res DbErr A) : keeps (quiet a0) (on_db (query f)).
Proof.
  intros a [l ->]. unfold on_db. cbn [db set_db]. pose proof (wp_elim _ _ _ _ _ (wp_query f (set_db_faults l (db a0))) (surjective_pairing _)) as [HE _].
  destruct (query f (set_db_faults l (db a0))) as [r d]. cbn in HE |- *. apply eqt_inv in HE as [l' ->]. by exists l'.
Qed.

Lemma quiet_list a0 : keeps (quiet a0) cmdExitsList.
Proof. apply keeps_bind; [apply quiet_query|]. intros. apply keeps_ret. Qed.

Lemma quiet_status `{Unicode} U D b a0 : keeps (quiet a0) (cmdStatus U D b).
Proof.
  apply keeps_bind; [apply quiet_query|]. intros e. destruct (negb b); [apply keeps_ret|]. apply keeps_bind; [apply quiet_query|]. intros. apply keeps_ret.
Qed.

(** ** Properties *)
Section properties.
Context `{Unicode} {Value Base : Type}.
Context (Unmarshal : bytes -> option (list Rule)) (IsDomainName : bytes -> bool)
  (ParseExit : bytes -> option (gmap bytes Value)) (text : AErr -> bytes)
  (orch : @Orch Value Base) (BaseConfig : option (@Config Value Base)).
Context (newest : list RuleVersion -> list RuleVersion).
Context (url_Parse : bytes -> option URL) (NewRequest : bytes -> bool)
        (Do : bytes -> list (bytes * bytes) -> option Response) (TempName : gmap bytes bytes -> bytes -> bytes).
Context (have_exits have_applier have_db : bool) (ChinaListSource ChinaListPath version : bytes).
Abbreviation conn := (handleConn Unmarshal IsDomainName ParseExit text orch BaseConfig newest url_Parse NewRequest Do TempName
  have_exits have_applier have_db ChinaListSource ChinaListPath version).
Abbreviation disp := (dispatch Unmarshal IsDomainName ParseExit text orch BaseConfig newest url_Parse NewRequest Do TempName
  have_exits have_applier have_db ChinaListSource ChinaListPath version).

(** Nothing but the outcomes of later statements has changed. *)
Definition unchanged (s s' : @CS Value Base) : Prop :=
  ring (srv s') = ring (srv s) /\ reg (srv s') = reg (srv s) /\ china s' = china s /\
  exists a, quiet (cp (world (srv s))) a /\ world (srv s') = upd_cp a (world (srv s)).

Lemma unchanged_refl s : unchanged s s.
Proof.
  split; [done|]. split; [done|]. split; [done|]. exists (cp (world (srv s))). split; [apply quiet_refl|]. by destruct (world (srv s)).
Qed.

Lemma unchanged_app {A : Type} (m : AP A) (s : @CS Value Base) : (forall a0, keeps (quiet a0) m) -> unchanged s (on_srv (on_app m) s).2.
Proof.
  intros Hm. specialize (Hm (cp (world (srv s))) (cp (world (srv s))) (quiet_refl _)).
  unfold on_srv, on_app, on_world, on_cp. destruct (m (cp (world (srv s)))) as [a c]. cbn in *. split; [done|]. split; [done|]. split; [done|]. by exists c.
Qed.

Lemma wp_pure {A B : Type} (m : ST (@CS Value Base) A) (f : A -> B) (P : @CS Value Base -> Prop) s : P (m s).2 -> P ((let! x := m in ret (f x)) s).2.
Proof. unfold bind, ret. by destruct (m s). Qed.

Lemma dispatch_quiet req nano s : Cmd req ∉ changing -> unchanged s (disp req nano s).2.
Proof.
  intros HC. unfold changing in HC. rewrite !not_elem_of_cons in HC. destruct HC as (H1 & H2 & H3 & _). unfold dispatch.
  rewrite (bool_decide_eq_false_2 (Cmd req = str "exits.switch")), (bool_decide_eq_false_2 (Cmd req = str "rules.rollback")),
    (bool_decide_eq_false_2 (Cmd req = str "chinalist.sync")) by done.
  repeat case_bool_decide; try apply unchanged_refl.
  - unfold ctl_status. apply wp_pure, unchanged_app. intros a0. apply quiet_status.
  - unfold ctl_list. destruct have_exits; cbn [negb]; [|apply unchanged_refl]. apply (wp_pure _ _ (unchanged s)), unchanged_app. intros a0. apply quiet_list.
Qed.

Definition known (req : request) : Prop := Cmd req ∈ ctl_commands.

Lemma dispatch_known req nano s m : known req -> (disp req nano s).1 <> RError (str "unknown cmd: " ++ m).
Proof.
  unfold known, ctl_commands. rewrite !elem_of_cons. intros HC. unfold dispatch.
  assert (forall A (x : ST (@CS Value Base) A) (f : A -> ctl_response), (forall a, f a <> RError (str "unknown cmd: " ++ m)) ->
    ((let! a := x in ret (f a)) s).1 <> RError (str "unknown cmd: " ++ m)) as HB by (intros A x f Hf; unfold bind, ret; destruct (x s); apply Hf).
  repeat case_bool_decide; try done.
  - apply HB. done.
  - unfold ctl_list. destruct have_exits; cbn [negb]; [|done].
    unfold on_srv, on_app, on_world, on_cp, cmdExitsList, bind, ret. by destruct (on_db ListExits (cp (world (srv s)))) as [[e|l] a'].
  - unfold ctl_switch. case_bool_decide; [done|]. destruct have_applier; [|done]. by apply HB.
  - unfold ctl_rollback. destruct (negb _); [done|]. by apply HB.
  - unfold cmdChinalistSync. destruct (negb _); [done|]. case_bool_decide; [done|]. unfold bind at 1. destruct (sync _ _ _ _ _ _ _ s) as [[e|[]] s1]; [done|].
    unfold bind, ret. by destruct (on_srv _ s1).
  - exfalso. repeat (destruct HC as [HC|HC]; [by match goal with Hn : Cmd req <> _ |- _ => apply Hn; exact HC end|]). by apply not_elem_of_nil in HC.
Qed.

(** A run of the client against the daemon. *)
Definition ctl_run (args : list bytes) (peer : option Z) (uid : Z) (deadline : bool) (nano : Z) : ST (@CS Value Base) Z :=
  match cli_dispatch args with
  | Send r => let! a := conn peer uid deadline (Decoded r) nano in ret (exit_code (Send r) a)
  | c => ret (exit_code c None)
  end.

Definition authorised (peer : option Z) (uid : Z) : Prop := exists p, peer = Some p /\ (p = uid \/ p = 0).

Lemma authorised_peer peer uid : (match peer with Some p => authorize p uid | None => false end) = true -> authorised peer uid.
Proof. destruct peer as [p|]; [|done]. intros EA. exists p. split; [done|]. unfold authorize in EA. apply orb_true_iff in EA as [EA|EA]; apply Z.eqb_eq in EA; auto. Qed.

(** What a connection of any peer does, whatever it sends. *)
Lemma conn_perimeter peer uid deadline msg nano s :
  (unchanged s (conn peer uid deadline msg nano s).2 \/ authorised peer uid /\ exists r, msg = Decoded r /\ Cmd r ∈ changing) /\
  (authorised peer uid \/ conn peer uid deadline msg nano s = (Some (RError (str "not authorized")), s)).
Proof.
  unfold handleConn. destruct (match peer with Some p => authorize p uid | None => false end) eqn:EA; cbn [negb]; [|split; [left; apply unchanged_refl|by right]].
  apply authorised_peer in EA. split; [|by left]. destruct deadline; cbn [negb]; [|left; apply unchanged_refl].
  destruct msg as [| |r]; try (left; apply unchanged_refl). destruct (decide (Cmd r ∈ changing)) as [Hc|Hc]; [right; split; [done|by exists r]|].
  left. apply (wp_pure _ _ (unchanged s)), dispatch_quiet, Hc.
Qed.

(** C37: the control socket and its tool, for every peer.  On the socket,
    whatever a peer sends: one that is neither the daemon's own user nor root
    is answered "not authorized" and nothing is run, and no connection changes
    any state unless it is of such a peer and carries one of the three
    commands exits.switch, rules.rollback and chinalist.sync.  For every
    command line of the tool: the same holds of the request it sends, which is
    never unknown to the daemon; and the tool ends with 0 only for its own help
    and version or when an authorised peer's command was answered OK. *)
Theorem ctl_perimeter args peer uid deadline nano (s : @CS Value Base) code s' :
  ctl_run args peer uid deadline nano s = (code, s') ->
  (forall msg, (unchanged s (conn peer uid deadline msg nano s).2 \/ authorised peer uid /\ exists r, msg = Decoded r /\ Cmd r ∈ changing) /\
     (authorised peer uid \/ conn peer uid deadline msg nano s = (Some (RError (str "not authorized")), s))) /\
  (unchanged s s' \/ authorised peer uid /\ exists r, cli_dispatch args = Send r /\ Cmd r ∈ changing) /\
  (code = 0 -> cli_dispatch args = Usage 0 \/ cli_dispatch args = Version \/
     authorised peer uid /\ exists r a, cli_dispatch args = Send r /\ (disp r nano s).1 = a /\ resp_ok a = true) /\
  (forall r m, cli_dispatch args = Send r -> (disp r nano s).1 <> RError (str "unknown cmd: " ++ m)).
Proof.
  unfold ctl_run. intros E. split; [intros msg; apply conn_perimeter|]. split; [|split].
  3:{ intros r m Hr. apply dispatch_known. exact (proj1 (cli_known _ _ Hr)). }
  - destruct (cli_dispatch args) as [c| | |r] eqn:EC; try (injection E as <- <-; left; apply unchanged_refl).
    destruct (proj1 (conn_perimeter peer uid deadline (Decoded r) nano s)) as [HU|(HA & r' & [= <-] & HC)]; [left|right; split; [done|by exists r]].
    unfold bind, ret in E. destruct (conn _ _ _ _ _ s) as [a s1]. by injection E as <- <-.
  - intros ->. destruct (cli_dispatch args) as [c| | |r] eqn:EC; [injection E as -> _; by left|by right; left|done|].
    right; right. unfold handleConn in E. destruct (match peer with Some p => authorize p uid | None => false end) eqn:EA; cbn [negb] in E; [|done].
    apply authorised_peer in EA. destruct deadline; cbn [negb] in E; [|done].
    unfold bind, ret in E. destruct (disp r nano s) as [a s1] eqn:ED. cbn in E. destruct (resp_ok a) eqn:EO; [|done].
    split; [done|]. exists r, a. by rewrite ED.
Qed.
End properties.

(** The panel reports a refresh only when the stored tag has changed: a
    server that sends no tag has its list installed and reported as not
    refreshed. *)
Module Demo.
#[local] Existing Instance ascii_tables.
Import ApplierSpec.Demo ApplyApi.Demo.

Definition list_body : bytes := str "server=/a.cn/1.1.1.1".
Definition untagged (_ : bytes) (_ : list (bytes * bytes)) : option Response :=
  Some {| StatusCode := 200; BodyData := list_body; BodyFails := false; h_ETag := []; h_LastModified := [] |}.
Definition source : bytes := str "https://lists.example/cn".
Definition path : bytes := str "/var/lib/5gpn/chinalist.txt".
Definition start : @CS unit unit := {| srv := s0; china := {| Chinalist.files := ∅; etags := ∅; outcomes := [] |} |}.
Definition panel_sync := handleChinalistSync base Chinalist.Demo.parse (fun _ => true) untagged Chinalist.Demo.fresh_name true source path [] (str "root") start.

Example not_refreshed :
  match panel_sync with
  | (Answered r, s) => s_Refreshed r = false /\ Chinalist.files (china s) !! path = Some list_body
  | _ => False
  end.
Proof. by vm_compute. Qed.

(** Without a configured path the panel refuses the download, the control
    socket does it at a path of its own. *)
Example path_defaults :
  (handleChinalistSync base Chinalist.Demo.parse (fun _ => true) untagged Chinalist.Demo.fresh_name true source [] [] (str "root") start).1
    = Refused 400 (str "chinalist_unconfigured") /\
  (cmdChinalistSync base Chinalist.Demo.parse (fun _ => true) untagged Chinalist.Demo.fresh_name true true source [] start).1 = RChina source path.
Proof. by vm_compute. Qed.

(** A request the tool never sends. *)
Definition forged : request := {| Cmd := str "chinalist.sync"; exit_id := Some (str "jp") |}.

Definition run (args : list bytes) (peer : Z) :=
  ctl_run Unmarshal any_name no_exit text noop base (@rev _) Chinalist.Demo.parse (fun _ => true) untagged Chinalist.Demo.fresh_name true true true
    source path (str "1.0") args (Some peer) 990 true 7 start.
Example codes : (run [str "version"] 990).1 = 0 /\ (run [str "version"] 1000).1 = 1 /\ (run [str "exits"] 990).1 = 2 /\
  (run [str "exits"; str "switch"; []] 0).1 = 1 /\ (run [str "help"] 1000).1 = 0 /\ (run [str "rules"; str "rollback"] 0).1 = 0.
Proof. by vm_compute. Qed.
End Demo.

#[local] Existing Instance ascii_tables.
Lemma ctl_perimeter_witness :
  unchanged Demo.start (Demo.run [str "rules"; str "rollback"] 1000).2 /\
  handleConn ApplierSpec.Demo.Unmarshal ApplierSpec.Demo.any_name ApplierSpec.Demo.no_exit ApplierSpec.Demo.text ApplierSpec.noop ApplierSpec.Demo.base
    (@rev _) Chinalist.Demo.parse (fun _ => true) Demo.untagged Chinalist.Demo.fresh_name true true true Demo.source Demo.path (str "1.0")
    (Some 1000) 990 true (Decoded Demo.forged) 7 Demo.start = (Some (RError (str "not authorized")), Demo.start).
Proof.
  assert (~ authorised (Some 1000) 990) as HN by (intros (p & Hp & Hr); injection Hp as <-; destruct Hr as [Hr|Hr]; discriminate Hr).
  destruct (ctl_perimeter ApplierSpec.Demo.Unmarshal ApplierSpec.Demo.any_name ApplierSpec.Demo.no_exit ApplierSpec.Demo.text ApplierSpec.noop ApplierSpec.Demo.base
    (@rev _) Chinalist.Demo.parse (fun _ => true) Demo.untagged Chinalist.Demo.fresh_name true true true Demo.source Demo.path (str "1.0")
    [str "rules"; str "rollback"] (Some 1000) 990 true 7 Demo.start _ _ (surjective_pairing _)) as (HC & HU & _).
  split.
  - destruct HU as [HU|[HA _]]; [exact HU|by exfalso].
  - destruct (HC (Decoded Demo.forged)) as [_ [HA|HE]]; [by exfalso|exact HE].
Defined.
