(* ===== verification/BotHandlers.v ===== *)
(** * The bot's handlers

    internal/tgbot/handlers_default.go and what cmd/5gpn/main.go wires into it
    ([buildTGBotExitState]): the texts of the commands over the tables, the
    applier and the files of /proc, and the reply a chat gets for an update
    (bot.go), with the panics that end the daemon.  Tgbot.v says which handler
    an update reaches.  The output of a command, the content of a file and the
    text of an error are parameters. *)
From S2P Require Import Prelude GoStrings GoNet GoCodec Rules Exit Orchestrator Db Applier ApplierSpec ApplyApi RulesApi Tgbot.
From S2P Require CtlSocket.
From Stdlib Require Import ZArith Lia.
Local Open Scope Z_scope.

(** What the handlers see of the host: [read] is [os.ReadFile], [runs] the
    combined output of a command and whether it ended with status zero. *)
Record HostView := { linux : bool; read : bytes -> option bytes; runs : list bytes -> bytes * bool }.

Inductive HErr :=
| EDb (e : DbErr) | EYAML (e : RuleError) | EApply (e : AErr) | EExit (e : ExitError) | ENotWired (what : bytes)
| ERead | ERun (argv : list bytes).

(** What a handler returns; a panic of the bot's goroutine ends the daemon. *)
Inductive Said := Says (text : bytes) | Fails (e : HErr) | Panics.

Definition line_feed : bytes := [Byte.x0a].
Definition code (s : bytes) : bytes := str "`" ++ s ++ str "`".
Definition dash : bytes := str "—".

(** ** The host's numbers *)
Section host.
Context (h : HostView).

Definition Uptime : bytes :=
  let unavailable := str "uptime: (unavailable off Linux)" in
  if linux h then
    match read h (str "/proc/uptime") with
    | Some raw => match Fields raw with f :: _ => str "uptime: `" ++ f ++ str "s`" | [] => unavailable end
    | None => unavailable
    end
  else unavailable.

Definition LoadAvg : bytes :=
  match (if linux h then read h (str "/proc/loadavg") else None) with
  | Some raw => str "load: " ++ code (TrimSpace raw)
  | None => str "load: (unavailable off Linux)"
  end.

(** The methods that read one file of /proc. *)
Definition from_proc (off_linux path : bytes) (f : bytes -> bytes) : Said :=
  if negb (linux h) then Says off_linux
  else match read h path with None => Fails ERead | Some raw => Says (f raw) end.

Definition mem_prefixes : list bytes := [str "MemTotal:"; str "MemAvailable:"; str "SwapTotal:"; str "SwapFree:"].
Definition mem_text (raw : bytes) : bytes :=
  str "*meminfo*" ++ line_feed ++
  concat (map (fun line => str "· " ++ TrimSpace line ++ line_feed)
              (filter (fun line => existsb (HasPrefix line) mem_prefixes = true) (Split raw Byte.x0a))).
Definition MemInfo : Said := from_proc (str "mem: (unavailable off Linux)") (str "/proc/meminfo") mem_text.

Definition CPUStat : Said := from_proc (str "cpu stat: (unavailable off Linux)") (str "/proc/stat") (fun raw =>
  match found (fun line => HasPrefix line (str "cpu ")) (Split raw Byte.x0a) with
  | Some line => str "cpu: " ++ code (TrimSpace line)
  | None => str "cpu: (no aggregate line)"
  end).

Definition TCPStat : Said := from_proc (str "tcp: (unavailable off Linux)") (str "/proc/net/tcp") (fun raw =>
  str "tcp sockets: " ++ code (strconv_Itoa (len (filter (fun c => c = Byte.x0a) raw) - 1))).

Definition NFConntrack : Said := from_proc (str "conntrack: (unavailable off Linux)")
  (str "/proc/sys/net/netfilter/nf_conntrack_count") (fun raw => str "conntrack: " ++ code (TrimSpace raw)).

(** [runShort]. *)
Definition runShort (argv : list bytes) (f : bytes -> bytes) : Said :=
  let '(out, ok) := runs h argv in if ok then Says (f (TrimSpace out)) else Fails (ERun argv).

Definition words (l : list String.string) : list bytes := map str l.
Definition fenced (name out : bytes) : bytes := name ++ str "```" ++ line_feed ++ out ++ line_feed ++ str "```".

Definition Route : Said := runShort (words ["ip"; "route"]%string) (fun out => out).
Definition ExitIP : Said := runShort (words ["curl"; "-sf"; "--max-time"; "6"; "https://ipinfo.io/ip"]%string)
  (fun out => str "host egress ip (not active-exit probe): " ++ code (TrimSpace out)).
Definition WireGuard : Said :=
  match runShort (words ["wg"; "show"]%string) (fun out => fenced (str "*wireguard*" ++ line_feed) out) with
  | Fails _ => Says (str "wireguard not installed / no interfaces")
  | s => s
  end.
Definition Dev : Said := runShort (words ["ip"; "-brief"; "link"; "show"]%string) (fun out => fenced (str "*interfaces*" ++ line_feed) out).
Definition JSON_ : Said := runShort (words ["ip"; "-json"; "-4"; "route"; "show"; "default"]%string)
  (fun out => str "```json" ++ line_feed ++ out ++ line_feed ++ str "```").
End host.

Definition WWW (IOSPort : Z) : bytes :=
  if IOSPort <=? 0 then str "iOS encrypted DNS profile: `/ios-dot.mobileconfig` on the panel HTTPS endpoint"
  else str "legacy iOS asset listener: `/ios-dot.mobileconfig` on :" ++ strconv_Itoa IOSPort.

Definition Start_ : bytes :=
  str "*5gpn bot*" ++ line_feed ++ str "send /menu for the interactive dashboard, or /status for one-shot health.".
Definition Menu : bytes := str "*menu* — tap a button, or type /help for the full command list.".
Definition Cancel (chat : Z) : bytes := str "ok (cancel · chat=" ++ strconv_Itoa chat ++ str ")".
Definition AsID (chat : Z) (from : bytes) : bytes := str "chat id: " ++ code (strconv_Itoa chat) ++ str " · user: " ++ code from.

(** ** [buildTGBotExitState] and the handlers over it *)
Record BotExit := { e_ID : bytes; e_Protocol : bytes; e_Server : bytes; e_Port : Z; e_Active : bool }.

Section bot.
Context `{Unicode} {Value Base : Type}.
Context (Unmarshal : bytes -> option (list Rule)) (IsDomainName : bytes -> bool)
  (ParseExit : bytes -> option (gmap bytes Value)) (text : AErr -> bytes)
  (orch : @Orch Value Base) (BaseConfig : option (@Config Value Base)).
Context (json_Unmarshal : bytes -> option (gmap bytes json)) (url_Parse : bytes -> option URL).
(** [d.ExitState != nil], [d.IOSPort], the host, the clock, and the text of
    an error. *)
Context (wired : bool) (IOSPort : Z) (h : HostView) (nano : Z) (show : HErr -> bytes).

Abbreviation W := (World (@Config Value Base) App).
Abbreviation BW A := (ST W A).

(** [Items]: an error leaves no exits; the result is [None] when parsing a
    stored URI panics. *)
Definition bot_exit_of (x : Db.Exit) : option BotExit :=
  (fun cfg => {| e_ID := x_ExitID x; e_Protocol := x_Protocol x;
                 e_Server := match cfg !! str "server" with Some (VStr s) => s | _ => [] end;
                 e_Port := match cfg !! str "port" with Some (VInt p) => p | _ => 0 end;
                 e_Active := x_Active x |}) <$> ProxyConfig json_Unmarshal url_Parse (x_Protocol x) (x_URI x).
Definition state_Items : AP (option (list BotExit)) :=
  let! r := on_db ListExits in ret (match r with Err _ => Some [] | Ok l => mapM bot_exit_of l end).
Definition state_Switch (id : bytes) : BW (option AErr) :=
  let! r := SwitchExit Unmarshal IsDomainName ParseExit text orch BaseConfig id nano in ret r.2.
Definition state_Add (id uri : bytes) : AP (res DbErr Db.Exit) := on_db (AddExit (parsed_type json_Unmarshal url_Parse) id uri).
Definition state_Delete (id : bytes) : AP (option AErr) := DeleteExit_ id.
Definition state_Active : AP bytes :=
  let! r := on_db ActiveExit in ret (match r with Ok e => x_ExitID e | Err _ => [] end).

(** *** handlers_default.go *)
Definition Status_ : AP Said :=
  let! active := (if wired then state_Active else ret dash) in
  ret (Says (str "*status*" ++ line_feed ++ Uptime h ++ line_feed ++ LoadAvg h ++ line_feed ++
             (match MemInfo h with Says s => s | _ => [] end) ++ line_feed ++ str "exit: " ++ code active)).

Definition no_exits : bytes := str "no exits configured".
Definition exit_line (e : BotExit) : bytes :=
  str (if e_Active e then "▶" else "·") ++ str " " ++ code (e_ID e) ++ str " " ++ e_Protocol e ++ str " " ++
  e_Server e ++ str ":" ++ strconv_Itoa (e_Port e) ++ line_feed.
Definition ListExits_ : AP Said :=
  if negb wired then ret (Says no_exits)
  else
    let! items := state_Items in
    ret (match items with
         | None => Panics
         | Some [] => Says no_exits
         | Some l => Says (str "*exits*" ++ line_feed ++ concat (map exit_line l))
         end).

Definition rule_line (r : Rule) : bytes :=
  str "· " ++ code (ID r) ++ str " " ++ kind r ++ str " " ++ Pattern r ++ str " → " ++ Action r ++
  str (if Enabled r then " (on)" else " (off)") ++ line_feed.
Definition ListRules_ : AP Said :=
  let! r := on_db GetActiveRuleVersion in
  ret (match r with
       | Err ErrNoRows => Says (str "no active rule version yet — apply from the panel first")
       | Err e => Fails (EDb e)
       | Ok v =>
           match ParseYAML IsDomainName Unmarshal (rv_RulesYAML v) with
           | Err e => Fails (EYAML e)
           | Ok set => Says (str "*rules* — " ++ strconv_Itoa (len set) ++ str " entries (v#" ++ strconv_Itoa (rv_ID v) ++ str ")" ++
                             line_feed ++ concat (map rule_line set))
           end
       end).

Definition SwitchExit_ (id : bytes) : BW Said :=
  if negb wired then ret (Fails (ENotWired (str "exit switching")))
  else let! e := state_Switch id in ret (match e with Some e => Fails (EApply e) | None => Says (str "switched to " ++ code id) end).

Definition AddExit_ (id uri : bytes) : AP Said :=
  match Exit.Parse json_Unmarshal url_Parse uri with
  | Panic => ret Panics
  | Fail e => ret (Fails (EExit e))
  | Ret _ =>
      if negb wired then ret (Fails (ENotWired (str "exit add")))
      else let! r := state_Add id uri in ret (match r with Err e => Fails (EDb e) | Ok _ => Says (str "added " ++ code id) end)
  end.

Definition DeleteExit__ (id : bytes) : AP Said :=
  if negb wired then ret (Fails (ENotWired (str "exit delete")))
  else let! e := state_Delete id in ret (match e with Some e => Fails (EApply e) | None => Says (str "deleted " ++ code id) end).

Definition unauthorized_entry (chat : Z) (from : bytes) : AuditEntry :=
  {| a_Actor := str "tgbot:" ++ from; a_Action := str "tgbot.unauthorized"; a_Target := strconv_Itoa chat; a_Result := str "denied" |}.
Definition RecordUnauthorized (chat : Z) (from : bytes) : AP unit :=
  let! _ := on_db (AppendAudit (unauthorized_entry chat from)) in ret tt.

(** A call of the interface; [RecordUnauthorized] says nothing. *)
Definition call (c : Call) : BW Said :=
  match c with
  | HStart _ => ret (Says Start_) | HMenu _ => ret (Says Menu)
  | HStatus => on_cp Status_ | HListExits => on_cp ListExits_ | HListRules => on_cp ListRules_
  | HSwitchExit id => SwitchExit_ id | HAddExit id uri => on_cp (AddExit_ id uri) | HDeleteExit id => on_cp (DeleteExit__ id)
  | HUptime => ret (Says (Uptime h)) | HLoadAvg => ret (Says (LoadAvg h)) | HMemInfo => ret (MemInfo h) | HCPUStat => ret (CPUStat h)
  | HTCPStat => ret (TCPStat h) | HNFConntrack => ret (NFConntrack h) | HRoute => ret (Route h) | HExitIP => ret (ExitIP h)
  | HWireGuard => ret (WireGuard h) | HDev => ret (Dev h) | HWWW => ret (Says (WWW IOSPort)) | HJSON => ret (JSON_ h)
  | HCancel chat => ret (Says (Cancel chat)) | HAsID chat from => ret (Says (AsID chat from))
  | HRecordUnauthorized chat from => let! _ := on_cp (RecordUnauthorized chat from) in ret (Says [])
  end.

(** [handleMessage] and [handleCallback]: the text sent to the chat; [None] is
    a panic, an empty text is not sent. *)
Definition said_text (s : Said) : option bytes :=
  match s with Says t => Some t | Fails e => Some (str "error: " ++ show e) | Panics => None end.
Definition current_exit (s : Said) : option bytes :=
  (fun t => str "*current exit*" ++ line_feed ++ line_feed ++ t) <$>
  match s with Says t => Some t | Fails e => Some (str "_error: " ++ show e ++ str "_") | Panics => None end.
Definition respond (r : Reply) : BW (option bytes) :=
  match r with
  | RCall c => let! s := call c in ret (said_text s)
  | RCurrentExit c => let! s := call c in ret (current_exit s)
  | RHelp => ret (Some (str "available commands:" ++ line_feed ++ Join DispatchCommands space))
  | RUnknown => ret (Some (str "unknown command — /menu to list options"))
  | RNothing => ret (Some [])
  end.

(** An update from Telegram to reply. *)
Definition bot_update (whitelist : gset Z) (u : Update) : BW (option bytes) :=
  match serve_update whitelist u with None => ret None | Some r => respond r end.
End bot.

(** ** Lemmas *)
Section lemmas.
Context `{Unicode} {Value Base : Type}.
Context (Unmarshal : bytes -> option (list Rule)) (IsDomainName : bytes -> bool)
  (ParseExit : bytes -> option (gmap bytes Value)) (text : AErr -> bytes)
  (orch : @Orch Value Base) (BaseConfig : option (@Config Value Base)).
Context (json_Unmarshal : bytes -> option (gmap bytes json)) (url_Parse : bytes -> option URL).
Context (wired : bool) (IOSPort : Z) (h : HostView) (nano : Z) (show : HErr -> bytes).
Abbreviation W := (World (@Config Value Base) App).
Abbreviation call := (call Unmarshal IsDomainName ParseExit text orch BaseConfig json_Unmarshal url_Parse wired IOSPort h nano).
Abbreviation bot_update := (bot_update Unmarshal IsDomainName ParseExit text orch BaseConfig json_Unmarshal url_Parse wired IOSPort h nano show).

(** The tables of [a'] are [d], up to the outcomes of later statements, and
    the rest of the applier and of the world is as it was. *)
Definition becomes (w : W) (d : Db) (w' : W) : Prop := exists d', eqt d d' /\ w' = upd_cp (set_db d' (cp w)) w.
Definition same (w w' : W) : Prop := becomes w (db (cp w)) w'.

Lemma same_refl w : same w w.
Proof. exists (db (cp w)). split; [done|]. by destruct w as [? ? ? ? [] ?]. Qed.

Lemma wp_bot_cp {A : Type} (m : AP A) (Q : A -> W -> Prop) w : wp m (fun x a => Q x (upd_cp a w)) (cp w) -> wp (on_cp m) Q w.
Proof. unfold wp, on_cp. by destruct (m (cp w)). Qed.

(** A handler that only reads. *)
Definition reads {A : Type} (m : AP A) : Prop := forall a0, keeps (CtlSocket.quiet a0) m.

Lemma reads_same {A : Type} (m : AP A) w : reads m -> wp (on_cp m) (fun _ w' => same w w') w.
Proof.
  intros Hm. apply wp_bot_cp. unfold wp. specialize (Hm (cp w) (cp w) (CtlSocket.quiet_refl _)). destruct (m (cp w)) as [x a]. cbn in Hm.
  destruct Hm as [l ->]. exists (set_db_faults l (db (cp w))). split; [|done]. by destruct (db (cp w)).
Qed.

Lemma reads_ret {A : Type} (x : A) : reads (ret x).
Proof. intros a0. apply keeps_ret. Qed.
Lemma reads_bind_ret {A B : Type} (m : AP A) (f : A -> B) : reads m -> reads (let! x := m in ret (f x)).
Proof. intros Hm a0. apply keeps_bind; [apply Hm|]. intros x. apply keeps_ret. Qed.
Lemma reads_query {A B : Type} (f : Db -> res DbErr A) (k : res DbErr A -> AP B) :
  (forall r, reads (k r)) -> reads (let! r := on_db (query f) in k r).
Proof. intros Hk a0. apply keeps_bind; [apply CtlSocket.quiet_query|]. intros r. apply Hk. Qed.

(** What a call of the interface does to the state. *)
Definition call_effect (c : Call) (w w' : W) : Prop :=
  let d := db (cp w) in
  match c with
  | HSwitchExit _ => True
  | HAddExit id uri =>
      same w w' \/
      exists x, x_ExitID x = id /\ x_Active x = false /\ find_exit id d = None /\
        becomes w (set_exits (tbl_insert (fun _ => x) (exits d)) d) w'
  | HDeleteExit id =>
      same w w' \/
      exists x, find_exit id d = Some x /\ x_Active x = false /\
        becomes w (set_exits (tbl_filter (fun r => x_ExitID r != id) (exits d)) d) w'
  | HRecordUnauthorized chat from =>
      same w w' \/ becomes w (set_audit_log (audit_log d ++ [unauthorized_entry chat from]) d) w'
  | _ => same w w'
  end.

Lemma becomes_now w d l : becomes w d (upd_cp (set_db (set_db_faults l d) (cp w)) w).
Proof. exists (set_db_faults l d). split; [apply eqt_faults|done]. Qed.

Lemma same_upd w : same w (upd_cp (cp w) w).
Proof. exists (db (cp w)). split; [done|]. by destruct (cp w). Qed.

Lemma same_db w : same w (upd_cp (set_db (db (cp w)) (cp w)) w).
Proof. by exists (db (cp w)). Qed.

(** A failed statement. *)
Lemma same_now w l : same w (upd_cp (set_db (set_db_faults l (db (cp w))) (cp w)) w).
Proof. apply becomes_now. Qed.

Lemma bot_add_effect id uri w :
  wp (on_cp (AddExit_ json_Unmarshal url_Parse wired id uri)) (fun _ w' => call_effect (HAddExit id uri) w w') w.
Proof.
  apply wp_bot_cp. unfold AddExit_. assert (call_effect (HAddExit id uri) w (upd_cp (cp w) w)) as H0 by (left; apply same_upd).
  destruct (Exit.Parse _ _ uri); try (by apply wp_ret). destruct wired; cbn [negb]; [|by apply wp_ret].
  apply wp_bind. unfold state_Add, AddExit. destruct (exitIDRE id); cbn [negb]; [|apply wp_db_step, wp_ret; cbv beta; apply wp_ret; left; apply same_db].
  destruct (if _ || _ then _ else _) as [protocol|]; [|apply wp_db_step, wp_ret; cbv beta; apply wp_ret; left; apply same_db].
  apply exec_on_db; [intros; apply wp_ret; left; apply same_now|]. intros x d l Hx. destruct (find_exit id _) eqn:EF; [done|].
  injection Hx as <- <-. apply wp_ret. right.
  exists {| x_RowID := seq (exits (db (cp w))) + 1; x_ExitID := id; x_Protocol := protocol; x_URI := uri; x_Active := false; x_Created := now (db (cp w)) |}.
  split; [done|]. split; [done|]. split; [exact EF|].
  refine (ex_intro _ _ (conj (eqt_faults _ l) _)). reflexivity.
Qed.

Lemma bot_delete_effect id w :
  wp (on_cp (DeleteExit__ wired id)) (fun _ w' => call_effect (HDeleteExit id) w w') w.
Proof.
  apply wp_bot_cp. unfold DeleteExit__. destruct wired; cbn [negb]; [|apply wp_ret; left; apply same_upd].
  apply wp_bind. unfold state_Delete. apply (wp_mono _ (fun _ a => call_effect (HDeleteExit id) w (upd_cp a w))); [|intros; by apply wp_ret].
  unfold wp, DeleteExit_. destruct (0 <? _); [left; apply same_upd|].
  cut (wp (on_db (DeleteExit id)) (fun _ a => call_effect (HDeleteExit id) w (upd_cp a w)) (cp w)).
  { unfold wp. by destruct (on_db (DeleteExit id) (cp w)). }
  unfold DeleteExit. apply wp_db_step, wp_bindE. eapply wp_mono; [apply wp_query_full|]. intros [e|x] d [HE HQ]; apply eqt_inv in HE as [l ->].
  { left. apply same_now. }
  destruct HQ as [HQ|[l' HQ]]; [done|]. change (find_exit id (set_db_faults l' (db (cp w)))) with (find_exit id (db (cp w))) in HQ.
  destruct (find_exit id (db (cp w))) as [y|] eqn:EF; [injection HQ as ->|done].
  destruct (x_Active x) eqn:EA; [apply wp_ret; left; apply same_now|]. apply wp_bindE. eapply wp_mono; [apply wp_exec|].
  intros [e|n] d Hd; cbn in Hd; [apply eqt_inv in Hd as [l2 ->]; left; apply same_now|].
  destruct Hd as [l2 [= _ <-]].
  assert (call_effect (HDeleteExit id) w (upd_cp (set_db (set_exits (tbl_filter (fun r => x_ExitID r != id) (exits (db (cp w)))) (set_db_faults l2 (db (cp w)))) (cp w)) w)) as HR.
  { right. exists x. split; [exact EF|]. split; [exact EA|]. refine (ex_intro _ _ (conj (eqt_faults _ l2) _)). reflexivity. }
  destruct (n =? 0); by apply wp_ret.
Qed.

Lemma call_effects c w : wp (call c) (fun _ w' => call_effect c w w') w.
Proof.
  destruct c; cbn [BotHandlers.call call_effect]; try (apply wp_ret, same_refl); try (by apply wp_any).
  - apply reads_same. unfold Status_. apply reads_bind_ret. destruct wired; [|apply reads_ret].
    apply reads_query. intros r. apply reads_ret.
  - apply reads_same. unfold ListExits_. destruct wired; cbn [negb]; [|apply reads_ret]. apply reads_bind_ret.
    apply reads_query. intros r. apply reads_ret.
  - apply reads_same, reads_query. intros r. apply reads_ret.
  - apply bot_add_effect.
  - apply bot_delete_effect.
  - apply wp_bind, wp_bot_cp, wp_bind, exec_on_db; [intros; apply wp_ret, wp_ret; left; apply same_now|].
    intros [] d l [= <-]. apply wp_ret, wp_ret. right. apply (becomes_now w (set_audit_log _ (db (cp w))) l).
Qed.

(** What the dispatcher calls: never the recorder of strangers, and [/a] only
    the list of exits. *)
Definition dispatched (r : Reply) : Prop :=
  match r with RCall (HRecordUnauthorized _ _) => False | RCurrentExit c => c = HListExits | _ => True end.

Lemma Dispatch_dispatched cmd args msg r : Dispatch cmd args msg = Some r -> dispatched r.
Proof.
  unfold Dispatch. repeat (match goal with |- (if ?b then _ else _) = _ -> _ => destruct b end; [try (intros [= <-]; exact I); try (intros [= <-]; reflexivity)|]).
  - intros [= <-]. destruct args as [|sub [|id rest]]; try exact I.
    destruct (sub == str "switch"); [exact I|]. destruct (_ && _); [exact I|]. by destruct (sub == str "del").
  - destruct (From msg); [|done]. by intros [= <-].
  - destruct (HasPrefix cmd (str "/")); by intros [= <-].
Qed.

Lemma serve_dispatched whitelist u r : serve_update whitelist u = Some r ->
  dispatched r \/ exists c from, r = RCall (HRecordUnauthorized c from) /\ chat_of u = Some c /\ c ∉ whitelist.
Proof.
  destruct u as [m|m data|]; cbn [serve_update]; [| |intros [= <-]; by left].
  - destruct (negb (allowed _ _) && _) eqn:EA.
    + apply andb_true_iff in EA as [EA%negb_true_iff%bool_decide_eq_false _]. destruct (From m) as [from|]; [|done]. intros [= <-].
      right. by exists (ChatID m), from.
    + unfold handleMessage. case_bool_decide; [intros [= <-]; by left|]. destruct (splitCommand _). intros HD%Dispatch_dispatched. by left.
  - unfold handleCallback. destruct m as [m|]; [|intros [= <-]; by left]. destruct (negb _); [intros [= <-]; by left|].
    destruct (splitCommand _). intros HD%Dispatch_dispatched. by left.
Qed.

Definition changing (c : Call) : Prop := match c with HSwitchExit _ | HAddExit _ _ | HDeleteExit _ => True | _ => False end.
Definition recorded (w : W) (c : Z) (w' : W) : Prop :=
  exists from, becomes w (set_audit_log (audit_log (db (cp w)) ++ [unauthorized_entry c from]) (db (cp w))) w'.

Lemma respond_effect r w :
  wp (respond Unmarshal IsDomainName ParseExit text orch BaseConfig json_Unmarshal url_Parse wired IOSPort h nano show r)
     (fun _ w' => match r with RCall c | RCurrentExit c => call_effect c w w' | _ => same w w' end) w.
Proof. destruct r; cbn [respond]; try (apply wp_ret, same_refl); apply wp_bind; (eapply wp_mono; [apply call_effects|]); intros; by apply wp_ret. Qed.
End lemmas.

(** ** Properties *)
Section properties.
Context `{Unicode} {Value Base : Type}.
Context (Unmarshal : bytes -> option (list Rule)) (IsDomainName : bytes -> bool)
  (ParseExit : bytes -> option (gmap bytes Value)) (text : AErr -> bytes)
  (orch : @Orch Value Base) (BaseConfig : option (@Config Value Base)).
Context (json_Unmarshal : bytes -> option (gmap bytes json)) (url_Parse : bytes -> option URL).
Context (wired : bool) (IOSPort : Z) (h : HostView) (nano : Z) (show : HErr -> bytes).

(** C35: what one Telegram update can do to the gateway, from the text of the
    message to the tables.  A chat that is not on the whitelist gets no reply,
    or its own number and name, and leaves at most one audit row with that
    number.  Any update leaves the tables, the applier and the world as they
    were, or leaves that row, or comes from a whitelisted chat and is one of
    the three commands that change exits: an added exit is one new inactive
    row under a free name, a deleted one was inactive, and every other exit
    stays. *)
Theorem bot_perimeter whitelist u (w w' : World (@Config Value Base) App) r :
  bot_update Unmarshal IsDomainName ParseExit text orch BaseConfig json_Unmarshal url_Parse wired IOSPort h nano show whitelist u w = (r, w') ->
  (forall c, chat_of u = Some c -> c ∉ whitelist ->
     (r = None \/ r = Some [] \/ exists from, r = Some (AsID c from)) /\ (same w w' \/ recorded w c w')) /\
  (same w w' \/
   (exists c, chat_of u = Some c /\ c ∉ whitelist /\ recorded w c w') \/
   exists c cl, chat_of u = Some c /\ c ∈ whitelist /\ serve_update whitelist u = Some (RCall cl) /\ changing cl /\ call_effect cl w w').
Proof.
  unfold bot_update. intros E. destruct (serve_update whitelist u) as [rep|] eqn:ES; [|injection E as <- <-; split; [intros; split; [by left|left; apply same_refl]|left; apply same_refl]].
  pose proof (wp_elim _ _ _ _ _ (respond_effect _ _ _ _ _ _ _ _ _ _ _ _ _ rep w) E) as HE. cbv beta in HE. split.
  - intros c Hc Hno. destruct (unauthorized_inert whitelist u c rep Hc Hno ES) as [->|[from [->|[-> _]]]].
    + injection E as <- <-. split; [by right; left|left; apply same_refl].
    + split; [|destruct HE as [HE|HE]; [by left|right; by exists from]]. unfold respond, bind in E. cbn [call] in E. unfold bind at 1 in E.
      destruct (on_cp _ w). injection E as <- _. by right; left.
    + injection E as <- <-. split; [right; right; by exists from|left; apply same_refl].
  - destruct (serve_dispatched _ _ _ ES) as [HD|(c & from & -> & Hc & Hno)].
    + destruct rep as [cl|cl| | |]; try (by left); [|cbn in HD; subst cl; by left].
      destruct cl; try (by left); try done; right; right.
      all: destruct (chat_of u) as [c|] eqn:EC; [|by destruct u as [|[|]|]].
      all: destruct (decide (c ∈ whitelist)) as [Hin|Hno]; [by eexists c, _|].
      all: exfalso; by destruct (unauthorized_inert whitelist u c _ EC Hno ES) as [HU|[from [HU|[HU _]]]].
    + destruct HE as [HE|HE]; [by left|]. right; left. exists c. split; [done|]. split; [done|]. by exists from.
Qed.
End properties.

(** ** Concrete runs *)
Module Demo.
#[local] Existing Instance ascii_tables.
Import ApplierSpec.Demo ApplyApi.Demo RulesApi.Demo.

Definition host : HostView :=
  {| linux := true;
     read := fun p => if p == str "/proc/uptime" then Some (str "12.5 3.0") else if p == str "/proc/loadavg" then Some (str "0.1 0.2 ") else None;
     runs := fun argv => (str "default via 192.0.2.1 ", true) |}.
Definition admins : gset Z := {[ 7 ]}.
Definition said (chat : Z) (t : bytes) : Update := UMessage {| ChatID := chat; From := Some (str "eve"); Text := t |}.
Definition update (u : Update) := bot_update Unmarshal any_name no_exit text noop base no_json no_url true 0 host 5 (fun _ => str "failed") admins u (w0 []).

Example uptime_admin : (update (said 7 (str "/uptime@gw_bot"))).1 = Some (str "uptime: `12.5s`").
Proof. by vm_compute. Qed.
Example id_stranger : (update (said 9 (str "/id"))).1 = Some (str "chat id: `9` · user: `eve`").
Proof. by vm_compute. Qed.
Example switch_stranger : (update (said 9 (str "/exits switch direct"))).1 = Some [] /\
  audit_log (db (cp (update (said 9 (str "/exits switch direct"))).2)) = audit_log (db (cp (w0 []))) ++ [unauthorized_entry 9 (str "eve")].
Proof. by vm_compute. Qed.
Example add_admin : (update (said 7 (str "/exits add jp2 socks5://192.0.2.1:1080"))).1 = Some (str "added `jp2`").
Proof. by vm_compute. Qed.

(** A mistyped link takes the daemon down: the parser's panic is not
    recovered in the bot's goroutine. *)
Example add_kills : (update (said 7 (str "/exits add x ss://YWJjQGhvc3Q6ODA="))).1 = None.
Proof. by vm_compute. Qed.

(** An added exit leaves no audit row, unlike the panel's. *)
Example add_unaudited : audit_log (db (cp (update (said 7 (str "/exits add jp2 socks5://192.0.2.1:1080"))).2)) = audit_log (db (cp (w0 []))).
Proof. by vm_compute. Qed.

Lemma bot_perimeter_witness :
  let u := said 9 (str "/exits del jp") in same (w0 []) (update u).2 \/ recorded (w0 []) 9 (update u).2.
Proof.
  destruct (bot_perimeter Unmarshal any_name no_exit text noop base no_json no_url true 0 host 5 (fun _ => str "failed") admins (said 9 (str "/exits del jp"))
    (w0 []) (update (said 9 (str "/exits del jp"))).2 (update (said 9 (str "/exits del jp"))).1 (surjective_pairing _)) as [HS _].
  apply (HS 9); [reflexivity|]. apply (bool_decide_eq_true_1 _). by vm_compute.
Defined.
End Demo.
