(* ===== verification/Boot.v ===== *)
(** * Booting the daemon: secrets, exits and the rules in force

    The first half of [run] in cmd/5gpn/main.go: the session key, the setup
    token, the exits of the configuration file, the effective configuration,
    the choice of the orchestrator and the first table the resolver serves.
    The listeners are BootNet.v's.  The random generator, the host's answer
    to the search for systemctl and the exit parser are parameters. *)
From S2P Require Import Prelude GoStrings GoNet Crypto Rules RuleTable Exit Host Orchestrator Db Applier ApplierSpec ApplyApi RulesApi.
From S2P Require CtlSocket.
From Stdlib Require Import ZArith Lia.
Local Open Scope Z_scope.
#[local] Abbreviation parse_yaml := Rules.ParseYAML.

(** ** The session key *)

(** [os.WriteFile]: a file that exists keeps its mode. *)
Definition WriteFile (path body : bytes) (perm : Z) : ST Host (res FsErr unit) :=
  let? _ := sys EIO (fun fs => <[path := {| Body := []; Perm := match fs !! path with Some f => Perm f | None => perm end |}]> fs) in
  Write path body.

Definition mode600 : Z := 384.
Inductive KeyErr := KeyShort | KeyChmod | KeyRead | KeyRandom | KeyWrite.

(** [random] is what [rand.Read] puts into the 64 bytes. *)
Definition loadOrCreateJWTSecret (path : bytes) (random : option bytes) : ST Host (res KeyErr bytes) :=
  let! r := ReadFile path in
  match r with
  | Ok raw =>
      if len raw <? 32 then ret (Err KeyShort)
      else
        let? _ := io (fun _ => KeyChmod) (Chmod path mode600) in
        ret (Ok raw)
  | Err NotExist =>
      match random with
      | None => ret (Err KeyRandom)
      | Some buf =>
          let? _ := io (fun _ => KeyWrite) (WriteFile path buf mode600) in
          ret (Ok buf)
      end
  | Err _ => ret (Err KeyRead)
  end.

(** [randomHex]. *)
Definition randomHex (random : option bytes) : option bytes := hex_encode <$> random.

(** ** The orchestrator *)
Definition orchestrator_mode (mode : bytes) (AvailableOnHost : bool) : option bool :=
  if mode == str "systemd" then Some true
  else if mode == str "noop" then Some false
  else if (mode == str "auto") || (mode == []) then Some AvailableOnHost
  else None.

(** ** The exits of the file and the start of the applier *)
Inductive BootErr := BKey (e : KeyErr) | BUsers (e : DbErr) | BRandom | BSeed (e : DbErr) | BAssemble (e : AErr) | BMode.

Section boot.
Context `{Unicode} {Value Base : Type}.
Context (Unmarshal : bytes -> option (list Rule)) (IsDomainName : bytes -> bool)
  (ParseExit : bytes -> option (gmap bytes Value)) (BaseConfig : option (@Config Value Base)).
Context (json_Unmarshal : bytes -> option (gmap bytes json)) (url_Parse : bytes -> option URL).

(** [store.Add] as the boot calls it; [None]: the parser panics. *)
Definition add_panics (id uri : bytes) : bool :=
  exitIDRE id && negb ((id == directProtocol) || (uri == directURI)) &&
  match Exit.Parse json_Unmarshal url_Parse uri with Panic => true | _ => false end.

Fixpoint seed_loop (yamlExits : list (bytes * bytes)) : AP (option unit) :=
  match yamlExits with
  | [] => ret (Some tt)
  | (id, uri) :: rest =>
      if id == directProtocol then seed_loop rest
      else if uri == [] then seed_loop rest
      else if add_panics id uri then ret None
      else let! _ := on_db (AddExit (parsed_type json_Unmarshal url_Parse) id uri) in seed_loop rest
  end.

(** [seedExitsFromYAML]; an exit of the file is its id and its [config.uri],
    empty when there is none. *)
Definition only_direct (l : list Db.Exit) : bool := match l with [x] => x_ExitID x == directProtocol | _ => false end.
Definition seedExitsFromYAML (yamlExits : list (bytes * bytes)) : AP (option (res DbErr unit)) :=
  if yamlExits == [] then ret (Some (Ok tt))
  else
    let! r := on_db ListExits in
    match r with
    | Err e => ret (Some (Err e))
    | Ok l => if only_direct l then let! r := seed_loop yamlExits in ret (Ok <$> r) else ret (Some (Ok tt))
    end.

(** The setup token: minted when the panel has no user. *)
Definition setup_token (random : option bytes) : AP (res BootErr bytes) :=
  let! n := on_db CountPanelUsers in
  ret (match n with
       | Err e => Err (BUsers e)
       | Ok n => if n =? 0 then match randomHex random with Some t => Ok t | None => Err BRandom end else Ok []
       end).

(** What a new process knows of a database: nothing is in flight and no table
    is published. *)
Definition fresh_app (d : Db) : App := MkApp d (Some {| gen := 0; cur := None |}) ∅ ∅ ∅ ∅ [] false.

Record Booted := { b_secret : bytes; b_token : bytes; b_systemd : bool; b_config : @Config Value Base }.
Record Machine := { host : Host; app : App }.
Definition on_host {A} (m : ST Host A) : ST Machine A := fun s => let '(a, h) := m (host s) in (a, {| host := h; app := app s |}).
Definition on_app {A} (m : AP A) : ST Machine A := fun s => let '(a, x) := m (app s) in (a, {| host := host s; app := x |}).

(** [run] from the key to the published table; [None] is a panic. *)
Definition boot (keyPath : bytes) (random64 random32 : option bytes) (yamlExits : list (bytes * bytes))
    (mode : bytes) (AvailableOnHost : bool) : ST Machine (option (res BootErr Booted)) :=
  let! k := on_host (loadOrCreateJWTSecret keyPath random64) in
  match k with
  | Err e => ret (Some (Err (BKey e)))
  | Ok secret =>
      let! t := on_app (setup_token random32) in
      match t with
      | Err e => ret (Some (Err e))
      | Ok token =>
          let! s := on_app (seedExitsFromYAML yamlExits) in
          match s with
          | None => ret None
          | Some (Err e) => ret (Some (Err (BSeed e)))
          | Some (Ok _) =>
              let! c := on_app (Assemble Unmarshal IsDomainName ParseExit BaseConfig) in
              match c with
              | Err e => ret (Some (Err (BAssemble e)))
              | Ok cfg =>
                  match orchestrator_mode mode AvailableOnHost with
                  | None => ret (Some (Err BMode))
                  | Some systemd =>
                      let! _ := on_app (publish (BuildTable (EffectiveRules cfg))) in
                      ret (Some (Ok {| b_secret := secret; b_token := token; b_systemd := systemd; b_config := cfg |}))
                  end
              end
          end
      end
  end.
End boot.

(** ** Lemmas: the key *)
Lemma wp_WriteFile path body perm (Q : res FsErr unit -> Host -> Prop) w :
  (forall l, Q (Err EIO) (set_faults l w)) ->
  (forall l b p, Q (Err EIO) (set_faults l (set_files (<[path := {| Body := b; Perm := p |}]> (files w)) w))) ->
  (forall l, Q (Ok tt) (set_faults l (set_files (<[path := {| Body := body; Perm := match files w !! path with Some f => Perm f | None => perm end |}]> (files w)) w))) ->
  wp (WriteFile path body perm) Q w.
Proof.
  intros HE HP HO. unfold WriteFile. apply wp_bindE, wp_sys; [intros l; apply HE|]. intros l.
  apply wp_write_file; intros; cbn [files set_faults set_files faults answers ran]; rewrite alter_insert_eq; cbn; [apply HP|apply HO].
Qed.

(** A key on disk: long enough, for the owner only. *)
Definition key_file (path key : bytes) (w : Host) : Prop :=
  32 <= len key /\ files w !! path = Some {| Body := key; Perm := mode600 |}.
Definition others_kept (path : bytes) (w w' : Host) : Prop := forall q, q <> path -> files w' !! q = files w !! q.

Lemma wp_key path random w : (forall b, random = Some b -> len b = 64) ->
  wp (loadOrCreateJWTSecret path random) (fun r w' =>
    others_kept path w w' /\
    (forall f, files w !! path = Some f -> exists p, files w' !! path = Some {| Body := Body f; Perm := p |}) /\
    match r with
    | Ok key => key_file path key w' /\
        match files w !! path with Some f => Body f = key | None => random = Some key end
    | Err _ => True
    end) w.
Proof.
  intros HR. unfold loadOrCreateJWTSecret. apply wp_bind, wp_read.
  - intros l. apply wp_ret. split; [done|]. split; [|done]. intros [b p] Hf. by exists p.
  - intros l Hn. assert (forall r : res KeyErr bytes, (forall k, r <> Ok k) ->
      wp (ret r) (fun r w' => others_kept path w w' /\
    (forall f, files w !! path = Some f -> exists p, files w' !! path = Some {| Body := Body f; Perm := p |}) /\
    match r with Ok key => key_file path key w' /\ match files w !! path with Some f => Body f = key | None => random = Some key end | Err _ => True end) (set_faults l w)) as HF.
    { intros r Hr. apply wp_ret. split; [done|]. split; [by rewrite Hn|]. destruct r as [|k]; [done|]. by destruct (Hr k). }
    destruct random as [buf|]; [|by apply HF]. apply wp_bindE, wp_io, wp_WriteFile; cbv beta iota.
    + intros k. split; [done|]. split; [by rewrite Hn|done].
    + intros k b p. split; [|split; [by rewrite Hn|done]]. intros q Hq. cbn. by rewrite lookup_insert_ne.
    + intros k. apply wp_ret. cbn [files set_faults set_files]. rewrite Hn. split; [|split; [done|split; [|done]]].
      * intros q Hq. cbn. by rewrite lookup_insert_ne.
      * split; [rewrite (HR buf eq_refl); lia|]. cbn. by rewrite lookup_insert_eq.
  - intros l f Hf. destruct (Z.ltb_spec (len (Body f)) 32) as [Hs|Hs].
    + apply wp_ret. split; [done|]. split; [|done]. intros [b p] Hf'. by exists p.
    + apply wp_bindE, wp_io, wp_sys; cbv beta iota.
      * intros k. split; [done|]. split; [|done]. intros [b p] Hf'. by exists p.
      * intros k. apply wp_ret. cbn [files set_faults set_files]. rewrite Hf. split; [|split].
        -- intros q Hq. cbn. by rewrite lookup_alter_ne.
        -- intros f' [= <-]. exists mode600. cbn. by rewrite lookup_alter_eq, Hf.
        -- split; [|done]. split; [done|]. cbn. by rewrite lookup_alter_eq, Hf.
Qed.

(** ** Lemmas: the tables *)
Section tables.
Context `{Unicode} {Value Base : Type}.
Context (Unmarshal : bytes -> option (list Rule)) (IsDomainName : bytes -> bool)
  (ParseExit : bytes -> option (gmap bytes Value)) (BaseConfig : option (@Config Value Base)).
Context (json_Unmarshal : bytes -> option (gmap bytes json)) (url_Parse : bytes -> option URL).
Abbreviation seed := (seedExitsFromYAML json_Unmarshal url_Parse).
Abbreviation seed_all := (seed_loop json_Unmarshal url_Parse).

Lemma AddExit_tables R P i u : keeps (tables R) (AddExit P i u).
Proof. 
  apply keeps_and; [apply AddExit_keeps|]. unfold AddExit. destruct (negb _); [apply keeps_ret|].
  destruct (if _ || _ then _ else _); [|apply keeps_ret]. apply keeps_exec; [by intros ???|]. intros d x d'. destruct (find_exit i d); [done|]. by intros [= <- <-].
Qed.

Lemma seed_loop_K R S M V y : keeps (K R S M V) (seed_all y).
Proof.
  induction y as [|[id uri] y IH]; cbn [seed_loop]; [apply keeps_ret|].
  destruct (id == directProtocol); [done|]. destruct (uri == []); [done|]. destruct (add_panics _ _ id uri); [apply keeps_ret|].
  apply keeps_bind; [apply on_db_K, AddExit_tables|]. done.
Qed.

Lemma seed_K R S M V y : keeps (K R S M V) (seed y).
Proof.
  unfold seedExitsFromYAML, ListExits. destruct (y == []); [apply keeps_ret|]. apply keeps_bind; [apply on_db_K, keeps_query_tables|].
  intros [e|l]; [apply keeps_ret|]. destruct (only_direct l); [|apply keeps_ret]. apply keeps_bind; [apply seed_loop_K|]. intros. apply keeps_ret.
Qed.

Lemma setup_token_K R S M V random : keeps (K R S M V) (setup_token random).
Proof. unfold setup_token, CountPanelUsers. apply keeps_bind; [apply on_db_K, keeps_query_tables|]. intros. apply keeps_ret. Qed.

(** What seeding adds. *)
Definition seeded (y : list (bytes * bytes)) (x : Db.Exit) : Prop :=
  x_Active x = false /\ x_ExitID x <> directProtocol /\ exists uri, (x_ExitID x, uri) ∈ y.
Definition extends (y : list (bytes * bytes)) (a a' : App) : Prop :=
  exists l, rows (exits (db a')) = rows (exits (db a)) ++ l /\ Forall (seeded y) l.

Lemma boot_extends_refl y a l : extends y a (set_db (set_db_faults l (db a)) a).
Proof. exists []. by rewrite app_nil_r. Qed.

Lemma extends_cons p y a b c : extends [p] a b -> extends y b c -> extends (p :: y) a c.
Proof.
  intros (l & El & Hl) (m & Em & Hm). exists (l ++ m). rewrite Em, El, app_assoc. split; [done|]. apply Forall_app. split.
  - eapply Forall_impl; [exact Hl|]. intros x (H1 & H2 & uri & H3). split; [done|]. split; [done|]. exists uri. apply list_elem_of_singleton in H3 as ->. left.
  - eapply Forall_impl; [exact Hm|]. intros x (H1 & H2 & uri & H3). split; [done|]. split; [done|]. exists uri. by right.
Qed.

Lemma extends_skip p y a c : extends y a c -> extends (p :: y) a c.
Proof. apply extends_cons. exists []. by rewrite app_nil_r. Qed.

Lemma AddExit_extends P id uri a : id <> directProtocol -> wp (on_db (AddExit P id uri)) (fun _ a' => extends [(id, uri)] a a') a.
Proof.
  intros Hid. unfold AddExit. assert (extends [(id, uri)] a (set_db (db a) a)) as H0 by (exists []; by rewrite app_nil_r).
  destruct (negb _); [by apply wp_db_step, wp_ret|]. destruct (if _ || _ then _ else _) as [protocol|]; [|by apply wp_db_step, wp_ret].
  apply exec_on_db; [intros; apply boot_extends_refl|]. intros x d l Hx. destruct (find_exit id _); [done|]. injection Hx as <- <-.
  eexists. split; [reflexivity|]. constructor; [|done]. split; [done|]. split; [done|]. exists uri. left.
Qed.

Lemma seed_loop_extends y a : wp (seed_all y) (fun _ a' => extends y a a') a.
Proof.
  revert a. induction y as [|[id uri] y IH]; intros a; cbn [seed_loop]; [apply wp_ret; exists []; by rewrite app_nil_r|].
  assert (wp (seed_all y) (fun _ a' => extends ((id, uri) :: y) a a') a) as HS by (eapply wp_mono; [apply IH|]; intros; by apply extends_skip).
  case_bool_decide as Hd; [exact HS|]. destruct (uri == []); [exact HS|].
  destruct (add_panics _ _ id uri); [apply wp_ret; exists []; by rewrite app_nil_r|].
  apply wp_bind. eapply wp_mono; [by apply AddExit_extends|]. cbv beta. intros _ a1 H1.
  eapply wp_mono; [apply IH|]. cbv beta. intros _ a2 H2. by eapply extends_cons.
Qed.

(** Only a table that holds nothing but the built-in exit is seeded. *)
Lemma seed_extends y a : wp (seed y) (fun _ a' => extends y a a' /\
  (rows (exits (db a')) <> rows (exits (db a)) -> exists x, rows (exits (db a)) = [x] /\ x_ExitID x = directProtocol)) a.
Proof.
  unfold seedExitsFromYAML. assert (forall l, extends y a (set_db (set_db_faults l (db a)) a) /\ (rows (exits (db (set_db (set_db_faults l (db a)) a))) <> rows (exits (db a)) -> exists x, rows (exits (db a)) = [x] /\ x_ExitID x = directProtocol)) as H0.
  { intros l. split; [apply boot_extends_refl|done]. }
  destruct (y == []); [apply wp_ret; split; [exists []; by rewrite app_nil_r|done]|].
  apply wp_bind, query_on_db; [intros l; apply wp_ret, H0|]. intros l l'.
  destruct (only_direct _) eqn:EO; [|apply wp_ret, H0]. apply wp_bind. eapply wp_mono; [apply seed_loop_extends|].
  cbv beta. intros r a' HE. apply wp_ret. split; [exact HE|]. intros _. unfold only_direct in EO.
  pose proof (stable_sort_perm exit_leb (rows (exits (db a)))) as HP. cbn [exits set_db_faults] in EO.
  revert HP EO. generalize (stable_sort exit_leb (rows (exits (db a)))). intros [|x [|]] HP EO; [done| |done].
  apply Permutation_singleton_r in HP. apply bool_decide_eq_true in EO. by exists x.
Qed.
End tables.

(** ** Properties *)

(** the session key: a boot that gets a key has it on disk, at least 32 bytes
    and for the owner only; a key that is there is the one used and is never
    changed, whatever fails, so the sessions of the panel survive every later
    boot that starts; and no other file is touched. *)
Theorem session_key_stable path r1 r2 w w1 w2 w3 k r :
  (forall b, r1 = Some b -> len b = 64) -> (forall b, r2 = Some b -> len b = 64) ->
  loadOrCreateJWTSecret path r1 w = (Ok k, w1) -> files w2 !! path = files w1 !! path ->
  loadOrCreateJWTSecret path r2 w2 = (r, w3) ->
  key_file path k w1 /\ others_kept path w w1 /\ (exists p, files w3 !! path = Some {| Body := k; Perm := p |}) /\ (forall k', r = Ok k' -> k' = k).
Proof.
  intros H1 H2 E1 Hsame E2. pose proof (wp_elim _ _ _ _ _ (wp_key path r1 w H1) E1) as (HO & _ & [HK _]).
  pose proof (wp_elim _ _ _ _ _ (wp_key path r2 w2 H2) E2) as (_ & Hkeep & HR). destruct HK as [HL HK]. rewrite Hsame, HK in Hkeep, HR.
  split; [done|]. split; [done|]. split; [by apply (Hkeep _ eq_refl)|]. intros k' ->. by destruct HR as [_ HR].
Qed.

Section boot_properties.
Context `{Unicode} {Value Base : Type}.
Context (Unmarshal : bytes -> option (list Rule)) (IsDomainName : bytes -> bool)
  (ParseExit : bytes -> option (gmap bytes Value)) (BaseConfig : option (@Config Value Base)).
Context (json_Unmarshal : bytes -> option (gmap bytes json)) (url_Parse : bytes -> option URL).
Abbreviation parse := (ParseYAML IsDomainName Unmarshal).

(** The rules of the effective configuration are those of the active version. *)
Lemma Assemble_rules R S M V a : (forall c, BaseConfig = Some c -> EffectiveRules c = []) -> K R S M V a ->
  wp (Assemble Unmarshal IsDomainName ParseExit BaseConfig) (fun r a' => K R S M V a' /\
    forall cfg, r = Ok cfg ->
      match found rv_Active (rows R) with
      | None => EffectiveRules cfg = []
      | Some v => parse (rv_RulesYAML v) = Ok (EffectiveRules cfg)
      end) a.
Proof.
  intros HB HK. pose proof (Assemble_K R S M V Unmarshal IsDomainName ParseExit BaseConfig a HK) as Hkeep.
  unfold wp. destruct (Assemble _ _ _ _ a) as [r a'] eqn:E. split; [exact Hkeep|]. intros cfg ->.
  unfold Assemble in E. destruct BaseConfig as [base|]; [|done]. unfold ActiveRulesYAML, GetActiveRuleVersion in E.
  pose proof (on_db_query (fun R => one (found rv_Active (rows R))) R S M V a HK) as Hq.
  unfold wp in Hq. unfold bind in E at 1 2.
  destruct (on_db (query (fun d => one (found rv_Active (rows (rule_versions d))))) a) as [q a1].
  destruct Hq as [_ [->|Hq]]; [done|]. unfold ret in E at 1.
  destruct (found rv_Active (rows R)) as [v|]; cbn [one] in Hq; subst q.
  - destruct (parse (rv_RulesYAML v)) as [|set]; [done|]. destruct (RuleSet_Validate _ set); [done|].
    unfold bind in E. destruct (Records ParseExit a1) as [[e|l] a2]; [done|]. unfold ret in E. by injection E as <- _.
  - unfold bind in E. destruct (Records ParseExit a1) as [[e|l] a2]; [done|]. unfold ret in E. injection E as <- _. exact (HB base eq_refl).
Qed.

(** The statements that only read. *)
Lemma Assemble_quiet a0 : keeps (CtlSocket.quiet a0) (Assemble Unmarshal IsDomainName ParseExit BaseConfig).
Proof.
  unfold Assemble, ActiveRulesYAML, Records, GetActiveRuleVersion, ListExits. destruct BaseConfig as [c|]; [|apply keeps_ret].
  apply keeps_bind; [apply keeps_bind; [apply CtlSocket.quiet_query|intros; apply keeps_ret]|]. intros [e|y]; [apply keeps_ret|].
  destruct (match y with None => _ | Some _ => _ end); [apply keeps_ret|].
  apply keeps_bind; [apply keeps_bind; [apply CtlSocket.quiet_query|intros; apply keeps_ret]|]. intros. apply keeps_ret.
Qed.

Lemma setup_token_quiet a0 random : keeps (CtlSocket.quiet a0) (setup_token random).
Proof. unfold setup_token, CountPanelUsers. apply keeps_bind; [apply CtlSocket.quiet_query|]. intros. apply keeps_ret. Qed.

Lemma wp_quiet {A : Type} (m : AP A) (Q : A -> App -> Prop) a : (forall a0, keeps (CtlSocket.quiet a0) m) ->
  wp m Q a -> wp m (fun x a' => Q x a' /\ CtlSocket.quiet a a') a.
Proof. intros Hm HQ. specialize (Hm a a (CtlSocket.quiet_refl a)). unfold wp in *. by destruct (m a). Qed.

Lemma wp_boot_host {A : Type} (m : ST Host A) (Q : A -> Machine -> Prop) s :
  wp m (fun x h => Q x {| host := h; app := app s |}) (host s) -> wp (on_host m) Q s.
Proof. unfold wp, on_host. by destruct (m (host s)). Qed.
Lemma wp_boot_app {A : Type} (m : AP A) (Q : A -> Machine -> Prop) s :
  wp m (fun x a => Q x {| host := host s; app := a |}) (app s) -> wp (on_app m) Q s.
Proof. unfold wp, on_app. by destruct (m (app s)). Qed.

Lemma published_agrees R S M V a rs : K R S M V a ->
  match found rv_Active (rows R) with None => rs = [] | Some v => parse (rv_RulesYAML v) = Ok rs end ->
  table_of Unmarshal IsDomainName R (active_id R) (set_Generation 1 (BuildTable rs)).
Proof.
  intros HK Hr. unfold table_of, active_id. destruct (found rv_Active (rows R)) as [v|] eqn:EF; [|by rewrite Hr].
  pose proof (K_pos _ _ _ _ _ HK) as Hp. rewrite Forall_forall in Hp. apply found_elem in EF as [Hin _]. specialize (Hp v Hin).
  destruct (Z.eqb_spec (rv_ID v) 0); [lia|]. exists v, rs. by split_and!.
Qed.

(** C36: a daemon that boots serves the rules it was stopped with: whatever the
    tables and the host hold and whichever statements fail, a boot that
    reports success has published exactly the compiled rules of the active
    version (none for none), is in a state from which every later sequence of
    calls keeps resolver and database together, has the session key on disk
    for the owner only, and has added to the exits at most inactive rows of
    the configuration file, and those only to a table with nothing but the
    built-in exit. *)
Theorem boot_serves keyPath r64 r32 yamlExits mode available w d b m' :
  Db.inv (false, []) d -> (forall c, BaseConfig = Some c -> EffectiveRules c = []) -> (forall x, r64 = Some x -> len x = 64) ->
  boot Unmarshal IsDomainName ParseExit BaseConfig json_Unmarshal url_Parse keyPath r64 r32 yamlExits mode available {| host := w; app := fresh_app d |} = (Some (Ok b), m') ->
  (exists s t rs, resolver (app m') = Some s /\ Load s = Some t /\ ApplierSpec.active_rules Unmarshal IsDomainName (app m') = Some rs /\
     rs = EffectiveRules (b_config b) /\ forall q, classify (Load s) q = classify (Some (BuildTable rs)) q) /\
  Safe Unmarshal IsDomainName (app m') /\
  key_file keyPath (b_secret b) (host m') /\ others_kept keyPath w (host m') /\
  extends yamlExits (fresh_app d) (app m') /\
  (rows (exits (db (app m'))) <> rows (exits d) -> exists x, rows (exits d) = [x] /\ x_ExitID x = directProtocol).
Proof.
  intros Hd HB HR E. set (R := rule_versions d). set (s0 := Some {| gen := 0; cur := None |} : option Store).
  assert (K R s0 ∅ false (fresh_app d)) as HK0 by done.
  revert b m' E. match goal with |- forall b m', ?f ?s = _ -> @?P b m' =>
    cut (wp f (fun r m' => forall b, r = Some (Ok b) -> P b m') s); [intros HW bb mm EE; exact (wp_elim _ _ _ _ _ HW EE bb eq_refl)|] end.
  cbv beta. unfold boot.
  apply wp_bind, wp_boot_host. eapply wp_mono; [by apply wp_key|]. cbv beta. intros [e|key] h1 (HO & _ & Hkey); [by apply wp_ret|]. destruct Hkey as [Hkey _].
  apply wp_bind, wp_boot_app. cbn [app]. eapply wp_mono; [apply wp_quiet; [intros; apply setup_token_quiet|by apply (keeps_wp (K R s0 ∅ false)), HK0; apply setup_token_K]|].
  cbv beta. intros [e|token] a1 [HK1 [l1 Hq1]]; [by apply wp_ret|].
  apply wp_bind, wp_boot_app. cbn [app host].
  pose proof (seed_K json_Unmarshal url_Parse R s0 ∅ false yamlExits a1 HK1) as HK2. pose proof (seed_extends json_Unmarshal url_Parse yamlExits a1) as HX.
  unfold wp in HX |- *. destruct (seedExitsFromYAML _ _ yamlExits a1) as [sr a2]. cbn in HK2. destruct HX as [HX HX'].
  destruct sr as [[e|[]]|]; try by apply wp_ret.
  apply (wp_bind _ _ _ {| host := h1; app := a2 |}), wp_boot_app. cbn [app host].
  eapply wp_mono; [apply wp_quiet; [intros; apply Assemble_quiet|by apply Assemble_rules]|]. cbv beta.
  intros [e|cfg] a3 [[HK3 Hcfg] [l3 Hq3]]; [by apply wp_ret|]. specialize (Hcfg cfg eq_refl).
  destruct (orchestrator_mode mode available); [|by apply wp_ret]. apply wp_bind, wp_boot_app. unfold publish. apply wp_modify, wp_ret. cbn [app host].
  intros bk [= <-]. cbn [b_secret b_config]. destruct HK3 as (HT & HS & HM & HV). rewrite HS. cbn [fmap option_fmap option_map set_resolver].
  destruct Hkey as [HL Hkey]. assert (rows (exits (db a1)) = rows (exits d)) as HX1 by (by rewrite Hq1).
  assert (rows (exits (db a3)) = rows (exits (db a2))) as HX3 by (by rewrite Hq3).
  set (a4 := set_resolver _ a3). assert (db a4 = db a3) as HD by done. assert (resolver a4 = Some (Publish (Some (BuildTable (EffectiveRules cfg))) {| gen := 0; cur := None |})) as HR4 by done.
  split; [|split; [|split; [by split|split; [exact HO|split]]]].
  - do 3 eexists. split; [exact HR4|]. split; [reflexivity|]. split; [|by split; [reflexivity|]].
    unfold ApplierSpec.active_rules. rewrite HD. destruct HT as [_ ->]. destruct (found rv_Active (rows R)) as [v|]; [by rewrite Hcfg|by rewrite Hcfg].
  - exists R, (resolver a4), ∅, false. split; [by split|]. split; [|apply map_Forall_empty]. intros s t Hs Ht. rewrite HR4 in Hs. injection Hs as <-. injection Ht as <-.
    eapply (published_agrees R s0 ∅ false a3); [by split_and!|exact Hcfg].
  - destruct HX as (l & El & Hl). exists l. rewrite HD, HX3, El, HX1. done.
  - rewrite HD, HX3. intros Hne. rewrite HX1 in HX'. by apply HX'.
Qed.
End boot_properties.

(** ** Concrete runs *)
Module Demo.
#[local] Existing Instance ascii_tables.
Import ApplierSpec.Demo RulesApi.Demo.

Definition key_path : bytes := str "/var/lib/5gpn/jwt.key".
Definition random64 : bytes := repeat (zb 7) 64.
Definition host0 (l : list Host.outcome) : Host := {| Host.files := ∅; Host.faults := l; Host.answers := []; Host.ran := [] |}.
Definition yaml : list (bytes * bytes) :=
  [(str "direct", str "direct://"); (str "jp2", str "socks5://192.0.2.1:1080"); (str "bad", str "gopher://x"); (str "none", [])].
Definition run_boot (y : list (bytes * bytes)) (d : Db) (h : Host) :=
  boot Unmarshal any_name no_exit base no_json no_url key_path (Some random64) (Some (repeat (zb 1) 32)) y (str "auto") true {| host := h; app := fresh_app d |}.
Definition ids (m : Machine) : list bytes := x_ExitID <$> rows (exits (db (app m))).

Definition first_db : Db := Db.Demo.fresh [].
Definition first_boot := run_boot yaml first_db (host0 []).

Example first_ok : match first_boot.1 with Some (Ok b) => b_systemd b = true /\ len (b_token b) = 64 | _ => False end.
Proof. by vm_compute. Qed.
Example first_seeds : ids {| host := host0 []; app := fresh_app first_db |} = [str "direct"] /\ ids first_boot.2 = [str "direct"; str "jp2"].
Proof. by vm_compute. Qed.

(** The next boot finds its key and seeds nothing. *)
Example second_boot : match run_boot yaml (db (app first_boot.2)) (host first_boot.2) with
  | (Some (Ok b), m) => b_secret b = random64 /\ ids m = [str "direct"; str "jp2"] | _ => False end.
Proof. by vm_compute. Qed.

(** A write of the key that breaks off leaves a short file, which every later
    boot refuses. *)
Definition torn := loadOrCreateJWTSecret key_path (Some random64) (host0 [Host.Done; Host.Done; Host.Broken 5]).
Example torn_key : torn.1 = Err KeyWrite /\
  (loadOrCreateJWTSecret key_path (Some random64) (host0 [])).1 = Ok random64 /\
  (loadOrCreateJWTSecret key_path (Some random64) torn.2).1 = Err KeyShort.
Proof. by vm_compute. Qed.

(** A first link whose parsing panics ends every boot, for the table stays at
    the built-in exit. *)
Example seed_kills : (run_boot [(str "x", str "ss://YWJjQGhvc3Q6ODA=")] first_db (host0 [])).1 = None.
Proof. by vm_compute. Qed.

Definition boot_db0 := run_boot yaml db0 (host0 []).
Definition booted0 : Booted := match boot_db0.1 with Some (Ok b) => b | _ => {| b_secret := []; b_token := []; b_systemd := false; b_config := {| cfg_base := tt; Exits := None; EffectiveRules := [] |} |} end.
Lemma boot_db0_ok : boot_db0 = (Some (Ok booted0), boot_db0.2).
Proof. by vm_compute. Qed.

Lemma boot_serves_witness : exists s, resolver (app boot_db0.2) = Some s /\ classify (Load s) (str "x.org") = ActionProxy.
Proof.
  destruct (boot_serves Unmarshal any_name no_exit base no_json no_url key_path (Some random64) (Some (repeat (zb 1) 32)) yaml (str "auto") true
    (host0 []) db0 booted0 boot_db0.2) as [(s & t & rs & Hs & _ & _ & -> & HC) _].
  - exact db0_inv.
  - by intros c [= <-].
  - by intros x [= <-].
  - exact boot_db0_ok.
  - exists s. split; [exact Hs|]. rewrite HC. by vm_compute.
Defined.

Lemma session_key_stable_witness : key_file key_path random64 (loadOrCreateJWTSecret key_path (Some random64) (host0 [])).2.
Proof.
  refine (proj1 (session_key_stable key_path (Some random64) None (host0 []) _ _ _ random64 _ _ _ _ eq_refl (surjective_pairing _))).
  - by intros x [= <-].
  - done.
  - by vm_compute.
Defined.
End Demo.
