(* ===== verification/BootNet.v ===== *)
(** * Booting the daemon: the listeners

    The second half of [run] in cmd/5gpn/main.go: the panel's address and
    certificate, its move off :443 for the transparent forwarders, the guard
    against plain HTTP, [startFrontdoor] with its certificate and
    configuration, [startProxyForwarders], and the servers [ListenAndServe]
    starts.  The settings are read from a table with an outcome per database
    call, and every bind has an outcome; certificates are parameters. *)
From S2P Require Import Prelude GoStrings GoNet GoIP Access Resolver Settings Tgbot LiveSettings.
From S2P Require Routes Frontdoor Collector.
From Stdlib Require Import ZArith Lia.
Local Open Scope Z_scope.
#[local] Abbreviation S := Datatypes.S.

Definition defaultPanelBackendTCP : bytes := str "127.0.0.1:8444".
Definition defaultPanelBackendUDP : bytes := str "127.0.0.1:8445".
Definition KeyPublicPlainDNS : bytes := str "frontdoor.public_plain_dns_enabled".
Definition https_port : bytes := str ":443".

(** What [main] passes to [run], the TLS files of the configuration and the
    state directory. *)
Record Flags := { insecure : bool; listenOverride : bytes; tlsCert : bytes; tlsKey : bytes; acmeDir : bytes }.

Inductive BErr := ESetting (e : SErr) | EPlainPort (port : Z) | ESpoof (e : PErr) | ECert | EFrontdoor (e : Frontdoor.FErr) | EForward (quic : bool)
| EListen (e : Routes.TLSErr).

(** What the boot has decided for the panel before it listens. *)
Record Panel := {
  p_addr : bytes; p_cert : bytes; p_key : bytes; p_acme : Routes.ACMEOptions; p_acmeListen : bytes;
  panelTLSConfigured : bool
}.

Definition no_acme : Routes.ACMEOptions := {| Routes.Domain := []; Routes.Email := []; Routes.StorageDir := []; Routes.UseStaging := false |}.

Section net.
Context `{Unicode} `{JSON}.

(** A read of a setting, its error reported by the boot. *)
Definition read {A} (m : Settings.S A) : ST Settings.Store (res BErr A) :=
  let! r := m in ret (match r with Ok a => Ok a | Err e => Err (ESetting e) end).

(** ** The panel *)
Definition panel_addr (f : Flags) (cfg : BootConfig) : bytes :=
  if listenOverride f == [] then PanelBind cfg ++ str ":" ++ strconv_Itoa (PanelPort cfg) else listenOverride f.

(** Auto-TLS, read only when no certificate file is given. *)
Definition boot_acme (f : Flags) (cfg : BootConfig) (cert key : bytes) : ST Settings.Store (res BErr Routes.ACMEOptions) :=
  if negb (insecure f) && (cert == []) && (key == []) then
    let? on := read (GetBool KeyTLSACMEEnabled) in
    let? email := read (GetString KeyTLSACMEEmail) in
    ret (Ok (if on && (Domain cfg != []) && (email != [])
             then {| Routes.Domain := Domain cfg; Routes.Email := email; Routes.StorageDir := acmeDir f; Routes.UseStaging := false |}
             else no_acme))
  else ret (Ok no_acme).

Definition backend_or (v def : bytes) : bytes := if v == [] then def else v.

(** The move of the panel off :443, for an enabled TCP forwarder. *)
Definition relocate (addr backend : bytes) : bytes :=
  if HasSuffix addr https_port || HasSuffix addr (str ":443/") then backend else addr.

(** The refusal of plain HTTP on a port of TLS. *)
Definition fail_fast (f : Flags) (cfg : BootConfig) (cert key : bytes) (acme : Routes.ACMEOptions) : bool :=
  negb (insecure f) && (cert == []) && (key == []) && (Routes.Domain acme == []) && ((PanelPort cfg =? 80) || (PanelPort cfg =? 443)).

Definition boot_panel (f : Flags) (cfg : BootConfig) : ST Settings.Store (res BErr Panel) :=
  let addr := panel_addr f cfg in
  let cert := if insecure f then [] else tlsCert f in
  let key := if insecure f then [] else tlsKey f in
  let? acme := boot_acme f cfg cert key in
  let? sniForwardOn := read (GetBool KeyFrontdoorSNIForwardEnabled) in
  let? v := read (GetString KeyFrontdoorPanelBackendTCP) in
  let backend := backend_or v defaultPanelBackendTCP in
  let tls := (Routes.Domain acme != []) || ((cert != []) && (key != [])) in
  if fail_fast f cfg cert key acme then ret (Err (EPlainPort (PanelPort cfg)))
  else ret (Ok {| p_addr := if sniForwardOn && tls then relocate addr backend else addr; p_cert := cert; p_key := key; p_acme := acme;
                  p_acmeListen := if sniForwardOn && tls then backend else []; panelTLSConfigured := tls |}).

(** ** The front door and the forwarders *)

(** The configuration of a forwarder that has bound :443. *)
Record Forward := { f_Listen : bytes; f_PanelDomain : bytes; f_PanelBackend : bytes }.

Record DS := {
  settings : Settings.Store;
  policy : option SpoofPolicy;            (* of the live resolver *)
  doh_wired : bool;                       (* srv.LiveResolver and srv.DoHHandler *)
  fd : option Frontdoor.FD;               (* a front door that has started *)
  sni : option Forward; quic : option Forward;
  bot : Manager;
  binds : list bool                       (* outcomes of the next binds *)
}.
Definition set_settings x s := {| settings := x; policy := policy s; doh_wired := doh_wired s; fd := fd s; sni := sni s; quic := quic s; bot := bot s; binds := binds s |}.
Definition set_policy x s := {| settings := settings s; policy := x; doh_wired := doh_wired s; fd := fd s; sni := sni s; quic := quic s; bot := bot s; binds := binds s |}.
Definition set_doh x s := {| settings := settings s; policy := policy s; doh_wired := x; fd := fd s; sni := sni s; quic := quic s; bot := bot s; binds := binds s |}.
Definition set_fd x l s := {| settings := settings s; policy := policy s; doh_wired := doh_wired s; fd := x; sni := sni s; quic := quic s; bot := bot s; binds := l |}.
Definition set_forwards x y s := {| settings := settings s; policy := policy s; doh_wired := doh_wired s; fd := fd s; sni := x; quic := y; bot := bot s; binds := binds s |}.
Definition set_bot b s := {| settings := settings s; policy := policy s; doh_wired := doh_wired s; fd := fd s; sni := sni s; quic := quic s; bot := b; binds := binds s |}.
Definition set_binds l s := {| settings := settings s; policy := policy s; doh_wired := doh_wired s; fd := fd s; sni := sni s; quic := quic s; bot := bot s; binds := l |}.
Abbreviation D A := (ST DS (res BErr A)).

Definition on_settings {A} (m : ST Settings.Store A) : ST DS A := fun s => let '(a, x) := m (settings s) in (a, set_settings x s).
Definition reading {A} (m : Settings.S A) : D A := on_settings (read m).

(** A bind of :443, as [Start] of a forwarder makes it. *)
Definition bind443 : ST DS bool := fun s =>
  match binds s with b :: l => (b, set_binds l s) | [] => (true, s) end.

Context (egress : option (option bytes)) (Interfaces : option (list (bytes * option (list Frontdoor.IfAddr)))).
(** Whether certmagic manages the domain, and the key pair can be loaded. *)
Context (managed loads : bool).
(** Whether Telegram accepts a token. *)
Context (getMe : bytes -> bool).

(** [applySpoofSettings]. *)
Definition spoof : D unit := fun s =>
  let '(r, (x, pol)) := applySpoofSettings egress (settings s, policy s) in
  (match r with Ok _ => Ok tt | Err e => Err (ESpoof e) end, set_policy pol (set_settings x s)).

(** [frontdoorCertificate]: whether there is one. *)
Definition frontdoorCertificate (p : Panel) : bool :=
  if Routes.Domain (p_acme p) != [] then match Routes.setupACME managed (p_acme p) with Ok _ => true | Err _ => false end
  else (p_cert p != []) && (p_key p != []) && loads.

(** [startProxyForwarders]. *)
Definition startProxyForwarders (panelDomain panelBackendUDP : bytes) : D unit :=
  let? sniOn := reading (GetBool KeyFrontdoorSNIForwardEnabled) in
  let? quicOn := reading (GetBool KeyFrontdoorQUICForwardEnabled) in
  let? tcp :=
    (if sniOn then
       let? v := reading (GetString KeyFrontdoorPanelBackendTCP) in
       let! ok := bind443 in
       if ok : bool then ret (Ok (Some {| f_Listen := https_port; f_PanelDomain := panelDomain; f_PanelBackend := backend_or v defaultPanelBackendTCP |}))
       else ret (Err (EForward false))
     else ret (Ok None)) in
  let? udp :=
    (if quicOn then
       let! ok := bind443 in
       if ok : bool then ret (Ok (Some {| f_Listen := https_port; f_PanelDomain := panelDomain; f_PanelBackend := panelBackendUDP |}))
       else ret (Err (EForward true))                 (* the TCP forwarder is shut down *)
     else ret (Ok None)) in
  let! _ := modify (set_forwards tcp udp) in
  ret (Ok tt).

(** The configuration of the front door. *)
Definition frontdoor_config (publicPlain doqEnabled doh3Enabled quicForwardOn : bool) (panelBackendUDP : bytes) : Frontdoor.Config :=
  let c := Frontdoor.DefaultConfig Interfaces in
  {| Frontdoor.BindUDP53 := Frontdoor.BindUDP53 c; Frontdoor.BindTCP53 := Frontdoor.BindTCP53 c;
     Frontdoor.PublicPlainDNSEnabled := publicPlain; Frontdoor.TLSConfigs := true;
     Frontdoor.DoQEnabled := doqEnabled; Frontdoor.DoQBind := Frontdoor.DoQBind c;
     Frontdoor.DoH3Enabled := doh3Enabled;
     Frontdoor.DoH3Bind := if quicForwardOn && doh3Enabled then [panelBackendUDP] else Frontdoor.DoH3Bind c |}.

Definition start_fd (c : Frontdoor.Config) : D unit := fun s =>
  let '(r, x) := Frontdoor.Start Interfaces (Frontdoor.NewFD c (binds s)) in
  match r with
  | Ok _ => (Ok tt, set_fd (Some x) (Frontdoor.net_ok x) s)
  | Err e => (Err (EFrontdoor e), set_fd None (Frontdoor.net_ok x) s)
  end.

Definition startFrontdoor (p : Panel) (panelDomain : bytes) : D unit :=
  let! _ := modify (set_doh true) in
  let? _ := spoof in
  if negb (frontdoorCertificate p) then ret (Err ECert)
  else
    let? publicPlain := reading (GetBool KeyPublicPlainDNS) in
    let? doqEnabled := reading (GetBool (str "frontdoor.doq_enabled")) in
    let? doh3Enabled := reading (GetBool (str "frontdoor.doh3_enabled")) in
    let? quicForwardOn := reading (GetBool KeyFrontdoorQUICForwardEnabled) in
    let? v := reading (GetString KeyFrontdoorPanelBackendUDP) in
    let backend := backend_or v defaultPanelBackendUDP in
    let? _ := start_fd (frontdoor_config publicPlain doqEnabled doh3Enabled quicForwardOn backend) in
    let! _ := startProxyForwarders panelDomain backend in
    ret (Ok tt).

(** The listener states as the panel shows them. *)
Definition toAPI (state : Frontdoor.ListenerState) (degraded : bool) : bytes :=
  if negb (Frontdoor.Configured state) then str "not_configured"
  else if Frontdoor.IsRunning state && negb degraded then str "healthy" else str "degraded".
Definition DNSListeners (x : Frontdoor.FD) : Collector.DNSListenerStatus :=
  let st := Frontdoor.Status Interfaces x in
  {| Collector.l_UDP53 := toAPI (Frontdoor.st_UDP53 st) (Frontdoor.st_Degraded st);
     Collector.l_TCP53 := toAPI (Frontdoor.st_TCP53 st) (Frontdoor.st_Degraded st);
     Collector.l_DoT := toAPI (Frontdoor.st_DoT st) false; Collector.l_DoH := str "healthy";
     Collector.l_DoQ := toAPI (Frontdoor.st_DoQ st) false; Collector.l_DoH3 := toAPI (Frontdoor.st_DoH3 st) false |}.

(** The end of [run]: the servers of the panel, with what runs beside them. *)
Definition boot_net (f : Flags) (cfg : BootConfig) : D (list (bytes * option Routes.Cert)) :=
  let? p := on_settings (boot_panel f cfg) in
  let! _ := modify (fun s => set_bot (Manager_Start true getMe (Token cfg) (AdminChatIDs cfg) (bot s)).2 s) in
  let! _ := (if negb (insecure f) && panelTLSConfigured p then startFrontdoor p (Domain cfg) else ret (Ok tt)) in
  ret (match Routes.ListenAndServe managed loads (p_acme p) (p_acmeListen p) (p_addr p) (p_cert p) (p_key p) with
       | Err e => Err (EListen e)
       | Ok lc => Ok (Routes.servers lc)
       end).
End net.

(** ** Lemmas *)
Section lemmas.
Context `{Unicode} `{JSON}.
Context (egress : option (option bytes)) (Interfaces : option (list (bytes * option (list Frontdoor.IfAddr)))).
Context (managed loads : bool) (getMe : bytes -> bool).

Lemma wp_read_setting {A B : Type} (decode : bytes -> option A) zero key (f : A -> ST Settings.Store (res BErr B)) Q s :
  (forall l e, Q (Err e) (set_db_ok l s)) ->
  (forall l v, stored decode zero key (table s) = Ok v -> wp (f v) Q (set_db_ok l s)) ->
  wp (bindE (read (typed decode zero key)) f) Q s.
Proof.
  intros HE HO. apply wp_bindE, wp_bind, wp_typed; intros l; apply wp_ret; [apply HE|].
  destruct (stored decode zero key (table s)) as [e|v] eqn:E; [apply HE|by apply HO].
Qed.

Lemma wp_on_store {A : Type} (m : ST Settings.Store A) (Q : A -> DS -> Prop) s : wp m (fun a x => Q a (set_settings x s)) (settings s) -> wp (on_settings m) Q s.
Proof. unfold wp, on_settings. by destruct (m (settings s)). Qed.

Lemma wp_reading {A B : Type} (decode : bytes -> option A) zero key (f : A -> ST DS (res BErr B)) (Q : res BErr B -> DS -> Prop) s :
  (forall l e, Q (Err e) (set_settings (set_db_ok l (settings s)) s)) ->
  (forall l v, stored decode zero key (table (settings s)) = Ok v -> wp (f v) Q (set_settings (set_db_ok l (settings s)) s)) ->
  wp (bindE (reading (typed decode zero key)) f) Q s.
Proof.
  intros HE HO. apply wp_bindE, wp_on_store, wp_bind, wp_typed; intros l; apply wp_ret; [apply HE|].
  destruct (stored decode zero key (table (settings s))) as [e|v] eqn:E; [apply HE|by apply HO].
Qed.

(** *** The panel *)
Definition flag (key : bytes) (t : gmap bytes Row) (b : bool) : Prop := stored as_bool (Ok false) key t = Ok b.
Definition text_setting (key def : bytes) (t : gmap bytes Row) (v : bytes) : Prop :=
  exists raw, stored as_string (Ok []) key t = Ok raw /\ v = backend_or raw def.

(** What the boot has decided, from the stored settings. *)
Record decided (f : Flags) (cfg : BootConfig) (t : gmap bytes Row) (p : Panel) : Prop := {
  de_cert : p_cert p = if insecure f then [] else tlsCert f;
  de_key : p_key p = if insecure f then [] else tlsKey f;
  de_acme : Routes.Domain (p_acme p) <> [] -> insecure f = false /\ p_cert p = [] /\ p_key p = [];
  de_tls : panelTLSConfigured p = (Routes.Domain (p_acme p) != []) || ((p_cert p != []) && (p_key p != []));
  de_guard : fail_fast f cfg (p_cert p) (p_key p) (p_acme p) = false;
  de_move : exists sniOn backend, flag KeyFrontdoorSNIForwardEnabled t sniOn /\ text_setting KeyFrontdoorPanelBackendTCP defaultPanelBackendTCP t backend /\
    p_addr p = (if sniOn && panelTLSConfigured p then relocate (panel_addr f cfg) backend else panel_addr f cfg) /\
    p_acmeListen p = if sniOn && panelTLSConfigured p then backend else []
}.

Lemma wp_boot_acme {B : Type} f cfg cert key (k : Routes.ACMEOptions -> ST Settings.Store (res BErr B)) Q s :
  (forall l e, Q (Err e) (set_db_ok l s)) ->
  (forall l o, (Routes.Domain o <> [] -> insecure f = false /\ cert = [] /\ key = []) -> wp (k o) Q (set_db_ok l s)) ->
  wp (bindE (boot_acme f cfg cert key) k) Q s.
Proof.
  intros HE HO. unfold boot_acme. destruct (negb (insecure f) && (cert == []) && (key == [])) eqn:EC.
  - apply andb_true_iff in EC as [[EI%negb_true_iff Ec%bool_decide_eq_true]%andb_true_iff Ek%bool_decide_eq_true].
    apply wp_bindE. apply wp_read_setting; [exact HE|]. intros l1 on _. apply wp_read_setting; [intros l; apply (HE l)|]. intros l2 email _.
    apply wp_ret. by apply (HO l2).
  - apply wp_bindE, wp_ret. specialize (HO (db_ok s) no_acme). destruct s. by apply HO.
Qed.

Lemma wp_boot_panel f cfg s :
  wp (boot_panel f cfg) (fun r s' => table s' = table s /\ forall p, r = Ok p -> decided f cfg (table s) p) s.
Proof.
  unfold boot_panel. apply wp_boot_acme; [intros; by split|]. intros l1 acme HA.
  apply wp_read_setting; [intros; by split|]. intros l2 sniOn E2. apply wp_read_setting; [intros; by split|]. intros l3 v E3.
  cbn [table set_db_ok] in E2, E3. destruct (fail_fast _ _ _ _ _) eqn:EF; [apply wp_ret; by split|]. apply wp_ret. split; [done|].
  intros p [= <-]. split; cbn [p_cert p_key p_acme panelTLSConfigured p_addr p_acmeListen]; try done.
  exists sniOn, (backend_or v defaultPanelBackendTCP). split; [exact E2|]. split; [by exists v|done].
Qed.

(** *** The front door *)
Lemma keeps_table_typed {A : Type} t (decode : bytes -> option A) zero key : keeps (fun s => table s = t) (typed decode zero key).
Proof. apply keeps_of_wp. intros s Hs. by apply wp_typed. Qed.

Lemma keeps_table_sto {A : Type} t (m : Settings.S A) : keeps (fun s => table s = t) m -> keeps (fun s => table s = t) (sto m).
Proof. intros Hm. apply keeps_bind; [exact Hm|]. intros. apply keeps_ret. Qed.

Lemma boot_policy_table t : keeps (fun s => table s = t) (boot_spoof_policy egress).
Proof.
  unfold boot_spoof_policy, GetBool, GetString.
  repeat first [apply keeps_ret
    |apply keeps_bindE; [apply keeps_table_sto, keeps_table_typed|intros ?]
    |match goal with |- keeps _ (if ?b then _ else _) => destruct b | |- keeps _ (match ?o with Some _ => _ | None => _ end) => destruct o end].
Qed.

Lemma wp_spoof (Q : res BErr unit -> DS -> Prop) s :
  (forall r pol x, table x = table (settings s) -> Q r (set_policy pol (set_settings x s))) -> wp (spoof egress) Q s.
Proof.
  intros HQ. unfold wp, spoof, applySpoofSettings. pose proof (boot_policy_table (table (settings s)) (settings s) eq_refl) as HT. cbn [fst snd].
  destruct (boot_spoof_policy egress (settings s)) as [[e|[pol|]] x]; cbn in HT |- *; by apply HQ.
Qed.

(** The listener of DoH3, and the plain ones, of a front door that has just
    started. *)
Definition started_as (c : Frontdoor.Config) (x : Frontdoor.FD) : Prop :=
  Frontdoor.cfg x = c /\ (forall a, Frontdoor.doh3 x = Some a -> Frontdoor.DoH3Enabled c = true /\ a = Frontdoor.firstBindOrDefault (Frontdoor.DoH3Bind c) Frontdoor.defaultDoH3Addr).

Lemma started_net c : keeps (started_as c) (Frontdoor.bindLocked Interfaces).
Proof.
  apply keeps_of_wp. intros x Hx. eapply wp_mono; [apply Frontdoor.bindLocked_spec|]. cbv beta. intros [e|a] x' HB1.
  - destruct HB1 as [[l ->] _]. exact Hx.
  - destruct HB1 as [l ->]. exact Hx.
Qed.

Lemma started_one c running store e addr : (forall a x, started_as c x -> a = Some addr -> started_as c (store a x)) ->
  keeps (started_as c) (Frontdoor.start_one running store e addr c).
Proof.
  intros Hst. apply keeps_of_wp. intros x Hx. unfold Frontdoor.start_one. apply wp_bind, wp_gets. destruct (_ || _); [by apply wp_ret|].
  apply wp_bindE, Frontdoor.wp_listen; intros l; [|done]. apply wp_bind, wp_modify, wp_ret. by apply Hst.
Qed.

Lemma started_else c m cleanup : keeps (started_as c) m -> keeps (started_as c) cleanup -> keeps (started_as c) (Frontdoor.or_else m cleanup).
Proof.
  intros Hm Hc. apply keeps_bind; [done|]. intros [e|a]; [|apply keeps_ret]. apply keeps_bind; [done|]. intros _. apply keeps_ret.
Qed.

Lemma Start_started c : keeps (started_as c) (Frontdoor.Start Interfaces).
Proof.
  apply keeps_of_wp. intros x Hx. unfold Frontdoor.Start. apply wp_bind, wp_gets. destruct (Frontdoor.started x); [by apply wp_ret|].
  apply wp_bindE. eapply wp_mono; [apply (keeps_wp (started_as c)); [apply started_net|exact Hx]|]. cbv beta. intros [e|[]] x1 Hx1; [done|].
  apply wp_bind, wp_gets. rewrite (proj1 Hx1). apply wp_bindE.
  apply (wp_mono _ (fun _ => started_as c)); [|intros [e|[]] x2 Hx2; [done|by apply wp_bind, wp_modify, wp_ret]].
  apply keeps_wp; [|exact Hx1]. apply started_else.
  - unfold Frontdoor.startEncryptedLocked, Frontdoor.startDoTLocked, Frontdoor.startDoQLocked, Frontdoor.startDoH3Locked, Frontdoor.stopDoTLocked, Frontdoor.stopDoQLocked.
    apply keeps_bindE; [apply started_one; by intros ?? []|]. intros _.
    apply keeps_bindE; [destruct (Frontdoor.DoQEnabled c); [|apply keeps_ret]; apply started_else; [apply started_one; by intros ?? []|apply keeps_modify; by intros ? []]|].
    intros _. destruct (Frontdoor.DoH3Enabled c) eqn:ED; [|apply keeps_ret]. apply started_else.
    + apply started_one. intros a y [Hc _] ->. split; [exact Hc|]. intros a [= <-]. by split.
    + apply keeps_bind; [apply keeps_modify; by intros ? []|]. intros _. apply keeps_modify. by intros ? [].
  - unfold Frontdoor.closeListenersLocked, Frontdoor.closePlainListenersLocked, Frontdoor.stopDoTLocked, Frontdoor.stopDoQLocked, Frontdoor.stopDoH3Locked.
    apply keeps_bind; [apply keeps_modify; by intros ? []|]. intros _. apply keeps_bind; [apply keeps_modify; by intros ? []|]. intros _.
    apply keeps_bind; [apply keeps_modify; by intros ? []|]. intros _. apply keeps_modify. intros ? [? _]. by split.
Qed.

Lemma wp_start_fd c (Q : res BErr unit -> DS -> Prop) s :
  (forall e l, Q (Err e) (set_fd None l s)) ->
  (forall x l, started_as c x -> (Frontdoor.PublicPlainDNSEnabled c = false -> Frontdoor.closed x) -> Q (Ok tt) (set_fd (Some x) l s)) ->
  wp (start_fd Interfaces c) Q s.
Proof.
  intros HE HO. unfold wp, start_fd. pose proof (Start_started c (Frontdoor.NewFD c (binds s))) as HS.
  pose proof (Frontdoor.Start_closed Interfaces (Frontdoor.NewFD c (binds s))) as HC.
  destruct (Frontdoor.Start Interfaces _) as [[e|[]] x]; [apply HE|]. cbn in HS, HC. apply HO; [by apply HS|].
  intros Hp. apply HC. split; [exact Hp|]. split; constructor.
Qed.

(** *** The forwarders *)
Lemma wp_bind443 (Q : bool -> DS -> Prop) s : (forall b l, Q b (set_binds l s)) -> wp bind443 Q s.
Proof. intros HQ. unfold wp, bind443. destruct s as [? ? ? ? ? ? ? [|b l]]; cbn; [apply (HQ true [])|apply (HQ b l)]. Qed.

(** What the forwarders are started as. *)
Definition forwards (dom backendUDP : bytes) (t : gmap bytes Row) (s : DS) : Prop :=
  (forall fw, sni s = Some fw -> flag KeyFrontdoorSNIForwardEnabled t true /\
     f_Listen fw = https_port /\ f_PanelDomain fw = dom /\ text_setting KeyFrontdoorPanelBackendTCP defaultPanelBackendTCP t (f_PanelBackend fw)) /\
  (forall fw, quic s = Some fw -> flag KeyFrontdoorQUICForwardEnabled t true /\
     f_Listen fw = https_port /\ f_PanelDomain fw = dom /\ f_PanelBackend fw = backendUDP).

Lemma wp_forwarders dom backendUDP s : sni s = None -> quic s = None ->
  wp (startProxyForwarders dom backendUDP) (fun _ s' => table (settings s') = table (settings s) /\ fd s' = fd s /\
    forwards dom backendUDP (table (settings s)) s') s.
Proof.
  intros HS HQ. unfold startProxyForwarders. set (t := table (settings s)).
  assert (forall s', table (settings s') = t -> fd s' = fd s -> sni s' = None -> quic s' = None ->
    table (settings s') = t /\ fd s' = fd s /\ forwards dom backendUDP t s') as Hdone.
  { intros s' Ht Hf Hs Hq. split; [done|]. split; [done|]. split; intros fw E; congruence. }
  apply wp_reading; [intros; by apply Hdone|]. intros l1 sniOn E1. apply wp_reading; [intros; by apply Hdone|]. intros l2 quicOn E2.
  cbn [settings set_settings table set_db_ok] in E2. apply wp_bindE.
  assert (forall tcp s2, table (settings s2) = t -> fd s2 = fd s -> sni s2 = None -> quic s2 = None ->
    (forall fw, tcp = Some fw -> flag KeyFrontdoorSNIForwardEnabled t true /\ f_Listen fw = https_port /\ f_PanelDomain fw = dom /\
      text_setting KeyFrontdoorPanelBackendTCP defaultPanelBackendTCP t (f_PanelBackend fw)) ->
    wp (let? udp :=
    (if quicOn then
       let! ok := bind443 in
       if ok : bool then ret (Ok (Some {| f_Listen := https_port; f_PanelDomain := dom; f_PanelBackend := backendUDP |}))
       else ret (Err (EForward true))
     else ret (Ok None)) in
     let! _ := modify (set_forwards tcp udp) in ret (Ok tt))
     (fun _ s' => table (settings s') = t /\ fd s' = fd s /\ forwards dom backendUDP t s') s2) as HU.
  { intros tcp s2 Ht Hf Hs Hq Htcp. apply wp_bindE. destruct quicOn.
    - apply wp_bind, wp_bind443. intros [|] l; apply wp_ret; [|by apply Hdone]. apply wp_bind, wp_modify, wp_ret.
      split; [done|]. split; [done|]. split; [exact Htcp|]. by intros fw [= <-].
    - apply wp_ret, wp_bind, wp_modify, wp_ret. split; [done|]. split; [done|]. split; [exact Htcp|done]. }
  destruct sniOn; [|apply wp_ret; by apply HU].
  apply wp_reading; [intros; by apply Hdone|]. intros l3 v E3. cbn [settings set_settings table set_db_ok] in E3.
  apply wp_bind, wp_bind443. intros [|] l; apply wp_ret; [|by apply Hdone]. apply HU; try done. intros fw [= <-]. split; [done|]. split; [done|]. split; [done|].
  by exists v.
Qed.

(** What the DNS plane is after [startFrontdoor], whether it failed or not. *)
Record plane (dom : bytes) (t : gmap bytes Row) (s : DS) : Prop := {
  pl_table : table (settings s) = t;
  pl_sni : forall fw, sni s = Some fw -> flag KeyFrontdoorSNIForwardEnabled t true /\
    f_Listen fw = https_port /\ f_PanelDomain fw = dom /\ text_setting KeyFrontdoorPanelBackendTCP defaultPanelBackendTCP t (f_PanelBackend fw);
  pl_quic : forall fw, quic s = Some fw -> f_Listen fw = https_port /\ f_PanelDomain fw = dom /\
    forall x a, fd s = Some x -> Frontdoor.doh3 x = Some a -> a = f_PanelBackend fw;
  pl_plain : flag KeyPublicPlainDNS t false -> forall x, fd s = Some x -> Frontdoor.closed x;
  pl_fd : sni s <> None \/ quic s <> None -> fd s <> None
}.

Lemma plane_none dom t s : table (settings s) = t -> fd s = None -> sni s = None -> quic s = None -> plane dom t s.
Proof. intros Ht Hf Hs Hq. split; [exact Ht|intros fw; congruence|intros fw; congruence|intros _ x; congruence|intros [Hx|Hx]; congruence]. Qed.

Lemma wp_startFrontdoor p dom s : fd s = None -> sni s = None -> quic s = None ->
  wp (startFrontdoor egress Interfaces managed loads p dom) (fun _ s' => plane dom (table (settings s)) s') s.
Proof.
  intros Hf Hs Hq. unfold startFrontdoor. apply wp_bind, wp_modify, wp_bindE, wp_spoof. intros r pol x Hx. cbn [settings set_doh] in Hx.
  set (t := table (settings s)) in *.
  destruct r as [e|[]]; [by apply plane_none|]. destruct (frontdoorCertificate managed loads p); cbn [negb]; [|by apply wp_ret, plane_none].
  apply wp_reading; [intros; by apply plane_none|]. intros l1 pub E1. apply wp_reading; [intros; by apply plane_none|]. intros l2 dq _.
  apply wp_reading; [intros; by apply plane_none|]. intros l3 d3 _. apply wp_reading; [intros; by apply plane_none|]. intros l4 qf E4.
  apply wp_reading; [intros; by apply plane_none|]. intros l5 v _.
  cbn [settings set_settings set_policy set_doh table set_db_ok] in E1, E4. rewrite Hx in E1, E4.
  apply wp_bindE, wp_start_fd; [intros; by apply plane_none|]. intros y l [_ HD] HC.
  apply wp_bind. eapply wp_mono; [by apply wp_forwarders|]. cbv beta. intros _ s' (Ht & Hf' & HS' & HQ'). apply wp_ret.
  cbn [settings set_settings set_policy set_doh table set_db_ok set_fd] in Ht, HS', HQ'. rewrite Hx in Ht, HS', HQ'. cbn [fd set_fd] in Hf'.
  split; [exact Ht|exact HS'| | |].
  - intros fw Hfw. destruct (HQ' fw Hfw) as (Hon & H2 & H3 & H4). split; [exact H2|]. split; [exact H3|]. intros x' a Hx' Ha.
    rewrite Hf' in Hx'. injection Hx' as <-. destruct (HD a Ha) as [Hd3 ->]. unfold flag in Hon. fold t in E4. rewrite E4 in Hon. injection Hon as ->.
    cbn [frontdoor_config Frontdoor.DoH3Enabled] in Hd3. subst d3. rewrite H4. done.
  - intros Hoff x' Hx'. rewrite Hf' in Hx'. injection Hx' as <-. apply HC. cbn [frontdoor_config Frontdoor.PublicPlainDNSEnabled]. unfold flag in Hoff. fold t in E1. rewrite E1 in Hoff. by injection Hoff.
  - intros _. by rewrite Hf'.
Qed.
End lemmas.

(** ** Properties *)
Section properties.
Context `{Unicode} `{JSON}.
Context (egress : option (option bytes)) (Interfaces : option (list (bytes * option (list Frontdoor.IfAddr)))).
Context (managed loads : bool) (getMe : bytes -> bool).

(** The servers of the panel, from what the boot decided. *)
Lemma servers_secure acme listen addr cert key lc :
  Routes.ListenAndServe managed loads acme listen addr cert key = Ok lc ->
  Routes.Domain acme <> [] \/ (cert <> [] /\ key <> []) -> Forall (fun p => p.2 <> None) (Routes.servers lc).
Proof. intros E Hc. by destruct (Routes.no_plain_fallback _ _ _ _ _ _ _ _ E Hc). Qed.

(** The addresses of the servers: the panel's, and with a managed certificate
    the second one, unless the panel's address is already it. *)
Lemma servers_at acme listen addr cert key lc : listen <> [] ->
  Routes.ListenAndServe managed loads acme listen addr cert key = Ok lc ->
  Forall (fun p => p.1 = addr \/ p.1 = listen) (Routes.servers lc) /\
  (Routes.Domain acme <> [] -> Exists (fun p => HasSuffix p.1 listen = true) (Routes.servers lc)) /\ Exists (fun p => p.1 = addr) (Routes.servers lc).
Proof.
  intros HL. unfold Routes.ListenAndServe. rewrite (bool_decide_false (listen = [])) by done. cbn [negb].
  destruct (decide (Routes.Domain acme = [])) as [HD|HD].
  - rewrite (bool_decide_true _ HD). cbn [negb]. intros E.
    assert (exists c, lc = {| Routes.primaryAddr := addr; Routes.tlsConfig := c; Routes.acmeAddr := [] |}) as [c ->].
    { destruct (_ && _); [destruct loads; [|done]|]; injection E as <-; by eexists. }
    unfold Routes.servers. cbn [Routes.primaryAddr Routes.tlsConfig Routes.acmeAddr]. split; [|split; [done|by left]].
    constructor; [by left|]. by destruct c.
  - rewrite (bool_decide_false _ HD). cbn [negb]. destruct (Routes.setupACME managed acme) as [|c]; [done|]. intros [= <-].
    unfold Routes.servers. cbn [Routes.primaryAddr Routes.tlsConfig Routes.acmeAddr].
    destruct (decide (addr = listen)) as [->|Hne].
    { rewrite (bool_decide_true (listen = listen)) by done. cbn [negb andb]. rewrite (bool_decide_true ([] = [])) by done. cbn [negb].
      split; [constructor; [by left|constructor]|]. split; [|by left]. intros _. left. cbn. apply bool_decide_eq_true. by exists []. }
    rewrite (bool_decide_false _ Hne). cbn [negb andb]. destruct (HasSuffix addr listen) eqn:ES; cbn [negb].
    + rewrite (bool_decide_true ([] = [])) by done. cbn [negb]. split; [constructor; [by left|constructor]|]. split; [by left|by left].
    + rewrite (bool_decide_false (listen = [])) by done. cbn [negb]. split; [constructor; [by left|constructor; [by right|constructor]]|].
      split; [|by left]. intros _. right. left. cbn. apply bool_decide_eq_true. by exists [].
Qed.

Lemma text_setting_nil key def t v : def <> [] -> text_setting key def t v -> v <> [].
Proof. intros Hd (raw & _ & ->). unfold backend_or. by case_bool_decide. Qed.

Lemma text_setting_one key def t v v' : text_setting key def t v -> text_setting key def t v' -> v = v'.
Proof. intros (r & E & ->) (r' & E' & ->). rewrite E in E'. by injection E' as ->. Qed.

Lemma tls_means p : panelTLSConfigured p = (Routes.Domain (p_acme p) != []) || ((p_cert p != []) && (p_key p != [])) ->
  panelTLSConfigured p = true <-> Routes.Domain (p_acme p) <> [] \/ (p_cert p <> [] /\ p_key p <> []).
Proof. intros ->. rewrite orb_true_iff, andb_true_iff, !negb_true_iff, !bool_decide_eq_false. done. Qed.

(** The decision and the plane of a boot that starts. *)
Lemma wp_boot_net f cfg s : fd s = None -> sni s = None -> quic s = None ->
  wp (boot_net egress Interfaces managed loads getMe f cfg) (fun r s' => forall servers, r = Ok servers ->
    exists p lc, decided f cfg (table (settings s)) p /\ plane (Domain cfg) (table (settings s)) s' /\
      servers = Routes.servers lc /\ Routes.ListenAndServe managed loads (p_acme p) (p_acmeListen p) (p_addr p) (p_cert p) (p_key p) = Ok lc /\
      (fd s' <> None -> insecure f = false /\ panelTLSConfigured p = true)) s.
Proof.
  intros Hf Hs Hq. unfold boot_net. apply wp_bindE, wp_on_store. eapply wp_mono; [apply wp_boot_panel|]. cbv beta.
  intros [e|p] x [Ht Hp]; [done|]. specialize (Hp p eq_refl). apply wp_bind, wp_modify, wp_bind.
  eapply (wp_mono _ (fun _ s' => plane (Domain cfg) (table (settings s)) s' /\ (fd s' <> None -> insecure f = false /\ panelTLSConfigured p = true))).
  - destruct (negb (insecure f) && panelTLSConfigured p) eqn:EC.
    + apply andb_true_iff in EC as [EI%negb_true_iff ET]. eapply wp_mono; [by apply wp_startFrontdoor|]. cbv beta. intros _ s' HP. cbn [settings set_bot set_settings] in HP.
      rewrite Ht in HP. by split.
    + apply wp_ret. split; [by apply plane_none|]. intros Hx. by destruct Hx.
  - intros _ s' [HP HT]. apply wp_ret. destruct (Routes.ListenAndServe _ _ _ _ _ _ _) as [|lc] eqn:EL; [done|]. intros servers [= <-]. exists p, lc. by split_and!.
Qed.

(** C38: the listeners of every boot that starts, for all flags, settings, TLS
    files and failures: the panel serves plain HTTP only when told to, with a
    configured port other than 80 and 443 (the guard looks at that port, not at
    the address of -listen: [override_plain]), or with half of a key pair;
    nothing of the DNS plane runs beside a plain panel; when the TCP forwarder
    holds :443 no server of the panel is bound to that port, unless the backend
    configured for the panel is on it, and one serves the backend the forwarder
    hands the panel's connections to under a managed certificate or when the
    panel's own address was on :443 (else see [dead_backend]); when the QUIC
    forwarder holds :443 DoH3, if it listens, listens on its backend; and
    without the opt-in no plain DNS listener is public. *)
Theorem boot_listeners f cfg s servers s' :
  fd s = None -> sni s = None -> quic s = None ->
  boot_net egress Interfaces managed loads getMe f cfg s = (Ok servers, s') ->
  (Exists (fun p => p.2 = None) servers ->
     insecure f = true \/ (PanelPort cfg <> 80 /\ PanelPort cfg <> 443) \/ (tlsCert f = [] <-> tlsKey f <> [])) /\
  (fd s' <> None \/ sni s' <> None \/ quic s' <> None -> insecure f = false /\ Forall (fun p => p.2 <> None) servers) /\
  (forall fw, sni s' = Some fw ->
     f_Listen fw = https_port /\ f_PanelDomain fw = Domain cfg /\
     (HasSuffix (f_PanelBackend fw) https_port = false -> Forall (fun p => HasSuffix p.1 https_port = false) servers) /\
     (tlsCert f = [] \/ HasSuffix (panel_addr f cfg) https_port = true -> Exists (fun p => HasSuffix p.1 (f_PanelBackend fw) = true) servers)) /\
  (forall fw x a, quic s' = Some fw -> fd s' = Some x -> Frontdoor.doh3 x = Some a -> a = f_PanelBackend fw) /\
  (flag KeyPublicPlainDNS (table (settings s)) false -> forall x, fd s' = Some x -> Frontdoor.closed x).
Proof.
  intros Hf Hs Hq E. destruct (wp_elim _ _ _ _ _ (wp_boot_net f cfg s Hf Hs Hq) E servers eq_refl) as (p & lc & HD & HP & -> & EL & HF).
  pose proof (tls_means p (de_tls _ _ _ _ HD)) as HT. split_and!.
  - intros HX. destruct (insecure f) eqn:EI; [by left|right]. pose proof (de_guard _ _ _ _ HD) as HG. pose proof (de_cert _ _ _ _ HD) as HC.
    pose proof (de_key _ _ _ _ HD) as HK. rewrite EI in HC, HK.
    destruct (panelTLSConfigured p) eqn:ET.
    { pose proof (servers_secure _ _ _ _ _ _ EL (proj1 HT eq_refl)) as HS. exfalso. rewrite Exists_exists in HX. destruct HX as (y & Hy & Hn). rewrite Forall_forall in HS. by apply (HS y). }
    assert (~ (Routes.Domain (p_acme p) <> [] \/ (p_cert p <> [] /\ p_key p <> []))) as HN by (intros Hx; by apply HT in Hx).
    destruct (decide (tlsCert f = [])) as [Hc|Hc], (decide (tlsKey f = [])) as [Hk|Hk].
    + left. unfold fail_fast in HG. rewrite EI, HC, HK, Hc, Hk in HG. cbn [negb andb] in HG. rewrite !(bool_decide_true ([] = [])) in HG by done.
      rewrite (bool_decide_true (Routes.Domain (p_acme p) = [])) in HG by (destruct (decide (Routes.Domain (p_acme p) = [])); tauto).
      cbn [andb] in HG. apply orb_false_iff in HG as [?%Z.eqb_neq ?%Z.eqb_neq]. by split.
    + right. tauto.
    + right. tauto.
    + exfalso. apply HN. right. by rewrite HC, HK.
  - intros HX. assert (fd s' <> None) as HX' by (destruct HX as [HX|HX]; [exact HX|exact (pl_fd _ _ _ HP HX)]).
    destruct (HF HX') as [HI HT']. split; [exact HI|]. by eapply servers_secure, HT.
  - intros fw Hfw. destruct (pl_sni _ _ _ HP fw Hfw) as (Hon & HL & Hdom & Hb). split; [exact HL|]. split; [exact Hdom|].
    assert (sni s' <> None) as Hsome by (rewrite Hfw; done). destruct (HF (pl_fd _ _ _ HP (or_introl Hsome))) as [HI HT']. destruct (de_move _ _ _ _ HD) as (on & backend & Hon' & Hb' & Ha & Hl).
    unfold flag in Hon, Hon'. rewrite Hon in Hon'. injection Hon' as <-. rewrite HT' in Ha, Hl. cbn [andb] in Ha, Hl.
    rewrite (text_setting_one _ _ _ _ _ Hb Hb') in *. clear Hb. assert (backend <> []) as Hne by (refine (text_setting_nil _ _ _ _ _ Hb'); done).
    rewrite Hl, Ha in EL. destruct (servers_at _ _ _ _ _ _ Hne EL) as (HA & HM & HP'). split.
    + intros Hsuf. eapply Forall_impl; [exact HA|]. cbv beta. intros q [Hq' | Hq']; rewrite Hq'; [|exact Hsuf]. unfold relocate.
      destruct (HasSuffix (panel_addr f cfg) https_port) eqn:ES; cbn [orb]; [exact Hsuf|]. by destruct (HasSuffix _ (str ":443/")).
    + intros [Hc|H443].
      * apply HM. destruct (proj1 HT HT') as [Hd|[Hc' _]]; [exact Hd|]. exfalso. apply Hc'. rewrite (de_cert _ _ _ _ HD), Hc. by destruct (insecure f).
      * unfold relocate in HP'. rewrite H443 in HP'. cbn [orb] in HP'. eapply Exists_impl; [exact HP'|]. cbv beta. intros q ->. apply bool_decide_eq_true. by exists [].
  - intros fw x a Hfw Hx Ha. destruct (pl_quic _ _ _ HP fw Hfw) as (_ & _ & HQ). by apply (HQ x).
  - exact (pl_plain _ _ _ HP).
Qed.
End properties.

(** ** Concrete runs *)
Module Demo.
#[local] Existing Instances ascii_tables sample_json.

Definition stored_settings (l : list (bytes * jval)) : Settings.Store :=
  (SetMany sample_range (list_to_map l) (str "admin") {| table := ∅; db_ok := []; clock := 7 |}).2.
Definition config (port : Z) : BootConfig :=
  {| Domain := str "gw.example"; PanelBind := str "0.0.0.0"; PanelPort := port; Token := []; AdminChatIDs := [];
     Listen := []; Port := 0; Backend := []; WAHost := []; AllowCIDR := [] |}.
Definition flags (plain : bool) (listen cert key : bytes) : Flags :=
  {| insecure := plain; listenOverride := listen; tlsCert := cert; tlsKey := key; acmeDir := str "/var/lib/5gpn/acme" |}.
Definition start (l : list (bytes * jval)) (b : list bool) : DS :=
  {| settings := stored_settings l; policy := None; doh_wired := false; fd := None; sni := None; quic := None; bot := NewManager; binds := b |}.
Definition go (f : Flags) (port : Z) (l : list (bytes * jval)) (b : list bool) := boot_net None None true true (fun _ => true) f (config port) (start l b).

Definition acme_on : list (bytes * jval) := [(KeyTLSACMEEnabled, JBool true); (KeyTLSACMEEmail, JStr (str "a@b.c"))].
Definition forwarders : list (bytes * jval) :=
  [(KeyFrontdoorSNIForwardEnabled, JBool true); (KeyFrontdoorQUICForwardEnabled, JBool true); (str "frontdoor.doh3_enabled", JBool true)].
Definition addrs {A} (r : res BErr (list (bytes * A)) * DS) : list bytes := match r.1 with Ok l => l.*1 | Err _ => [] end.

(** Everything on: the panel moves to the loopback backends. *)
Definition all_on := go (flags false [] [] []) 443 (acme_on ++ forwarders) [].
Example all_on_addrs : addrs all_on = [defaultPanelBackendTCP] /\ (f_PanelBackend <$> sni all_on.2) = Some defaultPanelBackendTCP /\
  (fd all_on.2 ≫= Frontdoor.doh3) = Some defaultPanelBackendUDP.
Proof. by vm_compute. Qed.
Example plain_refused : (go (flags false [] [] []) 443 [] []).1 = Err (EPlainPort 443).
Proof. by vm_compute. Qed.

(** The guard looks at the configured port, not at the address that is bound. *)
Example override_plain : (go (flags false (str ":443") [] []) 8443 [] []).1 = Ok [(str ":443", None)].
Proof. by vm_compute. Qed.
Example override_refused : (go (flags false (str "127.0.0.1:8080") [] []) 443 [] []).1 = Err (EPlainPort 443).
Proof. by vm_compute. Qed.

(** Half of a key pair passes the guard. *)
Example half_pair_plain : (go (flags false [] (str "/etc/cert.pem") []) 443 [] []).1 = Ok [(str "0.0.0.0:443", None)].
Proof. by vm_compute. Qed.

(** With certificate files and a panel that is not on :443 the forwarder sends
    the panel's own domain to an address nobody serves. *)
Definition static_run := go (flags false [] (str "/etc/cert.pem") (str "/etc/key.pem")) 8443 forwarders [].
Example dead_backend : addrs static_run = [str "0.0.0.0:8443"] /\ (f_PanelBackend <$> sni static_run.2) = Some (str "127.0.0.1:8444").
Proof. by vm_compute. Qed.

(** A front door that does not start leaves the panel moved to the loopback,
    with no forwarder before it. *)
Definition stranded_run := go (flags false [] [] []) 443 (acme_on ++ forwarders) [false].
Example panel_stranded : addrs stranded_run = [str "127.0.0.1:8444"] /\ sni stranded_run.2 = None /\ fd stranded_run.2 = None.
Proof. by vm_compute. Qed.

Lemma all_on_run : exists servers, go (flags false [] [] []) 443 (acme_on ++ forwarders) [] = (Ok servers, all_on.2).
Proof. eexists. by vm_compute. Qed.

Lemma boot_listeners_witness : exists servers fw, all_on.1 = Ok servers /\ sni all_on.2 = Some fw /\
  Forall (fun p => HasSuffix p.1 https_port = false) servers /\ Exists (fun p => HasSuffix p.1 (f_PanelBackend fw) = true) servers.
Proof.
  destruct all_on_run as [servers E]. exists servers.
  destruct (boot_listeners None None true true (fun _ => true) (flags false [] [] []) (config 443) (start (acme_on ++ forwarders) []) servers all_on.2
    eq_refl eq_refl eq_refl E) as (_ & _ & HS & _).
  assert (sni all_on.2 = Some {| f_Listen := https_port; f_PanelDomain := str "gw.example"; f_PanelBackend := defaultPanelBackendTCP |}) as Hf by (by vm_compute).
  eexists. split; [exact (f_equal fst E)|]. split; [exact Hf|]. destruct (HS _ Hf) as (_ & _ & H1 & H2). split; [apply H1; by vm_compute|apply H2; by left].
Defined.
End Demo.
