(* ===== verification/ConfigFile.v ===== *)
(** * The configuration file

    internal/config: the document (schema.go) with the constraints of its
    validation tags, and [Load] (loader.go), which substitutes environment
    variables before the YAML parser sees the text.  The YAML codec and the
    named formats of the validator package are parameters. *)
From S2P Require Import Prelude GoStrings GoNet.
From Stdlib Require Import ZArith Lia.
Local Open Scope Z_scope.

(** ** schema.go *)
Record TLSConfig := { Cert : bytes; Key : bytes }.
Record ServerConfig := { Domain : bytes; PanelPort : Z; PanelBind : bytes; TLS : TLSConfig }.
Record RateLimitConfig := { LoginPerMinute : Z; LockoutMinutes : Z }.
Record PanelConfig := { SessionTTL : Z; RateLimit : RateLimitConfig }.
Record DNSConfig := { DoTPort : Z; Upstreams : list bytes; ChinaListSource : bytes; ChinaListPath : bytes }.
Record SniProxyConfig := { ListenHTTP : Z; LoopbackHTTPS : Z }.
Record WAShimConfig := {
  Listen : bytes; Port : Z; Backend : bytes; WAHost : bytes; AllowCIDR : list bytes;
  PeekTimeout : Z; ConnectTimeout : Z; DNSTTL : Z; MaxConn : Z
}.
Record QUICConfig := { q_Listen : bytes }.
Record ProxyConfig := { SniProxy : SniProxyConfig; WAShim : WAShimConfig; QUIC : QUICConfig; MihomoMixedPort : Z }.
Record FileExit {Value : Type} := { x_ID : bytes; x_Protocol : bytes; x_Config : gmap bytes Value }.
Arguments FileExit : clear implicits.
Record RuleSource := { URL : bytes; s_Kind : bytes; Cron : bytes }.
Record RulesConfig := { Sources : list RuleSource; DefaultsFile : bytes }.
(** [AdminChatIDs] is [None] when the document has no such key: a slice that is
    nil, which is not the same to the validator as one that is empty. *)
Record TGBotConfig := { Token : bytes; AdminChatIDs : option (list Z) }.
Record IOSConfig := { DoTDomain : bytes; ProfileUUID : bytes; HTTPPort : Z }.
Record LowMemHardLimit := { GoMaxProcs : Z; MihomoMaxRAM : bytes }.
Record LowMemConfig := { AutoDetectBelowMB : Z; HardLimits : LowMemHardLimit }.
Record FileConfig {Value : Type} := {
  Server : ServerConfig; Panel : PanelConfig; DNS : DNSConfig; Proxy : ProxyConfig; FileExits : list (FileExit Value);
  Rules_ : RulesConfig; TGBot : TGBotConfig; IOS : IOSConfig; LowMem : LowMemConfig
}.
Arguments FileConfig : clear implicits.

(** The formats the validator package knows by name. *)
Class Formats := { hostname : bytes -> bool; alphanum : bytes -> bool; cidr : bytes -> bool; url : bytes -> bool }.

Definition protocols : list bytes := map str
  ["direct"; "wireguard"; "socks5"; "socks5h"; "ss"; "ss2022"; "vmess"; "trojan"; "vless"; "hysteria2"; "tuic"; "anytls"; "http"; "https"]%string.
Definition source_kinds : list bytes := map str ["mrs"; "clash"; "text"]%string.

Section validate.
Context `{Formats} {Value : Type}.

(** The tags: [required], [omitempty], [min] and [max], [oneof]. *)
Definition required (s : bytes) : bool := s != [].
Definition port_required (p : Z) : bool := (p != 0) && (1 <=? p) && (p <=? 65535).
Definition port_optional (p : Z) : bool := (p == 0) || ((1 <=? p) && (p <=? 65535)).
Definition oneof (l : list bytes) (s : bytes) : bool := bool_decide (s ∈ l).

Definition valid_server (c : ServerConfig) : bool :=
  required (Domain c) && hostname (Domain c) && port_required (PanelPort c) && required (PanelBind c).
Definition valid_panel (c : PanelConfig) : bool :=
  (SessionTTL c != 0) && (1 <=? LoginPerMinute (RateLimit c)) && (1 <=? LockoutMinutes (RateLimit c)).
Definition valid_washim (c : WAShimConfig) : bool :=
  required (Listen c) && port_required (Port c) && required (Backend c) && required (WAHost c) &&
  (1 <=? len (AllowCIDR c)) && forallb cidr (AllowCIDR c) && (1 <=? MaxConn c).
Definition valid_proxy (c : ProxyConfig) : bool :=
  port_optional (ListenHTTP (SniProxy c)) && port_optional (LoopbackHTTPS (SniProxy c)) && valid_washim (WAShim c).
Definition valid_exit (x : FileExit Value) : bool :=
  required (x_ID x) && alphanum (x_ID x) && required (x_Protocol x) && oneof protocols (x_Protocol x).
Definition valid_source (s : RuleSource) : bool :=
  required (URL s) && url (URL s) && required (s_Kind s) && oneof source_kinds (s_Kind s).
(** [required_with=Token,dive,ne=0]: a token asks for a list that is there,
    empty or not. *)
Definition valid_tgbot (c : TGBotConfig) : bool :=
  match AdminChatIDs c with None => Token c == [] | Some ids => forallb (fun id => id != 0) ids end.

(** [v.Struct]. *)
Definition Struct (c : FileConfig Value) : bool :=
  valid_server (Server c) && valid_panel (Panel c) && port_optional (DoTPort (DNS c)) && valid_proxy (Proxy c) &&
  forallb valid_exit (FileExits c) && forallb valid_source (Sources (Rules_ c)) && valid_tgbot (TGBot c) &&
  port_optional (HTTPPort (IOS c)).
End validate.

(** ** loader.go *)
Definition dollar : byte := Byte.x24.
Definition brace : byte := Byte.x7b.
Definition unbrace : byte := Byte.x7d.
Definition name_start (c : byte) : bool := ((65 <=? bz c) && (bz c <=? 90)) || (c == Byte.x5f).
Definition name_byte (c : byte) : bool := name_start c || ((48 <=? bz c) && (bz c <=? 57)).

(** The name of a placeholder whose text, after the brace, is [s], with the
    rest of the text. *)
Fixpoint name_rest (s : bytes) : option (bytes * bytes) :=
  match s with
  | [] => None
  | c :: r => if c == unbrace then Some ([], r)
              else if name_byte c then '(n, rest) ← name_rest r; Some (c :: n, rest) else None
  end.
Definition placeholder (s : bytes) : option (bytes * bytes) :=
  match s with
  | a :: b :: c :: r =>
      if (a == dollar) && (b == brace) && name_start c then '(n, rest) ← name_rest r; Some (c :: n, rest) else None
  | _ => None
  end.

(** [envRe.ReplaceAllFunc]: the matches from the left, none of them looked at
    again. *)
Fixpoint expand_loop (Getenv : bytes -> bytes) (fuel : nat) (s : bytes) : bytes :=
  match fuel, s with
  | S fuel, c :: r =>
      match placeholder s with
      | Some (n, rest) => Getenv n ++ expand_loop Getenv fuel rest
      | None => c :: expand_loop Getenv fuel r
      end
  | _, _ => []
  end.
Definition expand (Getenv : bytes -> bytes) (raw : bytes) : bytes := expand_loop Getenv (length raw) raw.

Inductive LoadErr := ErrReadFile | ErrParse | ErrValidate.

Definition Load `{Formats} {Value : Type} (ReadFile : bytes -> option bytes) (Getenv : bytes -> bytes)
    (Unmarshal : bytes -> option (FileConfig Value)) (path : bytes) : res LoadErr (FileConfig Value) :=
  match ReadFile path with
  | None => Err ErrReadFile
  | Some raw =>
      match Unmarshal (expand Getenv raw) with
      | None => Err ErrParse
      | Some cfg => if Struct cfg then Ok cfg else Err ErrValidate
      end
  end.

(** ** Lemmas *)

(** A text as its author wrote it: pieces of text and placeholders. *)
Inductive piece := Text (s : bytes) | Var (name : bytes).
Definition valid_name (n : bytes) : Prop := match n with [] => False | c :: r => name_start c = true /\ Forall (fun c => name_byte c = true) r end.
Definition piece_ok (p : piece) : Prop := match p with Text s => dollar ∉ s | Var n => valid_name n end.
Definition written (p : piece) : bytes := match p with Text s => s | Var n => dollar :: brace :: n ++ [unbrace] end.
Definition meant (Getenv : bytes -> bytes) (p : piece) : bytes := match p with Text s => s | Var n => Getenv n end.
Definition source (ps : list piece) : bytes := concat (map written ps).
Definition meaning (Getenv : bytes -> bytes) (ps : list piece) : bytes := concat (map (meant Getenv) ps).

Lemma source_text s ps : source (Text s :: ps) = s ++ source ps.
Proof. done. Qed.

Lemma source_var n ps : source (Var n :: ps) = dollar :: brace :: n ++ unbrace :: source ps.
Proof. unfold source. cbn [map written concat]. rewrite <- !app_comm_cons, <- app_assoc. done. Qed.

Lemma name_byte_not c : name_byte c = true -> (c == unbrace) = false.
Proof. intros Hc. apply bool_decide_eq_false. intros ->. by vm_compute in Hc. Qed.

Lemma name_rest_name n rest : Forall (fun c => name_byte c = true) n -> name_rest (n ++ unbrace :: rest) = Some (n, rest).
Proof.
  induction 1 as [|c n Hc Hn IH]; cbn [app name_rest]; [by rewrite bool_decide_true|]. rewrite (name_byte_not c Hc), Hc, IH. done.
Qed.

Lemma placeholder_var n rest : valid_name n -> placeholder (dollar :: brace :: n ++ unbrace :: rest) = Some (n, rest).
Proof.
  destruct n as [|c n]; [done|]. intros [Hc Hn]. cbn [placeholder app]. rewrite !bool_decide_true by done. rewrite Hc. cbn [andb].
  by rewrite name_rest_name.
Qed.

Lemma placeholder_other c r : c <> dollar -> placeholder (c :: r) = None.
Proof. intros Hc. destruct r as [|b [|d r]]; [done|done|]. cbn [placeholder]. by rewrite (bool_decide_false _ Hc). Qed.

Lemma expand_text Getenv s : forall rest fuel, dollar ∉ s -> (length (s ++ rest) <= fuel)%nat ->
  exists fuel', (length rest <= fuel')%nat /\ expand_loop Getenv fuel (s ++ rest) = s ++ expand_loop Getenv fuel' rest.
Proof.
  induction s as [|c s IH]; intros rest fuel Hs Hf; [by exists fuel|]. apply not_elem_of_cons in Hs as [Hc Hs].
  destruct fuel as [|fuel]; [cbn in Hf; lia|]. cbn [app expand_loop]. rewrite placeholder_other by congruence.
  destruct (IH rest fuel Hs) as (k & Hk & E); [cbn in Hf; lia|]. exists k. split; [done|]. by rewrite E.
Qed.

Lemma expand_pieces Getenv ps : Forall piece_ok ps -> forall fuel, (length (source ps) <= fuel)%nat ->
  expand_loop Getenv fuel (source ps) = meaning Getenv ps.
Proof.
  induction 1 as [|p ps Hp Hps IH]; intros fuel Hf; [by destruct fuel|]. destruct p as [s|n].
  - rewrite source_text in *. destruct (expand_text Getenv s _ fuel Hp Hf) as (k & Hk & ->). by rewrite IH.
  - rewrite source_var in *. destruct fuel as [|fuel]; [cbn in Hf; lia|]. cbn [expand_loop]. rewrite placeholder_var by done.
    rewrite IH; [done|]. cbn [length] in Hf. rewrite length_app in Hf. cbn [length] in Hf. lia.
Qed.

(** ** Properties *)

(** the text the parser gets is the file with every placeholder replaced
    by the value of its variable, and nothing else: text without a dollar sign
    is kept, and what a value holds is never expanded again. *)
Theorem expand_exact Getenv ps : Forall piece_ok ps -> expand Getenv (source ps) = meaning Getenv ps.
Proof. intros Hp. by apply expand_pieces. Qed.

(** a loaded configuration has a panel address with a port, positive
    limits for logins, ports within 16 bits, and, with a bot token, a whitelist
    without zeros. *)
Theorem Load_bounds `{Formats} {Value : Type} ReadFile Getenv (Unmarshal : bytes -> option (FileConfig Value)) path c :
  Load ReadFile Getenv Unmarshal path = Ok c ->
  1 <= PanelPort (Server c) <= 65535 /\ Domain (Server c) <> [] /\ PanelBind (Server c) <> [] /\
  1 <= LoginPerMinute (RateLimit (Panel c)) /\ 1 <= LockoutMinutes (RateLimit (Panel c)) /\
  0 <= DoTPort (DNS c) <= 65535 /\ 0 <= HTTPPort (IOS c) <= 65535 /\
  0 <= ListenHTTP (SniProxy (Proxy c)) <= 65535 /\ 0 <= LoopbackHTTPS (SniProxy (Proxy c)) <= 65535 /\
  (Token (TGBot c) <> [] -> exists ids, AdminChatIDs (TGBot c) = Some ids /\ 0 ∉ ids).
Proof.
  unfold Load. destruct (ReadFile path) as [raw|]; [|done]. destruct (Unmarshal _) as [cfg|]; [|done]. destruct (Struct cfg) eqn:ES; [|done].
  intros [= ->]. unfold Struct, valid_server, valid_panel, valid_proxy, valid_tgbot, port_required, port_optional, required in ES.
  destruct (AdminChatIDs (TGBot c)) as [ids|].
  - rewrite !andb_true_iff, !orb_true_iff, !andb_true_iff, !negb_true_iff, !bool_decide_eq_false, !bool_decide_eq_true, !Z.leb_le in ES.
    destruct ES as [[[[[[[HS HP] HD] HX] _] _] HF] HI]. split_and!; try tauto; try lia.
    intros _. exists ids. split; [done|]. intros Hin. rewrite forallb_forall in HF. apply list_elem_of_In in Hin. by specialize (HF _ Hin).
  - rewrite !andb_true_iff, !orb_true_iff, !andb_true_iff, !negb_true_iff, !bool_decide_eq_false, !bool_decide_eq_true, !Z.leb_le in ES.
    destruct ES as [[[[[[[HS HP] HD] HX] _] _] HF] HI]. split_and!; try tauto; try lia.
Qed.

(** ** A concrete configuration *)
Module Demo.
Local Open Scope string_scope.
Definition formats : Formats :=
  {| hostname := fun s => s != []; alphanum := fun s => s != []; cidr := fun s => s != []; url := fun s => s != [] |}.
Definition cfg (ids : option (list Z)) (port : Z) : FileConfig unit := {|
  Server := {| Domain := str "panel.example"; PanelPort := port; PanelBind := str "0.0.0.0"; TLS := {| Cert := []; Key := [] |} |};
  Panel := {| SessionTTL := 43200; RateLimit := {| LoginPerMinute := 5; LockoutMinutes := 15 |} |};
  DNS := {| DoTPort := 853; Upstreams := []; ChinaListSource := []; ChinaListPath := [] |};
  Proxy := {| SniProxy := {| ListenHTTP := 80; LoopbackHTTPS := 0 |};
              WAShim := {| Listen := str "127.0.0.1"; Port := 4443; Backend := str "127.0.0.1:1"; WAHost := str "wa.example";
                           AllowCIDR := [str "10.0.0.0/8"]; PeekTimeout := 0; ConnectTimeout := 0; DNSTTL := 0; MaxConn := 10 |};
              QUIC := {| q_Listen := [] |}; MihomoMixedPort := 7890 |};
  FileExits := [{| x_ID := str "DIRECT"; x_Protocol := str "direct"; x_Config := ∅ |}];
  Rules_ := {| Sources := []; DefaultsFile := [] |}; TGBot := {| Token := str "1:token"; AdminChatIDs := ids |};
  IOS := {| DoTDomain := []; ProfileUUID := []; HTTPPort := 0 |};
  LowMem := {| AutoDetectBelowMB := 0; HardLimits := {| GoMaxProcs := 0; MihomoMaxRAM := [] |} |} |}.
Definition load ids port := Load (H := formats) (fun _ => Some (str "tgbot: {token: ${TGBOT}}")) (fun _ => str "1:token") (fun _ => Some (cfg ids port)) (str "config.yaml").

(** A bot whose list of administrators is empty is accepted. *)
Example empty_admins : load (Some []) 443 = Ok (cfg (Some []) 443).
Proof. by vm_compute. Qed.
(** One with no list at all is not, nor is an address without a port. *)
Example no_admins : load None 443 = Err ErrValidate.
Proof. by vm_compute. Qed.
Example no_port : load (Some [7]) 0 = Err ErrValidate.
Proof. by vm_compute. Qed.
(** A value that itself looks like a placeholder is left as it is. *)
Example not_again : expand (fun _ => str "${HOME}") (str "a ${TGBOT} ${bad} $") = str "a ${HOME} ${bad} $".
Proof. by vm_compute. Qed.

Lemma parts_ok : Forall piece_ok [Text (str "token: "); Var (str "TGBOT"); Text (str "!")].
Proof. repeat constructor; try (apply (bool_decide_eq_true_1 _); by vm_compute). Qed.
Lemma loads : load (Some [7]) 443 = Ok (cfg (Some [7]) 443).
Proof. by vm_compute. Qed.

Lemma expand_exact_witness : expand (fun _ => str "1:x") (source [Text (str "token: "); Var (str "TGBOT"); Text (str "!")]) = str "token: 1:x!".
Proof. exact (expand_exact (fun _ => str "1:x") _ parts_ok). Defined.
Lemma Load_bounds_witness : 1 <= PanelPort (Server (cfg (Some [7]) 443)) <= 65535.
Proof. exact (proj1 (Load_bounds (H := formats) _ _ _ _ _ loads)). Defined.
End Demo.
