(* ===== verification/GoQuote.v ===== *)
(** * Go's quoted strings

    [strconv.Quote], the %q of fmt, with the table of printable runes beyond
    ASCII a parameter; the value of a rune and its UTF-8 encoding; and the
    reading of a double-quoted scalar by its escapes, as YAML defines them.
    For text that is UTF-8 the two are inverse: what a renderer quotes, a
    reader gets back, and it cannot end the scalar or its line. *)
From S2P Require Import Prelude GoStrings GoNet GoCodec Crypto.
From Stdlib Require Import ZArith Lia.
Local Open Scope Z_scope.

Definition newline : byte := Byte.x0a.
Definition quote : byte := Byte.x22.
Definition backslash : byte := Byte.x5c.

(** [strconv.IsPrint] of a rune of several bytes. *)
Class Printable := { is_print : bytes -> bool }.

(** ** Runes and their values *)
Definition rune_value (r : bytes) : Z :=
  match r with
  | [a] => bz a
  | [a; b] => (bz a - 192) * 64 + (bz b - 128)
  | [a; b; c] => (bz a - 224) * 4096 + (bz b - 128) * 64 + (bz c - 128)
  | [a; b; c; d] => (bz a - 240) * 262144 + (bz b - 128) * 4096 + (bz c - 128) * 64 + (bz d - 128)
  | _ => 0xfffd
  end.
Definition encode_rune (v : Z) : bytes :=
  if v <? 0x80 then [zb v]
  else if v <? 0x800 then [zb (192 + v / 64); zb (128 + v mod 64)]
  else if v <? 0x10000 then [zb (224 + v / 4096); zb (128 + v / 64 mod 64); zb (128 + v mod 64)]
  else [zb (240 + v / 262144); zb (128 + v / 4096 mod 64); zb (128 + v / 64 mod 64); zb (128 + v mod 64)].

(** ** Quote *)
Fixpoint hex_of (n : nat) (v : Z) : bytes :=
  match n with O => [] | S n => hex_of n (v / 16) ++ [hex_digit (v mod 16)] end.

Definition simple_escapes : list (byte * byte) :=
  [(zb 7, Byte.x61); (zb 8, Byte.x62); (zb 12, Byte.x66); (zb 10, Byte.x6e); (zb 13, Byte.x72); (zb 9, Byte.x74); (zb 11, Byte.x76)].

(** [appendEscapedRune]. *)
Definition quote_ascii (c : byte) : bytes :=
  if (c == quote) || (c == backslash) then [backslash; c]
  else if (32 <=? bz c) && (bz c <? 127) then [c]
  else match found (fun p => p.1 == c) simple_escapes with
       | Some (_, e) => [backslash; e]
       | None => backslash :: Byte.x78 :: hex_of 2 (bz c)
       end.
Definition quote_wide `{Printable} (r : bytes) : bytes :=
  if is_print r then r
  else let v := rune_value r in
       if v <? 0x10000 then backslash :: Byte.x75 :: hex_of 4 v else backslash :: Byte.x55 :: hex_of 8 v.

Fixpoint quote_loop `{Printable} (fuel : nat) (s : bytes) : bytes :=
  match fuel, s with
  | S fuel, c :: r =>
      match rune_width s with
      | O => backslash :: Byte.x78 :: hex_of 2 (bz c) ++ quote_loop fuel r
      | 1%nat => quote_ascii c ++ quote_loop fuel r
      | n => quote_wide (take n s) ++ quote_loop fuel (drop n s)
      end
  | _, _ => []
  end.
Definition Quote `{Printable} (s : bytes) : bytes := quote :: quote_loop (length s) s ++ [quote].

(** ** Reading a double-quoted scalar *)
Fixpoint read_hex (s : bytes) (acc : Z) : option Z :=
  match s with
  | [] => Some acc
  | c :: s => match hex_value c with Some d => read_hex s (acc * 16 + d) | None => None end
  end.
Definition hex_escape (n : nat) (s : bytes) : option (bytes * bytes) :=
  (fun v => (encode_rune v, drop n s)) <$> read_hex (take n s) 0.

(** One element of the scalar, and what follows it. *)
Definition read_unit (c : byte) (r : bytes) : option (bytes * bytes) :=
  if c == backslash then
    match r with
    | [] => None
    | e :: r =>
        if (e == quote) || (e == backslash) then Some ([e], r)
        else if e == Byte.x78 then hex_escape 2 r
        else if e == Byte.x75 then hex_escape 4 r
        else if e == Byte.x55 then hex_escape 8 r
        else (fun p => ([p.1], r)) <$> found (fun p => p.2 == e) simple_escapes
    end
  else Some ([c], r).

Fixpoint scalar_loop (fuel : nat) (s : bytes) : option (bytes * bytes) :=
  match fuel, s with
  | S fuel, c :: r =>
      if c == quote then Some ([], r)
      else '(u, r) ← read_unit c r; '(v, r) ← scalar_loop fuel r; Some (u ++ v, r)
  | _, _ => None
  end.

(** The quoted scalar at the front of a text, with what follows it. *)
Definition read_scalar (s : bytes) : option (bytes * bytes) :=
  match s with c :: r => if c == quote then scalar_loop (length r) r else None | [] => None end.

(** Text that is UTF-8. *)
Fixpoint utf8_loop (fuel : nat) (s : bytes) : bool :=
  match fuel, s with
  | _, [] => true
  | S fuel, _ => match rune_width s with O => false | n => utf8_loop fuel (drop n s) end
  | O, _ => false
  end.
Definition utf8 (s : bytes) : bool := utf8_loop (length s) s.

(** ** Texts of lines

    Constant text with double quotes is written with apostrophes. *)
Definition dq (s : String.string) : bytes := map (fun c => if c == Byte.x27 then quote else c) (str s).
Definition text_of (lines : list bytes) : bytes := concat (map (fun l => l ++ [newline]) lines).

(** What follows a prefix. *)
Fixpoint after (p s : bytes) : option bytes :=
  match p, s with
  | [], _ => Some s
  | a :: p, b :: s => if a == b then after p s else None
  | _, [] => None
  end.

(** ** Lemmas *)
Lemma hex_of_length n : forall v, length (hex_of n v) = n.
Proof. induction n as [|n IH]; intros v; cbn [hex_of]; [done|]. rewrite length_app, IH. cbn. lia. Qed.

Lemma hex_value_digit d : 0 <= d < 16 -> hex_value (hex_digit d) = Some d.
Proof.
  intros Hd. assert (d ∈ seqZ 0 16) as Hin by (apply elem_of_seqZ; lia). clear Hd. revert d Hin.
  apply Forall_forall. vm_compute. repeat constructor.
Qed.

Lemma read_hex_app a : forall b acc, read_hex (a ++ b) acc = (v ← read_hex a acc; read_hex b v).
Proof. induction a as [|c a IH]; intros b acc; cbn [app read_hex]; [done|]. destruct (hex_value c); [apply IH|done]. Qed.

Lemma read_hex_of n : forall v, 0 <= v < 16 ^ Z.of_nat n -> read_hex (hex_of n v) 0 = Some v.
Proof.
  induction n as [|n IH]; intros v Hv; cbn [hex_of read_hex]; [cbn in Hv; f_equal; lia|].
  rewrite Nat2Z.inj_succ, Z.pow_succ_r in Hv by lia. rewrite read_hex_app, IH by (split; [apply Z.div_pos; lia|apply Z.div_lt_upper_bound; lia]).
  cbn [mbind option_bind read_hex]. rewrite hex_value_digit by (apply Z.mod_pos_bound; lia). f_equal. pose proof (Z.div_mod v 16 ltac:(lia)). lia.
Qed.

Lemma hex_escape_of n v rest : 0 <= v < 16 ^ Z.of_nat n -> hex_escape n (hex_of n v ++ rest) = Some (encode_rune v, rest).
Proof.
  intros Hv. unfold hex_escape. rewrite take_app_length', drop_app_length' by (by rewrite hex_of_length). by rewrite read_hex_of.
Qed.

Lemma zb_is z c : z = bz c -> zb z = c.
Proof. intros ->. apply zb_bz. Qed.

(** The value of a rune gives the rune back. *)
Lemma encode_value s n : rune_width s = S n -> encode_rune (rune_value (take (S n) s)) = take (S n) s /\ 0 <= rune_value (take (S n) s) < 0x110000.
Proof.
  unfold rune_width, in_range, cont. intros E.
  repeat match type of E with
  | context [match ?x with [] => _ | _ :: _ => _ end] => destruct x; try done
  | context [if ?b then _ else _] => let H := fresh "B" in destruct b eqn:H; try done
  end; injection E as <-; cbn [take]; rewrite ?take_0; cbn [rune_value]; unfold in_range in *; rewrite ?andb_true_iff, ?Z.leb_le, ?Z.ltb_ge, ?Z.ltb_lt in *.
  all: repeat match goal with B : context [if ?b then _ else _] |- _ => destruct b eqn:? end; rewrite ?andb_true_iff, ?Z.leb_le, ?Z.eqb_eq, ?Z.eqb_neq in *.
  all: repeat match goal with |- context [bz ?a] => lazymatch goal with R : 0 <= bz a < 256 |- _ => fail | _ => pose proof (bz_range a) end end.
  all: try (exfalso; lia).
  all: unfold encode_rune.
  all: repeat match goal with |- context [?a <? ?b] => first [rewrite (proj2 (Z.ltb_lt a b)) by lia|rewrite (proj2 (Z.ltb_ge a b)) by lia] end.
  all: split; [|lia].
  all: repeat (f_equal; [apply zb_is; Z.to_euclidean_division_equations; lia|]).
  all: f_equal; apply zb_is; Z.to_euclidean_division_equations; lia.
Qed.

(** Each unit of a quoted text is read back, whatever follows. *)
Definition unit_of `{Printable} (u v : bytes) : Prop := exists c, head u = Some c /\ c <> quote /\ forall rest, read_unit c (tail u ++ rest) = Some (v, rest).

Lemma quote_ascii_unit `{Printable} c : bz c < 128 -> unit_of (quote_ascii c) [c].
Proof.
  intros Hc. destruct c; try (by vm_compute in Hc); (eexists; split; [reflexivity|]; split; [done|]; intros rest; reflexivity).
Qed.

Lemma escape_unit `{Printable} e n v : v < 0x110000 -> (e = Byte.x75 /\ n = 4%nat /\ 0 <= v < 65536) \/ (e = Byte.x55 /\ n = 8%nat /\ 0 <= v < 4294967296) ->
  unit_of (backslash :: e :: hex_of n v) (encode_rune v).
Proof.
  intros Hm Hv. exists backslash. split; [done|]. split; [done|]. intros rest. cbn [tail app]. unfold read_unit. rewrite (bool_decide_true (backslash = backslash)) by done.
  destruct Hv as [(-> & -> & Hv)|(-> & -> & Hv)]; cbn [app].
  - change (hex_escape 4 (hex_of 4 v ++ rest) = Some (encode_rune v, rest)). by apply hex_escape_of.
  - change (hex_escape 8 (hex_of 8 v ++ rest) = Some (encode_rune v, rest)). by apply hex_escape_of.
Qed.

Lemma quote_wide_unit `{Printable} s n : rune_width s = S (S n) -> quote_wide (take (S (S n)) s) = take (S (S n)) s \/ unit_of (quote_wide (take (S (S n)) s)) (take (S (S n)) s).
Proof.
  intros E. unfold quote_wide. destruct (is_print _); [by left|]. right. destruct (encode_value _ _ E) as [EV HV].
  set (r := take _ s) in *. set (v := rune_value r) in *.
  assert (unit_of (if v <? 0x10000 then backslash :: Byte.x75 :: hex_of 4 v else backslash :: Byte.x55 :: hex_of 8 v) (encode_rune v)) as HU; [|by rewrite EV in HU].
  clearbody v. clear EV. destruct (Z.ltb_spec v 0x10000); apply escape_unit; try lia.
  - left. split_and!; [done|done|lia|lia].
  - right. split_and!; [done|done|lia|lia].
Qed.

Lemma scalar_unit u v rest fuel : (exists c, head u = Some c /\ c <> quote /\ read_unit c (tail u ++ rest) = Some (v, rest)) ->
  (length (u ++ rest) <= fuel)%nat -> exists fuel', (length rest <= fuel')%nat /\ scalar_loop fuel (u ++ rest) = ('(w, r) ← scalar_loop fuel' rest; Some (v ++ w, r)).
Proof.
  intros (c & Hc & Hq & Hr) Hf. destruct u as [|x u]; [done|]. injection Hc as ->. destruct fuel as [|fuel]; [cbn in Hf; lia|].
  exists fuel. split; [cbn in Hf; rewrite length_app in Hf; lia|]. cbn [app scalar_loop]. rewrite (bool_decide_false _ Hq). cbn [tail] in Hr. by rewrite Hr.
Qed.

Lemma scalar_raw r rest : Forall (fun c => 128 <= bz c) r -> forall fuel, (length (r ++ rest) <= fuel)%nat ->
  exists fuel', (length rest <= fuel')%nat /\ scalar_loop fuel (r ++ rest) = ('(w, t) ← scalar_loop fuel' rest; Some (r ++ w, t)).
Proof.
  induction 1 as [|c r Hc Hr IH]; intros fuel Hf.
  - exists fuel. split; [done|]. cbn [app]. by destruct (scalar_loop fuel rest) as [[]|].
  - assert (c <> quote /\ c <> backslash) as [Hq Hb] by (split; intros ->; by vm_compute in Hc).
    destruct (scalar_unit [c] [c] (r ++ rest) fuel) as (f1 & H1 & E1); [|done|].
    { exists c. split; [done|]. split; [done|]. unfold read_unit. by rewrite (bool_decide_false _ Hb). }
    destruct (IH f1 H1) as (f2 & H2 & E2). exists f2. split; [done|]. cbn [app] in E1 |- *. rewrite E1, E2.
    by destruct (scalar_loop f2 rest) as [[]|].
Qed.

(** The steps of [quote_loop] on text that is UTF-8. *)
Lemma quote_step `{Printable} f c r n : rune_width (c :: r) = S n ->
  exists q, quote_loop (S f) (c :: r) = q ++ quote_loop f (drop (S n) (c :: r)) /\
    ((q = take (S n) (c :: r) /\ Forall (fun c => 128 <= bz c) q) \/ unit_of q (take (S n) (c :: r))).
Proof.
  intros E. cbn [quote_loop]. rewrite E. destruct n as [|n].
  - exists (quote_ascii c). split; [done|]. right. cbn [take]. rewrite take_0. apply quote_ascii_unit.
    cbn [rune_width] in E. destruct (Z.ltb_spec (bz c) 128) as [Hc|Hc]; [done|]. exfalso.
    repeat match type of E with
    | context [match ?x with [] => _ | _ :: _ => _ end] => destruct x; try done
    | context [if ?b then _ else _] => destruct b; try done
    end.
  - exists (quote_wide (take (S (S n)) (c :: r))). split; [done|]. destruct (quote_wide_unit _ _ E) as [->|HU]; [left|by right].
    split; [done|]. by apply rune_width_high.
Qed.

Lemma quote_loop_reads `{Printable} rest f : forall s, utf8_loop f s = true -> forall fuel, (length (quote_loop f s ++ quote :: rest) <= fuel)%nat ->
  scalar_loop fuel (quote_loop f s ++ quote :: rest) = Some (s, rest).
Proof.
  induction f as [|f IH]; intros [|c r] Hu fuel Hf; try done.
  1, 2: destruct fuel as [|fuel]; [cbn in Hf; lia|reflexivity].
  cbn [utf8_loop] in Hu. destruct (rune_width (c :: r)) as [|n] eqn:E; [done|]. destruct (quote_step f c r n E) as (q & Eq & Hq). rewrite Eq, <- app_assoc in *.
  assert (exists f', (length (quote_loop f (drop (S n) (c :: r)) ++ quote :: rest) <= f')%nat /\
    scalar_loop fuel (q ++ quote_loop f (drop (S n) (c :: r)) ++ quote :: rest) =
      ('(w, t) ← scalar_loop f' (quote_loop f (drop (S n) (c :: r)) ++ quote :: rest); Some (take (S n) (c :: r) ++ w, t))) as (f' & Hf' & ->).
  { destruct Hq as [[Ht HF]|(x & Hx & Hn & HR)]; [rewrite <- Ht; by apply scalar_raw|]. apply scalar_unit; [by exists x|done]. }
  rewrite IH by done. cbn [mbind option_bind]. by rewrite take_drop.
Qed.

Lemma quote_ascii_free c : newline ∉ quote_ascii c.
Proof.
  assert (forallb (fun c => negb (bool_decide (newline ∈ quote_ascii c))) (map zb (seqZ 0 256)) = true) as HA by (by vm_compute).
  rewrite forallb_forall in HA. specialize (HA c). rewrite negb_true_iff, bool_decide_eq_false in HA. apply HA.
  apply in_map_iff. exists (bz c). split; [apply zb_bz|]. apply list_elem_of_In, elem_of_seqZ. pose proof (bz_range c). lia.
Qed.

Lemma hex_of_free n : forall v, newline ∉ hex_of n v.
Proof.
  induction n as [|n IH]; intros v; cbn [hex_of]; [apply not_elem_of_nil|]. rewrite elem_of_app, list_elem_of_singleton. intros [Hin|Hd]; [by apply IH in Hin|].
  pose proof (Z.mod_pos_bound v 16 ltac:(lia)) as Hv. pose proof (hex_value_digit _ Hv) as HV. by rewrite <- Hd in HV.
Qed.

Lemma quote_loop_free `{Printable} f : forall s, newline ∉ quote_loop f s.
Proof.
  assert (forall r : bytes, Forall (fun c => 128 <= bz c) r -> newline ∉ r) as HH.
  { intros r Hr Hin. rewrite Forall_forall in Hr. by specialize (Hr _ Hin). }
  induction f as [|f IH]; intros [|c r]; cbn [quote_loop]; try apply not_elem_of_nil. destruct (rune_width (c :: r)) as [|[|n]] eqn:E.
  - rewrite !elem_of_cons, elem_of_app. intros [?|[?|[Hin|Hin]]]; [done|done|by apply hex_of_free in Hin|by apply IH in Hin].
  - rewrite elem_of_app. intros [Hin|Hin]; [by apply quote_ascii_free in Hin|by apply IH in Hin].
  - rewrite elem_of_app. intros [Hin|Hin]; [|by apply IH in Hin]. unfold quote_wide in Hin.
    destruct (is_print _); [revert Hin; apply HH; by apply rune_width_high|].
    destruct (_ <? _); rewrite !elem_of_cons in Hin; destruct Hin as [?|[?|Hin]]; try done; by apply hex_of_free in Hin.
Qed.

(** A quoted text is one line. *)
Lemma Quote_free `{Printable} s : newline ∉ Quote s.
Proof.
  unfold Quote. rewrite elem_of_cons, elem_of_app, list_elem_of_singleton. intros [?|[Hin|?]]; [done|by apply quote_loop_free in Hin|done].
Qed.

(** What a renderer quotes a reader gets back. *)
Lemma read_Quote `{Printable} s rest : utf8 s = true -> read_scalar (Quote s ++ rest) = Some (s, rest).
Proof.
  intros Hs. unfold read_scalar, Quote. cbn [app]. rewrite bool_decide_true by done. rewrite <- app_assoc. by apply quote_loop_reads.
Qed.

Lemma ascii_utf8 s : is_ascii s = true -> utf8 s = true.
Proof.
  unfold utf8. induction s as [|c s IH]; [done|]. cbn [is_ascii forallb]. intros [Hc Hs]%andb_true_iff. cbn [length utf8_loop rune_width].
  rewrite Hc. by apply IH.
Qed.

Lemma after_app p s : after p (p ++ s) = Some s.
Proof. induction p as [|c p IH]; [done|]. cbn [app after]. by rewrite bool_decide_true. Qed.

Lemma split_text lines : Forall (fun l => newline ∉ l) lines -> Split (text_of lines) newline = lines ++ [[]].
Proof.
  unfold text_of. induction 1 as [|l lines Hl _ IH]; [done|]. cbn [map concat]. rewrite <- app_assoc. cbn [app].
  rewrite Split_app, IH, (Split_free_single _ _ Hl). done.
Qed.

Lemma Itoa_line n : 0 <= n < 10 ^ 20 -> newline ∉ strconv_Itoa n.
Proof.
  intros Hn. destruct (decide (n = 0)) as [->|Hz]; [apply (bool_decide_eq_true_1 _); by vm_compute|].
  intros Hin. assert (visible (strconv_Itoa n)) as HV by (apply Itoa_visible; lia). unfold visible in HV. rewrite Forall_forall in HV. by specialize (HV _ Hin).
Qed.

Lemma rune_width_app s t n : rune_width s = S n -> rune_width (s ++ t) = S n.
Proof.
  unfold rune_width. intros E.
  repeat match type of E with
  | context [match ?x with [] => _ | _ :: _ => _ end] => destruct x; try done
  | context [if ?b then _ else _] => let H := fresh "B" in destruct b eqn:H; try done
  end; cbn [app]; rewrite ?B, ?B0, ?B1, ?B2; done.
Qed.

Lemma rune_width_length s n : rune_width s = S n -> (S n <= length s)%nat.
Proof.
  unfold rune_width. intros E.
  repeat match type of E with
  | context [match ?x with [] => _ | _ :: _ => _ end] => destruct x; try done
  | context [if ?b then _ else _] => destruct b; try done
  end; injection E as <-; cbn; lia.
Qed.

Lemma utf8_loop_more f : forall s g, utf8_loop f s = true -> (f <= g)%nat -> utf8_loop g s = true.
Proof.
  induction f as [|f IH]; intros [|c s] [|g] Hu Hg; try done; [lia|]. cbn [utf8_loop] in *. destruct (rune_width (c :: s)); [done|]. apply IH; [done|lia].
Qed.

Lemma utf8_loop_app f : forall s t, utf8_loop f s = true -> utf8 t = true -> utf8_loop (f + length t) (s ++ t) = true.
Proof.
  induction f as [|f IH]; intros [|c s] t Hu Ht; try done.
  - cbn [app]. by apply (utf8_loop_more (length t)); [|lia].
  - cbn [app Nat.add utf8_loop] in *. destruct (rune_width (c :: s)) as [|n] eqn:E; [done|].
    change (c :: s ++ t) with ((c :: s) ++ t). rewrite (rune_width_app _ t _ E), drop_app_le by (by apply rune_width_length). by apply IH.
Qed.

Lemma utf8_app s t : utf8 s = true -> utf8 t = true -> utf8 (s ++ t) = true.
Proof. intros Hs Ht. unfold utf8. rewrite length_app. by apply utf8_loop_app. Qed.

Module Demo.
Definition latin : Printable := {| is_print := fun r => bool_decide (r ∈ [str "é"; str "…"]) |}.
#[local] Existing Instance latin.
Definition tab_quote : bytes := str "a" ++ [zb 9; quote; zb 1; zb 255] ++ str "é" ++ map zb [226; 128; 139].
Example quoted : Quote tab_quote = quote :: str "a\t\" ++ quote :: str "\x01\xffé\u200b" ++ [quote].
Proof. by vm_compute. Qed.
(** A byte that is not UTF-8 comes back as the code point of that number. *)
Example not_utf8 : read_scalar (Quote [zb 255]) = Some (map zb [195; 191], []).
Proof. by vm_compute. Qed.
End Demo.
