(* ===== verification/Render.v ===== *)
(** * The renderers of dnsdist and sniproxy

    internal/config/render: dnsdist.go, sniproxy.go.  The templates are written
    out line by line (with an apostrophe, which neither has, for a double
    quote), so text/template is the concatenation of the lines with the values
    in their places. *)
From S2P Require Import Prelude GoStrings GoNet GoCodec Crypto Exit ConfigFile.
From S2P Require Import GoQuote.
From Stdlib Require Import ZArith Lia.
Local Open Scope Z_scope.

Definition defaultChinaListPath : bytes := str "/var/lib/5gpn/chinalist.txt".
Definition dnsdist_upstreams : list bytes := [str "1.1.1.1:53"; str "8.8.8.8:53"].
Definition sniproxy_upstreams : list bytes := [str "1.1.1.1"; str "8.8.8.8"].

Definition splitHostPort (hp defaultPort : bytes) : bytes * bytes :=
  match LastIndexByte hp colon with
  | Some (S i) => if HasSuffix hp (str "]") then (hp, defaultPort) else (take (S i) hp, drop (S (S i)) hp)
  | _ => (hp, defaultPort)
  end.
Definition firstNonEmpty (a b : bytes) : bytes := if a == [] then b else a.
Definition firstNonZero (a b : Z) : Z := if a =? 0 then b else a.

Section render.
Context `{Printable} {Value : Type}.

(** ** dnsdist.go *)
Record Backend := { b_Address : bytes; b_Pool : bytes; b_Name : bytes; b_Order : Z }.

(** The server of the [i]th upstream, from 0, and its line. *)
Definition remote (i : nat) (u : bytes) : Backend :=
  let '(host, port) := splitHostPort u (str "53") in
  {| b_Address := host ++ str ":" ++ port; b_Pool := str "remote"; b_Name := str "remote_" ++ strconv_Itoa (Z.of_nat i + 1); b_Order := Z.of_nat i + 2 |}.
Definition server_line (b : Backend) : bytes :=
  str "newServer({address=" ++ Quote (b_Address b) ++ str ", pool=" ++ Quote (b_Pool b) ++ str ", name=" ++ Quote (b_Name b) ++
  str ", order=" ++ strconv_Itoa (b_Order b) ++ str "})".
Definition remoteBlock (upstreams : list bytes) : list bytes := map server_line (imap remote upstreams).

Definition china_line : bytes :=
  dq "newServer({address='127.0.0.1:5301', pool='china', name='china_dns_race', order=1, useClientSubnet=true})".

Definition dnsdist_head (cert key : bytes) (port : Z) : list bytes := [
    dq "-- Auto-generated by 5gpn — do not hand-edit.";
    dq "setServerPolicy(leastOutstanding)";
    dq "addLocal('0.0.0.0:53', {doTCP=true})";
    [];
    dq "-- DoT listener";
    dq "certPath = '" ++ cert ++ dq "'";
    dq "keyPath  = '" ++ key ++ dq "'";
    dq "addTLSLocal('0.0.0.0:" ++ (strconv_Itoa port) ++ dq "', certPath, keyPath, {";
    dq "    provider='openssl',";
    dq "    sessionTickets=true,";
    dq "    sessionTimeout=3600";
    dq "})";
    [];
    dq "-- China DNS pool (served by internal race proxy on 127.0.0.1:5301)";
    china_line;
    [];
    dq "-- Remote DNS pool"].
Definition dnsdist_tail (path quoted : bytes) : list bytes := [
    dq "-- ACL: NPN client network gets full service, others only DoT.";
    dq "setACL({'0.0.0.0/0', '::/0'})";
    dq "privateClientRule = makeRule({'172.22.0.0/16'})";
    dq "nonPrivateClientRule = NotRule(privateClientRule)";
    dq "addAction(AndRule({nonPrivateClientRule, DSTPortRule(53)}), DropAction())";
    [];
    dq "-- Rate limit per client IP (drop above 10k qps)";
    dq "addAction(MaxQPSIPRule(10000), DropAction())";
    [];
    dq "-- IPv4-only: return NODATA for AAAA queries.";
    dq "addAction(QTypeRule(DNSQType.AAAA), RCodeAction(DNSRCode.NOERROR))";
    [];
    dq "-- ChinaList domains -> china pool (source: " ++ path ++ dq ")";
    dq "local chinaList = newSuffixMatchNode()";
    dq "pcall(function()";
    dq "    for line in io.lines(" ++ quoted ++ dq ") do";
    dq "        local trimmed = line:match('^%s*(.-)%s*$')";
    dq "        if trimmed ~= '' and trimmed:sub(1,1) ~= '#' then";
    dq "            chinaList:add(newDNSName(trimmed))";
    dq "        end";
    dq "    end";
    dq "end)";
    dq "if not pcall(io.lines, " ++ quoted ++ dq ") then";
    dq "    warnlog('5gpn: chinalist file not found or unreadable: " ++ path ++ dq "')";
    dq "end";
    [];
    dq "-- Everything else -> remote pool";
    dq "addAction(SuffixMatchNodeRule(chinaList), PoolAction('china'))";
    dq "addAction(AllRule(), PoolAction('remote'))"].

(** The block of servers ends with a line feed of its own. *)
Definition dnsdistTemplate (cert key : bytes) (port : Z) (upstreams : list bytes) (path : bytes) : bytes :=
  text_of (dnsdist_head cert key port ++ upstreams ++ [] :: dnsdist_tail path (Quote path)).

Definition upstreams_or (l def : list bytes) : list bytes := if l == [] then def else l.

Definition DnsdistRender (cfg : option (FileConfig Value)) : option bytes :=
  cfg ← cfg;
  let upstreams := upstreams_or (Upstreams (DNS cfg)) dnsdist_upstreams in
  Some (dnsdistTemplate (firstNonEmpty (Cert (TLS (Server cfg))) (str "/etc/dnsdist/certs/fullchain.pem"))
    (firstNonEmpty (Key (TLS (Server cfg))) (str "/etc/dnsdist/certs/privkey.pem")) (firstNonZero (DoTPort (DNS cfg)) 853)
    (remoteBlock upstreams) (firstNonEmpty (ChinaListPath (DNS cfg)) defaultChinaListPath)).

(** ** sniproxy.go *)
Definition nameserver_line (u : bytes) : bytes := str "    nameserver " ++ (splitHostPort u (str "53")).1.
Definition sniproxyTemplate (nameservers : list bytes) (http loopback : Z) : bytes :=
  text_of ([dq "# Auto-generated by 5gpn — do not hand-edit."; dq "user pxout"; dq "pidfile /var/run/sniproxy.pid"; []; dq "resolver {"] ++ nameservers ++ [
    dq "    mode ipv4_only";
    dq "}";
    [];
    dq "error_log {";
    dq "    syslog daemon";
    dq "    priority notice";
    dq "}";
    [];
    dq "listener 0.0.0.0:" ++ (strconv_Itoa http) ++ dq " {";
    dq "    protocol http";
    dq "    table http_hosts";
    dq "}";
    [];
    dq "# wa-shim owns public TCP/443 and fails open to this loopback backend.";
    dq "listener 127.0.0.1:" ++ (strconv_Itoa loopback) ++ dq " {";
    dq "    protocol tls";
    dq "    table tls_hosts";
    dq "}";
    [];
    dq "table http_hosts {";
    dq "    .* *:80";
    dq "}";
    [];
    dq "table tls_hosts {";
    dq "    .* *:443";
    dq "}"]).
Definition SniproxyRender (cfg : option (FileConfig Value)) : option bytes :=
  cfg ← cfg;
  Some (sniproxyTemplate (map nameserver_line (upstreams_or (Upstreams (DNS cfg)) sniproxy_upstreams))
    (firstNonZero (ListenHTTP (SniProxy (Proxy cfg))) 80) (firstNonZero (LoopbackHTTPS (SniProxy (Proxy cfg))) 8443)).
End render.

(** ** Reading the servers back *)
Fixpoint digits (s : bytes) : bytes := match s with c :: r => if is_digit c then c :: digits r else [] | [] => [] end.

Definition read_server (line : bytes) : option Backend :=
  r ← after (str "newServer({address=") line; '(a, r) ← read_scalar r;
  r ← after (str ", pool=") r; '(p, r) ← read_scalar r;
  r ← after (str ", name=") r; '(n, r) ← read_scalar r;
  r ← after (str ", order=") r;
  Some {| b_Address := a; b_Pool := p; b_Name := n; b_Order := dec_value (digits r) |}.
Definition backends (text : bytes) : list Backend := omap read_server (Split text newline).
Definition china : Backend := {| b_Address := str "127.0.0.1:5301"; b_Pool := str "china"; b_Name := str "china_dns_race"; b_Order := 1 |}.

Definition nameservers (text : bytes) : list bytes := omap (after (str "    nameserver ")) (Split text newline).

(** ** Lemmas *)
Lemma digits_of n rest : 0 < n < 10 ^ 20 -> (forall c r, rest = c :: r -> is_digit c = false) -> digits (strconv_Itoa n ++ rest) = strconv_Itoa n.
Proof.
  intros Hn Hr. destruct (strconv_Itoa_pos n Hn) as (_ & HF & _). induction HF as [|c s Hc _ IH].
  - cbn [app]. destruct rest as [|c r]; [done|]. cbn [digits]. by rewrite (Hr c r).
  - cbn [app digits]. unfold digit_byte in Hc. unfold is_digit. rewrite (proj2 (Z.leb_le 48 _)), (proj2 (Z.leb_le _ 57)) by lia. cbn [andb]. by rewrite IH.
Qed.


Section lemmas.
Context `{Printable} `{Formats} {Value : Type}.

Lemma read_server_line b : utf8 (b_Address b) = true -> utf8 (b_Pool b) = true -> utf8 (b_Name b) = true -> 0 < b_Order b < 10 ^ 20 ->
  read_server (server_line b) = Some b.
Proof.
  intros Ha Hp Hn Ho. unfold read_server, server_line. rewrite after_app. cbn [mbind option_bind]. rewrite read_Quote by done. cbn [mbind option_bind].
  rewrite after_app. cbn [mbind option_bind]. rewrite read_Quote by done. cbn [mbind option_bind]. rewrite after_app. cbn [mbind option_bind].
  rewrite read_Quote by done. cbn [mbind option_bind]. rewrite after_app. cbn [mbind option_bind].
  rewrite digits_of by (done || by intros ? ? [= <- <-]). destruct (strconv_Itoa_pos _ Ho) as (_ & _ & ->). by destruct b.
Qed.

Lemma server_line_free b : 0 < b_Order b < 10 ^ 20 -> newline ∉ server_line b.
Proof.
  intros Ho. unfold server_line. rewrite !elem_of_app. intros [Hin|[Hin|[Hin|[Hin|[Hin|[Hin|[Hin|[Hin|Hin]]]]]]]];
    first [by apply Quote_free in Hin|apply Itoa_line in Hin; [done|lia]|revert Hin; apply (bool_decide_eq_true_1 _); by vm_compute].
Qed.

(** The address of a backend is the entry itself, or with the default port. *)
Lemma splitHostPort_address hp port : let '(h, p) := splitHostPort hp port in h ++ str ":" ++ p = hp \/ h ++ str ":" ++ p = hp ++ str ":" ++ port.
Proof.
  unfold splitHostPort. destruct (decide (colon ∈ hp)) as [Hin|Hno].
  - apply list_elem_of_split_r in Hin as (a & b & -> & Hb). rewrite LastIndexByte_app by done. destruct (length a) as [|n] eqn:EL; [by right|].
    destruct (HasSuffix _ _); [by right|]. left. rewrite <- EL, take_app_length. change (S (length a)) with (1 + length a)%nat.
    rewrite Nat.add_comm, <- drop_drop, drop_app_length. done.
  - assert (IndexByte (reverse hp) colon = None) as E.
    { destruct (IndexByte (reverse hp) colon) eqn:E; [|done]. exfalso. apply Hno. unfold IndexByte in E. apply fmap_Some in E as ([i c] & E & _).
      apply list_find_Some in E as (Hi & -> & _). apply list_elem_of_lookup_2 in Hi. by rewrite elem_of_reverse in Hi. }
    unfold LastIndexByte. rewrite E. by right.
Qed.

Lemma remote_utf8 i u : utf8 u = true -> (Z.of_nat i < 10 ^ 19) ->
  utf8 (b_Address (remote i u)) = true /\ utf8 (b_Pool (remote i u)) = true /\ utf8 (b_Name (remote i u)) = true /\ 0 < b_Order (remote i u) < 10 ^ 20.
Proof.
  intros Hu Hi. unfold remote. pose proof (splitHostPort_address u (str "53")) as HA. destruct (splitHostPort u (str "53")) as [h p]. cbn [b_Address b_Pool b_Name b_Order].
  split_and!; [|done| |lia|lia].
  - destruct HA as [-> | ->]; [done|by apply utf8_app].
  - apply utf8_app; [done|]. apply ascii_utf8, visible_ascii, Itoa_visible. lia.
Qed.

Lemma head_servers cert key port : omap read_server (dnsdist_head cert key port) = [china].
Proof. unfold dnsdist_head. generalize (strconv_Itoa port). intros p. vm_compute. reflexivity. Qed.

Lemma tail_servers path quoted : omap read_server (dnsdist_tail path quoted) = [].
Proof. vm_compute. reflexivity. Qed.
End lemmas.

(** ** Properties *)
Section properties.
Context `{Printable} `{Formats} {Value : Type}.

Lemma in_lines l (lines : list bytes) : Forall (fun l => newline ∉ l) lines -> l ∈ lines -> newline ∉ l.
Proof. rewrite Forall_forall. auto. Qed.

Lemma head_free cert key port : newline ∉ cert -> newline ∉ key -> 0 <= port < 10 ^ 20 -> Forall (fun l => newline ∉ l) (dnsdist_head cert key port).
Proof.
  intros Hc Hk Hp. apply Itoa_line in Hp. unfold dnsdist_head. revert Hp. generalize (strconv_Itoa port). intros p Hp.
  repeat (apply Forall_cons; split); try apply Forall_nil_2; rewrite ?not_elem_of_app; split_and?; try done;
    apply (bool_decide_eq_true_1 _); by vm_compute.
Qed.

Lemma tail_free path : newline ∉ path -> Forall (fun l => newline ∉ l) (dnsdist_tail path (Quote path)).
Proof.
  intros Hp. pose proof (Quote_free path) as Hq. revert Hq. generalize (Quote path). intros q Hq. unfold dnsdist_tail.
  repeat (apply Forall_cons; split); try apply Forall_nil_2; rewrite ?not_elem_of_app; split_and?; try done;
    apply (bool_decide_eq_true_1 _); by vm_compute.
Qed.

(** the servers dnsdist finds in the rendered file are the local race proxy
    as the only member of the china pool and the configured upstreams, in
    their order, with their addresses whatever characters they hold, as the
    members of the remote pool; the two default ones when there are none. *)
Theorem dnsdist_pools (cfg : FileConfig Value) text :
  Struct cfg = true -> newline ∉ Cert (TLS (Server cfg)) -> newline ∉ Key (TLS (Server cfg)) -> newline ∉ ChinaListPath (DNS cfg) ->
  Forall (fun u => utf8 u = true) (Upstreams (DNS cfg)) -> len (Upstreams (DNS cfg)) < 10 ^ 19 ->
  DnsdistRender (Some cfg) = Some text ->
  backends text = china :: imap remote (upstreams_or (Upstreams (DNS cfg)) dnsdist_upstreams).
Proof.
  intros HS Hc Hk Hl Hu Hn [= <-]. unfold backends, dnsdistTemplate.
  set (ups := upstreams_or _ _). assert (Forall (fun u => utf8 u = true) ups /\ len ups < 10 ^ 19) as [Hu' Hn'].
  { unfold ups, upstreams_or. case_bool_decide; [|done]. split; [repeat constructor|done]. }
  assert (forall (a d : bytes), newline ∉ a -> newline ∉ d -> newline ∉ firstNonEmpty a d) as HF by (intros a d Ha Hd; unfold firstNonEmpty; by case_bool_decide).
  assert (forall i u, ups !! i = Some u -> utf8 (b_Address (remote i u)) = true /\ utf8 (b_Pool (remote i u)) = true /\ utf8 (b_Name (remote i u)) = true /\ 0 < b_Order (remote i u) < 10 ^ 20) as HR.
  { intros i u Hi. pose proof (lookup_lt_Some _ _ _ Hi). apply remote_utf8; [rewrite Forall_lookup in Hu'; by apply (Hu' i)|unfold len in Hn'; lia]. }
  assert (forall b, b ∈ imap remote ups -> exists i u, ups !! i = Some u /\ b = remote i u) as HI.
  { intros b (i & Hi)%list_elem_of_lookup. rewrite list_lookup_imap in Hi. apply fmap_Some in Hi as (u & Hu2 & ->). by exists i, u. }
  rewrite split_text.
  - rewrite !omap_app, head_servers. change (omap read_server [[]]) with (@nil Backend).
    assert (forall p q, omap read_server ([] :: dnsdist_tail p q) = []) as -> by (intros p q; exact (tail_servers p q)). rewrite !app_nil_r.
    cbn [app]. f_equal. unfold remoteBlock. clear -HR HI. assert (forall l, (forall b, b ∈ l -> exists i u, ups !! i = Some u /\ b = remote i u) -> omap read_server (map server_line l) = l) as HM; [|by apply HM].
    induction l as [|b l IH]; intros Hb; [done|]. cbn [map omap list_omap]. destruct (Hb b ltac:(left)) as (i & u & Hi & ->). destruct (HR i u Hi) as (H1 & H2 & H3 & H4).
    rewrite read_server_line by done. f_equal. apply IH. intros b' Hb'. apply Hb. by right.
  - apply Forall_app. split; [|apply Forall_app; split].
    + unfold Struct in HS. apply andb_true_iff in HS as [HS _]. rewrite !andb_true_iff in HS. destruct HS as ((((((_ & _) & HP) & _) & _) & _) & _).
      unfold port_optional in HP. rewrite orb_true_iff, bool_decide_eq_true, andb_true_iff, !Z.leb_le in HP.
      apply head_free; [apply HF; [done|apply (bool_decide_eq_true_1 _); by vm_compute]..|]. unfold firstNonZero. destruct (Z.eqb_spec (DoTPort (DNS cfg)) 0); lia.
    + unfold remoteBlock. apply Forall_forall. intros l (b & -> & Hb)%list_elem_of_fmap. destruct (HI b Hb) as (i & u & Hi & ->). destruct (HR i u Hi) as (_ & _ & _ & Ho). by apply server_line_free.
    + constructor; [apply not_elem_of_nil|]. apply tail_free, HF; [done|]. apply (bool_decide_eq_true_1 _); by vm_compute.
Qed.

Lemma nameserver_free u : newline ∉ u -> newline ∉ nameserver_line u.
Proof.
  intros Hu. unfold nameserver_line, splitHostPort. rewrite not_elem_of_app. split; [apply (bool_decide_eq_true_1 _); by vm_compute|].
  destruct (LastIndexByte u colon) as [[|i]|]; try done. destruct (HasSuffix _ _); [done|]. cbn [fst]. intros Hin. apply Hu. by apply subseteq_take in Hin.
Qed.

(** the name servers of sniproxy are the parts of the upstreams before their
    last colon, in their order. *)
Theorem sniproxy_nameservers (cfg : FileConfig Value) text :
  Struct cfg = true -> Forall (fun u => newline ∉ u) (Upstreams (DNS cfg)) -> SniproxyRender (Some cfg) = Some text ->
  nameservers text = map (fun u => (splitHostPort u (str "53")).1) (upstreams_or (Upstreams (DNS cfg)) sniproxy_upstreams).
Proof.
  intros HS Hu [= <-]. unfold nameservers, sniproxyTemplate.
  set (ups := upstreams_or _ _). assert (Forall (fun u => newline ∉ u) ups) as Hu'.
  { unfold ups, upstreams_or. case_bool_decide; [|done]. repeat constructor; apply (bool_decide_eq_true_1 _); by vm_compute. }
  assert (forall a d, 0 <= a <= 65535 -> 0 <= d <= 65535 -> newline ∉ strconv_Itoa (firstNonZero a d)) as HP.
  { intros a d Ha Hd. apply Itoa_line. unfold firstNonZero. destruct (a =? 0); lia. }
  unfold Struct in HS. rewrite !andb_true_iff in HS. destruct HS as (((((_ & HS) & _) & _) & _) & _).
  unfold valid_proxy, port_optional in HS. rewrite !andb_true_iff, !orb_true_iff, !bool_decide_eq_true, !andb_true_iff, !Z.leb_le in HS.
  pose proof (HP (ListenHTTP (SniProxy (Proxy cfg))) 80 ltac:(lia) ltac:(lia)) as H1. pose proof (HP (LoopbackHTTPS (SniProxy (Proxy cfg))) 8443 ltac:(lia) ltac:(lia)) as H2.
  revert H1 H2. generalize (strconv_Itoa (firstNonZero (ListenHTTP (SniProxy (Proxy cfg))) 80)) (strconv_Itoa (firstNonZero (LoopbackHTTPS (SniProxy (Proxy cfg))) 8443)).
  intros p q Hp Hq. clear HP HS. rewrite split_text.
  - rewrite !omap_app.
    match goal with |- (?x ++ ?y ++ ?z) ++ ?w = _ => change x with (@nil bytes); change w with (@nil bytes);
      assert (z = []) as -> by (vm_compute; reflexivity) end. rewrite !app_nil_r. cbn [app]. clear. induction ups as [|u ups IH]; [done|]. cbn [map omap list_omap].
    unfold nameserver_line at 1. by rewrite after_app, IH.
  - apply Forall_app. split; [repeat constructor; apply (bool_decide_eq_true_1 _); by vm_compute|]. apply Forall_app. split.
    + apply Forall_forall. intros l (u & -> & Hin)%list_elem_of_fmap. rewrite Forall_forall in Hu'. by apply nameserver_free, Hu'.
    + repeat (apply Forall_cons; split); try apply Forall_nil_2; rewrite ?not_elem_of_app; split_and?; try done; apply (bool_decide_eq_true_1 _); by vm_compute.
Qed.
End properties.

(** ** Concrete configurations *)
Module Demo.
#[local] Existing Instances GoQuote.Demo.latin ConfigFile.Demo.formats.

Definition with_upstreams (l : list bytes) (cert : bytes) : FileConfig unit :=
  let c := ConfigFile.Demo.cfg (Some [7]) 443 in
  {| Server := {| Domain := Domain (Server c); PanelPort := 443; PanelBind := PanelBind (Server c); TLS := {| Cert := cert; Key := [] |} |};
     Panel := Panel c; DNS := {| DoTPort := 853; Upstreams := l; ChinaListSource := []; ChinaListPath := [] |}; Proxy := Proxy c;
     FileExits := FileExits c; Rules_ := Rules_ c; TGBot := TGBot c; IOS := IOS c; LowMem := LowMem c |}.
Definition dns_text l cert := default [] (DnsdistRender (Some (with_upstreams l cert))).
Definition sni_text l := default [] (SniproxyRender (Some (with_upstreams l []))).

Example defaults : b_Address <$> backends (dns_text [] []) = [str "127.0.0.1:5301"; str "1.1.1.1:53"; str "8.8.8.8:53"].
Proof. by vm_compute. Qed.

(** An IPv6 address without brackets is cut at its last colon: sniproxy gets
    another name server, dnsdist the address without a port. *)
Definition v6 : list bytes := [str "2606:4700:4700::1111"].
Example v6_cut : nameservers (sni_text v6) = [str "2606:4700:4700:"] /\ (b_Address <$> backends (dns_text v6 [])) = [str "127.0.0.1:5301"; str "2606:4700:4700::1111"].
Proof. by vm_compute. Qed.

(** An upstream with a scheme leaves sniproxy with the scheme. *)
Example scheme_cut : nameservers (sni_text [str "tls://1.1.1.1"]) = [str "tls"].
Proof. by vm_compute. Qed.

(** The paths of the certificate are not quoted: a line feed in one starts a
    line of its own. *)
Definition bad_cert : bytes := dq "/x'" ++ [newline] ++ dq "newServer({address='192.0.2.66:53', pool='remote', name='x', order=2})--".
Example cert_injects : b_Address <$> backends (dns_text [str "1.1.1.1"] bad_cert) = [str "192.0.2.66:53"; str "127.0.0.1:5301"; str "1.1.1.1:53"].
Proof. by vm_compute. Qed.

Definition odd : list bytes := [str "1.1.1.1"; dq "a'b:5353"].
Lemma odd_valid : Struct (with_upstreams odd []) = true.
Proof. by vm_compute. Qed.
Lemma odd_rendered : DnsdistRender (Some (with_upstreams odd [])) = Some (dns_text odd []).
Proof. by vm_compute. Qed.
Lemma odd_sni : SniproxyRender (Some (with_upstreams odd [])) = Some (sni_text odd).
Proof. by vm_compute. Qed.

Lemma dnsdist_pools_witness : backends (dns_text odd []) = china :: imap remote odd.
Proof.
  refine (dnsdist_pools (with_upstreams odd []) _ odd_valid _ _ _ _ _ odd_rendered); try apply not_elem_of_nil; [|done].
  repeat constructor.
Defined.
Lemma sniproxy_nameservers_witness : nameservers (sni_text odd) = [str "1.1.1.1"; dq "a'b"].
Proof.
  refine (sniproxy_nameservers (with_upstreams odd []) _ odd_valid _ odd_sni). repeat constructor; apply (bool_decide_eq_true_1 _); by vm_compute.
Defined.
End Demo.
