(* ===== verification/Legacy.v ===== *)
(** * Reading a legacy installation

    internal/installer: what migrate.go takes from a 5GPN-X tree ([Extract]),
    the configuration it writes for it ([RenderNewConfig], [Plan]) and
    osdetect.go's reading of os-release.  Installer.v has the write path.  The
    files are a function, as [os.ReadFile] and [os.ReadDir] see them;
    encoding/xml is a parameter, which gives the elements of a document in the
    order of their start tags, each with its text, or without one when the
    decoder fails in it. *)
From S2P Require Import Prelude GoStrings GoNet GoCodec Crypto Exit Installer.
From S2P Require Import GoQuote.
From S2P Require ConfigFile Rules.
From Stdlib Require Import ZArith Lia.
Local Open Scope Z_scope.

(** ** The tree *)
Record LegacyLayout := { Root : bytes; EtcRoot : bytes; DnsdistEtc : bytes }.
Definition LegacyDefaults : LegacyLayout :=
  {| Root := str "/opt/proxy-gateway"; EtcRoot := str "/etc/proxy-gateway"; DnsdistEtc := str "/etc/dnsdist" |}.
(** [filepath.Join] of a clean absolute directory, other than the root, and a
    clean absolute path. *)
Definition WithRoot (root : bytes) (l : LegacyLayout) : LegacyLayout :=
  {| Root := root ++ Root l; EtcRoot := root ++ EtcRoot l; DnsdistEtc := root ++ DnsdistEtc l |}.

Inductive Element := Elem (name : bytes) (text : option bytes).
Record Files := { file : bytes -> option bytes; dir : bytes -> option (list (bytes * bool)) }.

Inductive ExtractErr := ErrNoLegacyFound.

Section legacy.
Context `{Unicode} (xml_elements : bytes -> list Element) (fs : Files).

Definition readTrim (path : bytes) : bytes := match file fs path with Some b => TrimSpace b | None => [] end.

(** The first of several files that has content, with its path. *)
Definition first_file (paths : list bytes) : option (bytes * bytes) :=
  (fun p => (p, readTrim p)) <$> found (fun p => readTrim p != []) paths.

(** [readLastPlistString], the loop over the start tags. *)
Fixpoint plist_loop (key : bytes) (want : bool) (last : bytes) (l : list Element) : bytes :=
  match l with
  | [] => last
  | Elem name text :: l =>
      if name == str "key" then
        match text with None => last | Some v => plist_loop key (TrimSpace v == key) last l end
      else if name == str "string" then
        match text with None => last | Some v => plist_loop key false (if want then TrimSpace v else last) l end
      else plist_loop key false last l
  end.
Definition readLastPlistString (path key : bytes) : bytes :=
  match file fs path with Some b => plist_loop key false [] (xml_elements b) | None => [] end.

(** The names of the exits; an entry says whether it is a directory. *)
Definition exit_name (entry : bytes * bool) : option bytes :=
  if entry.2 : bool then None else if HasSuffix entry.1 (str ".type") then Some (TrimSuffix entry.1 (str ".type")) else None.

Definition etc (l : LegacyLayout) (name : bytes) : bytes := Join2 (Join2 (Root l) (str "etc")) name.

(** The environment of the bot: the first of the two files that can be read. *)
Definition bot_env (l : LegacyLayout) : bytes * option (gmap bytes bytes) :=
  let envPath := Join2 (EtcRoot l) (str "tgbot.env") in
  match file fs envPath with
  | Some b => (envPath, Some (readEnvFile b))
  | None => let envPath := etc l (str "tgbot.env") in (envPath, readEnvFile <$> file fs envPath)
  end.

Definition found_value (o : option (bytes * bytes)) : bytes := match o with Some (_, v) => v | None => [] end.
Definition found_path (o : option (bytes * bytes)) : list bytes := match o with Some (p, _) => [p] | None => [] end.

Definition ios_uuid (l : LegacyLayout) : option (bytes * bytes) :=
  match first_file [etc l (str ".ios_profile_uuid")] with
  | Some r => Some r
  | None => let profilePath := Join2 (Join2 (Root l) (str "www")) (str "ios-dot.mobileconfig") in
            let v := readLastPlistString profilePath (str "PayloadUUID") in
            if v == [] then None else Some (profilePath, v)
  end.

(** [Extract]: what was found, the paths it was read from, and the error when
    there are none. *)
Definition Extract_ (l : LegacyLayout) : LegacyExtract * list bytes * option ExtractErr :=
  let domain := first_file [Join2 (DnsdistEtc l) (str ".domain"); etc l (str ".domain")] in
  let remote := first_file [Join2 (DnsdistEtc l) (str ".remote_dns"); Join2 (DnsdistEtc l) (str ".overseas_dns");
                            etc l (str ".remote_dns"); etc l (str ".overseas_dns")] in
  let local := first_file [Join2 (DnsdistEtc l) (str ".local_dns"); etc l (str ".local_dns")] in
  let current := first_file [etc l (str "current-exit")] in
  let rules := first_file [Join2 (EtcRoot l) (str "rules.conf")] in
  let policy := first_file [Join2 (EtcRoot l) (str "policy-map.conf")] in
  let exits := match dir fs (Join2 (EtcRoot l) (str "exits")) with Some es => stable_sort Rules.bytes_leb (omap exit_name es) | None => [] end in
  let '(envPath, env) := bot_env l in
  let get k := match env with Some m => default [] (m !! k) | None => [] end in
  let token := if get (str "TG_BOT_TOKEN") == [] then get (str "TG_TOKEN") else get (str "TG_BOT_TOKEN") in
  let uuid := ios_uuid l in
  let paths := found_path domain ++ found_path remote ++ found_path local ++ found_path current ++ found_path rules ++ found_path policy ++
               (if token == [] then [] else [envPath]) ++ found_path uuid in
  ({| Domain := found_value domain; RemoteDNS := found_value remote; LocalDNS := found_value local; CurrentExit := found_value current;
      LRules := found_value rules; LExits := exits; PolicyMap := found_value policy; TGToken := token; TGAdminIDs := get (str "TG_ADMIN_IDS");
      IOSProfileUUID := found_value uuid |}, paths, if paths == [] then Some ErrNoLegacyFound else None).
End legacy.

(** ** The new configuration *)
Definition or_else (v def : bytes) : bytes := if v == [] then def else v.

Section render.
Context `{Unicode} `{Printable}.

(** The token that is kept: none without a valid administrator. *)
Definition kept_token (e : LegacyExtract) : bytes :=
  if ((normalizeAdminIDs (TGAdminIDs e)).1 == []) && (TGToken e != []) then [] else TGToken e.

Definition warnings (e : LegacyExtract) : list bytes :=
  let '(adminIDs, rejected) := normalizeAdminIDs (TGAdminIDs e) in
  (if Domain e == [] then [str "domain not found in legacy tree — new config uses placeholder panel.local"] else []) ++
  (if TGToken e == [] then [str "TG_BOT_TOKEN not found — Bot will refuse to start until you fill it in"] else []) ++
  (if 0 <? rejected then [str "ignored " ++ strconv_Itoa rejected ++ str " invalid or duplicate TG_ADMIN_IDS value(s)"] else []) ++
  (if (adminIDs == []) && (TGToken e != []) then [str "no valid TG_ADMIN_IDS found — token omitted so the migrated daemon remains bootable"] else []) ++
  (if LExits e == [] then [str "no exits found under /etc/proxy-gateway/exits — Exits page will start empty"] else []) ++
  (if (RemoteDNS e != []) && (LocalDNS e != []) then [str "legacy local/remote DNS roles are combined into dns.upstreams — verify routing after migration"] else []) ++
  map (fun field => str "legacy " ++ field ++ str " found — it cannot be imported losslessly by the current config-only migrator") (unsupportedMigrationFields e).

(** The lines of the document; the arguments are quoted already. *)
Definition head_lines (domain : bytes) : list bytes := [
  dq "# migrated from legacy 5GPN-X; review installer warnings before use";
  dq "server:"; dq "  domain: " ++ domain; dq "  panel_bind: '127.0.0.1'"; dq "  panel_port: 8443"; dq "  tls: { cert: '', key: '' }"; [];
  dq "panel:"; dq "  session_ttl: 8h"; dq "  rate_limit:"; dq "    login_per_minute: 5"; dq "    lockout_minutes: 15"; []].
Definition upstream_line (u : bytes) : bytes := dq "    - " ++ Quote u.
Definition dns_lines (upstreams : list bytes) : list bytes :=
  if upstreams == [] then [] else dq "dns:" :: dq "  upstreams:" :: map upstream_line upstreams ++ [[]].
Definition tail_lines (token adminIDs domain uuid : bytes) : list bytes := [
  dq "proxy:"; dq "  wa_shim:"; dq "    listen: '127.0.0.1'"; dq "    port: 8447"; dq "    backend: '127.0.0.1:1080'";
  dq "    wa_host: 'www.apple.com'"; dq "    allow_cidr:"; dq "      - '127.0.0.1/32'"; dq "    max_conn: 100"; [];
  dq "tgbot:"; dq "  token: " ++ token; dq "  admin_chat_ids: [" ++ adminIDs ++ dq "]"; [];
  dq "ios:"; dq "  dot_domain: " ++ domain; dq "  http_port: 0"; dq "  profile_uuid: " ++ uuid].

Definition config_lines (e : LegacyExtract) : list bytes :=
  let domain := or_else (Domain e) (str "panel.local") in
  head_lines (Quote domain) ++ dns_lines (legacyDNSUpstreams [RemoteDNS e; LocalDNS e]) ++
  tail_lines (Quote (kept_token e)) (normalizeAdminIDs (TGAdminIDs e)).1 (Quote domain) (Quote (or_else (IOSProfileUUID e) (str "auto"))).

Definition RenderNewConfig (e : LegacyExtract) : bytes * list bytes := (text_of (config_lines e), warnings e).

Definition Plan (xml_elements : bytes -> list Element) (fs : Files) (l : LegacyLayout) : res ExtractErr (MigratePlan * list bytes * list bytes) :=
  let '(e, paths, err) := Extract_ xml_elements fs l in
  match err with
  | Some err => Err err
  | None => let '(text, w) := RenderNewConfig e in Ok ({| Extract := e; NewConfigYAML := text |}, w, paths)
  end.
End render.

(** ** os-release *)
Record Distro := { d_ID : bytes; VersionID : bytes; IDLike : list bytes; d_Name : bytes; d_Raw : gmap bytes bytes }.

Section osdetect.
Context `{Unicode}.

Definition release_line (line : bytes) : option (bytes * bytes) :=
  let line := TrimSpace line in
  if (line == []) || HasPrefix line (str "#") then None
  else match IndexByte line Byte.x3d with
       | Some (S i) => Some (TrimSpace (take (S i) line), Trim (TrimSpace (drop (S (S i)) line)) [Byte.x22; Byte.x27])
       | _ => None
       end.
Definition parseOSRelease (body : bytes) : Distro :=
  let raw := foldl env_insert ∅ (omap release_line (Split body newline)) in
  let get k := default [] (raw !! k) in
  {| d_ID := ToLower (get (str "ID")); VersionID := get (str "VERSION_ID");
     IDLike := map ToLower (Fields (map (fun c => if c == Byte.x2c then space else c) (get (str "ID_LIKE"))));
     d_Name := get (str "NAME"); d_Raw := raw |}.
Definition distro_zero : Distro := {| d_ID := []; VersionID := []; IDLike := []; d_Name := []; d_Raw := ∅ |}.

Definition family_text (f : Family) : bytes :=
  match f with FamilyDebian => str "debian" | FamilyRHEL => str "rhel" | FamilyFedora => str "fedora" | FamilyUnknown => str "unknown" end.
Definition distro_String (d : Distro) : bytes :=
  if d_ID d == [] then str "unknown"
  else d_ID d ++ str " " ++ VersionID d ++ str " (" ++ family_text (distro_family (d_ID d) (IDLike d)) ++ str ")".
End osdetect.

(** ** Reading the new configuration *)
Definition scalar (key text : bytes) : option bytes :=
  v ← head (omap (after key) (Split text newline)); fst <$> read_scalar v.
Definition upstream_item (l : bytes) : option bytes := r ← after (str "    - ") l; fst <$> read_scalar r.
Definition upstreams_of (text : bytes) : list bytes := omap upstream_item (Split text newline).
Definition flow (body : bytes) : list bytes := if body == [] then [] else map (fun s => TrimPrefix s (str " ")) (Split body Byte.x2c).
Definition admins_of (text : bytes) : option (list Z) :=
  body ← head (omap (after (str "  admin_chat_ids: [")) (Split text newline)); mapM Atoi (flow (TrimSuffix body (str "]"))).

(** ** Lemmas: the ids *)
Lemma Itoa_shape n : - 2 ^ 63 <= n < 2 ^ 63 ->
  exists neg ds, strconv_Itoa n = (if neg : bool then [Byte.x2d] else []) ++ ds /\ ds <> [] /\ Forall digit_byte ds /\ (if neg then - dec_value ds else dec_value ds) = n.
Proof.
  intros Hn. destruct (Z.lt_trichotomy n 0) as [Hneg|[->|Hpos]].
  - destruct (strconv_Itoa_pos (- n) ltac:(lia)) as (H1 & H2 & H3). exists true, (strconv_Itoa (- n)). split; [|split_and!; [done|done|lia]].
    unfold strconv_Itoa. rewrite (proj2 (Z.eqb_neq n 0)), (proj2 (Z.eqb_neq (- n) 0)), (proj2 (Z.ltb_lt n 0)), (proj2 (Z.ltb_ge (- n) 0)) by lia. done.
  - exists false, (str "0"). split_and!; [done|done| |done]. repeat constructor; by vm_compute.
  - destruct (strconv_Itoa_pos n ltac:(lia)) as (H1 & H2 & H3). by exists false, (strconv_Itoa n).
Qed.

Lemma digit_char c : digit_byte c -> is_digit c = true /\ c <> Byte.x2d /\ c <> Byte.x2b /\ c <> Byte.x2c /\ c <> space /\ c <> newline.
Proof.
  unfold digit_byte, is_digit. intros Hc. split; [by rewrite (proj2 (Z.leb_le 48 _)), (proj2 (Z.leb_le _ 57)) by lia|].
  split_and!; intros ->; vm_compute in Hc; by destruct Hc.
Qed.

Lemma Atoi_Itoa n : - 2 ^ 63 <= n < 2 ^ 63 -> Atoi (strconv_Itoa n) = Some n.
Proof.
  intros Hn. destruct (Itoa_shape n Hn) as (neg & ds & -> & Hne & Hd & HV).
  assert (forallb is_digit ds = true) as HF by (apply forallb_forall; intros c Hc; rewrite Forall_forall in Hd; apply list_elem_of_In, Hd in Hc; by apply digit_char).
  unfold Atoi. destruct neg; cbn [app].
  - rewrite (bool_decide_true (Byte.x2d = Byte.x2d)), (bool_decide_false _ Hne), HF by done. cbn [orb negb]. rewrite HV, (proj2 (Z.leb_le _ _)), (proj2 (Z.ltb_lt _ _)) by lia. done.
  - destruct ds as [|c ds]; [done|]. apply Forall_cons in Hd as [Hc _]. apply digit_char in Hc as (_ & H1 & H2 & _).
    rewrite (bool_decide_false _ H1), (bool_decide_false _ H2), (bool_decide_false _ Hne), HF. cbn [orb negb]. rewrite HV, (proj2 (Z.leb_le _ _)), (proj2 (Z.ltb_lt _ _)) by lia. done.
Qed.

(** An id as a word: no separators inside. *)
Lemma Itoa_word n : - 2 ^ 63 <= n < 2 ^ 63 -> Byte.x2c ∉ strconv_Itoa n /\ newline ∉ strconv_Itoa n /\ exists c s, strconv_Itoa n = c :: s /\ c <> space.
Proof.
  intros Hn. destruct (Itoa_shape n Hn) as (neg & ds & -> & Hne & Hd & _).
  assert (forall c, c ∈ ds -> c <> Byte.x2c /\ c <> newline) as HA by (intros c Hc; rewrite Forall_forall in Hd; apply Hd, digit_char in Hc; tauto).
  split_and!; [| |destruct neg; [by eexists _, _|]].
  - rewrite not_elem_of_app. split; [by destruct neg; apply (bool_decide_eq_true_1 _); vm_compute|]. intros Hin. by destruct (HA _ Hin).
  - rewrite not_elem_of_app. split; [by destruct neg; apply (bool_decide_eq_true_1 _); vm_compute|]. intros Hin. by destruct (HA _ Hin).
  - destruct ds as [|c ds]; [done|]. exists c, ds. split; [done|]. apply Forall_cons in Hd as [Hc _]. apply digit_char in Hc. tauto.
Qed.

Lemma Atoi_range s n : Atoi s = Some n -> - 2 ^ 63 <= n < 2 ^ 63.
Proof.
  unfold Atoi. destruct (match s with [] => _ | _ => _ end) as [neg ds]. destruct (_ || _); [done|]. cbv zeta.
  destruct (_ && _) eqn:E; [|done]. intros [= <-]. lia.
Qed.

(** [normalizeAdminIDs] keeps the valid ids, each once. *)
Lemma admin_ids_spec fields : forall seen, exists ids, (admin_ids fields seen).1 = map strconv_Itoa ids /\ NoDup ids /\
  Forall (fun id => - 2 ^ 63 <= id < 2 ^ 63) ids /\ forall id, id ∈ ids <-> id <> 0 /\ id ∉ seen /\ exists f, f ∈ fields /\ Atoi f = Some id.
Proof.
  induction fields as [|f fields IH]; intros seen; cbn [admin_ids].
  - exists []. split_and!; [done|constructor|constructor|]. intros id. split; [by intros ?%not_elem_of_nil|]. by intros (_ & _ & f & ?%not_elem_of_nil & _).
  - destruct (Atoi f) as [id|] eqn:EA.
    + destruct (Z.eqb_spec id 0) as [->|Hz]; [|case_bool_decide as HS]; cbn [orb].
      * destruct (IH seen) as (ids & E & HN & HR & HI). destruct (admin_ids fields seen) as [v n]. exists ids. split_and!; [done|done|done|]. intros x. rewrite HI.
        split; intros (H1 & H2 & g & Hg & Eg); (split; [done|split; [done|]]); exists g; (split; [|done]); [by right|]. rewrite elem_of_cons in Hg. destruct Hg as [->|Hg]; [congruence|done].
      * destruct (IH seen) as (ids & E & HN & HR & HI). destruct (admin_ids fields seen) as [v n]. exists ids. split_and!; [done|done|done|]. intros x. rewrite HI.
        split; intros (H1 & H2 & g & Hg & Eg); (split; [done|split; [done|]]); exists g; (split; [|done]); [by right|]. rewrite elem_of_cons in Hg. destruct Hg as [->|Hg]; [congruence|done].
      * destruct (IH ({[id]} ∪ seen)) as (ids & E & HN & HR & HI). destruct (admin_ids fields _) as [v n]. cbn [fst] in *. subst v. exists (id :: ids). split_and!; [done| | |].
        -- constructor; [|done]. rewrite HI. set_solver.
        -- constructor; [by eapply Atoi_range|done].
        -- intros x. rewrite elem_of_cons, HI. split.
           ++ intros [->|(H1 & H2 & g & Hg & Eg)]; [split_and!; [done|done|exists f; split; [left|done]]|]. split_and!; [done|set_solver|exists g; split; [by right|done]].
           ++ intros (H1 & H2 & g & Hg & Eg). destruct (decide (x = id)) as [->|Hx]; [by left|]. right. split_and!; [done|set_solver|].
              rewrite elem_of_cons in Hg. destruct Hg as [->|Hg]; [congruence|by exists g].
    + destruct (IH seen) as (ids & E & HN & HR & HI). destruct (admin_ids fields seen) as [v n]. exists ids. split_and!; [done|done|done|]. intros x. rewrite HI.
      split; intros (H1 & H2 & g & Hg & Eg); (split; [done|split; [done|]]); exists g; (split; [|done]); [by right|]. rewrite elem_of_cons in Hg. destruct Hg as [->|Hg]; [congruence|done].
Qed.

(** The flow sequence of the ids is read back. *)
Lemma TrimPrefix_word w : (exists c s, w = c :: s /\ c <> space) -> TrimPrefix w (str " ") = w.
Proof.
  intros (c & s & -> & Hc). unfold TrimPrefix. destruct (HasPrefix (c :: s) (str " ")) eqn:E; [|done].
  apply HasPrefix_spec in E as [k Hk]. injection Hk as -> _. done.
Qed.

Lemma TrimPrefix_space w : TrimPrefix (str " " ++ w) (str " ") = w.
Proof. unfold TrimPrefix. assert (HasPrefix (str " " ++ w) (str " ") = true) as -> by (apply HasPrefix_spec; by exists w). done. Qed.

Lemma Split_join ids : Forall (fun id => - 2 ^ 63 <= id < 2 ^ 63) ids -> forall pre id, - 2 ^ 63 <= id < 2 ^ 63 -> Byte.x2c ∉ pre ->
  Split (pre ++ join_with (str ", ") (map strconv_Itoa (id :: ids))) Byte.x2c = (pre ++ strconv_Itoa id) :: map (fun i => str " " ++ strconv_Itoa i) ids.
Proof.
  induction 1 as [|x ids Hx HR IH]; intros pre id Hid Hp; destruct (Itoa_word id Hid) as (H1 & _).
  - apply Split_free_single. by rewrite not_elem_of_app.
  - replace (pre ++ join_with (str ", ") (map strconv_Itoa (id :: x :: ids))) with
      ((pre ++ strconv_Itoa id) ++ Byte.x2c :: (str " " ++ join_with (str ", ") (map strconv_Itoa (x :: ids)))) by (cbn [map join_with]; by rewrite <- app_assoc).
    rewrite Split_app, (Split_free_single (pre ++ _)) by (by rewrite not_elem_of_app). cbn [app]. f_equal.
    rewrite (IH (str " ") x Hx); [done|]. apply (bool_decide_eq_true_1 _). by vm_compute.
Qed.

Lemma flow_join ids : Forall (fun id => - 2 ^ 63 <= id < 2 ^ 63) ids -> flow (join_with (str ", ") (map strconv_Itoa ids)) = map strconv_Itoa ids.
Proof.
  intros HR. destruct ids as [|id ids]; [done|]. apply Forall_cons in HR as [Hid HR]. destruct (Itoa_word id Hid) as (_ & _ & c & s & Ec & Hc).
  unfold flow. rewrite bool_decide_false.
  - pose proof (Split_join ids HR [] id Hid (not_elem_of_nil _)) as ES. cbn [app] in ES. rewrite ES. cbn [map]. rewrite (TrimPrefix_word (strconv_Itoa id)) by (by exists c, s).
    f_equal. rewrite map_map. apply map_ext. intros i. apply TrimPrefix_space.
  - cbn [map join_with]. rewrite Ec. by destruct (map strconv_Itoa ids).
Qed.

Lemma mapM_Atoi ids : Forall (fun id => - 2 ^ 63 <= id < 2 ^ 63) ids -> mapM Atoi (map strconv_Itoa ids) = Some ids.
Proof. induction 1 as [|id ids Hid _ IH]; [done|]. cbn [map mapM]. rewrite (Atoi_Itoa id Hid). cbn [mbind option_bind]. by rewrite IH. Qed.

Lemma join_free ids : Forall (fun id => - 2 ^ 63 <= id < 2 ^ 63) ids -> newline ∉ join_with (str ", ") (map strconv_Itoa ids).
Proof.
  induction 1 as [|id ids Hid HR IH]; [apply not_elem_of_nil|]. destruct (Itoa_word id Hid) as (_ & Hn & _). cbn [map join_with] in *.
  destruct (map strconv_Itoa ids); [done|]. rewrite !not_elem_of_app. split_and!; [done|apply (bool_decide_eq_true_1 _); by vm_compute|exact IH].
Qed.

Section reading.
Context `{Unicode} `{Printable}.

Lemma config_free e : Forall (fun l => newline ∉ l) (config_lines e).
Proof.
  unfold config_lines. set (d := or_else (Domain e) _). set (u := or_else (IOSProfileUUID e) _).
  assert (newline ∉ (normalizeAdminIDs (TGAdminIDs e)).1) as HA.
  { unfold normalizeAdminIDs. destruct (admin_ids_spec (list_fields (TGAdminIDs e)) ∅) as (ids & E & _ & HR & _).
    destruct (admin_ids _ _) as [v n]. cbn [fst] in *. subst v. by apply join_free. }
  assert (forall s, newline ∉ Quote s) as HQ by (intros s; apply Quote_free).
  revert HA. generalize (normalizeAdminIDs (TGAdminIDs e)).1. intros a HA.
  apply Forall_app. split; [|apply Forall_app; split].
  - pose proof (HQ d) as Hd. revert Hd. generalize (Quote d). intros q Hq. unfold head_lines.
    repeat (apply Forall_cons; split); try apply Forall_nil_2; rewrite ?not_elem_of_app; split_and?; try done; apply (bool_decide_eq_true_1 _); by vm_compute.
  - unfold dns_lines. case_bool_decide; [constructor|]. repeat (apply Forall_cons; split); [apply (bool_decide_eq_true_1 _); by vm_compute..|].
    apply Forall_app. split; [|repeat constructor; apply not_elem_of_nil]. apply Forall_forall. intros l (x & -> & _)%list_elem_of_fmap.
    unfold upstream_line. rewrite not_elem_of_app. split; [apply (bool_decide_eq_true_1 _); by vm_compute|done].
  - pose proof (HQ d) as Hd. pose proof (HQ (kept_token e)) as Ht. pose proof (HQ u) as Hu. revert Hd Ht Hu. generalize (Quote d) (Quote (kept_token e)) (Quote u).
    intros q t v Hq Ht Hv. unfold tail_lines.
    repeat (apply Forall_cons; split); try apply Forall_nil_2; rewrite ?not_elem_of_app; split_and?; try done; apply (bool_decide_eq_true_1 _); by vm_compute.
Qed.

Lemma config_split e : Split (RenderNewConfig e).1 newline = config_lines e ++ [[]].
Proof. apply split_text, config_free. Qed.

(** A key that is not in the section of the name servers. *)
Lemma dns_none {A : Type} (f : bytes -> option A) ups : f (dq "dns:") = None -> f (dq "  upstreams:") = None -> f [] = None -> (forall q, f (dq "    - " ++ q) = None) ->
  omap f (dns_lines ups) = [].
Proof.
  intros H1 H2 H3 H4. unfold dns_lines. case_bool_decide; [done|]. cbn [omap list_omap]. rewrite H1, H2, omap_app. cbn [omap list_omap]. rewrite H3, app_nil_r.
  clear -H4. induction ups as [|u ups IH]; [done|]. cbn [map omap list_omap]. unfold upstream_line at 1. by rewrite H4.
Qed.

Lemma scalar_of key e v : utf8 v = true -> omap (after key) (config_lines e ++ [[]]) = [Quote v] -> scalar key (RenderNewConfig e).1 = Some v.
Proof.
  intros Hv E. unfold scalar. rewrite config_split, E. cbn [head mbind option_bind]. pose proof (read_Quote v [] Hv) as HR. rewrite app_nil_r in HR. by rewrite HR.
Qed.

(** The parts of the document, for a reader that takes lines one by one. *)
Lemma omap_config {A : Type} (f : bytes -> option A) e :
  let d := Quote (or_else (Domain e) (str "panel.local")) in
  omap f (config_lines e ++ [[]]) =
    omap f (head_lines d) ++ omap f (dns_lines (legacyDNSUpstreams [RemoteDNS e; LocalDNS e])) ++
    omap f (tail_lines (Quote (kept_token e)) (normalizeAdminIDs (TGAdminIDs e)).1 d (Quote (or_else (IOSProfileUUID e) (str "auto")))) ++ omap f [[]].
Proof. cbv zeta. unfold config_lines. by rewrite !omap_app, <- !app_assoc. Qed.

Lemma upstream_items ups : Forall (fun u => utf8 u = true) ups -> omap upstream_item (dns_lines ups) = ups.
Proof.
  intros Hu. unfold dns_lines. case_bool_decide as HE; [by subst|]. change (omap upstream_item (map upstream_line ups ++ [[]]) = ups). rewrite omap_app.
  change (omap upstream_item [[]]) with (@nil bytes). rewrite app_nil_r. clear HE. induction Hu as [|u ups Hu _ IH]; [done|].
  cbn [map omap list_omap]. unfold upstream_item at 1, upstream_line at 1. change (dq "    - ") with (str "    - "). rewrite after_app. cbn [mbind option_bind].
  pose proof (read_Quote u [] Hu) as HR. rewrite app_nil_r in HR. rewrite HR. cbn [fmap option_fmap option_map fst]. by rewrite IH.
Qed.
End reading.

(** ** Properties *)
Ltac one_key := rewrite omap_config; rewrite dns_none by reflexivity; cbn [app];
  repeat match goal with |- context [Quote ?s] => generalize (Quote s); intros ? end; repeat match goal with |- context [(normalizeAdminIDs ?s).1] => generalize (normalizeAdminIDs s).1; intros ? end;
  vm_compute; reflexivity.

Section properties.
Context `{Unicode} `{Printable}.

(** what a reader of the migrated configuration gets, for every legacy
    tree whose values are text: the domain twice (or its placeholder), the
    name servers of both roles without repetition, the profile's identifier,
    and exactly the administrators that are integers other than zero, each
    once; the bot's token is kept with an administrator and dropped without
    one, so that the section always passes the validation of the daemon.  No
    value, whatever characters it holds, adds or hides a line. *)
Theorem migrated_reads e :
  let text := (RenderNewConfig e).1 in
  let d := or_else (Domain e) (str "panel.local") in
  Forall (fun s => utf8 s = true) (Domain e :: TGToken e :: IOSProfileUUID e :: legacyDNSUpstreams [RemoteDNS e; LocalDNS e]) ->
  scalar (str "  domain: ") text = Some d /\ scalar (str "  dot_domain: ") text = Some d /\
  scalar (str "  profile_uuid: ") text = Some (or_else (IOSProfileUUID e) (str "auto")) /\
  upstreams_of text = legacyDNSUpstreams [RemoteDNS e; LocalDNS e] /\
  exists token ids, scalar (str "  token: ") text = Some token /\ admins_of text = Some ids /\ NoDup ids /\
    (forall id, id ∈ ids <-> id <> 0 /\ exists f, f ∈ list_fields (TGAdminIDs e) /\ Atoi f = Some id) /\
    token = (if ids == [] then [] else TGToken e) /\
    ConfigFile.valid_tgbot {| ConfigFile.Token := token; ConfigFile.AdminChatIDs := Some ids |} = true.
Proof.
  cbv zeta. intros HU. rewrite !Forall_cons in HU. destruct HU as (Hd & Ht & Hu & Hups).
  assert (utf8 (or_else (Domain e) (str "panel.local")) = true) as Hd' by (unfold or_else; by case_bool_decide).
  assert (utf8 (or_else (IOSProfileUUID e) (str "auto")) = true) as Hu' by (unfold or_else; by case_bool_decide).
  assert (utf8 (kept_token e) = true) as Ht' by (unfold kept_token; by destruct (_ && _)).
  split; [apply scalar_of; [done|one_key]|]. split; [apply scalar_of; [done|one_key]|]. split; [apply scalar_of; [done|one_key]|]. split.
  - unfold upstreams_of. rewrite config_split, omap_config, upstream_items by done.
    repeat match goal with |- context [Quote ?s] => generalize (Quote s); intros ? end. generalize (normalizeAdminIDs (TGAdminIDs e)).1. intros a.
    match goal with |- ?x ++ ?u ++ ?y ++ ?z = _ => assert (x = []) as -> by (vm_compute; reflexivity); assert (y ++ z = []) as -> by (vm_compute; reflexivity) end.
    by rewrite app_nil_r.
  - exists (kept_token e). destruct (admin_ids_spec (list_fields (TGAdminIDs e)) ∅) as (ids & E & HN & HR & HI).
    assert ((normalizeAdminIDs (TGAdminIDs e)).1 = join_with (str ", ") (map strconv_Itoa ids)) as EA.
    { unfold normalizeAdminIDs. destruct (admin_ids _ _) as [v n]. cbn [fst] in *. by subst v. }
    assert ((normalizeAdminIDs (TGAdminIDs e)).1 = [] <-> ids = []) as HE.
    { rewrite EA. split; [|by intros ->]. intros Ej. pose proof (flow_join ids HR) as HF. rewrite Ej in HF. by destruct ids. }
    assert (forall id, id ∈ ids <-> id <> 0 /\ exists f, f ∈ list_fields (TGAdminIDs e) /\ Atoi f = Some id) as HI'.
    { intros id. rewrite HI. split; [tauto|]. intros [H1 H2]. split_and!; [done|apply not_elem_of_empty|done]. }
    exists ids. split; [apply scalar_of; [done|one_key]|]. split.
    { unfold admins_of. rewrite config_split, omap_config, dns_none by reflexivity.
      repeat match goal with |- context [Quote ?s] => generalize (Quote s); intros ? end.
      match goal with |- context [head (?x ++ [] ++ ?y ++ ?z)] => assert (head (x ++ [] ++ y ++ z) = Some ((normalizeAdminIDs (TGAdminIDs e)).1 ++ str "]")) as -> end.
      { generalize (normalizeAdminIDs (TGAdminIDs e)).1. intros a. vm_compute. reflexivity. }
      cbn [mbind option_bind]. rewrite EA. assert (forall s, TrimSuffix (s ++ str "]") (str "]") = s) as HS; [|by rewrite HS, flow_join, mapM_Atoi].
      intros s. unfold TrimSuffix. assert (HasSuffix (s ++ str "]") (str "]") = true) as -> by (apply bool_decide_eq_true; by exists s).
      rewrite length_app. replace (length s + length (str "]") - length (str "]"))%nat with (length s) by lia. apply take_app_length. }
    split; [done|]. split; [done|]. split.
    + unfold kept_token. destruct (decide (ids = [])) as [Hz|Hz].
      * rewrite (bool_decide_true _ Hz), (bool_decide_true _ (proj2 HE Hz)). cbn [andb]. destruct (decide (TGToken e = [])) as [->|Hk]; [done|]. by rewrite (bool_decide_false _ Hk).
      * rewrite (bool_decide_false _ Hz). rewrite bool_decide_false; [done|]. intros Hx. by apply HE in Hx.
    + unfold ConfigFile.valid_tgbot. cbn [ConfigFile.AdminChatIDs]. apply forallb_forall. intros id Hid. apply negb_true_iff, bool_decide_eq_false.
      apply list_elem_of_In, HI in Hid. tauto.
Qed.
End properties.

(** ** A concrete tree *)
Module Demo.

#[local] Existing Instances ascii_tables GoQuote.Demo.latin.

Definition at_path (l : list (bytes * bytes)) (p : bytes) : option bytes := snd <$> found (fun x => x.1 == p) l.
Definition tree (l : list (bytes * bytes)) (exits : list (bytes * bool)) : Files :=
  {| file := at_path l; dir := fun p => if p == str "/etc/proxy-gateway/exits" then Some exits else None |}.
Definition no_xml : bytes -> list Element := fun _ => [].

Definition old : Files := tree
  [(str "/opt/proxy-gateway/etc/.domain", str " gw.example "); (str "/etc/dnsdist/.remote_dns", str "1.1.1.1, 8.8.8.8");
   (str "/etc/dnsdist/.local_dns", str "223.5.5.5;1.1.1.1"); (str "/etc/proxy-gateway/tgbot.env", dq "TG_BOT_TOKEN='1:abc'" ++ [newline] ++ str "TG_ADMIN_IDS=7,-9 7 x 0")] [].
Definition plan := Plan no_xml old LegacyDefaults.
Definition plan_text : bytes := match plan with Ok (p, _, _) => NewConfigYAML p | Err _ => [] end.

Example plan_reads : scalar (str "  domain: ") plan_text = Some (str "gw.example") /\ upstreams_of plan_text = [str "1.1.1.1"; str "8.8.8.8"; str "223.5.5.5"] /\
  scalar (str "  token: ") plan_text = Some (str "1:abc") /\ admins_of plan_text = Some [7; -9].
Proof. by vm_compute. Qed.
Example plan_paths : match plan with Ok (_, w, ps) => len ps = 4%Z /\ len w = 3%Z | Err _ => False end.
Proof. by vm_compute. Qed.

(** A tree with exits and nothing else counts as empty. *)
Example only_exits : (Extract_ no_xml (tree [] [(str "jp.type", false); (str "us.type", false)]) LegacyDefaults) =
  ({| Domain := []; RemoteDNS := []; LocalDNS := []; CurrentExit := []; LRules := []; LExits := [str "jp"; str "us"]; PolicyMap := []; TGToken := [];
      TGAdminIDs := []; IOSProfileUUID := [] |}, [], Some ErrNoLegacyFound).
Proof. by vm_compute. Qed.

(** A value in single quotes, which systemd takes off, keeps them. *)
Example single_quotes : readEnvFile (str "TG_BOT_TOKEN='1:abc'") !! str "TG_BOT_TOKEN" = Some (str "'1:abc'").
Proof. by vm_compute. Qed.

Example ubuntu : distro_String (parseOSRelease (dq "ID=Pop" ++ [newline] ++ dq "ID_LIKE='ubuntu, debian'" ++ [newline] ++ dq "VERSION_ID='22.04'")) = str "pop 22.04 (debian)".
Proof. by vm_compute. Qed.

Definition odd : LegacyExtract :=
  {| Domain := dq "a'b" ++ [newline] ++ str "c"; RemoteDNS := str "1.1.1.1"; LocalDNS := []; CurrentExit := []; LRules := []; LExits := []; PolicyMap := [];
     TGToken := str "1:abc"; TGAdminIDs := str "nobody"; IOSProfileUUID := [] |}.
Lemma migrated_reads_witness : scalar (str "  domain: ") (RenderNewConfig odd).1 = Some (Domain odd).
Proof. refine (proj1 (migrated_reads odd _)). repeat constructor. Defined.
End Demo.
