(* ===== verification/Clone.v ===== *)
(** * The copies of the configuration

    internal/core/assemble.go over a heap: slices and maps are cells that the
    base configuration and the assembled one could share.  [cloneConfig],
    [cloneAnyValue] and [stripNameType] allocate; the theorems say that what
    [Assemble] returns reads like its base where it should, and that no later
    write through either reaches the other, but for the cells of the types
    [cloneAnyValue] does not name, which both hold.  What the store answers is
    an argument; Applier.v has the same [Assemble] over values, with its
    database.  A map is copied in some order, which only the addresses show; a
    recursion deeper than its fuel is the overflow of Go's stack, which only a
    cyclic value could cause. *)
From S2P Require Import Prelude GoStrings Rules.
From Stdlib Require Import ZArith Lia.

(** ** Values and cells

    [VFlat] stands for the slices of scalars, of one element type each, and
    [VOther] for a reference of a type the code does not name, such as the
    map[string]string of the HTTP headers of an exit. *)
Inductive Scalar := SText (s : bytes) | SRule (r : Rule).
Inductive GoVal :=
| VScalar (s : bytes) | VMap (l : option nat) | VAny (l : option nat) | VFlat (ty : bytes) (l : option nat) | VOther (l : nat).
Record ExitConfig := { x_ID : bytes; x_Protocol : bytes; x_Config : option nat }.
Inductive Cell := CMap (m : gmap bytes GoVal) | CAny (l : list GoVal) | CFlat (l : list Scalar) | CExits (l : list ExitConfig) | COther (m : gmap bytes bytes).
Abbreviation Heap := (gmap nat Cell).

(** A configuration: its scalars, and the slices it holds. *)
Record Config := {
  scalars : bytes; Exits : option nat; EffectiveRules : option nat; Upstreams : option nat; AllowCIDR : option nat;
  AdminChatIDs : option nat; Sources : option nat
}.

(** The store: the YAML of the active rules, if there is such a row, and the
    exits, whose slice may be nil; either read can fail. *)
Record Store := { ActiveRulesYAML : res unit (option bytes); ListExits : res unit (option (list ExitConfig)) }.
Inductive AssembleErr := ENilBase | EReadActive | EParse (e : RuleError) | EValidate (e : RuleError) | EListExits.

(** Computations over the heap; [None] is a stack overflow or a cell of
    another type. *)
Definition H (A : Type) : Type := Heap -> option (A * Heap).
Definition hret {A} (a : A) : H A := fun h => Some (a, h).
Definition hbind {A B} (m : H A) (f : A -> H B) : H B := fun h => '(a, h) ← m h; f a h.
#[local] Notation "'do' x <- m ; k" := (hbind m (fun x => k)) (at level 10, x name, m at level 200, k at level 200, only parsing).
Definition alloc (c : Cell) : H nat := fun h => let l := fresh (dom h) in Some (l, <[l := c]> h).
Definition load (l : nat) : H Cell := fun h => c ← h !! l; Some (c, h).

Fixpoint each {A B} (f : A -> H B) (l : list A) : H (list B) :=
  match l with [] => hret [] | x :: l => do y <- f x; do ys <- each f l; hret (y :: ys) end.

(** ** assemble.go *)
Definition on_entry {A B} (f : A -> H B) (kv : bytes * A) : H (bytes * B) := do v <- f kv.2; hret (kv.1, v).

Definition all (k : bytes) : bool := true.
Definition not_name_type (k : bytes) : bool := negb (bool_decide (k ∈ [str "name"; str "type"])).

(** A map copied entry by entry, the keys that [keep] holds for. *)
Definition copy_map (keep : bytes -> bool) (f : GoVal -> H GoVal) (o : option nat) : H (option nat) :=
  match o with
  | None => hret None
  | Some l =>
      do c <- load l;
      match c with
      | CMap m => do es <- each (on_entry f) (filter (fun kv => keep kv.1 = true) (map_to_list m)); do l' <- alloc (CMap (list_to_map es)); hret (Some l')
      | _ => fun _ => None
      end
  end.

(** [append([]T(nil), t...)]: nil when there is nothing to append. *)
Definition copy_flat (o : option nat) : H (option nat) :=
  match o with
  | None => hret None
  | Some l => do c <- load l; match c with CFlat [] => hret None | CFlat l => do l' <- alloc (CFlat l); hret (Some l') | _ => fun _ => None end
  end.

Fixpoint cloneAnyValue (fuel : nat) (v : GoVal) : H GoVal :=
  match fuel with
  | O => fun _ => None
  | S fuel =>
      match v with
      | VMap o => do o' <- copy_map all (cloneAnyValue fuel) o; hret (VMap o')
      | VAny o =>
          do elems <- (match o with None => hret [] | Some l => do c <- load l; match c with CAny es => each (cloneAnyValue fuel) es | _ => fun _ => None end end);
          do l' <- alloc (CAny elems); hret (VAny (Some l'))
      | VFlat ty o => do o' <- copy_flat o; hret (VFlat ty o')
      | _ => hret v
      end
  end.
Definition cloneStringAnyMap (fuel : nat) : option nat -> H (option nat) := copy_map all (cloneAnyValue fuel).
Definition stripNameType (fuel : nat) : option nat -> H (option nat) :=
  copy_map not_name_type (cloneAnyValue fuel).

Definition copy_exit (copy : option nat -> H (option nat)) (x : ExitConfig) : H ExitConfig :=
  do c <- copy (x_Config x); hret {| x_ID := x_ID x; x_Protocol := x_Protocol x; x_Config := c |}.
Definition copy_exits (copy : option nat -> H (option nat)) (xs : list ExitConfig) : H (option nat) :=
  do ys <- each (copy_exit copy) xs; do l <- alloc (CExits ys); hret (Some l).

Definition cloneConfig (fuel : nat) (c : Config) : H Config :=
  do xs <- (match Exits c with
            | None => hret None
            | Some l => do cell <- load l; match cell with CExits xs => copy_exits (cloneStringAnyMap fuel) xs | _ => fun _ => None end
            end);
  do rs <- copy_flat (EffectiveRules c);
  do us <- copy_flat (Upstreams c);
  do cs <- copy_flat (AllowCIDR c);
  do ids <- copy_flat (AdminChatIDs c);
  do ss <- copy_flat (Sources c);
  hret {| scalars := scalars c; Exits := xs; EffectiveRules := rs; Upstreams := us; AllowCIDR := cs; AdminChatIDs := ids; Sources := ss |}.

Section assemble.
Context `{Unicode} (IsDomainName : bytes -> bool) (Unmarshal : bytes -> option (list Rule)).

(** The rules of the active row, parsed and checked once more. *)
Definition read_rules (y : option bytes) : res AssembleErr (option (list Rule)) :=
  match y with
  | None => Ok None
  | Some yaml =>
      match ParseYAML IsDomainName Unmarshal yaml with
      | Err e => Err (EParse e)
      | Ok rs => match RuleSet_Validate IsDomainName rs with Err e => Err (EValidate e) | Ok _ => Ok (Some rs) end
      end
  end.
Definition set_rules (old : option nat) (rules : option (list Rule)) : H (option nat) :=
  match rules with
  | None => hret old
  | Some [] => hret None
  | Some rs => do l <- alloc (CFlat (SRule <$> rs)); hret (Some l)
  end.

Definition Assemble (fuel : nat) (base : option Config) (s : option Store) : H (res AssembleErr Config) :=
  match base with
  | None => hret (Err ENilBase)
  | Some base =>
      do c <- cloneConfig fuel base;
      match s with
      | None => hret (Ok c)
      | Some s =>
          match ActiveRulesYAML s with
          | Err _ => hret (Err EReadActive)
          | Ok y =>
              match read_rules y with
              | Err e => hret (Err e)
              | Ok rules =>
                  do rs <- set_rules (EffectiveRules c) rules;
                  match ListExits s with
                  | Err _ => hret (Err EListExits)
                  | Ok exits =>
                      do xs <- (match exits with None => hret (Exits c) | Some xs => copy_exits (stripNameType fuel) xs end);
                      hret (Ok {| scalars := scalars c; Exits := xs; EffectiveRules := rs; Upstreams := Upstreams c; AllowCIDR := AllowCIDR c;
                                  AdminChatIDs := AdminChatIDs c; Sources := Sources c |})
                  end
              end
          end
      end
  end.

(** What the store has to say: the rules and exits that replace the base's,
    or the first failure. *)
Definition layers (s : option Store) : res AssembleErr (option (list Rule) * option (list ExitConfig)) :=
  match s with
  | None => Ok (None, None)
  | Some s =>
      match ActiveRulesYAML s with
      | Err _ => Err EReadActive
      | Ok y => match read_rules y, ListExits s with
                | Err e, _ => Err e
                | Ok _, Err _ => Err EListExits
                | Ok rules, Ok exits => Ok (rules, exits)
                end
      end
  end.
End assemble.

(** ** What a copy is *)

(** A value of containers at most [n] deep, with cells of their types. *)
Fixpoint typed (n : nat) (h : Heap) (v : GoVal) : Prop :=
  match n with
  | O => False
  | S n =>
      match v with
      | VMap (Some l) => exists m, h !! l = Some (CMap m) /\ map_Forall (fun _ => typed n h) m
      | VAny (Some l) => exists es, h !! l = Some (CAny es) /\ Forall (typed n h) es
      | VFlat _ (Some l) => exists es, h !! l = Some (CFlat es)
      | VOther l => exists b, h !! l = Some (COther b)
      | _ => True
      end
  end.
Definition typed_map (n : nat) (h : Heap) (o : option nat) : Prop := typed (S n) h (VMap o).
Definition typed_flat (h : Heap) (o : option nat) : Prop := match o with Some l => exists es, h !! l = Some (CFlat es) | None => True end.

(** What a slice of scalars, and one of exits, holds. *)
Definition flat_of (h : Heap) (o : option nat) : list Scalar := match o with Some l => match h !! l with Some (CFlat es) => es | _ => [] end | None => [] end.
Definition exits_of (h : Heap) (o : option nat) : list ExitConfig := match o with Some l => match h !! l with Some (CExits es) => es | _ => [] end | None => [] end.

(** The scalars of [o], appended to nil: a cell of [h'] outside [h], or nil. *)
Definition flat_copy (h : Heap) (o : option nat) (h' : Heap) (o' : option nat) : Prop :=
  match o' with Some l' => l' ∉ dom h /\ h' !! l' = Some (CFlat (flat_of h o)) | None => flat_of h o = [] end.

(** A map copied: the same entries, those that are kept, each related by [R]. *)
Definition map_copy (keep : bytes -> bool) (R : GoVal -> GoVal -> Prop) (h : Heap) (o : option nat) (h' : Heap) (o' : option nat) : Prop :=
  match o, o' with
  | None, None => True
  | Some l, Some l' => l' ∉ dom h /\ exists m m', h !! l = Some (CMap m) /\ h' !! l' = Some (CMap m') /\
      forall k, option_relation R (fun _ => False) (fun _ => False) (if keep k then m !! k else None) (m' !! k)
  | _, _ => False
  end.

(** [v'] in [h'] reads as [v] does in [h], up to nil slices being empty, and
    every cell on the way is outside [h], but for those of other types, which
    the copy holds too. *)
Fixpoint copy_of (n : nat) (h : Heap) (v : GoVal) (h' : Heap) (v' : GoVal) : Prop :=
  match n with
  | O => False
  | S n =>
      match v, v' with
      | VScalar s, VScalar s' => s = s'
      | VOther l, VOther l' => l' = l /\ exists b, h !! l = Some (COther b) /\ h' !! l = Some (COther b)
      | VFlat ty o, VFlat ty' o' => ty = ty' /\ flat_copy h o h' o'
      | VAny o, VAny (Some l') => l' ∉ dom h /\ exists es', h' !! l' = Some (CAny es') /\
          Forall2 (fun v v' => copy_of n h v h' v') (match o with Some l => match h !! l with Some (CAny es) => es | _ => [] end | None => [] end) es'
      | VMap o, VMap o' => map_copy all (fun v v' => copy_of n h v h' v') h o h' o'
      | _, _ => False
      end
  end.

Definition exit_copy (n : nat) (keep : bytes -> bool) (h h' : Heap) (x x' : ExitConfig) : Prop :=
  x_ID x' = x_ID x /\ x_Protocol x' = x_Protocol x /\ map_copy keep (fun v v' => copy_of n h v h' v') h (x_Config x) h' (x_Config x').

(** ** Lemmas *)
Lemma option_relation_mono {A B} (R R' : A -> B -> Prop) o o' : (forall a b, R a b -> R' a b) ->
  option_relation R (fun _ => False) (fun _ => False) o o' -> option_relation R' (fun _ => False) (fun _ => False) o o'.
Proof. intros HR. destruct o, o'; cbn; auto. Qed.

(** From [h1] to [h2] nothing changes that is there outside [h], nor any cell
    of [h] that is of another type. *)
Definition keeps_new (h h1 h2 : Heap) : Prop :=
  forall l c, l ∉ dom h \/ (exists b, h !! l = Some (COther b)) -> h1 !! l = Some c -> h2 !! l = Some c.

Lemma keeps_grown h h1 h2 : h1 ⊆ h2 -> keeps_new h h1 h2.
Proof. intros Hs l c _ Hc. by eapply lookup_weaken. Qed.

Lemma flat_copy_stable h o h1 h2 o' : keeps_new h h1 h2 -> flat_copy h o h1 o' -> flat_copy h o h2 o'.
Proof. intros Hh. destruct o' as [l'|]; cbn [flat_copy]; [|done]. intros [H1 H2]. split; [done|]. apply Hh; auto. Qed.

Lemma map_copy_stable keep (R R' : GoVal -> GoVal -> Prop) h o h1 h2 o' : (forall v v', R v v' -> R' v v') -> keeps_new h h1 h2 ->
  map_copy keep R h o h1 o' -> map_copy keep R' h o h2 o'.
Proof.
  intros HR Hh. destruct o as [l|], o' as [l'|]; cbn [map_copy]; try done. intros (Hl & m & m' & E & E' & HM). split; [done|]. exists m, m'.
  split; [done|]. split; [apply Hh; auto|]. intros k. eapply option_relation_mono; [exact HR|apply HM].
Qed.

(** A copy stays one whatever is written to the cells of [h], and when cells
    are added. *)
Lemma copy_of_stable n : forall h v h1 h2 v', keeps_new h h1 h2 -> copy_of n h v h1 v' -> copy_of n h v h2 v'.
Proof.
  induction n as [|n IH]; [done|]. intros h v h1 h2 v' Hh. destruct v as [s|o|o|ty o|l], v' as [s'|o'|[l'|]|ty' o'|l']; cbn [copy_of]; try done.
  - apply map_copy_stable; [|done]. intros v v'. by apply IH.
  - intros (Hl & es' & E & HF). split; [done|]. exists es'. split; [apply Hh; auto|]. eapply Forall2_impl; [exact HF|]. cbv beta. intros v v'. by apply IH.
  - intros [H1 H2]. split; [done|]. by eapply flat_copy_stable.
  - intros (-> & b & E & E'). split; [done|]. exists b. split; [done|]. apply Hh; [right; by eexists|done].
Qed.

Lemma exit_copy_stable n keep h h1 h2 x x' : keeps_new h h1 h2 -> exit_copy n keep h h1 x x' -> exit_copy n keep h h2 x x'.
Proof. intros Hh (H1 & H2 & H3). split; [done|]. split; [done|]. eapply map_copy_stable; [|exact Hh|exact H3]. intros v v'. by apply copy_of_stable. Qed.

(** *** Runs that succeed, and only add cells *)
Definition succeeds {A} (m : H A) (h : Heap) (Q : A -> Heap -> Prop) : Prop := exists a h', m h = Some (a, h') /\ h ⊆ h' /\ Q a h'.

Lemma s_ret {A} (a : A) h (Q : A -> Heap -> Prop) : Q a h -> succeeds (hret a) h Q.
Proof. intros HQ. by exists a, h. Qed.
Lemma s_bind {A B} (m : H A) (f : A -> H B) h (Q : B -> Heap -> Prop) : succeeds m h (fun a h' => h ⊆ h' -> succeeds (f a) h' Q) -> succeeds (hbind m f) h Q.
Proof.
  intros (a & h1 & E & Hs & HQ). destruct (HQ Hs) as (b & h2 & E2 & Hs2 & HQ2). exists b, h2. split; [unfold hbind; by rewrite E|]. split; [by transitivity h1|done].
Qed.
Lemma s_mono {A} (m : H A) h (Q Q' : A -> Heap -> Prop) : succeeds m h Q -> (forall a h', h ⊆ h' -> Q a h' -> Q' a h') -> succeeds m h Q'.
Proof. intros (a & h1 & E & Hs & HQ) HI. exists a, h1. split_and!; [done|done|by apply HI]. Qed.
Lemma s_load l c h (Q : Cell -> Heap -> Prop) : h !! l = Some c -> Q c h -> succeeds (load l) h Q.
Proof. intros E HQ. exists c, h. unfold load. by rewrite E. Qed.
Lemma s_alloc c h (Q : nat -> Heap -> Prop) : (forall l, l ∉ dom h -> Q l (<[l := c]> h)) -> succeeds (alloc c) h Q.
Proof.
  intros HQ. pose proof (is_fresh (dom h)) as Hf. exists (fresh (dom h)), (<[fresh (dom h) := c]> h). split; [done|]. split; [|by apply HQ].
  apply insert_subseteq. by apply not_elem_of_dom.
Qed.

Lemma s_each {A B} (f : A -> H B) (R : A -> B -> Heap -> Prop) (h0 : Heap) (l : list A) :
  (forall x y h1 h2, h1 ⊆ h2 -> R x y h1 -> R x y h2) -> (forall x h, x ∈ l -> h0 ⊆ h -> succeeds (f x) h (R x)) ->
  forall h, h0 ⊆ h -> succeeds (each f l) h (fun ys h' => Forall2 (fun x y => R x y h') l ys).
Proof.
  intros Hmono. induction l as [|x l IH]; intros Hf h Hh; cbn [each]; [apply s_ret; constructor|].
  apply s_bind. eapply s_mono; [apply Hf; [left|done]|]. cbv beta. intros y h1 Hs1 HR _.
  apply s_bind. eapply s_mono; [apply IH; [intros; apply Hf; [by right|done]|by transitivity h]|]. cbv beta. intros ys h2 Hs2 HF _.
  apply s_ret. constructor; [by eapply Hmono|done].
Qed.

Lemma s_copy_flat h0 o h : typed_flat h0 o -> h0 ⊆ h -> succeeds (copy_flat o) h (fun o' h' => flat_copy h0 o h' o').
Proof.
  intros Ht Hh. destruct o as [l|]; cbn [copy_flat]; [|by apply s_ret]. destruct Ht as [es E]. apply s_bind. eapply s_load; [by eapply lookup_weaken|]. cbv beta. intros _.
  destruct es as [|e es]; [apply s_ret; cbn; by rewrite E|]. apply s_bind, s_alloc. intros l' Hl' _. apply s_ret. split; [|rewrite lookup_insert_eq; cbn [flat_of]; by rewrite E].
  intros Hin. apply Hl'. apply (subseteq_dom _ _ Hh). done.
Qed.

(** The entries of a copied map. *)
Lemma copied_entries (R : GoVal -> GoVal -> Prop) es es' : Forall2 (fun kv kv' => kv'.1 = kv.1 /\ R kv.2 kv'.2) es es' ->
  forall k : bytes, option_relation R (fun _ => False) (fun _ => False) ((list_to_map es : gmap bytes GoVal) !! k) ((list_to_map es' : gmap bytes GoVal) !! k).
Proof.
  induction 1 as [|[k1 v1] [k2 v2] es es' [Hk HR] _ IH]; intros k; [done|]. cbn in Hk, HR. subst k2. cbn [list_to_map foldr].
  destruct (decide (k = k1)) as [->|Hne]; [by rewrite !lookup_insert_eq|]. rewrite !lookup_insert_ne by done. apply IH.
Qed.

Lemma s_copy_map keep (f : GoVal -> H GoVal) (R : GoVal -> GoVal -> Heap -> Prop) h0 o :
  (forall x y h1 h2, h1 ⊆ h2 -> R x y h1 -> R x y h2) ->
  (match o with Some l => exists m, h0 !! l = Some (CMap m) /\ forall k v, m !! k = Some v -> forall h, h0 ⊆ h -> succeeds (f v) h (R v) | None => True end) ->
  forall h, h0 ⊆ h -> succeeds (copy_map keep f o) h (fun o' h' => map_copy keep (fun v v' => R v v' h') h0 o h' o').
Proof.
  intros Hmono Ho h Hh. destruct o as [l|]; cbn [copy_map]; [|by apply s_ret]. destruct Ho as (m & E & Hf).
  apply s_bind. eapply s_load; [by eapply lookup_weaken|]. cbv beta. intros _. apply s_bind.
  eapply s_mono; [apply (s_each _ (fun kv kv' h' => kv'.1 = kv.1 /\ R kv.2 kv'.2 h') h0); [| |done]|].
  - intros x y h1 h2 Hs [H1 H2]. split; [done|by eapply Hmono].
  - intros [k v] h1 Hin Hs1. apply list_elem_of_filter in Hin as [_ Hin%elem_of_map_to_list]. unfold on_entry. cbn [fst snd].
    apply s_bind. eapply s_mono; [by eapply Hf|]. cbv beta. intros v' h2 _ HR _. by apply s_ret.
  - cbv beta. intros es h1 Hs1 HF _. apply s_bind, s_alloc. intros l' Hl' Hs2. apply s_ret.
    split; [intros Hin; apply Hl', (subseteq_dom h0); [by transitivity h|done]|]. exists m, (list_to_map es). split; [done|]. split; [by rewrite lookup_insert_eq|].
    intros k. assert ((if keep k then m !! k else None) = (list_to_map (filter (fun kv => keep kv.1 = true) (map_to_list m)) : gmap bytes GoVal) !! k) as ->.
    { rewrite <- (map_filter_alt (fun kv => keep kv.1 = true) m). destruct (keep k) eqn:EK.
      - destruct (m !! k) as [v|] eqn:Em; symmetry; [by apply map_lookup_filter_Some_2|apply map_lookup_filter_None_2; by left].
      - symmetry. apply map_lookup_filter_None_2. right. intros v _. cbn. by rewrite EK. }
    eapply option_relation_mono; [|apply (copied_entries (fun v v' => R v v' h1)), HF]. cbv beta. intros a b. by apply Hmono.
Qed.

Lemma s_cloneAnyValue n : forall h0 v, typed n h0 v -> forall h, h0 ⊆ h -> succeeds (cloneAnyValue n v) h (fun v' h' => copy_of n h0 v h' v').
Proof.
  induction n as [|n IH]; [done|]. intros h0 v Ht h Hh. destruct v as [s|o|o|ty o|l]; cbn [cloneAnyValue copy_of]; try (by apply s_ret).
  4:{ apply s_ret. destruct Ht as [b E]. split; [done|]. exists b. split; [done|]. by eapply lookup_weaken. }
  - apply s_bind. eapply s_mono; [apply (s_copy_map _ _ (fun v v' h' => copy_of n h0 v h' v') h0); [| |done]|].
    + intros x y h1 h2 Hs. apply copy_of_stable. by apply keeps_grown.
    + destruct o as [l|]; [|done]. destruct Ht as (m & E & Hm). exists m. split; [done|]. intros k v Hk h1 Hh1. apply IH; [|done]. by eapply map_Forall_lookup_1 in Hm.
    + cbv beta. intros o' h1 _ HM _. by apply s_ret.
  - apply s_bind. set (es := match o with Some l => match h0 !! l with Some (CAny es) => es | _ => [] end | None => [] end).
    apply (s_mono _ _ (fun es' h' => Forall2 (fun v v' => copy_of n h0 v h' v') es es')).
    + destruct o as [l|]; [|apply s_ret; constructor]. destruct Ht as (es0 & E & HF). unfold es. rewrite E. apply s_bind. eapply s_load; [by eapply lookup_weaken|]. cbv beta. intros _.
      apply (s_each _ (fun v v' h' => copy_of n h0 v h' v') h0); [| |done].
      * intros x y h1 h2 Hs. apply copy_of_stable. by apply keeps_grown.
      * intros x h1 Hin Hs. apply IH; [|done]. rewrite Forall_forall in HF. by apply HF.
    + cbv beta. intros es' h1 Hs1 HF _. apply s_bind, s_alloc. intros l' Hl' Hs2. apply s_ret.
      split; [intros Hin; apply Hl', (subseteq_dom h0); [by transitivity h|done]|]. exists es'. split; [by rewrite lookup_insert_eq|].
      eapply Forall2_impl; [exact HF|]. cbv beta. intros a b. apply copy_of_stable. by apply keeps_grown.
  - apply s_bind. eapply s_mono; [apply (s_copy_flat h0); [by destruct o|done]|]. cbv beta. intros o' h1 _ HC _. by apply s_ret.
Qed.

(** ** The whole configuration *)
Definition config_typed (n : nat) (h : Heap) (c : Config) : Prop :=
  match Exits c with Some l => exists xs, h !! l = Some (CExits xs) /\ Forall (fun x => typed_map n h (x_Config x)) xs | None => True end /\
  Forall (typed_flat h) [EffectiveRules c; Upstreams c; AllowCIDR c; AdminChatIDs c; Sources c].

Definition exits_copied (n : nat) (keep : bytes -> bool) (h : Heap) (xs : list ExitConfig) (h' : Heap) (o' : option nat) : Prop :=
  exists l xs', o' = Some l /\ l ∉ dom h /\ h' !! l = Some (CExits xs') /\ Forall2 (exit_copy n keep h h') xs xs'.

(** What [Assemble] promises of its result, as it is read in [h']. *)
Record assembled (n : nat) (h : Heap) (base : Config) (rules : option (list Rule)) (exits : option (list ExitConfig)) (h' : Heap) (c : Config) : Prop := {
  as_scalars : scalars c = scalars base;
  as_rules : match rules with
             | None => flat_copy h (EffectiveRules base) h' (EffectiveRules c)
             | Some rs => match EffectiveRules c with Some l => l ∉ dom h /\ h' !! l = Some (CFlat (SRule <$> rs)) | None => rs = [] end
             end;
  as_exits : match exits, Exits base with
             | Some xs, _ => exits_copied n not_name_type h xs h' (Exits c)
             | None, Some l => exits_copied n all h (exits_of h (Some l)) h' (Exits c)
             | None, None => Exits c = None
             end;
  as_upstreams : flat_copy h (Upstreams base) h' (Upstreams c);
  as_cidr : flat_copy h (AllowCIDR base) h' (AllowCIDR c);
  as_admins : flat_copy h (AdminChatIDs base) h' (AdminChatIDs c);
  as_sources : flat_copy h (Sources base) h' (Sources c)
}.

Lemma exits_copied_stable n keep h xs h1 h2 o' : keeps_new h h1 h2 -> exits_copied n keep h xs h1 o' -> exits_copied n keep h xs h2 o'.
Proof.
  intros Hh (l & xs' & -> & Hl & E & HF). exists l, xs'. split_and!; [done|done|apply Hh; auto|]. eapply Forall2_impl; [exact HF|]. intros x x'. by apply exit_copy_stable.
Qed.

Lemma flat_copy_grown h o h1 h2 o' : flat_copy h o h1 o' -> h1 ⊆ h2 -> flat_copy h o h2 o'.
Proof. intros HC Hs. eapply flat_copy_stable; [by apply keeps_grown|done]. Qed.
Lemma exits_copied_grown n keep h xs h1 h2 o' : exits_copied n keep h xs h1 o' -> h1 ⊆ h2 -> exits_copied n keep h xs h2 o'.
Proof. intros HC Hs. eapply exits_copied_stable; [by apply keeps_grown|done]. Qed.

Lemma assembled_stable n h base rules exits h1 h2 c : keeps_new h h1 h2 -> assembled n h base rules exits h1 c -> assembled n h base rules exits h2 c.
Proof.
  intros Hh [H1 H2 H3 H4 H5 H6 H7]. split; try (by eapply flat_copy_stable); [done| |].
  - destruct rules as [rs|]; [|by eapply flat_copy_stable]. destruct (EffectiveRules c); [|done]. destruct H2 as [Hl E]. split; [done|apply Hh; auto].
  - destruct exits; [|destruct (Exits base)]; [by eapply exits_copied_stable..|done].
Qed.

Lemma s_copy_exits n keep h0 xs : Forall (fun x => typed_map n h0 (x_Config x)) xs ->
  forall h, h0 ⊆ h -> succeeds (copy_exits (copy_map keep (cloneAnyValue n)) xs) h (fun o' h' => exits_copied n keep h0 xs h' o').
Proof.
  intros Hx h Hh. unfold copy_exits. apply s_bind. eapply s_mono; [apply (s_each _ (fun x x' h' => exit_copy n keep h0 h' x x') h0); [| |done]|].
  - intros x x' h1 h2 Hs. apply exit_copy_stable. by apply keeps_grown.
  - intros x h1 Hin Hs. unfold copy_exit. apply s_bind. eapply s_mono; [apply (s_copy_map keep _ (fun v v' h' => copy_of n h0 v h' v') h0); [| |done]|].
    + intros v v' h2 h3 Hs2. apply copy_of_stable. by apply keeps_grown.
    + rewrite Forall_forall in Hx. specialize (Hx x Hin). unfold typed_map in Hx. destruct (x_Config x) as [l|]; [|done]. destruct Hx as (m & E & Hm).
      exists m. split; [done|]. intros k v Hk h2 Hh2. apply s_cloneAnyValue; [|done]. by eapply map_Forall_lookup_1 in Hm.
    + cbv beta. intros o' h2 _ HM _. apply s_ret. by split.
  - cbv beta. intros ys h1 Hs1 HF _. apply s_bind, s_alloc. intros l' Hl' Hs2. apply s_ret. exists l', ys. split; [done|].
    split; [intros Hin; apply Hl', (subseteq_dom h0); [by transitivity h|done]|]. split; [by rewrite lookup_insert_eq|].
    eapply Forall2_impl; [exact HF|]. intros x x'. apply exit_copy_stable. by apply keeps_grown.
Qed.

Lemma s_cloneConfig n h0 base : config_typed n h0 base -> forall h, h0 ⊆ h -> succeeds (cloneConfig n base) h (fun c h' => assembled n h0 base None None h' c).
Proof.
  intros [HX HF] h Hh. rewrite !Forall_cons in HF. destruct HF as (T1 & T2 & T3 & T4 & T5 & _). unfold cloneConfig.
  apply s_bind. apply (s_mono _ _ (fun o' h' => match Exits base with Some l => exits_copied n all h0 (exits_of h0 (Some l)) h' o' | None => o' = None end)).
  { destruct (Exits base) as [l|]; [|by apply s_ret]. destruct HX as (xs & E & Hxs). apply s_bind. eapply s_load; [by eapply lookup_weaken|]. cbv beta. intros _.
    cbn [exits_of]. rewrite E. by apply s_copy_exits. }
  cbv beta. intros xs h1 S1 X1 _. assert (h0 ⊆ h1) as G1 by (by transitivity h).
  apply s_bind. eapply s_mono; [by apply (s_copy_flat h0)|]. cbv beta. intros rs h2 S2 X2 _. assert (h0 ⊆ h2) as G2 by (by transitivity h1).
  apply s_bind. eapply s_mono; [by apply (s_copy_flat h0)|]. cbv beta. intros us h3 S3 X3 _. assert (h0 ⊆ h3) as G3 by (by transitivity h2).
  apply s_bind. eapply s_mono; [by apply (s_copy_flat h0)|]. cbv beta. intros cs h4 S4 X4 _. assert (h0 ⊆ h4) as G4 by (by transitivity h3).
  apply s_bind. eapply s_mono; [by apply (s_copy_flat h0)|]. cbv beta. intros ids h5 S5 X5 _. assert (h0 ⊆ h5) as G5 by (by transitivity h4).
  apply s_bind. eapply s_mono; [by apply (s_copy_flat h0)|]. cbv beta. intros ss h6 S6 X6 _. apply s_ret.
  assert (h1 ⊆ h6 /\ h2 ⊆ h6 /\ h3 ⊆ h6 /\ h4 ⊆ h6) as (K1 & K2 & K3 & K4) by (split_and!; repeat (etransitivity; [eassumption|]); done).
  split; cbn [scalars Exits EffectiveRules Upstreams AllowCIDR AdminChatIDs Sources]; [done| | | | | |done].
  - by eapply flat_copy_grown.
  - destruct (Exits base); [|done]. by eapply exits_copied_grown.
  - by eapply flat_copy_grown.
  - by eapply flat_copy_grown.
  - by eapply flat_copy_grown.
Qed.

Section properties.
Context `{Unicode} (IsDomainName : bytes -> bool) (Unmarshal : bytes -> option (list Rule)).

Lemma s_set_rules h0 base rules c h : flat_copy h0 (EffectiveRules base) h (EffectiveRules c) -> h0 ⊆ h ->
  succeeds (set_rules (EffectiveRules c) rules) h (fun o h' => match rules with
    | None => flat_copy h0 (EffectiveRules base) h' o
    | Some rs => match o with Some l => l ∉ dom h0 /\ h' !! l = Some (CFlat (SRule <$> rs)) | None => rs = [] end end).
Proof.
  intros HC Hs. destruct rules as [[|r rs]|]; cbn [set_rules]; [by apply s_ret| |by apply s_ret]. apply s_bind, s_alloc. intros l Hl _. apply s_ret.
  split; [intros Hin; by apply Hl, (subseteq_dom h0)|by rewrite lookup_insert_eq].
Qed.

(** ** Properties *)

(** C12: assembling the configuration always ends, for a base of any depth
    within the fuel, and nothing that was there is touched.  It fails without
    a base, or with the first failure of the store: a read, a rule list that
    does not parse, the exits.  Otherwise the result reads as it should: the
    base's scalars and slices, the rules and exits of the store when it has
    them (the exits without the keys name and type) and the base's otherwise.
    And it goes on reading so in every later heap in which the cells it made
    are as they were, and those of the types [cloneAnyValue] does not name,
    such as header maps: these it shares ([headers_shared]), and no other;
    whatever is written meanwhile to the other cells of the base or of the
    store's maps, the result does not show it. *)
Theorem Assemble_isolated n h (base : option Config) (s : option Store) :
  (forall b, base = Some b -> config_typed n h b) ->
  (forall st xs, s = Some st -> ListExits st = Ok (Some xs) -> Forall (fun x => typed_map n h (x_Config x)) xs) ->
  let run := Assemble IsDomainName Unmarshal n base s h in
  match base, layers IsDomainName Unmarshal s with
  | None, _ => run = Some (Err ENilBase, h)
  | Some _, Err e => exists h', run = Some (Err e, h') /\ h ⊆ h'
  | Some b, Ok (rules, exits) =>
      exists c h', run = Some (Ok c, h') /\ h ⊆ h' /\ forall h2, keeps_new h h' h2 -> assembled n h b rules exits h2 c
  end.
Proof.
  intros HB HX run. subst run. destruct base as [b|]; [|done]. specialize (HB b eq_refl).
  cut (succeeds (Assemble IsDomainName Unmarshal n (Some b) s) h (fun r h' => match layers IsDomainName Unmarshal s, r with
    | Err e, Err e' => e' = e | Ok (rules, exits), Ok c => assembled n h b rules exits h' c | _, _ => False end)).
  { intros (r & h' & E & Hs & HA). destruct (layers _ _ s) as [e|[rules exits]], r as [e'|c]; try done; [subst e'; by exists h'|].
    exists c, h'. split_and!; [done|done|]. intros h2 Hk. by eapply assembled_stable. }
  unfold Assemble, layers. apply s_bind. eapply s_mono; [by apply (s_cloneConfig n h)|]. cbv beta. intros c h1 S1 HA _.
  destruct s as [st|]; [|by apply s_ret]. specialize (HX st). destruct (ActiveRulesYAML st) as [|y]; [by apply s_ret|].
  destruct (read_rules _ _ y) as [e|rules]; [by apply s_ret|]. destruct HA as [A1 A2 A3 A4 A5 A6 A7].
  apply s_bind. eapply s_mono; [by apply (s_set_rules h b)|]. cbv beta. intros rs h2 S2 X2 _. assert (h ⊆ h2) as G2 by (by transitivity h1).
  destruct (ListExits st) as [|exits]; [by apply s_ret|].
  apply s_bind. apply (s_mono _ _ (fun o h' => match exits, Exits b with
    | Some xs, _ => exits_copied n not_name_type h xs h' o
    | None, Some l => exits_copied n all h (exits_of h (Some l)) h' o
    | None, None => o = None end)).
  { destruct exits as [xs|]; [apply s_copy_exits; [by apply (HX xs)|done]|]. apply s_ret. destruct (Exits b); [|done]. by eapply exits_copied_grown. }
  cbv beta. intros xs h3 S3 X3 _. apply s_ret. assert (h1 ⊆ h3) as G3 by (by transitivity h2).
  split; cbn [scalars Exits EffectiveRules Upstreams AllowCIDR AdminChatIDs Sources]; [done| |done|by eapply flat_copy_grown..].
  destruct rules as [rs0|]; [|by eapply flat_copy_grown]. destruct rs as [l|]; [|done]. destruct X2 as [Hl E]. split; [done|by eapply lookup_weaken].
Qed.
End properties.

(** ** A concrete heap *)
Module Demo.
#[local] Existing Instance ascii_tables.
Definition jp_map : gmap bytes GoVal :=
  <[str "name" := VScalar (str "jp")]> (<[str "peers" := VAny (Some 1%nat)]> (<[str "headers" := VOther 7%nat]> ∅)).
Definition key_map : gmap bytes GoVal := <[str "key" := VScalar (str "k")]> ∅.
Definition headers : gmap bytes bytes := {[ str "Host" := str "a.com" ]}.
Definition h0 : Heap := list_to_map [
  (0%nat, CMap jp_map);
  (1%nat, CAny [VMap (Some 2%nat); VFlat (str "string") (Some 3%nat); VFlat (str "int") (Some 4%nat)]);
  (2%nat, CMap key_map); (3%nat, CFlat [SText (str "a"); SText (str "b")]); (4%nat, CFlat []);
  (5%nat, CExits [{| x_ID := str "jp"; x_Protocol := str "wireguard"; x_Config := Some 0%nat |}]); (6%nat, CFlat [SText (str "1.1.1.1")]);
  (7%nat, COther headers)].
Definition base : Config :=
  {| scalars := str "server"; Exits := Some 5%nat; EffectiveRules := None; Upstreams := Some 6%nat; AllowCIDR := None; AdminChatIDs := None; Sources := None |}.
Definition exits : list ExitConfig := [{| x_ID := str "us"; x_Protocol := str "wireguard"; x_Config := Some 0%nat |}].
Definition direct : Rule :=
  {| ID := str "m"; kind := KindMatch; Pattern := []; Action := str "DIRECT"; Priority := 1; Enabled := true; Notes := []; GroupID := [] |}.
Definition Unmarshal (raw : bytes) : option (list Rule) := if raw == str "A" then Some [direct] else None.
Definition store : Store := {| ActiveRulesYAML := Ok (Some (str "A")); ListExits := Ok (Some exits) |}.
Abbreviation assemble b s := (Assemble (fun _ => true) Unmarshal 5 b s h0).
Definition run := assemble (Some base) (Some store).
Definition made : Config := match run with Some (Ok c, _) => c | _ => base end.
Definition after : Heap := match run with Some (_, h) => h | None => ∅ end.

(** Reads through the copy: the exit's map, its keys, a header. *)
Definition map_at (h : Heap) (o : option nat) : gmap bytes GoVal :=
  match exits_of h o with
  | x :: _ => match x_Config x with Some l => match h !! l with Some (CMap m) => m | _ => ∅ end | None => ∅ end
  | [] => ∅
  end.
Definition keys (h : Heap) (o : option nat) : list bytes := (map_to_list (map_at h o)).*1.
Definition host (h : Heap) (o : option nat) : option bytes :=
  match map_at h o !! str "headers" with Some (VOther l) => match h !! l with Some (COther m) => m !! str "Host" | _ => None end | _ => None end.
Example stripped : keys after (Exits made) = [str "headers"; str "peers"] \/ keys after (Exits made) = [str "peers"; str "headers"].
Proof. by vm_compute; auto. Qed.
Example rules_set : flat_of after (EffectiveRules made) = [SRule direct] /\ flat_of after (Upstreams made) = [SText (str "1.1.1.1")].
Proof. by vm_compute. Qed.
Example failures :
  option_map fst (assemble None (Some store)) = Some (Err ENilBase) /\
  option_map fst (assemble (Some base) (Some {| ActiveRulesYAML := Ok (Some (str "B")); ListExits := Err tt |})) = Some (Err (EParse ErrYAML)) /\
  option_map fst (assemble (Some base) (Some {| ActiveRulesYAML := Ok None; ListExits := Err tt |})) = Some (Err EListExits).
Proof. by vm_compute. Qed.

(** Everything the base reaches, but for the headers, is overwritten. *)
Definition spoil (h : Heap) : Heap := <[0%nat := COther ∅]> (<[6%nat := COther ∅]> h).
Example unmoved : flat_of (spoil after) (Upstreams made) = [SText (str "1.1.1.1")] /\ len (keys (spoil after) (Exits made)) = 2%Z.
Proof. by vm_compute. Qed.

(** The headers are not copied: a write through the base's, or the store's,
    shows in the result. *)
Example headers_shared :
  host after (Exits made) = Some (str "a.com") /\
  host (<[7%nat := COther {[ str "Host" := str "b.com" ]}]> after) (Exits made) = Some (str "b.com").
Proof. by vm_compute. Qed.

(** A value that holds itself overflows the stack. *)
Example cyclic : cloneAnyValue 100 (VMap (Some 0%nat)) (<[0%nat := CMap {[ str "self" := VMap (Some 0%nat) ]}]> ∅) = None.
Proof. by vm_compute. Qed.

Lemma typed_jp : typed_map 5 h0 (Some 0%nat).
Proof.
  exists jp_map. split; [reflexivity|]. unfold jp_map. repeat (apply map_Forall_insert_2; [|]); [done| |by eexists|apply map_Forall_empty].
  eexists. split; [reflexivity|]. repeat constructor; [|by eexists..].
  exists key_map. split; [reflexivity|]. apply map_Forall_insert_2; [done|apply map_Forall_empty].
Qed.
Lemma typed_base : config_typed 5 h0 base.
Proof. split; [|repeat constructor; by eexists]. eexists. split; [reflexivity|]. repeat constructor. exact typed_jp. Qed.
Lemma typed_exits : Forall (fun x => typed_map 5 h0 (x_Config x)) exits.
Proof. repeat constructor. exact typed_jp. Qed.
Lemma spoiled_new h : keeps_new h0 h (spoil h).
Proof.
  intros l c Hl Hc. assert (l <> 0%nat /\ l <> 6%nat) as [H1 H2] by (split; intros ->; destruct Hl as [Hl|[b Hl]]; [apply Hl, elem_of_dom; by eexists|by vm_compute in Hl..|apply Hl, elem_of_dom; by eexists|by vm_compute in Hl]).
  unfold spoil. by rewrite !lookup_insert_ne.
Qed.

Lemma Assemble_isolated_witness : exists c h', run = Some (Ok c, h') /\ assembled 5 h0 base (Some [direct]) (Some exits) (spoil h') c.
Proof.
  pose proof (Assemble_isolated (fun _ => true) Unmarshal 5 h0 (Some base) (Some store)) as HT. cbv zeta in HT.
  destruct HT as (c & h' & E & _ & HA).
  - intros b [= <-]. exact typed_base.
  - intros st xs [= <-] [= <-]. exact typed_exits.
  - exists c, h'. split; [exact E|]. apply HA, spoiled_new.
Defined.
End Demo.
