(* ===== verification/InstallerCli.v ===== *)
(** * The installer's command line

    cmd/5gpn-installer/main.go with actions.go's [Doctor] and [Status]: each
    subcommand over the host, with the executor its flags choose.  The flags
    come parsed; encoding/xml, text/template and the search of the PATH are
    parameters, as in Installer.v and Legacy.v. *)
From S2P Require Import Prelude GoStrings GoNet GoCodec Exit Installer.
From S2P Require Import GoQuote Legacy.
From S2P Require Rules.
From Stdlib Require Import ZArith Lia.
Local Open Scope Z_scope.

(** ** What the code reads of the host *)
Definition child (p : bytes) (qn : bytes * Node) : option (bytes * bool) :=
  name ← after (p ++ [slash]) qn.1; if (name == []) || bool_decide (slash ∈ name) then None else Some (name, n_Dir qn.2).
(** [os.ReadDir] sorts by name. *)
Definition ReadDir (t : Tree) (p : bytes) : option (list (bytes * bool)) :=
  match t !! p with
  | Some n => if n_Dir n then Some (stable_sort (fun a b => Rules.bytes_leb a.1 b.1) (omap (child p) (map_to_list t))) else None
  | None => None
  end.
Definition body_of (t : Tree) (p : bytes) : option bytes := match t !! p with Some n => if n_Dir n then None else Some (n_Body n) | None => None end.
Definition files_of (t : Tree) : Files := {| file := body_of t; dir := ReadDir t |}.

(** ** actions.go: status and doctor *)
Record DoctorCheck := { k_Name : bytes; k_OK : bool; k_Detail : bytes }.

(** [writable]: the owner's write bit. *)
Definition writable (t : Tree) (p : bytes) : bool := match t !! p with Some n => Z.testbit (n_Mode n) 7 | None => false end.
Fixpoint parent_loop (fuel : nat) (p : bytes) : bytes :=
  match fuel with
  | O => [slash]
  | S i => if bool_decide (p !! S i = Some slash) then take (S i) p else parent_loop i p
  end.
Definition parent (p : bytes) : bytes := parent_loop (length p - 1) p.

Section actions.
Context `{Unicode} {W : Type} `{Executor W} (linux : bool).

Definition Status (e : Env) : ST W bytes :=
  if negb linux then ret (str "status: not linux — nothing to report")
  else let! r := systemctl [str "is-active"; EUnit e] in ret (match r with Err _ => str "unit: inactive" | Ok _ => str "unit: active" end).

Definition present_or_creatable (t : Tree) (p : bytes) : ST W bool := let! there := Exists p in ret (there || writable t (parent p)).
Definition Doctor (onPath : bytes -> bool) (t : Tree) (e : Env) (d : Distro) : ST W (list DoctorCheck) :=
  let check name ok detail := {| k_Name := name; k_OK := ok; k_Detail := detail |} in
  let! config := present_or_creatable t (ConfigDir e) in
  let! data := present_or_creatable t (DataDir e) in
  ret ([check (str "bin dir writable") (writable t (BinDir e)) (BinDir e);
        check (str "config dir present or creatable") config (ConfigDir e); check (str "data dir present or creatable") data (DataDir e)] ++
       (if linux then map (fun n => check (n ++ str " on PATH") (onPath n) []) [str "systemctl"; str "groupadd"; str "useradd"] else []) ++
       (if d_ID d == [] then []
        else [check (str "distro recognized") (match distro_family (d_ID d) (IDLike d) with FamilyUnknown => false | _ => true end) (distro_String d)])).
End actions.

(** ** main.go *)
Record commonFlags := { dryRun : bool; root : bytes; osFixture : bytes }.

(** [WithRoot] of the paths; [filepath.Join] as in Legacy.v. *)
Definition env (cf : commonFlags) : Env :=
  let e := Defaults in
  if root cf == [] then e
  else {| BinDir := root cf ++ BinDir e; ConfigDir := root cf ++ ConfigDir e; DataDir := root cf ++ DataDir e; UnitDir := root cf ++ UnitDir e;
          EUser := EUser e; EGroup := EGroup e; Binary := Binary e; EUnit := EUnit e |}.

(** [or], [present] and [redact], for the summary of a migration. *)
Definition or_ (s alt : bytes) : bytes := if s == [] then alt else s.
Definition present (s : bytes) : bytes := if s == [] then str "(none)" else str "present".
Definition redact (s : bytes) : bytes :=
  if s == [] then str "(none)" else if len s <=? 6 then str "***" else take 3 s ++ str "…" ++ drop (length s - 3) s.

Inductive Invocation :=
| RunInstall (cf : commonFlags) (o : InstallOptions)
| RunUpgrade (cf : commonFlags) (o : UpgradeOptions)
| RunUninstall (cf : commonFlags) (purge : bool)
| RunStatus (cf : commonFlags)
| RunDoctor (cf : commonFlags)
| RunMigrate (cf : commonFlags) (legacyRoot : bytes) (force allowPartial : bool).
Definition flags_of (i : Invocation) : commonFlags :=
  match i with RunInstall cf _ | RunUpgrade cf _ | RunUninstall cf _ | RunStatus cf | RunDoctor cf | RunMigrate cf _ _ _ => cf end.

Section cli.
Context `{Unicode} `{Printable}.
Context (linux : bool) (umask : Z) (RenderUnit : Env -> res IErr bytes) (DefaultConfigTemplate : bytes).
Context (xml_elements : bytes -> list Element) (onPath : bytes -> bool).

(** [distro]: a fixture has to be readable, the host's file does not. *)
Definition distro (t : Tree) (cf : commonFlags) : option Distro :=
  if osFixture cf != [] then parseOSRelease <$> body_of t (osFixture cf)
  else Some (match body_of t (str "/etc/os-release") with Some b => parseOSRelease b | None => distro_zero end).

(** An operation with the executor of the flags: a recorder of its own for a
    dry run, which reads the files of the host. *)
Definition recorder_of (t : Tree) : Recorder := NewRecorder (omap (fun n => if n_Dir n then None else Some (n_Body n)) t).
Definition on_exec {A : Type} (cf : commonFlags) (m : forall W, Executor W -> ST W A) : ST Sys A :=
  fun s => if dryRun cf then ((m Recorder RecordingExecutor (recorder_of (nodes s))).1, s) else m Sys (RealExecutor linux umask) s.

Definition exit_code (r : res IErr unit) : Z := match r with Ok _ => 0 | Err _ => 1 end.

Definition run (i : Invocation) : ST Sys Z := fun s =>
  let t := nodes s in
  match i with
  | RunInstall cf o =>
      match distro t cf with
      | None => (1, s)
      | Some _ => let '(r, s) := on_exec cf (fun W E => Install (H := E) linux RenderUnit DefaultConfigTemplate (env cf) o) s in (exit_code r, s)
      end
  | RunUpgrade cf o =>
      if NewBinary o == [] then (2, s)
      else let '(r, s) := on_exec cf (fun W E => Upgrade (H := E) linux (env cf) o) s in (exit_code r, s)
  | RunUninstall cf purge => let '(r, s) := on_exec cf (fun W E => Uninstall (H := E) linux (env cf) purge) s in (exit_code r, s)
  | RunStatus cf => let '(_, s) := on_exec cf (fun W E => Status (H0 := E) linux (env cf)) s in (0, s)
  | RunDoctor cf =>
      match distro t cf with
      | None => (1, s)
      | Some d =>
          let '(checks, s) := on_exec cf (fun W E => Doctor (H0 := E) linux onPath t (env cf) d) s in
          (if forallb k_OK checks then 0 else 1, s)
      end
  | RunMigrate cf legacyRoot force allowPartial =>
      let layout := if legacyRoot == [] then LegacyDefaults else Legacy.WithRoot legacyRoot LegacyDefaults in
      match Plan xml_elements (files_of t) layout with
      | Err _ => (1, s)
      | Ok (plan, _, _) =>
          if dryRun cf then (0, s)
          else
            let '(r, s) := on_exec cf (fun W E => Migrate (H0 := E) linux (env cf) plan {| MForce := force; AllowPartial := allowPartial |}) s in
            (exit_code r, s)
      end
  end.

(** [main]: the exit code of a command line without a subcommand to run. *)
Inductive Dispatch := Exits_ (code : Z) | Runs (sub : bytes).
Definition subcommands : list bytes := [str "install"; str "upgrade"; str "uninstall"; str "status"; str "doctor"; str "migrate-from-legacy"].
Definition main_dispatch (args : list bytes) : Dispatch :=
  match args with
  | [] => Exits_ 2
  | sub :: _ =>
      if bool_decide (sub ∈ [str "version"; str "help"; str "-h"; str "--help"]) then Exits_ 0
      else if bool_decide (sub ∈ subcommands) then Runs sub else Exits_ 2
  end.
End cli.

(** ** Lemmas *)
Section migrate.
Context `{Unicode} (umask : Z) (e : Env) (HL : layout e).
Abbreviation exec := (RealExecutor true umask).
#[local] Existing Instance RealExecutor.

Lemma t_first {A : Type} (P P' : Tree -> Prop) (m : ST Sys (res IErr A)) (Q : A -> Tree -> Prop) : triple P m Q -> triple (fun t => P t /\ P' t) m Q.
Proof. intros Hm. eapply t_weaken; [exact Hm|by intros t [Ht _]|done]. Qed.

(** The steps after the write keep what the file holds. *)
Lemma keeps_chmod (p : bytes) (b : option bytes) c q mode : triple (fun t => body_at p t = b) (wrap c (Chmod (Executor := exec) q mode)) (fun _ t => body_at p t = b).
Proof. apply t_wrap. eapply t_weaken; [apply t_chmod| |intros ? ? HQ; exact HQ]. cbv beta. intros t Ht _. by rewrite body_chmod. Qed.
Lemma keeps_chown (p : bytes) (b : option bytes) c q u g : triple (fun t => body_at p t = b) (wrap c (Chown (Executor := exec) q u g)) (fun _ t => body_at p t = b).
Proof. apply t_wrap. eapply t_weaken; [apply t_chown| |intros ? ? HQ; exact HQ]. cbv beta. intros t Ht _. by rewrite body_chown. Qed.

Lemma keeps_finalizeConfig (p : bytes) (b : option bytes) : triple (fun t => body_at p t = b) (finalizeConfigOwnership (H := exec) e) (fun _ t => body_at p t = b).
Proof.
  unfold finalizeConfigOwnership. eapply t_bind; [apply keeps_chown|]. intros []. eapply t_bind; [apply keeps_chmod|]. intros [].
  apply t_exists. intros there. apply t_first. destruct there; [apply keeps_chmod|apply t_ret].
Qed.

Lemma keeps_chmod_state (p : bytes) (b : option bytes) dir names : triple (fun t => body_at p t = b) (chmod_state (H := exec) dir names) (fun _ t => body_at p t = b).
Proof.
  induction names as [|name names IH]; cbn [chmod_state]; [apply t_ret|]. apply t_exists. intros there. apply t_first. destruct there; [|apply IH].
  eapply t_bind; [apply keeps_chmod|]. intros []. apply IH.
Qed.

(** A migration that goes through on the host. *)
Lemma t_Migrate plan o t0 :
  triple (fun t => t = t0) (Migrate (H0 := exec) true e plan o)
    (fun _ t => (AllowPartial o = true \/ unsupportedMigrationFields (Extract plan) = []) /\ (MForce o = true \/ body_at (ConfigPath e) t0 = None) /\
                body_at (ConfigPath e) t = Some (NewConfigYAML plan)).
Proof.
  unfold Migrate. destruct ((0 <? len (unsupportedMigrationFields (Extract plan))) && negb (AllowPartial o)) eqn:EF; [by intros s Hs HP; apply wp_ret|].
  assert (AllowPartial o = true \/ unsupportedMigrationFields (Extract plan) = []) as HA.
  { destruct (AllowPartial o); [by left|right]. rewrite andb_true_r in EF. destruct (unsupportedMigrationFields _); [done|]. cbn in EF. apply Z.ltb_ge in EF. unfold len in EF. cbn in EF. lia. }
  eapply (t_bind _ _ (fun _ t => t = t0)); [apply t_ignored, t_ignored, t_ret|]. intros [].
  eapply t_bind; [apply (t_ensureDirs umask (fun _ => Ok []) e HL t0)|]. intros []. apply t_exists. intros there.
  destruct (there && negb (MForce o)) eqn:ET; [by intros s Hs HP; apply wp_ret|].
  eapply (t_bind _ _ (fun _ t => (MForce o = true \/ body_at (ConfigPath e) t0 = None) /\ body_at (ConfigPath e) t = Some (NewConfigYAML plan))).
  - eapply t_weaken; [apply t_write| |intros ? ? HQ; exact HQ]. cbv beta. intros t [[_ Hb] Hthere]. split.
    + destruct (MForce o); [by left|right]. rewrite andb_true_r in ET. rewrite Hthere in ET. apply bool_decide_eq_false in ET. rewrite <- Hb. unfold body_at.
      destruct (t !! ConfigPath e); [|done]. exfalso. by apply ET.
    + destruct (put_file_at umask (ConfigPath e) (NewConfigYAML plan) (octal 6 4 0) t) as (n & Hn & Hbody). unfold body_at. rewrite Hn. cbn. by rewrite Hbody.
  - intros []. intros s Hs [HF Hbody]. revert s Hs Hbody.
    change (triple (fun t => body_at (ConfigPath e) t = Some (NewConfigYAML plan)) (bindE (finalizeConfigOwnership (H := exec) e) (fun _ => finalizeStatePermissions (H := exec) e))
      (fun _ t => (AllowPartial o = true \/ unsupportedMigrationFields (Extract plan) = []) /\ (MForce o = true \/ body_at (ConfigPath e) t0 = None) /\
                body_at (ConfigPath e) t = Some (NewConfigYAML plan))).
    eapply t_bind; [apply keeps_finalizeConfig|]. intros []. unfold finalizeStatePermissions. eapply t_bind; [apply keeps_chmod|]. intros [].
    eapply t_weaken; [apply keeps_chmod_state|intros t Ht; exact Ht|]. cbv beta. intros _ t Ht. by split_and!.
Qed.
End migrate.

Lemma exit_code_0 r : exit_code r = 0 -> r = Ok tt.
Proof. by destruct r as [|[]]. Qed.

(** ** Properties *)
Section properties.
Context `{Unicode} `{Printable}.
Context (umask : Z) (RenderUnit : Env -> res IErr bytes) (DefaultConfigTemplate : bytes).
Context (xml_elements : bytes -> list Element) (onPath : bytes -> bool).
Abbreviation run := (run true umask RenderUnit DefaultConfigTemplate xml_elements onPath).

(** C19: the installer's command line, on any host and whatever calls fail.  A
    dry run leaves the host as it was, for every subcommand, as do status and
    doctor.  The rest is for a host on which every stat answers, with paths
    whose trees are apart, and whatever other calls fail: an install that exits
    with 0 has secured the host and kept an unforced configuration; a migration
    that exits with 0 has found legacy state, all of it representable unless
    the operator accepted a partial one, and the configuration holds exactly
    the text rendered for it, which replaces an earlier one only when forced.
    (When a stat fails, the configuration may be rewritten unforced: see
    [blind_rewrites] of Installer.v.) *)
Theorem cli_contract i s code s' :
  run i s = (code, s') ->
  (dryRun (flags_of i) = true -> s' = s) /\
  (match i with RunStatus _ | RunDoctor _ => nodes s' = nodes s | _ => True end) /\
  (layout (env (flags_of i)) -> stats s = [] -> code = 0 -> dryRun (flags_of i) = false ->
   match i with
   | RunInstall cf o => installed RenderUnit DefaultConfigTemplate (env cf) o (nodes s) (nodes s')
   | RunMigrate cf lr force allowPartial =>
       exists plan w paths, Plan xml_elements (files_of (nodes s)) (if lr == [] then LegacyDefaults else Legacy.WithRoot lr LegacyDefaults) = Ok (plan, w, paths) /\
         (allowPartial = true \/ unsupportedMigrationFields (Extract plan) = []) /\ (force = true \/ body_at (ConfigPath (env cf)) (nodes s) = None) /\
         body_at (ConfigPath (env cf)) (nodes s') = Some (NewConfigYAML plan)
   | _ => True
   end).
Proof.
  intros E. unfold InstallerCli.run, on_exec in E. split; [|split].
  - intros HD. apply (f_equal snd) in E. destruct i as [cf o|cf o|cf purge|cf|cf|cf lr force ap]; cbn [flags_of] in HD; rewrite HD in E.
    + destruct (distro _ cf); cbn [snd] in E; by symmetry.
    + destruct (_ == _); cbn [snd] in E; by symmetry.
    + cbn [snd] in E; by symmetry.
    + cbn [snd] in E; by symmetry.
    + destruct (distro _ cf); cbn [snd] in E; by symmetry.
    + destruct (Plan _ _ _) as [|[[plan w] paths]]; cbn [snd] in E; by symmetry.
  - destruct i as [cf o|cf o|cf purge|cf|cf|cf lr force ap]; try done; apply (f_equal snd) in E.
    + destruct (dryRun cf); [cbn [snd] in E; by subst|]. unfold Status, systemctl, bind in E. cbn in E.
      by destruct (exit_ok s) as [|[] l]; subst.
    + destruct (distro _ cf) as [d|]; [|cbn [snd] in E; by subst]. destruct (dryRun cf); [cbn [snd] in E; by subst|].
      unfold Doctor, present_or_creatable, bind in E. cbn in E. destruct (stats s) as [|b [|b2 l]]; cbn in E; by subst.
  - intros HL Hs -> HD. destruct i as [cf o|cf o|cf purge|cf|cf|cf lr force ap]; try done; cbn [flags_of] in HD, HL; rewrite HD in E.
    + destruct (distro _ cf); [|done]. revert E. match goal with |- (let '(_, _) := ?m s in _) = _ -> _ => destruct (m s) as [r s1] eqn:EI end. intros E.
      pose proof (f_equal fst E) as Hc. apply (f_equal snd) in E. cbn [fst snd] in Hc, E. subst s1. apply exit_code_0 in Hc as ->.
      exact (proj2 (wp_elim _ _ _ _ _ (t_Install umask RenderUnit DefaultConfigTemplate (env cf) HL o (nodes s) s Hs eq_refl) EI)).
    + destruct (Plan _ _ _) as [|[[plan w] paths]]; [done|]. revert E. match goal with |- (let '(_, _) := ?m s in _) = _ -> _ => destruct (m s) as [r s1] eqn:EM end. intros E.
      pose proof (f_equal fst E) as Hc. apply (f_equal snd) in E. cbn [fst snd] in Hc, E. subst s1. apply exit_code_0 in Hc as ->.
      exists plan, w, paths. split; [done|].
      exact (proj2 (wp_elim _ _ _ _ _ (t_Migrate umask (env cf) HL plan {| MForce := force; AllowPartial := ap |} (nodes s) s Hs eq_refl) EM)).
Qed.
End properties.

(** ** A concrete host *)
Module Demo.
#[local] Existing Instance GoQuote.Demo.latin.
Import Installer.Demo.
Definition plain (body : bytes) : Node := {| n_Dir := false; n_Body := body; n_Mode := octal 6 4 4; n_Owner := str "root:root" |}.
Definition legacy_tree (extra : list (bytes * Node)) : Tree := list_to_map ([
  (str "/etc/dnsdist/.domain", plain (str "gw.example")); (str "/etc/proxy-gateway/tgbot.env", plain (str "TG_BOT_TOKEN=1:abc"))] ++ extra).
Definition flags_plain : commonFlags := {| dryRun := false; root := []; osFixture := [] |}.
Definition flags_dry : commonFlags := {| dryRun := true; root := []; osFixture := [] |}.
Definition go (i : Invocation) (t : Tree) := run true 18 unit_text conf (fun _ => []) (fun _ => true) i (host t).

(** The token has no administrator: refused, unless a partial migration is
    accepted; the dry run says nothing of it. *)
Example migrate_refused : (go (RunMigrate flags_plain [] false false) (legacy_tree [])).1 = 1.
Proof. by vm_compute. Qed.
Example dry_accepts : (go (RunMigrate flags_dry [] false false) (legacy_tree [])).1 = 0.
Proof. by vm_compute. Qed.
Example doctor_ok : (go (RunDoctor flags_plain) (list_to_map [])).1 = 1.
Proof. by vm_compute. Qed.
Example names : main_dispatch [str "migrate"] = Exits_ 2 /\ main_dispatch [str "doctor"] = Runs (str "doctor").
Proof. by vm_compute. Qed.
Example token_hidden : redact (str "123456:abcdef") = str "123…def".
Proof. by vm_compute. Qed.

Definition partial := go (RunMigrate flags_plain [] false true) (legacy_tree []).
Lemma partial_ok : run true 18 unit_text conf (fun _ => []) (fun _ => true) (RunMigrate flags_plain [] false true) (host (legacy_tree [])) = (0, partial.2).
Proof.
  assert (partial.1 = 0) as <- by (by vm_compute). change (partial = (partial.1, partial.2)). apply surjective_pairing.
Qed.
Lemma cli_contract_witness : body_at (str "/etc/5gpn/config.yaml") (nodes partial.2) <> None.
Proof.
  destruct (cli_contract 18 unit_text conf (fun _ => []) (fun _ => true) (RunMigrate flags_plain [] false true) (host (legacy_tree [])) 0 partial.2
    partial_ok) as (_ & _ & HM).
  destruct (HM layout_Defaults eq_refl eq_refl eq_refl) as (plan & w & paths & _ & _ & _ & Hb). intros E. exact (match eq_trans (eq_sym Hb) E in _ = o return match o with Some _ => True | None => False end with eq_refl => I end).
Defined.
End Demo.
