(* ===== verification/UnitFile.v ===== *)
(** * The unit file and the first configuration

    internal/installer/templates.go: the systemd unit, the configuration a
    fresh install gets, and [Render], which fills the first from the target
    environment.  Of text/template the model has what these templates use,
    text and the action [{{.Name}}] over a map of strings; any other action
    is an error here.  The texts are written with a back quote, which a raw
    string of Go cannot hold, in the place of each double quote.

    What the rendered file says is stated over its lines: a header in
    brackets opens a section, a line with an equals sign is a setting of it,
    and a line that starts with a number sign says nothing.  How systemd
    splits a value (quotes, a trailing backslash, specifiers) is outside. *)
From S2P Require Import Prelude GoStrings Exit ConfigFile Installer.
From Stdlib Require Import ZArith Lia.
Local Open Scope Z_scope.

Definition newline : byte := Byte.x0a.
Definition raw (s : String.string) : bytes := map (fun c => if c == Byte.x60 then Byte.x22 else c) (str s).

Definition UnitTemplate : bytes := raw "[Unit]
Description=5GPN personal gateway daemon
After=network-online.target
Wants=network-online.target

[Service]
Type=simple
User={{.User}}
Group={{.Group}}
# systemd-journal grants the daemon read access to the system journal so
# the panel's /api/v1/events/logs SSE can tail journalctl -u <unit>.
# Without it journalctl refuses with `No journal files were opened due
# to insufficient permissions.` and the Logs page stays disconnected.
SupplementaryGroups=systemd-journal
ExecStart={{.BinaryPath}} --config {{.ConfigPath}} --data {{.DataDir}}
Restart=on-failure
RestartSec=3s
TimeoutStopSec=15s
UMask=0077

NoNewPrivileges=yes
ProtectSystem=strict
ProtectHome=yes
# Runtime state is the only installer-owned tree the daemon may mutate.
# Config and binary updates require the privileged installer path.
ReadWritePaths={{.DataDir}}
PrivateTmp=yes
# CAP_NET_ADMIN is needed by the DNS front-door's upstream socket to set
# SO_MARK=0 so its DoT egress bypasses the pgw_exit nftables rules that
# would otherwise route the resolver's own queries back through a proxy
# tunnel. CAP_NET_BIND_SERVICE lets the non-root daemon bind :443/:853/:53.
# Both must be Ambient (in addition to Bounding) for a non-root User to
# actually retain them at exec time.
CapabilityBoundingSet=CAP_NET_BIND_SERVICE CAP_NET_ADMIN
AmbientCapabilities=CAP_NET_BIND_SERVICE CAP_NET_ADMIN
# Four listeners × per-listener connection tables + certmagic + QUIC
# read buffers can chew through the 1024 default; 65536 gives ~16× headroom
# for the 1-core VPS profile the plan targets.
LimitNOFILE=65536

[Install]
WantedBy=multi-user.target
".

Definition DefaultConfigTemplate : bytes := raw "# 5GPN panel config — written by 5gpn-installer install.
# Full schema: internal/config/schema.go
#
# All required fields are pre-filled with safe defaults so the daemon
# validates and boots on first run. Change these before exposing the
# panel to the internet:
#   - server.domain: hostname the panel serves under (TLS SAN, iOS profile)
#   - server.panel_bind: keep 127.0.0.1 until TLS/ACME is configured
#   - proxy.wa_shim.*: compatibility fields; v0.4.0 does not start WA-shim

server:
  domain: `panel.local`
  panel_bind: `127.0.0.1`
  panel_port: 8443
  tls:
    cert: ``
    key: ``

panel:
  session_ttl: 8h
  rate_limit:
    login_per_minute: 5
    lockout_minutes: 15

proxy:
  # Compatibility fields required by the current schema. The v0.4.0 daemon
  # does not start WA-shim; these values do not create a listener.
  wa_shim:
    listen: `127.0.0.1`
    port: 8447
    backend: `127.0.0.1:1080`
    wa_host: `www.apple.com`
    allow_cidr:
      - `127.0.0.1/32`
    max_conn: 100

tgbot:
  token: ``
  admin_chat_ids: []

ios:
  # Profiles are served by the panel HTTPS endpoint at
  # /ios-dot.mobileconfig. The legacy plaintext listener is disabled.
  http_port: 0
".

(** ** text/template *)
Inductive node := TText (s : bytes) | TField (name : bytes).

(** The first place where [sub] starts, with what is before and after it. *)
Fixpoint cut (sub s : bytes) : option (bytes * bytes) :=
  if HasPrefix s sub then Some ([], drop (length sub) s)
  else match s with
       | [] => None
       | c :: s' => match cut sub s' with Some (a, b) => Some (c :: a, b) | None => None end
       end.

Definition letter (c : byte) : bool :=
  ((65 <=? bz c) && (bz c <=? 90)) || ((97 <=? bz c) && (bz c <=? 122)).
Definition field (action : bytes) : option bytes :=
  match action with
  | c :: name => if (c == Byte.x2e) && (name != []) && forallb letter name then Some name else None
  | [] => None
  end.

Fixpoint parse_template (fuel : nat) (s : bytes) : option (list node) :=
  match fuel with
  | O => None
  | S fuel =>
      match cut (str "{{") s with
      | None => Some [TText s]
      | Some (before, rest) =>
          match cut (str "}}") rest with
          | None => None
          | Some (action, after) =>
              name ← field action;
              more ← parse_template fuel after;
              Some (TText before :: TField name :: more)
          end
      end
  end.

(** A key the map does not have prints as [<no value>]. *)
Definition print_node (data : gmap bytes bytes) (n : node) : bytes :=
  match n with TText s => s | TField k => default (str "<no value>") (data !! k) end.
Definition Execute (data : gmap bytes bytes) (ns : list node) : bytes := concat (map (print_node data) ns).

(** ** templates.go *)
Fixpoint lastSlash_loop (p : bytes) (i : nat) : option nat :=
  match i with
  | O => None
  | S i => if p !! i == Some slash then Some i else lastSlash_loop p i
  end.
Definition lastSlash (p : bytes) : option nat := lastSlash_loop p (length p).

Definition filepathDir (p : bytes) : bytes :=
  match lastSlash p with Some i => take i p | None => str "." end.

Definition template_data (env : Env) : gmap bytes bytes := list_to_map
  [(str "User", EUser env); (str "Group", EGroup env); (str "BinaryPath", BinaryPath env);
   (str "BinaryDir", filepathDir (BinaryPath env)); (str "ConfigPath", ConfigPath env);
   (str "ConfigDir", ConfigDir env); (str "DataDir", DataDir env)].

Definition Render (unit_ : bytes) (env : Env) : option bytes :=
  Execute (template_data env) <$> parse_template (S (length unit_)) unit_.

(** [Render(UnitTemplate, env)], as [ensureUnit] calls it. *)
Definition render_unit (env : Env) : res IErr bytes :=
  match Render UnitTemplate env with Some body => Ok body | None => Err (IText (str "template")) end.

(** ** What a unit file says *)
Definition sharp : byte := Byte.x23.
Definition equals : byte := Byte.x3d.
Record setting := { Section_ : bytes; Name : bytes; Val : bytes }.

Definition unit_line (acc : bytes * list setting) (l : bytes) : bytes * list setting :=
  let (section, es) := acc in
  match l with
  | [] => acc
  | c :: rest =>
      if c == sharp then acc
      else if c == Byte.x5b then (TrimSuffix rest [Byte.x5d], es)
      else match cut [equals] l with
           | Some (k, v) => (section, es ++ [{| Section_ := section; Name := k; Val := v |}])
           | None => acc
           end
  end.
Definition settings_of (file : bytes) : list setting := (foldl unit_line ([], []) (Split file newline)).2.

(** What the unit of an installation says. *)
Definition says (sec k : String.string) (v : bytes) : setting := {| Section_ := str sec; Name := str k; Val := v |}.
Definition unit_settings (e : Env) : list setting :=
  [says "Unit" "Description" (str "5GPN personal gateway daemon"); says "Unit" "After" (str "network-online.target");
   says "Unit" "Wants" (str "network-online.target");
   says "Service" "Type" (str "simple"); says "Service" "User" (EUser e); says "Service" "Group" (EGroup e);
   says "Service" "SupplementaryGroups" (str "systemd-journal");
   says "Service" "ExecStart" (BinaryPath e ++ str " --config " ++ ConfigPath e ++ str " --data " ++ DataDir e);
   says "Service" "Restart" (str "on-failure"); says "Service" "RestartSec" (str "3s"); says "Service" "TimeoutStopSec" (str "15s");
   says "Service" "UMask" (str "0077"); says "Service" "NoNewPrivileges" (str "yes"); says "Service" "ProtectSystem" (str "strict");
   says "Service" "ProtectHome" (str "yes"); says "Service" "ReadWritePaths" (DataDir e); says "Service" "PrivateTmp" (str "yes");
   says "Service" "CapabilityBoundingSet" (str "CAP_NET_BIND_SERVICE CAP_NET_ADMIN");
   says "Service" "AmbientCapabilities" (str "CAP_NET_BIND_SERVICE CAP_NET_ADMIN"); says "Service" "LimitNOFILE" (str "65536");
   says "Install" "WantedBy" (str "multi-user.target")].

(** No field of the environment breaks a line. *)
Definition one_line (e : Env) : Prop :=
  Forall (fun s => newline ∉ s) [EUser e; EGroup e; BinDir e; Binary e; ConfigDir e; DataDir e].

(** ** Lemmas *)

Lemma Split_one w : newline ∉ w -> Split w newline = [w].
Proof. apply Split_free_single. Qed.

(** The parts of the unit. *)
Definition unit_nodes : list node := Eval vm_compute in default [] (parse_template (S (length UnitTemplate)) UnitTemplate).

Lemma unit_parsed : parse_template (S (length UnitTemplate)) UnitTemplate = Some unit_nodes.
Proof. by vm_compute. Qed.

Definition node_lines (data : gmap bytes bytes) (n : node) : list bytes := Split (print_node data n) newline.

Lemma Execute_lines data ns : Split (Execute data ns) newline = foldr (fun n ls => glue (node_lines data n) ls) [[]] ns.
Proof. induction ns as [|n ns IH]; [done|]. unfold Execute. cbn [map concat foldr]. by rewrite Split_glue, <- IH. Qed.

Lemma data_lookup e :
  template_data e !! str "User" = Some (EUser e) /\ template_data e !! str "Group" = Some (EGroup e) /\
  template_data e !! str "BinaryPath" = Some (BinaryPath e) /\ template_data e !! str "ConfigPath" = Some (ConfigPath e) /\
  template_data e !! str "DataDir" = Some (DataDir e).
Proof. unfold template_data. cbn [list_to_map foldr uncurry]. repeat split; repeat (rewrite lookup_insert_ne by done); by rewrite ?lookup_insert_eq. Qed.

Lemma joined_line dir name : newline ∉ dir -> newline ∉ name -> newline ∉ Join2 dir name.
Proof. intros Hd Hn. unfold Join2. rewrite elem_of_app, elem_of_cons. by intros [|[|]]. Qed.

Lemma field_lines data k v : data !! k = Some v -> newline ∉ v -> node_lines data (TField k) = [v].
Proof. intros E Hv. unfold node_lines, print_node. rewrite E. by apply Split_one. Qed.

(** The lines of the rendered unit are those of the template with the fields
    in their places. *)
Lemma unit_lines e : one_line e ->
  foldl unit_line ([], []) (foldr (fun n ls => glue (node_lines (template_data e) n) ls) [[]] unit_nodes) = (str "Install", unit_settings e).
Proof.
  intros H. unfold one_line in H. rewrite !Forall_cons in H. destruct H as (Hu & Hg & Hb & Hbin & Hc & Hd & _).
  destruct (data_lookup e) as (Eu & Eg & Eb & Ec & Ed).
  assert (newline ∉ BinaryPath e) by by apply joined_line.
  assert (newline ∉ ConfigPath e) by (apply joined_line; [done|]; by apply (bool_decide_eq_true_1 _)).
  repeat match goal with E : _ !! str ?k = Some _ |- _ => let t := eval vm_compute in (str k) in change (str k) with t in E end.
  unfold unit_nodes. cbn [foldr].
  rewrite (field_lines _ _ _ Eu), (field_lines _ _ _ Eg), (field_lines _ _ _ Eb), (field_lines _ _ _ Ec), !(field_lines _ _ _ Ed) by done.
  unfold unit_settings. generalize (BinaryPath e), (ConfigPath e), (EUser e), (EGroup e), (DataDir e). intros bin config user group state.
  repeat match goal with |- context [node_lines ?d (TText ?s)] => let t := eval vm_compute in (Split s newline) in change (node_lines d (TText s)) with t end.
  cbn [glue app]. rewrite !app_nil_r. by vm_compute.
Qed.

(** ** Properties *)

(** the lines of the unit an installation writes, when no part of the
    environment holds a line break: one value for each setting,
    the user, the group, the command line and the one writable directory of the
    environment, and the hardening whatever the environment holds. *)
Theorem unit_reads e : one_line e -> exists body, Render UnitTemplate e = Some body /\ settings_of body = unit_settings e.
Proof.
  intros H. exists (Execute (template_data e) unit_nodes). unfold Render. rewrite unit_parsed. split; [done|].
  unfold settings_of. by rewrite Execute_lines, unit_lines.
Qed.

(** without the hypothesis the unit says what a field wants it to. *)
Example unit_injected :
  settings_of (default [] (Render UnitTemplate {| BinDir := BinDir Defaults; ConfigDir := ConfigDir Defaults; DataDir := DataDir Defaults;
    UnitDir := UnitDir Defaults; EUser := str "5gpn" ++ newline :: str "NoNewPrivileges=no"; EGroup := EGroup Defaults;
    Binary := Binary Defaults; EUnit := EUnit Defaults |})) !! 5%nat = Some (says "Service" "NoNewPrivileges" (str "no")).
Proof. by vm_compute. Qed.

(** a fresh configuration means itself: no variable of the environment
    changes what the parser gets. *)
Theorem default_config_literal Getenv : expand Getenv DefaultConfigTemplate = DefaultConfigTemplate.
Proof.
  assert (Forall piece_ok [Text DefaultConfigTemplate]) as H by (repeat constructor; apply (bool_decide_eq_true_1 _); by vm_compute).
  apply (expand_exact Getenv) in H. unfold source, meaning in H. cbn [map concat written meant] in H. by rewrite !app_nil_r in H.
Qed.

(** the step of the installation that writes the unit: the file at the
    unit's path, readable by all and written by its owner, with the settings. *)
Theorem ensureUnit_writes `{Executor W} e : one_line e ->
  exists body, settings_of body = unit_settings e /\ ensureUnit render_unit e = WriteFile (UnitPath e) body (octal 6 4 4).
Proof.
  intros He. destruct (unit_reads e He) as (body & E & Hb). exists body. split; [done|]. unfold ensureUnit, render_unit. by rewrite E.
Qed.

(** ** Witnesses *)
Lemma defaults_one_line : one_line Defaults.
Proof. repeat constructor; apply (bool_decide_eq_true_1 _); by vm_compute. Qed.

Example defaults_unit : (fun s => Val s) <$> settings_of (default [] (Render UnitTemplate Defaults)) !! 7%nat
  = Some (str "/usr/local/bin/5gpn --config /etc/5gpn/config.yaml --data /var/lib/5gpn").
Proof. by vm_compute. Qed.
Example dirs : map filepathDir [str "/usr/local/bin/5gpn"; str "/5gpn"; str "5gpn"] = [str "/usr/local/bin"; []; str "."].
Proof. by vm_compute. Qed.
