(* ===== verification/TlsConfigs.v ===== *)
(** * The TLS configurations of the encrypted transports

    internal/frontdoor/tlsconfigs.go: the four configurations built at the
    start of the daemon.  A session cache is known by its address, so the
    allocation of one is a fresh number; the random generator is the answers
    it gives in turn, [None] for a failure. *)
From S2P Require Import Prelude GoStrings.
From Stdlib Require Import ZArith Lia.

Section tls.
Context {Certificate : Type}.

(** [tls.Config]: the fields the code sets. *)
Record tlsConfig := {
  GetCertificate : bytes -> option Certificate;   (* of the server name in the ClientHello *)
  NextProtos : list bytes; MinVersion : Z; ClientSessionCache : nat; SessionTicketKey : bytes
}.
Record TLSConfigs := { DoT : tlsConfig; DoH : tlsConfig; DoQ : tlsConfig; DoH3 : tlsConfig }.

Record TW := { draws : list (option bytes); next_cache : nat }.
Inductive TlsErr := NoCert | TicketKey (which : bytes).

Definition VersionTLS12 : Z := 0x303.

(** [rand.Read] on 32 bytes. *)
Definition newSessionTicketKey : ST TW (option bytes) := fun w =>
  match draws w with
  | [] => (None, w)
  | d :: rest => (d, {| draws := rest; next_cache := next_cache w |})
  end.

(** [tls.NewLRUClientSessionCache]. *)
Definition NewLRUClientSessionCache : ST TW nat := fun w =>
  (next_cache w, {| draws := draws w; next_cache := S (next_cache w) |}).

Definition newProtocolTLSConfig (getCertificate : bytes -> option Certificate) (nextProtos : list bytes) (which : bytes)
    : ST TW (res TlsErr tlsConfig) :=
  let! k := newSessionTicketKey in
  match k with
  | None => ret (Err (TicketKey which))
  | Some key =>
      let! cache := NewLRUClientSessionCache in
      ret (Ok {| GetCertificate := getCertificate; NextProtos := nextProtos; MinVersion := VersionTLS12;
                 ClientSessionCache := cache; SessionTicketKey := key |})
  end.

(** [getCert] is [None] for a nil function; a call of it may fail. *)
Definition BuildTLSConfigs (getCert : option (unit -> option Certificate)) : ST TW (res TlsErr TLSConfigs) :=
  match getCert with
  | None => ret (Err NoCert)
  | Some getCert =>
      let getCertificate := fun _ => getCert tt in
      let? dot := newProtocolTLSConfig getCertificate [str "dot"] (str "dot") in
      let? doh := newProtocolTLSConfig getCertificate [str "h2"; str "http/1.1"] (str "doh") in
      let? doq := newProtocolTLSConfig getCertificate [str "doq"] (str "doq") in
      let? doh3 := newProtocolTLSConfig getCertificate [str "h3"] (str "doh3") in
      ret (Ok {| DoT := dot; DoH := doh; DoQ := doq; DoH3 := doh3 |})
  end.

(** ** Properties *)
Definition all_configs (c : TLSConfigs) : list tlsConfig := [DoT c; DoH c; DoQ c; DoH3 c].

(** What a connection agrees on: the first protocol of the server the client
    offers. *)
Definition negotiate (c : tlsConfig) (offered : list bytes) : option bytes :=
  head (filter (fun p => p ∈ offered) (NextProtos c)).

Lemma protocol_spec g protos which w :
  newProtocolTLSConfig g protos which w =
  match draws w with
  | Some key :: rest =>
      (Ok {| GetCertificate := g; NextProtos := protos; MinVersion := VersionTLS12; ClientSessionCache := next_cache w; SessionTicketKey := key |},
       {| draws := rest; next_cache := S (next_cache w) |})
  | None :: rest => (Err (TicketKey which), {| draws := rest; next_cache := next_cache w |})
  | [] => (Err (TicketKey which), w)
  end.
Proof. unfold newProtocolTLSConfig, bind, newSessionTicketKey. by destruct (draws w) as [|[k|] rest]. Qed.

(** the configurations exist exactly when the generator answers four
    times; each has a ticket key of its own draw and a session cache nobody else
    has, and all of them ask the one provider for the certificate whatever name
    the client sends. *)
Theorem BuildTLSConfigs_isolates getCert w c w' :
  BuildTLSConfigs (Some getCert) w = (Ok c, w') <->
  exists k1 k2 k3 k4, draws w = [Some k1; Some k2; Some k3; Some k4] ++ draws w' /\ next_cache w' = (4 + next_cache w)%nat /\
  map SessionTicketKey (all_configs c) = [k1; k2; k3; k4] /\
  map ClientSessionCache (all_configs c) = seq (next_cache w) 4 /\
  map NextProtos (all_configs c) = [[str "dot"]; [str "h2"; str "http/1.1"]; [str "doq"]; [str "h3"]] /\
  Forall (fun x => GetCertificate x = (fun _ => getCert tt) /\ MinVersion x = VersionTLS12) (all_configs c).
Proof.
  unfold BuildTLSConfigs, bindE, bind. split.
  - intros E. repeat (rewrite protocol_spec in E; cbn [draws next_cache] in E).
    destruct (draws w) as [|[k1|] [|[k2|] [|[k3|] [|[k4|] rest]]]]; cbn in E; unfold ret in E; simplify_eq.
    exists k1, k2, k3, k4. cbn. repeat split; auto. repeat constructor.
  - intros (k1 & k2 & k3 & k4 & Ed & En & Ek & Ec & Ep & Hg). destruct c as [[] [] [] []], w' as [d' n']. unfold all_configs in *. cbn in *.
    rewrite !Forall_cons in Hg. destruct Hg as ([] & [] & [] & [] & _). simplify_eq/=.
    repeat (rewrite protocol_spec; cbn [draws next_cache]; rewrite ?Ed; cbn). done.
Qed.

(** no protocol is agreed on by two of the four. *)
Theorem protocols_apart getCert w c w' i j ci cj offered p :
  BuildTLSConfigs (Some getCert) w = (Ok c, w') -> all_configs c !! i = Some ci -> all_configs c !! j = Some cj ->
  negotiate ci offered = Some p -> negotiate cj offered = Some p -> i = j.
Proof.
  intros (k1 & k2 & k3 & k4 & _ & _ & _ & _ & Ep & _)%BuildTLSConfigs_isolates Hi Hj Ni Nj.
  assert (forall i ci, all_configs c !! i = Some ci -> negotiate ci offered = Some p ->
    map NextProtos (all_configs c) !! i = Some (NextProtos ci) /\ p ∈ NextProtos ci) as HN.
  { intros i0 x Hx Hn. rewrite list_lookup_fmap, Hx. split; [done|]. apply head_Some_elem_of in Hn.
    by apply list_elem_of_filter in Hn as [_ ?]. }
  destruct (HN i ci Hi Ni) as [Ei Pi], (HN j cj Hj Nj) as [Ej Pj]. rewrite Ep in Ei, Ej.
  destruct i as [|[|[|[|i]]]], j as [|[|[|[|j]]]]; cbn in Ei, Ej; simplify_eq; try done;
    rewrite <- Ei in Pi; rewrite <- Ej in Pj; exfalso; revert Pi Pj; rewrite !list_elem_of_In; cbn; intuition (subst; done).
Qed.
End tls.

(** ** Witnesses *)
Module Demo.
Definition key (b : byte) : bytes := replicate 32 b.
Definition w0 : TW := {| draws := map (fun b => Some (key b)) [Byte.x01; Byte.x02; Byte.x03; Byte.x04]; next_cache := 7 |}.
Definition built : res TlsErr (@TLSConfigs nat) * TW := BuildTLSConfigs (Some (fun _ => Some 1%nat)) w0.
Definition c0 : @TLSConfigs nat := Eval vm_compute in
  match built.1 with
  | Ok c => c
  | Err _ => let z := {| GetCertificate := fun _ => None; NextProtos := []; MinVersion := 0; ClientSessionCache := 0; SessionTicketKey := [] |} in
      {| DoT := z; DoH := z; DoQ := z; DoH3 := z |}
  end.

Example dry : (BuildTLSConfigs (Some (fun _ => Some 1%nat)) {| draws := [Some []; None]; next_cache := 0 |}).1 = Err (TicketKey (str "doh")).
Proof. by vm_compute. Qed.
Example no_cert : (BuildTLSConfigs (Certificate := nat) None w0).1 = Err NoCert.
Proof. by vm_compute. Qed.

Lemma c0_built : BuildTLSConfigs (Some (fun _ => Some 1%nat)) w0 = (Ok c0, {| draws := []; next_cache := 11 |}).
Proof. by vm_compute. Qed.

Lemma protocols_apart_witness : negotiate (DoH c0) [str "dot"; str "h2"] = Some (str "h2") /\ 1%nat = 1%nat.
Proof.
  assert (negotiate (DoH c0) [str "dot"; str "h2"] = Some (str "h2")) as N by by vm_compute. split; [done|].
  exact (protocols_apart _ _ _ _ 1 1 (DoH c0) (DoH c0) _ _ c0_built eq_refl eq_refl N N).
Defined.
End Demo.
